(* ===== verification/_CoqProject ===== *)
-Q . S2P
Prelude.v
JSNum.v
JSString.v
JSDate.v
HostUnicode.v
JSON.v
JSRegExp.v
JSONText.v
DailyQuestion.v
AuthRoutes.v
AuthState.v
Connect.v
OAuth.v
TagUnicodeData.v
TagGrammar.v
MarkdownSource.v
GFMUrl.v
GFMEmail.v
MarkdownEdit.v
TaskActions.v
MarkdownPlugins.v
Mention.v
MarkdownTagRanges.v
RemarkContext.v
RemarkTag.v
TagEditor.v
EditorCache.v
AutoSave.v
EditorStore.v
HomeToday.v
StyleReactions.v
MemoRichText.v
Diagnostics.v
InstanceContent.v
MusicPlayer.v
ListIndent.v
MemoFilters.v
BlogProgress.v
SpaceRoutes.v
RemarkRichText.v
PrivacyCheck.v
Formatting.v
ManagedAttachment.v
MediaMetadata.v
MemoPoll.v
MediaItem.v
AttachmentItems.v
AudioRecorder.v
Theme.v
ViewContext.v
AuthContext.v
MemoSave.v
UploadAnchors.v
InlineUpload.v
MemoCardHeight.v
ColumnGrid.v
MemoQueries.v
LiveStream.v
LiveTabs.v
