(* ===== verification/Prelude.v ===== *)
(** * The memos web client, modelled and verified

    A shallow embedding of the core logic of the TypeScript client under [web/src] of the
    memos repository.  JavaScript strings are lists of UTF-16 code units ([jstring],
    each unit a [Z]); numbers used as offsets are [nat], others [Z] or [Q]; [undefined]
    and exceptions are [option] or a sum; mutable modules are records passed through
    their operations; what several tabs or timers do is a step relation over events.

    ** Foundation

    - [Prelude]: notation scope, tactics ([bool_prop]), hint databases, JavaScript loops
      ([while_m] with a measure, [while_] with fuel and its exit theorems), [js_find],
      [js_filter], sorting, spans of lists.
    - [JSNum], [JSString], [JSDate], [JSON], [JSONText], [JSRegExp], [HostUnicode]: the parts
      of ECMAScript the code uses.  [JSRegExp] is the backtracking matcher, with a
      relational reading proved equal to it; [JSONText] is [JSON.parse] and
      [JSON.stringify] with their round trip; [HostUnicode] is the class of the host's
      Unicode operations, with an ASCII instance.

    ** Components (file: source under web/src)

    - [TagGrammar], [TagUnicodeData]: utils/tag-grammar.ts, utils/tag-unicode-data.ts.  The
      scanner of tags against a declarative grammar (longest match, completeness of the
      enumeration of a run).
    - [MarkdownSource], [GFMUrl], [GFMEmail]: utils/markdown-source-boundaries.ts,
      markdown-link.ts, gfm-url.ts, gfm-email.ts.  URLs and emails as GFM writes them,
      found completely; the syntax tree and the parser are parameters.
    - [MarkdownTagRanges], [TagEditor]: the tags of the editor's document
      (MemoEditor/Editor/markdownTagRanges.ts) against the tree and the literals in it,
      and their completion and decoration (tagAutocomplete.ts, tagHighlight.ts).
    - [TaskActions]: utils/markdown-task-actions.ts, on the list items of [MarkdownEdit].
    - [RemarkContext], [RemarkTag], [RemarkRichText]: utils/remark-plugins.  What a memo
      shows of its source: the runs of literal text aligned with the tree, the mentions
      and tags made of them, and the size, spoiler and alignment markers paired in it.
    - [MarkdownPlugins]: rehype-heading-id.ts and remark-split-mixed-task-lists.ts, on the
      slugs of [MarkdownEdit].  The visitor of the tree is a parameter, an order of paths.
    - [MarkdownEdit], [Mention], [MemoRichText], [ListIndent]: markdown-manipulation.ts,
      mention-grammar.ts and username.ts, memo-rich-text.ts, Editor/listIndent.ts.
    - [Formatting]: MemoEditor/Editor/formatting.ts and MemoEditor/formatting/commands.ts.
      The toolbar's commands on a document, its selection and its tree: a button pressed
      twice gives the text back, and is lit in between.  The classes [SyntaxTree] and
      [EditorHost] stand for CodeMirror's tree and its application of changes.
    - [EditorCache], [AutoSave], [EditorStore]: MemoEditor/services/cacheService.ts,
      hooks/useAutoSave.ts and MemoEditor/state.  Drafts with timers as event sequences,
      the hook that writes them as the editor mounts, changes and leaves, and the reducer.
    - [AudioRecorder]: MemoEditor/hooks/useAudioRecorder.ts with what the editor does with
      it.  The microphone, the recorder and the timer belong to an environment whose
      streams are open until they are stopped.
    - [ManagedAttachment], [MemoPoll], [MemoSave]: utils/managed-attachment.ts and parts of
      utils/attachment.ts, utils/memo-poll.ts, and MemoEditor/services (memoService,
      uploadService, validationService) with hooks/useMemoSave.ts and
      MemoMetadata/Relation/relationHelpers.ts.  Saving runs on [EditorStore]; the RPC
      clients are the class [MemoService], and the update it sends is proved to reach
      the state the editor shows.
    - [UploadAnchors], [InlineUpload]: Editor/uploadAnchors.ts with Editor/controller.ts,
      and hooks/useInlineImageUpload.ts.  Placeholders in the document, and the jobs that
      upload files into it: an [await] ends an event, and the store is [EditorStore]'s.
    - [MediaItem], [AttachmentItems], [MemoCardHeight], [ColumnGrid]: utils/media-item.ts,
      the editor's list of attachments (MemoEditor/types/attachment.ts, with the pairing of
      picked files of hooks/useFileUpload.ts), the estimate of a card's height in the list,
      and the columns its cards are laid out in (components/ColumnGrid/ColumnGrid.tsx).
    - [MemoQueries]: hooks/useMemoQueries.ts.  The optimistic updates of the cached memos
      and their rollback over the class [QueryClient], whose laws a list of entries has.
    - [MemoFilters]: hooks/useMemoFilters.ts, lib/cel-filter.ts, and parts of
      contexts/MemoFilterContext.tsx, lib/resource-names.ts and lib/memo-views.ts.
    - [SpaceRoutes]: lib/space-routes.ts, lib/memo-views.ts, AppSidebar/routes.ts,
      MemoView/navigation.ts, the search of QuickFindDialog.tsx and the redirect of
      contexts/SpaceContext.tsx.  The router's [matchPath] is a parameter.
    - [Theme], [ViewContext], [AuthContext]: utils/theme.ts, contexts/ViewContext.tsx and
      contexts/AuthContext.tsx.  What the page wears, the view a visitor chose and what is
      stored of it, and the session with the settings of its user, each as events in any
      order.
    - [PrivacyCheck]: utils/privacy-check.ts.
    - [AuthRoutes], [AuthState], [Connect], [OAuth]: utils/redirect-safety.ts,
      utils/auth-redirect.ts, router/routes.ts, auth-state.ts, connect.ts, utils/oauth.ts.
    - [LiveStream], [LiveTabs]: hooks/useLiveMemoRefresh.ts, one tab's stream and the
      leadership of all tabs.
    - [Diagnostics]: lib/frontend-diagnostics.ts.  The recent events, the stored queue of
      reports and its delivery.
    - [InstanceContent], [MusicPlayer]: the pages and site configuration of an instance,
      and the music player of its pages.
    - [MediaMetadata]: MemoEditor/services/mediaMetadataService.ts.  What is read from the
      EXIF data of a photo and from a video, against the checks that the server makes of it
      (server/router/api/v1/attachment_media_metadata.go, the only Go that is modelled).
    - [DailyQuestion], [HomeToday], [StyleReactions], [BlogProgress]:
      utils/daily-question.ts, home-today.ts, style-reactions.ts, and blog-progress.ts with
      what the style engine and the cards of components/StyledBlog do to the progress:
      discoveries, posts read, the streak of visits and the achievements, and their stored
      text.

    The files meet where the code does: [Connect] runs on [AuthState] and [AuthRoutes],
    [GFMEmail] on [GFMUrl] and [MarkdownSource], [EditorCache] and [MemoFilters] on
    [JSONText], [ListIndent] and [MemoRichText] on [JSRegExp], [Formatting] on both,
    [MemoSave] on [EditorStore], [ManagedAttachment] and [MemoPoll], [InlineUpload] on
    [MemoSave] and [UploadAnchors], [MarkdownTagRanges] on the scanners, [RemarkTag] on
    [RemarkContext] and the scanners, [AutoSave] on [EditorCache], [AttachmentItems] on
    [MediaItem], [MarkdownPlugins] on [MarkdownEdit], [ViewContext] on [Theme] and on the
    stored JSON, [BlogProgress] on [StyleReactions], [HomeToday] and the stored JSON, and
    [SpaceRoutes] on [AuthRoutes] and [MemoFilters].

    ** What the theorems show

    - Exactness of the scanners: tags, mentions, URLs and emails are what a declarative
      grammar says, and all of them.
    - Round trips: drafts, OAuth states, filters in the URL, JSON, site configurations,
      the stored view, the pages of a Space.
    - Progress: queued reports are delivered and inserted files uploaded, whatever the
      order of the events between, as long as the editor stays and the references can be
      written; starting a session ends its loading.
    - Safety: redirects stay on the origin, a state is validated once, one tab leads, one
      refresh at a time, a search value stays in its literal, a microphone is released, a
      user gets no settings but their own while requests do not cross, a draft that was not
      discarded is on the disk when the editor is gone, and cards do not overlap.
    - Invariants of event sequences: the draft timers, the token manager, the tabs, the
      uploads, the order of the player, the theme, the view and what is stored of it, and
      the progress through the blog.  What an event sequence owes to the past (a draft was
      discarded, a visitor has chosen, the server has served some settings) is told from
      the events, not from the flags of the code.
    - Functional behaviour of the edits and of the daily and calendar features.
    - Errors and findings: inputs on which the code does not do what it means to.

    ** Bounds and fuel

    A loop runs under a measure ([while_m]), so that its exit is proved and the fuel never
    shows; a [fuel] argument that remains is given the length of its input plus a
    constant, or the number of elements of a set, and the lemmas on the function start
    from that value.  The regular-expression star takes the rest of the string as fuel,
    each turn advancing ([run_complete]).  Labels parsed again inside labels descend at
    most [reparse_depth] levels, the bound of the parser parameter, and
    [literal_walk_terminates] shows that the walk never stops short under it.

    ** Not modelled

    Rendering (React components), the query and RPC libraries, CodeMirror, the Markdown
    parser, browser media APIs, generated protocol code, translation files, the banks of
    daily questions and the Go server but for the check of media metadata.  Numbers with a
    fraction are not printed as JSON: the round trip of a draft is for attachments without.
    Third-party code the modelled code calls is a parameter (a class or an argument) with
    what the code relies on as its laws. *)

From stdpp Require Export base tactics list list_numbers numbers option strings gmap sets sorting.
From Stdlib Require Export ZArith Lia.

(** ** Notation scope of the development *)

Declare Scope memos_scope.
Delimit Scope memos_scope with memos.
Open Scope Z_scope.

(** ** Loops

    A JavaScript [while]/[for] loop is a body of type [S -> option S] on the
    variables it assigns: [None] when the loop is left (the condition is false, or
    a [break]), [Some s'] for one more turn.  [while_m m body s] runs it with the
    fuel [S (m s)].  [while_m_exit] is the termination theorem: when [m] decreases
    on every turn the loop is left by its own condition, never by the fuel, and
    [while_m_unfold] is then the loop's fixed-point equation. *)

Fixpoint while_ {S : Type} (fuel : nat) (body : S -> option S) (s : S) : S :=
  match fuel with
  | O => s
  | Datatypes.S fuel' =>
      match body s with
      | None => s
      | Some s' => while_ fuel' body s'
      end
  end.

Definition while_m {S : Type} (m : S -> nat) (body : S -> option S) (s : S) : S :=
  while_ (Datatypes.S (m s)) body s.

(** Every turn of the loop decreases the measure. *)
Definition decreases {S : Type} (m : S -> nat) (body : S -> option S) : Prop :=
  forall s s', body s = Some s' -> (m s' < m s)%nat.

(** The same, for the states that satisfy an invariant of the loop. *)
Definition decreases_on {S : Type} (I : S -> Prop) (m : S -> nat) (body : S -> option S) : Prop :=
  forall s s', I s -> body s = Some s' -> I s' /\ (m s' < m s)%nat.

Section Loops.
Context {S : Type}.
Implicit Types (m : S -> nat) (body : S -> option S) (I : S -> Prop) (s : S).

Lemma while_fuel_on I m body s n1 n2 :
  decreases_on I m body -> I s -> (m s < n1)%nat -> (m s < n2)%nat ->
  while_ n1 body s = while_ n2 body s.
Proof.
  intros D. revert s n2.
  induction n1 as [|n1 IH]; intros s n2 HI H1 H2; [lia|].
  destruct n2 as [|n2]; [lia|]. simpl.
  destruct (body s) as [s'|] eqn:E; [|done].
  destruct (D _ _ HI E). apply IH; [done|lia|lia].
Qed.

Lemma while_m_unfold_on I m body s :
  decreases_on I m body -> I s ->
  while_m m body s = match body s with None => s | Some s' => while_m m body s' end.
Proof.
  intros D HI. unfold while_m at 1. simpl.
  destruct (body s) as [s'|] eqn:E; [|done].
  destruct (D _ _ HI E). unfold while_m.
  eapply while_fuel_on; [done|done|lia|lia].
Qed.

Lemma while_m_inv_exit I m body s :
  decreases_on I m body -> I s ->
  I (while_m m body s) /\ body (while_m m body s) = None.
Proof.
  intros D. remember (m s) as n eqn:En. revert s En.
  induction (lt_wf n) as [n _ IH]; intros s -> HI.
  rewrite (while_m_unfold_on I) by done.
  destruct (body s) as [s'|] eqn:E; [|done].
  destruct (D _ _ HI E). eapply IH; eauto.
Qed.

Lemma decreases_total m body : decreases m body -> decreases_on (fun _ => True) m body.
Proof. intros D s s' _ E. split; [done|by eapply D]. Qed.

Lemma while_m_unfold m body s :
  decreases m body ->
  while_m m body s = match body s with None => s | Some s' => while_m m body s' end.
Proof. intros D. eapply while_m_unfold_on; [by apply decreases_total|done]. Qed.

Lemma while_m_exit m body s : decreases m body -> body (while_m m body s) = None.
Proof. intros D. by apply (while_m_inv_exit (fun _ => True)); [apply decreases_total|]. Qed.

(** Rule of invariants: no hypothesis on the measure is needed. *)
Lemma while_m_inv I m body s :
  (forall s1 s2, I s1 -> body s1 = Some s2 -> I s2) -> I s -> I (while_m m body s).
Proof.
  intros Hstep. unfold while_m. generalize (Datatypes.S (m s)) as n.
  intros n; revert s. induction n as [|n IH]; intros s HI; simpl; [done|].
  destruct (body s) as [s'|] eqn:E; [|done]. apply IH. by eapply Hstep.
Qed.
End Loops.

(** Several turns of a loop, and the states a run goes through. *)
Inductive turns {S : Type} (body : S -> option S) : S -> S -> Prop :=
  | turns_refl s : turns body s s
  | turns_step s s' s'' : body s = Some s' -> turns body s' s'' -> turns body s s''.

Section Turns.
Context {S : Type}.
Implicit Types (m : S -> nat) (body : S -> option S) (s : S).

Lemma turns_snoc body s s' s'' : turns body s s' -> body s' = Some s'' -> turns body s s''.
Proof. induction 1; eauto using @turns. Qed.

Lemma while_m_turns m body s : turns body s (while_m m body s).
Proof.
  apply (while_m_inv (turns body s)); [|constructor]. eauto using turns_snoc.
Qed.

Lemma turns_while_m m body s s' :
  decreases m body -> turns body s s' -> while_m m body s = while_m m body s'.
Proof.
  intros D. induction 1 as [|s s' s'' E _ IH]; [done|].
  by rewrite (while_m_unfold m body s D), E.
Qed.

Lemma turns_exit m body s s' :
  decreases m body -> turns body s s' -> body s' = None -> while_m m body s = s'.
Proof.
  intros D Ht E. rewrite (turns_while_m _ _ _ _ D Ht).
  by rewrite (while_m_unfold m body s' D), E.
Qed.

Lemma turns_measure m body s s' : decreases m body -> turns body s s' -> (m s' <= m s)%nat.
Proof.
  intros D. induction 1 as [|s s' s'' E _ IH]; [done|]. specialize (D _ _ E). lia.
Qed.
End Turns.

(** ** Small list library *)

(** The first element that satisfies a test, JavaScript's [find]. *)
Fixpoint js_find {A} (p : A -> bool) (l : list A) : option A :=
  match l with
  | [] => None
  | x :: l' => if p x then Some x else js_find p l'
  end.

(** Keep the elements that pass a boolean test, JavaScript's [filter]. *)
Fixpoint js_filter {A} (p : A -> bool) (l : list A) : list A :=
  match l with
  | [] => []
  | x :: l' => if p x then x :: js_filter p l' else js_filter p l'
  end.

Section Lists.
Context {A : Type}.
Implicit Types (p : A -> bool) (l : list A).

Lemma js_find_Some p l x : js_find p l = Some x -> x ∈ l /\ p x = true.
Proof.
  induction l as [|y l IH]; simpl; [done|].
  destruct (p y) eqn:E; intros H.
  - simplify_eq. split; [by left|done].
  - destruct (IH H). split; [by right|done].
Qed.

Lemma js_find_None p l : js_find p l = None <-> forall x, x ∈ l -> p x = false.
Proof.
  induction l as [|y l IH]; simpl.
  - split; [intros _ x Hx; inversion Hx|done].
  - destruct (p y) eqn:E; split; intros H; try done.
    + specialize (H y (list_elem_of_here _ _)). congruence.
    + intros x Hx. apply elem_of_cons in Hx as [->|Hx]; [done|]. by apply IH.
    + apply IH. intros x Hx. apply H. by right.
Qed.

Lemma js_find_first p l x :
  js_find p l = Some x ->
  exists l1 l2, l = l1 ++ x :: l2 /\ p x = true /\ forall y, y ∈ l1 -> p y = false.
Proof.
  induction l as [|y l IH]; simpl; [done|].
  destruct (p y) eqn:E; intros H.
  - simplify_eq. exists [], l. repeat split; [done|]. intros y Hy; inversion Hy.
  - destruct (IH H) as (l1 & l2 & -> & Hx & Hl).
    exists (y :: l1), l2. repeat split; [done|].
    intros z Hz. apply elem_of_cons in Hz as [->|Hz]; auto.
Qed.

Lemma js_filter_In p l x : x ∈ js_filter p l <-> x ∈ l /\ p x = true.
Proof.
  induction l as [|y l IH]; simpl.
  - split; [intros H; inversion H|intros [H _]; inversion H].
  - destruct (p y) eqn:E; rewrite ?elem_of_cons, IH; naive_solver congruence.
Qed.

Lemma js_filter_sublist p l : js_filter p l `sublist_of` l.
Proof.
  induction l as [|y l IH]; simpl; [constructor|].
  destruct (p y); by constructor.
Qed.

Lemma js_filter_app p l1 l2 : js_filter p (l1 ++ l2) = js_filter p l1 ++ js_filter p l2.
Proof.
  induction l1 as [|y l1 IH]; simpl; [done|]. rewrite IH. by destruct (p y).
Qed.
Lemma js_filter_all p l : forallb p l = true -> js_filter p l = l.
Proof.
  induction l as [|x l IH]; simpl; [done|]. rewrite andb_true_iff.
  intros [-> ?]. by rewrite IH.
Qed.
End Lists.

(** [Array.from(new Set(l))]: the first occurrence of each element, in order. *)
Fixpoint dedup_from {A} `{EqDecision A} (seen l : list A) : list A :=
  match l with
  | [] => []
  | x :: l' => if decide (x ∈ seen) then dedup_from seen l' else x :: dedup_from (x :: seen) l'
  end.
Definition dedup {A} `{EqDecision A} (l : list A) : list A := dedup_from [] l.

Section Dedup.
Context {A : Type} `{EqDecision A}.
Implicit Types (l seen : list A).

Lemma elem_of_dedup_from seen l x : x ∈ dedup_from seen l <-> x ∈ l /\ x ∉ seen.
Proof.
  revert seen. induction l as [|y l IH]; intros seen; simpl.
  - split; [intros H; inversion H|intros [H _]; inversion H].
  - case_decide; rewrite ?elem_of_cons, IH, ?not_elem_of_cons; [naive_solver|].
    destruct (decide (x = y)) as [->|]; naive_solver.
Qed.

Lemma elem_of_dedup l x : x ∈ dedup l <-> x ∈ l.
Proof. unfold dedup. rewrite elem_of_dedup_from. set_solver. Qed.

Lemma NoDup_dedup l : NoDup (dedup l).
Proof.
  unfold dedup. generalize (@nil A) as seen. induction l as [|y l IH]; intros seen; simpl.
  - constructor.
  - case_decide; [apply IH|]. constructor; [|apply IH].
    rewrite elem_of_dedup_from. set_solver.
Qed.

Lemma dedup_from_snoc seen l x :
  dedup_from seen (l ++ [x]) = if decide (x ∈ seen \/ x ∈ l) then dedup_from seen l else dedup_from seen l ++ [x].
Proof.
  revert seen. induction l as [|y l IH]; intros seen; cbn [app dedup_from].
  - destruct (decide (x ∈ seen)); [rewrite decide_True by auto|rewrite decide_False by set_solver]; done.
  - destruct (decide (y ∈ seen)) as [Hy|Hy]; rewrite IH.
    + repeat case_decide; try done; set_solver.
    + repeat case_decide; try done; set_solver.
Qed.

Lemma dedup_snoc l x : dedup (l ++ [x]) = if decide (x ∈ dedup l) then dedup l else dedup l ++ [x].
Proof.
  change (dedup (l ++ [x])) with (dedup_from [] (l ++ [x])). rewrite dedup_from_snoc. change (dedup_from [] l) with (dedup l).
  destruct (decide (x ∈ [] \/ x ∈ l)) as [Hc|Hc], (decide (x ∈ dedup l)) as [Hd|Hd]; try done; rewrite elem_of_dedup in Hd; set_solver.
Qed.

Lemma dedup_from_id seen l : NoDup l -> (forall x, x ∈ l -> x ∉ seen) -> dedup_from seen l = l.
Proof.
  intros H. revert seen. induction H as [|x l Hx Hl IH]; intros seen Hs; [done|]. cbn.
  rewrite decide_False by (apply Hs; by left). rewrite IH; [done|]. set_solver.
Qed.

Lemma dedup_id l : NoDup l -> dedup l = l.
Proof. intros H. apply dedup_from_id; [done|]. set_solver. Qed.

Lemma dedup_from_sublist seen l : dedup_from seen l `sublist_of` l.
Proof.
  revert seen. induction l as [|y l IH]; intros seen; simpl; [constructor|].
  case_decide; by constructor.
Qed.
End Dedup.

(** *** Filters *)

Lemma js_filter_true {A} (p : A -> bool) l : (forall x, x ∈ l -> p x = true) -> js_filter p l = l.
Proof.
  induction l as [|x l IH]; intros H; [done|]. cbn [js_filter]. rewrite H by (by left). f_equal. apply IH.
  intros y Hy. apply H. by right.
Qed.

Lemma js_filter_ext {A} (p q : A -> bool) l : (forall x, x ∈ l -> p x = q x) -> js_filter p l = js_filter q l.
Proof.
  induction l as [|x l IH]; intros H; [done|]. cbn [js_filter]. rewrite H by (by left).
  rewrite IH by (intros y Hy; apply H; by right). done.
Qed.

Lemma js_filter_filter {A} (p q : A -> bool) l : js_filter p (js_filter q l) = js_filter (fun x => q x && p x) l.
Proof.
  induction l as [|x l IH]; [done|]. cbn [js_filter]. destruct (q x); cbn [andb js_filter]; rewrite IH; done.
Qed.

#[export] Instance js_filter_perm {A} (p : A -> bool) : Proper ((≡ₚ) ==> (≡ₚ)) (js_filter p).
Proof.
  induction 1 as [|x l l' _ IH|x y l|l1 l2 l3 _ IH1 _ IH2]; cbn [js_filter]; [done| | |by etransitivity].
  - destruct (p x); by rewrite IH.
  - destruct (p x), (p y); done || by apply Permutation_swap.
Qed.

(** Intervals in order: every one is not empty, begins where the last one ended or
    later, and the last ends at [hi] or before. *)
Fixpoint spans {A} (ends : A -> nat * nat) (lo : nat) (l : list A) (hi : nat) : Prop :=
  match l with
  | [] => (lo <= hi)%nat
  | x :: l' => (lo <= (ends x).1 < (ends x).2)%nat /\ spans ends (ends x).2 l' hi
  end.

Section Spans.
Context {A : Type} (ends : A -> nat * nat).
Implicit Types (l : list A).

Lemma spans_le lo l hi hi' : spans ends lo l hi -> (hi <= hi')%nat -> spans ends lo l hi'.
Proof. revert lo. induction l as [|x l IH]; simpl; intros lo; [lia|naive_solver]. Qed.

Lemma spans_bounds lo l hi : spans ends lo l hi -> (lo <= hi)%nat.
Proof. revert lo. induction l as [|x l IH]; simpl; intros lo; [done|]. intros [? ?%IH]. lia. Qed.

Lemma spans_snoc lo l hi x :
  spans ends lo l hi -> (hi <= (ends x).1 < (ends x).2)%nat -> spans ends lo (l ++ [x]) (ends x).2.
Proof. revert lo. induction l as [|y l IH]; simpl; intros lo; [lia|naive_solver]. Qed.

Lemma spans_In lo l hi x : spans ends lo l hi -> x ∈ l -> (lo <= (ends x).1 /\ (ends x).1 < (ends x).2 /\ (ends x).2 <= hi)%nat.
Proof.
  revert lo. induction l as [|y l IH]; simpl; intros lo; [intros _ H; inversion H|].
  intros [H1 H2] [->|H]%elem_of_cons; [apply spans_bounds in H2; lia|].
  apply IH in H2; [lia|done].
Qed.
End Spans.

(** Insert after the elements that are not greater: a stable insertion sort,
    JavaScript's [sort] with the comparison [leb]. *)
Fixpoint insert_by {A} (leb : A -> A -> bool) (x : A) (l : list A) : list A :=
  match l with
  | [] => [x]
  | y :: l' => if leb y x then y :: insert_by leb x l' else x :: l
  end.
Definition sort_by {A} (leb : A -> A -> bool) (l : list A) : list A :=
  foldl (fun acc x => insert_by leb x acc) [] l.

Lemma insert_by_perm {A} (leb : A -> A -> bool) x l : insert_by leb x l ≡ₚ x :: l.
Proof.
  induction l as [|y l IH]; simpl; [done|]. destruct (leb y x); [|done].
  rewrite IH. apply Permutation_swap.
Qed.

Lemma sort_by_perm {A} (leb : A -> A -> bool) l : sort_by leb l ≡ₚ l.
Proof.
  unfold sort_by. rewrite <- (app_nil_r l) at 2. generalize (@nil A) as acc.
  induction l as [|x l IH]; intros acc; simpl; [done|].
  rewrite IH, insert_by_perm. symmetry. apply Permutation_middle.
Qed.

Lemma elem_of_sort_by {A} (leb : A -> A -> bool) l x : x ∈ sort_by leb l <-> x ∈ l.
Proof. by rewrite sort_by_perm. Qed.

Lemma StronglySorted_weaken {A} (R R' : A -> A -> Prop) l :
  (forall a b, R a b -> R' a b) -> StronglySorted R l -> StronglySorted R' l.
Proof. intros HR. induction 1 as [|x l _ IH Hall]; constructor; [done|]. eapply Forall_impl; [exact Hall|]. intros b. apply HR. Qed.

Section SortBy.
Context {A : Type} (leb : A -> A -> bool).
Hypothesis leb_total : forall x y, leb x y = false -> leb y x = true.
Hypothesis leb_trans : forall x y z, leb x y = true -> leb y z = true -> leb x z = true.

Lemma insert_by_sorted x l :
  StronglySorted (fun a b => leb a b = true) l -> StronglySorted (fun a b => leb a b = true) (insert_by leb x l).
Proof.
  induction 1 as [|y l Hl IH Hall]; simpl; [by repeat constructor|].
  destruct (leb y x) eqn:E.
  - constructor; [done|]. rewrite insert_by_perm. by constructor.
  - apply leb_total in E. constructor; [by constructor|]. constructor; [done|].
    eapply Forall_impl; [exact Hall|]. eauto.
Qed.

Lemma sort_by_sorted l : StronglySorted (fun a b => leb a b = true) (sort_by leb l).
Proof.
  unfold sort_by. assert (StronglySorted (fun a b => leb a b = true) []) as H by constructor.
  revert H. generalize (@nil A) as acc. induction l as [|x l IH]; intros acc H; simpl; [done|].
  apply IH. by apply insert_by_sorted.
Qed.
End SortBy.

Lemma foldl_rev {A B} (f : A -> B -> B) b l : foldl (fun acc x => f x acc) b (rev l) = foldr f b l.
Proof. induction l as [|x l IH]; [done|]. cbn [rev foldr]. by rewrite foldl_app, IH. Qed.

Create HintDb memos.
#[export] Hint Resolve NoDup_dedup : memos.
#[export] Hint Resolve js_filter_sublist : memos.
#[export] Hint Rewrite @js_filter_app : memos.

(** ** Tactics *)

(** Turn boolean comparisons in the context into propositions. *)
Ltac bool_prop :=
  repeat match goal with
  | H : andb _ _ = true |- _ => apply andb_prop in H; destruct H
  | H : orb _ _ = false |- _ => apply orb_false_elim in H; destruct H
  | H : negb _ = true |- _ => apply negb_true_iff in H
  | H : negb _ = false |- _ => apply negb_false_iff in H
  | H : Z.eqb _ _ = true |- _ => apply Z.eqb_eq in H
  | H : Z.eqb _ _ = false |- _ => apply Z.eqb_neq in H
  | H : Z.leb _ _ = true |- _ => apply Z.leb_le in H
  | H : Z.leb _ _ = false |- _ => apply Z.leb_gt in H
  | H : Z.ltb _ _ = true |- _ => apply Z.ltb_lt in H
  | H : Z.ltb _ _ = false |- _ => apply Z.ltb_ge in H
  | H : Nat.eqb _ _ = true |- _ => apply Nat.eqb_eq in H
  | H : Nat.eqb _ _ = false |- _ => apply Nat.eqb_neq in H
  | H : Nat.leb _ _ = true |- _ => apply Nat.leb_le in H
  | H : Nat.leb _ _ = false |- _ => apply Nat.leb_gt in H
  | H : Nat.ltb _ _ = true |- _ => apply Nat.ltb_lt in H
  | H : Nat.ltb _ _ = false |- _ => apply Nat.ltb_ge in H
  | H : bool_decide _ = true |- _ => apply bool_decide_eq_true_1 in H
  | H : bool_decide _ = false |- _ => apply bool_decide_eq_false_1 in H
  end.

(** Split on every [match]/[if] of a hypothesis, keeping the equations. *)
Ltac split_in H :=
  repeat match type of H with
  | context [match ?x with _ => _ end] => destruct x eqn:?; try done
  end.

(** Split on the innermost scrutinee of the goal. *)
Ltac split_goal :=
  match goal with
  | |- context [match ?x with _ => _ end] =>
      lazymatch x with
      | context [match _ with _ => _ end] => fail
      | _ => destruct x eqn:?
      end
  end.

Ltac crush := bool_prop; simplify_eq; try done; try lia.
