(* ===== verification/JSNum.v ===== *)
(** * JavaScript numbers used as 32-bit integers

    The bitwise operators of JavaScript convert their operands with [ToInt32]
    (or [ToUint32] for [>>>]) and give a signed 32-bit result; [Math.imul] is the
    32-bit product.  Numbers are [Z] here: every number the modelled code computes
    stays an integer below 2^53 in absolute value, where doubles are exact. *)

From S2P Require Import Prelude.

Module Int32.

Definition modulus : Z := 4294967296.

(** [ToUint32]. *)
Definition to_uint32 (z : Z) : Z := z mod modulus.

(** [ToInt32]. *)
Definition to_int32 (z : Z) : Z := (z + 2147483648) mod modulus - 2147483648.

(** [a ^ b]. *)
Definition xor32 (a b : Z) : Z := Z.lxor (to_int32 a) (to_int32 b).

(** [a | b]. *)
Definition or32 (a b : Z) : Z := Z.lor (to_int32 a) (to_int32 b).

(** [a >>> n], for a literal [n] in [0, 31]. *)
Definition shr_u (a n : Z) : Z := Z.shiftr (to_uint32 a) n.

(** [Math.imul(a, b)]. *)
Definition imul (a b : Z) : Z := to_int32 (a * b).

Lemma to_uint32_range z : 0 <= to_uint32 z < modulus.
Proof. apply Z.mod_pos_bound. reflexivity. Qed.

Lemma to_int32_range z : -2147483648 <= to_int32 z < 2147483648.
Proof.
  unfold to_int32. pose proof (Z.mod_pos_bound (z + 2147483648) modulus eq_refl).
  unfold modulus in *. lia.
Qed.

Lemma to_uint32_id z : 0 <= z < modulus -> to_uint32 z = z.
Proof. apply Z.mod_small. Qed.

Lemma to_int32_id z : -2147483648 <= z < 2147483648 -> to_int32 z = z.
Proof. intros. unfold to_int32. rewrite Z.mod_small; unfold modulus; lia. Qed.

(** The two conversions name the same residue. *)
Lemma to_uint32_to_int32 z : to_uint32 (to_int32 z) = to_uint32 z.
Proof.
  unfold to_uint32, to_int32. rewrite Zminus_mod_idemp_l. f_equal. lia.
Qed.

Lemma shr_u_range a n : 0 <= n -> 0 <= shr_u a n < modulus.
Proof.
  intros Hn. unfold shr_u. pose proof (to_uint32_range a).
  rewrite Z.shiftr_div_pow2 by done.
  assert (0 < 2 ^ n) by (apply Z.pow_pos_nonneg; lia).
  split; [apply Z.div_pos; lia|].
  apply Z.div_lt_upper_bound; [done|]. nia.
Qed.

End Int32.

#[export] Hint Resolve Int32.to_uint32_range Int32.to_int32_range : memos.
