(* ===== verification/JSString.v ===== *)
(** * JavaScript strings

    A string is the list of its UTF-16 code units.  This file holds the string
    operations the modelled code calls: slicing, code points, searching, splitting,
    trimming, decimal printing, UTF-8 encoding.  Indices are [nat]; [s !! i] is
    [s[i]], which is [undefined] out of range. *)

From S2P Require Import Prelude.

Abbreviation code_unit := Z (only parsing).
Abbreviation jstring := (list Z) (only parsing).

(** An ASCII literal. *)
Definition u (s : string) : jstring :=
  (fun a => Z.of_N (Ascii.N_of_ascii a)) <$> String.list_ascii_of_string s.

Definition js_eqb (s t : jstring) : bool := bool_decide (s = t).

(** [s.slice(from, to)], for indices that are not negative. *)
Definition slice (s : jstring) (from to : nat) : jstring := take (to - from) (drop from s).

(** [s.slice(from)]. *)
Definition slice_from (s : jstring) (from : nat) : jstring := drop from s.

Definition is_high_surrogate (c : Z) : bool := (0xD800 <=? c) && (c <=? 0xDBFF).
Definition is_low_surrogate (c : Z) : bool := (0xDC00 <=? c) && (c <=? 0xDFFF).

(** [s.codePointAt(i)]. *)
Definition code_point_at (s : jstring) (i : nat) : option Z :=
  match s !! i with
  | None => None
  | Some c =>
      if is_high_surrogate c then
        match s !! (i + 1)%nat with
        | Some d => if is_low_surrogate d
                    then Some ((c - 0xD800) * 1024 + (d - 0xDC00) + 0x10000)
                    else Some c
        | None => Some c
        end
      else Some c
  end.

(** [String.fromCodePoint(c)]. *)
Definition from_code_point (c : Z) : jstring :=
  if c <=? 0xFFFF then [c]
  else [0xD800 + (c - 0x10000) / 1024; 0xDC00 + (c - 0x10000) mod 1024].

(** Number of code units of a code point. *)
Definition code_point_size (c : Z) : nat := if c >? 0xFFFF then 2 else 1.

(** [for (const c of s)]: the code points of a string, a lone surrogate counting
    as itself. *)
Fixpoint code_points (s : jstring) : list Z :=
  match s with
  | [] => []
  | c :: s' =>
      match s' with
      | d :: s'' =>
          if is_high_surrogate c && is_low_surrogate d
          then ((c - 0xD800) * 1024 + (d - 0xDC00) + 0x10000) :: code_points s''
          else c :: code_points s'
      | [] => [c]
      end
  end.

(** [p] is a prefix of [s]. *)
Fixpoint prefixb (p s : jstring) : bool :=
  match p, s with
  | [], _ => true
  | c :: p', d :: s' => (c =? d) && prefixb p' s'
  | _ :: _, [] => false
  end.

(** [s.startsWith(p, i)]. *)
Definition starts_with_at (s p : jstring) (i : nat) : bool := prefixb p (drop i s).
Definition starts_with (s p : jstring) : bool := prefixb p s.
(** [s.endsWith(p)]. *)
Definition ends_with (s p : jstring) : bool := (length p <=? length s)%nat && js_eqb (drop (length s - length p) s) p.

(** [s.indexOf(p, from)], [None] for -1. *)
Fixpoint index_of_aux (p s : jstring) (i : nat) : option nat :=
  if prefixb p s then Some i
  else match s with
       | [] => None
       | _ :: s' => index_of_aux p s' (Datatypes.S i)
       end.
Definition index_of (s p : jstring) (from : nat) : option nat := index_of_aux p (drop from s) from.

(** [s.includes(p)]. *)
Definition includes (s p : jstring) : bool :=
  match index_of s p 0 with Some _ => true | None => false end.

(** [s.split(sep)] for a separator of one code unit. *)
Fixpoint split_on (sep : Z) (s : jstring) : list jstring :=
  match s with
  | [] => [[]]
  | c :: s' =>
      if c =? sep then [] :: split_on sep s'
      else match split_on sep s' with
           | [] => [[c]]
           | l :: ls => (c :: l) :: ls
           end
  end.

(** [parts.join(sep)]. *)
Fixpoint join (sep : jstring) (parts : list jstring) : jstring :=
  match parts with
  | [] => []
  | [p] => p
  | p :: ps => p ++ sep ++ join sep ps
  end.

(** WhiteSpace and LineTerminator of ECMAScript: what [trim] strips and the
    regular-expression class [\s] matches. *)
Definition is_space (c : Z) : bool :=
  ((9 <=? c) && (c <=? 13)) || (c =? 32) || (c =? 0xA0) || (c =? 0x1680)
  || ((0x2000 <=? c) && (c <=? 0x200A)) || (c =? 0x2028) || (c =? 0x2029)
  || (c =? 0x202F) || (c =? 0x205F) || (c =? 0x3000) || (c =? 0xFEFF).

Fixpoint trim_start (s : jstring) : jstring :=
  match s with
  | c :: s' => if is_space c then trim_start s' else s
  | [] => []
  end.
Definition trim_end (s : jstring) : jstring := rev (trim_start (rev s)).
Definition trim (s : jstring) : jstring := trim_end (trim_start s).

Definition is_digit (c : Z) : bool := (48 <=? c) && (c <=? 57).
Definition is_upper_ascii (c : Z) : bool := (65 <=? c) && (c <=? 90).
Definition is_lower_ascii (c : Z) : bool := (97 <=? c) && (c <=? 122).
Definition is_alnum_ascii (c : Z) : bool := is_digit c || is_upper_ascii c || is_lower_ascii c.

(** The regular-expression class [\w]. *)
Definition is_word (c : Z) : bool := is_alnum_ascii c || (c =? 95).

(** Decimal printing of an integer, [String(n)] or a template hole. *)
Fixpoint digits_fuel (fuel : nat) (n : Z) (acc : jstring) : jstring :=
  match fuel with
  | O => acc
  | Datatypes.S fuel' =>
      let acc' := (48 + n mod 10) :: acc in
      if n <? 10 then acc' else digits_fuel fuel' (n / 10) acc'
  end.
Definition string_of_nat_Z (n : Z) : jstring := digits_fuel (Z.to_nat (Z.log2 n) + 2) n [].
Definition string_of_int (n : Z) : jstring :=
  if n <? 0 then 45 :: string_of_nat_Z (- n) else string_of_nat_Z n.

(** Value of a string of decimal digits, [Number(s)] on such strings. *)
Definition nat_value (s : jstring) : Z := foldl (fun acc c => acc * 10 + (c - 48)) 0 s.

(** [String(n).padStart(width, "0")]. *)
Definition pad_start (width : nat) (fill : Z) (s : jstring) : jstring :=
  replicate (width - length s) fill ++ s.

(** [new TextEncoder().encode(s)]: UTF-8, a lone surrogate encoded as U+FFFD. *)
Definition utf8_code_point (c0 : Z) : list Z :=
  let c := if is_high_surrogate c0 || is_low_surrogate c0 then 0xFFFD else c0 in
  if c <? 0x80 then [c]
  else if c <? 0x800 then [0xC0 + c / 64; 0x80 + c mod 64]
  else if c <? 0x10000 then [0xE0 + c / 4096; 0x80 + (c / 64) mod 64; 0x80 + c mod 64]
  else [0xF0 + c / 262144; 0x80 + (c / 4096) mod 64; 0x80 + (c / 64) mod 64; 0x80 + c mod 64].
Definition utf8_encode (s : jstring) : list Z := code_points s ≫= utf8_code_point.

(** ** Lemmas *)

Lemma length_slice s from to : length (slice s from to) = (Nat.min to (length s) - from)%nat.
Proof. unfold slice. rewrite length_take, length_drop. lia. Qed.

Lemma lookup_slice s from to i :
  (i < to - from)%nat -> slice s from to !! i = s !! (from + i)%nat.
Proof. intros. unfold slice. rewrite lookup_take_lt by done. apply lookup_drop. Qed.

Lemma slice_app_split s a b c :
  (a <= b <= c)%nat -> slice s a c = slice s a b ++ slice s b c.
Proof.
  intros. unfold slice.
  replace (drop b s) with (drop (b - a) (drop a s)) by (rewrite drop_drop; f_equal; lia).
  rewrite take_take_drop. f_equal. lia.
Qed.

Lemma slice_full s : slice s 0 (length s) = s.
Proof. unfold slice. rewrite drop_0, Nat.sub_0_r. apply firstn_all. Qed.

Lemma slice_one s i c : s !! i = Some c -> slice s i (i + 1) = [c].
Proof.
  intros H. unfold slice. replace (i + 1 - i)%nat with 1%nat by lia.
  by rewrite (drop_S s c i H).
Qed.

Lemma prefixb_spec p s : prefixb p s = true <-> p `prefix_of` s.
Proof.
  revert s. induction p as [|c p IH]; intros s; simpl.
  - split; [intros _; apply prefix_nil|done].
  - destruct s as [|d s].
    + split; [done|]. intros H. by apply prefix_nil_inv in H.
    + rewrite andb_true_iff, IH, Z.eqb_eq. split.
      * intros [-> ?]. by apply prefix_cons.
      * intros H. split; [by apply prefix_cons_inv_1 in H|by apply prefix_cons_inv_2 in H].
Qed.

Lemma starts_with_cons d s c p : starts_with (d :: s) (c :: p) = (c =? d) && starts_with s p.
Proof. done. Qed.

Lemma starts_with_nil s : starts_with s [] = true.
Proof. by destruct s. Qed.

Lemma starts_with_spec s p : starts_with s p = true <-> exists rest, s = p ++ rest.
Proof. apply prefixb_spec. Qed.

Lemma starts_with_at_slice s p i :
  starts_with_at s p i = true -> slice s i (i + length p) = p /\ (length p = 0 \/ i + length p <= length s)%nat.
Proof.
  unfold starts_with_at. rewrite prefixb_spec. intros [k Hk].
  unfold slice. rewrite Hk. split.
  - replace (i + length p - i)%nat with (length p) by lia. by rewrite take_app_length.
  - apply (f_equal length) in Hk. rewrite length_drop, length_app in Hk. lia.
Qed.

(** [indexOf] finds an occurrence, at or after [from], and it is the first. *)
Lemma index_of_aux_Some p s i j :
  index_of_aux p s i = Some j ->
  (i <= j)%nat /\ prefixb p (drop (j - i) s) = true
  /\ forall k, (i <= k < j)%nat -> prefixb p (drop (k - i) s) = false.
Proof.
  revert i. induction s as [|c s IH]; intros i; simpl.
  - destruct (prefixb p []) eqn:E; intros H; simplify_eq.
    rewrite Nat.sub_diag. repeat split; [lia|done|lia].
  - destruct (prefixb p (c :: s)) eqn:E; intros H.
    + simplify_eq. rewrite Nat.sub_diag. repeat split; [lia|done|lia].
    + destruct (IH _ H) as (H1 & H2 & H3). split; [lia|].
      replace (j - i)%nat with (Datatypes.S (j - Datatypes.S i)) by lia. split; [done|].
      intros k Hk. destruct (decide (k = i)) as [->|].
      * by rewrite Nat.sub_diag.
      * replace (k - i)%nat with (Datatypes.S (k - Datatypes.S i)) by lia. apply H3. lia.
Qed.

Lemma index_of_Some s p from j :
  index_of s p from = Some j ->
  (from <= j)%nat /\ starts_with_at s p j = true
  /\ forall k, (from <= k < j)%nat -> starts_with_at s p k = false.
Proof.
  intros (H1 & H2 & H3)%index_of_aux_Some. unfold starts_with_at.
  rewrite drop_drop in H2. replace (from + (j - from))%nat with j in H2 by lia.
  repeat split; [done|done|]. intros k Hk. specialize (H3 k Hk).
  rewrite drop_drop in H3. by replace (from + (k - from))%nat with k in H3 by lia.
Qed.

Lemma index_of_aux_None p s i k : index_of_aux p s i = None -> prefixb p (drop k s) = false.
Proof.
  revert i k. induction s as [|c s IH]; intros i k; simpl.
  - rewrite drop_nil. by destruct (prefixb p []).
  - destruct (prefixb p (c :: s)) eqn:E; [done|]. intros H.
    destruct k as [|k]; simpl; [done|by eapply IH].
Qed.

Lemma index_of_None s p from k :
  index_of s p from = None -> (from <= k)%nat -> starts_with_at s p k = false.
Proof.
  intros H Hk. apply (index_of_aux_None _ _ _ (k - from)) in H.
  rewrite drop_drop in H. unfold starts_with_at. by replace (from + (k - from))%nat with k in H by lia.
Qed.

(** [split] and [join] on a one-unit separator are inverse. *)
Lemma split_on_not_nil sep s : split_on sep s <> [].
Proof. destruct s as [|c s]; simpl; [done|]. by repeat case_match. Qed.

Lemma join_split_on sep s : join [sep] (split_on sep s) = s.
Proof.
  induction s as [|c s IH]; simpl; [done|].
  destruct (c =? sep) eqn:E.
  - bool_prop. subst. pose proof (split_on_not_nil sep s) as Hn.
    destruct (split_on sep s) as [|l ls]; [done|]. simpl in *. by rewrite IH.
  - pose proof (split_on_not_nil sep s) as Hn.
    destruct (split_on sep s) as [|l ls]; [done|].
    destruct ls as [|l' ls]; simpl in *; by rewrite <- IH.
Qed.

Lemma split_on_no_sep sep s l : l ∈ split_on sep s -> sep ∉ l.
Proof.
  revert l. induction s as [|c s IH]; intros l; simpl.
  - rewrite list_elem_of_singleton. intros ->. apply not_elem_of_nil.
  - destruct (c =? sep) eqn:E.
    + rewrite elem_of_cons. intros [->|H]; [apply not_elem_of_nil|auto].
    + bool_prop. destruct (split_on sep s) as [|l0 ls].
      * rewrite list_elem_of_singleton. intros ->. rewrite list_elem_of_singleton. lia.
      * rewrite elem_of_cons. intros [->|H].
        -- rewrite not_elem_of_cons. split; [lia|]. apply IH. by left.
        -- apply IH. by right.
Qed.

(** Code points: the size of the one at [i] stays in the string. *)
Lemma code_point_at_Some s i c :
  code_point_at s i = Some c -> (forall d, d ∈ s -> 0 <= d <= 0xFFFF) ->
  (i + code_point_size c <= length s)%nat
  /\ slice s i (i + code_point_size c) = from_code_point c.
Proof.
  unfold code_point_at. destruct (s !! i) as [a|] eqn:Ea; [|done].
  pose proof (lookup_lt_Some _ _ _ Ea) as Hlt. intros H Hs.
  assert (0 <= a <= 0xFFFF) as Ha by (apply Hs; by eapply list_elem_of_lookup_2).
  assert (Some a = Some c -> (i + code_point_size c <= length s)%nat
     /\ slice s i (i + code_point_size c) = from_code_point c) as Hone.
  { intros [= <-]. unfold code_point_size, from_code_point.
    destruct (a >? 0xFFFF) eqn:E1; [rewrite Z.gtb_ltb in E1; bool_prop; lia|].
    destruct (a <=? 0xFFFF) eqn:E2; [|bool_prop; lia].
    split; [lia|by apply slice_one]. }
  destruct (is_high_surrogate a) eqn:Eh; [|auto].
  destruct (s !! (i + 1)%nat) as [d|] eqn:Ed; [|auto].
  destruct (is_low_surrogate d) eqn:El; [|auto].
  pose proof (lookup_lt_Some _ _ _ Ed) as Hlt'.
  simplify_eq. unfold is_high_surrogate, is_low_surrogate in *. bool_prop.
  unfold code_point_size, from_code_point.
  set (c := (a - 55296) * 1024 + (d - 56320) + 65536).
  destruct (c >? 0xFFFF) eqn:E1; [|rewrite Z.gtb_ltb in E1; bool_prop; unfold c in *; lia].
  destruct (c <=? 0xFFFF) eqn:E2; [bool_prop; unfold c in *; lia|].
  split; [lia|].
  rewrite (slice_app_split _ _ (i + 1)%nat) by lia.
  rewrite (slice_one _ _ _ Ea). replace (i + 2)%nat with ((i + 1) + 1)%nat by lia.
  rewrite (slice_one _ _ _ Ed). simpl. unfold c.
  replace ((a - 55296) * 1024 + (d - 56320) + 65536 - 65536) with ((d - 56320) + (a - 55296) * 1024) by lia.
  rewrite Z.div_add, Z.mod_add by lia.
  rewrite Z.div_small, Z.mod_small by lia. do 2 f_equal; [lia|f_equal; lia].
Qed.

Lemma utf8_code_point_bytes c :
  0 <= c < 0x110000 -> Forall (fun b => 0 <= b < 256) (utf8_code_point c).
Proof.
  intros Hc. unfold utf8_code_point.
  set (d := if is_high_surrogate c || is_low_surrogate c then 65533 else c).
  assert (0 <= d < 0x110000) as Hd by (subst d; case_match; lia).
  clearbody d. cbv zeta.
  repeat case_match; bool_prop; repeat constructor;
    Z.div_mod_to_equations; lia.
Qed.

Lemma code_points_range s :
  Forall (fun c => 0 <= c <= 0xFFFF) s -> Forall (fun c => 0 <= c < 0x110000) (code_points s).
Proof.
  assert (forall n (l : jstring), (length l <= n)%nat -> Forall (fun c => 0 <= c <= 0xFFFF) l ->
    Forall (fun c => 0 <= c < 0x110000) (code_points l)) as H; [|intros; by eapply H].
  induction n as [|n IH]; intros l Hl Hu; [by destruct l; [constructor|simpl in Hl; lia]|].
  destruct l as [|c [|d l]]; simpl in Hl; [constructor|inversion Hu; subst; constructor; [lia|constructor]|].
  inversion Hu as [|? ? Hc Hu1]; subst. inversion Hu1 as [|? ? Hd Hu2]; subst.
  change (code_points (c :: d :: l)) with
    (if is_high_surrogate c && is_low_surrogate d
     then ((c - 0xD800) * 1024 + (d - 0xDC00) + 0x10000) :: code_points l
     else c :: code_points (d :: l)).
  destruct (_ && _) eqn:E; constructor.
  - unfold is_high_surrogate, is_low_surrogate in E. bool_prop. lia.
  - apply IH; [lia|done].
  - lia.
  - apply IH; [simpl; lia|done].
Qed.

Lemma utf8_encode_bytes s :
  Forall (fun c => 0 <= c <= 0xFFFF) s -> Forall (fun b => 0 <= b < 256) (utf8_encode s).
Proof.
  intros Hs. unfold utf8_encode. apply Forall_forall. intros b Hb.
  apply list_elem_of_bind in Hb as (c & Hb & Hc).
  pose proof (code_points_range s Hs) as Hr. rewrite Forall_forall in Hr.
  pose proof (utf8_code_point_bytes c (Hr c Hc)) as Hf. rewrite Forall_forall in Hf. by apply Hf.
Qed.

(** ** Code points from a position *)

(** A string of UTF-16 code units. *)
Definition units (s : jstring) : Prop := Forall (fun c => 0 <= c <= 0xFFFF) s.

Definition utf16 (cps : list Z) : jstring := cps ≫= from_code_point.

(** The code points of [s] from offset [i] start with [w], and [j] is the offset
    after them. *)
Fixpoint decodes (s : jstring) (i : nat) (w : list Z) (j : nat) : Prop :=
  match w with
  | [] => j = i
  | c :: w' => code_point_at s i = Some c /\ decodes s (i + code_point_size c) w' j
  end.

Lemma code_point_size_pos c : (1 <= code_point_size c)%nat.
Proof. unfold code_point_size. case_match; lia. Qed.

Lemma code_point_at_is_Some s i : is_Some (code_point_at s i) <-> (i < length s)%nat.
Proof.
  rewrite <- lookup_lt_is_Some. unfold code_point_at.
  destruct (s !! i) as [c|]; [|done]. split; [eauto|]. intros _.
  repeat case_match; eauto.
Qed.

Lemma code_point_at_None s i : code_point_at s i = None <-> (length s <= i)%nat.
Proof.
  pose proof (code_point_at_is_Some s i) as H.
  destruct (code_point_at s i); split; intros; try done.
  - assert (i < length s)%nat by (apply H; eauto). lia.
  - destruct (decide (i < length s)%nat) as [Hl|]; [|lia].
    apply H in Hl as [? ?]. done.
Qed.

Lemma units_lookup s : units s -> forall c, c ∈ s -> 0 <= c <= 0xFFFF.
Proof. intros H c Hc. unfold units in H. rewrite Forall_forall in H. auto. Qed.

Lemma code_point_at_slice s i c :
  units s -> code_point_at s i = Some c ->
  (i + code_point_size c <= length s)%nat /\ slice s i (i + code_point_size c) = from_code_point c.
Proof. intros Hs H. apply code_point_at_Some; [done|by apply units_lookup]. Qed.

Lemma length_from_code_point c : length (from_code_point c) = code_point_size c.
Proof.
  unfold from_code_point, code_point_size. rewrite Z.gtb_ltb.
  destruct (c <=? 0xFFFF) eqn:E1, (0xFFFF <? c) eqn:E2; bool_prop; try done; lia.
Qed.

(** The second unit of a code point of two is a low surrogate. *)
Lemma code_point_tail s i c k :
  units s -> code_point_at s i = Some c -> (i < k < i + code_point_size c)%nat ->
  exists d, s !! k = Some d /\ is_low_surrogate d = true.
Proof.
  intros Hs Hc Hk. unfold code_point_size in Hk. destruct (c >? 0xFFFF) eqn:Es; [|lia].
  assert (k = (i + 1)%nat) as -> by lia. rewrite Z.gtb_ltb in Es. bool_prop.
  unfold code_point_at in Hc. destruct (s !! i) as [x|] eqn:Ei; [|done].
  pose proof (units_lookup s Hs _ (list_elem_of_lookup_2 _ _ _ Ei)).
  destruct (is_high_surrogate x); [|simplify_eq; lia].
  destruct (s !! (i + 1)%nat) as [d|]; [|simplify_eq; lia].
  exists d. split; [done|]. destruct (is_low_surrogate d); [done|simplify_eq; lia].
Qed.

Lemma decodes_le s i w j : decodes s i w j -> (i <= j)%nat.
Proof.
  revert i. induction w as [|c w IH]; simpl; intros i; [lia|].
  intros [_ H%IH]. lia.
Qed.

Lemma decodes_lt s i w j : decodes s i w j -> w <> [] -> (i < j)%nat.
Proof.
  destruct w as [|c w]; [done|]. simpl. intros [_ H%decodes_le] _.
  pose proof (code_point_size_pos c). lia.
Qed.

Lemma decodes_bound s i w j :
  units s -> decodes s i w j -> w <> [] -> (j <= length s)%nat.
Proof.
  intros Hs. revert i. induction w as [|c w IH]; intros i; [done|]. simpl.
  intros [Hc H] _. destruct w as [|d w].
  - simpl in H. subst j. by apply code_point_at_slice.
  - by eapply IH.
Qed.

Lemma decodes_app s i w1 w2 k :
  decodes s i (w1 ++ w2) k <-> exists j, decodes s i w1 j /\ decodes s j w2 k.
Proof.
  revert i. induction w1 as [|c w1 IH]; intros i; simpl.
  - naive_solver.
  - setoid_rewrite IH. naive_solver.
Qed.

Lemma decodes_fun s i w j k : decodes s i w j -> decodes s i w k -> j = k.
Proof.
  revert i. induction w as [|c w IH]; intros i; simpl; [congruence|].
  intros [_ ?] [_ ?]. eauto.
Qed.

(** Two readings from one position agree as far as both go. *)
Lemma decodes_prefix s i w1 j1 w2 j2 :
  decodes s i w1 j1 -> decodes s i w2 j2 -> w1 `prefix_of` w2 \/ w2 `prefix_of` w1.
Proof.
  revert i w2. induction w1 as [|c w1 IH]; intros i w2 H1 H2.
  - left. apply prefix_nil.
  - destruct w2 as [|d w2]; [right; apply prefix_nil|].
    simpl in H1, H2. destruct H1 as [Hc H1], H2 as [Hd H2]. simplify_eq.
    destruct (IH _ _ H1 H2); [left|right]; by apply prefix_cons.
Qed.

Lemma decodes_slice s i w j : units s -> decodes s i w j -> slice s i j = utf16 w.
Proof.
  intros Hs. revert i. induction w as [|c w IH]; intros i; simpl.
  - intros ->. unfold slice. by rewrite Nat.sub_diag.
  - intros [Hc H]. rewrite (slice_app_split s i (i + code_point_size c) j).
    + f_equal; [by apply code_point_at_slice|by apply IH].
    + split; [lia|by eapply decodes_le].
Qed.

Lemma units_check s : forallb (fun c => (0 <=? c) && (c <=? 0xFFFF)) s = true -> units s.
Proof.
  unfold units. rewrite Forall_forall, forallb_forall. intros H x Hx.
  apply list_elem_of_In, H in Hx. bool_prop. lia.
Qed.

(** Discharge [units] of a closed string. *)
Ltac check_units := apply units_check; vm_compute; reflexivity.

(** Decimal text. *)
Lemma digits_fuel_spec fuel n acc :
  0 <= n < 10 ^ Z.of_nat fuel -> (0 < fuel)%nat ->
  exists ds, digits_fuel fuel n acc = ds ++ acc /\ ds <> [] /\ Forall (fun c => is_digit c = true) ds
    /\ nat_value ds = n /\ (0 < n -> head ds <> Some 48) /\ (n = 0 -> ds = [48]).
Proof.
  revert n acc. induction fuel as [|fuel IH]; intros n acc Hn Hf; [lia|]. simpl.
  assert (0 <= n mod 10 < 10) by (apply Z.mod_pos_bound; lia).
  assert (is_digit (48 + n mod 10) = true) as Hd.
  { unfold is_digit. apply andb_true_iff. rewrite !Z.leb_le. lia. }
  destruct (n <? 10) eqn:E; bool_prop.
  - exists [48 + n mod 10]. rewrite Z.mod_small in * by lia. unfold nat_value. simpl.
    split; [done|]. split; [done|]. split; [by constructor|]. split; [lia|].
    split; [intros ? [=]; lia|]. intros ->. done.
  - destruct fuel as [|fuel']; [simpl in Hn; lia|].
    rewrite Nat2Z.inj_succ, Z.pow_succ_r in Hn by lia.
    destruct (IH (n / 10) ((48 + n mod 10) :: acc)) as (ds & H1 & H2 & H3 & H4 & H5 & _).
    + split; [apply Z.div_pos; lia|]. apply Z.div_lt_upper_bound; lia.
    + lia.
    + exists (ds ++ [48 + n mod 10]). rewrite H1, <- app_assoc. split; [done|].
      split; [by destruct ds|]. split; [by apply Forall_app; split; [|constructor]|].
      split.
      { unfold nat_value in *. rewrite foldl_app, H4. simpl. pose proof (Z.div_mod n 10). lia. }
      split; [|lia]. intros _. destruct ds as [|d ds]; [done|]. simpl. apply H5.
      apply Z.div_str_pos. lia.
Qed.

(** The fuel does not matter once it covers the digits. *)
Lemma digits_fuel_enough f g n acc :
  0 <= n < 10 ^ Z.of_nat f -> n < 10 ^ Z.of_nat g -> (0 < f)%nat -> (0 < g)%nat -> digits_fuel f n acc = digits_fuel g n acc.
Proof.
  revert g n acc. induction f as [|f IH]; intros g n acc Hf Hg H1 H2; [lia|]. destruct g as [|g]; [lia|]. cbn [digits_fuel].
  destruct (n <? 10) eqn:E; [done|]. bool_prop. rewrite !Nat2Z.inj_succ, !Z.pow_succ_r in * by lia.
  assert (0 <= n / 10) by (apply Z.div_pos; lia).
  apply IH; try (apply Z.div_lt_upper_bound; lia); try (split; [done|apply Z.div_lt_upper_bound; lia]).
  - destruct f; [cbn in Hf; lia|lia].
  - destruct g; [cbn in Hg; lia|lia].
Qed.

Lemma string_of_nat_Z_fuel f n : 0 <= n < 10 ^ Z.of_nat f -> (0 < f)%nat -> string_of_nat_Z n = digits_fuel f n [].
Proof.
  intros Hn Hf. unfold string_of_nat_Z. apply digits_fuel_enough; [|lia|lia|done]. split; [lia|].
  destruct (decide (n = 0)) as [->|]; [by apply Z.pow_pos_nonneg; lia|].
  pose proof (Z.log2_spec n ltac:(lia)). pose proof (Z.log2_nonneg n). rewrite Nat2Z.inj_add, Z2Nat.id by lia.
  assert (2 ^ Z.succ (Z.log2 n) <= 10 ^ Z.succ (Z.log2 n)) by (apply Z.pow_le_mono_l; lia).
  assert (10 ^ Z.succ (Z.log2 n) <= 10 ^ (Z.log2 n + Z.of_nat 2)) by (apply Z.pow_le_mono_r; lia). lia.
Qed.

Lemma string_of_nat_Z_spec n :
  0 <= n ->
  Forall (fun c => is_digit c = true) (string_of_nat_Z n) /\ nat_value (string_of_nat_Z n) = n
  /\ exists d ds, string_of_nat_Z n = d :: ds /\ is_digit d = true /\ (d = 48 -> ds = []).
Proof.
  intros Hn. unfold string_of_nat_Z.
  destruct (digits_fuel_spec (Z.to_nat (Z.log2 n) + 2) n []) as (ds & -> & H2 & H3 & H4 & H5 & H6).
  - split; [done|]. destruct (decide (n = 0)) as [->|]; [done|].
    pose proof (Z.log2_spec n ltac:(lia)). pose proof (Z.log2_nonneg n).
    rewrite Nat2Z.inj_add, Z2Nat.id by lia.
    assert (2 ^ Z.succ (Z.log2 n) <= 10 ^ Z.succ (Z.log2 n)) by (apply Z.pow_le_mono_l; lia).
    assert (10 ^ Z.succ (Z.log2 n) <= 10 ^ (Z.log2 n + Z.of_nat 2)) by (apply Z.pow_le_mono_r; lia).
    lia.
  - lia.
  - rewrite app_nil_r. split; [done|]. split; [done|].
    destruct ds as [|d ds]; [done|]. exists d, ds. split; [done|].
    split; [by inversion H3|]. intros ->. destruct (decide (n = 0)) as [->|].
    + by injection (H6 eq_refl).
    + by destruct (H5 ltac:(lia)).
Qed.

Lemma string_of_int_inj a b : 0 <= a -> 0 <= b -> string_of_int a = string_of_int b -> a = b.
Proof.
  intros Ha Hb. unfold string_of_int. rewrite !(proj2 (Z.ltb_ge _ _)) by done.
  intros H. destruct (string_of_nat_Z_spec a Ha) as (_ & <- & _). destruct (string_of_nat_Z_spec b Hb) as (_ & <- & _).
  by rewrite H.
Qed.

Lemma split_on_single sep l : sep ∉ l -> split_on sep l = [l].
Proof.
  induction l as [|c l IH]; intros H; [done|]. apply not_elem_of_cons in H as [H1 H2]. simpl.
  rewrite (proj2 (Z.eqb_neq c sep)) by congruence. by rewrite IH.
Qed.

Lemma split_on_app sep l rest : sep ∉ l -> split_on sep (l ++ sep :: rest) = l :: split_on sep rest.
Proof.
  induction l as [|c l IH]; intros H; simpl; [by rewrite Z.eqb_refl|].
  apply not_elem_of_cons in H as [H1 H2].
  rewrite (proj2 (Z.eqb_neq c sep)) by congruence. by rewrite IH.
Qed.

Lemma split_on_join sep ls :
  ls <> [] -> Forall (fun l => sep ∉ l) ls -> split_on sep (join [sep] ls) = ls.
Proof.
  intros Hne H. induction H as [|l ls Hl Hls IH]; [done|]. destruct ls as [|l' ls].
  - by apply split_on_single.
  - change (join [sep] (l :: l' :: ls)) with (l ++ sep :: join [sep] (l' :: ls)).
    rewrite split_on_app by done. by rewrite IH.
Qed.

(** The last piece of a split ends the string. *)
Lemma split_on_last sep s ls l : split_on sep s = ls ++ [l] -> exists pre, s = pre ++ l /\ (ls <> [] -> sep ∈ pre).
Proof.
  intros H. pose proof (join_split_on sep s) as Hj. rewrite H in Hj. clear H.
  revert s Hj. induction ls as [|x ls IH]; intros s Hj.
  - exists []. split; [by subst|done].
  - change ((x :: ls) ++ [l]) with (x :: (ls ++ [l])) in Hj.
    destruct (ls ++ [l]) as [|y r] eqn:E; [by destruct ls|].
    change (x ++ sep :: join [sep] (y :: r) = s) in Hj.
    destruct (IH _ eq_refl) as (pre & Hpre & _). exists (x ++ sep :: pre). split.
    + rewrite <- Hj, Hpre. by rewrite <- app_assoc.
    + intros _. apply elem_of_app. right. by left.
Qed.

Lemma includes_unit s c : includes s [c] = true <-> c ∈ s.
Proof.
  unfold includes, index_of. rewrite drop_0.
  assert (forall s i, match index_of_aux [c] s i with Some _ => true | None => false end = true <-> c ∈ s) as H.
  { clear s. induction s as [|d s IH]; intros i; simpl.
    - split; [done|intros H; inversion H].
    - destruct (c =? d) eqn:E; simpl.
      + bool_prop. subst. split; [by left|]. by destruct s.
      + bool_prop. rewrite IH. split; [by right|]. intros [?|?]%elem_of_cons; [done|done]. }
  apply H.
Qed.

(** [i] does not cut a surrogate pair. *)
Definition whole (s : jstring) (i : nat) : Prop :=
  (i <= length s)%nat /\ forall c, code_point_at s (i - 1) = Some c -> code_point_size c = 1%nat.

Lemma whole_code_point s ub i c :
  whole s ub -> (i < ub)%nat -> code_point_at s i = Some c -> (i + code_point_size c <= ub)%nat.
Proof.
  intros [Hub Hw] Hi Hc.
  assert (code_point_size c <= 2)%nat by (unfold code_point_size; case_match; lia).
  destruct (decide (i = (ub - 1)%nat)) as [->|]; [rewrite (Hw _ Hc); lia|lia].
Qed.

(** ** Trimming *)

Lemma trim_start_split s : exists ws, s = ws ++ trim_start s /\ Forall (fun c => is_space c = true) ws
  /\ match trim_start s with c :: _ => is_space c = false | [] => True end.
Proof.
  induction s as [|c s (ws & H1 & H2 & H3)]; [exists []; done|]. simpl. destruct (is_space c) eqn:E.
  - exists (c :: ws). split; [by rewrite H1 at 1|]. split; [by constructor|done].
  - exists []. done.
Qed.

Lemma trim_start_app ws s :
  Forall (fun c => is_space c = true) ws -> match s with c :: _ => is_space c = false | [] => True end ->
  trim_start (ws ++ s) = s.
Proof.
  intros H Hs. induction H as [|c ws Hc _ IH]; simpl; [destruct s as [|c s]; simpl; [done|by rewrite Hs]|].
  by rewrite Hc.
Qed.

Lemma trim_nil s : trim s = [] <-> Forall (fun c => is_space c = true) s.
Proof.
  unfold trim, trim_end. destruct (trim_start_split s) as (ws & Hs & Hws & Hhd).
  destruct (trim_start_split (rev (trim_start s))) as (ws' & Hs' & Hws' & _). split.
  - intros E. apply (f_equal (@rev Z)) in E. rewrite rev_involutive in E. cbn in E. rewrite E, app_nil_r in Hs'.
    destruct (trim_start s) as [|c r]; [rewrite Hs, app_nil_r; done|]. exfalso.
    rewrite Forall_forall in Hws'. rewrite (Hws' c) in Hhd; [done|]. rewrite <- Hs'. apply list_elem_of_In, in_rev.
    rewrite rev_involutive. by left.
  - intros H. rewrite <- (app_nil_r s), trim_start_app by done. done.
Qed.

(** ** Cutting ranges out of a text *)

Lemma slice_then_from s a b : (a <= b)%nat -> slice_from s a = slice s a b ++ slice_from s b.
Proof.
  intros H. unfold slice, slice_from. replace (drop b s) with (drop (b - a) (drop a s)) by (rewrite drop_drop; f_equal; lia).
  by rewrite take_drop.
Qed.

(** The text from [pos] on without the ranges. *)
Fixpoint without (s : jstring) (pos : nat) (ranges : list (nat * nat)) : jstring :=
  match ranges with
  | [] => slice_from s pos
  | (a, b) :: ranges' => slice s pos a ++ without s b ranges'
  end.


(** Cutting the last range first keeps the offsets of the others. *)
Lemma cut_without s ranges lo :
  spans (fun r => r) lo ranges (length s) ->
  foldr (fun r t => slice t 0 r.1 ++ slice_from t r.2) s ranges = slice s 0 lo ++ without s lo ranges.
Proof.
  revert lo. induction ranges as [|[a b] ranges IH]; intros lo H; cbn [foldr without fst snd].
  - cbn in H. unfold slice, slice_from. by rewrite drop_0, Nat.sub_0_r, take_drop.
  - destruct H as [Hab H]. cbn [fst snd] in Hab, H. rewrite (IH b) by done. pose proof (spans_bounds _ _ _ _ H).
    assert (length (slice s 0 b) = b) as Hb by (rewrite length_slice; lia).
    unfold slice_from. rewrite drop_app_length' by done.
    assert (slice (slice s 0 b ++ without s b ranges) 0 a = slice s 0 a) as ->.
    { unfold slice. rewrite !drop_0, !Nat.sub_0_r. rewrite take_app_le by (rewrite length_take; lia).
      rewrite take_take. f_equal. lia. }
    by rewrite (slice_app_split s 0 lo a), <- app_assoc by lia.
Qed.

(** ** Comparison *)

Lemma js_eqb_true a b : js_eqb a b = true <-> a = b.
Proof. unfold js_eqb. apply bool_decide_eq_true. Qed.
Lemma js_eqb_false a b : js_eqb a b = false <-> a <> b.
Proof. unfold js_eqb. apply bool_decide_eq_false. Qed.
Lemma js_eqb_refl a : js_eqb a a = true.
Proof. by apply js_eqb_true. Qed.
