(* ===== verification/JSDate.v ===== *)
(** * JavaScript dates

    The modelled code reads a [Date] through its local-time getters
    ([getFullYear], [getMonth], [getDate], [getHours]); a value of that kind is the
    record of those fields.  [day_number] is ECMAScript's MakeDay: the day number
    of a proleptic Gregorian date, days counted from 1 January 1970, with months
    and days out of range carried over as [Date.UTC] and [new Date(y, m, d)] do. *)

From S2P Require Import Prelude JSString.

Record local_date := LocalDate {
  getFullYear : Z;
  getMonth : Z;  (* 0 for January *)
  getDate : Z;
}.

#[export] Instance local_date_eq_dec : EqDecision local_date.
Proof. solve_decision. Defined.

Definition is_leap (y : Z) : bool :=
  ((y mod 4 =? 0) && negb (y mod 100 =? 0)) || (y mod 400 =? 0).

Definition days_in_month (y m : Z) : Z :=
  if m =? 1 then (if is_leap y then 29 else 28)
  else if (m =? 3) || (m =? 5) || (m =? 8) || (m =? 10) then 30 else 31.

(** DayFromYear of ECMAScript. *)
Definition day_from_year (y : Z) : Z :=
  365 * (y - 1970) + (y - 1969) / 4 - (y - 1901) / 100 + (y - 1601) / 400.

(** Days of the year before month [m], in a common year. *)
Definition month_start_common (m : Z) : Z :=
  match m with
  | 0 => 0 | 1 => 31 | 2 => 59 | 3 => 90 | 4 => 120 | 5 => 151
  | 6 => 181 | 7 => 212 | 8 => 243 | 9 => 273 | 10 => 304 | _ => 334
  end.
Definition month_start (y m : Z) : Z :=
  month_start_common m + (if is_leap y && (2 <=? m) then 1 else 0).

(** MakeDay(y, m, d). *)
Definition day_number (y m d : Z) : Z :=
  let y' := y + m / 12 in
  let m' := m mod 12 in
  day_from_year y' + month_start y' m' + d - 1.

(** [Date.UTC] and the [Date] constructor read a year 0 to 99 as 1900 + year. *)
Definition full_year (y : Z) : Z := if (0 <=? y) && (y <=? 99) then 1900 + y else y.

(** A date a [Date] can show. *)
Definition valid_date (d : local_date) : Prop :=
  0 <= getMonth d <= 11 /\ 1 <= getDate d <= days_in_month (getFullYear d) (getMonth d).

Ltac month_cases m :=
  let H := fresh in
  assert (m = 0 \/ m = 1 \/ m = 2 \/ m = 3 \/ m = 4 \/ m = 5 \/ m = 6 \/ m = 7
          \/ m = 8 \/ m = 9 \/ m = 10 \/ m = 11) as H by lia;
  destruct H as [->|[->|[->|[->|[->|[->|[->|[->|[->|[->|[->| ->]]]]]]]]]]].

Lemma day_number_date y m d :
  0 <= m <= 11 -> day_number y m d = day_from_year y + month_start y m + d - 1.
Proof.
  intros. unfold day_number. rewrite Z.div_small, Z.mod_small, Z.add_0_r by lia. done.
Qed.

Lemma month_start_bounds y m d :
  0 <= m <= 11 -> 1 <= d <= days_in_month y m ->
  0 <= month_start y m + d - 1 <= 364 + (if is_leap y then 1 else 0).
Proof.
  intros Hm. unfold month_start, days_in_month.
  destruct (is_leap y); month_cases m; simpl; lia.
Qed.

(** The months of a year do not overlap. *)
Lemma month_start_inj y m1 d1 m2 d2 :
  0 <= m1 <= 11 -> 1 <= d1 <= days_in_month y m1 ->
  0 <= m2 <= 11 -> 1 <= d2 <= days_in_month y m2 ->
  month_start y m1 + d1 = month_start y m2 + d2 -> m1 = m2 /\ d1 = d2.
Proof.
  intros Hm1 Hd1 Hm2 Hd2. revert Hd1 Hd2. unfold month_start, days_in_month.
  destruct (is_leap y); month_cases m1; month_cases m2; simpl; lia.
Qed.

(** [day_from_year] grows by the length of the year. *)
Lemma day_from_year_succ y :
  day_from_year (y + 1) = day_from_year y + 365 + (if is_leap y then 1 else 0).
Proof.
  unfold day_from_year, is_leap.
  destruct (y mod 4 =? 0) eqn:E4, (y mod 100 =? 0) eqn:E100, (y mod 400 =? 0) eqn:E400;
    bool_prop; simpl; Z.div_mod_to_equations; lia.
Qed.

Lemma day_from_year_mono y1 y2 : y1 < y2 -> day_from_year y1 + 365 <= day_from_year y2.
Proof.
  intros H. assert (0 <= y2 - y1 - 1) as Hn by lia.
  replace y2 with (y1 + 1 + (y2 - y1 - 1)) by lia.
  revert Hn. generalize (y2 - y1 - 1) as n. apply natlike_ind.
  - rewrite Z.add_0_r, day_from_year_succ. destruct (is_leap y1); lia.
  - intros n Hn IH. replace (y1 + 1 + Z.succ n) with ((y1 + 1 + n) + 1) by lia.
    rewrite day_from_year_succ. destruct (is_leap _); lia.
Qed.

Lemma day_from_year_next y1 y2 :
  y1 < y2 -> day_from_year y1 + 365 + (if is_leap y1 then 1 else 0) <= day_from_year y2.
Proof.
  intros. rewrite <- day_from_year_succ.
  destruct (decide (y2 = y1 + 1)) as [->|]; [lia|].
  pose proof (day_from_year_mono (y1 + 1) y2). lia.
Qed.

(** A day number names at most one date. *)
Lemma day_number_inj a b :
  valid_date a -> valid_date b ->
  day_number (getFullYear a) (getMonth a) (getDate a)
  = day_number (getFullYear b) (getMonth b) (getDate b) -> a = b.
Proof.
  destruct a as [ya ma da], b as [yb mb db]. unfold valid_date. simpl.
  intros [Hma Hda] [Hmb Hdb]. rewrite !day_number_date by done.
  pose proof (month_start_bounds ya ma da Hma Hda).
  pose proof (month_start_bounds yb mb db Hmb Hdb).
  intros E. assert (ya = yb) as <-.
  { destruct (Z.lt_trichotomy ya yb) as [Hlt|[?|Hlt]]; [|done|].
    - pose proof (day_from_year_next _ _ Hlt). lia.
    - pose proof (day_from_year_next _ _ Hlt). lia. }
  destruct (month_start_inj ya ma da mb db) as [-> ->]; [done..|lia|done].
Qed.

(** ** The date of a day number

    [date_of_day n] is the date whose local fields a [Date] on day [n] shows: the
    last year that starts on or before [n], then the last month.  It is the inverse
    of [day_number]. *)

Definition year_of_day (n : Z) : Z :=
  let guess := if n <? 0 then 1970 + n / 365 else 1970 + n / 366 in
  while_m (fun y => Z.to_nat (n - day_from_year y))
    (fun y => if day_from_year (y + 1) <=? n then Some (y + 1) else None) guess.

Definition month_of_day (y n : Z) : Z :=
  let k := n - day_from_year y in
  default 0 (js_find (fun m => month_start y m <=? k) [11; 10; 9; 8; 7; 6; 5; 4; 3; 2; 1]).

Definition date_of_day (n : Z) : local_date :=
  let y := year_of_day n in
  let m := month_of_day y n in
  LocalDate y m (n - day_from_year y - month_start y m + 1).

Lemma day_from_year_upper y :
  day_from_year y <= (if 1970 <=? y then 366 else 365) * (y - 1970).
Proof.
  unfold day_from_year. destruct (1970 <=? y) eqn:E; bool_prop;
    Z.div_mod_to_equations; lia.
Qed.

Lemma year_of_day_spec n :
  day_from_year (year_of_day n) <= n < day_from_year (year_of_day n + 1).
Proof.
  set (body := fun y => if day_from_year (y + 1) <=? n then Some (y + 1) else None).
  set (guess := if n <? 0 then 1970 + n / 365 else 1970 + n / 366).
  assert (day_from_year guess <= n) as Hg.
  { subst guess. destruct (n <? 0) eqn:E; bool_prop.
    - pose proof (day_from_year_upper (1970 + n / 365)) as H.
      destruct (1970 <=? _) eqn:?; bool_prop; Z.div_mod_to_equations; lia.
    - pose proof (day_from_year_upper (1970 + n / 366)) as H.
      destruct (1970 <=? _) eqn:?; bool_prop; Z.div_mod_to_equations; lia. }
  destruct (while_m_inv_exit (fun y => day_from_year y <= n)
              (fun y => Z.to_nat (n - day_from_year y)) body guess) as [HI HE].
  - intros y y' Hi. unfold body. case_match eqn:E; [|done]. intros [= <-]. bool_prop.
    split; [done|]. rewrite day_from_year_succ in E |- *.
    destruct (is_leap y); lia.
  - done.
  - change (while_m _ body guess) with (year_of_day n) in *.
    unfold body in HE. case_match eqn:E; [done|]. bool_prop. lia.
Qed.

Lemma month_of_day_spec y n :
  day_from_year y <= n < day_from_year (y + 1) ->
  0 <= month_of_day y n <= 11
  /\ 1 <= n - day_from_year y - month_start y (month_of_day y n) + 1
     <= days_in_month y (month_of_day y n).
Proof.
  rewrite day_from_year_succ. unfold month_of_day.
  intros Hn0. assert (0 <= n - day_from_year y < 365 + (if is_leap y then 1 else 0)) as Hn by lia.
  clear Hn0. revert Hn. generalize (n - day_from_year y) as k. intros k Hn.
  remember (js_find _ _) as r eqn:Hr. symmetry in Hr. simpl in Hr.
  unfold month_start, days_in_month in *.
  destruct (is_leap y); simpl in *;
    repeat match type of Hr with
    | (if ?b then _ else _) = _ => destruct b eqn:?; [subst r; simpl; bool_prop; lia|]
    end; subst r; simpl; bool_prop; lia.
Qed.

Lemma date_of_day_valid n : valid_date (date_of_day n).
Proof.
  destruct (month_of_day_spec (year_of_day n) n (year_of_day_spec n)).
  split; simpl; lia.
Qed.

Lemma date_of_day_number n :
  day_number (getFullYear (date_of_day n)) (getMonth (date_of_day n)) (getDate (date_of_day n)) = n.
Proof.
  destruct (month_of_day_spec (year_of_day n) n (year_of_day_spec n)).
  simpl. rewrite day_number_date by lia. lia.
Qed.

Lemma date_of_day_inv d :
  valid_date d -> date_of_day (day_number (getFullYear d) (getMonth d) (getDate d)) = d.
Proof.
  intros. apply day_number_inj; [apply date_of_day_valid|done|apply date_of_day_number].
Qed.

#[export] Hint Resolve date_of_day_valid : memos.
#[export] Hint Rewrite date_of_day_number : memos.
