(* ===== verification/HostUnicode.v ===== *)
(** * The host's Unicode tables

    [toLowerCase], [toUpperCase] and the property escapes [\p{..}] of regular
    expressions read the Unicode character database of the JavaScript engine.  The
    class [HostUnicode] is that database as the modelled code uses it, and
    [HostUnicodeLaws] states what ECMAScript fixes about ASCII.  [ascii_host] is a
    concrete instance, used by the witnesses. *)

From S2P Require Import Prelude JSString.

Class HostUnicode := {
  to_lower : jstring -> jstring;      (* s.toLowerCase() *)
  to_upper : jstring -> jstring;      (* s.toUpperCase() *)
  is_letter : Z -> bool;              (* \p{L} on a code point *)
  is_number : Z -> bool;              (* \p{N} *)
  is_separator : Z -> bool;           (* \p{Z} *)
}.

Definition is_ascii (s : jstring) : bool := forallb (fun c => (0 <=? c) && (c <=? 127)) s.
Definition lower_ascii (c : Z) : Z := if is_upper_ascii c then c + 32 else c.
Definition upper_ascii (c : Z) : Z := if is_lower_ascii c then c - 32 else c.

Class HostUnicodeLaws `{HostUnicode} : Prop := {
  to_lower_ascii s : is_ascii s = true -> to_lower s = lower_ascii <$> s;
  to_upper_ascii s : is_ascii s = true -> to_upper s = upper_ascii <$> s;
  is_letter_ascii c : 0 <= c <= 127 -> is_letter c = is_upper_ascii c || is_lower_ascii c;
  is_number_ascii c : 0 <= c <= 127 -> is_number c = is_digit c;
  is_separator_ascii c : 0 <= c <= 127 -> is_separator c = (c =? 32);
}.

(** A host that knows ASCII only. *)
Definition ascii_host : HostUnicode := {|
  to_lower s := lower_ascii <$> s;
  to_upper s := upper_ascii <$> s;
  is_letter c := is_upper_ascii c || is_lower_ascii c;
  is_number c := is_digit c;
  is_separator c := c =? 32;
|}.

Lemma ascii_host_laws : @HostUnicodeLaws ascii_host.
Proof. by constructor. Qed.

Lemma lower_ascii_idem c : lower_ascii (lower_ascii c) = lower_ascii c.
Proof.
  unfold lower_ascii, is_upper_ascii. repeat case_match; bool_prop; lia.
Qed.

Lemma is_ascii_lower s : is_ascii s = true -> is_ascii (lower_ascii <$> s) = true.
Proof.
  unfold is_ascii. rewrite !forallb_forall. intros Hs x Hx.
  rewrite <- list_elem_of_In in Hx. apply list_elem_of_fmap in Hx as (y & -> & Hy).
  apply list_elem_of_In in Hy. specialize (Hs _ Hy). bool_prop.
  apply andb_true_iff. unfold lower_ascii, is_upper_ascii.
  case_match; bool_prop; split; apply Z.leb_le; lia.
Qed.
