(* ===== verification/JSON.v ===== *)
(** * JSON values

    What [JSON.parse] gives, as the modelled code inspects it.  Numbers are
    rationals (every finite double is one); an object is the list of its own
    properties in order, each key once. *)

From Stdlib Require Export QArith.
From S2P Require Import Prelude JSString.
Open Scope Z_scope.

Inductive json :=
  | JNull
  | JBool (b : bool)
  | JNum (q : Q)
  | JInfinity (negative : bool)
  | JStr (s : jstring)
  | JArr (l : list json)
  | JObj (o : list (jstring * json)).

(** [o[key]] on own properties, [None] for [undefined]. *)
Fixpoint prop {V} (o : list (jstring * V)) (key : jstring) : option V :=
  match o with
  | [] => None
  | (k, v) :: o' => if js_eqb k key then Some v else prop o' key
  end.

Definition has_prop {V} (o : list (jstring * V)) (key : jstring) : bool :=
  match prop o key with Some _ => true | None => false end.

(** [Number.isInteger] on a finite number, and its integer value. *)
Definition is_integer (q : Q) : bool := Qnum q mod Zpos (Qden q) =? 0.
Definition int_value (q : Q) : Z := Qnum q / Zpos (Qden q).

Lemma prop_In {V} (o : list (jstring * V)) key v : prop o key = Some v -> (key, v) ∈ o.
Proof.
  induction o as [|[k w] o IH]; simpl; [done|].
  destruct (js_eqb k key) eqn:E; intros H.
  - unfold js_eqb in E. bool_prop. simplify_eq. by left.
  - right. auto.
Qed.
