(* ===== verification/JSRegExp.v ===== *)
(** * Regular expressions

    The backtracking matcher of ECMAScript on the operators the modelled code uses.
    [run] lists the ways a pattern matches from a state, in the order a backtracking
    engine tries them, so the match is the head of the list.  [matches] is the
    relational reading; [run_matches] proves that the two agree. *)

From S2P Require Import Prelude JSString.

(** A pattern.  [Chars p] is a class of characters: code units, or code points with
    the [u] flag.  [NotNext p] and [NotPrev p] are the assertions [(?!p)] and
    [(?<!p)] on one code unit. *)
Inductive re :=
  | Eps
  | Chars (p : Z -> bool)
  | Seq (r1 r2 : re)
  | Alt (r1 r2 : re)
  | Star (greedy : bool) (r : re)
  | Group (n : nat) (r : re)
  | StartOf (multiline : bool)
  | EndOf (multiline : bool)
  | NotNext (p : Z -> bool)
  | NotPrev (p : Z -> bool).

(** A position, and the captures, latest first. *)
Abbreviation rstate := (nat * list (nat * (nat * nat)))%type (only parsing).

Definition is_line_end (c : Z) : bool := (c =? 10) || (c =? 13) || (c =? 0x2028) || (c =? 0x2029).

Section Match.
Context (unicode : bool) (s : jstring).

(** The character at a position, with its size. *)
Definition char_at (i : nat) : option (Z * nat) :=
  if unicode then (fun c => (c, code_point_size c)) <$> code_point_at s i
  else (fun c => (c, 1%nat)) <$> s !! i.

Definition at_start (multiline : bool) (i : nat) : bool :=
  (i =? 0)%nat || (multiline && match s !! (i - 1)%nat with Some c => is_line_end c | None => false end).
Definition at_end (multiline : bool) (i : nat) : bool :=
  (length s <=? i)%nat || (multiline && match s !! i with Some c => is_line_end c | None => false end).

Definition next_is (p : Z -> bool) (i : nat) : bool := match s !! i with Some c => p c | None => false end.
Definition prev_is (p : Z -> bool) (i : nat) : bool :=
  match i with O => false | Datatypes.S j => next_is p j end.

(** An iteration of a star must advance. *)
Fixpoint star_run (f : rstate -> list rstate) (greedy : bool) (fuel : nat) (st : rstate) : list rstate :=
  match fuel with
  | O => [st]
  | Datatypes.S fuel' =>
      let more := js_filter (fun st' => st.1 <? st'.1)%nat (f st) ≫= star_run f greedy fuel' in
      if greedy then more ++ [st] else st :: more
  end.

Fixpoint run (r : re) (st : rstate) : list rstate :=
  match r with
  | Eps => [st]
  | Chars p => match char_at st.1 with
               | Some (c, size) => if p c then [((st.1 + size)%nat, st.2)] else []
               | None => []
               end
  | Seq r1 r2 => run r1 st ≫= run r2
  | Alt r1 r2 => run r1 st ++ run r2 st
  | Star greedy r => star_run (run r) greedy (Datatypes.S (length s - st.1)) st
  | Group n r => (fun st' => (st'.1, (n, (st.1, st'.1)) :: st'.2)) <$> run r st
  | StartOf m => if at_start m st.1 then [st] else []
  | EndOf m => if at_end m st.1 then [st] else []
  | NotNext p => if next_is p st.1 then [] else [st]
  | NotPrev p => if prev_is p st.1 then [] else [st]
  end.

(** ** The relational reading *)

Inductive matches : re -> rstate -> rstate -> Prop :=
  | m_eps st : matches Eps st st
  | m_chars p i size c caps : char_at i = Some (c, size) -> p c = true ->
      matches (Chars p) (i, caps) ((i + size)%nat, caps)
  | m_seq r1 r2 st st1 st2 : matches r1 st st1 -> matches r2 st1 st2 -> matches (Seq r1 r2) st st2
  | m_alt_l r1 r2 st st' : matches r1 st st' -> matches (Alt r1 r2) st st'
  | m_alt_r r1 r2 st st' : matches r2 st st' -> matches (Alt r1 r2) st st'
  | m_star_nil g r st : matches (Star g r) st st
  | m_star_cons g r st st1 st2 : matches r st st1 -> (st.1 < st1.1)%nat ->
      matches (Star g r) st1 st2 -> matches (Star g r) st st2
  | m_group n r st st' : matches r st st' -> matches (Group n r) st (st'.1, (n, (st.1, st'.1)) :: st'.2)
  | m_start m st : at_start m st.1 = true -> matches (StartOf m) st st
  | m_end m st : at_end m st.1 = true -> matches (EndOf m) st st
  | m_not_next p st : next_is p st.1 = false -> matches (NotNext p) st st
  | m_not_prev p st : prev_is p st.1 = false -> matches (NotPrev p) st st.

Lemma char_at_bound i c size : char_at i = Some (c, size) -> (i < length s)%nat /\ (i < i + size)%nat.
Proof.
  unfold char_at. destruct unicode; intros H; apply fmap_Some in H as (d & Hd & [= -> ->]).
  - split; [|pose proof (code_point_size_pos d); lia]. unfold code_point_at in Hd.
    destruct (s !! i) eqn:E; [|done]. by apply lookup_lt_Some in E.
  - apply lookup_lt_Some in Hd. lia.
Qed.

(** A code point of two units needs the second one. *)
Lemma char_at_end i c size : char_at i = Some (c, size) -> (i + size <= length s)%nat \/ (0xFFFF < c).
Proof.
  unfold char_at. destruct unicode; intros H; apply fmap_Some in H as (d & Hd & [= -> ->]).
  - unfold code_point_size. destruct (d >? 0xFFFF) eqn:E; [right; apply Z.gtb_lt in E; lia|left].
    unfold code_point_at in Hd. destruct (s !! i) eqn:Ei; [|done]. apply lookup_lt_Some in Ei. lia.
  - left. apply lookup_lt_Some in Hd. lia.
Qed.

Lemma star_run_sound f g fuel st st' (R : rstate -> rstate -> Prop) :
  (forall a b, b ∈ f a -> R a b) ->
  st' ∈ star_run f g fuel st -> rtc (fun a b => R a b /\ (a.1 < b.1)%nat) st st'.
Proof.
  intros Hf. revert st. induction fuel as [|fuel IH]; intros st; cbn [star_run].
  - intros ->%list_elem_of_singleton. constructor.
  - assert (st' ∈ js_filter (fun b => st.1 <? b.1)%nat (f st) ≫= star_run f g fuel ->
      rtc (fun a b => R a b /\ (a.1 < b.1)%nat) st st') as Hmore.
    { intros (st1 & Hst' & H1)%list_elem_of_bind. apply js_filter_In in H1 as [H1 Hlt]. bool_prop.
      eapply rtc_l; [split; [by apply Hf|done]|by apply IH]. }
    destruct g; [rewrite elem_of_app, list_elem_of_singleton|rewrite elem_of_cons]; intros [?| ?]; subst;
      try (by apply Hmore); constructor.
Qed.

Lemma run_sound r st st' : st' ∈ run r st -> matches r st st'.
Proof.
  revert st st'. induction r as [|p|r1 IH1 r2 IH2|r1 IH1 r2 IH2|g r IH|n r IH|m|m|p|p]; intros st st'; cbn [run].
  - intros ->%list_elem_of_singleton. constructor.
  - destruct st as [i caps]. destruct (char_at i) as [[c size]|] eqn:E; cbn [fst snd]; rewrite ?E; [|intros H; inversion H].
    destruct (p c) eqn:Ep; [|intros H; inversion H]. intros ->%list_elem_of_singleton. by econstructor.
  - intros (st1 & H2 & H1)%list_elem_of_bind. econstructor; eauto.
  - intros [H|H]%elem_of_app; [apply m_alt_l|apply m_alt_r]; auto.
  - intros H. apply (star_run_sound _ _ _ _ _ (matches r)) in H; [|by intros; apply IH].
    induction H as [|a b c [H1 H2] _ IHs]; [constructor|]. by eapply m_star_cons.
  - intros (st1 & -> & H)%list_elem_of_fmap. constructor. by apply IH.
  - destruct (at_start m st.1) eqn:E; [|intros H; inversion H]. intros ->%list_elem_of_singleton. by constructor.
  - destruct (at_end m st.1) eqn:E; [|intros H; inversion H]. intros ->%list_elem_of_singleton. by constructor.
  - destruct (next_is p st.1) eqn:E; [intros H; inversion H|]. intros ->%list_elem_of_singleton. by constructor.
  - destruct (prev_is p st.1) eqn:E; [intros H; inversion H|]. intros ->%list_elem_of_singleton. by constructor.
Qed.

(** Enough fuel: every iteration starts before the end. *)
Lemma matches_advances r st st' :
  matches r st st' -> (st.1 <= st'.1)%nat /\ ((st.1 < st'.1)%nat -> (st.1 < length s)%nat).
Proof.
  induction 1 as [st|p i size c caps Hc Hp|r1 r2 st st1 st2 _ [IH1 IH1'] _ [IH2 IH2']|r1 r2 st st' _ IH
    |r1 r2 st st' _ IH|g r st|g r st st1 st2 _ [IH1 IH1'] Hlt _ [IH2 _]|n r st st' _ IH|m st Hm|m st Hm|p st Hp|p st Hp];
    cbn [fst] in *; try (by auto); try (split; [lia|lia]).
  apply char_at_bound in Hc. lia.
Qed.

Lemma run_complete r st st' : matches r st st' -> st' ∈ run r st.
Proof.
  assert (forall g fuel r st st', (forall a b, matches r a b -> b ∈ run r a) ->
    matches (Star g r) st st' -> (length s - st.1 < fuel)%nat -> st' ∈ star_run (run r) g fuel st) as Hstar.
  { clear. intros g fuel r st st' Hr. revert st. induction fuel as [|fuel IH]; intros st Hm Hf; [lia|].
    cbn [star_run]. inversion Hm as [| | | | |? ? ?|? ? ? st1 ? H1 Hlt H2| | | | |]; subst.
    - destruct g; [apply elem_of_app; right; by apply list_elem_of_singleton|by left].
    - assert (st' ∈ js_filter (fun b => st.1 <? b.1)%nat (run r st) ≫= star_run (run r) g fuel) as Hin.
      { apply list_elem_of_bind. exists st1. split.
        - apply IH; [done|]. apply matches_advances in H1 as [_ H1]. specialize (H1 Hlt). lia.
        - apply js_filter_In. split; [by apply Hr|by apply Nat.ltb_lt]. }
      destruct g; [apply elem_of_app; by left|by right]. }
  revert st st'. induction r as [|p|r1 IH1 r2 IH2|r1 IH1 r2 IH2|g r IH|n r IH|m|m|p|p]; intros st st' H; cbn [run].
  - inversion H; subst. by apply list_elem_of_singleton.
  - inversion H as [|? i size c caps Hc Hp| | | | | | | | | |]; subst. cbn [fst snd]. rewrite Hc, Hp.
    by apply list_elem_of_singleton.
  - inversion H; subst. apply list_elem_of_bind. eauto.
  - inversion H; subst; apply elem_of_app; auto.
  - apply Hstar; [done|done|lia].
  - inversion H; subst. apply list_elem_of_fmap. eauto.
  - inversion H as [| | | | | | | |? ? Hm| | |]; subst. rewrite Hm. by apply list_elem_of_singleton.
  - inversion H as [| | | | | | | | |? ? Hm| |]; subst. rewrite Hm. by apply list_elem_of_singleton.
  - inversion H as [| | | | | | | | | |? ? Hm|]; subst. rewrite Hm. by apply list_elem_of_singleton.
  - inversion H as [| | | | | | | | | | |? ? Hm]; subst. rewrite Hm. by apply list_elem_of_singleton.
Qed.

Lemma run_matches r st st' : st' ∈ run r st <-> matches r st st'.
Proof. split; [apply run_sound|apply run_complete]. Qed.
End Match.

(** ** Using a pattern *)

(** [re.exec(s)] from offset [i] with the sticky flag: the end and the captures. *)
Definition match_at (unicode : bool) (r : re) (s : jstring) (i : nat) : option (nat * list (nat * (nat * nat))) :=
  head (run unicode s r (i, [])).

(** A match: where it starts, where it ends, and its captures. *)
Record rmatch := { m_from : nat; m_to : nat; m_caps : list (nat * (nat * nat)) }.

(** [re.exec(s)] from offset [from] on: the first offset with a match, moving by
    characters. *)
Fixpoint exec_fuel (fuel : nat) (unicode : bool) (r : re) (s : jstring) (i : nat) : option rmatch :=
  match fuel with
  | O => None
  | Datatypes.S fuel' =>
      match match_at unicode r s i with
      | Some (j, caps) => Some {| m_from := i; m_to := j; m_caps := caps |}
      | None =>
          if (i <? length s)%nat
          then exec_fuel fuel' unicode r s
                 (i + match char_at unicode s i with Some (_, size) => size | None => 1 end)%nat
          else None
      end
  end.
Definition exec_from (unicode : bool) (r : re) (s : jstring) (from : nat) : option rmatch :=
  exec_fuel (Datatypes.S (length s - from)) unicode r s from.

Definition test (unicode : bool) (r : re) (s : jstring) : bool :=
  match exec_from unicode r s 0 with Some _ => true | None => false end.

(** The text of capture [n], [None] for undefined. *)
Definition capture (s : jstring) (m : rmatch) (n : nat) : option jstring :=
  match list_find (fun p => p.1 = n) (m_caps m) with
  | Some (_, (_, (i, j))) => Some (slice s i j)
  | None => None
  end.

(** The same by recursion, which evaluates on a known list of captures. *)
Fixpoint cap_of (n : nat) (caps : list (nat * (nat * nat))) : option (nat * nat) :=
  match caps with
  | [] => None
  | (k, p) :: caps' => if (k =? n)%nat then Some p else cap_of n caps'
  end.

Lemma capture_cap_of s m n : capture s m n = (fun p => slice s p.1 p.2) <$> cap_of n (m_caps m).
Proof.
  unfold capture. induction (m_caps m) as [|[k [i j]] caps IH]; [done|]. cbn [list_find cap_of fst].
  destruct (decide (k = n)) as [->|Hne]; [by rewrite Nat.eqb_refl|].
  rewrite (proj2 (Nat.eqb_neq _ _)) by done. rewrite <- IH. by destruct (list_find _ caps) as [[? [? [? ?]]]|].
Qed.

Ltac captures H :=
  rewrite !capture_cap_of, H;
  cbn [cap_of Nat.eqb fmap option_fmap option_map fst snd default from_option]; unfold id.

(** [s.matchAll(re)] with the [g] flag: the matches from offset [i] on; after an empty
    one the search goes on one character later. *)
Fixpoint match_all_fuel (fuel : nat) (unicode : bool) (r : re) (s : jstring) (i : nat) : list rmatch :=
  match fuel with
  | O => []
  | Datatypes.S fuel' =>
      if (length s <? i)%nat then [] else
      match exec_from unicode r s i with
      | None => []
      | Some m =>
          let size := match char_at unicode s (m_to m) with Some (_, n) => n | None => 1%nat end in
          m :: match_all_fuel fuel' unicode r s (if m_to m =? m_from m then m_to m + size else m_to m)%nat
      end
  end.
Definition match_all (unicode : bool) (r : re) (s : jstring) : list rmatch := match_all_fuel (length s + 2) unicode r s 0.

(** Notations for patterns. *)
Definition char (c : Z) : re := Chars (fun d => d =? c).
Fixpoint text (s : jstring) : re :=
  match s with [] => Eps | [c] => char c | c :: s' => Seq (char c) (text s') end.
Definition one_of (s : jstring) : re := Chars (fun d => existsb (Z.eqb d) s).
Definition star (r : re) : re := Star true r.
Definition plus (r : re) : re := Seq r (Star true r).
Definition opt (r : re) : re := Alt r Eps.
(** [r{0,n}] and [r{m,n}]. *)
Fixpoint up_to (n : nat) (r : re) : re :=
  match n with O => Eps | Datatypes.S n' => Alt (Seq r (up_to n' r)) Eps end.
Fixpoint times (n : nat) (r : re) : re :=
  match n with O => Eps | Datatypes.S n' => Seq r (times n' r) end.
Definition between (m n : nat) (r : re) : re := Seq (times m r) (up_to (n - m) r).
Definition space : re := Chars is_space.
Definition digit : re := Chars is_digit.
(** [.]: not a line terminator. *)
Definition dot : re := Chars (fun c => negb (is_line_end c)).

Declare Scope re_scope.
Delimit Scope re_scope with re.
Infix "+++" := Seq (at level 60, right associativity) : re_scope.
Infix "|||" := Alt (at level 50, left associativity) : re_scope.

(** ** Lemmas on using a pattern *)

Lemma match_at_matches unicode r s i j caps :
  match_at unicode r s i = Some (j, caps) -> matches unicode s r (i, []) (j, caps).
Proof.
  unfold match_at. intros H. apply head_Some_elem_of in H. by apply run_sound.
Qed.

Lemma match_at_None unicode r s i :
  match_at unicode r s i = None <-> forall st, ~ matches unicode s r (i, []) st.
Proof.
  unfold match_at. destruct (run unicode s r (i, [])) as [|st l] eqn:E; simpl.
  - split; [|done]. intros _ st H. apply run_complete in H. rewrite E in H. inversion H.
  - split; [done|]. intros H. exfalso. apply (H st), run_sound. rewrite E. by left.
Qed.

Lemma exec_from_Some unicode r s from m :
  exec_from unicode r s from = Some m ->
  (from <= m_from m)%nat /\ (m_from m <= m_to m)%nat
  /\ matches unicode s r (m_from m, []) (m_to m, m_caps m).
Proof.
  unfold exec_from. generalize (Datatypes.S (length s - from)) as fuel. intros fuel. revert from.
  induction fuel as [|fuel IH]; intros i; [done|]. cbn [exec_fuel].
  destruct (match_at unicode r s i) as [[j caps]|] eqn:E.
  - intros [= <-]. cbn. apply match_at_matches in E. split; [lia|]. split; [|done].
    apply matches_advances in E as [E _]. exact E.
  - destruct (i <? length s)%nat; [|done]. intros H. apply IH in H as (H1 & H2 & H3).
    split; [|done]. destruct (char_at unicode s i) as [[c size]|] eqn:Ec; [|lia].
    apply char_at_bound in Ec. lia.
Qed.

(** A non-unicode exec finds the first offset where the pattern matches. *)
Lemma exec_from_first r s from :
  match exec_from false r s from with
  | Some m => forall i, (from <= i < m_from m)%nat -> match_at false r s i = None
  | None => forall i, (from <= i <= length s)%nat -> match_at false r s i = None
  end.
Proof.
  unfold exec_from. remember (Datatypes.S (length s - from)) as fuel eqn:Ef.
  assert (length s - from < fuel)%nat as Hf by lia. clear Ef. revert from Hf.
  induction fuel as [|fuel IH]; intros from Hf; [lia|]. cbn [exec_fuel].
  destruct (match_at false r s from) as [[j caps]|] eqn:E; [cbn; lia|].
  destruct (from <? length s)%nat eqn:El; bool_prop.
  - assert (match char_at false s from with Some (_, size) => size | None => 1 end = 1)%nat as ->.
    { unfold char_at. by destruct (s !! from). }
    specialize (IH (from + 1)%nat ltac:(lia)).
    destruct (exec_fuel fuel false r s (from + 1)) as [m|]; intros i Hi;
      (destruct (decide (i = from)) as [->|]; [done|apply IH; lia]).
  - intros i Hi. by assert (i = from) as -> by lia.
Qed.

(** ** Classes and rows of characters, without the [u] flag *)

(** Every code unit of [i, j) is there and passes [p]. *)
Definition all_chars (s : jstring) (p : Z -> bool) (i j : nat) : Prop :=
  (i <= j)%nat /\ forall k, (i <= k < j)%nat -> exists c, s !! k = Some c /\ p c = true.

Lemma all_chars_nil s p i : all_chars s p i i.
Proof. split; [lia|]. intros k Hk. lia. Qed.

Lemma all_chars_one s p i c : s !! i = Some c -> p c = true -> all_chars s p i (i + 1).
Proof. intros H Hp. split; [lia|]. intros k Hk. assert (k = i) as -> by lia. eauto. Qed.

Lemma all_chars_app s p i j k : all_chars s p i j -> all_chars s p j k -> all_chars s p i k.
Proof.
  intros [H1 H2] [H3 H4]. split; [lia|]. intros n Hn.
  destruct (decide (n < j)%nat); [apply H2; lia|apply H4; lia].
Qed.

Lemma matches_chars s p i caps st :
  matches false s (Chars p) (i, caps) st <->
  exists c, s !! i = Some c /\ p c = true /\ st = ((i + 1)%nat, caps).
Proof.
  split.
  - inversion 1 as [|? ? size c ? Hc Hp| | | | | | | | | |]; subst. unfold char_at in Hc.
    apply fmap_Some in Hc as (d & Hd & [= -> ->]). eauto.
  - intros (c & Hc & Hp & ->). eapply m_chars; [|done]. unfold char_at. by rewrite Hc.
Qed.

Lemma matches_seq u0 s r1 r2 st st' :
  matches u0 s (Seq r1 r2) st st' <-> exists st1, matches u0 s r1 st st1 /\ matches u0 s r2 st1 st'.
Proof. split; [inversion 1; subst; eauto|intros (st1 & ? & ?); by econstructor]. Qed.

Lemma matches_alt u0 s r1 r2 st st' :
  matches u0 s (Alt r1 r2) st st' <-> matches u0 s r1 st st' \/ matches u0 s r2 st st'.
Proof. split; [inversion 1; subst; auto|intros [?|?]; by constructor]. Qed.

Lemma matches_group u0 s n r st st' :
  matches u0 s (Group n r) st st' <->
  exists st1, matches u0 s r st st1 /\ st' = (st1.1, (n, (st.1, st1.1)) :: st1.2).
Proof. split; [inversion 1; subst; eauto|intros (st1 & ? & ->); by constructor]. Qed.

Lemma matches_start u0 s st st' :
  matches u0 s (StartOf false) st st' <-> st' = st /\ st.1 = 0%nat.
Proof.
  split.
  - inversion 1 as [| | | | | | | |? ? Hm| | |]; subst. unfold at_start in Hm.
    rewrite orb_false_r in Hm. by bool_prop.
  - intros [-> H]. constructor. unfold at_start. by rewrite H.
Qed.

Lemma matches_end u0 s st st' :
  matches u0 s (EndOf false) st st' <-> st' = st /\ (length s <= st.1)%nat.
Proof.
  split.
  - inversion 1 as [| | | | | | | | |? ? Hm| |]; subst. unfold at_end in Hm.
    rewrite orb_false_r in Hm. by bool_prop.
  - intros [-> H]. constructor. unfold at_end. rewrite orb_false_r. by apply Nat.leb_le.
Qed.

Lemma matches_star_chars s g p i caps st :
  matches false s (Star g (Chars p)) (i, caps) st <-> all_chars s p i st.1 /\ st.2 = caps.
Proof.
  split.
  - intros H. remember (Star g (Chars p)) as r eqn:Er. remember (i, caps) as st0 eqn:E0.
    revert i caps E0. induction H as [| | | | |g' r st|g' r st st1 st2 H1 _ Hlt H2 IH| | | | |];
      intros i0 caps0 E0; try done; injection Er as -> ->; subst.
    + split; [apply all_chars_nil|done].
    + apply matches_chars in H1 as (c & Hc & Hp & ->). destruct (IH eq_refl _ _ eq_refl) as [IH1 IH2].
      split; [|done]. eapply all_chars_app; [by eapply all_chars_one|done].
  - destruct st as [j caps']. cbn. intros [[Hij H] ->].
    remember (j - i)%nat as n eqn:En. revert i Hij H En. induction n as [|n IH]; intros i Hij H En.
    + assert (j = i) as -> by lia. constructor.
    + destruct (H i ltac:(lia)) as (c & Hc & Hp). eapply m_star_cons.
      * apply matches_chars. eauto.
      * cbn. lia.
      * apply IH; [lia| |lia]. intros k Hk. apply H. lia.
Qed.

Lemma matches_plus_chars s p i caps st :
  matches false s (plus (Chars p)) (i, caps) st <-> all_chars s p i st.1 /\ (i < st.1)%nat /\ st.2 = caps.
Proof.
  unfold plus. rewrite matches_seq. split.
  - intros (st1 & (c & Hc & Hp & ->)%matches_chars & [H2 H3]%matches_star_chars).
    split; [eapply all_chars_app; [by eapply all_chars_one|done]|]. split; [|done]. destruct H2. lia.
  - intros ([H1 H2] & Hlt & H3). destruct (H2 i ltac:(lia)) as (c & Hc & Hp).
    exists ((i + 1)%nat, caps). split; [apply matches_chars; eauto|].
    apply matches_star_chars. split; [|done]. split; [lia|]. intros k Hk. apply H2. lia.
Qed.

Lemma matches_eps u0 s st st' : matches u0 s Eps st st' <-> st' = st.
Proof. split; [by inversion 1|intros ->; constructor]. Qed.

Lemma all_chars_cons s p i j c :
  s !! i = Some c -> p c = true -> all_chars s p (i + 1) j -> all_chars s p i j.
Proof. intros Hc Hp H. eapply all_chars_app; [by eapply all_chars_one|done]. Qed.

Lemma matches_times_chars s n p i caps st :
  matches false s (times n (Chars p)) (i, caps) st <->
  all_chars s p i st.1 /\ st.1 = (i + n)%nat /\ st.2 = caps.
Proof.
  revert i. induction n as [|n IH]; intros i; simpl.
  - rewrite matches_eps. destruct st as [j caps']; simpl. split; [intros [= -> ->]|].
    + split; [apply all_chars_nil|]. split; [lia|done].
    + intros (_ & -> & ->). by rewrite Nat.add_0_r.
  - rewrite matches_seq. split.
    + intros (st1 & (c & Hc & Hp & ->)%matches_chars & (H1 & H2 & H3)%IH).
      split; [by eapply all_chars_cons|]. split; [lia|done].
    + intros ([Hij H] & Hj & Hcaps). destruct (H i ltac:(lia)) as (c & Hc & Hp).
      exists ((i + 1)%nat, caps). split; [apply matches_chars; eauto|]. apply IH.
      split; [|split; [lia|done]]. split; [lia|]. intros k Hk. apply H. lia.
Qed.

Lemma matches_up_to_chars s n p i caps st :
  matches false s (up_to n (Chars p)) (i, caps) st <->
  all_chars s p i st.1 /\ (st.1 <= i + n)%nat /\ st.2 = caps.
Proof.
  revert i. induction n as [|n IH]; intros i; simpl.
  - rewrite matches_eps. destruct st as [j caps']; simpl. split; [intros [= -> ->]|].
    + split; [apply all_chars_nil|]. split; [lia|done].
    + intros ([? _] & ? & ->). by assert (j = i) as -> by lia.
  - rewrite matches_alt, matches_seq, matches_eps. split.
    + intros [(st1 & (c & Hc & Hp & ->)%matches_chars & (H1 & H2 & H3)%IH)| ->].
      * split; [by eapply all_chars_cons|]. split; [lia|done].
      * split; [apply all_chars_nil|]. split; [simpl; lia|done].
    + destruct st as [j caps']; simpl. intros ([Hij H] & Hj & Hcaps).
      destruct (decide (j = i)) as [->|]; [right; by subst|left].
      destruct (H i ltac:(lia)) as (c & Hc & Hp).
      exists ((i + 1)%nat, caps). split; [apply matches_chars; eauto|]. apply IH.
      cbn [fst snd]. split; [|split; [lia|done]]. split; [lia|]. intros k Hk. apply H. lia.
Qed.

Lemma matches_between_chars s m n p i caps st :
  (m <= n)%nat ->
  matches false s (between m n (Chars p)) (i, caps) st <->
  all_chars s p i st.1 /\ (i + m <= st.1 <= i + n)%nat /\ st.2 = caps.
Proof.
  intros Hmn. unfold between. rewrite matches_seq. split.
  - intros ([k caps1] & (H1 & Hk & H1c)%matches_times_chars & H2). simpl in *. subst.
    apply matches_up_to_chars in H2 as (H2 & H3 & H4).
    split; [by eapply all_chars_app|]. split; [destruct H2; lia|done].
  - intros ([Hij H] & Hj & Hcaps). exists ((i + m)%nat, caps). split.
    + apply matches_times_chars. split; [|done]. simpl. split; [lia|]. intros k Hk. apply H. lia.
    + apply matches_up_to_chars. split; [|split; [lia|done]]. split; [lia|]. intros k Hk. apply H. lia.
Qed.

(** Without the [u] flag a match stays inside the string. *)
Lemma matches_bound s r st st' : matches false s r st st' -> (st.1 <= length s)%nat -> (st'.1 <= length s)%nat.
Proof.
  induction 1 as [|p i size c caps Hc Hp| | | | | | | | | |]; cbn [fst] in *; intros; try lia; auto.
  unfold char_at in Hc. apply fmap_Some in Hc as (d & Hd & [= -> ->]). apply lookup_lt_Some in Hd. lia.
Qed.

(** In text: the slice of a row of characters passes the class. *)
Lemma all_chars_slice s p i j :
  all_chars s p i j -> Forall (fun c => p c = true) (slice s i j) /\ ((i < j)%nat -> (j <= length s)%nat).
Proof.
  intros [Hij H]. split.
  - apply Forall_forall. intros c Hc. apply list_elem_of_lookup in Hc as [k Hk].
    pose proof (lookup_lt_Some _ _ _ Hk) as Hlt. rewrite length_slice in Hlt.
    rewrite lookup_slice in Hk by lia. destruct (H (i + k)%nat ltac:(lia)) as (d & Hd & Hp). congruence.
  - intros Hlt. destruct (H (j - 1)%nat ltac:(lia)) as (d & Hd & _). apply lookup_lt_Some in Hd. lia.
Qed.

Lemma all_chars_of_app s1 s2 s3 p :
  Forall (fun c => p c = true) s2 ->
  all_chars (s1 ++ s2 ++ s3) p (length s1) (length s1 + length s2).
Proof.
  intros H. split; [lia|]. intros k Hk.
  destruct (lookup_lt_is_Some_2 s2 (k - length s1)) as [c Hc]; [lia|].
  exists c. rewrite Forall_forall in H. split; [|by eapply H, list_elem_of_lookup_2].
  rewrite lookup_app_r by lia. by rewrite lookup_app_l by lia.
Qed.

(** A search finds the first offset that matches; with the [u] flag it steps over whole
    code points, so that offset must not be inside one. *)
Lemma exec_fuel_at unicode r s k j caps fuel i :
  units s -> (k < length s)%nat -> match_at unicode r s k = Some (j, caps) ->
  (forall c, s !! k = Some c -> is_low_surrogate c = false) ->
  (length s - i < fuel)%nat -> (i <= k)%nat -> (forall n, (i <= n < k)%nat -> match_at unicode r s n = None) ->
  exec_fuel fuel unicode r s i = Some {| m_from := k; m_to := j; m_caps := caps |}.
Proof.
  intros Hs Hlen Hk Hlow. revert i. induction fuel as [|fuel IH]; intros i Hf Hle Hnone; [lia|]. cbn [exec_fuel].
  destruct (decide (i = k)) as [->|Hne]; [by rewrite Hk|]. rewrite Hnone, (proj2 (Nat.ltb_lt i (length s))) by lia.
  destruct (char_at unicode s i) as [[c size]|] eqn:Ec; [|apply IH; [lia|lia|]; intros n Hn; apply Hnone; lia].
  pose proof (char_at_bound _ _ _ _ _ Ec) as [_ Hpos].
  assert (i + size <= k)%nat; [|apply IH; [lia|lia|]; intros n Hn; apply Hnone; lia].
  destruct (decide (i + size <= k)%nat) as [|Hn]; [done|]. exfalso. unfold char_at in Ec. destruct unicode.
  - destruct (code_point_at s i) as [c'|] eqn:E; [|done]. injection Ec as <- <-.
    destruct (code_point_tail s i c' k Hs E ltac:(lia)) as (d & Hd & Hdl). rewrite (Hlow d Hd) in Hdl. done.
  - destruct (s !! i); [|done]. injection Ec as <- <-. lia.
Qed.

Lemma exec_from_at unicode r s i k j caps :
  units s -> (i <= k < length s)%nat -> (forall n, (i <= n < k)%nat -> match_at unicode r s n = None) ->
  match_at unicode r s k = Some (j, caps) -> (forall c, s !! k = Some c -> is_low_surrogate c = false) ->
  exec_from unicode r s i = Some {| m_from := k; m_to := j; m_caps := caps |}.
Proof. intros Hs Hik Hnone Hk Hlow. apply exec_fuel_at; try done; lia. Qed.

Lemma exec_from_nowhere unicode r s i :
  (forall n, (i <= n)%nat -> match_at unicode r s n = None) -> exec_from unicode r s i = None.
Proof.
  unfold exec_from. generalize (Datatypes.S (length s - i)) as fuel. intros fuel. revert i.
  induction fuel as [|fuel IH]; intros i Hnone; [done|]. cbn [exec_fuel]. rewrite Hnone by lia.
  destruct (i <? length s)%nat; [|done]. apply IH. intros n Hn. apply Hnone. lia.
Qed.

(** A literal of units below the surrogates matches where it is written. *)
Lemma char_at_unit unicode s i c : is_high_surrogate c = false -> s !! i = Some c -> char_at unicode s i = Some (if unicode then (c, code_point_size c) else (c, 1%nat)).
Proof.
  intros Hh Hi. unfold char_at. destruct unicode; [|by rewrite Hi]. unfold code_point_at. rewrite Hi, Hh. done.
Qed.

(** ** All matches, without the [u] flag *)

Lemma exec_from_bound r s from m : exec_from false r s from = Some m -> (from <= length s)%nat -> (m_from m <= length s)%nat.
Proof.
  unfold exec_from. generalize (Datatypes.S (length s - from)) as fuel. intros fuel. revert from.
  induction fuel as [|fuel IH]; intros i; [done|]. cbn [exec_fuel].
  destruct (match_at false r s i) as [[j caps]|]; [by intros [= <-]|].
  destruct (i <? length s)%nat eqn:E; [|done]. apply Nat.ltb_lt in E. intros H _.
  assert (match char_at false s i with Some (_, size) => size | None => 1 end = 1)%nat as Hone
    by (unfold char_at; by destruct (s !! i)).
  rewrite Hone in H. apply IH in H; [done|lia].
Qed.

Lemma match_all_In r s m :
  m ∈ match_all false r s -> (m_from m <= m_to m <= length s)%nat /\ matches false s r (m_from m, []) (m_to m, m_caps m).
Proof.
  unfold match_all. generalize (length s + 2)%nat. intros fuel. generalize 0%nat.
  induction fuel as [|fuel IH]; intros i; cbn [match_all_fuel]; [by intros ?%elem_of_nil|].
  destruct (length s <? i)%nat eqn:Ei; [by intros ?%elem_of_nil|]. apply Nat.ltb_ge in Ei.
  destruct (exec_from false r s i) as [m'|] eqn:E; [|by intros ?%elem_of_nil].
  rewrite elem_of_cons. intros [->|H]; [|by eapply IH].
  pose proof (exec_from_bound _ _ _ _ E Ei) as Hb. apply exec_from_Some in E as (_ & Hle & Hm).
  pose proof (matches_bound _ _ _ _ Hm Hb). cbn [fst] in *. done.
Qed.

(** The matches of a pattern that matches no empty text follow each other. *)
Lemma match_all_spans r s :
  (forall i st, matches false s r (i, []) st -> (i < st.1)%nat) ->
  spans (fun m => (m_from m, m_to m)) 0 (match_all false r s) (length s).
Proof.
  intros Hpos. unfold match_all. generalize (length s + 2)%nat. intros fuel. assert (0 <= length s)%nat as H0 by lia. revert H0.
  generalize 0%nat.
  induction fuel as [|fuel IH]; intros i Hi; cbn [match_all_fuel]; [done|].
  rewrite (proj2 (Nat.ltb_ge _ _)) by done. destruct (exec_from false r s i) as [m|] eqn:E; [|done].
  pose proof (exec_from_bound _ _ _ _ E Hi) as Hb. apply exec_from_Some in E as (Hle & _ & Hm).
  pose proof (matches_bound _ _ _ _ Hm Hb) as Hb'. apply Hpos in Hm. cbn [fst] in *.
  rewrite (proj2 (Nat.eqb_neq _ _)) by lia. split; [cbn; lia|]. by apply IH.
Qed.

(** ** Patterns with one way to match *)

Section Determined.
Context (s : jstring).

Lemma run_seq_one r1 r2 st st' : run false s r1 st = [st'] -> run false s (Seq r1 r2) st = run false s r2 st'.
Proof. intros H. cbn [run]. rewrite H. cbn. by rewrite app_nil_r. Qed.

Lemma run_char c i caps : s !! i = Some c -> run false s (char c) (i, caps) = [((i + 1)%nat, caps)].
Proof. intros H. unfold char. cbn [run fst snd]. unfold char_at. rewrite H. cbn. by rewrite Z.eqb_refl. Qed.

(** A literal that is written at the offset. *)
Lemma run_text w i caps :
  (forall k c, w !! k = Some c -> s !! (i + k)%nat = Some c) ->
  run false s (text w) (i, caps) = [((i + length w)%nat, caps)].
Proof.
  revert i. induction w as [|c w IH]; intros i H; [cbn; by rewrite Nat.add_0_r|].
  assert (s !! i = Some c) as Hc by (rewrite <- (Nat.add_0_r i); by apply (H 0%nat)).
  assert (forall k d, w !! k = Some d -> s !! ((i + 1) + k)%nat = Some d) as Hw.
  { intros k d Hk. replace ((i + 1) + k)%nat with (i + Datatypes.S k)%nat by lia. by apply H. }
  destruct w as [|d w]; [cbn [text]; rewrite (run_char c i caps Hc); done|].
  change (text (c :: d :: w)) with (Seq (char c) (text (d :: w))).
  rewrite (run_seq_one _ _ _ ((i + 1)%nat, caps)) by by apply run_char. rewrite IH by done. cbn [length]. do 2 f_equal. lia.
Qed.

Lemma run_chars p i caps :
  run false s (Chars p) (i, caps) = match s !! i with Some c => if p c then [((i + 1)%nat, caps)] else [] | None => [] end.
Proof. cbn [run fst snd]. unfold char_at. by destruct (s !! i). Qed.

(** A greedy star of a class goes on to the first character outside it. *)
Lemma star_chars_longest p fuel i j caps :
  all_chars s p i j -> (i <= j <= length s)%nat -> (forall c, s !! j = Some c -> p c = false) -> (j - i < fuel)%nat ->
  head (star_run (run false s (Chars p)) true fuel (i, caps)) = Some (j, caps).
Proof.
  revert i. induction fuel as [|fuel IH]; intros i Hall Hij Hend Hf; [lia|]. cbn [star_run]. rewrite run_chars.
  destruct (decide (i = j)) as [->|Hne].
  - destruct (s !! j) as [c|] eqn:E; [|done]. by rewrite (Hend c).
  - destruct (proj2 Hall i ltac:(lia)) as (c & Hc & Hp). rewrite Hc, Hp. cbn [js_filter fst].
    rewrite (proj2 (Nat.ltb_lt _ _)) by lia. cbn [mbind list_bind]. rewrite app_nil_r.
    assert (head (star_run (run false s (Chars p)) true fuel ((i + 1)%nat, caps)) = Some (j, caps)) as Hh.
    { apply IH; [|lia|done|lia]. split; [lia|]. intros k Hk. apply Hall. lia. }
    destruct (star_run _ _ _ _); [done|]. cbn in *. done.
Qed.
End Determined.
