(* ===== verification/JSONText.v ===== *)
(** * JSON text

    [JSON.parse] and [JSON.stringify] of ECMAScript, as the modelled code uses them:
    the parser accepts the JSON grammar and rounds a number to the nearest double;
    the printer is used on values whose numbers are integers of at most 53 bits.
    [JSON_parse_stringify] is the round trip. *)

From S2P Require Import Prelude JSString JSON.

(** ** Numbers *)

(** The double nearest to [q], ties to even. *)
Definition to_double (q : Q) : json :=
  let n := Qnum q in let d := Zpos (Qden q) in
  if (n mod d =? 0) && (Z.abs (n / d) <=? 2 ^ 53) then JNum (inject_Z (n / d))
  else
    let a := Z.abs n in
    let e0 := Z.log2 a - Z.log2 d in
    let below := if 0 <=? e0 then a <? d * 2 ^ e0 else a * 2 ^ (- e0) <? d in
    let ex := Z.max ((if below then e0 - 1 else e0) - 52) (-1074) in
    let num := if 0 <=? ex then a else a * 2 ^ (- ex) in
    let den := if 0 <=? ex then d * 2 ^ ex else d in
    let m0 := num / den in
    let r2 := 2 * (num mod den) in
    let m := if (den <? r2) || ((r2 =? den) && Z.odd m0) then m0 + 1 else m0 in
    let sm := if n <? 0 then - m else m in
    if 0 <=? ex then
      if 2 ^ 1024 <=? m * 2 ^ ex then JInfinity (n <? 0) else JNum (inject_Z (sm * 2 ^ ex))
    else JNum (Qred (sm # Z.to_pos (2 ^ (- ex)))).

(** The digits at the front of a string. *)
Fixpoint take_digits (s : jstring) : jstring * jstring :=
  match s with
  | c :: s' => if is_digit c then let '(ds, r) := take_digits s' in (c :: ds, r) else ([], s)
  | [] => ([], [])
  end.

Definition parse_exponent (s : jstring) : option (Z * jstring) :=
  match s with
  | c :: s' =>
      if (c =? 101) || (c =? 69) then
        let '(neg, s'') := match s' with
                           | 43 :: t => (false, t)
                           | 45 :: t => (true, t)
                           | _ => (false, s')
                           end in
        match take_digits s'' with
        | ([], _) => None
        | (ds, r) => Some ((if neg : bool then - nat_value ds else nat_value ds), r)
        end
      else Some (0, s)
  | [] => Some (0, [])
  end.

Definition parse_fraction (s : jstring) : option (jstring * jstring) :=
  match s with
  | 46 :: s' => match take_digits s' with ([], _) => None | (ds, r) => Some (ds, r) end
  | _ => Some ([], s)
  end.

Definition decimal (neg : bool) (digits : jstring) (scale : Z) : Q :=
  let n := if neg then - nat_value digits else nat_value digits in
  if 0 <=? scale then inject_Z (n * 10 ^ scale) else n # Z.to_pos (10 ^ (- scale)).

Definition parse_number (s : jstring) : option (json * jstring) :=
  let '(neg, s1) := match s with 45 :: t => (true, t) | _ => (false, s) end in
  let '(int, s2) := take_digits s1 in
  match int with
  | [] => None
  | 48 :: _ :: _ => None
  | _ =>
      match parse_fraction s2 with
      | None => None
      | Some (frac, s3) =>
          match parse_exponent s3 with
          | None => None
          | Some (e, s4) =>
              Some (to_double (decimal neg (int ++ frac) (e - Z.of_nat (length frac))), s4)
          end
      end
  end.

(** ** Strings *)

Definition hex_digit (c : Z) : option Z :=
  if is_digit c then Some (c - 48)
  else if (65 <=? c) && (c <=? 70) then Some (c - 55)
  else if (97 <=? c) && (c <=? 102) then Some (c - 87)
  else None.

Definition hex4 (a b c d : Z) : option Z :=
  match hex_digit a, hex_digit b, hex_digit c, hex_digit d with
  | Some w, Some x, Some y, Some z => Some (((w * 16 + x) * 16 + y) * 16 + z)
  | _, _, _, _ => None
  end.

Definition simple_escape (c : Z) : option Z :=
  if (c =? 34) || (c =? 92) || (c =? 47) then Some c
  else if c =? 98 then Some 8
  else if c =? 102 then Some 12
  else if c =? 110 then Some 10
  else if c =? 114 then Some 13
  else if c =? 116 then Some 9
  else None.

(** The rest of a string literal, after its opening quote. *)
Fixpoint parse_chars (s : jstring) : option (jstring * jstring) :=
  match s with
  | [] => None
  | c :: r =>
      if c =? 34 then Some ([], r)
      else if c =? 92 then
        match r with
        | [] => None
        | e :: r' =>
            if e =? 117 then
              match r' with
              | h1 :: h2 :: h3 :: h4 :: r'' =>
                  match hex4 h1 h2 h3 h4, parse_chars r'' with
                  | Some v, Some (t, rest) => Some (v :: t, rest)
                  | _, _ => None
                  end
              | _ => None
              end
            else match simple_escape e, parse_chars r' with
                 | Some v, Some (t, rest) => Some (v :: t, rest)
                 | _, _ => None
                 end
        end
      else if c <? 32 then None
      else match parse_chars r with
           | Some (t, rest) => Some (c :: t, rest)
           | None => None
           end
  end.

(** ** Values *)

Definition is_json_space (c : Z) : bool := (c =? 32) || (c =? 9) || (c =? 10) || (c =? 13).

Fixpoint skip_ws (s : jstring) : jstring :=
  match s with
  | c :: s' => if is_json_space c then skip_ws s' else s
  | [] => []
  end.

(** [o[k] = v]: the position of an existing key is kept. *)
Fixpoint set_prop {V} (o : list (jstring * V)) (k : jstring) (v : V) : list (jstring * V) :=
  match o with
  | [] => [(k, v)]
  | (k', v') :: o' => if js_eqb k' k then (k, v) :: o' else (k', v') :: set_prop o' k v
  end.

Fixpoint parse_value (fuel : nat) (s : jstring) : option (json * jstring) :=
  match fuel with
  | O => None
  | Datatypes.S fuel' =>
      match skip_ws s with
      | [] => None
      | c :: r =>
          if c =? 34 then
            match parse_chars r with Some (t, rest) => Some (JStr t, rest) | None => None end
          else if c =? 91 then
            match skip_ws r with
            | 93 :: r' => Some (JArr [], r')
            | r' => parse_elements fuel' r' []
            end
          else if c =? 123 then
            match skip_ws r with
            | 125 :: r' => Some (JObj [], r')
            | r' => parse_members fuel' r' []
            end
          else if starts_with (c :: r) (u "null") then Some (JNull, drop 4 (c :: r))
          else if starts_with (c :: r) (u "true") then Some (JBool true, drop 4 (c :: r))
          else if starts_with (c :: r) (u "false") then Some (JBool false, drop 5 (c :: r))
          else parse_number (c :: r)
      end
  end
with parse_elements (fuel : nat) (s : jstring) (acc : list json) : option (json * jstring) :=
  match fuel with
  | O => None
  | Datatypes.S fuel' =>
      match parse_value fuel' s with
      | None => None
      | Some (v, rest) =>
          match skip_ws rest with
          | 44 :: rest' => parse_elements fuel' rest' (acc ++ [v])
          | 93 :: rest' => Some (JArr (acc ++ [v]), rest')
          | _ => None
          end
      end
  end
with parse_members (fuel : nat) (s : jstring) (acc : list (jstring * json)) : option (json * jstring) :=
  match fuel with
  | O => None
  | Datatypes.S fuel' =>
      match skip_ws s with
      | 34 :: r =>
          match parse_chars r with
          | None => None
          | Some (k, rest) =>
              match skip_ws rest with
              | 58 :: rest' =>
                  match parse_value fuel' rest' with
                  | None => None
                  | Some (v, rest'') =>
                      match skip_ws rest'' with
                      | 44 :: rest3 => parse_members fuel' rest3 (set_prop acc k v)
                      | 125 :: rest3 => Some (JObj (set_prop acc k v), rest3)
                      | _ => None
                      end
                  end
              | _ => None
              end
          end
      | _ => None
      end
  end.

(** [JSON.parse(text)], [None] when it throws. *)
Definition JSON_parse (text : jstring) : option json :=
  match parse_value (2 * length text + 2) text with
  | Some (v, rest) => match skip_ws rest with [] => Some v | _ => None end
  | None => None
  end.

(** ** Printing *)

Definition hex_char (v : Z) : Z := if v <? 10 then 48 + v else 87 + v.
Definition escape_u (c : Z) : jstring :=
  [92; 117; hex_char (c / 4096); hex_char ((c / 256) mod 16);
   hex_char ((c / 16) mod 16); hex_char (c mod 16)].

Definition quote_unit (c : Z) : jstring :=
  if c =? 34 then [92; 34]
  else if c =? 92 then [92; 92]
  else if c =? 8 then [92; 98]
  else if c =? 12 then [92; 102]
  else if c =? 10 then [92; 110]
  else if c =? 13 then [92; 114]
  else if c =? 9 then [92; 116]
  else if c <? 32 then escape_u c
  else [c].

(** A surrogate pair is copied, a lone surrogate is escaped. *)
Fixpoint quote_chars (s : jstring) : jstring :=
  match s with
  | [] => []
  | c :: s' =>
      if is_high_surrogate c then
        match s' with
        | d :: s'' => if is_low_surrogate d then c :: d :: quote_chars s'' else escape_u c ++ quote_chars s'
        | [] => escape_u c
        end
      else if is_low_surrogate c then escape_u c ++ quote_chars s'
      else quote_unit c ++ quote_chars s'
  end.

Definition quote (s : jstring) : jstring := [34] ++ quote_chars s ++ [34].

(** [JSON.stringify(value)]; numbers are integers (see [printable]). *)
Fixpoint stringify (j : json) : jstring :=
  match j with
  | JNull => u "null"
  | JBool true => u "true"
  | JBool false => u "false"
  | JNum q => string_of_int (int_value q)
  | JInfinity _ => u "null"
  | JStr s => quote s
  | JArr l => [91] ++ join [44] (stringify <$> l) ++ [93]
  | JObj o => [123] ++ join [44] ((fun kv => quote kv.1 ++ [58] ++ stringify kv.2) <$> o) ++ [125]
  end.

(** ** Integers *)

(** What may follow a number: nothing that continues it. *)
Definition number_end (rest : jstring) : Prop :=
  match rest with
  | c :: _ => is_digit c = false /\ c <> 46 /\ c <> 101 /\ c <> 69
  | [] => True
  end.

Lemma take_digits_app ds rest :
  Forall (fun c => is_digit c = true) ds -> (match rest with c :: _ => is_digit c = false | [] => True end) ->
  take_digits (ds ++ rest) = (ds, rest).
Proof.
  intros H Hr. induction H as [|d ds Hd _ IH]; simpl.
  - destruct rest as [|c rest]; simpl; [done|]. by rewrite Hr.
  - by rewrite Hd, IH.
Qed.

Lemma to_double_int n : Z.abs n <= 2 ^ 53 -> to_double (inject_Z n) = JNum (inject_Z n).
Proof.
  intros H. unfold to_double. cbn [Qnum Qden inject_Z]. rewrite Z.mod_1_r, Z.div_1_r.
  by rewrite (proj2 (Z.leb_le _ _)).
Qed.

Lemma parse_number_int n rest :
  Z.abs n <= 2 ^ 53 -> number_end rest ->
  parse_number (string_of_int n ++ rest) = Some (JNum (inject_Z n), rest).
Proof.
  intros Hn Hr. set (m := Z.abs n).
  destruct (string_of_nat_Z_spec m ltac:(lia)) as (H1 & H2 & d & ds & H3 & H4 & H5).
  assert (parse_fraction rest = Some ([], rest) /\ parse_exponent rest = Some (0, rest)) as [Hf He].
  { destruct rest as [|c rest]; [done|]. destruct Hr as (_ & R1 & R2 & R3). simpl.
    rewrite !(proj2 (Z.eqb_neq _ _)) by done. split; [|done].
    destruct c as [|p|p]; [done| |done]. do 6 (destruct p as [p|p|]; try done). }
  assert (take_digits (string_of_nat_Z m ++ rest) = (string_of_nat_Z m, rest)) as Ht
    by (apply take_digits_app; [done|]; destruct rest; [done|apply Hr]).
  assert (forall neg : bool, match string_of_nat_Z m with
     | [] => None
     | 48 :: _ :: _ => None
     | _ => match parse_fraction rest with
            | None => None
            | Some (frac, s3) =>
                match parse_exponent s3 with
                | None => None
                | Some (e, s4) =>
                    Some (to_double (decimal neg (string_of_nat_Z m ++ frac) (e - Z.of_nat (length frac))), s4)
                end
            end
     end = Some (JNum (inject_Z (if neg then - m else m)), rest)) as Hbody.
  { intros neg. rewrite Hf, He, app_nil_r.
    assert (decimal neg (string_of_nat_Z m) (0 - Z.of_nat (@length Z [])) = inject_Z (if neg then - m else m)) as ->.
    { unfold decimal. rewrite H2. simpl. f_equal. destruct neg; lia. }
    rewrite to_double_int by (destruct neg; lia).
    rewrite H3. destruct (decide (d = 48)) as [->|Hd]; [by rewrite (H5 eq_refl)|].
    destruct d as [|p|p]; [done| |done]. do 6 (destruct p as [p|p|]; try done). }
  unfold parse_number, string_of_int. destruct (n <? 0) eqn:E; bool_prop.
  - simpl. replace (- n) with m by lia. rewrite Ht, Hbody. do 4 f_equal. lia.
  - replace n with m by lia.
    assert ((match string_of_nat_Z m ++ rest with 45 :: t => (true, t) | _ => (false, string_of_nat_Z m ++ rest) end)
            = (false, string_of_nat_Z m ++ rest)) as Hs.
    { rewrite H3. simpl. destruct (decide (d = 45)) as [->|Hd]; [done|].
      destruct d as [|p|p]; [done| |done]. do 6 (destruct p as [p|p|]; try done). }
    rewrite Hs, Ht. exact (Hbody false).
Qed.

(** ** String literals *)

Lemma hex_digit_char v : 0 <= v < 16 -> hex_digit (hex_char v) = Some v.
Proof.
  intros H. assert (v = 0 \/ v = 1 \/ v = 2 \/ v = 3 \/ v = 4 \/ v = 5 \/ v = 6 \/ v = 7 \/ v = 8
    \/ v = 9 \/ v = 10 \/ v = 11 \/ v = 12 \/ v = 13 \/ v = 14 \/ v = 15) as Hv by lia.
  repeat destruct Hv as [->|Hv]; try done. by subst.
Qed.

Lemma parse_escape_u c t rest tail :
  0 <= c <= 0xFFFF -> parse_chars tail = Some (t, rest) ->
  parse_chars (escape_u c ++ tail) = Some (c :: t, rest).
Proof.
  intros Hc Ht. unfold escape_u. cbn [app parse_chars]. unfold hex4.
  rewrite !hex_digit_char by (Z.div_mod_to_equations; lia). simpl. rewrite Ht.
  do 3 f_equal. Z.div_mod_to_equations. lia.
Qed.

Lemma parse_plain c t rest tail :
  c <> 34 -> c <> 92 -> 32 <= c -> parse_chars tail = Some (t, rest) ->
  parse_chars (c :: tail) = Some (c :: t, rest).
Proof.
  intros H1 H2 H3 Ht. simpl. rewrite !(proj2 (Z.eqb_neq _ _)) by done.
  rewrite (proj2 (Z.ltb_ge _ _)) by done. by rewrite Ht.
Qed.

Lemma parse_quote_unit c t rest tail :
  0 <= c <= 0xFFFF -> parse_chars tail = Some (t, rest) ->
  parse_chars (quote_unit c ++ tail) = Some (c :: t, rest).
Proof.
  intros Hc Ht. unfold quote_unit.
  repeat match goal with
  | |- context [if ?c =? ?k then _ else _] =>
      destruct (c =? k) eqn:?; [bool_prop; subst; simpl; by rewrite Ht|]
  end.
  destruct (c <? 32) eqn:E; [by apply parse_escape_u|]. bool_prop. by apply parse_plain.
Qed.

Lemma parse_quote_chars s rest :
  units s -> parse_chars (quote_chars s ++ 34 :: rest) = Some (s, rest).
Proof.
  assert (forall n (l : jstring), (length l <= n)%nat -> units l ->
    parse_chars (quote_chars l ++ 34 :: rest) = Some (l, rest)) as H; [|intros; by eapply H].
  induction n as [|n IH]; intros l Hl Hu; [by destruct l; [|simpl in Hl; lia]|].
  destruct l as [|c l]; [done|]. apply Forall_cons in Hu as [Hc Hu]. simpl in Hl.
  cbn [quote_chars]. destruct (is_high_surrogate c) eqn:Eh.
  - destruct l as [|d l].
    + by apply parse_escape_u.
    + destruct (is_low_surrogate d) eqn:Ed.
      * apply Forall_cons in Hu as [Hd Hu]. simpl in Hl.
        unfold is_high_surrogate, is_low_surrogate in *. bool_prop. cbn [app].
        apply parse_plain; [lia..|]. apply parse_plain; [lia..|]. apply IH; [lia|done].
      * rewrite <- app_assoc. apply parse_escape_u; [done|]. apply IH; [lia|done].
  - destruct (is_low_surrogate c); rewrite <- app_assoc.
    + apply parse_escape_u; [done|]. apply IH; [lia|done].
    + apply parse_quote_unit; [done|]. apply IH; [lia|done].
Qed.

(** ** Values *)

Section JsonInd.
Variable P : json -> Prop.
Hypothesis HNull : P JNull.
Hypothesis HBool : forall b, P (JBool b).
Hypothesis HNum : forall q, P (JNum q).
Hypothesis HInf : forall b, P (JInfinity b).
Hypothesis HStr : forall s, P (JStr s).
Hypothesis HArr : forall l, Forall P l -> P (JArr l).
Hypothesis HObj : forall o, Forall (fun kv => P kv.2) o -> P (JObj o).

Fixpoint json_nested_ind (j : json) : P j :=
  match j with
  | JNull => HNull
  | JBool b => HBool b
  | JNum q => HNum q
  | JInfinity b => HInf b
  | JStr s => HStr s
  | JArr l => HArr l ((fix go l := match l return Forall P l with
                        | [] => Forall_nil_2 _
                        | x :: l' => Forall_cons_2 _ _ _ (json_nested_ind x) (go l')
                        end) l)
  | JObj o => HObj o ((fix go o := match o return Forall (fun kv => P kv.2) o with
                        | [] => Forall_nil_2 _
                        | kv :: o' => Forall_cons_2 _ _ _ (json_nested_ind kv.2) (go o')
                        end) o)
  end.
End JsonInd.

(** The values the printer is used on. *)
Fixpoint printable (j : json) : Prop :=
  match j with
  | JNull | JBool _ => True
  | JNum q => exists n, q = inject_Z n /\ Z.abs n <= 2 ^ 53
  | JInfinity _ => False
  | JStr s => units s
  | JArr l => foldr (fun x Q => printable x /\ Q) True l
  | JObj o => NoDup o.*1 /\ foldr (fun kv Q => (units kv.1 /\ printable kv.2) /\ Q) True o
  end.

(** Split on the value of a character in the numeral patterns of the goal. *)
Ltac case_char c :=
  destruct c as [|?p|?p]; try done;
  do 8 (match goal with q : positive |- _ => destruct q; try done end).

Lemma starts_u c r s a : a <> c -> starts_with (c :: r) (a :: s) = false.
Proof. intros H. unfold starts_with. simpl. by rewrite (proj2 (Z.eqb_neq _ _)). Qed.

Lemma string_of_int_head n :
  exists c t, string_of_int n = c :: t /\ (c = 45 \/ is_digit c = true).
Proof.
  unfold string_of_int. destruct (n <? 0) eqn:E; bool_prop; [by eauto|].
  destruct (string_of_nat_Z_spec n ltac:(lia)) as (_ & _ & d & ds & -> & Hd & _). eauto.
Qed.

Lemma stringify_head j :
  exists c t, stringify j = c :: t /\ is_json_space c = false /\ c <> 93.
Proof.
  destruct j as [|[]|q| | | |]; try (do 2 eexists; split; [reflexivity|done]).
  destruct (string_of_int_head (int_value q)) as (c & t & H & Hc). simpl. rewrite H.
  do 2 eexists. split; [done|]. unfold is_digit, is_json_space in *.
  destruct Hc as [->|Hc]; [done|]. bool_prop.
  rewrite !(proj2 (Z.eqb_neq _ _)) by lia. split; [done|lia].
Qed.

Lemma skip_ws_stringify j r : skip_ws (stringify j ++ r) = stringify j ++ r.
Proof. destruct (stringify_head j) as (c & t & -> & H & _). simpl. by rewrite H. Qed.

(** The parser reads back the text of [j] in front of anything that does not
    continue a number. *)
Definition reads (j : json) : Prop :=
  forall fuel rest, (2 * length (stringify j) <= fuel)%nat -> number_end rest ->
  parse_value fuel (stringify j ++ rest) = Some (j, rest).

Lemma reads_num n : Z.abs n <= 2 ^ 53 -> reads (JNum (inject_Z n)).
Proof.
  intros Hn fuel rest Hf Hr. cbn [stringify] in *.
  assert (int_value (inject_Z n) = n) as Hi by (unfold int_value; cbn; apply Z.div_1_r).
  rewrite Hi in *. destruct (string_of_int_head n) as (c & t & Hs & Hc).
  pose proof (parse_number_int n rest Hn Hr) as Hp. rewrite Hs in *. cbn [app] in *.
  destruct fuel as [|fuel]; [simpl in Hf; lia|]. cbn [parse_value skip_ws].
  assert (is_json_space c = false /\ (c =? 34) = false /\ (c =? 91) = false /\ (c =? 123) = false
    /\ 110 <> c /\ 116 <> c /\ 102 <> c) as (E1 & E2 & E3 & E4 & E5 & E6 & E7).
  { unfold is_digit, is_json_space in *. destruct Hc as [->|Hc]; [done|]. bool_prop.
    rewrite !(proj2 (Z.eqb_neq _ _)) by lia. repeat split; lia. }
  rewrite E1, E2, E3, E4.
  change (u "null") with [110; 117; 108; 108]. change (u "true") with [116; 114; 117; 101].
  change (u "false") with [102; 97; 108; 115; 101].
  rewrite !starts_u by done. exact Hp.
Qed.

Lemma reads_elements l : Forall reads l -> forall x acc fuel rest,
  reads x -> (2 * length (join [44%Z] (stringify <$> x :: l)) + 1 <= fuel)%nat ->
  parse_elements fuel (join [44] (stringify <$> x :: l) ++ 93 :: rest) acc
  = Some (JArr (acc ++ x :: l), rest).
Proof.
  induction 1 as [|y l Hy Hl IH]; intros x acc fuel rest Hx Hf.
  - cbn [fmap list_fmap join] in *. destruct fuel as [|fuel]; [lia|]. cbn [parse_elements].
    rewrite Hx by (try lia; done). done.
  - change (join [44] (stringify <$> x :: y :: l))
      with (stringify x ++ [44] ++ join [44] (stringify <$> y :: l)) in *.
    rewrite !length_app in Hf. change (length [44%Z]) with 1%nat in Hf.
    destruct fuel as [|fuel]; [lia|]. cbn [parse_elements].
    rewrite <- !app_assoc, Hx by (try lia; done). cbn [app skip_ws].
    change (is_json_space 44) with false. cbv iota.
    rewrite IH by (done || lia). by rewrite <- app_assoc.
Qed.

Lemma set_prop_fresh {V} (o : list (jstring * V)) k v : k ∉ o.*1 -> set_prop o k v = o ++ [(k, v)].
Proof.
  induction o as [|[k' v'] o IH]; simpl; [done|]. intros [H1 H2]%not_elem_of_cons.
  unfold js_eqb. rewrite bool_decide_eq_false_2 by congruence. by rewrite IH.
Qed.

Definition member_text (kv : jstring * json) : jstring := quote kv.1 ++ [58] ++ stringify kv.2.

Lemma parse_member kv fuel rest acc :
  units kv.1 -> reads kv.2 -> number_end rest -> (2 * length (stringify kv.2) <= fuel)%nat ->
  parse_members (Datatypes.S fuel) (member_text kv ++ rest) acc =
  match skip_ws rest with
  | 44 :: rest3 => parse_members fuel rest3 (set_prop acc kv.1 kv.2)
  | 125 :: rest3 => Some (JObj (set_prop acc kv.1 kv.2), rest3)
  | _ => None
  end.
Proof.
  intros Hk Hv Hr Hf. destruct kv as [k v]. unfold member_text, quote. simpl fst in *. simpl snd in *.
  rewrite <- !app_assoc. cbn [app parse_members skip_ws].
  change (is_json_space 34) with false. cbv iota.
  rewrite parse_quote_chars by done. cbn [skip_ws]. change (is_json_space 58) with false. cbv iota.
  by rewrite Hv.
Qed.

Lemma reads_members o : Forall (fun kv => units kv.1 /\ reads kv.2) o -> forall kv acc fuel rest,
  units kv.1 -> reads kv.2 -> NoDup (acc.*1 ++ kv.1 :: o.*1) ->
  (2 * length (join [44%Z] (member_text <$> kv :: o)) + 1 <= fuel)%nat ->
  parse_members fuel (join [44] (member_text <$> kv :: o) ++ 125 :: rest) acc
  = Some (JObj (acc ++ kv :: o), rest).
Proof.
  induction 1 as [|kv' o [Hk' Hv'] Ho IH]; intros kv acc fuel rest Hk Hv Hnd Hf;
    (destruct fuel as [|fuel]; [lia|]);
    assert (kv.1 ∉ acc.*1) as Hfresh by (apply NoDup_app in Hnd; set_solver).
  - cbn [fmap list_fmap join] in *. unfold member_text in Hf. rewrite !length_app in Hf.
    rewrite parse_member by (done || lia). cbn [skip_ws]. change (is_json_space 125) with false. cbv iota.
    rewrite set_prop_fresh by done. by destruct kv.
  - change (join [44] (member_text <$> kv :: kv' :: o))
      with (member_text kv ++ [44] ++ join [44] (member_text <$> kv' :: o)) in *.
    rewrite !length_app in Hf. change (length [44%Z]) with 1%nat in Hf. unfold member_text at 1 in Hf. rewrite !length_app in Hf.
    rewrite <- !app_assoc, parse_member by (done || lia). cbn [app skip_ws].
    change (is_json_space 44) with false. cbv iota.
    rewrite set_prop_fresh by done. rewrite IH; [by rewrite <- app_assoc; destruct kv|done|done| |lia].
    rewrite fmap_app, <- app_assoc. exact Hnd.
Qed.

Lemma printable_reads j : printable j -> reads j.
Proof.
  induction j as [|b|q|b|s|l IH|o IH] using json_nested_ind; cbn [printable]; intros Hp.
  - intros [|fuel] rest Hf Hr; [simpl in Hf; lia|done].
  - intros [|fuel] rest Hf Hr; [destruct b; simpl in Hf; lia|by destruct b].
  - destruct Hp as (n & -> & Hn). by apply reads_num.
  - done.
  - intros [|fuel] rest Hf Hr; [simpl in Hf; lia|]. cbn [stringify]. unfold quote.
    rewrite <- !app_assoc. cbn [app parse_value skip_ws]. change (is_json_space 34) with false.
    cbv iota. change (34 =? 34) with true. cbv iota. by rewrite parse_quote_chars.
  - intros [|fuel] rest Hf Hr; [simpl in Hf; lia|]. cbn [stringify] in *.
    assert (Forall reads l) as Hl.
    { clear Hf. induction IH as [|x l Hx _ IHl]; constructor; [|apply IHl]; simpl in Hp; tauto. }
    destruct l as [|x l]; [done|]. inversion Hl as [|? ? Hx Hl']; subst.
    rewrite <- !app_assoc. cbn [app parse_value skip_ws]. change (is_json_space 91) with false.
    change (91 =? 34) with false. change (91 =? 91) with true. cbv iota.
    destruct (stringify_head x) as (c & t & Hs & Hc1 & Hc2).
    pose proof (reads_elements l Hl' x [] fuel rest Hx) as He. cbn [app] in He.
    rewrite !length_app in Hf. change (length [91%Z]) with 1%nat in Hf.
    assert (exists t', join [44] (stringify <$> x :: l) ++ 93 :: rest = c :: t') as [t' Ht'].
    { destruct l; cbn [fmap list_fmap join]; rewrite Hs; cbn [app]; eauto. }
    rewrite Ht' in *. cbn [skip_ws]. rewrite Hc1.
    rewrite <- He by lia. case_char c.
  - intros [|fuel] rest Hf Hr; [simpl in Hf; lia|]. cbn [stringify] in *. destruct Hp as [Hnd Hp].
    assert (Forall (fun kv => units kv.1 /\ reads kv.2) o) as Ho.
    { clear Hf Hnd. induction IH as [|x l Hx _ IHl]; constructor; [|apply IHl]; simpl in Hp; tauto. }
    fold member_text in *. destruct o as [|kv o]; [done|]. inversion Ho as [|? ? [Hk Hv] Ho']; subst.
    change ((fun kv => quote kv.1 ++ [58] ++ stringify kv.2) <$> kv :: o) with (member_text <$> kv :: o) in *.
    rewrite <- !app_assoc. cbn [app parse_value skip_ws]. change (is_json_space 123) with false.
    change (123 =? 34) with false. change (123 =? 91) with false. change (123 =? 123) with true. cbv iota.
    pose proof (reads_members o Ho' kv [] fuel rest Hk Hv Hnd) as He.
    rewrite !length_app in Hf. change (length [123%Z]) with 1%nat in Hf.
    assert (exists t', join [44] (member_text <$> kv :: o) ++ 125 :: rest = 34 :: t') as [t' Ht'].
    { destruct o; cbn [fmap list_fmap join]; unfold member_text at 1, quote at 1; cbn [app]; eauto. }
    rewrite Ht' in *. cbn [skip_ws]. change (is_json_space 34) with false. cbv iota.
    apply He. lia.
Qed.

Lemma stringify_nonempty j : (1 <= length (stringify j))%nat.
Proof. destruct (stringify_head j) as (c & t & -> & _). simpl. lia. Qed.

Lemma prop_set {V} (o : list (jstring * V)) k v k' :
  prop (set_prop o k v) k' = if js_eqb k k' then Some v else prop o k'.
Proof.
  induction o as [|[j w] o IH]; cbn [set_prop prop]; [done|]. destruct (js_eqb j k) eqn:E; cbn [prop].
  - apply js_eqb_true in E as ->. by destruct (js_eqb k k').
  - rewrite IH. destruct (js_eqb j k') eqn:E1, (js_eqb k k') eqn:E2; try done.
    apply js_eqb_true in E1, E2. apply js_eqb_false in E. congruence.
Qed.

(** [JSON.parse] inverts [JSON.stringify]. *)
Lemma JSON_parse_stringify j : printable j -> JSON_parse (stringify j) = Some j.
Proof.
  intros Hp. unfold JSON_parse.
  pose proof (printable_reads j Hp (2 * length (stringify j) + 2)%nat [] ltac:(lia) I) as H.
  rewrite app_nil_r in H. by rewrite H.
Qed.
