(* ===== verification/DailyQuestion.v ===== *)
(** * The daily question (web/src/utils/daily-question.ts)

    Which question of a bank a site shows on a date: FNV-1a hashing, the mulberry32
    generator, the Fisher-Yates order of a year, the rounds of a short bank; reading,
    checking and resolving custom questions; the draft an answer starts from. *)

From S2P Require Import Prelude JSNum JSString JSDate HostUnicode JSON JSONText.
Import Int32.

(** ** Seeds and shuffles *)

Definition hashText (text : jstring) : Z :=
  to_uint32 (foldl (fun hash byte => imul (xor32 hash byte) 0x01000193) 0x811c9dc5
                   (utf8_encode text)).

(** One call of the closure [seededRandom] returns: the next state, and the
    numerator over 2^32 of the number in [0, 1) it gives. *)
Definition random_seed (seed : Z) : Z := to_uint32 seed.
Definition random_next (state0 : Z) : Z * Z :=
  let state := to_uint32 (state0 + 0x6d2b79f5) in
  let t := imul (xor32 state (shr_u state 15)) (or32 1 state) in
  let t := xor32 (t + imul (xor32 t (shr_u t 7)) (or32 61 t)) t in
  (state, to_uint32 (xor32 t (shr_u t 14))).

(** [Math.floor(random() * k)], exact in doubles for k up to 2^21. *)
Definition floor_scaled (r k : Z) : Z := (r * k) / 4294967296.

(** [[order[i], order[j]] = [order[j], order[i]]]. *)
Definition swap {A} (l : list A) (i j : nat) : list A :=
  match l !! i, l !! j with
  | Some x, Some y => <[j := x]> (<[i := y]> l)
  | _, _ => l
  end.

Definition seed_text (year : Z) (seed : jstring) (round : Z) : jstring :=
  if round =? 0 then string_of_int year ++ u ":" ++ seed
  else string_of_int year ++ u ":" ++ seed ++ u ":round:" ++ string_of_int round.

Definition shuffle_body (st : list Z * Z * nat) : option (list Z * Z * nat) :=
  let '(order, random, i) := st in
  match i with
  | O => None
  | Datatypes.S i' =>
      let '(random', r) := random_next random in
      let j := Z.to_nat (floor_scaled r (Z.of_nat i + 1)) in
      Some (swap order i j, random', i')
  end.

Definition yearOrder (count : nat) (year : Z) (seed : jstring) (round : Z) : list Z :=
  let order := Z.of_nat <$> seq 0 count in
  let random := random_seed (hashText (seed_text year seed round)) in
  let '(order', _, _) :=
    while_m (fun st : list Z * Z * nat => snd st) shuffle_body (order, random, (count - 1)%nat) in
  order'.

Definition dayOfYear (date : local_date) : Z :=
  day_number (full_year (getFullYear date)) (getMonth date) (getDate date)
  - day_number (full_year (getFullYear date)) 0 1 + 1.

Definition questionIndexFor (date : local_date) (count : Z) (seed : jstring) : option Z :=
  if count <=? 0 then None
  else
    let year := getFullYear date in
    let day := dayOfYear date in
    let round := if day <=? 365 then (day - 1) / count else 0 in
    let order := yearOrder (Z.to_nat count) year seed round in
    if day <=? 365 then order !! Z.to_nat ((day - 1) mod count)
    else
      let '(_, r) := random_next (random_seed
        (hashText (string_of_int year ++ u ":" ++ seed ++ u ":366"))) in
      order !! Z.to_nat (floor_scaled r count).

(** ** Questions and banks *)

Definition QUESTION_LANGUAGES : list jstring :=
  u <$> ["ar"; "bg"; "ca"; "cs"; "da"; "de"; "el"; "en"; "en-GB"; "es"; "et"; "fa"; "fi";
         "fr"; "gl"; "he"; "hi"; "hr"; "hu"; "id"; "it"; "ja"; "ka-GE"; "ko"; "lt"; "lv";
         "mr"; "nb"; "nl"; "pl"; "pt-PT"; "pt-BR"; "ro"; "ru"; "sk"; "sl"; "sr"; "sv";
         "th"; "tr"; "uk"; "vi"; "zh-Hans"; "zh-Hant"]%string.
Definition BUILTIN_QUESTION_COUNT : Z := 365.
Definition MAX_DAILY_QUESTIONS : Z := 2000.
Definition MAX_QUESTION_CHARACTERS : Z := 200.

Inductive DailyQuestionEntry :=
  | PlainQuestion (text : jstring)
  | BuiltinQuestion (index : Z)
  | CustomQuestion (text : jstring) (locale : option jstring)
                   (translations : option (list (jstring * jstring))).

Definition isBuiltinQuestion (e : DailyQuestionEntry) : bool :=
  match e with BuiltinQuestion _ => true | _ => false end.

Definition language_known (l : jstring) : bool := bool_decide (l ∈ QUESTION_LANGUAGES).

Definition is_string (j : json) : bool := match j with JStr _ => true | _ => false end.

(** The object branch of [isDailyQuestionEntry] for an object with no [builtin]. *)
Definition custom_question_ok (item : list (jstring * json)) : bool :=
  match prop item (u "text") with
  | Some (JStr text) =>
      negb (js_eqb (trim text) [])
      && match prop item (u "locale") with
         | None => true
         | Some (JStr l) => js_eqb l [] || language_known l
         | Some _ => false
         end
      && match prop item (u "translations") with
         | None => true
         | Some (JObj _) => true
         | Some _ => false
         end
      && forallb (fun kv => bool_decide (kv.1 ∈ [u "text"; u "locale"; u "translations"])) item
      && match prop item (u "translations") with
         | Some (JObj tr) => forallb (fun kv => language_known kv.1 && is_string kv.2) tr
         | _ => true
         end
  | _ => false
  end.

Definition isDailyQuestionEntry (entry : json) : bool :=
  match entry with
  | JStr s => negb (js_eqb (trim s) [])
  | JObj item =>
      match prop item (u "builtin") with
      | Some (JNum q) =>
          is_integer q && (0 <=? int_value q) && (int_value q <? BUILTIN_QUESTION_COUNT)
          && (length item =? 1)%nat
      | Some _ => false
      | None => custom_question_ok item
      end
  | _ => false
  end.

Definition string_of_json (j : json) : jstring := match j with JStr s => s | _ => [] end.

(** The typed view [entry as DailyQuestionEntry] of a value the guard accepts. *)
Definition entry_view (entry : json) : DailyQuestionEntry :=
  match entry with
  | JObj item =>
      match prop item (u "builtin") with
      | Some (JNum q) => BuiltinQuestion (int_value q)
      | _ =>
          CustomQuestion (string_of_json (default JNull (prop item (u "text"))))
            (string_of_json <$> prop item (u "locale"))
            (match prop item (u "translations") with
             | Some (JObj tr) => Some ((fun kv => (kv.1, string_of_json kv.2)) <$> tr)
             | _ => None
             end)
      end
  | j => PlainQuestion (string_of_json j)
  end.

Definition trim_plain (e : DailyQuestionEntry) : DailyQuestionEntry :=
  match e with PlainQuestion s => PlainQuestion (trim s) | e => e end.

Record DailyQuestionSettings := {
  seed : jstring;
  questions : option (list DailyQuestionEntry);
  disabled : bool;
}.

Section Banks.
Context `{HostUnicode}.
Definition readDailyQuestionSettings (window_location_host : jstring)
    (dailyQuestionSeed dailyQuestionsJson : option jstring)
    (disableDailyQuestion : option bool) : DailyQuestionSettings :=
  let parsed :=
    match dailyQuestionsJson with
    | Some ((_ :: _) as raw) => JSON_parse raw
    | _ => None
    end in
  let questions :=
    match parsed with
    | Some (JArr l) =>
        match (trim_plain ∘ entry_view) <$> js_filter isDailyQuestionEntry l with
        | [] => None
        | kept => Some kept
        end
    | _ => None
    end in
  {| seed := match dailyQuestionSeed with
             | Some ((_ :: _) as s) => s
             | _ => match window_location_host with [] => u "memos-plus" | h => h end
             end;
     questions := questions;
     disabled := match disableDailyQuestion with Some true => true | _ => false end |}.

Definition replace_all_unit (from to : Z) (s : jstring) : jstring :=
  (fun c => if c =? from then to else c) <$> s.

(** [s.split("-")[0]]. *)
Definition first_subtag (s : jstring) : jstring := default [] (head (split_on 45 s)).

Definition bankLanguageFor (language : jstring) : jstring :=
  let lower := to_lower (replace_all_unit 95 45 language) in
  match js_find (fun locale => js_eqb (to_lower locale) lower) QUESTION_LANGUAGES with
  | Some exact => exact
  | None =>
      if existsb (fun tail => prefixb (u "zh-" ++ u tail) lower) ["hant"; "tw"; "hk"; "mo"]%string
      then u "zh-Hant"
      else if starts_with lower (u "zh") then u "zh-Hans"
      else
        let parent := first_subtag lower in
        if js_eqb parent (u "no") then u "nb"
        else match js_find (fun locale => js_eqb (to_lower locale) parent) QUESTION_LANGUAGES with
             | Some l => l
             | None =>
                 match js_find (fun locale => js_eqb (first_subtag locale) parent) QUESTION_LANGUAGES with
                 | Some l => l
                 | None => u "en"
                 end
             end
  end.

(** The text an entry has in exactly [locale]. *)
Definition text_in (text : jstring) (own : option jstring)
    (translations : option (list (jstring * jstring))) (locale : jstring) : option jstring :=
  if bool_decide (own = Some locale) then Some text
  else match translations with Some tr => prop tr locale | None => None end.

Fixpoint resolve_loop (text : jstring) (own : option jstring)
    (translations : option (list (jstring * jstring))) (locales : list (option jstring)) : jstring :=
  match locales with
  | [] => text
  | locale :: locales' =>
      match locale with
      | None | Some [] => resolve_loop text own translations locales'
      | Some l =>
          match text_in text own translations l with
          | Some t => match trim t with
                      | [] => resolve_loop text own translations locales'
                      | t' => t'
                      end
          | None => resolve_loop text own translations locales'
          end
      end
  end.

Definition resolveDailyQuestion (entry : DailyQuestionEntry) (language : jstring)
    (builtIn : option (list jstring)) : option jstring :=
  match entry with
  | PlainQuestion s => Some s
  | BuiltinQuestion i => match builtIn with Some b => b !! Z.to_nat i | None => None end
  | CustomQuestion text own translations =>
      let normalized := to_lower (replace_all_unit 95 45 language) in
      let requested :=
        if starts_with normalized (u "zh") then Some (bankLanguageFor normalized)
        else js_find (fun locale => js_eqb (to_lower locale) normalized) QUESTION_LANGUAGES in
      let parent := first_subtag normalized in
      Some (resolve_loop text own translations
              (dedup [requested; Some parent; Some (u "en")]))
  end.

Inductive bank_issue := Invalid | TooMany | TooLong | TooLarge.

Definition entry_texts (e : DailyQuestionEntry) : list jstring :=
  match e with
  | PlainQuestion s => [s]
  | BuiltinQuestion _ => []
  | CustomQuestion text _ translations => text :: (snd <$> default [] translations)
  end.

Definition too_long (text : jstring) : bool :=
  MAX_QUESTION_CHARACTERS <? Z.of_nat (length (code_points (trim text))).

Definition dailyQuestionBankIssue (raw : jstring) : option bank_issue :=
  if js_eqb (trim raw) [] then None
  else if 256 * 1024 <? Z.of_nat (length (utf8_encode raw)) then Some TooLarge
  else match JSON_parse raw with
  | Some (JArr values) =>
      if (length values =? 0)%nat || negb (forallb isDailyQuestionEntry values) then Some Invalid
      else if MAX_DAILY_QUESTIONS <? Z.of_nat (length values) then Some TooMany
      else if existsb (fun v => existsb too_long (entry_texts (entry_view v))) values
      then Some TooLong
      else None
  | _ => Some Invalid
  end.
End Banks.

(** ** Answers *)

Definition dailyQuestionTag (dayKey : jstring) : jstring := u "daily/" ++ dayKey.

(** [heading.replace(/\r?\n/g, "\n> ")]. *)
Fixpoint quote_lines (s : jstring) : jstring :=
  match s with
  | [] => []
  | c :: s' =>
      if c =? 10 then 10 :: 62 :: 32 :: quote_lines s'
      else match s' with
           | d :: s'' =>
               if (c =? 13) && (d =? 10) then 10 :: 62 :: 32 :: quote_lines s''
               else c :: quote_lines s'
           | [] => [c]
           end
  end.

Record answer_draft := { draft_content : jstring; draft_cursor : nat }.

Definition buildDailyAnswerDraft (content heading dayKey : jstring) : answer_draft :=
  let before := match trim content with [] => [] | _ => trim_end content ++ [10; 10] end in
  let opening := before ++ u "> " ++ quote_lines heading ++ [10; 10] in
  {| draft_content := opening ++ [10; 10] ++ u "#" ++ dailyQuestionTag dayKey;
     draft_cursor := length opening |}.

(** ** Lemmas: the generator and the shuffle *)

Example hashText_empty : hashText (u "") = 2166136261.
Proof. reflexivity. Qed.
Example hashText_a : hashText (u "a") = 0xe40c292c.
Proof. reflexivity. Qed.
Example hashText_foobar : hashText (u "foobar") = 0xbf9cf968.
Proof. reflexivity. Qed.

Lemma random_next_range state : 0 <= (random_next state).2 < modulus.
Proof. apply to_uint32_range. Qed.

Lemma floor_scaled_range r k : 0 <= r < modulus -> 0 < k -> 0 <= floor_scaled r k < k.
Proof.
  intros Hr Hk. unfold floor_scaled, modulus in *. split.
  - apply Z.div_pos; nia.
  - apply Z.div_lt_upper_bound; nia.
Qed.

Lemma length_swap {A} (l : list A) i j : length (swap l i j) = length l.
Proof. unfold swap. repeat case_match; rewrite ?length_insert; done. Qed.

Lemma swap_Permutation {A} (l : list A) i j : swap l i j ≡ₚ l.
Proof.
  unfold swap. destruct (l !! i) as [x|] eqn:Hi; [|done].
  destruct (l !! j) as [y|] eqn:Hj; [|done].
  apply Permutation_inj. split; [by rewrite !length_insert|].
  exists (fun k => if decide (k = i) then j else if decide (k = j) then i else k). split.
  - intros a b. repeat case_decide; congruence.
  - intros k. apply lookup_lt_Some in Hi as Li. apply lookup_lt_Some in Hj as Lj.
    destruct (decide (k = j)) as [->|].
    + rewrite list_lookup_insert_eq by (rewrite length_insert; lia).
      case_decide; congruence.
    + rewrite list_lookup_insert_ne by done. case_decide; subst.
      * by rewrite list_lookup_insert_eq by lia.
      * by rewrite list_lookup_insert_ne by done.
Qed.

Lemma shuffle_decreases : decreases (fun st : list Z * Z * nat => snd st) shuffle_body.
Proof.
  intros [[o r] i] [[o' r'] i']. simpl. destruct i as [|i]; [done|].
  destruct (random_next r). intros [= <- <- <-]. simpl. lia.
Qed.

Lemma shuffle_Permutation st :
  (while_m (fun st : list Z * Z * nat => snd st) shuffle_body st).1.1 ≡ₚ st.1.1.
Proof.
  apply (while_m_inv (fun s : list Z * Z * nat => s.1.1 ≡ₚ st.1.1)); [|done].
  intros [[o r] i] [[o' r'] i'] HI. simpl in *. destruct i as [|i]; [done|].
  destruct (random_next r). intros [= <- <- <-]. by rewrite swap_Permutation.
Qed.

Lemma yearOrder_Permutation_seq count year sd round :
  yearOrder count year sd round ≡ₚ Z.of_nat <$> seq 0 count.
Proof.
  unfold yearOrder. cbv zeta.
  set (st := (_, _, _)). pose proof (shuffle_Permutation st) as H.
  by destruct (while_m _ _ st) as [[o r] i].
Qed.

Lemma length_yearOrder count year sd round : length (yearOrder count year sd round) = count.
Proof. by rewrite yearOrder_Permutation_seq, length_fmap, length_seq. Qed.

Lemma NoDup_yearOrder count year sd round : NoDup (yearOrder count year sd round).
Proof.
  rewrite yearOrder_Permutation_seq. apply NoDup_fmap_2; [|apply NoDup_seq].
  intros x y. lia.
Qed.

Lemma elem_of_yearOrder count year sd round q :
  q ∈ yearOrder count year sd round <-> 0 <= q < Z.of_nat count.
Proof.
  rewrite yearOrder_Permutation_seq, list_elem_of_fmap. setoid_rewrite elem_of_seq. split.
  - intros (n & -> & ?). lia.
  - intros. exists (Z.to_nat q). lia.
Qed.

(** ** Lemmas: the day of the year *)

(** A year [Date.UTC] reads as written. *)
Definition plain_year (y : Z) : Prop := ~ (0 <= y <= 99).

Lemma dayOfYear_eq d :
  valid_date d -> plain_year (getFullYear d) ->
  dayOfYear d = month_start (getFullYear d) (getMonth d) + getDate d.
Proof.
  intros [Hm Hd] Hy. unfold dayOfYear, full_year, plain_year in *.
  destruct (0 <=? getFullYear d) eqn:E1, (getFullYear d <=? 99) eqn:E2; simpl; bool_prop; try lia.
  all: rewrite !day_number_date by lia.
  all: change (month_start (getFullYear d) 0) with (0 + (if is_leap (getFullYear d) && false then 1 else 0)).
  all: rewrite andb_false_r; lia.
Qed.

Lemma dayOfYear_bounds d :
  valid_date d -> plain_year (getFullYear d) ->
  1 <= dayOfYear d <= 365 + (if is_leap (getFullYear d) then 1 else 0).
Proof.
  intros Hd Hy. rewrite dayOfYear_eq by done. destruct Hd as [Hm Hd].
  pose proof (month_start_bounds _ _ _ Hm Hd). lia.
Qed.

Lemma dayOfYear_inj a b :
  valid_date a -> valid_date b -> plain_year (getFullYear a) ->
  getFullYear a = getFullYear b -> dayOfYear a = dayOfYear b -> a = b.
Proof.
  intros Ha Hb Hy Hyy. rewrite !dayOfYear_eq by congruence.
  destruct a as [y m d], b as [y' m' d'], Ha, Hb. simpl in *. subst y'. intros E.
  destruct (month_start_inj y m d m' d') as [-> ->]; done.
Qed.

Lemma dayOfYear_surj y n :
  plain_year y -> 1 <= n <= 365 ->
  exists d, valid_date d /\ getFullYear d = y /\ dayOfYear d = n.
Proof.
  intros Hy Hn. set (k := day_from_year y + n - 1).
  assert (year_of_day k = y) as Ey.
  { pose proof (year_of_day_spec k) as [H1 H2].
    destruct (Z.lt_trichotomy (year_of_day k) y) as [H|[H|H]]; [|done|].
    - destruct (decide (year_of_day k + 1 = y)) as [E|].
      + rewrite E in H2. unfold k in *. lia.
      + pose proof (day_from_year_mono (year_of_day k + 1) y). unfold k in *. lia.
    - pose proof (day_from_year_mono y (year_of_day k)). unfold k in *. lia. }
  exists (date_of_day k). pose proof (date_of_day_valid k) as Hv.
  assert (getFullYear (date_of_day k) = y) as Eg by done.
  repeat split; [apply Hv..|done|].
  rewrite dayOfYear_eq by (rewrite ?Eg; done).
  simpl. rewrite Ey. unfold k. lia.
Qed.

(** The index a day before 366 gets is its place in its round's order. *)
Lemma questionIndexFor_common d count sd :
  0 < count -> dayOfYear d <= 365 ->
  questionIndexFor d count sd
  = yearOrder (Z.to_nat count) (getFullYear d) sd ((dayOfYear d - 1) / count)
      !! Z.to_nat ((dayOfYear d - 1) mod count).
Proof.
  intros Hc Hd. unfold questionIndexFor.
  destruct (count <=? 0) eqn:E; bool_prop; [lia|].
  by rewrite (proj2 (Z.leb_le _ _) Hd).
Qed.

Lemma day_in_round d count :
  0 < count -> dayOfYear d = 1 + count * ((dayOfYear d - 1) / count) + (dayOfYear d - 1) mod count.
Proof. intros. pose proof (Z.div_mod (dayOfYear d - 1) count). lia. Qed.

(** ** Lemmas: banks *)

Lemma bankLanguageFor_cases `{HostUnicode} language :
  bankLanguageFor language ∈ QUESTION_LANGUAGES.
Proof.
  unfold bankLanguageFor.
  assert (forall s, s ∈ ["zh-Hant"; "zh-Hans"; "nb"; "en"]%string -> u s ∈ QUESTION_LANGUAGES) as Hfix.
  { intros s Hs. rewrite !elem_of_cons in Hs.
    destruct Hs as [->|[->|[->|[->|Hs]]]]; [..|by inversion Hs];
      apply (bool_decide_unpack _); vm_compute; exact I. }
  repeat case_match; try (apply Hfix; set_solver).
  all: match goal with
       | Hf : js_find _ _ = Some ?l |- ?l ∈ _ => by apply js_find_Some in Hf as [? _]
       end.
Qed.

Lemma to_lower_code `{HostUnicodeLaws} l :
  l ∈ QUESTION_LANGUAGES -> to_lower l = @to_lower ascii_host l.
Proof.
  intros Hl. apply to_lower_ascii.
  assert (Forall (fun l => is_ascii l = true) QUESTION_LANGUAGES) as HF
    by (apply (bool_decide_unpack _); vm_compute; exact I).
  rewrite Forall_forall in HF. auto.
Qed.

Lemma js_find_ext {A} (p q : A -> bool) (l : list A) :
  (forall x, x ∈ l -> p x = q x) -> js_find p l = js_find q l.
Proof.
  induction l as [|x l IH]; intros Hpq; simpl; [done|].
  rewrite (Hpq x) by (by left). rewrite IH; [done|]. intros y Hy. apply Hpq. by right.
Qed.

(** On an ASCII language tag every lawful host agrees with [ascii_host]. *)
Lemma bankLanguageFor_ascii `{HostUnicodeLaws} language :
  is_ascii language = true ->
  bankLanguageFor language = @bankLanguageFor ascii_host language.
Proof.
  intros Ha. unfold bankLanguageFor.
  assert (is_ascii (replace_all_unit 95 45 language) = true) as Ha'.
  { unfold is_ascii, replace_all_unit in *. rewrite forallb_forall in Ha |- *.
    intros x Hx. apply list_elem_of_In, list_elem_of_fmap in Hx as (y & -> & Hy).
    case_match; [done|]. apply Ha. by apply list_elem_of_In. }
  rewrite (to_lower_ascii _ Ha').
  change (@to_lower ascii_host (replace_all_unit 95 45 language))
    with (lower_ascii <$> replace_all_unit 95 45 language).
  cbv zeta.
  set (lower := lower_ascii <$> _).
  assert (forall t : jstring,
    js_find (fun locale => js_eqb (to_lower locale) t) QUESTION_LANGUAGES
    = js_find (fun locale => js_eqb (@to_lower ascii_host locale) t) QUESTION_LANGUAGES) as Hfind.
  { intros t. apply js_find_ext. intros x Hx. by rewrite (to_lower_code x Hx). }
  by rewrite !Hfind.
Qed.

(** ** Lemmas: the answer draft *)

Definition quoted (l : jstring) : Prop := starts_with l (u "> ") = true.

Lemma quote_lines_split n s :
  (length s <= n)%nat ->
  exists l0 ls, split_on 10 (quote_lines s) = l0 :: ls /\ Forall quoted ls.
Proof.
  revert s. induction n as [|n IH]; intros s Hn.
  { destruct s; [|simpl in Hn; lia]. by exists [], []. }
  assert (forall s', (length s' <= n)%nat ->
    exists l0 ls, split_on 10 (10 :: 62 :: 32 :: quote_lines s') = l0 :: ls /\ Forall quoted ls) as Hnl.
  { intros s' Hs'. destruct (IH s' Hs') as (l0 & ls & E & HF).
    exists [], ((62 :: 32 :: l0) :: ls). simpl. rewrite E. split; [done|]. by constructor. }
  destruct s as [|c s]; [by exists [], []|]. simpl in Hn.
  destruct (c =? 10) eqn:Hc; [simpl; rewrite Hc; apply Hnl; lia|].
  assert (forall r l0 ls, split_on 10 r = l0 :: ls -> Forall quoted ls ->
    exists l0' ls', split_on 10 (c :: r) = l0' :: ls' /\ Forall quoted ls') as Hcons.
  { intros r l0 ls E HF. exists (c :: l0), ls. simpl. by rewrite Hc, E. }
  destruct s as [|d s].
  { simpl quote_lines. rewrite Hc. by apply (Hcons [] [] []). }
  destruct ((c =? 13) && (d =? 10)) eqn:Hcd.
  - simpl. rewrite Hc, Hcd. apply Hnl. simpl in Hn. lia.
  - destruct (IH (d :: s) ltac:(lia)) as (l0 & ls & E & HF).
    replace (quote_lines (c :: d :: s)) with (c :: quote_lines (d :: s)); [eauto|].
    simpl. by rewrite Hc, Hcd.
Qed.

Lemma trim_start_suffix s : exists w, s = w ++ trim_start s.
Proof.
  induction s as [|c s [w IH]]; simpl; [by exists []|].
  destruct (is_space c); [|by exists []]. exists (c :: w). simpl. by rewrite <- IH.
Qed.

Lemma trim_end_prefix s : trim_end s `prefix_of` s.
Proof.
  unfold trim_end. destruct (trim_start_suffix (rev s)) as [w Hw].
  exists (rev w). rewrite <- rev_app_distr, <- Hw. by rewrite rev_involutive.
Qed.

(** ** Properties *)

(** Within a year, a complete round of a bank of [count] questions shows each
    question on exactly one day: for every round that ends by day 365 and every
    question of the bank there is exactly one date of the year in that round whose
    question it is.  (Years 0 to 99 are left out: [Date.UTC] reads them as 19xx.) *)
Theorem daily_round_shows_each_once year count sd round q :
  plain_year year -> 0 < count -> 0 <= round -> (round + 1) * count <= 365 -> 0 <= q < count ->
  exists! d, valid_date d /\ getFullYear d = year
             /\ (dayOfYear d - 1) / count = round /\ questionIndexFor d count sd = Some q.
Proof.
  intros Hy Hc Hr Hend Hq. set (order := yearOrder (Z.to_nat count) year sd round).
  assert (q ∈ order) as Hin by (apply elem_of_yearOrder; lia).
  apply list_elem_of_lookup in Hin as [k Hk].
  pose proof (lookup_lt_Some _ _ _ Hk) as Hlt. unfold order in Hlt.
  rewrite length_yearOrder in Hlt.
  set (n := round * count + Z.of_nat k + 1).
  destruct (dayOfYear_surj year n Hy) as (d & Hd & Hyd & Hn); [unfold n; nia|].
  assert ((n - 1) / count = round /\ (n - 1) mod count = Z.of_nat k) as [Ediv Emod].
  { replace (n - 1) with (Z.of_nat k + round * count) by (unfold n; lia).
    rewrite Z.div_add, Z.mod_add by lia. rewrite Z.div_small, Z.mod_small by lia. lia. }
  exists d. repeat split; [apply Hd..|done|by rewrite Hn| |].
  - rewrite questionIndexFor_common by (rewrite ?Hn; unfold n; nia).
    rewrite Hn, Hyd, Ediv, Emod, Nat2Z.id. exact Hk.
  - intros d' (Hd' & Hyd' & Hr' & Hq').
    assert (dayOfYear d' <= 365) as Hle.
    { pose proof (day_in_round d' count Hc). pose proof (Z.mod_pos_bound (dayOfYear d' - 1) count Hc). nia. }
    rewrite questionIndexFor_common in Hq' by done. rewrite Hyd', Hr' in Hq'.
    assert (Z.to_nat ((dayOfYear d' - 1) mod count) = k) as Ek.
    { eapply NoDup_lookup; [apply (NoDup_yearOrder (Z.to_nat count) year sd round)|exact Hq'|exact Hk]. }
    pose proof (Z.mod_pos_bound (dayOfYear d' - 1) count Hc).
    apply dayOfYear_inj; [done..| |congruence|rewrite Hn, (day_in_round d' count Hc); unfold n; rewrite Hr'; lia].
    by rewrite Hyd.
Qed.

Lemma daily_round_shows_each_once_witness :
  exists! d, valid_date d /\ getFullYear d = 2026
             /\ (dayOfYear d - 1) / 7 = 51 /\ questionIndexFor d 7 (u "site") = Some 3.
Proof.
  apply (daily_round_shows_each_once 2026 7 (u "site") 51 3); unfold plain_year; lia.
Defined.

(** On every date a non-empty bank has a question, and its index is in the
    bank: the array read never runs out of range, on day 366 either. *)
Theorem daily_question_in_bank d count sd :
  valid_date d -> plain_year (getFullYear d) -> 0 < count ->
  exists q, questionIndexFor d count sd = Some q /\ 0 <= q < count.
Proof.
  intros Hd Hy Hc. pose proof (dayOfYear_bounds d Hd Hy) as Hb.
  assert (forall r i, 0 <= i < count -> exists q,
    yearOrder (Z.to_nat count) (getFullYear d) sd r !! Z.to_nat i = Some q /\ 0 <= q < count) as Hget.
  { intros r i Hi. destruct (lookup_lt_is_Some_2 (yearOrder (Z.to_nat count) (getFullYear d) sd r)
      (Z.to_nat i)) as [q Hq]; [rewrite length_yearOrder; lia|].
    exists q. split; [done|]. apply list_elem_of_lookup_2, elem_of_yearOrder in Hq. lia. }
  unfold questionIndexFor. destruct (count <=? 0) eqn:E; bool_prop; [lia|].
  destruct (dayOfYear d <=? 365) eqn:E'; bool_prop.
  - apply Hget, Z.mod_pos_bound, Hc.
  - destruct (random_next _) as [st r] eqn:Er. apply Hget, floor_scaled_range; [|done].
    pose proof (random_next_range (random_seed
      (hashText (string_of_int (getFullYear d) ++ u ":" ++ sd ++ u ":366")))) as Hr.
    by rewrite Er in Hr.
Qed.

Lemma daily_question_in_bank_witness :
  exists q, questionIndexFor (LocalDate 2028 11 31) 365 (u "site") = Some q /\ 0 <= q < 365.
Proof.
  apply (daily_question_in_bank (LocalDate 2028 11 31) 365 (u "site"));
    unfold valid_date, plain_year; cbn; lia.
Defined.

(** A custom bank the settings page accepts is the bank the site uses: when
    [dailyQuestionBankIssue] finds nothing wrong with a text that is not blank,
    [readDailyQuestionSettings] keeps every entry of it (plain ones trimmed), in
    order, and there are between 1 and 2000 of them, none with a text over 200
    characters. *)
Theorem accepted_bank_is_used `{HostUnicode} raw host sd dis :
  trim raw <> [] -> dailyQuestionBankIssue raw = None ->
  exists values, JSON_parse raw = Some (JArr values)
    /\ questions (readDailyQuestionSettings host sd (Some raw) dis)
       = Some (trim_plain ∘ entry_view <$> values)
    /\ 1 <= Z.of_nat (length values) <= 2000
    /\ forall v t, v ∈ values -> t ∈ entry_texts (entry_view v) ->
         Z.of_nat (length (code_points (trim t))) <= 200.
Proof.
  intros Hraw. unfold dailyQuestionBankIssue.
  destruct (js_eqb (trim raw) []) eqn:E; [by apply bool_decide_eq_true_1 in E|].
  destruct (256 * 1024 <? _); [done|].
  destruct (JSON_parse raw) as [[| | | | |values|]|] eqn:Ep; try done.
  destruct (length values =? 0)%nat eqn:El; [done|]. simpl orb.
  destruct (forallb isDailyQuestionEntry values) eqn:Ef; [|done]. simpl.
  destruct (MAX_DAILY_QUESTIONS <? _) eqn:Em; [done|].
  destruct (existsb _ values) eqn:Ex; [done|]. intros _.
  bool_prop. unfold MAX_DAILY_QUESTIONS in Em.
  exists values. split; [done|]. split; [|split; [lia|]].
  - unfold readDailyQuestionSettings. destruct raw as [|c raw]; [done|].
    cbn [questions]. rewrite Ep, js_filter_all by done.
    by destruct values.
  - intros v t Hv Ht. destruct (too_long t) eqn:Et.
    + assert (existsb (fun v => existsb too_long (entry_texts (entry_view v))) values = true) as Hex.
      { apply existsb_exists. exists v. split; [by apply list_elem_of_In|].
        apply existsb_exists. exists t. split; [by apply list_elem_of_In|done]. }
      congruence.
    + unfold too_long, MAX_QUESTION_CHARACTERS in Et. bool_prop. lia.
Qed.

Definition witness_bank : list json :=
  [JStr (u " Why? "); JObj [(u "builtin", JNum (inject_Z 3))];
   JObj [(u "text", JStr (u "Who?")); (u "translations", JObj [(u "fr", JStr (u "Qui ?"))])]].

Lemma accepted_bank_is_used_witness :
  let raw := stringify (JArr witness_bank) in
  exists values, JSON_parse raw = Some (JArr values)
    /\ questions (@readDailyQuestionSettings (u "h") None (Some raw) None)
       = Some (trim_plain ∘ entry_view <$> values)
    /\ 1 <= Z.of_nat (length values) <= 2000
    /\ forall v t, v ∈ values -> t ∈ entry_texts (entry_view v) ->
         Z.of_nat (length (code_points (trim t))) <= 200.
Proof.
  intros raw.
  apply (@accepted_bank_is_used ascii_host raw (u "h") None None).
  - vm_compute. discriminate.
  - vm_compute. reflexivity.
Defined.

(** [bankLanguageFor] always names one of the 44 banks, and on a host whose
    [toLowerCase] lowers ASCII the code of a bank, in any letter case and with an
    underscore for its hyphen, selects that bank. *)
Theorem bankLanguageFor_selects `{HostUnicodeLaws} language :
  bankLanguageFor language ∈ QUESTION_LANGUAGES
  /\ forall code, code ∈ QUESTION_LANGUAGES ->
       bankLanguageFor code = code
       /\ bankLanguageFor (lower_ascii <$> code) = code
       /\ bankLanguageFor (upper_ascii <$> replace_all_unit 45 95 code) = code.
Proof.
  split; [apply bankLanguageFor_cases|]. intros code Hcode.
  set (ok := fun code : jstring =>
    is_ascii code = true /\ is_ascii (lower_ascii <$> code) = true
    /\ is_ascii (upper_ascii <$> replace_all_unit 45 95 code) = true
    /\ @bankLanguageFor ascii_host code = code
    /\ @bankLanguageFor ascii_host (lower_ascii <$> code) = code
    /\ @bankLanguageFor ascii_host (upper_ascii <$> replace_all_unit 45 95 code) = code).
  assert (Forall ok QUESTION_LANGUAGES) as HF by (repeat constructor).
  rewrite Forall_forall in HF. destruct (HF _ Hcode) as (A1 & A2 & A3 & E1 & E2 & E3).
  rewrite (bankLanguageFor_ascii code A1), (bankLanguageFor_ascii _ A2), (bankLanguageFor_ascii _ A3).
  done.
Qed.

Lemma bankLanguageFor_selects_witness :
  @bankLanguageFor ascii_host (u "klingon") ∈ QUESTION_LANGUAGES
  /\ forall code, code ∈ QUESTION_LANGUAGES ->
       @bankLanguageFor ascii_host code = code
       /\ @bankLanguageFor ascii_host (lower_ascii <$> code) = code
       /\ @bankLanguageFor ascii_host (upper_ascii <$> replace_all_unit 45 95 code) = code.
Proof. exact (@bankLanguageFor_selects ascii_host ascii_host_laws (u "klingon")). Defined.

(** The draft an answer starts from: what stands before the cursor is the
    writer's own text (its trailing white space dropped) if it was not blank, then
    the question with every line quoted, then a blank line; what stands after it is
    the day's tag alone. *)
Theorem answer_draft_layout content heading dayKey :
  let draft := buildDailyAnswerDraft content heading dayKey in
  exists before quote,
    take (draft_cursor draft) (draft_content draft) = before ++ quote ++ [10; 10]
    /\ drop (draft_cursor draft) (draft_content draft) = [10; 10] ++ u "#daily/" ++ dayKey
    /\ Forall quoted (split_on 10 quote)
    /\ (trim content = [] -> before = [])
    /\ (trim content <> [] -> before = trim_end content ++ [10; 10]).
Proof.
  cbn zeta. unfold buildDailyAnswerDraft. cbn [draft_cursor draft_content].
  set (before := match trim content with [] => [] | _ => trim_end content ++ [10; 10] end).
  exists before, (u "> " ++ quote_lines heading).
  split; [by rewrite take_app_length, <- !app_assoc|]. split; [by rewrite drop_app_length|].
  split; [|split].
  - destruct (quote_lines_split _ heading (le_n _)) as (l0 & ls & E & HF).
    assert (split_on 10 (u "> " ++ quote_lines heading) = (62 :: 32 :: l0) :: ls) as ->
      by (simpl; by rewrite E).
    by constructor.
  - intros E. unfold before. by rewrite E.
  - intros E. unfold before. by destruct (trim content).
Qed.
