(* ===== verification/AuthRoutes.v ===== *)
(** * Redirects of the sign-in flow (web/src/utils/redirect-safety.ts, router/routes.ts)

    Which paths may be returned to after sign-in, how the sign-in URL carries one,
    which routes are public.  The standard URL parser is modelled as far as deciding
    whether a reference has an authority of its own ([has_authority]), and the
    standard form-urlencoded serializer in full. *)

From S2P Require Import Prelude JSString.

Module ROUTES.
Definition HOME := u "/home".
Definition ABOUT := u "/about".
Definition ATTACHMENTS := u "/attachments".
Definition INBOX := u "/inbox".
Definition ARCHIVED := u "/archived".
Definition VIEWS := u "/views".
Definition SETTING := u "/setting".
Definition READ_LATER := u "/read-later".
Definition EXPLORE := u "/explore".
Definition AUTH := u "/auth".
Definition AUTH_SIGNUP := u "/auth/signup".
Definition AUTH_ADMIN := u "/auth/admin".
Definition AUTH_CALLBACK := u "/auth/callback".
Definition SHARED_MEMO := u "/memos/shares".
Definition all : list jstring :=
  [HOME; ABOUT; ATTACHMENTS; INBOX; ARCHIVED; VIEWS; SETTING; READ_LATER; EXPLORE; AUTH;
   AUTH_SIGNUP; AUTH_ADMIN; AUTH_CALLBACK; SHARED_MEMO].
End ROUTES.

Definition AUTH_REDIRECT_PARAM := u "redirect".
Definition AUTH_REASON_PARAM := u "reason".
Definition AUTH_REASON_PROTECTED_MEMO := u "protected-memo".

(** ** URLSearchParams *)

(** The upper-case hexadecimal digit of a nibble. *)
Definition hex_upper (v : Z) : Z := if v <? 10 then 48 + v else 55 + v.

(** application/x-www-form-urlencoded percent-encoding of one byte. *)
Definition form_byte (b : Z) : jstring :=
  if is_alnum_ascii b || (b =? 42) || (b =? 45) || (b =? 46) || (b =? 95) then [b]
  else if b =? 32 then [43]
  else [37; hex_upper (b / 16); hex_upper (b mod 16)].

Definition form_encode (s : jstring) : jstring := utf8_encode s ≫= form_byte.

Definition URLSearchParams := list (jstring * jstring).

(** [params.set(name, value)]: the first pair of that name takes the value, the
    others are removed; a new name goes last. *)
Fixpoint params_set (ps : URLSearchParams) (name value : jstring) : URLSearchParams :=
  match ps with
  | [] => [(name, value)]
  | (n, v) :: ps' =>
      if js_eqb n name then (n, value) :: js_filter (fun p => negb (js_eqb p.1 name)) ps'
      else (n, v) :: params_set ps' name value
  end.

Definition params_toString (ps : URLSearchParams) : jstring :=
  join [38] ((fun p => form_encode p.1 ++ [61] ++ form_encode p.2) <$> ps).

(** ** redirect-safety.ts *)

Definition getSafeRedirectPath (path : option jstring) : option jstring :=
  match path with
  | None | Some [] => None
  | Some path =>
      if negb (starts_with path (u "/")) || starts_with path (u "//") then None
      else if js_eqb path ROUTES.AUTH || starts_with path (ROUTES.AUTH ++ u "/")
              || starts_with path (ROUTES.AUTH ++ u "?") then None
      else Some path
  end.

Definition nonempty (s : option jstring) : option jstring :=
  match s with Some [] => None | _ => s end.

Definition buildAuthRoute (redirect reason : option jstring) : jstring :=
  let searchParams := [] in
  let searchParams :=
    match getSafeRedirectPath redirect with
    | Some redirectPath => params_set searchParams AUTH_REDIRECT_PARAM redirectPath
    | None => searchParams
    end in
  let searchParams :=
    match nonempty reason with
    | Some r => params_set searchParams AUTH_REASON_PARAM r
    | None => searchParams
    end in
  match params_toString searchParams with
  | [] => ROUTES.AUTH
  | search => ROUTES.AUTH ++ u "?" ++ search
  end.

Definition PUBLIC_ROUTE_PREFIXES : list jstring :=
  [ROUTES.AUTH; ROUTES.ABOUT; ROUTES.EXPLORE; ROUTES.SHARED_MEMO ++ u "/";
   u "/u/"; u "/memos/"; u "/space/"].

Definition isPublicRoute (path : jstring) : bool :=
  existsb (fun route => starts_with path route) PUBLIC_ROUTE_PREFIXES.

Definition shouldGatePrivateInstance (isPrivateInstance isAuthenticated : bool) (pathname : jstring) : bool :=
  if negb isPrivateInstance || isAuthenticated then false
  else negb (starts_with pathname (ROUTES.SHARED_MEMO ++ u "/")).

Definition appendSearchParams (path : jstring) (searchParams : URLSearchParams) : jstring :=
  match params_toString searchParams with
  | [] => path
  | queryString => path ++ u "?" ++ queryString
  end.

(** ** The URL parser, as far as the authority *)

(** WHATWG URL parsing of a reference against an http(s) base: leading C0 controls
    and spaces are stripped, tabs and newlines are removed, a backslash counts as a
    slash; two slashes start an authority.  (A reference with a scheme does not
    start with a slash.) *)
Definition is_c0_or_space (c : Z) : bool := c <=? 32.
Definition is_tab_newline (c : Z) : bool := (c =? 9) || (c =? 10) || (c =? 13).
Definition is_url_slash (c : Z) : bool := (c =? 47) || (c =? 92).

Fixpoint strip_leading (s : jstring) : jstring :=
  match s with
  | c :: s' => if is_c0_or_space c then strip_leading s' else s
  | [] => []
  end.

Definition has_authority (reference : jstring) : bool :=
  match js_filter (fun c => negb (is_tab_newline c)) (strip_leading reference) with
  | a :: b :: _ => is_url_slash a && is_url_slash b
  | _ => false
  end.

(** The path of a reference that has no authority: up to the query or fragment. *)
Fixpoint reference_path (s : jstring) : jstring :=
  match s with
  | c :: s' => if (c =? 63) || (c =? 35) then [] else c :: reference_path s'
  | [] => []
  end.

(** ** Lemmas *)

Lemma nonempty_Some s t : nonempty s = Some t <-> s = Some t /\ t <> [].
Proof. destruct s as [[|c s]|]; simpl; naive_solver. Qed.

Lemma hex_upper_alnum v : 0 <= v < 16 -> is_alnum_ascii (hex_upper v) = true.
Proof.
  intros H. unfold hex_upper, is_alnum_ascii, is_digit, is_upper_ascii, is_lower_ascii.
  rewrite !orb_true_iff, !andb_true_iff, !Z.leb_le. destruct (v <? 10) eqn:E; bool_prop; lia.
Qed.

(** What the serializer leaves in a component. *)
Definition form_unit (c : Z) : bool :=
  is_alnum_ascii c || (c =? 42) || (c =? 45) || (c =? 46) || (c =? 95) || (c =? 43) || (c =? 37).

Lemma form_byte_units b : 0 <= b < 256 -> Forall (fun c => form_unit c = true) (form_byte b).
Proof.
  intros Hb. unfold form_byte. destruct (_ || _) eqn:E.
  - repeat constructor. unfold form_unit. by rewrite E.
  - destruct (b =? 32); repeat constructor.
    all: unfold form_unit; rewrite hex_upper_alnum by (Z.div_mod_to_equations; lia); done.
Qed.

Lemma form_encode_units s :
  units s -> Forall (fun c => form_unit c = true) (form_encode s).
Proof.
  intros Hs. unfold form_encode. rewrite Forall_forall. intros c Hc.
  apply list_elem_of_bind in Hc as (b & Hc & Hb).
  pose proof (utf8_encode_bytes s Hs) as Hr. rewrite Forall_forall in Hr. specialize (Hr b Hb).
  pose proof (form_byte_units b Hr) as Hf. rewrite Forall_forall in Hf. by apply Hf.
Qed.

Lemma form_unit_not c : form_unit c = true -> c <> 38 /\ c <> 61 /\ c <> 63 /\ c <> 35 /\ c <> 47.
Proof.
  intros H. repeat split; intros ->; by vm_compute in H.
Qed.

Lemma getSafeRedirectPath_Some path q :
  getSafeRedirectPath path = Some q <->
  path = Some q /\ starts_with q (u "/") = true /\ starts_with q (u "//") = false
  /\ q <> ROUTES.AUTH /\ starts_with q (ROUTES.AUTH ++ u "/") = false
  /\ starts_with q (ROUTES.AUTH ++ u "?") = false.
Proof.
  unfold getSafeRedirectPath. destruct path as [[|c p]|].
  - split; [done|]. intros ([= <-] & H & _). by vm_compute in H.
  - generalize dependent (c :: p). clear c p. intros p. unfold js_eqb.
    destruct (starts_with p (u "/")) eqn:E1, (starts_with p (u "//")) eqn:E2,
      (bool_decide (p = ROUTES.AUTH)) eqn:E3, (starts_with p (ROUTES.AUTH ++ u "/")) eqn:E4,
      (starts_with p (ROUTES.AUTH ++ u "?")) eqn:E5; cbn [negb orb]; bool_prop;
      (split; [intros [= <-]; done || by repeat split|intros ([= <-] & ? & ? & ? & ? & ?); congruence]).
  - split; [done|]. by intros [? _].
Qed.

Lemma single_slash_no_authority q :
  starts_with q (u "/") = true -> starts_with q (u "//") = false ->
  (forall c, c ∈ q -> c <> 92 /\ is_tab_newline c = false) -> has_authority q = false.
Proof.
  change (u "//") with [47; 47]. change (u "/") with [47].
  destruct q as [|a q]; [done|]. rewrite !starts_with_cons, starts_with_nil, andb_true_r.
  intros Ha Hb Hc. apply Z.eqb_eq in Ha as <-. rewrite Z.eqb_refl in Hb. cbn [andb] in Hb.
  unfold has_authority. simpl.
  assert (js_filter (fun c => negb (is_tab_newline c)) q = q) as ->.
  { apply js_filter_all, forallb_forall. intros c Hin. apply list_elem_of_In in Hin.
    apply negb_true_iff, Hc. by right. }
  destruct q as [|b q]; [done|]. rewrite starts_with_cons, starts_with_nil, andb_true_r in Hb. destruct (Hc b ltac:(set_solver)) as [Hb' _].
  unfold is_url_slash. rewrite Z.eqb_sym in Hb. rewrite Hb. cbn [orb].
  by rewrite (proj2 (Z.eqb_neq b 92)).
Qed.

(** The parameters a sign-in URL carries, as text. *)
Definition redirect_text (p : jstring) : jstring := AUTH_REDIRECT_PARAM ++ [61] ++ form_encode p.
Definition reason_text (r : jstring) : jstring := AUTH_REASON_PARAM ++ [61] ++ form_encode r.

Lemma buildAuthRoute_cases redirect reason :
  buildAuthRoute redirect reason =
  match getSafeRedirectPath redirect, nonempty reason with
  | None, None => ROUTES.AUTH
  | Some p, None => ROUTES.AUTH ++ u "?" ++ redirect_text p
  | None, Some r => ROUTES.AUTH ++ u "?" ++ reason_text r
  | Some p, Some r => ROUTES.AUTH ++ u "?" ++ redirect_text p ++ u "&" ++ reason_text r
  end.
Proof.
  unfold buildAuthRoute. destruct (getSafeRedirectPath redirect) as [p|], (nonempty reason) as [r|]; done.
Qed.

(** ** Properties *)

(** A redirect target that passes is the given path itself, starts with exactly
    one slash, and is not the sign-in page nor below it; when it contains no
    backslash, tab or line break, the URL parser finds no authority in it, so it
    stays on the site. *)
Theorem getSafeRedirectPath_same_origin (path : option jstring) (q : jstring)
    (Hq : getSafeRedirectPath path = Some q) :
  path = Some q
  /\ (exists rest, q = 47 :: rest /\ head rest <> Some 47)
  /\ (forall rest, q <> ROUTES.AUTH ++ u "/" ++ rest) /\ q <> ROUTES.AUTH
  /\ ((forall c, c ∈ q -> c <> 92 /\ is_tab_newline c = false) -> has_authority q = false).
Proof.
  apply getSafeRedirectPath_Some in Hq as (H1 & H2 & H3 & H4 & H5 & H6).
  split; [done|]. split; [|split; [|split; [done|]]].
  - change (u "//") with [47; 47] in H3. change (u "/") with [47] in H2.
    destruct q as [|a rest]; [done|]. rewrite starts_with_cons, starts_with_nil, andb_true_r in H2.
    apply Z.eqb_eq in H2 as <-. exists rest. split; [done|]. destruct rest as [|b rest]; [done|].
    intros [= ->]. by rewrite !starts_with_cons, starts_with_nil in H3.
  - intros rest ->. rewrite app_assoc in H5.
    assert (starts_with ((ROUTES.AUTH ++ u "/") ++ rest) (ROUTES.AUTH ++ u "/") = true); [|congruence].
    apply starts_with_spec. eauto.
  - by apply single_slash_no_authority.
Qed.

Example getSafeRedirectPath_same_origin_witness :
  getSafeRedirectPath (Some (u "/memos/a?b#c")) = Some (u "/memos/a?b#c")
  /\ has_authority (u "/memos/a?b#c") = false.
Proof.
  split; [reflexivity|].
  apply (getSafeRedirectPath_same_origin (Some (u "/memos/a?b#c")) (u "/memos/a?b#c") eq_refl).
  intros c Hc. apply list_elem_of_In in Hc. simpl in Hc.
  repeat destruct Hc as [<-|Hc]; try (split; [lia|reflexivity]). destruct Hc.
Defined.

(** [getSafeRedirectPath] does not keep its promise of a "safe same-origin internal
    destination": a slash followed by a backslash (or with a tab between two slashes)
    passes although the URL parser reads an authority there, and a path to the
    sign-in page with a fragment passes although the page is in the auth family. *)
Theorem safe_redirect_gaps :
  getSafeRedirectPath (Some (u "/\evil.example/x")) = Some (u "/\evil.example/x")
  /\ has_authority (u "/\evil.example/x") = true
  /\ getSafeRedirectPath (Some ([47; 9] ++ u "/evil.example")) = Some ([47; 9] ++ u "/evil.example")
  /\ has_authority ([47; 9] ++ u "/evil.example") = true
  /\ getSafeRedirectPath (Some (u "/auth#x")) = Some (u "/auth#x")
  /\ reference_path (u "/auth#x") = ROUTES.AUTH.
Proof. repeat split; vm_compute; reflexivity. Qed.

(** The sign-in URL carries what it is given and nothing else: after [/auth] comes
    the redirect target if it is a safe one, then the reason if there is one, each
    percent-encoded into letters, digits and [* - . _ + %], so that no target can
    add a parameter, a fragment or a path to the URL. *)
Theorem buildAuthRoute_parameters (redirect reason : option jstring)
    (Hredirect : forall p, redirect = Some p -> units p) (Hreason : forall r, reason = Some r -> units r) :
  exists parts, buildAuthRoute redirect reason
    = ROUTES.AUTH ++ match parts with [] => [] | _ => u "?" ++ join (u "&") parts end
  /\ parts = option_list (redirect_text <$> getSafeRedirectPath redirect)
             ++ option_list (reason_text <$> nonempty reason)
  /\ forall part, part ∈ parts ->
       exists name value, part = name ++ u "=" ++ value
         /\ name ∈ [AUTH_REDIRECT_PARAM; AUTH_REASON_PARAM]
         /\ Forall (fun c => form_unit c = true) value.
Proof.
  eexists. rewrite buildAuthRoute_cases. split; [|split; [reflexivity|]].
  - destruct (getSafeRedirectPath redirect), (nonempty reason); simpl; rewrite ?app_nil_r; done.
  - intros part. rewrite elem_of_app. intros [Hin|Hin].
    + destruct (getSafeRedirectPath redirect) as [p|] eqn:E; simpl in Hin; [|set_solver].
      apply list_elem_of_singleton in Hin as ->.
      apply getSafeRedirectPath_Some in E as [-> _].
      exists AUTH_REDIRECT_PARAM, (form_encode p). split; [done|]. split; [set_solver|].
      by apply form_encode_units, Hredirect.
    + destruct (nonempty reason) as [r|] eqn:E; simpl in Hin; [|set_solver].
      apply list_elem_of_singleton in Hin as ->.
      assert (reason = Some r) as -> by (by destruct reason as [[|? ?]|]).
      exists AUTH_REASON_PARAM, (form_encode r). split; [done|]. split; [set_solver|].
      by apply form_encode_units, Hreason.
Qed.

Example buildAuthRoute_parameters_witness :
  buildAuthRoute (Some (u "/home?a=1&b=2#c")) (Some AUTH_REASON_PROTECTED_MEMO)
  = u "/auth?redirect=%2Fhome%3Fa%3D1%26b%3D2%23c&reason=protected-memo"
  /\ exists parts, buildAuthRoute (Some (u "/home?a=1&b=2#c")) (Some AUTH_REASON_PROTECTED_MEMO)
       = ROUTES.AUTH ++ match parts with [] => [] | _ => u "?" ++ join (u "&") parts end.
Proof.
  split; [vm_compute; reflexivity|].
  destruct (buildAuthRoute_parameters (Some (u "/home?a=1&b=2#c")) (Some AUTH_REASON_PROTECTED_MEMO))
    as (parts & H & _).
  - intros p [= <-]. check_units.
  - intros r [= <-]. check_units.
  - exists parts. exact H.
Defined.
