(* ===== verification/AuthState.v ===== *)
(** * Access tokens (web/src/auth-state.ts)

    One tab's module state (the token in memory and its expiry) and the
    localStorage shared by the tabs, with the messages the tabs exchange.  Times are
    milliseconds; a Date is [Some] of a time or [None] for an invalid date.  The
    host's date text is a parameter ([HostDate]). *)

From S2P Require Import Prelude JSString AuthRoutes.

Definition REQUEST_TOKEN_EXPIRY_BUFFER_MS : Z := 30 * 1000.
Definition FOCUS_TOKEN_EXPIRY_BUFFER_MS : Z := 2 * 60 * 1000.

Abbreviation date := (option Z) (only parsing).

(** [d.toISOString()] on a valid date, and [new Date(text)]. *)
Class HostDate := {
  to_iso : Z -> jstring;
  parse_date : jstring -> date;
}.

(** ECMAScript time values: at most 8.64e15 ms from the epoch. *)
Definition max_time : Z := 8640000000000000.
Definition time_clip (t : Z) : date := if Z.abs t <=? max_time then Some t else None.

(** ECMAScript: [Date.parse(x.toISOString())] is the time value of [x]. *)
Class HostDateLaws `{HostDate} : Prop := {
  parse_to_iso t : Z.abs t <= max_time -> parse_date (to_iso t) = Some t;
  to_iso_text t : to_iso t <> [];
}.

(** localStorage: the two items, and whether it can be used at all. *)
Record storage := { available : bool; item_token : option jstring; item_expires : option jstring }.

Record auth := {
  accessToken : option jstring;
  tokenExpiresAt : option date;
  local : storage;
}.

(** A message of the token channel. *)
Record message := { msg_token : jstring; msg_expiresAt : jstring }.

Section Tokens.
Context `{HostDate}.

(** The channel's [onmessage]. *)
Definition receive (m : message) (st : auth) : auth :=
  match nonempty (Some (msg_token m)), nonempty (Some (msg_expiresAt m)) with
  | Some token, Some expiresAt =>
      {| accessToken := Some token; tokenExpiresAt := Some (parse_date expiresAt); local := local st |}
  | _, _ => st
  end.

Definition getAccessToken (now : Z) (st : auth) : option jstring * auth :=
  let st' :=
    match nonempty (accessToken st) with
    | Some _ => st
    | None =>
        if negb (available (local st)) then st
        else match nonempty (item_token (local st)), nonempty (item_expires (local st)) with
             | Some storedToken, Some storedExpires =>
                 match parse_date storedExpires with
                 | Some expiresAt =>
                     if now <? expiresAt
                     then {| accessToken := Some storedToken; tokenExpiresAt := Some (Some expiresAt);
                             local := local st |}
                     else st
                 | None => st
                 end
             | _, _ => st
             end
    end in
  (accessToken st', st').

(** [setAccessToken(token, expiresAt)], with the message it posts.  [toISOString]
    throws on an invalid date, after the token has been stored. *)
Definition setAccessToken (token : option jstring) (expiresAt : option date) (st : auth)
    : auth * option message :=
  let mk l := {| accessToken := token; tokenExpiresAt := expiresAt; local := l |} in
  if negb (available (local st)) then (mk (local st), None)
  else
    match nonempty token, expiresAt with
    | Some t, Some (Some e) =>
        (mk {| available := true; item_token := Some t; item_expires := Some (to_iso e) |},
         Some {| msg_token := t; msg_expiresAt := to_iso e |})
    | Some t, Some None =>
        (mk {| available := true; item_token := Some t; item_expires := item_expires (local st) |}, None)
    | _, _ => (mk {| available := true; item_token := None; item_expires := None |}, None)
    end.

(** A comparison with an invalid date is false. *)
Definition isTokenExpired (bufferMs now : Z) (st : auth) : bool :=
  match tokenExpiresAt st with
  | None => true
  | Some None => false
  | Some (Some t) => match time_clip (t - bufferMs) with Some limit => limit <=? now | None => false end
  end.

Definition hasStoredToken (st : auth) : bool :=
  match nonempty (accessToken st) with
  | Some _ => true
  | None => available (local st) && match nonempty (item_token (local st)) with Some _ => true | None => false end
  end.

Definition clearAccessToken (st : auth) : auth :=
  {| accessToken := None; tokenExpiresAt := None;
     local := if available (local st)
              then {| available := true; item_token := None; item_expires := None |}
              else local st |}.

(** The module state of a tab that has just been loaded. *)
Definition fresh_tab (l : storage) : auth :=
  {| accessToken := None; tokenExpiresAt := None; local := l |}.
End Tokens.

(** ** Properties *)

(** A token set in one tab reaches the others: another tab that receives the
    posted message has the same token with the same expiry, and so does a tab loaded
    later from the same storage as long as the token has not expired, while a later
    tab gets no token once it has. *)
Theorem token_reaches_other_tabs `{HostDateLaws} (token : jstring) (e now : Z) (st other : auth)
    (Htoken : token <> []) (He : Z.abs e <= max_time) (Hok : available (local st) = true) :
  let '(st', posted) := setAccessToken (Some token) (Some (Some e)) st in
  (exists m, posted = Some m
     /\ (getAccessToken now (receive m other)).1 = Some token
     /\ forall buffer, isTokenExpired buffer now (receive m other) = isTokenExpired buffer now st')
  /\ (getAccessToken now (fresh_tab (local st'))).1 = (if now <? e then Some token else None)
  /\ hasStoredToken (fresh_tab (local st')) = true.
Proof.
  assert (nonempty (Some token) = Some token) as Hn by by apply nonempty_Some.
  assert (nonempty (Some (to_iso e)) = Some (to_iso e)) as Hi
    by (apply nonempty_Some; split; [done|apply to_iso_text]).
  unfold setAccessToken. rewrite Hok, Hn. cbn [negb].
  split; [eexists; split; [reflexivity|]|split].
  - unfold receive. cbn [msg_token msg_expiresAt]. rewrite Hn, Hi. split.
    + unfold getAccessToken. cbn [accessToken]. by rewrite Hn.
    + intros buffer. unfold isTokenExpired. cbn [tokenExpiresAt]. by rewrite parse_to_iso.
  - unfold getAccessToken, fresh_tab. cbn [fst local accessToken item_token item_expires available negb].
    change (nonempty None) with (@None jstring). cbv iota. rewrite Hn, Hi, parse_to_iso by done.
    by destruct (now <? e).
  - unfold hasStoredToken, fresh_tab. cbn [fst local accessToken item_token available].
    change (nonempty None) with (@None jstring). cbv iota. by rewrite Hn.
Qed.

(** A host that writes times in decimal. *)
Definition decimal_dates : HostDate := {|
  to_iso t := string_of_int (t + max_time);
  parse_date s := Some (nat_value s - max_time);
|}.

Lemma decimal_dates_laws : @HostDateLaws decimal_dates.
Proof.
  constructor; simpl; intros t.
  - intros Ht. unfold string_of_int. rewrite (proj2 (Z.ltb_ge _ _)) by lia.
    destruct (string_of_nat_Z_spec (t + max_time)) as (_ & -> & _); [lia|]. f_equal. lia.
  - unfold string_of_int. destruct (_ <? 0) eqn:E; [done|]. bool_prop.
    destruct (string_of_nat_Z_spec (t + max_time)) as (_ & _ & d & ds & -> & _); [lia|done].
Qed.

Definition empty_storage : storage := {| available := true; item_token := None; item_expires := None |}.

Example token_reaches_other_tabs_witness :
  let st' := (@setAccessToken decimal_dates (Some (u "t0")) (Some (Some 5000)) (fresh_tab empty_storage)).1 in
  (@getAccessToken decimal_dates 4000 (fresh_tab (local st'))).1 = Some (u "t0").
Proof.
  pose proof (@token_reaches_other_tabs decimal_dates decimal_dates_laws (u "t0") 5000 4000
    (fresh_tab empty_storage) (fresh_tab empty_storage)) as H.
  destruct H as (_ & H & _); [discriminate|vm_compute; discriminate|reflexivity|]. exact H.
Defined.
