(* ===== verification/Connect.v ===== *)
(** * Token refresh and the request interceptor (web/src/connect.ts,
    web/src/utils/auth-redirect.ts)

    [Manager] is the token refresh manager as a state machine: callers join the
    refresh in flight.  [Requests] is one request through the interceptor: the token
    it carries, the one retry after an Unauthenticated error, the redirect to the
    sign-in page.  The transport and the refresh RPC are parameters: they answer. *)

From S2P Require Import Prelude JSString AuthRoutes AuthState.

(** ** The refresh manager *)

Module Manager.

(** The two variables of the closure, and the history: how many refreshes were
    started ([refreshFn] calls, numbered from 0), which have settled and how, and
    which promise each caller was given. *)
Record state := {
  isRefreshing : bool;
  refreshPromise : option nat;
  started : nat;
  outcome : gmap nat bool;
  given : list (nat * nat);
}.

Definition init : state :=
  {| isRefreshing := false; refreshPromise := None; started := 0; outcome := ∅; given := [] |}.

(** [refresh(refreshFn)] called by [caller]. *)
Definition refresh (caller : nat) (st : state) : state :=
  match isRefreshing st, refreshPromise st with
  | true, Some p =>
      {| isRefreshing := true; refreshPromise := Some p; started := started st;
         outcome := outcome st; given := given st ++ [(caller, p)] |}
  | _, _ =>
      let p := started st in
      {| isRefreshing := true; refreshPromise := Some p; started := p + 1;
         outcome := outcome st; given := given st ++ [(caller, p)] |}
  end.

(** The [finally] callback of refresh [p], which settles as [ok]. *)
Definition settle (p : nat) (ok : bool) (st : state) : state :=
  {| isRefreshing := false; refreshPromise := None; started := started st;
     outcome := <[p := ok]> (outcome st); given := given st |}.

Inductive step : state -> state -> Prop :=
  | step_refresh caller st : step st (refresh caller st)
  | step_settle p ok st :
      (p < started st)%nat -> outcome st !! p = None -> step st (settle p ok st).

(** A refresh that was started and has not settled. *)
Definition in_flight (st : state) (p : nat) : Prop := (p < started st)%nat /\ outcome st !! p = None.

Definition inv (st : state) : Prop :=
  isRefreshing st = bool_decide (is_Some (refreshPromise st))
  /\ (forall p, in_flight st p <-> refreshPromise st = Some p)
  /\ (forall c p, (c, p) ∈ given st -> (p < started st)%nat)
  /\ (forall p ok, outcome st !! p = Some ok -> (p < started st)%nat).

Lemma inv_refresh caller st : inv st -> inv (refresh caller st).
Proof.
  intros (H1 & H2 & H3 & H4). unfold refresh.
  destruct (isRefreshing st) eqn:Er, (refreshPromise st) as [q|] eqn:Eq; try done.
  - split; [done|]. split; [exact H2|]. split; [|exact H4]. simpl. intros c p.
    rewrite elem_of_app, list_elem_of_singleton. intros [?|[= -> ->]]; [by eapply H3|]. by apply H2.
  - split; [done|]. split; [|split]; simpl.
    + intros p. unfold in_flight. simpl. split.
      * intros [Hp Ho]. destruct (decide (p = started st)) as [->|]; [done|].
        assert (in_flight st p) as Hf by (split; [lia|done]). apply H2 in Hf. congruence.
      * intros [= <-]. split; [lia|]. destruct (outcome st !! started st) eqn:E; [|done].
        apply H4 in E. lia.
    + intros c p. rewrite elem_of_app, list_elem_of_singleton.
      intros [Hin|[= -> ->]]; [|lia]. apply H3 in Hin. lia.
    + intros p ok Hp. apply H4 in Hp. lia.
Qed.

Lemma inv_settle p ok st : inv st -> in_flight st p -> inv (settle p ok st).
Proof.
  intros (H1 & H2 & H3 & H4) Hf. pose proof (proj1 (H2 p) Hf) as Hp.
  split; [done|]. split; [|split; [done|]]; simpl.
  - intros q. split; [|done]. intros [Hq Ho]. simpl in *.
    destruct (decide (q = p)) as [->|Hne]; [by rewrite lookup_insert_eq in Ho|].
    rewrite lookup_insert_ne in Ho by done. assert (in_flight st q) as Hq' by by split.
    apply H2 in Hq'. congruence.
  - intros q ok' [[<- _]|[_ Hq]]%lookup_insert_Some; [apply Hf|by eapply H4].
Qed.

Inductive reachable : state -> Prop :=
  | reachable_init : reachable init
  | reachable_step st st' : reachable st -> step st st' -> reachable st'.

Lemma reachable_inv st : reachable st -> inv st.
Proof.
  induction 1 as [|st st' _ IH Hs].
  - split; [done|]. split; [|split; [intros c p Hin; inversion Hin|done]].
    intros p. split; [intros [Hp _]; simpl in Hp; lia|done].
  - destruct Hs as [caller st|p ok st Hp Ho]; [by apply inv_refresh|].
    apply inv_settle; [done|by split].
Qed.

(** C4. Concurrent refreshes are one refresh: in every reachable state at most one
    refresh is in flight, and then it is the promise the manager remembers; a call
    made meanwhile starts nothing and is given that promise; every promise given to
    a caller has settled or is the one in flight, so no caller waits for a refresh
    that was forgotten; when nothing is in flight the next call starts a new one. *)
Theorem refresh_is_shared (st : state) (Hst : reachable st) :
  (forall p q, in_flight st p -> in_flight st q -> p = q)
  /\ (forall p caller, in_flight st p ->
        started (refresh caller st) = started st /\ last (given (refresh caller st)) = Some (caller, p))
  /\ (forall caller p, (caller, p) ∈ given st ->
        (exists ok, outcome st !! p = Some ok) \/ (in_flight st p /\ refreshPromise st = Some p))
  /\ ((forall p, ~ in_flight st p) -> forall caller,
        started (refresh caller st) = (started st + 1)%nat
        /\ in_flight (refresh caller st) (started st)).
Proof.
  pose proof (reachable_inv st Hst) as (H1 & H2 & H3 & H4). split; [|split; [|split]].
  - intros p q Hp%H2 Hq%H2. congruence.
  - intros p caller Hp%H2. unfold refresh. rewrite H1, Hp. simpl. split; [done|]. apply last_snoc.
  - intros caller p Hin. pose proof (H3 _ _ Hin) as Hlt.
    destruct (outcome st !! p) as [ok|] eqn:E; [left; by exists ok|right].
    assert (in_flight st p) as Hf by by split. split; [done|]. by apply H2.
  - intros Hno caller. unfold refresh. destruct (refreshPromise st) as [p|] eqn:E.
    { exfalso. by apply (Hno p), H2. }
    rewrite H1. simpl. split; [done|]. split; simpl; [lia|].
    destruct (outcome st !! started st) eqn:Eo; [|done]. apply H4 in Eo. lia.
Qed.

Example refresh_is_shared_witness :
  started (refresh 8 (refresh 7 init)) = 1%nat
  /\ last (given (refresh 8 (refresh 7 init))) = Some (8%nat, 0%nat).
Proof.
  pose proof (refresh_is_shared (refresh 7 init)
    (reachable_step _ _ reachable_init (step_refresh 7 init))) as (_ & H & _).
  apply (H 0%nat 8%nat). split; [simpl; lia|reflexivity].
Defined.
End Manager.

(** ** Requests *)

(** What the refresh RPC answers: an error, or the new token with its expiry. *)
Inductive refresh_reply := RefreshError | RefreshReply (accessToken : jstring) (expiresAt : option Z).

Inductive code := Unauthenticated | OtherCode (c : Z).

(** What the transport answers to a request: a response, a ConnectError, or another
    exception. *)
Inductive answer (R : Type) := Response (r : R) | ConnectError (c : code) | OtherError.
Arguments Response {R}. Arguments ConnectError {R}. Arguments OtherError {R}.

(** The headers the interceptor sets. *)
Record request := { authorization : option jstring; retried : bool }.

(** The tab: its tokens, [window.location], and the URLs it was sent to. *)
Record page := {
  tokens : auth;
  pathname : jstring;
  search : jstring;
  hash : jstring;
  replaced : list jstring;
}.

Definition with_tokens (a : auth) (p : page) : page :=
  {| tokens := a; pathname := pathname p; search := search p; hash := hash p; replaced := replaced p |}.

Section Requests.
Context `{HostDate} {R : Type}.

(** [doRefreshAccessToken]: whether it resolves, and the new state. *)
Definition doRefreshAccessToken (reply : refresh_reply) (st : auth) : bool * auth :=
  match reply with
  | RefreshError | RefreshReply [] _ => (false, st)
  | RefreshReply token expiresAt => (true, (setAccessToken (Some token) (Some <$> expiresAt) st).1)
  end.

(** [refreshAndGetAccessToken]: the token, or [None] when it throws. *)
Definition refreshAndGetAccessToken (now : Z) (reply : refresh_reply) (st : auth) : option jstring * auth :=
  let '(ok, st) := doRefreshAccessToken reply st in
  if ok : bool then let '(token, st) := getAccessToken now st in (nonempty token, st) else (None, st).

(** [getRequestToken]: the token, the state, and whether the refresh RPC was called. *)
Definition getRequestToken (now : Z) (reply : refresh_reply) (st : auth)
    : option jstring * auth * bool :=
  let '(token, st) := getAccessToken now st in
  match nonempty token with
  | None =>
      if negb (hasStoredToken st) then (None, st, false)
      else let '(token, st) := refreshAndGetAccessToken now reply st in (token, st, true)
  | Some t =>
      if isTokenExpired REQUEST_TOKEN_EXPIRY_BUFFER_MS now st then
        let '(fresh, st) := refreshAndGetAccessToken now reply st in
        match fresh with Some t' => (Some t', st, true) | None => (Some t, st, true) end
      else (Some t, st, false)
  end.

Definition setAuthorizationHeader (req : request) (token : option jstring) : request :=
  match nonempty token with
  | None => req
  | Some t => {| authorization := Some (u "Bearer " ++ t); retried := retried req |}
  end.

Definition shouldHandleUnauthenticatedRetry (error : answer R) (isRetryAttempt : bool) : bool :=
  match error with ConnectError Unauthenticated => negb isRetryAttempt | _ => false end.

Definition redirectOnAuthFailure (forceRedirect : bool) (redirect reason : option jstring) (p : page) : page :=
  let currentPath := pathname p in
  let currentRedirectPath := pathname p ++ search p ++ hash p in
  if starts_with currentPath ROUTES.AUTH then p
  else if negb forceRedirect && isPublicRoute currentPath then p
  else {| tokens := clearAccessToken (tokens p); pathname := pathname p; search := search p;
          hash := hash p;
          replaced := replaced p ++
            [buildAuthRoute (Some (default currentRedirectPath redirect)) reason] |}.

(** One request: the result, the requests sent, and the page afterwards.  [preflight]
    and [reactive] are the refresh RPC's answers before the request and after an
    Unauthenticated error, [next] the transport's. *)
Definition authInterceptor (now : Z) (preflight reactive : refresh_reply) (next : request -> answer R)
    (req : request) (p : page) : answer R * list request * page :=
  let isRetryAttempt := retried req in
  let '(token, st, _) := getRequestToken now preflight (tokens p) in
  let p := with_tokens st p in
  let req1 := setAuthorizationHeader req token in
  let result := next req1 in
  match result with
  | Response r => (Response r, [req1], p)
  | error =>
      if negb (shouldHandleUnauthenticatedRetry error isRetryAttempt) then (error, [req1], p)
      else
        let '(newToken, st) := refreshAndGetAccessToken now reactive (tokens p) in
        let p := with_tokens st p in
        match newToken with
        | None => (OtherError, [req1], redirectOnAuthFailure false None None p)
        | Some t =>
            let req2 := setAuthorizationHeader req1 (Some t) in
            let req2 := {| authorization := authorization req2; retried := true |} in
            match next req2 with
            | Response r => (Response r, [req1; req2], p)
            | error2 => (error2, [req1; req2], redirectOnAuthFailure false None None p)
            end
        end
  end.

(** ** Lemmas *)

Lemma doRefresh_ok reply st st' :
  doRefreshAccessToken reply st = (true, st') ->
  exists token e, reply = RefreshReply token e /\ token <> [] /\ accessToken st' = Some token.
Proof.
  unfold doRefreshAccessToken. destruct reply as [|[|c token] e]; try done.
  intros [= <-]. exists (c :: token), e. split; [done|]. split; [done|].
  unfold setAccessToken. destruct (negb _); [done|]. by destruct e.
Qed.

Lemma getAccessToken_memory now st t :
  accessToken st = Some t -> t <> [] -> getAccessToken now st = (Some t, st).
Proof. intros H1 H2. unfold getAccessToken. rewrite H1. destruct t; [done|]. simpl. by rewrite H1. Qed.

(** A refresh gives exactly the token of the answer. *)
Lemma refreshAndGet_cases now reply st :
  match refreshAndGetAccessToken now reply st with
  | (Some t, st') => exists e, reply = RefreshReply t e /\ t <> []
      /\ st' = (setAccessToken (Some t) (Some <$> e) st).1 /\ accessToken st' = Some t
  | (None, st') => st' = st /\ (reply = RefreshError \/ exists e, reply = RefreshReply [] e)
  end.
Proof.
  unfold refreshAndGetAccessToken.
  destruct reply as [|[|c token] e]; [by split; [|left]|split; [done|]; right; by exists e|].
  assert (doRefreshAccessToken (RefreshReply (c :: token) e) st
          = (true, (setAccessToken (Some (c :: token)) (Some <$> e) st).1)) as E by done.
  destruct (doRefresh_ok _ _ _ E) as (t & e' & [= <- <-] & Hne & Ht).
  rewrite E, (getAccessToken_memory now _ _ Ht Hne). by exists e.
Qed.

Lemma getAccessToken_nonempty now st t st' :
  getAccessToken now st = (t, st') -> accessToken st' = t.
Proof. unfold getAccessToken. by intros [= <- <-]. Qed.

(** ** Properties *)

(** The token a request is sent with: none, without calling the refresh RPC, when
    no token was ever stored; the current one, without calling it, when it is valid
    for 30 more seconds; and otherwise the RPC is called once, and the request
    carries the token it answers — or, when it fails, the expired token that was in
    memory, if any. *)
Theorem getRequestToken_cases (now : Z) (reply : refresh_reply) (st : auth) :
  let '(current, st1) := getAccessToken now st in
  let '(token, st', called) := getRequestToken now reply st in
  match nonempty current with
  | None =>
      if hasStoredToken st1 then
        called = true /\ match reply with
                         | RefreshReply ((_ :: _) as t) _ => token = Some t /\ accessToken st' = Some t
                         | _ => token = None /\ st' = st1
                         end
      else called = false /\ token = None /\ st' = st1
  | Some t0 =>
      if isTokenExpired REQUEST_TOKEN_EXPIRY_BUFFER_MS now st1 then
        called = true /\ match reply with
                         | RefreshReply ((_ :: _) as t) _ => token = Some t /\ accessToken st' = Some t
                         | _ => token = Some t0 /\ st' = st1
                         end
      else called = false /\ token = Some t0 /\ st' = st1
  end.
Proof.
  unfold getRequestToken. destruct (getAccessToken now st) as [current st1] eqn:E1.
  pose proof (refreshAndGet_cases now reply st1) as Hr.
  destruct (refreshAndGetAccessToken now reply st1) as [fresh st2].
  assert (match fresh with
          | Some t => exists c l e, reply = RefreshReply (c :: l) e /\ t = c :: l /\ accessToken st2 = Some t
          | None => st2 = st1 /\ (reply = RefreshError \/ exists e, reply = RefreshReply [] e)
          end) as Hr'.
  { destruct fresh as [t|]; [|done]. destruct Hr as (e & -> & Hne & _ & Ht).
    destruct t as [|c l]; [done|]. by exists c, l, e. }
  destruct (nonempty current) as [t0|].
  - destruct (isTokenExpired _ now st1); [|done].
    destruct fresh as [t|]; [destruct Hr' as (c & l & e & -> & -> & ?); done|].
    destruct Hr' as [-> [->|[e ->]]]; done.
  - destruct (hasStoredToken st1); simpl; [|done].
    destruct fresh as [t|]; [destruct Hr' as (c & l & e & -> & -> & ?); done|].
    destruct Hr' as [-> [->|[e ->]]]; done.
Qed.

(** A request is sent at most twice: a second time only when the first answer was
    Unauthenticated, the request was not itself a retry and the refresh succeeded;
    the second request carries the freshly issued token and the retry mark, and the
    caller gets the answer to the last request sent.  Anything else is sent once and
    its answer is passed on unchanged, without touching the page. *)
Theorem authInterceptor_retries_once (now : Z) (preflight reactive : refresh_reply)
    (next : request -> answer R) (req : request) (p : page) :
  let '(result, sent, p') := authInterceptor now preflight reactive next req p in
  exists req1, req1 = setAuthorizationHeader req (getRequestToken now preflight (tokens p)).1.1
  /\ ((next req1 = ConnectError Unauthenticated /\ retried req = false
       /\ ((exists t e req2, reactive = RefreshReply t e /\ t <> [] /\ sent = [req1; req2]
             /\ req2 = {| authorization := Some (u "Bearer " ++ t); retried := true |}
             /\ result = next req2)
           \/ ((reactive = RefreshError \/ exists e, reactive = RefreshReply [] e)
               /\ sent = [req1] /\ result = OtherError)))
      \/ (~ (next req1 = ConnectError Unauthenticated /\ retried req = false)
          /\ sent = [req1] /\ result = next req1
          /\ p' = with_tokens (getRequestToken now preflight (tokens p)).1.2 p)).
Proof.
  unfold authInterceptor. destruct (getRequestToken now preflight (tokens p)) as [[token st] called].
  cbn [fst snd]. set (req1 := setAuthorizationHeader req token).
  assert (~ (next req1 = ConnectError Unauthenticated /\ retried req = false)
          \/ (next req1 = ConnectError Unauthenticated /\ retried req = false)) as [Hno|[En Er]].
  { destruct (next req1) as [r|[|c]|], (retried req); (by right) || (left; intros [? ?]; congruence). }
  { destruct (next req1) as [r|[|c]|] eqn:En, (retried req) eqn:Er; try (by destruct Hno);
      simpl; exists req1; (split; [done|]); right; rewrite En; done. }
  rewrite En, Er. cbn [shouldHandleUnauthenticatedRetry negb]. change (tokens (with_tokens st p)) with st.
  pose proof (refreshAndGet_cases now reactive st) as Hr.
  destruct (refreshAndGetAccessToken now reactive st) as [[t|] st2].
  - destruct Hr as (e & -> & Hne & _ & _).
    assert (setAuthorizationHeader req1 (Some t) =
      {| authorization := Some (u "Bearer " ++ t); retried := retried req1 |}) as Es by by destruct t.
    rewrite Es. cbn [authorization].
    set (req2 := {| authorization := Some (u "Bearer " ++ t); retried := true |}).
    destruct (next req2) as [r2|c2|] eqn:En2; exists req1; (split; [done|]); left; (split; [done|]);
      (split; [done|]); left; exists t, e, req2; rewrite En2; done.
  - destruct Hr as [_ Hr]. exists req1. split; [done|]. left. split; [done|]. split; [done|]. by right.
Qed.
End Requests.

(** A retried request that fails for a reason that has nothing to do with
    authentication signs the user out: after a successful refresh, an answer such as
    NotFound to the second request clears the token just issued and sends the tab to
    the sign-in page, because the handler of refresh errors also catches it. *)
Theorem retry_failure_signs_out :
  let not_found := ConnectError (OtherCode 5) in
  let next := fun r => if retried r then not_found else ConnectError Unauthenticated in
  let home := {| tokens := {| accessToken := Some (u "old"); tokenExpiresAt := Some (Some 100000);
                              local := empty_storage |};
                 pathname := ROUTES.HOME; search := []; hash := []; replaced := [] |} in
  let '(result, sent, p) :=
    @authInterceptor decimal_dates unit 0 RefreshError (RefreshReply (u "new") (Some 900000)) next
      {| authorization := None; retried := false |} home in
  result = not_found /\ length sent = 2%nat
  /\ accessToken (tokens p) = None /\ item_token (local (tokens p)) = None
  /\ replaced p = [u "/auth?redirect=%2Fhome"].
Proof. vm_compute. repeat split. Qed.
