(* ===== verification/OAuth.v ===== *)
(** * The OAuth sign-in state (web/src/utils/oauth.ts)

    The random state and the PKCE verifier, the item kept in sessionStorage across
    the redirect, and its single-use validation in the callback.  Random bytes, the
    clock and SHA-256 come from the browser and are arguments. *)

From S2P Require Import Prelude JSString JSON JSONText AuthRoutes.

Definition STATE_EXPIRY_MS : Z := 10 * 60 * 1000.

(** ** Random text *)

(** [byte.toString(16).padStart(2, "0")]. *)
Definition hex_byte (b : Z) : jstring :=
  pad_start 2 48 (if b <? 16 then [hex_char b] else [hex_char (b / 16); hex_char (b mod 16)]).

Definition generateSecureState (array : list Z) : jstring := join [] (hex_byte <$> array).

(** The base64 alphabet of [btoa]. *)
Definition base64_char (v : Z) : Z :=
  if v <? 26 then 65 + v
  else if v <? 52 then 71 + v
  else if v <? 62 then v - 4
  else if v =? 62 then 43 else 47.

(** [btoa] on bytes. *)
Fixpoint btoa (bytes : list Z) : jstring :=
  match bytes with
  | [] => []
  | [a] => [base64_char (a / 4); base64_char ((a mod 4) * 16); 61; 61]
  | [a; b] => [base64_char (a / 4); base64_char ((a mod 4) * 16 + b / 16);
               base64_char ((b mod 16) * 4); 61]
  | a :: b :: c :: bytes' =>
      [base64_char (a / 4); base64_char ((a mod 4) * 16 + b / 16);
       base64_char ((b mod 16) * 4 + c / 64); base64_char (c mod 64)] ++ btoa bytes'
  end.

(** [replace(/=+$/, "")]. *)
Fixpoint drop_equals (s : jstring) : jstring :=
  match s with
  | c :: s' => if c =? 61 then drop_equals s' else s
  | [] => []
  end.
Definition strip_equals (s : jstring) : jstring := rev (drop_equals (rev s)).

Definition base64UrlEncode (buffer : list Z) : jstring :=
  let base64 := btoa buffer in
  strip_equals ((fun c => if c =? 47 then 95 else c) <$> ((fun c => if c =? 43 then 45 else c) <$> base64)).

Definition generateCodeVerifier (array : list Z) : jstring := base64UrlEncode array.

Definition generateCodeChallenge (sha256 : list Z -> list Z) (codeVerifier : jstring) : jstring :=
  base64UrlEncode (sha256 (utf8_encode codeVerifier)).

(** ** The stored state *)

Inductive OAuthFlowMode := signin | link.
Definition flow_text (m : OAuthFlowMode) : jstring := match m with signin => u "signin" | link => u "link" end.

Record OAuthState := {
  state : jstring;
  identityProviderName : jstring;
  flowMode : OAuthFlowMode;
  timestamp : Z;
  returnUrl : option jstring;
  linkingUserName : option jstring;
  codeVerifier : option jstring;
}.

(** A property that is [undefined] is left out of the JSON text. *)
Definition optional (name : jstring) (v : option jstring) : list (jstring * json) :=
  match v with Some s => [(name, JStr s)] | None => [] end.

Definition state_json (s : OAuthState) : json :=
  JObj ([(u "state", JStr (state s)); (u "identityProviderName", JStr (identityProviderName s));
         (u "flowMode", JStr (flow_text (flowMode s))); (u "timestamp", JNum (inject_Z (timestamp s)))]
        ++ optional (u "returnUrl") (returnUrl s)
        ++ optional (u "linkingUserName") (linkingUserName s)
        ++ optional (u "codeVerifier") (codeVerifier s)).

(** What the browser gives to one call of [storeOAuthState]: the bytes of the state,
    the bytes of the verifier when crypto.subtle exists and does not throw, the
    digest, the clock, and whether [setItem] succeeds. *)
Record browser := {
  state_bytes : list Z;
  pkce_bytes : option (list Z);
  sha256 : list Z -> list Z;
  now : Z;
  set_item_ok : bool;
}.

(** The result, [None] when it throws, and the sessionStorage item. *)
Definition storeOAuthState (b : browser) (idp : jstring) (mode : OAuthFlowMode)
    (ret linking : option jstring) (item : option jstring)
    : option (jstring * option jstring) * option jstring :=
  let st := generateSecureState (state_bytes b) in
  let verifier := generateCodeVerifier <$> pkce_bytes b in
  let challenge := generateCodeChallenge (sha256 b) <$> verifier in
  let data := {| state := st; identityProviderName := idp; flowMode := mode; timestamp := now b;
                 returnUrl := ret; linkingUserName := linking; codeVerifier := verifier |} in
  if set_item_ok b then (Some (st, challenge), Some (stringify (state_json data)))
  else (None, item).

(** ** Validation *)

(** The properties that are returned, as they come out of the JSON text. *)
Record validated := {
  v_identityProviderName : option json;
  v_flowMode : json;
  v_returnUrl : option json;
  v_linkingUserName : option json;
  v_codeVerifier : option json;
}.

Definition falsy (j : option json) : bool :=
  match j with
  | None | Some JNull | Some (JBool false) | Some (JStr []) => true
  | Some (JNum q) => Qeq_bool q 0
  | _ => false
  end.

Section Validate.
(** ECMAScript's ToNumber on a string, an array or an object: [None] is NaN.  The
    timestamps the code stores are numbers. *)
Variable to_number_other : json -> option Q.

(** [Date.now() - stateData.timestamp > STATE_EXPIRY_MS]. *)
Definition expired (now : Z) (ts : option json) : bool :=
  let older q := negb (Qle_bool (inject_Z now - q) (inject_Z STATE_EXPIRY_MS)) in
  match ts with
  | None => false
  | Some (JNum q) => older q
  | Some JNull | Some (JBool false) => older 0%Q
  | Some (JBool true) => older 1%Q
  | Some (JInfinity negative) => negative
  | Some j => match to_number_other j with Some q => older q | None => false end
  end.

(** A property of a parsed value: [None] when reading it throws. *)
Definition read (j : json) (name : jstring) : option (option json) :=
  match j with
  | JNull => None
  | JObj o => Some (prop o name)
  | _ => Some None
  end.

(** The result, and the item afterwards. *)
Definition validateOAuthState (now : Z) (stateParam : jstring) (item : option jstring)
    : option validated * option jstring :=
  match nonempty item with
  | None => (None, item)
  | Some storedData =>
      match JSON_parse storedData with
      | None => (None, None)
      | Some stateData =>
          match read stateData (u "timestamp"), read stateData (u "state"),
                read stateData (u "identityProviderName"), read stateData (u "flowMode"),
                read stateData (u "returnUrl"), read stateData (u "linkingUserName"),
                read stateData (u "codeVerifier") with
          | Some ts, Some st, Some idp, Some mode, Some ret, Some linking, Some verifier =>
              if expired now ts then (None, None)
              else if negb match st with Some (JStr s) => js_eqb s stateParam | _ => false end
              then (None, None)
              else (Some {| v_identityProviderName := idp;
                            v_flowMode := if falsy mode then JStr (u "signin")
                                          else default JNull mode;
                            v_returnUrl := ret; v_linkingUserName := linking;
                            v_codeVerifier := verifier |}, None)
          | _, _, _, _, _, _, _ => (None, None)
          end
      end
  end.

Definition cleanupExpiredOAuthState (now : Z) (item : option jstring) : option jstring :=
  match nonempty item with
  | None => item
  | Some storedData =>
      match JSON_parse storedData with
      | None => None
      | Some stateData =>
          match read stateData (u "timestamp") with
          | None => None
          | Some ts => if expired now ts then None else item
          end
      end
  end.

(** ** Lemmas *)

Definition bytes (l : list Z) : Prop := Forall (fun b => 0 <= b < 256) l.

(** Letters, digits, hyphen and underscore. *)
Definition url_safe (c : Z) : bool := is_alnum_ascii c || (c =? 45) || (c =? 95).
Definition to_url (c : Z) : Z := if c =? 43 then 45 else if c =? 47 then 95 else c.

Lemma base64_char_safe v : 0 <= v < 64 -> url_safe (to_url (base64_char v)) = true /\ base64_char v <> 61.
Proof.
  intros Hv. unfold base64_char, to_url, url_safe, is_alnum_ascii, is_digit, is_upper_ascii, is_lower_ascii.
  rewrite !orb_true_iff, !andb_true_iff, !Z.leb_le, !Z.eqb_eq.
  repeat case_match; bool_prop; lia.
Qed.

Lemma drop_equals_app s t : last s <> Some 61 -> strip_equals (s ++ replicate t 61) = s.
Proof.
  intros Hl. unfold strip_equals. rewrite rev_app_distr.
  assert (rev (replicate t 61) = replicate t 61) as ->.
  { induction t as [|t IH]; [done|]. rewrite replicate_S_end at 1. rewrite rev_app_distr, IH. done. }
  assert (drop_equals (replicate t 61 ++ rev s) = rev s) as ->; [|apply rev_involutive].
  induction t as [|t IH]; simpl; [|exact IH].
  destruct s as [|c s _] using rev_ind; [done|]. rewrite rev_app_distr. simpl.
  rewrite last_snoc in Hl. by rewrite (proj2 (Z.eqb_neq _ _)) by congruence.
Qed.

(** [btoa] is a url-safe text (after the two replacements) followed by padding. *)
Lemma btoa_shape l :
  bytes l -> exists s t, btoa l = s ++ replicate t 61
    /\ Forall (fun c => url_safe (to_url c) = true /\ c <> 61) s
    /\ length s = ((4 * length l + 2) / 3)%nat.
Proof.
  assert (forall n (l : list Z), (length l <= n)%nat -> bytes l -> exists s t, btoa l = s ++ replicate t 61
    /\ Forall (fun c => url_safe (to_url c) = true /\ c <> 61) s
    /\ length s = ((4 * length l + 2) / 3)%nat) as H; [|intros; by eapply H].
  induction n as [|n IH]; intros l' Hl Hb; [destruct l'; [|simpl in Hl; lia]; by exists [], 0%nat|].
  destruct l' as [|a [|b [|c l']]].
  - by exists [], 0%nat.
  - inversion_clear Hb. exists [base64_char (a / 4); base64_char ((a mod 4) * 16)], 2%nat.
    split; [done|]. split; [|done].
    repeat (constructor; [apply base64_char_safe; Z.div_mod_to_equations; lia|]). constructor.
  - inversion_clear Hb as [|? ? H1 H2]. inversion_clear H2.
    exists [base64_char (a / 4); base64_char ((a mod 4) * 16 + b / 16); base64_char ((b mod 16) * 4)], 1%nat.
    split; [done|]. split; [|done].
    repeat (constructor; [apply base64_char_safe; Z.div_mod_to_equations; lia|]). constructor.
  - inversion_clear Hb as [|? ? H1 H2]. inversion_clear H2 as [|? ? H3 H4]. inversion_clear H4 as [|? ? H5 H6].
    simpl in Hl. destruct (IH l' ltac:(lia) H6) as (s & t & E & Hs & Hlen).
    exists ([base64_char (a / 4); base64_char ((a mod 4) * 16 + b / 16);
       base64_char ((b mod 16) * 4 + c / 64); base64_char (c mod 64)] ++ s), t.
    split; [cbn [btoa]; by rewrite E, app_assoc|]. split.
    + apply Forall_app. split; [|done].
      repeat (constructor; [apply base64_char_safe; Z.div_mod_to_equations; lia|]). constructor.
    + rewrite length_app, Hlen. simpl length.
      replace (4 * Datatypes.S (Datatypes.S (Datatypes.S (length l'))) + 2)%nat
        with ((4 * length l' + 2) + 4 * 3)%nat by lia.
      rewrite Nat.div_add by lia. lia.
Qed.

Lemma base64UrlEncode_shape l :
  bytes l -> Forall (fun c => url_safe c = true) (base64UrlEncode l)
             /\ length (base64UrlEncode l) = ((4 * length l + 2) / 3)%nat.
Proof.
  intros Hb. destruct (btoa_shape l Hb) as (s & t & E & Hs & Hlen).
  assert (base64UrlEncode l = to_url <$> s) as ->.
  { unfold base64UrlEncode. rewrite E, <- list_fmap_compose, fmap_app.
    assert (forall m : jstring, (fun c => if c =? 47 then 95 else c) ∘ (fun c => if c =? 43 then 45 else c) <$> m
            = to_url <$> m) as Hm.
    { intros m. apply list_fmap_ext. intros _ c _. unfold to_url. simpl.
      destruct (c =? 43) eqn:E1; [done|]. done. }
    rewrite !Hm. assert (to_url <$> replicate t 61 = replicate t 61) as ->
      by (clear; induction t as [|t IH]; [done|]; simpl; by f_equal).
    apply drop_equals_app. destruct s as [|c s _] using rev_ind; [done|].
    rewrite fmap_app. change (to_url <$> [c]) with [to_url c]. rewrite last_snoc. apply Forall_app in Hs as [_ Hs]. inversion_clear Hs as [|? ? [H1 H2] _].
    intros [= H61]. rewrite H61 in H1. done. }
  split; [|by rewrite length_fmap]. apply Forall_fmap. eapply Forall_impl; [exact Hs|]. by intros c [? _].
Qed.

Lemma hex_byte_spec b :
  0 <= b < 256 -> length (hex_byte b) = 2%nat /\ Forall (fun c => is_digit c = true \/ 97 <= c <= 102) (hex_byte b).
Proof.
  intros Hb. unfold hex_byte.
  assert (forall v, 0 <= v < 16 -> is_digit (hex_char v) = true \/ 97 <= hex_char v <= 102) as Hh.
  { intros v Hv. unfold hex_char, is_digit. rewrite andb_true_iff, !Z.leb_le.
    destruct (v <? 10) eqn:E; bool_prop; lia. }
  destruct (b <? 16) eqn:E; bool_prop; (split; [done|]); simpl;
    repeat (apply Forall_cons; split; [(by left) || (apply Hh; Z.div_mod_to_equations; lia)|]); constructor.
Qed.

Lemma generateSecureState_spec l :
  bytes l -> length (generateSecureState l) = (2 * length l)%nat
  /\ Forall (fun c => is_digit c = true \/ 97 <= c <= 102) (generateSecureState l).
Proof.
  unfold generateSecureState. induction 1 as [|b l Hb _ [IH1 IH2]]; [done|].
  destruct (hex_byte_spec b Hb) as [H1 H2].
  assert (join [] (hex_byte <$> b :: l) = hex_byte b ++ join [] (hex_byte <$> l)) as ->.
  { destruct l; cbn [fmap list_fmap join app]; [by rewrite app_nil_r|done]. }
  rewrite length_app, H1, IH1. split; [simpl; lia|]. by apply Forall_app.
Qed.

(** What the browser provides. *)
Definition browser_ok (b : browser) : Prop :=
  bytes (state_bytes b) /\ length (state_bytes b) = 32%nat
  /\ (forall l, pkce_bytes b = Some l -> bytes l /\ length l = 32%nat)
  /\ 0 <= now b <= 8640000000000000.

Lemma hex_units s : Forall (fun c => is_digit c = true \/ 97 <= c <= 102) s -> units s.
Proof.
  intros H. eapply Forall_impl; [exact H|]. intros c Hc. simpl in Hc. unfold is_digit in Hc.
  rewrite andb_true_iff, !Z.leb_le in Hc. lia.
Qed.

Lemma url_safe_units s : Forall (fun c => url_safe c = true) s -> units s.
Proof.
  intros H. eapply Forall_impl; [exact H|]. intros c Hc. simpl in Hc.
  unfold url_safe, is_alnum_ascii, is_digit, is_upper_ascii, is_lower_ascii in Hc.
  rewrite !orb_true_iff, !andb_true_iff, !Z.leb_le, !Z.eqb_eq in Hc. lia.
Qed.

Definition opt_units (o : option jstring) : Prop := forall s, o = Some s -> units s.

Lemma state_json_printable s :
  units (state s) -> units (identityProviderName s) -> Z.abs (timestamp s) <= 2 ^ 53 ->
  opt_units (returnUrl s) -> opt_units (linkingUserName s) -> opt_units (codeVerifier s) ->
  printable (state_json s).
Proof.
  intros H1 H2 H3 H4 H5 H6. destruct s as [st idp mode ts ret lnk ver]. simpl in *.
  assert (units (flow_text mode)) as Hm by (destruct mode; check_units).
  unfold state_json. cbn [printable state identityProviderName flowMode timestamp returnUrl linkingUserName codeVerifier].
  split.
  - destruct ret, lnk, ver; apply (bool_decide_unpack _); vm_compute; exact I.
  - assert (forall name v, units name -> opt_units v -> forall rest,
      foldr (fun kv Q => (units kv.1 /\ printable kv.2) /\ Q) True rest ->
      foldr (fun kv Q => (units kv.1 /\ printable kv.2) /\ Q) True (optional name v ++ rest)) as Ho.
    { intros name [v|] Hn Hv rest Hr; [|done]. simpl. split; [|done]. split; [done|]. by apply Hv. }
    cbn [app foldr fst snd printable].
    repeat (split; [split; [check_units|first [done|by eexists]]|]).
    apply Ho; [check_units|done|]. apply Ho; [check_units|done|].
    rewrite <- (app_nil_r (optional _ ver)). apply Ho; [check_units|done|done].
Qed.

Lemma read_state_json s :
  let o := match state_json s with JObj o => o | _ => [] end in
  prop o (u "timestamp") = Some (JNum (inject_Z (timestamp s)))
  /\ prop o (u "state") = Some (JStr (state s))
  /\ prop o (u "identityProviderName") = Some (JStr (identityProviderName s))
  /\ prop o (u "flowMode") = Some (JStr (flow_text (flowMode s)))
  /\ prop o (u "returnUrl") = JStr <$> returnUrl s
  /\ prop o (u "linkingUserName") = JStr <$> linkingUserName s
  /\ prop o (u "codeVerifier") = JStr <$> codeVerifier s.
Proof. destruct s as [st idp mode ts [r|] [l|] [v|]]; repeat split. Qed.

Lemma expired_number now ts :
  expired now (Some (JNum (inject_Z ts))) = (STATE_EXPIRY_MS <? now - ts).
Proof.
  unfold expired. rewrite Z.ltb_antisym. f_equal.
  unfold Qle_bool, Qminus, Qplus, Qopp, inject_Z. cbn [Qnum Qden].
  f_equal; cbn; lia.
Qed.

(** ** Properties *)

(** The random texts have the promised form, whatever the bytes: the state is 64
    hexadecimal digits, and the PKCE verifier and the challenge of a 32-byte digest
    are 43 letters, digits, hyphens or underscores, the shortest length RFC 7636
    allows, with no padding. *)
Theorem oauth_random_text (l : list Z) (Hb : bytes l) (Hl : length l = 32%nat) :
  (length (generateSecureState l) = 64%nat
   /\ Forall (fun c => is_digit c = true \/ 97 <= c <= 102) (generateSecureState l))
  /\ (length (generateCodeVerifier l) = 43%nat
      /\ Forall (fun c => url_safe c = true) (generateCodeVerifier l))
  /\ forall sha verifier, sha (utf8_encode verifier) = l ->
       length (generateCodeChallenge sha verifier) = 43%nat
       /\ Forall (fun c => url_safe c = true) (generateCodeChallenge sha verifier).
Proof.
  destruct (generateSecureState_spec l Hb) as [H1 H2]. destruct (base64UrlEncode_shape l Hb) as [H3 H4].
  unfold generateCodeChallenge, generateCodeVerifier. rewrite Hl in *.
  split; [done|]. split; [done|]. intros sha verifier ->. done.
Qed.

(** A sign-in that is started is validated once: the callback that brings back the
    state within ten minutes gets the provider, the flow mode, the return URL, the
    linking user and the PKCE verifier that were stored; after ten minutes, or with
    any other state, it gets nothing; in every case the item is gone, so a second
    callback gets nothing. *)
Theorem oauth_state_round_trip (b : browser) (idp : jstring) (mode : OAuthFlowMode)
    (ret linking item : option jstring) (t : Z) (param : jstring)
    (Hb : browser_ok b) (Hset : set_item_ok b = true) (Hidp : units idp)
    (Hret : opt_units ret) (Hlink : opt_units linking) :
  let '(stored, item') := storeOAuthState b idp mode ret linking item in
  let '(result, item'') := validateOAuthState t param item' in
  let st := generateSecureState (state_bytes b) in
  stored = Some (st, generateCodeChallenge (sha256 b) <$> (generateCodeVerifier <$> pkce_bytes b))
  /\ result = (if (t - now b <=? STATE_EXPIRY_MS) && js_eqb st param
               then Some {| v_identityProviderName := Some (JStr idp);
                            v_flowMode := JStr (flow_text mode);
                            v_returnUrl := JStr <$> ret; v_linkingUserName := JStr <$> linking;
                            v_codeVerifier := JStr <$> (generateCodeVerifier <$> pkce_bytes b) |}
               else None)
  /\ item'' = None.
Proof.
  destruct Hb as (H1 & H2 & H3 & H4). unfold storeOAuthState. rewrite Hset.
  set (data := {| state := _ |}).
  assert (opt_units (codeVerifier data)) as Hv.
  { intros s Hs. simpl in Hs. destruct (pkce_bytes b) as [l|] eqn:El; simpl in Hs; [|done].
    injection Hs as <-. destruct (H3 l eq_refl) as [Hl _]. apply url_safe_units.
    by apply (base64UrlEncode_shape l). }
  assert (printable (state_json data)) as Hp.
  { apply state_json_printable; try done; simpl; [|lia].
    by apply hex_units, generateSecureState_spec. }
  destruct (stringify_head (state_json data)) as (c & txt & Hs & _).
  unfold validateOAuthState. rewrite Hs. cbn [nonempty]. rewrite <- Hs, (JSON_parse_stringify _ Hp).
  pose proof (read_state_json data) as Hr. cbv zeta in Hr.
  destruct (state_json data) as [| | | | | |o] eqn:Eo; try done.
  destruct Hr as (R1 & R2 & R3 & R4 & R5 & R6 & R7).
  cbn [read]. rewrite R1, R2, R3, R4, R5, R6, R7, expired_number.
  cbn [timestamp state identityProviderName flowMode returnUrl linkingUserName codeVerifier data].
  rewrite Z.ltb_antisym. destruct (t - now b <=? STATE_EXPIRY_MS); simpl; [|done].
  destruct (js_eqb _ param); simpl; [|done]. split; [done|]. split; [|done]. by destruct mode.
Qed.

(** What an item holds for the callback. *)
Definition returned (o : list (jstring * json)) : validated := {|
  v_identityProviderName := prop o (u "identityProviderName");
  v_flowMode := if falsy (prop o (u "flowMode")) then JStr (u "signin") else default JNull (prop o (u "flowMode"));
  v_returnUrl := prop o (u "returnUrl"); v_linkingUserName := prop o (u "linkingUserName");
  v_codeVerifier := prop o (u "codeVerifier") |}.

(** C3. Validation is single-use whatever the storage holds: after a call nothing that
    can be parsed is left, and a call that returns data found, in the item, exactly
    the state of the callback, and no number as timestamp that is more than ten minutes
    (600,000 ms) old; what it returns is what the item holds, the flow mode being signin
    when it holds none.  Items the client stores have a number; an item that has none is not
    too old for the code (Example [no_timestamp_validates]). *)
Theorem validateOAuthState_single_use (t : Z) (param : jstring) (item : option jstring) :
  let '(result, item') := validateOAuthState t param item in
  nonempty item' = None
  /\ (forall v, result = Some v -> exists raw o, item = Some raw /\ JSON_parse raw = Some (JObj o)
        /\ prop o (u "state") = Some (JStr param)
        /\ (forall q, prop o (u "timestamp") = Some (JNum q) -> (inject_Z t - q <= 600000)%Q)
        /\ v = returned o)
  /\ forall t' param', (validateOAuthState t' param' item').1 = None.
Proof.
  assert (forall t' param' i, nonempty i = None -> (validateOAuthState t' param' i).1 = None) as Hnone.
  { intros t' param' i Hi. unfold validateOAuthState. by rewrite Hi. }
  destruct (validateOAuthState t param item) as [result item'] eqn:E.
  enough (nonempty item' = None /\ (forall v, result = Some v -> exists raw o, item = Some raw
    /\ JSON_parse raw = Some (JObj o) /\ prop o (u "state") = Some (JStr param)
    /\ (forall q, prop o (u "timestamp") = Some (JNum q) -> (inject_Z t - q <= 600000)%Q) /\ v = returned o)) as [H1 H2].
  { split; [done|]. split; [done|]. intros. by apply Hnone. }
  unfold validateOAuthState in E. destruct (nonempty item) as [raw|] eqn:Ei; [|by simplify_eq].
  apply nonempty_Some in Ei as [-> _].
  destruct (JSON_parse raw) as [j|] eqn:Ej; [|by simplify_eq].
  assert (j = JNull \/ (exists o, j = JObj o) \/ (forall name, read j name = Some None)) as [->|[[o ->]|Hj]]
    by (destruct j; eauto).
  - simpl in E. by simplify_eq.
  - cbn [read] in E. destruct (expired t (prop o (u "timestamp"))) eqn:Ex; [by simplify_eq|].
    destruct (prop o (u "state")) as [[| | | |s| |]|] eqn:Es; simpl in E; try by simplify_eq.
    unfold js_eqb in E. case_bool_decide as Hs; simpl in E; simplify_eq; [|done].
    split; [done|]. intros v [= <-]. exists raw, o. split; [done|]. split; [done|]. split; [done|]. split; [|reflexivity].
    intros q Eq. rewrite Eq in Ex. cbn [expired] in Ex. apply negb_false_iff in Ex. by apply Qle_bool_iff in Ex.
  - rewrite !Hj in E. simpl in E. by simplify_eq.
Qed.
End Validate.

(** An item without a timestamp: what is not a number is not too old. *)
Example no_timestamp_validates :
  is_Some (validateOAuthState (fun _ => None) 601000 (u "x") (Some (stringify (JObj [(u "state", JStr (u "x"))])))).1.
Proof. vm_compute. by eexists. Qed.

(** A browser whose random bytes are 0 to 31. *)
Definition sample_browser : browser :=
  {| state_bytes := Z.of_nat <$> seq 0 32; pkce_bytes := Some (Z.of_nat <$> seq 0 32);
     sha256 := fun _ => Z.of_nat <$> seq 0 32; now := 1000; set_item_ok := true |}.

Lemma sample_bytes : bytes (Z.of_nat <$> seq 0 32).
Proof. unfold bytes. simpl. repeat (constructor; [lia|]). constructor. Qed.

Example oauth_random_text_witness :
  length (generateCodeVerifier (Z.of_nat <$> seq 0 32)) = 43%nat
  /\ length (generateSecureState (Z.of_nat <$> seq 0 32)) = 64%nat.
Proof.
  destruct (oauth_random_text (Z.of_nat <$> seq 0 32) sample_bytes eq_refl) as ((H1 & _) & (H2 & _) & _).
  split; [exact H2|exact H1].
Defined.

Example oauth_state_round_trip_witness :
  let item := (storeOAuthState sample_browser (u "idp/1") link (Some (u "/home")) None None).2 in
  (validateOAuthState (fun _ => None) 601000 (generateSecureState (state_bytes sample_browser)) item).2 = None.
Proof.
  pose proof (oauth_state_round_trip (fun _ => None) sample_browser (u "idp/1") link (Some (u "/home")) None None
    601000 (generateSecureState (state_bytes sample_browser))) as H.
  destruct H as (_ & _ & H).
  - split; [exact sample_bytes|]. split; [reflexivity|]. split; [|simpl; lia].
    intros l [= <-]. split; [exact sample_bytes|reflexivity].
  - reflexivity.
  - check_units.
  - intros s [= <-]. check_units.
  - intros s [=].
  - exact H.
Defined.
