(* ===== verification/TagUnicodeData.v ===== *)
(** * Unicode tables of tag recognition (web/src/utils/tag-unicode-data.ts)

    The four tables of the source file, entry by entry and line by line: the
    ranges of XID_Continue, of Default_Ignorable_Code_Point and of the combining
    marks, as flat lists of inclusive bounds, and the fully-qualified emoji of
    Unicode 17, each as the list of its code points. *)

From S2P Require Import Prelude.

Definition XID_CONTINUE_RANGES : list Z := [
  0x30; 0x39; 0x41; 0x5a; 0x5f; 0x5f; 0x61; 0x7a; 0xaa; 0xaa; 0xb5; 0xb5;
  0xb7; 0xb7; 0xba; 0xba; 0xc0; 0xd6; 0xd8; 0xf6; 0xf8; 0x2c1; 0x2c6; 0x2d1;
  0x2e0; 0x2e4; 0x2ec; 0x2ec; 0x2ee; 0x2ee; 0x300; 0x374; 0x376; 0x377; 0x37b; 0x37d;
  0x37f; 0x37f; 0x386; 0x38a; 0x38c; 0x38c; 0x38e; 0x3a1; 0x3a3; 0x3f5; 0x3f7; 0x481;
  0x483; 0x487; 0x48a; 0x52f; 0x531; 0x556; 0x559; 0x559; 0x560; 0x588; 0x591; 0x5bd;
  0x5bf; 0x5bf; 0x5c1; 0x5c2; 0x5c4; 0x5c5; 0x5c7; 0x5c7; 0x5d0; 0x5ea; 0x5ef; 0x5f2;
  0x610; 0x61a; 0x620; 0x669; 0x66e; 0x6d3; 0x6d5; 0x6dc; 0x6df; 0x6e8; 0x6ea; 0x6fc;
  0x6ff; 0x6ff; 0x710; 0x74a; 0x74d; 0x7b1; 0x7c0; 0x7f5; 0x7fa; 0x7fa; 0x7fd; 0x7fd;
  0x800; 0x82d; 0x840; 0x85b; 0x860; 0x86a; 0x870; 0x887; 0x889; 0x88f; 0x897; 0x8e1;
  0x8e3; 0x963; 0x966; 0x96f; 0x971; 0x983; 0x985; 0x98c; 0x98f; 0x990; 0x993; 0x9a8;
  0x9aa; 0x9b0; 0x9b2; 0x9b2; 0x9b6; 0x9b9; 0x9bc; 0x9c4; 0x9c7; 0x9c8; 0x9cb; 0x9ce;
  0x9d7; 0x9d7; 0x9dc; 0x9dd; 0x9df; 0x9e3; 0x9e6; 0x9f1; 0x9fc; 0x9fc; 0x9fe; 0x9fe;
  0xa01; 0xa03; 0xa05; 0xa0a; 0xa0f; 0xa10; 0xa13; 0xa28; 0xa2a; 0xa30; 0xa32; 0xa33;
  0xa35; 0xa36; 0xa38; 0xa39; 0xa3c; 0xa3c; 0xa3e; 0xa42; 0xa47; 0xa48; 0xa4b; 0xa4d;
  0xa51; 0xa51; 0xa59; 0xa5c; 0xa5e; 0xa5e; 0xa66; 0xa75; 0xa81; 0xa83; 0xa85; 0xa8d;
  0xa8f; 0xa91; 0xa93; 0xaa8; 0xaaa; 0xab0; 0xab2; 0xab3; 0xab5; 0xab9; 0xabc; 0xac5;
  0xac7; 0xac9; 0xacb; 0xacd; 0xad0; 0xad0; 0xae0; 0xae3; 0xae6; 0xaef; 0xaf9; 0xaff;
  0xb01; 0xb03; 0xb05; 0xb0c; 0xb0f; 0xb10; 0xb13; 0xb28; 0xb2a; 0xb30; 0xb32; 0xb33;
  0xb35; 0xb39; 0xb3c; 0xb44; 0xb47; 0xb48; 0xb4b; 0xb4d; 0xb55; 0xb57; 0xb5c; 0xb5d;
  0xb5f; 0xb63; 0xb66; 0xb6f; 0xb71; 0xb71; 0xb82; 0xb83; 0xb85; 0xb8a; 0xb8e; 0xb90;
  0xb92; 0xb95; 0xb99; 0xb9a; 0xb9c; 0xb9c; 0xb9e; 0xb9f; 0xba3; 0xba4; 0xba8; 0xbaa;
  0xbae; 0xbb9; 0xbbe; 0xbc2; 0xbc6; 0xbc8; 0xbca; 0xbcd; 0xbd0; 0xbd0; 0xbd7; 0xbd7;
  0xbe6; 0xbef; 0xc00; 0xc0c; 0xc0e; 0xc10; 0xc12; 0xc28; 0xc2a; 0xc39; 0xc3c; 0xc44;
  0xc46; 0xc48; 0xc4a; 0xc4d; 0xc55; 0xc56; 0xc58; 0xc5a; 0xc5c; 0xc5d; 0xc60; 0xc63;
  0xc66; 0xc6f; 0xc80; 0xc83; 0xc85; 0xc8c; 0xc8e; 0xc90; 0xc92; 0xca8; 0xcaa; 0xcb3;
  0xcb5; 0xcb9; 0xcbc; 0xcc4; 0xcc6; 0xcc8; 0xcca; 0xccd; 0xcd5; 0xcd6; 0xcdc; 0xcde;
  0xce0; 0xce3; 0xce6; 0xcef; 0xcf1; 0xcf3; 0xd00; 0xd0c; 0xd0e; 0xd10; 0xd12; 0xd44;
  0xd46; 0xd48; 0xd4a; 0xd4e; 0xd54; 0xd57; 0xd5f; 0xd63; 0xd66; 0xd6f; 0xd7a; 0xd7f;
  0xd81; 0xd83; 0xd85; 0xd96; 0xd9a; 0xdb1; 0xdb3; 0xdbb; 0xdbd; 0xdbd; 0xdc0; 0xdc6;
  0xdca; 0xdca; 0xdcf; 0xdd4; 0xdd6; 0xdd6; 0xdd8; 0xddf; 0xde6; 0xdef; 0xdf2; 0xdf3;
  0xe01; 0xe3a; 0xe40; 0xe4e; 0xe50; 0xe59; 0xe81; 0xe82; 0xe84; 0xe84; 0xe86; 0xe8a;
  0xe8c; 0xea3; 0xea5; 0xea5; 0xea7; 0xebd; 0xec0; 0xec4; 0xec6; 0xec6; 0xec8; 0xece;
  0xed0; 0xed9; 0xedc; 0xedf; 0xf00; 0xf00; 0xf18; 0xf19; 0xf20; 0xf29; 0xf35; 0xf35;
  0xf37; 0xf37; 0xf39; 0xf39; 0xf3e; 0xf47; 0xf49; 0xf6c; 0xf71; 0xf84; 0xf86; 0xf97;
  0xf99; 0xfbc; 0xfc6; 0xfc6; 0x1000; 0x1049; 0x1050; 0x109d; 0x10a0; 0x10c5; 0x10c7; 0x10c7;
  0x10cd; 0x10cd; 0x10d0; 0x10fa; 0x10fc; 0x1248; 0x124a; 0x124d; 0x1250; 0x1256; 0x1258; 0x1258;
  0x125a; 0x125d; 0x1260; 0x1288; 0x128a; 0x128d; 0x1290; 0x12b0; 0x12b2; 0x12b5; 0x12b8; 0x12be;
  0x12c0; 0x12c0; 0x12c2; 0x12c5; 0x12c8; 0x12d6; 0x12d8; 0x1310; 0x1312; 0x1315; 0x1318; 0x135a;
  0x135d; 0x135f; 0x1369; 0x1371; 0x1380; 0x138f; 0x13a0; 0x13f5; 0x13f8; 0x13fd; 0x1401; 0x166c;
  0x166f; 0x167f; 0x1681; 0x169a; 0x16a0; 0x16ea; 0x16ee; 0x16f8; 0x1700; 0x1715; 0x171f; 0x1734;
  0x1740; 0x1753; 0x1760; 0x176c; 0x176e; 0x1770; 0x1772; 0x1773; 0x1780; 0x17d3; 0x17d7; 0x17d7;
  0x17dc; 0x17dd; 0x17e0; 0x17e9; 0x180b; 0x180d; 0x180f; 0x1819; 0x1820; 0x1878; 0x1880; 0x18aa;
  0x18b0; 0x18f5; 0x1900; 0x191e; 0x1920; 0x192b; 0x1930; 0x193b; 0x1946; 0x196d; 0x1970; 0x1974;
  0x1980; 0x19ab; 0x19b0; 0x19c9; 0x19d0; 0x19da; 0x1a00; 0x1a1b; 0x1a20; 0x1a5e; 0x1a60; 0x1a7c;
  0x1a7f; 0x1a89; 0x1a90; 0x1a99; 0x1aa7; 0x1aa7; 0x1ab0; 0x1abd; 0x1abf; 0x1add; 0x1ae0; 0x1aeb;
  0x1b00; 0x1b4c; 0x1b50; 0x1b59; 0x1b6b; 0x1b73; 0x1b80; 0x1bf3; 0x1c00; 0x1c37; 0x1c40; 0x1c49;
  0x1c4d; 0x1c7d; 0x1c80; 0x1c8a; 0x1c90; 0x1cba; 0x1cbd; 0x1cbf; 0x1cd0; 0x1cd2; 0x1cd4; 0x1cfa;
  0x1d00; 0x1f15; 0x1f18; 0x1f1d; 0x1f20; 0x1f45; 0x1f48; 0x1f4d; 0x1f50; 0x1f57; 0x1f59; 0x1f59;
  0x1f5b; 0x1f5b; 0x1f5d; 0x1f5d; 0x1f5f; 0x1f7d; 0x1f80; 0x1fb4; 0x1fb6; 0x1fbc; 0x1fbe; 0x1fbe;
  0x1fc2; 0x1fc4; 0x1fc6; 0x1fcc; 0x1fd0; 0x1fd3; 0x1fd6; 0x1fdb; 0x1fe0; 0x1fec; 0x1ff2; 0x1ff4;
  0x1ff6; 0x1ffc; 0x200c; 0x200d; 0x203f; 0x2040; 0x2054; 0x2054; 0x2071; 0x2071; 0x207f; 0x207f;
  0x2090; 0x209c; 0x20d0; 0x20dc; 0x20e1; 0x20e1; 0x20e5; 0x20f0; 0x2102; 0x2102; 0x2107; 0x2107;
  0x210a; 0x2113; 0x2115; 0x2115; 0x2118; 0x211d; 0x2124; 0x2124; 0x2126; 0x2126; 0x2128; 0x2128;
  0x212a; 0x2139; 0x213c; 0x213f; 0x2145; 0x2149; 0x214e; 0x214e; 0x2160; 0x2188; 0x2c00; 0x2ce4;
  0x2ceb; 0x2cf3; 0x2d00; 0x2d25; 0x2d27; 0x2d27; 0x2d2d; 0x2d2d; 0x2d30; 0x2d67; 0x2d6f; 0x2d6f;
  0x2d7f; 0x2d96; 0x2da0; 0x2da6; 0x2da8; 0x2dae; 0x2db0; 0x2db6; 0x2db8; 0x2dbe; 0x2dc0; 0x2dc6;
  0x2dc8; 0x2dce; 0x2dd0; 0x2dd6; 0x2dd8; 0x2dde; 0x2de0; 0x2dff; 0x3005; 0x3007; 0x3021; 0x302f;
  0x3031; 0x3035; 0x3038; 0x303c; 0x3041; 0x3096; 0x3099; 0x309a; 0x309d; 0x309f; 0x30a1; 0x30ff;
  0x3105; 0x312f; 0x3131; 0x318e; 0x31a0; 0x31bf; 0x31f0; 0x31ff; 0x3400; 0x4dbf; 0x4e00; 0xa48c;
  0xa4d0; 0xa4fd; 0xa500; 0xa60c; 0xa610; 0xa62b; 0xa640; 0xa66f; 0xa674; 0xa67d; 0xa67f; 0xa6f1;
  0xa717; 0xa71f; 0xa722; 0xa788; 0xa78b; 0xa7dc; 0xa7f1; 0xa827; 0xa82c; 0xa82c; 0xa840; 0xa873;
  0xa880; 0xa8c5; 0xa8d0; 0xa8d9; 0xa8e0; 0xa8f7; 0xa8fb; 0xa8fb; 0xa8fd; 0xa92d; 0xa930; 0xa953;
  0xa960; 0xa97c; 0xa980; 0xa9c0; 0xa9cf; 0xa9d9; 0xa9e0; 0xa9fe; 0xaa00; 0xaa36; 0xaa40; 0xaa4d;
  0xaa50; 0xaa59; 0xaa60; 0xaa76; 0xaa7a; 0xaac2; 0xaadb; 0xaadd; 0xaae0; 0xaaef; 0xaaf2; 0xaaf6;
  0xab01; 0xab06; 0xab09; 0xab0e; 0xab11; 0xab16; 0xab20; 0xab26; 0xab28; 0xab2e; 0xab30; 0xab5a;
  0xab5c; 0xab69; 0xab70; 0xabea; 0xabec; 0xabed; 0xabf0; 0xabf9; 0xac00; 0xd7a3; 0xd7b0; 0xd7c6;
  0xd7cb; 0xd7fb; 0xf900; 0xfa6d; 0xfa70; 0xfad9; 0xfb00; 0xfb06; 0xfb13; 0xfb17; 0xfb1d; 0xfb28;
  0xfb2a; 0xfb36; 0xfb38; 0xfb3c; 0xfb3e; 0xfb3e; 0xfb40; 0xfb41; 0xfb43; 0xfb44; 0xfb46; 0xfbb1;
  0xfbd3; 0xfc5d; 0xfc64; 0xfd3d; 0xfd50; 0xfd8f; 0xfd92; 0xfdc7; 0xfdf0; 0xfdf9; 0xfe00; 0xfe0f;
  0xfe20; 0xfe2f; 0xfe33; 0xfe34; 0xfe4d; 0xfe4f; 0xfe71; 0xfe71; 0xfe73; 0xfe73; 0xfe77; 0xfe77;
  0xfe79; 0xfe79; 0xfe7b; 0xfe7b; 0xfe7d; 0xfe7d; 0xfe7f; 0xfefc; 0xff10; 0xff19; 0xff21; 0xff3a;
  0xff3f; 0xff3f; 0xff41; 0xff5a; 0xff65; 0xffbe; 0xffc2; 0xffc7; 0xffca; 0xffcf; 0xffd2; 0xffd7;
  0xffda; 0xffdc; 0x10000; 0x1000b; 0x1000d; 0x10026; 0x10028; 0x1003a; 0x1003c; 0x1003d; 0x1003f; 0x1004d;
  0x10050; 0x1005d; 0x10080; 0x100fa; 0x10140; 0x10174; 0x101fd; 0x101fd; 0x10280; 0x1029c; 0x102a0; 0x102d0;
  0x102e0; 0x102e0; 0x10300; 0x1031f; 0x1032d; 0x1034a; 0x10350; 0x1037a; 0x10380; 0x1039d; 0x103a0; 0x103c3;
  0x103c8; 0x103cf; 0x103d1; 0x103d5; 0x10400; 0x1049d; 0x104a0; 0x104a9; 0x104b0; 0x104d3; 0x104d8; 0x104fb;
  0x10500; 0x10527; 0x10530; 0x10563; 0x10570; 0x1057a; 0x1057c; 0x1058a; 0x1058c; 0x10592; 0x10594; 0x10595;
  0x10597; 0x105a1; 0x105a3; 0x105b1; 0x105b3; 0x105b9; 0x105bb; 0x105bc; 0x105c0; 0x105f3; 0x10600; 0x10736;
  0x10740; 0x10755; 0x10760; 0x10767; 0x10780; 0x10785; 0x10787; 0x107b0; 0x107b2; 0x107ba; 0x10800; 0x10805;
  0x10808; 0x10808; 0x1080a; 0x10835; 0x10837; 0x10838; 0x1083c; 0x1083c; 0x1083f; 0x10855; 0x10860; 0x10876;
  0x10880; 0x1089e; 0x108e0; 0x108f2; 0x108f4; 0x108f5; 0x10900; 0x10915; 0x10920; 0x10939; 0x10940; 0x10959;
  0x10980; 0x109b7; 0x109be; 0x109bf; 0x10a00; 0x10a03; 0x10a05; 0x10a06; 0x10a0c; 0x10a13; 0x10a15; 0x10a17;
  0x10a19; 0x10a35; 0x10a38; 0x10a3a; 0x10a3f; 0x10a3f; 0x10a60; 0x10a7c; 0x10a80; 0x10a9c; 0x10ac0; 0x10ac7;
  0x10ac9; 0x10ae6; 0x10b00; 0x10b35; 0x10b40; 0x10b55; 0x10b60; 0x10b72; 0x10b80; 0x10b91; 0x10c00; 0x10c48;
  0x10c80; 0x10cb2; 0x10cc0; 0x10cf2; 0x10d00; 0x10d27; 0x10d30; 0x10d39; 0x10d40; 0x10d65; 0x10d69; 0x10d6d;
  0x10d6f; 0x10d85; 0x10e80; 0x10ea9; 0x10eab; 0x10eac; 0x10eb0; 0x10eb1; 0x10ec2; 0x10ec7; 0x10efa; 0x10f1c;
  0x10f27; 0x10f27; 0x10f30; 0x10f50; 0x10f70; 0x10f85; 0x10fb0; 0x10fc4; 0x10fe0; 0x10ff6; 0x11000; 0x11046;
  0x11066; 0x11075; 0x1107f; 0x110ba; 0x110c2; 0x110c2; 0x110d0; 0x110e8; 0x110f0; 0x110f9; 0x11100; 0x11134;
  0x11136; 0x1113f; 0x11144; 0x11147; 0x11150; 0x11173; 0x11176; 0x11176; 0x11180; 0x111c4; 0x111c9; 0x111cc;
  0x111ce; 0x111da; 0x111dc; 0x111dc; 0x11200; 0x11211; 0x11213; 0x11237; 0x1123e; 0x11241; 0x11280; 0x11286;
  0x11288; 0x11288; 0x1128a; 0x1128d; 0x1128f; 0x1129d; 0x1129f; 0x112a8; 0x112b0; 0x112ea; 0x112f0; 0x112f9;
  0x11300; 0x11303; 0x11305; 0x1130c; 0x1130f; 0x11310; 0x11313; 0x11328; 0x1132a; 0x11330; 0x11332; 0x11333;
  0x11335; 0x11339; 0x1133b; 0x11344; 0x11347; 0x11348; 0x1134b; 0x1134d; 0x11350; 0x11350; 0x11357; 0x11357;
  0x1135d; 0x11363; 0x11366; 0x1136c; 0x11370; 0x11374; 0x11380; 0x11389; 0x1138b; 0x1138b; 0x1138e; 0x1138e;
  0x11390; 0x113b5; 0x113b7; 0x113c0; 0x113c2; 0x113c2; 0x113c5; 0x113c5; 0x113c7; 0x113ca; 0x113cc; 0x113d3;
  0x113e1; 0x113e2; 0x11400; 0x1144a; 0x11450; 0x11459; 0x1145e; 0x11461; 0x11480; 0x114c5; 0x114c7; 0x114c7;
  0x114d0; 0x114d9; 0x11580; 0x115b5; 0x115b8; 0x115c0; 0x115d8; 0x115dd; 0x11600; 0x11640; 0x11644; 0x11644;
  0x11650; 0x11659; 0x11680; 0x116b8; 0x116c0; 0x116c9; 0x116d0; 0x116e3; 0x11700; 0x1171a; 0x1171d; 0x1172b;
  0x11730; 0x11739; 0x11740; 0x11746; 0x11800; 0x1183a; 0x118a0; 0x118e9; 0x118ff; 0x11906; 0x11909; 0x11909;
  0x1190c; 0x11913; 0x11915; 0x11916; 0x11918; 0x11935; 0x11937; 0x11938; 0x1193b; 0x11943; 0x11950; 0x11959;
  0x119a0; 0x119a7; 0x119aa; 0x119d7; 0x119da; 0x119e1; 0x119e3; 0x119e4; 0x11a00; 0x11a3e; 0x11a47; 0x11a47;
  0x11a50; 0x11a99; 0x11a9d; 0x11a9d; 0x11ab0; 0x11af8; 0x11b60; 0x11b67; 0x11bc0; 0x11be0; 0x11bf0; 0x11bf9;
  0x11c00; 0x11c08; 0x11c0a; 0x11c36; 0x11c38; 0x11c40; 0x11c50; 0x11c59; 0x11c72; 0x11c8f; 0x11c92; 0x11ca7;
  0x11ca9; 0x11cb6; 0x11d00; 0x11d06; 0x11d08; 0x11d09; 0x11d0b; 0x11d36; 0x11d3a; 0x11d3a; 0x11d3c; 0x11d3d;
  0x11d3f; 0x11d47; 0x11d50; 0x11d59; 0x11d60; 0x11d65; 0x11d67; 0x11d68; 0x11d6a; 0x11d8e; 0x11d90; 0x11d91;
  0x11d93; 0x11d98; 0x11da0; 0x11da9; 0x11db0; 0x11ddb; 0x11de0; 0x11de9; 0x11ee0; 0x11ef6; 0x11f00; 0x11f10;
  0x11f12; 0x11f3a; 0x11f3e; 0x11f42; 0x11f50; 0x11f5a; 0x11fb0; 0x11fb0; 0x12000; 0x12399; 0x12400; 0x1246e;
  0x12480; 0x12543; 0x12f90; 0x12ff0; 0x13000; 0x1342f; 0x13440; 0x13455; 0x13460; 0x143fa; 0x14400; 0x14646;
  0x16100; 0x16139; 0x16800; 0x16a38; 0x16a40; 0x16a5e; 0x16a60; 0x16a69; 0x16a70; 0x16abe; 0x16ac0; 0x16ac9;
  0x16ad0; 0x16aed; 0x16af0; 0x16af4; 0x16b00; 0x16b36; 0x16b40; 0x16b43; 0x16b50; 0x16b59; 0x16b63; 0x16b77;
  0x16b7d; 0x16b8f; 0x16d40; 0x16d6c; 0x16d70; 0x16d79; 0x16e40; 0x16e7f; 0x16ea0; 0x16eb8; 0x16ebb; 0x16ed3;
  0x16f00; 0x16f4a; 0x16f4f; 0x16f87; 0x16f8f; 0x16f9f; 0x16fe0; 0x16fe1; 0x16fe3; 0x16fe4; 0x16ff0; 0x16ff6;
  0x17000; 0x18cd5; 0x18cff; 0x18d1e; 0x18d80; 0x18df2; 0x1aff0; 0x1aff3; 0x1aff5; 0x1affb; 0x1affd; 0x1affe;
  0x1b000; 0x1b122; 0x1b132; 0x1b132; 0x1b150; 0x1b152; 0x1b155; 0x1b155; 0x1b164; 0x1b167; 0x1b170; 0x1b2fb;
  0x1bc00; 0x1bc6a; 0x1bc70; 0x1bc7c; 0x1bc80; 0x1bc88; 0x1bc90; 0x1bc99; 0x1bc9d; 0x1bc9e; 0x1ccf0; 0x1ccf9;
  0x1cf00; 0x1cf2d; 0x1cf30; 0x1cf46; 0x1d165; 0x1d169; 0x1d16d; 0x1d172; 0x1d17b; 0x1d182; 0x1d185; 0x1d18b;
  0x1d1aa; 0x1d1ad; 0x1d242; 0x1d244; 0x1d400; 0x1d454; 0x1d456; 0x1d49c; 0x1d49e; 0x1d49f; 0x1d4a2; 0x1d4a2;
  0x1d4a5; 0x1d4a6; 0x1d4a9; 0x1d4ac; 0x1d4ae; 0x1d4b9; 0x1d4bb; 0x1d4bb; 0x1d4bd; 0x1d4c3; 0x1d4c5; 0x1d505;
  0x1d507; 0x1d50a; 0x1d50d; 0x1d514; 0x1d516; 0x1d51c; 0x1d51e; 0x1d539; 0x1d53b; 0x1d53e; 0x1d540; 0x1d544;
  0x1d546; 0x1d546; 0x1d54a; 0x1d550; 0x1d552; 0x1d6a5; 0x1d6a8; 0x1d6c0; 0x1d6c2; 0x1d6da; 0x1d6dc; 0x1d6fa;
  0x1d6fc; 0x1d714; 0x1d716; 0x1d734; 0x1d736; 0x1d74e; 0x1d750; 0x1d76e; 0x1d770; 0x1d788; 0x1d78a; 0x1d7a8;
  0x1d7aa; 0x1d7c2; 0x1d7c4; 0x1d7cb; 0x1d7ce; 0x1d7ff; 0x1da00; 0x1da36; 0x1da3b; 0x1da6c; 0x1da75; 0x1da75;
  0x1da84; 0x1da84; 0x1da9b; 0x1da9f; 0x1daa1; 0x1daaf; 0x1df00; 0x1df1e; 0x1df25; 0x1df2a; 0x1e000; 0x1e006;
  0x1e008; 0x1e018; 0x1e01b; 0x1e021; 0x1e023; 0x1e024; 0x1e026; 0x1e02a; 0x1e030; 0x1e06d; 0x1e08f; 0x1e08f;
  0x1e100; 0x1e12c; 0x1e130; 0x1e13d; 0x1e140; 0x1e149; 0x1e14e; 0x1e14e; 0x1e290; 0x1e2ae; 0x1e2c0; 0x1e2f9;
  0x1e4d0; 0x1e4f9; 0x1e5d0; 0x1e5fa; 0x1e6c0; 0x1e6de; 0x1e6e0; 0x1e6f5; 0x1e6fe; 0x1e6ff; 0x1e7e0; 0x1e7e6;
  0x1e7e8; 0x1e7eb; 0x1e7ed; 0x1e7ee; 0x1e7f0; 0x1e7fe; 0x1e800; 0x1e8c4; 0x1e8d0; 0x1e8d6; 0x1e900; 0x1e94b;
  0x1e950; 0x1e959; 0x1ee00; 0x1ee03; 0x1ee05; 0x1ee1f; 0x1ee21; 0x1ee22; 0x1ee24; 0x1ee24; 0x1ee27; 0x1ee27;
  0x1ee29; 0x1ee32; 0x1ee34; 0x1ee37; 0x1ee39; 0x1ee39; 0x1ee3b; 0x1ee3b; 0x1ee42; 0x1ee42; 0x1ee47; 0x1ee47;
  0x1ee49; 0x1ee49; 0x1ee4b; 0x1ee4b; 0x1ee4d; 0x1ee4f; 0x1ee51; 0x1ee52; 0x1ee54; 0x1ee54; 0x1ee57; 0x1ee57;
  0x1ee59; 0x1ee59; 0x1ee5b; 0x1ee5b; 0x1ee5d; 0x1ee5d; 0x1ee5f; 0x1ee5f; 0x1ee61; 0x1ee62; 0x1ee64; 0x1ee64;
  0x1ee67; 0x1ee6a; 0x1ee6c; 0x1ee72; 0x1ee74; 0x1ee77; 0x1ee79; 0x1ee7c; 0x1ee7e; 0x1ee7e; 0x1ee80; 0x1ee89;
  0x1ee8b; 0x1ee9b; 0x1eea1; 0x1eea3; 0x1eea5; 0x1eea9; 0x1eeab; 0x1eebb; 0x1fbf0; 0x1fbf9; 0x20000; 0x2a6df;
  0x2a700; 0x2b81d; 0x2b820; 0x2cead; 0x2ceb0; 0x2ebe0; 0x2ebf0; 0x2ee5d; 0x2f800; 0x2fa1d; 0x30000; 0x3134a;
  0x31350; 0x33479; 0xe0100; 0xe01ef].

Definition DEFAULT_IGNORABLE_RANGES : list Z := [
  0xad; 0xad; 0x34f; 0x34f; 0x61c; 0x61c; 0x115f; 0x1160; 0x17b4; 0x17b5; 0x180b; 0x180f;
  0x200b; 0x200f; 0x202a; 0x202e; 0x2060; 0x206f; 0x3164; 0x3164; 0xfe00; 0xfe0f; 0xfeff; 0xfeff;
  0xffa0; 0xffa0; 0xfff0; 0xfff8; 0x1bca0; 0x1bca3; 0x1d173; 0x1d17a; 0xe0000; 0xe0fff].

Definition COMBINING_MARK_RANGES : list Z := [
  0x300; 0x36f; 0x483; 0x487; 0x591; 0x5bd; 0x5bf; 0x5bf; 0x5c1; 0x5c2; 0x5c4; 0x5c5;
  0x5c7; 0x5c7; 0x610; 0x61a; 0x64b; 0x65f; 0x670; 0x670; 0x6d6; 0x6dc; 0x6df; 0x6e4;
  0x6e7; 0x6e8; 0x6ea; 0x6ed; 0x711; 0x711; 0x730; 0x74a; 0x7a6; 0x7b0; 0x7eb; 0x7f3;
  0x7fd; 0x7fd; 0x816; 0x819; 0x81b; 0x823; 0x825; 0x827; 0x829; 0x82d; 0x859; 0x85b;
  0x897; 0x89f; 0x8ca; 0x8e1; 0x8e3; 0x903; 0x93a; 0x93c; 0x93e; 0x94f; 0x951; 0x957;
  0x962; 0x963; 0x981; 0x983; 0x9bc; 0x9bc; 0x9be; 0x9c4; 0x9c7; 0x9c8; 0x9cb; 0x9cd;
  0x9d7; 0x9d7; 0x9e2; 0x9e3; 0x9fe; 0x9fe; 0xa01; 0xa03; 0xa3c; 0xa3c; 0xa3e; 0xa42;
  0xa47; 0xa48; 0xa4b; 0xa4d; 0xa51; 0xa51; 0xa70; 0xa71; 0xa75; 0xa75; 0xa81; 0xa83;
  0xabc; 0xabc; 0xabe; 0xac5; 0xac7; 0xac9; 0xacb; 0xacd; 0xae2; 0xae3; 0xafa; 0xaff;
  0xb01; 0xb03; 0xb3c; 0xb3c; 0xb3e; 0xb44; 0xb47; 0xb48; 0xb4b; 0xb4d; 0xb55; 0xb57;
  0xb62; 0xb63; 0xb82; 0xb82; 0xbbe; 0xbc2; 0xbc6; 0xbc8; 0xbca; 0xbcd; 0xbd7; 0xbd7;
  0xc00; 0xc04; 0xc3c; 0xc3c; 0xc3e; 0xc44; 0xc46; 0xc48; 0xc4a; 0xc4d; 0xc55; 0xc56;
  0xc62; 0xc63; 0xc81; 0xc83; 0xcbc; 0xcbc; 0xcbe; 0xcc4; 0xcc6; 0xcc8; 0xcca; 0xccd;
  0xcd5; 0xcd6; 0xce2; 0xce3; 0xcf3; 0xcf3; 0xd00; 0xd03; 0xd3b; 0xd3c; 0xd3e; 0xd44;
  0xd46; 0xd48; 0xd4a; 0xd4d; 0xd57; 0xd57; 0xd62; 0xd63; 0xd81; 0xd83; 0xdca; 0xdca;
  0xdcf; 0xdd4; 0xdd6; 0xdd6; 0xdd8; 0xddf; 0xdf2; 0xdf3; 0xe31; 0xe31; 0xe34; 0xe3a;
  0xe47; 0xe4e; 0xeb1; 0xeb1; 0xeb4; 0xebc; 0xec8; 0xece; 0xf18; 0xf19; 0xf35; 0xf35;
  0xf37; 0xf37; 0xf39; 0xf39; 0xf3e; 0xf3f; 0xf71; 0xf84; 0xf86; 0xf87; 0xf8d; 0xf97;
  0xf99; 0xfbc; 0xfc6; 0xfc6; 0x102b; 0x103e; 0x1056; 0x1059; 0x105e; 0x1060; 0x1062; 0x1064;
  0x1067; 0x106d; 0x1071; 0x1074; 0x1082; 0x108d; 0x108f; 0x108f; 0x109a; 0x109d; 0x135d; 0x135f;
  0x1712; 0x1715; 0x1732; 0x1734; 0x1752; 0x1753; 0x1772; 0x1773; 0x17b4; 0x17d3; 0x17dd; 0x17dd;
  0x180b; 0x180d; 0x180f; 0x180f; 0x1885; 0x1886; 0x18a9; 0x18a9; 0x1920; 0x192b; 0x1930; 0x193b;
  0x1a17; 0x1a1b; 0x1a55; 0x1a5e; 0x1a60; 0x1a7c; 0x1a7f; 0x1a7f; 0x1ab0; 0x1abd; 0x1abf; 0x1add;
  0x1ae0; 0x1aeb; 0x1b00; 0x1b04; 0x1b34; 0x1b44; 0x1b6b; 0x1b73; 0x1b80; 0x1b82; 0x1ba1; 0x1bad;
  0x1be6; 0x1bf3; 0x1c24; 0x1c37; 0x1cd0; 0x1cd2; 0x1cd4; 0x1ce8; 0x1ced; 0x1ced; 0x1cf4; 0x1cf4;
  0x1cf7; 0x1cf9; 0x1dc0; 0x1dff; 0x20d0; 0x20dc; 0x20e1; 0x20e1; 0x20e5; 0x20f0; 0x2cef; 0x2cf1;
  0x2d7f; 0x2d7f; 0x2de0; 0x2dff; 0x302a; 0x302f; 0x3099; 0x309a; 0xa66f; 0xa66f; 0xa674; 0xa67d;
  0xa69e; 0xa69f; 0xa6f0; 0xa6f1; 0xa802; 0xa802; 0xa806; 0xa806; 0xa80b; 0xa80b; 0xa823; 0xa827;
  0xa82c; 0xa82c; 0xa880; 0xa881; 0xa8b4; 0xa8c5; 0xa8e0; 0xa8f1; 0xa8ff; 0xa8ff; 0xa926; 0xa92d;
  0xa947; 0xa953; 0xa980; 0xa983; 0xa9b3; 0xa9c0; 0xa9e5; 0xa9e5; 0xaa29; 0xaa36; 0xaa43; 0xaa43;
  0xaa4c; 0xaa4d; 0xaa7b; 0xaa7d; 0xaab0; 0xaab0; 0xaab2; 0xaab4; 0xaab7; 0xaab8; 0xaabe; 0xaabf;
  0xaac1; 0xaac1; 0xaaeb; 0xaaef; 0xaaf5; 0xaaf6; 0xabe3; 0xabea; 0xabec; 0xabed; 0xfb1e; 0xfb1e;
  0xfe00; 0xfe0f; 0xfe20; 0xfe2f; 0x101fd; 0x101fd; 0x102e0; 0x102e0; 0x10376; 0x1037a; 0x10a01; 0x10a03;
  0x10a05; 0x10a06; 0x10a0c; 0x10a0f; 0x10a38; 0x10a3a; 0x10a3f; 0x10a3f; 0x10ae5; 0x10ae6; 0x10d24; 0x10d27;
  0x10d69; 0x10d6d; 0x10eab; 0x10eac; 0x10efa; 0x10eff; 0x10f46; 0x10f50; 0x10f82; 0x10f85; 0x11000; 0x11002;
  0x11038; 0x11046; 0x11070; 0x11070; 0x11073; 0x11074; 0x1107f; 0x11082; 0x110b0; 0x110ba; 0x110c2; 0x110c2;
  0x11100; 0x11102; 0x11127; 0x11134; 0x11145; 0x11146; 0x11173; 0x11173; 0x11180; 0x11182; 0x111b3; 0x111c0;
  0x111c9; 0x111cc; 0x111ce; 0x111cf; 0x1122c; 0x11237; 0x1123e; 0x1123e; 0x11241; 0x11241; 0x112df; 0x112ea;
  0x11300; 0x11303; 0x1133b; 0x1133c; 0x1133e; 0x11344; 0x11347; 0x11348; 0x1134b; 0x1134d; 0x11357; 0x11357;
  0x11362; 0x11363; 0x11366; 0x1136c; 0x11370; 0x11374; 0x113b8; 0x113c0; 0x113c2; 0x113c2; 0x113c5; 0x113c5;
  0x113c7; 0x113ca; 0x113cc; 0x113d0; 0x113d2; 0x113d2; 0x113e1; 0x113e2; 0x11435; 0x11446; 0x1145e; 0x1145e;
  0x114b0; 0x114c3; 0x115af; 0x115b5; 0x115b8; 0x115c0; 0x115dc; 0x115dd; 0x11630; 0x11640; 0x116ab; 0x116b7;
  0x1171d; 0x1172b; 0x1182c; 0x1183a; 0x11930; 0x11935; 0x11937; 0x11938; 0x1193b; 0x1193e; 0x11940; 0x11940;
  0x11942; 0x11943; 0x119d1; 0x119d7; 0x119da; 0x119e0; 0x119e4; 0x119e4; 0x11a01; 0x11a0a; 0x11a33; 0x11a39;
  0x11a3b; 0x11a3e; 0x11a47; 0x11a47; 0x11a51; 0x11a5b; 0x11a8a; 0x11a99; 0x11b60; 0x11b67; 0x11c2f; 0x11c36;
  0x11c38; 0x11c3f; 0x11c92; 0x11ca7; 0x11ca9; 0x11cb6; 0x11d31; 0x11d36; 0x11d3a; 0x11d3a; 0x11d3c; 0x11d3d;
  0x11d3f; 0x11d45; 0x11d47; 0x11d47; 0x11d8a; 0x11d8e; 0x11d90; 0x11d91; 0x11d93; 0x11d97; 0x11ef3; 0x11ef6;
  0x11f00; 0x11f01; 0x11f03; 0x11f03; 0x11f34; 0x11f3a; 0x11f3e; 0x11f42; 0x11f5a; 0x11f5a; 0x13440; 0x13440;
  0x13447; 0x13455; 0x1611e; 0x1612f; 0x16af0; 0x16af4; 0x16b30; 0x16b36; 0x16f4f; 0x16f4f; 0x16f51; 0x16f87;
  0x16f8f; 0x16f92; 0x16fe4; 0x16fe4; 0x16ff0; 0x16ff1; 0x1bc9d; 0x1bc9e; 0x1cf00; 0x1cf2d; 0x1cf30; 0x1cf46;
  0x1d165; 0x1d169; 0x1d16d; 0x1d172; 0x1d17b; 0x1d182; 0x1d185; 0x1d18b; 0x1d1aa; 0x1d1ad; 0x1d242; 0x1d244;
  0x1da00; 0x1da36; 0x1da3b; 0x1da6c; 0x1da75; 0x1da75; 0x1da84; 0x1da84; 0x1da9b; 0x1da9f; 0x1daa1; 0x1daaf;
  0x1e000; 0x1e006; 0x1e008; 0x1e018; 0x1e01b; 0x1e021; 0x1e023; 0x1e024; 0x1e026; 0x1e02a; 0x1e08f; 0x1e08f;
  0x1e130; 0x1e136; 0x1e2ae; 0x1e2ae; 0x1e2ec; 0x1e2ef; 0x1e4ec; 0x1e4ef; 0x1e5ee; 0x1e5ef; 0x1e6e3; 0x1e6e3;
  0x1e6e6; 0x1e6e6; 0x1e6ee; 0x1e6ef; 0x1e6f5; 0x1e6f5; 0x1e8d0; 0x1e8d6; 0x1e944; 0x1e94a; 0xe0100; 0xe01ef].

Definition FULLY_QUALIFIED_EMOJI : list (list Z) := [
  [0x1f600]; [0x1f603]; [0x1f604]; [0x1f601]; [0x1f606]; [0x1f605]; [0x1f923]; [0x1f602]; [0x1f642]; [0x1f643]; [0x1fae0]; [0x1f609];
  [0x1f60a]; [0x1f607]; [0x1f970]; [0x1f60d]; [0x1f929]; [0x1f618]; [0x1f617]; [0x263a;0xfe0f]; [0x1f61a]; [0x1f619]; [0x1f972]; [0x1f60b];
  [0x1f61b]; [0x1f61c]; [0x1f92a]; [0x1f61d]; [0x1f911]; [0x1f917]; [0x1f92d]; [0x1fae2]; [0x1fae3]; [0x1f92b]; [0x1f914]; [0x1fae1];
  [0x1f910]; [0x1f928]; [0x1f610]; [0x1f611]; [0x1f636]; [0x1fae5]; [0x1f636;0x200d;0x1f32b;0xfe0f]; [0x1f60f]; [0x1f612]; [0x1f644]; [0x1f62c]; [0x1f62e;0x200d;0x1f4a8];
  [0x1f925]; [0x1fae8]; [0x1f642;0x200d;0x2194;0xfe0f]; [0x1f642;0x200d;0x2195;0xfe0f]; [0x1f60c]; [0x1f614]; [0x1f62a]; [0x1f924]; [0x1f634]; [0x1fae9]; [0x1f637]; [0x1f912];
  [0x1f915]; [0x1f922]; [0x1f92e]; [0x1f927]; [0x1f975]; [0x1f976]; [0x1f974]; [0x1f635]; [0x1f635;0x200d;0x1f4ab]; [0x1f92f]; [0x1f920]; [0x1f973];
  [0x1f978]; [0x1f60e]; [0x1f913]; [0x1f9d0]; [0x1f615]; [0x1fae4]; [0x1f61f]; [0x1f641]; [0x2639;0xfe0f]; [0x1f62e]; [0x1f62f]; [0x1f632];
  [0x1f633]; [0x1faea]; [0x1f97a]; [0x1f979]; [0x1f626]; [0x1f627]; [0x1f628]; [0x1f630]; [0x1f625]; [0x1f622]; [0x1f62d]; [0x1f631];
  [0x1f616]; [0x1f623]; [0x1f61e]; [0x1f613]; [0x1f629]; [0x1f62b]; [0x1f971]; [0x1f624]; [0x1f621]; [0x1f620]; [0x1f92c]; [0x1f608];
  [0x1f47f]; [0x1f480]; [0x2620;0xfe0f]; [0x1f4a9]; [0x1f921]; [0x1f479]; [0x1f47a]; [0x1f47b]; [0x1f47d]; [0x1f47e]; [0x1f916]; [0x1f63a];
  [0x1f638]; [0x1f639]; [0x1f63b]; [0x1f63c]; [0x1f63d]; [0x1f640]; [0x1f63f]; [0x1f63e]; [0x1f648]; [0x1f649]; [0x1f64a]; [0x1f48c];
  [0x1f498]; [0x1f49d]; [0x1f496]; [0x1f497]; [0x1f493]; [0x1f49e]; [0x1f495]; [0x1f49f]; [0x2763;0xfe0f]; [0x1f494]; [0x2764;0xfe0f;0x200d;0x1f525]; [0x2764;0xfe0f;0x200d;0x1fa79];
  [0x2764;0xfe0f]; [0x1fa77]; [0x1f9e1]; [0x1f49b]; [0x1f49a]; [0x1f499]; [0x1fa75]; [0x1f49c]; [0x1f90e]; [0x1f5a4]; [0x1fa76]; [0x1f90d];
  [0x1f48b]; [0x1f4af]; [0x1f4a2]; [0x1faef]; [0x1f4a5]; [0x1f4ab]; [0x1f4a6]; [0x1f4a8]; [0x1f573;0xfe0f]; [0x1f4ac]; [0x1f441;0xfe0f;0x200d;0x1f5e8;0xfe0f]; [0x1f5e8;0xfe0f];
  [0x1f5ef;0xfe0f]; [0x1f4ad]; [0x1f4a4]; [0x1f44b]; [0x1f44b;0x1f3fb]; [0x1f44b;0x1f3fc]; [0x1f44b;0x1f3fd]; [0x1f44b;0x1f3fe]; [0x1f44b;0x1f3ff]; [0x1f91a]; [0x1f91a;0x1f3fb]; [0x1f91a;0x1f3fc];
  [0x1f91a;0x1f3fd]; [0x1f91a;0x1f3fe]; [0x1f91a;0x1f3ff]; [0x1f590;0xfe0f]; [0x1f590;0x1f3fb]; [0x1f590;0x1f3fc]; [0x1f590;0x1f3fd]; [0x1f590;0x1f3fe]; [0x1f590;0x1f3ff]; [0x270b]; [0x270b;0x1f3fb]; [0x270b;0x1f3fc];
  [0x270b;0x1f3fd]; [0x270b;0x1f3fe]; [0x270b;0x1f3ff]; [0x1f596]; [0x1f596;0x1f3fb]; [0x1f596;0x1f3fc]; [0x1f596;0x1f3fd]; [0x1f596;0x1f3fe]; [0x1f596;0x1f3ff]; [0x1faf1]; [0x1faf1;0x1f3fb]; [0x1faf1;0x1f3fc];
  [0x1faf1;0x1f3fd]; [0x1faf1;0x1f3fe]; [0x1faf1;0x1f3ff]; [0x1faf2]; [0x1faf2;0x1f3fb]; [0x1faf2;0x1f3fc]; [0x1faf2;0x1f3fd]; [0x1faf2;0x1f3fe]; [0x1faf2;0x1f3ff]; [0x1faf3]; [0x1faf3;0x1f3fb]; [0x1faf3;0x1f3fc];
  [0x1faf3;0x1f3fd]; [0x1faf3;0x1f3fe]; [0x1faf3;0x1f3ff]; [0x1faf4]; [0x1faf4;0x1f3fb]; [0x1faf4;0x1f3fc]; [0x1faf4;0x1f3fd]; [0x1faf4;0x1f3fe]; [0x1faf4;0x1f3ff]; [0x1faf7]; [0x1faf7;0x1f3fb]; [0x1faf7;0x1f3fc];
  [0x1faf7;0x1f3fd]; [0x1faf7;0x1f3fe]; [0x1faf7;0x1f3ff]; [0x1faf8]; [0x1faf8;0x1f3fb]; [0x1faf8;0x1f3fc]; [0x1faf8;0x1f3fd]; [0x1faf8;0x1f3fe]; [0x1faf8;0x1f3ff]; [0x1f44c]; [0x1f44c;0x1f3fb]; [0x1f44c;0x1f3fc];
  [0x1f44c;0x1f3fd]; [0x1f44c;0x1f3fe]; [0x1f44c;0x1f3ff]; [0x1f90c]; [0x1f90c;0x1f3fb]; [0x1f90c;0x1f3fc]; [0x1f90c;0x1f3fd]; [0x1f90c;0x1f3fe]; [0x1f90c;0x1f3ff]; [0x1f90f]; [0x1f90f;0x1f3fb]; [0x1f90f;0x1f3fc];
  [0x1f90f;0x1f3fd]; [0x1f90f;0x1f3fe]; [0x1f90f;0x1f3ff]; [0x270c;0xfe0f]; [0x270c;0x1f3fb]; [0x270c;0x1f3fc]; [0x270c;0x1f3fd]; [0x270c;0x1f3fe]; [0x270c;0x1f3ff]; [0x1f91e]; [0x1f91e;0x1f3fb]; [0x1f91e;0x1f3fc];
  [0x1f91e;0x1f3fd]; [0x1f91e;0x1f3fe]; [0x1f91e;0x1f3ff]; [0x1faf0]; [0x1faf0;0x1f3fb]; [0x1faf0;0x1f3fc]; [0x1faf0;0x1f3fd]; [0x1faf0;0x1f3fe]; [0x1faf0;0x1f3ff]; [0x1f91f]; [0x1f91f;0x1f3fb]; [0x1f91f;0x1f3fc];
  [0x1f91f;0x1f3fd]; [0x1f91f;0x1f3fe]; [0x1f91f;0x1f3ff]; [0x1f918]; [0x1f918;0x1f3fb]; [0x1f918;0x1f3fc]; [0x1f918;0x1f3fd]; [0x1f918;0x1f3fe]; [0x1f918;0x1f3ff]; [0x1f919]; [0x1f919;0x1f3fb]; [0x1f919;0x1f3fc];
  [0x1f919;0x1f3fd]; [0x1f919;0x1f3fe]; [0x1f919;0x1f3ff]; [0x1f448]; [0x1f448;0x1f3fb]; [0x1f448;0x1f3fc]; [0x1f448;0x1f3fd]; [0x1f448;0x1f3fe]; [0x1f448;0x1f3ff]; [0x1f449]; [0x1f449;0x1f3fb]; [0x1f449;0x1f3fc];
  [0x1f449;0x1f3fd]; [0x1f449;0x1f3fe]; [0x1f449;0x1f3ff]; [0x1f446]; [0x1f446;0x1f3fb]; [0x1f446;0x1f3fc]; [0x1f446;0x1f3fd]; [0x1f446;0x1f3fe]; [0x1f446;0x1f3ff]; [0x1f595]; [0x1f595;0x1f3fb]; [0x1f595;0x1f3fc];
  [0x1f595;0x1f3fd]; [0x1f595;0x1f3fe]; [0x1f595;0x1f3ff]; [0x1f447]; [0x1f447;0x1f3fb]; [0x1f447;0x1f3fc]; [0x1f447;0x1f3fd]; [0x1f447;0x1f3fe]; [0x1f447;0x1f3ff]; [0x261d;0xfe0f]; [0x261d;0x1f3fb]; [0x261d;0x1f3fc];
  [0x261d;0x1f3fd]; [0x261d;0x1f3fe]; [0x261d;0x1f3ff]; [0x1faf5]; [0x1faf5;0x1f3fb]; [0x1faf5;0x1f3fc]; [0x1faf5;0x1f3fd]; [0x1faf5;0x1f3fe]; [0x1faf5;0x1f3ff]; [0x1f44d]; [0x1f44d;0x1f3fb]; [0x1f44d;0x1f3fc];
  [0x1f44d;0x1f3fd]; [0x1f44d;0x1f3fe]; [0x1f44d;0x1f3ff]; [0x1f44e]; [0x1f44e;0x1f3fb]; [0x1f44e;0x1f3fc]; [0x1f44e;0x1f3fd]; [0x1f44e;0x1f3fe]; [0x1f44e;0x1f3ff]; [0x270a]; [0x270a;0x1f3fb]; [0x270a;0x1f3fc];
  [0x270a;0x1f3fd]; [0x270a;0x1f3fe]; [0x270a;0x1f3ff]; [0x1f44a]; [0x1f44a;0x1f3fb]; [0x1f44a;0x1f3fc]; [0x1f44a;0x1f3fd]; [0x1f44a;0x1f3fe]; [0x1f44a;0x1f3ff]; [0x1f91b]; [0x1f91b;0x1f3fb]; [0x1f91b;0x1f3fc];
  [0x1f91b;0x1f3fd]; [0x1f91b;0x1f3fe]; [0x1f91b;0x1f3ff]; [0x1f91c]; [0x1f91c;0x1f3fb]; [0x1f91c;0x1f3fc]; [0x1f91c;0x1f3fd]; [0x1f91c;0x1f3fe]; [0x1f91c;0x1f3ff]; [0x1f44f]; [0x1f44f;0x1f3fb]; [0x1f44f;0x1f3fc];
  [0x1f44f;0x1f3fd]; [0x1f44f;0x1f3fe]; [0x1f44f;0x1f3ff]; [0x1f64c]; [0x1f64c;0x1f3fb]; [0x1f64c;0x1f3fc]; [0x1f64c;0x1f3fd]; [0x1f64c;0x1f3fe]; [0x1f64c;0x1f3ff]; [0x1faf6]; [0x1faf6;0x1f3fb]; [0x1faf6;0x1f3fc];
  [0x1faf6;0x1f3fd]; [0x1faf6;0x1f3fe]; [0x1faf6;0x1f3ff]; [0x1f450]; [0x1f450;0x1f3fb]; [0x1f450;0x1f3fc]; [0x1f450;0x1f3fd]; [0x1f450;0x1f3fe]; [0x1f450;0x1f3ff]; [0x1f932]; [0x1f932;0x1f3fb]; [0x1f932;0x1f3fc];
  [0x1f932;0x1f3fd]; [0x1f932;0x1f3fe]; [0x1f932;0x1f3ff]; [0x1f91d]; [0x1f91d;0x1f3fb]; [0x1f91d;0x1f3fc]; [0x1f91d;0x1f3fd]; [0x1f91d;0x1f3fe]; [0x1f91d;0x1f3ff]; [0x1faf1;0x1f3fb;0x200d;0x1faf2;0x1f3fc]; [0x1faf1;0x1f3fb;0x200d;0x1faf2;0x1f3fd]; [0x1faf1;0x1f3fb;0x200d;0x1faf2;0x1f3fe];
  [0x1faf1;0x1f3fb;0x200d;0x1faf2;0x1f3ff]; [0x1faf1;0x1f3fc;0x200d;0x1faf2;0x1f3fb]; [0x1faf1;0x1f3fc;0x200d;0x1faf2;0x1f3fd]; [0x1faf1;0x1f3fc;0x200d;0x1faf2;0x1f3fe]; [0x1faf1;0x1f3fc;0x200d;0x1faf2;0x1f3ff]; [0x1faf1;0x1f3fd;0x200d;0x1faf2;0x1f3fb]; [0x1faf1;0x1f3fd;0x200d;0x1faf2;0x1f3fc]; [0x1faf1;0x1f3fd;0x200d;0x1faf2;0x1f3fe]; [0x1faf1;0x1f3fd;0x200d;0x1faf2;0x1f3ff]; [0x1faf1;0x1f3fe;0x200d;0x1faf2;0x1f3fb]; [0x1faf1;0x1f3fe;0x200d;0x1faf2;0x1f3fc]; [0x1faf1;0x1f3fe;0x200d;0x1faf2;0x1f3fd];
  [0x1faf1;0x1f3fe;0x200d;0x1faf2;0x1f3ff]; [0x1faf1;0x1f3ff;0x200d;0x1faf2;0x1f3fb]; [0x1faf1;0x1f3ff;0x200d;0x1faf2;0x1f3fc]; [0x1faf1;0x1f3ff;0x200d;0x1faf2;0x1f3fd]; [0x1faf1;0x1f3ff;0x200d;0x1faf2;0x1f3fe]; [0x1f64f]; [0x1f64f;0x1f3fb]; [0x1f64f;0x1f3fc]; [0x1f64f;0x1f3fd]; [0x1f64f;0x1f3fe]; [0x1f64f;0x1f3ff]; [0x270d;0xfe0f];
  [0x270d;0x1f3fb]; [0x270d;0x1f3fc]; [0x270d;0x1f3fd]; [0x270d;0x1f3fe]; [0x270d;0x1f3ff]; [0x1f485]; [0x1f485;0x1f3fb]; [0x1f485;0x1f3fc]; [0x1f485;0x1f3fd]; [0x1f485;0x1f3fe]; [0x1f485;0x1f3ff]; [0x1f933];
  [0x1f933;0x1f3fb]; [0x1f933;0x1f3fc]; [0x1f933;0x1f3fd]; [0x1f933;0x1f3fe]; [0x1f933;0x1f3ff]; [0x1f4aa]; [0x1f4aa;0x1f3fb]; [0x1f4aa;0x1f3fc]; [0x1f4aa;0x1f3fd]; [0x1f4aa;0x1f3fe]; [0x1f4aa;0x1f3ff]; [0x1f9be];
  [0x1f9bf]; [0x1f9b5]; [0x1f9b5;0x1f3fb]; [0x1f9b5;0x1f3fc]; [0x1f9b5;0x1f3fd]; [0x1f9b5;0x1f3fe]; [0x1f9b5;0x1f3ff]; [0x1f9b6]; [0x1f9b6;0x1f3fb]; [0x1f9b6;0x1f3fc]; [0x1f9b6;0x1f3fd]; [0x1f9b6;0x1f3fe];
  [0x1f9b6;0x1f3ff]; [0x1f442]; [0x1f442;0x1f3fb]; [0x1f442;0x1f3fc]; [0x1f442;0x1f3fd]; [0x1f442;0x1f3fe]; [0x1f442;0x1f3ff]; [0x1f9bb]; [0x1f9bb;0x1f3fb]; [0x1f9bb;0x1f3fc]; [0x1f9bb;0x1f3fd]; [0x1f9bb;0x1f3fe];
  [0x1f9bb;0x1f3ff]; [0x1f443]; [0x1f443;0x1f3fb]; [0x1f443;0x1f3fc]; [0x1f443;0x1f3fd]; [0x1f443;0x1f3fe]; [0x1f443;0x1f3ff]; [0x1f9e0]; [0x1fac0]; [0x1fac1]; [0x1f9b7]; [0x1f9b4];
  [0x1f440]; [0x1f441;0xfe0f]; [0x1f445]; [0x1f444]; [0x1fae6]; [0x1f476]; [0x1f476;0x1f3fb]; [0x1f476;0x1f3fc]; [0x1f476;0x1f3fd]; [0x1f476;0x1f3fe]; [0x1f476;0x1f3ff]; [0x1f9d2];
  [0x1f9d2;0x1f3fb]; [0x1f9d2;0x1f3fc]; [0x1f9d2;0x1f3fd]; [0x1f9d2;0x1f3fe]; [0x1f9d2;0x1f3ff]; [0x1f466]; [0x1f466;0x1f3fb]; [0x1f466;0x1f3fc]; [0x1f466;0x1f3fd]; [0x1f466;0x1f3fe]; [0x1f466;0x1f3ff]; [0x1f467];
  [0x1f467;0x1f3fb]; [0x1f467;0x1f3fc]; [0x1f467;0x1f3fd]; [0x1f467;0x1f3fe]; [0x1f467;0x1f3ff]; [0x1f9d1]; [0x1f9d1;0x1f3fb]; [0x1f9d1;0x1f3fc]; [0x1f9d1;0x1f3fd]; [0x1f9d1;0x1f3fe]; [0x1f9d1;0x1f3ff]; [0x1f471];
  [0x1f471;0x1f3fb]; [0x1f471;0x1f3fc]; [0x1f471;0x1f3fd]; [0x1f471;0x1f3fe]; [0x1f471;0x1f3ff]; [0x1f468]; [0x1f468;0x1f3fb]; [0x1f468;0x1f3fc]; [0x1f468;0x1f3fd]; [0x1f468;0x1f3fe]; [0x1f468;0x1f3ff]; [0x1f9d4];
  [0x1f9d4;0x1f3fb]; [0x1f9d4;0x1f3fc]; [0x1f9d4;0x1f3fd]; [0x1f9d4;0x1f3fe]; [0x1f9d4;0x1f3ff]; [0x1f9d4;0x200d;0x2642;0xfe0f]; [0x1f9d4;0x1f3fb;0x200d;0x2642;0xfe0f]; [0x1f9d4;0x1f3fc;0x200d;0x2642;0xfe0f]; [0x1f9d4;0x1f3fd;0x200d;0x2642;0xfe0f]; [0x1f9d4;0x1f3fe;0x200d;0x2642;0xfe0f]; [0x1f9d4;0x1f3ff;0x200d;0x2642;0xfe0f]; [0x1f9d4;0x200d;0x2640;0xfe0f];
  [0x1f9d4;0x1f3fb;0x200d;0x2640;0xfe0f]; [0x1f9d4;0x1f3fc;0x200d;0x2640;0xfe0f]; [0x1f9d4;0x1f3fd;0x200d;0x2640;0xfe0f]; [0x1f9d4;0x1f3fe;0x200d;0x2640;0xfe0f]; [0x1f9d4;0x1f3ff;0x200d;0x2640;0xfe0f]; [0x1f468;0x200d;0x1f9b0]; [0x1f468;0x1f3fb;0x200d;0x1f9b0]; [0x1f468;0x1f3fc;0x200d;0x1f9b0]; [0x1f468;0x1f3fd;0x200d;0x1f9b0]; [0x1f468;0x1f3fe;0x200d;0x1f9b0]; [0x1f468;0x1f3ff;0x200d;0x1f9b0]; [0x1f468;0x200d;0x1f9b1];
  [0x1f468;0x1f3fb;0x200d;0x1f9b1]; [0x1f468;0x1f3fc;0x200d;0x1f9b1]; [0x1f468;0x1f3fd;0x200d;0x1f9b1]; [0x1f468;0x1f3fe;0x200d;0x1f9b1]; [0x1f468;0x1f3ff;0x200d;0x1f9b1]; [0x1f468;0x200d;0x1f9b3]; [0x1f468;0x1f3fb;0x200d;0x1f9b3]; [0x1f468;0x1f3fc;0x200d;0x1f9b3]; [0x1f468;0x1f3fd;0x200d;0x1f9b3]; [0x1f468;0x1f3fe;0x200d;0x1f9b3]; [0x1f468;0x1f3ff;0x200d;0x1f9b3]; [0x1f468;0x200d;0x1f9b2];
  [0x1f468;0x1f3fb;0x200d;0x1f9b2]; [0x1f468;0x1f3fc;0x200d;0x1f9b2]; [0x1f468;0x1f3fd;0x200d;0x1f9b2]; [0x1f468;0x1f3fe;0x200d;0x1f9b2]; [0x1f468;0x1f3ff;0x200d;0x1f9b2]; [0x1f469]; [0x1f469;0x1f3fb]; [0x1f469;0x1f3fc]; [0x1f469;0x1f3fd]; [0x1f469;0x1f3fe]; [0x1f469;0x1f3ff]; [0x1f469;0x200d;0x1f9b0];
  [0x1f469;0x1f3fb;0x200d;0x1f9b0]; [0x1f469;0x1f3fc;0x200d;0x1f9b0]; [0x1f469;0x1f3fd;0x200d;0x1f9b0]; [0x1f469;0x1f3fe;0x200d;0x1f9b0]; [0x1f469;0x1f3ff;0x200d;0x1f9b0]; [0x1f9d1;0x200d;0x1f9b0]; [0x1f9d1;0x1f3fb;0x200d;0x1f9b0]; [0x1f9d1;0x1f3fc;0x200d;0x1f9b0]; [0x1f9d1;0x1f3fd;0x200d;0x1f9b0]; [0x1f9d1;0x1f3fe;0x200d;0x1f9b0]; [0x1f9d1;0x1f3ff;0x200d;0x1f9b0]; [0x1f469;0x200d;0x1f9b1];
  [0x1f469;0x1f3fb;0x200d;0x1f9b1]; [0x1f469;0x1f3fc;0x200d;0x1f9b1]; [0x1f469;0x1f3fd;0x200d;0x1f9b1]; [0x1f469;0x1f3fe;0x200d;0x1f9b1]; [0x1f469;0x1f3ff;0x200d;0x1f9b1]; [0x1f9d1;0x200d;0x1f9b1]; [0x1f9d1;0x1f3fb;0x200d;0x1f9b1]; [0x1f9d1;0x1f3fc;0x200d;0x1f9b1]; [0x1f9d1;0x1f3fd;0x200d;0x1f9b1]; [0x1f9d1;0x1f3fe;0x200d;0x1f9b1]; [0x1f9d1;0x1f3ff;0x200d;0x1f9b1]; [0x1f469;0x200d;0x1f9b3];
  [0x1f469;0x1f3fb;0x200d;0x1f9b3]; [0x1f469;0x1f3fc;0x200d;0x1f9b3]; [0x1f469;0x1f3fd;0x200d;0x1f9b3]; [0x1f469;0x1f3fe;0x200d;0x1f9b3]; [0x1f469;0x1f3ff;0x200d;0x1f9b3]; [0x1f9d1;0x200d;0x1f9b3]; [0x1f9d1;0x1f3fb;0x200d;0x1f9b3]; [0x1f9d1;0x1f3fc;0x200d;0x1f9b3]; [0x1f9d1;0x1f3fd;0x200d;0x1f9b3]; [0x1f9d1;0x1f3fe;0x200d;0x1f9b3]; [0x1f9d1;0x1f3ff;0x200d;0x1f9b3]; [0x1f469;0x200d;0x1f9b2];
  [0x1f469;0x1f3fb;0x200d;0x1f9b2]; [0x1f469;0x1f3fc;0x200d;0x1f9b2]; [0x1f469;0x1f3fd;0x200d;0x1f9b2]; [0x1f469;0x1f3fe;0x200d;0x1f9b2]; [0x1f469;0x1f3ff;0x200d;0x1f9b2]; [0x1f9d1;0x200d;0x1f9b2]; [0x1f9d1;0x1f3fb;0x200d;0x1f9b2]; [0x1f9d1;0x1f3fc;0x200d;0x1f9b2]; [0x1f9d1;0x1f3fd;0x200d;0x1f9b2]; [0x1f9d1;0x1f3fe;0x200d;0x1f9b2]; [0x1f9d1;0x1f3ff;0x200d;0x1f9b2]; [0x1f471;0x200d;0x2640;0xfe0f];
  [0x1f471;0x1f3fb;0x200d;0x2640;0xfe0f]; [0x1f471;0x1f3fc;0x200d;0x2640;0xfe0f]; [0x1f471;0x1f3fd;0x200d;0x2640;0xfe0f]; [0x1f471;0x1f3fe;0x200d;0x2640;0xfe0f]; [0x1f471;0x1f3ff;0x200d;0x2640;0xfe0f]; [0x1f471;0x200d;0x2642;0xfe0f]; [0x1f471;0x1f3fb;0x200d;0x2642;0xfe0f]; [0x1f471;0x1f3fc;0x200d;0x2642;0xfe0f]; [0x1f471;0x1f3fd;0x200d;0x2642;0xfe0f]; [0x1f471;0x1f3fe;0x200d;0x2642;0xfe0f]; [0x1f471;0x1f3ff;0x200d;0x2642;0xfe0f]; [0x1f9d3];
  [0x1f9d3;0x1f3fb]; [0x1f9d3;0x1f3fc]; [0x1f9d3;0x1f3fd]; [0x1f9d3;0x1f3fe]; [0x1f9d3;0x1f3ff]; [0x1f474]; [0x1f474;0x1f3fb]; [0x1f474;0x1f3fc]; [0x1f474;0x1f3fd]; [0x1f474;0x1f3fe]; [0x1f474;0x1f3ff]; [0x1f475];
  [0x1f475;0x1f3fb]; [0x1f475;0x1f3fc]; [0x1f475;0x1f3fd]; [0x1f475;0x1f3fe]; [0x1f475;0x1f3ff]; [0x1f64d]; [0x1f64d;0x1f3fb]; [0x1f64d;0x1f3fc]; [0x1f64d;0x1f3fd]; [0x1f64d;0x1f3fe]; [0x1f64d;0x1f3ff]; [0x1f64d;0x200d;0x2642;0xfe0f];
  [0x1f64d;0x1f3fb;0x200d;0x2642;0xfe0f]; [0x1f64d;0x1f3fc;0x200d;0x2642;0xfe0f]; [0x1f64d;0x1f3fd;0x200d;0x2642;0xfe0f]; [0x1f64d;0x1f3fe;0x200d;0x2642;0xfe0f]; [0x1f64d;0x1f3ff;0x200d;0x2642;0xfe0f]; [0x1f64d;0x200d;0x2640;0xfe0f]; [0x1f64d;0x1f3fb;0x200d;0x2640;0xfe0f]; [0x1f64d;0x1f3fc;0x200d;0x2640;0xfe0f]; [0x1f64d;0x1f3fd;0x200d;0x2640;0xfe0f]; [0x1f64d;0x1f3fe;0x200d;0x2640;0xfe0f]; [0x1f64d;0x1f3ff;0x200d;0x2640;0xfe0f]; [0x1f64e];
  [0x1f64e;0x1f3fb]; [0x1f64e;0x1f3fc]; [0x1f64e;0x1f3fd]; [0x1f64e;0x1f3fe]; [0x1f64e;0x1f3ff]; [0x1f64e;0x200d;0x2642;0xfe0f]; [0x1f64e;0x1f3fb;0x200d;0x2642;0xfe0f]; [0x1f64e;0x1f3fc;0x200d;0x2642;0xfe0f]; [0x1f64e;0x1f3fd;0x200d;0x2642;0xfe0f]; [0x1f64e;0x1f3fe;0x200d;0x2642;0xfe0f]; [0x1f64e;0x1f3ff;0x200d;0x2642;0xfe0f]; [0x1f64e;0x200d;0x2640;0xfe0f];
  [0x1f64e;0x1f3fb;0x200d;0x2640;0xfe0f]; [0x1f64e;0x1f3fc;0x200d;0x2640;0xfe0f]; [0x1f64e;0x1f3fd;0x200d;0x2640;0xfe0f]; [0x1f64e;0x1f3fe;0x200d;0x2640;0xfe0f]; [0x1f64e;0x1f3ff;0x200d;0x2640;0xfe0f]; [0x1f645]; [0x1f645;0x1f3fb]; [0x1f645;0x1f3fc]; [0x1f645;0x1f3fd]; [0x1f645;0x1f3fe]; [0x1f645;0x1f3ff]; [0x1f645;0x200d;0x2642;0xfe0f];
  [0x1f645;0x1f3fb;0x200d;0x2642;0xfe0f]; [0x1f645;0x1f3fc;0x200d;0x2642;0xfe0f]; [0x1f645;0x1f3fd;0x200d;0x2642;0xfe0f]; [0x1f645;0x1f3fe;0x200d;0x2642;0xfe0f]; [0x1f645;0x1f3ff;0x200d;0x2642;0xfe0f]; [0x1f645;0x200d;0x2640;0xfe0f]; [0x1f645;0x1f3fb;0x200d;0x2640;0xfe0f]; [0x1f645;0x1f3fc;0x200d;0x2640;0xfe0f]; [0x1f645;0x1f3fd;0x200d;0x2640;0xfe0f]; [0x1f645;0x1f3fe;0x200d;0x2640;0xfe0f]; [0x1f645;0x1f3ff;0x200d;0x2640;0xfe0f]; [0x1f646];
  [0x1f646;0x1f3fb]; [0x1f646;0x1f3fc]; [0x1f646;0x1f3fd]; [0x1f646;0x1f3fe]; [0x1f646;0x1f3ff]; [0x1f646;0x200d;0x2642;0xfe0f]; [0x1f646;0x1f3fb;0x200d;0x2642;0xfe0f]; [0x1f646;0x1f3fc;0x200d;0x2642;0xfe0f]; [0x1f646;0x1f3fd;0x200d;0x2642;0xfe0f]; [0x1f646;0x1f3fe;0x200d;0x2642;0xfe0f]; [0x1f646;0x1f3ff;0x200d;0x2642;0xfe0f]; [0x1f646;0x200d;0x2640;0xfe0f];
  [0x1f646;0x1f3fb;0x200d;0x2640;0xfe0f]; [0x1f646;0x1f3fc;0x200d;0x2640;0xfe0f]; [0x1f646;0x1f3fd;0x200d;0x2640;0xfe0f]; [0x1f646;0x1f3fe;0x200d;0x2640;0xfe0f]; [0x1f646;0x1f3ff;0x200d;0x2640;0xfe0f]; [0x1f481]; [0x1f481;0x1f3fb]; [0x1f481;0x1f3fc]; [0x1f481;0x1f3fd]; [0x1f481;0x1f3fe]; [0x1f481;0x1f3ff]; [0x1f481;0x200d;0x2642;0xfe0f];
  [0x1f481;0x1f3fb;0x200d;0x2642;0xfe0f]; [0x1f481;0x1f3fc;0x200d;0x2642;0xfe0f]; [0x1f481;0x1f3fd;0x200d;0x2642;0xfe0f]; [0x1f481;0x1f3fe;0x200d;0x2642;0xfe0f]; [0x1f481;0x1f3ff;0x200d;0x2642;0xfe0f]; [0x1f481;0x200d;0x2640;0xfe0f]; [0x1f481;0x1f3fb;0x200d;0x2640;0xfe0f]; [0x1f481;0x1f3fc;0x200d;0x2640;0xfe0f]; [0x1f481;0x1f3fd;0x200d;0x2640;0xfe0f]; [0x1f481;0x1f3fe;0x200d;0x2640;0xfe0f]; [0x1f481;0x1f3ff;0x200d;0x2640;0xfe0f]; [0x1f64b];
  [0x1f64b;0x1f3fb]; [0x1f64b;0x1f3fc]; [0x1f64b;0x1f3fd]; [0x1f64b;0x1f3fe]; [0x1f64b;0x1f3ff]; [0x1f64b;0x200d;0x2642;0xfe0f]; [0x1f64b;0x1f3fb;0x200d;0x2642;0xfe0f]; [0x1f64b;0x1f3fc;0x200d;0x2642;0xfe0f]; [0x1f64b;0x1f3fd;0x200d;0x2642;0xfe0f]; [0x1f64b;0x1f3fe;0x200d;0x2642;0xfe0f]; [0x1f64b;0x1f3ff;0x200d;0x2642;0xfe0f]; [0x1f64b;0x200d;0x2640;0xfe0f];
  [0x1f64b;0x1f3fb;0x200d;0x2640;0xfe0f]; [0x1f64b;0x1f3fc;0x200d;0x2640;0xfe0f]; [0x1f64b;0x1f3fd;0x200d;0x2640;0xfe0f]; [0x1f64b;0x1f3fe;0x200d;0x2640;0xfe0f]; [0x1f64b;0x1f3ff;0x200d;0x2640;0xfe0f]; [0x1f9cf]; [0x1f9cf;0x1f3fb]; [0x1f9cf;0x1f3fc]; [0x1f9cf;0x1f3fd]; [0x1f9cf;0x1f3fe]; [0x1f9cf;0x1f3ff]; [0x1f9cf;0x200d;0x2642;0xfe0f];
  [0x1f9cf;0x1f3fb;0x200d;0x2642;0xfe0f]; [0x1f9cf;0x1f3fc;0x200d;0x2642;0xfe0f]; [0x1f9cf;0x1f3fd;0x200d;0x2642;0xfe0f]; [0x1f9cf;0x1f3fe;0x200d;0x2642;0xfe0f]; [0x1f9cf;0x1f3ff;0x200d;0x2642;0xfe0f]; [0x1f9cf;0x200d;0x2640;0xfe0f]; [0x1f9cf;0x1f3fb;0x200d;0x2640;0xfe0f]; [0x1f9cf;0x1f3fc;0x200d;0x2640;0xfe0f]; [0x1f9cf;0x1f3fd;0x200d;0x2640;0xfe0f]; [0x1f9cf;0x1f3fe;0x200d;0x2640;0xfe0f]; [0x1f9cf;0x1f3ff;0x200d;0x2640;0xfe0f]; [0x1f647];
  [0x1f647;0x1f3fb]; [0x1f647;0x1f3fc]; [0x1f647;0x1f3fd]; [0x1f647;0x1f3fe]; [0x1f647;0x1f3ff]; [0x1f647;0x200d;0x2642;0xfe0f]; [0x1f647;0x1f3fb;0x200d;0x2642;0xfe0f]; [0x1f647;0x1f3fc;0x200d;0x2642;0xfe0f]; [0x1f647;0x1f3fd;0x200d;0x2642;0xfe0f]; [0x1f647;0x1f3fe;0x200d;0x2642;0xfe0f]; [0x1f647;0x1f3ff;0x200d;0x2642;0xfe0f]; [0x1f647;0x200d;0x2640;0xfe0f];
  [0x1f647;0x1f3fb;0x200d;0x2640;0xfe0f]; [0x1f647;0x1f3fc;0x200d;0x2640;0xfe0f]; [0x1f647;0x1f3fd;0x200d;0x2640;0xfe0f]; [0x1f647;0x1f3fe;0x200d;0x2640;0xfe0f]; [0x1f647;0x1f3ff;0x200d;0x2640;0xfe0f]; [0x1f926]; [0x1f926;0x1f3fb]; [0x1f926;0x1f3fc]; [0x1f926;0x1f3fd]; [0x1f926;0x1f3fe]; [0x1f926;0x1f3ff]; [0x1f926;0x200d;0x2642;0xfe0f];
  [0x1f926;0x1f3fb;0x200d;0x2642;0xfe0f]; [0x1f926;0x1f3fc;0x200d;0x2642;0xfe0f]; [0x1f926;0x1f3fd;0x200d;0x2642;0xfe0f]; [0x1f926;0x1f3fe;0x200d;0x2642;0xfe0f]; [0x1f926;0x1f3ff;0x200d;0x2642;0xfe0f]; [0x1f926;0x200d;0x2640;0xfe0f]; [0x1f926;0x1f3fb;0x200d;0x2640;0xfe0f]; [0x1f926;0x1f3fc;0x200d;0x2640;0xfe0f]; [0x1f926;0x1f3fd;0x200d;0x2640;0xfe0f]; [0x1f926;0x1f3fe;0x200d;0x2640;0xfe0f]; [0x1f926;0x1f3ff;0x200d;0x2640;0xfe0f]; [0x1f937];
  [0x1f937;0x1f3fb]; [0x1f937;0x1f3fc]; [0x1f937;0x1f3fd]; [0x1f937;0x1f3fe]; [0x1f937;0x1f3ff]; [0x1f937;0x200d;0x2642;0xfe0f]; [0x1f937;0x1f3fb;0x200d;0x2642;0xfe0f]; [0x1f937;0x1f3fc;0x200d;0x2642;0xfe0f]; [0x1f937;0x1f3fd;0x200d;0x2642;0xfe0f]; [0x1f937;0x1f3fe;0x200d;0x2642;0xfe0f]; [0x1f937;0x1f3ff;0x200d;0x2642;0xfe0f]; [0x1f937;0x200d;0x2640;0xfe0f];
  [0x1f937;0x1f3fb;0x200d;0x2640;0xfe0f]; [0x1f937;0x1f3fc;0x200d;0x2640;0xfe0f]; [0x1f937;0x1f3fd;0x200d;0x2640;0xfe0f]; [0x1f937;0x1f3fe;0x200d;0x2640;0xfe0f]; [0x1f937;0x1f3ff;0x200d;0x2640;0xfe0f]; [0x1f9d1;0x200d;0x2695;0xfe0f]; [0x1f9d1;0x1f3fb;0x200d;0x2695;0xfe0f]; [0x1f9d1;0x1f3fc;0x200d;0x2695;0xfe0f]; [0x1f9d1;0x1f3fd;0x200d;0x2695;0xfe0f]; [0x1f9d1;0x1f3fe;0x200d;0x2695;0xfe0f]; [0x1f9d1;0x1f3ff;0x200d;0x2695;0xfe0f]; [0x1f468;0x200d;0x2695;0xfe0f];
  [0x1f468;0x1f3fb;0x200d;0x2695;0xfe0f]; [0x1f468;0x1f3fc;0x200d;0x2695;0xfe0f]; [0x1f468;0x1f3fd;0x200d;0x2695;0xfe0f]; [0x1f468;0x1f3fe;0x200d;0x2695;0xfe0f]; [0x1f468;0x1f3ff;0x200d;0x2695;0xfe0f]; [0x1f469;0x200d;0x2695;0xfe0f]; [0x1f469;0x1f3fb;0x200d;0x2695;0xfe0f]; [0x1f469;0x1f3fc;0x200d;0x2695;0xfe0f]; [0x1f469;0x1f3fd;0x200d;0x2695;0xfe0f]; [0x1f469;0x1f3fe;0x200d;0x2695;0xfe0f]; [0x1f469;0x1f3ff;0x200d;0x2695;0xfe0f]; [0x1f9d1;0x200d;0x1f393];
  [0x1f9d1;0x1f3fb;0x200d;0x1f393]; [0x1f9d1;0x1f3fc;0x200d;0x1f393]; [0x1f9d1;0x1f3fd;0x200d;0x1f393]; [0x1f9d1;0x1f3fe;0x200d;0x1f393]; [0x1f9d1;0x1f3ff;0x200d;0x1f393]; [0x1f468;0x200d;0x1f393]; [0x1f468;0x1f3fb;0x200d;0x1f393]; [0x1f468;0x1f3fc;0x200d;0x1f393]; [0x1f468;0x1f3fd;0x200d;0x1f393]; [0x1f468;0x1f3fe;0x200d;0x1f393]; [0x1f468;0x1f3ff;0x200d;0x1f393]; [0x1f469;0x200d;0x1f393];
  [0x1f469;0x1f3fb;0x200d;0x1f393]; [0x1f469;0x1f3fc;0x200d;0x1f393]; [0x1f469;0x1f3fd;0x200d;0x1f393]; [0x1f469;0x1f3fe;0x200d;0x1f393]; [0x1f469;0x1f3ff;0x200d;0x1f393]; [0x1f9d1;0x200d;0x1f3eb]; [0x1f9d1;0x1f3fb;0x200d;0x1f3eb]; [0x1f9d1;0x1f3fc;0x200d;0x1f3eb]; [0x1f9d1;0x1f3fd;0x200d;0x1f3eb]; [0x1f9d1;0x1f3fe;0x200d;0x1f3eb]; [0x1f9d1;0x1f3ff;0x200d;0x1f3eb]; [0x1f468;0x200d;0x1f3eb];
  [0x1f468;0x1f3fb;0x200d;0x1f3eb]; [0x1f468;0x1f3fc;0x200d;0x1f3eb]; [0x1f468;0x1f3fd;0x200d;0x1f3eb]; [0x1f468;0x1f3fe;0x200d;0x1f3eb]; [0x1f468;0x1f3ff;0x200d;0x1f3eb]; [0x1f469;0x200d;0x1f3eb]; [0x1f469;0x1f3fb;0x200d;0x1f3eb]; [0x1f469;0x1f3fc;0x200d;0x1f3eb]; [0x1f469;0x1f3fd;0x200d;0x1f3eb]; [0x1f469;0x1f3fe;0x200d;0x1f3eb]; [0x1f469;0x1f3ff;0x200d;0x1f3eb]; [0x1f9d1;0x200d;0x2696;0xfe0f];
  [0x1f9d1;0x1f3fb;0x200d;0x2696;0xfe0f]; [0x1f9d1;0x1f3fc;0x200d;0x2696;0xfe0f]; [0x1f9d1;0x1f3fd;0x200d;0x2696;0xfe0f]; [0x1f9d1;0x1f3fe;0x200d;0x2696;0xfe0f]; [0x1f9d1;0x1f3ff;0x200d;0x2696;0xfe0f]; [0x1f468;0x200d;0x2696;0xfe0f]; [0x1f468;0x1f3fb;0x200d;0x2696;0xfe0f]; [0x1f468;0x1f3fc;0x200d;0x2696;0xfe0f]; [0x1f468;0x1f3fd;0x200d;0x2696;0xfe0f]; [0x1f468;0x1f3fe;0x200d;0x2696;0xfe0f]; [0x1f468;0x1f3ff;0x200d;0x2696;0xfe0f]; [0x1f469;0x200d;0x2696;0xfe0f];
  [0x1f469;0x1f3fb;0x200d;0x2696;0xfe0f]; [0x1f469;0x1f3fc;0x200d;0x2696;0xfe0f]; [0x1f469;0x1f3fd;0x200d;0x2696;0xfe0f]; [0x1f469;0x1f3fe;0x200d;0x2696;0xfe0f]; [0x1f469;0x1f3ff;0x200d;0x2696;0xfe0f]; [0x1f9d1;0x200d;0x1f33e]; [0x1f9d1;0x1f3fb;0x200d;0x1f33e]; [0x1f9d1;0x1f3fc;0x200d;0x1f33e]; [0x1f9d1;0x1f3fd;0x200d;0x1f33e]; [0x1f9d1;0x1f3fe;0x200d;0x1f33e]; [0x1f9d1;0x1f3ff;0x200d;0x1f33e]; [0x1f468;0x200d;0x1f33e];
  [0x1f468;0x1f3fb;0x200d;0x1f33e]; [0x1f468;0x1f3fc;0x200d;0x1f33e]; [0x1f468;0x1f3fd;0x200d;0x1f33e]; [0x1f468;0x1f3fe;0x200d;0x1f33e]; [0x1f468;0x1f3ff;0x200d;0x1f33e]; [0x1f469;0x200d;0x1f33e]; [0x1f469;0x1f3fb;0x200d;0x1f33e]; [0x1f469;0x1f3fc;0x200d;0x1f33e]; [0x1f469;0x1f3fd;0x200d;0x1f33e]; [0x1f469;0x1f3fe;0x200d;0x1f33e]; [0x1f469;0x1f3ff;0x200d;0x1f33e]; [0x1f9d1;0x200d;0x1f373];
  [0x1f9d1;0x1f3fb;0x200d;0x1f373]; [0x1f9d1;0x1f3fc;0x200d;0x1f373]; [0x1f9d1;0x1f3fd;0x200d;0x1f373]; [0x1f9d1;0x1f3fe;0x200d;0x1f373]; [0x1f9d1;0x1f3ff;0x200d;0x1f373]; [0x1f468;0x200d;0x1f373]; [0x1f468;0x1f3fb;0x200d;0x1f373]; [0x1f468;0x1f3fc;0x200d;0x1f373]; [0x1f468;0x1f3fd;0x200d;0x1f373]; [0x1f468;0x1f3fe;0x200d;0x1f373]; [0x1f468;0x1f3ff;0x200d;0x1f373]; [0x1f469;0x200d;0x1f373];
  [0x1f469;0x1f3fb;0x200d;0x1f373]; [0x1f469;0x1f3fc;0x200d;0x1f373]; [0x1f469;0x1f3fd;0x200d;0x1f373]; [0x1f469;0x1f3fe;0x200d;0x1f373]; [0x1f469;0x1f3ff;0x200d;0x1f373]; [0x1f9d1;0x200d;0x1f527]; [0x1f9d1;0x1f3fb;0x200d;0x1f527]; [0x1f9d1;0x1f3fc;0x200d;0x1f527]; [0x1f9d1;0x1f3fd;0x200d;0x1f527]; [0x1f9d1;0x1f3fe;0x200d;0x1f527]; [0x1f9d1;0x1f3ff;0x200d;0x1f527]; [0x1f468;0x200d;0x1f527];
  [0x1f468;0x1f3fb;0x200d;0x1f527]; [0x1f468;0x1f3fc;0x200d;0x1f527]; [0x1f468;0x1f3fd;0x200d;0x1f527]; [0x1f468;0x1f3fe;0x200d;0x1f527]; [0x1f468;0x1f3ff;0x200d;0x1f527]; [0x1f469;0x200d;0x1f527]; [0x1f469;0x1f3fb;0x200d;0x1f527]; [0x1f469;0x1f3fc;0x200d;0x1f527]; [0x1f469;0x1f3fd;0x200d;0x1f527]; [0x1f469;0x1f3fe;0x200d;0x1f527]; [0x1f469;0x1f3ff;0x200d;0x1f527]; [0x1f9d1;0x200d;0x1f3ed];
  [0x1f9d1;0x1f3fb;0x200d;0x1f3ed]; [0x1f9d1;0x1f3fc;0x200d;0x1f3ed]; [0x1f9d1;0x1f3fd;0x200d;0x1f3ed]; [0x1f9d1;0x1f3fe;0x200d;0x1f3ed]; [0x1f9d1;0x1f3ff;0x200d;0x1f3ed]; [0x1f468;0x200d;0x1f3ed]; [0x1f468;0x1f3fb;0x200d;0x1f3ed]; [0x1f468;0x1f3fc;0x200d;0x1f3ed]; [0x1f468;0x1f3fd;0x200d;0x1f3ed]; [0x1f468;0x1f3fe;0x200d;0x1f3ed]; [0x1f468;0x1f3ff;0x200d;0x1f3ed]; [0x1f469;0x200d;0x1f3ed];
  [0x1f469;0x1f3fb;0x200d;0x1f3ed]; [0x1f469;0x1f3fc;0x200d;0x1f3ed]; [0x1f469;0x1f3fd;0x200d;0x1f3ed]; [0x1f469;0x1f3fe;0x200d;0x1f3ed]; [0x1f469;0x1f3ff;0x200d;0x1f3ed]; [0x1f9d1;0x200d;0x1f4bc]; [0x1f9d1;0x1f3fb;0x200d;0x1f4bc]; [0x1f9d1;0x1f3fc;0x200d;0x1f4bc]; [0x1f9d1;0x1f3fd;0x200d;0x1f4bc]; [0x1f9d1;0x1f3fe;0x200d;0x1f4bc]; [0x1f9d1;0x1f3ff;0x200d;0x1f4bc]; [0x1f468;0x200d;0x1f4bc];
  [0x1f468;0x1f3fb;0x200d;0x1f4bc]; [0x1f468;0x1f3fc;0x200d;0x1f4bc]; [0x1f468;0x1f3fd;0x200d;0x1f4bc]; [0x1f468;0x1f3fe;0x200d;0x1f4bc]; [0x1f468;0x1f3ff;0x200d;0x1f4bc]; [0x1f469;0x200d;0x1f4bc]; [0x1f469;0x1f3fb;0x200d;0x1f4bc]; [0x1f469;0x1f3fc;0x200d;0x1f4bc]; [0x1f469;0x1f3fd;0x200d;0x1f4bc]; [0x1f469;0x1f3fe;0x200d;0x1f4bc]; [0x1f469;0x1f3ff;0x200d;0x1f4bc]; [0x1f9d1;0x200d;0x1f52c];
  [0x1f9d1;0x1f3fb;0x200d;0x1f52c]; [0x1f9d1;0x1f3fc;0x200d;0x1f52c]; [0x1f9d1;0x1f3fd;0x200d;0x1f52c]; [0x1f9d1;0x1f3fe;0x200d;0x1f52c]; [0x1f9d1;0x1f3ff;0x200d;0x1f52c]; [0x1f468;0x200d;0x1f52c]; [0x1f468;0x1f3fb;0x200d;0x1f52c]; [0x1f468;0x1f3fc;0x200d;0x1f52c]; [0x1f468;0x1f3fd;0x200d;0x1f52c]; [0x1f468;0x1f3fe;0x200d;0x1f52c]; [0x1f468;0x1f3ff;0x200d;0x1f52c]; [0x1f469;0x200d;0x1f52c];
  [0x1f469;0x1f3fb;0x200d;0x1f52c]; [0x1f469;0x1f3fc;0x200d;0x1f52c]; [0x1f469;0x1f3fd;0x200d;0x1f52c]; [0x1f469;0x1f3fe;0x200d;0x1f52c]; [0x1f469;0x1f3ff;0x200d;0x1f52c]; [0x1f9d1;0x200d;0x1f4bb]; [0x1f9d1;0x1f3fb;0x200d;0x1f4bb]; [0x1f9d1;0x1f3fc;0x200d;0x1f4bb]; [0x1f9d1;0x1f3fd;0x200d;0x1f4bb]; [0x1f9d1;0x1f3fe;0x200d;0x1f4bb]; [0x1f9d1;0x1f3ff;0x200d;0x1f4bb]; [0x1f468;0x200d;0x1f4bb];
  [0x1f468;0x1f3fb;0x200d;0x1f4bb]; [0x1f468;0x1f3fc;0x200d;0x1f4bb]; [0x1f468;0x1f3fd;0x200d;0x1f4bb]; [0x1f468;0x1f3fe;0x200d;0x1f4bb]; [0x1f468;0x1f3ff;0x200d;0x1f4bb]; [0x1f469;0x200d;0x1f4bb]; [0x1f469;0x1f3fb;0x200d;0x1f4bb]; [0x1f469;0x1f3fc;0x200d;0x1f4bb]; [0x1f469;0x1f3fd;0x200d;0x1f4bb]; [0x1f469;0x1f3fe;0x200d;0x1f4bb]; [0x1f469;0x1f3ff;0x200d;0x1f4bb]; [0x1f9d1;0x200d;0x1f3a4];
  [0x1f9d1;0x1f3fb;0x200d;0x1f3a4]; [0x1f9d1;0x1f3fc;0x200d;0x1f3a4]; [0x1f9d1;0x1f3fd;0x200d;0x1f3a4]; [0x1f9d1;0x1f3fe;0x200d;0x1f3a4]; [0x1f9d1;0x1f3ff;0x200d;0x1f3a4]; [0x1f468;0x200d;0x1f3a4]; [0x1f468;0x1f3fb;0x200d;0x1f3a4]; [0x1f468;0x1f3fc;0x200d;0x1f3a4]; [0x1f468;0x1f3fd;0x200d;0x1f3a4]; [0x1f468;0x1f3fe;0x200d;0x1f3a4]; [0x1f468;0x1f3ff;0x200d;0x1f3a4]; [0x1f469;0x200d;0x1f3a4];
  [0x1f469;0x1f3fb;0x200d;0x1f3a4]; [0x1f469;0x1f3fc;0x200d;0x1f3a4]; [0x1f469;0x1f3fd;0x200d;0x1f3a4]; [0x1f469;0x1f3fe;0x200d;0x1f3a4]; [0x1f469;0x1f3ff;0x200d;0x1f3a4]; [0x1f9d1;0x200d;0x1f3a8]; [0x1f9d1;0x1f3fb;0x200d;0x1f3a8]; [0x1f9d1;0x1f3fc;0x200d;0x1f3a8]; [0x1f9d1;0x1f3fd;0x200d;0x1f3a8]; [0x1f9d1;0x1f3fe;0x200d;0x1f3a8]; [0x1f9d1;0x1f3ff;0x200d;0x1f3a8]; [0x1f468;0x200d;0x1f3a8];
  [0x1f468;0x1f3fb;0x200d;0x1f3a8]; [0x1f468;0x1f3fc;0x200d;0x1f3a8]; [0x1f468;0x1f3fd;0x200d;0x1f3a8]; [0x1f468;0x1f3fe;0x200d;0x1f3a8]; [0x1f468;0x1f3ff;0x200d;0x1f3a8]; [0x1f469;0x200d;0x1f3a8]; [0x1f469;0x1f3fb;0x200d;0x1f3a8]; [0x1f469;0x1f3fc;0x200d;0x1f3a8]; [0x1f469;0x1f3fd;0x200d;0x1f3a8]; [0x1f469;0x1f3fe;0x200d;0x1f3a8]; [0x1f469;0x1f3ff;0x200d;0x1f3a8]; [0x1f9d1;0x200d;0x2708;0xfe0f];
  [0x1f9d1;0x1f3fb;0x200d;0x2708;0xfe0f]; [0x1f9d1;0x1f3fc;0x200d;0x2708;0xfe0f]; [0x1f9d1;0x1f3fd;0x200d;0x2708;0xfe0f]; [0x1f9d1;0x1f3fe;0x200d;0x2708;0xfe0f]; [0x1f9d1;0x1f3ff;0x200d;0x2708;0xfe0f]; [0x1f468;0x200d;0x2708;0xfe0f]; [0x1f468;0x1f3fb;0x200d;0x2708;0xfe0f]; [0x1f468;0x1f3fc;0x200d;0x2708;0xfe0f]; [0x1f468;0x1f3fd;0x200d;0x2708;0xfe0f]; [0x1f468;0x1f3fe;0x200d;0x2708;0xfe0f]; [0x1f468;0x1f3ff;0x200d;0x2708;0xfe0f]; [0x1f469;0x200d;0x2708;0xfe0f];
  [0x1f469;0x1f3fb;0x200d;0x2708;0xfe0f]; [0x1f469;0x1f3fc;0x200d;0x2708;0xfe0f]; [0x1f469;0x1f3fd;0x200d;0x2708;0xfe0f]; [0x1f469;0x1f3fe;0x200d;0x2708;0xfe0f]; [0x1f469;0x1f3ff;0x200d;0x2708;0xfe0f]; [0x1f9d1;0x200d;0x1f680]; [0x1f9d1;0x1f3fb;0x200d;0x1f680]; [0x1f9d1;0x1f3fc;0x200d;0x1f680]; [0x1f9d1;0x1f3fd;0x200d;0x1f680]; [0x1f9d1;0x1f3fe;0x200d;0x1f680]; [0x1f9d1;0x1f3ff;0x200d;0x1f680]; [0x1f468;0x200d;0x1f680];
  [0x1f468;0x1f3fb;0x200d;0x1f680]; [0x1f468;0x1f3fc;0x200d;0x1f680]; [0x1f468;0x1f3fd;0x200d;0x1f680]; [0x1f468;0x1f3fe;0x200d;0x1f680]; [0x1f468;0x1f3ff;0x200d;0x1f680]; [0x1f469;0x200d;0x1f680]; [0x1f469;0x1f3fb;0x200d;0x1f680]; [0x1f469;0x1f3fc;0x200d;0x1f680]; [0x1f469;0x1f3fd;0x200d;0x1f680]; [0x1f469;0x1f3fe;0x200d;0x1f680]; [0x1f469;0x1f3ff;0x200d;0x1f680]; [0x1f9d1;0x200d;0x1f692];
  [0x1f9d1;0x1f3fb;0x200d;0x1f692]; [0x1f9d1;0x1f3fc;0x200d;0x1f692]; [0x1f9d1;0x1f3fd;0x200d;0x1f692]; [0x1f9d1;0x1f3fe;0x200d;0x1f692]; [0x1f9d1;0x1f3ff;0x200d;0x1f692]; [0x1f468;0x200d;0x1f692]; [0x1f468;0x1f3fb;0x200d;0x1f692]; [0x1f468;0x1f3fc;0x200d;0x1f692]; [0x1f468;0x1f3fd;0x200d;0x1f692]; [0x1f468;0x1f3fe;0x200d;0x1f692]; [0x1f468;0x1f3ff;0x200d;0x1f692]; [0x1f469;0x200d;0x1f692];
  [0x1f469;0x1f3fb;0x200d;0x1f692]; [0x1f469;0x1f3fc;0x200d;0x1f692]; [0x1f469;0x1f3fd;0x200d;0x1f692]; [0x1f469;0x1f3fe;0x200d;0x1f692]; [0x1f469;0x1f3ff;0x200d;0x1f692]; [0x1f46e]; [0x1f46e;0x1f3fb]; [0x1f46e;0x1f3fc]; [0x1f46e;0x1f3fd]; [0x1f46e;0x1f3fe]; [0x1f46e;0x1f3ff]; [0x1f46e;0x200d;0x2642;0xfe0f];
  [0x1f46e;0x1f3fb;0x200d;0x2642;0xfe0f]; [0x1f46e;0x1f3fc;0x200d;0x2642;0xfe0f]; [0x1f46e;0x1f3fd;0x200d;0x2642;0xfe0f]; [0x1f46e;0x1f3fe;0x200d;0x2642;0xfe0f]; [0x1f46e;0x1f3ff;0x200d;0x2642;0xfe0f]; [0x1f46e;0x200d;0x2640;0xfe0f]; [0x1f46e;0x1f3fb;0x200d;0x2640;0xfe0f]; [0x1f46e;0x1f3fc;0x200d;0x2640;0xfe0f]; [0x1f46e;0x1f3fd;0x200d;0x2640;0xfe0f]; [0x1f46e;0x1f3fe;0x200d;0x2640;0xfe0f]; [0x1f46e;0x1f3ff;0x200d;0x2640;0xfe0f]; [0x1f575;0xfe0f];
  [0x1f575;0x1f3fb]; [0x1f575;0x1f3fc]; [0x1f575;0x1f3fd]; [0x1f575;0x1f3fe]; [0x1f575;0x1f3ff]; [0x1f575;0xfe0f;0x200d;0x2642;0xfe0f]; [0x1f575;0x1f3fb;0x200d;0x2642;0xfe0f]; [0x1f575;0x1f3fc;0x200d;0x2642;0xfe0f]; [0x1f575;0x1f3fd;0x200d;0x2642;0xfe0f]; [0x1f575;0x1f3fe;0x200d;0x2642;0xfe0f]; [0x1f575;0x1f3ff;0x200d;0x2642;0xfe0f]; [0x1f575;0xfe0f;0x200d;0x2640;0xfe0f];
  [0x1f575;0x1f3fb;0x200d;0x2640;0xfe0f]; [0x1f575;0x1f3fc;0x200d;0x2640;0xfe0f]; [0x1f575;0x1f3fd;0x200d;0x2640;0xfe0f]; [0x1f575;0x1f3fe;0x200d;0x2640;0xfe0f]; [0x1f575;0x1f3ff;0x200d;0x2640;0xfe0f]; [0x1f482]; [0x1f482;0x1f3fb]; [0x1f482;0x1f3fc]; [0x1f482;0x1f3fd]; [0x1f482;0x1f3fe]; [0x1f482;0x1f3ff]; [0x1f482;0x200d;0x2642;0xfe0f];
  [0x1f482;0x1f3fb;0x200d;0x2642;0xfe0f]; [0x1f482;0x1f3fc;0x200d;0x2642;0xfe0f]; [0x1f482;0x1f3fd;0x200d;0x2642;0xfe0f]; [0x1f482;0x1f3fe;0x200d;0x2642;0xfe0f]; [0x1f482;0x1f3ff;0x200d;0x2642;0xfe0f]; [0x1f482;0x200d;0x2640;0xfe0f]; [0x1f482;0x1f3fb;0x200d;0x2640;0xfe0f]; [0x1f482;0x1f3fc;0x200d;0x2640;0xfe0f]; [0x1f482;0x1f3fd;0x200d;0x2640;0xfe0f]; [0x1f482;0x1f3fe;0x200d;0x2640;0xfe0f]; [0x1f482;0x1f3ff;0x200d;0x2640;0xfe0f]; [0x1f977];
  [0x1f977;0x1f3fb]; [0x1f977;0x1f3fc]; [0x1f977;0x1f3fd]; [0x1f977;0x1f3fe]; [0x1f977;0x1f3ff]; [0x1f477]; [0x1f477;0x1f3fb]; [0x1f477;0x1f3fc]; [0x1f477;0x1f3fd]; [0x1f477;0x1f3fe]; [0x1f477;0x1f3ff]; [0x1f477;0x200d;0x2642;0xfe0f];
  [0x1f477;0x1f3fb;0x200d;0x2642;0xfe0f]; [0x1f477;0x1f3fc;0x200d;0x2642;0xfe0f]; [0x1f477;0x1f3fd;0x200d;0x2642;0xfe0f]; [0x1f477;0x1f3fe;0x200d;0x2642;0xfe0f]; [0x1f477;0x1f3ff;0x200d;0x2642;0xfe0f]; [0x1f477;0x200d;0x2640;0xfe0f]; [0x1f477;0x1f3fb;0x200d;0x2640;0xfe0f]; [0x1f477;0x1f3fc;0x200d;0x2640;0xfe0f]; [0x1f477;0x1f3fd;0x200d;0x2640;0xfe0f]; [0x1f477;0x1f3fe;0x200d;0x2640;0xfe0f]; [0x1f477;0x1f3ff;0x200d;0x2640;0xfe0f]; [0x1fac5];
  [0x1fac5;0x1f3fb]; [0x1fac5;0x1f3fc]; [0x1fac5;0x1f3fd]; [0x1fac5;0x1f3fe]; [0x1fac5;0x1f3ff]; [0x1f934]; [0x1f934;0x1f3fb]; [0x1f934;0x1f3fc]; [0x1f934;0x1f3fd]; [0x1f934;0x1f3fe]; [0x1f934;0x1f3ff]; [0x1f478];
  [0x1f478;0x1f3fb]; [0x1f478;0x1f3fc]; [0x1f478;0x1f3fd]; [0x1f478;0x1f3fe]; [0x1f478;0x1f3ff]; [0x1f473]; [0x1f473;0x1f3fb]; [0x1f473;0x1f3fc]; [0x1f473;0x1f3fd]; [0x1f473;0x1f3fe]; [0x1f473;0x1f3ff]; [0x1f473;0x200d;0x2642;0xfe0f];
  [0x1f473;0x1f3fb;0x200d;0x2642;0xfe0f]; [0x1f473;0x1f3fc;0x200d;0x2642;0xfe0f]; [0x1f473;0x1f3fd;0x200d;0x2642;0xfe0f]; [0x1f473;0x1f3fe;0x200d;0x2642;0xfe0f]; [0x1f473;0x1f3ff;0x200d;0x2642;0xfe0f]; [0x1f473;0x200d;0x2640;0xfe0f]; [0x1f473;0x1f3fb;0x200d;0x2640;0xfe0f]; [0x1f473;0x1f3fc;0x200d;0x2640;0xfe0f]; [0x1f473;0x1f3fd;0x200d;0x2640;0xfe0f]; [0x1f473;0x1f3fe;0x200d;0x2640;0xfe0f]; [0x1f473;0x1f3ff;0x200d;0x2640;0xfe0f]; [0x1f472];
  [0x1f472;0x1f3fb]; [0x1f472;0x1f3fc]; [0x1f472;0x1f3fd]; [0x1f472;0x1f3fe]; [0x1f472;0x1f3ff]; [0x1f9d5]; [0x1f9d5;0x1f3fb]; [0x1f9d5;0x1f3fc]; [0x1f9d5;0x1f3fd]; [0x1f9d5;0x1f3fe]; [0x1f9d5;0x1f3ff]; [0x1f935];
  [0x1f935;0x1f3fb]; [0x1f935;0x1f3fc]; [0x1f935;0x1f3fd]; [0x1f935;0x1f3fe]; [0x1f935;0x1f3ff]; [0x1f935;0x200d;0x2642;0xfe0f]; [0x1f935;0x1f3fb;0x200d;0x2642;0xfe0f]; [0x1f935;0x1f3fc;0x200d;0x2642;0xfe0f]; [0x1f935;0x1f3fd;0x200d;0x2642;0xfe0f]; [0x1f935;0x1f3fe;0x200d;0x2642;0xfe0f]; [0x1f935;0x1f3ff;0x200d;0x2642;0xfe0f]; [0x1f935;0x200d;0x2640;0xfe0f];
  [0x1f935;0x1f3fb;0x200d;0x2640;0xfe0f]; [0x1f935;0x1f3fc;0x200d;0x2640;0xfe0f]; [0x1f935;0x1f3fd;0x200d;0x2640;0xfe0f]; [0x1f935;0x1f3fe;0x200d;0x2640;0xfe0f]; [0x1f935;0x1f3ff;0x200d;0x2640;0xfe0f]; [0x1f470]; [0x1f470;0x1f3fb]; [0x1f470;0x1f3fc]; [0x1f470;0x1f3fd]; [0x1f470;0x1f3fe]; [0x1f470;0x1f3ff]; [0x1f470;0x200d;0x2642;0xfe0f];
  [0x1f470;0x1f3fb;0x200d;0x2642;0xfe0f]; [0x1f470;0x1f3fc;0x200d;0x2642;0xfe0f]; [0x1f470;0x1f3fd;0x200d;0x2642;0xfe0f]; [0x1f470;0x1f3fe;0x200d;0x2642;0xfe0f]; [0x1f470;0x1f3ff;0x200d;0x2642;0xfe0f]; [0x1f470;0x200d;0x2640;0xfe0f]; [0x1f470;0x1f3fb;0x200d;0x2640;0xfe0f]; [0x1f470;0x1f3fc;0x200d;0x2640;0xfe0f]; [0x1f470;0x1f3fd;0x200d;0x2640;0xfe0f]; [0x1f470;0x1f3fe;0x200d;0x2640;0xfe0f]; [0x1f470;0x1f3ff;0x200d;0x2640;0xfe0f]; [0x1f930];
  [0x1f930;0x1f3fb]; [0x1f930;0x1f3fc]; [0x1f930;0x1f3fd]; [0x1f930;0x1f3fe]; [0x1f930;0x1f3ff]; [0x1fac3]; [0x1fac3;0x1f3fb]; [0x1fac3;0x1f3fc]; [0x1fac3;0x1f3fd]; [0x1fac3;0x1f3fe]; [0x1fac3;0x1f3ff]; [0x1fac4];
  [0x1fac4;0x1f3fb]; [0x1fac4;0x1f3fc]; [0x1fac4;0x1f3fd]; [0x1fac4;0x1f3fe]; [0x1fac4;0x1f3ff]; [0x1f931]; [0x1f931;0x1f3fb]; [0x1f931;0x1f3fc]; [0x1f931;0x1f3fd]; [0x1f931;0x1f3fe]; [0x1f931;0x1f3ff]; [0x1f469;0x200d;0x1f37c];
  [0x1f469;0x1f3fb;0x200d;0x1f37c]; [0x1f469;0x1f3fc;0x200d;0x1f37c]; [0x1f469;0x1f3fd;0x200d;0x1f37c]; [0x1f469;0x1f3fe;0x200d;0x1f37c]; [0x1f469;0x1f3ff;0x200d;0x1f37c]; [0x1f468;0x200d;0x1f37c]; [0x1f468;0x1f3fb;0x200d;0x1f37c]; [0x1f468;0x1f3fc;0x200d;0x1f37c]; [0x1f468;0x1f3fd;0x200d;0x1f37c]; [0x1f468;0x1f3fe;0x200d;0x1f37c]; [0x1f468;0x1f3ff;0x200d;0x1f37c]; [0x1f9d1;0x200d;0x1f37c];
  [0x1f9d1;0x1f3fb;0x200d;0x1f37c]; [0x1f9d1;0x1f3fc;0x200d;0x1f37c]; [0x1f9d1;0x1f3fd;0x200d;0x1f37c]; [0x1f9d1;0x1f3fe;0x200d;0x1f37c]; [0x1f9d1;0x1f3ff;0x200d;0x1f37c]; [0x1f47c]; [0x1f47c;0x1f3fb]; [0x1f47c;0x1f3fc]; [0x1f47c;0x1f3fd]; [0x1f47c;0x1f3fe]; [0x1f47c;0x1f3ff]; [0x1f385];
  [0x1f385;0x1f3fb]; [0x1f385;0x1f3fc]; [0x1f385;0x1f3fd]; [0x1f385;0x1f3fe]; [0x1f385;0x1f3ff]; [0x1f936]; [0x1f936;0x1f3fb]; [0x1f936;0x1f3fc]; [0x1f936;0x1f3fd]; [0x1f936;0x1f3fe]; [0x1f936;0x1f3ff]; [0x1f9d1;0x200d;0x1f384];
  [0x1f9d1;0x1f3fb;0x200d;0x1f384]; [0x1f9d1;0x1f3fc;0x200d;0x1f384]; [0x1f9d1;0x1f3fd;0x200d;0x1f384]; [0x1f9d1;0x1f3fe;0x200d;0x1f384]; [0x1f9d1;0x1f3ff;0x200d;0x1f384]; [0x1f9b8]; [0x1f9b8;0x1f3fb]; [0x1f9b8;0x1f3fc]; [0x1f9b8;0x1f3fd]; [0x1f9b8;0x1f3fe]; [0x1f9b8;0x1f3ff]; [0x1f9b8;0x200d;0x2642;0xfe0f];
  [0x1f9b8;0x1f3fb;0x200d;0x2642;0xfe0f]; [0x1f9b8;0x1f3fc;0x200d;0x2642;0xfe0f]; [0x1f9b8;0x1f3fd;0x200d;0x2642;0xfe0f]; [0x1f9b8;0x1f3fe;0x200d;0x2642;0xfe0f]; [0x1f9b8;0x1f3ff;0x200d;0x2642;0xfe0f]; [0x1f9b8;0x200d;0x2640;0xfe0f]; [0x1f9b8;0x1f3fb;0x200d;0x2640;0xfe0f]; [0x1f9b8;0x1f3fc;0x200d;0x2640;0xfe0f]; [0x1f9b8;0x1f3fd;0x200d;0x2640;0xfe0f]; [0x1f9b8;0x1f3fe;0x200d;0x2640;0xfe0f]; [0x1f9b8;0x1f3ff;0x200d;0x2640;0xfe0f]; [0x1f9b9];
  [0x1f9b9;0x1f3fb]; [0x1f9b9;0x1f3fc]; [0x1f9b9;0x1f3fd]; [0x1f9b9;0x1f3fe]; [0x1f9b9;0x1f3ff]; [0x1f9b9;0x200d;0x2642;0xfe0f]; [0x1f9b9;0x1f3fb;0x200d;0x2642;0xfe0f]; [0x1f9b9;0x1f3fc;0x200d;0x2642;0xfe0f]; [0x1f9b9;0x1f3fd;0x200d;0x2642;0xfe0f]; [0x1f9b9;0x1f3fe;0x200d;0x2642;0xfe0f]; [0x1f9b9;0x1f3ff;0x200d;0x2642;0xfe0f]; [0x1f9b9;0x200d;0x2640;0xfe0f];
  [0x1f9b9;0x1f3fb;0x200d;0x2640;0xfe0f]; [0x1f9b9;0x1f3fc;0x200d;0x2640;0xfe0f]; [0x1f9b9;0x1f3fd;0x200d;0x2640;0xfe0f]; [0x1f9b9;0x1f3fe;0x200d;0x2640;0xfe0f]; [0x1f9b9;0x1f3ff;0x200d;0x2640;0xfe0f]; [0x1f9d9]; [0x1f9d9;0x1f3fb]; [0x1f9d9;0x1f3fc]; [0x1f9d9;0x1f3fd]; [0x1f9d9;0x1f3fe]; [0x1f9d9;0x1f3ff]; [0x1f9d9;0x200d;0x2642;0xfe0f];
  [0x1f9d9;0x1f3fb;0x200d;0x2642;0xfe0f]; [0x1f9d9;0x1f3fc;0x200d;0x2642;0xfe0f]; [0x1f9d9;0x1f3fd;0x200d;0x2642;0xfe0f]; [0x1f9d9;0x1f3fe;0x200d;0x2642;0xfe0f]; [0x1f9d9;0x1f3ff;0x200d;0x2642;0xfe0f]; [0x1f9d9;0x200d;0x2640;0xfe0f]; [0x1f9d9;0x1f3fb;0x200d;0x2640;0xfe0f]; [0x1f9d9;0x1f3fc;0x200d;0x2640;0xfe0f]; [0x1f9d9;0x1f3fd;0x200d;0x2640;0xfe0f]; [0x1f9d9;0x1f3fe;0x200d;0x2640;0xfe0f]; [0x1f9d9;0x1f3ff;0x200d;0x2640;0xfe0f]; [0x1f9da];
  [0x1f9da;0x1f3fb]; [0x1f9da;0x1f3fc]; [0x1f9da;0x1f3fd]; [0x1f9da;0x1f3fe]; [0x1f9da;0x1f3ff]; [0x1f9da;0x200d;0x2642;0xfe0f]; [0x1f9da;0x1f3fb;0x200d;0x2642;0xfe0f]; [0x1f9da;0x1f3fc;0x200d;0x2642;0xfe0f]; [0x1f9da;0x1f3fd;0x200d;0x2642;0xfe0f]; [0x1f9da;0x1f3fe;0x200d;0x2642;0xfe0f]; [0x1f9da;0x1f3ff;0x200d;0x2642;0xfe0f]; [0x1f9da;0x200d;0x2640;0xfe0f];
  [0x1f9da;0x1f3fb;0x200d;0x2640;0xfe0f]; [0x1f9da;0x1f3fc;0x200d;0x2640;0xfe0f]; [0x1f9da;0x1f3fd;0x200d;0x2640;0xfe0f]; [0x1f9da;0x1f3fe;0x200d;0x2640;0xfe0f]; [0x1f9da;0x1f3ff;0x200d;0x2640;0xfe0f]; [0x1f9db]; [0x1f9db;0x1f3fb]; [0x1f9db;0x1f3fc]; [0x1f9db;0x1f3fd]; [0x1f9db;0x1f3fe]; [0x1f9db;0x1f3ff]; [0x1f9db;0x200d;0x2642;0xfe0f];
  [0x1f9db;0x1f3fb;0x200d;0x2642;0xfe0f]; [0x1f9db;0x1f3fc;0x200d;0x2642;0xfe0f]; [0x1f9db;0x1f3fd;0x200d;0x2642;0xfe0f]; [0x1f9db;0x1f3fe;0x200d;0x2642;0xfe0f]; [0x1f9db;0x1f3ff;0x200d;0x2642;0xfe0f]; [0x1f9db;0x200d;0x2640;0xfe0f]; [0x1f9db;0x1f3fb;0x200d;0x2640;0xfe0f]; [0x1f9db;0x1f3fc;0x200d;0x2640;0xfe0f]; [0x1f9db;0x1f3fd;0x200d;0x2640;0xfe0f]; [0x1f9db;0x1f3fe;0x200d;0x2640;0xfe0f]; [0x1f9db;0x1f3ff;0x200d;0x2640;0xfe0f]; [0x1f9dc];
  [0x1f9dc;0x1f3fb]; [0x1f9dc;0x1f3fc]; [0x1f9dc;0x1f3fd]; [0x1f9dc;0x1f3fe]; [0x1f9dc;0x1f3ff]; [0x1f9dc;0x200d;0x2642;0xfe0f]; [0x1f9dc;0x1f3fb;0x200d;0x2642;0xfe0f]; [0x1f9dc;0x1f3fc;0x200d;0x2642;0xfe0f]; [0x1f9dc;0x1f3fd;0x200d;0x2642;0xfe0f]; [0x1f9dc;0x1f3fe;0x200d;0x2642;0xfe0f]; [0x1f9dc;0x1f3ff;0x200d;0x2642;0xfe0f]; [0x1f9dc;0x200d;0x2640;0xfe0f];
  [0x1f9dc;0x1f3fb;0x200d;0x2640;0xfe0f]; [0x1f9dc;0x1f3fc;0x200d;0x2640;0xfe0f]; [0x1f9dc;0x1f3fd;0x200d;0x2640;0xfe0f]; [0x1f9dc;0x1f3fe;0x200d;0x2640;0xfe0f]; [0x1f9dc;0x1f3ff;0x200d;0x2640;0xfe0f]; [0x1f9dd]; [0x1f9dd;0x1f3fb]; [0x1f9dd;0x1f3fc]; [0x1f9dd;0x1f3fd]; [0x1f9dd;0x1f3fe]; [0x1f9dd;0x1f3ff]; [0x1f9dd;0x200d;0x2642;0xfe0f];
  [0x1f9dd;0x1f3fb;0x200d;0x2642;0xfe0f]; [0x1f9dd;0x1f3fc;0x200d;0x2642;0xfe0f]; [0x1f9dd;0x1f3fd;0x200d;0x2642;0xfe0f]; [0x1f9dd;0x1f3fe;0x200d;0x2642;0xfe0f]; [0x1f9dd;0x1f3ff;0x200d;0x2642;0xfe0f]; [0x1f9dd;0x200d;0x2640;0xfe0f]; [0x1f9dd;0x1f3fb;0x200d;0x2640;0xfe0f]; [0x1f9dd;0x1f3fc;0x200d;0x2640;0xfe0f]; [0x1f9dd;0x1f3fd;0x200d;0x2640;0xfe0f]; [0x1f9dd;0x1f3fe;0x200d;0x2640;0xfe0f]; [0x1f9dd;0x1f3ff;0x200d;0x2640;0xfe0f]; [0x1f9de];
  [0x1f9de;0x200d;0x2642;0xfe0f]; [0x1f9de;0x200d;0x2640;0xfe0f]; [0x1f9df]; [0x1f9df;0x200d;0x2642;0xfe0f]; [0x1f9df;0x200d;0x2640;0xfe0f]; [0x1f9cc]; [0x1fac8]; [0x1f486]; [0x1f486;0x1f3fb]; [0x1f486;0x1f3fc]; [0x1f486;0x1f3fd]; [0x1f486;0x1f3fe];
  [0x1f486;0x1f3ff]; [0x1f486;0x200d;0x2642;0xfe0f]; [0x1f486;0x1f3fb;0x200d;0x2642;0xfe0f]; [0x1f486;0x1f3fc;0x200d;0x2642;0xfe0f]; [0x1f486;0x1f3fd;0x200d;0x2642;0xfe0f]; [0x1f486;0x1f3fe;0x200d;0x2642;0xfe0f]; [0x1f486;0x1f3ff;0x200d;0x2642;0xfe0f]; [0x1f486;0x200d;0x2640;0xfe0f]; [0x1f486;0x1f3fb;0x200d;0x2640;0xfe0f]; [0x1f486;0x1f3fc;0x200d;0x2640;0xfe0f]; [0x1f486;0x1f3fd;0x200d;0x2640;0xfe0f]; [0x1f486;0x1f3fe;0x200d;0x2640;0xfe0f];
  [0x1f486;0x1f3ff;0x200d;0x2640;0xfe0f]; [0x1f487]; [0x1f487;0x1f3fb]; [0x1f487;0x1f3fc]; [0x1f487;0x1f3fd]; [0x1f487;0x1f3fe]; [0x1f487;0x1f3ff]; [0x1f487;0x200d;0x2642;0xfe0f]; [0x1f487;0x1f3fb;0x200d;0x2642;0xfe0f]; [0x1f487;0x1f3fc;0x200d;0x2642;0xfe0f]; [0x1f487;0x1f3fd;0x200d;0x2642;0xfe0f]; [0x1f487;0x1f3fe;0x200d;0x2642;0xfe0f];
  [0x1f487;0x1f3ff;0x200d;0x2642;0xfe0f]; [0x1f487;0x200d;0x2640;0xfe0f]; [0x1f487;0x1f3fb;0x200d;0x2640;0xfe0f]; [0x1f487;0x1f3fc;0x200d;0x2640;0xfe0f]; [0x1f487;0x1f3fd;0x200d;0x2640;0xfe0f]; [0x1f487;0x1f3fe;0x200d;0x2640;0xfe0f]; [0x1f487;0x1f3ff;0x200d;0x2640;0xfe0f]; [0x1f6b6]; [0x1f6b6;0x1f3fb]; [0x1f6b6;0x1f3fc]; [0x1f6b6;0x1f3fd]; [0x1f6b6;0x1f3fe];
  [0x1f6b6;0x1f3ff]; [0x1f6b6;0x200d;0x2642;0xfe0f]; [0x1f6b6;0x1f3fb;0x200d;0x2642;0xfe0f]; [0x1f6b6;0x1f3fc;0x200d;0x2642;0xfe0f]; [0x1f6b6;0x1f3fd;0x200d;0x2642;0xfe0f]; [0x1f6b6;0x1f3fe;0x200d;0x2642;0xfe0f]; [0x1f6b6;0x1f3ff;0x200d;0x2642;0xfe0f]; [0x1f6b6;0x200d;0x2640;0xfe0f]; [0x1f6b6;0x1f3fb;0x200d;0x2640;0xfe0f]; [0x1f6b6;0x1f3fc;0x200d;0x2640;0xfe0f]; [0x1f6b6;0x1f3fd;0x200d;0x2640;0xfe0f]; [0x1f6b6;0x1f3fe;0x200d;0x2640;0xfe0f];
  [0x1f6b6;0x1f3ff;0x200d;0x2640;0xfe0f]; [0x1f6b6;0x200d;0x27a1;0xfe0f]; [0x1f6b6;0x1f3fb;0x200d;0x27a1;0xfe0f]; [0x1f6b6;0x1f3fc;0x200d;0x27a1;0xfe0f]; [0x1f6b6;0x1f3fd;0x200d;0x27a1;0xfe0f]; [0x1f6b6;0x1f3fe;0x200d;0x27a1;0xfe0f]; [0x1f6b6;0x1f3ff;0x200d;0x27a1;0xfe0f]; [0x1f6b6;0x200d;0x2640;0xfe0f;0x200d;0x27a1;0xfe0f]; [0x1f6b6;0x1f3fb;0x200d;0x2640;0xfe0f;0x200d;0x27a1;0xfe0f]; [0x1f6b6;0x1f3fc;0x200d;0x2640;0xfe0f;0x200d;0x27a1;0xfe0f]; [0x1f6b6;0x1f3fd;0x200d;0x2640;0xfe0f;0x200d;0x27a1;0xfe0f]; [0x1f6b6;0x1f3fe;0x200d;0x2640;0xfe0f;0x200d;0x27a1;0xfe0f];
  [0x1f6b6;0x1f3ff;0x200d;0x2640;0xfe0f;0x200d;0x27a1;0xfe0f]; [0x1f6b6;0x200d;0x2642;0xfe0f;0x200d;0x27a1;0xfe0f]; [0x1f6b6;0x1f3fb;0x200d;0x2642;0xfe0f;0x200d;0x27a1;0xfe0f]; [0x1f6b6;0x1f3fc;0x200d;0x2642;0xfe0f;0x200d;0x27a1;0xfe0f]; [0x1f6b6;0x1f3fd;0x200d;0x2642;0xfe0f;0x200d;0x27a1;0xfe0f]; [0x1f6b6;0x1f3fe;0x200d;0x2642;0xfe0f;0x200d;0x27a1;0xfe0f]; [0x1f6b6;0x1f3ff;0x200d;0x2642;0xfe0f;0x200d;0x27a1;0xfe0f]; [0x1f9cd]; [0x1f9cd;0x1f3fb]; [0x1f9cd;0x1f3fc]; [0x1f9cd;0x1f3fd]; [0x1f9cd;0x1f3fe];
  [0x1f9cd;0x1f3ff]; [0x1f9cd;0x200d;0x2642;0xfe0f]; [0x1f9cd;0x1f3fb;0x200d;0x2642;0xfe0f]; [0x1f9cd;0x1f3fc;0x200d;0x2642;0xfe0f]; [0x1f9cd;0x1f3fd;0x200d;0x2642;0xfe0f]; [0x1f9cd;0x1f3fe;0x200d;0x2642;0xfe0f]; [0x1f9cd;0x1f3ff;0x200d;0x2642;0xfe0f]; [0x1f9cd;0x200d;0x2640;0xfe0f]; [0x1f9cd;0x1f3fb;0x200d;0x2640;0xfe0f]; [0x1f9cd;0x1f3fc;0x200d;0x2640;0xfe0f]; [0x1f9cd;0x1f3fd;0x200d;0x2640;0xfe0f]; [0x1f9cd;0x1f3fe;0x200d;0x2640;0xfe0f];
  [0x1f9cd;0x1f3ff;0x200d;0x2640;0xfe0f]; [0x1f9ce]; [0x1f9ce;0x1f3fb]; [0x1f9ce;0x1f3fc]; [0x1f9ce;0x1f3fd]; [0x1f9ce;0x1f3fe]; [0x1f9ce;0x1f3ff]; [0x1f9ce;0x200d;0x2642;0xfe0f]; [0x1f9ce;0x1f3fb;0x200d;0x2642;0xfe0f]; [0x1f9ce;0x1f3fc;0x200d;0x2642;0xfe0f]; [0x1f9ce;0x1f3fd;0x200d;0x2642;0xfe0f]; [0x1f9ce;0x1f3fe;0x200d;0x2642;0xfe0f];
  [0x1f9ce;0x1f3ff;0x200d;0x2642;0xfe0f]; [0x1f9ce;0x200d;0x2640;0xfe0f]; [0x1f9ce;0x1f3fb;0x200d;0x2640;0xfe0f]; [0x1f9ce;0x1f3fc;0x200d;0x2640;0xfe0f]; [0x1f9ce;0x1f3fd;0x200d;0x2640;0xfe0f]; [0x1f9ce;0x1f3fe;0x200d;0x2640;0xfe0f]; [0x1f9ce;0x1f3ff;0x200d;0x2640;0xfe0f]; [0x1f9ce;0x200d;0x27a1;0xfe0f]; [0x1f9ce;0x1f3fb;0x200d;0x27a1;0xfe0f]; [0x1f9ce;0x1f3fc;0x200d;0x27a1;0xfe0f]; [0x1f9ce;0x1f3fd;0x200d;0x27a1;0xfe0f]; [0x1f9ce;0x1f3fe;0x200d;0x27a1;0xfe0f];
  [0x1f9ce;0x1f3ff;0x200d;0x27a1;0xfe0f]; [0x1f9ce;0x200d;0x2640;0xfe0f;0x200d;0x27a1;0xfe0f]; [0x1f9ce;0x1f3fb;0x200d;0x2640;0xfe0f;0x200d;0x27a1;0xfe0f]; [0x1f9ce;0x1f3fc;0x200d;0x2640;0xfe0f;0x200d;0x27a1;0xfe0f]; [0x1f9ce;0x1f3fd;0x200d;0x2640;0xfe0f;0x200d;0x27a1;0xfe0f]; [0x1f9ce;0x1f3fe;0x200d;0x2640;0xfe0f;0x200d;0x27a1;0xfe0f]; [0x1f9ce;0x1f3ff;0x200d;0x2640;0xfe0f;0x200d;0x27a1;0xfe0f]; [0x1f9ce;0x200d;0x2642;0xfe0f;0x200d;0x27a1;0xfe0f]; [0x1f9ce;0x1f3fb;0x200d;0x2642;0xfe0f;0x200d;0x27a1;0xfe0f]; [0x1f9ce;0x1f3fc;0x200d;0x2642;0xfe0f;0x200d;0x27a1;0xfe0f]; [0x1f9ce;0x1f3fd;0x200d;0x2642;0xfe0f;0x200d;0x27a1;0xfe0f]; [0x1f9ce;0x1f3fe;0x200d;0x2642;0xfe0f;0x200d;0x27a1;0xfe0f];
  [0x1f9ce;0x1f3ff;0x200d;0x2642;0xfe0f;0x200d;0x27a1;0xfe0f]; [0x1f9d1;0x200d;0x1f9af]; [0x1f9d1;0x1f3fb;0x200d;0x1f9af]; [0x1f9d1;0x1f3fc;0x200d;0x1f9af]; [0x1f9d1;0x1f3fd;0x200d;0x1f9af]; [0x1f9d1;0x1f3fe;0x200d;0x1f9af]; [0x1f9d1;0x1f3ff;0x200d;0x1f9af]; [0x1f9d1;0x200d;0x1f9af;0x200d;0x27a1;0xfe0f]; [0x1f9d1;0x1f3fb;0x200d;0x1f9af;0x200d;0x27a1;0xfe0f]; [0x1f9d1;0x1f3fc;0x200d;0x1f9af;0x200d;0x27a1;0xfe0f]; [0x1f9d1;0x1f3fd;0x200d;0x1f9af;0x200d;0x27a1;0xfe0f]; [0x1f9d1;0x1f3fe;0x200d;0x1f9af;0x200d;0x27a1;0xfe0f];
  [0x1f9d1;0x1f3ff;0x200d;0x1f9af;0x200d;0x27a1;0xfe0f]; [0x1f468;0x200d;0x1f9af]; [0x1f468;0x1f3fb;0x200d;0x1f9af]; [0x1f468;0x1f3fc;0x200d;0x1f9af]; [0x1f468;0x1f3fd;0x200d;0x1f9af]; [0x1f468;0x1f3fe;0x200d;0x1f9af]; [0x1f468;0x1f3ff;0x200d;0x1f9af]; [0x1f468;0x200d;0x1f9af;0x200d;0x27a1;0xfe0f]; [0x1f468;0x1f3fb;0x200d;0x1f9af;0x200d;0x27a1;0xfe0f]; [0x1f468;0x1f3fc;0x200d;0x1f9af;0x200d;0x27a1;0xfe0f]; [0x1f468;0x1f3fd;0x200d;0x1f9af;0x200d;0x27a1;0xfe0f]; [0x1f468;0x1f3fe;0x200d;0x1f9af;0x200d;0x27a1;0xfe0f];
  [0x1f468;0x1f3ff;0x200d;0x1f9af;0x200d;0x27a1;0xfe0f]; [0x1f469;0x200d;0x1f9af]; [0x1f469;0x1f3fb;0x200d;0x1f9af]; [0x1f469;0x1f3fc;0x200d;0x1f9af]; [0x1f469;0x1f3fd;0x200d;0x1f9af]; [0x1f469;0x1f3fe;0x200d;0x1f9af]; [0x1f469;0x1f3ff;0x200d;0x1f9af]; [0x1f469;0x200d;0x1f9af;0x200d;0x27a1;0xfe0f]; [0x1f469;0x1f3fb;0x200d;0x1f9af;0x200d;0x27a1;0xfe0f]; [0x1f469;0x1f3fc;0x200d;0x1f9af;0x200d;0x27a1;0xfe0f]; [0x1f469;0x1f3fd;0x200d;0x1f9af;0x200d;0x27a1;0xfe0f]; [0x1f469;0x1f3fe;0x200d;0x1f9af;0x200d;0x27a1;0xfe0f];
  [0x1f469;0x1f3ff;0x200d;0x1f9af;0x200d;0x27a1;0xfe0f]; [0x1f9d1;0x200d;0x1f9bc]; [0x1f9d1;0x1f3fb;0x200d;0x1f9bc]; [0x1f9d1;0x1f3fc;0x200d;0x1f9bc]; [0x1f9d1;0x1f3fd;0x200d;0x1f9bc]; [0x1f9d1;0x1f3fe;0x200d;0x1f9bc]; [0x1f9d1;0x1f3ff;0x200d;0x1f9bc]; [0x1f9d1;0x200d;0x1f9bc;0x200d;0x27a1;0xfe0f]; [0x1f9d1;0x1f3fb;0x200d;0x1f9bc;0x200d;0x27a1;0xfe0f]; [0x1f9d1;0x1f3fc;0x200d;0x1f9bc;0x200d;0x27a1;0xfe0f]; [0x1f9d1;0x1f3fd;0x200d;0x1f9bc;0x200d;0x27a1;0xfe0f]; [0x1f9d1;0x1f3fe;0x200d;0x1f9bc;0x200d;0x27a1;0xfe0f];
  [0x1f9d1;0x1f3ff;0x200d;0x1f9bc;0x200d;0x27a1;0xfe0f]; [0x1f468;0x200d;0x1f9bc]; [0x1f468;0x1f3fb;0x200d;0x1f9bc]; [0x1f468;0x1f3fc;0x200d;0x1f9bc]; [0x1f468;0x1f3fd;0x200d;0x1f9bc]; [0x1f468;0x1f3fe;0x200d;0x1f9bc]; [0x1f468;0x1f3ff;0x200d;0x1f9bc]; [0x1f468;0x200d;0x1f9bc;0x200d;0x27a1;0xfe0f]; [0x1f468;0x1f3fb;0x200d;0x1f9bc;0x200d;0x27a1;0xfe0f]; [0x1f468;0x1f3fc;0x200d;0x1f9bc;0x200d;0x27a1;0xfe0f]; [0x1f468;0x1f3fd;0x200d;0x1f9bc;0x200d;0x27a1;0xfe0f]; [0x1f468;0x1f3fe;0x200d;0x1f9bc;0x200d;0x27a1;0xfe0f];
  [0x1f468;0x1f3ff;0x200d;0x1f9bc;0x200d;0x27a1;0xfe0f]; [0x1f469;0x200d;0x1f9bc]; [0x1f469;0x1f3fb;0x200d;0x1f9bc]; [0x1f469;0x1f3fc;0x200d;0x1f9bc]; [0x1f469;0x1f3fd;0x200d;0x1f9bc]; [0x1f469;0x1f3fe;0x200d;0x1f9bc]; [0x1f469;0x1f3ff;0x200d;0x1f9bc]; [0x1f469;0x200d;0x1f9bc;0x200d;0x27a1;0xfe0f]; [0x1f469;0x1f3fb;0x200d;0x1f9bc;0x200d;0x27a1;0xfe0f]; [0x1f469;0x1f3fc;0x200d;0x1f9bc;0x200d;0x27a1;0xfe0f]; [0x1f469;0x1f3fd;0x200d;0x1f9bc;0x200d;0x27a1;0xfe0f]; [0x1f469;0x1f3fe;0x200d;0x1f9bc;0x200d;0x27a1;0xfe0f];
  [0x1f469;0x1f3ff;0x200d;0x1f9bc;0x200d;0x27a1;0xfe0f]; [0x1f9d1;0x200d;0x1f9bd]; [0x1f9d1;0x1f3fb;0x200d;0x1f9bd]; [0x1f9d1;0x1f3fc;0x200d;0x1f9bd]; [0x1f9d1;0x1f3fd;0x200d;0x1f9bd]; [0x1f9d1;0x1f3fe;0x200d;0x1f9bd]; [0x1f9d1;0x1f3ff;0x200d;0x1f9bd]; [0x1f9d1;0x200d;0x1f9bd;0x200d;0x27a1;0xfe0f]; [0x1f9d1;0x1f3fb;0x200d;0x1f9bd;0x200d;0x27a1;0xfe0f]; [0x1f9d1;0x1f3fc;0x200d;0x1f9bd;0x200d;0x27a1;0xfe0f]; [0x1f9d1;0x1f3fd;0x200d;0x1f9bd;0x200d;0x27a1;0xfe0f]; [0x1f9d1;0x1f3fe;0x200d;0x1f9bd;0x200d;0x27a1;0xfe0f];
  [0x1f9d1;0x1f3ff;0x200d;0x1f9bd;0x200d;0x27a1;0xfe0f]; [0x1f468;0x200d;0x1f9bd]; [0x1f468;0x1f3fb;0x200d;0x1f9bd]; [0x1f468;0x1f3fc;0x200d;0x1f9bd]; [0x1f468;0x1f3fd;0x200d;0x1f9bd]; [0x1f468;0x1f3fe;0x200d;0x1f9bd]; [0x1f468;0x1f3ff;0x200d;0x1f9bd]; [0x1f468;0x200d;0x1f9bd;0x200d;0x27a1;0xfe0f]; [0x1f468;0x1f3fb;0x200d;0x1f9bd;0x200d;0x27a1;0xfe0f]; [0x1f468;0x1f3fc;0x200d;0x1f9bd;0x200d;0x27a1;0xfe0f]; [0x1f468;0x1f3fd;0x200d;0x1f9bd;0x200d;0x27a1;0xfe0f]; [0x1f468;0x1f3fe;0x200d;0x1f9bd;0x200d;0x27a1;0xfe0f];
  [0x1f468;0x1f3ff;0x200d;0x1f9bd;0x200d;0x27a1;0xfe0f]; [0x1f469;0x200d;0x1f9bd]; [0x1f469;0x1f3fb;0x200d;0x1f9bd]; [0x1f469;0x1f3fc;0x200d;0x1f9bd]; [0x1f469;0x1f3fd;0x200d;0x1f9bd]; [0x1f469;0x1f3fe;0x200d;0x1f9bd]; [0x1f469;0x1f3ff;0x200d;0x1f9bd]; [0x1f469;0x200d;0x1f9bd;0x200d;0x27a1;0xfe0f]; [0x1f469;0x1f3fb;0x200d;0x1f9bd;0x200d;0x27a1;0xfe0f]; [0x1f469;0x1f3fc;0x200d;0x1f9bd;0x200d;0x27a1;0xfe0f]; [0x1f469;0x1f3fd;0x200d;0x1f9bd;0x200d;0x27a1;0xfe0f]; [0x1f469;0x1f3fe;0x200d;0x1f9bd;0x200d;0x27a1;0xfe0f];
  [0x1f469;0x1f3ff;0x200d;0x1f9bd;0x200d;0x27a1;0xfe0f]; [0x1f3c3]; [0x1f3c3;0x1f3fb]; [0x1f3c3;0x1f3fc]; [0x1f3c3;0x1f3fd]; [0x1f3c3;0x1f3fe]; [0x1f3c3;0x1f3ff]; [0x1f3c3;0x200d;0x2642;0xfe0f]; [0x1f3c3;0x1f3fb;0x200d;0x2642;0xfe0f]; [0x1f3c3;0x1f3fc;0x200d;0x2642;0xfe0f]; [0x1f3c3;0x1f3fd;0x200d;0x2642;0xfe0f]; [0x1f3c3;0x1f3fe;0x200d;0x2642;0xfe0f];
  [0x1f3c3;0x1f3ff;0x200d;0x2642;0xfe0f]; [0x1f3c3;0x200d;0x2640;0xfe0f]; [0x1f3c3;0x1f3fb;0x200d;0x2640;0xfe0f]; [0x1f3c3;0x1f3fc;0x200d;0x2640;0xfe0f]; [0x1f3c3;0x1f3fd;0x200d;0x2640;0xfe0f]; [0x1f3c3;0x1f3fe;0x200d;0x2640;0xfe0f]; [0x1f3c3;0x1f3ff;0x200d;0x2640;0xfe0f]; [0x1f3c3;0x200d;0x27a1;0xfe0f]; [0x1f3c3;0x1f3fb;0x200d;0x27a1;0xfe0f]; [0x1f3c3;0x1f3fc;0x200d;0x27a1;0xfe0f]; [0x1f3c3;0x1f3fd;0x200d;0x27a1;0xfe0f]; [0x1f3c3;0x1f3fe;0x200d;0x27a1;0xfe0f];
  [0x1f3c3;0x1f3ff;0x200d;0x27a1;0xfe0f]; [0x1f3c3;0x200d;0x2640;0xfe0f;0x200d;0x27a1;0xfe0f]; [0x1f3c3;0x1f3fb;0x200d;0x2640;0xfe0f;0x200d;0x27a1;0xfe0f]; [0x1f3c3;0x1f3fc;0x200d;0x2640;0xfe0f;0x200d;0x27a1;0xfe0f]; [0x1f3c3;0x1f3fd;0x200d;0x2640;0xfe0f;0x200d;0x27a1;0xfe0f]; [0x1f3c3;0x1f3fe;0x200d;0x2640;0xfe0f;0x200d;0x27a1;0xfe0f]; [0x1f3c3;0x1f3ff;0x200d;0x2640;0xfe0f;0x200d;0x27a1;0xfe0f]; [0x1f3c3;0x200d;0x2642;0xfe0f;0x200d;0x27a1;0xfe0f]; [0x1f3c3;0x1f3fb;0x200d;0x2642;0xfe0f;0x200d;0x27a1;0xfe0f]; [0x1f3c3;0x1f3fc;0x200d;0x2642;0xfe0f;0x200d;0x27a1;0xfe0f]; [0x1f3c3;0x1f3fd;0x200d;0x2642;0xfe0f;0x200d;0x27a1;0xfe0f]; [0x1f3c3;0x1f3fe;0x200d;0x2642;0xfe0f;0x200d;0x27a1;0xfe0f];
  [0x1f3c3;0x1f3ff;0x200d;0x2642;0xfe0f;0x200d;0x27a1;0xfe0f]; [0x1f9d1;0x200d;0x1fa70]; [0x1f9d1;0x1f3fb;0x200d;0x1fa70]; [0x1f9d1;0x1f3fc;0x200d;0x1fa70]; [0x1f9d1;0x1f3fd;0x200d;0x1fa70]; [0x1f9d1;0x1f3fe;0x200d;0x1fa70]; [0x1f9d1;0x1f3ff;0x200d;0x1fa70]; [0x1f483]; [0x1f483;0x1f3fb]; [0x1f483;0x1f3fc]; [0x1f483;0x1f3fd]; [0x1f483;0x1f3fe];
  [0x1f483;0x1f3ff]; [0x1f57a]; [0x1f57a;0x1f3fb]; [0x1f57a;0x1f3fc]; [0x1f57a;0x1f3fd]; [0x1f57a;0x1f3fe]; [0x1f57a;0x1f3ff]; [0x1f574;0xfe0f]; [0x1f574;0x1f3fb]; [0x1f574;0x1f3fc]; [0x1f574;0x1f3fd]; [0x1f574;0x1f3fe];
  [0x1f574;0x1f3ff]; [0x1f46f]; [0x1f46f;0x1f3fb]; [0x1f46f;0x1f3fc]; [0x1f46f;0x1f3fd]; [0x1f46f;0x1f3fe]; [0x1f46f;0x1f3ff]; [0x1f46f;0x200d;0x2642;0xfe0f]; [0x1f46f;0x1f3fb;0x200d;0x2642;0xfe0f]; [0x1f46f;0x1f3fc;0x200d;0x2642;0xfe0f]; [0x1f46f;0x1f3fd;0x200d;0x2642;0xfe0f]; [0x1f46f;0x1f3fe;0x200d;0x2642;0xfe0f];
  [0x1f46f;0x1f3ff;0x200d;0x2642;0xfe0f]; [0x1f46f;0x200d;0x2640;0xfe0f]; [0x1f46f;0x1f3fb;0x200d;0x2640;0xfe0f]; [0x1f46f;0x1f3fc;0x200d;0x2640;0xfe0f]; [0x1f46f;0x1f3fd;0x200d;0x2640;0xfe0f]; [0x1f46f;0x1f3fe;0x200d;0x2640;0xfe0f]; [0x1f46f;0x1f3ff;0x200d;0x2640;0xfe0f]; [0x1f9d1;0x1f3fb;0x200d;0x1f430;0x200d;0x1f9d1;0x1f3fc]; [0x1f9d1;0x1f3fb;0x200d;0x1f430;0x200d;0x1f9d1;0x1f3fd]; [0x1f9d1;0x1f3fb;0x200d;0x1f430;0x200d;0x1f9d1;0x1f3fe]; [0x1f9d1;0x1f3fb;0x200d;0x1f430;0x200d;0x1f9d1;0x1f3ff]; [0x1f9d1;0x1f3fc;0x200d;0x1f430;0x200d;0x1f9d1;0x1f3fb];
  [0x1f9d1;0x1f3fc;0x200d;0x1f430;0x200d;0x1f9d1;0x1f3fd]; [0x1f9d1;0x1f3fc;0x200d;0x1f430;0x200d;0x1f9d1;0x1f3fe]; [0x1f9d1;0x1f3fc;0x200d;0x1f430;0x200d;0x1f9d1;0x1f3ff]; [0x1f9d1;0x1f3fd;0x200d;0x1f430;0x200d;0x1f9d1;0x1f3fb]; [0x1f9d1;0x1f3fd;0x200d;0x1f430;0x200d;0x1f9d1;0x1f3fc]; [0x1f9d1;0x1f3fd;0x200d;0x1f430;0x200d;0x1f9d1;0x1f3fe]; [0x1f9d1;0x1f3fd;0x200d;0x1f430;0x200d;0x1f9d1;0x1f3ff]; [0x1f9d1;0x1f3fe;0x200d;0x1f430;0x200d;0x1f9d1;0x1f3fb]; [0x1f9d1;0x1f3fe;0x200d;0x1f430;0x200d;0x1f9d1;0x1f3fc]; [0x1f9d1;0x1f3fe;0x200d;0x1f430;0x200d;0x1f9d1;0x1f3fd]; [0x1f9d1;0x1f3fe;0x200d;0x1f430;0x200d;0x1f9d1;0x1f3ff]; [0x1f9d1;0x1f3ff;0x200d;0x1f430;0x200d;0x1f9d1;0x1f3fb];
  [0x1f9d1;0x1f3ff;0x200d;0x1f430;0x200d;0x1f9d1;0x1f3fc]; [0x1f9d1;0x1f3ff;0x200d;0x1f430;0x200d;0x1f9d1;0x1f3fd]; [0x1f9d1;0x1f3ff;0x200d;0x1f430;0x200d;0x1f9d1;0x1f3fe]; [0x1f468;0x1f3fb;0x200d;0x1f430;0x200d;0x1f468;0x1f3fc]; [0x1f468;0x1f3fb;0x200d;0x1f430;0x200d;0x1f468;0x1f3fd]; [0x1f468;0x1f3fb;0x200d;0x1f430;0x200d;0x1f468;0x1f3fe]; [0x1f468;0x1f3fb;0x200d;0x1f430;0x200d;0x1f468;0x1f3ff]; [0x1f468;0x1f3fc;0x200d;0x1f430;0x200d;0x1f468;0x1f3fb]; [0x1f468;0x1f3fc;0x200d;0x1f430;0x200d;0x1f468;0x1f3fd]; [0x1f468;0x1f3fc;0x200d;0x1f430;0x200d;0x1f468;0x1f3fe]; [0x1f468;0x1f3fc;0x200d;0x1f430;0x200d;0x1f468;0x1f3ff]; [0x1f468;0x1f3fd;0x200d;0x1f430;0x200d;0x1f468;0x1f3fb];
  [0x1f468;0x1f3fd;0x200d;0x1f430;0x200d;0x1f468;0x1f3fc]; [0x1f468;0x1f3fd;0x200d;0x1f430;0x200d;0x1f468;0x1f3fe]; [0x1f468;0x1f3fd;0x200d;0x1f430;0x200d;0x1f468;0x1f3ff]; [0x1f468;0x1f3fe;0x200d;0x1f430;0x200d;0x1f468;0x1f3fb]; [0x1f468;0x1f3fe;0x200d;0x1f430;0x200d;0x1f468;0x1f3fc]; [0x1f468;0x1f3fe;0x200d;0x1f430;0x200d;0x1f468;0x1f3fd]; [0x1f468;0x1f3fe;0x200d;0x1f430;0x200d;0x1f468;0x1f3ff]; [0x1f468;0x1f3ff;0x200d;0x1f430;0x200d;0x1f468;0x1f3fb]; [0x1f468;0x1f3ff;0x200d;0x1f430;0x200d;0x1f468;0x1f3fc]; [0x1f468;0x1f3ff;0x200d;0x1f430;0x200d;0x1f468;0x1f3fd]; [0x1f468;0x1f3ff;0x200d;0x1f430;0x200d;0x1f468;0x1f3fe]; [0x1f469;0x1f3fb;0x200d;0x1f430;0x200d;0x1f469;0x1f3fc];
  [0x1f469;0x1f3fb;0x200d;0x1f430;0x200d;0x1f469;0x1f3fd]; [0x1f469;0x1f3fb;0x200d;0x1f430;0x200d;0x1f469;0x1f3fe]; [0x1f469;0x1f3fb;0x200d;0x1f430;0x200d;0x1f469;0x1f3ff]; [0x1f469;0x1f3fc;0x200d;0x1f430;0x200d;0x1f469;0x1f3fb]; [0x1f469;0x1f3fc;0x200d;0x1f430;0x200d;0x1f469;0x1f3fd]; [0x1f469;0x1f3fc;0x200d;0x1f430;0x200d;0x1f469;0x1f3fe]; [0x1f469;0x1f3fc;0x200d;0x1f430;0x200d;0x1f469;0x1f3ff]; [0x1f469;0x1f3fd;0x200d;0x1f430;0x200d;0x1f469;0x1f3fb]; [0x1f469;0x1f3fd;0x200d;0x1f430;0x200d;0x1f469;0x1f3fc]; [0x1f469;0x1f3fd;0x200d;0x1f430;0x200d;0x1f469;0x1f3fe]; [0x1f469;0x1f3fd;0x200d;0x1f430;0x200d;0x1f469;0x1f3ff]; [0x1f469;0x1f3fe;0x200d;0x1f430;0x200d;0x1f469;0x1f3fb];
  [0x1f469;0x1f3fe;0x200d;0x1f430;0x200d;0x1f469;0x1f3fc]; [0x1f469;0x1f3fe;0x200d;0x1f430;0x200d;0x1f469;0x1f3fd]; [0x1f469;0x1f3fe;0x200d;0x1f430;0x200d;0x1f469;0x1f3ff]; [0x1f469;0x1f3ff;0x200d;0x1f430;0x200d;0x1f469;0x1f3fb]; [0x1f469;0x1f3ff;0x200d;0x1f430;0x200d;0x1f469;0x1f3fc]; [0x1f469;0x1f3ff;0x200d;0x1f430;0x200d;0x1f469;0x1f3fd]; [0x1f469;0x1f3ff;0x200d;0x1f430;0x200d;0x1f469;0x1f3fe]; [0x1f9d6]; [0x1f9d6;0x1f3fb]; [0x1f9d6;0x1f3fc]; [0x1f9d6;0x1f3fd]; [0x1f9d6;0x1f3fe];
  [0x1f9d6;0x1f3ff]; [0x1f9d6;0x200d;0x2642;0xfe0f]; [0x1f9d6;0x1f3fb;0x200d;0x2642;0xfe0f]; [0x1f9d6;0x1f3fc;0x200d;0x2642;0xfe0f]; [0x1f9d6;0x1f3fd;0x200d;0x2642;0xfe0f]; [0x1f9d6;0x1f3fe;0x200d;0x2642;0xfe0f]; [0x1f9d6;0x1f3ff;0x200d;0x2642;0xfe0f]; [0x1f9d6;0x200d;0x2640;0xfe0f]; [0x1f9d6;0x1f3fb;0x200d;0x2640;0xfe0f]; [0x1f9d6;0x1f3fc;0x200d;0x2640;0xfe0f]; [0x1f9d6;0x1f3fd;0x200d;0x2640;0xfe0f]; [0x1f9d6;0x1f3fe;0x200d;0x2640;0xfe0f];
  [0x1f9d6;0x1f3ff;0x200d;0x2640;0xfe0f]; [0x1f9d7]; [0x1f9d7;0x1f3fb]; [0x1f9d7;0x1f3fc]; [0x1f9d7;0x1f3fd]; [0x1f9d7;0x1f3fe]; [0x1f9d7;0x1f3ff]; [0x1f9d7;0x200d;0x2642;0xfe0f]; [0x1f9d7;0x1f3fb;0x200d;0x2642;0xfe0f]; [0x1f9d7;0x1f3fc;0x200d;0x2642;0xfe0f]; [0x1f9d7;0x1f3fd;0x200d;0x2642;0xfe0f]; [0x1f9d7;0x1f3fe;0x200d;0x2642;0xfe0f];
  [0x1f9d7;0x1f3ff;0x200d;0x2642;0xfe0f]; [0x1f9d7;0x200d;0x2640;0xfe0f]; [0x1f9d7;0x1f3fb;0x200d;0x2640;0xfe0f]; [0x1f9d7;0x1f3fc;0x200d;0x2640;0xfe0f]; [0x1f9d7;0x1f3fd;0x200d;0x2640;0xfe0f]; [0x1f9d7;0x1f3fe;0x200d;0x2640;0xfe0f]; [0x1f9d7;0x1f3ff;0x200d;0x2640;0xfe0f]; [0x1f93a]; [0x1f3c7]; [0x1f3c7;0x1f3fb]; [0x1f3c7;0x1f3fc]; [0x1f3c7;0x1f3fd];
  [0x1f3c7;0x1f3fe]; [0x1f3c7;0x1f3ff]; [0x26f7;0xfe0f]; [0x1f3c2]; [0x1f3c2;0x1f3fb]; [0x1f3c2;0x1f3fc]; [0x1f3c2;0x1f3fd]; [0x1f3c2;0x1f3fe]; [0x1f3c2;0x1f3ff]; [0x1f3cc;0xfe0f]; [0x1f3cc;0x1f3fb]; [0x1f3cc;0x1f3fc];
  [0x1f3cc;0x1f3fd]; [0x1f3cc;0x1f3fe]; [0x1f3cc;0x1f3ff]; [0x1f3cc;0xfe0f;0x200d;0x2642;0xfe0f]; [0x1f3cc;0x1f3fb;0x200d;0x2642;0xfe0f]; [0x1f3cc;0x1f3fc;0x200d;0x2642;0xfe0f]; [0x1f3cc;0x1f3fd;0x200d;0x2642;0xfe0f]; [0x1f3cc;0x1f3fe;0x200d;0x2642;0xfe0f]; [0x1f3cc;0x1f3ff;0x200d;0x2642;0xfe0f]; [0x1f3cc;0xfe0f;0x200d;0x2640;0xfe0f]; [0x1f3cc;0x1f3fb;0x200d;0x2640;0xfe0f]; [0x1f3cc;0x1f3fc;0x200d;0x2640;0xfe0f];
  [0x1f3cc;0x1f3fd;0x200d;0x2640;0xfe0f]; [0x1f3cc;0x1f3fe;0x200d;0x2640;0xfe0f]; [0x1f3cc;0x1f3ff;0x200d;0x2640;0xfe0f]; [0x1f3c4]; [0x1f3c4;0x1f3fb]; [0x1f3c4;0x1f3fc]; [0x1f3c4;0x1f3fd]; [0x1f3c4;0x1f3fe]; [0x1f3c4;0x1f3ff]; [0x1f3c4;0x200d;0x2642;0xfe0f]; [0x1f3c4;0x1f3fb;0x200d;0x2642;0xfe0f]; [0x1f3c4;0x1f3fc;0x200d;0x2642;0xfe0f];
  [0x1f3c4;0x1f3fd;0x200d;0x2642;0xfe0f]; [0x1f3c4;0x1f3fe;0x200d;0x2642;0xfe0f]; [0x1f3c4;0x1f3ff;0x200d;0x2642;0xfe0f]; [0x1f3c4;0x200d;0x2640;0xfe0f]; [0x1f3c4;0x1f3fb;0x200d;0x2640;0xfe0f]; [0x1f3c4;0x1f3fc;0x200d;0x2640;0xfe0f]; [0x1f3c4;0x1f3fd;0x200d;0x2640;0xfe0f]; [0x1f3c4;0x1f3fe;0x200d;0x2640;0xfe0f]; [0x1f3c4;0x1f3ff;0x200d;0x2640;0xfe0f]; [0x1f6a3]; [0x1f6a3;0x1f3fb]; [0x1f6a3;0x1f3fc];
  [0x1f6a3;0x1f3fd]; [0x1f6a3;0x1f3fe]; [0x1f6a3;0x1f3ff]; [0x1f6a3;0x200d;0x2642;0xfe0f]; [0x1f6a3;0x1f3fb;0x200d;0x2642;0xfe0f]; [0x1f6a3;0x1f3fc;0x200d;0x2642;0xfe0f]; [0x1f6a3;0x1f3fd;0x200d;0x2642;0xfe0f]; [0x1f6a3;0x1f3fe;0x200d;0x2642;0xfe0f]; [0x1f6a3;0x1f3ff;0x200d;0x2642;0xfe0f]; [0x1f6a3;0x200d;0x2640;0xfe0f]; [0x1f6a3;0x1f3fb;0x200d;0x2640;0xfe0f]; [0x1f6a3;0x1f3fc;0x200d;0x2640;0xfe0f];
  [0x1f6a3;0x1f3fd;0x200d;0x2640;0xfe0f]; [0x1f6a3;0x1f3fe;0x200d;0x2640;0xfe0f]; [0x1f6a3;0x1f3ff;0x200d;0x2640;0xfe0f]; [0x1f3ca]; [0x1f3ca;0x1f3fb]; [0x1f3ca;0x1f3fc]; [0x1f3ca;0x1f3fd]; [0x1f3ca;0x1f3fe]; [0x1f3ca;0x1f3ff]; [0x1f3ca;0x200d;0x2642;0xfe0f]; [0x1f3ca;0x1f3fb;0x200d;0x2642;0xfe0f]; [0x1f3ca;0x1f3fc;0x200d;0x2642;0xfe0f];
  [0x1f3ca;0x1f3fd;0x200d;0x2642;0xfe0f]; [0x1f3ca;0x1f3fe;0x200d;0x2642;0xfe0f]; [0x1f3ca;0x1f3ff;0x200d;0x2642;0xfe0f]; [0x1f3ca;0x200d;0x2640;0xfe0f]; [0x1f3ca;0x1f3fb;0x200d;0x2640;0xfe0f]; [0x1f3ca;0x1f3fc;0x200d;0x2640;0xfe0f]; [0x1f3ca;0x1f3fd;0x200d;0x2640;0xfe0f]; [0x1f3ca;0x1f3fe;0x200d;0x2640;0xfe0f]; [0x1f3ca;0x1f3ff;0x200d;0x2640;0xfe0f]; [0x26f9;0xfe0f]; [0x26f9;0x1f3fb]; [0x26f9;0x1f3fc];
  [0x26f9;0x1f3fd]; [0x26f9;0x1f3fe]; [0x26f9;0x1f3ff]; [0x26f9;0xfe0f;0x200d;0x2642;0xfe0f]; [0x26f9;0x1f3fb;0x200d;0x2642;0xfe0f]; [0x26f9;0x1f3fc;0x200d;0x2642;0xfe0f]; [0x26f9;0x1f3fd;0x200d;0x2642;0xfe0f]; [0x26f9;0x1f3fe;0x200d;0x2642;0xfe0f]; [0x26f9;0x1f3ff;0x200d;0x2642;0xfe0f]; [0x26f9;0xfe0f;0x200d;0x2640;0xfe0f]; [0x26f9;0x1f3fb;0x200d;0x2640;0xfe0f]; [0x26f9;0x1f3fc;0x200d;0x2640;0xfe0f];
  [0x26f9;0x1f3fd;0x200d;0x2640;0xfe0f]; [0x26f9;0x1f3fe;0x200d;0x2640;0xfe0f]; [0x26f9;0x1f3ff;0x200d;0x2640;0xfe0f]; [0x1f3cb;0xfe0f]; [0x1f3cb;0x1f3fb]; [0x1f3cb;0x1f3fc]; [0x1f3cb;0x1f3fd]; [0x1f3cb;0x1f3fe]; [0x1f3cb;0x1f3ff]; [0x1f3cb;0xfe0f;0x200d;0x2642;0xfe0f]; [0x1f3cb;0x1f3fb;0x200d;0x2642;0xfe0f]; [0x1f3cb;0x1f3fc;0x200d;0x2642;0xfe0f];
  [0x1f3cb;0x1f3fd;0x200d;0x2642;0xfe0f]; [0x1f3cb;0x1f3fe;0x200d;0x2642;0xfe0f]; [0x1f3cb;0x1f3ff;0x200d;0x2642;0xfe0f]; [0x1f3cb;0xfe0f;0x200d;0x2640;0xfe0f]; [0x1f3cb;0x1f3fb;0x200d;0x2640;0xfe0f]; [0x1f3cb;0x1f3fc;0x200d;0x2640;0xfe0f]; [0x1f3cb;0x1f3fd;0x200d;0x2640;0xfe0f]; [0x1f3cb;0x1f3fe;0x200d;0x2640;0xfe0f]; [0x1f3cb;0x1f3ff;0x200d;0x2640;0xfe0f]; [0x1f6b4]; [0x1f6b4;0x1f3fb]; [0x1f6b4;0x1f3fc];
  [0x1f6b4;0x1f3fd]; [0x1f6b4;0x1f3fe]; [0x1f6b4;0x1f3ff]; [0x1f6b4;0x200d;0x2642;0xfe0f]; [0x1f6b4;0x1f3fb;0x200d;0x2642;0xfe0f]; [0x1f6b4;0x1f3fc;0x200d;0x2642;0xfe0f]; [0x1f6b4;0x1f3fd;0x200d;0x2642;0xfe0f]; [0x1f6b4;0x1f3fe;0x200d;0x2642;0xfe0f]; [0x1f6b4;0x1f3ff;0x200d;0x2642;0xfe0f]; [0x1f6b4;0x200d;0x2640;0xfe0f]; [0x1f6b4;0x1f3fb;0x200d;0x2640;0xfe0f]; [0x1f6b4;0x1f3fc;0x200d;0x2640;0xfe0f];
  [0x1f6b4;0x1f3fd;0x200d;0x2640;0xfe0f]; [0x1f6b4;0x1f3fe;0x200d;0x2640;0xfe0f]; [0x1f6b4;0x1f3ff;0x200d;0x2640;0xfe0f]; [0x1f6b5]; [0x1f6b5;0x1f3fb]; [0x1f6b5;0x1f3fc]; [0x1f6b5;0x1f3fd]; [0x1f6b5;0x1f3fe]; [0x1f6b5;0x1f3ff]; [0x1f6b5;0x200d;0x2642;0xfe0f]; [0x1f6b5;0x1f3fb;0x200d;0x2642;0xfe0f]; [0x1f6b5;0x1f3fc;0x200d;0x2642;0xfe0f];
  [0x1f6b5;0x1f3fd;0x200d;0x2642;0xfe0f]; [0x1f6b5;0x1f3fe;0x200d;0x2642;0xfe0f]; [0x1f6b5;0x1f3ff;0x200d;0x2642;0xfe0f]; [0x1f6b5;0x200d;0x2640;0xfe0f]; [0x1f6b5;0x1f3fb;0x200d;0x2640;0xfe0f]; [0x1f6b5;0x1f3fc;0x200d;0x2640;0xfe0f]; [0x1f6b5;0x1f3fd;0x200d;0x2640;0xfe0f]; [0x1f6b5;0x1f3fe;0x200d;0x2640;0xfe0f]; [0x1f6b5;0x1f3ff;0x200d;0x2640;0xfe0f]; [0x1f938]; [0x1f938;0x1f3fb]; [0x1f938;0x1f3fc];
  [0x1f938;0x1f3fd]; [0x1f938;0x1f3fe]; [0x1f938;0x1f3ff]; [0x1f938;0x200d;0x2642;0xfe0f]; [0x1f938;0x1f3fb;0x200d;0x2642;0xfe0f]; [0x1f938;0x1f3fc;0x200d;0x2642;0xfe0f]; [0x1f938;0x1f3fd;0x200d;0x2642;0xfe0f]; [0x1f938;0x1f3fe;0x200d;0x2642;0xfe0f]; [0x1f938;0x1f3ff;0x200d;0x2642;0xfe0f]; [0x1f938;0x200d;0x2640;0xfe0f]; [0x1f938;0x1f3fb;0x200d;0x2640;0xfe0f]; [0x1f938;0x1f3fc;0x200d;0x2640;0xfe0f];
  [0x1f938;0x1f3fd;0x200d;0x2640;0xfe0f]; [0x1f938;0x1f3fe;0x200d;0x2640;0xfe0f]; [0x1f938;0x1f3ff;0x200d;0x2640;0xfe0f]; [0x1f93c]; [0x1f93c;0x1f3fb]; [0x1f93c;0x1f3fc]; [0x1f93c;0x1f3fd]; [0x1f93c;0x1f3fe]; [0x1f93c;0x1f3ff]; [0x1f93c;0x200d;0x2642;0xfe0f]; [0x1f93c;0x1f3fb;0x200d;0x2642;0xfe0f]; [0x1f93c;0x1f3fc;0x200d;0x2642;0xfe0f];
  [0x1f93c;0x1f3fd;0x200d;0x2642;0xfe0f]; [0x1f93c;0x1f3fe;0x200d;0x2642;0xfe0f]; [0x1f93c;0x1f3ff;0x200d;0x2642;0xfe0f]; [0x1f93c;0x200d;0x2640;0xfe0f]; [0x1f93c;0x1f3fb;0x200d;0x2640;0xfe0f]; [0x1f93c;0x1f3fc;0x200d;0x2640;0xfe0f]; [0x1f93c;0x1f3fd;0x200d;0x2640;0xfe0f]; [0x1f93c;0x1f3fe;0x200d;0x2640;0xfe0f]; [0x1f93c;0x1f3ff;0x200d;0x2640;0xfe0f]; [0x1f9d1;0x1f3fb;0x200d;0x1faef;0x200d;0x1f9d1;0x1f3fc]; [0x1f9d1;0x1f3fb;0x200d;0x1faef;0x200d;0x1f9d1;0x1f3fd]; [0x1f9d1;0x1f3fb;0x200d;0x1faef;0x200d;0x1f9d1;0x1f3fe];
  [0x1f9d1;0x1f3fb;0x200d;0x1faef;0x200d;0x1f9d1;0x1f3ff]; [0x1f9d1;0x1f3fc;0x200d;0x1faef;0x200d;0x1f9d1;0x1f3fb]; [0x1f9d1;0x1f3fc;0x200d;0x1faef;0x200d;0x1f9d1;0x1f3fd]; [0x1f9d1;0x1f3fc;0x200d;0x1faef;0x200d;0x1f9d1;0x1f3fe]; [0x1f9d1;0x1f3fc;0x200d;0x1faef;0x200d;0x1f9d1;0x1f3ff]; [0x1f9d1;0x1f3fd;0x200d;0x1faef;0x200d;0x1f9d1;0x1f3fb]; [0x1f9d1;0x1f3fd;0x200d;0x1faef;0x200d;0x1f9d1;0x1f3fc]; [0x1f9d1;0x1f3fd;0x200d;0x1faef;0x200d;0x1f9d1;0x1f3fe]; [0x1f9d1;0x1f3fd;0x200d;0x1faef;0x200d;0x1f9d1;0x1f3ff]; [0x1f9d1;0x1f3fe;0x200d;0x1faef;0x200d;0x1f9d1;0x1f3fb]; [0x1f9d1;0x1f3fe;0x200d;0x1faef;0x200d;0x1f9d1;0x1f3fc]; [0x1f9d1;0x1f3fe;0x200d;0x1faef;0x200d;0x1f9d1;0x1f3fd];
  [0x1f9d1;0x1f3fe;0x200d;0x1faef;0x200d;0x1f9d1;0x1f3ff]; [0x1f9d1;0x1f3ff;0x200d;0x1faef;0x200d;0x1f9d1;0x1f3fb]; [0x1f9d1;0x1f3ff;0x200d;0x1faef;0x200d;0x1f9d1;0x1f3fc]; [0x1f9d1;0x1f3ff;0x200d;0x1faef;0x200d;0x1f9d1;0x1f3fd]; [0x1f9d1;0x1f3ff;0x200d;0x1faef;0x200d;0x1f9d1;0x1f3fe]; [0x1f468;0x1f3fb;0x200d;0x1faef;0x200d;0x1f468;0x1f3fc]; [0x1f468;0x1f3fb;0x200d;0x1faef;0x200d;0x1f468;0x1f3fd]; [0x1f468;0x1f3fb;0x200d;0x1faef;0x200d;0x1f468;0x1f3fe]; [0x1f468;0x1f3fb;0x200d;0x1faef;0x200d;0x1f468;0x1f3ff]; [0x1f468;0x1f3fc;0x200d;0x1faef;0x200d;0x1f468;0x1f3fb]; [0x1f468;0x1f3fc;0x200d;0x1faef;0x200d;0x1f468;0x1f3fd]; [0x1f468;0x1f3fc;0x200d;0x1faef;0x200d;0x1f468;0x1f3fe];
  [0x1f468;0x1f3fc;0x200d;0x1faef;0x200d;0x1f468;0x1f3ff]; [0x1f468;0x1f3fd;0x200d;0x1faef;0x200d;0x1f468;0x1f3fb]; [0x1f468;0x1f3fd;0x200d;0x1faef;0x200d;0x1f468;0x1f3fc]; [0x1f468;0x1f3fd;0x200d;0x1faef;0x200d;0x1f468;0x1f3fe]; [0x1f468;0x1f3fd;0x200d;0x1faef;0x200d;0x1f468;0x1f3ff]; [0x1f468;0x1f3fe;0x200d;0x1faef;0x200d;0x1f468;0x1f3fb]; [0x1f468;0x1f3fe;0x200d;0x1faef;0x200d;0x1f468;0x1f3fc]; [0x1f468;0x1f3fe;0x200d;0x1faef;0x200d;0x1f468;0x1f3fd]; [0x1f468;0x1f3fe;0x200d;0x1faef;0x200d;0x1f468;0x1f3ff]; [0x1f468;0x1f3ff;0x200d;0x1faef;0x200d;0x1f468;0x1f3fb]; [0x1f468;0x1f3ff;0x200d;0x1faef;0x200d;0x1f468;0x1f3fc]; [0x1f468;0x1f3ff;0x200d;0x1faef;0x200d;0x1f468;0x1f3fd];
  [0x1f468;0x1f3ff;0x200d;0x1faef;0x200d;0x1f468;0x1f3fe]; [0x1f469;0x1f3fb;0x200d;0x1faef;0x200d;0x1f469;0x1f3fc]; [0x1f469;0x1f3fb;0x200d;0x1faef;0x200d;0x1f469;0x1f3fd]; [0x1f469;0x1f3fb;0x200d;0x1faef;0x200d;0x1f469;0x1f3fe]; [0x1f469;0x1f3fb;0x200d;0x1faef;0x200d;0x1f469;0x1f3ff]; [0x1f469;0x1f3fc;0x200d;0x1faef;0x200d;0x1f469;0x1f3fb]; [0x1f469;0x1f3fc;0x200d;0x1faef;0x200d;0x1f469;0x1f3fd]; [0x1f469;0x1f3fc;0x200d;0x1faef;0x200d;0x1f469;0x1f3fe]; [0x1f469;0x1f3fc;0x200d;0x1faef;0x200d;0x1f469;0x1f3ff]; [0x1f469;0x1f3fd;0x200d;0x1faef;0x200d;0x1f469;0x1f3fb]; [0x1f469;0x1f3fd;0x200d;0x1faef;0x200d;0x1f469;0x1f3fc]; [0x1f469;0x1f3fd;0x200d;0x1faef;0x200d;0x1f469;0x1f3fe];
  [0x1f469;0x1f3fd;0x200d;0x1faef;0x200d;0x1f469;0x1f3ff]; [0x1f469;0x1f3fe;0x200d;0x1faef;0x200d;0x1f469;0x1f3fb]; [0x1f469;0x1f3fe;0x200d;0x1faef;0x200d;0x1f469;0x1f3fc]; [0x1f469;0x1f3fe;0x200d;0x1faef;0x200d;0x1f469;0x1f3fd]; [0x1f469;0x1f3fe;0x200d;0x1faef;0x200d;0x1f469;0x1f3ff]; [0x1f469;0x1f3ff;0x200d;0x1faef;0x200d;0x1f469;0x1f3fb]; [0x1f469;0x1f3ff;0x200d;0x1faef;0x200d;0x1f469;0x1f3fc]; [0x1f469;0x1f3ff;0x200d;0x1faef;0x200d;0x1f469;0x1f3fd]; [0x1f469;0x1f3ff;0x200d;0x1faef;0x200d;0x1f469;0x1f3fe]; [0x1f93d]; [0x1f93d;0x1f3fb]; [0x1f93d;0x1f3fc];
  [0x1f93d;0x1f3fd]; [0x1f93d;0x1f3fe]; [0x1f93d;0x1f3ff]; [0x1f93d;0x200d;0x2642;0xfe0f]; [0x1f93d;0x1f3fb;0x200d;0x2642;0xfe0f]; [0x1f93d;0x1f3fc;0x200d;0x2642;0xfe0f]; [0x1f93d;0x1f3fd;0x200d;0x2642;0xfe0f]; [0x1f93d;0x1f3fe;0x200d;0x2642;0xfe0f]; [0x1f93d;0x1f3ff;0x200d;0x2642;0xfe0f]; [0x1f93d;0x200d;0x2640;0xfe0f]; [0x1f93d;0x1f3fb;0x200d;0x2640;0xfe0f]; [0x1f93d;0x1f3fc;0x200d;0x2640;0xfe0f];
  [0x1f93d;0x1f3fd;0x200d;0x2640;0xfe0f]; [0x1f93d;0x1f3fe;0x200d;0x2640;0xfe0f]; [0x1f93d;0x1f3ff;0x200d;0x2640;0xfe0f]; [0x1f93e]; [0x1f93e;0x1f3fb]; [0x1f93e;0x1f3fc]; [0x1f93e;0x1f3fd]; [0x1f93e;0x1f3fe]; [0x1f93e;0x1f3ff]; [0x1f93e;0x200d;0x2642;0xfe0f]; [0x1f93e;0x1f3fb;0x200d;0x2642;0xfe0f]; [0x1f93e;0x1f3fc;0x200d;0x2642;0xfe0f];
  [0x1f93e;0x1f3fd;0x200d;0x2642;0xfe0f]; [0x1f93e;0x1f3fe;0x200d;0x2642;0xfe0f]; [0x1f93e;0x1f3ff;0x200d;0x2642;0xfe0f]; [0x1f93e;0x200d;0x2640;0xfe0f]; [0x1f93e;0x1f3fb;0x200d;0x2640;0xfe0f]; [0x1f93e;0x1f3fc;0x200d;0x2640;0xfe0f]; [0x1f93e;0x1f3fd;0x200d;0x2640;0xfe0f]; [0x1f93e;0x1f3fe;0x200d;0x2640;0xfe0f]; [0x1f93e;0x1f3ff;0x200d;0x2640;0xfe0f]; [0x1f939]; [0x1f939;0x1f3fb]; [0x1f939;0x1f3fc];
  [0x1f939;0x1f3fd]; [0x1f939;0x1f3fe]; [0x1f939;0x1f3ff]; [0x1f939;0x200d;0x2642;0xfe0f]; [0x1f939;0x1f3fb;0x200d;0x2642;0xfe0f]; [0x1f939;0x1f3fc;0x200d;0x2642;0xfe0f]; [0x1f939;0x1f3fd;0x200d;0x2642;0xfe0f]; [0x1f939;0x1f3fe;0x200d;0x2642;0xfe0f]; [0x1f939;0x1f3ff;0x200d;0x2642;0xfe0f]; [0x1f939;0x200d;0x2640;0xfe0f]; [0x1f939;0x1f3fb;0x200d;0x2640;0xfe0f]; [0x1f939;0x1f3fc;0x200d;0x2640;0xfe0f];
  [0x1f939;0x1f3fd;0x200d;0x2640;0xfe0f]; [0x1f939;0x1f3fe;0x200d;0x2640;0xfe0f]; [0x1f939;0x1f3ff;0x200d;0x2640;0xfe0f]; [0x1f9d8]; [0x1f9d8;0x1f3fb]; [0x1f9d8;0x1f3fc]; [0x1f9d8;0x1f3fd]; [0x1f9d8;0x1f3fe]; [0x1f9d8;0x1f3ff]; [0x1f9d8;0x200d;0x2642;0xfe0f]; [0x1f9d8;0x1f3fb;0x200d;0x2642;0xfe0f]; [0x1f9d8;0x1f3fc;0x200d;0x2642;0xfe0f];
  [0x1f9d8;0x1f3fd;0x200d;0x2642;0xfe0f]; [0x1f9d8;0x1f3fe;0x200d;0x2642;0xfe0f]; [0x1f9d8;0x1f3ff;0x200d;0x2642;0xfe0f]; [0x1f9d8;0x200d;0x2640;0xfe0f]; [0x1f9d8;0x1f3fb;0x200d;0x2640;0xfe0f]; [0x1f9d8;0x1f3fc;0x200d;0x2640;0xfe0f]; [0x1f9d8;0x1f3fd;0x200d;0x2640;0xfe0f]; [0x1f9d8;0x1f3fe;0x200d;0x2640;0xfe0f]; [0x1f9d8;0x1f3ff;0x200d;0x2640;0xfe0f]; [0x1f6c0]; [0x1f6c0;0x1f3fb]; [0x1f6c0;0x1f3fc];
  [0x1f6c0;0x1f3fd]; [0x1f6c0;0x1f3fe]; [0x1f6c0;0x1f3ff]; [0x1f6cc]; [0x1f6cc;0x1f3fb]; [0x1f6cc;0x1f3fc]; [0x1f6cc;0x1f3fd]; [0x1f6cc;0x1f3fe]; [0x1f6cc;0x1f3ff]; [0x1f9d1;0x200d;0x1f91d;0x200d;0x1f9d1]; [0x1f9d1;0x1f3fb;0x200d;0x1f91d;0x200d;0x1f9d1;0x1f3fb]; [0x1f9d1;0x1f3fb;0x200d;0x1f91d;0x200d;0x1f9d1;0x1f3fc];
  [0x1f9d1;0x1f3fb;0x200d;0x1f91d;0x200d;0x1f9d1;0x1f3fd]; [0x1f9d1;0x1f3fb;0x200d;0x1f91d;0x200d;0x1f9d1;0x1f3fe]; [0x1f9d1;0x1f3fb;0x200d;0x1f91d;0x200d;0x1f9d1;0x1f3ff]; [0x1f9d1;0x1f3fc;0x200d;0x1f91d;0x200d;0x1f9d1;0x1f3fb]; [0x1f9d1;0x1f3fc;0x200d;0x1f91d;0x200d;0x1f9d1;0x1f3fc]; [0x1f9d1;0x1f3fc;0x200d;0x1f91d;0x200d;0x1f9d1;0x1f3fd]; [0x1f9d1;0x1f3fc;0x200d;0x1f91d;0x200d;0x1f9d1;0x1f3fe]; [0x1f9d1;0x1f3fc;0x200d;0x1f91d;0x200d;0x1f9d1;0x1f3ff]; [0x1f9d1;0x1f3fd;0x200d;0x1f91d;0x200d;0x1f9d1;0x1f3fb]; [0x1f9d1;0x1f3fd;0x200d;0x1f91d;0x200d;0x1f9d1;0x1f3fc]; [0x1f9d1;0x1f3fd;0x200d;0x1f91d;0x200d;0x1f9d1;0x1f3fd]; [0x1f9d1;0x1f3fd;0x200d;0x1f91d;0x200d;0x1f9d1;0x1f3fe];
  [0x1f9d1;0x1f3fd;0x200d;0x1f91d;0x200d;0x1f9d1;0x1f3ff]; [0x1f9d1;0x1f3fe;0x200d;0x1f91d;0x200d;0x1f9d1;0x1f3fb]; [0x1f9d1;0x1f3fe;0x200d;0x1f91d;0x200d;0x1f9d1;0x1f3fc]; [0x1f9d1;0x1f3fe;0x200d;0x1f91d;0x200d;0x1f9d1;0x1f3fd]; [0x1f9d1;0x1f3fe;0x200d;0x1f91d;0x200d;0x1f9d1;0x1f3fe]; [0x1f9d1;0x1f3fe;0x200d;0x1f91d;0x200d;0x1f9d1;0x1f3ff]; [0x1f9d1;0x1f3ff;0x200d;0x1f91d;0x200d;0x1f9d1;0x1f3fb]; [0x1f9d1;0x1f3ff;0x200d;0x1f91d;0x200d;0x1f9d1;0x1f3fc]; [0x1f9d1;0x1f3ff;0x200d;0x1f91d;0x200d;0x1f9d1;0x1f3fd]; [0x1f9d1;0x1f3ff;0x200d;0x1f91d;0x200d;0x1f9d1;0x1f3fe]; [0x1f9d1;0x1f3ff;0x200d;0x1f91d;0x200d;0x1f9d1;0x1f3ff]; [0x1f46d];
  [0x1f46d;0x1f3fb]; [0x1f469;0x1f3fb;0x200d;0x1f91d;0x200d;0x1f469;0x1f3fc]; [0x1f469;0x1f3fb;0x200d;0x1f91d;0x200d;0x1f469;0x1f3fd]; [0x1f469;0x1f3fb;0x200d;0x1f91d;0x200d;0x1f469;0x1f3fe]; [0x1f469;0x1f3fb;0x200d;0x1f91d;0x200d;0x1f469;0x1f3ff]; [0x1f469;0x1f3fc;0x200d;0x1f91d;0x200d;0x1f469;0x1f3fb]; [0x1f46d;0x1f3fc]; [0x1f469;0x1f3fc;0x200d;0x1f91d;0x200d;0x1f469;0x1f3fd]; [0x1f469;0x1f3fc;0x200d;0x1f91d;0x200d;0x1f469;0x1f3fe]; [0x1f469;0x1f3fc;0x200d;0x1f91d;0x200d;0x1f469;0x1f3ff]; [0x1f469;0x1f3fd;0x200d;0x1f91d;0x200d;0x1f469;0x1f3fb]; [0x1f469;0x1f3fd;0x200d;0x1f91d;0x200d;0x1f469;0x1f3fc];
  [0x1f46d;0x1f3fd]; [0x1f469;0x1f3fd;0x200d;0x1f91d;0x200d;0x1f469;0x1f3fe]; [0x1f469;0x1f3fd;0x200d;0x1f91d;0x200d;0x1f469;0x1f3ff]; [0x1f469;0x1f3fe;0x200d;0x1f91d;0x200d;0x1f469;0x1f3fb]; [0x1f469;0x1f3fe;0x200d;0x1f91d;0x200d;0x1f469;0x1f3fc]; [0x1f469;0x1f3fe;0x200d;0x1f91d;0x200d;0x1f469;0x1f3fd]; [0x1f46d;0x1f3fe]; [0x1f469;0x1f3fe;0x200d;0x1f91d;0x200d;0x1f469;0x1f3ff]; [0x1f469;0x1f3ff;0x200d;0x1f91d;0x200d;0x1f469;0x1f3fb]; [0x1f469;0x1f3ff;0x200d;0x1f91d;0x200d;0x1f469;0x1f3fc]; [0x1f469;0x1f3ff;0x200d;0x1f91d;0x200d;0x1f469;0x1f3fd]; [0x1f469;0x1f3ff;0x200d;0x1f91d;0x200d;0x1f469;0x1f3fe];
  [0x1f46d;0x1f3ff]; [0x1f46b]; [0x1f46b;0x1f3fb]; [0x1f469;0x1f3fb;0x200d;0x1f91d;0x200d;0x1f468;0x1f3fc]; [0x1f469;0x1f3fb;0x200d;0x1f91d;0x200d;0x1f468;0x1f3fd]; [0x1f469;0x1f3fb;0x200d;0x1f91d;0x200d;0x1f468;0x1f3fe]; [0x1f469;0x1f3fb;0x200d;0x1f91d;0x200d;0x1f468;0x1f3ff]; [0x1f469;0x1f3fc;0x200d;0x1f91d;0x200d;0x1f468;0x1f3fb]; [0x1f46b;0x1f3fc]; [0x1f469;0x1f3fc;0x200d;0x1f91d;0x200d;0x1f468;0x1f3fd]; [0x1f469;0x1f3fc;0x200d;0x1f91d;0x200d;0x1f468;0x1f3fe]; [0x1f469;0x1f3fc;0x200d;0x1f91d;0x200d;0x1f468;0x1f3ff];
  [0x1f469;0x1f3fd;0x200d;0x1f91d;0x200d;0x1f468;0x1f3fb]; [0x1f469;0x1f3fd;0x200d;0x1f91d;0x200d;0x1f468;0x1f3fc]; [0x1f46b;0x1f3fd]; [0x1f469;0x1f3fd;0x200d;0x1f91d;0x200d;0x1f468;0x1f3fe]; [0x1f469;0x1f3fd;0x200d;0x1f91d;0x200d;0x1f468;0x1f3ff]; [0x1f469;0x1f3fe;0x200d;0x1f91d;0x200d;0x1f468;0x1f3fb]; [0x1f469;0x1f3fe;0x200d;0x1f91d;0x200d;0x1f468;0x1f3fc]; [0x1f469;0x1f3fe;0x200d;0x1f91d;0x200d;0x1f468;0x1f3fd]; [0x1f46b;0x1f3fe]; [0x1f469;0x1f3fe;0x200d;0x1f91d;0x200d;0x1f468;0x1f3ff]; [0x1f469;0x1f3ff;0x200d;0x1f91d;0x200d;0x1f468;0x1f3fb]; [0x1f469;0x1f3ff;0x200d;0x1f91d;0x200d;0x1f468;0x1f3fc];
  [0x1f469;0x1f3ff;0x200d;0x1f91d;0x200d;0x1f468;0x1f3fd]; [0x1f469;0x1f3ff;0x200d;0x1f91d;0x200d;0x1f468;0x1f3fe]; [0x1f46b;0x1f3ff]; [0x1f46c]; [0x1f46c;0x1f3fb]; [0x1f468;0x1f3fb;0x200d;0x1f91d;0x200d;0x1f468;0x1f3fc]; [0x1f468;0x1f3fb;0x200d;0x1f91d;0x200d;0x1f468;0x1f3fd]; [0x1f468;0x1f3fb;0x200d;0x1f91d;0x200d;0x1f468;0x1f3fe]; [0x1f468;0x1f3fb;0x200d;0x1f91d;0x200d;0x1f468;0x1f3ff]; [0x1f468;0x1f3fc;0x200d;0x1f91d;0x200d;0x1f468;0x1f3fb]; [0x1f46c;0x1f3fc]; [0x1f468;0x1f3fc;0x200d;0x1f91d;0x200d;0x1f468;0x1f3fd];
  [0x1f468;0x1f3fc;0x200d;0x1f91d;0x200d;0x1f468;0x1f3fe]; [0x1f468;0x1f3fc;0x200d;0x1f91d;0x200d;0x1f468;0x1f3ff]; [0x1f468;0x1f3fd;0x200d;0x1f91d;0x200d;0x1f468;0x1f3fb]; [0x1f468;0x1f3fd;0x200d;0x1f91d;0x200d;0x1f468;0x1f3fc]; [0x1f46c;0x1f3fd]; [0x1f468;0x1f3fd;0x200d;0x1f91d;0x200d;0x1f468;0x1f3fe]; [0x1f468;0x1f3fd;0x200d;0x1f91d;0x200d;0x1f468;0x1f3ff]; [0x1f468;0x1f3fe;0x200d;0x1f91d;0x200d;0x1f468;0x1f3fb]; [0x1f468;0x1f3fe;0x200d;0x1f91d;0x200d;0x1f468;0x1f3fc]; [0x1f468;0x1f3fe;0x200d;0x1f91d;0x200d;0x1f468;0x1f3fd]; [0x1f46c;0x1f3fe]; [0x1f468;0x1f3fe;0x200d;0x1f91d;0x200d;0x1f468;0x1f3ff];
  [0x1f468;0x1f3ff;0x200d;0x1f91d;0x200d;0x1f468;0x1f3fb]; [0x1f468;0x1f3ff;0x200d;0x1f91d;0x200d;0x1f468;0x1f3fc]; [0x1f468;0x1f3ff;0x200d;0x1f91d;0x200d;0x1f468;0x1f3fd]; [0x1f468;0x1f3ff;0x200d;0x1f91d;0x200d;0x1f468;0x1f3fe]; [0x1f46c;0x1f3ff]; [0x1f48f]; [0x1f48f;0x1f3fb]; [0x1f48f;0x1f3fc]; [0x1f48f;0x1f3fd]; [0x1f48f;0x1f3fe]; [0x1f48f;0x1f3ff]; [0x1f9d1;0x1f3fb;0x200d;0x2764;0xfe0f;0x200d;0x1f48b;0x200d;0x1f9d1;0x1f3fc];
  [0x1f9d1;0x1f3fb;0x200d;0x2764;0xfe0f;0x200d;0x1f48b;0x200d;0x1f9d1;0x1f3fd]; [0x1f9d1;0x1f3fb;0x200d;0x2764;0xfe0f;0x200d;0x1f48b;0x200d;0x1f9d1;0x1f3fe]; [0x1f9d1;0x1f3fb;0x200d;0x2764;0xfe0f;0x200d;0x1f48b;0x200d;0x1f9d1;0x1f3ff]; [0x1f9d1;0x1f3fc;0x200d;0x2764;0xfe0f;0x200d;0x1f48b;0x200d;0x1f9d1;0x1f3fb]; [0x1f9d1;0x1f3fc;0x200d;0x2764;0xfe0f;0x200d;0x1f48b;0x200d;0x1f9d1;0x1f3fd]; [0x1f9d1;0x1f3fc;0x200d;0x2764;0xfe0f;0x200d;0x1f48b;0x200d;0x1f9d1;0x1f3fe]; [0x1f9d1;0x1f3fc;0x200d;0x2764;0xfe0f;0x200d;0x1f48b;0x200d;0x1f9d1;0x1f3ff]; [0x1f9d1;0x1f3fd;0x200d;0x2764;0xfe0f;0x200d;0x1f48b;0x200d;0x1f9d1;0x1f3fb]; [0x1f9d1;0x1f3fd;0x200d;0x2764;0xfe0f;0x200d;0x1f48b;0x200d;0x1f9d1;0x1f3fc]; [0x1f9d1;0x1f3fd;0x200d;0x2764;0xfe0f;0x200d;0x1f48b;0x200d;0x1f9d1;0x1f3fe]; [0x1f9d1;0x1f3fd;0x200d;0x2764;0xfe0f;0x200d;0x1f48b;0x200d;0x1f9d1;0x1f3ff]; [0x1f9d1;0x1f3fe;0x200d;0x2764;0xfe0f;0x200d;0x1f48b;0x200d;0x1f9d1;0x1f3fb];
  [0x1f9d1;0x1f3fe;0x200d;0x2764;0xfe0f;0x200d;0x1f48b;0x200d;0x1f9d1;0x1f3fc]; [0x1f9d1;0x1f3fe;0x200d;0x2764;0xfe0f;0x200d;0x1f48b;0x200d;0x1f9d1;0x1f3fd]; [0x1f9d1;0x1f3fe;0x200d;0x2764;0xfe0f;0x200d;0x1f48b;0x200d;0x1f9d1;0x1f3ff]; [0x1f9d1;0x1f3ff;0x200d;0x2764;0xfe0f;0x200d;0x1f48b;0x200d;0x1f9d1;0x1f3fb]; [0x1f9d1;0x1f3ff;0x200d;0x2764;0xfe0f;0x200d;0x1f48b;0x200d;0x1f9d1;0x1f3fc]; [0x1f9d1;0x1f3ff;0x200d;0x2764;0xfe0f;0x200d;0x1f48b;0x200d;0x1f9d1;0x1f3fd]; [0x1f9d1;0x1f3ff;0x200d;0x2764;0xfe0f;0x200d;0x1f48b;0x200d;0x1f9d1;0x1f3fe]; [0x1f469;0x200d;0x2764;0xfe0f;0x200d;0x1f48b;0x200d;0x1f468]; [0x1f469;0x1f3fb;0x200d;0x2764;0xfe0f;0x200d;0x1f48b;0x200d;0x1f468;0x1f3fb]; [0x1f469;0x1f3fb;0x200d;0x2764;0xfe0f;0x200d;0x1f48b;0x200d;0x1f468;0x1f3fc]; [0x1f469;0x1f3fb;0x200d;0x2764;0xfe0f;0x200d;0x1f48b;0x200d;0x1f468;0x1f3fd]; [0x1f469;0x1f3fb;0x200d;0x2764;0xfe0f;0x200d;0x1f48b;0x200d;0x1f468;0x1f3fe];
  [0x1f469;0x1f3fb;0x200d;0x2764;0xfe0f;0x200d;0x1f48b;0x200d;0x1f468;0x1f3ff]; [0x1f469;0x1f3fc;0x200d;0x2764;0xfe0f;0x200d;0x1f48b;0x200d;0x1f468;0x1f3fb]; [0x1f469;0x1f3fc;0x200d;0x2764;0xfe0f;0x200d;0x1f48b;0x200d;0x1f468;0x1f3fc]; [0x1f469;0x1f3fc;0x200d;0x2764;0xfe0f;0x200d;0x1f48b;0x200d;0x1f468;0x1f3fd]; [0x1f469;0x1f3fc;0x200d;0x2764;0xfe0f;0x200d;0x1f48b;0x200d;0x1f468;0x1f3fe]; [0x1f469;0x1f3fc;0x200d;0x2764;0xfe0f;0x200d;0x1f48b;0x200d;0x1f468;0x1f3ff]; [0x1f469;0x1f3fd;0x200d;0x2764;0xfe0f;0x200d;0x1f48b;0x200d;0x1f468;0x1f3fb]; [0x1f469;0x1f3fd;0x200d;0x2764;0xfe0f;0x200d;0x1f48b;0x200d;0x1f468;0x1f3fc]; [0x1f469;0x1f3fd;0x200d;0x2764;0xfe0f;0x200d;0x1f48b;0x200d;0x1f468;0x1f3fd]; [0x1f469;0x1f3fd;0x200d;0x2764;0xfe0f;0x200d;0x1f48b;0x200d;0x1f468;0x1f3fe]; [0x1f469;0x1f3fd;0x200d;0x2764;0xfe0f;0x200d;0x1f48b;0x200d;0x1f468;0x1f3ff]; [0x1f469;0x1f3fe;0x200d;0x2764;0xfe0f;0x200d;0x1f48b;0x200d;0x1f468;0x1f3fb];
  [0x1f469;0x1f3fe;0x200d;0x2764;0xfe0f;0x200d;0x1f48b;0x200d;0x1f468;0x1f3fc]; [0x1f469;0x1f3fe;0x200d;0x2764;0xfe0f;0x200d;0x1f48b;0x200d;0x1f468;0x1f3fd]; [0x1f469;0x1f3fe;0x200d;0x2764;0xfe0f;0x200d;0x1f48b;0x200d;0x1f468;0x1f3fe]; [0x1f469;0x1f3fe;0x200d;0x2764;0xfe0f;0x200d;0x1f48b;0x200d;0x1f468;0x1f3ff]; [0x1f469;0x1f3ff;0x200d;0x2764;0xfe0f;0x200d;0x1f48b;0x200d;0x1f468;0x1f3fb]; [0x1f469;0x1f3ff;0x200d;0x2764;0xfe0f;0x200d;0x1f48b;0x200d;0x1f468;0x1f3fc]; [0x1f469;0x1f3ff;0x200d;0x2764;0xfe0f;0x200d;0x1f48b;0x200d;0x1f468;0x1f3fd]; [0x1f469;0x1f3ff;0x200d;0x2764;0xfe0f;0x200d;0x1f48b;0x200d;0x1f468;0x1f3fe]; [0x1f469;0x1f3ff;0x200d;0x2764;0xfe0f;0x200d;0x1f48b;0x200d;0x1f468;0x1f3ff]; [0x1f468;0x200d;0x2764;0xfe0f;0x200d;0x1f48b;0x200d;0x1f468]; [0x1f468;0x1f3fb;0x200d;0x2764;0xfe0f;0x200d;0x1f48b;0x200d;0x1f468;0x1f3fb]; [0x1f468;0x1f3fb;0x200d;0x2764;0xfe0f;0x200d;0x1f48b;0x200d;0x1f468;0x1f3fc];
  [0x1f468;0x1f3fb;0x200d;0x2764;0xfe0f;0x200d;0x1f48b;0x200d;0x1f468;0x1f3fd]; [0x1f468;0x1f3fb;0x200d;0x2764;0xfe0f;0x200d;0x1f48b;0x200d;0x1f468;0x1f3fe]; [0x1f468;0x1f3fb;0x200d;0x2764;0xfe0f;0x200d;0x1f48b;0x200d;0x1f468;0x1f3ff]; [0x1f468;0x1f3fc;0x200d;0x2764;0xfe0f;0x200d;0x1f48b;0x200d;0x1f468;0x1f3fb]; [0x1f468;0x1f3fc;0x200d;0x2764;0xfe0f;0x200d;0x1f48b;0x200d;0x1f468;0x1f3fc]; [0x1f468;0x1f3fc;0x200d;0x2764;0xfe0f;0x200d;0x1f48b;0x200d;0x1f468;0x1f3fd]; [0x1f468;0x1f3fc;0x200d;0x2764;0xfe0f;0x200d;0x1f48b;0x200d;0x1f468;0x1f3fe]; [0x1f468;0x1f3fc;0x200d;0x2764;0xfe0f;0x200d;0x1f48b;0x200d;0x1f468;0x1f3ff]; [0x1f468;0x1f3fd;0x200d;0x2764;0xfe0f;0x200d;0x1f48b;0x200d;0x1f468;0x1f3fb]; [0x1f468;0x1f3fd;0x200d;0x2764;0xfe0f;0x200d;0x1f48b;0x200d;0x1f468;0x1f3fc]; [0x1f468;0x1f3fd;0x200d;0x2764;0xfe0f;0x200d;0x1f48b;0x200d;0x1f468;0x1f3fd]; [0x1f468;0x1f3fd;0x200d;0x2764;0xfe0f;0x200d;0x1f48b;0x200d;0x1f468;0x1f3fe];
  [0x1f468;0x1f3fd;0x200d;0x2764;0xfe0f;0x200d;0x1f48b;0x200d;0x1f468;0x1f3ff]; [0x1f468;0x1f3fe;0x200d;0x2764;0xfe0f;0x200d;0x1f48b;0x200d;0x1f468;0x1f3fb]; [0x1f468;0x1f3fe;0x200d;0x2764;0xfe0f;0x200d;0x1f48b;0x200d;0x1f468;0x1f3fc]; [0x1f468;0x1f3fe;0x200d;0x2764;0xfe0f;0x200d;0x1f48b;0x200d;0x1f468;0x1f3fd]; [0x1f468;0x1f3fe;0x200d;0x2764;0xfe0f;0x200d;0x1f48b;0x200d;0x1f468;0x1f3fe]; [0x1f468;0x1f3fe;0x200d;0x2764;0xfe0f;0x200d;0x1f48b;0x200d;0x1f468;0x1f3ff]; [0x1f468;0x1f3ff;0x200d;0x2764;0xfe0f;0x200d;0x1f48b;0x200d;0x1f468;0x1f3fb]; [0x1f468;0x1f3ff;0x200d;0x2764;0xfe0f;0x200d;0x1f48b;0x200d;0x1f468;0x1f3fc]; [0x1f468;0x1f3ff;0x200d;0x2764;0xfe0f;0x200d;0x1f48b;0x200d;0x1f468;0x1f3fd]; [0x1f468;0x1f3ff;0x200d;0x2764;0xfe0f;0x200d;0x1f48b;0x200d;0x1f468;0x1f3fe]; [0x1f468;0x1f3ff;0x200d;0x2764;0xfe0f;0x200d;0x1f48b;0x200d;0x1f468;0x1f3ff]; [0x1f469;0x200d;0x2764;0xfe0f;0x200d;0x1f48b;0x200d;0x1f469];
  [0x1f469;0x1f3fb;0x200d;0x2764;0xfe0f;0x200d;0x1f48b;0x200d;0x1f469;0x1f3fb]; [0x1f469;0x1f3fb;0x200d;0x2764;0xfe0f;0x200d;0x1f48b;0x200d;0x1f469;0x1f3fc]; [0x1f469;0x1f3fb;0x200d;0x2764;0xfe0f;0x200d;0x1f48b;0x200d;0x1f469;0x1f3fd]; [0x1f469;0x1f3fb;0x200d;0x2764;0xfe0f;0x200d;0x1f48b;0x200d;0x1f469;0x1f3fe]; [0x1f469;0x1f3fb;0x200d;0x2764;0xfe0f;0x200d;0x1f48b;0x200d;0x1f469;0x1f3ff]; [0x1f469;0x1f3fc;0x200d;0x2764;0xfe0f;0x200d;0x1f48b;0x200d;0x1f469;0x1f3fb]; [0x1f469;0x1f3fc;0x200d;0x2764;0xfe0f;0x200d;0x1f48b;0x200d;0x1f469;0x1f3fc]; [0x1f469;0x1f3fc;0x200d;0x2764;0xfe0f;0x200d;0x1f48b;0x200d;0x1f469;0x1f3fd]; [0x1f469;0x1f3fc;0x200d;0x2764;0xfe0f;0x200d;0x1f48b;0x200d;0x1f469;0x1f3fe]; [0x1f469;0x1f3fc;0x200d;0x2764;0xfe0f;0x200d;0x1f48b;0x200d;0x1f469;0x1f3ff]; [0x1f469;0x1f3fd;0x200d;0x2764;0xfe0f;0x200d;0x1f48b;0x200d;0x1f469;0x1f3fb]; [0x1f469;0x1f3fd;0x200d;0x2764;0xfe0f;0x200d;0x1f48b;0x200d;0x1f469;0x1f3fc];
  [0x1f469;0x1f3fd;0x200d;0x2764;0xfe0f;0x200d;0x1f48b;0x200d;0x1f469;0x1f3fd]; [0x1f469;0x1f3fd;0x200d;0x2764;0xfe0f;0x200d;0x1f48b;0x200d;0x1f469;0x1f3fe]; [0x1f469;0x1f3fd;0x200d;0x2764;0xfe0f;0x200d;0x1f48b;0x200d;0x1f469;0x1f3ff]; [0x1f469;0x1f3fe;0x200d;0x2764;0xfe0f;0x200d;0x1f48b;0x200d;0x1f469;0x1f3fb]; [0x1f469;0x1f3fe;0x200d;0x2764;0xfe0f;0x200d;0x1f48b;0x200d;0x1f469;0x1f3fc]; [0x1f469;0x1f3fe;0x200d;0x2764;0xfe0f;0x200d;0x1f48b;0x200d;0x1f469;0x1f3fd]; [0x1f469;0x1f3fe;0x200d;0x2764;0xfe0f;0x200d;0x1f48b;0x200d;0x1f469;0x1f3fe]; [0x1f469;0x1f3fe;0x200d;0x2764;0xfe0f;0x200d;0x1f48b;0x200d;0x1f469;0x1f3ff]; [0x1f469;0x1f3ff;0x200d;0x2764;0xfe0f;0x200d;0x1f48b;0x200d;0x1f469;0x1f3fb]; [0x1f469;0x1f3ff;0x200d;0x2764;0xfe0f;0x200d;0x1f48b;0x200d;0x1f469;0x1f3fc]; [0x1f469;0x1f3ff;0x200d;0x2764;0xfe0f;0x200d;0x1f48b;0x200d;0x1f469;0x1f3fd]; [0x1f469;0x1f3ff;0x200d;0x2764;0xfe0f;0x200d;0x1f48b;0x200d;0x1f469;0x1f3fe];
  [0x1f469;0x1f3ff;0x200d;0x2764;0xfe0f;0x200d;0x1f48b;0x200d;0x1f469;0x1f3ff]; [0x1f491]; [0x1f491;0x1f3fb]; [0x1f491;0x1f3fc]; [0x1f491;0x1f3fd]; [0x1f491;0x1f3fe]; [0x1f491;0x1f3ff]; [0x1f9d1;0x1f3fb;0x200d;0x2764;0xfe0f;0x200d;0x1f9d1;0x1f3fc]; [0x1f9d1;0x1f3fb;0x200d;0x2764;0xfe0f;0x200d;0x1f9d1;0x1f3fd]; [0x1f9d1;0x1f3fb;0x200d;0x2764;0xfe0f;0x200d;0x1f9d1;0x1f3fe]; [0x1f9d1;0x1f3fb;0x200d;0x2764;0xfe0f;0x200d;0x1f9d1;0x1f3ff]; [0x1f9d1;0x1f3fc;0x200d;0x2764;0xfe0f;0x200d;0x1f9d1;0x1f3fb];
  [0x1f9d1;0x1f3fc;0x200d;0x2764;0xfe0f;0x200d;0x1f9d1;0x1f3fd]; [0x1f9d1;0x1f3fc;0x200d;0x2764;0xfe0f;0x200d;0x1f9d1;0x1f3fe]; [0x1f9d1;0x1f3fc;0x200d;0x2764;0xfe0f;0x200d;0x1f9d1;0x1f3ff]; [0x1f9d1;0x1f3fd;0x200d;0x2764;0xfe0f;0x200d;0x1f9d1;0x1f3fb]; [0x1f9d1;0x1f3fd;0x200d;0x2764;0xfe0f;0x200d;0x1f9d1;0x1f3fc]; [0x1f9d1;0x1f3fd;0x200d;0x2764;0xfe0f;0x200d;0x1f9d1;0x1f3fe]; [0x1f9d1;0x1f3fd;0x200d;0x2764;0xfe0f;0x200d;0x1f9d1;0x1f3ff]; [0x1f9d1;0x1f3fe;0x200d;0x2764;0xfe0f;0x200d;0x1f9d1;0x1f3fb]; [0x1f9d1;0x1f3fe;0x200d;0x2764;0xfe0f;0x200d;0x1f9d1;0x1f3fc]; [0x1f9d1;0x1f3fe;0x200d;0x2764;0xfe0f;0x200d;0x1f9d1;0x1f3fd]; [0x1f9d1;0x1f3fe;0x200d;0x2764;0xfe0f;0x200d;0x1f9d1;0x1f3ff]; [0x1f9d1;0x1f3ff;0x200d;0x2764;0xfe0f;0x200d;0x1f9d1;0x1f3fb];
  [0x1f9d1;0x1f3ff;0x200d;0x2764;0xfe0f;0x200d;0x1f9d1;0x1f3fc]; [0x1f9d1;0x1f3ff;0x200d;0x2764;0xfe0f;0x200d;0x1f9d1;0x1f3fd]; [0x1f9d1;0x1f3ff;0x200d;0x2764;0xfe0f;0x200d;0x1f9d1;0x1f3fe]; [0x1f469;0x200d;0x2764;0xfe0f;0x200d;0x1f468]; [0x1f469;0x1f3fb;0x200d;0x2764;0xfe0f;0x200d;0x1f468;0x1f3fb]; [0x1f469;0x1f3fb;0x200d;0x2764;0xfe0f;0x200d;0x1f468;0x1f3fc]; [0x1f469;0x1f3fb;0x200d;0x2764;0xfe0f;0x200d;0x1f468;0x1f3fd]; [0x1f469;0x1f3fb;0x200d;0x2764;0xfe0f;0x200d;0x1f468;0x1f3fe]; [0x1f469;0x1f3fb;0x200d;0x2764;0xfe0f;0x200d;0x1f468;0x1f3ff]; [0x1f469;0x1f3fc;0x200d;0x2764;0xfe0f;0x200d;0x1f468;0x1f3fb]; [0x1f469;0x1f3fc;0x200d;0x2764;0xfe0f;0x200d;0x1f468;0x1f3fc]; [0x1f469;0x1f3fc;0x200d;0x2764;0xfe0f;0x200d;0x1f468;0x1f3fd];
  [0x1f469;0x1f3fc;0x200d;0x2764;0xfe0f;0x200d;0x1f468;0x1f3fe]; [0x1f469;0x1f3fc;0x200d;0x2764;0xfe0f;0x200d;0x1f468;0x1f3ff]; [0x1f469;0x1f3fd;0x200d;0x2764;0xfe0f;0x200d;0x1f468;0x1f3fb]; [0x1f469;0x1f3fd;0x200d;0x2764;0xfe0f;0x200d;0x1f468;0x1f3fc]; [0x1f469;0x1f3fd;0x200d;0x2764;0xfe0f;0x200d;0x1f468;0x1f3fd]; [0x1f469;0x1f3fd;0x200d;0x2764;0xfe0f;0x200d;0x1f468;0x1f3fe]; [0x1f469;0x1f3fd;0x200d;0x2764;0xfe0f;0x200d;0x1f468;0x1f3ff]; [0x1f469;0x1f3fe;0x200d;0x2764;0xfe0f;0x200d;0x1f468;0x1f3fb]; [0x1f469;0x1f3fe;0x200d;0x2764;0xfe0f;0x200d;0x1f468;0x1f3fc]; [0x1f469;0x1f3fe;0x200d;0x2764;0xfe0f;0x200d;0x1f468;0x1f3fd]; [0x1f469;0x1f3fe;0x200d;0x2764;0xfe0f;0x200d;0x1f468;0x1f3fe]; [0x1f469;0x1f3fe;0x200d;0x2764;0xfe0f;0x200d;0x1f468;0x1f3ff];
  [0x1f469;0x1f3ff;0x200d;0x2764;0xfe0f;0x200d;0x1f468;0x1f3fb]; [0x1f469;0x1f3ff;0x200d;0x2764;0xfe0f;0x200d;0x1f468;0x1f3fc]; [0x1f469;0x1f3ff;0x200d;0x2764;0xfe0f;0x200d;0x1f468;0x1f3fd]; [0x1f469;0x1f3ff;0x200d;0x2764;0xfe0f;0x200d;0x1f468;0x1f3fe]; [0x1f469;0x1f3ff;0x200d;0x2764;0xfe0f;0x200d;0x1f468;0x1f3ff]; [0x1f468;0x200d;0x2764;0xfe0f;0x200d;0x1f468]; [0x1f468;0x1f3fb;0x200d;0x2764;0xfe0f;0x200d;0x1f468;0x1f3fb]; [0x1f468;0x1f3fb;0x200d;0x2764;0xfe0f;0x200d;0x1f468;0x1f3fc]; [0x1f468;0x1f3fb;0x200d;0x2764;0xfe0f;0x200d;0x1f468;0x1f3fd]; [0x1f468;0x1f3fb;0x200d;0x2764;0xfe0f;0x200d;0x1f468;0x1f3fe]; [0x1f468;0x1f3fb;0x200d;0x2764;0xfe0f;0x200d;0x1f468;0x1f3ff]; [0x1f468;0x1f3fc;0x200d;0x2764;0xfe0f;0x200d;0x1f468;0x1f3fb];
  [0x1f468;0x1f3fc;0x200d;0x2764;0xfe0f;0x200d;0x1f468;0x1f3fc]; [0x1f468;0x1f3fc;0x200d;0x2764;0xfe0f;0x200d;0x1f468;0x1f3fd]; [0x1f468;0x1f3fc;0x200d;0x2764;0xfe0f;0x200d;0x1f468;0x1f3fe]; [0x1f468;0x1f3fc;0x200d;0x2764;0xfe0f;0x200d;0x1f468;0x1f3ff]; [0x1f468;0x1f3fd;0x200d;0x2764;0xfe0f;0x200d;0x1f468;0x1f3fb]; [0x1f468;0x1f3fd;0x200d;0x2764;0xfe0f;0x200d;0x1f468;0x1f3fc]; [0x1f468;0x1f3fd;0x200d;0x2764;0xfe0f;0x200d;0x1f468;0x1f3fd]; [0x1f468;0x1f3fd;0x200d;0x2764;0xfe0f;0x200d;0x1f468;0x1f3fe]; [0x1f468;0x1f3fd;0x200d;0x2764;0xfe0f;0x200d;0x1f468;0x1f3ff]; [0x1f468;0x1f3fe;0x200d;0x2764;0xfe0f;0x200d;0x1f468;0x1f3fb]; [0x1f468;0x1f3fe;0x200d;0x2764;0xfe0f;0x200d;0x1f468;0x1f3fc]; [0x1f468;0x1f3fe;0x200d;0x2764;0xfe0f;0x200d;0x1f468;0x1f3fd];
  [0x1f468;0x1f3fe;0x200d;0x2764;0xfe0f;0x200d;0x1f468;0x1f3fe]; [0x1f468;0x1f3fe;0x200d;0x2764;0xfe0f;0x200d;0x1f468;0x1f3ff]; [0x1f468;0x1f3ff;0x200d;0x2764;0xfe0f;0x200d;0x1f468;0x1f3fb]; [0x1f468;0x1f3ff;0x200d;0x2764;0xfe0f;0x200d;0x1f468;0x1f3fc]; [0x1f468;0x1f3ff;0x200d;0x2764;0xfe0f;0x200d;0x1f468;0x1f3fd]; [0x1f468;0x1f3ff;0x200d;0x2764;0xfe0f;0x200d;0x1f468;0x1f3fe]; [0x1f468;0x1f3ff;0x200d;0x2764;0xfe0f;0x200d;0x1f468;0x1f3ff]; [0x1f469;0x200d;0x2764;0xfe0f;0x200d;0x1f469]; [0x1f469;0x1f3fb;0x200d;0x2764;0xfe0f;0x200d;0x1f469;0x1f3fb]; [0x1f469;0x1f3fb;0x200d;0x2764;0xfe0f;0x200d;0x1f469;0x1f3fc]; [0x1f469;0x1f3fb;0x200d;0x2764;0xfe0f;0x200d;0x1f469;0x1f3fd]; [0x1f469;0x1f3fb;0x200d;0x2764;0xfe0f;0x200d;0x1f469;0x1f3fe];
  [0x1f469;0x1f3fb;0x200d;0x2764;0xfe0f;0x200d;0x1f469;0x1f3ff]; [0x1f469;0x1f3fc;0x200d;0x2764;0xfe0f;0x200d;0x1f469;0x1f3fb]; [0x1f469;0x1f3fc;0x200d;0x2764;0xfe0f;0x200d;0x1f469;0x1f3fc]; [0x1f469;0x1f3fc;0x200d;0x2764;0xfe0f;0x200d;0x1f469;0x1f3fd]; [0x1f469;0x1f3fc;0x200d;0x2764;0xfe0f;0x200d;0x1f469;0x1f3fe]; [0x1f469;0x1f3fc;0x200d;0x2764;0xfe0f;0x200d;0x1f469;0x1f3ff]; [0x1f469;0x1f3fd;0x200d;0x2764;0xfe0f;0x200d;0x1f469;0x1f3fb]; [0x1f469;0x1f3fd;0x200d;0x2764;0xfe0f;0x200d;0x1f469;0x1f3fc]; [0x1f469;0x1f3fd;0x200d;0x2764;0xfe0f;0x200d;0x1f469;0x1f3fd]; [0x1f469;0x1f3fd;0x200d;0x2764;0xfe0f;0x200d;0x1f469;0x1f3fe]; [0x1f469;0x1f3fd;0x200d;0x2764;0xfe0f;0x200d;0x1f469;0x1f3ff]; [0x1f469;0x1f3fe;0x200d;0x2764;0xfe0f;0x200d;0x1f469;0x1f3fb];
  [0x1f469;0x1f3fe;0x200d;0x2764;0xfe0f;0x200d;0x1f469;0x1f3fc]; [0x1f469;0x1f3fe;0x200d;0x2764;0xfe0f;0x200d;0x1f469;0x1f3fd]; [0x1f469;0x1f3fe;0x200d;0x2764;0xfe0f;0x200d;0x1f469;0x1f3fe]; [0x1f469;0x1f3fe;0x200d;0x2764;0xfe0f;0x200d;0x1f469;0x1f3ff]; [0x1f469;0x1f3ff;0x200d;0x2764;0xfe0f;0x200d;0x1f469;0x1f3fb]; [0x1f469;0x1f3ff;0x200d;0x2764;0xfe0f;0x200d;0x1f469;0x1f3fc]; [0x1f469;0x1f3ff;0x200d;0x2764;0xfe0f;0x200d;0x1f469;0x1f3fd]; [0x1f469;0x1f3ff;0x200d;0x2764;0xfe0f;0x200d;0x1f469;0x1f3fe]; [0x1f469;0x1f3ff;0x200d;0x2764;0xfe0f;0x200d;0x1f469;0x1f3ff]; [0x1f468;0x200d;0x1f469;0x200d;0x1f466]; [0x1f468;0x200d;0x1f469;0x200d;0x1f467]; [0x1f468;0x200d;0x1f469;0x200d;0x1f467;0x200d;0x1f466];
  [0x1f468;0x200d;0x1f469;0x200d;0x1f466;0x200d;0x1f466]; [0x1f468;0x200d;0x1f469;0x200d;0x1f467;0x200d;0x1f467]; [0x1f468;0x200d;0x1f468;0x200d;0x1f466]; [0x1f468;0x200d;0x1f468;0x200d;0x1f467]; [0x1f468;0x200d;0x1f468;0x200d;0x1f467;0x200d;0x1f466]; [0x1f468;0x200d;0x1f468;0x200d;0x1f466;0x200d;0x1f466]; [0x1f468;0x200d;0x1f468;0x200d;0x1f467;0x200d;0x1f467]; [0x1f469;0x200d;0x1f469;0x200d;0x1f466]; [0x1f469;0x200d;0x1f469;0x200d;0x1f467]; [0x1f469;0x200d;0x1f469;0x200d;0x1f467;0x200d;0x1f466]; [0x1f469;0x200d;0x1f469;0x200d;0x1f466;0x200d;0x1f466]; [0x1f469;0x200d;0x1f469;0x200d;0x1f467;0x200d;0x1f467];
  [0x1f468;0x200d;0x1f466]; [0x1f468;0x200d;0x1f466;0x200d;0x1f466]; [0x1f468;0x200d;0x1f467]; [0x1f468;0x200d;0x1f467;0x200d;0x1f466]; [0x1f468;0x200d;0x1f467;0x200d;0x1f467]; [0x1f469;0x200d;0x1f466]; [0x1f469;0x200d;0x1f466;0x200d;0x1f466]; [0x1f469;0x200d;0x1f467]; [0x1f469;0x200d;0x1f467;0x200d;0x1f466]; [0x1f469;0x200d;0x1f467;0x200d;0x1f467]; [0x1f5e3;0xfe0f]; [0x1f464];
  [0x1f465]; [0x1fac2]; [0x1f46a]; [0x1f9d1;0x200d;0x1f9d1;0x200d;0x1f9d2]; [0x1f9d1;0x200d;0x1f9d1;0x200d;0x1f9d2;0x200d;0x1f9d2]; [0x1f9d1;0x200d;0x1f9d2]; [0x1f9d1;0x200d;0x1f9d2;0x200d;0x1f9d2]; [0x1f463]; [0x1fac6]; [0x1f435]; [0x1f412]; [0x1f98d];
  [0x1f9a7]; [0x1f436]; [0x1f415]; [0x1f9ae]; [0x1f415;0x200d;0x1f9ba]; [0x1f429]; [0x1f43a]; [0x1f98a]; [0x1f99d]; [0x1f431]; [0x1f408]; [0x1f408;0x200d;0x2b1b];
  [0x1f981]; [0x1f42f]; [0x1f405]; [0x1f406]; [0x1f434]; [0x1face]; [0x1facf]; [0x1f40e]; [0x1f984]; [0x1f993]; [0x1f98c]; [0x1f9ac];
  [0x1f42e]; [0x1f402]; [0x1f403]; [0x1f404]; [0x1f437]; [0x1f416]; [0x1f417]; [0x1f43d]; [0x1f40f]; [0x1f411]; [0x1f410]; [0x1f42a];
  [0x1f42b]; [0x1f999]; [0x1f992]; [0x1f418]; [0x1f9a3]; [0x1f98f]; [0x1f99b]; [0x1f42d]; [0x1f401]; [0x1f400]; [0x1f439]; [0x1f430];
  [0x1f407]; [0x1f43f;0xfe0f]; [0x1f9ab]; [0x1f994]; [0x1f987]; [0x1f43b]; [0x1f43b;0x200d;0x2744;0xfe0f]; [0x1f428]; [0x1f43c]; [0x1f9a5]; [0x1f9a6]; [0x1f9a8];
  [0x1f998]; [0x1f9a1]; [0x1f43e]; [0x1f983]; [0x1f414]; [0x1f413]; [0x1f423]; [0x1f424]; [0x1f425]; [0x1f426]; [0x1f427]; [0x1f54a;0xfe0f];
  [0x1f985]; [0x1f986]; [0x1f9a2]; [0x1f989]; [0x1f9a4]; [0x1fab6]; [0x1f9a9]; [0x1f99a]; [0x1f99c]; [0x1fabd]; [0x1f426;0x200d;0x2b1b]; [0x1fabf];
  [0x1f426;0x200d;0x1f525]; [0x1f438]; [0x1f40a]; [0x1f422]; [0x1f98e]; [0x1f40d]; [0x1f432]; [0x1f409]; [0x1f995]; [0x1f996]; [0x1f433]; [0x1f40b];
  [0x1f42c]; [0x1facd]; [0x1f9ad]; [0x1f41f]; [0x1f420]; [0x1f421]; [0x1f988]; [0x1f419]; [0x1f41a]; [0x1fab8]; [0x1fabc]; [0x1f980];
  [0x1f99e]; [0x1f990]; [0x1f991]; [0x1f9aa]; [0x1f40c]; [0x1f98b]; [0x1f41b]; [0x1f41c]; [0x1f41d]; [0x1fab2]; [0x1f41e]; [0x1f997];
  [0x1fab3]; [0x1f577;0xfe0f]; [0x1f578;0xfe0f]; [0x1f982]; [0x1f99f]; [0x1fab0]; [0x1fab1]; [0x1f9a0]; [0x1f490]; [0x1f338]; [0x1f4ae]; [0x1fab7];
  [0x1f3f5;0xfe0f]; [0x1f339]; [0x1f940]; [0x1f33a]; [0x1f33b]; [0x1f33c]; [0x1f337]; [0x1fabb]; [0x1f331]; [0x1fab4]; [0x1f332]; [0x1f333];
  [0x1f334]; [0x1f335]; [0x1f33e]; [0x1f33f]; [0x2618;0xfe0f]; [0x1f340]; [0x1f341]; [0x1f342]; [0x1f343]; [0x1fab9]; [0x1faba]; [0x1f344];
  [0x1fabe]; [0x1f347]; [0x1f348]; [0x1f349]; [0x1f34a]; [0x1f34b]; [0x1f34b;0x200d;0x1f7e9]; [0x1f34c]; [0x1f34d]; [0x1f96d]; [0x1f34e]; [0x1f34f];
  [0x1f350]; [0x1f351]; [0x1f352]; [0x1f353]; [0x1fad0]; [0x1f95d]; [0x1f345]; [0x1fad2]; [0x1f965]; [0x1f951]; [0x1f346]; [0x1f954];
  [0x1f955]; [0x1f33d]; [0x1f336;0xfe0f]; [0x1fad1]; [0x1f952]; [0x1f96c]; [0x1f966]; [0x1f9c4]; [0x1f9c5]; [0x1f95c]; [0x1fad8]; [0x1f330];
  [0x1fada]; [0x1fadb]; [0x1f344;0x200d;0x1f7eb]; [0x1fadc]; [0x1f35e]; [0x1f950]; [0x1f956]; [0x1fad3]; [0x1f968]; [0x1f96f]; [0x1f95e]; [0x1f9c7];
  [0x1f9c0]; [0x1f356]; [0x1f357]; [0x1f969]; [0x1f953]; [0x1f354]; [0x1f35f]; [0x1f355]; [0x1f32d]; [0x1f96a]; [0x1f32e]; [0x1f32f];
  [0x1fad4]; [0x1f959]; [0x1f9c6]; [0x1f95a]; [0x1f373]; [0x1f958]; [0x1f372]; [0x1fad5]; [0x1f963]; [0x1f957]; [0x1f37f]; [0x1f9c8];
  [0x1f9c2]; [0x1f96b]; [0x1f371]; [0x1f358]; [0x1f359]; [0x1f35a]; [0x1f35b]; [0x1f35c]; [0x1f35d]; [0x1f360]; [0x1f362]; [0x1f363];
  [0x1f364]; [0x1f365]; [0x1f96e]; [0x1f361]; [0x1f95f]; [0x1f960]; [0x1f961]; [0x1f366]; [0x1f367]; [0x1f368]; [0x1f369]; [0x1f36a];
  [0x1f382]; [0x1f370]; [0x1f9c1]; [0x1f967]; [0x1f36b]; [0x1f36c]; [0x1f36d]; [0x1f36e]; [0x1f36f]; [0x1f37c]; [0x1f95b]; [0x2615];
  [0x1fad6]; [0x1f375]; [0x1f376]; [0x1f37e]; [0x1f377]; [0x1f378]; [0x1f379]; [0x1f37a]; [0x1f37b]; [0x1f942]; [0x1f943]; [0x1fad7];
  [0x1f964]; [0x1f9cb]; [0x1f9c3]; [0x1f9c9]; [0x1f9ca]; [0x1f962]; [0x1f37d;0xfe0f]; [0x1f374]; [0x1f944]; [0x1f52a]; [0x1fad9]; [0x1f3fa];
  [0x1f30d]; [0x1f30e]; [0x1f30f]; [0x1f310]; [0x1f5fa;0xfe0f]; [0x1f5fe]; [0x1f9ed]; [0x1f3d4;0xfe0f]; [0x26f0;0xfe0f]; [0x1f6d8]; [0x1f30b]; [0x1f5fb];
  [0x1f3d5;0xfe0f]; [0x1f3d6;0xfe0f]; [0x1f3dc;0xfe0f]; [0x1f3dd;0xfe0f]; [0x1f3de;0xfe0f]; [0x1f3df;0xfe0f]; [0x1f3db;0xfe0f]; [0x1f3d7;0xfe0f]; [0x1f9f1]; [0x1faa8]; [0x1fab5]; [0x1f6d6];
  [0x1f3d8;0xfe0f]; [0x1f3da;0xfe0f]; [0x1f3e0]; [0x1f3e1]; [0x1f3e2]; [0x1f3e3]; [0x1f3e4]; [0x1f3e5]; [0x1f3e6]; [0x1f3e8]; [0x1f3e9]; [0x1f3ea];
  [0x1f3eb]; [0x1f3ec]; [0x1f3ed]; [0x1f3ef]; [0x1f3f0]; [0x1f492]; [0x1f5fc]; [0x1f5fd]; [0x26ea]; [0x1f54c]; [0x1f6d5]; [0x1f54d];
  [0x26e9;0xfe0f]; [0x1f54b]; [0x26f2]; [0x26fa]; [0x1f301]; [0x1f303]; [0x1f3d9;0xfe0f]; [0x1f304]; [0x1f305]; [0x1f306]; [0x1f307]; [0x1f309];
  [0x2668;0xfe0f]; [0x1f3a0]; [0x1f6dd]; [0x1f3a1]; [0x1f3a2]; [0x1f488]; [0x1f3aa]; [0x1f682]; [0x1f683]; [0x1f684]; [0x1f685]; [0x1f686];
  [0x1f687]; [0x1f688]; [0x1f689]; [0x1f68a]; [0x1f69d]; [0x1f69e]; [0x1f68b]; [0x1f68c]; [0x1f68d]; [0x1f68e]; [0x1f690]; [0x1f691];
  [0x1f692]; [0x1f693]; [0x1f694]; [0x1f695]; [0x1f696]; [0x1f697]; [0x1f698]; [0x1f699]; [0x1f6fb]; [0x1f69a]; [0x1f69b]; [0x1f69c];
  [0x1f3ce;0xfe0f]; [0x1f3cd;0xfe0f]; [0x1f6f5]; [0x1f9bd]; [0x1f9bc]; [0x1f6fa]; [0x1f6b2]; [0x1f6f4]; [0x1f6f9]; [0x1f6fc]; [0x1f68f]; [0x1f6e3;0xfe0f];
  [0x1f6e4;0xfe0f]; [0x1f6e2;0xfe0f]; [0x26fd]; [0x1f6de]; [0x1f6a8]; [0x1f6a5]; [0x1f6a6]; [0x1f6d1]; [0x1f6a7]; [0x2693]; [0x1f6df]; [0x26f5];
  [0x1f6f6]; [0x1f6a4]; [0x1f6f3;0xfe0f]; [0x26f4;0xfe0f]; [0x1f6e5;0xfe0f]; [0x1f6a2]; [0x2708;0xfe0f]; [0x1f6e9;0xfe0f]; [0x1f6eb]; [0x1f6ec]; [0x1fa82]; [0x1f4ba];
  [0x1f681]; [0x1f69f]; [0x1f6a0]; [0x1f6a1]; [0x1f6f0;0xfe0f]; [0x1f680]; [0x1f6f8]; [0x1f6ce;0xfe0f]; [0x1f9f3]; [0x231b]; [0x23f3]; [0x231a];
  [0x23f0]; [0x23f1;0xfe0f]; [0x23f2;0xfe0f]; [0x1f570;0xfe0f]; [0x1f55b]; [0x1f567]; [0x1f550]; [0x1f55c]; [0x1f551]; [0x1f55d]; [0x1f552]; [0x1f55e];
  [0x1f553]; [0x1f55f]; [0x1f554]; [0x1f560]; [0x1f555]; [0x1f561]; [0x1f556]; [0x1f562]; [0x1f557]; [0x1f563]; [0x1f558]; [0x1f564];
  [0x1f559]; [0x1f565]; [0x1f55a]; [0x1f566]; [0x1f311]; [0x1f312]; [0x1f313]; [0x1f314]; [0x1f315]; [0x1f316]; [0x1f317]; [0x1f318];
  [0x1f319]; [0x1f31a]; [0x1f31b]; [0x1f31c]; [0x1f321;0xfe0f]; [0x2600;0xfe0f]; [0x1f31d]; [0x1f31e]; [0x1fa90]; [0x2b50]; [0x1f31f]; [0x1f320];
  [0x1f30c]; [0x2601;0xfe0f]; [0x26c5]; [0x26c8;0xfe0f]; [0x1f324;0xfe0f]; [0x1f325;0xfe0f]; [0x1f326;0xfe0f]; [0x1f327;0xfe0f]; [0x1f328;0xfe0f]; [0x1f329;0xfe0f]; [0x1f32a;0xfe0f]; [0x1f32b;0xfe0f];
  [0x1f32c;0xfe0f]; [0x1f300]; [0x1f308]; [0x1f302]; [0x2602;0xfe0f]; [0x2614]; [0x26f1;0xfe0f]; [0x26a1]; [0x2744;0xfe0f]; [0x2603;0xfe0f]; [0x26c4]; [0x2604;0xfe0f];
  [0x1f525]; [0x1f4a7]; [0x1f30a]; [0x1f383]; [0x1f384]; [0x1f386]; [0x1f387]; [0x1f9e8]; [0x2728]; [0x1f388]; [0x1f389]; [0x1f38a];
  [0x1f38b]; [0x1f38d]; [0x1f38e]; [0x1f38f]; [0x1f390]; [0x1f391]; [0x1f9e7]; [0x1f380]; [0x1f381]; [0x1f397;0xfe0f]; [0x1f39f;0xfe0f]; [0x1f3ab];
  [0x1f396;0xfe0f]; [0x1f3c6]; [0x1f3c5]; [0x1f947]; [0x1f948]; [0x1f949]; [0x26bd]; [0x26be]; [0x1f94e]; [0x1f3c0]; [0x1f3d0]; [0x1f3c8];
  [0x1f3c9]; [0x1f3be]; [0x1f94f]; [0x1f3b3]; [0x1f3cf]; [0x1f3d1]; [0x1f3d2]; [0x1f94d]; [0x1f3d3]; [0x1f3f8]; [0x1f94a]; [0x1f94b];
  [0x1f945]; [0x26f3]; [0x26f8;0xfe0f]; [0x1f3a3]; [0x1f93f]; [0x1f3bd]; [0x1f3bf]; [0x1f6f7]; [0x1f94c]; [0x1f3af]; [0x1fa80]; [0x1fa81];
  [0x1f52b]; [0x1f3b1]; [0x1f52e]; [0x1fa84]; [0x1f3ae]; [0x1f579;0xfe0f]; [0x1f3b0]; [0x1f3b2]; [0x1f9e9]; [0x1f9f8]; [0x1fa85]; [0x1faa9];
  [0x1fa86]; [0x2660;0xfe0f]; [0x2665;0xfe0f]; [0x2666;0xfe0f]; [0x2663;0xfe0f]; [0x265f;0xfe0f]; [0x1f0cf]; [0x1f004]; [0x1f3b4]; [0x1f3ad]; [0x1f5bc;0xfe0f]; [0x1f3a8];
  [0x1f9f5]; [0x1faa1]; [0x1f9f6]; [0x1faa2]; [0x1f453]; [0x1f576;0xfe0f]; [0x1f97d]; [0x1f97c]; [0x1f9ba]; [0x1f454]; [0x1f455]; [0x1f456];
  [0x1f9e3]; [0x1f9e4]; [0x1f9e5]; [0x1f9e6]; [0x1f457]; [0x1f458]; [0x1f97b]; [0x1fa71]; [0x1fa72]; [0x1fa73]; [0x1f459]; [0x1f45a];
  [0x1faad]; [0x1f45b]; [0x1f45c]; [0x1f45d]; [0x1f6cd;0xfe0f]; [0x1f392]; [0x1fa74]; [0x1f45e]; [0x1f45f]; [0x1f97e]; [0x1f97f]; [0x1f460];
  [0x1f461]; [0x1fa70]; [0x1f462]; [0x1faae]; [0x1f451]; [0x1f452]; [0x1f3a9]; [0x1f393]; [0x1f9e2]; [0x1fa96]; [0x26d1;0xfe0f]; [0x1f4ff];
  [0x1f484]; [0x1f48d]; [0x1f48e]; [0x1f507]; [0x1f508]; [0x1f509]; [0x1f50a]; [0x1f4e2]; [0x1f4e3]; [0x1f4ef]; [0x1f514]; [0x1f515];
  [0x1f3bc]; [0x1f3b5]; [0x1f3b6]; [0x1f399;0xfe0f]; [0x1f39a;0xfe0f]; [0x1f39b;0xfe0f]; [0x1f3a4]; [0x1f3a7]; [0x1f4fb]; [0x1f3b7]; [0x1f3ba]; [0x1fa8a];
  [0x1fa97]; [0x1f3b8]; [0x1f3b9]; [0x1f3bb]; [0x1fa95]; [0x1f941]; [0x1fa98]; [0x1fa87]; [0x1fa88]; [0x1fa89]; [0x1f4f1]; [0x1f4f2];
  [0x260e;0xfe0f]; [0x1f4de]; [0x1f4df]; [0x1f4e0]; [0x1f50b]; [0x1faab]; [0x1f50c]; [0x1f4bb]; [0x1f5a5;0xfe0f]; [0x1f5a8;0xfe0f]; [0x2328;0xfe0f]; [0x1f5b1;0xfe0f];
  [0x1f5b2;0xfe0f]; [0x1f4bd]; [0x1f4be]; [0x1f4bf]; [0x1f4c0]; [0x1f9ee]; [0x1f3a5]; [0x1f39e;0xfe0f]; [0x1f4fd;0xfe0f]; [0x1f3ac]; [0x1f4fa]; [0x1f4f7];
  [0x1f4f8]; [0x1f4f9]; [0x1f4fc]; [0x1f50d]; [0x1f50e]; [0x1f56f;0xfe0f]; [0x1f4a1]; [0x1f526]; [0x1f3ee]; [0x1fa94]; [0x1f4d4]; [0x1f4d5];
  [0x1f4d6]; [0x1f4d7]; [0x1f4d8]; [0x1f4d9]; [0x1f4da]; [0x1f4d3]; [0x1f4d2]; [0x1f4c3]; [0x1f4dc]; [0x1f4c4]; [0x1f4f0]; [0x1f5de;0xfe0f];
  [0x1f4d1]; [0x1f516]; [0x1f3f7;0xfe0f]; [0x1fa99]; [0x1f4b0]; [0x1fa8e]; [0x1f4b4]; [0x1f4b5]; [0x1f4b6]; [0x1f4b7]; [0x1f4b8]; [0x1f4b3];
  [0x1f9fe]; [0x1f4b9]; [0x2709;0xfe0f]; [0x1f4e7]; [0x1f4e8]; [0x1f4e9]; [0x1f4e4]; [0x1f4e5]; [0x1f4e6]; [0x1f4eb]; [0x1f4ea]; [0x1f4ec];
  [0x1f4ed]; [0x1f4ee]; [0x1f5f3;0xfe0f]; [0x270f;0xfe0f]; [0x2712;0xfe0f]; [0x1f58b;0xfe0f]; [0x1f58a;0xfe0f]; [0x1f58c;0xfe0f]; [0x1f58d;0xfe0f]; [0x1f4dd]; [0x1f4bc]; [0x1f4c1];
  [0x1f4c2]; [0x1f5c2;0xfe0f]; [0x1f4c5]; [0x1f4c6]; [0x1f5d2;0xfe0f]; [0x1f5d3;0xfe0f]; [0x1f4c7]; [0x1f4c8]; [0x1f4c9]; [0x1f4ca]; [0x1f4cb]; [0x1f4cc];
  [0x1f4cd]; [0x1f4ce]; [0x1f587;0xfe0f]; [0x1f4cf]; [0x1f4d0]; [0x2702;0xfe0f]; [0x1f5c3;0xfe0f]; [0x1f5c4;0xfe0f]; [0x1f5d1;0xfe0f]; [0x1f512]; [0x1f513]; [0x1f50f];
  [0x1f510]; [0x1f511]; [0x1f5dd;0xfe0f]; [0x1f528]; [0x1fa93]; [0x26cf;0xfe0f]; [0x2692;0xfe0f]; [0x1f6e0;0xfe0f]; [0x1f5e1;0xfe0f]; [0x2694;0xfe0f]; [0x1f4a3]; [0x1fa83];
  [0x1f3f9]; [0x1f6e1;0xfe0f]; [0x1fa9a]; [0x1f527]; [0x1fa9b]; [0x1f529]; [0x2699;0xfe0f]; [0x1f5dc;0xfe0f]; [0x2696;0xfe0f]; [0x1f9af]; [0x1f517]; [0x26d3;0xfe0f;0x200d;0x1f4a5];
  [0x26d3;0xfe0f]; [0x1fa9d]; [0x1f9f0]; [0x1f9f2]; [0x1fa9c]; [0x1fa8f]; [0x2697;0xfe0f]; [0x1f9ea]; [0x1f9eb]; [0x1f9ec]; [0x1f52c]; [0x1f52d];
  [0x1f4e1]; [0x1f489]; [0x1fa78]; [0x1f48a]; [0x1fa79]; [0x1fa7c]; [0x1fa7a]; [0x1fa7b]; [0x1f6aa]; [0x1f6d7]; [0x1fa9e]; [0x1fa9f];
  [0x1f6cf;0xfe0f]; [0x1f6cb;0xfe0f]; [0x1fa91]; [0x1f6bd]; [0x1faa0]; [0x1f6bf]; [0x1f6c1]; [0x1faa4]; [0x1fa92]; [0x1f9f4]; [0x1f9f7]; [0x1f9f9];
  [0x1f9fa]; [0x1f9fb]; [0x1faa3]; [0x1f9fc]; [0x1fae7]; [0x1faa5]; [0x1f9fd]; [0x1f9ef]; [0x1f6d2]; [0x1f6ac]; [0x26b0;0xfe0f]; [0x1faa6];
  [0x26b1;0xfe0f]; [0x1f9ff]; [0x1faac]; [0x1f5ff]; [0x1faa7]; [0x1faaa]; [0x1f3e7]; [0x1f6ae]; [0x1f6b0]; [0x267f]; [0x1f6b9]; [0x1f6ba];
  [0x1f6bb]; [0x1f6bc]; [0x1f6be]; [0x1f6c2]; [0x1f6c3]; [0x1f6c4]; [0x1f6c5]; [0x26a0;0xfe0f]; [0x1f6b8]; [0x26d4]; [0x1f6ab]; [0x1f6b3];
  [0x1f6ad]; [0x1f6af]; [0x1f6b1]; [0x1f6b7]; [0x1f4f5]; [0x1f51e]; [0x2622;0xfe0f]; [0x2623;0xfe0f]; [0x2b06;0xfe0f]; [0x2197;0xfe0f]; [0x27a1;0xfe0f]; [0x2198;0xfe0f];
  [0x2b07;0xfe0f]; [0x2199;0xfe0f]; [0x2b05;0xfe0f]; [0x2196;0xfe0f]; [0x2195;0xfe0f]; [0x2194;0xfe0f]; [0x21a9;0xfe0f]; [0x21aa;0xfe0f]; [0x2934;0xfe0f]; [0x2935;0xfe0f]; [0x1f503]; [0x1f504];
  [0x1f519]; [0x1f51a]; [0x1f51b]; [0x1f51c]; [0x1f51d]; [0x1f6d0]; [0x269b;0xfe0f]; [0x1f549;0xfe0f]; [0x2721;0xfe0f]; [0x2638;0xfe0f]; [0x262f;0xfe0f]; [0x271d;0xfe0f];
  [0x2626;0xfe0f]; [0x262a;0xfe0f]; [0x262e;0xfe0f]; [0x1f54e]; [0x1f52f]; [0x1faaf]; [0x2648]; [0x2649]; [0x264a]; [0x264b]; [0x264c]; [0x264d];
  [0x264e]; [0x264f]; [0x2650]; [0x2651]; [0x2652]; [0x2653]; [0x26ce]; [0x1f500]; [0x1f501]; [0x1f502]; [0x25b6;0xfe0f]; [0x23e9];
  [0x23ed;0xfe0f]; [0x23ef;0xfe0f]; [0x25c0;0xfe0f]; [0x23ea]; [0x23ee;0xfe0f]; [0x1f53c]; [0x23eb]; [0x1f53d]; [0x23ec]; [0x23f8;0xfe0f]; [0x23f9;0xfe0f]; [0x23fa;0xfe0f];
  [0x23cf;0xfe0f]; [0x1f3a6]; [0x1f505]; [0x1f506]; [0x1f4f6]; [0x1f6dc]; [0x1f4f3]; [0x1f4f4]; [0x2640;0xfe0f]; [0x2642;0xfe0f]; [0x26a7;0xfe0f]; [0x2716;0xfe0f];
  [0x2795]; [0x2796]; [0x2797]; [0x1f7f0]; [0x267e;0xfe0f]; [0x203c;0xfe0f]; [0x2049;0xfe0f]; [0x2753]; [0x2754]; [0x2755]; [0x2757]; [0x3030;0xfe0f];
  [0x1f4b1]; [0x1f4b2]; [0x2695;0xfe0f]; [0x267b;0xfe0f]; [0x269c;0xfe0f]; [0x1f531]; [0x1f4db]; [0x1f530]; [0x2b55]; [0x2705]; [0x2611;0xfe0f]; [0x2714;0xfe0f];
  [0x274c]; [0x274e]; [0x27b0]; [0x27bf]; [0x303d;0xfe0f]; [0x2733;0xfe0f]; [0x2734;0xfe0f]; [0x2747;0xfe0f]; [0xa9;0xfe0f]; [0xae;0xfe0f]; [0x2122;0xfe0f]; [0x1fadf];
  [0x23;0xfe0f;0x20e3]; [0x2a;0xfe0f;0x20e3]; [0x30;0xfe0f;0x20e3]; [0x31;0xfe0f;0x20e3]; [0x32;0xfe0f;0x20e3]; [0x33;0xfe0f;0x20e3]; [0x34;0xfe0f;0x20e3]; [0x35;0xfe0f;0x20e3]; [0x36;0xfe0f;0x20e3]; [0x37;0xfe0f;0x20e3]; [0x38;0xfe0f;0x20e3]; [0x39;0xfe0f;0x20e3];
  [0x1f51f]; [0x1f520]; [0x1f521]; [0x1f522]; [0x1f523]; [0x1f524]; [0x1f170;0xfe0f]; [0x1f18e]; [0x1f171;0xfe0f]; [0x1f191]; [0x1f192]; [0x1f193];
  [0x2139;0xfe0f]; [0x1f194]; [0x24c2;0xfe0f]; [0x1f195]; [0x1f196]; [0x1f17e;0xfe0f]; [0x1f197]; [0x1f17f;0xfe0f]; [0x1f198]; [0x1f199]; [0x1f19a]; [0x1f201];
  [0x1f202;0xfe0f]; [0x1f237;0xfe0f]; [0x1f236]; [0x1f22f]; [0x1f250]; [0x1f239]; [0x1f21a]; [0x1f232]; [0x1f251]; [0x1f238]; [0x1f234]; [0x1f233];
  [0x3297;0xfe0f]; [0x3299;0xfe0f]; [0x1f23a]; [0x1f235]; [0x1f534]; [0x1f7e0]; [0x1f7e1]; [0x1f7e2]; [0x1f535]; [0x1f7e3]; [0x1f7e4]; [0x26ab];
  [0x26aa]; [0x1f7e5]; [0x1f7e7]; [0x1f7e8]; [0x1f7e9]; [0x1f7e6]; [0x1f7ea]; [0x1f7eb]; [0x2b1b]; [0x2b1c]; [0x25fc;0xfe0f]; [0x25fb;0xfe0f];
  [0x25fe]; [0x25fd]; [0x25aa;0xfe0f]; [0x25ab;0xfe0f]; [0x1f536]; [0x1f537]; [0x1f538]; [0x1f539]; [0x1f53a]; [0x1f53b]; [0x1f4a0]; [0x1f518];
  [0x1f533]; [0x1f532]; [0x1f3c1]; [0x1f6a9]; [0x1f38c]; [0x1f3f4]; [0x1f3f3;0xfe0f]; [0x1f3f3;0xfe0f;0x200d;0x1f308]; [0x1f3f3;0xfe0f;0x200d;0x26a7;0xfe0f]; [0x1f3f4;0x200d;0x2620;0xfe0f]; [0x1f1e6;0x1f1e8]; [0x1f1e6;0x1f1e9];
  [0x1f1e6;0x1f1ea]; [0x1f1e6;0x1f1eb]; [0x1f1e6;0x1f1ec]; [0x1f1e6;0x1f1ee]; [0x1f1e6;0x1f1f1]; [0x1f1e6;0x1f1f2]; [0x1f1e6;0x1f1f4]; [0x1f1e6;0x1f1f6]; [0x1f1e6;0x1f1f7]; [0x1f1e6;0x1f1f8]; [0x1f1e6;0x1f1f9]; [0x1f1e6;0x1f1fa];
  [0x1f1e6;0x1f1fc]; [0x1f1e6;0x1f1fd]; [0x1f1e6;0x1f1ff]; [0x1f1e7;0x1f1e6]; [0x1f1e7;0x1f1e7]; [0x1f1e7;0x1f1e9]; [0x1f1e7;0x1f1ea]; [0x1f1e7;0x1f1eb]; [0x1f1e7;0x1f1ec]; [0x1f1e7;0x1f1ed]; [0x1f1e7;0x1f1ee]; [0x1f1e7;0x1f1ef];
  [0x1f1e7;0x1f1f1]; [0x1f1e7;0x1f1f2]; [0x1f1e7;0x1f1f3]; [0x1f1e7;0x1f1f4]; [0x1f1e7;0x1f1f6]; [0x1f1e7;0x1f1f7]; [0x1f1e7;0x1f1f8]; [0x1f1e7;0x1f1f9]; [0x1f1e7;0x1f1fb]; [0x1f1e7;0x1f1fc]; [0x1f1e7;0x1f1fe]; [0x1f1e7;0x1f1ff];
  [0x1f1e8;0x1f1e6]; [0x1f1e8;0x1f1e8]; [0x1f1e8;0x1f1e9]; [0x1f1e8;0x1f1eb]; [0x1f1e8;0x1f1ec]; [0x1f1e8;0x1f1ed]; [0x1f1e8;0x1f1ee]; [0x1f1e8;0x1f1f0]; [0x1f1e8;0x1f1f1]; [0x1f1e8;0x1f1f2]; [0x1f1e8;0x1f1f3]; [0x1f1e8;0x1f1f4];
  [0x1f1e8;0x1f1f5]; [0x1f1e8;0x1f1f6]; [0x1f1e8;0x1f1f7]; [0x1f1e8;0x1f1fa]; [0x1f1e8;0x1f1fb]; [0x1f1e8;0x1f1fc]; [0x1f1e8;0x1f1fd]; [0x1f1e8;0x1f1fe]; [0x1f1e8;0x1f1ff]; [0x1f1e9;0x1f1ea]; [0x1f1e9;0x1f1ec]; [0x1f1e9;0x1f1ef];
  [0x1f1e9;0x1f1f0]; [0x1f1e9;0x1f1f2]; [0x1f1e9;0x1f1f4]; [0x1f1e9;0x1f1ff]; [0x1f1ea;0x1f1e6]; [0x1f1ea;0x1f1e8]; [0x1f1ea;0x1f1ea]; [0x1f1ea;0x1f1ec]; [0x1f1ea;0x1f1ed]; [0x1f1ea;0x1f1f7]; [0x1f1ea;0x1f1f8]; [0x1f1ea;0x1f1f9];
  [0x1f1ea;0x1f1fa]; [0x1f1eb;0x1f1ee]; [0x1f1eb;0x1f1ef]; [0x1f1eb;0x1f1f0]; [0x1f1eb;0x1f1f2]; [0x1f1eb;0x1f1f4]; [0x1f1eb;0x1f1f7]; [0x1f1ec;0x1f1e6]; [0x1f1ec;0x1f1e7]; [0x1f1ec;0x1f1e9]; [0x1f1ec;0x1f1ea]; [0x1f1ec;0x1f1eb];
  [0x1f1ec;0x1f1ec]; [0x1f1ec;0x1f1ed]; [0x1f1ec;0x1f1ee]; [0x1f1ec;0x1f1f1]; [0x1f1ec;0x1f1f2]; [0x1f1ec;0x1f1f3]; [0x1f1ec;0x1f1f5]; [0x1f1ec;0x1f1f6]; [0x1f1ec;0x1f1f7]; [0x1f1ec;0x1f1f8]; [0x1f1ec;0x1f1f9]; [0x1f1ec;0x1f1fa];
  [0x1f1ec;0x1f1fc]; [0x1f1ec;0x1f1fe]; [0x1f1ed;0x1f1f0]; [0x1f1ed;0x1f1f2]; [0x1f1ed;0x1f1f3]; [0x1f1ed;0x1f1f7]; [0x1f1ed;0x1f1f9]; [0x1f1ed;0x1f1fa]; [0x1f1ee;0x1f1e8]; [0x1f1ee;0x1f1e9]; [0x1f1ee;0x1f1ea]; [0x1f1ee;0x1f1f1];
  [0x1f1ee;0x1f1f2]; [0x1f1ee;0x1f1f3]; [0x1f1ee;0x1f1f4]; [0x1f1ee;0x1f1f6]; [0x1f1ee;0x1f1f7]; [0x1f1ee;0x1f1f8]; [0x1f1ee;0x1f1f9]; [0x1f1ef;0x1f1ea]; [0x1f1ef;0x1f1f2]; [0x1f1ef;0x1f1f4]; [0x1f1ef;0x1f1f5]; [0x1f1f0;0x1f1ea];
  [0x1f1f0;0x1f1ec]; [0x1f1f0;0x1f1ed]; [0x1f1f0;0x1f1ee]; [0x1f1f0;0x1f1f2]; [0x1f1f0;0x1f1f3]; [0x1f1f0;0x1f1f5]; [0x1f1f0;0x1f1f7]; [0x1f1f0;0x1f1fc]; [0x1f1f0;0x1f1fe]; [0x1f1f0;0x1f1ff]; [0x1f1f1;0x1f1e6]; [0x1f1f1;0x1f1e7];
  [0x1f1f1;0x1f1e8]; [0x1f1f1;0x1f1ee]; [0x1f1f1;0x1f1f0]; [0x1f1f1;0x1f1f7]; [0x1f1f1;0x1f1f8]; [0x1f1f1;0x1f1f9]; [0x1f1f1;0x1f1fa]; [0x1f1f1;0x1f1fb]; [0x1f1f1;0x1f1fe]; [0x1f1f2;0x1f1e6]; [0x1f1f2;0x1f1e8]; [0x1f1f2;0x1f1e9];
  [0x1f1f2;0x1f1ea]; [0x1f1f2;0x1f1eb]; [0x1f1f2;0x1f1ec]; [0x1f1f2;0x1f1ed]; [0x1f1f2;0x1f1f0]; [0x1f1f2;0x1f1f1]; [0x1f1f2;0x1f1f2]; [0x1f1f2;0x1f1f3]; [0x1f1f2;0x1f1f4]; [0x1f1f2;0x1f1f5]; [0x1f1f2;0x1f1f6]; [0x1f1f2;0x1f1f7];
  [0x1f1f2;0x1f1f8]; [0x1f1f2;0x1f1f9]; [0x1f1f2;0x1f1fa]; [0x1f1f2;0x1f1fb]; [0x1f1f2;0x1f1fc]; [0x1f1f2;0x1f1fd]; [0x1f1f2;0x1f1fe]; [0x1f1f2;0x1f1ff]; [0x1f1f3;0x1f1e6]; [0x1f1f3;0x1f1e8]; [0x1f1f3;0x1f1ea]; [0x1f1f3;0x1f1eb];
  [0x1f1f3;0x1f1ec]; [0x1f1f3;0x1f1ee]; [0x1f1f3;0x1f1f1]; [0x1f1f3;0x1f1f4]; [0x1f1f3;0x1f1f5]; [0x1f1f3;0x1f1f7]; [0x1f1f3;0x1f1fa]; [0x1f1f3;0x1f1ff]; [0x1f1f4;0x1f1f2]; [0x1f1f5;0x1f1e6]; [0x1f1f5;0x1f1ea]; [0x1f1f5;0x1f1eb];
  [0x1f1f5;0x1f1ec]; [0x1f1f5;0x1f1ed]; [0x1f1f5;0x1f1f0]; [0x1f1f5;0x1f1f1]; [0x1f1f5;0x1f1f2]; [0x1f1f5;0x1f1f3]; [0x1f1f5;0x1f1f7]; [0x1f1f5;0x1f1f8]; [0x1f1f5;0x1f1f9]; [0x1f1f5;0x1f1fc]; [0x1f1f5;0x1f1fe]; [0x1f1f6;0x1f1e6];
  [0x1f1f7;0x1f1ea]; [0x1f1f7;0x1f1f4]; [0x1f1f7;0x1f1f8]; [0x1f1f7;0x1f1fa]; [0x1f1f7;0x1f1fc]; [0x1f1f8;0x1f1e6]; [0x1f1f8;0x1f1e7]; [0x1f1f8;0x1f1e8]; [0x1f1f8;0x1f1e9]; [0x1f1f8;0x1f1ea]; [0x1f1f8;0x1f1ec]; [0x1f1f8;0x1f1ed];
  [0x1f1f8;0x1f1ee]; [0x1f1f8;0x1f1ef]; [0x1f1f8;0x1f1f0]; [0x1f1f8;0x1f1f1]; [0x1f1f8;0x1f1f2]; [0x1f1f8;0x1f1f3]; [0x1f1f8;0x1f1f4]; [0x1f1f8;0x1f1f7]; [0x1f1f8;0x1f1f8]; [0x1f1f8;0x1f1f9]; [0x1f1f8;0x1f1fb]; [0x1f1f8;0x1f1fd];
  [0x1f1f8;0x1f1fe]; [0x1f1f8;0x1f1ff]; [0x1f1f9;0x1f1e6]; [0x1f1f9;0x1f1e8]; [0x1f1f9;0x1f1e9]; [0x1f1f9;0x1f1eb]; [0x1f1f9;0x1f1ec]; [0x1f1f9;0x1f1ed]; [0x1f1f9;0x1f1ef]; [0x1f1f9;0x1f1f0]; [0x1f1f9;0x1f1f1]; [0x1f1f9;0x1f1f2];
  [0x1f1f9;0x1f1f3]; [0x1f1f9;0x1f1f4]; [0x1f1f9;0x1f1f7]; [0x1f1f9;0x1f1f9]; [0x1f1f9;0x1f1fb]; [0x1f1f9;0x1f1fc]; [0x1f1f9;0x1f1ff]; [0x1f1fa;0x1f1e6]; [0x1f1fa;0x1f1ec]; [0x1f1fa;0x1f1f2]; [0x1f1fa;0x1f1f3]; [0x1f1fa;0x1f1f8];
  [0x1f1fa;0x1f1fe]; [0x1f1fa;0x1f1ff]; [0x1f1fb;0x1f1e6]; [0x1f1fb;0x1f1e8]; [0x1f1fb;0x1f1ea]; [0x1f1fb;0x1f1ec]; [0x1f1fb;0x1f1ee]; [0x1f1fb;0x1f1f3]; [0x1f1fb;0x1f1fa]; [0x1f1fc;0x1f1eb]; [0x1f1fc;0x1f1f8]; [0x1f1fd;0x1f1f0];
  [0x1f1fe;0x1f1ea]; [0x1f1fe;0x1f1f9]; [0x1f1ff;0x1f1e6]; [0x1f1ff;0x1f1f2]; [0x1f1ff;0x1f1fc]; [0x1f3f4;0xe0067;0xe0062;0xe0065;0xe006e;0xe0067;0xe007f]; [0x1f3f4;0xe0067;0xe0062;0xe0073;0xe0063;0xe0074;0xe007f]; [0x1f3f4;0xe0067;0xe0062;0xe0077;0xe006c;0xe0073;0xe007f]].

