(* ===== verification/TagGrammar.v ===== *)
(** * Tag recognition (web/src/utils/tag-grammar.ts)

    The scanner of `#tag` candidates: the emoji trie, the binary search in the
    Unicode tables, segments, candidates and the enumeration of a run.  Offsets are
    UTF-16 offsets.  The grammar of docs/adr/0001-tag-syntax-and-recognition.md is
    stated as inference rules, and the scanner is proved to recognise it, longest
    prefix first. *)

From S2P Require Import Prelude JSString TagUnicodeData.

Record TagMatch := { tm_from : nat; tm_to : nat; tm_source : jstring; tm_value : jstring }.

(** ** The emoji trie *)

Inductive EmojiTrieNode := TrieNode (terminal : bool) (children : gmap Z EmojiTrieNode).
Definition terminal (n : EmojiTrieNode) : bool := let 'TrieNode t _ := n in t.
Definition children (n : EmojiTrieNode) : gmap Z EmojiTrieNode := let 'TrieNode _ c := n in c.
Definition empty_node : EmojiTrieNode := TrieNode false ∅.

Fixpoint trie_insert (emoji : list Z) (node : EmojiTrieNode) : EmojiTrieNode :=
  match emoji with
  | [] => TrieNode true (children node)
  | value :: emoji' =>
      let child := default empty_node (children node !! value) in
      TrieNode (terminal node) (<[value := trie_insert emoji' child]> (children node))
  end.

Definition build_trie (emojis : list (list Z)) : EmojiTrieNode :=
  foldl (fun trie emoji => trie_insert emoji trie) empty_node emojis.

Definition emojiTrie : EmojiTrieNode := build_trie FULLY_QUALIFIED_EMOJI.

(** [codePointAt]: the code point as a string, empty past the end. *)
Definition codePointAt (source : jstring) (index : nat) : jstring :=
  match code_point_at source index with
  | None => []
  | Some value => from_code_point value
  end.

(** ** Ranges *)

Definition isInRanges_body (codePoint : Z) (ranges : list Z) (st : Z * Z * option bool)
    : option (Z * Z * option bool) :=
  let '(low, high, found) := st in
  match found with
  | Some _ => None
  | None =>
      if low <=? high then
        let middle := (low + high) / 2 in
        let from := default 0 (ranges !! Z.to_nat (middle * 2)) in
        let to := default 0 (ranges !! Z.to_nat (middle * 2 + 1)) in
        if codePoint <? from then Some (low, middle - 1, None)
        else if to <? codePoint then Some (middle + 1, high, None)
        else Some (low, high, Some true)
      else None
  end.

Definition isInRanges_measure (st : Z * Z * option bool) : nat :=
  let '(low, high, found) := st in
  match found with Some _ => 0 | None => Datatypes.S (Z.to_nat (high - low + 1)) end.

Definition isInRanges (codePoint : Z) (ranges : list Z) : bool :=
  let st := (0, Z.of_nat (length ranges) / 2 - 1, None) in
  let '(_, _, found) := while_m isInRanges_measure (isInRanges_body codePoint ranges) st in
  default false found.

(** ** Emoji *)

Definition emojiAt_body (source : jstring) (limit : nat)
    (st : EmojiTrieNode * nat * option nat) : option (EmojiTrieNode * nat * option nat) :=
  let '(node, cursor, longestEnd) := st in
  if (cursor <? limit)%nat then
    match code_point_at source cursor with
    | None => None
    | Some codePoint =>
        match children node !! codePoint with
        | None => None
        | Some child =>
            let cursor' := (cursor + code_point_size codePoint)%nat in
            if (limit <? cursor')%nat then None
            else Some (child, cursor', if terminal child then Some cursor' else longestEnd)
        end
    end
  else None.

Definition emojiAt_end (trie : EmojiTrieNode) (source : jstring) (index limit : nat) : option nat :=
  (while_m (fun st : EmojiTrieNode * nat * option nat => (limit - st.1.2)%nat)
           (emojiAt_body source limit) (trie, index, None)).2.

Definition emojiAt (source : jstring) (index limit : nat) : option jstring :=
  match emojiAt_end emojiTrie source index limit with
  | None => None
  | Some longestEnd => Some (slice source index longestEnd)
  end.

Definition isTagIntroducerAt (source : jstring) (index limit : nat) : bool :=
  (index <? limit)%nat && bool_decide (source !! index = Some 35)
  && match emojiAt source index limit with Some _ => false | None => true end.

(** ** Classes of one code point, given as a string *)

Definition code_of (value : jstring) : Z := default 0 (code_point_at value 0).

Definition isDefaultIgnorable (value : jstring) : bool :=
  isInRanges (code_of value) DEFAULT_IGNORABLE_RANGES.

Definition isXIDContinue (value : jstring) : bool :=
  isInRanges (code_of value) XID_CONTINUE_RANGES && negb (isDefaultIgnorable value).

Definition isCombiningMark (value : jstring) : bool :=
  isInRanges (code_of value) COMBINING_MARK_RANGES.

Definition isExtensionUnit (value : jstring) : bool :=
  js_eqb value (u "-") || js_eqb value (u "+") || js_eqb value (u "&").

Definition isApostropheJoiner (value : jstring) : bool :=
  js_eqb value (u "'") || js_eqb value [0x2019].

Definition isNonCombiningXIDContinuationAt (source : jstring) (index limit : nat) : bool :=
  if (limit <=? index)%nat || match emojiAt source index limit with Some _ => true | None => false end
  then false
  else
    let value := codePointAt source index in
    (index + length value <=? limit)%nat && isXIDContinue value && negb (isCombiningMark value).

(** ** Segments *)

Record SegmentMatch := { seg_to : nat; seg_value : jstring }.

Definition ignored_prefix_body (source : jstring) (limit index : nat) : option nat :=
  if (index <? limit)%nat then
    let codePoint := codePointAt source index in
    if isDefaultIgnorable codePoint || (isXIDContinue codePoint && isCombiningMark codePoint)
    then Some (index + length codePoint)%nat
    else None
  else None.

Definition segment_body (source : jstring) (limit : nat) (st : nat * jstring * bool)
    : option (nat * jstring * bool) :=
  let '(index, value, previousWasXIDContinuation) := st in
  if (index <? limit)%nat then
    match emojiAt source index limit with
    | Some emoji => Some ((index + length emoji)%nat, value ++ emoji, false)
    | None =>
        let codePoint := codePointAt source index in
        if isDefaultIgnorable codePoint
        then Some ((index + length codePoint)%nat, value, false)
        else if isApostropheJoiner codePoint && previousWasXIDContinuation
                && isNonCombiningXIDContinuationAt source (index + length codePoint) limit
        then Some ((index + length codePoint)%nat, value ++ codePoint, false)
        else if isXIDContinue codePoint || isExtensionUnit codePoint
        then Some ((index + length codePoint)%nat, value ++ codePoint, isXIDContinue codePoint)
        else None
    end
  else None.

Definition segment_continue (source : jstring) (limit : nat) (st : nat * jstring * bool)
    : SegmentMatch :=
  let '(index, value, _) :=
    while_m (fun st : nat * jstring * bool => (limit - st.1.1)%nat) (segment_body source limit) st in
  {| seg_to := index; seg_value := value |}.

Definition scanSegment (source : jstring) (from limit : nat) : option SegmentMatch :=
  let index := while_m (fun index => (limit - index)%nat) (ignored_prefix_body source limit) from in
  match emojiAt source index limit with
  | Some starterEmoji =>
      Some (segment_continue source limit
              ((index + length starterEmoji)%nat, starterEmoji, false))
  | None =>
      let starter := codePointAt source index in
      if js_eqb starter []
         || (negb (isXIDContinue starter && negb (isCombiningMark starter))
             && negb (isExtensionUnit starter))
      then None
      else Some (segment_continue source limit
                   ((index + length starter)%nat, starter, isXIDContinue starter))
  end.

(** ** Candidates *)

Definition segments_body (source : jstring) (limit : nat) (st : nat * jstring)
    : option (nat * jstring) :=
  let '(to, value) := st in
  if (to <? limit)%nat && bool_decide (source !! to = Some 47) then
    match scanSegment source (to + 1) limit with
    | None => None
    | Some nextSegment => Some (seg_to nextSegment, value ++ [47] ++ seg_value nextSegment)
    end
  else None.

Definition scanTagAt (source : jstring) (from limit : nat) : option TagMatch :=
  if negb (isTagIntroducerAt source from limit) then None
  else match scanSegment source (from + 1) limit with
  | None => None
  | Some firstSegment =>
      let '(to, value) :=
        while_m (fun st : nat * jstring => (limit - st.1)%nat) (segments_body source limit)
                (seg_to firstSegment, seg_value firstSegment) in
      Some {| tm_from := from; tm_to := to;
              tm_source := slice source (from + 1) to; tm_value := value |}
  end.

Definition findTagMatches_body (source : jstring) (limit : nat) (st : nat * list TagMatch)
    : option (nat * list TagMatch) :=
  let '(index, matches) := st in
  if (index <? limit)%nat then
    match emojiAt source index limit with
    | Some emoji => Some ((index + length emoji)%nat, matches)
    | None =>
        let step := Some ((index + length (codePointAt source index))%nat, matches) in
        if bool_decide (source !! index = Some 35) then
          match scanTagAt source index limit with
          | Some m => Some (tm_to m, matches ++ [m])
          | None => step
          end
        else step
    end
  else None.

Definition findTagMatches (source : jstring) (from limit : nat) : list TagMatch :=
  (while_m (fun st : nat * list TagMatch => (limit - st.1)%nat)
           (findTagMatches_body source limit) (from, [])).2.

(** ** Ranges: the declarative reading and the binary search *)

(** The pairs of a flat table. *)
Fixpoint pairs_of (ranges : list Z) : list (Z * Z) :=
  match ranges with
  | a :: b :: ranges' => (a, b) :: pairs_of ranges'
  | _ => []
  end.

Definition in_ranges (c : Z) (ranges : list Z) : Prop :=
  exists a b, (a, b) ∈ pairs_of ranges /\ a <= c <= b.

(** Bounds in order, no two ranges overlapping. *)
Fixpoint sorted_ranges (lo : Z) (ranges : list (Z * Z)) : bool :=
  match ranges with
  | [] => true
  | (a, b) :: ranges' => (lo <? a) && (a <=? b) && sorted_ranges b ranges'
  end.

Definition good_table (ranges : list Z) : bool :=
  sorted_ranges (-1) (pairs_of ranges) && (Z.of_nat (length ranges) mod 2 =? 0).

Lemma pairs_of_lookup ranges k a b :
  pairs_of ranges !! k = Some (a, b) ->
  ranges !! (2 * k)%nat = Some a /\ ranges !! (2 * k + 1)%nat = Some b.
Proof.
  assert (forall n (l : list Z), (length l <= n)%nat -> forall k, pairs_of l !! k = Some (a, b) ->
    l !! (2 * k)%nat = Some a /\ l !! (2 * k + 1)%nat = Some b) as H; [|by eapply H].
  induction n as [|n IH]; intros l Hl k'.
  - destruct l; [by destruct k'|simpl in Hl; lia].
  - destruct l as [|x [|y l]]; [by destruct k'..|]. destruct k' as [|k'].
    + intros [= -> ->]. done.
    + intros Hk. simpl in Hl, Hk. destruct (IH l ltac:(lia) _ Hk) as [H1 H2].
      replace (2 * Datatypes.S k')%nat with (Datatypes.S (Datatypes.S (2 * k'))) by lia.
      done.
Qed.

Lemma length_pairs_of ranges : length (pairs_of ranges) = (length ranges / 2)%nat.
Proof.
  assert (forall n (l : list Z), (length l <= n)%nat -> length (pairs_of l) = (length l / 2)%nat) as H;
    [|by eapply H].
  induction n as [|n IH]; intros l Hl.
  - by destruct l; [|simpl in Hl; lia].
  - destruct l as [|x [|y l]]; [done..|]. simpl length in *. rewrite IH by lia.
    replace (Datatypes.S (Datatypes.S (length l))) with (length l + 1 * 2)%nat by lia.
    rewrite Nat.div_add by done. lia.
Qed.

Lemma sorted_ranges_bound lo l k a b :
  sorted_ranges lo l = true -> l !! k = Some (a, b) -> lo < a <= b.
Proof.
  revert lo k. induction l as [|[x y] l IH]; intros lo k; [done|]. simpl.
  intros H Hk. bool_prop. destruct k as [|k]; simpl in Hk; [simplify_eq; lia|].
  match goal with Hs : sorted_ranges _ _ = true |- _ => destruct (IH _ _ Hs Hk) end. lia.
Qed.

Lemma sorted_ranges_lt lo l k1 k2 a1 b1 a2 b2 :
  sorted_ranges lo l = true -> l !! k1 = Some (a1, b1) -> l !! k2 = Some (a2, b2) ->
  (k1 < k2)%nat -> b1 < a2.
Proof.
  revert lo k1 k2. induction l as [|[x y] l IH]; intros lo k1 k2; [done|]. simpl.
  intros H H1 H2 Hk. bool_prop. destruct k2 as [|k2]; [lia|]. simpl in H2.
  match goal with Hs : sorted_ranges _ _ = true |- _ =>
    destruct k1 as [|k1]; simpl in H1; [simplify_eq; apply (sorted_ranges_bound _ _ _ _ _ Hs) in H2; lia|eapply IH; [done|done|done|lia]] end.
Qed.

Lemma isInRanges_decreases c ranges : decreases isInRanges_measure (isInRanges_body c ranges).
Proof.
  intros [[lo hi] [f|]] [[lo' hi'] f']; simpl; [done|].
  destruct (lo <=? hi) eqn:E; [|done]. bool_prop.
  assert (lo <= (lo + hi) / 2 <= hi) by (Z.div_mod_to_equations; lia).
  repeat case_match; intros; simplify_eq; lia.
Qed.

(** What the search knows: the ranges left of [low] end before [c], those right of
    [high] start after it. *)
Definition search_inv (c : Z) (l : list (Z * Z)) (st : Z * Z * option bool) : Prop :=
  let '(low, high, found) := st in
  0 <= low /\ high < Z.of_nat (length l)
  /\ (forall k a b, l !! k = Some (a, b) -> Z.of_nat k < low -> b < c)
  /\ (forall k a b, l !! k = Some (a, b) -> high < Z.of_nat k -> c < a)
  /\ match found with
     | None => True
     | Some f => f = true /\ exists a b, (a, b) ∈ l /\ a <= c <= b
     end.

Lemma search_inv_step c ranges st st' :
  sorted_ranges (-1) (pairs_of ranges) = true ->
  search_inv c (pairs_of ranges) st -> isInRanges_body c ranges st = Some st' ->
  search_inv c (pairs_of ranges) st'.
Proof.
  intros Hs. destruct st as [[low high] [f|]]; simpl; [done|].
  intros (H1 & H2 & H3 & H4 & _). destruct (low <=? high) eqn:E; [|done]. bool_prop.
  set (mid := (low + high) / 2).
  assert (low <= mid <= high) as Hm by (unfold mid; Z.div_mod_to_equations; lia).
  destruct (lookup_lt_is_Some_2 (pairs_of ranges) (Z.to_nat mid)) as [[a b] Hk]; [lia|].
  destruct (pairs_of_lookup _ _ _ _ Hk) as [Ha Hb].
  replace (Z.to_nat (mid * 2)) with (2 * Z.to_nat mid)%nat by lia.
  replace (Z.to_nat (mid * 2 + 1)) with (2 * Z.to_nat mid + 1)%nat by lia.
  rewrite Ha, Hb. simpl.
  pose proof (sorted_ranges_bound _ _ _ _ _ Hs Hk) as Hab.
  destruct (c <? a) eqn:E1; [|destruct (b <? c) eqn:E2]; intros [= <-]; bool_prop.
  - repeat split; [lia|lia|done|].
    intros k a' b' Hk' Hlt. destruct (decide (k = Z.to_nat mid)) as [->|]; [congruence|].
    pose proof (sorted_ranges_lt _ _ _ _ _ _ _ _ Hs Hk Hk'). lia.
  - repeat split; [lia|lia| |done].
    intros k a' b' Hk' Hlt. destruct (decide (k = Z.to_nat mid)) as [->|]; [congruence|].
    pose proof (sorted_ranges_lt _ _ _ _ _ _ _ _ Hs Hk' Hk). lia.
  - repeat split; [lia|lia|done|done|]. exists a, b.
    split; [by eapply list_elem_of_lookup_2|lia].
Qed.

Lemma isInRanges_iff c ranges :
  good_table ranges = true -> isInRanges c ranges = true <-> in_ranges c ranges.
Proof.
  unfold good_table. intros [Hs Hlen]%andb_prop. bool_prop.
  unfold isInRanges. cbv zeta. set (st0 := (0, _, None)).
  assert (search_inv c (pairs_of ranges) st0) as H0.
  { assert (Z.of_nat (length ranges) / 2 = Z.of_nat (length (pairs_of ranges))) as El.
    { rewrite length_pairs_of, Nat2Z.inj_div. done. }
    unfold st0. rewrite El. repeat split; [lia|lia|lia|]. intros k a b Hk.
    apply lookup_lt_Some in Hk. lia. }
  pose proof (while_m_inv (search_inv c (pairs_of ranges)) isInRanges_measure
    (isInRanges_body c ranges) st0 (fun s1 s2 H E => search_inv_step c ranges s1 s2 Hs H E) H0) as HI.
  pose proof (while_m_exit _ (isInRanges_body c ranges) st0 (isInRanges_decreases c ranges)) as HE.
  destruct (while_m _ _ st0) as [[low high] [f|]]; simpl.
  - destruct HI as (_ & _ & _ & _ & -> & Hin). done.
  - split; [done|]. intros (a & b & Hin & Hab). simpl in HE, HI.
    destruct HI as (_ & _ & Hl & Hh & _).
    destruct (low <=? high) eqn:E; [repeat case_match; done|]. bool_prop.
    apply list_elem_of_lookup in Hin as [k Hk].
    destruct (decide (Z.of_nat k < low)).
    + pose proof (Hl _ _ _ Hk). lia.
    + pose proof (Hh _ _ _ Hk). lia.
Qed.

Lemma tables_good :
  good_table XID_CONTINUE_RANGES = true /\ good_table DEFAULT_IGNORABLE_RANGES = true
  /\ good_table COMBINING_MARK_RANGES = true.
Proof. repeat split; vm_compute; reflexivity. Qed.

(** ** The trie is the set of its emoji *)

Fixpoint walk (node : EmojiTrieNode) (w : list Z) : option EmojiTrieNode :=
  match w with
  | [] => Some node
  | c :: w' => match children node !! c with None => None | Some child => walk child w' end
  end.

Definition accepts (node : EmojiTrieNode) (w : list Z) : bool :=
  match walk node w with Some n => terminal n | None => false end.

Lemma accepts_empty w : accepts empty_node w = false.
Proof. destruct w as [|c w]; [done|]. unfold accepts. simpl. by rewrite lookup_empty. Qed.

Lemma accepts_insert e node w :
  accepts (trie_insert e node) w = bool_decide (w = e) || accepts node w.
Proof.
  revert node w. induction e as [|v e IH]; intros node w.
  - destruct w as [|c w]; [by rewrite bool_decide_eq_true_2|].
    rewrite bool_decide_eq_false_2 by done. done.
  - destruct w as [|c w].
    + rewrite bool_decide_eq_false_2 by done. done.
    + unfold accepts at 1 2. simpl. rewrite lookup_insert. case_decide as Hc.
      * subst v. fold (accepts (trie_insert e (default empty_node (children node !! c))) w).
        rewrite IH. destruct (children node !! c) as [ch|]; simpl.
        -- fold (accepts ch w). f_equal. apply bool_decide_ext. naive_solver.
        -- rewrite accepts_empty. f_equal. apply bool_decide_ext. naive_solver.
      * rewrite bool_decide_eq_false_2 by congruence. done.
Qed.

Lemma accepts_build emojis w : accepts (build_trie emojis) w = true <-> w ∈ emojis.
Proof.
  unfold build_trie.
  assert (forall node, accepts (foldl (fun trie e => trie_insert e trie) node emojis) w = true
                       <-> w ∈ emojis \/ accepts node w = true) as H.
  { induction emojis as [|e emojis IH]; intros node; simpl.
    - split; [by right|]. intros [H|H]; [inversion H|done].
    - rewrite IH, accepts_insert, orb_true_iff, bool_decide_eq_true, elem_of_cons. tauto. }
  rewrite H, accepts_empty. naive_solver.
Qed.

Lemma walk_app node w1 w2 :
  walk node (w1 ++ w2) = match walk node w1 with None => None | Some n => walk n w2 end.
Proof.
  revert node. induction w1 as [|c w1 IH]; intros node; simpl; [done|].
  by destruct (children node !! c).
Qed.

(** ** The longest emoji at a position *)

Section EmojiAt.
Context (emojis : list (list Z)) (Hne : [] ∉ emojis) (source : jstring) (index limit : nat).

(** An emoji of the list is written from [index] to [j], within [limit]. *)
Definition emoji_token (j : nat) : Prop :=
  exists w, w ∈ emojis /\ decodes source index w j /\ (j <= limit)%nat.

Let trie := build_trie emojis.

Definition emojiAt_inv (st : EmojiTrieNode * nat * option nat) : Prop :=
  let '(node, cursor, longestEnd) := st in
  exists p, walk trie p = Some node /\ decodes source index p cursor
    /\ match longestEnd with
       | None => forall q, q `prefix_of` p -> accepts trie q = false
       | Some j => exists q, q `prefix_of` p /\ accepts trie q = true /\ decodes source index q j
                   /\ (j <= limit)%nat
                   /\ forall q', q' `prefix_of` p -> accepts trie q' = true -> q' `prefix_of` q
       end.

Lemma prefix_snoc_inv {A} (q p : list A) c : q `prefix_of` p ++ [c] -> q `prefix_of` p \/ q = p ++ [c].
Proof.
  intros [r Hr]. destruct r as [|d r' _] using rev_ind.
  - right. by rewrite app_nil_r in Hr.
  - left. rewrite app_assoc in Hr. apply app_inj_tail in Hr as [-> _]. by exists r'.
Qed.

Lemma emojiAt_inv_step st st' :
  emojiAt_inv st -> emojiAt_body source limit st = Some st' -> emojiAt_inv st'.
Proof.
  destruct st as [[node cursor] longestEnd]. intros (p & Hw & Hd & Hl). simpl.
  destruct (cursor <? limit)%nat eqn:E; [|done].
  destruct (code_point_at source cursor) as [c|] eqn:Ec; [|done].
  destruct (children node !! c) as [child|] eqn:Ech; [|done].
  destruct (limit <? cursor + code_point_size c)%nat eqn:E'; [done|]. intros [= <-]. bool_prop.
  assert (walk trie (p ++ [c]) = Some child) as Hw' by (rewrite walk_app, Hw; simpl; by rewrite Ech).
  assert (decodes source index (p ++ [c]) (cursor + code_point_size c)) as Hd'
    by (apply decodes_app; eexists; split; [done|]; by split).
  assert (accepts trie (p ++ [c]) = terminal child) as Ha by (unfold accepts; by rewrite Hw').
  exists (p ++ [c]). split; [done|]. split; [done|].
  destruct (terminal child).
  - exists (p ++ [c]). repeat split; [done|done|done|lia|done].
  - destruct longestEnd as [j|].
    + destruct Hl as (q & Hq & Haq & Hdq & Hj & Hmax).
      exists q. repeat split; [by apply prefix_app_r|done|done|done|].
      intros q' [Hq'| ->]%prefix_snoc_inv Hacc; [by apply Hmax|congruence].
    + intros q [Hq| ->]%prefix_snoc_inv; [by apply Hl|done].
Qed.

Lemma emojiAt_decreases :
  decreases (fun st : EmojiTrieNode * nat * option nat => (limit - st.1.2)%nat) (emojiAt_body source limit).
Proof.
  intros [[node cursor] l] [[node' cursor'] l']; simpl.
  repeat case_match; try done; intros; simplify_eq; bool_prop.
  all: match goal with |- context [code_point_size ?c] => pose proof (code_point_size_pos c) end; lia.
Qed.

Lemma emojiAt_end_spec :
  match emojiAt_end trie source index limit with
  | Some j => emoji_token j /\ forall j', emoji_token j' -> (j' <= j)%nat
  | None => forall j, ~ emoji_token j
  end.
Proof.
  unfold emojiAt_end. set (st0 := (trie, index, None)).
  assert (emojiAt_inv st0) as H0.
  { exists []. repeat split. intros q Hq. apply prefix_nil_inv in Hq as ->.
    destruct (accepts trie []) eqn:E; [|done]. by apply accepts_build in E. }
  pose proof (while_m_inv emojiAt_inv (fun st : EmojiTrieNode * nat * option nat => (limit - st.1.2)%nat)
    (emojiAt_body source limit) st0 emojiAt_inv_step H0) as HI.
  pose proof (while_m_exit _ _ st0 emojiAt_decreases) as HE.
  destruct (while_m _ _ st0) as [[node cursor] longestEnd].
  destruct HI as (p & Hw & Hd & Hl).
  assert (forall w j, w ∈ emojis -> decodes source index w j -> (j <= limit)%nat -> w `prefix_of` p) as Hall.
  { intros w j Hin Hdw Hj. apply accepts_build in Hin as Hacc. fold trie in Hacc.
    destruct (decodes_prefix _ _ _ _ _ _ Hdw Hd) as [?|[r ->]]; [done|].
    destruct r as [|c r]; [by rewrite app_nil_r|]. exfalso.
    apply decodes_app in Hdw as (k & Hk & Hck & Hr).
    rewrite (decodes_fun _ _ _ _ _ Hk Hd) in *. apply decodes_le in Hr.
    pose proof (code_point_size_pos c).
    unfold accepts in Hacc. rewrite walk_app, Hw in Hacc. simpl in Hacc.
    destruct (children node !! c) as [child|] eqn:Ech; [|done].
    simpl in HE. rewrite (proj2 (Nat.ltb_lt _ _)) in HE by lia.
    rewrite Hck, Ech in HE.
    rewrite (proj2 (Nat.ltb_ge _ _)) in HE by lia. done. }
  destruct longestEnd as [j|]; simpl.
  - destruct Hl as (q & Hq & Haq & Hdq & Hj & Hmax). split.
    + exists q. split; [by apply accepts_build|done].
    + intros j' (w & Hin & Hdw & Hj'). pose proof (Hall _ _ Hin Hdw Hj') as Hp.
      apply accepts_build in Hin. destruct (Hmax _ Hp Hin) as [r ->].
      apply decodes_app in Hdq as (k & Hk & Hr). rewrite (decodes_fun _ _ _ _ _ Hdw Hk).
      by apply decodes_le in Hr.
  - intros j (w & Hin & Hdw & Hj). pose proof (Hall _ _ Hin Hdw Hj) as Hp.
    apply accepts_build in Hin. fold trie in Hin. rewrite (Hl _ Hp) in Hin. done.
Qed.
End EmojiAt.

Lemma no_empty_emoji : [] ∉ FULLY_QUALIFIED_EMOJI.
Proof. apply (bool_decide_unpack _). vm_compute. exact I. Qed.

(** ** The grammar of the ADR

    Positions are UTF-16 offsets of [s].  The tokens carry the token priority of
    the ADR ("the longest FullyQualifiedEmoji, then ...") as side conditions. *)

Section Grammar.
Context (s : jstring).

Definition FullyQualifiedEmoji (i j : nat) : Prop :=
  emoji_token FULLY_QUALIFIED_EMOJI s i (length s) j
  /\ forall j', emoji_token FULLY_QUALIFIED_EMOJI s i (length s) j' -> (j' <= j)%nat.
Definition no_emoji (i : nat) : Prop :=
  forall j, ~ emoji_token FULLY_QUALIFIED_EMOJI s i (length s) j.

Definition DefaultIgnorable (c : Z) : Prop := in_ranges c DEFAULT_IGNORABLE_RANGES.
Definition EmittedXIDContinue (c : Z) : Prop :=
  in_ranges c XID_CONTINUE_RANGES /\ ~ DefaultIgnorable c.
Definition CombiningMark (c : Z) : Prop := in_ranges c COMBINING_MARK_RANGES.
Definition Extension (c : Z) : Prop := c = 45 \/ c = 43 \/ c = 38.
Definition Apostrophe (c : Z) : Prop := c = 39 \/ c = 0x2019.

(** A code point outside an emoji, [c] at [i]. *)
Definition lone (i : nat) (c : Z) : Prop := no_emoji i /\ code_point_at s i = Some c.

(** IgnoredPrefix* *)
Inductive IgnoredPrefix : nat -> nat -> Prop :=
  | ip_nil i : IgnoredPrefix i i
  | ip_cons i c j :
      lone i c -> DefaultIgnorable c \/ (EmittedXIDContinue c /\ CombiningMark c) ->
      IgnoredPrefix (i + code_point_size c) j -> IgnoredPrefix i j.

(** SegmentStarter, with its value and whether it emitted an XID code point. *)
Inductive SegmentStarter : nat -> nat -> jstring -> bool -> Prop :=
  | st_emoji i j : FullyQualifiedEmoji i j -> SegmentStarter i j (slice s i j) false
  | st_xid i c : lone i c -> EmittedXIDContinue c -> ~ CombiningMark c ->
      SegmentStarter i (i + code_point_size c) (from_code_point c) true
  | st_ext i c : lone i c -> Extension c ->
      SegmentStarter i (i + code_point_size c) (from_code_point c) false.

(** SegmentContinuation after a source code point that emitted an XID code point,
    or not. *)
Inductive SegmentContinuation : bool -> nat -> nat -> jstring -> bool -> Prop :=
  | sc_emoji b i j : FullyQualifiedEmoji i j -> SegmentContinuation b i j (slice s i j) false
  | sc_ignored b i c : lone i c -> DefaultIgnorable c ->
      SegmentContinuation b i (i + code_point_size c) [] false
  | sc_apostrophe i c d : lone i c -> Apostrophe c ->
      lone (i + code_point_size c) d -> EmittedXIDContinue d -> ~ CombiningMark d ->
      SegmentContinuation true i (i + code_point_size c) (from_code_point c) false
  | sc_xid b i c : lone i c -> EmittedXIDContinue c ->
      SegmentContinuation b i (i + code_point_size c) (from_code_point c) true
  | sc_ext b i c : lone i c -> Extension c ->
      SegmentContinuation b i (i + code_point_size c) (from_code_point c) false.

Inductive SegmentContinuations : bool -> nat -> nat -> jstring -> Prop :=
  | scs_nil b i : SegmentContinuations b i i []
  | scs_cons b i k v b' j w :
      SegmentContinuation b i k v b' -> SegmentContinuations b' k j w ->
      SegmentContinuations b i j (v ++ w).

Inductive TagSegmentSpelling : nat -> nat -> jstring -> Prop :=
  | seg_intro i k l v b j w :
      IgnoredPrefix i k -> SegmentStarter k l v b -> SegmentContinuations b l j w ->
      TagSegmentSpelling i j (v ++ w).

Inductive TagSourceSpelling : nat -> nat -> jstring -> Prop :=
  | sp_one i j v : TagSegmentSpelling i j v -> TagSourceSpelling i j v
  | sp_slash i k v j w :
      TagSegmentSpelling i k v -> s !! k = Some 47 -> TagSourceSpelling (k + 1) j w ->
      TagSourceSpelling i j (v ++ [47] ++ w).

(** A candidate whose introducer is at [i], whose spelling ends at [j], with the
    identifier [v] it emits. *)
Definition TagCandidate (i j : nat) (v : jstring) : Prop :=
  s !! i = Some 35 /\ no_emoji i /\ TagSourceSpelling (i + 1) j v.
End Grammar.

(** ** Facts about the tables *)

Definition plain_starter (c : Z) : bool :=
  negb (isInRanges c DEFAULT_IGNORABLE_RANGES)
  && negb (isInRanges c COMBINING_MARK_RANGES && isInRanges c XID_CONTINUE_RANGES)
  && negb (c =? 47).

(** The distinct first code points (the table lists an emoji after its base). *)
Fixpoint heads_from (previous : Z) (emojis : list (list Z)) : list Z :=
  match emojis with
  | [] => []
  | w :: emojis' =>
      let c := hd 0 w in
      if c =? previous then heads_from previous emojis' else c :: heads_from c emojis'
  end.

Lemma heads_from_In previous emojis c w :
  c :: w ∈ emojis -> c = previous \/ c ∈ heads_from previous emojis.
Proof.
  revert previous. induction emojis as [|e emojis IH]; intros p Hin; [inversion Hin|]. simpl.
  apply elem_of_cons in Hin as [<-|Hin]; simpl.
  - destruct (c =? p) eqn:E; bool_prop; [by left|right; by left].
  - destruct (hd 0 e =? p) eqn:E; [by apply IH|].
    destruct (IH (hd 0 e) Hin) as [->|?]; right; [by left|by right].
Qed.

Lemma emoji_heads_plain : forallb plain_starter (heads_from 0x1f600 FULLY_QUALIFIED_EMOJI) = true.
Proof. vm_cast_no_check (eq_refl true). Qed.

Lemma emoji_starts c w : c :: w ∈ FULLY_QUALIFIED_EMOJI -> plain_starter c = true.
Proof.
  intros Hin. pose proof emoji_heads_plain as H. rewrite forallb_forall in H.
  destruct (heads_from_In 0x1f600 _ _ _ Hin) as [->|Hh]; [vm_compute; reflexivity|].
  by apply H, list_elem_of_In.
Qed.

(** A number sign is only the first code point of an emoji. *)
Lemma emoji_tails_check :
  forallb (fun w => forallb (fun c => negb (c =? 35)) (tl w)) FULLY_QUALIFIED_EMOJI = true.
Proof. vm_cast_no_check (eq_refl true). Qed.

Lemma emoji_tails c w : c :: w ∈ FULLY_QUALIFIED_EMOJI -> 35 ∉ w.
Proof.
  intros Hin Hw. pose proof emoji_tails_check as H. rewrite forallb_forall in H.
  apply list_elem_of_In in Hin, Hw. specialize (H _ Hin). simpl in H.
  rewrite forallb_forall in H. by specialize (H _ Hw).
Qed.

Lemma ignorable_iff c : isInRanges c DEFAULT_IGNORABLE_RANGES = true <-> DefaultIgnorable c.
Proof. apply isInRanges_iff, tables_good. Qed.
Lemma combining_iff c : isInRanges c COMBINING_MARK_RANGES = true <-> CombiningMark c.
Proof. apply isInRanges_iff, tables_good. Qed.
Lemma xid_iff c :
  isInRanges c XID_CONTINUE_RANGES && negb (isInRanges c DEFAULT_IGNORABLE_RANGES) = true
  <-> EmittedXIDContinue c.
Proof.
  unfold EmittedXIDContinue. rewrite andb_true_iff, negb_true_iff, <- ignorable_iff, <- not_true_iff_false.
  by rewrite (isInRanges_iff _ _ (proj1 tables_good)).
Qed.

Section Classes.
Context (s : jstring) (Hs : units s).

Lemma code_of_codePointAt i : code_of (codePointAt s i) = default 0 (code_point_at s i).
Proof.
  unfold code_of, codePointAt. destruct (code_point_at s i) as [c|] eqn:E; [|done].
  destruct (code_point_at_slice s i c Hs E) as [Hlen Hsl]. simpl.
  unfold from_code_point in *. destruct (c <=? 0xFFFF) eqn:Ec.
  - unfold code_point_at. simpl. by destruct (is_high_surrogate c).
  - bool_prop. pose proof (units_lookup s Hs) as Hu.
    assert (c < 0x110000) as Hc.
    { unfold code_point_at in E. destruct (s !! i) as [a|] eqn:Ea; [|done].
      apply list_elem_of_lookup_2, Hu in Ea.
      destruct (is_high_surrogate a) eqn:Eh; [|simplify_eq; lia].
      destruct (s !! (i + 1)%nat) as [d|] eqn:Ed; [|simplify_eq; lia].
      apply list_elem_of_lookup_2, Hu in Ed.
      destruct (is_low_surrogate d) eqn:El; [|simplify_eq; lia].
      unfold is_high_surrogate, is_low_surrogate in *. bool_prop. simplify_eq. lia. }
    unfold code_point_at. simpl.
    assert (is_high_surrogate (0xD800 + (c - 0x10000) / 1024) = true) as ->.
    { unfold is_high_surrogate. apply andb_true_iff. rewrite !Z.leb_le. Z.div_mod_to_equations. lia. }
    simpl. assert (is_low_surrogate (0xDC00 + (c - 0x10000) mod 1024) = true) as ->.
    { unfold is_low_surrogate. apply andb_true_iff. rewrite !Z.leb_le. Z.div_mod_to_equations. lia. }
    simpl. Z.div_mod_to_equations. lia.
Qed.

Lemma codePointAt_nil i : codePointAt s i = [] <-> code_point_at s i = None.
Proof.
  unfold codePointAt. destruct (code_point_at s i) as [c|]; [|done].
  split; [|done]. unfold from_code_point. by case_match.
Qed.

Context (i : nat) (c : Z) (Hc : code_point_at s i = Some c).

Lemma length_codePointAt : length (codePointAt s i) = code_point_size c.
Proof. unfold codePointAt. rewrite Hc. apply length_from_code_point. Qed.

Lemma codePointAt_eq : codePointAt s i = from_code_point c.
Proof. unfold codePointAt. by rewrite Hc. Qed.

Lemma isDefaultIgnorable_iff : isDefaultIgnorable (codePointAt s i) = true <-> DefaultIgnorable c.
Proof. unfold isDefaultIgnorable. rewrite code_of_codePointAt, Hc. apply ignorable_iff. Qed.

Lemma isXIDContinue_iff : isXIDContinue (codePointAt s i) = true <-> EmittedXIDContinue c.
Proof.
  unfold isXIDContinue, isDefaultIgnorable. rewrite code_of_codePointAt, Hc. apply xid_iff.
Qed.

Lemma isCombiningMark_iff : isCombiningMark (codePointAt s i) = true <-> CombiningMark c.
Proof. unfold isCombiningMark. rewrite code_of_codePointAt, Hc. apply combining_iff. Qed.

Lemma from_code_point_single d : d <= 0xFFFF -> from_code_point c = [d] <-> c = d.
Proof.
  intros Hd. unfold from_code_point. destruct (c <=? 0xFFFF) eqn:E; bool_prop; split; intros H.
  - by simplify_eq.
  - by subst.
  - done.
  - lia.
Qed.

Lemma isExtensionUnit_iff : isExtensionUnit (codePointAt s i) = true <-> Extension c.
Proof.
  unfold isExtensionUnit, js_eqb, Extension. rewrite codePointAt_eq, !orb_true_iff, !bool_decide_eq_true.
  change (u "-") with [45]. change (u "+") with [43]. change (u "&") with [38].
  rewrite !from_code_point_single by lia. tauto.
Qed.

Lemma isApostropheJoiner_iff : isApostropheJoiner (codePointAt s i) = true <-> Apostrophe c.
Proof.
  unfold isApostropheJoiner, js_eqb, Apostrophe. rewrite codePointAt_eq, !orb_true_iff, !bool_decide_eq_true.
  change (u "'") with [39]. rewrite !from_code_point_single by lia. tauto.
Qed.
End Classes.

(** The ASCII units of the grammar are in no table. *)
Lemma extension_plain c :
  Extension c \/ Apostrophe c \/ c = 47 -> ~ DefaultIgnorable c /\ ~ EmittedXIDContinue c.
Proof.
  intros H. rewrite <- ignorable_iff, <- xid_iff.
  destruct H as [[->|[->| ->]]|[[->| ->]| ->]]; vm_compute; split; discriminate.
Qed.

(** ** The scanner and the grammar *)

Section Scanner.
Context (s : jstring) (Hs : units s).
Let len := length s.

Lemma emojiAt_cases i :
  match emojiAt s i len with
  | Some e => FullyQualifiedEmoji s i (i + length e) /\ e = slice s i (i + length e)
              /\ (1 <= length e)%nat /\ (i + length e <= len)%nat
  | None => no_emoji s i
  end.
Proof.
  unfold emojiAt, emojiTrie.
  pose proof (emojiAt_end_spec FULLY_QUALIFIED_EMOJI no_empty_emoji s i len) as H.
  destruct (emojiAt_end _ s i len) as [j|]; [|done].
  destruct H as [(w & Hin & Hd & Hj) Hmax].
  assert (w <> []) as Hw by (intros ->; by apply no_empty_emoji).
  pose proof (decodes_lt _ _ _ _ Hd Hw).
  assert (length (slice s i j) = j - i)%nat as El.
  { rewrite length_slice. unfold len in Hj. lia. }
  rewrite El. replace (i + (j - i))%nat with j by lia.
  repeat split; [by exists w|done|lia|done].
Qed.

Lemma emojiAt_Some_iff i e :
  emojiAt s i len = Some e <-> exists j, FullyQualifiedEmoji s i j /\ e = slice s i j.
Proof.
  pose proof (emojiAt_cases i) as H. destruct (emojiAt s i len) as [e'|].
  - destruct H as (Hf & He & _). split.
    + intros [= <-]. eauto.
    + intros (j & Hj & ->). destruct Hf as [F1 F2], Hj as [G1 G2].
      pose proof (F2 _ G1). pose proof (G2 _ F1). f_equal. rewrite He. f_equal. lia.
  - split; [done|]. intros (j & [Hj _] & _). by apply H in Hj.
Qed.

Lemma emojiAt_None_iff i : emojiAt s i len = None <-> no_emoji s i.
Proof.
  pose proof (emojiAt_cases i) as H. destruct (emojiAt s i len) as [e'|]; [|done].
  split; [done|]. intros Hn. destruct H as ([Ht _] & _). by apply Hn in Ht.
Qed.

Lemma FullyQualifiedEmoji_length i j :
  FullyQualifiedEmoji s i j -> (i < j <= len)%nat /\ (i + length (slice s i j) = j)%nat
  /\ emojiAt s i len = Some (slice s i j).
Proof.
  intros H. assert (emojiAt s i len = Some (slice s i j)) as E by (apply emojiAt_Some_iff; eauto).
  destruct H as [(w & Hin & Hd & Hj) _].
  assert (w <> []) as Hw by (intros ->; by apply no_empty_emoji).
  pose proof (decodes_lt _ _ _ _ Hd Hw). rewrite length_slice. unfold len in *.
  repeat split; [lia|lia|lia|done].
Qed.

Lemma emoji_head i j c :
  FullyQualifiedEmoji s i j -> code_point_at s i = Some c -> plain_starter c = true.
Proof.
  intros [(w & Hin & Hd & _) _] Hc. destruct w as [|d w]; [by apply no_empty_emoji in Hin|].
  simpl in Hd. destruct Hd as [Hd _]. simplify_eq. by eapply emoji_starts.
Qed.

(** An ignored code point does not start an emoji. *)
Lemma ignored_no_emoji i c :
  code_point_at s i = Some c -> DefaultIgnorable c \/ (EmittedXIDContinue c /\ CombiningMark c) ->
  no_emoji s i.
Proof.
  intros Hc Hign. apply emojiAt_None_iff. destruct (emojiAt s i len) as [e|] eqn:E; [|done].
  apply emojiAt_Some_iff in E as (j & Hj & _).
  pose proof (emoji_head _ _ _ Hj Hc) as Hp. unfold plain_starter in Hp. bool_prop.
  destruct Hign as [G|[[G _] G']].
  - apply ignorable_iff in G. congruence.
  - apply combining_iff in G'. apply (isInRanges_iff _ _ (proj1 tables_good)) in G.
    rewrite G, G' in *. done.
Qed.

Lemma slash_plain i : s !! i = Some 47 -> lone s i 47.
Proof.
  intros H. assert (code_point_at s i = Some 47) as Hc by (unfold code_point_at; by rewrite H).
  split; [|done]. apply emojiAt_None_iff. destruct (emojiAt s i len) as [e|] eqn:E; [|done].
  apply emojiAt_Some_iff in E as (j & Hj & _).
  pose proof (emoji_head _ _ _ Hj Hc) as Hp. by vm_compute in Hp.
Qed.

Lemma code_point_bound i c : code_point_at s i = Some c -> (i < i + code_point_size c <= len)%nat.
Proof.
  intros Hc. destruct (code_point_at_slice s i c Hs Hc) as [H _].
  pose proof (code_point_size_pos c). unfold len. lia.
Qed.

Lemma ltb_code_point i c : code_point_at s i = Some c -> (i <? len)%nat = true.
Proof. intros Hc. apply Nat.ltb_lt. pose proof (code_point_bound i c Hc). lia. Qed.

Lemma index_code_point i : (i <? len)%nat = true -> exists c, code_point_at s i = Some c.
Proof. intros H. bool_prop. by apply code_point_at_is_Some. Qed.

(** *** The ignored prefix *)

Lemma ignored_prefix_body_iff i k :
  ignored_prefix_body s len i = Some k <->
  exists c, lone s i c /\ (DefaultIgnorable c \/ (EmittedXIDContinue c /\ CombiningMark c))
            /\ k = (i + code_point_size c)%nat.
Proof.
  unfold ignored_prefix_body. destruct (i <? len)%nat eqn:E.
  - destruct (index_code_point i E) as [c Hc].
    rewrite (length_codePointAt s i c Hc).
    pose proof (isDefaultIgnorable_iff s Hs i c Hc) as H1.
    pose proof (isXIDContinue_iff s Hs i c Hc) as H2.
    pose proof (isCombiningMark_iff s Hs i c Hc) as H3.
    destruct (_ || _) eqn:Eo.
    + rewrite orb_true_iff, andb_true_iff, H1, H2, H3 in Eo. split.
      * intros [= <-]. exists c. repeat split; [by eapply ignored_no_emoji|done..].
      * intros (d & [_ Hd] & _ & ->). by simplify_eq.
    + split; [done|]. intros (d & [_ Hd] & Hig & _). simplify_eq.
      rewrite <- H1, <- H2, <- H3, <- andb_true_iff, <- orb_true_iff in Hig. congruence.
  - split; [done|]. intros (c & [_ Hc] & _). apply ltb_code_point in Hc. congruence.
Qed.

Lemma ignored_prefix_decreases :
  decreases (fun index => (len - index)%nat) (ignored_prefix_body s len).
Proof.
  intros i k (c & [_ Hc] & _ & ->)%ignored_prefix_body_iff.
  pose proof (code_point_bound i c Hc). lia.
Qed.

Lemma IgnoredPrefix_turns i k : IgnoredPrefix s i k <-> turns (ignored_prefix_body s len) i k.
Proof.
  split.
  - induction 1 as [|i c j Hl Hi _ IH]; [constructor|].
    eapply turns_step; [|exact IH]. apply ignored_prefix_body_iff. eauto.
  - induction 1 as [|i j k E _ IH]; [constructor|].
    apply ignored_prefix_body_iff in E as (c & Hl & Hi & ->). econstructor; eauto.
Qed.

(** A starter ends the ignored prefix. *)
Lemma starter_not_ignored k l v b :
  SegmentStarter s k l v b -> ignored_prefix_body s len k = None.
Proof.
  intros H. destruct (ignored_prefix_body s len k) as [k'|] eqn:E; [|done]. exfalso.
  apply ignored_prefix_body_iff in E as (c & [Hn Hc] & Hi & _).
  inversion H as [? ? [Ht _]|? d [_ Hd] [Hx Hni] Hnc|? d [_ Hd] He]; subst.
  - by apply Hn in Ht.
  - simplify_eq. tauto.
  - simplify_eq. destruct (extension_plain c) as [H1 H2]; [tauto|]. tauto.
Qed.

(** *** One continuation *)

Lemma lone_emoji i c : lone s i c -> emojiAt s i len = None.
Proof. intros [Hn _]. by apply emojiAt_None_iff. Qed.

Lemma bool_iff_eq (b : bool) P : (b = true <-> P) -> (P -> b = true) /\ (~ P -> b = false).
Proof. destruct b; naive_solver. Qed.

Lemma nonCombining_iff k :
  isNonCombiningXIDContinuationAt s k len = true <->
  exists d, lone s k d /\ EmittedXIDContinue d /\ ~ CombiningMark d.
Proof.
  unfold isNonCombiningXIDContinuationAt. destruct (len <=? k)%nat eqn:E.
  - split; [done|]. intros (d & [_ Hd] & _). bool_prop.
    pose proof (code_point_bound k d Hd). lia.
  - destruct (emojiAt s k len) as [e|] eqn:Ee; simpl.
    + split; [done|]. intros (d & Hd & _). apply lone_emoji in Hd. congruence.
    + bool_prop. destruct (index_code_point k) as [d Hd]; [by apply Nat.ltb_lt|].
      pose proof (code_point_bound k d Hd).
      rewrite (length_codePointAt s k d Hd), (proj2 (Nat.leb_le _ _)) by lia. simpl.
      rewrite andb_true_iff, negb_true_iff, <- not_true_iff_false.
      rewrite (isXIDContinue_iff s Hs k d Hd), (isCombiningMark_iff s Hs k d Hd).
      apply emojiAt_None_iff in Ee. split.
      * intros [? ?]. exists d. split; [by split|done].
      * intros (d' & [_ Hd'] & ? & ?). by simplify_eq.
Qed.

Lemma segment_body_sound i v b i' v' b' :
  segment_body s len (i, v, b) = Some (i', v', b') ->
  exists w, SegmentContinuation s b i i' w b' /\ v' = v ++ w.
Proof.
  simpl. destruct (i <? len)%nat eqn:Ei; [|done].
  destruct (index_code_point i Ei) as [c Hc].
  pose proof (emojiAt_cases i) as He. destruct (emojiAt s i len) as [e|] eqn:Ee.
  - intros [= <- <- <-]. destruct He as (Hf & Hsl & _). exists e. split; [|done].
    rewrite Hsl at 2. by constructor.
  - rewrite (length_codePointAt s i c Hc), (codePointAt_eq s i c Hc).
    rewrite <- (codePointAt_eq s i c Hc).
    assert (lone s i c) as Hl by by split.
    destruct (isDefaultIgnorable _) eqn:E1.
    { apply (isDefaultIgnorable_iff s Hs i c Hc) in E1. intros [= <- <- <-].
      exists []. rewrite app_nil_r. split; [by constructor|done]. }
    destruct (_ && _ && _) eqn:E2.
    { rewrite !andb_true_iff in E2. destruct E2 as [[Ea ->] Ed].
      apply (isApostropheJoiner_iff s i c Hc) in Ea. rewrite nonCombining_iff in Ed.
      destruct Ed as (d & ? & ? & ?). intros [= <- <- <-]. rewrite (codePointAt_eq s i c Hc).
      eexists. split; [|done]. by eapply sc_apostrophe. }
    destruct (_ || _) eqn:E3; [|done]. intros [= <- <- <-].
    exists (from_code_point c). split; [|by rewrite (codePointAt_eq s i c Hc)].
    destruct (isXIDContinue _) eqn:E4.
    + apply (isXIDContinue_iff s Hs i c Hc) in E4. by constructor.
    + simpl in E3. apply (isExtensionUnit_iff s i c Hc) in E3. by constructor.
Qed.

Lemma segment_body_complete b i i' w b' v :
  SegmentContinuation s b i i' w b' -> segment_body s len (i, v, b) = Some (i', v ++ w, b').
Proof.
  intros H. simpl. destruct H as [b i j Hf|b i c Hl Hd|i c d Hl Ha Hl' Hd Hm|b i c Hl Hx|b i c Hl Hx].
  - destruct (FullyQualifiedEmoji_length i j Hf) as (H1 & H2 & H3).
    rewrite (proj2 (Nat.ltb_lt _ _)) by lia. by rewrite H3, H2.
  - destruct (Hl) as [_ Hc]. rewrite (ltb_code_point i c Hc), (lone_emoji i c Hl).
    rewrite (length_codePointAt s i c Hc).
    rewrite (proj2 (isDefaultIgnorable_iff s Hs i c Hc) Hd). by rewrite app_nil_r.
  - destruct (Hl) as [_ Hc]. rewrite (ltb_code_point i c Hc), (lone_emoji i c Hl).
    destruct (extension_plain c) as [N1 N2]; [tauto|].
    rewrite (proj2 (bool_iff_eq _ _ (isDefaultIgnorable_iff s Hs i c Hc)) N1).
    rewrite (proj2 (isApostropheJoiner_iff s i c Hc) Ha), (length_codePointAt s i c Hc).
    rewrite (proj2 (nonCombining_iff _)) by eauto.
    simpl. by rewrite (codePointAt_eq s i c Hc).
  - destruct (Hl) as [_ Hc]. rewrite (ltb_code_point i c Hc), (lone_emoji i c Hl).
    rewrite (length_codePointAt s i c Hc).
    rewrite (proj2 (bool_iff_eq _ _ (isDefaultIgnorable_iff s Hs i c Hc)) (proj2 Hx)).
    destruct (isApostropheJoiner _) eqn:E.
    { apply (isApostropheJoiner_iff s i c Hc) in E. destruct (extension_plain c); tauto. }
    simpl. rewrite (proj2 (isXIDContinue_iff s Hs i c Hc) Hx). simpl.
    by rewrite (codePointAt_eq s i c Hc).
  - destruct (Hl) as [_ Hc]. rewrite (ltb_code_point i c Hc), (lone_emoji i c Hl).
    rewrite (length_codePointAt s i c Hc).
    destruct (extension_plain c) as [N1 N2]; [tauto|].
    rewrite (proj2 (bool_iff_eq _ _ (isDefaultIgnorable_iff s Hs i c Hc)) N1).
    destruct (isApostropheJoiner _) eqn:E.
    { apply (isApostropheJoiner_iff s i c Hc) in E. unfold Extension, Apostrophe in *. lia. }
    simpl. rewrite (proj2 (bool_iff_eq _ _ (isXIDContinue_iff s Hs i c Hc)) N2).
    rewrite (proj2 (isExtensionUnit_iff s i c Hc) Hx). simpl.
    by rewrite (codePointAt_eq s i c Hc).
Qed.

Lemma continuation_advances b i k w b' :
  SegmentContinuation s b i k w b' -> (i < k <= len)%nat.
Proof.
  destruct 1 as [b i j Hf|b i c [_ Hc] _|i c d [_ Hc] _ _ _ _|b i c [_ Hc] _|b i c [_ Hc] _];
    [by destruct (FullyQualifiedEmoji_length i j Hf)|by apply code_point_bound..].
Qed.

Lemma segment_decreases :
  decreases (fun st : nat * jstring * bool => (len - st.1.1)%nat) (segment_body s len).
Proof.
  intros [[i v] b] [[i' v'] b'] (w & Hc & _)%segment_body_sound. simpl.
  apply continuation_advances in Hc. lia.
Qed.

Lemma continuations_turns b i j w v :
  SegmentContinuations s b i j w -> exists b', turns (segment_body s len) (i, v, b) (j, v ++ w, b').
Proof.
  intros H. revert v. induction H as [b i|b i k v b' j w Hc _ IH]; intros v0.
  - exists b. rewrite app_nil_r. constructor.
  - destruct (IH (v0 ++ v)) as [b'' Ht]. exists b''. eapply turns_step.
    + by apply segment_body_complete.
    + by rewrite <- app_assoc in Ht.
Qed.

Lemma turns_continuations st st' :
  turns (segment_body s len) st st' ->
  exists w, SegmentContinuations s st.2 st.1.1 st'.1.1 w /\ st'.1.2 = st.1.2 ++ w.
Proof.
  induction 1 as [[[i v] b]|[[i v] b] [[i' v'] b'] st'' E _ (w & IH & Ew)].
  - exists []. split; [constructor|by rewrite app_nil_r].
  - apply segment_body_sound in E as (w' & Hc & ->). simpl in *.
    exists (w' ++ w). split; [by econstructor|]. by rewrite Ew, app_assoc.
Qed.

(** Nothing continues a segment at a slash. *)
Lemma slash_stops b i k w b' : s !! i = Some 47 -> ~ SegmentContinuation s b i k w b'.
Proof.
  intros H47. pose proof (slash_plain i H47) as [Hn Hc].
  destruct (extension_plain 47) as [N1 N2]; [tauto|].
  destruct 1 as [b i j [Ht _]|b i c [_ Hd] Hi|i c d [_ Hd] Ha _ _ _|b i c [_ Hd] Hx|b i c [_ Hd] Hx];
    [by apply Hn in Ht|simplify_eq..]; unfold Apostrophe, Extension in *; try tauto; lia.
Qed.

Lemma slash_segment_None i v b : s !! i = Some 47 -> segment_body s len (i, v, b) = None.
Proof.
  intros H. destruct (segment_body s len (i, v, b)) as [[[i' v'] b']|] eqn:E; [|done].
  apply segment_body_sound in E as (w & Hc & _). by apply slash_stops in Hc.
Qed.

(** *** One segment *)

Lemma segment_continue_sound i v b :
  exists w, SegmentContinuations s b i (seg_to (segment_continue s len (i, v, b))) w
            /\ seg_value (segment_continue s len (i, v, b)) = v ++ w.
Proof.
  unfold segment_continue.
  pose proof (while_m_turns (fun st : nat * jstring * bool => (len - st.1.1)%nat)
    (segment_body s len) (i, v, b)) as Ht.
  destruct (while_m _ _ _) as [[j v'] b']. by apply turns_continuations in Ht.
Qed.

Lemma segment_continue_max i v b j w :
  SegmentContinuations s b i j w ->
  let m := segment_continue s len (i, v, b) in
  (j <= seg_to m)%nat /\ v ++ w `prefix_of` seg_value m
  /\ (s !! j = Some 47 -> m = {| seg_to := j; seg_value := v ++ w |}).
Proof.
  intros H. destruct (continuations_turns b i j w v H) as [b' Ht]. cbv zeta.
  assert (segment_continue s len (i, v, b) = segment_continue s len (j, v ++ w, b')) as ->.
  { unfold segment_continue. by rewrite (turns_while_m _ _ _ _ segment_decreases Ht). }
  split; [|split].
  - destruct (segment_continue_sound j (v ++ w) b') as (w' & Hc & _).
    clear -Hc Hs len. induction Hc as [|? ? ? ? ? ? ? Hc]; [done|].
    apply continuation_advances in Hc. lia.
  - destruct (segment_continue_sound j (v ++ w) b') as (w' & _ & ->). by apply prefix_app_r.
  - intros H47. unfold segment_continue.
    rewrite (while_m_unfold _ _ _ segment_decreases), slash_segment_None by done. done.
Qed.

Lemma starter_scan i k l v b :
  IgnoredPrefix s i k -> SegmentStarter s k l v b ->
  scanSegment s i len = Some (segment_continue s len (l, v, b)).
Proof.
  intros Hi Hst. unfold scanSegment.
  rewrite (turns_exit _ _ _ _ ignored_prefix_decreases (proj1 (IgnoredPrefix_turns i k) Hi)
             (starter_not_ignored k l v b Hst)). cbv zeta.
  destruct Hst as [k j Hf|k c Hl Hx Hm|k c Hl Hx].
  - destruct (FullyQualifiedEmoji_length k j Hf) as (_ & H2 & H3). by rewrite H3, H2.
  - destruct (Hl) as [_ Hc]. rewrite (lone_emoji k c Hl).
    rewrite (proj2 (isXIDContinue_iff s Hs k c Hc) Hx).
    rewrite (proj2 (bool_iff_eq _ _ (isCombiningMark_iff s Hs k c Hc)) Hm).
    rewrite (length_codePointAt s k c Hc), (codePointAt_eq s k c Hc).
    unfold js_eqb. rewrite bool_decide_eq_false_2; [done|].
    unfold from_code_point. by case_match.
  - destruct (Hl) as [_ Hc]. rewrite (lone_emoji k c Hl).
    rewrite (proj2 (isExtensionUnit_iff s k c Hc) Hx).
    destruct (extension_plain c) as [_ N2]; [tauto|].
    rewrite (proj2 (bool_iff_eq _ _ (isXIDContinue_iff s Hs k c Hc)) N2).
    rewrite (length_codePointAt s k c Hc), (codePointAt_eq s k c Hc).
    unfold js_eqb. rewrite bool_decide_eq_false_2; [done|].
    unfold from_code_point. by case_match.
Qed.

Lemma scan_starter i m :
  scanSegment s i len = Some m ->
  exists k l v b, IgnoredPrefix s i k /\ SegmentStarter s k l v b
    /\ m = segment_continue s len (l, v, b).
Proof.
  unfold scanSegment.
  pose proof (while_m_turns (fun index => (len - index)%nat) (ignored_prefix_body s len) i) as Ht.
  set (k := while_m _ _ _) in *. apply IgnoredPrefix_turns in Ht. cbv zeta.
  pose proof (emojiAt_cases k) as He. destruct (emojiAt s k len) as [e|] eqn:Ee.
  - intros [= <-]. destruct He as (Hf & Hsl & _).
    exists k, (k + length e)%nat, e, false. split; [done|]. split; [|done].
    rewrite Hsl at 2. by constructor.
  - destruct (js_eqb _ _) eqn:E0; [done|]. simpl.
    destruct (code_point_at s k) as [c|] eqn:Hc;
      [|apply codePointAt_nil in Hc; by rewrite Hc in E0].
    rewrite (length_codePointAt s k c Hc).
    destruct (isXIDContinue _ && _) eqn:E1; simpl.
    + apply andb_prop in E1 as [E2 E3]. apply negb_true_iff in E3. intros [= <-].
      rewrite E2. apply (isXIDContinue_iff s Hs k c Hc) in E2.
      do 4 eexists. split; [done|]. split; [|by rewrite (codePointAt_eq s k c Hc)].
      apply st_xid; [by split|done|].
      rewrite <- (isCombiningMark_iff s Hs k c Hc). congruence.
    + destruct (isExtensionUnit _) eqn:E2; simpl; [|done]. intros [= <-].
      apply (isExtensionUnit_iff s k c Hc) in E2.
      destruct (extension_plain c) as [_ N2]; [tauto|].
      rewrite (proj2 (bool_iff_eq _ _ (isXIDContinue_iff s Hs k c Hc)) N2).
      rewrite (codePointAt_eq s k c Hc).
      do 4 eexists. split; [done|]. split; [|done]. by apply st_ext; [split|].
Qed.

Lemma scanSegment_sound i m :
  scanSegment s i len = Some m -> TagSegmentSpelling s i (seg_to m) (seg_value m).
Proof.
  intros (k & l & v & b & Hi & Hst & ->)%scan_starter.
  destruct (segment_continue_sound l v b) as (w & Hc & ->). by econstructor.
Qed.

Lemma scanSegment_maximal i j v :
  TagSegmentSpelling s i j v ->
  exists m, scanSegment s i len = Some m /\ (j <= seg_to m)%nat /\ v `prefix_of` seg_value m
    /\ (s !! j = Some 47 -> m = {| seg_to := j; seg_value := v |}).
Proof.
  intros [i' k l v' b j' w Hi Hst Hc]. rewrite (starter_scan i' k l v' b Hi Hst).
  eexists. split; [done|]. exact (segment_continue_max l v' b j' w Hc).
Qed.

Lemma segment_advances i j v : TagSegmentSpelling s i j v -> (i < j <= len)%nat.
Proof.
  intros [i' k l v' b j' w Hi Hst Hc].
  assert (i' <= k)%nat by (clear -Hi; induction Hi; lia).
  assert (k < l <= len)%nat.
  { destruct Hst as [? ? Hf|? c [_ Hd] _ _|? c [_ Hd] _];
      [by destruct (FullyQualifiedEmoji_length _ _ Hf)|by apply code_point_bound..]. }
  assert (l <= j' <= len)%nat; [|lia].
  clear -Hc H0 Hs. assert (l <= len)%nat by lia. clear H0.
  induction Hc as [|? ? ? ? ? ? ? Hk]; [lia|]. apply continuation_advances in Hk. lia.
Qed.

(** *** The segments of a candidate *)

Lemma segments_body_iff k v st :
  segments_body s len (k, v) = Some st <->
  s !! k = Some 47 /\ exists m, scanSegment s (k + 1) len = Some m
    /\ st = (seg_to m, v ++ [47] ++ seg_value m).
Proof.
  unfold segments_body. destruct (_ && _) eqn:E.
  - bool_prop. destruct (scanSegment s (k + 1) len) as [m|]; naive_solver.
  - split; [done|]. intros [H _]. rewrite bool_decide_eq_true_2, andb_true_r in E by done.
    apply lookup_lt_Some in H. bool_prop. unfold len in E. lia.
Qed.

Lemma segments_decreases :
  decreases (fun st : nat * jstring => (len - st.1)%nat) (segments_body s len).
Proof.
  intros [k v] st (_ & m & Hm & ->)%segments_body_iff. simpl.
  apply scanSegment_sound, segment_advances in Hm. lia.
Qed.

Lemma spelling_snoc i k v j w :
  TagSourceSpelling s i k v -> s !! k = Some 47 -> TagSegmentSpelling s (k + 1) j w ->
  TagSourceSpelling s i j (v ++ [47] ++ w).
Proof.
  intros H. induction H as [i k v H|i k' v k v' H Hk' _ IH]; intros H47 Hw.
  - eapply sp_slash; [done|done|by apply sp_one].
  - rewrite <- !app_assoc. eapply sp_slash; [done|done|]. by apply IH.
Qed.

Lemma turns_grow st st' :
  turns (segments_body s len) st st' -> (st.1 <= st'.1)%nat /\ st.2 `prefix_of` st'.2.
Proof.
  induction 1 as [st|[k v] st' st'' E _ [IH1 IH2]]; [done|].
  apply segments_body_iff in E as (_ & m & Hm & ->). simpl in *.
  apply scanSegment_sound, segment_advances in Hm. split; [lia|].
  etrans; [|exact IH2]. by apply prefix_app_r.
Qed.

Lemma turns_spelling i st st' :
  turns (segments_body s len) st st' -> TagSourceSpelling s i st.1 st.2 ->
  TagSourceSpelling s i st'.1 st'.2.
Proof.
  induction 1 as [st|[k v] st' st'' E _ IH]; [done|].
  apply segments_body_iff in E as (H47 & m & Hm & ->). simpl in *. intros Hsp.
  apply IH. eapply spelling_snoc; [done|done|by apply scanSegment_sound].
Qed.

Definition segments_loop (st : nat * jstring) : nat * jstring :=
  while_m (fun st : nat * jstring => (len - st.1)%nat) (segments_body s len) st.

Lemma spelling_scanned i j v pre :
  TagSourceSpelling s i j v ->
  exists m, scanSegment s i len = Some m
    /\ (j <= (segments_loop (seg_to m, pre ++ seg_value m)).1)%nat
    /\ pre ++ v `prefix_of` (segments_loop (seg_to m, pre ++ seg_value m)).2.
Proof.
  intros H. revert pre. induction H as [i j v H|i k v j w H H47 _ IH]; intros pre.
  - destruct (scanSegment_maximal i j v H) as (m & Hm & Hj & Hp & _). exists m. split; [done|].
    pose proof (while_m_turns (fun st : nat * jstring => (len - st.1)%nat) (segments_body s len)
      (seg_to m, pre ++ seg_value m)) as Ht. fold (segments_loop (seg_to m, pre ++ seg_value m)) in Ht.
    apply turns_grow in Ht as [H1 H2]; simpl in H1, H2.
    split; [lia|]. etrans; [by apply prefix_app|done].
  - destruct (scanSegment_maximal i k v H) as (m & Hm & _ & _ & Hex).
    rewrite (Hex H47) in Hm. eexists. split; [exact Hm|]. simpl.
    destruct (IH (pre ++ v ++ [47])) as (m2 & Hm2 & Hj & Hp).
    unfold segments_loop. rewrite (while_m_unfold _ _ _ segments_decreases).
    rewrite (proj2 (segments_body_iff k (pre ++ v) _)) by eauto.
    rewrite <- !app_assoc in *. done.
Qed.

(** *** Introducers inside tokens *)

(** No introducer is in [a, b). *)
Definition no_introducer (a b : nat) : Prop :=
  forall k, (a <= k < b)%nat -> s !! k = Some 35 -> ~ no_emoji s k.

Lemma no_introducer_app a b c : no_introducer a b -> no_introducer b c -> no_introducer a c.
Proof. intros H1 H2 k Hk. destruct (decide (k < b)%nat); [apply H1; lia|apply H2; lia]. Qed.

Lemma no_introducer_code_point a c :
  code_point_at s a = Some c -> c <> 35 -> no_introducer a (a + code_point_size c).
Proof.
  intros Hc Hne k Hk H35. exfalso. unfold code_point_at in Hc.
  destruct (s !! a) as [x|] eqn:Ea; [|done].
  destruct (decide (k = a)) as [->|].
  { simplify_eq. simpl in Hc. congruence. }
  unfold code_point_size in Hk. destruct (c >? 0xFFFF) eqn:Es; [|lia].
  assert (k = (a + 1)%nat) as -> by lia. rewrite H35 in Hc. rewrite Z.gtb_ltb in Es. bool_prop.
  pose proof (units_lookup s Hs) as Hu. pose proof (Hu _ (list_elem_of_lookup_2 _ _ _ Ea)).
  assert (x = c) by (destruct (is_high_surrogate x); simpl in Hc; congruence). lia.
Qed.

Lemma no_introducer_decodes a w b :
  decodes s a w b -> 35 ∉ w -> no_introducer a b.
Proof.
  revert a. induction w as [|c w IH]; simpl; intros a Hd Hin.
  - subst. intros k Hk. lia.
  - destruct Hd as [Hc Hd]. apply not_elem_of_cons in Hin as [? ?].
    eapply no_introducer_app; [by apply no_introducer_code_point|by apply IH].
Qed.

Lemma no_introducer_emoji a b : FullyQualifiedEmoji s a b -> no_introducer a b.
Proof.
  intros [(w & Hin & Hd & Hb) _]. destruct w as [|c w]; [by apply no_empty_emoji in Hin|].
  pose proof (emoji_tails c w Hin) as Ht. destruct (decide (c = 35)) as [->|Hne].
  - destruct Hd as [Hc Hd']. eapply no_introducer_app; [|by eapply no_introducer_decodes].
    intros k Hk _. assert (k = a) as -> by (unfold code_point_size in Hk; simpl in Hk; lia).
    intros Hno. eapply Hno. by exists (35 :: w).
  - apply (no_introducer_decodes a (c :: w)); [done|]. by apply not_elem_of_cons.
Qed.

Lemma hash_plain : ~ DefaultIgnorable 35 /\ ~ EmittedXIDContinue 35.
Proof. rewrite <- ignorable_iff, <- xid_iff. vm_compute. split; discriminate. Qed.

Lemma no_introducer_lone a c :
  lone s a c -> DefaultIgnorable c \/ EmittedXIDContinue c \/ Extension c \/ Apostrophe c ->
  no_introducer a (a + code_point_size c).
Proof.
  intros [_ Hc] H. apply no_introducer_code_point; [done|]. intros ->.
  destruct hash_plain. unfold Extension, Apostrophe in H. naive_solver lia.
Qed.

Lemma no_introducer_segment i j v : TagSegmentSpelling s i j v -> no_introducer i j.
Proof.
  intros [i' k l v' b j' w Hi Hst Hc]. apply (no_introducer_app _ k); [|apply (no_introducer_app _ l)].
  - clear -Hi Hs len. induction Hi as [|i c j Hl Hig _ IH]; [intros k Hk; lia|].
    eapply no_introducer_app; [|exact IH]. apply no_introducer_lone; naive_solver.
  - destruct Hst; [by apply no_introducer_emoji|apply no_introducer_lone; tauto..].
  - clear -Hc Hs len. induction Hc as [|b i k v b' j w Hk _ IH]; [intros k Hk; lia|].
    eapply no_introducer_app; [|exact IH].
    destruct Hk; [by apply no_introducer_emoji|apply no_introducer_lone; tauto..].
Qed.

Lemma no_introducer_spelling i j v : TagSourceSpelling s i j v -> no_introducer i j.
Proof.
  induction 1 as [i j v H|i k v j w H H47 _ IH]; [by eapply no_introducer_segment|].
  eapply no_introducer_app; [by eapply no_introducer_segment|].
  eapply no_introducer_app; [|exact IH]. intros k' Hk' H35.
  assert (k' = k) as -> by lia. congruence.
Qed.

(** *** Candidates *)

Lemma introducer_iff i : isTagIntroducerAt s i len = true <-> s !! i = Some 35 /\ no_emoji s i.
Proof.
  unfold isTagIntroducerAt. rewrite !andb_true_iff, bool_decide_eq_true, <- emojiAt_None_iff.
  destruct (emojiAt s i len); [naive_solver|]. split; [naive_solver|]. intros [H _].
  split; [split|]; [|done..]. apply Nat.ltb_lt. by apply lookup_lt_Some in H.
Qed.

Lemma scanTagAt_Some i m :
  scanTagAt s i len = Some m <->
  s !! i = Some 35 /\ no_emoji s i /\ exists m1, scanSegment s (i + 1) len = Some m1
  /\ m = let '(to, value) := segments_loop (seg_to m1, seg_value m1) in
         {| tm_from := i; tm_to := to; tm_source := slice s (i + 1) to; tm_value := value |}.
Proof.
  unfold scanTagAt. destruct (isTagIntroducerAt s i len) eqn:E; simpl.
  - apply introducer_iff in E as [? ?]. destruct (scanSegment s (i + 1) len) as [m1|].
    + fold (segments_loop (seg_to m1, seg_value m1)).
      destruct (segments_loop _) as [to value] eqn:El. split.
      * intros [= <-]. split; [done|]. split; [done|]. exists m1. by rewrite El.
      * intros (_ & _ & m1' & [= <-] & ->). by rewrite El.
    + naive_solver.
  - split; [done|]. intros (? & ? & _). assert (isTagIntroducerAt s i len = true); [|congruence].
    by apply introducer_iff.
Qed.

Lemma scanTagAt_candidate i m :
  scanTagAt s i len = Some m ->
  tm_from m = i /\ tm_source m = slice s (i + 1) (tm_to m)
  /\ TagCandidate s i (tm_to m) (tm_value m) /\ (i + 1 < tm_to m)%nat.
Proof.
  intros (H35 & Hn & m1 & Hm1 & ->)%scanTagAt_Some.
  pose proof (while_m_turns (fun st : nat * jstring => (len - st.1)%nat) (segments_body s len)
    (seg_to m1, seg_value m1)) as Ht. fold (segments_loop (seg_to m1, seg_value m1)) in Ht.
  apply scanSegment_sound in Hm1. pose proof (segment_advances _ _ _ Hm1).
  pose proof (turns_grow _ _ Ht) as [Hg _].
  apply (turns_spelling (i + 1)) in Ht; [|by apply sp_one].
  destruct (segments_loop _) as [to value]. simpl in *. repeat split; [done..|lia].
Qed.

Lemma scanTagAt_longest i j v :
  TagCandidate s i j v ->
  exists m, scanTagAt s i len = Some m /\ (j <= tm_to m)%nat /\ v `prefix_of` tm_value m.
Proof.
  intros (H35 & Hn & Hsp). destruct (spelling_scanned _ _ _ [] Hsp) as (m1 & Hm1 & Hj & Hp).
  simpl in Hj, Hp. eexists. split; [apply scanTagAt_Some; eauto 10|].
  by destruct (segments_loop _).
Qed.

(** *** Enumeration *)

Lemma scanTagAt_introducer i m : scanTagAt s i len = Some m -> s !! i = Some 35 /\ no_emoji s i.
Proof. intros (? & ? & _)%scanTagAt_Some. done. Qed.

Lemma no_introducer_scan a b k : no_introducer a b -> (a <= k < b)%nat -> scanTagAt s k len = None.
Proof.
  intros H Hk. destruct (scanTagAt s k len) as [m|] eqn:E; [|done].
  apply scanTagAt_introducer in E as [H1 H2]. by apply H in H2.
Qed.

(** Consecutive matches, in order, none overlapping the next, up to [b]. *)
Fixpoint in_order (a : nat) (ms : list TagMatch) (b : nat) : Prop :=
  match ms with
  | [] => (a <= b)%nat
  | m :: ms' => (a <= tm_from m < tm_to m)%nat /\ in_order (tm_to m) ms' b
  end.

Lemma in_order_le a ms b c : in_order a ms b -> (b <= c)%nat -> in_order a ms c.
Proof. revert a. induction ms as [|m ms IH]; simpl; intros a; [lia|naive_solver]. Qed.

Lemma in_order_snoc a ms b m :
  in_order a ms b -> (b <= tm_from m < tm_to m)%nat -> in_order a (ms ++ [m]) (tm_to m).
Proof. revert a. induction ms as [|m' ms IH]; simpl; intros a; [lia|naive_solver]. Qed.

(** The matches so far are the candidates that start before [index]. *)
Definition enumerated (from : nat) (st : nat * list TagMatch) : Prop :=
  in_order from st.2 st.1
  /\ forall m, m ∈ st.2 <->
       (from <= tm_from m < st.1)%nat /\ scanTagAt s (tm_from m) len = Some m.

Lemma enumerated_skip from i ms j :
  enumerated from (i, ms) -> (i <= j)%nat ->
  (forall k, (i <= k < j)%nat -> scanTagAt s k len = None) -> enumerated from (j, ms).
Proof.
  intros [Ho Hm] Hij Hk. split; [by eapply in_order_le|]. intros m. simpl in *. rewrite Hm.
  split; [intros [? ?]; split; [lia|done]|]. intros [? E]. split; [|done].
  destruct (decide (tm_from m < i)%nat); [lia|]. rewrite Hk in E by lia. done.
Qed.

Lemma enumerated_add from i ms m :
  (from <= i)%nat -> enumerated from (i, ms) -> scanTagAt s i len = Some m ->
  enumerated from (tm_to m, ms ++ [m]).
Proof.
  intros Hfi [Ho Hm] E. simpl in *.
  destruct (scanTagAt_candidate i m E) as (Hf & _ & (H35 & Hn & Hsp) & Hlt).
  split; [eapply in_order_snoc; [done|lia]|]. intros m'. simpl.
  rewrite elem_of_app, list_elem_of_singleton, Hm. split.
  - intros [[? ?]| ->]; [split; [lia|done]|]. rewrite Hf. split; [lia|done].
  - intros [? E']. destruct (decide (tm_from m' < i)%nat); [left; split; [lia|done]|].
    destruct (decide (tm_from m' = i)) as [Heq|]; [right; rewrite Heq in E'; congruence|].
    rewrite (no_introducer_scan (i + 1) (tm_to m)) in E'; [done| |lia].
    by eapply no_introducer_spelling.
Qed.

Lemma findTagMatches_step from st st' :
  (from <= st.1)%nat /\ enumerated from st -> findTagMatches_body s len st = Some st' ->
  ((from <= st'.1)%nat /\ enumerated from st') /\ (st.1 < st'.1)%nat /\ (st.1 < len)%nat.
Proof.
  destruct st as [i ms]. simpl. intros [Hfi Hen].
  destruct (i <? len)%nat eqn:Ei; [|done].
  destruct (index_code_point i Ei) as [c Hc].
  assert (emojiAt s i len = None -> scanTagAt s i len = None ->
    Some ((i + length (codePointAt s i))%nat, ms) = Some st' ->
    ((from <= st'.1)%nat /\ enumerated from st') /\ (i < st'.1)%nat /\ (i < len)%nat) as Hskip.
  { intros Hem Hsc [= <-]. simpl. rewrite (length_codePointAt s i c Hc).
    pose proof (code_point_size_pos c). bool_prop. split; [|lia]. split; [lia|].
    eapply enumerated_skip; [done|lia|]. intros k Hk.
    destruct (decide (k = i)) as [->|]; [done|].
    destruct (decide (c = 35)) as [->|Hne]; [unfold code_point_size in Hk; simpl in Hk; lia|].
    by eapply no_introducer_scan; [apply no_introducer_code_point|]. }
  pose proof (emojiAt_cases i) as He. destruct (emojiAt s i len) as [e|] eqn:Ee.
  - intros [= <-]. simpl. destruct He as (Hf & _ & ? & ?). split; [|lia]. split; [lia|].
    eapply enumerated_skip; [done|lia|]. intros k Hk.
    eapply no_introducer_scan; [|done]. by apply no_introducer_emoji.
  - destruct (scanTagAt s i len) as [m|] eqn:Em.
    + destruct (scanTagAt_introducer i m Em) as [H35 _].
      rewrite bool_decide_eq_true_2 by done. intros [= <-]. simpl.
      destruct (scanTagAt_candidate i m Em) as (_ & _ & _ & ?). bool_prop. split; [|lia].
      split; [lia|]. by eapply enumerated_add.
    + case_match; intros; by apply Hskip.
Qed.

Lemma findTagMatches_enumerated from :
  exists i, (len <= i)%nat /\ enumerated from (i, findTagMatches s from len).
Proof.
  unfold findTagMatches. set (m := fun st : nat * list TagMatch => (len - st.1)%nat).
  destruct (while_m_inv_exit (fun st => (from <= st.1)%nat /\ enumerated from st) m
    (findTagMatches_body s len) (from, [])) as [[Hfi Hen] Hexit].
  - intros st st' HI E. destruct (findTagMatches_step from st st' HI E) as (? & ? & ?).
    split; [done|]. unfold m. lia.
  - simpl. split; [done|]. split; simpl; [done|]. intros m'. split; [intros H; inversion H|lia].
  - destruct (while_m _ _ _) as [i ms]. exists i. split; [|done]. simpl in Hexit.
    destruct (i <? len)%nat eqn:Ei; [|by bool_prop].
    repeat case_match; done.
Qed.
End Scanner.

(** ** Properties *)

(** The binary search in each of the three generated tables answers membership
    in the ranges of the table, for every code point. *)
Theorem isInRanges_decides_tables (c : Z) :
  (isInRanges c XID_CONTINUE_RANGES = true <-> in_ranges c XID_CONTINUE_RANGES)
  /\ (isInRanges c DEFAULT_IGNORABLE_RANGES = true <-> in_ranges c DEFAULT_IGNORABLE_RANGES)
  /\ (isInRanges c COMBINING_MARK_RANGES = true <-> in_ranges c COMBINING_MARK_RANGES).
Proof. destruct tables_good as (? & ? & ?). repeat split; by apply isInRanges_iff. Qed.

(** [emojiAt] returns the longest fully qualified emoji written at the offset,
    and nothing when none is written there: walking the trie finds the longest
    entry of the list, however the entries share prefixes. *)
Theorem emojiAt_longest (s : jstring) (i : nat) (Hs : units s) :
  match emojiAt s i (length s) with
  | Some e => exists j, e = slice s i j /\ emoji_token FULLY_QUALIFIED_EMOJI s i (length s) j
      /\ forall j', emoji_token FULLY_QUALIFIED_EMOJI s i (length s) j' -> (j' <= j)%nat
  | None => forall j, ~ emoji_token FULLY_QUALIFIED_EMOJI s i (length s) j
  end.
Proof.
  pose proof (emojiAt_cases s i) as H. destruct (emojiAt s i (length s)) as [e|]; [|done].
  destruct H as ([H1 H2] & H3 & _). by eexists.
Qed.

(** The keycap emoji of the number sign, then a letter. *)
Definition keycap_sample : jstring := [35; 0xFE0F; 0x20E3; 97].

Example emojiAt_longest_witness :
  units keycap_sample /\ emojiAt keycap_sample 0 4 = Some [35; 0xFE0F; 0x20E3]
  /\ exists j, [35; 0xFE0F; 0x20E3] = slice keycap_sample 0 j
     /\ emoji_token FULLY_QUALIFIED_EMOJI keycap_sample 0 4 j.
Proof.
  assert (units keycap_sample) as Hs by check_units.
  assert (emojiAt keycap_sample 0 4 = Some [35; 0xFE0F; 0x20E3]) as E by (vm_compute; reflexivity).
  split; [exact Hs|]. split; [exact E|].
  pose proof (emojiAt_longest keycap_sample 0 Hs) as H. change (length keycap_sample) with 4%nat in H.
  rewrite E in H. destruct H as (j & H1 & H2 & _). exists j. split; [exact H1|exact H2].
Defined.

(** [scanTagAt] recognises the tag grammar of ADR 0001 by longest match: when it
    returns a match, the match is a candidate of the grammar (its value the emitted
    identifier, its source the spelling after the introducer), and every candidate
    at that offset is no longer and has a value that is a prefix of the match's; it
    returns nothing exactly when there is no candidate. *)
Theorem scanTagAt_longest_match (s : jstring) (i : nat) (Hs : units s) :
  match scanTagAt s i (length s) with
  | Some m =>
      tm_from m = i /\ tm_source m = slice s (i + 1) (tm_to m)
      /\ TagCandidate s i (tm_to m) (tm_value m)
      /\ forall j v, TagCandidate s i j v -> (j <= tm_to m)%nat /\ v `prefix_of` tm_value m
  | None => forall j v, ~ TagCandidate s i j v
  end.
Proof.
  destruct (scanTagAt s i (length s)) as [m|] eqn:E.
  - destruct (scanTagAt_candidate s Hs i m E) as (H1 & H2 & H3 & _).
    split; [done|]. split; [done|]. split; [done|]. intros j v H.
    destruct (scanTagAt_longest s Hs i j v H) as (m' & E' & ? & ?). by simplify_eq.
  - intros j v H. destruct (scanTagAt_longest s Hs i j v H) as (m & Em & _). congruence.
Qed.

(** "#R&D/don't " with a typographic apostrophe. *)
Definition tag_sample : jstring := u "#R&D/don" ++ [0x2019] ++ u "t stop".

Example scanTagAt_longest_match_witness :
  units tag_sample /\ exists m, scanTagAt tag_sample 0 (length tag_sample) = Some m
    /\ tm_to m = 10%nat /\ TagCandidate tag_sample 0 (tm_to m) (tm_value m).
Proof.
  assert (units tag_sample) as Hs by check_units. split; [exact Hs|].
  pose proof (scanTagAt_longest_match tag_sample 0 Hs) as H.
  destruct (scanTagAt tag_sample 0 (length tag_sample)) as [m|] eqn:E;
    [|vm_compute in E; discriminate].
  exists m. destruct H as (_ & _ & H & _). split; [reflexivity|]. split; [|exact H].
  vm_compute in E. by injection E as <-.
Defined.

(** C1. [findTagMatches] enumerates a run completely: the matches are in order and do
    not overlap, and they are exactly the matches [scanTagAt] finds at the offsets
    of the run — no candidate is skipped by stepping over emoji, surrogate pairs or
    an earlier match. *)
Theorem findTagMatches_complete (s : jstring) (from : nat) (Hs : units s) :
  (exists b, in_order from (findTagMatches s from (length s)) b)
  /\ forall m, m ∈ findTagMatches s from (length s) <->
       (from <= tm_from m)%nat /\ scanTagAt s (tm_from m) (length s) = Some m.
Proof.
  destruct (findTagMatches_enumerated s Hs from) as (i & Hi & Ho & Hm). split; [by eexists|].
  intros m. simpl in Hm. rewrite Hm. split; [intros [? ?]; split; [lia|done]|]. intros [? E].
  split; [|done]. destruct (scanTagAt_introducer s _ _ E) as [H35 _].
  apply lookup_lt_Some in H35. lia.
Qed.

Example findTagMatches_complete_witness :
  let s := u "#a ##b/c #" in
  units s /\ map tm_value (findTagMatches s 0 (length s)) = [u "a"; u "b/c"]
  /\ exists b, in_order 0 (findTagMatches s 0 (length s)) b.
Proof.
  cbv zeta. assert (units (u "#a ##b/c #")) as Hs by check_units.
  split; [exact Hs|]. split; [vm_compute; reflexivity|].
  apply (findTagMatches_complete (u "#a ##b/c #") 0 Hs).
Defined.

(** A scan never leaves its run when the limit is the end of the string, but
    [scanSegment] reads the starter without comparing its offset with [limit]: a
    number sign at the last offset before a smaller limit takes its starter from
    beyond the limit. *)
Theorem scanTagAt_ignores_limit_for_starter :
  option_map tm_to (scanTagAt (u "#a") 0 1) = Some 2%nat
  /\ option_map tm_value (scanTagAt (u "#a") 0 1) = Some (u "a").
Proof. split; vm_compute; reflexivity. Qed.
