(* ===== verification/MarkdownSource.v ===== *)
(** * Markdown source ranges

    web/src/utils/markdown-source-boundaries.ts (the escapes and character references
    of a source text) and web/src/utils/markdown-link.ts (the links CommonMark
    resolves, on the syntax tree of Lezer).  The Markdown packages these files call
    are the parameters of [MarkdownHost]; a syntax tree is a value of [source_node]. *)

From S2P Require Import Prelude JSString JSRegExp.

(** ** Third-party parsers *)

Class MarkdownHost := {
  decodeString : jstring -> jstring;          (* micromark-util-decode-string *)
  normalizeIdentifier : jstring -> jstring;   (* micromark-util-normalize-identifier *)
  has_definition : jstring -> bool;           (* fromMarkdown(s).children.some(c => c.type === "definition") *)
}.

(** [MarkdownSourceNode]: the children are the [firstChild]/[nextSibling] chain. *)
Inductive source_node := SourceNode (node_name : string) (node_from node_to : nat) (node_children : list source_node).
Definition name (n : source_node) : string := let 'SourceNode a _ _ _ := n in a.
Definition from (n : source_node) : nat := let 'SourceNode _ f _ _ := n in f.
Definition to (n : source_node) : nat := let 'SourceNode _ _ t _ := n in t.
Definition childrenOf (n : source_node) : list source_node := let 'SourceNode _ _ _ c := n in c.

Record MarkdownSourceRange := { r_from : nat; r_to : nat }.
#[export] Instance source_range_eq_dec : EqDecision MarkdownSourceRange.
Proof. solve_decision. Defined.

Definition range_ends (r : MarkdownSourceRange) : nat * nat := (r_from r, r_to r).
(** [left.from - right.from || left.to - right.to], as an order. *)
Definition ends_leb {A} (ends : A -> nat * nat) (a b : A) : bool :=
  ((ends a).1 <? (ends b).1)%nat || (((ends a).1 =? (ends b).1)%nat && ((ends a).2 <=? (ends b).2)%nat).

(** A list sorted by its ends is sorted by where the ranges begin. *)
Lemma sort_by_ends {A} (ends : A -> nat * nat) l :
  StronglySorted (fun a b => (ends a).1 <= (ends b).1)%nat (sort_by (ends_leb ends) l).
Proof.
  eapply StronglySorted_weaken; [|apply sort_by_sorted]; unfold ends_leb.
  - intros a b. rewrite orb_true_iff, andb_true_iff. intros [H|[H _]]; bool_prop; lia.
  - intros x y. rewrite orb_false_iff, andb_false_iff, orb_true_iff, andb_true_iff.
    rewrite !Nat.ltb_lt, !Nat.ltb_ge, !Nat.eqb_eq, !Nat.eqb_neq, !Nat.leb_le, !Nat.leb_gt. lia.
  - intros x y z. rewrite !orb_true_iff, !andb_true_iff.
    rewrite !Nat.ltb_lt, !Nat.eqb_eq, !Nat.leb_le. lia.
Qed.

(** ** markdown-source-boundaries.ts *)

Inductive boundary_type := Entity | Escape.
Record MarkdownSourceBoundary := { b_from : nat; b_to : nat; b_type : boundary_type }.
Definition boundary_ends (b : MarkdownSourceBoundary) : nat * nat := (b_from b, b_to b).

Definition is_hex_digit (c : Z) : bool :=
  is_digit c || ((65 <=? c) && (c <=? 70)) || ((97 <=? c) && (c <=? 102)).

Definition CHARACTER_REFERENCE_AT_START : re :=
  (StartOf false +++ char 38 +++
   ((char 35 +++ between 1 7 digit)
    ||| (char 35 +++ one_of [120; 88] +++ between 1 6 (Chars is_hex_digit))
    ||| between 1 31 (Chars is_alnum_ascii)) +++
   char 59)%re.

Definition isASCIIPunctuation (code : Z) : bool :=
  ((0x21 <=? code) && (code <=? 0x2f)) || ((0x3a <=? code) && (code <=? 0x40))
  || ((0x5b <=? code) && (code <=? 0x60)) || ((0x7b <=? code) && (code <=? 0x7e)).

Section Boundaries.
Context {host : MarkdownHost}.

(** [source.match(re)?.[0]]. *)
Definition matched (r : re) (s : jstring) : option jstring :=
  match exec_from false r s 0 with
  | Some m => Some (slice s (m_from m) (m_to m))
  | None => None
  end.

(** [{ to, value }]. *)
Definition decodedMarkdownCharacterReferenceAt (source : jstring) (from to : nat) : option (nat * jstring) :=
  if decide (source !! from = Some 38) then
    match matched CHARACTER_REFERENCE_AT_START (slice source from (Nat.min to (from + 35))) with
    | None => None
    | Some spelling =>
        let value := decodeString spelling in
        if js_eqb value spelling then None else Some ((from + length spelling)%nat, value)
    end
  else None.

(** Whether a backslash escape is written at [cursor]. *)
Definition escape_at (source : jstring) (to cursor : nat) : bool :=
  match source !! cursor, source !! (cursor + 1)%nat with
  | Some b, Some c => (b =? 92) && (cursor + 1 <? to)%nat && isASCIIPunctuation c
  | _, _ => false
  end.

Definition boundaries_body (source : jstring) (to : nat) (st : nat * list MarkdownSourceBoundary)
    : option (nat * list MarkdownSourceBoundary) :=
  let '(cursor, ranges) := st in
  if (cursor <? to)%nat then
    if escape_at source to cursor then
      Some ((cursor + 2)%nat, ranges ++ [{| b_from := cursor; b_to := (cursor + 2)%nat; b_type := Escape |}])
    else
      match decodedMarkdownCharacterReferenceAt source cursor to with
      | Some (reference_to, _) =>
          Some (reference_to, ranges ++ [{| b_from := cursor; b_to := reference_to; b_type := Entity |}])
      | None =>
          Some ((cursor + match code_point_at source cursor with
                          | Some codePoint => code_point_size codePoint | None => 1 end)%nat, ranges)
      end
  else None.

Definition findDecodedMarkdownSourceBoundaries (source : jstring) (from to : nat) : list MarkdownSourceBoundary :=
  snd (while_m (fun st => to - fst st)%nat (boundaries_body source to) (from, [])).

End Boundaries.

(** ** markdown-link.ts *)

Section Links.
Context {host : MarkdownHost}.

(** [replaceAll("\0", "�")]. *)
Definition replace_nul (s : jstring) : jstring := (fun c => if c =? 0 then 0xFFFD else c) <$> s.

Definition normalizeLabel (source : jstring) : jstring := normalizeIdentifier (replace_nul (decodeString source)).

Definition labelValue (source : jstring) (node : source_node) : jstring :=
  normalizeLabel (slice source (from node + 1) (to node - 1)).

(** [marks[0]] and [marks[1]] are there when it is called. *)
Definition linkTextValue (source : jstring) (mark0 mark1 : source_node) : jstring :=
  normalizeLabel (slice source (to mark0) (from mark1)).

Definition isValidMarkdownLinkReference (source : jstring) (node : source_node) : bool :=
  bool_decide (name node = "LinkReference"%string) && has_definition (slice source (from node) (to node)).

Definition is_named (n : string) (node : source_node) : bool := bool_decide (name node = n).

(** [collectDefinitions]: what it adds to the set, in order. *)
Fixpoint collectDefinitions (source : jstring) (node : source_node) : list jstring :=
  let 'SourceNode node_name _ _ children := node in
  if decide (node_name = "LinkReference"%string) then
    match js_find (is_named "LinkLabel"%string) children with
    | Some label => if isValidMarkdownLinkReference source node then [labelValue source label] else []
    | None => []
    end
  else
    (fix each (l : list source_node) : list jstring :=
       match l with [] => [] | child :: l' => collectDefinitions source child ++ each l' end) children.

(** What [collectLinks] looks up for a link node, and whether the node is resolved. *)
Definition link_resolved (source : jstring) (definitions : list jstring) (node mark0 mark1 : source_node) : bool :=
  let labelClose := to mark1 in
  let isCompleteInlineLink :=
    bool_decide (source !! labelClose = Some 40) && (labelClose <? to node)%nat
    && bool_decide (source !! (to node - 1)%nat = Some 41) in
  let referenceLabel := js_find (fun child => is_named "LinkLabel"%string child && (labelClose <=? from child)%nat)
                          (childrenOf node) in
  let identifier :=
    match referenceLabel with
    | Some label => if (2 <? to label - from label)%nat then labelValue source label
                    else linkTextValue source mark0 mark1
    | None => linkTextValue source mark0 mark1
    end in
  isCompleteInlineLink || bool_decide (identifier ∈ definitions).

Fixpoint collectLinks (source : jstring) (definitions : list jstring) (node : source_node) : list MarkdownSourceRange :=
  let 'SourceNode node_name node_from node_to children := node in
  let each :=
    fix each (l : list source_node) : list MarkdownSourceRange :=
      match l with [] => [] | child :: l' => collectLinks source definitions child ++ each l' end in
  if decide (node_name = "Link"%string \/ node_name = "Image"%string) then
    match js_filter (is_named "LinkMark"%string) children with
    | mark0 :: mark1 :: _ =>
        if link_resolved source definitions node mark0 mark1
        then [{| r_from := node_from; r_to := node_to |}]
        else each children
    | _ => []
    end
  else each children.

Definition resolvedMarkdownLinkRanges (source : jstring) (root : source_node) : list MarkdownSourceRange :=
  sort_by (ends_leb range_ends) (collectLinks source (collectDefinitions source root) root).

Definition hasExactMarkdownRange (ranges : list MarkdownSourceRange) (node : source_node) : bool :=
  existsb (fun range => (r_from range =? from node)%nat && (r_to range =? to node)%nat) ranges.
End Links.

(** ** Trees *)

(** Every node of a tree, and induction on trees. *)
Fixpoint nodes (n : source_node) : list source_node :=
  let 'SourceNode _ _ _ children := n in
  n :: (fix each (l : list source_node) : list source_node :=
          match l with [] => [] | child :: l' => nodes child ++ each l' end) children.

Section NodeInd.
Context (P : source_node -> Prop).
Hypothesis step : forall nm f t cs, Forall P cs -> P (SourceNode nm f t cs).

Fixpoint source_node_nested_ind (n : source_node) : P n :=
  let 'SourceNode nm f t cs := n in
  step nm f t cs ((fix each (l : list source_node) : Forall P l :=
    match l with [] => Forall_nil_2 P | c :: l' => Forall_cons_2 P c l' (source_node_nested_ind c) (each l') end) cs).
End NodeInd.

(** ** Where escapes and references are *)

Section BoundaryFacts.
Context {host : MarkdownHost} (source : jstring) (to : nat).

(** The grammar of a character reference. *)
Definition reference_body (body : jstring) : Prop :=
  (exists ds, body = 35 :: ds /\ (1 <= length ds <= 7)%nat /\ Forall (fun c => is_digit c = true) ds)
  \/ (exists x ds, body = 35 :: x :: ds /\ (x = 120 \/ x = 88) /\ (1 <= length ds <= 6)%nat
        /\ Forall (fun c => is_hex_digit c = true) ds)
  \/ ((1 <= length body <= 31)%nat /\ Forall (fun c => is_alnum_ascii c = true) body).

Definition character_reference (spelling : jstring) : Prop :=
  exists body, spelling = 38 :: body ++ [59] /\ reference_body body.

(** What a boundary's range holds in the source. *)
Definition spelled (b : MarkdownSourceBoundary) : Prop :=
  match b_type b with
  | Escape => exists c, slice source (b_from b) (b_to b) = [92; c] /\ isASCIIPunctuation c = true
  | Entity =>
      let spelling := slice source (b_from b) (b_to b) in
      character_reference spelling /\ decodeString spelling <> spelling
  end.

(** An escape or a reference begins at [i]. *)
Definition opens (i : nat) : Prop :=
  escape_at source to i = true \/ is_Some (decodedMarkdownCharacterReferenceAt source i to).

Definition covered (rs : list MarkdownSourceBoundary) (i : nat) : Prop :=
  exists b, b ∈ rs /\ (b_from b <= i < b_to b)%nat.

Lemma escape_at_spelled cursor :
  escape_at source to cursor = true ->
  (cursor + 2 <= to)%nat /\ source !! cursor = Some 92
  /\ spelled {| b_from := cursor; b_to := (cursor + 2)%nat; b_type := Escape |}.
Proof.
  unfold escape_at. destruct (source !! cursor) as [d|] eqn:Hd; [|done].
  destruct (source !! (cursor + 1)%nat) as [c|] eqn:Hc; [|done].
  intros H1. bool_prop. subst. split; [lia|]. split; [done|]. exists c. split; [|done]. cbn [b_from b_to].
  rewrite (slice_app_split _ _ (cursor + 1)) by lia. rewrite (slice_one _ _ 92) by done.
  replace (cursor + 2)%nat with (cursor + 1 + 1)%nat by lia. by rewrite (slice_one _ _ c).
Qed.

Lemma slice_unit s i c : s !! i = Some c -> slice s i (Datatypes.S i) = [c].
Proof. rewrite <- Nat.add_1_r. apply slice_one. Qed.

Lemma slice_all_chars s p i j :
  all_chars s p i j -> Forall (fun c => p c = true) (slice s i j) /\ (length (slice s i j) = j - i)%nat.
Proof.
  intros H. split; [by apply all_chars_slice|]. rewrite length_slice.
  destruct (decide (i < j)%nat); [apply all_chars_slice in H as [_ H]; specialize (H ltac:(done)); lia|lia].
Qed.

Lemma reference_spelling s spelling :
  matched CHARACTER_REFERENCE_AT_START s = Some spelling ->
  exists n, spelling = slice s 0 n /\ (n <= length s)%nat /\ character_reference spelling.
Proof.
  unfold matched. destruct (exec_from false CHARACTER_REFERENCE_AT_START s 0) as [m|] eqn:E; [|done].
  intros [= <-]. apply exec_from_Some in E as (_ & _ & E).
  pose proof (matches_bound _ _ _ _ E) as Hb. cbn [fst] in Hb.
  unfold CHARACTER_REFERENCE_AT_START in E. rewrite !matches_seq in E.
  destruct E as (st0 & [-> H0]%matches_start & E). cbn [fst] in H0. rewrite H0 in *.
  specialize (Hb ltac:(lia)). rewrite matches_seq in E.
  destruct E as (st1 & (c & Hc & ->%Z.eqb_eq & ->)%matches_chars & E). rewrite matches_seq in E.
  destruct E as ([j caps] & Hbody & Hend). apply matches_chars in Hend as (d & Hd & ->%Z.eqb_eq & Hend).
  injection Hend as Hend _. exists (m_to m). split; [done|]. split; [done|].
  assert (1 <= j)%nat as Hj by (apply matches_advances in Hbody as [Hbody _]; exact Hbody).
  exists (slice s 1 j). split.
  { rewrite (slice_app_split s 0 1) by lia. rewrite (slice_unit s 0 38) by done.
    rewrite (slice_app_split s 1 j) by lia. rewrite Hend. by rewrite (slice_one s j 59). }
  rewrite !matches_alt in Hbody. destruct Hbody as [[Hb1|Hb1]|Hb1].
  - left. apply matches_seq in Hb1 as (st & (c & Hc1 & ->%Z.eqb_eq & ->)%matches_chars & H2).
    apply matches_between_chars in H2 as (H2 & H3 & _); [|lia]. cbn [fst] in *.
    apply slice_all_chars in H2 as [H4 H5]. exists (slice s 2 j). split.
    { rewrite (slice_app_split s 1 2) by lia. by rewrite (slice_unit s 1 35). }
    change (0 + 1 + 1)%nat with 2%nat in *. split; [lia|done].
  - right; left. apply matches_seq in Hb1 as (st & (c & Hc1 & ->%Z.eqb_eq & ->)%matches_chars & H2).
    apply matches_seq in H2 as (st & (x & Hx & Hx' & ->)%matches_chars & H2).
    apply matches_between_chars in H2 as (H2 & H3 & _); [|lia]. cbn [fst] in *.
    apply slice_all_chars in H2 as [H4 H5]. exists x, (slice s 3 j). split.
    { rewrite (slice_app_split s 1 2) by lia. rewrite (slice_app_split s 2 3) by lia.
      rewrite (slice_unit s 1 35) by done. by rewrite (slice_unit s 2 x). }
    change (0 + 1 + 1 + 1)%nat with 3%nat in *. split; [|split; [lia|done]].
    cbn in Hx'. rewrite orb_false_r, orb_true_iff, !Z.eqb_eq in Hx'. done.
  - right; right. apply matches_between_chars in Hb1 as (H2 & H3 & _); [|lia]. cbn [fst] in *.
    change (0 + 1)%nat with 1%nat in *. apply slice_all_chars in H2 as [H4 H5]. split; [lia|done].
Qed.

Lemma character_reference_length spelling : character_reference spelling -> (3 <= length spelling)%nat.
Proof.
  intros (body & -> & Hb). simpl. rewrite length_app. simpl.
  assert (1 <= length body)%nat; [|lia]. destruct Hb as [(ds & -> & _)|[(x & ds & -> & _)|[? _]]]; simpl; lia.
Qed.

Lemma slice_slice s i j k l : (i + l <= j)%nat -> slice (slice s i j) k l = slice s (i + k) (i + l).
Proof.
  intros Hl. apply list_eq. intros n. destruct (decide (n < l - k)%nat).
  - rewrite !lookup_slice by lia. f_equal. lia.
  - rewrite !lookup_ge_None_2; [done|rewrite length_slice; lia..].
Qed.

Lemma reference_spelled cursor reference_to v :
  decodedMarkdownCharacterReferenceAt source cursor to = Some (reference_to, v) ->
  (cursor + 3 <= reference_to)%nat /\ (reference_to <= to)%nat /\ source !! cursor = Some 38
  /\ spelled {| b_from := cursor; b_to := reference_to; b_type := Entity |}
  /\ v = decodeString (slice source cursor reference_to).
Proof.
  unfold decodedMarkdownCharacterReferenceAt. case_decide as H38; [|done].
  destruct (matched _ _) as [spelling|] eqn:E; [|done].
  apply reference_spelling in E as (n & -> & Hn & Href).
  rewrite length_slice in Hn.
  pose proof (character_reference_length _ Href) as Hlen. rewrite !length_slice in Hlen.
  rewrite slice_slice, Nat.add_0_r in Href by lia. rewrite slice_slice, Nat.add_0_r by lia.
  destruct (js_eqb _ _) eqn:Ej; [done|]. intros [= <- <-]. unfold js_eqb in Ej. bool_prop.
  rewrite length_slice.
  replace (cursor + (Nat.min (cursor + n) (length source) - cursor))%nat with (cursor + n)%nat by lia.
  split; [lia|]. split; [lia|]. split; [done|]. by split.
Qed.

(** A low surrogate opens nothing. *)
Lemma opens_unit i : opens i -> exists c, source !! i = Some c /\ is_low_surrogate c = false.
Proof.
  intros [H|[[e v] H]].
  - apply escape_at_spelled in H as (_ & -> & _). by eexists.
  - apply reference_spelled in H as (_ & _ & -> & _). by eexists.
Qed.

Lemma covered_snoc rs b i : covered rs i \/ (b_from b <= i < b_to b)%nat -> covered (rs ++ [b]) i.
Proof.
  intros [(x & Hx & Hi)|Hi].
  - exists x. split; [apply elem_of_app; by left|done].
  - exists b. split; [apply elem_of_app; right; by left|done].
Qed.

(** The ranges found so far are all of those that open before [cursor]. *)
Definition scanned (start : nat) (st : nat * list MarkdownSourceBoundary) : Prop :=
  let '(cursor, rs) := st in
  (start <= cursor)%nat
  /\ (exists hi, spans boundary_ends start rs hi /\ (hi <= cursor)%nat /\ (hi <= to)%nat)
  /\ Forall spelled rs
  /\ forall i, (start <= i < cursor)%nat -> opens i -> covered rs i.

Lemma scanned_found start cursor rs e t :
  scanned start (cursor, rs) -> (cursor < e)%nat -> (e <= to)%nat ->
  spelled {| b_from := cursor; b_to := e; b_type := t |} ->
  scanned start (e, rs ++ [{| b_from := cursor; b_to := e; b_type := t |}]).
Proof.
  intros (H1 & (hi & H2 & H3 & H4) & H5 & H6) Hlt Hle Hs. split; [lia|]. split; [|split].
  - exists e. split; [|lia]. change e with (boundary_ends {| b_from := cursor; b_to := e; b_type := t |}).2 at 2.
    eapply spans_snoc; [exact H2|cbn; lia].
  - apply Forall_app. split; [done|]. by constructor.
  - intros i Hi Ho. apply covered_snoc. destruct (decide (i < cursor)%nat); [left; apply H6; [lia|done]|].
    right. cbn. lia.
Qed.

Lemma boundaries_step start st st' (Hu : units source) :
  scanned start st -> boundaries_body source to st = Some st' ->
  scanned start st' /\ (to - st'.1 < to - st.1)%nat.
Proof.
  destruct st as [cursor rs]. unfold boundaries_body. intros Hs.
  destruct (cursor <? to)%nat eqn:Ec; [|done]. bool_prop.
  destruct (escape_at source to cursor) eqn:Ee.
  { intros [= <-]. apply escape_at_spelled in Ee as (H1 & _ & H2). split; [|cbn; lia].
    apply scanned_found; [done|lia|lia|done]. }
  destruct (decodedMarkdownCharacterReferenceAt source cursor to) as [[e v]|] eqn:Er.
  { intros [= <-]. apply reference_spelled in Er as (H1 & H2 & _ & H3 & _). split; [|cbn; lia].
    apply scanned_found; [done|lia|lia|done]. }
  intros [= <-]. destruct Hs as (H1 & (hi & H2 & H3 & H4) & H5 & H6).
  set (n := match code_point_at source cursor with Some cp => code_point_size cp | None => 1%nat end).
  assert (1 <= n)%nat as Hn.
  { unfold n. case_match; [apply code_point_size_pos|lia]. }
  split; [|cbn; lia]. split; [lia|]. split; [exists hi; split; [done|lia]|]. split; [done|].
  intros i Hi Ho. destruct (decide (i < cursor)%nat); [apply H6; [lia|done]|]. exfalso.
  destruct (decide (i = cursor)) as [->|].
  { destruct Ho as [Ho|[? Ho]]; congruence. }
  destruct (code_point_at source cursor) as [cp|] eqn:Hcp; [|unfold n in Hi; lia].
  destruct (code_point_tail _ _ _ i Hu Hcp) as (d & Hd & Hlow); [unfold n in Hi; lia|].
  apply opens_unit in Ho as (c & Hc & Hc'). congruence.
Qed.

Lemma boundaries_scanned start (Hu : units source) (Hle : (start <= to)%nat) :
  exists cursor, (to <= cursor)%nat
    /\ scanned start (cursor, findDecodedMarkdownSourceBoundaries source start to).
Proof.
  unfold findDecodedMarkdownSourceBoundaries.
  destruct (while_m_inv_exit (scanned start) (fun st => to - fst st)%nat (boundaries_body source to)
    (start, [])) as [Hinv Hexit].
  - intros st st' HI E. by apply (boundaries_step start).
  - split; [lia|]. split; [exists start; cbn; lia|]. split; [constructor|]. intros i Hi. lia.
  - destruct (while_m _ _ _) as [cursor rs]. cbn [snd]. exists cursor. split; [|done].
    unfold boundaries_body in Hexit. destruct (cursor <? to)%nat eqn:Ec; [|by bool_prop].
    repeat case_match; done.
Qed.
End BoundaryFacts.

(** ** Properties *)

Section BoundaryProperties.
Context {host : MarkdownHost}.

(** The decoded spellings of a source are found completely: the ranges are in
    order, do not overlap and lie in the scanned interval, each is a backslash escape
    of an ASCII punctuation mark or a character reference of CommonMark's grammar whose
    decoding differs from its spelling, and an escape or reference that begins anywhere
    in the interval begins inside one of the ranges. *)
Theorem decoded_boundaries_complete (source : jstring) (start to : nat) (Hs : units source) (Hle : (start <= to)%nat) :
  let ranges := findDecodedMarkdownSourceBoundaries source start to in
  spans boundary_ends start ranges to
  /\ Forall (spelled source) ranges
  /\ (forall i, (start <= i < to)%nat -> opens source to i -> covered ranges i).
Proof.
  destruct (boundaries_scanned source to start Hs Hle) as (cursor & Hto & H1 & (hi & H2 & H3 & H4) & H5 & H6).
  split; [by eapply spans_le|]. split; [done|]. intros i Hi. apply H6. lia.
Qed.
End BoundaryProperties.

(** A host that knows one named reference. *)
Definition amp_host : MarkdownHost := {|
  decodeString s := if js_eqb s (u "&amp;") then u "&" else s;
  normalizeIdentifier s := s;
  has_definition s := starts_with s (u "[") && includes s (u "]: ");
|}.

Definition boundary_sample : jstring := u "a\#b &amp; &nope;".

Example decoded_boundaries_complete_witness :
  @findDecodedMarkdownSourceBoundaries amp_host boundary_sample 0 17
    = [{| b_from := 1; b_to := 3; b_type := Escape |}; {| b_from := 5; b_to := 10; b_type := Entity |}]
  /\ (forall i, (0 <= i < 17)%nat -> @opens amp_host boundary_sample 17 i ->
       covered (@findDecodedMarkdownSourceBoundaries amp_host boundary_sample 0 17) i).
Proof.
  split; [vm_compute; reflexivity|].
  apply (@decoded_boundaries_complete amp_host boundary_sample 0 17); [check_units|lia].
Defined.
