(* ===== verification/GFMUrl.v ===== *)
(** * Written GFM URLs

    web/src/utils/gfm-url.ts: the URLs written as plain text in a Markdown source, and
    where in the syntax tree they are looked for. *)

From S2P Require Import Prelude JSString HostUnicode JSRegExp MarkdownSource.

Section Urls.
Context {host : MarkdownHost} {unicode : HostUnicode}.

Definition TRAILING_PUNCTUATION (c : Z) : bool :=
  existsb (Z.eqb c) [33; 34; 39; 42; 44; 46; 58; 59; 63; 95; 126].

Definition prefixEnd (source : jstring) (from : nat) : option nat :=
  if starts_with_at source (u "https://") from then Some (from + length (u "https://"))%nat
  else if starts_with_at source (u "http://") from then Some (from + length (u "http://"))%nat
  else if starts_with_at source (u "www.") from then Some (from + length (u "www."))%nat
  else None.

(** [UNICODE_ALPHANUMERIC], [/[\p{L}\p{N}]/u]. *)
Definition UNICODE_ALPHANUMERIC (c : Z) : bool := is_letter c || is_number c.

(** [source.codePointAt(offset) ?? 0]. *)
Definition point_at (source : jstring) (offset : nat) : Z := default 0 (code_point_at source offset).

Definition domainCharacterSize (source : jstring) (offset : nat) : nat :=
  let char := point_at source offset in
  if (char =? 95) || (char =? 45) || (char =? 46) || UNICODE_ALPHANUMERIC char
  then code_point_size char else 0%nat.

(** [while (to > from && source[to - 1] === ".") to--]. *)
Definition strip_dots_body (source : jstring) (from to : nat) : option nat :=
  if (from <? to)%nat && bool_decide (source !! (to - 1)%nat = Some 46) then Some (to - 1)%nat else None.

(** [segments.at(-n)]. *)
Definition at_last {A} (l : list A) (n : nat) : option A := rev l !! (n - 1)%nat.
Definition has_underscore (segment : option jstring) : bool :=
  match segment with Some s => includes s [95] | None => false end.

Definition hasValidDomain (source : jstring) (from to : nat) : bool :=
  let to := while_m (fun t => t) (strip_dots_body source from) to in
  let segments := split_on 46 (slice source from to) in
  (2 <=? length segments)%nat && forallb (fun s => negb (js_eqb s [])) segments
  && negb (has_underscore (at_last segments 2)) && negb (has_underscore (at_last segments 1)).

(** [/&[A-Za-z]+;$/] on [source.slice(from, to)]: the length of the match. *)
Definition is_alpha_ascii (c : Z) : bool := is_upper_ascii c || is_lower_ascii c.
Definition ENTITY_AT_END : re := (char 38 +++ plus (Chars is_alpha_ascii) +++ char 59 +++ EndOf false)%re.
Definition entity_length (s : jstring) : option nat :=
  match exec_from false ENTITY_AT_END s 0 with
  | Some m => Some (m_to m - m_from m)%nat
  | None => None
  end.

Definition count_unit (c : Z) (s : jstring) : nat := length (js_filter (Z.eqb c) s).

(** One turn of the trimming loop on [(to, closeParentheses)]. *)
Definition trim_body (source : jstring) (from openParentheses : nat) (st : nat * nat) : option (nat * nat) :=
  let '(to, closeParentheses) := st in
  if (from <? to)%nat then
    match entity_length (slice source from to) with
    | Some n => Some ((to - n)%nat, closeParentheses)
    | None =>
        let character := default 0 (source !! (to - 1)%nat) in
        if (character =? 41) && (openParentheses <? closeParentheses)%nat
        then Some ((to - 1)%nat, (closeParentheses - 1)%nat)
        else if (character =? 93) || TRAILING_PUNCTUATION character
        then Some ((to - 1)%nat, closeParentheses)
        else None
    end
  else None.

Definition trimGFMURLTail (source : jstring) (from to : nat) : nat :=
  let path := slice source from to in
  fst (while_m (fun st => fst st) (trim_body source from (count_unit 40 path)) (to, count_unit 41 path)).

(** The two loops of [writtenGFMURLSourceRange]: the end of the domain and the end of
    the path. *)
Definition domain_body (source : jstring) (upperBound domainTo : nat) : option nat :=
  if (domainTo <? upperBound)%nat then
    let size := domainCharacterSize source domainTo in
    if (size =? 0)%nat then None else Some (domainTo + size)%nat
  else None.

Definition path_stop (source : jstring) (to : nat) : bool :=
  match source !! to with
  | Some code => (code =? 60) || ((9 <=? code) && (code <=? 13)) || is_separator (point_at source to)
  | None => is_separator (point_at source to)
  end.

Definition path_body (source : jstring) (upperBound to : nat) : option nat :=
  if (to <? upperBound)%nat && negb (path_stop source to)
  then Some (to + code_point_size (point_at source to))%nat else None.

Definition domain_end (source : jstring) (upperBound domainFrom : nat) : nat :=
  while_m (fun i => upperBound - i)%nat (domain_body source upperBound) domainFrom.
Definition path_end (source : jstring) (upperBound domainTo : nat) : nat :=
  while_m (fun i => upperBound - i)%nat (path_body source upperBound) domainTo.

Definition writtenGFMURLSourceRange (source : jstring) (from upperBound : nat) : option MarkdownSourceRange :=
  match prefixEnd source from with
  | None => None
  | Some domainFrom =>
      if (upperBound <=? domainFrom)%nat then None
      else
        let domainTo := domain_end source upperBound domainFrom in
        if negb (hasValidDomain source domainFrom domainTo) then None
        else
          let to := path_end source upperBound domainTo in
          Some {| r_from := from; r_to := trimGFMURLTail source from to |}
  end.

Definition isWrittenGFMURLSource (source : jstring) : bool :=
  match writtenGFMURLSourceRange source 0 (length source) with
  | Some r => (r_to r =? length source)%nat
  | None => false
  end.

Definition hasWrittenURLBoundary (source : jstring) (from contextFrom : nat) (allowInitialBOM : bool) : bool :=
  (from =? contextFrom)%nat
  || (allowInitialBOM && (contextFrom =? 0)%nat && (from =? 1)%nat && bool_decide (source !! 0%nat = Some 0xFEFF))
  || match from with
     | O => false
     | S previous =>
         match source !! previous with
         | Some code => ((9 <=? code) && (code <=? 13)) || existsb (Z.eqb code) [32; 40; 42; 95; 126]
         | None => false
         end
     end.

Definition writtenGFMURLSourceRangeAt (source : jstring) (from contextFrom upperBound : nat) (allowInitialBOM : bool)
    : option MarkdownSourceRange :=
  if negb (hasWrittenURLBoundary source from contextFrom allowInitialBOM) then None
  else writtenGFMURLSourceRange source from upperBound.

(** [while (opaqueIndex < ... && opaqueRanges[opaqueIndex].to <= offset) opaqueIndex++],
    on the list of the ranges from [opaqueIndex] on. *)
Fixpoint skip_opaque (offset : nat) (opaqueRanges : list MarkdownSourceRange) : list MarkdownSourceRange :=
  match opaqueRanges with
  | r :: l => if (r_to r <=? offset)%nat then skip_opaque offset l else opaqueRanges
  | [] => []
  end.

Record url_scan := { offset : nat; opaque_rest : list MarkdownSourceRange; url_ranges : list MarkdownSourceRange }.

Definition url_body (source : jstring) (lowerBound upperBound contextFrom : nat) (allowInitialBOM : bool) (st : url_scan)
    : option url_scan :=
  if (offset st <? upperBound)%nat then
    let rest := skip_opaque (offset st) (opaque_rest st) in
    let plain :=
      match (if (lowerBound <=? offset st)%nat
             then writtenGFMURLSourceRangeAt source (offset st) contextFrom upperBound allowInitialBOM else None) with
      | Some range => {| offset := r_to range; opaque_rest := rest; url_ranges := url_ranges st ++ [range] |}
      | None => {| offset := (offset st + 1)%nat; opaque_rest := rest; url_ranges := url_ranges st |}
      end in
    match rest with
    | opaque :: _ =>
        if (r_from opaque <=? offset st)%nat && (offset st <? r_to opaque)%nat
        then Some {| offset := r_to opaque; opaque_rest := rest; url_ranges := url_ranges st |}
        else Some plain
    | [] => Some plain
    end
  else None.

Definition findWrittenGFMURLRanges (source : jstring) (lowerBound upperBound contextFrom : nat)
    (opaqueRanges : list MarkdownSourceRange) (allowInitialBOM : bool) : list MarkdownSourceRange :=
  url_ranges (while_m (fun st => upperBound - offset st)%nat
    (url_body source lowerBound upperBound contextFrom allowInitialBOM)
    {| offset := contextFrom; opaque_rest := opaqueRanges; url_ranges := [] |}).

(** ** On the syntax tree *)

Definition URL_SOURCE_CONTAINERS : list string :=
  ["ATXHeading1"; "ATXHeading2"; "ATXHeading3"; "ATXHeading4"; "ATXHeading5"; "ATXHeading6";
   "Paragraph"; "SetextHeading1"; "SetextHeading2"; "TableCell"; "Task"]%string.

Definition URL_PREFIX_OPAQUE_NODES : list string :=
  ["Autolink"; "BlockMath"; "Comment"; "Escape"; "HTMLBlock"; "HTMLTag"; "InlineCode"; "InlineMath";
   "ProcessingInstruction"]%string.

Definition node_range (n : source_node) : MarkdownSourceRange := {| r_from := from n; r_to := to n |}.

(** Whether a node hides what precedes a URL. *)
Definition opaque_node (source : jstring) (resolvedLinks : list MarkdownSourceRange) (child : source_node) : bool :=
  let spelling := slice source (from child) (to child) in
  ((is_named "Link" child || is_named "Image" child) && hasExactMarkdownRange resolvedLinks child)
  || (is_named "Entity" child && negb (js_eqb (decodeString spelling) spelling))
  || bool_decide (name child ∈ URL_PREFIX_OPAQUE_NODES).

(** [collect] of [opaqueURLPrefixRanges], on the children of a node. *)
Fixpoint opaque_ranges (source : jstring) (resolvedLinks : list MarkdownSourceRange) (node : source_node)
    : list MarkdownSourceRange :=
  let 'SourceNode _ _ _ children := node in
  (fix each (l : list source_node) : list MarkdownSourceRange :=
     match l with
     | [] => []
     | child :: l' =>
         (if opaque_node source resolvedLinks child then [node_range child]
          else opaque_ranges source resolvedLinks child) ++ each l'
     end) children.

Definition opaqueURLPrefixRanges (source : jstring) (container : source_node) (resolvedLinks : list MarkdownSourceRange)
    : list MarkdownSourceRange :=
  sort_by (ends_leb range_ends) (opaque_ranges source resolvedLinks container).

Definition url_container (source : jstring) (node : source_node) : bool :=
  bool_decide (name node ∈ URL_SOURCE_CONTAINERS)
  || (is_named "LinkReference" node && negb (isValidMarkdownLinkReference source node)).

Fixpoint collect_urls (source : jstring) (resolvedLinks : list MarkdownSourceRange) (allowInitialBOM : bool)
    (node : source_node) : list MarkdownSourceRange :=
  let 'SourceNode _ node_from node_to children := node in
  if url_container source node then
    findWrittenGFMURLRanges source node_from node_to node_from
      (opaqueURLPrefixRanges source node resolvedLinks) allowInitialBOM
  else
    (fix each (l : list source_node) : list MarkdownSourceRange :=
       match l with
       | [] => []
       | child :: l' => collect_urls source resolvedLinks allowInitialBOM child ++ each l'
       end) children.

Definition findMarkdownGFMURLRanges (source : jstring) (root : source_node) (resolvedLinks : list MarkdownSourceRange)
    (allowInitialBOM : bool) : list MarkdownSourceRange :=
  sort_by (ends_leb range_ends) (collect_urls source resolvedLinks allowInitialBOM root).
End Urls.

(** ** One URL *)

Section UrlFacts.
Context {host : MarkdownHost} {unicode : HostUnicode} {laws : HostUnicodeLaws}.
Context (s : jstring) (Hu : units s).

(** The units a domain is written with. *)
Definition domain_unit (c : Z) : Prop := 127 < c \/ is_alnum_ascii c = true \/ c = 95 \/ c = 45 \/ c = 46.

(** The units the tail trimming may remove one by one. *)
Definition trimmable (c : Z) : bool := (c =? 41) || (c =? 93) || TRAILING_PUNCTUATION c.

Lemma point_at_Some i : (i < length s)%nat -> code_point_at s i = Some (point_at s i).
Proof.
  intros Hi. unfold point_at. apply code_point_at_is_Some in Hi as [c Hc]. by rewrite Hc.
Qed.

(** A unit of a character is the character or a surrogate. *)
Lemma unit_of_point i k c :
  code_point_at s i = Some c -> (i <= k < i + code_point_size c)%nat ->
  exists d, s !! k = Some d /\ (d = c \/ 0xD800 <= d).
Proof.
  intros Hc Hk. destruct (decide (k = i)) as [->|].
  - unfold code_point_at in Hc. destruct (s !! i) as [d|] eqn:Ei; [|done]. exists d. split; [done|].
    unfold is_high_surrogate in Hc. destruct ((0xD800 <=? d) && (d <=? 0xDBFF)) eqn:E; bool_prop; [right; lia|].
    left. congruence.
  - destruct (code_point_tail s i c k Hu Hc) as (d & Hd & Hlow); [lia|]. exists d. split; [done|].
    right. unfold is_low_surrogate in Hlow. bool_prop. lia.
Qed.

Lemma domain_point c : 0 <= c -> (c =? 95) || (c =? 45) || (c =? 46) || UNICODE_ALPHANUMERIC c = true -> domain_unit c.
Proof.
  intros H0. unfold domain_unit, UNICODE_ALPHANUMERIC. rewrite !orb_true_iff, !Z.eqb_eq. intros H.
  destruct (decide (127 < c)); [by left|]. rewrite is_letter_ascii, is_number_ascii in H by lia.
  unfold is_alnum_ascii. rewrite !orb_true_iff in *. tauto.
Qed.

Lemma code_point_nonneg i c : code_point_at s i = Some c -> 0 <= c.
Proof.
  unfold code_point_at. destruct (s !! i) as [d|] eqn:Ei; [|done].
  pose proof (units_lookup s Hu _ (list_elem_of_lookup_2 _ _ _ Ei)).
  unfold is_high_surrogate, is_low_surrogate. repeat case_match; intros [= <-]; bool_prop; lia.
Qed.

Lemma whole_step ub i : whole s ub -> (i < ub)%nat -> (i + code_point_size (point_at s i) <= ub)%nat.
Proof.
  intros Hw Hi. apply (whole_code_point s); [done|done|]. apply point_at_Some. destruct Hw. lia.
Qed.

Definition domain_so_far (start ub i : nat) : Prop :=
  (start <= i <= ub)%nat /\ forall k, (start <= k < i)%nat -> exists c, s !! k = Some c /\ domain_unit c.

Lemma domain_end_spec start ub : whole s ub -> (start <= ub)%nat -> domain_so_far start ub (domain_end s ub start).
Proof.
  intros Hw Hle. unfold domain_end. apply while_m_inv; [|split; [lia|]; intros k Hk; lia].
  intros i i' (H1 & H2). unfold domain_body. destruct (i <? ub)%nat eqn:Ei; [|done]. bool_prop.
  pose proof (whole_step ub i Hw ltac:(lia)). unfold domainCharacterSize.
  pose proof (point_at_Some i) as Hp. specialize (Hp ltac:(destruct Hw; lia)).
  destruct (_ || _) eqn:Eo; [|done]. destruct (code_point_size (point_at s i) =? 0)%nat; [done|].
  intros [= <-]. split; [lia|].
  intros k Hk. destruct (decide (k < i)%nat); [apply H2; lia|].
  destruct (unit_of_point i k _ Hp) as (d & Hd & Hd'); [lia|]. exists d. split; [done|].
  apply domain_point in Eo; [|by eapply code_point_nonneg].
  destruct Hd' as [->|]; [done|]. left. lia.
Qed.

(** The path goes on to the first [<], white space or separator. *)
Lemma path_end_spec start ub :
  whole s ub -> (start <= ub)%nat ->
  (start <= path_end s ub start <= ub)%nat
  /\ forall k c, (start <= k < path_end s ub start)%nat -> s !! k = Some c -> c <> 60 /\ ~ 9 <= c <= 13 /\ c <> 32.
Proof.
  intros Hw Hle. unfold path_end.
  apply (while_m_inv (fun i => (start <= i <= ub)%nat
    /\ forall k c, (start <= k < i)%nat -> s !! k = Some c -> c <> 60 /\ ~ 9 <= c <= 13 /\ c <> 32));
    [|split; [lia|]; intros k c Hk; lia].
  intros i i' (H1 & H2). unfold path_body. destruct (i <? ub)%nat eqn:Ei; [|done]. bool_prop. cbn [andb].
  destruct (path_stop s i) eqn:Ep; [done|]. intros [= <-].
  pose proof (whole_step ub i Hw ltac:(lia)). pose proof (code_point_size_pos (point_at s i)).
  split; [lia|]. intros k c Hk Hc. destruct (decide (k < i)%nat); [exact (H2 k c ltac:(lia) Hc)|].
  pose proof (point_at_Some i ltac:(destruct Hw; lia)) as Hp.
  destruct (decide (k = i)) as [->|].
  - unfold path_stop in Ep. rewrite Hc in Ep. bool_prop.
    rewrite andb_false_iff, Z.leb_gt, Z.leb_gt in *. split; [done|]. split; [lia|]. intros ->.
    assert (point_at s i = 32) as Hpt.
    { unfold code_point_at in Hp. rewrite Hc in Hp. cbn in Hp. congruence. }
    rewrite Hpt, is_separator_ascii in * by lia. done.
  - destruct (code_point_tail s i _ k Hu Hp) as (d & Hd & Hlow); [lia|].
    unfold is_low_surrogate in Hlow. bool_prop. assert (d = c) by congruence. lia.
Qed.

(** ** Trimming *)

Definition excess (from t : nat) : nat := count_unit 41 (slice s from t).

Lemma entity_length_spec l n :
  entity_length l = Some n ->
  (3 <= n <= length l)%nat /\ l !! (length l - n)%nat = Some 38
  /\ forall k, (length l - n < k < length l)%nat -> exists c, l !! k = Some c /\ (is_alpha_ascii c = true \/ c = 59).
Proof.
  unfold entity_length. destruct (exec_from false ENTITY_AT_END l 0) as [m|] eqn:E; [|done]. intros [= <-].
  apply exec_from_Some in E as (_ & _ & E). unfold ENTITY_AT_END in E. rewrite matches_seq in E.
  destruct E as (st & (c & Hc & ->%Z.eqb_eq & ->)%matches_chars & E). rewrite matches_seq in E.
  destruct E as ([j caps] & (Hall & Hlt & _)%matches_plus_chars & E). rewrite matches_seq in E. cbn [fst snd] in *.
  destruct E as (st & (d & Hd & ->%Z.eqb_eq & ->)%matches_chars & E).
  apply matches_end in E as [[= Hm _] Hlen]. cbn [fst] in Hlen.
  pose proof (lookup_lt_Some _ _ _ Hd) as Hj. assert (m_to m = length l) as -> by lia.
  split; [lia|]. split; [replace (length l - (length l - m_from m))%nat with (m_from m) by lia; done|].
  intros k Hk. destruct (decide (k = j)) as [->|]; [exists 59; eauto|].
  destruct Hall as [_ Hall]. destruct (Hall k) as (x & Hx & Hp); [lia|]. exists x. auto.
Qed.

Lemma count_unit_app c l1 l2 : count_unit c (l1 ++ l2) = (count_unit c l1 + count_unit c l2)%nat.
Proof. unfold count_unit. by rewrite js_filter_app, length_app. Qed.

Lemma count_unit_none c l : c ∉ l -> count_unit c l = 0%nat.
Proof.
  unfold count_unit. induction l as [|d l IH]; [done|]. intros [H1 H2]%not_elem_of_cons. simpl.
  rewrite (proj2 (Z.eqb_neq c d)) by done. by apply IH.
Qed.

(** Removing the last unit, or an entity, keeps the counts of parentheses right. *)
Lemma count_last c from t d :
  (from < t)%nat -> s !! (t - 1)%nat = Some d ->
  count_unit c (slice s from t) = (count_unit c (slice s from (t - 1)) + if (c =? d)%Z then 1 else 0)%nat.
Proof.
  intros Hlt Hd. rewrite (slice_app_split s from (t - 1)) by lia. rewrite count_unit_app. f_equal.
  replace t with (t - 1 + 1)%nat at 2 by lia. rewrite (slice_one s (t - 1) d Hd).
  unfold count_unit. simpl. by destruct (c =? d).
Qed.

Lemma slice_lookup from t k c :
  (t <= length s)%nat -> (from <= k < t)%nat -> s !! k = Some c -> slice s from t !! (k - from)%nat = Some c.
Proof. intros. rewrite lookup_slice by lia. by replace (from + (k - from))%nat with k by lia. Qed.

Lemma entity_tail from t n :
  (from <= t)%nat -> (t <= length s)%nat -> entity_length (slice s from t) = Some n ->
  (3 <= n)%nat /\ (from + n <= t)%nat /\ s !! (t - n)%nat = Some 38
  /\ forall c, c = 40 \/ c = 41 -> count_unit c (slice s from t) = count_unit c (slice s from (t - n)).
Proof.
  intros Hft Ht H. apply entity_length_spec in H as (Hn & H38 & Hall).
  rewrite length_slice in *. split; [lia|]. split; [lia|].
  rewrite lookup_slice in H38 by lia.
  replace (from + (Nat.min t (length s) - from - n))%nat with (t - n)%nat in H38 by lia. split; [done|].
  intros c Hc. rewrite (slice_app_split s from (t - n) t) by lia. rewrite count_unit_app.
  rewrite (count_unit_none c (slice s (t - n) t)); [lia|]. intros Hin.
  apply list_elem_of_lookup in Hin as [k Hk].
  pose proof (lookup_lt_Some _ _ _ Hk) as Hkl. rewrite length_slice in Hkl.
  rewrite lookup_slice in Hk by lia. destruct (decide (k = 0%nat)) as [->|].
  - rewrite Nat.add_0_r in Hk. assert (c = 38) by congruence. lia.
  - destruct (Hall (t - n + k - from)%nat) as (x & Hx & Hx'); [lia|].
    rewrite lookup_slice in Hx by lia.
    replace (from + (t - n + k - from))%nat with (t - n + k)%nat in Hx by lia.
    assert (x = c) as -> by congruence. destruct Hx' as [Hx'|]; [|lia].
    unfold is_alpha_ascii, is_upper_ascii, is_lower_ascii in Hx'. apply orb_true_iff in Hx'.
    destruct Hx'; bool_prop; lia.
Qed.

Definition trimming (from to opens : nat) (st : nat * nat) : Prop :=
  (from <= st.1 <= to)%nat
  /\ st.2 = count_unit 41 (slice s from st.1) /\ opens = count_unit 40 (slice s from st.1)
  /\ forall e c, (from < e <= to)%nat -> 38 ∉ slice s from e -> s !! (e - 1)%nat = Some c ->
       trimmable c = false -> (e <= st.1)%nat.

Lemma trim_step from to opens st st' :
  (to <= length s)%nat -> trimming from to opens st -> trim_body s from opens st = Some st' ->
  trimming from to opens st' /\ (st'.1 < st.1)%nat.
Proof.
  destruct st as [t close]. intros Hto (H1 & H2 & H3 & H4). unfold trim_body. cbn [fst snd] in *.
  destruct (from <? t)%nat eqn:Et; [|done]. bool_prop.
  destruct (entity_length (slice s from t)) as [n|] eqn:En.
  - intros [= <-]. apply entity_tail in En as (Hn & Hle & H38 & Hc); [|lia..]. cbn [fst].
    split; [|lia]. split; [cbn; lia|]. cbn [fst snd]. rewrite !Hc in * by auto. split; [done|]. split; [done|].
    intros e c He Hn38 Hs Htr. specialize (H4 e c He Hn38 Hs Htr).
    destruct (decide (t - n < e)%nat); [|lia]. exfalso. apply Hn38.
    apply list_elem_of_lookup. exists (t - n - from)%nat. apply slice_lookup; [lia|lia|done].
  - destruct (lookup_lt_is_Some_2 s (t - 1)) as [d Hd]; [lia|]. rewrite Hd. change (default 0 (Some d)) with d.
    pose proof (count_last 41 from t d ltac:(lia) Hd) as Hc1. pose proof (count_last 40 from t d ltac:(lia) Hd) as Hc0.
    assert (forall close', close' = count_unit 41 (slice s from (t - 1)) -> opens = count_unit 40 (slice s from (t - 1)) ->
      trimmable d = true -> Some ((t - 1)%nat, close') = Some st' -> trimming from to opens st' /\ (st'.1 < t)%nat) as Hgo.
    { intros close' Hcl Hop Htr [= <-]. cbn [fst]. split; [|lia]. split; [cbn; lia|]. split; [done|]. split; [done|].
      intros e c He Hn38 Hs Hc. specialize (H4 e c He Hn38 Hs Hc). cbn [fst] in *.
      destruct (decide (e = t)) as [->|]; [|lia]. congruence. }
    destruct ((d =? 41) && (opens <? close)%nat) eqn:Ep.
    + bool_prop. subst d. cbn in Hc1, Hc0. apply Hgo; [lia|lia|done].
    + destruct ((d =? 93) || TRAILING_PUNCTUATION d) eqn:Eq; [|done].
      assert (d <> 40 /\ d <> 41) as [? ?].
      { split; intros ->; done. }
      rewrite (proj2 (Z.eqb_neq 41 d)) in Hc1 by done. rewrite (proj2 (Z.eqb_neq 40 d)) in Hc0 by done.
      apply Hgo; [lia|lia|]. unfold trimmable. rewrite <- orb_assoc, Eq. apply orb_true_r.
Qed.

(** Where the trimming stops. *)
Definition trimmed_end (from t : nat) : Prop :=
  t = from \/ entity_length (slice s from t) = None /\
    exists c, s !! (t - 1)%nat = Some c /\ c <> 93 /\ TRAILING_PUNCTUATION c = false
      /\ (c = 41 -> (count_unit 41 (slice s from t) <= count_unit 40 (slice s from t))%nat).

Lemma trim_spec from to :
  (from <= to <= length s)%nat ->
  let t := trimGFMURLTail s from to in
  (from <= t <= to)%nat /\ trimmed_end from t
  /\ forall e c, (from < e <= to)%nat -> 38 ∉ slice s from e -> s !! (e - 1)%nat = Some c ->
       trimmable c = false -> (e <= t)%nat.
Proof.
  intros Hle. unfold trimGFMURLTail. set (opens := count_unit 40 (slice s from to)).
  destruct (while_m_inv_exit (trimming from to opens) (fun st => fst st) (trim_body s from opens)
    (to, count_unit 41 (slice s from to))) as [Hinv Hexit].
  - intros st st' HI E. eapply trim_step; [|done|done]. lia.
  - split; [cbn; lia|]. split; [done|]. split; [done|]. cbn. lia.
  - destruct (while_m _ _ _) as [t close]. destruct Hinv as (H1 & H2 & H3 & H4). cbn [fst snd] in *.
    split; [done|]. split; [|done]. unfold trimmed_end, trim_body in *.
    destruct (from <? t)%nat eqn:Et; bool_prop; [right|left; lia].
    destruct (entity_length (slice s from t)) eqn:En; [done|]. split; [done|].
    destruct (lookup_lt_is_Some_2 s (t - 1)) as [d Hd]; [lia|]. rewrite Hd in *. change (default 0 (Some d)) with d in Hexit.
    destruct ((d =? 41) && _) eqn:Ep; [done|]. destruct ((d =? 93) || _) eqn:Eq; [done|]. bool_prop.
    exists d. split; [done|]. split; [done|]. split; [done|]. intros ->. rewrite Z.eqb_refl in Ep. cbn [andb] in Ep. bool_prop. lia.
Qed.

(** ** The prefix and the domain *)

Definition url_prefixes : list jstring := [u "https://"; u "http://"; u "www."].

Lemma prefixEnd_spec from d :
  prefixEnd s from = Some d ->
  exists p, p ∈ url_prefixes /\ slice s from d = p /\ (d = from + length p)%nat /\ (d <= length s)%nat.
Proof.
  intros E.
  assert (exists p, p ∈ url_prefixes /\ starts_with_at s p from = true /\ d = (from + length p)%nat) as (p & Hp & Hs & ->).
  { unfold prefixEnd in E. unfold url_prefixes.
    destruct (starts_with_at s (u "https://") from) eqn:E1; [|destruct (starts_with_at s (u "http://") from) eqn:E2;
      [|destruct (starts_with_at s (u "www.") from) eqn:E3; [|done]]]; injection E as <-;
      (eexists; split; [|split; [eassumption|reflexivity]]); rewrite !elem_of_cons; tauto. }
  exists p. apply starts_with_at_slice in Hs as [H1 H2]. split; [done|]. split; [done|]. split; [done|].
  destruct H2 as [H2|]; [|done]. exfalso. revert Hp H2. unfold url_prefixes. rewrite !elem_of_cons.
  intros [->|[->|[->|H]]]; [done..|inversion H].
Qed.

(** The last label of a valid domain ends with a unit that is neither a dot nor an
    underscore, and there is a dot before it. *)
Lemma hasValidDomain_spec a b :
  (a <= b <= length s)%nat -> hasValidDomain s a b = true ->
  exists e c, (a + 2 <= e <= b)%nat /\ s !! (e - 1)%nat = Some c /\ c <> 46 /\ c <> 95 /\ 46 ∈ slice s a e.
Proof.
  intros Hab. unfold hasValidDomain.
  set (e := while_m _ _ _).
  assert (a <= e <= b)%nat as He.
  { apply (while_m_inv (fun t => a <= t <= b)%nat); [|lia]. intros t t' Ht. unfold strip_dots_body.
    destruct (a <? t)%nat eqn:Et; [|done]. cbn [andb]. case_bool_decide; [|done]. intros [= <-]. bool_prop. lia. }
  clearbody e. intros H. bool_prop.
  destruct (split_on 46 (slice s a e)) as [|l0 ls] eqn:Es using rev_ind; [by apply split_on_not_nil in Es|].
  clear IHls. pose proof (split_on_last 46 (slice s a e) ls l0 Es) as (pre & Hpre & Hdot).
  rewrite length_app in H. cbn [length] in H.
  assert (46 ∈ pre) as Hin by (apply Hdot; intros ->; cbn in H; lia).
  rewrite forallb_app in H2. cbn in H2. rewrite andb_true_r in H2. bool_prop. unfold js_eqb in H3. bool_prop.
  destruct l0 as [|c q _] using rev_ind; [done|].
  assert (46 ∉ q ++ [c]) as H46 by (apply (split_on_no_sep 46 (slice s a e)); rewrite Es; apply elem_of_app; right; by left).
  assert (95 ∉ q ++ [c]) as H95.
  { unfold at_last in H0. rewrite rev_app_distr in H0. cbn [rev app lookup list_lookup Nat.sub has_underscore] in H0.
    rewrite <- not_true_iff_false, includes_unit in H0. done. }
  rewrite not_elem_of_app, not_elem_of_cons in H46, H95.
  assert (length (slice s a e) = length pre + length q + 1)%nat as Hl.
  { rewrite Hpre, !length_app. cbn. lia. }
  rewrite length_slice in Hl.
  assert (1 <= length pre)%nat by (destruct pre; [inversion Hin|cbn; lia]).
  exists e, c. split; [lia|]. split.
  - assert (slice s a e !! (e - 1 - a)%nat = Some c) as Hc.
    { rewrite Hpre, app_assoc. rewrite lookup_app_r by (rewrite length_app; lia).
      rewrite length_app. by replace (e - 1 - a - (length pre + length q))%nat with 0%nat by lia. }
    rewrite lookup_slice in Hc by lia. by replace (a + (e - 1 - a))%nat with (e - 1)%nat in Hc by lia.
  - split; [naive_solver|]. split; [naive_solver|]. rewrite Hpre. apply elem_of_app. by left.
Qed.

(** ** The range of a URL *)

(** What a written URL is in the source. *)
Definition url_spelling (ub : nat) (r : MarkdownSourceRange) : Prop :=
  exists d e, (r_from r < d)%nat /\ slice s (r_from r) d ∈ url_prefixes
    /\ (d + 2 <= e)%nat /\ (e <= r_to r <= ub)%nat /\ 46 ∈ slice s d e
    /\ (forall k, (d <= k < e)%nat -> exists c, s !! k = Some c /\ domain_unit c)
    /\ (forall k c, (d <= k < r_to r)%nat -> s !! k = Some c -> c <> 60 /\ ~ 9 <= c <= 13 /\ c <> 32)
    /\ trimmed_end (r_from r) (r_to r).

Lemma written_range_spelling from ub r :
  whole s ub -> writtenGFMURLSourceRange s from ub = Some r -> r_from r = from /\ url_spelling ub r.
Proof.
  intros Hw. unfold writtenGFMURLSourceRange. destruct (prefixEnd s from) as [d|] eqn:Ep; [|done].
  destruct (ub <=? d)%nat eqn:Eu; [done|]. bool_prop.
  destruct (domain_end_spec d ub Hw ltac:(lia)) as [Hb Hdom].
  set (dt := domain_end s ub d) in *. clearbody dt.
  destruct (hasValidDomain s d dt) eqn:Ev; [|done]. cbn [negb]. intros [= <-]. cbn [r_from r_to].
  pose proof Hw as [Hub _].
  apply hasValidDomain_spec in Ev as (e & c & He & Hc & H46 & H95 & Hdot); [|lia].
  destruct (path_end_spec dt ub Hw ltac:(lia)) as [Hpb Hpath].
  set (pe := path_end s ub dt) in *. clearbody pe.
  apply prefixEnd_spec in Ep as (p & Hp & Hsl & -> & Hlen).
  assert (38 ∉ p /\ (4 <= length p)%nat) as [Hp38 Hp4].
  { clear -Hp. unfold url_prefixes in Hp. rewrite !elem_of_cons in Hp.
    destruct Hp as [->|[->|[->|H]]]; [| | |inversion H]; (split; [|cbn; lia]);
      apply (bool_decide_unpack _); vm_compute; exact I. }
  destruct (trim_spec from pe ltac:(lia)) as (Ht1 & Ht2 & Ht3).
  split; [done|]. exists (from + length p)%nat, e. cbn [r_from r_to].
  assert (e <= trimGFMURLTail s from pe)%nat as Hte.
  { apply (Ht3 e c); [lia| |done|].
    - rewrite (slice_app_split s from (from + length p)) by lia. rewrite Hsl, not_elem_of_app. split; [done|].
      intros Hin. apply list_elem_of_lookup in Hin as [k Hk].
      pose proof (lookup_lt_Some _ _ _ Hk) as Hkl. rewrite length_slice in Hkl. rewrite lookup_slice in Hk by lia.
      destruct (Hdom (from + length p + k)%nat) as (x & Hx & Hdu); [lia|]. assert (x = 38) as -> by congruence.
      unfold domain_unit in Hdu. cbn in Hdu. naive_solver lia.
    - destruct (Hdom (e - 1)%nat) as (x & Hx & Hdu); [lia|]. assert (x = c) as -> by congruence.
      unfold trimmable, TRAILING_PUNCTUATION. unfold domain_unit, is_alnum_ascii, is_digit, is_upper_ascii, is_lower_ascii in Hdu.
      apply not_true_iff_false. cbn [existsb]. rewrite !orb_true_iff, !andb_true_iff, !Z.eqb_eq, ?Z.leb_le in *.
      lia. }
  split; [lia|]. split; [by rewrite Hsl|]. split; [lia|]. split; [lia|]. split; [done|].
  split; [intros k Hk; apply Hdom; lia|]. split; [|done].
  intros k x Hk Hx. destruct (decide (k < dt)%nat).
  - destruct (Hdom k) as (y & Hy & Hdu); [lia|]. assert (y = x) as -> by congruence.
    unfold domain_unit, is_alnum_ascii, is_digit, is_upper_ascii, is_lower_ascii in Hdu.
    rewrite !orb_true_iff, !andb_true_iff, ?Z.leb_le in Hdu. lia.
  - apply (Hpath k); [lia|done].
Qed.
End UrlFacts.

(** ** All the URLs of a run *)

Section ScanFacts.
Context {host : MarkdownHost} {unicode : HostUnicode} {laws : HostUnicodeLaws}.
Context (s : jstring) (Hu : units s) (lower ub ctx : nat) (Hw : whole s ub) (bom : bool).
Context (opaques : list MarkdownSourceRange).
Context (Hsorted : StronglySorted (fun a b => r_from a <= r_from b)%nat opaques).

Definition inside (i : nat) (l : list MarkdownSourceRange) : Prop :=
  exists r, r ∈ l /\ (r_from r <= i < r_to r)%nat.

(** A URL that could be taken at offset [i]. *)
Definition url_here (i : nat) (r : MarkdownSourceRange) : Prop :=
  (lower <= i)%nat /\ writtenGFMURLSourceRangeAt s i ctx ub bom = Some r.

Definition url_scanned (st : url_scan) : Prop :=
  (ctx <= offset st)%nat
  /\ (exists dropped, opaques = dropped ++ opaque_rest st /\ forall r, r ∈ dropped -> (r_to r <= offset st)%nat)
  /\ spans range_ends ctx (url_ranges st) (offset st)
  /\ (forall r, r ∈ url_ranges st -> url_here (r_from r) r /\ ~ inside (r_from r) opaques)
  /\ (forall i r, (ctx <= i < offset st)%nat -> url_here i r -> inside i (url_ranges st) \/ inside i opaques).

Lemma url_here_spelling i r : url_here i r -> r_from r = i /\ url_spelling s ub r.
Proof.
  intros [_ H]. unfold writtenGFMURLSourceRangeAt in H. destruct (negb _); [done|].
  by apply (written_range_spelling s Hu).
Qed.

Lemma url_here_bounds i r : url_here i r -> r_from r = i /\ (i < r_to r <= ub)%nat.
Proof.
  intros H. apply url_here_spelling in H as [Hf (d & e & H1 & _ & H2 & H3 & _)]. split; [done|]. lia.
Qed.

Lemma skip_opaque_spec i l :
  exists dropped, l = dropped ++ skip_opaque i l /\ (forall r, r ∈ dropped -> (r_to r <= i)%nat)
    /\ match skip_opaque i l with r :: _ => (i < r_to r)%nat | [] => True end.
Proof.
  induction l as [|r l IH]; simpl.
  - exists []. split; [done|]. split; [intros r H; inversion H|done].
  - destruct (r_to r <=? i)%nat eqn:E; bool_prop.
    + destruct IH as (dr & Hl & Hdr & Hh). exists (r :: dr). split; [by rewrite Hl at 1|]. split; [|done].
      intros x [->|Hx]%elem_of_cons; auto.
    + exists []. split; [done|]. split; [intros x H; inversion H|done].
Qed.

(** No opaque range holds [i] when the first one that is left does not. *)
Lemma not_inside dropped rest i :
  opaques = dropped ++ rest -> (forall r, r ∈ dropped -> (r_to r <= i)%nat) ->
  match rest with r :: _ => (i < r_from r)%nat | [] => True end -> ~ inside i opaques.
Proof.
  intros Ho Hd Hr (r & Hin & Hi). rewrite Ho in Hin. apply elem_of_app in Hin as [Hin|Hin].
  - apply Hd in Hin. lia.
  - destruct rest as [|r0 rest]; [inversion Hin|].
    pose proof Hsorted as Hs. rewrite Ho in Hs. apply StronglySorted_app_1_r in Hs. inversion Hs as [|? ? _ Hall]; subst.
    apply elem_of_cons in Hin as [->|Hin]; [lia|]. rewrite Forall_forall in Hall. apply Hall in Hin. lia.
Qed.

Lemma inside_snoc i l r : inside i l \/ (r_from r <= i < r_to r)%nat -> inside i (l ++ [r]).
Proof.
  intros [(x & Hx & Hi)|Hi].
  - exists x. split; [apply elem_of_app; by left|done].
  - exists r. split; [apply elem_of_app; right; by left|done].
Qed.

Lemma url_step st st' :
  url_scanned st -> url_body s lower ub ctx bom st = Some st' ->
  url_scanned st' /\ (ub - offset st' < ub - offset st)%nat.
Proof.
  intros (H1 & (dropped & Ho & Hd) & H2 & H3 & H4). unfold url_body.
  destruct (offset st <? ub)%nat eqn:Eo; [|done]. bool_prop.
  destruct (skip_opaque_spec (offset st) (opaque_rest st)) as (dr & Hsk & Hdr & Hhead).
  set (rest := skip_opaque (offset st) (opaque_rest st)) in *. clearbody rest.
  assert (opaques = (dropped ++ dr) ++ rest) as Ho' by (rewrite <- app_assoc, <- Hsk; done).
  assert (forall r, r ∈ dropped ++ dr -> (r_to r <= offset st)%nat) as Hd' by (intros r [?|?]%elem_of_app; auto).
  (* the turn that leaves the opaque range it is in *)
  assert (forall op l, rest = op :: l -> (r_from op <= offset st < r_to op)%nat ->
    url_scanned {| offset := r_to op; opaque_rest := rest; url_ranges := url_ranges st |}) as Hjump.
  { intros op l Hrest Hop. split; [cbn; lia|]. split.
    { exists (dropped ++ dr). split; [done|]. intros r Hr. cbn. specialize (Hd' r Hr). lia. }
    split; [eapply spans_le; [done|cbn; lia]|]. split; [done|]. cbn. intros i r Hi Hr.
    destruct (decide (i < offset st)%nat); [eapply H4; [lia|done]|]. right. exists op. split; [|lia].
    rewrite Ho', Hrest. apply elem_of_app. right. by left. }
  (* the turn at an offset no opaque range holds *)
  assert (match rest with r :: _ => (offset st < r_from r)%nat | [] => True end ->
    forall st1,
      match (if (lower <=? offset st)%nat then writtenGFMURLSourceRangeAt s (offset st) ctx ub bom else None) with
      | Some range => {| offset := r_to range; opaque_rest := rest; url_ranges := url_ranges st ++ [range] |}
      | None => {| offset := (offset st + 1)%nat; opaque_rest := rest; url_ranges := url_ranges st |}
      end = st1 -> url_scanned st1 /\ (ub - offset st1 < ub - offset st)%nat) as Hplain.
  { intros Hno st1 <-. pose proof (not_inside _ _ _ Ho' Hd' Hno) as Hni.
    destruct (if (lower <=? offset st)%nat then _ else _) as [range|] eqn:Er.
    - assert (url_here (offset st) range) as Hh.
      { destruct (lower <=? offset st)%nat eqn:El; [|done]. bool_prop. by split. }
      pose proof (url_here_bounds _ _ Hh) as [Hf Hb]. split; [|cbn; lia].
      split; [cbn; lia|]. split.
      { exists (dropped ++ dr). split; [done|]. intros r Hr. cbn. specialize (Hd' r Hr). lia. }
      cbn [offset url_ranges]. split.
      { change (r_to range) with (range_ends range).2. eapply spans_snoc; [done|cbn; lia]. }
      split.
      + intros r [Hr|Hr]%elem_of_app; [auto|]. apply list_elem_of_singleton in Hr as ->. by rewrite Hf.
      + intros i r Hi Hr. destruct (decide (i < offset st)%nat).
        * destruct (H4 i r) as [H|H]; [lia|done| |by right]. left. apply inside_snoc. by left.
        * left. apply inside_snoc. right. lia.
    - split; [|cbn; lia]. split; [cbn; lia|]. split.
      { exists (dropped ++ dr). split; [done|]. intros r Hr. cbn. specialize (Hd' r Hr). lia. }
      cbn [offset url_ranges]. split; [eapply spans_le; [done|lia]|]. split; [done|].
      intros i r Hi Hr. destruct (decide (i < offset st)%nat); [eapply H4; [lia|done]|].
      assert (i = offset st) as -> by lia. destruct Hr as [Hr1 Hr2].
      rewrite (proj2 (Nat.leb_le _ _) Hr1) in Er. congruence. }
  destruct rest as [|op l]; [intros [= <-]; by apply Hplain|].
  destruct ((r_from op <=? offset st)%nat && (offset st <? r_to op)%nat) eqn:Eop; intros [= <-].
  - bool_prop. split; [by eapply Hjump; [|lia]|cbn; lia].
  - apply Hplain; [|done]. apply andb_false_iff in Eop. rewrite Nat.leb_gt, Nat.ltb_ge in Eop. lia.
Qed.

Lemma url_ranges_scanned :
  exists st, url_scanned st /\ (ub <= offset st)%nat
    /\ url_ranges st = findWrittenGFMURLRanges s lower ub ctx opaques bom.
Proof.
  unfold findWrittenGFMURLRanges.
  destruct (while_m_inv_exit url_scanned (fun st => ub - offset st)%nat (url_body s lower ub ctx bom)
    {| offset := ctx; opaque_rest := opaques; url_ranges := [] |}) as [Hinv Hexit].
  - intros st st' HI E. by apply url_step.
  - split; [done|]. split; [exists []; split; [done|]; intros r H; inversion H|]. split; [cbn; lia|].
    split; [intros r H; inversion H|]. cbn. intros i r Hi. lia.
  - eexists. split; [exact Hinv|]. split; [|done]. revert Hexit. unfold url_body.
    destruct (offset _ <? ub)%nat eqn:Eo; [|by bool_prop]. by repeat case_match.
Qed.
End ScanFacts.

(** ** Properties *)

(** The opaque ranges of a container are in the order of their beginnings. *)
Lemma opaque_ranges_sorted {host : MarkdownHost} {unicode : HostUnicode} source container links :
  StronglySorted (fun a b => r_from a <= r_from b)%nat (opaqueURLPrefixRanges source container links).
Proof. apply (sort_by_ends range_ends). Qed.

Section UrlProperties.
Context {host : MarkdownHost} {unicode : HostUnicode} {laws : HostUnicodeLaws}.

(** A written URL is what GFM calls an extended autolink: the range begins with one
    of the three prefixes and stays below the bound; a domain of at least two labels
    follows, written with letters, digits, dots, hyphens and underscores, and no
    trimming removes any of it; there is neither white space nor a [<] in the range; and
    it does not end with trailing punctuation, a closing bracket or a character
    reference, nor with a closing parenthesis unless its parentheses balance. *)
Theorem written_url_range (source : jstring) (start upperBound : nat) (r : MarkdownSourceRange)
    (Hs : units source) (Hw : whole source upperBound)
    (H : writtenGFMURLSourceRange source start upperBound = Some r) :
  r_from r = start /\ url_spelling source upperBound r.
Proof. by apply written_range_spelling. Qed.

(** C33. Scanning a container of the syntax tree finds its URLs completely: the ranges are
    in order, do not overlap and stay in the container; each is the URL written at its
    beginning, which no opaque node hides; and an offset where a URL is written lies in
    one of the ranges or in an opaque node. *)
Theorem written_urls_complete (source : jstring) (container : source_node) (links : list MarkdownSourceRange)
    (bom : bool) (Hs : units source) (Hw : whole source (to container)) (Hle : (from container <= to container)%nat) :
  let opaques := opaqueURLPrefixRanges source container links in
  let here i r := writtenGFMURLSourceRangeAt source i (from container) (to container) bom = Some r in
  let ranges := findWrittenGFMURLRanges source (from container) (to container) (from container) opaques bom in
  spans range_ends (from container) ranges (to container)
  /\ (forall r, r ∈ ranges -> here (r_from r) r /\ ~ inside (r_from r) opaques)
  /\ (forall i r, (from container <= i < to container)%nat -> here i r -> inside i ranges \/ inside i opaques).
Proof.
  intros opaques here ranges.
  destruct (url_ranges_scanned source Hs (from container) (to container) (from container) Hw bom opaques
    (opaque_ranges_sorted _ _ _)) as (st & (_ & _ & H2 & H3 & H4) & Hst & Hr).
  unfold ranges. rewrite <- Hr. split; [|split].
  - assert (forall r, r ∈ url_ranges st -> (r_to r <= to container)%nat) as Hb.
    { intros r Hin. apply H3 in Hin as [Hin _]. eapply url_here_bounds in Hin as [_ Hin]; [|done..]. lia. }
    clear -H2 Hb Hle. revert H2 Hb. generalize (from container) as lo, (url_ranges st) as l, Hle.
    intros lo l. revert lo. induction l as [|r l IH]; intros lo Hlo; [done|]. cbn. intros [H1 H2] Hb.
    split; [done|]. apply IH; [apply Hb; by left|done|]. intros x Hx. apply Hb. by right.
  - intros r Hin. apply H3 in Hin as [[_ Hh] Hn]. done.
  - intros i r Hi Hh. apply (H4 i r); [lia|]. split; [lia|done].
Qed.
End UrlProperties.

Definition url_sample : jstring := u "see https://a.io/x_(y)). `www.c.d` www.b.org!".
Definition url_paragraph : source_node :=
  SourceNode "Paragraph" 0 45 [SourceNode "InlineCode" 25 34 []].

Lemma url_sample_whole : whole url_sample 45.
Proof.
  split; [cbn; lia|]. intros c. vm_compute. by intros [= <-].
Qed.

Example written_url_range_witness :
  let r := {| r_from := 4; r_to := 22 |} in
  @writtenGFMURLSourceRange ascii_host url_sample 4 45 = Some r
  /\ url_spelling url_sample 45 r.
Proof.
  split; [vm_compute; reflexivity|].
  apply (written_url_range (unicode := ascii_host) (laws := ascii_host_laws) url_sample 4 45); [check_units|exact url_sample_whole|].
  vm_compute. reflexivity.
Defined.

Example written_urls_complete_witness :
  let ranges := @findWrittenGFMURLRanges ascii_host url_sample 0 45 0
    (@opaqueURLPrefixRanges amp_host url_sample url_paragraph []) true in
  ranges = [{| r_from := 4; r_to := 22 |}; {| r_from := 35; r_to := 44 |}]
  /\ spans range_ends 0 ranges 45.
Proof.
  assert (units url_sample) as Hs by check_units.
  split; [vm_compute; reflexivity|].
  destruct (written_urls_complete (host := amp_host) (unicode := ascii_host) (laws := ascii_host_laws)
    url_sample url_paragraph [] true Hs url_sample_whole ltac:(cbn; lia)) as [H _].
  exact H.
Defined.
