(* ===== verification/GFMEmail.v ===== *)
(** * GFM email autolinks

    web/src/utils/gfm-email.ts: email addresses in decoded Markdown text, and where in
    the syntax tree they are looked for.  The Lezer parser the file configures is the
    parameter [sourceParser]. *)

From S2P Require Import Prelude JSString JSRegExp MarkdownSource.

Record GFMEmailSourceRange := { e_from : nat; e_to : nat; e_value : jstring }.
Definition email_ends (r : GFMEmailSourceRange) : nat * nat := (e_from r, e_to r).

Record EmailProjection := { p_value : jstring; starts : list nat; ends : list nat }.

(** [[A-Za-z0-9_-]] and [[A-Za-z0-9._+-]]. *)
Definition domain_char (c : Z) : bool := is_word c || (c =? 45).
Definition isLocalChar (c : Z) : bool := is_alnum_ascii c || existsb (Z.eqb c) [46; 95; 43; 45].

Definition DOMAIN_AT_START : re :=
  (StartOf false +++ char 64 +++ plus (plus (Chars domain_char) +++ char 46) +++
   star (Chars domain_char) +++ Chars is_alnum_ascii)%re.

Section Emails.
Context {host : MarkdownHost}.

Definition project_add (source : jstring) (cursor next : nat) (text : jstring) (p : EmailProjection) : nat * EmailProjection :=
  (next, {| p_value := p_value p ++ text;
            starts := starts p ++ replicate (length text) cursor;
            ends := ends p ++ replicate (length text) next |}).

Definition project_body (source : jstring) (upperBound : nat) (st : nat * EmailProjection) : option (nat * EmailProjection) :=
  let '(cursor, p) := st in
  if (cursor <? upperBound)%nat then
    if escape_at source upperBound cursor then
      Some (project_add source cursor (cursor + 2) (slice source (cursor + 1) (cursor + 2)) p)
    else
      match decodedMarkdownCharacterReferenceAt source cursor upperBound with
      | Some (reference_to, value) => Some (project_add source cursor reference_to value p)
      | None =>
          let character := match code_point_at source cursor with Some c => from_code_point c | None => [] end in
          Some (project_add source cursor (cursor + length character) character p)
      end
  else None.

Definition projectEmailText (source : jstring) (lowerBound upperBound : nat) : EmailProjection :=
  snd (while_m (fun st => upperBound - fst st)%nat (project_body source upperBound)
    (lowerBound, {| p_value := []; starts := []; ends := [] |})).

Definition local_body (source : jstring) (lowerBound start : nat) : option nat :=
  if (lowerBound <? start)%nat && match source !! (start - 1)%nat with Some c => isLocalChar c | None => false end
  then Some (start - 1)%nat else None.
Definition local_start (source : jstring) (at_ lowerBound : nat) : nat :=
  while_m (fun i => i) (local_body source lowerBound) at_.

Definition matchEmailAt (source : jstring) (at_ lowerBound upperBound : nat) : option GFMEmailSourceRange :=
  let start := local_start source at_ lowerBound in
  if (start =? at_)%nat then None
  else
    match matched DOMAIN_AT_START (slice source at_ upperBound) with
    | None => None
    | Some domain =>
        let end_ := (at_ + length domain)%nat in
        if (end_ <? upperBound)%nat
           && match source !! end_ with Some c => (c =? 45) || (c =? 95) | None => false end
        then None
        else Some {| e_from := start; e_to := end_; e_value := slice source start end_ |}
    end.

Definition emails_body (p : EmailProjection) (st : nat * list GFMEmailSourceRange) : option (nat * list GFMEmailSourceRange) :=
  let '(cursor, matches) := st in
  if (cursor <? length (p_value p))%nat then
    match index_of (p_value p) [64] cursor with
    | None => None
    | Some at_ =>
        match matchEmailAt (p_value p) at_ cursor (length (p_value p)) with
        | None => Some ((at_ + 1)%nat, matches)
        | Some m => Some (e_to m, matches ++ [m])
        end
    end
  else None.

(** The matches in the decoded text, and back in the source. *)
Definition projected_matches (p : EmailProjection) : list GFMEmailSourceRange :=
  snd (while_m (fun st => length (p_value p) - fst st)%nat (emails_body p) (0%nat, [])).
Definition source_match (p : EmailProjection) (m : GFMEmailSourceRange) : GFMEmailSourceRange :=
  {| e_from := default 0%nat (starts p !! e_from m);
     e_to := default 0%nat (ends p !! (e_to m - 1)%nat);
     e_value := e_value m |}.

Definition findGFMEmailMatches (source : jstring) (lowerBound upperBound : nat) : list GFMEmailSourceRange :=
  let projection := projectEmailText source lowerBound upperBound in
  source_match projection <$> projected_matches projection.

(** [/^(?:https?:\/\/|www\.)/]. *)
Definition isGFMEmailURLSource (source : jstring) : bool :=
  includes source [64]
  && negb (starts_with source (u "http://") || starts_with source (u "https://") || starts_with source (u "www.")).

(** ** On the syntax tree *)

Definition TEXT_CONTAINERS : list string :=
  ["ATXHeading1"; "ATXHeading2"; "ATXHeading3"; "ATXHeading4"; "ATXHeading5"; "ATXHeading6"; "Emphasis";
   "Paragraph"; "SetextHeading1"; "SetextHeading2"; "Strikethrough"; "StrongEmphasis"; "TableCell"; "Task"]%string.
Definition STRUCTURAL_CONTAINERS : list string :=
  ["Blockquote"; "BulletList"; "Document"; "ListItem"; "OrderedList"; "Table"; "TableHeader"; "TableRow"]%string.

Definition REFERENCE_LABEL_PREFIX : jstring := u "x ".

Context (sourceParser : jstring -> source_node).   (* sourceParser.parse(s).topNode *)

Definition link_like (node : source_node) : bool := is_named "Link" node || is_named "Image" node.
Definition invalid_reference (source : jstring) (node : source_node) : bool :=
  is_named "LinkReference" node && negb (isValidMarkdownLinkReference source node).
Definition scans_text (source : jstring) (node : source_node) : bool :=
  bool_decide (name node ∈ TEXT_CONTAINERS) || link_like node || invalid_reference source node.

(** [staysInTextRun], of a child of a node whose text is scanned. *)
Definition stays_in_run (source : jstring) (child : source_node) : bool :=
  let spelling := slice source (from child) (to child) in
  is_named "Escape" child
  || (is_named "Entity" child && negb (js_eqb (decodeString spelling) spelling))
  || (is_named "URL" child && isGFMEmailURLSource spelling).

(** [collect], with the search of an unresolved label's text as an argument. *)
Section Collect.
Context (label_emails : source_node -> list GFMEmailSourceRange).
Context (source : jstring) (resolvedLinks : list MarkdownSourceRange) (allowUnresolvedLinks : bool).

Fixpoint collect_emails (node : source_node) : list GFMEmailSourceRange :=
  let 'SourceNode _ node_from node_to children := node in
  let resolvedLink := link_like node && hasExactMarkdownRange resolvedLinks node in
  if resolvedLink || (link_like node && negb allowUnresolvedLinks) then []
  else
    let scansDirectText := scans_text source node in
    if negb scansDirectText && negb (bool_decide (name node ∈ STRUCTURAL_CONTAINERS)) then []
    else
      (fix each (l : list source_node) (cursor : nat) : list GFMEmailSourceRange :=
         match l with
         | [] => if scansDirectText && (cursor <? node_to)%nat then findGFMEmailMatches source cursor node_to else []
         | child :: l' =>
             if scansDirectText && stays_in_run source child then each l' cursor
             else
               (if scansDirectText && (cursor <? from child)%nat
                then findGFMEmailMatches source cursor (from child) else [])
               ++ (if (link_like node || invalid_reference source node) && is_named "LinkLabel" child
                   then label_emails child else collect_emails child)
               ++ each l' (to child)
         end) children node_from.
End Collect.

(** What [collectUnresolvedReferenceLabel] keeps of the matches in the label's text. *)
Definition label_matches (contentFrom contentTo : nat) (found : list GFMEmailSourceRange) : list GFMEmailSourceRange :=
  found ≫= fun range =>
    let from_ := (Z.of_nat (e_from range) + Z.of_nat contentFrom - Z.of_nat (length REFERENCE_LABEL_PREFIX)) in
    let to_ := (Z.of_nat (e_to range) + Z.of_nat contentFrom - Z.of_nat (length REFERENCE_LABEL_PREFIX)) in
    if (Z.of_nat contentFrom <=? from_) && (to_ <=? Z.of_nat contentTo)
    then [{| e_from := Z.to_nat from_; e_to := Z.to_nat to_; e_value := e_value range |}] else [].

Definition prefixed_label (source : jstring) (label : source_node) : jstring :=
  REFERENCE_LABEL_PREFIX ++ slice source (from label + 1) (to label - 1).

(** [findMarkdownGFMEmailRanges]; one unit of fuel per label parsed inside a label. *)
Fixpoint find_emails (fuel : nat) (source : jstring) (root : source_node) (resolvedLinks : list MarkdownSourceRange)
    (allowUnresolvedLinks : bool) : list GFMEmailSourceRange :=
  match fuel with
  | O => []
  | S fuel' =>
      let label_emails label :=
        let contentFrom := (from label + 1)%nat in
        let contentTo := (to label - 1)%nat in
        if (contentTo <=? contentFrom)%nat then []
        else
          let prefixedSource := prefixed_label source label in
          let root := sourceParser prefixedSource in
          label_matches contentFrom contentTo
            (find_emails fuel' prefixedSource root (resolvedMarkdownLinkRanges prefixedSource root) true) in
      sort_by (ends_leb email_ends) (collect_emails label_emails source resolvedLinks allowUnresolvedLinks root)
  end.

Definition findMarkdownGFMEmailRanges (source : jstring) (root : source_node) (resolvedLinks : list MarkdownSourceRange)
    (allowUnresolvedLinks : bool) : list GFMEmailSourceRange :=
  find_emails (S (length source)) source root resolvedLinks allowUnresolvedLinks.
End Emails.

(** ** Addresses *)

(** [label.label....tail]: what follows the [@] of an address. *)
Definition email_domain (d : jstring) : Prop :=
  exists labels tail c,
    labels <> [] /\ d = (labels ≫= fun l => l ++ [46]) ++ tail ++ [c]
    /\ Forall (fun l => l <> [] /\ Forall (fun x => domain_char x = true) l) labels
    /\ Forall (fun x => domain_char x = true) tail /\ is_alnum_ascii c = true.

(** An address in decoded text: a local part that cannot be longer to the left unless
    it would pass [lower], an [@] and a domain that ends there. *)
Definition email_address (v : jstring) (lower : nat) (m : GFMEmailSourceRange) : Prop :=
  exists a,
    (lower <= e_from m < a)%nat /\ (a < e_to m <= length v)%nat /\ v !! a = Some 64
    /\ (forall k, (e_from m <= k < a)%nat -> exists c, v !! k = Some c /\ isLocalChar c = true)
    /\ (e_from m = lower \/ forall c, v !! (e_from m - 1)%nat = Some c -> isLocalChar c = false)
    /\ email_domain (slice v (a + 1) (e_to m))
    /\ (forall c, v !! e_to m = Some c -> c <> 45 /\ c <> 95)
    /\ e_value m = slice v (e_from m) (e_to m).

Lemma dotted_labels s g i caps st :
  matches false s (Star g (plus (Chars domain_char) +++ char 46)%re) (i, caps) st ->
  (st.1 <= length s)%nat ->
  exists labels, slice s i st.1 = (labels ≫= fun l => l ++ [46])
    /\ Forall (fun l => l <> [] /\ Forall (fun x => domain_char x = true) l) labels.
Proof.
  intros H. remember (Star g _) as r eqn:Er. remember (i, caps) as st0 eqn:E0.
  revert i caps E0. induction H as [| | | | |g' r st|g' r st st1 st2 H1 _ Hlt H2 IH| | | | |];
    intros i0 caps0 E0 Hle; try done; injection Er as -> ->; subst.
  - exists []. split; [|constructor]. unfold slice. by rewrite Nat.sub_diag.
  - destruct st1 as [j caps1]. destruct (IH eq_refl _ _ eq_refl Hle) as (labels & Hl & Hall).
    apply matches_seq in H1 as (st & Hlab & Hdot).
    apply matches_plus_chars in Hlab as (Hall1 & Hlt1 & _). destruct st as [k caps2]. cbn [fst] in *.
    apply matches_chars in Hdot as (c & Hc & ->%Z.eqb_eq & [= -> ->]).
    apply matches_advances in H2 as [H2 _]. cbn [fst] in H2.
    exists (slice s i0 k :: labels). split.
    + rewrite (slice_app_split s i0 (k + 1)) by lia. rewrite (slice_app_split s i0 k) by lia.
      rewrite (slice_one s k 46) by done. cbn. by rewrite Hl.
    + constructor; [|done]. apply slice_all_chars in Hall1 as [HF Hlen]. split; [|done].
      intros E. rewrite E in Hlen. cbn in Hlen. lia.
Qed.

Lemma domain_spelling s d :
  matched DOMAIN_AT_START s = Some d ->
  exists n, d = slice s 0 n /\ (n <= length s)%nat /\ (1 < n)%nat /\ s !! 0%nat = Some 64 /\ email_domain (slice s 1 n).
Proof.
  unfold matched. destruct (exec_from false DOMAIN_AT_START s 0) as [m|] eqn:E; [|done].
  intros [= <-]. apply exec_from_Some in E as (_ & _ & E).
  pose proof (matches_bound _ _ _ _ E) as Hb. cbn [fst] in Hb.
  unfold DOMAIN_AT_START in E. rewrite matches_seq in E.
  destruct E as (st0 & [-> H0]%matches_start & E). cbn [fst] in H0. rewrite H0 in *.
  specialize (Hb ltac:(lia)). rewrite matches_seq in E.
  destruct E as (st1 & (c & Hc & ->%Z.eqb_eq & ->)%matches_chars & E). rewrite matches_seq in E.
  destruct E as ([j caps] & Hlabels & E). rewrite matches_seq in E.
  destruct E as ([k caps2] & [Htail _]%matches_star_chars & E). cbn [fst snd] in *.
  apply matches_chars in E as (x & Hx & Halnum & E). injection E as Ek _. change (0 + 1)%nat with 1%nat in *.
  pose proof (proj1 Htail) as Hjk.
  unfold plus at 1 in Hlabels. rewrite matches_seq in Hlabels.
  destruct Hlabels as ([i caps1] & Hone & Hmore).
  pose proof (matches_advances _ _ _ _ _ Hone) as [Hi _]. pose proof (matches_advances _ _ _ _ _ Hmore) as [Hij _].
  cbn [fst] in *.
  destruct (dotted_labels s true 1 [] (j, caps)) as (labels & Hl & Hall); [|cbn; lia|].
  { eapply m_star_cons; [exact Hone| |exact Hmore]. cbn.
    apply matches_seq in Hone as ([q capsq] & (_ & Hlt & _)%matches_plus_chars & (y & _ & _ & [= -> _])%matches_chars). cbn [fst] in Hlt.
    lia. }
  cbn [fst] in Hl. exists (m_to m). split; [done|]. split; [done|].
  assert (1 < j)%nat as Hj1.
  { apply matches_seq in Hone as ([q capsq] & (_ & Hlt & _)%matches_plus_chars & (y & _ & _ & [= -> _])%matches_chars). cbn [fst] in Hlt. lia. }
  split; [lia|]. split; [done|]. exists labels, (slice s j k), x. split.
  - intros ->. cbn in Hl. pose proof (length_slice s 1 j) as Hlen. rewrite Hl in Hlen. cbn in Hlen. lia.
  - split.
    + rewrite (slice_app_split s 1 j) by lia. rewrite Hl. f_equal.
      rewrite (slice_app_split s j k) by lia. f_equal. rewrite Ek. by apply slice_one.
    + split; [done|]. split; [by apply all_chars_slice|done].
Qed.

Lemma local_start_spec v at_ lower :
  (lower <= at_)%nat ->
  let s := local_start v at_ lower in
  (lower <= s <= at_)%nat /\ (forall k, (s <= k < at_)%nat -> exists c, v !! k = Some c /\ isLocalChar c = true)
  /\ (s = lower \/ forall c, v !! (s - 1)%nat = Some c -> isLocalChar c = false).
Proof.
  intros Hle. unfold local_start.
  destruct (while_m_inv_exit (fun i => (lower <= i <= at_)%nat /\
      forall k, (i <= k < at_)%nat -> exists c, v !! k = Some c /\ isLocalChar c = true)
    (fun i => i) (local_body v lower) at_) as [[H1 H2] Hexit].
  - intros i i' [H1 H2]. unfold local_body. destruct (lower <? i)%nat eqn:El; [|done]. bool_prop.
    destruct (v !! (i - 1)%nat) as [c|] eqn:Ec; [|done]. cbn [andb]. destruct (isLocalChar c) eqn:Ei; [|done].
    intros [= <-]. split; [|lia]. split; [lia|]. intros k Hk.
    destruct (decide (k = (i - 1)%nat)) as [->|]; [eauto|]. apply H2. lia.
  - split; [lia|]. intros k Hk. lia.
  - set (s := while_m _ _ _) in *. clearbody s. split; [done|]. split; [done|].
    unfold local_body in Hexit. destruct (lower <? s)%nat eqn:El; bool_prop; [right|left; lia].
    intros c Hc. rewrite Hc in Hexit. cbn [andb] in Hexit. by destruct (isLocalChar c).
Qed.

Lemma matchEmailAt_spec v at_ lower m :
  (lower <= at_)%nat -> v !! at_ = Some 64 -> matchEmailAt v at_ lower (length v) = Some m ->
  email_address v lower m /\ (lower <= e_from m < at_)%nat /\ (at_ < e_to m)%nat.
Proof.
  intros Hle H64. unfold matchEmailAt.
  destruct (local_start_spec v at_ lower Hle) as (H1 & H2 & H3).
  set (s := local_start v at_ lower) in *. clearbody s.
  destruct (s =? at_)%nat eqn:Es; [done|]. bool_prop.
  destruct (matched DOMAIN_AT_START _) as [d|] eqn:Ed; [|done].
  apply domain_spelling in Ed as (n & -> & Hn & Hn1 & _ & Hdom). rewrite length_slice in Hn.
  rewrite slice_slice in Hdom by lia. rewrite slice_slice, Nat.add_0_r by lia. rewrite length_slice.
  replace (at_ + (Nat.min (at_ + n) (length v) - at_))%nat with (at_ + n)%nat by lia.
  destruct ((at_ + n <? length v)%nat && _) eqn:Eend; [done|]. intros [= <-]. cbn [e_from e_to].
  split; [|lia]. exists at_. cbn [e_from e_to e_value].
  split; [lia|]. split; [lia|]. split; [done|]. split; [done|]. split; [done|]. split; [done|]. split; [|done].
  intros c Hc. pose proof (lookup_lt_Some _ _ _ Hc) as Hlt.
  rewrite (proj2 (Nat.ltb_lt _ _) Hlt), Hc in Eend. cbn [andb] in Eend. by bool_prop.
Qed.

Section Projected.
Context (p : EmailProjection).

Definition within (i : nat) (ms : list GFMEmailSourceRange) : Prop :=
  exists m, m ∈ ms /\ (e_from m <= i < e_to m)%nat.

(** Where the scan for addresses may begin. *)
Definition scan_point (ms : list GFMEmailSourceRange) (c : nat) : Prop :=
  c = 0%nat \/ p_value p !! (c - 1)%nat = Some 64 \/ exists m, m ∈ ms /\ c = e_to m.

Definition emails_scanned (st : nat * list GFMEmailSourceRange) : Prop :=
  let '(cursor, ms) := st in
  scan_point ms cursor
  /\ spans email_ends 0 ms cursor
  /\ (forall m, m ∈ ms -> exists c, scan_point ms c /\ email_address (p_value p) c m)
  /\ (forall i, (i < cursor)%nat -> p_value p !! i = Some 64 ->
       within i ms \/ exists c, scan_point ms c /\ (c <= i)%nat /\ matchEmailAt (p_value p) i c (length (p_value p)) = None).

Lemma scan_point_snoc ms m c : scan_point ms c -> scan_point (ms ++ [m]) c.
Proof.
  intros [?|[?|(x & Hx & ?)]]; [by left|by right; left|]. right; right. exists x.
  split; [apply elem_of_app; by left|done].
Qed.

Lemma within_snoc ms m i : within i ms -> within i (ms ++ [m]).
Proof. intros (x & Hx & ?). exists x. split; [apply elem_of_app; by left|done]. Qed.

Lemma at_sign from at_ :
  index_of (p_value p) [64] from = Some at_ ->
  (from <= at_)%nat /\ p_value p !! at_ = Some 64 /\ forall k, (from <= k < at_)%nat -> p_value p !! k <> Some 64.
Proof.
  assert (forall k, starts_with_at (p_value p) [64] k = true <-> p_value p !! k = Some 64) as Hat.
  { intros k. unfold starts_with_at. rewrite <- (Nat.add_0_r k) at 2. rewrite <- lookup_drop.
    destruct (drop k (p_value p)) as [|x l]; [done|]. cbn [prefixb lookup list_lookup].
    destruct l; rewrite andb_true_r, Z.eqb_eq; (split; [intros <-; done|by intros [= ->]]). }
  intros (H1 & H2 & H3)%index_of_Some. split; [done|]. split; [by apply Hat|].
  intros k Hk Hc%Hat. rewrite H3 in Hc by done. done.
Qed.

Lemma emails_step st st' :
  emails_scanned st -> emails_body p st = Some st' ->
  emails_scanned st' /\ (length (p_value p) - st'.1 < length (p_value p) - st.1)%nat.
Proof.
  destruct st as [cursor ms]. intros (H1 & H2 & H3 & H4). unfold emails_body.
  destruct (cursor <? length (p_value p))%nat eqn:Ec; [|done]. bool_prop.
  destruct (index_of (p_value p) [64] cursor) as [at_|] eqn:Ea; [|done].
  apply at_sign in Ea as (Hca & H64 & Hno).
  assert (forall ms' i, (forall c, scan_point ms c -> scan_point ms' c) -> (forall i, within i ms -> within i ms') ->
    (i < at_)%nat -> p_value p !! i = Some 64 ->
    within i ms' \/ exists c, scan_point ms' c /\ (c <= i)%nat /\ matchEmailAt (p_value p) i c (length (p_value p)) = None)
    as Hold.
  { intros ms' i Hsc Hwi Hi Hi64. destruct (decide (i < cursor)%nat); [|exfalso; apply (Hno i); [lia|done]].
    destruct (H4 i) as [H|(c & Hc1 & Hc2)]; [lia|done|left; auto|right; eauto]. }
  destruct (matchEmailAt (p_value p) at_ cursor (length (p_value p))) as [m|] eqn:Em; intros [= <-]; cbn [fst].
  - apply matchEmailAt_spec in Em as (Hm & Hf & Ht); [|done|done].
    pose proof Hm as (a & _ & Hlen & _). split; [|lia]. cbn [emails_scanned].
    split; [right; right; exists m; split; [apply elem_of_app; right; by left|done]|].
    split; [change (e_to m) with (email_ends m).2; eapply spans_snoc; [done|cbn; lia]|].
    split.
    + intros x [Hx|Hx]%elem_of_app.
      * destruct (H3 x Hx) as (c & Hc & Hx'). exists c. split; [by apply scan_point_snoc|done].
      * apply list_elem_of_singleton in Hx as ->. exists cursor. split; [by apply scan_point_snoc|done].
    + intros i Hi Hi64. destruct (decide (i < at_)%nat).
      * apply Hold; [intros; by apply scan_point_snoc|intros; by apply within_snoc|done|done].
      * left. exists m. split; [apply elem_of_app; right; by left|lia].
  - split; [|lia]. cbn [emails_scanned]. split; [right; left; by replace (at_ + 1 - 1)%nat with at_ by lia|].
    split; [eapply spans_le; [done|lia]|]. split; [done|].
    intros i Hi Hi64. destruct (decide (i < at_)%nat); [by apply Hold|].
    assert (i = at_) as -> by lia. right. exists cursor. done.
Qed.

Lemma projected_matches_spec :
  let ms := projected_matches p in
  spans email_ends 0 ms (length (p_value p))
  /\ (forall m, m ∈ ms -> exists c, scan_point ms c /\ email_address (p_value p) c m)
  /\ (forall i, p_value p !! i = Some 64 ->
       within i ms \/ exists c, scan_point ms c /\ (c <= i)%nat /\ matchEmailAt (p_value p) i c (length (p_value p)) = None).
Proof.
  unfold projected_matches.
  destruct (while_m_inv_exit emails_scanned (fun st => length (p_value p) - fst st)%nat (emails_body p) (0%nat, []))
    as [Hinv Hexit].
  - intros st st' HI E. by apply emails_step.
  - split; [by left|]. split; [cbn; lia|]. split; [intros m H; inversion H|]. intros i Hi. lia.
  - destruct (while_m _ _ _) as [cursor ms]. cbn [snd]. destruct Hinv as (H1 & H2 & H3 & H4).
    assert (forall m, m ∈ ms -> (e_to m <= length (p_value p))%nat) as Hb.
    { intros m Hm. apply H3 in Hm as (c & _ & a & _ & Hm & _). lia. }
    split; [|split; [done|]].
    + clear -H2 Hb. assert (0 <= length (p_value p))%nat as Hlo by lia. revert H2 Hb Hlo.
      generalize 0%nat as lo. induction ms as [|m ms IH]; intros lo H2 Hb Hlo; [done|]. destruct H2 as [H1 H2].
      split; [done|]. apply IH; [done| |apply Hb; by left]. intros x Hx. apply Hb. by right.
    + intros i Hi. apply H4; [|done]. unfold emails_body in Hexit.
      pose proof (lookup_lt_Some _ _ _ Hi).
      destruct (cursor <? length (p_value p))%nat eqn:Ec; bool_prop; [|lia].
      destruct (index_of (p_value p) [64] cursor) as [at_|] eqn:Ea; [by case_match|].
      destruct (decide (i < cursor)%nat); [done|]. exfalso.
      pose proof (index_of_None _ _ _ i Ea ltac:(lia)) as Hno.
      unfold starts_with_at in Hno. rewrite <- (Nat.add_0_r i), <- lookup_drop in Hi.
      destruct (drop i (p_value p)) as [|x l]; [done|]. injection Hi as ->. by destruct l.
Qed.
End Projected.

(** ** The projection *)

Record token := { t_from : nat; t_to : nat; t_text : jstring }.

Section Projection.
Context {host : MarkdownHost} (s : jstring) (Hu : units s) (lower ub : nat).

(** What a piece of the source stands for in the decoded text. *)
Definition token_ok (t : token) : Prop :=
  (escape_at s ub (t_from t) = true /\ t_to t = (t_from t + 2)%nat /\ t_text t = slice s (t_from t + 1) (t_to t))
  \/ (escape_at s ub (t_from t) = false
      /\ decodedMarkdownCharacterReferenceAt s (t_from t) ub = Some (t_to t, t_text t))
  \/ (escape_at s ub (t_from t) = false /\ decodedMarkdownCharacterReferenceAt s (t_from t) ub = None
      /\ t_text t = slice s (t_from t) (t_to t) /\ (t_to t <= t_from t + 2)%nat).

(** The pieces follow each other from [lo] to [hi]. *)
Fixpoint tiled (lo : nat) (ts : list token) (hi : nat) : Prop :=
  match ts with
  | [] => lo = hi
  | t :: ts' => t_from t = lo /\ (lo < t_to t)%nat /\ tiled (t_to t) ts' hi
  end.

Definition projection_of (ts : list token) : EmailProjection := {|
  p_value := ts ≫= t_text;
  starts := ts ≫= (fun t => replicate (length (t_text t)) (t_from t));
  ends := ts ≫= (fun t => replicate (length (t_text t)) (t_to t));
|}.

Lemma tiled_snoc lo ts hi t : tiled lo ts hi -> t_from t = hi -> (hi < t_to t)%nat -> tiled lo (ts ++ [t]) (t_to t).
Proof. revert lo. induction ts as [|t' ts IH]; simpl; intros lo; [naive_solver|naive_solver]. Qed.

Lemma project_add_tokens cursor next text ts :
  project_add s cursor next text (projection_of ts)
  = (next, projection_of (ts ++ [{| t_from := cursor; t_to := next; t_text := text |}])).
Proof. unfold project_add, projection_of. cbn. rewrite !bind_app. cbn. by rewrite !app_nil_r. Qed.

Lemma projectEmailText_tokens :
  whole s ub -> (lower <= ub)%nat ->
  exists ts, projectEmailText s lower ub = projection_of ts /\ tiled lower ts ub /\ Forall token_ok ts.
Proof.
  intros Hw Hle. unfold projectEmailText.
  destruct (while_m_inv_exit (fun st => exists ts, st.2 = projection_of ts /\ tiled lower ts st.1
      /\ (st.1 <= ub)%nat /\ Forall token_ok ts)
    (fun st => ub - fst st)%nat (project_body s ub) (lower, {| p_value := []; starts := []; ends := [] |}))
    as [(ts & H1 & H2 & H3 & H4) Hexit].
  - intros [cursor p] st' (ts & Hp & Ht & Hub & Hall). cbn [fst snd] in *. subst p. unfold project_body.
    destruct (cursor <? ub)%nat eqn:Ec; [|done]. bool_prop.
    assert (forall next text, (cursor < next <= ub)%nat ->
      token_ok {| t_from := cursor; t_to := next; t_text := text |} ->
      Some (project_add s cursor next text (projection_of ts)) = Some st' ->
      (exists ts', st'.2 = projection_of ts' /\ tiled lower ts' st'.1 /\ (st'.1 <= ub)%nat /\ Forall token_ok ts')
      /\ (ub - st'.1 < ub - cursor)%nat) as Hgo.
    { intros next text Hnext Hok [= <-]. rewrite project_add_tokens. cbn [fst snd]. split; [|lia].
      eexists. split; [done|]. split; [|split; [lia|]].
      - apply (tiled_snoc lower ts cursor {| t_from := cursor; t_to := next; t_text := text |}); [done|done|cbn; lia].
      - apply Forall_app. split; [done|]. by constructor. }
    destruct (escape_at s ub cursor) eqn:Ee.
    { apply Hgo; [apply escape_at_spelled in Ee as (? & _); lia|]. left. done. }
    destruct (decodedMarkdownCharacterReferenceAt s cursor ub) as [[e v]|] eqn:Er.
    { apply Hgo; [apply reference_spelled in Er as (? & ? & _); lia|]. right; left. done. }
    destruct (code_point_at_is_Some s cursor) as [_ Hcp]. destruct Hcp as [c Hc]; [destruct Hw; lia|]. rewrite Hc.
    pose proof (whole_code_point s ub cursor c Hw Ec Hc). pose proof (code_point_size_pos c).
    pose proof (code_point_at_slice s cursor c Hu Hc) as [_ Hsl]. rewrite length_from_code_point.
    apply Hgo; [lia|]. right; right. split; [done|]. split; [done|]. cbn [t_from t_to t_text].
    split; [by rewrite Hsl|]. unfold code_point_size. case_match; lia.
  - exists []. cbn. split; [done|]. split; [done|]. split; [lia|constructor].
  - destruct (while_m _ _ _) as [cursor p]. cbn [fst snd] in *. exists ts. split; [done|]. split; [|done].
    assert (cursor = ub) as <-; [|done].
    unfold project_body in Hexit. destruct (cursor <? ub)%nat eqn:Ec; [by repeat case_match|]. bool_prop. lia.
Qed.

Lemma tiled_bounds lo ts hi : tiled lo ts hi -> (lo <= hi)%nat.
Proof. revert lo. induction ts as [|t ts IH]; simpl; intros lo; [lia|]. intros (<- & ? & ?%IH). lia. Qed.

(** The piece a unit of the decoded text comes from. *)
Lemma unit_token lo ts hi k :
  tiled lo ts hi -> (k < length (p_value (projection_of ts)))%nat ->
  exists a b, starts (projection_of ts) !! k = Some a /\ ends (projection_of ts) !! k = Some b
    /\ (lo <= a < b)%nat /\ (b <= hi)%nat
    /\ forall k' b', (k <= k')%nat -> ends (projection_of ts) !! k' = Some b' -> (b <= b')%nat.
Proof.
  revert lo k. induction ts as [|t ts IH]; intros lo k; cbn; [lia|]. intros (<- & Hlt & Ht). rewrite length_app. intros Hk.
  pose proof (tiled_bounds _ _ _ Ht).
  set (n := length (t_text t)) in *.
  assert (forall k' b', (n <= k')%nat ->
    (replicate n (t_to t) ++ (ts ≫= fun t0 => replicate (length (t_text t0)) (t_to t0))) !! k' = Some b' ->
    ends (projection_of ts) !! (k' - n)%nat = Some b') as Htail.
  { intros k' b' Hk' Hb. rewrite lookup_app_r in Hb by (rewrite length_replicate; lia).
    by rewrite length_replicate in Hb. }
  destruct (decide (k < n)%nat) as [Hkn|Hkn].
  - exists (t_from t), (t_to t). rewrite !lookup_app_l by (rewrite length_replicate; lia).
    rewrite !lookup_replicate_2 by done. split; [done|]. split; [done|]. split; [lia|]. split; [lia|].
    intros k' b' Hk' Hb. destruct (decide (k' < n)%nat) as [Hk'n|Hk'n].
    + rewrite lookup_app_l in Hb by (rewrite length_replicate; lia).
      apply lookup_replicate in Hb as [-> _]. lia.
    + apply Htail in Hb; [|lia].
      assert (k' - n < length (p_value (projection_of ts)))%nat as Hlt'.
      { apply lookup_lt_Some in Hb. revert Hb. clear. cbn. induction ts as [|t' ts IH]; cbn; [done|].
        rewrite !length_app, length_replicate. intros H.
        assert (length (ts ≫= (fun t => replicate (length (t_text t)) (t_to t))) = length (ts ≫= t_text)) as E.
        { clear. induction ts as [|t'' ts IH]; cbn; [done|]. by rewrite !length_app, length_replicate, IH. }
        rewrite E in H. done. }
      destruct (IH _ _ Ht Hlt') as (a & b & _ & Hb2 & Hab & _). assert (b = b') as <- by congruence. lia.
  - destruct (IH (t_to t) (k - n)%nat Ht) as (a & b & H1 & H2 & H3 & H4 & H5); [cbn; lia|].
    exists a, b. rewrite !lookup_app_r by (rewrite length_replicate; lia). rewrite !length_replicate.
    split; [done|]. split; [done|]. split; [lia|]. split; [done|].
    intros k' b' Hk' Hb. apply (H5 (k' - n)%nat); [lia|]. apply Htail; [lia|done].
Qed.

Lemma source_match_bounds ts m :
  tiled lower ts ub -> (e_from m < e_to m)%nat -> (e_to m <= length (p_value (projection_of ts)))%nat ->
  let r := source_match (projection_of ts) m in
  (lower <= e_from r < e_to r)%nat /\ (e_to r <= ub)%nat.
Proof.
  intros Ht Hlt Hle. unfold source_match. cbn [e_from e_to].
  destruct (unit_token lower ts ub (e_from m) Ht) as (a & b & -> & _ & Hab & _ & Hmono); [lia|].
  destruct (unit_token lower ts ub (e_to m - 1) Ht) as (a' & b' & _ & Hb' & Hab' & Hub & _); [lia|].
  specialize (Hmono (e_to m - 1)%nat b' ltac:(lia) Hb'). rewrite Hb'. cbn. lia.
Qed.
End Projection.

(** ** Labels inside labels *)

Section Fuel.
Context {host : MarkdownHost} (sourceParser : jstring -> source_node).

(** A label of a link is shorter than the source it is parsed from: the brackets of
    the link's text, or the destination of a definition, stand next to it. *)
Definition labels_shrink (source : jstring) (root : source_node) : Prop :=
  forall n label, n ∈ nodes root -> label ∈ childrenOf n -> name label = "LinkLabel"%string ->
    link_like n = true \/ name n = "LinkReference"%string -> (to label - from label < length source)%nat.

Definition parser_ok : Prop := forall source, labels_shrink source (sourceParser source).

Lemma collect_emails_ext f g source links allow root :
  (forall n label, n ∈ nodes root -> label ∈ childrenOf n -> name label = "LinkLabel"%string ->
     link_like n = true \/ name n = "LinkReference"%string -> f label = g label) ->
  collect_emails f source links allow root = collect_emails g source links allow root.
Proof.
  induction root as [nm a b cs IH] using source_node_nested_ind. intros Hfg. cbn [collect_emails].
  set (n := SourceNode nm a b cs) in *. destruct (_ || _); [done|]. destruct (_ && _); [done|].
  assert (forall child, child ∈ cs ->
    (if (link_like n || invalid_reference source n) && is_named "LinkLabel" child
     then f child else collect_emails f source links allow child)
    = (if (link_like n || invalid_reference source n) && is_named "LinkLabel" child
       then g child else collect_emails g source links allow child)) as Heq.
  { intros child Hin. destruct (_ && is_named _ _) eqn:E.
    - bool_prop. unfold is_named in *. bool_prop. apply (Hfg n child); [by left|done|done|].
      apply orb_true_iff in H as [H|H]; [by left|right]. unfold invalid_reference, is_named in H. by bool_prop.
    - rewrite Forall_forall in IH. apply IH; [done|]. intros n' label Hn' Hl Hnm Hk. apply (Hfg n'); [|done..].
      right. clear -Hin Hn'. induction cs as [|c cs IHcs]; [inversion Hin|].
      apply elem_of_app. apply elem_of_cons in Hin as [->|Hin]; [by left|right; auto]. }
  clear IH Hfg. generalize a as cursor. clearbody n. induction cs as [|child cs IHcs]; intros cursor; [done|].
  cbn beta iota. rewrite (Heq child) by left.
  rewrite !IHcs by (intros c Hc; apply Heq; by right). done.
Qed.

(** One call of [findMarkdownGFMEmailRanges], the calls it makes being [rec]. *)
Definition one_call (rec : jstring -> source_node -> list MarkdownSourceRange -> bool -> list GFMEmailSourceRange)
    (source : jstring) (root : source_node) (resolvedLinks : list MarkdownSourceRange) (allow : bool)
    : list GFMEmailSourceRange :=
  sort_by (ends_leb email_ends)
    (collect_emails (fun label =>
       let contentFrom := (from label + 1)%nat in
       let contentTo := (to label - 1)%nat in
       if (contentTo <=? contentFrom)%nat then []
       else
         let prefixedSource := prefixed_label source label in
         let root := sourceParser prefixedSource in
         label_matches contentFrom contentTo
           (rec prefixedSource root (resolvedMarkdownLinkRanges prefixedSource root) true))
      source resolvedLinks allow root).

Lemma find_emails_fuel n m source root links allow :
  parser_ok -> labels_shrink source root -> (length source < n)%nat -> (length source < m)%nat ->
  find_emails sourceParser n source root links allow = find_emails sourceParser m source root links allow.
Proof.
  intros Hp. revert m source root links allow. induction n as [|n IH]; intros m source root links allow Hs Hn Hm; [lia|].
  destruct m as [|m]; [lia|]. cbn [find_emails]. f_equal. apply collect_emails_ext.
  intros nd label Hnd Hl Hname Hk. pose proof (Hs nd label Hnd Hl Hname Hk) as Hlt.
  destruct (to label - 1 <=? from label + 1)%nat eqn:E; [done|]. bool_prop. f_equal.
  assert (length (prefixed_label source label) < length source)%nat.
  { unfold prefixed_label. rewrite length_app, length_slice. cbn. lia. }
  apply IH; [apply Hp|lia|lia].
Qed.
End Fuel.

(** ** Properties *)

Section EmailProperties.
Context {host : MarkdownHost}.

(** The emails of a text run are found in its decoded text, completely: the run is
    tiled by escapes, character references and plain characters, whose decoded values
    make the projected text; the matches there are in order and do not overlap, each is
    an address by GFM's grammar with the longest local part the scan allows, and each
    [@] outside the matches is refused; the reported ranges are the source of the
    matches and lie inside the run. *)
Theorem gfm_emails_complete (source : jstring) (lower upper : nat)
    (Hs : units source) (Hw : whole source upper) (Hle : (lower <= upper)%nat) :
  exists ts,
    tiled lower ts upper /\ Forall (token_ok source upper) ts /\
    let p := projection_of ts in
    let ms := projected_matches p in
    findGFMEmailMatches source lower upper = source_match p <$> ms
    /\ spans email_ends 0 ms (length (p_value p))
    /\ (forall m, m ∈ ms -> (exists c, scan_point p ms c /\ email_address (p_value p) c m)
          /\ (lower <= e_from (source_match p m) < e_to (source_match p m))%nat
          /\ (e_to (source_match p m) <= upper)%nat)
    /\ (forall i, p_value p !! i = Some 64 -> within i ms \/
          exists c, scan_point p ms c /\ (c <= i)%nat /\ matchEmailAt (p_value p) i c (length (p_value p)) = None).
Proof.
  destruct (projectEmailText_tokens source Hs lower upper Hw Hle) as (ts & Hp & Ht & Hall).
  exists ts. split; [done|]. split; [done|]. cbn zeta. unfold findGFMEmailMatches. rewrite Hp.
  destruct (projected_matches_spec (projection_of ts)) as (H1 & H2 & H3).
  split; [done|]. split; [done|]. split; [|done].
  intros m Hm. split; [by apply H2|].
  destruct (spans_In _ _ _ _ _ H1 Hm) as (_ & Hlt & Hb). by apply source_match_bounds.
Qed.

(** The search of a document terminates although it parses the labels of unresolved
    links again: when the parser's labels are shorter than the source they stand in, the
    fuel is never used up, and [findMarkdownGFMEmailRanges] is the function that calls
    itself on every such label. *)
Theorem markdown_emails_terminate (sourceParser : jstring -> source_node) (source : jstring) (root : source_node)
    (links : list MarkdownSourceRange) (allow : bool)
    (Hp : parser_ok sourceParser) (Hr : labels_shrink source root) :
  findMarkdownGFMEmailRanges sourceParser source root links allow
  = one_call sourceParser (findMarkdownGFMEmailRanges sourceParser) source root links allow.
Proof.
  unfold findMarkdownGFMEmailRanges at 1, one_call. cbn [find_emails]. f_equal. apply collect_emails_ext.
  intros n label Hn Hl Hname Hk. pose proof (Hr n label Hn Hl Hname Hk) as Hlt.
  destruct (to label - 1 <=? from label + 1)%nat eqn:E; [done|]. bool_prop. f_equal.
  unfold findMarkdownGFMEmailRanges. apply find_emails_fuel; [done|apply Hp| |lia].
  unfold prefixed_label. rewrite length_app, length_slice. cbn. lia.
Qed.
End EmailProperties.

(** The decoded text of [a\.b@c.d &amp;e@f.g] has two addresses. *)
Definition email_sample : jstring := u "a\.b@c.d &amp;e@f.g".

Example gfm_emails_complete_witness :
  @findGFMEmailMatches amp_host email_sample 0 19
    = [{| e_from := 0; e_to := 8; e_value := u "a.b@c.d" |}; {| e_from := 14; e_to := 19; e_value := u "e@f.g" |}]
  /\ exists ts, tiled 0 ts 19 /\ Forall (@token_ok amp_host email_sample 19) ts.
Proof.
  assert (units email_sample) as Hs by check_units.
  assert (whole email_sample 19) as Hw by (split; [cbn; lia|]; intros c; vm_compute; by intros [= <-]).
  split; [vm_compute; reflexivity|].
  destruct (gfm_emails_complete (host := amp_host) email_sample 0 19 Hs Hw ltac:(lia)) as (ts & H1 & H2 & _).
  exists ts. split; assumption.
Defined.

(** A parser that knows one paragraph. *)
Definition label_sample : jstring := u "[x][a@b.c]".
Definition label_parser (s : jstring) : source_node :=
  if js_eqb s label_sample then
    SourceNode "Document" 0 10
      [SourceNode "Paragraph" 0 10
         [SourceNode "Link" 0 10
            [SourceNode "LinkMark" 0 1 []; SourceNode "LinkMark" 2 3 []; SourceNode "LinkLabel" 3 10 []]]]
  else SourceNode "Document" 0 (length s) [SourceNode "Paragraph" 0 (length s) []].

Lemma label_parser_ok : parser_ok label_parser.
Proof.
  intros s n label. unfold label_parser. unfold js_eqb. case_bool_decide as E.
  - subst. cbn -[length]. rewrite !elem_of_cons. intros Hn Hl Hname _.
    repeat destruct Hn as [->|Hn]; try (by inversion Hn); cbn [childrenOf] in Hl; rewrite ?elem_of_cons in Hl;
      repeat destruct Hl as [->|Hl]; try (by inversion Hl); try done. cbn. lia.
  - cbn. rewrite !elem_of_cons. intros Hn Hl Hname _.
    repeat destruct Hn as [->|Hn]; try (by inversion Hn); cbn [childrenOf] in Hl; rewrite ?elem_of_cons in Hl;
      repeat destruct Hl as [->|Hl]; try (by inversion Hl); done.
Qed.

Example markdown_emails_terminate_witness :
  @findMarkdownGFMEmailRanges amp_host label_parser label_sample (label_parser label_sample) [] true
    = [{| e_from := 4; e_to := 9; e_value := u "a@b.c" |}]
  /\ @findMarkdownGFMEmailRanges amp_host label_parser label_sample (label_parser label_sample) [] true
    = @one_call amp_host label_parser (@findMarkdownGFMEmailRanges amp_host label_parser)
        label_sample (label_parser label_sample) [] true.
Proof.
  split; [vm_compute; reflexivity|].
  apply (markdown_emails_terminate (host := amp_host) label_parser label_sample (label_parser label_sample) [] true
    label_parser_ok (label_parser_ok label_sample)).
Defined.
