(* ===== verification/MarkdownEdit.v ===== *)
(** * Editing Markdown text (web/src/utils/markdown-manipulation.ts)

    Toggling the checkbox of a task, listing tasks, slugs of headings and the
    generator of unique slugs.  The Markdown parser (mdast) is third-party: its tree
    is an argument, reduced to the list items it visits. *)

From S2P Require Import Prelude JSString HostUnicode JSRegExp.

(** ** Tasks *)

(** A [listItem] node: its checkbox if it has one, and the line it starts on
    (1-based, absent without a position). *)
Record ListItem := { item_checked : option bool; start_line : option nat }.

Record TaskInfo := { lineNumber : nat; checked : bool }.

(** [typeof node.checked === "boolean" && node.position?.start.line]. *)
Definition task_of (node : ListItem) : option TaskInfo :=
  match item_checked node, start_line node with
  | Some c, Some (Datatypes.S line) => Some {| lineNumber := line; checked := c |}
  | _, _ => None
  end.

Definition extractTasksFromAst (items : list ListItem) : list TaskInfo := omap task_of items.

(** The pattern of a task line: marker, box, rest of the line. *)
Definition is_bullet (c : Z) : bool := (c =? 45) || (c =? 42) || (c =? 43).
Definition is_box (c : Z) : bool := (c =? 32) || (c =? 120) || (c =? 88).
Definition taskPattern : re :=
  (StartOf false +++ Group 1 (star space +++ Chars is_bullet +++ plus space) +++ char 91
   +++ Group 2 (Chars is_box) +++ char 93 +++ Group 3 (plus space +++ star dot) +++ EndOf false)%re.

Definition toggleTaskAtLine (markdown : jstring) (lineNumber : Z) (checked : bool) : jstring :=
  let lines := split_on 10 markdown in
  if (lineNumber <? 0) || (Z.of_nat (length lines) <=? lineNumber) then markdown
  else
    let n := Z.to_nat lineNumber in
    let line := default [] (lines !! n) in
    match exec_from false taskPattern line 0 with
    | None => markdown
    | Some m =>
        let prefix := default [] (capture line m 1) in
        let suffix := default [] (capture line m 3) in
        let newCheckmark := if checked then [120] else [32] in
        join [10] (<[n := prefix ++ [91] ++ newCheckmark ++ [93] ++ suffix]> lines)
    end.

Definition toggleTaskAtIndex (markdown : jstring) (items : list ListItem) (taskIndex : Z) (checked : bool) : jstring :=
  let tasks := extractTasksFromAst items in
  if (taskIndex <? 0) || (Z.of_nat (length tasks) <=? taskIndex) then markdown
  else match tasks !! Z.to_nat taskIndex with
       | Some task => toggleTaskAtLine markdown (Z.of_nat (lineNumber task)) checked
       | None => markdown
       end.

Definition getTaskLineNumber (items : list ListItem) (taskIndex : Z) : Z :=
  let tasks := extractTasksFromAst items in
  if (taskIndex <? 0) || (Z.of_nat (length tasks) <=? taskIndex) then -1
  else match tasks !! Z.to_nat taskIndex with
       | Some task => Z.of_nat (lineNumber task)
       | None => -1
       end.

Record TaskItem := {
  t_lineNumber : nat; t_taskIndex : nat; t_checked : bool; t_content : jstring; t_indentation : nat }.

Definition indentPattern : re := (StartOf false +++ Group 1 (star space))%re.
Definition contentPattern : re :=
  (StartOf false +++ star space +++ Chars is_bullet +++ plus space +++ char 91 +++ Chars is_box
   +++ char 93 +++ plus space +++ Group 1 (star dot))%re.

Definition first_group (r : re) (line : jstring) : option jstring :=
  match exec_from false r line 0 with Some m => capture line m 1 | None => None end.

(** [visit]: the tasks in order, numbered. *)
Definition extractTasks (markdown : jstring) (items : list ListItem) : list TaskItem :=
  let lines := split_on 10 markdown in
  imap (fun taskIndex t =>
    let line := default [] (lines !! lineNumber t) in
    {| t_lineNumber := lineNumber t; t_taskIndex := taskIndex; t_checked := checked t;
       t_content := default [] (first_group contentPattern line);
       t_indentation := length (default [] (first_group indentPattern line)) |})
    (extractTasksFromAst items).

(** ** Slugs *)

(** [replace(/[class]+/g, "-")]. *)
Fixpoint collapse (p : Z -> bool) (in_run : bool) (s : jstring) : jstring :=
  match s with
  | [] => []
  | c :: s' => if p c then (if in_run then [] else [45]) ++ collapse p true s'
               else c :: collapse p false s'
  end.

(** [replace(/^-|-$/g, "")]. *)
Definition drop_hyphen (s : jstring) : jstring := match s with 45 :: s' => s' | _ => s end.
Definition trim_hyphens (s : jstring) : jstring := rev (drop_hyphen (rev (drop_hyphen s))).

Section Slugs.
Context `{HostUnicode}.
(** [s.normalize("NFC")], and the property [\p{M}] of a code point. *)
Variable normalize_NFC : jstring -> jstring.
Variable is_mark : Z -> bool.

Definition hyphens_of (s : jstring) : jstring :=
  trim_hyphens (collapse (Z.eqb 45) false (collapse (fun c => is_space c || (c =? 95)) false s)).

Definition slugify (text : jstring) : jstring :=
  hyphens_of (js_filter (fun c => is_letter c || is_number c || is_mark c || is_space c || (c =? 95) || (c =? 45))
                (code_points (trim (to_lower (normalize_NFC text)))) ≫= from_code_point).

Definition legacySlugify (text : jstring) : jstring :=
  hyphens_of (js_filter (fun c => is_word c || is_space c || (c =? 45)) (trim (to_lower text))).

(** The loop of [findAnchorTarget] over the headings of a page, each with its text:
    the first whose old slug, numbered among its equals, is the fragment. *)
Fixpoint find_legacy_heading {E : Type} (slugCounts : gmap jstring nat) (fragment : jstring)
    (headings : list (jstring * E)) : option E :=
  match headings with
  | [] => None
  | (textContent, heading) :: headings' =>
      let baseSlug := legacySlugify textContent in
      if js_eqb baseSlug [] then find_legacy_heading slugCounts fragment headings'
      else
        let count := default 0%nat (slugCounts !! baseSlug) in
        let slug := if (count =? 0)%nat then baseSlug
                    else baseSlug ++ [45] ++ string_of_int (Z.of_nat count) in
        if js_eqb slug fragment then Some heading
        else find_legacy_heading (<[baseSlug := (count + 1)%nat]> slugCounts) fragment headings'
  end.

(** A part of the page: its elements by id, and its headings in order. *)
Record root (E : Type) := { by_id : jstring -> option E; headings : list (jstring * E) }.
Arguments by_id {E}. Arguments headings {E}.

Definition findAnchorTarget {E : Type} (r : root E) (fragment : jstring) : option E :=
  match fragment with
  | [] => None
  | _ => match by_id r fragment with
         | Some direct => Some direct
         | None => find_legacy_heading ∅ fragment (headings r)
         end
  end.

(** [contents] are the memos' content containers of the page with their names. *)
Definition findMemoContentRoot {E : Type} (contents : list (jstring * root E)) (memoName : jstring) : option (root E) :=
  snd <$> js_find (fun c => js_eqb c.1 memoName) contents.

Definition findMemoAnchorTarget {E : Type} (page : root E) (contents : list (jstring * root E))
    (memoName fragment : jstring) : option E :=
  match findMemoContentRoot contents memoName with
  | Some memoContent =>
      match findAnchorTarget memoContent fragment with
      | Some e => Some e
      | None => findAnchorTarget page fragment
      end
  | None => findAnchorTarget page fragment
  end.
End Slugs.

(** ** Unique slugs *)

(** The slug tried with a suffix. *)
Definition candidate (baseSlug : jstring) (suffix : nat) : jstring :=
  if (suffix =? 0)%nat then baseSlug else baseSlug ++ [45] ++ string_of_int (Z.of_nat suffix).

Definition slug_body (used : list jstring) (baseSlug : jstring) (st : jstring * nat) : option (jstring * nat) :=
  let '(slug, suffix) := st in
  if bool_decide (slug ∈ used)
  then Some (baseSlug ++ [45] ++ string_of_int (Z.of_nat (suffix + 1)), (suffix + 1)%nat)
  else None.

(** The used slugs that the suffixes tried so far do not account for. *)
Definition untried (used : list jstring) (baseSlug : jstring) (suffix : nat) : nat :=
  length (filter (fun x => x ∉ candidate baseSlug <$> seq 0 suffix) used).

(** One call of the generator: the slug, and the set with it. *)
Definition uniqueSlug (used : list jstring) (baseSlug : jstring) : jstring * list jstring :=
  let '(slug, _) :=
    while_m (fun st : jstring * nat => untried used baseSlug st.2) (slug_body used baseSlug) (baseSlug, 0%nat) in
  (slug, used ++ [slug]).

(** The calls of one generator, in order. *)
Fixpoint uniqueSlugs (used : list jstring) (bases : list jstring) : list jstring :=
  match bases with
  | [] => []
  | b :: bases' => let '(slug, used') := uniqueSlug used b in slug :: uniqueSlugs used' bases'
  end.

(** ** Lemmas: unique slugs *)

Lemma candidate_inj b i j : candidate b i = candidate b j -> i = j.
Proof.
  unfold candidate. destruct (i =? 0)%nat eqn:Ei, (j =? 0)%nat eqn:Ej; bool_prop; intros E.
  - lia.
  - exfalso. apply (f_equal length) in E. rewrite !length_app in E. simpl in E. lia.
  - exfalso. apply (f_equal length) in E. rewrite !length_app in E. simpl in E. lia.
  - do 2 apply app_inv_head in E. apply string_of_int_inj in E; lia.
Qed.

Definition slug_inv (b : jstring) (used : list jstring) (st : jstring * nat) : Prop :=
  st.1 = candidate b st.2 /\ forall k, (k < st.2)%nat -> candidate b k ∈ used.

Lemma slug_decreases used b :
  decreases_on (slug_inv b used) (fun st : jstring * nat => untried used b st.2) (slug_body used b).
Proof.
  intros [slug k] [slug' k'] [Hs Hk] E. cbn in *. case_bool_decide as Hin; [|done]. simplify_eq.
  split; [split|].
  - cbn. unfold candidate. by rewrite (proj2 (Nat.eqb_neq _ _)) by lia.
  - cbn. intros j Hj. destruct (decide (j = k)) as [->|]; [done|apply Hk; lia].
  - unfold untried. replace (k + 1)%nat with (Datatypes.S k) by lia. rewrite seq_S, fmap_app. simpl.
    apply list_elem_of_split in Hin as (l1 & l2 & ->). rewrite !filter_app, !length_app. cbn [app].
    rewrite (filter_cons_False _ _ l2).
    2: { intros Hn. apply Hn, elem_of_app. right. by apply list_elem_of_singleton. }
    rewrite (filter_cons_True _ _ l2).
    2: { intros (j & Ej & Hj)%list_elem_of_fmap. apply candidate_inj in Ej as ->.
         apply elem_of_seq in Hj. lia. }
    assert (forall l : list jstring, (length (filter (fun x => x ∉ (candidate b <$> seq 0 k) ++ [candidate b k]) l)
      <= length (filter (fun x => x ∉ candidate b <$> seq 0 k) l))%nat) as Hle.
    { induction l as [|x l IH]; [done|]. rewrite !filter_cons.
      destruct (decide (x ∉ (candidate b <$> seq 0 k) ++ [candidate b k])) as [Hx|Hx].
      - rewrite decide_True by (intros Hc; apply Hx, elem_of_app; by left). simpl. lia.
      - case_decide; simpl; lia. }
    pose proof (Hle l1). pose proof (Hle l2). simpl. lia.
Qed.

Lemma uniqueSlug_spec used b :
  let '(slug, used') := uniqueSlug used b in
  used' = used ++ [slug] /\ slug ∉ used
  /\ exists k, slug = candidate b k /\ forall j, (j < k)%nat -> candidate b j ∈ used.
Proof.
  unfold uniqueSlug.
  destruct (while_m_inv_exit (slug_inv b used) (fun st : jstring * nat => untried used b st.2)
    (slug_body used b) (b, 0%nat)) as [[H1 H2] H3].
  - apply slug_decreases.
  - split; [done|]. cbn. lia.
  - destruct (while_m _ _ _) as [slug k]. cbn in *. split; [done|].
    case_bool_decide as Hin; [done|]. split; [done|]. eauto.
Qed.

(** ** Lemmas: task lines *)

(** The parts of a task line. *)
Definition task_line (line pre : jstring) (box : Z) (suf : jstring) : Prop :=
  line = pre ++ [91; box; 93] ++ suf /\ is_box box = true
  /\ (exists ws b ws', pre = ws ++ [b] ++ ws' /\ Forall (fun c => is_space c = true) ws
        /\ is_bullet b = true /\ Forall (fun c => is_space c = true) ws' /\ ws' <> [])
  /\ (exists ws rest, suf = ws ++ rest /\ Forall (fun c => is_space c = true) ws /\ ws <> []
        /\ Forall (fun c => is_line_end c = false) rest).

Lemma prefix_no_bracket pre :
  (exists ws b ws', pre = ws ++ [b] ++ ws' /\ Forall (fun c => is_space c = true) ws
     /\ is_bullet b = true /\ Forall (fun c => is_space c = true) ws' /\ ws' <> []) -> 91 ∉ pre.
Proof.
  intros (ws & b & ws' & -> & H1 & H2 & H3 & _). rewrite !elem_of_app, list_elem_of_singleton.
  rewrite Forall_forall in H1, H3. intros [Hin|[<-|Hin]]; [by apply H1 in Hin|done|by apply H3 in Hin].
Qed.

Lemma split_first (a b c d : jstring) (x : Z) :
  x ∉ a -> x ∉ c -> a ++ x :: b = c ++ x :: d -> a = c /\ b = d.
Proof.
  revert c. induction a as [|y a IH]; intros [|z c] Ha Hc E; simpl in E; simplify_eq.
  - done.
  - set_solver.
  - set_solver.
  - destruct (IH c) as [-> ->]; [set_solver|set_solver|done|done].
Qed.

Lemma task_line_unique line pre box suf pre' box' suf' :
  task_line line pre box suf -> task_line line pre' box' suf' -> pre = pre' /\ box = box' /\ suf = suf'.
Proof.
  intros (E & _ & Hp & _) (E' & _ & Hp' & _). rewrite E in E'. cbn [app] in E'.
  apply split_first in E' as [-> E']; [by simplify_eq|by apply prefix_no_bracket..].
Qed.

Lemma slice_append s i j k : (i <= j <= k)%nat -> slice s i k = slice s i j ++ slice s j k.
Proof. intros H. by apply slice_app_split. Qed.

Lemma slice_to_end s i : slice s i (length s) = drop i s.
Proof. unfold slice. apply take_ge. rewrite length_drop. lia. Qed.

(** A match of the pattern is a decomposition of the line, with its captures. *)
Lemma taskPattern_sound line st :
  matches false line taskPattern (0%nat, []) st ->
  exists pre box suf g2, task_line line pre box suf
    /\ st = (length line, [(3%nat, ((length pre + 3)%nat, length line)); (2%nat, g2); (1%nat, (0%nat, length pre))]).
Proof.
  intros H. unfold taskPattern, star, char, space, dot in H.
  apply matches_seq in H as (s0 & [-> _]%matches_start & H).
  apply matches_seq in H as (s1 & (s1' & H1 & ->)%matches_group & H).
  apply matches_seq in H1 as ([i1 c1] & [A1 C1]%matches_star_chars & H1). cbn in A1, C1. subst c1.
  apply matches_seq in H1 as (s3 & (b & Hb & Hbb & ->)%matches_chars & H1).
  destruct s1' as [i2 c2]. apply matches_plus_chars in H1 as (A2 & L2 & C2). cbn in A2, L2, C2. subst c2.
  apply matches_seq in H as (s4 & (x & Hx & Hxx & ->)%matches_chars & H).
  apply matches_seq in H as (s5 & (s5' & H2 & ->)%matches_group & H).
  apply matches_chars in H2 as (box & Hbox & Hbx & ->).
  apply matches_seq in H as (s6 & (y & Hy & Hyy & ->)%matches_chars & H).
  apply matches_seq in H as (s7 & (s7' & H3 & ->)%matches_group & [-> He]%matches_end).
  apply matches_seq in H3 as ([i3 c3] & (A3 & L3 & C3)%matches_plus_chars & H3). cbn in A3, L3, C3. subst c3.
  destruct s7' as [i4 c4]. apply matches_star_chars in H3 as (A4 & C4). cbn in A4, C4, He. subst c4. bool_prop. subst x y.
  cbn [fst snd] in Hb, Hx, Hbox, Hy.
  destruct (all_chars_slice _ _ _ _ A1) as [F1 _]. destruct (all_chars_slice _ _ _ _ A2) as [F2 _].
  destruct (all_chars_slice _ _ _ _ A3) as [F3 B3]. destruct (all_chars_slice _ _ _ _ A4) as [F4 B4].
  assert (i4 = length line) as ->.
  { destruct (decide (i3 < i4)%nat); [specialize (B4 ltac:(lia)); lia|].
    specialize (B3 ltac:(lia)). destruct A4. lia. }
  set (pre := slice line 0 i1 ++ [b] ++ slice line (i1 + 1) i2).
  assert (slice line 0 i2 = pre) as Hpre.
  { unfold pre. rewrite (slice_append line 0 i1 i2) by lia. f_equal.
    rewrite (slice_append line i1 (i1 + 1) i2) by lia. by rewrite (slice_one _ _ _ Hb). }
  assert (length pre = i2) as Hlen.
  { rewrite <- Hpre, length_slice. apply lookup_lt_Some in Hx. lia. }
  exists pre, box, (slice line (i2 + 1 + 1 + 1) (length line)), ((i2 + 1)%nat, (i2 + 1 + 1)%nat).
  split; [|rewrite Hlen; by replace (i2 + 3)%nat with (i2 + 1 + 1 + 1)%nat by lia].
  split; [|split; [done|split]].
  - rewrite <- Hpre, <- (slice_full line) at 1.
    rewrite (slice_append line 0 i2 (length line)) by (apply lookup_lt_Some in Hx; lia). f_equal.
    rewrite (slice_append line i2 (i2 + 1) (length line)), (slice_one _ _ _ Hx) by (apply lookup_lt_Some in Hx; lia).
    rewrite (slice_append line (i2 + 1) (i2 + 1 + 1) (length line)), (slice_one _ _ _ Hbox)
      by (apply lookup_lt_Some in Hbox; lia).
    rewrite (slice_append line (i2 + 1 + 1) (i2 + 1 + 1 + 1) (length line)), (slice_one _ _ _ Hy)
      by (apply lookup_lt_Some in Hy; lia).
    done.
  - exists (slice line 0 i1), b, (slice line (i1 + 1) i2). split; [done|]. split; [done|]. split; [done|].
    split; [done|]. intros E. apply (f_equal length) in E. rewrite length_slice in E. simpl in E.
    apply lookup_lt_Some in Hx. lia.
  - exists (slice line (i2 + 1 + 1 + 1) i3), (slice line i3 (length line)).
    split; [apply slice_append; specialize (B3 ltac:(lia)); lia|]. split; [done|]. split.
    + intros E. apply (f_equal length) in E. rewrite length_slice in E. simpl in E.
      specialize (B3 ltac:(lia)). lia.
    + eapply Forall_impl; [exact F4|]. intros c Hc. cbn in Hc. by apply negb_true_iff in Hc.
Qed.

Lemma all_chars_of s p i j l :
  slice s i j = l -> Forall (fun c => p c = true) l -> (i + length l = j)%nat -> all_chars s p i j.
Proof.
  intros <- Hl Hj. split; [lia|]. intros k Hk. rewrite length_slice in Hj.
  destruct (lookup_lt_is_Some_2 s k) as [c Hc]; [lia|]. exists c. split; [done|].
  rewrite Forall_forall in Hl. apply Hl. apply (list_elem_of_lookup_2 _ (k - i)).
  rewrite lookup_slice by lia. by replace (i + (k - i))%nat with k by lia.
Qed.

Lemma taskPattern_complete line pre box suf :
  task_line line pre box suf -> exists st, matches false line taskPattern (0%nat, []) st.
Proof.
  intros (E & Hbox & (ws & b & ws' & Hpre & F1 & Hb & F2 & N2) & (ws3 & rest & Hsuf & F3 & N3 & F4)).
  set (n1 := length ws). set (n2 := (n1 + 1 + length ws')%nat). set (n3 := (n2 + 3 + length ws3)%nat).
  assert (line = ws ++ [b] ++ ws' ++ [91; box; 93] ++ ws3 ++ rest) as E'.
  { rewrite E, Hpre, Hsuf, <- !app_assoc. done. }
  assert (length line = n3 + length rest)%nat as Elen.
  { rewrite E', !length_app. cbn [length]. unfold n3, n2, n1. lia. }
  assert (forall a (m : jstring) z, line = a ++ m ++ z -> slice line (length a) (length a + length m) = m) as Hsl.
  { intros a m z ->. unfold slice. rewrite drop_app_length.
    replace (length a + length m - length a)%nat with (length m) by lia. apply take_app_length. }
  assert (forall a c z, line = a ++ c :: z -> line !! length a = Some c) as Hat.
  { intros a c z ->. rewrite lookup_app_r, Nat.sub_diag by lia. done. }
  assert (line !! n1 = Some b) as L1 by (eapply Hat; exact E').
  assert (line !! n2 = Some 91 /\ line !! (n2 + 1)%nat = Some box /\ line !! (n2 + 1 + 1)%nat = Some 93) as (L2 & L3 & L4).
  { assert (n2 = length (ws ++ [b] ++ ws')) as -> by (rewrite !length_app; cbn [length]; unfold n2, n1; lia).
    split; [|split].
    - eapply Hat. rewrite E', <- !app_assoc. done.
    - assert (length (ws ++ [b] ++ ws') + 1 = length (ws ++ [b] ++ ws' ++ [91%Z]))%nat as -> by (rewrite !length_app; simpl; lia).
      eapply Hat. rewrite E', <- !app_assoc. done.
    - assert (length (ws ++ [b] ++ ws') + 1 + 1 = length (ws ++ [b] ++ ws' ++ [91%Z; box]))%nat as -> by (rewrite !length_app; simpl; lia).
      eapply Hat. rewrite E', <- !app_assoc. done. }
  assert (all_chars line is_space 0 n1) as A1.
  { apply (all_chars_of _ _ _ _ ws); [|done|done]. eapply (Hsl [] ws). exact E'. }
  assert (all_chars line is_space (n1 + 1) n2) as A2.
  { apply (all_chars_of _ _ _ _ ws'); [|done|done].
    pose proof (Hsl (ws ++ [b]) ws') as H. rewrite length_app in H. eapply H. rewrite <- app_assoc. exact E'. }
  assert (all_chars line is_space (n2 + 1 + 1 + 1) n3) as A3.
  { apply (all_chars_of _ _ _ _ ws3); [|done|unfold n3; lia].
    pose proof (Hsl (ws ++ [b] ++ ws' ++ [91; box; 93]) ws3 rest) as H. rewrite !length_app in H.
    replace (length ws + (length [b] + (length ws' + length [91%Z; box; 93%Z])))%nat
      with (n2 + 1 + 1 + 1)%nat in H by (unfold n2, n1; simpl; lia).
    replace (n2 + 1 + 1 + 1 + length ws3)%nat with n3 in H by (unfold n3; lia).
    apply H. rewrite E', <- !app_assoc. done. }
  assert (all_chars line (fun c => negb (is_line_end c)) n3 (length line)) as A4.
  { apply (all_chars_of _ _ _ _ rest); [| |lia].
    - rewrite slice_to_end, E'. rewrite !app_assoc. apply drop_app_length'.
      rewrite !length_app. cbn [length]. unfold n3, n2, n1. lia.
    - eapply Forall_impl; [exact F4|]. intros c Hc. cbn. by rewrite Hc. }
  destruct ws' as [|w1 ws']; [done|]. destruct ws3 as [|w3 ws3]; [done|].
  eexists. unfold taskPattern, star, char, space, dot.
  apply matches_seq. eexists. split; [apply matches_start; split; [reflexivity|reflexivity]|].
  apply matches_seq. eexists. split.
  { apply matches_group. exists (n2, []). split; [|reflexivity].
    apply matches_seq. exists (n1, []). split; [by apply matches_star_chars|].
    apply matches_seq. exists ((n1 + 1)%nat, []). split; [apply matches_chars; eauto|].
    apply matches_plus_chars. split; [exact A2|]. split; [unfold n2; simpl; lia|done]. }
  apply matches_seq. eexists. split; [apply matches_chars; eexists; split; [exact L2|]; split; [done|reflexivity]|].
  apply matches_seq. eexists. split.
  { apply matches_group. eexists. split; [apply matches_chars; eexists; split; [exact L3|]; split; [done|reflexivity]|].
    reflexivity. }
  apply matches_seq. eexists. split; [apply matches_chars; eexists; split; [exact L4|]; split; [done|reflexivity]|].
  apply matches_seq. eexists. split.
  { apply matches_group. refine (ex_intro _ (length line, _) _). split; [|reflexivity].
    apply matches_seq. refine (ex_intro _ (n3, _) _). split.
    - apply matches_plus_chars. split; [exact A3|]. split; [unfold n3; simpl; lia|reflexivity].
    - apply matches_star_chars. split; [exact A4|reflexivity]. }
  apply matches_end. split; [reflexivity|]. cbn. lia.
Qed.

(** The pattern is anchored: it is tried at offset 0 only. *)
Lemma taskPattern_anchored line i st : matches false line taskPattern (i, []) st -> i = 0%nat.
Proof. intros H. apply matches_seq in H as (s0 & [_ H]%matches_start & _). exact H. Qed.

Lemma exec_taskPattern line :
  match exec_from false taskPattern line 0 with
  | Some m => exists pre box suf, task_line line pre box suf
      /\ capture line m 1 = Some pre /\ capture line m 3 = Some suf
  | None => forall pre box suf, ~ task_line line pre box suf
  end.
Proof.
  destruct (exec_from false taskPattern line 0) as [[i j caps]|] eqn:E.
  - apply exec_from_Some in E as (_ & _ & H). cbn in H. pose proof (taskPattern_anchored _ _ _ H) as ->.
    apply taskPattern_sound in H as (pre & box & suf & g2 & Ht & Est). simplify_eq.
    exists pre, box, suf. split; [done|]. destruct Ht as (El & _).
    unfold capture. cbn. split; f_equal.
    + rewrite El. unfold slice. rewrite drop_0, Nat.sub_0_r. apply take_app_length.
    + rewrite slice_to_end, El, app_assoc. apply drop_app_length'.
      rewrite length_app. simpl. lia.
  - pose proof (exec_from_first taskPattern line 0) as H. rewrite E in H.
    intros pre box suf Ht. apply taskPattern_complete in Ht as [st Hst].
    specialize (H 0%nat ltac:(lia)). rewrite match_at_None in H. by apply H in Hst.
Qed.

(** ** Lemmas: toggling *)

Definition box_of (checked : bool) : Z := if checked then 120 else 32.

(** The text with one line replaced. *)
Definition with_line (markdown : jstring) (n : nat) (line : jstring) : jstring :=
  join [10] (<[n := line]> (split_on 10 markdown)).

Lemma toggle_cases markdown ln c :
  (exists n pre box suf, ln = Z.of_nat n
     /\ split_on 10 markdown !! n = Some (pre ++ [91; box; 93] ++ suf)
     /\ task_line (pre ++ [91; box; 93] ++ suf) pre box suf
     /\ toggleTaskAtLine markdown ln c = with_line markdown n (pre ++ [91; box_of c; 93] ++ suf))
  \/ ((forall n line pre box suf, ln = Z.of_nat n -> split_on 10 markdown !! n = Some line ->
         ~ task_line line pre box suf)
      /\ toggleTaskAtLine markdown ln c = markdown).
Proof.
  unfold toggleTaskAtLine. destruct (_ || _) eqn:E.
  - right. split; [|done]. intros n line pre box suf -> Hn. apply lookup_lt_Some in Hn.
    apply orb_true_iff in E as [E|E]; bool_prop; lia.
  - bool_prop. destruct (lookup_lt_is_Some_2 (split_on 10 markdown) (Z.to_nat ln)) as [line Hl]; [lia|].
    rewrite Hl. change (default [] (Some line)) with line. pose proof (exec_taskPattern line) as Hx.
    destruct (exec_from false taskPattern line 0) as [m|].
    + left. destruct Hx as (pre & box & suf & Ht & H1 & H3). exists (Z.to_nat ln), pre, box, suf.
      rewrite H1, H3. pose proof Ht as (El & _). rewrite El in Hl, Ht.
      split; [lia|]. split; [done|]. split; [done|]. by destruct c.
    + right. split; [|done]. intros n l' pre box suf -> Hn. rewrite Nat2Z.id in Hl. simplify_eq. apply Hx.
Qed.

Lemma task_line_set pre box suf box' :
  task_line (pre ++ [91; box; 93] ++ suf) pre box suf -> is_box box' = true ->
  task_line (pre ++ [91; box'; 93] ++ suf) pre box' suf.
Proof. intros (_ & _ & H1 & H2) Hb. by repeat split. Qed.

Lemma split_with_line markdown n line :
  10 ∉ line -> split_on 10 (with_line markdown n line) = <[n := line]> (split_on 10 markdown).
Proof.
  intros Hl. unfold with_line. apply split_on_join.
  - intros E. apply (f_equal length) in E. rewrite length_insert in E.
    by apply nil_length_inv, split_on_not_nil in E.
  - apply Forall_insert; [|done]. apply Forall_forall. intros l Hin. by eapply split_on_no_sep.
Qed.

Lemma join_cons l l' ls : join [10] (l :: l' :: ls) = l ++ [10] ++ join [10] (l' :: ls).
Proof. done. Qed.

Lemma box_change_lines ls n pre box suf :
  ls !! n = Some (pre ++ [91; box; 93] ++ suf) ->
  exists before after, join [10] ls = before ++ box :: after
    /\ forall box', join [10] (<[n := pre ++ [91; box'; 93] ++ suf]> ls) = before ++ box' :: after.
Proof.
  revert n. induction ls as [|l ls IH]; intros n Hn; [done|].
  destruct n as [|n]; cbn in Hn.
  - injection Hn as ->. destruct ls as [|l' ls].
    + exists (pre ++ [91]), (93 :: suf). split; [|intros box']; cbn; by rewrite <- app_assoc.
    + exists (pre ++ [91]), (93 :: suf ++ [10] ++ join [10] (l' :: ls)).
      split; [by rewrite join_cons, <- !app_assoc|]. intros box'.
      transitivity (join [10] ((pre ++ [91; box'; 93] ++ suf) :: l' :: ls)); [done|].
      by rewrite join_cons, <- !app_assoc.
  - destruct (IH n Hn) as (before & after & E & Hb). destruct ls as [|l' ls]; [done|].
    exists (l ++ [10] ++ before), after. split.
    + by rewrite join_cons, E, <- !app_assoc.
    + intros box'. rewrite <- !app_assoc, <- Hb.
      change (<[Datatypes.S n := pre ++ [91; box'; 93] ++ suf]> (l :: l' :: ls))
        with (l :: <[n := pre ++ [91; box'; 93] ++ suf]> (l' :: ls)).
      destruct (<[n := pre ++ [91; box'; 93] ++ suf]> (l' :: ls)) as [|x xs] eqn:Ei; [by destruct n|done].
Qed.

Lemma box_change markdown n pre box suf :
  split_on 10 markdown !! n = Some (pre ++ [91; box; 93] ++ suf) ->
  exists before after, markdown = before ++ box :: after
    /\ forall box', with_line markdown n (pre ++ [91; box'; 93] ++ suf) = before ++ box' :: after.
Proof.
  intros Hn. destruct (box_change_lines _ n pre box suf Hn) as (before & after & E & Hb).
  rewrite join_split_on in E. by exists before, after.
Qed.

(** The result on a task line, by the uniqueness of its parts. *)
Lemma toggle_task markdown n pre box suf c :
  split_on 10 markdown !! n = Some (pre ++ [91; box; 93] ++ suf) ->
  task_line (pre ++ [91; box; 93] ++ suf) pre box suf ->
  toggleTaskAtLine markdown (Z.of_nat n) c = with_line markdown n (pre ++ [91; box_of c; 93] ++ suf).
Proof.
  intros Hn Ht. destruct (toggle_cases markdown (Z.of_nat n) c)
    as [(n' & pre' & box' & suf' & En & Hn' & Ht' & ->)|[Hno _]]; [|by edestruct Hno].
  apply Nat2Z.inj in En as <-. assert (pre ++ [91; box; 93] ++ suf = pre' ++ [91; box'; 93] ++ suf') as E by congruence.
  rewrite <- E in Ht'.
  by destruct (task_line_unique _ _ _ _ _ _ _ Ht Ht') as (-> & _ & ->).
Qed.

(** Toggling the task of a line changes one character: the box of that line, which
    becomes [x] or a space; when the line is not a task nothing changes. Toggling
    again overwrites the box, whatever it was: the last state asked for wins. *)
Theorem toggleTaskAtLine_sets_box (markdown : jstring) (ln : Z) (c c' : bool) :
  (toggleTaskAtLine markdown ln c = markdown
   \/ exists before box after, markdown = before ++ box :: after /\ is_box box = true
        /\ toggleTaskAtLine markdown ln c = before ++ box_of c :: after)
  /\ toggleTaskAtLine (toggleTaskAtLine markdown ln c) ln c' = toggleTaskAtLine markdown ln c'.
Proof.
  destruct (toggle_cases markdown ln c) as [(n & pre & box & suf & -> & Hn & Ht & Eq)|[_ E]];
    [|rewrite E; split; [by left|done]].
  rewrite Eq. pose proof Ht as (_ & Hbox & _). split.
  - right. destruct (box_change markdown n pre box suf Hn) as (before & after & E & Hb).
    exists before, box, after. by rewrite Hb.
  - pose proof (task_line_set pre box suf (box_of c) Ht ltac:(by destruct c)) as Ht'.
    assert (10 ∉ pre ++ [91; box_of c; 93] ++ suf) as Hnl.
    { apply list_elem_of_lookup_2, split_on_no_sep in Hn. destruct c; set_solver. }
    assert (split_on 10 (with_line markdown n (pre ++ [91; box_of c; 93] ++ suf)) !! n
            = Some (pre ++ [91; box_of c; 93] ++ suf)) as Hn'.
    { rewrite split_with_line by done. apply list_lookup_insert_eq. by eapply lookup_lt_Some. }
    rewrite (toggle_task _ _ _ _ _ c' Hn' Ht'), (toggle_task _ _ _ _ _ c' Hn Ht).
    unfold with_line at 1. rewrite split_with_line by done. by rewrite list_insert_insert_eq.
Qed.

(** Lines that end with a carriage return are listed as tasks but cannot be
    toggled: the pattern's dot does not match the carriage return, so on a text with
    CRLF line ends the toggle silently does nothing to a task that has text. *)
Theorem crlf_task_is_not_toggled :
  let markdown := u "- [ ] a" ++ [13; 10] ++ u "b" in
  let items := [{| item_checked := Some false; start_line := Some 1%nat |}] in
  t_content <$> extractTasks markdown items = [u "a"]
  /\ toggleTaskAtIndex markdown items 0 true = markdown
  /\ toggleTaskAtIndex (u "- [ ] a" ++ [10] ++ u "b") items 0 true = u "- [x] a" ++ [10] ++ u "b".
Proof. repeat split; vm_compute; reflexivity. Qed.

(** A generator never gives the same slug twice, nor a reserved one, whatever
    literal slugs look like suffixed ones; each slug is its base or the base with the
    least suffix that is free, so the search for a suffix always ends. *)
Theorem uniqueSlugs_distinct (reserved : list jstring) (bases : list jstring) :
  NoDup (uniqueSlugs reserved bases)
  /\ (forall s, s ∈ uniqueSlugs reserved bases -> s ∉ reserved)
  /\ forall i b, bases !! i = Some b -> exists s k,
       uniqueSlugs reserved bases !! i = Some s /\ s = candidate b k
       /\ forall j, (j < k)%nat -> candidate b j ∈ reserved ++ take i (uniqueSlugs reserved bases).
Proof.
  revert reserved. induction bases as [|b bases IH]; intros used; cbn [uniqueSlugs].
  - split; [constructor|]. split; [intros s Hs; inversion Hs|]. intros i b Hi. done.
  - pose proof (uniqueSlug_spec used b) as Hs. destruct (uniqueSlug used b) as [slug used'].
    destruct Hs as (-> & Hfresh & k & Hk & Hmin). destruct (IH (used ++ [slug])) as (IH1 & IH2 & IH3).
    split; [|split].
    + constructor; [|done]. intros Hin. apply IH2 in Hin. set_solver.
    + intros s [->|Hin]%elem_of_cons; [done|]. apply IH2 in Hin. set_solver.
    + intros [|i] b' Hi; cbn in Hi.
      * simplify_eq. exists (candidate b' k), k. split; [done|]. split; [done|].
        intros j Hj. cbn. rewrite app_nil_r. by apply Hmin.
      * destruct (IH3 i b' Hi) as (s & k' & H1 & H2 & H3). exists s, k'. split; [done|]. split; [done|].
        intros j Hj. cbn [take]. specialize (H3 j Hj). by rewrite <- app_assoc in H3.
Qed.
