(* ===== verification/TaskActions.v ===== *)
(** * Checking and unchecking all tasks (web/src/utils/markdown-task-actions.ts)

    The tasks of a memo are found in the parsed tree and located in the source by the
    line they start on; the edits of their boxes are applied to the source at once.
    The Markdown parser is a parameter. *)

From S2P Require Import Prelude JSString HostUnicode JSRegExp MarkdownEdit.

Record SourceRange := { r_start : nat; r_end : nat }.
Record SourceEdit := { e_range : SourceRange; replacement : jstring }.
Record ParsedTaskItem := { p_checked : bool; checkboxMarker : SourceRange }.
Record LineInfo := { line_text : jstring; startOffset : nat; endOffset : nat }.

(** The list items of the parsed source in the order of [visit]; a parser that throws
    gives nothing. *)
Class TaskParser := { list_items : jstring -> option (list ListItem) }.

Definition is_order_end (c : Z) : bool := (c =? 46) || (c =? 41).
Definition TASK_LINE_REGEXP : re :=
  (StartOf false +++ Group 1 (star space) +++ Group 2 (Chars is_bullet ||| (plus digit +++ Chars is_order_end))
   +++ Group 3 (plus space) +++ char 91 +++ Group 4 (Chars is_box) +++ char 93)%re.

Fixpoint starts_from (index : nat) (s : jstring) : list nat :=
  match s with
  | [] => []
  | c :: s' => if c =? 10 then (index + 1)%nat :: starts_from (index + 1) s' else starts_from (index + 1) s'
  end.
Definition getLineStarts (markdown : jstring) : list nat := 0%nat :: starts_from 0 markdown.

Definition getLineInfo (markdown : jstring) (lineStarts : list nat) (lineNumber : nat) : option LineInfo :=
  match lineStarts !! lineNumber with
  | None => None
  | Some start =>
      let stop := match lineStarts !! (lineNumber + 1)%nat with None => length markdown | Some next => (next - 1)%nat end in
      Some {| line_text := slice markdown start stop; startOffset := start; endOffset := stop |}
  end.

(** The task of a list item: it has a box, a position, and a line that spells one. *)
Definition task_item (markdown : jstring) (lineStarts : list nat) (node : ListItem) : option ParsedTaskItem :=
  match item_checked node, start_line node with
  | Some checked, Some (Datatypes.S startLine) =>
      match getLineInfo markdown lineStarts startLine with
      | None => None
      | Some info =>
          match exec_from false TASK_LINE_REGEXP (line_text info) 0 with
          | None => None
          | Some m =>
              let size n := length (default [] (capture (line_text info) m n)) in
              let markerStart := (startOffset info + size 1%nat + size 2%nat + size 3%nat + 1)%nat in
              Some {| p_checked := checked; checkboxMarker := {| r_start := markerStart; r_end := markerStart + 1 |} |}
          end
      end
  | _, _ => None
  end.

(** The check of the sorted edits: in bounds, in order, not overlapping. *)
Fixpoint edits_fit (markdown : jstring) (previousEnd : nat) (edits : list SourceEdit) : bool :=
  match edits with
  | [] => true
  | e :: edits' =>
      let r := e_range e in
      negb ((r_end r <? r_start r)%nat || (length markdown <? r_end r)%nat || (r_start r <? previousEnd)%nat)
      && edits_fit markdown (r_end r) edits'
  end.

Definition apply_edit (markdown : jstring) (e : SourceEdit) : jstring :=
  slice markdown 0 (r_start (e_range e)) ++ replacement e ++ slice_from markdown (r_end (e_range e)).

Definition applyMarkdownEdits (markdown : jstring) (edits : list SourceEdit) : jstring :=
  let sortedEdits := sort_by (fun a b => (r_start (e_range a) <=? r_start (e_range b))%nat) edits in
  if edits_fit markdown 0 sortedEdits then foldl apply_edit markdown (rev sortedEdits) else markdown.

Section Tasks.
Context {parser : TaskParser}.

Definition parseTaskItems (markdown : jstring) : list ParsedTaskItem :=
  match list_items markdown with
  | None => []
  | Some items => omap (task_item markdown (getLineStarts markdown)) items
  end.

Definition task_edit (checked : bool) (t : ParsedTaskItem) : SourceEdit :=
  {| e_range := checkboxMarker t; replacement := if checked then [120] else [32] |}.

Definition setAllTaskMarkers (markdown : jstring) (checked : bool) : jstring :=
  applyMarkdownEdits markdown
    (task_edit checked <$> js_filter (fun t => negb (Bool.eqb (p_checked t) checked)) (parseTaskItems markdown)).

Definition uncheckAllTasks (markdown : jstring) : jstring := setAllTaskMarkers markdown false.
Definition checkAllTasks (markdown : jstring) : jstring := setAllTaskMarkers markdown true.
End Tasks.

(** ** Where the boxes are *)

(** A box: a bracket, a blank or an x, a bracket. *)
Definition box_at (s : jstring) (i : nat) : Prop :=
  (1 <= i)%nat /\ s !! (i - 1)%nat = Some 91 /\ (exists c, s !! i = Some c /\ is_box c = true) /\ s !! (i + 1)%nat = Some 93.

(** The matched text is the three captures, the bracket, the box and the bracket. *)
Lemma task_line_captures line m :
  exec_from false TASK_LINE_REGEXP line 0 = Some m ->
  let size n := length (default [] (capture line m n)) in
  box_at line (size 1%nat + size 2%nat + size 3%nat + 1).
Proof.
  intros E. apply exec_from_Some in E as (_ & _ & E). unfold TASK_LINE_REGEXP, star, char, space in E.
  apply matches_seq in E as (s0 & [-> H0]%matches_start & E). cbn [fst] in H0. rewrite H0 in E.
  apply matches_seq in E as (s1 & ([i1 c1] & [A1 C1]%matches_star_chars & ->)%matches_group & E). cbn in A1, C1. subst c1.
  apply matches_seq in E as (s2 & (s2' & H2 & ->)%matches_group & E).
  assert ((i1 <= s2'.1)%nat /\ s2'.2 = [(1, (0, i1))]%nat) as [L2 C2].
  { apply matches_alt in H2 as [(b & _ & _ & ->)%matches_chars|([i c] & (A & _ & C)%matches_plus_chars & (x & _ & _ & ->)%matches_chars)%matches_seq].
    - cbn. split; [lia|done].
    - cbn in *. destruct A. split; [lia|done]. }
  destruct s2' as [i2 c2]. cbn [fst snd] in *. subst c2.
  apply matches_seq in E as (s3 & ([i3 c3] & (A3 & _ & C3)%matches_plus_chars & ->)%matches_group & E). cbn [fst snd] in *. subst c3.
  apply matches_seq in E as (s4 & (x & Hx & Ex%Z.eqb_eq & ->)%matches_chars & E). subst x.
  apply matches_seq in E as (s5 & (s5' & (b & Hb & Eb & ->)%matches_chars & ->)%matches_group & E). cbn [fst snd] in *.
  apply matches_chars in E as (y & Hy & Ey%Z.eqb_eq & Est). subst y. injection Est as _ Hcaps.
  cbv zeta. captures Hcaps. rewrite !length_slice.
  pose proof (lookup_lt_Some _ _ _ Hx). destruct A1, A3.
  replace (Nat.min i1 (length line) - 0 + (Nat.min i2 (length line) - i1) + (Nat.min i3 (length line) - i2) + 1)%nat with (i3 + 1)%nat by lia.
  split; [lia|]. replace (i3 + 1 - 1)%nat with i3 by lia. split; [exact Hx|]. split; [by exists b|exact Hy].
Qed.

Lemma task_item_box markdown node t :
  task_item markdown (getLineStarts markdown) node = Some t ->
  box_at markdown (r_start (checkboxMarker t)) /\ r_end (checkboxMarker t) = (r_start (checkboxMarker t) + 1)%nat.
Proof.
  unfold task_item. destruct (item_checked node) as [checked|]; [|done]. destruct (start_line node) as [[|n]|]; [done| |done].
  unfold getLineInfo. destruct (getLineStarts markdown !! n) as [start|]; [|done].
  set (stop := match getLineStarts markdown !! (n + 1)%nat with None => length markdown | Some next => (next - 1)%nat end).
  cbn [line_text startOffset]. destruct (exec_from _ _ _ _) as [m|] eqn:E; [|done]. intros [= <-]. cbn [checkboxMarker r_start r_end].
  split; [|done]. apply task_line_captures in E. cbv zeta in E.
  set (line := slice markdown start stop) in *.
  remember (length (default [] (capture line m 1)) + length (default [] (capture line m 2)) + length (default [] (capture line m 3)) + 1)%nat as k eqn:Ek.
  replace (start + length (default [] (capture line m 1)) + length (default [] (capture line m 2)) + length (default [] (capture line m 3)) + 1)%nat
    with (start + k)%nat by lia.
  destruct E as (H1 & H2 & (c & H3 & Hc) & H4).
  assert (forall i c, line !! i = Some c -> markdown !! (start + i)%nat = Some c) as Hline.
  { intros i d Hd. pose proof (lookup_lt_Some _ _ _ Hd) as Hlt. unfold line in *. rewrite length_slice in Hlt.
    by rewrite <- (lookup_slice markdown start stop i) by lia. }
  split; [lia|]. replace (start + k - 1)%nat with (start + (k - 1))%nat by lia. split; [by apply Hline|].
  split; [exists c; split; [by apply Hline|done]|]. rewrite <- Nat.add_assoc. by apply Hline.
Qed.

(** ** Applying the edits *)

Lemma elem_of_fmap_rev {A B} (f : A -> B) l x : x ∈ f <$> rev l <-> x ∈ f <$> l.
Proof. rewrite !list_elem_of_fmap. setoid_rewrite (list_elem_of_In (rev l)). setoid_rewrite <- in_rev. by setoid_rewrite <- list_elem_of_In. Qed.

(** An edit that replaces one unit by [c]. *)
Definition unit_edit (s : jstring) (c : Z) (e : SourceEdit) : Prop :=
  r_end (e_range e) = (r_start (e_range e) + 1)%nat /\ replacement e = [c] /\ (r_start (e_range e) < length s)%nat.
Definition edit_start (e : SourceEdit) : nat := r_start (e_range e).

Lemma apply_unit_edit s c e : unit_edit s c e -> apply_edit s e = <[edit_start e := c]> s.
Proof.
  intros (Hend & Hc & Hlt). unfold apply_edit, edit_start. rewrite Hend, Hc. unfold slice, slice_from.
  rewrite drop_0, Nat.sub_0_r. rewrite insert_take_drop by done. by rewrite Nat.add_1_r.
Qed.

Lemma apply_unit_edits s c edits :
  Forall (unit_edit s c) edits ->
  length (foldl apply_edit s edits) = length s
  /\ forall i, foldl apply_edit s edits !! i = if bool_decide (i ∈ edit_start <$> edits) then Some c else s !! i.
Proof.
  revert s. induction edits as [|e edits IH]; intros s H; [done|]. apply Forall_cons in H as [He H]. simpl.
  rewrite (apply_unit_edit s c) by done. destruct He as (_ & _ & Hlt). fold (edit_start e) in Hlt.
  destruct (IH (<[edit_start e := c]> s)) as [Hlen Hat].
  { eapply Forall_impl; [exact H|]. intros e' (H1 & H2 & H3). split; [done|]. split; [done|]. by rewrite length_insert. }
  split; [by rewrite Hlen, length_insert|]. intros i. rewrite Hat.
  destruct (decide (i ∈ edit_start <$> edits)) as [Hi|Hi].
  - rewrite !bool_decide_eq_true_2; [done|by right|done].
  - rewrite (bool_decide_eq_false_2 (i ∈ _ <$> edits)) by done. destruct (decide (i = edit_start e)) as [->|Hne].
    + rewrite bool_decide_eq_true_2 by (by left). by rewrite list_lookup_insert_eq.
    + rewrite bool_decide_eq_false_2 by (by intros [?|?]%elem_of_cons). by rewrite list_lookup_insert_ne.
Qed.

Lemma unit_edits_fit s c edits prev :
  StronglySorted (fun a b => (edit_start a <=? edit_start b)%nat = true) edits -> NoDup (edit_start <$> edits) ->
  Forall (unit_edit s c) edits -> Forall (fun e => (prev <= edit_start e)%nat) edits -> edits_fit s prev edits = true.
Proof.
  intros Hsorted. revert prev. induction Hsorted as [|e edits _ IH Hle]; intros prev Hnd Hunit Hprev; [done|].
  apply NoDup_cons in Hnd as [Hnot Hnd]. apply Forall_cons in Hunit as [(H1 & _ & H3) Hunit]. apply Forall_cons in Hprev as [Hp _].
  cbn [edits_fit]. unfold edit_start in Hp. rewrite H1, !(proj2 (Nat.ltb_ge _ _)) by lia. cbn [orb negb andb].
  apply IH; [done|done|]. apply Forall_forall. intros e' He'. rewrite Forall_forall in Hle. specialize (Hle e' He').
  apply Nat.leb_le in Hle. assert (edit_start e' <> edit_start e) by (intros Heq; apply Hnot; rewrite <- Heq; by apply list_elem_of_fmap_2).
  unfold edit_start in *. lia.
Qed.

Lemma apply_unit_edits_sorted s c edits :
  Forall (unit_edit s c) edits -> NoDup (edit_start <$> edits) ->
  length (applyMarkdownEdits s edits) = length s
  /\ forall i, applyMarkdownEdits s edits !! i = if bool_decide (i ∈ edit_start <$> edits) then Some c else s !! i.
Proof.
  intros Hunit Hnd. unfold applyMarkdownEdits. set (leb := fun a b => (r_start (e_range a) <=? r_start (e_range b))%nat).
  pose proof (sort_by_perm leb edits) as Hperm.
  assert (edits_fit s 0 (sort_by leb edits) = true) as ->.
  { apply (unit_edits_fit s c); [|by rewrite Hperm|by rewrite Hperm|apply Forall_forall; intros; lia].
    apply (sort_by_sorted leb); unfold leb; intros; rewrite ?Nat.leb_le, ?Nat.leb_gt in *; lia. }
  destruct (apply_unit_edits s c (rev (sort_by leb edits))) as [H1 H2].
  { apply Forall_rev. by rewrite Hperm. }
  split; [exact H1|]. intros i. rewrite H2. apply (f_equal (fun b : bool => if b then Some c else s !! i)). apply bool_decide_ext.
  rewrite elem_of_fmap_rev. by rewrite Hperm.
Qed.

Section AllTasks.
Context {parser : TaskParser}.

Definition task_start (t : ParsedTaskItem) : nat := r_start (checkboxMarker t).
Definition to_change (checked : bool) (tasks : list ParsedTaskItem) : list ParsedTaskItem :=
  js_filter (fun t => negb (Bool.eqb (p_checked t) checked)) tasks.

Lemma parsed_boxes markdown :
  Forall (fun t => box_at markdown (task_start t) /\ r_end (checkboxMarker t) = (task_start t + 1)%nat) (parseTaskItems markdown).
Proof.
  unfold parseTaskItems. destruct (list_items markdown) as [items|]; [|constructor]. apply Forall_forall.
  intros t (node & _ & Ht)%list_elem_of_omap. by eapply task_item_box.
Qed.

(** Checking or unchecking all tasks sets the boxes of the tasks and nothing else.
    Every task found has its box in the source; where no two share a box, the new text
    has the length of the old one, every task in the other state has its box set to the
    mark asked for, every other unit is as before, and the tasks still have their boxes. *)
Theorem all_tasks_set (markdown : jstring) (checked : bool) :
  let tasks := parseTaskItems markdown in
  NoDup (task_start <$> tasks) ->
  let result := setAllTaskMarkers markdown checked in
  let mark := if checked then 120 else 32 in
  length result = length markdown
  /\ (forall i, result !! i = if bool_decide (i ∈ task_start <$> to_change checked tasks) then Some mark else markdown !! i)
  /\ Forall (fun t => box_at markdown (task_start t) /\ box_at result (task_start t)) tasks.
Proof.
  intros tasks Hnd result mark. pose proof (parsed_boxes markdown) as Hboxes. fold tasks in Hboxes.
  set (edits := task_edit checked <$> to_change checked tasks).
  assert (edit_start <$> edits = task_start <$> to_change checked tasks) as Hstarts.
  { unfold edits. clear. induction (to_change checked tasks) as [|t l IH]; [done|]. cbn. f_equal. exact IH. }
  assert (Forall (unit_edit markdown mark) edits) as Hunit.
  { apply Forall_forall. intros e (t & -> & Ht)%list_elem_of_fmap. apply js_filter_In in Ht as [Ht _].
    rewrite Forall_forall in Hboxes. destruct (Hboxes t Ht) as [(_ & _ & (c & Hc & _) & _) Hend].
    split; [exact Hend|]. split; [by unfold mark; destruct checked|]. by apply lookup_lt_Some in Hc. }
  assert (NoDup (edit_start <$> edits)) as Hnd'.
  { rewrite Hstarts. eapply sublist_NoDup; [exact Hnd|]. apply fmap_sublist, js_filter_sublist. }
  destruct (apply_unit_edits_sorted markdown mark edits Hunit Hnd') as [Hlen Hat].
  change (applyMarkdownEdits markdown edits) with result in Hlen, Hat. rewrite Hstarts in Hat.
  split; [exact Hlen|]. split; [exact Hat|]. apply Forall_forall. intros t Ht. rewrite Forall_forall in Hboxes.
  destruct (Hboxes t Ht) as [Hbox _]. split; [exact Hbox|].
  assert (forall i c, markdown !! i = Some c -> is_box c = false -> result !! i = Some c) as Hkeep.
  { intros i c Hc Hnot. rewrite Hat, bool_decide_eq_false_2; [done|]. intros (t' & -> & Ht')%list_elem_of_fmap.
    apply js_filter_In in Ht' as [Ht' _]. destruct (Hboxes t' Ht') as [(_ & _ & (d & Hd & Hbd) & _) _]. congruence. }
  destruct Hbox as (H1 & H2 & (c & H3 & Hc) & H4). split; [done|]. split; [by apply Hkeep|]. split; [|by apply Hkeep].
  rewrite Hat. destruct (bool_decide _); [|by exists c]. exists mark. split; [done|]. by unfold mark; destruct checked.
Qed.
End AllTasks.

(** ** A concrete parser: the lines that start with a dash are items *)

#[local] Instance dash_items : TaskParser := {|
  list_items s := Some (imap (fun n l => {| item_checked := if starts_with l (u "- [x]") then Some true
                                                            else if starts_with l (u "- [ ]") then Some false else None;
                                            start_line := Some (n + 1)%nat |}) (split_on 10 s)) |}.
Definition two_tasks : jstring := u "- [ ] a [ ]" ++ [10] ++ u "text" ++ [10] ++ u "- [x] b".

Lemma all_tasks_set_witness :
  checkAllTasks two_tasks = u "- [x] a [ ]" ++ [10] ++ u "text" ++ [10] ++ u "- [x] b"
  /\ uncheckAllTasks two_tasks = u "- [ ] a [ ]" ++ [10] ++ u "text" ++ [10] ++ u "- [ ] b"
  /\ Forall (fun t => box_at two_tasks (task_start t) /\ box_at (checkAllTasks two_tasks) (task_start t)) (parseTaskItems two_tasks).
Proof.
  split; [vm_compute; reflexivity|]. split; [vm_compute; reflexivity|].
  apply (all_tasks_set two_tasks true). apply (bool_decide_unpack _). vm_compute. reflexivity.
Defined.

(** The edits are refused together when two of them overlap. *)
Example overlapping_edits :
  let edit i j := {| e_range := {| r_start := i; r_end := j |}; replacement := u "-" |} in
  applyMarkdownEdits (u "abcd") [edit 2%nat 3%nat; edit 0%nat 1%nat] = u "-b-d"
  /\ applyMarkdownEdits (u "abcd") [edit 1%nat 3%nat; edit 2%nat 4%nat] = u "abcd".
Proof. vm_compute. split; reflexivity. Qed.
