(* ===== verification/MarkdownPlugins.v ===== *)
(** * Headings and mixed lists

    web/src/utils/rehype-plugins/rehype-heading-id.ts gives headings their anchors and
    web/src/utils/remark-plugins/remark-split-mixed-task-lists.ts splits lists that mix
    tasks and other items.  The tree of hast is mutated in place: a node is known by its
    path.  The visitor of unist-util-visit is a parameter. *)

From S2P Require Import Prelude JSString HostUnicode MarkdownEdit.

(** ** Anchors of headings *)

Module HeadingId.

(** [properties.id], when it is a string; [other] stands for the other properties. *)
Inductive hast :=
  | HText (value : jstring)
  | HOther (other : Z)
  | HElement (tagName : jstring) (id : option jstring) (other : Z) (children : list hast).

Definition FALLBACK_HEADING_SLUG : jstring := u "heading".
(** [/^h[1-6]$/]. *)
Definition is_heading_tag (tagName : jstring) : bool := match tagName with [c; d] => (c =? 104) && (49 <=? d) && (d <=? 54) | _ => false end.
Definition isHeadingElement (node : hast) : bool := match node with HElement tagName _ _ _ => is_heading_tag tagName | _ => false end.
Fixpoint getHeadingText (node : hast) : jstring :=
  match node with
  | HElement _ _ _ children =>
      concat (map (fun child => match child with HText value => value | HElement _ _ _ _ => getHeadingText child | HOther _ => [] end) children)
  | _ => []
  end.

(** *** The tree as a store *)

Definition path := list nat.
Fixpoint node_at (p : path) (l : list hast) : option hast :=
  match p with
  | [] => None
  | [i] => l !! i
  | i :: p' => match l !! i with Some (HElement _ _ _ children) => node_at p' children | _ => None end
  end.
Definition set_id (slug : jstring) (node : hast) : hast :=
  match node with HElement tagName _ other children => HElement tagName (Some slug) other children | _ => node end.
Fixpoint on_node (f : hast -> hast) (p : path) (l : list hast) : list hast :=
  match p with
  | [] => l
  | [i] => alter f i l
  | i :: p' => alter (fun node => match node with HElement t id o children => HElement t id o (on_node f p' children) | _ => node end) i l
  end.

Section Plugin.
Context `{HostUnicode} (normalize_NFC : jstring -> jstring) (is_mark : Z -> bool).
(** The elements in the order [visit] calls the visitor on them. *)
Context (visit : list hast -> list path).

Definition existing_id (node : hast) : jstring := match node with HElement _ (Some id) _ _ => id | _ => [] end.
Definition existing_ids (tree : list hast) : list jstring :=
  js_filter (fun id => negb (js_eqb id []))
    (map existing_id (js_filter isHeadingElement (visit tree ≫= (fun p => option_list (node_at p tree))))).

(** The tree, the slugs used and the ids claimed, at one visited element. *)
Record id_state := { id_tree : list hast; usedSlugs : list jstring; claimedExistingIds : list jstring }.
Definition first_of (s : jstring) (rest : jstring) : jstring := match s with [] => rest | _ => s end.
Definition give_id (st : id_state) (p : path) : id_state :=
  match node_at p (id_tree st) with
  | Some node =>
      if isHeadingElement node then
        let id := existing_id node in
        if negb (js_eqb id []) && negb (bool_decide (id ∈ claimedExistingIds st)) then
          {| id_tree := on_node (set_id id) p (id_tree st); usedSlugs := usedSlugs st; claimedExistingIds := claimedExistingIds st ++ [id] |}
        else
          let '(slug, used) := uniqueSlug (usedSlugs st)
            (first_of id (first_of (slugify normalize_NFC is_mark (getHeadingText node)) FALLBACK_HEADING_SLUG)) in
          {| id_tree := on_node (set_id slug) p (id_tree st); usedSlugs := used; claimedExistingIds := claimedExistingIds st |}
      else st
  | None => st
  end.
(** Both visits; the second sees a tree of the same shape. *)
Definition rehypeHeadingId (tree : list hast) : list hast :=
  id_tree (foldl give_id {| id_tree := tree; usedSlugs := existing_ids tree; claimedExistingIds := [] |} (visit tree)).
End Plugin.

(** *** Lemmas: nodes by their paths *)

(** What of a node the plugin decides by: whether it is a heading, and its id. *)
Definition head_of (node : hast) : bool * jstring := (isHeadingElement node, existing_id node).
Definition heads (tree : list hast) (p : path) : option (bool * jstring) := head_of <$> node_at p tree.



Section Unique.
Context `{HostUnicode} (normalize_NFC : jstring -> jstring) (is_mark : Z -> bool) (visit : list hast -> list path).







(** *** What an id is made of *)





End Unique.

(** *** A page *)

(** Preorder, children in order. *)
Fixpoint preorder (fuel : nat) (base : path) (l : list hast) : list path :=
  match fuel with
  | O => []
  | S fuel' => concat (imap (fun i node => match node with HElement _ _ _ children => (base ++ [i]) :: preorder fuel' (base ++ [i]) children | _ => [] end) l)
  end.
Definition title (s : jstring) (id : option jstring) : hast := HElement (u "h2") id 0 [HText s].
Definition sample_tree : list hast :=
  [title (u "Intro") None; HElement (u "div") None 0 [title (u "Intro") None; title (u "x") (Some (u "intro-1"))]; title (u "!") None].
Definition sample_host : HostUnicode := ascii_host.
Definition sample_result : list hast := @rehypeHeadingId sample_host (fun s => s) (fun _ => false) (preorder 3 []) sample_tree.

Example sample_anchors :
  map (fun p => snd <$> heads sample_result p) (preorder 3 [] sample_tree)
  = [Some (u "intro"); Some []; Some (u "intro-2"); Some (u "intro-1"); Some (u "heading")].
Proof. vm_compute. reflexivity. Qed.
End HeadingId.

(** ** Lists of tasks *)

Module TaskLists.

(** The nodes of mdast the plugin tells apart; [other] stands for the fields it copies. *)
Inductive mdast :=
  | MLeaf (other : Z)
  | MList (spread : bool) (other : Z) (children : list mdast)
  | MItem (checked : option bool) (spread : option bool) (other : Z) (children : list mdast)
  | MParent (other : Z) (children : list mdast).

Definition isTaskItem (item : mdast) : bool := match item with MItem (Some _) _ _ _ => true | _ => false end.
Definition children_of (n : mdast) : list mdast := match n with MLeaf _ => [] | MList _ _ l | MItem _ _ _ l | MParent _ l => l end.
Definition isSingleBlockItem (item : mdast) : bool := (length (children_of item) <=? 1)%nat.
Definition is_spread (item : mdast) : bool := match item with MItem _ (Some b) _ _ => b | MList b _ _ => b | _ => false end.
Definition hasLooseBlockItem (item : mdast) : bool := negb (isSingleBlockItem item) && is_spread item.
Definition tightened (item : mdast) : mdast := match item with MItem checked _ o l => MItem checked (Some false) o l | _ => item end.
Definition normalizeSplitListItems (items : list mdast) : list mdast := map (fun item => if isSingleBlockItem item then tightened item else item) items.

(** One turn of the loop that groups the items, the last group first. *)
Definition group_item (groups : list (bool * list mdast)) (item : mdast) : list (bool * list mdast) :=
  match groups with
  | (isTaskGroup, items) :: before => if Bool.eqb isTaskGroup (isTaskItem item) then (isTaskGroup, items ++ [item]) :: before else (isTaskItem item, [item]) :: groups
  | [] => [(isTaskItem item, [item])]
  end.
Definition groups_of (items : list mdast) : list (bool * list mdast) := rev (foldl group_item [] items).
Definition splitMixedList (spread : bool) (other : Z) (items : list mdast) : list mdast :=
  if existsb isTaskItem items && existsb (fun item => negb (isTaskItem item)) items then
    map (fun g => let children := normalizeSplitListItems g.2 in MList (existsb hasLooseBlockItem children) other children) (groups_of items)
  else [MList spread other items].

(** [splitMixedTaskListsInParent] on the children of a parent: a child is done inside
    before it is split, and the lists it becomes are not looked at again. *)
Fixpoint split_node (n : mdast) : list mdast :=
  let inside := fix inside (l : list mdast) : list mdast := match l with [] => [] | c :: l' => split_node c ++ inside l' end in
  match n with
  | MLeaf o => [n]
  | MList spread o l => splitMixedList spread o (inside l)
  | MItem checked spread o l => [MItem checked spread o (inside l)]
  | MParent o l => [MParent o (inside l)]
  end.
Definition splitMixedTaskListsInParent (children : list mdast) : list mdast := children ≫= split_node.

(** *** Lemmas *)

Lemma mdast_ind' (P : mdast -> Prop) :
  (forall o, P (MLeaf o)) -> (forall s o l, Forall P l -> P (MList s o l)) -> (forall c s o l, Forall P l -> P (MItem c s o l)) ->
  (forall o l, Forall P l -> P (MParent o l)) -> forall n, P n.
Proof.
  intros H1 H2 H3 H4. fix IH 1. intros [o|s o l|c s o l|o l]; [apply H1|apply H2|apply H3|apply H4].
  all: induction l as [|n l IHl]; constructor; [apply IH|exact IHl].
Qed.
Lemma split_inside l : (fix inside (l : list mdast) : list mdast := match l with [] => [] | c :: l' => split_node c ++ inside l' end) l = splitMixedTaskListsInParent l.
Proof. induction l as [|n l IH]; [done|]. cbn. by rewrite IH. Qed.
Lemma split_node_eq n : split_node n =
  match n with
  | MLeaf o => [n]
  | MList spread o l => splitMixedList spread o (splitMixedTaskListsInParent l)
  | MItem checked spread o l => [MItem checked spread o (splitMixedTaskListsInParent l)]
  | MParent o l => [MParent o (splitMixedTaskListsInParent l)]
  end.
Proof. destruct n; cbn [split_node]; rewrite ?split_inside; done. Qed.

(** No list mixes tasks and other items, at any depth. *)
Definition uniform (items : list mdast) : bool := negb (existsb isTaskItem items && existsb (fun item => negb (isTaskItem item)) items).
Fixpoint unmixed (n : mdast) : bool :=
  match n with
  | MLeaf _ => true
  | MList _ _ l => uniform l && forallb unmixed l
  | MItem _ _ _ l | MParent _ l => forallb unmixed l
  end.
(** What the tree holds, in order: its leaves and the items around them. *)
Inductive mark := LeafMark (other : Z) | ItemOpen (checked : option bool) (other : Z) | ItemClose | ParentOpen (other : Z) | ParentClose.
Fixpoint marks (n : mdast) : list mark :=
  match n with
  | MLeaf o => [LeafMark o]
  | MList _ _ l => concat (map marks l)
  | MItem c _ o l => ItemOpen c o :: concat (map marks l) ++ [ItemClose]
  | MParent o l => ParentOpen o :: concat (map marks l) ++ [ParentClose]
  end.
Definition all_marks (l : list mdast) : list mark := concat (map marks l).

Lemma all_marks_app l l' : all_marks (l ++ l') = all_marks l ++ all_marks l'.
Proof. unfold all_marks. by rewrite map_app, concat_app. Qed.
Lemma all_marks_normalized items : all_marks (normalizeSplitListItems items) = all_marks items.
Proof.
  unfold all_marks, normalizeSplitListItems. rewrite map_map. f_equal. apply map_ext. intros item. destruct (isSingleBlockItem item); [|done]. by destruct item.
Qed.
Lemma normalized_task item : isTaskItem (if isSingleBlockItem item then tightened item else item) = isTaskItem item.
Proof. destruct (isSingleBlockItem item); [|done]. by destruct item. Qed.
Lemma normalized_unmixed item : unmixed (if isSingleBlockItem item then tightened item else item) = unmixed item.
Proof. destruct (isSingleBlockItem item); [|done]. by destruct item. Qed.

(** The groups: the items in order, each group of one kind. *)
Lemma groups_spec items :
  concat (map snd (groups_of items)) = items /\ Forall (fun g => forallb (fun item => Bool.eqb (isTaskItem item) g.1) g.2 = true) (groups_of items).
Proof.
  unfold groups_of. induction items as [|item items [IH1 IH2]] using rev_ind; [by split|]. rewrite foldl_app. cbn [foldl].
  destruct (foldl group_item [] items) as [|[b l] before]; cbn [group_item].
  - cbn in IH1. subst items. cbn. split; [done|]. constructor; [|done]. cbn. by rewrite Bool.eqb_reflx.
  - cbn [rev] in *. rewrite map_app, concat_app in IH1. apply Forall_app in IH2 as [IH2 IH3%Forall_cons_1]. cbn in IH1, IH3. rewrite app_nil_r in IH1.
    destruct (Bool.eqb b (isTaskItem item)) eqn:E; cbn [rev].
    + rewrite map_app, concat_app. cbn. rewrite app_nil_r, app_assoc, IH1. split; [done|]. apply Forall_app. split; [done|]. constructor; [|done]. cbn.
      rewrite forallb_app. cbn. rewrite (proj1 IH3). apply Bool.eqb_prop in E as ->. by rewrite Bool.eqb_reflx.
    + rewrite !map_app, !concat_app. cbn. rewrite !app_nil_r, IH1. split; [done|]. apply Forall_app. split; [apply Forall_app; split; [done|constructor; [exact (proj1 IH3)|done]]|].
      constructor; [|done]. cbn. by rewrite Bool.eqb_reflx.
Qed.
Lemma same_kind_uniform b items : forallb (fun item => Bool.eqb (isTaskItem item) b) items = true -> uniform items = true.
Proof.
  intros H. rewrite forallb_forall in H. unfold uniform. apply negb_true_iff, andb_false_iff.
  destruct b; [right|left]; apply not_true_is_false; intros (item & Hin & E)%existsb_exists; apply H in Hin; destruct (isTaskItem item); done.
Qed.

Lemma split_list_spec spread o items : forallb unmixed items = true ->
  all_marks (splitMixedList spread o items) = all_marks items /\ forallb unmixed (splitMixedList spread o items) = true.
Proof.
  intros Hun. unfold splitMixedList. destruct (_ && _) eqn:Em.
  - destruct (groups_spec items) as [Hc Hg]. split.
    + rewrite <- Hc at 2. unfold all_marks at 1. rewrite map_map. cbn [marks]. clear. induction (groups_of items) as [|g gs IH]; [done|].
      cbn [map concat]. rewrite IH, all_marks_app. f_equal. apply all_marks_normalized.
    + rewrite forallb_forall. intros n (g & <- & Hin)%in_map_iff. cbn [unmixed]. rewrite Forall_forall in Hg. specialize (Hg g).
      rewrite list_elem_of_In in Hg. specialize (Hg Hin). apply andb_true_iff. split.
      * apply (same_kind_uniform g.1). unfold normalizeSplitListItems. rewrite forallb_forall in *. intros item (i & <- & Hi)%in_map_iff. rewrite normalized_task. by apply Hg.
      * rewrite forallb_forall in *. intros item (i & <- & Hi)%in_map_iff. rewrite normalized_unmixed. apply Hun. rewrite <- Hc. apply in_concat.
        exists g.2. split; [by apply in_map|done].
  - cbn. unfold uniform. rewrite Em, Hun. split; [|done]. unfold all_marks. cbn. by rewrite app_nil_r.
Qed.
Lemma split_node_spec n : all_marks (split_node n) = marks n /\ forallb unmixed (split_node n) = true.
Proof.
  assert (forall l, Forall (fun n => all_marks (split_node n) = marks n /\ forallb unmixed (split_node n) = true) l ->
    all_marks (splitMixedTaskListsInParent l) = all_marks l /\ forallb unmixed (splitMixedTaskListsInParent l) = true) as Hl.
  { induction 1 as [|n' l [H1 H2] _ [IH1 IH2]]; [done|]. unfold splitMixedTaskListsInParent in *. cbn [mbind list_bind]. rewrite all_marks_app, forallb_app, H1, H2.
    split; [|exact IH2]. unfold all_marks at 2. cbn. f_equal. exact IH1. }
  induction n as [o|s o l IH|c s o l IH|o l IH] using mdast_ind'; rewrite split_node_eq; [done| | |].
  - apply Hl in IH as [H1 H2]. destruct (split_list_spec s o _ H2) as [-> H4]. by rewrite H1.
  - apply Hl in IH as [H1 H2]. cbn. fold (all_marks (splitMixedTaskListsInParent l)). rewrite H1, H2, app_nil_r. done.
  - apply Hl in IH as [H1 H2]. cbn. fold (all_marks (splitMixedTaskListsInParent l)). rewrite H1, H2, app_nil_r. done.
Qed.
Lemma split_unmixed n : unmixed n = true -> split_node n = [n].
Proof.
  induction n as [o|s o l IH|c s o l IH|o l IH] using mdast_ind'; rewrite split_node_eq; [done|cbn [unmixed]..].
  all: intros Hu; assert (splitMixedTaskListsInParent l = l) as Hl; [|rewrite Hl].
  1,3,5: try (apply andb_true_iff in Hu as [_ Hu]); clear -IH Hu; induction IH as [|n l Hn _ IHl]; [done|]; cbn in Hu; apply andb_true_iff in Hu as [H1 H2];
    unfold splitMixedTaskListsInParent in *; cbn [mbind list_bind]; rewrite (Hn H1), (IHl H2); done.
  - apply andb_true_iff in Hu as [Hu _]. unfold splitMixedList. unfold uniform in Hu. apply negb_true_iff in Hu. by rewrite Hu.
  - done.
  - done.
Qed.

(** *** What a list is split into *)

(** The maximal runs of items of one kind: they make up the items, none is empty, each is of
    one kind, and neighbours are of different kinds. *)
Definition of_kind (b : bool) (g : list mdast) : Prop := g <> [] /\ Forall (fun item => isTaskItem item = b) g.
Fixpoint alternate (b : bool) (runs : list (list mdast)) : Prop :=
  match runs with [] => True | g :: runs' => of_kind b g /\ alternate (negb b) runs' end.
Definition maximal_runs (items : list mdast) (runs : list (list mdast)) : Prop := concat runs = items /\ exists b, alternate b runs.

(** An item with at most one block is tight in a list of its own kind, any other is as it was. *)
Definition item_of_run (item : mdast) : mdast :=
  match item with MItem checked spread o l => MItem checked (if (length l <=? 1)%nat then Some false else spread) o l | _ => item end.
(** The list of a run: loose exactly when an item of several blocks is, and otherwise the list it comes from. *)
Definition list_of_run (other : Z) (run : list mdast) : mdast :=
  MList (existsb (fun item => (2 <=? length (children_of item))%nat && is_spread item) run) other (map item_of_run run).

(** What becomes of a node: the same node around what becomes of its children, and of a list
    that then mixes tasks and other items one list for each maximal run. *)
Inductive splits : mdast -> list mdast -> Prop :=
  | splits_leaf o : splits (MLeaf o) [MLeaf o]
  | splits_item c s o l ls : Forall2 splits l ls -> splits (MItem c s o l) [MItem c s o (concat ls)]
  | splits_parent o l ls : Forall2 splits l ls -> splits (MParent o l) [MParent o (concat ls)]
  | splits_uniform s o l ls : Forall2 splits l ls -> uniform (concat ls) = true -> splits (MList s o l) [MList s o (concat ls)]
  | splits_mixed s o l ls runs :
      Forall2 splits l ls -> uniform (concat ls) = false -> maximal_runs (concat ls) runs -> splits (MList s o l) (map (list_of_run o) runs).

(** The loop's groups, the last first: each differs from the one before it. *)
Fixpoint alternating (b : bool) (groups : list (bool * list mdast)) : Prop :=
  match groups with [] => True | g :: before => g.1 = b /\ of_kind b g.2 /\ alternating (negb b) before end.
Lemma alternate_snoc b runs g : alternate b runs -> of_kind (if Nat.even (length runs) then b else negb b) g -> alternate b (runs ++ [g]).
Proof.
  revert b. induction runs as [|r runs IH]; intros b; cbn [alternate app length]; [intros _ Hg; by split|].
  intros [Hr Hrs] Hg. split; [done|]. apply IH; [done|]. rewrite Nat.even_succ, <- Nat.negb_even in Hg.
  destruct (Nat.even (length runs)); cbn in Hg |- *; [done|]. by rewrite negb_involutive.
Qed.
Lemma alternating_rev b groups :
  alternating b groups -> exists c, alternate c (map snd (rev groups)) /\ (if Nat.even (length groups) then c = negb b else c = b).
Proof.
  revert b. induction groups as [|g before IH]; intros b; [exists (negb b); by split|]. cbn [alternating rev length].
  intros (_ & Hg & Hbefore). destruct (IH _ Hbefore) as (c & Hc & Hb). exists c. rewrite map_app. cbn [map].
  rewrite Nat.even_succ, <- Nat.negb_even. split.
  - apply alternate_snoc; [done|]. rewrite length_map, length_rev. destruct (Nat.even (length before)); subst c; by rewrite ?negb_involutive.
  - destruct (Nat.even (length before)); cbn; subst c; by rewrite ?negb_involutive.
Qed.
Lemma groups_alternate items : items <> [] -> exists b, alternating b (foldl group_item [] items).
Proof.
  induction items as [|item items IH] using rev_ind; [done|]. intros _. rewrite foldl_app. cbn [foldl].
  destruct items as [|first rest]; [exists (isTaskItem item); cbn; by repeat (split || constructor)|].
  destruct IH as [b Hb]; [done|]. destruct (foldl group_item [] (first :: rest)) as [|[k l] before]; cbn [group_item].
  - exists (isTaskItem item). cbn. by repeat (split || constructor).
  - cbn [alternating fst snd] in Hb. destruct Hb as (-> & [Hne Hk] & Hbefore). destruct (Bool.eqb b (isTaskItem item)) eqn:E.
    + apply Bool.eqb_prop in E. exists b. cbn [alternating fst snd]. split; [done|]. split; [|done]. split; [by destruct l|].
      apply Forall_app. split; [done|]. by constructor.
    + apply Bool.eqb_false_iff in E. exists (isTaskItem item). cbn [alternating fst snd]. split; [done|]. split; [split; [done|by constructor]|].
      assert (negb (isTaskItem item) = b) as -> by (by destruct b, (isTaskItem item)). by split; [|split].
Qed.
Lemma groups_maximal items : items <> [] -> maximal_runs items (map snd (groups_of items)).
Proof.
  intros Hne. split; [apply groups_spec|]. destruct (groups_alternate items Hne) as [b Hb].
  destruct (alternating_rev _ _ Hb) as (c & Hc & _). by exists c.
Qed.

Lemma list_of_group items (o : Z) :
  (let children := normalizeSplitListItems items in MList (existsb hasLooseBlockItem children) o children) = list_of_run o items.
Proof.
  cbv zeta. unfold list_of_run, normalizeSplitListItems. assert (map (fun item => if isSingleBlockItem item then tightened item else item) items
    = map item_of_run items) as ->.
  { apply map_ext. intros item. unfold isSingleBlockItem. destruct item; cbn [children_of item_of_run tightened]; by destruct (_ <=? 1)%nat. }
  f_equal. induction items as [|item items IH]; [done|]. cbn [map existsb]. rewrite IH. f_equal.
  assert (forall n, negb (n <=? 1)%nat = (2 <=? n)%nat) as Htwo by (intros [|[|n]]; done).
  unfold hasLooseBlockItem, isSingleBlockItem.
  destruct item as [x|x y l|c s x l|x l]; cbn [item_of_run children_of is_spread]; rewrite <- Htwo; try done. by destruct (length l <=? 1)%nat.
Qed.

Lemma split_node_splits n : splits n (split_node n).
Proof.
  induction n as [o|s o l IH|c s o l IH|o l IH] using mdast_ind'; rewrite split_node_eq; [constructor| | |].
  all: assert (exists ls, Forall2 splits l ls /\ splitMixedTaskListsInParent l = concat ls) as (ls & Hls & ->)
    by (exists (map split_node l); split; [clear -IH; by induction IH; constructor|]; unfold splitMixedTaskListsInParent; clear;
        induction l as [|n l IHl]; [done|]; cbn [mbind list_bind map concat]; by rewrite IHl).
  - unfold splitMixedList. destruct (_ && _) eqn:E.
    + erewrite map_ext by (intros g; apply list_of_group). rewrite <- (map_map snd (list_of_run o)). apply (splits_mixed _ _ _ ls); [done| |].
      * unfold uniform. by rewrite E.
      * apply groups_maximal. by destruct (concat ls).
    + apply splits_uniform; [done|]. unfold uniform. by rewrite E.
  - by constructor.
  - by constructor.
Qed.

(** C22. Lists that mix tasks and other items are split, and nothing else happens.  What each
    node becomes is exact, at every depth: a list that mixes them becomes one list for each
    maximal run of one kind, in order, with the fields of the list it comes from, loose only
    when an item of several blocks is, its items as they were but those of one block tight;
    any other node is as it was around its children.  So afterwards no list mixes them, and
    a second run changes nothing. *)
Theorem mixed_lists_split (tree : list mdast) :
  let tree' := splitMixedTaskListsInParent tree in
  (exists pieces, Forall2 splits tree pieces /\ tree' = concat pieces)
  /\ forallb unmixed tree' = true /\ all_marks tree' = all_marks tree /\ splitMixedTaskListsInParent tree' = tree'.
Proof.
  assert (forallb unmixed (splitMixedTaskListsInParent tree) = true /\ all_marks (splitMixedTaskListsInParent tree) = all_marks tree) as [H1 H2].
  { unfold splitMixedTaskListsInParent. induction tree as [|n tree [IH1 IH2]]; [done|]. cbn [mbind list_bind]. destruct (split_node_spec n) as [E1 E2].
    rewrite forallb_app, all_marks_app, E1, E2. split; [exact IH1|]. unfold all_marks at 2. cbn. f_equal. exact IH2. }
  split.
  { exists (map split_node tree). unfold splitMixedTaskListsInParent. clear H1 H2. split.
    - induction tree as [|n tree IH]; constructor; [apply split_node_splits|exact IH].
    - induction tree as [|n tree IH]; [done|]. cbn [mbind list_bind map concat]. by rewrite IH. }
  split; [done|]. split; [done|]. cbv zeta. revert H1. generalize (splitMixedTaskListsInParent tree) as l. unfold splitMixedTaskListsInParent.
  induction l as [|n l IH]; [done|]. cbn. intros [Hn Hl]%andb_true_iff. rewrite split_unmixed by done. cbn. f_equal. by apply IH.
Qed.

Example sample_split :
  splitMixedTaskListsInParent [MList true 1 [MItem (Some false) (Some true) 2 [MLeaf 3]; MItem None None 4 [MLeaf 5]; MItem (Some true) None 6 []]]
  = [MList false 1 [MItem (Some false) (Some false) 2 [MLeaf 3]]; MList false 1 [MItem None (Some false) 4 [MLeaf 5]]; MList false 1 [MItem (Some true) (Some false) 6 []]].
Proof. reflexivity. Qed.
End TaskLists.
