(* ===== verification/Mention.v ===== *)
(** * Mentions and usernames (web/src/utils/mention-grammar.ts, username.ts)

    The username format, and the scan that finds `@username` references in a run of
    literal source.  [findMentionMatches_exact] states the scan as the set of
    maximal references of the run. *)

From S2P Require Import Prelude JSString.

Definition MAX_USERNAME_LENGTH : nat := 36.

(** The regular expression [/^[A-Za-z0-9]$/] on a string. *)
Definition ASCII_ALPHANUMERIC (char : jstring) : bool :=
  match char with [c] => is_alnum_ascii c | _ => false end.

Definition isUsernameCharacter (char : jstring) : bool :=
  ASCII_ALPHANUMERIC char || js_eqb char (u "-").

(** [username[0]] and [username.at(-1)], which exist: the length is checked first. *)
Definition isValidUsername (username : jstring) : bool :=
  if (length username =? 0)%nat || (MAX_USERNAME_LENGTH <? length username)%nat then false
  else if negb (ASCII_ALPHANUMERIC (option_list (head username)))
          || negb (ASCII_ALPHANUMERIC (option_list (last username))) then false
  else forallb (fun char => isUsernameCharacter (from_code_point char)) (code_points username).

Record MentionMatch := { mm_from : nat; mm_to : nat; mm_username : jstring }.

Definition hasLeftBoundary (source : jstring) (position : nat) (runHasLeftBoundary : bool) : bool :=
  if (position =? 0)%nat then runHasLeftBoundary
  else negb (isUsernameCharacter (option_list (source !! (position - 1)%nat))).

(** The inner loop: [end] moves over username characters. *)
Definition mention_end_body (source : jstring) (end_ : nat) : option nat :=
  if (end_ <? length source)%nat && isUsernameCharacter (option_list (source !! end_))
  then Some (end_ + 1)%nat else None.

Definition mention_end (source : jstring) (end_ : nat) : nat :=
  while_m (fun e => (length source - e)%nat) (mention_end_body source) end_.

Definition mention_body (source : jstring) (runHasLeftBoundary : bool)
    (st : nat * list MentionMatch) : option (nat * list MentionMatch) :=
  let '(position, matches) := st in
  if (position <? length source)%nat then
    if negb (bool_decide (source !! position = Some 64))
       || negb (hasLeftBoundary source position runHasLeftBoundary)
    then Some ((position + 1)%nat, matches)
    else
      let end_ := mention_end source (position + 1) in
      let username := slice source (position + 1) end_ in
      let matches' :=
        if isValidUsername username
        then matches ++ [{| mm_from := position; mm_to := end_; mm_username := username |}]
        else matches in
      Some (if (end_ =? position + 1)%nat then (position + 1)%nat else end_, matches')
  else None.

Definition findMentionMatches (source : jstring) (runHasLeftBoundary : bool) : list MentionMatch :=
  (while_m (fun st : nat * list MentionMatch => (length source - st.1)%nat)
           (mention_body source runHasLeftBoundary) (0%nat, [])).2.

(** ** Usernames *)

Definition username_unit (c : Z) : bool := is_alnum_ascii c || (c =? 45).

Lemma isUsernameCharacter_unit c : isUsernameCharacter [c] = username_unit c.
Proof.
  unfold isUsernameCharacter, username_unit, js_eqb, ASCII_ALPHANUMERIC. change (u "-") with [45].
  f_equal. destruct (c =? 45) eqn:E; bool_prop; [subst; done|].
  by rewrite bool_decide_eq_false_2 by congruence.
Qed.

Lemma username_unit_ascii c : username_unit c = true -> 45 <= c <= 122.
Proof.
  unfold username_unit, is_alnum_ascii, is_digit, is_upper_ascii, is_lower_ascii.
  rewrite !orb_true_iff, !andb_true_iff, !Z.leb_le, Z.eqb_eq. lia.
Qed.

Lemma isUsernameCharacter_code_point c :
  isUsernameCharacter (from_code_point c) = username_unit c.
Proof.
  unfold from_code_point. destruct (c <=? 0xFFFF) eqn:E; [apply isUsernameCharacter_unit|].
  bool_prop. unfold isUsernameCharacter, js_eqb. rewrite bool_decide_eq_false_2 by done.
  destruct (username_unit c) eqn:Eu; [|done].
  apply username_unit_ascii in Eu. lia.
Qed.

Lemma forallb_code_points s :
  units s ->
  forallb (fun char => isUsernameCharacter (from_code_point char)) (code_points s)
  = forallb username_unit s.
Proof.
  assert (forall n (l : jstring), (length l <= n)%nat -> units l ->
    forallb (fun char => isUsernameCharacter (from_code_point char)) (code_points l)
    = forallb username_unit l) as H; [|intros; by eapply H].
  induction n as [|n IH]; intros l Hl Hu; [by destruct l; [|simpl in Hl; lia]|].
  destruct l as [|c [|d l]]; simpl in Hl; [done|simpl; by rewrite isUsernameCharacter_code_point|].
  apply Forall_cons in Hu as [Hc Hu].
  change (code_points (c :: d :: l)) with
    (if is_high_surrogate c && is_low_surrogate d
     then ((c - 0xD800) * 1024 + (d - 0xDC00) + 0x10000) :: code_points l
     else c :: code_points (d :: l)).
  destruct (_ && _) eqn:E; cbn [forallb].
  - rewrite isUsernameCharacter_code_point. unfold is_high_surrogate, is_low_surrogate in E. bool_prop.
    assert (username_unit c = false) as ->.
    { destruct (username_unit c) eqn:Eu; [|done]. apply username_unit_ascii in Eu. lia. }
    destruct (username_unit _) eqn:Eu; [|done]. apply username_unit_ascii in Eu. lia.
  - rewrite isUsernameCharacter_code_point, IH; [done|simpl; lia|done].
Qed.

(** ** Scanning *)

Section Scan.
Context (source : jstring) (boundary : bool).
Let len := length source.

(** [b] is the end of the username characters from [a] on. *)
Definition username_run (a b : nat) : Prop :=
  (a <= b <= len)%nat
  /\ (forall k c, (a <= k < b)%nat -> source !! k = Some c -> username_unit c = true)
  /\ (forall c, source !! b = Some c -> username_unit c = false).

Lemma username_run_fun a b1 b2 : username_run a b1 -> username_run a b2 -> b1 = b2.
Proof.
  intros (H1 & H2 & H3) (G1 & G2 & G3). destruct (Nat.lt_trichotomy b1 b2) as [Hlt|[->|Hlt]]; [|done|].
  - destruct (lookup_lt_is_Some_2 source b1) as [c Hc]; [unfold len in *; lia|].
    pose proof (H3 c Hc). rewrite (G2 b1 c) in * by (done || lia). done.
  - destruct (lookup_lt_is_Some_2 source b2) as [c Hc]; [unfold len in *; lia|].
    pose proof (G3 c Hc). rewrite (H2 b2 c) in * by (done || lia). done.
Qed.

Lemma mention_end_run a : (a <= len)%nat -> username_run a (mention_end source a).
Proof.
  intros Ha. unfold mention_end. set (m := fun e => (length source - e)%nat).
  destruct (while_m_inv_exit
    (fun e => (a <= e <= len)%nat /\ forall k c, (a <= k < e)%nat -> source !! k = Some c -> username_unit c = true)
    m (mention_end_body source) a) as [[H1 H2] H3].
  - intros e e' [He Hk] E. unfold mention_end_body in E.
    destruct (_ && _) eqn:Eb; [|done]. apply andb_prop in Eb as [Eb1 Eb2]. bool_prop.
    simplify_eq. unfold m, len in *. split; [|lia].
    split; [lia|]. intros k c Hk' Hc. destruct (decide (k = e)) as [->|]; [|apply (Hk k); [lia|done]].
    rewrite Hc in Eb2. simpl in Eb2. by rewrite isUsernameCharacter_unit in Eb2.
  - split; [lia|]. intros; lia.
  - revert H1 H2 H3. generalize (while_m m (mention_end_body source) a) as e. intros e H1 H2 H3.
    split; [done|]. split; [done|]. intros c Hc. unfold mention_end_body in H3.
    rewrite Hc in H3. simpl in H3. rewrite isUsernameCharacter_unit in H3.
    apply lookup_lt_Some in Hc. rewrite (proj2 (Nat.ltb_lt _ _)) in H3 by done.
    by destruct (username_unit c).
Qed.

(** A reference of the run: `@` after a left boundary, then all the username
    characters that follow it, which form a valid username. *)
Definition mention_at (m : MentionMatch) : Prop :=
  source !! mm_from m = Some 64
  /\ hasLeftBoundary source (mm_from m) boundary = true
  /\ username_run (mm_from m + 1) (mm_to m)
  /\ mm_username m = slice source (mm_from m + 1) (mm_to m)
  /\ isValidUsername (mm_username m) = true.

Definition mentions_inv (st : nat * list MentionMatch) : Prop :=
  forall m, m ∈ st.2 <-> (mm_from m < st.1)%nat /\ mention_at m.

Lemma at_sign_not_username : username_unit 64 = false.
Proof. reflexivity. Qed.

Lemma mentions_skip p q ms :
  mentions_inv (p, ms) -> (p <= q)%nat ->
  (forall m, mention_at m -> ~ (p <= mm_from m < q)%nat) -> mentions_inv (q, ms).
Proof.
  intros H Hpq Hno m. rewrite (H m). simpl. split; intros [? Hm]; (split; [|done]); [lia|].
  specialize (Hno m Hm). lia.
Qed.

Lemma mention_step st st' :
  mentions_inv st -> mention_body source boundary st = Some st' ->
  mentions_inv st' /\ (st.1 < st'.1)%nat /\ (st.1 < len)%nat.
Proof.
  destruct st as [p ms]. intros HI. simpl. destruct (p <? length source)%nat eqn:Ep; [|done]. bool_prop.
  destruct (_ || _) eqn:Eb.
  { intros [= <-]. simpl. split; [|unfold len; lia]. apply (mentions_skip p); [done|lia|].
    intros m (H64 & Hl & _) Hm. assert (mm_from m = p) as Heq by lia. rewrite Heq in H64, Hl.
    rewrite bool_decide_eq_true_2, Hl in Eb by done. done. }
  bool_prop. intros [= <-].
  pose proof (mention_end_run (p + 1) ltac:(unfold len; lia)) as Hr.
  set (e := mention_end source (p + 1)) in *.
  assert ((if (e =? p + 1)%nat then (p + 1)%nat else e) = e) as Hpos
    by (destruct (e =? p + 1)%nat eqn:E; bool_prop; lia).
  rewrite Hpos. pose proof Hr as (He & Hrun & _). simpl. split; [|unfold len in *; lia].
  assert (forall m, mention_at m -> (p < mm_from m < e)%nat -> False) as Hno.
  { intros m (H64 & _) Hm. by pose proof (Hrun (mm_from m) 64 ltac:(lia) H64). }
  set (m0 := {| mm_from := p; mm_to := e; mm_username := slice source (p + 1) e |}).
  assert (forall m, mention_at m -> mm_from m = p -> m = m0) as Huniq.
  { intros [f t n] (_ & _ & Hr' & Hn & _) Hf. simpl in *. subst f.
    by rewrite (username_run_fun _ _ _ Hr' Hr) in *; subst. }
  destruct (isValidUsername (slice source (p + 1) e)) eqn:Ev.
  - intros m. simpl. rewrite elem_of_app, list_elem_of_singleton, (HI m). simpl. split.
    + intros [[? ?]| ->]; [split; [lia|done]|]. split; [simpl; lia|]. 
      split; [done|]. split; [done|]. split; [exact Hr|]. by split.
    + intros [Hlt Hm]. destruct (decide (mm_from m < p)%nat); [by left|].
      destruct (decide (mm_from m = p)); [right; by apply Huniq|].
      exfalso. eapply Hno; [done|lia].
  - apply (mentions_skip p); [done|lia|]. intros m Hm Hlt.
    destruct (decide (mm_from m = p)) as [Heq|]; [|eapply Hno; [done|lia]].
    pose proof (Huniq m Hm Heq) as ->. destruct Hm as (_ & _ & _ & _ & Hv). simpl in Hv. congruence.
Qed.

Lemma mentions_found m : m ∈ findMentionMatches source boundary <-> mention_at m.
Proof.
  unfold findMentionMatches. set (msr := fun st : nat * list MentionMatch => (length source - st.1)%nat).
  destruct (while_m_inv_exit mentions_inv msr (mention_body source boundary) (0%nat, [])) as [HI HE].
  - intros st st' HI E. destruct (mention_step st st' HI E) as (? & ? & ?).
    split; [done|]. unfold msr, len in *. lia.
  - intros m'. simpl. split; [intros H; inversion H|lia].
  - destruct (while_m _ _ _) as [p ms]. rewrite (HI m). simpl in *.
    destruct (p <? length source)%nat eqn:Ep; [repeat case_match; done|]. bool_prop.
    split; [by intros [_ ?]|]. intros Hm. split; [|done]. destruct Hm as (H64 & _).
    apply lookup_lt_Some in H64. lia.
Qed.
End Scan.

(** ** Properties *)

(** A valid username is exactly a string of 1 to 36 code units, each an ASCII
    letter, digit or hyphen, that neither starts nor ends with a hyphen. *)
Theorem isValidUsername_format (s : jstring) (Hs : units s) :
  isValidUsername s = true <->
  (1 <= length s <= MAX_USERNAME_LENGTH)%nat
  /\ (forall c, c ∈ s -> is_alnum_ascii c = true \/ c = 45)
  /\ head s <> Some 45 /\ last s <> Some 45.
Proof.
  assert (forall c, username_unit c = true <-> is_alnum_ascii c = true \/ c = 45) as Hun.
  { intros c. unfold username_unit. by rewrite orb_true_iff, Z.eqb_eq. }
  unfold isValidUsername. rewrite forallb_code_points by done. fold (MAX_USERNAME_LENGTH).
  destruct (_ || _) eqn:E1.
  { split; [done|]. intros [Hl _]. apply orb_true_iff in E1 as [E|E]; bool_prop; lia. }
  bool_prop. destruct s as [|c s]; [done|].
  destruct (last (c :: s)) as [d|] eqn:El; [|by apply last_None in El].
  cbn [head option_list ASCII_ALPHANUMERIC].
  assert (d ∈ c :: s) as Hd by (apply last_Some in El as [l' ->]; set_solver).
  destruct (negb _ || negb _) eqn:E2.
  - split; [done|]. intros (_ & Hall & H1 & H2). apply orb_true_iff in E2 as [E|E]; bool_prop.
    + simpl in E. destruct (Hall c ltac:(set_solver)) as [?| ->]; [congruence|done].
    + simpl in E. destruct (Hall d Hd) as [?| ->]; [congruence|done].
  - apply orb_false_iff in E2 as [E2 E3]. bool_prop. rewrite forallb_forall. split.
    + intros Hall. split; [simpl in *; lia|]. split.
      * intros x Hx. apply Hun, Hall. by apply list_elem_of_In.
      * split; intros [= ->]; done.
    + intros (_ & Hall & _) x Hx. apply Hun, Hall. by apply list_elem_of_In.
Qed.

Example isValidUsername_format_witness :
  units (u "ab-9") /\ isValidUsername (u "ab-9") = true /\ head (u "ab-9") <> Some 45.
Proof.
  assert (units (u "ab-9")) as Hs by check_units. split; [exact Hs|].
  assert (isValidUsername (u "ab-9") = true) as E by reflexivity. split; [exact E|].
  apply (isValidUsername_format (u "ab-9") Hs) in E. apply E.
Defined.

(** [findMentionMatches] finds exactly the references of a run: a match is in the
    result if and only if an at sign after a left boundary stands at its [from], its
    [to] is the end of all the username characters that follow, and these form a
    valid username. *)
Theorem findMentionMatches_exact (source : jstring) (runHasLeftBoundary : bool) (m : MentionMatch) :
  m ∈ findMentionMatches source runHasLeftBoundary <-> mention_at source runHasLeftBoundary m.
Proof. apply mentions_found. Qed.
