(* ===== verification/MarkdownTagRanges.v ===== *)
(** * Tags and mentions of the editor's document

    web/src/components/MemoEditor/Editor/markdownTagRanges.ts: the literal text of a
    document, which the syntax tree exposes outside links, code, mathematics and HTML,
    less the decoded spellings, the email addresses and the written URLs; and the tags
    and mentions found in it.  The grammars of the other files are composed here.  An
    editor state of CodeMirror is the record [EditorState] of what the file asks it for;
    Lezer's [sourceParser] and [fromMarkdown] are parameters. *)

From S2P Require Import Prelude JSString HostUnicode JSRegExp TagGrammar MarkdownSource GFMUrl GFMEmail Mention.

(** A node of [fromMarkdown]'s tree, as [collectRanges] reads it. *)
Inductive mdast_node := MdNode (type : string) (position : option (nat * nat)) (md_children : list mdast_node).

Record EditorState := {
  doc : jstring;
  ensureSyntaxTree : nat -> option source_node;   (* the tree up to an offset, when the parser gets there *)
  syntaxTree : source_node;                       (* the tree there is *)
  syntaxTreeAvailable : bool;                     (* whether the whole document is parsed *)
  lineAt_from : nat -> nat;                       (* doc.lineAt(position).from *)
}.

Record ParsedMarkdownContext := {
  parsedTo : nat;
  source : jstring;
  root : source_node;
  resolvedLinks : list MarkdownSourceRange;
  writtenURLRanges : list MarkdownSourceRange;
  emailRanges : list GFMEmailSourceRange;
  allowUnresolvedLinks : bool;
}.

Definition REJECTED_URL_PREFIX : jstring := u "x".
Definition shifted (range : MarkdownSourceRange) (plus minus : nat) : MarkdownSourceRange :=
  {| r_from := r_from range + plus - minus; r_to := r_to range + plus - minus |}.

(** [addClampedRange]: what it appends. *)
Definition addClampedRange (from to lowerBound upperBound : nat) : list MarkdownSourceRange :=
  let clampedFrom := Nat.max from lowerBound in
  let clampedTo := Nat.min to upperBound in
  if (clampedFrom <? clampedTo)%nat then [{| r_from := clampedFrom; r_to := clampedTo |}] else [].
Definition clamp_range (lowerBound upperBound : nat) (range : MarkdownSourceRange) : list MarkdownSourceRange :=
  addClampedRange (r_from range) (r_to range) lowerBound upperBound.

(** The loop of [subtractRanges] over the opaque ranges, from [cursor]. *)
Fixpoint subtract_from (cursor to : nat) (opaqueRanges : list MarkdownSourceRange) : list MarkdownSourceRange :=
  let rest := if (cursor <? to)%nat then [{| r_from := cursor; r_to := to |}] else [] in
  match opaqueRanges with
  | [] => rest
  | opaque :: opaques =>
      if (r_to opaque <=? cursor)%nat || (to <=? r_from opaque)%nat then subtract_from cursor to opaques
      else
        let cursor' := Nat.max cursor (r_to opaque) in
        (if (cursor <? r_from opaque)%nat then [{| r_from := cursor; r_to := Nat.min (r_from opaque) to |}] else [])
        ++ (if (to <=? cursor')%nat then [] else subtract_from cursor' to opaques)
  end.
Definition subtractRanges (ranges opaqueRanges : list MarkdownSourceRange) : list MarkdownSourceRange :=
  ranges ≫= fun range => subtract_from (r_from range) (r_to range) opaqueRanges.

(** [mergeSourceRanges]; [previous] is the last range of [merged]. *)
Definition merge_body (merged : list MarkdownSourceRange) (range : MarkdownSourceRange) : list MarkdownSourceRange :=
  match last merged with
  | Some previous =>
      if (r_from range <=? r_to previous)%nat
      then removelast merged ++ [{| r_from := r_from previous; r_to := Nat.max (r_to previous) (r_to range) |}]
      else merged ++ [range]
  | None => merged ++ [range]
  end.
Definition mergeSourceRanges (ranges : list MarkdownSourceRange) : list MarkdownSourceRange :=
  foldl merge_body [] (sort_by (ends_leb range_ends) ranges).

(** ** The code blocks of [fromMarkdown] *)

Fixpoint collectRanges (candidate : mdast_node) : list MarkdownSourceRange :=
  let 'MdNode type position md_children := candidate in
  (if bool_decide (type = "code"%string) then
     match position with Some (from, to) => [{| r_from := from; r_to := to |}] | None => [] end
   else [])
  ++ (fix each (l : list mdast_node) : list MarkdownSourceRange :=
        match l with [] => [] | child :: l' => collectRanges child ++ each l' end) md_children.

Section Literal.
Context {host : MarkdownHost} {unicode : HostUnicode}.
Context (sourceParser : jstring -> source_node) (fromMarkdown : jstring -> mdast_node).

Definition keeps_opaque (ranges : list MarkdownSourceRange) (node : source_node) : bool :=
  existsb (fun range => (r_from range <=? from node)%nat && (to node <=? r_to range)%nat) ranges.

(** With the module's one-entry cache: the entry is remade when the source differs. *)
Definition canonicalSourceKeepsCodeOpaque (canonicalCodeCache : option (jstring * list MarkdownSourceRange))
    (source : jstring) (node : source_node) : (jstring * list MarkdownSourceRange) * bool :=
  let cache :=
    match canonicalCodeCache with
    | Some (cached, ranges) => if js_eqb cached source then (cached, ranges) else (source, collectRanges (fromMarkdown source))
    | None => (source, collectRanges (fromMarkdown source))
    end in
  (cache, keeps_opaque cache.2 node).

(** What it answers whatever the cache holds (see [code_cache_transparent]). *)
Definition code_opaque (source : jstring) (node : source_node) : bool :=
  keeps_opaque (collectRanges (fromMarkdown source)) node.

(** ** The walk over the tree *)

Definition undecoded_entity (source : jstring) (child : source_node) : bool :=
  let spelling := slice source (from child) (to child) in
  is_named "Entity" child && js_eqb (decodeString spelling) spelling.

Definition unresolved_link (links : list MarkdownSourceRange) (allow : bool) (node : source_node) : bool :=
  allow && link_like node && negb (hasExactMarkdownRange links node).

(** [scansDirectText]. *)
Definition scans_direct (source : jstring) (links : list MarkdownSourceRange) (allow : bool) (node : source_node) : bool :=
  bool_decide (name node ∈ TEXT_CONTAINERS) || unresolved_link links allow node || invalid_reference source node.
Definition exposes (source : jstring) (links : list MarkdownSourceRange) (allow : bool) (node : source_node) : bool :=
  scans_direct source links allow node || bool_decide (name node ∈ STRUCTURAL_CONTAINERS).

(** [collectLiteralRanges]; [reparsed node child] is the text found by parsing the child
    again, for a child that is, and nothing for one that is walked. *)
Section Collect.
Context (reparsed : source_node -> source_node -> option (list MarkdownSourceRange)).
Context (lower upper : nat) (source : jstring) (links : list MarkdownSourceRange) (allow : bool).

(** The loop over the children, what a child adds being [visit child]. *)
Section Children.
Context (visit : source_node -> list MarkdownSourceRange) (scansDirectText : bool) (node_to : nat).

Fixpoint each_child (l : list source_node) (cursor : nat) : list MarkdownSourceRange :=
  match l with
  | [] => if scansDirectText then addClampedRange cursor node_to lower upper else []
  | child :: l' =>
      if undecoded_entity source child then each_child l' cursor
      else if (to child <=? cursor)%nat then each_child l' cursor
      else
        (if scansDirectText then addClampedRange cursor (from child) lower upper else [])
        ++ (if (cursor <=? from child)%nat then visit child else [])
        ++ each_child l' (Nat.max cursor (to child))
  end.
End Children.

Fixpoint collect_literal (node : source_node) : list MarkdownSourceRange :=
  let 'SourceNode _ node_from node_to children := node in
  if (node_to <=? lower)%nat || (upper <=? node_from)%nat then []
  else if negb (exposes source links allow node) then []
  else
    each_child
      (fun child =>
         match reparsed node child with
         | Some ranges => ranges ≫= clamp_range lower upper
         | None => collect_literal child
         end)
      (scans_direct source links allow node) node_to children node_from.
End Collect.

(** ** Text parsed again *)

(** What is walked: lower and upper bound, source, resolved links, written URLs. *)
Definition walk := source_node -> nat -> nat -> jstring -> list MarkdownSourceRange -> list MarkdownSourceRange ->
  list MarkdownSourceRange.

Section Reparse.
Context (collect : walk).   (* collectLiteralRanges with [allowUnresolvedLinks] *)

(** The part the three functions share: the literal ranges after the prefix. *)
Definition reparse (prefix text : jstring) (keeps_url : MarkdownSourceRange -> bool) : list MarkdownSourceRange :=
  let prefixedSource := prefix ++ text in
  let root := sourceParser prefixedSource in
  let resolvedLinks := resolvedMarkdownLinkRanges prefixedSource root in
  collect root (length prefix) (length prefixedSource) prefixedSource resolvedLinks
    (js_filter keeps_url (findMarkdownGFMURLRanges prefixedSource root resolvedLinks false)).

(** [collectUnresolvedReferenceLabelRanges]. *)
Definition label_ranges (source : jstring) (node : source_node) : list MarkdownSourceRange :=
  let contentFrom := (from node + 1)%nat in
  let contentTo := (to node - 1)%nat in
  if (contentTo <=? contentFrom)%nat then []
  else
    (fun range => shifted range contentFrom (length REFERENCE_LABEL_PREFIX))
      <$> reparse REFERENCE_LABEL_PREFIX (slice source contentFrom contentTo)
            (fun range => negb (r_from range =? length REFERENCE_LABEL_PREFIX)%nat).

(** The emphasis marks a rejected URL has in its parent's text. *)
Definition emphasis_marks (source : jstring) (parent node : source_node) : list MarkdownSourceRange :=
  if includes (slice source (from node) (to node)) [95] && includes (slice source (from parent) (from node)) [95] then
    let contextualSource := slice source (from parent) (from node) ++ REJECTED_URL_PREFIX ++ slice source (from node) (to node) in
    let contentFrom := (from node - from parent + length REJECTED_URL_PREFIX)%nat in
    (fun mark => shifted (node_range mark) (from parent) (length REJECTED_URL_PREFIX))
      <$> js_filter (fun mark => is_named "EmphasisMark" mark && (contentFrom <=? from mark)%nat)
            (nodes (sourceParser contextualSource))
  else [].

(** [collectRejectedURLLiteralRanges]. *)
Definition rejected_url_ranges (source : jstring) (parent node : source_node) : list MarkdownSourceRange :=
  let urlRanges := reparse REJECTED_URL_PREFIX (slice source (from node) (to node)) (fun _ => true) in
  let projected := (fun range => shifted range (from node) (length REJECTED_URL_PREFIX)) <$> urlRanges in
  subtractRanges projected (emphasis_marks source parent node).

(** [collectReparsedLiteralRanges]. *)
Definition code_ranges (source : jstring) (node : source_node) : list MarkdownSourceRange :=
  (fun range => shifted range (from node) (length REFERENCE_LABEL_PREFIX))
    <$> reparse REFERENCE_LABEL_PREFIX (slice source (from node) (to node)) (fun _ => true).

(** The branches of the walk that do not walk the child. *)
Definition reparsed_child (source : jstring) (links writtenURLs : list MarkdownSourceRange) (allow : bool)
    (node child : source_node) : option (list MarkdownSourceRange) :=
  if is_named "Blockquote" node && is_named "CodeBlock" child && negb (code_opaque source child)
  then Some (code_ranges source child)
  else if invalid_reference source node && is_named "LinkLabel" child then Some (label_ranges source child)
  else if is_named "URL" child then
    Some (if hasExactMarkdownRange writtenURLs child then [] else rejected_url_ranges source node child)
  else if unresolved_link links allow node && is_named "LinkLabel" child then Some (label_ranges source child)
  else None.
End Reparse.

(** [collectLiteralRanges]; one unit of fuel per text parsed inside a parsed text. *)
Fixpoint collectLiteralRanges (fuel : nat) (allow : bool) (node : source_node) (lower upper : nat) (source : jstring)
    (links writtenURLs : list MarkdownSourceRange) : list MarkdownSourceRange :=
  match fuel with
  | O => []
  | S fuel' =>
      collect_literal (reparsed_child (collectLiteralRanges fuel' true) source links writtenURLs allow)
        lower upper source links allow node
  end.

(** How deep texts parsed inside parsed texts nest, which is the parser's doing: an
    address such as [a@b.c] is a URL node that is not a written URL, and is one again
    behind a prefix until the parser's bound on a local part is reached.  See
    [bounded_depth]. *)
Context (reparse_depth : jstring -> nat).

(** ** What the editor asks for *)

Definition parsedMarkdownRoot (state : EditorState) (to : nat) : source_node :=
  default (syntaxTree state) (ensureSyntaxTree state to).

(** [cached] is the state's entry of the weak map before; the context returned is the
    entry after. *)
Definition parsedMarkdownContext (cached : option ParsedMarkdownContext) (state : EditorState) (to : nat)
    : ParsedMarkdownContext :=
  let made :=
    let source := doc state in
    let root := parsedMarkdownRoot state to in
    let resolvedLinks := resolvedMarkdownLinkRanges source root in
    let allowUnresolvedLinks := syntaxTreeAvailable state in
    {| parsedTo := to; source := source; root := root; resolvedLinks := resolvedLinks;
       writtenURLRanges := findMarkdownGFMURLRanges source root resolvedLinks true;
       emailRanges := findMarkdownGFMEmailRanges sourceParser source root resolvedLinks allowUnresolvedLinks;
       allowUnresolvedLinks := allowUnresolvedLinks |} in
  match cached with
  | Some context => if (to <=? parsedTo context)%nat then context else made
  | None => made
  end.

Definition boundary_range (b : MarkdownSourceBoundary) : MarkdownSourceRange := {| r_from := b_from b; r_to := b_to b |}.
Definition email_range (e : GFMEmailSourceRange) : MarkdownSourceRange := {| r_from := e_from e; r_to := e_to e |}.

(** [literalMarkdownSourceRanges], of a context. *)
Definition context_ranges (context : ParsedMarkdownContext) (from to : nat) : list MarkdownSourceRange :=
  let ranges := collectLiteralRanges (S (reparse_depth (source context))) (allowUnresolvedLinks context) (root context)
                  from to (source context) (resolvedLinks context) (writtenURLRanges context) in
  let decodedBoundaries := findDecodedMarkdownSourceBoundaries (source context) from to in
  mergeSourceRanges
    (subtractRanges
       (subtractRanges (subtractRanges ranges (boundary_range <$> decodedBoundaries)) (email_range <$> emailRanges context))
       (writtenURLRanges context)).
Definition literalMarkdownSourceRanges (cached : option ParsedMarkdownContext) (state : EditorState) (from to : nat)
    : list MarkdownSourceRange :=
  context_ranges (parsedMarkdownContext cached state to) from to.

Definition shift_tag (by_ : nat) (m : TagMatch) : TagMatch :=
  {| tm_from := by_ + tm_from m; tm_to := by_ + tm_to m; tm_source := tm_source m; tm_value := tm_value m |}.
Definition shift_mention (by_ : nat) (m : MentionMatch) : MentionMatch :=
  {| mm_from := by_ + mm_from m; mm_to := by_ + mm_to m; mm_username := mm_username m |}.

Definition range_tags (text : jstring) (range : MarkdownSourceRange) : list TagMatch :=
  let source := slice text (r_from range) (r_to range) in
  shift_tag (r_from range) <$> findTagMatches source 0 (length source).
Definition findMarkdownTagMatches (cached : option ParsedMarkdownContext) (state : EditorState) (from to : nat)
    : list TagMatch :=
  literalMarkdownSourceRanges cached state from to ≫= range_tags (doc state).

Definition run_boundary (text : jstring) (range : MarkdownSourceRange) : bool :=
  (r_from range =? 0)%nat || negb (isUsernameCharacter (slice text (r_from range - 1) (r_from range))).
Definition range_mentions (text : jstring) (range : MarkdownSourceRange) : list MentionMatch :=
  shift_mention (r_from range)
    <$> findMentionMatches (slice text (r_from range) (r_to range)) (run_boundary text range).
Definition findMarkdownMentionMatches (cached : option ParsedMarkdownContext) (state : EditorState) (from to : nat)
    : list MentionMatch :=
  literalMarkdownSourceRanges cached state from to ≫= range_mentions (doc state).

Definition tagMatchBefore (cached : option ParsedMarkdownContext) (state : EditorState) (position : nat) : option TagMatch :=
  js_find (fun m => (tm_to m =? position)%nat)
    (rev (findMarkdownTagMatches cached state (lineAt_from state position) position)).
Definition isLiteralTagPosition (cached : option ParsedMarkdownContext) (state : EditorState) (position : nat) : bool :=
  existsb (fun range => (r_to range =? position)%nat)
    (literalMarkdownSourceRanges cached state (lineAt_from state position) position).
End Literal.

(** ** Sets of offsets *)

Definition covers (ranges : list MarkdownSourceRange) (i : nat) : Prop :=
  exists range, range ∈ ranges /\ (r_from range <= i < r_to range)%nat.
Definition not_empty (range : MarkdownSourceRange) : Prop := (r_from range < r_to range)%nat.
Definition by_from (ranges : list MarkdownSourceRange) : Prop := StronglySorted (fun a b => r_from a <= r_from b)%nat ranges.

Lemma covers_nil i : ~ covers [] i.
Proof. intros (r & H & _). inversion H. Qed.
Lemma covers_cons r rs i : covers (r :: rs) i <-> (r_from r <= i < r_to r)%nat \/ covers rs i.
Proof.
  unfold covers. setoid_rewrite elem_of_cons. split; [intros (x & [->|H] & Hi); [by left|right; by exists x]|].
  intros [H|(x & H & Hi)]; [exists r; auto|exists x; auto].
Qed.
Lemma covers_app l1 l2 i : covers (l1 ++ l2) i <-> covers l1 i \/ covers l2 i.
Proof. induction l1 as [|r l1 IH]; cbn [app]; rewrite ?covers_cons, ?IH; [|tauto]. pose proof (covers_nil i). tauto. Qed.
Lemma covers_one r i : covers [r] i <-> (r_from r <= i < r_to r)%nat.
Proof. rewrite covers_cons. pose proof (covers_nil i). tauto. Qed.
Lemma covers_bind (f : MarkdownSourceRange -> list MarkdownSourceRange) rs i : covers (rs ≫= f) i <-> exists r, r ∈ rs /\ covers (f r) i.
Proof.
  split.
  - intros (x & Hx & Hi). apply list_elem_of_bind in Hx as (r & Hx & Hr). exists r. split; [done|]. by exists x.
  - intros (r & Hr & x & Hx & Hi). exists x. split; [|done]. apply list_elem_of_bind. by exists r.
Qed.
Lemma covers_Permutation l1 l2 i : l1 ≡ₚ l2 -> covers l1 i <-> covers l2 i.
Proof. intros Hp. unfold covers. by setoid_rewrite Hp. Qed.

Lemma addClamped_covers a b lower upper i :
  covers (addClampedRange a b lower upper) i <-> (a <= i < b)%nat /\ (lower <= i < upper)%nat.
Proof.
  unfold addClampedRange. destruct (_ <? _)%nat eqn:E; bool_prop; rewrite ?covers_one; cbn [r_from r_to].
  - lia.
  - split; [intros []%covers_nil|lia].
Qed.

Lemma clamped_covers rs lower upper i :
  covers (rs ≫= clamp_range lower upper) i <-> covers rs i /\ (lower <= i < upper)%nat.
Proof.
  rewrite covers_bind. unfold clamp_range. setoid_rewrite addClamped_covers. unfold covers. naive_solver.
Qed.

Lemma addClamped_inside a b lower upper :
  Forall (fun r => (lower <= r_from r < r_to r)%nat /\ (r_to r <= upper)%nat) (addClampedRange a b lower upper).
Proof. unfold addClampedRange. destruct (_ <? _)%nat eqn:E; bool_prop; repeat constructor; cbn; lia. Qed.
#[local] Hint Resolve addClamped_inside : memos.

(** *** Subtraction *)

Lemma subtract_from_inside cursor to ops i : covers (subtract_from cursor to ops) i -> (cursor <= i < to)%nat.
Proof.
  revert cursor. induction ops as [|op ops IH]; intros cursor; cbn [subtract_from].
  { destruct (_ <? _)%nat eqn:E; [by rewrite covers_one|intros []%covers_nil]. }
  destruct (_ || _) eqn:E; [apply IH|]. bool_prop. rewrite covers_app. intros [Hc|Hc].
  - destruct (cursor <? _)%nat eqn:E2; [|by apply covers_nil in Hc]. apply covers_one in Hc. cbn in Hc. bool_prop. lia.
  - destruct (_ <=? Nat.max _ _)%nat; [by apply covers_nil in Hc|]. apply IH in Hc. lia.
Qed.

Lemma subtract_from_not_empty cursor to ops : Forall not_empty (subtract_from cursor to ops).
Proof.
  revert cursor. induction ops as [|op ops IH]; intros cursor; cbn [subtract_from].
  { destruct (_ <? _)%nat eqn:E; repeat constructor. by bool_prop. }
  destruct (_ || _) eqn:E; [apply IH|]. bool_prop. apply Forall_app_2.
  - destruct (cursor <? _)%nat eqn:E2; repeat constructor. unfold not_empty. cbn. bool_prop. lia.
  - destruct (_ <=? Nat.max _ _)%nat; [constructor|apply IH].
Qed.

Lemma subtract_from_covers cursor to ops i :
  by_from ops -> covers (subtract_from cursor to ops) i <-> (cursor <= i < to)%nat /\ ~ covers ops i.
Proof.
  intros Hs. revert cursor. induction Hs as [|op ops Hs IH Hall]; intros cursor; cbn [subtract_from].
  { pose proof (covers_nil i). destruct (_ <? _)%nat eqn:E; bool_prop; rewrite ?covers_one; cbn; [tauto|].
    split; [done|lia]. }
  rewrite covers_cons. destruct (_ || _) eqn:E.
  { rewrite IH. apply orb_true_iff in E as [E|E]; bool_prop; intuition lia. }
  bool_prop. rewrite covers_app.
  assert ((i < r_from op)%nat -> ~ covers ops i) as Hlate.
  { intros Hi (r & Hr & Hir). rewrite Forall_forall in Hall. specialize (Hall r Hr). lia. }
  assert (covers (if (to <=? Nat.max cursor (r_to op))%nat then [] else subtract_from (Nat.max cursor (r_to op)) to ops) i
    <-> (Nat.max cursor (r_to op) <= i < to)%nat /\ ~ covers ops i) as ->.
  { destruct (to <=? _)%nat eqn:E2; bool_prop; [|apply IH]. pose proof (covers_nil i). split; [done|lia]. }
  assert (covers (if (cursor <? r_from op)%nat then [{| r_from := cursor; r_to := Nat.min (r_from op) to |}] else []) i
    <-> (cursor <= i < r_from op)%nat) as ->.
  { destruct (cursor <? _)%nat eqn:E2; bool_prop; rewrite ?covers_one; cbn; [lia|]. pose proof (covers_nil i). split; [done|lia]. }
  destruct (decide (i < r_from op)%nat); intuition lia.
Qed.

Lemma subtractRanges_covers rs ops i :
  by_from ops -> covers (subtractRanges rs ops) i <-> covers rs i /\ ~ covers ops i.
Proof.
  intros Hs. unfold subtractRanges. rewrite covers_bind. setoid_rewrite (fun c t => subtract_from_covers c t ops i Hs).
  unfold covers at 2. naive_solver.
Qed.

Lemma subtractRanges_subset rs ops i : covers (subtractRanges rs ops) i -> covers rs i.
Proof.
  unfold subtractRanges. rewrite covers_bind. intros (r & Hr & Hi%subtract_from_inside). by exists r.
Qed.

Lemma subtractRanges_not_empty rs ops : Forall not_empty (subtractRanges rs ops).
Proof.
  unfold subtractRanges. induction rs as [|r rs IH]; cbn; [constructor|].
  apply Forall_app_2; [apply subtract_from_not_empty|done].
Qed.

(** *** Merging *)

(** In order, with a gap between each and the next. *)
Definition separated (ranges : list MarkdownSourceRange) : Prop :=
  Forall not_empty ranges /\ StronglySorted (fun a b => r_to a < r_from b)%nat ranges.

Lemma separated_snoc l r :
  separated (l ++ [r]) <-> separated l /\ not_empty r /\ Forall (fun a => r_to a < r_from r)%nat l.
Proof.
  unfold separated. rewrite Forall_app, Forall_singleton, StronglySorted_app, Forall_forall. split.
  - intros ([H1 H2] & H3 & H4 & _). split; [done|]. split; [done|]. rewrite Forall_forall.
    intros a Ha. apply H3; [done|by left].
  - intros [[H1 H2] [H3 H4]]. split; [done|]. rewrite Forall_forall in H4. split; [|split; [done|repeat constructor]].
    intros a b Ha Hb. apply list_elem_of_singleton in Hb as ->. by apply H4.
Qed.

Lemma merge_covers acc l i :
  by_from l -> Forall not_empty l -> separated acc ->
  (forall p, last acc = Some p -> Forall (fun r => r_from p <= r_from r)%nat l) ->
  separated (foldl merge_body acc l) /\ (covers (foldl merge_body acc l) i <-> covers acc i \/ covers l i).
Proof.
  intros Hs. revert acc. induction Hs as [|r l Hs IH Hall]; intros acc Hne Hacc Hlast; simpl.
  { split; [done|]. pose proof (covers_nil i). tauto. }
  apply Forall_cons in Hne as [Hr Hne]. unfold merge_body at 2 4.
  destruct (last acc) as [p|] eqn:El.
  2:{ apply last_None in El as ->. cbn [app]. destruct (IH [r]) as [H1 H2]; [done|split; repeat constructor; done| |].
      - by intros p [= <-].
      - split; [done|]. rewrite H2, covers_one, covers_cons. pose proof (covers_nil i). tauto. }
  apply last_Some in El as [acc0 ->]. specialize (Hlast p eq_refl). apply Forall_cons in Hlast as [Hpr Hpl].
  pose proof (proj1 (separated_snoc _ _) Hacc) as (H0 & Hp & Hbefore).
  destruct (r_from r <=? r_to p)%nat eqn:E; bool_prop.
  - rewrite removelast_last. edestruct (IH (acc0 ++ [{| r_from := r_from p; r_to := Nat.max (r_to p) (r_to r) |}])) as [H1 H2].
    + done.
    + apply separated_snoc. split; [done|]. split; [|done]. unfold not_empty in *. cbn. lia.
    + intros q. rewrite last_snoc. intros [= <-]. cbn. done.
    + split; [done|]. rewrite H2, !covers_app, !covers_one, covers_cons. cbn [r_from r_to]. unfold not_empty in *.
      assert ((r_from p <= i < Nat.max (r_to p) (r_to r))%nat
        <-> (r_from p <= i < r_to p)%nat \/ (r_from r <= i < r_to r)%nat) as -> by lia. tauto.
  - edestruct (IH ((acc0 ++ [p]) ++ [r])) as [H1 H2].
    + done.
    + apply separated_snoc. split; [done|]. split; [done|]. apply Forall_app_2; [|by repeat constructor].
      eapply Forall_impl; [exact Hbefore|]. cbn. unfold not_empty in *. intros a Ha. lia.
    + intros q. rewrite last_snoc. by intros [= <-].
    + split; [done|]. rewrite H2, (covers_app (acc0 ++ [p])), covers_one, covers_cons. tauto.
Qed.

Lemma mergeSourceRanges_spec rs :
  Forall not_empty rs -> separated (mergeSourceRanges rs) /\ forall i, covers (mergeSourceRanges rs) i <-> covers rs i.
Proof.
  intros Hne. unfold mergeSourceRanges.
  assert (forall i, separated (foldl merge_body [] (sort_by (ends_leb range_ends) rs))
    /\ (covers (foldl merge_body [] (sort_by (ends_leb range_ends) rs)) i <-> covers [] i \/ covers (sort_by (ends_leb range_ends) rs) i)) as H.
  { intros i. apply merge_covers; [apply (sort_by_ends range_ends)|by rewrite sort_by_perm|by repeat constructor|done]. }
  split; [apply (H 0%nat)|]. intros i. destruct (H i) as [_ ->].
  rewrite (covers_Permutation (sort_by _ _) rs) by apply sort_by_perm. pose proof (covers_nil i). tauto.
Qed.

(** ** What the walk exposes *)

(** The children of a node stand in order inside it. *)
Fixpoint ordered (lo : nat) (cs : list source_node) (hi : nat) : Prop :=
  match cs with
  | [] => (lo <= hi)%nat
  | c :: cs' => (lo <= from c <= to c)%nat /\ ordered (to c) cs' hi
  end.
Definition well_nested (root : source_node) : Prop :=
  forall n, n ∈ nodes root -> ordered (from n) (childrenOf n) (to n).

Lemma ordered_le lo cs hi : ordered lo cs hi -> (lo <= hi)%nat.
Proof. revert lo. induction cs as [|c cs IH]; intros lo; [done|]. intros [H1 H2%IH]. lia. Qed.
Lemma ordered_In lo cs hi c : ordered lo cs hi -> c ∈ cs -> (lo <= from c <= to c)%nat /\ (to c <= hi)%nat.
Proof.
  revert lo. induction cs as [|d cs IH]; intros lo; [intros _ H; inversion H|].
  intros [H1 H2] [->|H]%elem_of_cons; [apply ordered_le in H2; lia|].
  apply IH in H2; [lia|done].
Qed.

Lemma elem_of_nodes nm a b cs m :
  m ∈ nodes (SourceNode nm a b cs) <-> m = SourceNode nm a b cs \/ exists c, c ∈ cs /\ m ∈ nodes c.
Proof.
  cbn [nodes]. rewrite elem_of_cons.
  assert (m ∈ (fix each (l : list source_node) : list source_node :=
      match l with [] => [] | child :: l' => nodes child ++ each l' end) cs <-> exists c, c ∈ cs /\ m ∈ nodes c) as ->; [|done].
  induction cs as [|c cs IH].
  - split; [intros H; inversion H|intros (c & H & _); inversion H].
  - rewrite elem_of_app, IH. setoid_rewrite elem_of_cons. naive_solver.
Qed.
Lemma nodes_self n : n ∈ nodes n.
Proof. destruct n. apply elem_of_nodes. by left. Qed.
Lemma well_nested_child n c : well_nested n -> c ∈ childrenOf n -> well_nested c.
Proof. destruct n as [nm a b cs]. intros H Hc m Hm. apply H, elem_of_nodes. right. by exists c. Qed.

Section Exposed.
Context {host : MarkdownHost}.
Context (reparsed : source_node -> source_node -> option (list MarkdownSourceRange)).
Context (lower upper : nat) (source : jstring) (links : list MarkdownSourceRange) (allow : bool).

Definition inside (node : source_node) (i : nat) : Prop := (from node <= i < to node)%nat.

(** The literal text of a node: its own text where no child stands (an entity that
    decodes to itself is text), what its reparsed children expose, and the literal
    text of the children that are walked. *)
Inductive literal_at : source_node -> nat -> Prop :=
| at_text n i :
    scans_direct source links allow n = true -> inside n i ->
    (forall c, c ∈ childrenOf n -> inside c i -> undecoded_entity source c = true) ->
    literal_at n i
| at_reparsed n c ranges i :
    exposes source links allow n = true -> c ∈ childrenOf n -> undecoded_entity source c = false ->
    reparsed n c = Some ranges -> covers ranges i -> literal_at n i
| at_child n c i :
    exposes source links allow n = true -> c ∈ childrenOf n -> undecoded_entity source c = false ->
    reparsed n c = None -> literal_at c i -> literal_at n i.

(** What a child adds. *)
Definition child_literal (n c : source_node) (i : nat) : Prop :=
  undecoded_entity source c = false
  /\ match reparsed n c with Some ranges => covers ranges i | None => literal_at c i end.

Lemma literal_at_unfold n i :
  literal_at n i <->
  exposes source links allow n = true
  /\ ((scans_direct source links allow n = true /\ inside n i
        /\ forall c, c ∈ childrenOf n -> inside c i -> undecoded_entity source c = true)
      \/ exists c, c ∈ childrenOf n /\ child_literal n c i).
Proof.
  unfold child_literal. split.
  - destruct 1 as [n i H1 H2 H3|n c rs i H1 H2 H3 H4 H5|n c i H1 H2 H3 H4 H5].
    + split; [unfold exposes; by rewrite H1|by left].
    + split; [done|]. right. exists c. by rewrite H4.
    + split; [done|]. right. exists c. by rewrite H4.
  - intros (He & [(H1 & H2 & H3)|(c & Hc & Hu & H)]); [by constructor|].
    destruct (reparsed n c) eqn:E; [by eapply at_reparsed|by eapply at_child].
Qed.

Hypothesis reparsed_inside : forall n c ranges i, reparsed n c = Some ranges -> covers ranges i -> inside c i.

Lemma literal_inside n i : well_nested n -> literal_at n i -> inside n i.
Proof.
  intros Hw. induction 1 as [n i H1 H2 H3|n c rs i H1 H2 H3 H4 H5|n c i H1 H2 H3 H4 H5 IH]; [done| |].
  - pose proof (ordered_In _ _ _ _ (Hw n (nodes_self n)) H2). apply (reparsed_inside n c) in H5; [|done].
    unfold inside in *. lia.
  - pose proof (ordered_In _ _ _ _ (Hw n (nodes_self n)) H2).
    specialize (IH (well_nested_child n c Hw H2)). unfold inside in *. lia.
Qed.

Lemma child_literal_inside n c i : well_nested n -> c ∈ childrenOf n -> child_literal n c i -> inside c i.
Proof.
  intros Hw Hc [_ H]. destruct (reparsed n c) eqn:E; [by eapply reparsed_inside|].
  apply literal_inside; [by eapply well_nested_child|done].
Qed.

Lemma each_child_covers visit scans hi (literal : source_node -> Prop) i l cursor lo :
  (cursor <= lo)%nat -> ordered lo l hi ->
  (forall c, c ∈ l -> literal c -> undecoded_entity source c = false /\ inside c i) ->
  (forall c, c ∈ l -> undecoded_entity source c = false -> covers (visit c) i <-> (lower <= i < upper)%nat /\ literal c) ->
  covers (each_child lower upper source visit scans hi l cursor) i <->
  (lower <= i < upper)%nat
  /\ ((scans = true /\ (cursor <= i < hi)%nat /\ forall c, c ∈ l -> inside c i -> undecoded_entity source c = true)
      \/ exists c, c ∈ l /\ literal c).
Proof.
  revert cursor lo. induction l as [|c l IH]; intros cursor lo Hlo Ho Hin Hv; cbn [each_child].
  { pose proof (covers_nil i).
    assert ((exists c, c ∈ [] /\ literal c) <-> False) as -> by (split; [intros (c & Hc & _); inversion Hc|done]).
    assert ((forall c, c ∈ [] -> inside c i -> undecoded_entity source c = true) <-> True) as ->
      by (split; [done|intros _ c Hc; inversion Hc]).
    destruct scans; rewrite ?addClamped_covers; naive_solver. }
  destruct Ho as [Hc Ho].
  assert (Hin' : forall d, d ∈ l -> literal d -> undecoded_entity source d = false /\ inside d i)
    by (intros d Hd; apply Hin; by right).
  assert (Hv' : forall d, d ∈ l -> undecoded_entity source d = false ->
    covers (visit d) i <-> (lower <= i < upper)%nat /\ literal d) by (intros d Hd; apply Hv; by right).
  assert (Hhead := Hin c ltac:(by left)). assert (Hvisit := Hv c ltac:(by left)).
  setoid_rewrite elem_of_cons. unfold inside in *.
  destruct (undecoded_entity source c) eqn:Eu; [|destruct (to c <=? cursor)%nat eqn:Ec; bool_prop].
  1,2: rewrite (IH cursor (to c)) by (done || lia); clear IH Hv Hv' Hin.
  1: naive_solver.
  { assert (literal c -> False) by (intros ?%Hhead; lia). naive_solver lia. }
  destruct (cursor <=? from c)%nat eqn:Ef; bool_prop; [|lia].
  rewrite !covers_app, (IH (Nat.max cursor (to c)) (to c)) by (done || lia). rewrite Hvisit by done.
  assert (covers (if scans then addClampedRange cursor (from c) lower upper else []) i
    <-> scans = true /\ (cursor <= i < from c)%nat /\ (lower <= i < upper)%nat) as ->.
  { pose proof (covers_nil i). destruct scans; rewrite ?addClamped_covers; naive_solver. }
  assert (Hafter : forall d, d ∈ l -> (from d <= i < to d)%nat -> (to c <= i)%nat)
    by (intros d Hd; pose proof (ordered_In _ _ _ d Ho Hd); lia).
  pose proof (ordered_le _ _ _ Ho) as Hle. clear IH Hv Hv' Hin Hin'. split.
  - intros [(H1 & H2 & H3)|[[H1 H2]|(H1 & [(H2 & H3 & H4)|(d & Hd & Hl)])]].
    + split; [done|]. left. split; [done|]. split; [lia|]. intros d [->|Hd] Hi; [lia|]. specialize (Hafter d Hd Hi). lia.
    + split; [done|]. right. exists c. auto.
    + split; [done|]. left. split; [done|]. split; [lia|]. intros d [->|Hd] Hi; [lia|auto].
    + split; [done|]. right. exists d. auto.
  - intros (H1 & [(H2 & H3 & H4)|(d & [->|Hd] & Hl)]); [|tauto|eauto 10].
    destruct (decide (i < from c)%nat); [left; split; [done|lia]|]. right; right. split; [done|]. left.
    split; [done|]. split; [|eauto]. destruct (decide (i < to c)%nat); [|lia].
    specialize (H4 c ltac:(by left) ltac:(lia)). congruence.
Qed.

Lemma collect_literal_covers n i :
  well_nested n ->
  covers (collect_literal reparsed lower upper source links allow n) i <-> (lower <= i < upper)%nat /\ literal_at n i.
Proof.
  induction n as [nm a b cs IH] using source_node_nested_ind. intros Hw. cbn [collect_literal].
  set (n := SourceNode nm a b cs) in *.
  assert (Hin : literal_at n i -> (a <= i < b)%nat) by apply (literal_inside n i Hw).
  pose proof (covers_nil i) as Hnil.
  destruct (_ || _) eqn:Ep.
  { split; [done|]. intros [? ?%Hin]. apply orb_true_iff in Ep as [Ep|Ep]; bool_prop; lia. }
  clear Ep Hin. rewrite (literal_at_unfold n). destruct (exposes source links allow n); cbn [negb]; [|naive_solver].
  rewrite (each_child_covers _ _ b (fun c => child_literal n c i) i cs a a (le_n a) (Hw n (nodes_self n))).
  - unfold inside. cbn [from to childrenOf n]. tauto.
  - intros c Hc Hl. split; [apply Hl|]. by apply (child_literal_inside n c i Hw).
  - intros c Hc Hu. unfold child_literal. destruct (reparsed n c) as [rs|]; [rewrite clamped_covers; tauto|].
    rewrite Forall_forall in IH. rewrite IH; [tauto|done|by apply (well_nested_child n c Hw)].
Qed.
End Exposed.

(** ** Texts parsed again *)

Section Reparsed.
Context {host : MarkdownHost} {unicode : HostUnicode}.
Context (sourceParser : jstring -> source_node) (fromMarkdown : jstring -> mdast_node).

#[local] Notation collectLiteralRanges := (collectLiteralRanges sourceParser fromMarkdown).

Definition within (lower upper : nat) (range : MarkdownSourceRange) : Prop :=
  (lower <= r_from range < r_to range)%nat /\ (r_to range <= upper)%nat.

Lemma each_child_within visit scans hi lower upper source l cursor :
  (forall c, c ∈ l -> Forall (within lower upper) (visit c)) ->
  Forall (within lower upper) (each_child lower upper source visit scans hi l cursor).
Proof.
  revert cursor. induction l as [|c l IH]; intros cursor Hv; cbn [each_child].
  { destruct scans; [apply addClamped_inside|constructor]. }
  assert (forall k, Forall (within lower upper) (each_child lower upper source visit scans hi l k)) as IH'
    by (intros k; apply IH; intros d Hd; apply Hv; by right).
  destruct (undecoded_entity _ _); [done|]. destruct (_ <=? _)%nat; [done|].
  apply Forall_app_2; [destruct scans; [apply addClamped_inside|constructor]|].
  apply Forall_app_2; [|done]. destruct (_ <=? _)%nat; [apply Hv; by left|constructor].
Qed.

Lemma collect_literal_within reparsed lower upper source links allow n :
  Forall (within lower upper) (collect_literal reparsed lower upper source links allow n).
Proof.
  induction n as [nm a b cs IH] using source_node_nested_ind. cbn [collect_literal].
  destruct (_ || _); [constructor|]. destruct (negb _); [constructor|].
  apply each_child_within. intros c Hc. rewrite Forall_forall in IH.
  destruct (reparsed _ c) as [rs|]; [|by apply IH].
  clear. induction rs as [|r rs IH]; cbn; [constructor|]. apply Forall_app_2; [apply addClamped_inside|done].
Qed.

Lemma collectLiteral_S fuel allow n lower upper source links urls :
  collectLiteralRanges (S fuel) allow n lower upper source links urls
  = collect_literal (reparsed_child sourceParser fromMarkdown (collectLiteralRanges fuel true) source links urls allow)
      lower upper source links allow n.
Proof. done. Qed.

Lemma collectLiteral_within fuel allow n lower upper source links urls :
  Forall (within lower upper) (collectLiteralRanges fuel allow n lower upper source links urls).
Proof. destruct fuel; [constructor|apply collect_literal_within]. Qed.

Lemma reparse_covers fuel prefix text keeps plus i :
  covers ((fun r => shifted r plus (length prefix)) <$> reparse sourceParser (collectLiteralRanges fuel true) prefix text keeps) i ->
  (plus <= i < plus + length text)%nat.
Proof.
  intros (r & Hr & Hi). apply list_elem_of_fmap in Hr as (r' & -> & Hr').
  pose proof (collectLiteral_within fuel true (sourceParser (prefix ++ text)) (length prefix) (length (prefix ++ text))
    (prefix ++ text) (resolvedMarkdownLinkRanges (prefix ++ text) (sourceParser (prefix ++ text)))
    (js_filter keeps (findMarkdownGFMURLRanges (prefix ++ text) (sourceParser (prefix ++ text))
      (resolvedMarkdownLinkRanges (prefix ++ text) (sourceParser (prefix ++ text))) false))) as Hall.
  rewrite Forall_forall in Hall. specialize (Hall r' Hr'). unfold within in Hall. rewrite length_app in Hall.
  cbn in Hi. lia.
Qed.

Lemma length_node_slice source a b : (length (slice source a b) <= b - a)%nat.
Proof. rewrite length_slice. lia. Qed.

(** A reparsed child exposes text of its own only. *)
Lemma reparsed_child_inside fuel source links urls allow n c ranges i :
  reparsed_child sourceParser fromMarkdown (collectLiteralRanges fuel true) source links urls allow n c = Some ranges ->
  covers ranges i -> inside c i.
Proof.
  assert (covers (label_ranges sourceParser (collectLiteralRanges fuel true) source c) i -> inside c i) as Hlabel.
  { unfold label_ranges. destruct (_ <=? _)%nat eqn:E; [by intros ?%covers_nil|]. bool_prop.
    intros H%reparse_covers. pose proof (length_node_slice source (from c + 1) (to c - 1)). unfold inside. lia. }
  pose proof (length_node_slice source (from c) (to c)) as Hlen.
  unfold reparsed_child. destruct (_ && _ && _).
  { intros [= <-] H%reparse_covers. unfold inside. lia. }
  destruct (_ && _); [by intros [= <-]|]. destruct (is_named "URL" c).
  { intros [= <-]. destruct (hasExactMarkdownRange _ _); [by intros ?%covers_nil|].
    intros H%subtractRanges_subset%reparse_covers. unfold inside. lia. }
  destruct (_ && _); [by intros [= <-]|done].
Qed.

(** The texts the walk may parse again for a child. *)
Definition reparse_texts (source : jstring) (n c : source_node) : list jstring :=
  (if is_named "Blockquote" n && is_named "CodeBlock" c
   then [REFERENCE_LABEL_PREFIX ++ slice source (from c) (to c)] else [])
  ++ (if (is_named "LinkReference" n || link_like n) && is_named "LinkLabel" c
      then [REFERENCE_LABEL_PREFIX ++ slice source (from c + 1) (to c - 1)] else [])
  ++ (if is_named "URL" c then [REJECTED_URL_PREFIX ++ slice source (from c) (to c)] else []).

Context (reparse_depth : jstring -> nat).

(** The walk with the fuel the depth asks for. *)
Definition total_walk (allow : bool) (root : source_node) (lower upper : nat) (source : jstring)
    (links urls : list MarkdownSourceRange) : list MarkdownSourceRange :=
  collectLiteralRanges (S (reparse_depth source)) allow root lower upper source links urls.

Definition bounded_depth (source : jstring) (root : source_node) : Prop :=
  forall n c text, n ∈ nodes root -> c ∈ childrenOf n -> text ∈ reparse_texts source n c ->
    (reparse_depth text < reparse_depth source)%nat.
Definition depth_ok : Prop := forall source, bounded_depth source (sourceParser source).

Lemma each_child_ext visit visit' scans hi lower upper source l cursor :
  (forall c, c ∈ l -> visit c = visit' c) ->
  each_child lower upper source visit scans hi l cursor = each_child lower upper source visit' scans hi l cursor.
Proof.
  revert cursor. induction l as [|c l IH]; intros cursor Hv; cbn [each_child]; [done|].
  rewrite (Hv c) by (by left). rewrite !IH by (intros d Hd; apply Hv; by right). done.
Qed.

Lemma collect_literal_ext reparsed reparsed' lower upper source links allow n :
  (forall m c, m ∈ nodes n -> c ∈ childrenOf m -> reparsed m c = reparsed' m c) ->
  collect_literal reparsed lower upper source links allow n = collect_literal reparsed' lower upper source links allow n.
Proof.
  induction n as [nm a b cs IH] using source_node_nested_ind. intros H. cbn [collect_literal].
  destruct (_ || _); [done|]. destruct (negb _); [done|]. apply each_child_ext. intros c Hc.
  rewrite H by (apply nodes_self || done). destruct (reparsed' _ _); [done|].
  rewrite Forall_forall in IH. apply IH; [done|]. intros m d Hm. apply H, elem_of_nodes. right. by exists c.
Qed.

Lemma reparsed_child_ext f g source links urls allow n c :
  (forall text lower upper links urls, text ∈ reparse_texts source n c ->
     f (sourceParser text) lower upper text links urls = g (sourceParser text) lower upper text links urls) ->
  reparsed_child sourceParser fromMarkdown f source links urls allow n c
  = reparsed_child sourceParser fromMarkdown g source links urls allow n c.
Proof.
  intros H.
  assert (is_named "Blockquote" n && is_named "CodeBlock" c = true ->
    code_ranges sourceParser f source c = code_ranges sourceParser g source c) as Hcode.
  { intros E. unfold code_ranges, reparse. rewrite H; [done|]. unfold reparse_texts. rewrite E. by left. }
  assert ((is_named "LinkReference" n || link_like n) && is_named "LinkLabel" c = true ->
    label_ranges sourceParser f source c = label_ranges sourceParser g source c) as Hlabel.
  { intros E. unfold label_ranges, reparse. rewrite H; [done|]. unfold reparse_texts. rewrite E.
    apply elem_of_app. right. by left. }
  assert (is_named "URL" c = true ->
    rejected_url_ranges sourceParser f source n c = rejected_url_ranges sourceParser g source n c) as Hurl.
  { intros E. unfold rejected_url_ranges, reparse. rewrite H; [done|]. unfold reparse_texts. rewrite E.
    apply elem_of_app. right. apply elem_of_app. right. by left. }
  unfold reparsed_child. destruct (is_named "Blockquote" n && is_named "CodeBlock" c && _) eqn:E1.
  { apply andb_prop in E1 as [E1 _]. by rewrite Hcode. }
  destruct (invalid_reference source n && is_named "LinkLabel" c) eqn:E2.
  { apply andb_prop in E2 as [E2 E3]. apply andb_prop in E2 as [E2 _]. by rewrite Hlabel by (rewrite E2, E3; done). }
  destruct (is_named "URL" c) eqn:E3; [by rewrite Hurl|].
  destruct (unresolved_link links allow n && is_named "LinkLabel" c) eqn:E4; [|done].
  apply andb_prop in E4 as [E4 E5]. apply andb_prop in E4 as [E4 _]. apply andb_prop in E4 as [_ E4].
  rewrite Hlabel; [done|]. rewrite E4, E5, orb_true_r. done.
Qed.

Lemma collectLiteral_fuel n m allow root lower upper source links urls :
  depth_ok -> bounded_depth source root -> (reparse_depth source < n)%nat -> (reparse_depth source < m)%nat ->
  collectLiteralRanges n allow root lower upper source links urls
  = collectLiteralRanges m allow root lower upper source links urls.
Proof.
  intros Hok. revert m allow root lower upper source links urls.
  induction n as [|n IH]; intros m allow root lower upper source links urls Hb Hn Hm; [lia|]. destruct m as [|m]; [lia|].
  cbn [MarkdownTagRanges.collectLiteralRanges]. apply collect_literal_ext. intros nd c Hnd Hc.
  apply reparsed_child_ext. intros text lo hi links' urls' Ht.
  pose proof (Hb nd c text Hnd Hc Ht). apply IH; [apply Hok|lia|lia].
Qed.
End Reparsed.

(** ** The ranges of a state *)

Section State.
Context {host : MarkdownHost} {unicode : HostUnicode}.
Context (sourceParser : jstring -> source_node) (fromMarkdown : jstring -> mdast_node) (reparse_depth : jstring -> nat).
Context (state : EditorState).

(** The cache's entry was made for this state, up to some offset. *)
Definition cache_ok (cached : option ParsedMarkdownContext) : Prop :=
  forall context, cached = Some context -> exists t, context = parsedMarkdownContext sourceParser None state t.

Lemma context_ok cached t :
  cache_ok cached -> exists t', parsedMarkdownContext sourceParser cached state t = parsedMarkdownContext sourceParser None state t'.
Proof.
  intros Hok. destruct cached as [context|]; [|by exists t]. destruct (Hok context eq_refl) as [t' E].
  unfold parsedMarkdownContext at 1. destruct (_ <=? _)%nat; [by exists t'|by exists t].
Qed.

(** The literal text of a context: what the walk exposes, less the decoded spellings,
    the addresses and the written URLs. *)
Definition literal_text (context : ParsedMarkdownContext) (from to i : nat) : Prop :=
  literal_at
    (reparsed_child sourceParser fromMarkdown
       (collectLiteralRanges sourceParser fromMarkdown (reparse_depth (source context)) true)
       (source context) (resolvedLinks context) (writtenURLRanges context) (allowUnresolvedLinks context))
    (source context) (resolvedLinks context) (allowUnresolvedLinks context) (root context) i
  /\ ~ covers (boundary_range <$> findDecodedMarkdownSourceBoundaries (source context) from to) i
  /\ ~ covers (email_range <$> emailRanges context) i
  /\ ~ covers (writtenURLRanges context) i.

Lemma by_from_fmap {A} (f : A -> MarkdownSourceRange) (key : A -> nat) l :
  (forall x, r_from (f x) = key x) -> StronglySorted (fun a b => key a <= key b)%nat l -> by_from (f <$> l).
Proof.
  intros Hf. induction 1 as [|x l _ IH Hall]; [constructor|]. cbn [fmap list_fmap]. constructor; [done|].
  apply Forall_fmap. eapply Forall_impl; [exact Hall|]. intros y. cbn. by rewrite !Hf.
Qed.

Lemma spans_by_from {A} (ends : A -> nat * nat) lo l hi :
  spans ends lo l hi -> StronglySorted (fun a b => (ends a).1 <= (ends b).1)%nat l.
Proof.
  revert lo. induction l as [|x l IH]; intros lo; [constructor|]. intros [H1 H2]. constructor; [by eapply IH|].
  rewrite Forall_forall. intros y Hy. eapply spans_In in H2; [|done]. lia.
Qed.

Lemma context_ranges_covers context from to t :
  context = parsedMarkdownContext sourceParser None state t -> units (doc state) -> (from <= to)%nat ->
  well_nested (root context) ->
  let ranges := context_ranges sourceParser fromMarkdown reparse_depth context from to in
  separated ranges /\ forall i, covers ranges i <-> (from <= i < to)%nat /\ literal_text context from to i.
Proof.
  intros Hc Hu Hle Hw. cbn zeta. unfold context_ranges.
  assert (by_from (boundary_range <$> findDecodedMarkdownSourceBoundaries (source context) from to)) as Hb.
  { subst context. destruct (boundaries_scanned (doc state) to from Hu Hle) as (cursor & _ & _ & (hi & Hs & _) & _).
    eapply (by_from_fmap _ (fun b => (boundary_ends b).1)); [done|]. by eapply spans_by_from. }
  assert (by_from (email_range <$> emailRanges context)) as He.
  { subst context. apply (by_from_fmap _ (fun e => (email_ends e).1)); [done|]. apply sort_by_ends. }
  assert (by_from (writtenURLRanges context)) as Hurl.
  { subst context. apply (sort_by_ends range_ends). }
  edestruct mergeSourceRanges_spec as [H1 H2]; [apply subtractRanges_not_empty|]. split; [exact H1|].
  intros i. rewrite H2, !subtractRanges_covers by done. rewrite collectLiteral_S, collect_literal_covers; [|
    intros n c rs j; apply (reparsed_child_inside sourceParser fromMarkdown)|done].
  unfold literal_text. tauto.
Qed.
End State.

(** *** Tags of a range *)

Definition tag_ends (m : TagMatch) : nat * nat := (tm_from m, tm_to m).

Lemma tag_bound s m i : units s -> scanTagAt s i (length s) = Some m -> (tm_to m <= length s)%nat.
Proof.
  intros Hs H. apply scanTagAt_candidate in H as (_ & _ & (_ & _ & H) & _); [|done].
  induction H as [? ? ? H|? ? ? ? ? _ _ _ IH]; [|done]. apply segment_advances in H; [lia|done].
Qed.

Lemma in_order_spans a ms b hi :
  in_order a ms b -> (a <= hi)%nat -> (forall m, m ∈ ms -> (tm_to m <= hi)%nat) -> spans tag_ends a ms hi.
Proof.
  revert a. induction ms as [|m ms IH]; intros a; cbn [in_order spans]; [done|]. intros [H1 H2] Ha Hm.
  split; [exact H1|]. apply IH; [done|apply Hm; by left|]. intros m' Hm'. apply Hm. by right.
Qed.

Lemma spans_shift d lo ms hi :
  spans tag_ends lo ms hi -> spans tag_ends (d + lo) (shift_tag d <$> ms) (d + hi).
Proof.
  revert lo. induction ms as [|m ms IH]; intros lo; cbn [spans fmap list_fmap]; [lia|].
  intros [H1 H2%IH]. cbn in *. split; [lia|done].
Qed.

Lemma spans_app {A} (ends : A -> nat * nat) lo l1 mid l2 hi :
  spans ends lo l1 mid -> spans ends mid l2 hi -> spans ends lo (l1 ++ l2) hi.
Proof.
  revert lo. induction l1 as [|x l1 IH]; intros lo; cbn [app spans].
  - intros H1 H2. destruct l2 as [|y l2]; cbn [spans] in *; [lia|]. split; [lia|apply H2].
  - intros [H1 H2] H3. split; [done|]. by apply IH.
Qed.

(** The tag [m] starts at its offset in the text of a range. *)
Definition tag_in (text : jstring) (range : MarkdownSourceRange) (m : TagMatch) : Prop :=
  let run := slice text (r_from range) (r_to range) in
  exists i, scanTagAt run i (length run)
            = Some {| tm_from := i; tm_to := tm_to m - r_from range; tm_source := tm_source m; tm_value := tm_value m |}
         /\ tm_from m = (r_from range + i)%nat /\ (r_from range <= tm_to m <= r_to range)%nat.

Lemma units_slice s a b : units s -> units (slice s a b).
Proof. intros H. unfold units, slice. by apply Forall_take, Forall_drop. Qed.

Lemma range_tags_spec text range :
  units text -> not_empty range ->
  spans tag_ends (r_from range) (range_tags text range) (r_to range)
  /\ forall m, m ∈ range_tags text range <-> tag_in text range m.
Proof.
  intros Hu Hne. unfold range_tags, tag_in. unfold not_empty in Hne.
  set (run := slice text (r_from range) (r_to range)).
  assert (units run) as Hr by by apply units_slice.
  pose proof (length_slice text (r_from range) (r_to range)) as Hlen. fold run in Hlen.
  destruct (findTagMatches_enumerated run Hr 0) as (e & He & Ho & Hm). cbn [fst snd] in Hm.
  assert (forall m, m ∈ findTagMatches run 0 (length run) -> (tm_to m <= length run)%nat) as Hb.
  { intros m [_ H]%Hm. by eapply tag_bound. }
  split.
  - eapply in_order_spans in Ho; [|apply (Nat.le_0_l (length run))|done].
    apply (spans_shift (r_from range)) in Ho. rewrite Nat.add_0_r in Ho. eapply spans_le; [exact Ho|lia].
  - intros m. rewrite list_elem_of_fmap. split.
    + intros (m0 & -> & H). pose proof (Hb m0 H). apply Hm in H as [_ H].
      pose proof (scanTagAt_candidate run Hr _ _ H) as (_ & _ & _ & Hlt).
      exists (tm_from m0). cbn. rewrite H. split; [|lia]. f_equal. destruct m0. cbn. f_equal. lia.
    + intros (i & H & Hf & Ht).
      exists {| tm_from := i; tm_to := tm_to m - r_from range; tm_source := tm_source m; tm_value := tm_value m |}. split.
      * destruct m. cbn in *. unfold shift_tag. cbn. f_equal; lia.
      * apply Hm. cbn [tm_from]. split; [|exact H]. apply scanTagAt_introducer in H as [H _].
        apply lookup_lt_Some in H. lia.
Qed.

Lemma ranges_tags_spans text rs lo hi :
  units text -> separated rs -> (lo <= hi)%nat -> (forall r, r ∈ rs -> (lo <= r_from r)%nat /\ (r_to r <= hi)%nat) ->
  spans tag_ends lo (rs ≫= range_tags text) hi.
Proof.
  intros Hu [Hne Hs]. revert lo. induction Hs as [|r rs Hs IH Hall]; intros lo Hle Hr; [done|].
  apply Forall_cons in Hne as [Hr1 Hne]. cbn [mbind list_bind].
  pose proof (Hr r ltac:(by left)) as [Hlo Hhi]. destruct (range_tags_spec text r Hu Hr1) as [Hsp _].
  apply spans_app with (mid := r_to r).
  - destruct (range_tags text r) as [|m ms]; cbn [spans] in *; unfold not_empty in *; [lia|]. split; [lia|apply Hsp].
  - apply IH; [done|done|]. intros r' Hr'. split; [|apply Hr; by right]. rewrite Forall_forall in Hall.
    specialize (Hall r' Hr'). lia.
Qed.

(** *** Opaque syntax *)

Section Opaque.
Context {host : MarkdownHost}.
Context (reparsed : source_node -> source_node -> option (list MarkdownSourceRange)).
Context (source : jstring) (links : list MarkdownSourceRange) (allow : bool).
Hypothesis reparsed_inside : forall n c ranges i, reparsed n c = Some ranges -> covers ranges i -> inside c i.

(** The nodes the walk comes to: the root, and the children of those it exposes. *)
Inductive reached (root : source_node) : source_node -> Prop :=
| reached_root : reached root root
| reached_child n c :
    reached root n -> c ∈ childrenOf n -> undecoded_entity source c = false -> reparsed n c = None -> reached root c.

#[local] Notation literal_at := (literal_at reparsed source links allow).

Lemma ordered_disjoint lo cs hi c d i :
  ordered lo cs hi -> c ∈ cs -> d ∈ cs -> inside c i -> inside d i -> c = d.
Proof.
  revert lo. induction cs as [|e cs IH]; intros lo; [intros _ H; inversion H|]. unfold inside in *.
  intros [H1 H2] [->|Hc]%elem_of_cons [->|Hd]%elem_of_cons Hi Hj; [done|..|by eapply IH].
  - pose proof (ordered_In _ _ _ d H2 Hd). lia.
  - pose proof (ordered_In _ _ _ c H2 Hc). lia.
Qed.

Lemma literal_down n c i :
  well_nested n -> c ∈ childrenOf n -> undecoded_entity source c = false -> reparsed n c = None -> inside c i ->
  literal_at n i -> literal_at c i.
Proof.
  intros Hw Hc Hu Hr Hi (_ & [(_ & _ & H)|(d & Hd & Hl)])%literal_at_unfold.
  - rewrite (H c Hc Hi) in Hu. done.
  - pose proof (child_literal_inside reparsed source links allow reparsed_inside n d i Hw Hd Hl) as Hj.
    assert (c = d) as <- by (eapply ordered_disjoint; [apply (Hw n (nodes_self n))|done..]).
    destruct Hl as [_ Hl]. by rewrite Hr in Hl.
Qed.

Lemma reached_literal root n i :
  well_nested root -> reached root n -> well_nested n /\ (inside n i -> literal_at root i -> literal_at n i).
Proof.
  intros Hw. induction 1 as [|n c H [IH1 IH2] Hc Hu Hr]; [done|].
  split; [by eapply well_nested_child|]. intros Hi Hl. eapply literal_down; [done..|]. apply IH2; [|done].
  pose proof (ordered_In _ _ _ c (IH1 n (nodes_self n)) Hc). unfold inside in *. lia.
Qed.
End Opaque.

(** ** Properties *)

Section TagRangeProperties.
Context {host : MarkdownHost} {unicode : HostUnicode}.
Context (sourceParser : jstring -> source_node) (fromMarkdown : jstring -> mdast_node) (reparse_depth : jstring -> nat).

#[local] Notation reparsed context := (reparsed_child sourceParser fromMarkdown
  (collectLiteralRanges sourceParser fromMarkdown (reparse_depth (source context)) true)
  (source context) (resolvedLinks context) (writtenURLRanges context) (allowUnresolvedLinks context)).

(** The one-entry cache of the code blocks is not observable: whatever source it was
    last asked about, the answer is the one computed afresh, and the entry left is the
    right one for its source. *)
Theorem code_cache_transparent (cache : option (jstring * list MarkdownSourceRange)) (source : jstring) (node : source_node)
    (Hc : match cache with Some (s, ranges) => ranges = collectRanges (fromMarkdown s) | None => True end) :
  canonicalSourceKeepsCodeOpaque fromMarkdown cache source node
  = ((source, collectRanges (fromMarkdown source)), code_opaque fromMarkdown source node).
Proof.
  unfold canonicalSourceKeepsCodeOpaque, code_opaque, js_eqb. destruct cache as [[s ranges]|]; [|done].
  case_bool_decide; [|done]. by subst.
Qed.

(** The walk terminates although it parses labels, rejected URLs and code blocks
    again, inside what it parsed again: when the depth to which the parser nests such
    texts is bounded, fuel above the bound is never used up, and the walk is the
    function that calls itself on every such text. *)
Theorem literal_walk_terminates (allow : bool) (root : source_node) (lower upper : nat) (source : jstring)
    (links urls : list MarkdownSourceRange)
    (Hok : depth_ok sourceParser reparse_depth) (Hr : bounded_depth reparse_depth source root) :
  let total := total_walk sourceParser fromMarkdown reparse_depth in
  total allow root lower upper source links urls
  = collect_literal (reparsed_child sourceParser fromMarkdown (total true) source links urls allow)
      lower upper source links allow root.
Proof.
  cbn zeta. unfold total_walk at 1. rewrite collectLiteral_S. apply collect_literal_ext. intros n c Hn Hc.
  apply reparsed_child_ext. intros text lo hi links' urls' Ht. pose proof (Hr n c text Hn Hc Ht).
  apply collectLiteral_fuel with (reparse_depth := reparse_depth); [done|apply Hok|lia|lia].
Qed.

(** C34. The literal ranges of an interval of a document are exact, whatever offset the
    state's context was cached for: they cover exactly the offsets of the interval that
    the tree exposes as text and that no decoded spelling, email address or written URL
    contains, and they are as long as can be, not empty and with a gap between each and
    the next. *)
Theorem literal_ranges_exact (state : EditorState) (cached : option ParsedMarkdownContext) (from to : nat)
    (Hu : units (doc state)) (Hle : (from <= to)%nat) (Hc : cache_ok sourceParser state cached)
    (Hw : well_nested (root (parsedMarkdownContext sourceParser cached state to))) :
  let context := parsedMarkdownContext sourceParser cached state to in
  let ranges := literalMarkdownSourceRanges sourceParser fromMarkdown reparse_depth cached state from to in
  separated ranges
  /\ forall i, covers ranges i <->
       (from <= i < to)%nat /\ literal_text sourceParser fromMarkdown reparse_depth context from to i.
Proof.
  destruct (context_ok sourceParser state cached to Hc) as [t Ht].
  apply (context_ranges_covers sourceParser fromMarkdown reparse_depth state _ from to t Ht Hu Hle Hw).
Qed.

(** C2. The tags of an interval are exactly those the tag grammar finds in the runs of
    literal text: in the order of the document without overlap, each the longest match
    at its offset in one of the ranges, and every such match reported; all of a tag is
    literal text of the interval. *)
Theorem markdown_tags_exact (state : EditorState) (cached : option ParsedMarkdownContext) (from to : nat)
    (Hu : units (doc state)) (Hle : (from <= to)%nat) (Hc : cache_ok sourceParser state cached)
    (Hw : well_nested (root (parsedMarkdownContext sourceParser cached state to))) :
  let context := parsedMarkdownContext sourceParser cached state to in
  let ranges := literalMarkdownSourceRanges sourceParser fromMarkdown reparse_depth cached state from to in
  let tags := findMarkdownTagMatches sourceParser fromMarkdown reparse_depth cached state from to in
  spans tag_ends from tags to
  /\ (forall m, m ∈ tags <-> exists range, range ∈ ranges /\ tag_in (doc state) range m)
  /\ (forall m i, m ∈ tags -> (tm_from m <= i < tm_to m)%nat ->
        (from <= i < to)%nat /\ literal_text sourceParser fromMarkdown reparse_depth context from to i).
Proof.
  destruct (context_ok sourceParser state cached to Hc) as [t Ht].
  destruct (context_ranges_covers sourceParser fromMarkdown reparse_depth state _ from to t Ht Hu Hle Hw) as [Hs Hcov].
  cbn zeta. unfold findMarkdownTagMatches, literalMarkdownSourceRanges. pose proof (proj1 Hs) as Hne.
  rewrite Forall_forall in Hne.
  assert (forall m, m ∈ context_ranges sourceParser fromMarkdown reparse_depth
      (parsedMarkdownContext sourceParser cached state to) from to ≫= range_tags (doc state)
    <-> exists range, range ∈ context_ranges sourceParser fromMarkdown reparse_depth
      (parsedMarkdownContext sourceParser cached state to) from to /\ tag_in (doc state) range m) as Htags.
  { intros m. rewrite list_elem_of_bind. split.
    - intros (r & Hm & Hr). exists r. split; [done|]. by apply range_tags_spec; [|apply Hne|].
    - intros (r & Hr & Hm). exists r. split; [|done]. by apply range_tags_spec; [|apply Hne|]. }
  split; [|split; [exact Htags|]].
  - apply ranges_tags_spans; [done..|]. intros r Hr. specialize (Hne r Hr). unfold not_empty in Hne.
    pose proof (proj1 (Hcov (r_from r)) ltac:(exists r; split; [done|lia])) as [H1 _].
    pose proof (proj1 (Hcov (r_to r - 1)%nat) ltac:(exists r; split; [done|lia])) as [H2 _]. lia.
  - intros m i (r & Hr & (j & _ & Hf & Ht'))%Htags Hi. apply Hcov. exists r. split; [done|lia].
Qed.

(** Nothing opaque shows a tag: a node the walk comes to and does not expose, such as
    inline code, mathematics, HTML or a link CommonMark resolves, has no part of a tag
    in it. *)
Theorem opaque_syntax_hides_tags (state : EditorState) (cached : option ParsedMarkdownContext) (from to : nat)
    (m : TagMatch) (n : source_node) (i : nat)
    (Hu : units (doc state)) (Hle : (from <= to)%nat) (Hc : cache_ok sourceParser state cached)
    (Hw : well_nested (root (parsedMarkdownContext sourceParser cached state to)))
    (Hm : m ∈ findMarkdownTagMatches sourceParser fromMarkdown reparse_depth cached state from to)
    (Hi : (tm_from m <= i < tm_to m)%nat) :
  let context := parsedMarkdownContext sourceParser cached state to in
  reached (reparsed context) (source context) (root context) n ->
  exposes (source context) (resolvedLinks context) (allowUnresolvedLinks context) n = false ->
  ~ inside n i.
Proof.
  cbn zeta. intros Hn He Hin. destruct (context_ok sourceParser state cached to Hc) as [t Ht].
  destruct (context_ranges_covers sourceParser fromMarkdown reparse_depth state _ from to t Ht Hu Hle Hw) as [[Hne _] Hcov].
  apply list_elem_of_bind in Hm as (r & Hm & Hr). rewrite Forall_forall in Hne.
  apply range_tags_spec in Hm as (j & _ & Hf & Ht'); [|done|by apply Hne].
  destruct (proj1 (Hcov i) ltac:(exists r; split; [done|lia])) as (_ & Hl & _).
  eapply reached_literal in Hn as [_ H]; [|intros ? ? ? ?; apply reparsed_child_inside|exact Hw].
  apply H in Hl; [|done]. apply literal_at_unfold in Hl as [Hl _]. congruence.
Qed.
End TagRangeProperties.

(** A document with inline code, and a parser that gives every text one paragraph. *)
Definition tags_document : jstring := u "#a `#b` c #d".
Definition tags_code : source_node := SourceNode "InlineCode" 3 7 [SourceNode "CodeMark" 3 4 []; SourceNode "CodeMark" 6 7 []].
Definition tags_tree : source_node := SourceNode "Document" 0 12 [SourceNode "Paragraph" 0 12 [tags_code]].
Definition tags_state : EditorState := {|
  doc := tags_document; ensureSyntaxTree := fun _ => Some tags_tree; syntaxTree := tags_tree;
  syntaxTreeAvailable := true; lineAt_from := fun _ => 0%nat |}.
Definition plain_parser (s : jstring) : source_node :=
  SourceNode "Document" 0 (length s) [SourceNode "Paragraph" 0 (length s) []].
Definition no_mdast (_ : jstring) : mdast_node := MdNode "root" None [].
Definition depth_of_labels (s : jstring) : nat := if js_eqb s label_sample then 1 else 0.

Lemma tags_tree_nested : well_nested tags_tree.
Proof.
  assert (Forall (fun n => ordered (from n) (childrenOf n) (to n)) (nodes tags_tree)) as H
    by (vm_compute; repeat constructor; lia).
  rewrite Forall_forall in H. exact H.
Qed.
Lemma no_cache (state : EditorState) : @cache_ok amp_host ascii_host plain_parser state None.
Proof. intros context H. discriminate H. Qed.

#[local] Notation tags_ranges := (@literalMarkdownSourceRanges amp_host ascii_host plain_parser no_mdast depth_of_labels None tags_state 0 12).
#[local] Notation tags_found := (@findMarkdownTagMatches amp_host ascii_host plain_parser no_mdast depth_of_labels None tags_state 0 12).

Lemma tags_document_units : units (doc tags_state).
Proof. check_units. Qed.

Example literal_ranges_exact_witness :
  tags_ranges = [{| r_from := 0; r_to := 3 |}; {| r_from := 7; r_to := 12 |}] /\ separated tags_ranges.
Proof.
  split; [vm_compute; reflexivity|].
  destruct (literal_ranges_exact (host := amp_host) (unicode := ascii_host) plain_parser no_mdast depth_of_labels
    tags_state None 0 12 tags_document_units ltac:(lia) (no_cache tags_state) tags_tree_nested) as [H _].
  exact H.
Defined.

Example markdown_tags_exact_witness :
  tags_found
  = [{| tm_from := 0; tm_to := 2; tm_source := u "a"; tm_value := u "a" |};
     {| tm_from := 10; tm_to := 12; tm_source := u "d"; tm_value := u "d" |}]
  /\ spans tag_ends 0 tags_found 12.
Proof.
  split; [vm_compute; reflexivity|].
  destruct (markdown_tags_exact (host := amp_host) (unicode := ascii_host) plain_parser no_mdast depth_of_labels
    tags_state None 0 12 tags_document_units ltac:(lia) (no_cache tags_state) tags_tree_nested) as [H _].
  exact H.
Defined.

Example opaque_syntax_hides_tags_witness :
  {| tm_from := 0; tm_to := 2; tm_source := u "a"; tm_value := u "a" |} ∈ tags_found /\ ~ inside tags_code 1.
Proof.
  assert ({| tm_from := 0; tm_to := 2; tm_source := u "a"; tm_value := u "a" |} ∈ tags_found) as Hm
    by (vm_compute; left).
  split; [exact Hm|].
  apply (opaque_syntax_hides_tags (host := amp_host) (unicode := ascii_host) plain_parser no_mdast depth_of_labels
    tags_state None 0 12 _ tags_code 1 tags_document_units ltac:(lia) (no_cache tags_state) tags_tree_nested Hm
    ltac:(cbn; lia)).
  - eapply reached_child with (n := SourceNode "Paragraph" 0 12 [tags_code]); [|left|reflexivity|reflexivity].
    eapply reached_child; [apply reached_root|left|reflexivity|reflexivity].
  - reflexivity.
Defined.

(** The label of an unresolved link is parsed again. *)
Lemma bounded_depth_check depth source root :
  Forall (fun n => Forall (fun c => Forall (fun text => depth text < depth source)%nat (reparse_texts source n c)) (childrenOf n))
    (nodes root) -> bounded_depth depth source root.
Proof.
  intros H n c text Hn Hc Ht. rewrite Forall_forall in H. specialize (H n Hn). rewrite Forall_forall in H.
  specialize (H c Hc). rewrite Forall_forall in H. by apply H.
Qed.

Lemma label_depth_ok : depth_ok label_parser depth_of_labels.
Proof.
  intros s. apply bounded_depth_check. unfold label_parser, js_eqb. case_bool_decide as E; [|repeat constructor].
  subst s. vm_compute. repeat constructor.
Qed.

Example literal_walk_terminates_witness :
  let total := @total_walk amp_host ascii_host label_parser no_mdast depth_of_labels in
  total true (label_parser label_sample) 0%nat 10%nat label_sample [] []
  = [{| r_from := 1; r_to := 2 |}; {| r_from := 4; r_to := 9 |}]
  /\ total true (label_parser label_sample) 0%nat 10%nat label_sample [] []
     = collect_literal (host := amp_host) (@reparsed_child amp_host ascii_host label_parser no_mdast (total true) label_sample [] [] true)
         0 10 label_sample [] true (label_parser label_sample).
Proof.
  cbn zeta. split; [vm_compute; reflexivity|].
  apply (literal_walk_terminates (host := amp_host) (unicode := ascii_host) label_parser no_mdast depth_of_labels
    true (label_parser label_sample) 0 10 label_sample [] [] label_depth_ok (label_depth_ok label_sample)).
Defined.
