(* ===== verification/RemarkContext.v ===== *)
(** * What a memo's source says about its tree

    web/src/utils/remark-plugins/remark-tag.ts, [markdownSourceContext]: the parts of a
    source that are not literal text, its emails, its emphasis and its links, read from
    the tree of Lezer.  The labels of links that resolve to nothing and the addresses that
    are no written URL are parsed again, behind a prefix.  The parsers are parameters. *)

From S2P Require Import Prelude JSString HostUnicode JSRegExp TagGrammar MarkdownSource GFMUrl GFMEmail Mention MarkdownTagRanges.

Inductive source_type := EntityRange | EscapeRange | LineEndingRange | OpaqueRange.
Record SourceRange := { s_from : nat; s_to : nat; s_type : source_type }.
Record EmphasisRange := { m_from : nat; m_to : nat; delimiterWidth : nat }.

#[export] Instance source_type_eq_dec : EqDecision source_type.
Proof. solve_decision. Defined.
#[export] Instance source_span_eq_dec : EqDecision SourceRange.
Proof. solve_decision. Defined.
#[export] Instance emphasis_eq_dec : EqDecision EmphasisRange.
Proof. solve_decision. Defined.
#[export] Instance email_eq_dec : EqDecision GFMEmailSourceRange.
Proof. solve_decision. Defined.

Record MarkdownSourceContext := {
  boundaries : list SourceRange;
  emailRanges : list GFMEmailSourceRange;
  emphasisRanges : list EmphasisRange;
  linkRanges : list MarkdownSourceRange;
  syntaxLinkRanges : list MarkdownSourceRange;
}.
Definition empty_context : MarkdownSourceContext :=
  {| boundaries := []; emailRanges := []; emphasisRanges := []; linkRanges := []; syntaxLinkRanges := [] |}.
(** [push] of each list. *)
Definition push_context (a b : MarkdownSourceContext) : MarkdownSourceContext := {|
  boundaries := boundaries a ++ boundaries b; emailRanges := emailRanges a ++ emailRanges b;
  emphasisRanges := emphasisRanges a ++ emphasisRanges b; linkRanges := linkRanges a ++ linkRanges b;
  syntaxLinkRanges := syntaxLinkRanges a ++ syntaxLinkRanges b |}.

(** [distinctRanges]: the discriminator and the ends are the whole record. *)
Fixpoint distinct_from {A} `{EqDecision A} (seen values : list A) : list A :=
  match values with
  | [] => []
  | v :: values' => if bool_decide (v ∈ seen) then distinct_from seen values' else v :: distinct_from (v :: seen) values'
  end.
Definition distinctRanges {A} `{EqDecision A} (values : list A) : list A := distinct_from [] values.

Definition source_ends (r : SourceRange) : nat * nat := (s_from r, s_to r).
Definition opaque_of (r : MarkdownSourceRange) : SourceRange := {| s_from := r_from r; s_to := r_to r; s_type := OpaqueRange |}.
Definition opaque_at (node : source_node) : SourceRange := {| s_from := from node; s_to := to node; s_type := OpaqueRange |}.
Definition is_opaque (r : SourceRange) : bool := bool_decide (s_type r = OpaqueRange).

Section Context_.
Context {host : MarkdownHost} {unicode : HostUnicode} (sourceParser : jstring -> source_node).

(** ** The nodes of the tree *)

Definition boundaries_of (l : list SourceRange) : MarkdownSourceContext :=
  {| boundaries := l; emailRanges := []; emphasisRanges := []; linkRanges := []; syntaxLinkRanges := [] |}.
Definition link_at (node : source_node) : MarkdownSourceContext := {|
  boundaries := [opaque_at node]; emailRanges := []; emphasisRanges := [];
  linkRanges := [node_range node]; syntaxLinkRanges := [node_range node] |}.
Definition emphasis_at (node : source_node) : MarkdownSourceContext := {|
  boundaries := []; emailRanges := [];
  emphasisRanges := [{| m_from := from node; m_to := to node; delimiterWidth := if is_named "StrongEmphasis" node then 2 else 1 |}];
  linkRanges := []; syntaxLinkRanges := [] |}.

(** [enter]: what a node adds, and whether its children are entered. *)
Definition enter (resolvedLinks : list MarkdownSourceRange) (node : source_node) : MarkdownSourceContext * bool :=
  let is_ n := is_named n node in
  if is_ "Escape" then (boundaries_of [{| s_from := from node; s_to := to node; s_type := EscapeRange |}], false)
  else if is_ "Entity" then (boundaries_of [{| s_from := from node; s_to := to node; s_type := EntityRange |}], false)
  else if is_ "InlineMath" || is_ "BlockMath" || is_ "InlineCode" || is_ "EmphasisMark" then (boundaries_of [opaque_at node], false)
  else if is_ "Emphasis" || is_ "StrongEmphasis" then (emphasis_at node, true)
  else if is_ "Link" || is_ "Image" || is_ "Autolink" then
    if negb (is_ "Autolink") && negb (hasExactMarkdownRange resolvedLinks node) then (empty_context, true) else (link_at node, false)
  else (empty_context, true).
(** [tree.iterate]. *)
Fixpoint iterate (resolvedLinks : list MarkdownSourceRange) (node : source_node) : MarkdownSourceContext :=
  let 'SourceNode n f t children := node in
  let '(added, inside) := enter resolvedLinks (SourceNode n f t children) in
  if inside then foldl push_context added (map (iterate resolvedLinks) children) else added.

(** ** Texts parsed again *)

(** What was found behind a prefix, at the place of the text. *)
Definition in_text (prefix size : nat) (ends : nat * nat) : bool := (prefix <=? ends.1)%nat && (ends.2 <=? prefix + size)%nat.
Definition project (prefix size at_ : nat) (c : MarkdownSourceContext) : MarkdownSourceContext :=
  let move i := (i + at_ - prefix)%nat in
  let kept {A : Type} (ends : A -> nat * nat) (l : list A) := js_filter (fun r => in_text prefix size (ends r)) l in
  {| boundaries := (fun r => {| s_from := move (s_from r); s_to := move (s_to r); s_type := s_type r |}) <$> kept source_ends (boundaries c);
     emailRanges := (fun r => {| e_from := move (e_from r); e_to := move (e_to r); e_value := e_value r |}) <$> kept email_ends (emailRanges c);
     emphasisRanges := (fun r => {| m_from := move (m_from r); m_to := move (m_to r); delimiterWidth := delimiterWidth r |})
                         <$> kept (fun r => (m_from r, m_to r)) (emphasisRanges c);
     linkRanges := (fun r => {| r_from := move (r_from r); r_to := move (r_to r) |}) <$> kept range_ends (linkRanges c);
     syntaxLinkRanges := (fun r => {| r_from := move (r_from r); r_to := move (r_to r) |}) <$> kept range_ends (syntaxLinkRanges c) |}.

Section Nested.
Context (nested : jstring -> MarkdownSourceContext).   (* markdownSourceContext of a text parsed again *)
Context (source : jstring) (resolvedLinks : list MarkdownSourceRange).

(** URLs at the start of a label are the prefix's doing. *)
Definition excludedSyntheticBoundaryURLs (prefix : nat) (c : MarkdownSourceContext) : list (nat * nat) :=
  range_ends <$> js_filter (fun range => (r_from range =? prefix)%nat && negb (bool_decide (range ∈ syntaxLinkRanges c))) (linkRanges c).
Definition without_synthetic (prefix : nat) (c : MarkdownSourceContext) : MarkdownSourceContext :=
  let excluded := excludedSyntheticBoundaryURLs prefix c in
  {| boundaries := js_filter (fun r => negb (bool_decide (source_ends r ∈ excluded))) (boundaries c);
     emailRanges := [];
     emphasisRanges := emphasisRanges c;
     linkRanges := js_filter (fun r => negb (bool_decide (range_ends r ∈ excluded))) (linkRanges c);
     syntaxLinkRanges := syntaxLinkRanges c |}.

Definition unresolvedLinkLike (node : source_node) : bool := link_like node && negb (hasExactMarkdownRange resolvedLinks node).
Definition label_context (child : source_node) : MarkdownSourceContext :=
  if negb (is_named "LinkLabel" child) || (to child - from child <=? 2)%nat then empty_context
  else
    let contentFrom := (from child + 1)%nat in
    let content := slice source contentFrom (to child - 1) in
    let prefix := length REFERENCE_LABEL_PREFIX in
    project prefix (to child - 1 - contentFrom) contentFrom (without_synthetic prefix (nested (REFERENCE_LABEL_PREFIX ++ content))).
(** [projectUnresolvedSecondLabels]. *)
Fixpoint projectUnresolvedSecondLabels (node : source_node) (c : MarkdownSourceContext) : MarkdownSourceContext :=
  let 'SourceNode n f t children := node in
  let c := if unresolvedLinkLike (SourceNode n f t children) then foldl push_context c (map label_context children) else c in
  (fix each (l : list source_node) (c : MarkdownSourceContext) :=
     match l with [] => c | child :: l' => each l' (projectUnresolvedSecondLabels child c) end) children c.

(** The emphasis marks that a rejected URL has in the text of its parent. *)
Definition contextual_marks (parent node : source_node) : list SourceRange :=
  let before := slice source (from parent) (from node) in
  let text := slice source (from node) (to node) in
  if includes text [95] && includes before [95] then
    let contentFrom := (from node - from parent + length REJECTED_URL_PREFIX)%nat in
    (fun mark => {| s_from := from mark + from parent - length REJECTED_URL_PREFIX;
                    s_to := to mark + from parent - length REJECTED_URL_PREFIX; s_type := OpaqueRange |})
      <$> js_filter (fun mark => is_named "EmphasisMark" mark && (contentFrom <=? from mark)%nat)
            (nodes (sourceParser (before ++ REJECTED_URL_PREFIX ++ text)))
  else [].
Definition covered_by {A} (ends : A -> nat * nat) (l : list A) (node : source_node) : bool :=
  existsb (fun r => ((ends r).1 <=? from node)%nat && (to node <=? (ends r).2)%nat) l.
Context (writtenURLRanges : list MarkdownSourceRange).
Definition url_context (parent node : source_node) (c : MarkdownSourceContext) : MarkdownSourceContext :=
  if covered_by range_ends writtenURLRanges node || covered_by email_ends (emailRanges c) node then c
  else
    let text := slice source (from node) (to node) in
    let prefix := length REJECTED_URL_PREFIX in
    push_context
      (push_context c (project prefix (length text) (from node) (nested (REJECTED_URL_PREFIX ++ text))))
      (boundaries_of (contextual_marks parent node)).
(** [projectRejectedURLNodes]. *)
Definition keeps_urls (parent : source_node) : bool :=
  is_named "Autolink" parent || is_named "LinkReference" parent || (link_like parent && hasExactMarkdownRange resolvedLinks parent).
Fixpoint projectRejectedURLNodes (parent : source_node) (c : MarkdownSourceContext) : MarkdownSourceContext :=
  let 'SourceNode n f t children := parent in
  if keeps_urls (SourceNode n f t children) then c
  else
    (fix each (l : list source_node) (c : MarkdownSourceContext) :=
       match l with
       | [] => c
       | node :: l' => each l' (if is_named "URL" node then url_context (SourceNode n f t children) node c else projectRejectedURLNodes node c)
       end) children c.
End Nested.

(** ** The context *)

Definition LINE_ENDING : re := ((char 13 +++ opt (char 10)) ||| char 10)%re.
Definition line_endings (source : jstring) (ranges : list SourceRange) : list SourceRange :=
  js_filter (fun line => negb (existsb (fun range => is_opaque range && (s_from range <? s_to line)%nat && (s_from line <? s_to range)%nat) ranges))
    ((fun m => {| s_from := JSRegExp.m_from m; s_to := JSRegExp.m_to m; s_type := LineEndingRange |}) <$> match_all false LINE_ENDING source).
Definition boundary_of (b : MarkdownSourceBoundary) : SourceRange :=
  {| s_from := b_from b; s_to := b_to b; s_type := match b_type b with Entity => EntityRange | Escape => EscapeRange end |}.
(** The decoded boundaries outside what is opaque. *)
Definition visible_boundaries (source : jstring) (ranges : list SourceRange) : list SourceRange :=
  js_filter (fun b => negb (existsb (fun range => is_opaque range && (s_from range <=? s_from b)%nat && (s_to b <=? s_to range)%nat) ranges))
    (boundary_of <$> findDecodedMarkdownSourceBoundaries source 0 (length source)).
Definition by_length (a b : EmphasisRange) : bool :=
  let width r := (m_to r - m_from r)%nat in
  (width a <? width b)%nat || ((width a =? width b)%nat && (m_from a <=? m_from b)%nat).

Definition build_context (nested : jstring -> MarkdownSourceContext) (source : jstring) : MarkdownSourceContext :=
  let sourceRoot := sourceParser source in
  let resolvedLinks := resolvedMarkdownLinkRanges source sourceRoot in
  let writtenURLRanges := findMarkdownGFMURLRanges source sourceRoot resolvedLinks false in
  let c := {| boundaries := opaque_of <$> writtenURLRanges;
              emailRanges := findMarkdownGFMEmailRanges sourceParser source sourceRoot resolvedLinks true;
              emphasisRanges := []; linkRanges := writtenURLRanges; syntaxLinkRanges := [] |} in
  let c := push_context c (iterate resolvedLinks sourceRoot) in
  let c := push_context c (boundaries_of (visible_boundaries source (boundaries c))) in
  let c := projectUnresolvedSecondLabels nested source resolvedLinks sourceRoot c in
  let c := projectRejectedURLNodes nested source resolvedLinks writtenURLRanges sourceRoot c in
  let c := push_context c (boundaries_of (line_endings source (boundaries c))) in
  {| boundaries := sort_by (ends_leb source_ends) (distinctRanges (boundaries c));
     emailRanges := distinctRanges (emailRanges c);
     emphasisRanges := sort_by by_length (distinctRanges (emphasisRanges c));
     linkRanges := sort_by (ends_leb range_ends) (distinctRanges (linkRanges c));
     syntaxLinkRanges := sort_by (ends_leb range_ends) (distinctRanges (syntaxLinkRanges c)) |}.

(** [markdownSourceContext]; one unit of fuel per text parsed inside a parsed text. *)
Fixpoint context_fuel (fuel : nat) (source : jstring) : MarkdownSourceContext :=
  match fuel with O => empty_context | S fuel' => build_context (context_fuel fuel') source end.

(** How deep texts parsed inside parsed texts nest (see [context_terminates]). *)
Context (reparse_depth : jstring -> nat).
Definition markdownSourceContext (source : jstring) : MarkdownSourceContext := context_fuel (S (reparse_depth source)) source.
End Context_.

(** ** Termination *)

Section Depth.
Context {host : MarkdownHost} {unicode : HostUnicode} (sourceParser : jstring -> source_node) (reparse_depth : jstring -> nat).

(** The texts of a source that may be parsed again. *)
Definition child_texts (source : jstring) (c : source_node) : list jstring :=
  (if is_named "LinkLabel" c then [REFERENCE_LABEL_PREFIX ++ slice source (from c + 1) (to c - 1)] else [])
  ++ (if is_named "URL" c then [REJECTED_URL_PREFIX ++ slice source (from c) (to c)] else []).
Definition nested_texts (source : jstring) : list jstring := nodes (sourceParser source) ≫= child_texts source.
(** The parser bounds how they nest. *)
Definition nesting_bounded : Prop := forall source text, text ∈ nested_texts source -> (reparse_depth text < reparse_depth source)%nat.

Lemma child_text_nested source root c text : c ∈ nodes root -> text ∈ child_texts source c -> text ∈ nodes root ≫= child_texts source.
Proof. intros Hc Ht. apply list_elem_of_bind. by exists c. Qed.

Section Ext.
Context (f g : jstring -> MarkdownSourceContext) (source : jstring).

Lemma label_context_ext c : (forall text, text ∈ child_texts source c -> f text = g text) -> label_context f source c = label_context g source c.
Proof.
  intros H. unfold label_context. destruct (is_named "LinkLabel" c) eqn:E; [|done]. cbn [negb orb].
  destruct (to c - from c <=? 2)%nat; [done|]. rewrite H; [done|]. unfold child_texts. rewrite E. by left.
Qed.
Lemma url_context_ext urls parent c x :
  is_named "URL" c = true -> (forall text, text ∈ child_texts source c -> f text = g text) ->
  url_context sourceParser f source urls parent c x = url_context sourceParser g source urls parent c x.
Proof.
  intros E H. unfold url_context. destruct (_ || _); [done|]. rewrite H; [done|]. unfold child_texts. rewrite E.
  apply elem_of_app. right. by left.
Qed.

Lemma labels_ext links n c :
  (forall m text, m ∈ nodes n -> text ∈ child_texts source m -> f text = g text) ->
  projectUnresolvedSecondLabels f source links n c = projectUnresolvedSecondLabels g source links n c.
Proof.
  revert c. induction n as [nm a b cs IH] using source_node_nested_ind. intros c H. cbn [projectUnresolvedSecondLabels].
  assert (forall d, d ∈ cs -> forall m text, m ∈ nodes d -> text ∈ child_texts source m -> f text = g text) as Hcs.
  { intros d Hd m text Hm. apply H, elem_of_nodes. right. by exists d. }
  assert (map (label_context f source) cs = map (label_context g source) cs) as ->.
  { apply map_ext_in. intros d Hd%list_elem_of_In. apply label_context_ext. intros text. apply (Hcs d Hd), nodes_self. }
  set (c' := if unresolvedLinkLike _ _ then _ else c). clearbody c'. clear c H. revert c'.
  induction IH as [|d cs Hd _ IHcs]; intros c; [done|]. rewrite Hd by (apply Hcs; by left). apply IHcs. intros e He. apply Hcs. by right.
Qed.

Lemma urls_ext links urls n c :
  (forall m text, m ∈ nodes n -> text ∈ child_texts source m -> f text = g text) ->
  projectRejectedURLNodes sourceParser f source links urls n c = projectRejectedURLNodes sourceParser g source links urls n c.
Proof.
  revert c. induction n as [nm a b cs IH] using source_node_nested_ind. intros c H. cbn [projectRejectedURLNodes].
  assert (forall d, d ∈ cs -> forall m text, m ∈ nodes d -> text ∈ child_texts source m -> f text = g text) as Hcs.
  { intros d Hd m text Hm. apply H, elem_of_nodes. right. by exists d. }
  destruct (keeps_urls _ _); [done|]. set (parent := SourceNode nm a b cs). clearbody parent. clear H. revert c.
  induction IH as [|d cs Hd _ IHcs]; intros c; [done|]. destruct (is_named "URL" d) eqn:E.
  - rewrite url_context_ext; [|done|]; [apply IHcs; intros e He; apply Hcs; by right|]. intros text. apply (Hcs d ltac:(by left)), nodes_self.
  - rewrite Hd by (apply Hcs; by left). apply IHcs. intros e He. apply Hcs. by right.
Qed.
End Ext.

Lemma build_context_ext f g source :
  (forall text, text ∈ nested_texts source -> f text = g text) -> build_context sourceParser f source = build_context sourceParser g source.
Proof.
  intros H. unfold build_context. rewrite (labels_ext f g), (urls_ext f g); [done|intros m text Hm Ht; by apply H, (child_text_nested _ _ m)..].
Qed.

Lemma context_fuel_enough a b source :
  nesting_bounded -> (reparse_depth source < a)%nat -> (reparse_depth source < b)%nat ->
  context_fuel sourceParser a source = context_fuel sourceParser b source.
Proof.
  intros Hok. revert b source. induction a as [|a IH]; intros [|b] source Ha Hb; try lia. cbn [context_fuel].
  apply build_context_ext. intros text Ht%Hok. apply IH; lia.
Qed.

(** The context terminates: it is the function that calls itself on every text parsed
    again, when the parser bounds how such texts nest. *)
Theorem context_terminates (source : jstring) (Hok : nesting_bounded) :
  markdownSourceContext sourceParser reparse_depth source = build_context sourceParser (markdownSourceContext sourceParser reparse_depth) source.
Proof.
  unfold markdownSourceContext at 1. cbn [context_fuel]. apply build_context_ext. intros text Ht%Hok.
  apply context_fuel_enough; [done|lia..].
Qed.
End Depth.

(** ** What is syntax is a boundary *)

Section Syntax.
Context (links : list MarkdownSourceRange).

(** A construct whose text is not literal: code, mathematics, an escape, a mark of
    emphasis, and a link or an image that resolves. *)
Definition opaque_construct (n : source_node) : Prop :=
  name n ∈ ["Escape"; "InlineCode"; "InlineMath"; "BlockMath"; "EmphasisMark"; "Autolink"]%string
  \/ name n ∈ ["Link"; "Image"]%string /\ node_range n ∈ links.
(** A node of a tree that is in no construct. *)
Inductive stands : source_node -> source_node -> Prop :=
  | stands_self n : stands n n
  | stands_child n c m : ~ opaque_construct n -> name n <> "Entity"%string -> c ∈ childrenOf n -> stands c m -> stands n m.

Lemma exact_range n : hasExactMarkdownRange links n = true <-> node_range n ∈ links.
Proof.
  unfold hasExactMarkdownRange. rewrite existsb_exists. split.
  - intros ([f t] & Hin%list_elem_of_In & H). cbn in H. apply andb_true_iff in H as [H1%Nat.eqb_eq H2%Nat.eqb_eq]. subst. exact Hin.
  - intros Hin. exists (node_range n). split; [by apply list_elem_of_In|]. cbn. by rewrite !Nat.eqb_refl.
Qed.

Lemma push_all_boundaries c l b :
  b ∈ boundaries (foldl push_context c l) <-> b ∈ boundaries c \/ exists d, d ∈ l /\ b ∈ boundaries d.
Proof.
  revert c. induction l as [|d l IH]; intros c; cbn [foldl].
  - split; [by left|]. intros [?|(d & []%elem_of_nil & _)]. done.
  - rewrite IH. cbn [push_context boundaries]. rewrite elem_of_app. split.
    + intros [[?|?]|(e & He & ?)]; [by left|right; exists d; by split; [left|]|right; exists e; by split; [right|]].
    + intros [?|(e & [->|He]%elem_of_cons & ?)]; [by left; left|by left; right|right; by exists e].
Qed.

Lemma enter_construct n :
  opaque_construct n ->
  exists b, boundaries (fst (enter links n)) = [b] /\ (s_from b, s_to b) = (from n, to n) /\ s_type b <> EntityRange /\ snd (enter links n) = false.
Proof.
  destruct n as [nm f t cs]. unfold opaque_construct. cbn [name]. rewrite <- exact_range, !elem_of_cons, elem_of_nil. unfold enter, is_named. cbn [name].
  intros [H|[H E]]; [|rewrite E]; (repeat destruct H as [->|H]; [..|done]); (eexists; split; [reflexivity|done]).
Qed.
Lemma enter_inside n : ~ opaque_construct n -> name n <> "Entity"%string -> snd (enter links n) = true.
Proof.
  destruct n as [nm f t cs]. unfold opaque_construct. cbn [name]. rewrite <- exact_range, !elem_of_cons, elem_of_nil. unfold enter, is_named. cbn [name].
  intros H1 H2. repeat (case_bool_decide; cbn [orb andb negb]; [subst; exfalso; by intuition|]).
  case_bool_decide; cbn [orb]; [done|]. case_bool_decide; cbn [orb]; [done|].
  repeat (case_bool_decide; cbn [orb andb negb]; [subst; destruct (hasExactMarkdownRange links _); [exfalso; by intuition|done]|]).
  case_bool_decide; [subst; exfalso; by intuition|done].
Qed.

Lemma iterate_construct root n :
  stands root n -> opaque_construct n ->
  exists b, b ∈ boundaries (iterate links root) /\ (s_from b, s_to b) = (from n, to n) /\ s_type b <> EntityRange.
Proof.
  intros Hs Hn. induction Hs as [[nm f t cs]|[nm f t cs] c m Hopen He Hc _ IH].
  - destruct (enter_construct _ Hn) as (b & Hb & Hends & Htype & Hin). exists b. split; [|done].
    cbn [iterate]. destruct (enter links (SourceNode nm f t cs)) as [added inside]. cbn [fst snd] in *. subst inside. rewrite Hb. by left.
  - destruct (IH Hn) as (b & Hb & Hrest). exists b. split; [|done]. cbn [iterate]. pose proof (enter_inside _ Hopen He) as Hin.
    destruct (enter links (SourceNode nm f t cs)) as [added inside]. cbn [snd] in Hin. subst inside.
    apply push_all_boundaries. right. exists (iterate links c). split; [|done]. apply list_elem_of_In, in_map. by apply list_elem_of_In.
Qed.
End Syntax.

Section Kept.
Context {host : MarkdownHost} {unicode : HostUnicode} (sourceParser : jstring -> source_node).
Context (nested : jstring -> MarkdownSourceContext) (source : jstring) (links urls : list MarkdownSourceRange).

Lemma labels_keep n c b : b ∈ boundaries c -> b ∈ boundaries (projectUnresolvedSecondLabels nested source links n c).
Proof.
  revert c. induction n as [nm f t cs IH] using source_node_nested_ind. intros c Hb. cbn [projectUnresolvedSecondLabels].
  assert (b ∈ boundaries (if unresolvedLinkLike links (SourceNode nm f t cs) then foldl push_context c (map (label_context nested source) cs) else c)) as Hb'.
  { destruct (unresolvedLinkLike _ _); [|done]. apply push_all_boundaries. by left. }
  revert Hb'. generalize (if unresolvedLinkLike links (SourceNode nm f t cs) then foldl push_context c (map (label_context nested source) cs) else c).
  clear c Hb. induction IH as [|d cs' Hd _ IHcs]; intros c Hb; [done|]. by apply IHcs, Hd.
Qed.
Lemma urls_keep n c b : b ∈ boundaries c -> b ∈ boundaries (projectRejectedURLNodes sourceParser nested source links urls n c).
Proof.
  revert c. induction n as [nm f t cs IH] using source_node_nested_ind. intros c Hb. cbn [projectRejectedURLNodes].
  destruct (keeps_urls _ _); [done|]. generalize (SourceNode nm f t cs) as parent. intros parent. revert c Hb.
  induction IH as [|d cs' Hd _ IHcs]; intros c Hb; [done|]. apply IHcs. destruct (is_named "URL" d); [|by apply Hd].
  unfold url_context. destruct (_ || _); [done|]. cbn [push_context boundaries]. rewrite !elem_of_app. tauto.
Qed.
End Kept.

Lemma elem_of_distinctRanges {A} `{EqDecision A} (l : list A) x : x ∈ l -> x ∈ distinctRanges l.
Proof.
  unfold distinctRanges. assert (forall seen, x ∈ l -> x ∉ seen -> x ∈ distinct_from seen l) as H; [|intros Hx; apply H; [done|by intros ?%elem_of_nil]].
  induction l as [|y l IH]; intros seen; cbn [distinct_from]; [by intros ?%elem_of_nil|].
  intros [->|Hx]%elem_of_cons Hs.
  - rewrite bool_decide_eq_false_2 by done. by left.
  - case_bool_decide; [by apply IH|]. destruct (decide (x = y)) as [->|Hne]; [by left|]. right. apply IH; [done|].
    intros [?|?]%elem_of_cons; done.
Qed.

(** Every construct that the parser finds, and every written URL, is a boundary of the context. *)
Lemma constructs_are_boundaries `{host : MarkdownHost} `{unicode : HostUnicode} sourceParser reparse_depth source n :
  let links := resolvedMarkdownLinkRanges source (sourceParser source) in
  stands links (sourceParser source) n -> opaque_construct links n ->
  exists b, b ∈ boundaries (markdownSourceContext sourceParser reparse_depth source)
    /\ (s_from b, s_to b) = (from n, to n) /\ s_type b <> EntityRange.
Proof.
  intros links Hs Hn. destruct (iterate_construct links _ n Hs Hn) as (b & Hb & Hrest). exists b. split; [|done].
  unfold markdownSourceContext. cbn [context_fuel]. unfold build_context. cbn [boundaries].
  apply elem_of_sort_by, elem_of_distinctRanges. cbn [push_context boundaries]. apply elem_of_app. left.
  apply urls_keep, labels_keep. cbn [push_context boundaries]. apply elem_of_app. left. apply elem_of_app. by right.
Qed.
Lemma urls_are_boundaries `{host : MarkdownHost} `{unicode : HostUnicode} sourceParser reparse_depth source range :
  let root := sourceParser source in
  range ∈ findMarkdownGFMURLRanges source root (resolvedMarkdownLinkRanges source root) false ->
  opaque_of range ∈ boundaries (markdownSourceContext sourceParser reparse_depth source).
Proof.
  intros root Hr. unfold markdownSourceContext. cbn [context_fuel]. unfold build_context. cbn [boundaries].
  apply elem_of_sort_by, elem_of_distinctRanges. cbn [push_context boundaries]. apply elem_of_app. left.
  apply urls_keep, labels_keep. cbn [push_context boundaries]. apply elem_of_app. left. apply elem_of_app. left.
  apply list_elem_of_fmap. by exists range.
Qed.
