(* ===== verification/RemarkTag.v ===== *)
(** * Tags and mentions in the rendered tree

    web/src/utils/remark-plugins/remark-tag.ts: the tree of remark is reconciled with the
    source it came from, and the tags and mentions in its literal text become nodes.  The
    source's own reading is RemarkContext's; a text node is aligned with the parts of the
    source that are literal, and only these are scanned.  The position of a node, or the
    one recovered for it in the weak map, is its span. *)

From S2P Require Import Prelude JSString HostUnicode JSRegExp TagGrammar MarkdownSource GFMUrl GFMEmail Mention MarkdownTagRanges RemarkContext.

Record SourceSpan := { sp_from : nat; sp_to : nat }.

Inductive mnode :=
  | TextNode (value : jstring) (span : option SourceSpan)
  | LinkNode (url : jstring) (span : option SourceSpan) (children : list mnode)
  | ParentNode (type : string) (span : option SourceSpan) (other : Z) (children : list mnode)
  | LeafNode (type : string) (span : option SourceSpan) (other : Z)
  | TagNode (value source : jstring)
  | MentionNode (value source : jstring).

(** [nodeSpan]. *)
Definition nodeSpan (n : mnode) : option SourceSpan :=
  match n with
  | TextNode _ s | LinkNode _ s _ | ParentNode _ s _ _ | LeafNode _ s _ => s
  | TagNode _ _ | MentionNode _ _ => None
  end.
Definition TRANSPARENT_PARENT_TYPES : list string :=
  ["blockquote"; "delete"; "emphasis"; "heading"; "list"; "listItem"; "paragraph"; "root"; "strong"; "table"; "tableCell"; "tableRow"]%string.

Section Tag.
Context {host : MarkdownHost}.

(** ** Literal runs *)

Record LiteralRun := { run_source : jstring; sourceFrom : nat; valueFrom : nat }.
(** The state of the loop over the boundaries. *)
Record alignment := { sourceCursor : nat; valueCursor : nat; maySkipContainerPrefix : bool; runs : list LiteralRun }.

Definition line_ending_at_start (s : jstring) : jstring :=
  match s with
  | [] => []
  | c :: s' =>
      if c =? 13 then match s' with d :: _ => if d =? 10 then [13; 10] else [13] | [] => [13] end
      else if c =? 10 then [10] else []
  end.
Definition decodeBoundary (spelling : jstring) (type : source_type) : jstring :=
  match type with
  | LineEndingRange => match line_ending_at_start spelling with [] => [] | _ => [10] end
  | _ => replace_nul (decodeString spelling)
  end.

Section Runs.
Context (value source : jstring).

Definition is_blank (c : Z) : bool := (c =? 32) || (c =? 9).
(** Whether the source from [a] to [b] is the value at the cursor. *)
Definition aligned (st : alignment) (a b : nat) : bool := starts_with_at value (replace_nul (slice source a b)) (valueCursor st).
Definition accept_run (st : alignment) (a b : nat) : alignment :=
  let runSource := slice source a b in
  {| sourceCursor := sourceCursor st; valueCursor := (valueCursor st + length (replace_nul runSource))%nat; maySkipContainerPrefix := false;
     runs := match runSource with [] => runs st | _ => runs st ++ [{| run_source := runSource; sourceFrom := a; valueFrom := valueCursor st |}] end |}.
(** The end without trailing blanks; [n] is how many units there are. *)
Fixpoint trimmed_end (n runStart : nat) : nat :=
  match n with
  | O => runStart
  | S n' => if match source !! (runStart + n')%nat with Some c => is_blank c | None => false end then trimmed_end n' runStart else (runStart + n)%nat
  end.
(** The first start behind blanks and quote marks at which the source is the value. *)
Fixpoint skipped_start (st : alignment) (n runStart runEnd : nat) : option nat :=
  match n with
  | O => None
  | S n' =>
      if match source !! runStart with Some c => is_blank c || (c =? 62) | None => false end then
        if aligned st (S runStart) runEnd then Some (S runStart) else skipped_start st n' (S runStart) runEnd
      else None
  end.
Definition addRun (st : alignment) (runEnd : nat) (mayOmitTrailingWhitespace : bool) : option alignment :=
  let runStart := sourceCursor st in
  if (runEnd <=? runStart)%nat || (length source <=? runStart)%nat then Some st
  else if aligned st runStart runEnd then Some (accept_run st runStart runEnd)
  else
    let trimmedEnd := trimmed_end (runEnd - runStart) runStart in
    if mayOmitTrailingWhitespace && aligned st runStart trimmedEnd then Some (accept_run st runStart trimmedEnd)
    else if negb (maySkipContainerPrefix st) then None
    else
      match skipped_start st (runEnd - runStart) runStart runEnd with
      | Some a => Some (accept_run st a runEnd)
      | None => None
      end.

Definition at_source (a : nat) (st : alignment) : alignment :=
  {| sourceCursor := a; valueCursor := valueCursor st; maySkipContainerPrefix := maySkipContainerPrefix st; runs := runs st |}.
Definition at_value (a : nat) (st : alignment) : alignment :=
  {| sourceCursor := sourceCursor st; valueCursor := a; maySkipContainerPrefix := maySkipContainerPrefix st; runs := runs st |}.
Definition may_skip (st : alignment) : alignment :=
  {| sourceCursor := sourceCursor st; valueCursor := valueCursor st; maySkipContainerPrefix := true; runs := runs st |}.

(** After the text before a boundary, the boundary. *)
Definition pass_line_ending (boundarySource : jstring) (st : alignment) : option alignment :=
  match line_ending_at_start boundarySource with
  | [] => Some (may_skip st)
  | rawLineEnding =>
      if starts_with_at value rawLineEnding (valueCursor st) then Some (may_skip (at_value (valueCursor st + length rawLineEnding) st))
      else if starts_with_at value [10] (valueCursor st) then Some (may_skip (at_value (valueCursor st + 1) st))
      else None
  end.
Definition pass_spelling (boundarySource decodedBoundary : jstring) (st : alignment) : option alignment :=
  let rawBoundary := replace_nul boundarySource in
  if starts_with_at value rawBoundary (valueCursor st) then Some (at_value (valueCursor st + length rawBoundary) st)
  else if starts_with_at value decodedBoundary (valueCursor st) then Some (at_value (valueCursor st + length decodedBoundary) st)
  else None.
Definition pass_boundary (start stop : nat) (st : alignment) (boundary : SourceRange) : option alignment :=
  let boundaryFrom := Nat.max (s_from boundary) start in
  let boundaryTo := Nat.min (s_to boundary) stop in
  if (boundaryTo <=? boundaryFrom)%nat then Some st
  else
    let fullBoundarySource := slice source (s_from boundary) (s_to boundary) in
    if bool_decide (s_type boundary = EntityRange)
       && js_eqb (decodeBoundary fullBoundarySource (s_type boundary)) fullBoundarySource then Some st
    else
      let boundarySource := slice source boundaryFrom boundaryTo in
      let is_line := bool_decide (s_type boundary = LineEndingRange) in
      st ← addRun st boundaryFrom is_line;
      let st := at_source boundaryTo st in
      if is_line then pass_line_ending boundarySource st
      else pass_spelling boundarySource (decodeBoundary boundarySource (s_type boundary)) st.
Fixpoint pass_boundaries (start stop : nat) (l : list SourceRange) (st : alignment) : option alignment :=
  match l with [] => Some st | boundary :: l' => st ← pass_boundary start stop st boundary; pass_boundaries start stop l' st end.
Definition literalRunsForTextNode (span : option SourceSpan) (boundaries : list SourceRange) : option (list LiteralRun) :=
  s ← span;
  st ← pass_boundaries (sp_from s) (sp_to s) boundaries
         {| sourceCursor := sp_from s; valueCursor := 0; maySkipContainerPrefix := false; runs := [] |};
  runs <$> addRun st (sp_to s) false.
End Runs.

(** ** Segments *)

Inductive Segment := TextSegment (value : jstring) | TagSegment (source value : jstring) | MentionSegment (source value : jstring).
Record text_match := { tx_from : nat; tx_to : nat; tx_segment : Segment }.
Definition match_ends (m : text_match) : nat * nat := (tx_from m, tx_to m).

Definition run_tags (r : LiteralRun) : list text_match :=
  (fun m => {| tx_from := valueFrom r + tm_from m; tx_to := valueFrom r + tm_to m;
               tx_segment := TagSegment (slice (run_source r) (tm_from m) (tm_to m)) (tm_value m) |})
    <$> findTagMatches (run_source r) 0 (length (run_source r)).
Definition run_mentions (source : jstring) (r : LiteralRun) : list text_match :=
  (fun m => {| tx_from := valueFrom r + mm_from m; tx_to := valueFrom r + mm_to m;
               tx_segment := MentionSegment (slice (run_source r) (mm_from m) (mm_to m)) (mm_username m) |})
    <$> findMentionMatches (run_source r)
          ((sourceFrom r =? 0)%nat || negb (isUsernameCharacter (option_list (source !! (sourceFrom r - 1)%nat)))).
Definition run_matches (source : jstring) (l : list LiteralRun) : list text_match :=
  sort_by (ends_leb match_ends) (l ≫= fun r => run_tags r ++ run_mentions source r).

Definition text_segment (value : jstring) (a b : nat) : list Segment := if (a <? b)%nat then [TextSegment (slice value a b)] else [].
Fixpoint cut (value : jstring) (cursor : nat) (l : list text_match) : list Segment :=
  match l with
  | [] => if (cursor <? length value)%nat then [TextSegment (slice_from value cursor)] else []
  | m :: l' =>
      if (tx_from m <? cursor)%nat then cut value cursor l'
      else text_segment value cursor (tx_from m) ++ tx_segment m :: cut value (tx_to m) l'
  end.
Definition segmentsForTextNode (value : jstring) (span : option SourceSpan) (source : jstring) (boundaries : list SourceRange)
    : option (list Segment) :=
  l ← literalRunsForTextNode value source span boundaries;
  match run_matches source l with
  | [] => Some [TextSegment value]
  | matches => Some (cut value 0 matches)
  end.

Definition segment_node (s : Segment) : mnode :=
  match s with
  | TextSegment value => TextNode value None
  | TagSegment source value => TagNode value source
  | MentionSegment source value => MentionNode value source
  end.
Definition is_text_segment (s : Segment) : bool := match s with TextSegment _ => true | _ => false end.
(** What a text node becomes. *)
Definition text_nodes (source : jstring) (boundaries : list SourceRange) (value : jstring) (span : option SourceSpan) : list mnode :=
  match segmentsForTextNode value span source boundaries with
  | None => [TextNode value span]
  | Some segments => if forallb is_text_segment segments then [TextNode value span] else segment_node <$> segments
  end.
Definition transparent (type : string) : bool := bool_decide (type ∈ TRANSPARENT_PARENT_TYPES).
(** [transformMemoTextNodes], of a child. *)
Fixpoint transform_child (source : jstring) (boundaries : list SourceRange) (n : mnode) : list mnode :=
  match n with
  | TextNode value span => text_nodes source boundaries value span
  | ParentNode type span other children =>
      if transparent type then [ParentNode type span other (children ≫= transform_child source boundaries)] else [n]
  | _ => [n]
  end.

(** ** Reconciling the tree with the source *)

Section Reconcile.
Context (source : jstring) (context : MarkdownSourceContext).

Definition isCoveredBySourceRange (span : option SourceSpan) (ranges : list MarkdownSourceRange) : bool :=
  match span with
  | Some s => existsb (fun range => (r_from range <=? sp_from s)%nat && (sp_to s <=? r_to range)%nat) ranges
  | None => false
  end.
Definition isLiteralEmailLink (url : jstring) (span : option SourceSpan) : bool :=
  starts_with url (u "mailto:") && negb (isCoveredBySourceRange span (syntaxLinkRanges context)).
Definition decodedMarkdownText (s : jstring) : jstring := replace_nul (decodeString s).
(** The text node of a part of the source. *)
Definition source_text (a b : nat) : mnode := TextNode (decodedMarkdownText (slice source a b)) (Some {| sp_from := a; sp_to := b |}).

(** [mergeAdjacentTextNodes]: two neighbours, and the list from one on. *)
Definition merge_two (first second : mnode) : option mnode :=
  match first, second with
  | TextNode _ (Some l), TextNode _ (Some r) => if (sp_to l =? sp_from r)%nat then Some (source_text (sp_from l) (sp_to r)) else None
  | _, _ => None
  end.
Fixpoint merge_from (first : mnode) (l : list mnode) : list mnode :=
  match l with
  | [] => [first]
  | second :: l' => match merge_two first second with Some merged => merge_from merged l' | None => first :: merge_from second l' end
  end.
Definition mergeAdjacentTextNodes (children : list mnode) : list mnode :=
  match children with [] => [] | first :: l => merge_from first l end.

(** [decodedSourceProjection]. *)
Record projection := { p_text : jstring; p_starts : list nat; p_ends : list nat }.
Definition project_token (raw decoded : jstring) (tokenFrom tokenTo : nat) (p : projection) : projection :=
  let normalized := replace_nul decoded in
  let same := (length raw =? length normalized)%nat in
  let indexes := seq 0 (length normalized) in
  {| p_text := p_text p ++ normalized;
     p_starts := p_starts p ++ ((fun i => if same then (tokenFrom + i)%nat else tokenFrom) <$> indexes);
     p_ends := p_ends p ++ ((fun i => if same then (tokenFrom + i + 1)%nat else tokenTo) <$> indexes) |}.
Definition projection_body (to : nat) (st : nat * projection) : option (nat * projection) :=
  let '(cursor, p) := st in
  if (cursor <? to)%nat then
    let raw2 := slice source cursor (cursor + 2) in
    let decoded := decodeString raw2 in
    if bool_decide (source !! cursor = Some 92) && (cursor + 1 <? to)%nat && negb (js_eqb decoded raw2)
    then Some ((cursor + 2)%nat, project_token raw2 decoded cursor (cursor + 2) p)
    else
      match decodedMarkdownCharacterReferenceAt source cursor to with
      | Some (reference_to, text) => Some (reference_to, project_token (slice source cursor reference_to) text cursor reference_to p)
      | None =>
          let size := match code_point_at source cursor with Some c => if c >? 0xFFFF then 2%nat else 1%nat | None => 1%nat end in
          let raw := slice source cursor (Nat.min to (cursor + size)) in
          Some ((cursor + length raw)%nat, project_token raw raw cursor (cursor + length raw) p)
      end
  else None.
Definition decodedSourceProjection (from_ to_ : nat) : projection :=
  snd (while_m (fun st : nat * projection => to_ - fst st)%nat (projection_body to_) (from_, {| p_text := []; p_starts := []; p_ends := [] |})).

(** [recoverTextSpans]. *)
Definition projected_span (p : projection) (lowerBound index size : nat) : SourceSpan :=
  let start := p_starts p !! index in
  {| sp_from := default lowerBound start;
     sp_to := match (if (size =? 0)%nat then None else p_ends p !! (index + size - 1)%nat) with
              | Some e => e | None => default lowerBound start end |}.
Definition recovered_span (value : jstring) (lowerBound upperBound : nat) : option SourceSpan :=
  let p := decodedSourceProjection lowerBound upperBound in
  let spans := (fun i => projected_span p lowerBound i (length value))
                 <$> js_filter (fun i => starts_with_at (p_text p) value i) (seq 0 (S (length (p_text p)))) in
  js_find (fun span => match literalRunsForTextNode value source (Some span) (boundaries context) with Some _ => true | None => false end) spans.
Fixpoint next_from (l : list mnode) (parent_to : nat) : nat :=
  match l with [] => parent_to | n :: l' => match nodeSpan n with Some s => sp_from s | None => next_from l' parent_to end end.
Definition after_span (n : mnode) (lowerBound : nat) : nat := match nodeSpan n with Some s => sp_to s | None => lowerBound end.
Fixpoint recover_from (parent_to lowerBound : nat) (l : list mnode) : list mnode :=
  match l with
  | [] => []
  | n :: l' =>
      let n' := match n with TextNode value None => TextNode value (recovered_span value lowerBound (next_from l' parent_to)) | _ => n end in
      n' :: recover_from parent_to (after_span n' lowerBound) l'
  end.
Definition recoverTextSpans (parentSpan : option SourceSpan) (children : list mnode) : list mnode :=
  match parentSpan with Some s => recover_from (sp_to s) (sp_from s) children | None => children end.

(** [synthesizeGFMEmailLinks]. *)
Definition text_between (a b : nat) : list mnode := if (a <? b)%nat then [source_text a b] else [].
Definition email_link (range : GFMEmailSourceRange) : mnode :=
  let span := Some {| sp_from := e_from range; sp_to := e_to range |} in
  LinkNode (u "mailto:" ++ e_value range) span [TextNode (e_value range) span].
Fixpoint email_pieces (cursor stop : nat) (l : list GFMEmailSourceRange) : list mnode :=
  match l with
  | [] => text_between cursor stop
  | range :: l' => text_between cursor (e_from range) ++ email_link range :: email_pieces (e_to range) stop l'
  end.
Definition synthesize_child (n : mnode) : list mnode :=
  match n with
  | TextNode _ (Some s) =>
      match js_filter (fun range => (sp_from s <=? e_from range)%nat && (e_to range <=? sp_to s)%nat) (emailRanges context) with
      | [] => [n]
      | emails => email_pieces (sp_from s) (sp_to s) emails
      end
  | _ => [n]
  end.

(** [reconcileUnderscoreEmailEmphasis], of one range. *)
Definition email_in_emphasis (innerFrom innerTo : nat) : bool :=
  existsb (fun email => (innerFrom <=? e_from email)%nat && (e_to email <=? innerTo)%nat
                        && forallb (Z.eqb 95) (slice source innerFrom (e_from email))) (emailRanges context).
Fixpoint find_position {A} (p : nat -> A -> bool) (i : nat) (l : list A) : option nat :=
  match l with [] => None | x :: l' => if p i x then Some i else find_position p (S i) l' end.
Definition spans_over (a b : nat) (n : mnode) : bool :=
  match nodeSpan n with Some s => (sp_from s <=? a)%nat && (b <=? sp_to s)%nat | None => false end.
Definition emphasis_step (children : list mnode) (range : EmphasisRange) : list mnode :=
  let width := delimiterWidth range in
  let delimiter := replicate width 95 in
  if negb (js_eqb (slice source (m_from range) (m_from range + width)) delimiter)
     || negb (js_eqb (slice source (m_to range - width) (m_to range)) delimiter) then children
  else
    let innerFrom := (m_from range + width)%nat in
    let innerTo := (m_to range - width)%nat in
    if negb (email_in_emphasis innerFrom innerTo) then children
    else
      match find_position (fun _ => spans_over (m_from range) innerFrom) 0 children with
      | None => children
      | Some firstIndex =>
          match find_position (fun index child => (firstIndex <=? index)%nat && spans_over innerTo (m_to range) child) 0 children with
          | None => children
          | Some lastIndex =>
              if (lastIndex <=? firstIndex)%nat then children
              else
                match children !! firstIndex, children !! lastIndex with
                | Some (TextNode _ (Some firstSpan)), Some (TextNode _ (Some lastSpan)) =>
                    let emphasisChildren :=
                      (if (innerFrom <? sp_to firstSpan)%nat then [source_text innerFrom (Nat.min (sp_to firstSpan) innerTo)] else [])
                      ++ take (lastIndex - firstIndex - 1) (drop (S firstIndex) children)
                      ++ (if (sp_from lastSpan <? innerTo)%nat then [source_text (Nat.max (sp_from lastSpan) innerFrom) innerTo] else []) in
                    let emphasis :=
                      ParentNode (if (width =? 2)%nat then "strong" else "emphasis") (Some {| sp_from := m_from range; sp_to := m_to range |}) 0
                        emphasisChildren in
                    take firstIndex children
                    ++ text_between (sp_from firstSpan) (m_from range) ++ [emphasis] ++ text_between (m_to range) (sp_to lastSpan)
                    ++ drop (S lastIndex) children
                | _, _ => children
                end
          end
      end.
Definition reconcileUnderscoreEmailEmphasis (children : list mnode) : list mnode := foldl emphasis_step children (emphasisRanges context).

(** What [reconcileTextNodes] does after its loop. *)
Definition reconcile_children (span : option SourceSpan) (children : list mnode) : list mnode :=
  let children := mergeAdjacentTextNodes children in
  let children := recoverTextSpans span children in
  let children := mergeAdjacentTextNodes children in
  reconcileUnderscoreEmailEmphasis (children ≫= synthesize_child).
(** [reconcileTextNodes], of a child: a link that is not written gives way to its text, or
    to its children, which are looked at again. *)
Fixpoint reconcile_child (n : mnode) : list mnode :=
  match n with
  | ParentNode type span other children =>
      if transparent type then [ParentNode type span other (reconcile_children span (children ≫= reconcile_child))] else [n]
  | LinkNode url span children =>
      if isLiteralEmailLink url span || negb (isCoveredBySourceRange span (linkRanges context)) then
        match span with
        | Some s => [source_text (sp_from s) (sp_to s)]
        | None => children ≫= reconcile_child
        end
      else [n]
  | _ => [n]
  end.
Definition reconcileTextNodes (span : option SourceSpan) (children : list mnode) : list mnode :=
  reconcile_children span (children ≫= reconcile_child).
End Reconcile.

(** ** The plugin *)

Section Plugin.
Context {unicode : HostUnicode} (sourceParser : jstring -> source_node) (reparse_depth : jstring -> nat).

Definition without_BOM (rawSource : jstring) : jstring := if starts_with rawSource [0xFEFF] then slice_from rawSource 1 else rawSource.
(** [transformMemoSyntax], on the span and the children of the root. *)
Definition transformMemoSyntax (span : option SourceSpan) (children : list mnode) (rawSource : jstring) : list mnode :=
  let source := without_BOM rawSource in
  let context := markdownSourceContext sourceParser reparse_depth source in
  reconcileTextNodes source context span children ≫= transform_child source (boundaries context).

End Plugin.
End Tag.

(** ** Runs are parts of both texts *)

Section RunFacts.
Context {host : MarkdownHost} (value source : jstring) (start stop : nat).

Lemma length_replace_nul s : length (replace_nul s) = length s.
Proof. unfold replace_nul. apply length_fmap. Qed.
Lemma replace_nul_slice s a b : replace_nul (slice s a b) = slice (replace_nul s) a b.
Proof. unfold replace_nul, slice. by rewrite fmap_take, fmap_drop. Qed.

Definition run_ends (r : LiteralRun) : nat * nat := (valueFrom r, (valueFrom r + length (run_source r))%nat).
Definition source_end (r : LiteralRun) : nat := (sourceFrom r + length (run_source r))%nat.
(** A run is a part of the source inside the span, and of the value where it says. *)
Definition run_ok (r : LiteralRun) : Prop :=
  (start <= sourceFrom r)%nat /\ (source_end r <= stop)%nat
  /\ run_source r = slice source (sourceFrom r) (source_end r)
  /\ replace_nul (run_source r) = slice value (valueFrom r) (run_ends r).2.

Definition alignment_ok (st : alignment) : Prop :=
  (start <= sourceCursor st)%nat /\ (valueCursor st <= length value)%nat
  /\ spans run_ends 0 (runs st) (valueCursor st) /\ Forall run_ok (runs st).

Lemma slice_empty s a b : (b <= a \/ length s <= a)%nat -> slice s a b = [].
Proof. intros H. apply length_zero_iff_nil. rewrite length_slice. lia. Qed.
Lemma slice_self s a b : slice s a (a + length (slice s a b)) = slice s a b.
Proof.
  unfold slice. replace (a + length (take (b - a) (drop a s)) - a)%nat with (length (take (b - a) (drop a s))) by lia.
  rewrite length_take. destruct (Nat.min_spec (b - a) (length (drop a s))) as [[H ->]|[H ->]]; [done|].
  by rewrite !take_ge by lia.
Qed.

Lemma accept_run_ok st a b :
  alignment_ok st -> (start <= a)%nat -> (b <= stop)%nat -> aligned value source st a b = true -> alignment_ok (accept_run source st a b).
Proof.
  intros (H1 & H2 & H3 & H4) Ha Hb Hal. unfold aligned in Hal. apply starts_with_at_slice in Hal as [Hv Hlen].
  rewrite length_replace_nul in *. unfold alignment_ok, accept_run. cbn [sourceCursor valueCursor runs]. rewrite length_replace_nul.
  split; [done|]. split; [lia|]. destruct (slice source a b) as [|c r] eqn:Es.
  - cbn [length]. rewrite Nat.add_0_r. by split.
  - rewrite <- Es in *. assert (0 < length (slice source a b))%nat as Hpos by (rewrite Es; cbn; lia). split.
    + apply (spans_snoc run_ends _ _ (valueCursor st) {| run_source := slice source a b; sourceFrom := a; valueFrom := valueCursor st |}); [done|].
      unfold run_ends. cbn. lia.
    + apply Forall_app. split; [done|]. constructor; [|done]. unfold run_ok, source_end, run_ends. cbn [run_source sourceFrom valueFrom snd].
      split; [done|]. rewrite slice_self. split; [|split; [done|by symmetry]].
      pose proof (length_slice source a b). lia.
Qed.

Lemma trimmed_end_bounds n a : (a <= trimmed_end source n a <= a + n)%nat.
Proof. induction n as [|n IH]; cbn [trimmed_end]; [lia|]. destruct (source !! (a + n)%nat) as [c|]; [destruct (is_blank c)|]; lia. Qed.
Lemma skipped_start_Some st n a b i : skipped_start value source st n a b = Some i -> (a < i)%nat /\ aligned value source st i b = true.
Proof.
  revert a. induction n as [|n IH]; intros a; cbn [skipped_start]; [done|].
  destruct (match source !! a with Some c => is_blank c || (c =? 62) | None => false end); [|done].
  destruct (aligned value source st (S a) b) eqn:E; [intros [= <-]; by split; [lia|]|]. intros [? ?]%IH. split; [lia|done].
Qed.

Lemma addRun_ok st stop_ omit st' :
  alignment_ok st -> (stop_ <= stop)%nat -> addRun value source st stop_ omit = Some st' -> alignment_ok st' /\ sourceCursor st' = sourceCursor st.
Proof.
  intros Hst Hs. unfold addRun. pose proof (proj1 Hst) as H1. destruct (_ || _) eqn:Ee; [by intros [= <-]|]. apply orb_false_iff in Ee as [E1 E2]. bool_prop.
  destruct (aligned value source st (sourceCursor st) stop_) eqn:Ea; [intros [= <-]; split; [by apply accept_run_ok|done]|].
  destruct (_ && _) eqn:Et.
  { apply andb_true_iff in Et as [_ Et]. intros [= <-]. split; [|done]. apply accept_run_ok; [done|done| |done].
    pose proof (trimmed_end_bounds (stop_ - sourceCursor st) (sourceCursor st)). lia. }
  destruct (negb _); [done|]. destruct (skipped_start _ _ _ _ _ _) as [i|] eqn:Ei; [|done]. intros [= <-].
  apply skipped_start_Some in Ei as [Hi Hal]. split; [|done]. apply accept_run_ok; [done|lia|lia|done].
Qed.

Lemma at_source_ok a st : alignment_ok st -> (start <= a)%nat -> alignment_ok (at_source a st).
Proof. intros (H1 & H2 & H3 & H4) Ha. by split. Qed.
Lemma may_skip_ok st : alignment_ok st -> alignment_ok (may_skip st).
Proof. done. Qed.
Lemma at_value_ok s st :
  alignment_ok st -> starts_with_at value s (valueCursor st) = true -> alignment_ok (at_value (valueCursor st + length s) st).
Proof.
  intros (H1 & H2 & H3 & H4) [_ Hlen]%starts_with_at_slice. split; [done|]. split; [cbn; lia|]. split; [|done]. cbn.
  eapply spans_le; [exact H3|lia].
Qed.

Lemma pass_line_ending_ok text st st' : alignment_ok st -> pass_line_ending value text st = Some st' -> alignment_ok st'.
Proof.
  intros Hst. unfold pass_line_ending. destruct (line_ending_at_start text) as [|c s]; [by intros [= <-]|].
  destruct (starts_with_at value (c :: s) _) eqn:E1; [intros [= <-]; by apply may_skip_ok, (at_value_ok (c :: s))|].
  destruct (starts_with_at value [10] _) eqn:E2; [|done]. intros [= <-]. apply may_skip_ok. by apply (at_value_ok [10]).
Qed.
Lemma pass_spelling_ok text decoded st st' : alignment_ok st -> pass_spelling value text decoded st = Some st' -> alignment_ok st'.
Proof.
  intros Hst. unfold pass_spelling. destruct (starts_with_at value (replace_nul text) _) eqn:E1; [intros [= <-]; by apply at_value_ok|].
  destruct (starts_with_at value decoded _) eqn:E2; [|done]. intros [= <-]. by apply at_value_ok.
Qed.

Lemma pass_boundary_ok st b st' : alignment_ok st -> pass_boundary value source start stop st b = Some st' -> alignment_ok st'.
Proof.
  intros Hst. unfold pass_boundary. destruct (_ <=? _)%nat eqn:El; [by intros [= <-]|]. bool_prop.
  destruct (_ && _); [by intros [= <-]|]. destruct (addRun _ _ _ _ _) as [st1|] eqn:Er; [|done]. cbn [mbind option_bind].
  apply addRun_ok in Er as [H1 _]; [|done|lia].
  assert (alignment_ok (at_source (Nat.min (s_to b) stop) st1)) as H2 by (apply at_source_ok; [done|lia]).
  destruct (bool_decide (s_type b = LineEndingRange)); [by apply pass_line_ending_ok|by apply pass_spelling_ok].
Qed.

Lemma pass_boundaries_ok l st st' : alignment_ok st -> pass_boundaries value source start stop l st = Some st' -> alignment_ok st'.
Proof.
  revert st. induction l as [|b l IH]; intros st Hst; cbn [pass_boundaries]; [by intros [= <-]|].
  destruct (pass_boundary _ _ _ _ _ _) as [st1|] eqn:E; [|done]. apply IH. by eapply pass_boundary_ok.
Qed.
End RunFacts.

Lemma literal_runs_parts `{host : MarkdownHost} value source span boundaries l :
  literalRunsForTextNode value source (Some span) boundaries = Some l ->
  spans run_ends 0 l (length value) /\ Forall (run_ok value source (sp_from span) (sp_to span)) l.
Proof.
  unfold literalRunsForTextNode. cbn [mbind option_bind]. destruct (pass_boundaries _ _ _ _ _ _) as [st|] eqn:E; [|done]. cbn [mbind option_bind].
  destruct (addRun _ _ _ _ _) as [st'|] eqn:E'; [|done]. intros [= <-].
  eapply (pass_boundaries_ok value source (sp_from span) (sp_to span)) in E; [|split; [done|split; [cbn; lia|split; [cbn; lia|constructor]]]].
  eapply addRun_ok in E' as [(_ & H2 & H3 & H4) _]; [|done|done]. split; [|done]. eapply spans_le; [exact H3|done].
Qed.

(** ** Runs are outside the syntax *)

Section Outside.
Context {host : MarkdownHost} (value source : jstring) (start stop : nat).

(** What a boundary is unless it is the name of no character. *)
Definition is_syntax (b : SourceRange) : Prop :=
  s_type b = EntityRange -> decodeBoundary (slice source (s_from b) (s_to b)) EntityRange <> slice source (s_from b) (s_to b).
Definition touches (b : SourceRange) (r : LiteralRun) : Prop := (sourceFrom r < s_to b)%nat /\ (s_from b < source_end r)%nat.



(** The invariant: what was passed, and what is left. *)
Record outside (passed rest : list SourceRange) (st : alignment) : Prop := {
  o_runs r b : r ∈ runs st -> b ∈ passed -> is_syntax b -> ~ touches b r;
  o_cursor b : b ∈ passed -> is_syntax b -> (Nat.min (s_to b) stop <= sourceCursor st)%nat \/ (stop <= s_from b)%nat;
  o_rest r b : r ∈ runs st -> b ∈ rest -> (source_end r <= s_from b)%nat;
  o_start : (start <= sourceCursor st)%nat;
  o_order c b : c ∈ passed -> b ∈ rest -> (s_to c <= s_from b)%nat;
}.

Lemma outside_same passed rest st st' :
  runs st' = runs st -> sourceCursor st' = sourceCursor st -> outside passed rest st -> outside passed rest st'.
Proof. intros Hr Hc [O1 O2 O3 O4 O5]. split; rewrite ?Hr, ?Hc; done. Qed.



End Outside.


(** ** Where a run ends *)

Section Ends.
Context {host : MarkdownHost} (value source : jstring) (start stop : nat).



End Ends.





(** ** Segments keep the text *)

Section SegmentFacts.
Context {host : MarkdownHost}.

Definition segment_text (s : Segment) : jstring :=
  match s with TextSegment value => value | TagSegment source _ | MentionSegment source _ => replace_nul source end.
Definition segments_text (l : list Segment) : jstring := l ≫= segment_text.

Definition match_ok (value : jstring) (m : text_match) : Prop :=
  (tx_from m <= tx_to m <= length value)%nat /\ segment_text (tx_segment m) = slice value (tx_from m) (tx_to m).

Lemma cut_text value cursor l :
  Forall (match_ok value) l -> (cursor <= length value)%nat -> segments_text (cut value cursor l) = slice_from value cursor.
Proof.
  intros H. revert cursor. induction H as [|m l [Hb Ht] _ IH]; intros cursor Hc; cbn [cut].
  - destruct (cursor <? length value)%nat eqn:E; bool_prop; [unfold segments_text; cbn; by rewrite app_nil_r|].
    unfold slice_from. by rewrite drop_ge by lia.
  - destruct (tx_from m <? cursor)%nat eqn:E; bool_prop; [by apply IH|]. unfold segments_text. rewrite bind_app. cbn [mbind list_bind].
    fold (segments_text (cut value (tx_to m) l)). rewrite Ht, IH by lia.
    rewrite (slice_then_from value cursor (tx_from m)), (slice_then_from value (tx_from m) (tx_to m)) by lia. f_equal.
    unfold text_segment. destruct (cursor <? tx_from m)%nat eqn:E'; bool_prop; [cbn; by rewrite app_nil_r|].
    by rewrite slice_empty by lia.
Qed.

(** A part of a run is a part of the value. *)
Lemma run_part_ok value source start stop r i j :
  run_ok value source start stop r -> (i <= j <= length (run_source r))%nat ->
  replace_nul (slice (run_source r) i j) = slice value (valueFrom r + i) (valueFrom r + j).
Proof.
  intros (_ & _ & _ & Hv) Hij. rewrite replace_nul_slice, Hv. unfold run_ends. cbn [snd]. apply slice_slice. lia.
Qed.

Lemma run_tags_matches r m :
  units (run_source r) -> m ∈ run_tags r ->
  exists t, t ∈ findTagMatches (run_source r) 0 (length (run_source r)) /\ (tm_from t <= tm_to t <= length (run_source r))%nat
    /\ m = {| tx_from := valueFrom r + tm_from t; tx_to := valueFrom r + tm_to t;
              tx_segment := TagSegment (slice (run_source r) (tm_from t) (tm_to t)) (tm_value t) |}.
Proof.
  intros Hu (t & -> & Ht)%list_elem_of_fmap. exists t. split; [done|]. split; [|done].
  destruct (findTagMatches_enumerated (run_source r) Hu 0) as (e & He & Ho & Hm). cbn [fst snd] in Hm.
  pose proof (proj2 (proj1 (Hm t) Ht)) as Hscan. pose proof (tag_bound _ _ _ Hu Hscan). apply (scanTagAt_candidate _ Hu) in Hscan as (_ & _ & _ & Hlt). lia.
Qed.
Lemma run_mentions_matches source r m :
  m ∈ run_mentions source r ->
  exists t, mention_at (run_source r) ((sourceFrom r =? 0)%nat || negb (isUsernameCharacter (option_list (source !! (sourceFrom r - 1)%nat)))) t
    /\ (mm_from t <= mm_to t <= length (run_source r))%nat
    /\ m = {| tx_from := valueFrom r + mm_from t; tx_to := valueFrom r + mm_to t;
              tx_segment := MentionSegment (slice (run_source r) (mm_from t) (mm_to t)) (mm_username t) |}.
Proof.
  intros (t & -> & Ht)%list_elem_of_fmap. apply mentions_found in Ht. exists t. split; [done|]. split; [|done].
  destruct Ht as (_ & _ & (H & _) & _). lia.
Qed.

Lemma run_matches_ok value source start stop l :
  units source -> spans run_ends 0 l (length value) -> Forall (run_ok value source start stop) l ->
  Forall (match_ok value) (run_matches source l).
Proof.
  intros Hu Hs Hl. apply Forall_forall. intros m Hm. unfold run_matches in Hm. apply elem_of_sort_by, list_elem_of_bind in Hm as (r & Hm & Hr).
  rewrite Forall_forall in Hl. specialize (Hl r Hr). pose proof (spans_In run_ends _ _ _ r Hs Hr) as (_ & _ & Hb).
  unfold run_ends in Hb. cbn [snd] in Hb. assert (units (run_source r)) as Hur.
  { destruct Hl as (_ & _ & -> & _). by apply units_slice. }
  assert (forall i j, (i <= j <= length (run_source r))%nat -> replace_nul (slice (run_source r) i j) = slice value (valueFrom r + i) (valueFrom r + j))
    as Hpart by (intros i j; by apply (run_part_ok value source start stop)).
  apply elem_of_app in Hm as [Hm|Hm].
  - apply run_tags_matches in Hm as (t & _ & Ht & ->); [|done]. split; cbn [tx_from tx_to tx_segment segment_text]; [lia|by apply Hpart].
  - apply run_mentions_matches in Hm as (t & _ & Ht & ->). split; cbn [tx_from tx_to tx_segment segment_text]; [lia|by apply Hpart].
Qed.

Lemma segments_keep_text value span source boundaries l :
  units source -> segmentsForTextNode value span source boundaries = Some l -> segments_text l = value.
Proof.
  intros Hu. unfold segmentsForTextNode. destruct span as [span|]; [|done]. destruct (literalRunsForTextNode _ _ _ _) as [rs|] eqn:E; [|done].
  cbn [mbind option_bind]. apply literal_runs_parts in E as [H1 H2]. pose proof (run_matches_ok _ _ _ _ rs Hu H1 H2) as Hm.
  destruct (run_matches source rs) as [|m ms]; [intros [= <-]; unfold segments_text; cbn; by rewrite app_nil_r|].
  intros Heq. assert (l = cut value 0 (m :: ms)) as -> by congruence. rewrite cut_text by (done || lia). unfold slice_from. by rewrite drop_0.
Qed.

(** The text a tree shows. *)
Fixpoint visible_text (n : mnode) : jstring :=
  match n with
  | TextNode value _ => value
  | LinkNode _ _ children | ParentNode _ _ _ children => children ≫= visible_text
  | LeafNode _ _ _ => []
  | TagNode _ source | MentionNode _ source => replace_nul source
  end.

Lemma mnode_ind' (P : mnode -> Prop) :
  (forall v s, P (TextNode v s)) -> (forall u s l, Forall P l -> P (LinkNode u s l)) -> (forall t s o l, Forall P l -> P (ParentNode t s o l)) ->
  (forall t s o, P (LeafNode t s o)) -> (forall v s, P (TagNode v s)) -> (forall v s, P (MentionNode v s)) -> forall n, P n.
Proof.
  intros Ht Hl Hp Hf Hg Hm. fix IH 1. intros [v s|v s l|t s o l|t s o|v s|v s]; [apply Ht|apply Hl|apply Hp|apply Hf|apply Hg|apply Hm];
    (induction l as [|c l IHl]; constructor; [apply IH|exact IHl]).
Qed.

Lemma text_nodes_keep_text source boundaries value span :
  units source -> text_nodes source boundaries value span ≫= visible_text = value.
Proof.
  intros Hu. unfold text_nodes. destruct (segmentsForTextNode value span source boundaries) as [l|] eqn:E; [|cbn; by rewrite app_nil_r].
  destruct (forallb is_text_segment l); [cbn; by rewrite app_nil_r|]. apply segments_keep_text in E; [|done]. rewrite <- E. clear E.
  induction l as [|s l IH]; [done|]. cbn [fmap list_fmap mbind list_bind]. unfold segments_text. cbn [mbind list_bind]. f_equal; [by destruct s|exact IH].
Qed.

Lemma bind_keeps {A B} (f : A -> list A) (g : A -> list B) l : Forall (fun x => f x ≫= g = g x) l -> (l ≫= f) ≫= g = l ≫= g.
Proof. induction 1 as [|x l Hx _ IH]; [done|]. cbn [mbind list_bind]. by rewrite bind_app, Hx, IH. Qed.

Lemma transform_child_keeps_text source boundaries n :
  units source -> transform_child source boundaries n ≫= visible_text = visible_text n.
Proof.
  intros Hu. induction n as [v s|v s l IH|t s o l IH|t s o|v s|v s] using mnode_ind'; cbn [transform_child];
    try (cbn [mbind list_bind]; by rewrite app_nil_r).
  - by apply text_nodes_keep_text.
  - destruct (transparent t); cbn [mbind list_bind visible_text]; rewrite app_nil_r; [|done]. by apply bind_keeps.
Qed.

(** Making nodes of tags and mentions changes nothing that is read: the children of a
    tree show, after the transformation, the same text as before. *)
Theorem marks_keep_text (source : jstring) (boundaries : list SourceRange) (children : list mnode) (Hu : units source) :
  (children ≫= transform_child source boundaries) ≫= visible_text = children ≫= visible_text.
Proof. apply bind_keeps, Forall_forall. intros n _. by apply transform_child_keeps_text. Qed.

(** ** What is marked is written *)






(** A tree without marks. *)
Fixpoint unmarked (n : mnode) : bool :=
  match n with
  | MentionNode _ _ => false
  | LinkNode _ _ children | ParentNode _ _ _ children => forallb unmarked children
  | _ => true
  end.

End SegmentFacts.

(** ** The whole plugin *)

Section PluginFacts.
Context {host : MarkdownHost}.

Definition all_unmarked (l : list mnode) : Prop := Forall (fun n => unmarked n = true) l.
Lemma all_unmarked_sub l l' : l ⊆ l' -> all_unmarked l' -> all_unmarked l.
Proof. unfold all_unmarked. rewrite !Forall_forall. auto. Qed.

Section Steps.
Context (source : jstring) (context : MarkdownSourceContext).







End Steps.


Context {unicode : HostUnicode} (sourceParser : jstring -> source_node) (reparse_depth : jstring -> nat).

End PluginFacts.

(** ** A paragraph *)

Definition note : jstring := u "a &amp; #t @bob, @bob".
Definition note_value : jstring := u "a & #t @bob, @bob".
Definition whole (s : jstring) : SourceSpan := {| sp_from := 0; sp_to := length s |}.
Definition note_parser (s : jstring) : source_node :=
  SourceNode "Document" 0 (length s) [SourceNode "Paragraph" 0 (length s) []].
Definition note_tree (s : jstring) : option SourceSpan * list mnode :=
  (Some (whole s), [ParentNode "paragraph" (Some (whole s)) 0 [TextNode note_value (Some (whole s))]]).
Definition note_depth (s : jstring) : nat := 0.
Definition note_boundaries : list SourceRange := boundaries (@markdownSourceContext amp_host ascii_host note_parser note_depth note).

Example note_sample :
  note_boundaries = [{| s_from := 2; s_to := 7; s_type := EntityRange |}]
  /\ @transformMemoSyntax amp_host ascii_host note_parser note_depth (note_tree note).1 (note_tree note).2 note
     = [ParentNode "paragraph" (Some (whole note)) 0
          [TextNode (u "a & ") None; TagNode (u "t") (u "#t"); TextNode (u " ") None; MentionNode (u "bob") (u "@bob");
           TextNode (u ", ") None; MentionNode (u "bob") (u "@bob")]].
Proof. vm_compute. split; reflexivity. Qed.



Lemma marks_keep_text_witness :
  ((note_tree note).2 ≫= transform_child (host := amp_host) note note_boundaries) ≫= visible_text = note_value.
Proof. apply (marks_keep_text (host := amp_host) note note_boundaries (note_tree note).2). check_units. Defined.


Lemma context_terminates_witness :
  @markdownSourceContext amp_host ascii_host note_parser note_depth note
  = @build_context amp_host ascii_host note_parser (@markdownSourceContext amp_host ascii_host note_parser note_depth) note.
Proof.
  apply (context_terminates (host := amp_host) (unicode := ascii_host) note_parser note_depth note).
  intros source text Ht. cbn in Ht. by apply elem_of_nil in Ht.
Defined.
