(* ===== verification/TagEditor.v ===== *)
(** * Tag completion and decorations

    web/src/components/MemoEditor/Editor/tagAutocomplete.ts (the tags offered at the
    cursor, in tiers) and tagMentionDecorations.ts (the spans marked in the visible
    lines), on the matches of MarkdownTagRanges.  CodeMirror's completion context and
    view are records of what the files read from them. *)

From S2P Require Import Prelude JSString HostUnicode JSRegExp TagGrammar MarkdownSource Mention MarkdownTagRanges.

(** ** tagAutocomplete.ts *)

Section Completion.
Context {unicode : HostUnicode}.

(** [matchRank]. *)
Definition matchRank (tag typed : jstring) : option nat :=
  match index_of tag typed 0 with
  | None => None
  | Some index =>
      if (index =? 0)%nat then Some 0%nat
      else if bool_decide (tag !! (index - 1)%nat = Some 47) then Some 1%nat
      else Some 2%nat
  end.

Definition candidate (typed tag : jstring) : option (jstring * nat) :=
  (fun rank => (tag, rank)) <$> matchRank (to_lower tag) typed.

(** The labels of the options, for the text typed. *)
Definition completion_options (typed : jstring) (tags : list jstring) : list jstring :=
  fst <$> sort_by (fun a b => (a.2 <=? b.2)%nat) (omap (candidate typed) tags).

(** What the function reads of the completion context: the active tag, whether the
    position is literal text, the document, the position, and whether completion was
    asked for. *)
Record CompletionContext := {
  ctx_match : option TagMatch;      (* tagMatchBefore(ctx.state, ctx.pos) *)
  ctx_literal : bool;               (* isLiteralTagPosition(ctx.state, ctx.pos) *)
  ctx_doc : jstring;
  ctx_pos : nat;
  explicit : bool;
}.
Record CompletionResult := { result_from : nat; options : list jstring }.

Definition makeTagCompletionSource (getTags : list jstring) (ctx : CompletionContext) : option CompletionResult :=
  let source := ctx_doc ctx in
  let explicitBareIntroducer :=
    explicit ctx && (0 <? ctx_pos ctx)%nat && isTagIntroducerAt source (ctx_pos ctx - 1) (length source) && ctx_literal ctx in
  match ctx_match ctx, explicitBareIntroducer with
  | None, false => None
  | m, _ =>
      let typed := to_lower match m with Some m => tm_value m | None => [] end in
      match completion_options typed getTags with
      | [] => None
      | opts => Some {| result_from := match m with Some m => tm_from m + 1 | None => ctx_pos ctx end; options := opts |}
      end
  end.
End Completion.

(** ** tagMentionDecorations.ts *)

Inductive decoration := tagMark | mentionMark.
Record mark := { mark_from : nat; mark_to : nat; deco : decoration }.
Definition mark_ends (m : mark) : nat * nat := (mark_from m, mark_to m).

Section Decorations.
Context (lineAt_from lineAt_to : nat -> nat).                    (* doc.lineAt(position).from and .to *)
Context (tags_in : nat -> nat -> list TagMatch) (mentions_in : nat -> nat -> list MentionMatch).

Definition visibleLines (visibleRanges : list MarkdownSourceRange) : list MarkdownSourceRange :=
  sort_by (fun left right => (r_from left <=? r_from right)%nat)
    ((fun range => {| r_from := lineAt_from (r_from range); r_to := lineAt_to (r_to range) |}) <$> visibleRanges).
Definition scanRanges (visibleRanges : list MarkdownSourceRange) : list MarkdownSourceRange :=
  foldl merge_body [] (visibleLines visibleRanges).

Definition marks_of (range : MarkdownSourceRange) : list mark :=
  ((fun m => {| mark_from := tm_from m; mark_to := tm_to m; deco := tagMark |}) <$> tags_in (r_from range) (r_to range))
  ++ ((fun m => {| mark_from := mm_from m; mark_to := mm_to m; deco := mentionMark |}) <$> mentions_in (r_from range) (r_to range)).

(** [build]: the marks in the order the builder gets them. *)
Definition build (visibleRanges : list MarkdownSourceRange) : list mark :=
  sort_by (ends_leb mark_ends) (scanRanges visibleRanges ≫= marks_of).
End Decorations.

(** ** Facts *)

Lemma insert_by_split {A} (leb : A -> A -> bool) x l r :
  Forall (fun a => leb a x = true) l -> Forall (fun b => leb b x = false) r -> insert_by leb x (l ++ r) = l ++ x :: r.
Proof.
  induction 1 as [|a l Ha _ IH]; intros Hr; cbn [app insert_by].
  - destruct Hr as [|b r Hb _]; cbn [insert_by]; [done|]. by rewrite Hb.
  - rewrite Ha. f_equal. by apply IH.
Qed.

Lemma matchRank_bound tag typed n : matchRank tag typed = Some n -> (n <= 2)%nat.
Proof. unfold matchRank. repeat case_match; intros [= <-]; lia. Qed.

Definition in_tier {A} (k : nat) (l : list (A * nat)) : list (A * nat) := js_filter (fun a => (a.2 =? k)%nat) l.

Lemma in_tier_rank {A} k (l : list (A * nat)) : Forall (fun a => a.2 = k) (in_tier k l).
Proof.
  unfold in_tier. induction l as [|a l IH]; cbn [js_filter]; [constructor|].
  destruct (_ =? _)%nat eqn:E; bool_prop; [by constructor|done].
Qed.

(** Sorting by a rank of at most two keeps the order within each rank. *)
Lemma sort_by_tiers {A} (l : list (A * nat)) :
  Forall (fun a => a.2 <= 2)%nat l ->
  sort_by (fun a b => (a.2 <=? b.2)%nat) l = in_tier 0 l ++ in_tier 1 l ++ in_tier 2 l.
Proof.
  induction l as [|x l IH] using rev_ind; intros Hl; [done|]. apply Forall_app in Hl as [Hl Hx].
  apply Forall_cons in Hx as [Hx _]. unfold sort_by in *. rewrite foldl_app. cbn [foldl]. rewrite IH by done.
  assert (forall k m, (m <= k)%nat -> Forall (fun a : A * nat => (a.2 <=? k)%nat = true) (in_tier m l)) as Hle.
  { intros k m Hm. eapply Forall_impl; [apply in_tier_rank|]. intros a Ha. cbn in Ha. rewrite Ha. by apply Nat.leb_le. }
  assert (forall k m, (k < m)%nat -> Forall (fun a : A * nat => (a.2 <=? k)%nat = false) (in_tier m l)) as Hgt.
  { intros k m Hm. eapply Forall_impl; [apply in_tier_rank|]. intros a Ha. cbn in Ha. rewrite Ha. by apply Nat.leb_gt. }
  assert (forall k, in_tier k (l ++ [x]) = in_tier k l ++ in_tier k [x]) as Happ by (intros k; apply js_filter_app).
  rewrite !Happ. destruct x as [t r]. cbn [snd] in *. unfold in_tier at 5 7 9. cbn [js_filter snd].
  assert (r = 0 \/ r = 1 \/ r = 2)%nat as [-> | [-> | ->]] by lia; cbn [Nat.eqb]; rewrite ?app_nil_r.
  - rewrite insert_by_split; [by rewrite <- app_assoc|by apply (Hle 0%nat)|].
    apply Forall_app_2; apply (Hgt 0%nat); lia.
  - rewrite (app_assoc (in_tier 0 l)). rewrite insert_by_split; [by rewrite <- !app_assoc| |apply (Hgt 1%nat); lia].
    apply Forall_app_2; apply (Hle 1%nat); lia.
  - rewrite <- (app_nil_r (_ ++ _ ++ _)) at 1. rewrite insert_by_split; [by rewrite <- !app_assoc| |constructor].
    apply Forall_app_2; [apply (Hle 2%nat); lia|]. apply Forall_app_2; apply (Hle 2%nat); lia.
Qed.

(** ** Properties *)

Lemma omap_candidate `{HostUnicode} typed tags k :
  fst <$> in_tier k (omap (candidate typed) tags)
  = js_filter (fun tag => bool_decide (matchRank (to_lower tag) typed = Some k)) tags.
Proof.
  unfold in_tier. induction tags as [|tag tags IH]; [done|]. cbn [omap list_omap js_filter].
  change (candidate typed tag) with ((fun rank => (tag, rank)) <$> matchRank (to_lower tag) typed).
  destruct (matchRank (to_lower tag) typed) as [r|]; cbn [fmap option_fmap option_map]; [|by rewrite IH].
  cbn [js_filter snd]. destruct (r =? k)%nat eqn:E; bool_prop.
  - subst. rewrite bool_decide_eq_true_2 by done. cbn [fmap list_fmap fst]. by f_equal.
  - rewrite bool_decide_eq_false_2 by congruence. done.
Qed.

Definition tier `{HostUnicode} (typed : jstring) (k : nat) (tags : list jstring) : list jstring :=
  js_filter (fun tag => bool_decide (matchRank (to_lower tag) typed = Some k)) tags.

Lemma candidates_ranked `{HostUnicode} typed tags : Forall (fun a => a.2 <= 2)%nat (omap (candidate typed) tags).
Proof.
  apply Forall_forall. intros a Ha. apply list_elem_of_omap in Ha as (tag & _ & Ha). unfold candidate in Ha.
  destruct (matchRank _ _) eqn:Er; [|done]. injection Ha as <-. by eapply matchRank_bound.
Qed.

Lemma candidates_none `{HostUnicode} typed tags :
  omap (candidate typed) tags = [] <-> forall tag, tag ∈ tags -> index_of (to_lower tag) typed 0 = None.
Proof.
  assert (forall tag, candidate typed tag = None <-> index_of (to_lower tag) typed 0 = None) as Hc.
  { intros tag. unfold candidate, matchRank. destruct (index_of _ _ _); [|done]. split; [|done].
    repeat case_match; done. }
  induction tags as [|tag tags IH]; cbn [omap list_omap]; [split; [|done]; intros _ t Ht; inversion Ht|].
  setoid_rewrite elem_of_cons. specialize (Hc tag). destruct (candidate typed tag); split; intros Hn.
  - done.
  - exfalso. destruct Hc as [_ Hc]. discriminate Hc. apply Hn. by left.
  - intros t [->|Ht]; [by apply Hc|by apply IH].
  - apply IH. intros t Ht. apply Hn. by right.
Qed.

(** Completion offers the tags that contain what is typed, letter case aside, in three
    tiers: those that begin with it, those whose first occurrence of it begins a segment
    of the path, and the others, each tier in the order the tags come in; and nothing is
    offered exactly when no tag contains it. *)
Theorem completion_tiers `{HostUnicode} (typed : jstring) (tags : list jstring) :
  completion_options typed tags = tier typed 0 tags ++ tier typed 1 tags ++ tier typed 2 tags
  /\ (completion_options typed tags = [] <-> forall tag, tag ∈ tags -> index_of (to_lower tag) typed 0 = None).
Proof.
  unfold completion_options. rewrite <- candidates_none. split.
  - rewrite sort_by_tiers by apply candidates_ranked. rewrite !fmap_app, !omap_candidate. done.
  - split; [|by intros ->]. intros Hn%fmap_nil_inv. apply Permutation_nil. by rewrite <- Hn, sort_by_perm.
Qed.

(** A later segment that begins with what is typed does not count: the rank looks at
    the first occurrence only. *)
Theorem later_segment_not_ranked :
  matchRank (u "remember/memos") (u "mem") = Some 2%nat /\ matchRank (u "notes/memos") (u "mem") = Some 1%nat.
Proof. split; vm_compute; reflexivity. Qed.

(** The marks reach the builder in the order it needs, and are those of the tags and
    mentions of the scanned lines. *)
Theorem decorations_in_order (lineAt_from lineAt_to : nat -> nat) (tags_in : nat -> nat -> list TagMatch)
    (mentions_in : nat -> nat -> list MentionMatch) (visibleRanges : list MarkdownSourceRange) :
  let marks := build lineAt_from lineAt_to tags_in mentions_in visibleRanges in
  StronglySorted (fun a b => mark_from a <= mark_from b)%nat marks
  /\ forall m, m ∈ marks <->
       exists range, range ∈ scanRanges lineAt_from lineAt_to visibleRanges /\ m ∈ marks_of tags_in mentions_in range.
Proof.
  cbn zeta. unfold build. split; [apply (sort_by_ends mark_ends)|]. intros m.
  rewrite elem_of_sort_by, list_elem_of_bind. naive_solver.
Qed.
