(* ===== verification/EditorCache.v ===== *)
(** * The editor's draft cache (web/src/components/MemoEditor/services/cacheService.ts)

    Drafts live in localStorage under a key; [save] writes after a debounce timer,
    [saveNow], [clear] and [clearAll] cancel timers.  The module-level maps, the
    store and the browser's active timers are one state; every method is a function
    on it, and [step] interleaves them with timers firing.  Attachments are protobuf
    messages: the message type and its JSON mapping are parameters. *)

From S2P Require Import Prelude JSString JSON JSONText.

Definition CACHE_DEBOUNCE_DELAY : Z := 500.
Definition STRUCTURED_CACHE_ENTRY_KIND : jstring := u "memos.editor-cache".
Definition STRUCTURED_CACHE_ENTRY_VERSION : Z := 2.

(** The protobuf runtime on [Attachment]: [toJson] and [fromJson], which throws on a
    value that is not an attachment. *)
Class AttachmentCodec := {
  Attachment : Type;
  toJson : Attachment -> json;
  fromJson : json -> option Attachment;
}.

(** ProtoJSON: a message is read back from its JSON form. *)
Class AttachmentCodecLaws `{AttachmentCodec} : Prop := {
  fromJson_toJson a : fromJson (toJson a) = Some a;
}.

Section Cache.
Context `{AttachmentCodec}.

Record EditorDraft := { content : jstring; attachments : list Attachment }.

(** [parsed.kind === STRUCTURED_CACHE_ENTRY_KIND] and the version test. *)
Definition is_kind (o : list (jstring * json)) : bool :=
  match prop o (u "kind") with Some (JStr k) => js_eqb k STRUCTURED_CACHE_ENTRY_KIND | _ => false end.
Definition is_version (o : list (jstring * json)) (v : Z) : bool :=
  match prop o (u "version") with Some (JNum q) => Qeq_bool q (inject_Z v) | _ => false end.

Definition deserializeDraft (raw : jstring) : EditorDraft :=
  match JSON_parse raw with
  | Some (JObj parsed) =>
      match prop parsed (u "content") with
      | Some (JStr c) =>
          if is_kind parsed && is_version parsed 1 then {| content := c; attachments := [] |}
          else if is_kind parsed && is_version parsed STRUCTURED_CACHE_ENTRY_VERSION then
            {| content := c;
               attachments := match prop parsed (u "attachments") with
                              | Some (JArr l) => l ≫= (fun value => option_list (fromJson value))
                              | _ => []
                              end |}
          else {| content := raw; attachments := [] |}
      | _ => {| content := raw; attachments := [] |}
      end
  | _ => {| content := raw; attachments := [] |}
  end.

Definition serializeDraft (c : jstring) (l : list Attachment) : jstring :=
  if (length l =? 0)%nat then c
  else stringify (JObj [(u "kind", JStr STRUCTURED_CACHE_ENTRY_KIND);
                        (u "version", JNum (inject_Z STRUCTURED_CACHE_ENTRY_VERSION));
                        (u "content", JStr c);
                        (u "attachments", JArr (toJson <$> l))]).

(** ** The state *)

(** [localStorage], the two module-level maps, and the timers not yet fired or
    cleared with the arguments their callback closes over. *)
Record cache := {
  store : gmap jstring jstring;
  pendingSaves : gmap jstring Z;
  cursors : gmap jstring Z;
  timers : gmap Z (jstring * jstring * list Attachment);
}.

Definition writeEntry (key c : jstring) (l : list Attachment) (st : gmap jstring jstring)
    : gmap jstring jstring :=
  if negb (js_eqb (trim c) []) || (0 <? length l)%nat then <[key := serializeDraft c l]> st
  else delete key st.

Definition key (username : jstring) (cacheKey : option jstring) : jstring :=
  username ++ u "-" ++ default [] cacheKey.

(** [if (pendingSave)]: a number is falsy when it is 0. *)
Definition truthy (pendingSave : option Z) : option Z :=
  match pendingSave with Some p => if p =? 0 then None else Some p | None => None end.

Definition clear_timeout (p : option Z) (st : cache) : gmap Z (jstring * jstring * list Attachment) :=
  match p with Some id => delete id (timers st) | None => timers st end.

(** [id] is what [setTimeout] returns. *)
Definition save (id : Z) (k c : jstring) (l : list Attachment) (st : cache) : cache :=
  {| store := store st;
     pendingSaves := <[k := id]> (pendingSaves st);
     cursors := cursors st;
     timers := <[id := (k, c, l)]> (clear_timeout (truthy (pendingSaves st !! k)) st) |}.

(** The callback of timer [id]. *)
Definition fire (id : Z) (st : cache) : cache :=
  match timers st !! id with
  | None => st
  | Some (k, c, l) =>
      {| store := writeEntry k c l (store st);
         pendingSaves := delete k (pendingSaves st);
         cursors := cursors st;
         timers := delete id (timers st) |}
  end.

Definition cancel (k : jstring) (st : cache) : cache :=
  match truthy (pendingSaves st !! k) with
  | Some p => {| store := store st; pendingSaves := delete k (pendingSaves st);
                 cursors := cursors st; timers := delete p (timers st) |}
  | None => st
  end.

Definition saveNow (k c : jstring) (l : list Attachment) (st : cache) : cache :=
  let st := cancel k st in
  {| store := writeEntry k c l (store st); pendingSaves := pendingSaves st;
     cursors := cursors st; timers := timers st |}.

Definition loadDraft (k : jstring) (st : cache) : EditorDraft :=
  match store st !! k with
  | Some ((_ :: _) as raw) => deserializeDraft raw
  | _ => {| content := []; attachments := [] |}
  end.

Definition load (k : jstring) (st : cache) : jstring :=
  match store st !! k with
  | Some ((_ :: _) as raw) => content (deserializeDraft raw)
  | _ => []
  end.

Definition saveCursor (k : jstring) (cursor : Z) (st : cache) : cache :=
  {| store := store st; pendingSaves := pendingSaves st;
     cursors := <[k := cursor]> (cursors st); timers := timers st |}.
Definition loadCursor (k : jstring) (st : cache) : option Z := cursors st !! k.

Definition clear (k : jstring) (st : cache) : cache :=
  let st := cancel k st in
  {| store := delete k (store st); pendingSaves := pendingSaves st;
     cursors := delete k (cursors st); timers := timers st |}.

Definition clearAll (st : cache) : cache :=
  {| store := store st; pendingSaves := ∅; cursors := ∅;
     timers := foldr (fun timeoutId t => delete timeoutId t) (timers st)
                     (snd <$> map_to_list (pendingSaves st)) |}.

(** ** Runs *)

Inductive event :=
  | ESave (id : Z) (k c : jstring) (l : list Attachment)
  | ESaveNow (k c : jstring) (l : list Attachment)
  | ESaveCursor (k : jstring) (cursor : Z)
  | EClear (k : jstring)
  | EClearAll
  | EFire (id : Z).

Definition step (st : cache) (e : event) : cache :=
  match e with
  | ESave id k c l => save id k c l st
  | ESaveNow k c l => saveNow k c l st
  | ESaveCursor k cursor => saveCursor k cursor st
  | EClear k => clear k st
  | EClearAll => clearAll st
  | EFire id => fire id st
  end.

(** The browser: a new timer's handle is positive and not that of an active timer. *)
Definition event_ok (st : cache) (e : event) : Prop :=
  match e with ESave id _ _ _ => 0 < id /\ timers st !! id = None | _ => True end.

Inductive run : cache -> list event -> cache -> Prop :=
  | run_nil st : run st [] st
  | run_cons st e es st' : event_ok st e -> run (step st e) es st' -> run st (e :: es) st'.

(** Page load: no timer, empty maps, whatever the store holds. *)
Definition initial (st : cache) : Prop := pendingSaves st = ∅ /\ cursors st = ∅ /\ timers st = ∅.

Definition reachable (st : cache) : Prop := exists st0 es, initial st0 /\ run st0 es st.

(** The active timers are exactly those registered in [pendingSaves]. *)
Definition registered (st : cache) : Prop :=
  (forall k id, pendingSaves st !! k = Some id -> 0 < id /\ exists c l, timers st !! id = Some (k, c, l))
  /\ (forall id k c l, timers st !! id = Some (k, c, l) -> pendingSaves st !! k = Some id).

(** ** Lemmas *)

Lemma truthy_registered st k :
  registered st -> truthy (pendingSaves st !! k) = pendingSaves st !! k.
Proof.
  intros [H1 _]. destruct (pendingSaves st !! k) as [p|] eqn:E; [|done]. simpl.
  destruct (H1 _ _ E) as [Hp _]. by rewrite (proj2 (Z.eqb_neq p 0)) by lia.
Qed.

Lemma cancel_spec k st :
  registered st ->
  registered (cancel k st) /\ pendingSaves (cancel k st) !! k = None
  /\ (forall id k' c l, timers (cancel k st) !! id = Some (k', c, l) <->
        timers st !! id = Some (k', c, l) /\ k' <> k)
  /\ store (cancel k st) = store st /\ cursors (cancel k st) = cursors st.
Proof.
  intros HR. pose proof HR as [H1 H2]. unfold cancel. rewrite truthy_registered by done.
  destruct (pendingSaves st !! k) as [p|] eqn:E; simpl.
  - destruct (H1 _ _ E) as (Hp & c0 & l0 & Ht).
    assert (forall id k' c l, delete p (timers st) !! id = Some (k', c, l) <->
        timers st !! id = Some (k', c, l) /\ k' <> k) as Hiff.
    { intros id k' c l. rewrite lookup_delete_Some. split.
      - intros [Hne Hid]. split; [done|]. intros ->. apply H2 in Hid. congruence.
      - intros [Hid Hne]. split; [|done]. intros ->. congruence. }
    split; [|split; [by rewrite lookup_delete_eq|by split]]. split; simpl.
    + intros k' id [Hne Hk']%lookup_delete_Some. destruct (H1 _ _ Hk') as (? & c & l & Hid).
      split; [done|]. exists c, l. by apply Hiff.
    + intros id k' c l [Hid Hne]%Hiff. rewrite lookup_delete_ne by done. by eapply H2.
  - split; [done|]. split; [done|]. split; [|done]. intros id k' c l. split; [|by intros [? _]].
    intros Hid. split; [done|]. intros ->. apply H2 in Hid. congruence.
Qed.

Lemma clear_timeout_cancel k st :
  clear_timeout (truthy (pendingSaves st !! k)) st = timers (cancel k st).
Proof. unfold cancel. by destruct (truthy _). Qed.

Lemma foldr_delete_lookup {B} (ids : list Z) (m : gmap Z B) id :
  foldr (fun i t => delete i t) m ids !! id = if decide (id ∈ ids) then None else m !! id.
Proof.
  induction ids as [|i ids IH]; cbn [foldr]; [by rewrite decide_False by set_solver|].
  destruct (decide (id = i)) as [->|Hne].
  - by rewrite lookup_delete_eq, decide_True by set_solver.
  - rewrite lookup_delete_ne, IH by done. destruct (decide (id ∈ ids)).
    + by rewrite decide_True by set_solver.
    + by rewrite decide_False by set_solver.
Qed.

Lemma clearAll_timers st : registered st -> timers (clearAll st) = ∅.
Proof.
  intros [H1 H2]. apply map_eq. intros id. rewrite lookup_empty. simpl. rewrite foldr_delete_lookup.
  case_decide as Hin; [done|]. destruct (timers st !! id) as [[[k c] l]|] eqn:E; [|done].
  destruct Hin. apply list_elem_of_fmap. exists (k, id). split; [done|].
  apply elem_of_map_to_list. by eapply H2.
Qed.

Lemma step_registered st e : registered st -> event_ok st e -> registered (step st e).
Proof.
  intros HR Hok. pose proof HR as [H1 H2].
  destruct e as [id k c l|k c l|k cursor|k| |id]; simpl in *.
  - destruct Hok as [Hpos Hfresh]. destruct (cancel_spec k st HR) as ((C1 & C2) & Hn & Hiff & _).
    assert (forall k', pendingSaves st !! k' <> Some id) as Hno.
    { intros k' Hk'. destruct (H1 _ _ Hk') as (_ & ? & ? & ?). congruence. }
    split; simpl; rewrite clear_timeout_cancel.
    + intros k' id' [[<- <-]|[Hne Hk']]%lookup_insert_Some.
      * split; [done|]. exists c, l. by rewrite lookup_insert_eq.
      * destruct (H1 _ _ Hk') as (? & c' & l' & Hid'). split; [done|]. exists c', l'.
        rewrite lookup_insert_ne by (intros ->; by apply (Hno k')). apply Hiff. by split.
    + intros id' k' c' l' [[<- [= <- <- <-]]|[Hne Hid']]%lookup_insert_Some; [by rewrite lookup_insert_eq|].
      apply Hiff in Hid' as [Hid' Hk]. rewrite lookup_insert_ne by done. by eapply H2.
  - by destruct (cancel_spec k st HR) as (HC & _).
  - done.
  - by destruct (cancel_spec k st HR) as (HC & _).
  - pose proof (clearAll_timers st HR) as Ht. split; [done|].
    intros id k c l. rewrite Ht. by rewrite lookup_empty.
  - unfold fire. destruct (timers st !! id) as [[[k c] l]|] eqn:E; [|done]. split; simpl.
    + intros k' id' [Hne Hk']%lookup_delete_Some. destruct (H1 _ _ Hk') as (? & c' & l' & Hid').
      split; [done|]. exists c', l'. rewrite lookup_delete_ne; [done|]. intros ->. congruence.
    + intros id' k' c' l' [Hne Hid']%lookup_delete_Some. rewrite lookup_delete_ne; [by eapply H2|].
      intros ->. apply H2 in Hid', E. congruence.
Qed.

Lemma run_registered st es st' : run st es st' -> registered st -> registered st'.
Proof. induction 1 as [|st e es st' Hok _ IH]; [done|]. intros HR. by apply IH, step_registered. Qed.

Lemma reachable_registered st : reachable st -> registered st.
Proof.
  intros (st0 & es & (H1 & _ & H3) & Hrun). eapply run_registered; [done|].
  split; intros *; rewrite ?H1, ?H3, lookup_empty; done.
Qed.

(** What an entry for [k] becomes when [c] and [l] are written. *)
Definition entry_of (c : jstring) (l : list Attachment) : option jstring :=
  if negb (js_eqb (trim c) []) || (0 <? length l)%nat then Some (serializeDraft c l) else None.

Lemma lookup_writeEntry k c l m : writeEntry k c l m !! k = entry_of c l.
Proof. unfold writeEntry, entry_of. case_match; [apply lookup_insert_eq|apply lookup_delete_eq]. Qed.

Lemma lookup_writeEntry_ne k k' c l m : k <> k' -> writeEntry k c l m !! k' = m !! k'.
Proof. intros. unfold writeEntry. case_match; [by apply lookup_insert_ne|by apply lookup_delete_ne]. Qed.

(** The methods that name [k]; [clearAll] cancels every timer. *)
Definition quiet (k : jstring) (e : event) : Prop :=
  match e with
  | ESave _ k' _ _ | ESaveNow k' _ _ | EClear k' => k' <> k
  | EClearAll => False
  | _ => True
  end.

(** The same for a key whose timer has been cancelled: [clearAll] is harmless. *)
Definition no_write (k : jstring) (e : event) : Prop :=
  match e with ESave _ k' _ _ | ESaveNow k' _ _ => k' <> k | _ => True end.

(** A step that does not name [k] leaves its entry and its timer alone, or fires it. *)
Lemma step_quiet st e k :
  registered st -> event_ok st e -> quiet k e ->
  (store (step st e) !! k = store st !! k /\ pendingSaves (step st e) !! k = pendingSaves st !! k
   /\ forall id c l, timers st !! id = Some (k, c, l) -> timers (step st e) !! id = Some (k, c, l))
  \/ exists id c l, e = EFire id /\ timers st !! id = Some (k, c, l)
     /\ store (step st e) !! k = entry_of c l /\ pendingSaves (step st e) !! k = None.
Proof.
  intros HR Hok Hq. pose proof HR as [H1 H2].
  destruct e as [id k' c' l'|k' c' l'|k' cursor|k'| |id]; simpl in *; [left..|done|].
  - destruct (cancel_spec k' st HR) as (_ & _ & Hiff & _).
    rewrite lookup_insert_ne by done. split; [done|]. split; [done|].
    intros id' c l Hid'. rewrite clear_timeout_cancel, lookup_insert_ne.
    + apply Hiff. by split.
    + intros ->. destruct Hok. congruence.
  - destruct (cancel_spec k' st HR) as (_ & _ & Hiff & -> & _).
    rewrite lookup_writeEntry_ne by done. split; [done|]. split.
    + unfold cancel. destruct (truthy _); simpl; [by rewrite lookup_delete_ne|done].
    + intros id c l Hid. apply Hiff. by split.
  - done.
  - destruct (cancel_spec k' st HR) as (_ & _ & Hiff & -> & _).
    rewrite lookup_delete_ne by done. split; [done|]. split.
    + unfold cancel. destruct (truthy _); simpl; [by rewrite lookup_delete_ne|done].
    + intros id c l Hid. apply Hiff. by split.
  - unfold fire. destruct (timers st !! id) as [[[k' c'] l']|] eqn:E; [|by left]. simpl.
    destruct (decide (k' = k)) as [->|Hne].
    + right. exists id, c', l'. split; [done|]. split; [done|].
      by rewrite lookup_writeEntry, lookup_delete_eq.
    + left. rewrite lookup_writeEntry_ne, lookup_delete_ne by done. split; [done|]. split; [done|].
      intros id' c l Hid'. rewrite lookup_delete_ne; [done|]. intros ->. congruence.
Qed.

Lemma step_no_write st e k :
  registered st -> event_ok st e -> no_write k e -> store st !! k = None -> pendingSaves st !! k = None ->
  store (step st e) !! k = None /\ pendingSaves (step st e) !! k = None.
Proof.
  intros HR Hok Hn Hs Hp.
  destruct e as [id k' c' l'|k' c' l'|k' cursor|k'| |id]; try done;
    [| |destruct (decide (k' = k)) as [->|Hne]|];
    try (edestruct (step_quiet st) as [(E1 & E2 & _)|(id' & c & l & _ & Ht & _)];
         [exact HR|exact Hok|try exact Hn; try exact Hne; exact I|by rewrite E1, E2|];
         apply HR in Ht; congruence).
  simpl. destruct (cancel_spec k st HR) as (_ & HN & _). by rewrite lookup_delete_eq.
Qed.
End Cache.

(** ** Properties *)

Section Properties.
Context `{AttachmentCodecLaws}.

(** A text that is itself an entry of the structured format. *)
Definition looks_structured (c : jstring) : Prop :=
  exists o, JSON_parse c = Some (JObj o) /\ is_kind o = true.

Lemma deserialize_raw c : ~ looks_structured c -> deserializeDraft c = {| content := c; attachments := [] |}.
Proof.
  intros Hn. unfold deserializeDraft. destruct (JSON_parse c) as [[| | | | | |o]|] eqn:E; try done.
  destruct (is_kind o) eqn:Ek; [destruct Hn; by exists o|]. simpl. by repeat case_match.
Qed.

Lemma fromJson_all l : (toJson <$> l) ≫= (fun value => option_list (fromJson value)) = l.
Proof. induction l as [|a l IH]; [done|]. cbn. rewrite fromJson_toJson. simpl. f_equal. exact IH. Qed.

(** The JSON form of an attachment has no number but whole ones that are exact: what the model of
    number printing covers, and so no aperture, length or position with a fraction. *)
Definition whole_number_json (a : Attachment) : Prop := printable (toJson a).
Lemma printable_all l : Forall whole_number_json l -> foldr (fun x Q => printable x /\ Q) True (toJson <$> l).
Proof. induction 1 as [|a l Ha _ IH]; [done|]. cbn. split; [exact Ha|exact IH]. Qed.

Lemma deserialize_serialize c l :
  units c -> Forall whole_number_json l -> l <> [] -> deserializeDraft (serializeDraft c l) = {| content := c; attachments := l |}.
Proof.
  intros Hc Hw Hl. unfold serializeDraft. destruct (length l =? 0)%nat eqn:E; [by destruct l|].
  unfold deserializeDraft. rewrite JSON_parse_stringify.
  - vm_compute (prop _ (u "content")). vm_compute (is_kind _). vm_compute (is_version _ _).
    cbv iota. simpl andb. cbv iota. f_equal. apply fromJson_all.
  - cbn [printable foldr fst snd]. repeat split; try check_units; try done.
    + apply (bool_decide_unpack _). vm_compute. exact I.
    + eexists. split; [reflexivity|]. vm_compute. discriminate.
    + by apply printable_all.
Qed.

(** C31. A draft saved is the draft loaded: whatever the store held, after [saveNow] the
    key gives back the same content and the same attachments, when there are
    attachments or when the content is not blank and is not itself the JSON text of
    a structured entry.  The numbers of the attachments are whole ones: how a fraction is
    printed, as in the metadata of a photo, is not part of the model. *)
Theorem draft_round_trip (k c : jstring) (l : list Attachment) (st : cache)
    (Hc : units c) (Hwhole : Forall whole_number_json l) (Hl : l <> [] \/ (trim c <> [] /\ ~ looks_structured c)) :
  loadDraft k (saveNow k c l st) = {| content := c; attachments := l |}
  /\ load k (saveNow k c l st) = c.
Proof.
  set (raw := serializeDraft c l).
  assert (deserializeDraft raw = {| content := c; attachments := l |} /\ raw <> []
          /\ entry_of c l = Some raw) as (Hd & Hne & He).
  { destruct l as [|a l].
    - destruct Hl as [Hl|[Ht Hs]]; [done|]. split; [by apply deserialize_raw|].
      split; [intros E; change (c = []) in E; by subst c|].
      unfold entry_of, js_eqb. by rewrite bool_decide_eq_false_2.
    - split; [by apply deserialize_serialize|]. split; [done|].
      unfold entry_of. simpl. by rewrite orb_true_r. }
  unfold loadDraft, load, saveNow. cbn [store]. rewrite lookup_writeEntry, He.
  destruct raw; [done|]. by rewrite Hd.
Qed.

(** A cleared draft is not resurrected: after [clear], however timers fire and
    whatever is done with other keys, the key stays empty until it is saved again. *)
Theorem cleared_draft_stays_cleared (k : jstring) (st st' : cache) (es : list event)
    (Hst : reachable st) (Hrun : run (clear k st) es st') (Hq : Forall (no_write k) es) :
  store st' !! k = None /\ loadDraft k st' = {| content := []; attachments := [] |}.
Proof.
  assert (store st' !! k = None) as Hs; [|split; [done|]; unfold loadDraft; by rewrite Hs].
  pose proof (reachable_registered st Hst) as HR.
  destruct (cancel_spec k st HR) as (_ & HN & _).
  assert (registered (clear k st)) as HR' by (by apply (step_registered st (EClear k))).
  assert (store (clear k st) !! k = None) as H1 by apply lookup_delete_eq.
  assert (pendingSaves (clear k st) !! k = None) as H2 by done.
  clear HR HN Hst. revert HR' H1 H2. generalize dependent (clear k st). intros st0 Hrun.
  induction Hrun as [st0|st0 e es st' Hok _ IH]; intros HR H1 H2; [done|].
  inversion Hq as [|? ? He Hq']; subst.
  destruct (step_no_write st0 e k HR Hok He H1 H2). apply IH; [done| |done|done].
  by apply step_registered.
Qed.

Lemma fired_quiet k st es st' :
  registered st -> run st es st' -> Forall (quiet k) es -> pendingSaves st !! k = None ->
  store st' !! k = store st !! k.
Proof.
  intros HR Hrun. induction Hrun as [st|st e es st' Hok _ IH]; intros Hq Hp; [done|].
  inversion Hq as [|? ? He Hq']; subst.
  destruct (step_quiet st e k HR Hok He) as [(E1 & E2 & _)|(id & c & l & _ & Ht & _)].
  - rewrite IH; [done|by apply step_registered|done|congruence].
  - apply HR in Ht. congruence.
Qed.

(** The debounce is last-save-wins: until the timer of a [save] fires the entry is
    what it was before, and once it has fired the entry is the one of the saved
    content and attachments (none when both are empty), as long as nothing else is
    done with the key; earlier saves of the key write nothing. *)
Theorem debounced_save_writes_last (id : Z) (k c : jstring) (l : list Attachment)
    (st st' : cache) (es : list event)
    (Hst : reachable st) (Hid : event_ok st (ESave id k c l))
    (Hrun : run (save id k c l st) es st') (Hq : Forall (quiet k) es) :
  (EFire id ∈ es -> store st' !! k = entry_of c l)
  /\ (EFire id ∉ es -> store st' !! k = store st !! k).
Proof.
  pose proof (step_registered st (ESave id k c l) (reachable_registered st Hst) Hid) as HR.
  assert (timers (save id k c l st) !! id = Some (k, c, l)) as Ht by apply lookup_insert_eq.
  change (store st) with (store (save id k c l st)). simpl step in HR.
  clear Hst Hid. generalize dependent (save id k c l st). clear st. intros st Hrun.
  induction Hrun as [st|st e es st' Hok Hrun IH]; intros HR Ht.
  { split; [intros Hin; inversion Hin|done]. }
  inversion Hq as [|? ? He Hq']; subst. pose proof (step_registered st e HR Hok) as HR'.
  destruct (step_quiet st e k HR Hok He) as [(E1 & E2 & E3)|(id' & c' & l' & -> & Ht' & E1 & E2)].
  - assert (e <> EFire id) as Hne.
    { intros ->. apply HR in Ht as Hp. rewrite <- E2 in Hp. simpl in Hp. unfold fire in Hp.
      rewrite Ht in Hp. simpl in Hp. by rewrite lookup_delete_eq in Hp. }
    specialize (IH Hq' HR' (E3 _ _ _ Ht)). rewrite elem_of_cons, <- E1. split.
    + intros [?|?]; [congruence|by apply IH].
    + intros Hn. apply IH. tauto.
  - assert (id' = id) as -> by (apply HR in Ht, Ht'; congruence).
    rewrite Ht in Ht'. injection Ht' as <- <-. split; [|intros Hn; destruct Hn; by left].
    intros _. rewrite <- E1. by eapply fired_quiet.
Qed.
End Properties.

(** ** A concrete codec and the witnesses *)

(** Messages with one boolean field. *)
Definition bool_codec : AttachmentCodec := {|
  Attachment := bool;
  toJson b := JObj [(u "motion", JBool b)];
  fromJson j := match j with JObj [(_, JBool b)] => Some b | _ => None end;
|}.

Lemma bool_codec_laws : @AttachmentCodecLaws bool_codec.
Proof. by constructor. Qed.
Lemma bool_codec_whole (b : bool) : @whole_number_json bool_codec b.
Proof.
  cbn. repeat split; [|check_units]. apply (bool_decide_unpack _). vm_compute. exact I.
Qed.

Definition empty_cache : @cache bool_codec :=
  {| store := ∅; pendingSaves := ∅; cursors := ∅; timers := ∅ |}.

Lemma empty_reachable : reachable empty_cache.
Proof. exists empty_cache, []. repeat split. constructor. Qed.

Definition one_attachment : list (@Attachment bool_codec) := [true].

Example draft_round_trip_witness :
  @loadDraft bool_codec (u "ann-") (saveNow (u "ann-") (u "  hello") one_attachment empty_cache)
  = {| content := u "  hello"; attachments := one_attachment |}.
Proof.
  apply (@draft_round_trip bool_codec bool_codec_laws (u "ann-") (u "  hello") one_attachment empty_cache).
  - check_units.
  - apply Forall_singleton. apply bool_codec_whole.
  - left. discriminate.
Defined.

(** A save is pending when the draft is cleared; the timer fires later. *)
Definition pending_cache : @cache bool_codec := save 7 (u "ann-") (u "x") [] empty_cache.

Lemma pending_reachable : reachable pending_cache.
Proof.
  exists empty_cache, [ESave 7 (u "ann-") (u "x") []]. split; [by repeat split|].
  eapply run_cons; [split; [lia|done]|constructor].
Qed.

Example cleared_draft_stays_cleared_witness :
  store (fire 7 (clear (u "ann-") pending_cache)) !! u "ann-" = None.
Proof.
  apply (@cleared_draft_stays_cleared bool_codec (u "ann-") pending_cache
           (fire 7 (clear (u "ann-") pending_cache)) [EFire 7]).
  - exact pending_reachable.
  - eapply run_cons; [exact I|constructor].
  - by repeat constructor.
Defined.

Example debounced_save_writes_last_witness :
  store (fire 8 (save 8 (u "ann-") (u "xy") [] pending_cache)) !! u "ann-" = Some (u "xy").
Proof.
  refine (proj1 (@debounced_save_writes_last bool_codec 8 (u "ann-") (u "xy") [] pending_cache
           (fire 8 (save 8 (u "ann-") (u "xy") [] pending_cache)) [EFire 8] _ _ _ _) _).
  - exact pending_reachable.
  - split; [lia|done].
  - eapply run_cons; [exact I|constructor].
  - by repeat constructor.
  - by left.
Defined.

(** The text of a memo that is itself a structured entry, without attachments. *)
Definition structured_memo : jstring :=
  stringify (JObj [(u "kind", JStr STRUCTURED_CACHE_ENTRY_KIND); (u "version", JNum 1);
                   (u "content", JStr (u "x"))]).

(** The format of a stored entry is ambiguous: a memo without attachments whose
    text is the JSON of a structured entry is stored as it is and read back as the
    entry's content, so the draft that is loaded is not the one that was saved. *)
Theorem structured_text_is_misread :
  @load bool_codec (u "ann-") (saveNow (u "ann-") structured_memo [] empty_cache) = u "x"
  /\ structured_memo <> u "x".
Proof. split; vm_compute; [reflexivity|discriminate]. Qed.
