(* ===== verification/AutoSave.v ===== *)
(** * Saving the draft while it is written

    web/src/components/MemoEditor/hooks/useAutoSave.ts over the draft cache: the editor's
    store tells the hook of every change, a timer writes the draft, leaving the page or
    the editor writes it at once, and discarding it clears it.  [equals] is the protobuf
    runtime's comparison of attachments. *)

From S2P Require Import Prelude JSString JSON EditorCache.

Class AttachmentEquality `{AttachmentCodec} := { equals : Attachment -> Attachment -> bool }.
(** An equivalence, and equal messages have the same JSON form. *)
Class AttachmentEqualityLaws `{AttachmentEquality} : Prop := {
  equals_refl a : equals a a = true;
  equals_sym a b : equals a b = true -> equals b a = true;
  equals_trans a b c : equals a b = true -> equals b c = true -> equals a c = true;
  equals_json a b : equals a b = true -> toJson a = toJson b }.

Section AutoSave.
Context `{AttachmentEquality}.

Definition sameDraft (left right : EditorDraft) : bool :=
  js_eqb (content left) (content right) && (length (attachments left) =? length (attachments right))%nat
  && forallb (fun p => equals p.1 p.2) (zip (attachments left) (attachments right)).

(** The store's draft, the two refs, the key while the effects are mounted, and the cache. *)
Record hook := {
  shownDraft : EditorDraft; latestDraft : EditorDraft; discardedDraft : option EditorDraft; active : option jstring; disk : cache }.

Definition with_disk (f : cache -> cache) (h : hook) : hook :=
  {| shownDraft := shownDraft h; latestDraft := latestDraft h; discardedDraft := discardedDraft h; active := active h; disk := f (disk h) |}.
(** [persist]; [id] is the timer's. *)
Definition persist (id : Z) (k : jstring) (draft : EditorDraft) (h : hook) : hook := {|
  shownDraft := shownDraft h; latestDraft := draft;
  discardedDraft := match discardedDraft h with Some d => if sameDraft d draft then Some d else None | None => None end;
  active := active h; disk := save id k (content draft) (attachments draft) (disk h) |}.
Definition flushDraft (k : jstring) (h : hook) : hook :=
  match discardedDraft h with
  | Some d => if sameDraft d (latestDraft h) then h
              else with_disk (saveNow k (content (latestDraft h)) (attachments (latestDraft h))) h
  | None => with_disk (saveNow k (content (latestDraft h)) (attachments (latestDraft h))) h
  end.
Definition with_active (o : option jstring) (h : hook) : hook :=
  {| shownDraft := shownDraft h; latestDraft := latestDraft h; discardedDraft := discardedDraft h; active := o; disk := disk h |}.
Definition with_shown (d : EditorDraft) (h : hook) : hook :=
  {| shownDraft := d; latestDraft := latestDraft h; discardedDraft := discardedDraft h; active := active h; disk := disk h |}.
(** [discardDraft]. *)
Definition discardDraft (k : jstring) (h : hook) : hook :=
  {| shownDraft := shownDraft h; latestDraft := latestDraft h; discardedDraft := Some (latestDraft h); active := active h;
     disk := clear k (disk h) |}.

(** The effects mounted with a key and their cleanup, a change of the store, the page being
    left, the draft discarded, and what the rest of the page does with the cache. *)
Inductive hook_event :=
  | Mounted (k : jstring) (id : Z) | Cleanup | Changed (d : EditorDraft) (id : Z) | PageHidden | Discard (k : jstring) | Elsewhere (e : event).
Definition hook_step (h : hook) (e : hook_event) : hook :=
  match e with
  | Mounted k id => persist id k (shownDraft h) (with_active (Some k) h)
  | Cleanup => match active h with Some k => with_active None (flushDraft k h) | None => h end
  | Changed d id =>
      let h := with_shown d h in
      match active h with Some k => if sameDraft d (latestDraft h) then h else persist id k d h | None => h end
  | PageHidden => match active h with Some k => flushDraft k h | None => h end
  | Discard k => discardDraft k h
  | Elsewhere e => with_disk (fun st => step st e) h
  end.
(** The key is one render's: mounting follows a cleanup, discarding uses the key of the
    effects, other editors have other keys, and timers are new. *)
Definition hook_ok (h : hook) (e : hook_event) : Prop :=
  match e with
  | Mounted k id => active h = None /\ event_ok (disk h) (ESave id k [] [])
  | Changed d id => event_ok (disk h) (ESave id [] [] [])
  | Discard k => match active h with Some k' => k = k' | None => True end
  | Elsewhere e => event_ok (disk h) e /\ match active h with Some k => quiet k e | None => True end
  | _ => True
  end.
Inductive hook_run : hook -> list hook_event -> hook -> Prop :=
  | hook_done h : hook_run h [] h
  | hook_more h e es h' : hook_ok h e -> hook_run (hook_step h e) es h' -> hook_run h (e :: es) h'.

(** The editor opens: the cache is any the page can have. *)
Definition hook_opened (d : EditorDraft) (st : cache) : hook :=
  {| shownDraft := d; latestDraft := d; discardedDraft := None; active := None; disk := st |}.

(** *** What the events tell *)


(** ** The draft is kept *)

Record kept (k : jstring) (h : hook) : Prop := {
  kept_shown : sameDraft (shownDraft h) (latestDraft h) = true;
  kept_timer : forall id c l, timers (disk h) !! id = Some (k, c, l) -> c = content (latestDraft h) /\ l = attachments (latestDraft h);
  kept_somewhere :
    store (disk h) !! k = entry_of (content (latestDraft h)) (attachments (latestDraft h))
    \/ (exists id, timers (disk h) !! id = Some (k, content (latestDraft h), attachments (latestDraft h)))
    \/ exists d, discardedDraft h = Some d /\ sameDraft d (latestDraft h) = true /\ store (disk h) !! k = None }.
Definition hook_good (h : hook) : Prop := registered (disk h) /\ forall k, active h = Some k -> kept k h.

Lemma saved_now k c l st : registered st ->
  registered (saveNow k c l st) /\ store (saveNow k c l st) !! k = entry_of c l
  /\ forall id c' l', timers (saveNow k c l st) !! id <> Some (k, c', l').
Proof.
  intros HR. destruct (cancel_spec k st HR) as (HC & _ & Hiff & _). split; [done|]. unfold saveNow. cbn [store timers].
  split; [apply lookup_writeEntry|]. intros id c' l' [_ Hne]%Hiff. done.
Qed.
Lemma saved_later id k c l st : registered st -> event_ok st (ESave id [] [] []) ->
  registered (save id k c l st) /\ timers (save id k c l st) !! id = Some (k, c, l)
  /\ forall id' c' l', timers (save id k c l st) !! id' = Some (k, c', l') -> c' = c /\ l' = l.
Proof.
  intros HR Hok. split; [by apply (step_registered st (ESave id k c l))|]. unfold save. cbn [timers]. split; [apply lookup_insert_eq|].
  destruct (cancel_spec k st HR) as (_ & _ & Hiff & _). intros id' c' l' [[<- [= <- <-]]|[_ E]]%lookup_insert_Some; [done|].
  rewrite clear_timeout_cancel in E. by apply Hiff in E as [_ Hne].
Qed.
Lemma cleared k st : registered st ->
  registered (clear k st) /\ store (clear k st) !! k = None /\ pendingSaves (clear k st) !! k = None
  /\ forall id c l, timers (clear k st) !! id <> Some (k, c, l).
Proof.
  intros HR. destruct (cancel_spec k st HR) as (_ & Hn & Hiff & _). split; [by apply (step_registered st (EClear k))|]. unfold clear. cbn [store timers pendingSaves].
  split; [apply lookup_delete_eq|]. split; [done|]. intros id c l [_ Hne]%Hiff. done.
Qed.

End AutoSave.

Section Kept.
Context `{AttachmentEqualityLaws}.

Lemma sameDraft_refl d : sameDraft d d = true.
Proof.
  unfold sameDraft. rewrite js_eqb_refl, Nat.eqb_refl. cbn. induction (attachments d) as [|a l IH]; [done|]. cbn. by rewrite equals_refl, IH.
Qed.

Lemma persist_kept id k d h : registered (disk h) -> event_ok (disk h) (ESave id [] [] []) -> shownDraft h = d ->
  registered (disk (persist id k d h)) /\ kept k (persist id k d h).
Proof.
  intros HR Hok Hd. destruct (saved_later id k (content d) (attachments d) (disk h) HR Hok) as (Hs1 & Hs2 & Hs3). split; [done|].
  split; cbn [shownDraft latestDraft disk persist].
  - rewrite Hd. apply sameDraft_refl.
  - done.
  - right. left. by exists id.
Qed.
Lemma flush_kept k h : registered (disk h) -> kept k h ->
  registered (disk (flushDraft k h)) /\ kept k (flushDraft k h)
  /\ (store (disk (flushDraft k h)) !! k = entry_of (content (latestDraft h)) (attachments (latestDraft h))
      \/ exists d, discardedDraft h = Some d /\ sameDraft d (latestDraft h) = true).
Proof.
  intros HR Hk. pose proof Hk as [Hs1 Hs2 Hs3]. destruct (saved_now k (content (latestDraft h)) (attachments (latestDraft h)) (disk h) HR) as (S1 & S2 & S3).
  assert (kept k (with_disk (saveNow k (content (latestDraft h)) (attachments (latestDraft h))) h)) as Hkept.
  { split; cbn; [done|intros id c l Hc; by apply S3 in Hc|by left]. }
  unfold flushDraft. destruct (discardedDraft h) as [d|] eqn:Ed; [destruct (sameDraft d (latestDraft h)) eqn:Es|].
  - split; [done|]. split; [done|]. right. by exists d.
  - split; [done|]. split; [done|]. by left.
  - split; [done|]. split; [done|]. by left.
Qed.
Lemma discard_kept k h : registered (disk h) -> kept k h -> registered (disk (discardDraft k h)) /\ kept k (discardDraft k h).
Proof.
  intros HR [Hs1 Hs2 Hs3]. destruct (cleared k (disk h) HR) as (C1 & C2 & _ & C4). split; [done|]. split; cbn; [done| |].
  - intros id c l Hc. by apply C4 in Hc.
  - right. right. exists (latestDraft h). split; [done|]. split; [apply sameDraft_refl|done].
Qed.
Lemma elsewhere_kept e k h : registered (disk h) -> event_ok (disk h) e -> quiet k e -> kept k h -> kept k (with_disk (fun st => step st e) h).
Proof.
  intros HR Hok Hq [Hs1 Hs2 Hs3]. pose proof (step_registered (disk h) e HR Hok) as HR'.
  destruct (step_quiet (disk h) e k HR Hok Hq) as [(E1 & E2 & E3)|(id & c & l & -> & Ht & E1 & E2)].
  - split; cbn; [done| |].
    + intros id c l Hc. apply HR' in Hc as Hp. rewrite E2 in Hp. apply HR in Hp as (_ & c0 & l0 & Ht).
      apply E3 in Ht as Ht'. rewrite Hc in Ht'. injection Ht' as -> ->. by apply (Hs2 id).
    + rewrite E1. destruct Hs3 as [Hs3|[(id & Hs3)|Hs3]]; [by left|right; left; exists id; by apply E3|by right; right].
  - destruct (Hs2 id c l Ht) as [-> ->]. split; cbn; [done| |by left].
    intros id' c l Hc. apply HR' in Hc. cbn in Hc, E2. congruence.
Qed.

Lemma hook_step_good h e : hook_ok h e -> hook_good h -> hook_good (hook_step h e).
Proof.
  intros Hok [HR Hk]. destruct e as [k id| |d id| |k|e]; cbn [hook_step].
  - destruct Hok as [_ Hok]. destruct (persist_kept id k (shownDraft h) (with_active (Some k) h) HR Hok eq_refl) as [P1 P2]. split; [done|].
    cbn. by intros k' [= <-].
  - destruct (active h) as [k|] eqn:Ea; [|split; [done|intros k' Ek; congruence]]. destruct (flush_kept k h HR (Hk k eq_refl)) as (F1 & _). split; [done|]. intros k' Ek. cbn in Ek. discriminate Ek.
  - cbn in Hok. destruct (active h) as [k|] eqn:Ea; cbn; rewrite ?Ea.
    + destruct (sameDraft d (latestDraft h)) eqn:Es.
      * split; [done|]. cbn. rewrite Ea. intros k' [= <-]. destruct (Hk k eq_refl). by split.
      * destruct (persist_kept id k d (with_shown d h) HR Hok eq_refl) as [P1 P2]. split; [done|]. cbn. rewrite Ea. by intros k' [= <-].
    + split; [done|]. intros k' Ek. cbn in Ek. congruence.
  - destruct (active h) as [k|] eqn:Ea; [|split; [done|intros k' Ek; congruence]]. destruct (flush_kept k h HR (Hk k eq_refl)) as (F1 & F2 & _). split; [done|].
    intros k' Ek. assert (active (flushDraft k h) = active h) as Ef by (unfold flushDraft; destruct (discardedDraft h) as [d|]; [by destruct (sameDraft d _)|done]).
    rewrite Ef, Ea in Ek. by injection Ek as <-.
  - split; [by apply cleared|]. cbn. intros k' Ek. cbn in Hok. rewrite Ek in Hok. subst k'. apply discard_kept; [done|]. by apply Hk.
  - destruct Hok as [Hok Hq]. split; [by apply step_registered|]. intros k Ek. cbn in Ek. rewrite Ek in Hq. apply elsewhere_kept; try done. by apply Hk.
Qed.
Lemma hook_run_good h es h' : hook_run h es h' -> hook_good h -> hook_good h'.
Proof. induction 1 as [|h e es h' Hok _ IH]; [done|]. intros Hg. by apply IH, hook_step_good. Qed.






(** What keeps a discarded draft discarded. *)
Definition calm (k : jstring) (d : EditorDraft) (e : hook_event) : Prop :=
  match e with Mounted _ _ => False | Changed d' _ => sameDraft d' d = true | Elsewhere e => no_write k e | _ => True end.

(** A discarded draft does not come back: from any point of an editor's life, once its
    draft is discarded the entry is gone and stays gone, whatever timers were running,
    however often the page is hidden, and when the editor closes, as long as the draft shown
    is the discarded one. *)
Theorem discarded_draft_stays_gone (d0 : EditorDraft) (st : cache) (es es' : list hook_event) (h h' : hook) (k : jstring) (Hst : reachable st)
    (Hrun : hook_run (hook_opened d0 st) es h) (Hk : active h = Some k) (Hcalm : Forall (calm k (latestDraft h)) es')
    (Hrun' : hook_run (hook_step h (Discard k)) es' h') :
  store (disk h') !! k = None /\ loadDraft k (disk h') = {| content := []; attachments := [] |}.
Proof.
  assert (store (disk h') !! k = None) as Hs; [|split; [done|unfold loadDraft; by rewrite Hs]].
  assert (registered (disk h)) as HR.
  { eapply hook_run_good; [exact Hrun|]. split; [by apply reachable_registered|]. intros k' Ek. cbn in Ek. discriminate Ek. }
  set (d := latestDraft h) in *. destruct (cleared k (disk h) HR) as (C1 & C2 & C3 & _).
  assert (forall g, registered (disk g) -> store (disk g) !! k = None -> pendingSaves (disk g) !! k = None -> latestDraft g = d -> discardedDraft g = Some d ->
    forall es g', hook_run g es g' -> Forall (calm k d) es -> store (disk g') !! k = None) as Hall; [|by apply (Hall (hook_step h (Discard k)) C1 C2 C3 eq_refl eq_refl es')].
  clear -H1. intros g HR N1 N2 El Ed es g' Hrun. revert HR N1 N2 El Ed.
  induction Hrun as [g|g e es g' Hok _ IH]; intros HR N1 N2 El Ed Hc; [done|]. inversion Hc as [|? ? He Hc']; subst e es.
  assert (forall k', flushDraft k' g = g) as Hflush by (intros k'; unfold flushDraft; by rewrite Ed, El, sameDraft_refl).
  destruct x as [k' id| |d' id| |k'|e]; [done|..]; cbn [hook_step] in *.
  - destruct (active g) as [k'|]; [|by apply IH]. rewrite Hflush in IH. by apply IH.
  - cbn in He. destruct (active g) as [k'|] eqn:Ea; cbn in IH; rewrite Ea in IH; [rewrite El, He in IH|]; by apply IH.
  - destruct (active g) as [k'|]; [|by apply IH]. rewrite Hflush in IH. by apply IH.
  - destruct (cleared k' (disk g) HR) as (D1 & _). apply IH; try done; cbn; [| |by rewrite El].
    + unfold clear. cbn. destruct (decide (k = k')) as [->|Hne]; [apply lookup_delete_eq|]. rewrite lookup_delete_ne by done. by destruct (cancel_spec k' (disk g) HR) as (_ & _ & _ & -> & _).
    + unfold clear. cbn. unfold cancel. destruct (truthy _); [|done]. cbn. apply lookup_delete_None. by right.
  - destruct Hok as [Hok _]. destruct (step_no_write (disk g) e k HR Hok He N1 N2). apply IH; try done. by apply step_registered.
Qed.
End Kept.

(** ** One editor *)

#[export] Instance bool_equality : @AttachmentEquality bool_codec := {| equals := (Bool.eqb : @Attachment bool_codec -> @Attachment bool_codec -> bool) |}.
#[export] Instance bool_equality_laws : @AttachmentEqualityLaws bool_codec bool_equality.
Proof. constructor; [by intros []|intros a b E; by apply Bool.eqb_prop in E as ->; apply Bool.eqb_reflx|intros a b c E1 E2; by apply Bool.eqb_prop in E1 as ->|]. intros a b E. by apply Bool.eqb_prop in E as ->. Qed.

Definition note (s : jstring) : @EditorDraft bool_codec := {| content := s; attachments := [] |}.
Definition typing : list (@hook_event bool_codec) := [Mounted (u "ann-") 1; Changed (note (u "he")) 2; Changed (note (u "hello")) 3].
Definition typed : @hook bool_codec := foldl hook_step (hook_opened (note []) empty_cache) typing.

Lemma typing_runs : hook_run (hook_opened (note []) empty_cache) typing typed.
Proof. repeat (eapply hook_more; [by repeat split|]). constructor. Qed.


Lemma discarded_draft_stays_gone_witness :
  store (disk (foldl hook_step typed [Discard (u "ann-"); Elsewhere (EFire 3); PageHidden; Cleanup])) !! u "ann-" = None.
Proof.
  refine (proj1 (discarded_draft_stays_gone (note []) empty_cache typing [Elsewhere (EFire 3); PageHidden; Cleanup] typed _ (u "ann-")
    empty_reachable typing_runs eq_refl _ _)).
  - by repeat constructor.
  - repeat (eapply hook_more; [by repeat split|]). constructor.
Defined.

(** Rendering the editor again with another key brings a discarded draft back under it. *)
Example discarded_under_another_key :
  let h := foldl hook_step typed [Discard (u "ann-"); Cleanup; Mounted (u "ann-b") 4; Elsewhere (EFire 4)] in
  store (disk h) !! u "ann-" = None /\ store (disk h) !! u "ann-b" = Some (u "hello").
Proof. split; vm_compute; reflexivity. Qed.
