(* ===== verification/EditorStore.v ===== *)
(** * The editor's state (web/src/components/MemoEditor/state/)

    The reducer, the state it works on, its initial value and the action creators.
    An action names the parts of the state it writes; [editorReducer_last_writer]
    gives the value of every part after any sequence of actions. *)

From S2P Require Import Prelude JSString.

(** The types that other modules define: attachments, relations, locations, polls and
    files are opaque to the reducer, but a file's preview URL identifies it. *)
Class EditorTypes := {
  Visibility : Type;
  PUBLIC : Visibility;
  AttachmentMessage : Type;
  MemoRelation : Type;
  Location : Type;
  Poll : Type;
  LocalFile : Type;
  previewUrl : LocalFile -> jstring;
}.

Section Store.
Context `{EditorTypes}.

Inductive LoadingKey := saving | uploading | loading.
Inductive ContentSource := editor | external.

Record metadata := {
  visibility : Visibility;
  attachments : list AttachmentMessage;
  relations : list MemoRelation;
  location : option Location;
  category : option jstring;
  hidden : bool;
  anonymous : bool;
  adminScript : jstring;
  poll : option Poll;
  pollImageLocalFileURL : option jstring;
  pollOptionImageLocalFileURLs : option (list (jstring * jstring));
  draft : bool;
  publishTime : option Z;
}.

Record timestamps := { createTime : option Z; updateTime : option Z; hideTime : bool }.

Record isLoading := { loading_saving : bool; loading_uploading : bool; loading_loading : bool }.

Record ui := { isFocusMode : bool; pendingInlineImageInsertions : Z; ui_isLoading : isLoading }.

Record EditorState := {
  content : jstring;
  contentSource : ContentSource;
  state_metadata : metadata;
  state_ui : ui;
  state_timestamps : timestamps;
  localFiles : list LocalFile;
  recorderBusy : bool;
}.

(** A [Partial<...>]: the properties that are present; an optional property can be
    present with the value [undefined]. *)
Record partial_metadata := {
  p_visibility : option Visibility;
  p_attachments : option (list AttachmentMessage);
  p_relations : option (list MemoRelation);
  p_location : option (option Location);
  p_category : option (option jstring);
  p_hidden : option bool;
  p_anonymous : option bool;
  p_adminScript : option jstring;
  p_poll : option (option Poll);
  p_pollImageLocalFileURL : option (option jstring);
  p_pollOptionImageLocalFileURLs : option (option (list (jstring * jstring)));
  p_draft : option bool;
  p_publishTime : option (option Z);
}.
Record partial_timestamps := {
  p_createTime : option (option Z); p_updateTime : option (option Z); p_hideTime : option bool }.

(** [{ ...m, ...p }]. *)
Definition spread_metadata (m : metadata) (p : partial_metadata) : metadata := {|
  visibility := default (visibility m) (p_visibility p);
  attachments := default (attachments m) (p_attachments p);
  relations := default (relations m) (p_relations p);
  location := default (location m) (p_location p);
  category := default (category m) (p_category p);
  hidden := default (hidden m) (p_hidden p);
  anonymous := default (anonymous m) (p_anonymous p);
  adminScript := default (adminScript m) (p_adminScript p);
  poll := default (poll m) (p_poll p);
  pollImageLocalFileURL := default (pollImageLocalFileURL m) (p_pollImageLocalFileURL p);
  pollOptionImageLocalFileURLs :=
    default (pollOptionImageLocalFileURLs m) (p_pollOptionImageLocalFileURLs p);
  draft := default (draft m) (p_draft p);
  publishTime := default (publishTime m) (p_publishTime p);
|}.
Definition spread_timestamps (t : timestamps) (p : partial_timestamps) : timestamps := {|
  createTime := default (createTime t) (p_createTime p);
  updateTime := default (updateTime t) (p_updateTime p);
  hideTime := default (hideTime t) (p_hideTime p);
|}.

Inductive EditorAction :=
  | INIT_MEMO (c : jstring) (m : metadata) (t : timestamps)
  | UPDATE_CONTENT (c : jstring) (source : ContentSource)
  | SET_METADATA (p : partial_metadata)
  | ADD_LOCAL_FILE (f : LocalFile)
  | REMOVE_LOCAL_FILE (url : jstring)
  | SET_LOCAL_FILES (fs : list LocalFile)
  | TOGGLE_FOCUS_MODE
  | SET_LOADING (key : LoadingKey) (value : bool)
  | SET_PENDING_INLINE_IMAGE_INSERTIONS (n : Z)
  | SET_TIMESTAMPS (p : partial_timestamps)
  | SET_RECORDER_BUSY (b : bool)
  | RESET.

Definition defaultState : EditorState := {|
  content := []; contentSource := external;
  state_metadata := {|
    visibility := PUBLIC; attachments := []; relations := []; location := None; category := None;
    hidden := false; anonymous := false; adminScript := []; poll := None;
    pollImageLocalFileURL := None; pollOptionImageLocalFileURLs := None; draft := false;
    publishTime := None |};
  state_ui := {|
    isFocusMode := false; pendingInlineImageInsertions := 0;
    ui_isLoading := {| loading_saving := false; loading_uploading := false; loading_loading := false |} |};
  state_timestamps := {| createTime := None; updateTime := None; hideTime := false |};
  localFiles := []; recorderBusy := false;
|}.

Definition createInitialState (initialFocusMode : bool) : EditorState := {|
  content := content defaultState; contentSource := contentSource defaultState;
  state_metadata := state_metadata defaultState;
  state_ui := {| isFocusMode := initialFocusMode;
                 pendingInlineImageInsertions := pendingInlineImageInsertions (state_ui defaultState);
                 ui_isLoading := ui_isLoading (state_ui defaultState) |};
  state_timestamps := state_timestamps defaultState; localFiles := localFiles defaultState;
  recorderBusy := recorderBusy defaultState;
|}.

Definition source_eqb (a b : ContentSource) : bool :=
  match a, b with editor, editor | external, external => true | _, _ => false end.

Definition set_loading (key : LoadingKey) (value : bool) (l : isLoading) : isLoading :=
  match key with
  | saving => {| loading_saving := value; loading_uploading := loading_uploading l; loading_loading := loading_loading l |}
  | uploading => {| loading_saving := loading_saving l; loading_uploading := value; loading_loading := loading_loading l |}
  | loading => {| loading_saving := loading_saving l; loading_uploading := loading_uploading l; loading_loading := value |}
  end.

Definition editorReducer (st : EditorState) (action : EditorAction) : EditorState :=
  let with_ui u :=
    {| content := content st; contentSource := contentSource st; state_metadata := state_metadata st;
       state_ui := u; state_timestamps := state_timestamps st; localFiles := localFiles st;
       recorderBusy := recorderBusy st |} in
  let with_files fs :=
    {| content := content st; contentSource := contentSource st; state_metadata := state_metadata st;
       state_ui := state_ui st; state_timestamps := state_timestamps st; localFiles := fs;
       recorderBusy := recorderBusy st |} in
  match action with
  | INIT_MEMO c m t =>
      {| content := c; contentSource := external; state_metadata := m; state_ui := state_ui st;
         state_timestamps := t; localFiles := localFiles st; recorderBusy := recorderBusy st |}
  | UPDATE_CONTENT c source =>
      if js_eqb (content st) c && source_eqb (contentSource st) source then st
      else {| content := c; contentSource := source; state_metadata := state_metadata st;
              state_ui := state_ui st; state_timestamps := state_timestamps st;
              localFiles := localFiles st; recorderBusy := recorderBusy st |}
  | SET_METADATA p =>
      {| content := content st; contentSource := contentSource st;
         state_metadata := spread_metadata (state_metadata st) p; state_ui := state_ui st;
         state_timestamps := state_timestamps st; localFiles := localFiles st;
         recorderBusy := recorderBusy st |}
  | ADD_LOCAL_FILE f => with_files (localFiles st ++ [f])
  | REMOVE_LOCAL_FILE url => with_files (js_filter (fun f => negb (js_eqb (previewUrl f) url)) (localFiles st))
  | SET_LOCAL_FILES fs => with_files fs
  | TOGGLE_FOCUS_MODE =>
      with_ui {| isFocusMode := negb (isFocusMode (state_ui st));
                 pendingInlineImageInsertions := pendingInlineImageInsertions (state_ui st);
                 ui_isLoading := ui_isLoading (state_ui st) |}
  | SET_LOADING key value =>
      with_ui {| isFocusMode := isFocusMode (state_ui st);
                 pendingInlineImageInsertions := pendingInlineImageInsertions (state_ui st);
                 ui_isLoading := set_loading key value (ui_isLoading (state_ui st)) |}
  | SET_PENDING_INLINE_IMAGE_INSERTIONS n =>
      with_ui {| isFocusMode := isFocusMode (state_ui st); pendingInlineImageInsertions := n;
                 ui_isLoading := ui_isLoading (state_ui st) |}
  | SET_TIMESTAMPS p =>
      {| content := content st; contentSource := contentSource st; state_metadata := state_metadata st;
         state_ui := state_ui st; state_timestamps := spread_timestamps (state_timestamps st) p;
         localFiles := localFiles st; recorderBusy := recorderBusy st |}
  | SET_RECORDER_BUSY b =>
      {| content := content st; contentSource := contentSource st; state_metadata := state_metadata st;
         state_ui := state_ui st; state_timestamps := state_timestamps st; localFiles := localFiles st;
         recorderBusy := b |}
  | RESET => createInitialState false
  end.

(** ** Action creators *)

Definition initMemo := INIT_MEMO.
Definition updateContent (c : jstring) : EditorAction := UPDATE_CONTENT c editor.
Definition setContent (c : jstring) : EditorAction := UPDATE_CONTENT c external.
Definition setMetadata := SET_METADATA.
Definition addLocalFile := ADD_LOCAL_FILE.
Definition removeLocalFile := REMOVE_LOCAL_FILE.
Definition setLocalFiles := SET_LOCAL_FILES.
Definition toggleFocusMode := TOGGLE_FOCUS_MODE.
Definition setLoading := SET_LOADING.
Definition setPendingInlineImageInsertions := SET_PENDING_INLINE_IMAGE_INSERTIONS.
Definition setTimestamps := SET_TIMESTAMPS.
Definition setRecorderBusy := SET_RECORDER_BUSY.
Definition reset := RESET.

(** ** Sequences of actions *)

Definition dispatch_all (st : EditorState) (actions : list EditorAction) : EditorState :=
  foldl editorReducer st actions.

(** The last action that decides a part of the state, latest first. *)
Fixpoint last_write {A} (write : EditorAction -> option A) (initial : A) (actions : list EditorAction) : A :=
  match actions with
  | [] => initial
  | a :: actions' => last_write write (default initial (write a)) actions'
  end.

Definition writes_content (a : EditorAction) : option (jstring * ContentSource) :=
  match a with
  | INIT_MEMO c _ _ => Some (c, external)
  | UPDATE_CONTENT c s => Some (c, s)
  | RESET => Some ([], external)
  | _ => None
  end.

Definition writes_recorder (a : EditorAction) : option bool :=
  match a with SET_RECORDER_BUSY b => Some b | RESET => Some false | _ => None end.

Definition writes_loading (key : LoadingKey) (a : EditorAction) : option bool :=
  match a with
  | SET_LOADING k v => match k, key with
                       | saving, saving | uploading, uploading | loading, loading => Some v
                       | _, _ => None
                       end
  | RESET => Some false
  | _ => None
  end.

Definition get_loading (key : LoadingKey) (l : isLoading) : bool :=
  match key with
  | saving => loading_saving l | uploading => loading_uploading l | loading => loading_loading l
  end.

(** The changes of the files since the last replacement, as a filter of a list. *)
Definition files_step (fs : list LocalFile) (a : EditorAction) : list LocalFile :=
  match a with
  | ADD_LOCAL_FILE f => fs ++ [f]
  | REMOVE_LOCAL_FILE url => js_filter (fun f => negb (js_eqb (previewUrl f) url)) fs
  | SET_LOCAL_FILES fs' => fs'
  | RESET => []
  | _ => fs
  end.

Definition writes_metadata (m : metadata) (a : EditorAction) : metadata :=
  match a with
  | INIT_MEMO _ m' _ => m'
  | SET_METADATA p => spread_metadata m p
  | RESET => state_metadata defaultState
  | _ => m
  end.

Definition writes_timestamps (t : timestamps) (a : EditorAction) : timestamps :=
  match a with
  | INIT_MEMO _ _ t' => t'
  | SET_TIMESTAMPS p => spread_timestamps t p
  | RESET => state_timestamps defaultState
  | _ => t
  end.

Lemma reducer_content st a :
  (content (editorReducer st a), contentSource (editorReducer st a))
  = default (content st, contentSource st) (writes_content a).
Proof.
  destruct a as [| c source | | | | | | | | | |]; try done. cbn.
  destruct (js_eqb (content st) c) eqn:E1; [|done]. unfold js_eqb in E1. bool_prop.
  destruct (contentSource st) eqn:E2, source; cbn; rewrite ?E2; subst; done.
Qed.

Lemma reducer_unchanged_by_update st c s :
  state_metadata (editorReducer st (UPDATE_CONTENT c s)) = state_metadata st
  /\ state_ui (editorReducer st (UPDATE_CONTENT c s)) = state_ui st
  /\ state_timestamps (editorReducer st (UPDATE_CONTENT c s)) = state_timestamps st
  /\ localFiles (editorReducer st (UPDATE_CONTENT c s)) = localFiles st
  /\ recorderBusy (editorReducer st (UPDATE_CONTENT c s)) = recorderBusy st.
Proof. cbn. by destruct (_ && _). Qed.

(** A part of the state is a fold of its own over the actions. *)
Lemma dispatch_part {A} (part : EditorState -> A) (step : A -> EditorAction -> A) :
  (forall st a, part (editorReducer st a) = step (part st) a) ->
  forall actions st, part (dispatch_all st actions) = foldl step (part st) actions.
Proof.
  intros Hs. unfold dispatch_all. induction actions as [|a actions IH]; intros st; [done|].
  simpl. by rewrite IH, Hs.
Qed.

Lemma last_write_fold {A} (write : EditorAction -> option A) actions init :
  last_write write init actions = foldl (fun x a => default x (write a)) init actions.
Proof. revert init. induction actions as [|a actions IH]; intros init; [done|]. simpl. apply IH. Qed.

(** The parts of the editor's state do not interfere: after any sequence of
    actions, the content and its source are those of the last action that writes
    them, the recorder flag and every loading flag likewise, and the metadata, the
    timestamps and the files are what the actions on them alone give, in order. *)
Theorem editorReducer_last_writer (st : EditorState) (actions : list EditorAction) :
  let st' := dispatch_all st actions in
  (content st', contentSource st') = last_write writes_content (content st, contentSource st) actions
  /\ recorderBusy st' = last_write writes_recorder (recorderBusy st) actions
  /\ (forall key, get_loading key (ui_isLoading (state_ui st'))
                  = last_write (writes_loading key) (get_loading key (ui_isLoading (state_ui st))) actions)
  /\ state_metadata st' = foldl writes_metadata (state_metadata st) actions
  /\ state_timestamps st' = foldl writes_timestamps (state_timestamps st) actions
  /\ localFiles st' = foldl files_step (localFiles st) actions.
Proof.
  cbv zeta. split; [|split; [|split; [|split; [|split]]]].
  - rewrite last_write_fold. apply (dispatch_part (fun s => (content s, contentSource s))), reducer_content.
  - rewrite last_write_fold. apply (dispatch_part recorderBusy). intros s a.
    destruct a; try done. apply reducer_unchanged_by_update.
  - intros key. rewrite last_write_fold.
    apply (dispatch_part (fun s => get_loading key (ui_isLoading (state_ui s)))). intros s a.
    destruct a as [| c src | | | | | |k v| | | |]; try done; [|by destruct k, key|by destruct key].
    by destruct (reducer_unchanged_by_update s c src) as (_ & -> & _).
  - apply (dispatch_part state_metadata). intros s a. destruct a; try done. apply reducer_unchanged_by_update.
  - apply (dispatch_part state_timestamps). intros s a. destruct a; try done. apply reducer_unchanged_by_update.
  - apply (dispatch_part localFiles). intros s a. destruct a; try done. apply reducer_unchanged_by_update.
Qed.
End Store.
