(* ===== verification/HomeToday.v ===== *)
(** * Today's card

    web/src/utils/home-today.ts: the writing streak, the same day in past years, and
    the card put away for a day.  The loop over consecutive days is generic here: the
    visit streak of blog-progress.ts runs the same one. *)

From S2P Require Import Prelude JSString JSDate.

(** ** Runs of consecutive days *)

Section Streak.
Context {D : Type} (key : D -> jstring) (before : D -> D).

(** [while (days.has(key(day))) { streak += 1; day = before(day); }]; the fuel is the
    number of days the set holds, which [streak_spec] shows to be enough. *)
Definition streak_body (days : gset jstring) (st : Z * D) : option (Z * D) :=
  let '(streak, day) := st in
  if decide (key day ∈ days) then Some (streak + 1, before day) else None.

Definition streak_run (days : gset jstring) (start : D) : Z :=
  fst (while_ (S (size days)) (streak_body days) (0, start)).

Fixpoint nth_before (n : nat) (d : D) : D :=
  match n with O => d | S n' => nth_before n' (before d) end.

Lemma nth_before_S n d : nth_before (S n) d = before (nth_before n d).
Proof. revert d. induction n as [|n IH]; intros d; [done|]. cbn in *. apply IH. Qed.

(** The keys of the last [n] days. *)
Fixpoint keys_back (n : nat) (d : D) : list jstring :=
  match n with O => [] | S n' => key d :: keys_back n' (before d) end.

Lemma elem_of_keys_back n d k : k ∈ keys_back n d <-> exists i, (i < n)%nat /\ k = key (nth_before i d).
Proof.
  revert d. induction n as [|n IH]; intros d; cbn.
  - split; [intros H; inversion H|intros (i & ? & _); lia].
  - rewrite elem_of_cons, IH. split.
    + intros [->|(i & Hi & ->)]; [exists 0%nat; split; [lia|done]|exists (S i); split; [lia|done]].
    + intros ([|i] & Hi & ->); [by left|right; exists i; split; [lia|done]].
Qed.

Lemma NoDup_keys_back n d :
  (forall i j, (i < j < n)%nat -> key (nth_before i d) <> key (nth_before j d)) -> NoDup (keys_back n d).
Proof.
  revert d. induction n as [|n IH]; intros d H; cbn; [constructor|]. constructor.
  - intros (i & Hi & Hk)%elem_of_keys_back. apply (H 0%nat (S i)); [lia|done].
  - apply IH. intros i j Hij. apply (H (S i) (S j)). lia.
Qed.

Lemma streak_turns days m n d z :
  (m <= n)%nat -> Forall (fun k => k ∈ days) (keys_back m d) ->
  while_ n (streak_body days) (z, d) = while_ (n - m) (streak_body days) (z + Z.of_nat m, nth_before m d).
Proof.
  revert n d z. induction m as [|m IH]; intros n d z Hle Hall.
  - rewrite Nat.sub_0_r, Z.add_0_r. done.
  - destruct n as [|n]; [lia|]. cbn in Hall. inversion Hall as [|? ? Hk Hrest]; subst.
    cbn [while_ streak_body]. rewrite decide_True by done. rewrite IH by (done || lia).
    cbn [Nat.sub nth_before]. do 2 f_equal. lia.
Qed.

(** The loop counts the days until the first one that is not in the set. *)
Lemma streak_spec (days : gset jstring) start :
  (forall i j, (i < j)%nat -> (forall k, (k < j)%nat -> key (nth_before k start) ∈ days) ->
     key (nth_before i start) <> key (nth_before j start)) ->
  let n := Z.to_nat (streak_run days start) in
  streak_run days start = Z.of_nat n
  /\ (forall i, (i < n)%nat -> key (nth_before i start) ∈ days) /\ key (nth_before n start) ∉ days.
Proof.
  intros Hinj.
  assert (exists n, (n <= size days)%nat /\ (forall i, (i < n)%nat -> key (nth_before i start) ∈ days)
    /\ key (nth_before n start) ∉ days) as (n & Hn & Hin & Hout).
  { destruct (decide (Exists (fun i => key (nth_before i start) ∉ days) (seq 0 (S (size days))))) as [He|He].
    - apply Exists_exists in He as (m & Hm & Hmo). apply elem_of_seq in Hm.
      induction (lt_wf m) as [m _ IH].
      destruct (decide (Forall (fun i => key (nth_before i start) ∈ days) (seq 0 m))) as [Ha|Ha].
      + exists m. split; [lia|]. split; [|done]. intros i Hi. rewrite Forall_forall in Ha. apply Ha, elem_of_seq. lia.
      + apply not_Forall_Exists in Ha; [|apply _]. apply Exists_exists in Ha as (i & Hi & Hio).
        apply elem_of_seq in Hi. apply (IH i); [lia|lia|done].
    - exfalso. apply not_Exists_Forall in He; [|apply _]. rewrite Forall_forall in He.
      assert (NoDup (keys_back (S (size days)) start)) as Hnd.
      { apply NoDup_keys_back. intros i j Hij. apply Hinj; [lia|]. intros k Hk.
        apply dec_stable. apply He, elem_of_seq. lia. }
      assert (list_to_set (keys_back (S (size days)) start) ⊆ days) as Hsub.
      { intros k Hk. apply elem_of_list_to_set, elem_of_keys_back in Hk as (i & Hi & ->).
        apply dec_stable. apply He, elem_of_seq. lia. }
      apply subseteq_size in Hsub. rewrite size_list_to_set in Hsub by done.
      assert (forall m d, length (keys_back m d) = m) as Hl.
      { induction m as [|m IHm]; intros d; cbn; [done|]. by rewrite IHm. }
      rewrite Hl in Hsub. lia. }
  assert (streak_run days start = Z.of_nat n) as Hr.
  { unfold streak_run. rewrite (streak_turns days n); [|lia|].
    - replace (S (size days) - n)%nat with (S (size days - n)) by lia. cbn [while_ streak_body].
      rewrite decide_False by done. cbn. lia.
    - apply Forall_forall. intros k (i & Hi & ->)%elem_of_keys_back. auto. }
  rewrite Hr. rewrite Nat2Z.id. done.
Qed.
End Streak.

(** ** home-today.ts *)

Definition pad (value : Z) : jstring := pad_start 2 48 (string_of_int value).

Definition dayKey (date : local_date) : jstring :=
  string_of_int (getFullYear date) ++ [45] ++ pad (getMonth date + 1) ++ [45] ++ pad (getDate date).

(** [new Date(year, month, date - 1)]. *)
Definition dayBefore (date : local_date) : local_date :=
  date_of_day (day_number (full_year (getFullYear date)) (getMonth date) (getDate date - 1)).

Record WritingStreak := { days : Z; wroteToday : bool; todayCount : Z }.

(** [counts.set(k, (counts.get(k) ?? 0) + 1)]. *)
Definition bump {K} `{Countable K} (counts : gmap K Z) (k : K) : gmap K Z := <[k := default 0 (counts !! k) + 1]> counts.

Definition writingStreak (created : list local_date) (today : local_date) : WritingStreak :=
  let counts := foldl (fun counts date => bump counts (dayKey date)) (∅ : gmap jstring Z) created in
  let todayCount := default 0 (counts !! dayKey today) in
  let day := if todayCount >? 0 then today else dayBefore today in
  {| days := streak_run dayKey dayBefore (dom counts) day;
     wroteToday := todayCount >? 0;
     todayCount := todayCount |}.

Record PastDay := { year : Z; count : Z; pd_key : jstring }.

Definition same_day (date today : local_date) : bool :=
  (getMonth date =? getMonth today) && (getDate date =? getDate today) && (getFullYear date <? getFullYear today).

Definition sameDayInPastYears (created : list local_date) (today : local_date) : list PastDay :=
  let byYear := foldl (fun byYear date => if same_day date today then bump byYear (getFullYear date) else byYear)
                  (∅ : gmap Z Z) created in
  (fun '(y, c) => {| year := y; count := c;
                     pd_key := string_of_int y ++ [45] ++ pad (getMonth today + 1) ++ [45] ++ pad (getDate today) |})
    <$> sort_by (fun a b => fst b <=? fst a) (map_to_list byYear).

(** The entry of the storage, when the storage can be used. *)
Definition isTodayCardHidden (storage : option (option jstring)) (today : local_date) : bool :=
  match storage with
  | Some item => bool_decide (item = Some (dayKey today))
  | None => false
  end.
Definition hideTodayCard (storage : option (option jstring)) (today : local_date) : option (option jstring) :=
  match storage with Some _ => Some (Some (dayKey today)) | None => None end.

(** ** Lemmas *)

Lemma bump_count {K} `{Countable K} (l : list K) (m : gmap K Z) k :
  default 0 (foldl bump m l !! k) = default 0 (m !! k) + Z.of_nat (length (filter (fun x => x = k) l)).
Proof.
  revert m. induction l as [|x l IH]; intros m; cbn [foldl]; [cbn; lia|]. rewrite IH.
  unfold bump at 1. rewrite filter_cons. destruct (decide (x = k)) as [->|Hne].
  - rewrite lookup_insert_eq. cbn [length]. change (default 0 (Some (default 0 (m !! k) + 1))) with (default 0 (m !! k) + 1). lia.
  - by rewrite lookup_insert_ne.
Qed.

Lemma bump_dom {K} `{Countable K} (l : list K) (m : gmap K Z) :
  dom (foldl bump m l) = list_to_set l ∪ dom m.
Proof.
  revert m. induction l as [|x l IH]; intros m; cbn [foldl list_to_set]; [set_solver|]. rewrite IH.
  unfold bump. rewrite dom_insert_L. set_solver.
Qed.

Lemma pad_two v : 0 <= v < 100 -> pad v = [48 + v / 10; 48 + v mod 10].
Proof.
  intros Hv.
  assert (forallb (fun n => bool_decide (pad (Z.of_nat n) = [48 + Z.of_nat n / 10; 48 + Z.of_nat n mod 10])) (seq 0 100)
    = true) as H by (vm_compute; reflexivity).
  rewrite forallb_forall in H. specialize (H (Z.to_nat v)). rewrite Z2Nat.id in H by lia.
  eapply bool_decide_eq_true_1, H. apply in_seq. lia.
Qed.

Lemma pad_inj a b : 0 <= a < 100 -> 0 <= b < 100 -> pad a = pad b -> a = b.
Proof.
  intros Ha Hb. rewrite !pad_two by done. intros [= H1 H2].
  rewrite (Z.div_mod a 10), (Z.div_mod b 10) by lia. lia.
Qed.

(** A date whose year [new Date(year, ...)] reads as written, and the one before it. *)
Definition shown_date (d : local_date) : Prop := valid_date d /\ 101 <= getFullYear d.
Definition day_of (d : local_date) : Z := day_number (getFullYear d) (getMonth d) (getDate d).

Lemma dayBefore_day d : valid_date d -> 100 <= getFullYear d -> valid_date (dayBefore d) /\ day_of (dayBefore d) = day_of d - 1.
Proof.
  intros [Hm Hd] Hy. unfold dayBefore, day_of. split; [apply date_of_day_valid|].
  rewrite date_of_day_number. unfold full_year.
  rewrite (proj2 (Z.leb_gt (getFullYear d) 99)) by lia. rewrite andb_false_r.
  rewrite !day_number_date by done. lia.
Qed.

Lemma year_before d d' :
  valid_date d -> valid_date d' -> day_of d' = day_of d - 1 -> 101 <= getFullYear d -> 100 <= getFullYear d'.
Proof.
  intros [Hm Hdd] [Hm' Hdd'] Hd Hy.
  destruct (decide (100 <= getFullYear d')) as [?|Hlt]; [done|]. exfalso.
  unfold day_of in Hd. rewrite !day_number_date in Hd by done.
  pose proof (month_start_bounds _ _ _ Hm Hdd) as H1. pose proof (month_start_bounds _ _ _ Hm' Hdd') as H2.
  pose proof (day_from_year_next (getFullYear d') 100 ltac:(lia)) as H3.
  pose proof (day_from_year_mono 100 (getFullYear d) ltac:(lia)) as H4.
  generalize dependent (day_from_year 100). generalize dependent (day_from_year (getFullYear d)).
  generalize dependent (day_from_year (getFullYear d')). intros.
  destruct (is_leap (getFullYear d')), (is_leap (getFullYear d)); lia.
Qed.

Lemma dayKey_inj a b :
  valid_date a -> valid_date b -> 0 <= getFullYear a -> 0 <= getFullYear b -> dayKey a = dayKey b -> a = b.
Proof.
  intros [Hma Hda] [Hmb Hdb] Hya Hyb. unfold dayKey.
  assert (forall d, valid_date d -> 0 <= getDate d < 100) as Hdd.
  { intros d [_ Hd]. unfold days_in_month in Hd. repeat case_match; lia. }
  pose proof (Hdd a (conj Hma Hda)). pose proof (Hdd b (conj Hmb Hdb)).
  intros E. assert (string_of_int (getFullYear a) = string_of_int (getFullYear b)
    /\ pad (getMonth a + 1) ++ [45] ++ pad (getDate a) = pad (getMonth b + 1) ++ [45] ++ pad (getDate b)) as [E1 E2].
  { apply app_inj_2 in E as [E1 E2]; [split; [done|]; apply (inj (cons 45)) in E2; exact E2|].
    rewrite !length_app, !pad_two by lia. done. }
  apply string_of_int_inj in E1; [|done..].
  rewrite !pad_two in E2 by lia. injection E2 as E3 E4 E5 E6.
  assert (getMonth a = getMonth b).
  { pose proof (Z.div_mod (getMonth a + 1) 10). pose proof (Z.div_mod (getMonth b + 1) 10). lia. }
  assert (getDate a = getDate b).
  { pose proof (Z.div_mod (getDate a) 10). pose proof (Z.div_mod (getDate b) 10). lia. }
  destruct a, b; cbn in *; congruence.
Qed.

Section Written.
Context (created : list local_date) (Hc : Forall shown_date created).

Definition written_days : gset jstring := list_to_set (dayKey <$> created).

Lemma written_key d : valid_date d -> 0 <= getFullYear d -> dayKey d ∈ written_days <-> d ∈ created.
Proof.
  intros Hv Hy. unfold written_days. rewrite elem_of_list_to_set, list_elem_of_fmap. split.
  - intros (c & E & Hin). rewrite Forall_forall in Hc. destruct (Hc c Hin) as [Hcv Hcy].
    apply dayKey_inj in E; [by subst|done|done|lia|lia].
  - intros Hin. eauto.
Qed.

Lemma days_back start n :
  valid_date start -> 100 <= getFullYear start ->
  (forall k, (k < n)%nat -> dayKey (nth_before dayBefore k start) ∈ written_days) ->
  valid_date (nth_before dayBefore n start) /\ 100 <= getFullYear (nth_before dayBefore n start)
  /\ day_of (nth_before dayBefore n start) = day_of start - Z.of_nat n.
Proof.
  intros Hv Hy. induction n as [|n IH]; intros Hin; [cbn [nth_before]; split; [done|]; split; [done|]; lia|].
  destruct IH as (H1 & H2 & H3); [intros k Hk; apply Hin; lia|]. rewrite nth_before_S.
  set (d := nth_before dayBefore n start) in *.
  assert (d ∈ created) as Hd by (apply written_key; [done|lia|apply Hin; lia]). clearbody d.
  rewrite Forall_forall in Hc. destruct (Hc d Hd) as [_ Hdy].
  destruct (dayBefore_day d H1 H2) as [H4 H5]. split; [done|]. split; [|lia].
  by eapply (year_before d).
Qed.

Lemma streak_of_days start :
  valid_date start -> 100 <= getFullYear start ->
  let n := streak_run dayKey dayBefore written_days start in
  0 <= n
  /\ (forall k, 0 <= k < n -> exists c, c ∈ created /\ day_of c = day_of start - k)
  /\ ~ exists c, c ∈ created /\ day_of c = day_of start - n.
Proof.
  intros Hv Hy n.
  destruct (streak_spec dayKey dayBefore written_days start) as (Hn & Hin & Hout).
  - intros i j Hij Hall E.
    destruct (days_back start i Hv Hy) as (V1 & Y1 & D1); [intros k Hk; apply Hall; lia|].
    destruct (days_back start j Hv Hy Hall) as (V2 & Y2 & D2).
    apply dayKey_inj in E; [|done|done|lia|lia]. rewrite E in D1. lia.
  - fold n in Hn, Hin, Hout. clearbody n. rewrite Hn at 1. split; [lia|].
    assert (forall m, (m <= Z.to_nat n)%nat -> valid_date (nth_before dayBefore m start)
      /\ 100 <= getFullYear (nth_before dayBefore m start)
      /\ day_of (nth_before dayBefore m start) = day_of start - Z.of_nat m) as Hb.
    { intros m Hm. apply days_back; [done|done|]. intros k Hk. apply Hin. lia. }
    split.
    + intros k Hk. destruct (Hb (Z.to_nat k)) as (H1 & H2 & H3); [lia|].
      exists (nth_before dayBefore (Z.to_nat k) start). split; [|lia].
      apply written_key; [done|lia|]. apply Hin. lia.
    + intros (c & Hcin & Hcd). apply Hout. destruct (Hb (Z.to_nat n)) as (H1 & H2 & H3); [lia|].
      apply written_key; [done|lia|]. rewrite Forall_forall in Hc. destruct (Hc c Hcin) as [Hcv _].
      assert (nth_before dayBefore (Z.to_nat n) start = c) as ->; [|done].
      apply day_number_inj; [done|done|]. unfold day_of in *. lia.
Qed.

Lemma count_today today :
  shown_date today ->
  default 0 (foldl (fun counts date => bump counts (dayKey date)) (∅ : gmap jstring Z) created !! dayKey today)
  = Z.of_nat (length (filter (fun c => c = today) created)).
Proof.
  intros [Hv Hy].
  assert (forall m : gmap jstring Z,
    foldl (fun counts date => bump counts (dayKey date)) m created = foldl bump m (dayKey <$> created)) as Hf.
  { clear. intros m. revert m. induction created as [|c l IH]; intros m; [done|]. cbn. apply IH. }
  rewrite Hf, bump_count, lookup_empty. change (default 0 (@None Z)) with 0. rewrite Z.add_0_l. f_equal. clear Hf.
  revert Hc. induction created as [|c l IH]; intros Hl; [done|].
  apply Forall_cons in Hl as [[Hcv Hcy] Hl]. cbn [fmap list_fmap]. rewrite !filter_cons.
  destruct (decide (c = today)) as [->|Hne]; [rewrite decide_True by done; cbn; by rewrite IH|].
  rewrite decide_False; [by apply IH|]. intros E. apply dayKey_inj in E; [done|done|done|lia|lia].
Qed.

Lemma written_dom :
  dom (foldl (fun counts date => bump counts (dayKey date)) (∅ : gmap jstring Z) created) = written_days.
Proof.
  assert (forall m : gmap jstring Z,
    foldl (fun counts date => bump counts (dayKey date)) m created = foldl bump m (dayKey <$> created)) as ->.
  { clear. intros m. revert m. induction created as [|c l IH]; intros m; [done|]. cbn. apply IH. }
  rewrite bump_dom. unfold written_days. set_solver.
Qed.
End Written.

(** ** Properties *)

(** The writing streak is the longest run of days with a memo that ends today or,
    when nothing is written yet, yesterday: every day of the run has a memo and the day
    before the run has none; [todayCount] is the number of memos of today. *)
Theorem writing_streak_counts_days (created : list local_date) (today : local_date)
    (Hc : Forall shown_date created) (Ht : shown_date today) :
  let w := writingStreak created today in
  let last := day_of today - (if wroteToday w then 0 else 1) in
  (wroteToday w = true <-> today ∈ created)
  /\ todayCount w = Z.of_nat (length (filter (fun c => c = today) created))
  /\ 0 <= days w
  /\ (forall k, 0 <= k < days w -> exists c, c ∈ created /\ day_of c = last - k)
  /\ ~ exists c, c ∈ created /\ day_of c = last - days w.
Proof.
  unfold writingStreak. rewrite (count_today created Hc today Ht). rewrite (written_dom created Hc).
  cbn [days wroteToday todayCount]. set (m := length _). destruct Ht as [Hv Hy].
  assert ((Z.of_nat m >? 0) = true <-> today ∈ created) as Htoday.
  { rewrite Z.gtb_ltb, Z.ltb_lt. unfold m. split.
    - intros Hlt. destruct (filter _ _) as [|x l] eqn:E; [cbn in Hlt; lia|].
      assert (x ∈ filter (fun c => c = today) created) as Hx by (rewrite E; by left).
      apply list_elem_of_filter in Hx as [-> Hx]. done.
    - intros Hin. assert (today ∈ filter (fun c => c = today) created) as Hx by (by apply list_elem_of_filter).
      destruct (filter _ _); [inversion Hx|cbn; lia]. }
  split; [done|]. split; [done|].
  destruct (Z.of_nat m >? 0).
  - rewrite Z.sub_0_r. apply (streak_of_days created Hc); [done|lia].
  - destruct (dayBefore_day today Hv) as [Hv' Hd']; [lia|]. rewrite <- Hd'.
    apply (streak_of_days created Hc); [done|]. by eapply (year_before today).
Qed.

Definition sample_days : list local_date :=
  [LocalDate 2024 2 1; LocalDate 2024 1 29; LocalDate 2024 2 1; LocalDate 2024 1 28; LocalDate 2023 2 1].

Example writing_streak_counts_days_witness :
  writingStreak sample_days (LocalDate 2024 2 2) = {| days := 3; wroteToday := false; todayCount := 0 |}
  /\ (exists c, c ∈ sample_days /\ day_of c = day_of (LocalDate 2024 2 2) - 1 - 2).
Proof.
  assert (Forall shown_date sample_days) as Hc.
  { repeat (apply Forall_cons_2; [repeat split; vm_compute; discriminate|]). apply Forall_nil_2. }
  assert (shown_date (LocalDate 2024 2 2)) as Ht by (repeat split; vm_compute; discriminate).
  assert (writingStreak sample_days (LocalDate 2024 2 2) = {| days := 3; wroteToday := false; todayCount := 0 |}) as E
    by (vm_compute; reflexivity).
  split; [exact E|].
  destruct (writing_streak_counts_days sample_days (LocalDate 2024 2 2) Hc Ht) as (_ & _ & _ & H & _).
  rewrite E in H. apply (H 2). cbn. lia.
Defined.

(** The years counted are those of the memos of this day in earlier years. *)
Lemma past_years_count (created : list local_date) (today : local_date) (m : gmap Z Z) :
  foldl (fun byYear date => if same_day date today then bump byYear (getFullYear date) else byYear) m created
  = foldl bump m (getFullYear <$> filter (fun c => same_day c today = true) created).
Proof.
  revert m. induction created as [|c l IH]; intros m; [done|]. cbn [foldl]. rewrite filter_cons.
  destruct (same_day c today); [rewrite decide_True by done|rewrite decide_False by done]; apply IH.
Qed.

Lemma past_years_lookup created today y :
  let m := foldl (fun byYear date => if same_day date today then bump byYear (getFullYear date) else byYear)
             (∅ : gmap Z Z) created in
  let memos := filter (fun c => same_day c today = true /\ getFullYear c = y) created in
  forall n, m !! y = Some n <-> n = Z.of_nat (length memos) /\ 0 < n.
Proof.
  intros m memos n. unfold m. rewrite past_years_count.
  set (years := getFullYear <$> filter _ created).
  assert (length (filter (fun x => x = y) years) = length memos) as Hlen.
  { unfold years, memos. clear. induction created as [|c l IH]; [done|]. rewrite !filter_cons.
    destruct (same_day c today) eqn:E.
    - rewrite decide_True by done. cbn [fmap list_fmap]. rewrite filter_cons.
      destruct (decide (getFullYear c = y)).
      + rewrite decide_True by done. cbn [length]. f_equal. exact IH.
      + rewrite decide_False by tauto. exact IH.
    - rewrite decide_False by done. rewrite decide_False by (intros [? _]; done). exact IH. }
  clearbody years memos. clear m.
  pose proof (bump_count years (∅ : gmap Z Z) y) as Hc. rewrite lookup_empty, Hlen in Hc.
  change (default 0 (@None Z)) with 0 in Hc. rewrite Z.add_0_l in Hc.
  assert (is_Some (foldl bump (∅ : gmap Z Z) years !! y) <-> y ∈ years) as Hdom.
  { rewrite <- elem_of_dom, bump_dom, elem_of_union, elem_of_list_to_set, dom_empty. set_solver. }
  assert (y ∈ years <-> (0 < length memos)%nat) as Hpos.
  { rewrite <- Hlen. split.
    - intros Hin. assert (y ∈ filter (fun x => x = y) years) as Hf by (by apply list_elem_of_filter).
      destruct (filter (fun x => x = y) years); [inversion Hf|cbn; lia].
    - destruct (filter (fun x => x = y) years) as [|x r] eqn:E; [cbn; lia|]. intros _.
      assert (x ∈ filter (fun x => x = y) years) as Hf by (rewrite E; by left).
      apply list_elem_of_filter in Hf as [-> Hf]. done. }
  destruct (foldl bump _ years !! y) as [v|] eqn:Ev.
  - change (default 0 (Some v)) with v in Hc.
    assert (0 < length memos)%nat by (apply Hpos, Hdom; eauto).
    split; [intros [= <-]; lia|]. intros [-> _]. congruence.
  - split; [done|]. intros [-> Hn].
    destruct (proj2 Hdom) as [? ?]; [apply Hpos; lia|done].
Qed.

(** The card lists each earlier year that has memos of today's month and day, once,
    the newest year first, with the number of those memos and the key of that day. *)
Theorem same_day_in_past_years (created : list local_date) (today : local_date) :
  let past := sameDayInPastYears created today in
  StronglySorted (fun a b => year b < year a) past
  /\ forall y n k,
      {| year := y; count := n; pd_key := k |} ∈ past <->
      let memos := filter (fun c => same_day c today = true /\ getFullYear c = y) created in
      n = Z.of_nat (length memos) /\ 0 < n /\ k = dayKey (LocalDate y (getMonth today) (getDate today)).
Proof.
  unfold sameDayInPastYears.
  set (m := foldl _ _ created). set (entries := sort_by _ _).
  assert (StronglySorted (fun a b : Z * Z => (fst b <=? fst a) = true) entries) as Hs.
  { apply sort_by_sorted; [intros x y; rewrite Z.leb_gt, Z.leb_le; lia|].
    intros x y z. rewrite !Z.leb_le. lia. }
  assert (entries ≡ₚ map_to_list m) as Hp by apply sort_by_perm.
  assert (NoDup (fst <$> entries)) as Hnd by (rewrite Hp; apply NoDup_fst_map_to_list).
  split.
  - clear -Hs Hnd. induction Hs as [|[y n] l _ IH Hall]; [constructor|]. cbn [fmap list_fmap] in *.
    apply NoDup_cons in Hnd as [Hni Hnd]. constructor; [by apply IH|].
    apply Forall_forall. intros p (q & -> & Hq)%list_elem_of_fmap. destruct q as [y' n']. cbn [year].
    rewrite Forall_forall in Hall. specialize (Hall _ Hq). cbn in Hall. bool_prop.
    destruct (decide (y' = y)) as [->|]; [|lia]. exfalso. apply Hni, list_elem_of_fmap. by exists (y, n').
  - intros y n k. rewrite list_elem_of_fmap. cbn zeta.
    pose proof (past_years_lookup created today y n) as Hl. cbn zeta in Hl. fold m in Hl.
    split.
    + intros ([y' n'] & E & Hin). injection E as -> -> ->. rewrite Hp in Hin.
      apply elem_of_map_to_list in Hin. apply Hl in Hin as [H1 H2]. done.
    + intros (H1 & H2 & ->). exists (y, n). split; [done|]. rewrite Hp. apply elem_of_map_to_list. by apply Hl.
Qed.
