(* ===== verification/StyleReactions.v ===== *)
(** * Style and theme reactions

    web/src/utils/style-reactions.ts: which reactions a reader's style and colour theme
    set off, the part of the day and the festival of a date. *)

From S2P Require Import Prelude JSString JSDate.

Inductive ReactiveStyle := aero | y2k | vaporwave | pixel | handdrawn | terminal | golden.
#[export] Instance reactive_style_eq_dec : EqDecision ReactiveStyle.
Proof. solve_decision. Defined.

Definition REACTIVE_STYLES : list ReactiveStyle := [aero; y2k; vaporwave; pixel; handdrawn; terminal; golden].
Definition style_text (s : ReactiveStyle) : jstring :=
  match s with
  | aero => u "aero" | y2k => u "y2k" | vaporwave => u "vaporwave" | pixel => u "pixel"
  | handdrawn => u "handdrawn" | terminal => u "terminal" | golden => u "golden"
  end.

(** [isReactiveStyle], with the style it names. *)
Definition reactive_style (style : option jstring) : option ReactiveStyle :=
  match style with
  | Some s => js_find (fun r => js_eqb (style_text r) s) REACTIVE_STYLES
  | None => None
  end.
Definition isReactiveStyle (style : option jstring) : bool :=
  match reactive_style style with Some _ => true | None => false end.

Definition PURE_THEMES : list jstring := [u "default"; u "default-dark"].

Inductive ReactionElement :=
  flower | sea | rain | night | space | aurora | warm | nature | retro | ink | candy | paper.
#[export] Instance reaction_element_eq_dec : EqDecision ReactionElement.
Proof. solve_decision. Defined.

Definition ELEMENTS : list ReactionElement :=
  [flower; sea; rain; night; space; aurora; warm; nature; retro; ink; candy; paper].
Definition element_text (e : ReactionElement) : jstring :=
  match e with
  | flower => u "flower" | sea => u "sea" | rain => u "rain" | night => u "night" | space => u "space"
  | aurora => u "aurora" | warm => u "warm" | nature => u "nature" | retro => u "retro" | ink => u "ink"
  | candy => u "candy" | paper => u "paper"
  end.

Definition THEME_ELEMENTS : list (jstring * list ReactionElement) := [
  (u "paper", [paper]);
  (u "cosmic-dark", [space; night]);
  (u "twilight-dark", [warm; night]);
  (u "aurora-dark", [aurora; night]);
  (u "abyss-dark", [sea; night]);
  (u "neon-rain-dark", [rain; night]);
  (u "moonlit-forest-dark", [nature; night]);
  (u "retro-terminal-dark", [retro; night]);
  (u "ink-night-dark", [ink; night]);
  (u "sakura-night-dark", [flower; night]);
  (u "dawn", [warm]);
  (u "ocean-breeze", [sea]);
  (u "matcha", [nature]);
  (u "lavender", [flower]);
  (u "sakura-day", [flower]);
  (u "desert-sand", [warm]);
  (u "porcelain", [ink]);
  (u "retro-newspaper", [retro; paper]);
  (u "candy-pop", [candy]);
  (u "editorial", [paper]);
  (u "editorial-dark", [paper; night])
].

Inductive ParticleKind :=
  | p_petal | p_bubble | p_rain | p_star | p_comet | p_ember | p_leaf | p_ink | p_confetti | p_candy
  | p_snow | p_lantern | p_bat | p_code | p_fish | p_invader | p_firefly.

Definition ELEMENT_PARTICLES (e : ReactionElement) : option ParticleKind :=
  match e with
  | flower => Some p_petal | sea => Some p_bubble | rain => Some p_rain | night => Some p_star
  | space => Some p_comet | warm => Some p_ember | nature => Some p_leaf | ink => Some p_ink
  | candy => Some p_candy | aurora | retro | paper => None
  end.

Record LegendaryReaction := {
  lr_id : jstring; lr_style : ReactiveStyle; lr_theme : jstring; lr_particles : list ParticleKind
}.

Definition LEGENDARY_REACTIONS : list LegendaryReaction := [
  {| lr_id := u "matrix"; lr_style := terminal; lr_theme := u "neon-rain-dark"; lr_particles := [p_code] |};
  {| lr_id := u "crt"; lr_style := terminal; lr_theme := u "retro-terminal-dark"; lr_particles := [] |};
  {| lr_id := u "outrun"; lr_style := vaporwave; lr_theme := u "twilight-dark"; lr_particles := [] |};
  {| lr_id := u "invaders"; lr_style := pixel; lr_theme := u "cosmic-dark"; lr_particles := [p_invader] |};
  {| lr_id := u "yozakura"; lr_style := pixel; lr_theme := u "sakura-night-dark"; lr_particles := [p_lantern] |};
  {| lr_id := u "sumi"; lr_style := handdrawn; lr_theme := u "ink-night-dark"; lr_particles := [] |};
  {| lr_id := u "scrapbook"; lr_style := handdrawn; lr_theme := u "retro-newspaper"; lr_particles := [] |};
  {| lr_id := u "aquarium"; lr_style := aero; lr_theme := u "ocean-breeze"; lr_particles := [p_fish] |};
  {| lr_id := u "borealis"; lr_style := aero; lr_theme := u "aurora-dark"; lr_particles := [] |};
  {| lr_id := u "cyber"; lr_style := y2k; lr_theme := u "cosmic-dark"; lr_particles := [] |}
].

Definition legendaryName (id : jstring) : jstring := u "fusion.legend." ++ id ++ u ".name".
Definition legendaryFlavor (id : jstring) : jstring := u "fusion.legend." ++ id ++ u ".flavor".
Definition legendaryHint (id : jstring) : jstring := u "fusion.legend." ++ id ++ u ".hint".
Definition elementName (element : ReactionElement) : jstring := u "fusion.element." ++ element_text element.
Definition elementFlavor (element : ReactionElement) : jstring := u "fusion.element-flavor." ++ element_text element.

Definition elementReactionId (style : ReactiveStyle) (element : ReactionElement) : jstring :=
  style_text style ++ [58] ++ element_text element.

Record FusionState := {
  pure : bool;
  elements : list ReactionElement;
  legendary : option LegendaryReaction;
  reactionIds : list jstring;
}.

(** [THEME_ELEMENTS[theme] ?? []]; the themes are not names of [Object.prototype]. *)
Definition theme_elements (theme : jstring) : list ReactionElement :=
  match js_find (fun p => js_eqb (fst p) theme) THEME_ELEMENTS with Some (_, l) => l | None => [] end.

Definition computeFusion (style theme : option jstring) : FusionState :=
  match reactive_style style, theme with
  | Some s, Some t =>
      if js_eqb t [] || bool_decide (t ∈ PURE_THEMES)
      then {| pure := true; elements := []; legendary := None; reactionIds := [] |}
      else
        let elements := theme_elements t in
        let legendary := js_find (fun r => bool_decide (lr_style r = s) && js_eqb (lr_theme r) t) LEGENDARY_REACTIONS in
        let reactionIds := elementReactionId s <$> elements in
        {| pure := false; elements := elements; legendary := legendary;
           reactionIds := match legendary with Some r => lr_id r :: reactionIds | None => reactionIds end |}
  | _, _ => {| pure := true; elements := []; legendary := None; reactionIds := [] |}
  end.

Inductive Daypart := midnight | dawn | day | dusk | night_.
(** [getDaypart], on [date.getHours()]. *)
Definition getDaypart (hour : Z) : Daypart :=
  if hour <? 5 then midnight else if hour <? 8 then dawn else if hour <? 18 then day
  else if hour <? 20 then dusk else night_.

Inductive Festival := spring | halloween | winter.
Definition SPRING_FESTIVALS : list local_date :=
  [LocalDate 2025 0 29; LocalDate 2026 1 17; LocalDate 2027 1 6; LocalDate 2028 0 26; LocalDate 2029 1 13;
   LocalDate 2030 1 3; LocalDate 2031 0 23].
Definition DAY_MS : Z := 24 * 60 * 60 * 1000.

(** [local_midnight d] is [new Date("....T00:00:00").getTime()] in the host's time zone. *)
Definition getFestival (local_midnight : local_date -> Z) (time : Z) (date : local_date) : option Festival :=
  if existsb (fun d => let festival := local_midnight d in
       (festival - 7 * DAY_MS <=? time) && (time <=? festival + 15 * DAY_MS)) SPRING_FESTIVALS
  then Some spring
  else
    let month := getMonth date + 1 in
    if (month =? 10) && (24 <=? getDate date) then Some halloween
    else if (month =? 12) || (month =? 1) || (month =? 2) then Some winter else None.

Definition FESTIVAL_PARTICLES (f : Festival) : ParticleKind :=
  match f with spring => p_lantern | halloween => p_bat | winter => p_snow end.

(** ** Lemmas *)

Lemma js_find_unique {A} (p : A -> bool) l x :
  x ∈ l -> p x = true -> (forall y, y ∈ l -> p y = true -> y = x) -> js_find p l = Some x.
Proof.
  intros Hx Hp Hu. destruct (js_find p l) as [y|] eqn:E.
  - apply js_find_Some in E as [Hy Hpy]. f_equal. by apply Hu.
  - rewrite js_find_None in E. rewrite E in Hp by done. done.
Qed.

(** A pair of style and theme has one legendary reaction at most. *)
Lemma legendary_unique r r' :
  r ∈ LEGENDARY_REACTIONS -> r' ∈ LEGENDARY_REACTIONS -> lr_style r = lr_style r' -> lr_theme r = lr_theme r' -> r = r'.
Proof.
  unfold LEGENDARY_REACTIONS. rewrite !elem_of_cons.
  intros H H'. repeat (destruct H as [->|H]; [|]); try (by inversion H);
    repeat (destruct H' as [->|H']; [|]); try (by inversion H'); cbn [lr_style lr_theme]; intros ? Ht; try done;
    exfalso; revert Ht; apply (bool_decide_unpack _); vm_compute; exact I.
Qed.

(** The text of an id tells its style and element, and no legend is named like one. *)
Lemma legend_no_colon r : r ∈ LEGENDARY_REACTIONS -> 58 ∉ lr_id r.
Proof.
  unfold LEGENDARY_REACTIONS. rewrite !elem_of_cons.
  intros H. repeat (destruct H as [->|H]; [apply (bool_decide_unpack _); vm_compute; exact I|]). inversion H.
Qed.

Lemma element_text_inj e e' : element_text e = element_text e' -> e = e'.
Proof. by destruct e, e'. Qed.

Lemma theme_elements_nodup t : NoDup (theme_elements t) /\ (length (theme_elements t) <= 2)%nat.
Proof.
  unfold theme_elements. destruct (js_find _ _) as [[t' l]|] eqn:E; [|split; [constructor|cbn; lia]].
  apply js_find_Some in E as [Hin _]. unfold THEME_ELEMENTS in Hin. rewrite !elem_of_cons in Hin.
  repeat (destruct Hin as [[= -> ->]|Hin];
    [split; [apply (bool_decide_unpack _); vm_compute; exact I|cbn; lia]|]). inversion Hin.
Qed.

Lemma reactive_style_text s : reactive_style (Some (style_text s)) = Some s.
Proof. by destruct s. Qed.

Lemma reactive_style_Some x s : reactive_style x = Some s <-> x = Some (style_text s).
Proof.
  split; [|intros ->; apply reactive_style_text]. destruct x as [x|]; [|done]. unfold reactive_style.
  intros [_ H]%js_find_Some. unfold js_eqb in H. bool_prop. by subst.
Qed.

(** ** Properties *)

(** The reactions of a style and a theme: there are any only when the style is one of
    the seven reactive ones and the theme neither stock nor missing; then the elements
    are those of the theme, at most two, each giving one reaction of its own; a
    legendary reaction takes place exactly for its own style and theme, and comes first;
    and no reaction is counted twice. *)
Theorem computeFusion_reactions (style theme : option jstring) :
  let f := computeFusion style theme in
  (pure f = false <-> exists s t, style = Some (style_text s) /\ theme = Some t /\ t <> [] /\ t ∉ PURE_THEMES)
  /\ (pure f = true -> reactionIds f = [])
  /\ (forall s t, pure f = false -> style = Some (style_text s) -> theme = Some t ->
        elements f = theme_elements t
        /\ (forall r, legendary f = Some r <-> r ∈ LEGENDARY_REACTIONS /\ lr_style r = s /\ lr_theme r = t)
        /\ reactionIds f = option_list (lr_id <$> legendary f) ++ (elementReactionId s <$> theme_elements t))
  /\ NoDup (reactionIds f) /\ (length (reactionIds f) <= 3)%nat.
Proof.
  assert (forall s t r, js_find (fun r => bool_decide (lr_style r = s) && js_eqb (lr_theme r) t) LEGENDARY_REACTIONS = Some r
      <-> r ∈ LEGENDARY_REACTIONS /\ lr_style r = s /\ lr_theme r = t) as Hleg.
  { intros s t r. unfold js_eqb. split.
    - intros [Hin H]%js_find_Some. by bool_prop.
    - intros (Hin & Hs & Ht). apply js_find_unique; [done|by rewrite !bool_decide_eq_true_2|].
      intros y Hy H. bool_prop. apply legendary_unique; congruence. }
  unfold computeFusion. destruct (reactive_style style) as [s|] eqn:Es; cycle 1.
  { cbn [pure reactionIds elements legendary length]. split; [|split; [done|split; [done|split; [constructor|lia]]]]. split; [done|].
    intros (s & t & -> & _). by rewrite reactive_style_text in Es. }
  apply reactive_style_Some in Es as ->. destruct theme as [t|]; cycle 1.
  { cbn [pure reactionIds elements legendary length]. split; [|split; [done|split; [done|split; [constructor|lia]]]]. split; [done|]. by intros (? & ? & _ & ? & _). }
  destruct (js_eqb t [] || bool_decide (t ∈ PURE_THEMES)) eqn:Et; unfold js_eqb in Et.
  { cbn [pure reactionIds elements legendary length]. split; [|split; [done|split; [done|split; [constructor|lia]]]]. split; [done|].
    intros (s' & t' & _ & [= <-] & Hne & Hni). rewrite !bool_decide_eq_false_2 in Et by done. done. }
  bool_prop. cbn [pure reactionIds elements legendary length].
  specialize (Hleg s t).
  destruct (theme_elements_nodup t) as [Hnd Hlen].
  assert (NoDup (elementReactionId s <$> theme_elements t)) as Hids.
  { apply NoDup_fmap_2; [|done]. intros e e' E. unfold elementReactionId in E.
    apply app_inv_head, app_inv_head in E. by apply element_text_inj. }
  split; [split; [intros _; exists s, t; done|done]|]. split; [done|]. split.
  { intros s' t' _ E [= <-]. assert (s' = s) as ->.
    { injection E as E. destruct s, s'; try done; exfalso; revert E; apply (bool_decide_unpack _); vm_compute; exact I. }
    split; [done|]. split; [done|]. by destruct (js_find _ _). }
  destruct (js_find _ _) as [r|]; [|split; [done|rewrite length_fmap; lia]].
  destruct (Hleg r) as [Hr _]. destruct (Hr eq_refl) as (Hin & _ & _).
  split; [|cbn [length]; rewrite length_fmap; lia]. constructor; [|done].
  intros (e & E & _)%list_elem_of_fmap. apply (legend_no_colon r Hin). rewrite E. unfold elementReactionId.
  rewrite !elem_of_app. right; left. by left.
Qed.
