(* ===== verification/MemoRichText.v ===== *)
(** * Rich text markers

    web/src/utils/memo-rich-text.ts: the colours and sizes a memo may use, the markers
    that write them down, and the isolation of alignment markers before parsing. *)

From S2P Require Import Prelude JSString JSON JSRegExp JSONText.

(** ** Printing a number

    [Number::toString] on the doubles from 0 to 1: the fewest digits that read back as
    the number, the closest of those. *)

Definition is_double (x q : Q) : bool :=
  match to_double q with JNum y => Qeq_bool x y | _ => false end.

(** [s * 10^(n - k)]. *)
Definition scaled (s e : Z) : Q := if 0 <=? e then inject_Z (s * 10 ^ e) else s # Z.to_pos (10 ^ (- e)).

(** The digits for [k] digits, the closest first. *)
Definition digit_candidates (x : Q) (n k : Z) : list Z :=
  let y := if 0 <=? k - n then (Qnum x * 10 ^ (k - n), Zpos (Qden x)) else (Qnum x, Zpos (Qden x) * 10 ^ (n - k)) in
  let f := fst y / snd y in
  if 2 * (fst y mod snd y) <=? snd y then [f; f + 1] else [f + 1; f].

(** The digits and the exponent; a power of ten above [x] is one digit of the next
    exponent. *)
Fixpoint shortest (fuel : nat) (x : Q) (n k : Z) : option (Z * Z) :=
  match fuel with
  | O => None
  | S fuel' =>
      match js_find (fun s => (10 ^ (k - 1) <=? s) && (s <=? 10 ^ k) && is_double x (scaled s (n - k)))
              (digit_candidates x n k) with
      | Some s => if s =? 10 ^ k then Some (1, n + 1) else Some (s, n)
      | None => shortest fuel' x n (k + 1)
      end
  end.

(** The exponent [n] with [10^(n-1) <= x < 10^n], for [0 < x <= 1]. *)
Fixpoint exponent (fuel : nat) (x : Q) (n : Z) : Z :=
  match fuel with
  | O => n
  | S fuel' => if Qle_bool (scaled 1 (n - 1)) x then n else exponent fuel' x (n - 1)
  end.

Definition number_text (x : Q) : option jstring :=
  if Qeq_bool x 0 then Some (u "0")
  else
    match shortest 17 x (exponent 330 x 1) 1 with
    | None => None
    | Some (s, n) =>
        let digits := string_of_nat_Z s in
        let k := Z.of_nat (length digits) in
        if 0 <? n then Some (digits ++ replicate (Z.to_nat (n - k)) 48)
        else if -6 <? n then Some (u "0." ++ replicate (Z.to_nat (- n)) 48 ++ digits)
        else
          let e := u "e-" ++ string_of_nat_Z (1 - n) in
          match digits with
          | [d] => Some (d :: e)
          | d :: rest => Some (d :: 46 :: rest ++ e)
          | [] => None
          end
    end.

Example number_text_samples :
  (number_text (1 # 2), number_text 1, number_text (3 # 10), number_text (6004799503160661 # 18014398509481984),
   number_text (5764607523034235 # 72057594037927936), number_text (1 # 8388608))
  = (Some (u "0.5"), Some (u "1"), None, Some (u "0.3333333333333333"), Some (u "0.08"), Some (u "1.1920928955078125e-7")).
Proof. vm_compute. reflexivity. Qed.

(** ** Colours and sizes *)

Inductive MemoTextAlignment := left | center | right.
Definition alignment_text (a : MemoTextAlignment) : jstring :=
  match a with left => u "left" | center => u "center" | right => u "right" end.

Definition anycase (upper lower : Z) : re := Chars (fun c => (c =? upper) || (c =? lower)).
Definition zero_or_one : re :=
  ((char 48 +++ opt (char 46 +++ plus digit)) ||| (char 49 +++ opt (char 46 +++ plus (char 48))))%re.
Definition comma : re := (star space +++ char 44 +++ star space)%re.
Definition channel (n : nat) : re := Group n (between 1 3 digit).

Definition RGBA_PATTERN : re :=
  (StartOf false +++ anycase 82 114 +++ anycase 71 103 +++ anycase 66 98 +++ opt (anycase 65 97) +++ char 40 +++
   star space +++ channel 1 +++ comma +++ channel 2 +++ comma +++ channel 3 +++
   opt (comma +++ Group 4 zero_or_one) +++ star space +++ char 41 +++ EndOf false)%re.
Definition RGBA_COMPONENTS_PATTERN : re :=
  (StartOf false +++ star space +++ channel 1 +++ comma +++ channel 2 +++ comma +++ channel 3 +++ comma +++
   Group 4 zero_or_one +++ star space +++ EndOf false)%re.

(** [Number(text)] on digits with an optional fraction. *)
Definition Number_of (text : jstring) : option Q :=
  let '(int, rest) := take_digits text in
  let frac := match rest with 46 :: f => f | _ => [] end in
  match to_double (decimal false (int ++ frac) (- Z.of_nat (length frac))) with
  | JNum q => Some q
  | _ => None
  end.

(** [pattern.exec(s)], with the text it is run on. *)
Definition exec (r : re) (s : jstring) : option rmatch := exec_from false r s 0.

Definition channel_value (s : jstring) (m : rmatch) (n : nat) : Z := nat_value (default [] (capture s m n)).

Definition rgba (red green blue : Z) (alpha : jstring) : jstring :=
  u "rgba(" ++ string_of_int red ++ u ", " ++ string_of_int green ++ u ", " ++ string_of_int blue ++ u ", "
  ++ alpha ++ u ")".

Definition normalizeMemoTextColor (value : option jstring) : option jstring :=
  let input := trim (default [] value) in
  if js_eqb input [] then None
  else
    match (match exec RGBA_PATTERN input with Some m => Some m | None => exec RGBA_COMPONENTS_PATTERN input end) with
    | None => None
    | Some m =>
        let red := channel_value input m 1 in
        let green := channel_value input m 2 in
        let blue := channel_value input m 3 in
        let alpha := match capture input m 4 with None => Some 1%Q | Some a => Number_of a end in
        if existsb (fun channel => (channel <? 0) || (255 <? channel)) [red; green; blue] then None
        else
          match alpha with
          | None => None
          | Some a =>
              if negb (Qle_bool 0 a && Qle_bool a 1) then None
              else match number_text a with Some text => Some (rgba red green blue text) | None => None end
          end
    end.

Definition isMemoTextAlignment (value : json) : bool :=
  match value with JStr s => existsb (fun a => js_eqb (alignment_text a) s) [left; center; right] | _ => false end.

Definition memoAlignmentOpenMarker (alignment : MemoTextAlignment) : jstring := u ":::align " ++ alignment_text alignment.
Definition MEMO_ALIGNMENT_CLOSE_MARKER : jstring := u ":::".
Definition memoColorOpenMarker (color : jstring) : jstring := u "[color=" ++ color ++ u "]".
Definition MEMO_COLOR_CLOSE_MARKER : jstring := u "[/color]".

Definition FONT_SIZE_PATTERN : re :=
  (StartOf false +++ Group 1 (between 1 3 digit) +++ opt (anycase 80 112 +++ anycase 88 120) +++ EndOf false)%re.

Definition normalizeMemoTextSize (value : option jstring) : option jstring :=
  let input := trim (default [] value) in
  match exec FONT_SIZE_PATTERN input with
  | None => None
  | Some m =>
      let size := channel_value input m 1 in
      if (size <? 8) || (96 <? size) then None else Some (string_of_int size ++ u "px")
  end.

Definition memoSizeOpenMarker (size : jstring) : jstring := u "[size=" ++ size ++ u "]".
Definition MEMO_SIZE_CLOSE_MARKER : jstring := u "[/size]".
Definition MEMO_SPOILER_MARKER : jstring := u "||".

Example color_samples :
  (normalizeMemoTextColor (Some (u " RGB( 1,2 , 300)")), normalizeMemoTextColor (Some (u "rgb(1,02,3)")),
   normalizeMemoTextColor (Some (u "1, 2, 3, 0.50")), normalizeMemoTextSize (Some (u "096PX")))
  = (None, Some (u "rgba(1, 2, 3, 1)"), Some (u "rgba(1, 2, 3, 0.5)"), Some (u "96px")).
Proof. vm_compute. reflexivity. Qed.

(** ** Alignment blocks *)

Definition blank : re := one_of [32; 9].
Definition case_text (s : jstring) : re :=
  foldr (fun c r => Seq (if is_lower_ascii c then anycase (c - 32) c else char c) r) Eps s.
Definition ALIGNMENT_OPEN_LINE : re :=
  (StartOf false +++ star blank +++ case_text (u ":::align") +++ plus blank +++
   (case_text (u "center") ||| case_text (u "right")) +++ star blank +++ EndOf false)%re.
Definition ALIGNMENT_CLOSE_LINE : re := (StartOf false +++ star blank +++ text (u ":::") +++ star blank +++ EndOf false)%re.
Definition at_least_3 (c : Z) : re := (times 3 (char c) +++ star (char c))%re.
Definition FENCE_LINE : re := (StartOf false +++ up_to 3 blank +++ Group 1 (at_least_3 96 ||| at_least_3 126))%re.
Definition BLANK_LINE : re := (StartOf false +++ star blank +++ EndOf false)%re.

Record MarkdownFence := { fence_character : Z; fence_length : nat }.

(** [value.replace(/\r\n?/g, "\n")]. *)
Fixpoint unify_newlines (s : jstring) : jstring :=
  match s with
  | [] => []
  | 13 :: ((10 :: s'') as s') => 10 :: unify_newlines s''
  | 13 :: s' => 10 :: unify_newlines s'
  | c :: s' => c :: unify_newlines s'
  end.

Record block_state := { output : list jstring; fence : option MarkdownFence; alignmentOpen : bool }.

Definition appendBlankBoundary (output : list jstring) : list jstring :=
  match last output with
  | Some l => if js_eqb l [] then output else output ++ [[]]
  | None => output
  end.

(** The fence after a line that matches [FENCE_LINE]. *)
Definition next_fence (fence : option MarkdownFence) (line marker : jstring) (rest_from : nat) : option MarkdownFence :=
  let character := default 0 (head marker) in
  match fence with
  | None => Some {| fence_character := character; fence_length := length marker |}
  | Some f =>
      if (fence_character f =? character) && (fence_length f <=? length marker)%nat
         && test false BLANK_LINE (slice_from line rest_from)
      then None else fence
  end.

Definition block_line (st : block_state) (line : jstring) : block_state :=
  match exec FENCE_LINE line with
  | Some m =>
      {| output := output st ++ [line];
         fence := next_fence (fence st) line (default [] (capture line m 1)) (m_to m - m_from m);
         alignmentOpen := alignmentOpen st |}
  | None =>
      match fence st with
      | None =>
          if negb (alignmentOpen st) && test false ALIGNMENT_OPEN_LINE line then
            {| output := appendBlankBoundary (output st) ++ [line; []]; fence := None; alignmentOpen := true |}
          else if alignmentOpen st && test false ALIGNMENT_CLOSE_LINE line then
            {| output := appendBlankBoundary (output st) ++ [line; []]; fence := None; alignmentOpen := false |}
          else {| output := output st ++ [line]; fence := None; alignmentOpen := alignmentOpen st |}
      | Some f => {| output := output st ++ [line]; fence := Some f; alignmentOpen := alignmentOpen st |}
      end
  end.

Definition align_lines (lines : list jstring) : list jstring :=
  output (foldl block_line {| output := []; fence := None; alignmentOpen := false |} lines).

Definition normalizeMemoAlignmentBlocks (value : jstring) : jstring :=
  join [10] (align_lines (split_on 10 (unify_newlines value))).

(** [value.replace(re, text)] with the [g] flag. *)
Fixpoint replace_all (fuel : nat) (r : re) (text s : jstring) : jstring :=
  match fuel with
  | O => s
  | S fuel' =>
      match exec r s with
      | None => s
      | Some m =>
          slice s 0 (m_from m) ++ text ++
          if (m_to m =? m_from m)%nat then slice_from s (m_to m)
          else replace_all fuel' r text (slice_from s (m_to m))
      end
  end.

Definition replace_g (r : re) (text s : jstring) : jstring := replace_all (S (length s)) r text s.

Definition ALIGN_MARKER : re :=
  ((case_text (u ":::align") +++ plus space +++ (case_text (u "center") ||| case_text (u "right"))) ||| JSRegExp.text (u ":::"))%re.
Definition color_or_size : re := (case_text (u "color") ||| case_text (u "size"))%re.
Definition OPEN_MARKER : re :=
  (char 91 +++ color_or_size +++ char 61 +++ plus (Chars (fun c => negb (existsb (Z.eqb c) [93; 13; 10]))) +++ char 93)%re.
Definition CLOSE_MARKER : re := (JSRegExp.text (u "[/") +++ color_or_size +++ char 93)%re.

Definition stripMemoRichTextMarkers (value : jstring) : jstring :=
  replace_g CLOSE_MARKER [] (replace_g OPEN_MARKER [] (replace_g ALIGN_MARKER [32] value)).

Example rich_text_samples :
  (stripMemoRichTextMarkers (u "a[COLOR=x]b[/color]:::align  Right c:::"),
   normalizeMemoAlignmentBlocks (u "x" ++ [13; 10] ++ u ":::ALIGN center" ++ [10] ++ u "y" ++ [10] ++ u ":::"))
  = (u "ab  c ", join [10] [u "x"; []; u ":::ALIGN center"; []; u "y"; []; u ":::"; []]).
Proof. vm_compute. reflexivity. Qed.

(** ** Lemmas *)

Definition not_blank (l : jstring) : bool := negb (js_eqb l []).
Definition blocks_start : block_state := {| output := []; fence := None; alignmentOpen := false |}.

(** The line is a marker that the normalisation isolates. *)
Definition isolated_marker (st : block_state) (line : jstring) : bool :=
  match exec FENCE_LINE line, fence st with
  | None, None =>
      (negb (alignmentOpen st) && test false ALIGNMENT_OPEN_LINE line)
      || (alignmentOpen st && test false ALIGNMENT_CLOSE_LINE line)
  | _, _ => false
  end.

Lemma boundary_blank out :
  exists more, appendBlankBoundary out = out ++ more /\ js_filter not_blank more = []
    /\ (appendBlankBoundary out = [] \/ last (appendBlankBoundary out) = Some []).
Proof.
  unfold appendBlankBoundary. destruct (last out) as [l|] eqn:E.
  - unfold js_eqb. case_bool_decide as Hl.
    + exists []. rewrite app_nil_r. split; [done|]. split; [done|]. right. by subst.
    + exists [[]]. split; [done|]. split; [done|]. right. by rewrite last_app.
  - exists []. rewrite app_nil_r. split; [done|]. split; [done|]. left. by apply last_None.
Qed.

(** One line: what is appended, and the two shapes of the output. *)
Lemma block_line_output st line :
  exists more, output (block_line st line) = output st ++ more
    /\ js_filter not_blank more = js_filter not_blank [line]
    /\ if isolated_marker st line
       then exists pre, output (block_line st line) = pre ++ [line; []]
              /\ js_filter not_blank pre = js_filter not_blank (output st) /\ (pre = [] \/ last pre = Some [])
       else more = [line].
Proof.
  destruct (boundary_blank (output st)) as (b & Hb & Hbb & Hlast).
  assert (exists more, appendBlankBoundary (output st) ++ [line; []] = output st ++ more
    /\ js_filter not_blank more = js_filter not_blank [line]
    /\ exists pre, appendBlankBoundary (output st) ++ [line; []] = pre ++ [line; []]
              /\ js_filter not_blank pre = js_filter not_blank (output st) /\ (pre = [] \/ last pre = Some [])) as Hiso.
  { exists (b ++ [line; []]). rewrite Hb. split; [by rewrite app_assoc|]. split.
    - rewrite js_filter_app, Hbb. simpl. by destruct (not_blank line).
    - exists (output st ++ b). split; [done|]. rewrite <- Hb. split; [|done].
      by rewrite Hb, js_filter_app, Hbb, app_nil_r. }
  unfold block_line, isolated_marker.
  destruct (exec FENCE_LINE line) as [m|]; [exists [line]; by destruct (fence st)|].
  destruct (fence st) as [f|]; [exists [line]; done|].
  destruct (negb (alignmentOpen st) && test false ALIGNMENT_OPEN_LINE line); [exact Hiso|].
  cbn [orb]. destruct (alignmentOpen st && test false ALIGNMENT_CLOSE_LINE line); [exact Hiso|].
  exists [line]. done.
Qed.

Lemma foldl_output st lines : exists more, output (foldl block_line st lines) = output st ++ more.
Proof.
  revert st. induction lines as [|l lines IH]; intros st; [exists []; by rewrite app_nil_r|]. cbn [foldl].
  destruct (block_line_output st l) as (m1 & H1 & _). destruct (IH (block_line st l)) as (m2 & H2).
  exists (m1 ++ m2). by rewrite H2, H1, app_assoc.
Qed.

Lemma foldl_not_blank st lines :
  js_filter not_blank (output (foldl block_line st lines)) = js_filter not_blank (output st) ++ js_filter not_blank lines.
Proof.
  revert st. induction lines as [|l lines IH]; intros st; [by rewrite app_nil_r|]. cbn [foldl].
  destruct (block_line_output st l) as (m & H1 & H2 & _).
  rewrite IH, H1, js_filter_app, H2, <- app_assoc. f_equal. simpl. by destruct (not_blank l).
Qed.

(** ** Properties *)

(** Isolating the alignment markers only adds blank lines: the lines that are not
    empty are kept, in order; each marker line outside fenced code stands alone in the
    result, with the start of the text or a blank line before it and a blank line after
    it; and a text without markers is left as it is. *)
Theorem alignment_blocks_isolated (lines : list jstring) :
  js_filter not_blank (align_lines lines) = js_filter not_blank lines
  /\ (forall before line after, lines = before ++ line :: after ->
        isolated_marker (foldl block_line blocks_start before) line = true ->
        exists pre post, align_lines lines = pre ++ line :: [] :: post
          /\ js_filter not_blank pre = js_filter not_blank before /\ (pre = [] \/ last pre = Some []))
  /\ ((forall before line after, lines = before ++ line :: after ->
        isolated_marker (foldl block_line blocks_start before) line = false) -> align_lines lines = lines).
Proof.
  split; [|split].
  - apply (foldl_not_blank blocks_start).
  - intros before line after -> Hm. unfold align_lines. fold blocks_start. rewrite foldl_app. cbn [foldl].
    set (st := foldl block_line blocks_start before) in *.
    destruct (block_line_output st line) as (m & _ & _ & H). rewrite Hm in H. destruct H as (pre & H1 & H2 & H3).
    destruct (foldl_output (block_line st line) after) as (post & Hp). exists pre, post.
    split; [by rewrite Hp, H1, <- app_assoc|]. split; [|done]. rewrite H2. apply (foldl_not_blank blocks_start).
  - intros Hno. unfold align_lines. fold blocks_start.
    assert (forall before after, lines = before ++ after -> output (foldl block_line blocks_start before) = before) as H.
    { induction before as [|l before IH] using rev_ind; intros after E; [done|]. rewrite foldl_app. cbn [foldl].
      rewrite <- app_assoc in E. destruct (block_line_output (foldl block_line blocks_start before) l) as (m & H1 & _ & H2).
      rewrite (Hno before l after E) in H2. rewrite H1, H2. f_equal. by eapply IH. }
    apply (H lines []). by rewrite app_nil_r.
Qed.

(** A size the editor accepts is a whole number of pixels from 8 to 96, and the
    accepted spelling is its own normal form, so a size read back from a marker is the
    size that was written; no other size text is. *)
Theorem text_size_normal (value : option jstring) (out : jstring) (H : normalizeMemoTextSize value = Some out) :
  (exists n, 8 <= n <= 96 /\ out = string_of_int n ++ u "px") /\ normalizeMemoTextSize (Some out) = Some out.
Proof.
  unfold normalizeMemoTextSize in H. destruct (exec FONT_SIZE_PATTERN _) as [m|]; [|done].
  set (n := channel_value _ m 1) in *. clearbody n.
  destruct ((n <? 8) || (96 <? n)) eqn:E; [done|]. injection H as <-. bool_prop.
  split; [exists n; split; [lia|done]|].
  assert (forallb (fun k => bool_decide (normalizeMemoTextSize (Some (string_of_int (Z.of_nat k) ++ u "px"))
    = Some (string_of_int (Z.of_nat k) ++ u "px"))) (seq 8 89) = true) as Hall by (vm_compute; reflexivity).
  rewrite forallb_forall in Hall. specialize (Hall (Z.to_nat n)). rewrite Z2Nat.id in Hall by lia.
  eapply bool_decide_eq_true_1, Hall. apply in_seq. lia.
Qed.

Example text_size_normal_witness :
  normalizeMemoTextSize (Some (u " 024 ")) = Some (u "24px")
  /\ normalizeMemoTextSize (Some (u "24px")) = Some (u "24px").
Proof.
  assert (normalizeMemoTextSize (Some (u " 024 ")) = Some (u "24px")) as E by (vm_compute; reflexivity).
  split; [exact E|]. apply (text_size_normal (Some (u " 024 ")) (u "24px") E).
Defined.

(** An accepted colour is not always its own normal form: an alpha below one
    millionth is printed with an exponent, which the pattern does not read, so the
    colour that is written into the memo is no colour when it is read back. *)
Theorem tiny_alpha_is_lost :
  normalizeMemoTextColor (Some (u "rgba(1, 2, 3, 0.0000001)")) = Some (u "rgba(1, 2, 3, 1e-7)")
  /\ normalizeMemoTextColor (Some (u "rgba(1, 2, 3, 1e-7)")) = None.
Proof. vm_compute. done. Qed.
