(* ===== verification/Diagnostics.v ===== *)
(** * Diagnostics of failed requests

    web/src/lib/frontend-diagnostics.ts: the ring of recent events, the queue of reports
    (in localStorage, or in the tab's memory when storage refuses) and the loop that
    delivers them.  The module's variables and the store are one [state]; [flush_start]
    is [flushReports] up to its [fetch], [flush_finish] what follows the response.  The
    clock is in milliseconds and an argument of each operation. *)

From S2P Require Import Prelude JSString HostUnicode JSON JSRegExp JSONText MemoRichText.

(** Dates, collation and URLs of the browser. *)
Class DiagnosticsHost := {
  toISOString : Z -> jstring;                          (* new Date(t).toISOString() *)
  parse_date : jstring -> option Z;                    (* Date.parse(s), None for NaN *)
  localeCompare : jstring -> jstring -> Z;             (* a.localeCompare(b) *)
  url_pathname : jstring -> option jstring;            (* new URL(s, location.origin).pathname *)
  url_origin : jstring -> option jstring;              (* new URL(s).origin, None when it throws *)
}.

Definition STORAGE_PREFIX : jstring := u "memos-frontend-error:".
Definition MAX_PENDING : nat := 20.
Definition MAX_AGE_MS : Z := 24 * 60 * 60 * 1000.
Definition MAX_TRACE : nat := 24.

Inductive DiagnosticKind := unexpected_html | network_error | http_error.
Record Trace := {
  at_ : jstring; type : jstring; target : option jstring; path : option jstring;
  requestId : option jstring; status : option Z;
}.
Record DeliveryFailure := { failed_at : jstring; attempt : Z; reason : jstring }.
(** A report is the object it is stored as. *)
Definition Report : Type := list (jstring * json).
Record Pending := {
  report : Report; attempts : Z; nextAttemptAt : Z; previousFailure : jstring; failures : list DeliveryFailure;
}.

(** ** The ring of events *)

Definition is_request (event : Trace) : bool := starts_with (type event) (u "api-").

(** [splice(findIndex(p), 1)]. *)
Fixpoint remove_first {A} (p : A -> bool) (l : list A) : list A :=
  match l with [] => [] | x :: l' => if p x then l' else x :: remove_first p l' end.

(** [recordDiagnosticTrace], of the event with its time. *)
Definition recordDiagnosticTrace (trace : list Trace) (event : Trace) : list Trace :=
  let trace := trace ++ [event] in
  let same e := Bool.eqb (is_request e) (is_request event) in
  let trace := if (MAX_TRACE / 2 <? length (js_filter same trace))%nat then remove_first same trace else trace in
  if (MAX_TRACE <? length trace)%nat then tail trace else trace.

(** ** Paths and stacks *)

Section Paths.
Context `{DiagnosticsHost}.

(** [/^(\/memos\/shares\/)[^/]+/]. *)
Definition SHARE_PATH : re :=
  (StartOf false +++ Group 1 (JSRegExp.text (u "/memos/shares/")) +++ plus (Chars (fun c => negb (c =? 47))))%re.

Definition redact_share (p : jstring) : jstring :=
  match exec_from false SHARE_PATH p 0 with
  | Some m => slice p 0 (m_from m) ++ default [] (capture p m 1) ++ u "[redacted]" ++ slice_from p (m_to m)
  | None => p
  end.

Definition diagnosticPath (value : jstring) : jstring :=
  match value with
  | [] => []
  | _ => match url_pathname value with
         | Some pathname => slice (redact_share pathname) 0 512
         | None => []
         end
  end.

(** [s.replace(r, f)] for a global expression. *)
Fixpoint replace_from (f : jstring -> jstring) (s : jstring) (pos : nat) (ms : list rmatch) : jstring :=
  match ms with
  | [] => slice_from s pos
  | m :: ms' => slice s pos (m_from m) ++ f (slice s (m_from m) (m_to m)) ++ replace_from f s (m_to m) ms'
  end.
Definition replace_fn (r : re) (f : jstring -> jstring) (s : jstring) : jstring :=
  replace_from f s 0 (match_all false r s).

Definition token_char (c : Z) : bool := is_alnum_ascii c || existsb (Z.eqb c) (u "._~+/-").
(** [/bearer\s+[A-Za-z0-9._~+/-]+=*/gi]. *)
Definition BEARER : re := (case_text (u "bearer") +++ plus space +++ plus (Chars token_char) +++ star (char 61))%re.
(** An http or https URL up to white space, a bracket, a quote or an angle. *)
Definition STACK_URL : re :=
  (JSRegExp.text (u "http") +++ opt (char 115) +++ JSRegExp.text (u "://")
   +++ plus (Chars (fun c => negb (is_space c || existsb (Z.eqb c) [41; 34; 60; 62]))))%re.

Definition safeStack (stack : jstring) : jstring :=
  let redacted := replace_fn BEARER (fun _ => u "Bearer [redacted]") stack in
  slice (replace_fn STACK_URL (fun value =>
           match url_origin value with Some origin => origin ++ diagnosticPath value | None => u "[URL]" end) redacted)
    0 4096.
End Paths.

(** ** The queue of reports *)

(** [localStorage] in the order of its keys, [None] when every access throws; the map of
    the tab, in insertion order; the report being sent; and when the timer goes off. *)
Record state := {
  storage : option (list (jstring * jstring));
  memoryPending : list (jstring * Pending);
  sending : option Pending;
  timer : option Z;
}.

Definition report_id (r : Report) : jstring := match prop r (u "id") with Some (JStr s) => s | _ => [] end.
Definition client_time (r : Report) : jstring := match prop r (u "clientTime") with Some (JStr s) => s | _ => [] end.
Definition item_id (item : Pending) : jstring := report_id (report item).

(** [JSON.stringify(item)] is [stringify] of this. *)
Definition failure_json (f : DeliveryFailure) : json :=
  JObj [(u "at", JStr (failed_at f)); (u "attempt", JNum (inject_Z (attempt f))); (u "reason", JStr (reason f))].
Definition pending_json (item : Pending) : json :=
  JObj [(u "report", JObj (report item)); (u "attempts", JNum (inject_Z (attempts item)));
        (u "nextAttemptAt", JNum (inject_Z (nextAttemptAt item))); (u "previousFailure", JStr (previousFailure item));
        (u "failures", JArr (failure_json <$> failures item))].

(** What a stored object is used as: the fields this file writes. *)
Definition int_of (v : option json) : Z := match v with Some (JNum q) => int_value q | _ => 0 end.
Definition text_of (v : option json) : jstring := match v with Some (JStr s) => s | _ => [] end.
Definition failure_of (v : json) : DeliveryFailure :=
  let o := match v with JObj o => o | _ => [] end in
  {| failed_at := text_of (prop o (u "at")); attempt := int_of (prop o (u "attempt")); reason := text_of (prop o (u "reason")) |}.
Definition pending_of (o : list (jstring * json)) (r : Report) : Pending := {|
  report := r; attempts := int_of (prop o (u "attempts")); nextAttemptAt := int_of (prop o (u "nextAttemptAt"));
  previousFailure := text_of (prop o (u "previousFailure"));
  failures := match prop o (u "failures") with Some (JArr l) => failure_of <$> l | _ => [] end |}.

Definition ours (key : jstring) : bool := starts_with key STORAGE_PREFIX.

(** The item of a stored entry, [None] for an entry [pendingReports] removes. *)
Definition read_entry (key text : jstring) : option Pending :=
  match JSON_parse text with
  | Some (JObj o) =>
      match prop o (u "report") with
      | Some (JObj r) =>
          if match prop r (u "schemaVersion") with Some (JNum q) => Qeq_bool q 1 | _ => false end
             && match prop r (u "id") with Some (JStr id) => js_eqb key (STORAGE_PREFIX ++ id) | _ => false end
          then Some (pending_of o r) else None
      | _ => None
      end
  | _ => None
  end.

Definition without_key {V} (k : jstring) (l : list (jstring * V)) : list (jstring * V) :=
  js_filter (fun kv => negb (js_eqb kv.1 k)) l.

(** [localStorage.setItem] may refuse, for want of space, when the argument is [false]. *)
Definition savePending (can_write : bool) (item : Pending) (st : state) : state :=
  let id := item_id item in
  let memory := set_prop (memoryPending st) id item in
  match storage st with
  | Some entries =>
      if can_write then
        {| storage := Some (set_prop entries (STORAGE_PREFIX ++ id) (stringify (pending_json item)));
           memoryPending := without_key id memory; sending := sending st; timer := timer st |}
      else {| storage := Some entries; memoryPending := memory; sending := sending st; timer := timer st |}
  | None => {| storage := None; memoryPending := memory; sending := sending st; timer := timer st |}
  end.

Definition removePending (id : jstring) (st : state) : state := {|
  storage := without_key (STORAGE_PREFIX ++ id) <$> storage st;
  memoryPending := without_key id (memoryPending st); sending := sending st; timer := timer st |}.

(** The loop over the stored entries: the items found, and the entries that stay. *)
Definition collect_entry (acc : list (jstring * Pending)) (entry : jstring * jstring) : list (jstring * Pending) :=
  if ours entry.1 then
    match read_entry entry.1 entry.2 with Some item => set_prop acc (item_id item) item | None => acc end
  else acc.
Definition stays (entry : jstring * jstring) : bool :=
  negb (ours entry.1) || bool_decide (is_Some (read_entry entry.1 entry.2)).

Definition items (st : state) : list (jstring * Pending) :=
  match storage st with
  | Some entries => foldl collect_entry (memoryPending st) entries
  | None => memoryPending st
  end.

Section Queue.
Context {host : DiagnosticsHost}.

(** Whether a report is of an age to keep. *)
Definition fresh (now : Z) (item : Pending) : bool :=
  match parse_date (client_time (report item)) with
  | Some t => negb ((MAX_AGE_MS <? now - t) || (now - t <? -60000))
  | None => false
  end.

Definition by_time (a b : Pending) : bool := localeCompare (client_time (report a)) (client_time (report b)) <=? 0.

Definition remove_all (ids : list jstring) (st : state) : state := foldl (fun st id => removePending id st) st ids.

(** [pendingReports]: the queue, and the state with the entries it drops removed. *)
Definition pendingReports (now : Z) (st : state) : state * list Pending :=
  let st' := {| storage := js_filter stays <$> storage st; memoryPending := memoryPending st;
                sending := sending st; timer := timer st |} in
  let all := snd <$> items st in
  let st' := remove_all (item_id <$> js_filter (fun item => negb (fresh now item)) all) st' in
  let valid := sort_by by_time (js_filter (fresh now) all) in
  let excess := (length valid - MAX_PENDING)%nat in
  (remove_all (item_id <$> take excess valid) st', drop excess valid).

(** ** Delivery *)

Definition scheduleFlush (now delay : Z) (st : state) : state := {|
  storage := storage st; memoryPending := memoryPending st; sending := sending st;
  timer := Some (now + Z.max 0 delay) |}.

Definition min_next (queue : list Pending) (default_ : Z) : Z :=
  foldr (fun item acc => Z.min (nextAttemptAt item) acc) default_ queue.

Definition backoff (attempts : Z) : Z := Z.min 300000 (2000 * 2 ^ Z.min (attempts - 1) 8).

Definition with_sending (s : option Pending) (st : state) : state := {|
  storage := storage st; memoryPending := memoryPending st; sending := s; timer := timer st |}.

(** [flushReports] up to the request it makes, if any. *)
Definition flush_start (can_write online : bool) (now : Z) (st : state) : state * option Pending :=
  if bool_decide (is_Some (sending st)) || negb online then (st, None)
  else
    let '(st, queue) := pendingReports now st in
    match queue with
    | [] => (st, None)
    | first :: _ =>
        match js_find (fun item => nextAttemptAt item <=? now) queue with
        | None => (scheduleFlush now (min_next queue (nextAttemptAt first) - now) st, None)
        | Some item =>
            let attempts' := attempts item + 1 in
            let item' := {| report := report item; attempts := attempts'; nextAttemptAt := now + backoff attempts';
                            previousFailure := previousFailure item; failures := failures item |} in
            (with_sending (Some item') (savePending can_write item' st), Some item')
        end
    end.

(** What [fetch] and [response.json()] give: a response with its status, content type
    and body, or an error with its message. *)
Inductive delivery :=
  | Response (status : Z) (content_type : option jstring) (body : json + jstring)
  | Failed (message : jstring).

Definition ack_ok (ack : json) (id : jstring) : bool :=
  match ack with
  | JObj o => match prop o (u "saved") with Some (JBool true) => true | _ => false end
              && match prop o (u "id") with Some (JStr s) => js_eqb s id | _ => false end
  | _ => false
  end.

(** The error thrown, [None] on success.  A body of [null] has no [saved] to read. *)
Definition delivery_error (null_message : jstring) (d : delivery) (id : jstring) : option jstring :=
  match d with
  | Failed message => Some message
  | Response status content_type body =>
      if negb ((200 <=? status) && (status <=? 299))
         || negb match content_type with Some ct => includes ct (u "application/json") | None => false end
      then Some (u "Report HTTP " ++ string_of_int status ++ u ", " ++ default (u "unknown type") content_type)
      else match body with
           | inr message => Some message
           | inl JNull => Some null_message
           | inl ack => if ack_ok ack id then None else Some (u "Report acknowledgement missing")
           end
  end.
Definition is_429 (d : delivery) : bool := match d with Response 429 _ _ => true | _ => false end.

(** [slice(-8)]. *)
Definition last_n {A} (n : nat) (l : list A) : list A := drop (length l - n) l.

(** The rest of [flushReports], from the end of the request; [started] is its [now]. *)
Definition flush_finish (can_write : bool) (null_message : jstring) (started now : Z) (item : Pending) (d : delivery)
    (st : state) : state :=
  let st :=
    match delivery_error null_message d (item_id item) with
    | None => removePending (item_id item) st
    | Some message =>
        let why := slice message 0 128 in
        savePending can_write
          {| report := report item; attempts := attempts item;
             nextAttemptAt := if is_429 d then started + 60000 else nextAttemptAt item;
             previousFailure := why;
             failures := last_n 8 (failures item ++ [{| failed_at := toISOString now; attempt := attempts item; reason := why |}]) |}
          st
    end in
  scheduleFlush now 250 (with_sending None st).
End Queue.

(** ** A request that is watched *)

Record DiagnosticRequest := {
  id : jstring; request_path : jstring; method : jstring; startedAt : jstring; completedAt : jstring;
  durationMs : Z; contentType : jstring; pagePath : jstring; authRetry : bool;
}.
Record HttpResponse := {
  http_status : Z; http_ok : bool; url : jstring; redirected : bool;
  header : jstring -> option jstring;       (* response.headers.get(name) *)
}.
Record NetworkError := { error_name : jstring; error_message : jstring }.

Section Request.
Context {host : DiagnosticsHost} {unicode : HostUnicode}.

Definition request_json (r : DiagnosticRequest) : json :=
  JObj [(u "id", JStr (id r)); (u "path", JStr (request_path r)); (u "method", JStr (method r));
        (u "startedAt", JStr (startedAt r)); (u "completedAt", JStr (completedAt r));
        (u "durationMs", JNum (inject_Z (durationMs r))); (u "contentType", JStr (contentType r));
        (u "pagePath", JStr (pagePath r)); (u "authRetry", JBool (authRetry r))].

(** [response?.headers.get(name) || ""], and the first of two that is not empty. *)
Definition header_or (response : option HttpResponse) (n : jstring) : jstring :=
  match response with Some r => default [] (header r n) | None => [] end.
Definition or_else (a b : jstring) : jstring := match a with [] => b | _ => a end.

Definition response_json (response : option HttpResponse) (contentType : jstring) : json :=
  let h := header_or response in
  let response_url := match response with Some r => url r | None => [] end in
  JObj [(u "status", JNum (inject_Z match response with Some r => http_status r | None => 0 end));
        (u "path", JStr (diagnosticPath response_url));
        (u "origin", JStr match response_url with [] => [] | _ => default [] (url_origin response_url) end);
        (u "contentType", JStr contentType);
        (u "redirected", JBool match response with Some r => redirected r | None => false end);
        (u "server", JStr (h (u "Server")));
        (u "requestId", JStr (or_else (h (u "X-Request-Id")) (h (u "CF-Ray"))));
        (u "cacheStatus", JStr (or_else (h (u "CF-Cache-Status")) (h (u "X-Cache"))));
        (u "cacheControl", JStr (h (u "Cache-Control"))); (u "retryAfter", JStr (h (u "Retry-After")));
        (u "edgeRequestId", JStr (h (u "CF-Ray"))); (u "via", JStr (h (u "Via")));
        (u "mitigation", JStr (h (u "CF-Mitigated"))); (u "contentLength", JStr (h (u "Content-Length")))].

Definition opt_str (key : jstring) (v : option jstring) : list (jstring * json) :=
  match v with Some s => [(key, JStr s)] | None => [] end.
Definition trace_json (e : Trace) : json :=
  JObj ([(u "at", JStr (at_ e)); (u "type", JStr (type e))] ++ opt_str (u "target") (target e) ++ opt_str (u "path") (path e)
        ++ opt_str (u "requestId") (requestId e)
        ++ match status e with Some n => [(u "status", JNum (inject_Z n))] | None => [] end).

(** [contentType.split(";", 1)[0].trim().toLowerCase()]. *)
Definition media_type (contentType : jstring) : jstring := to_lower (trim (default [] (head (split_on 59 contentType)))).
Definition is_html (contentType : jstring) : bool :=
  js_eqb (media_type contentType) (u "text/html") || js_eqb (media_type contentType) (u "application/xhtml+xml").

(** Why a finished request is reported, [None] when it is not. *)
Definition report_kind (response : option HttpResponse) (networkError : option NetworkError)
    : option (DiagnosticKind * jstring) :=
  let html := is_html (header_or response (u "Content-Type")) in
  let ok := match response with
            | Some r => http_ok r
            | None => match networkError with Some e => js_eqb (error_name e) (u "AbortError") | None => false end
            end in
  if negb html && ok then None
  else if html then Some (unexpected_html, u "API returned HTML instead of an RPC response")
  else match response with
       | Some r => Some (http_error, u "API HTTP " ++ string_of_int (http_status r))
       | None => Some (network_error, u "API network request failed")
       end.
Definition kind_text (k : DiagnosticKind) : jstring :=
  match k with unexpected_html => u "unexpected-html" | network_error => u "network-error" | http_error => u "http-error" end.

(** What the tab is at that moment: the identifiers made, and the page's context. *)
Record Tab := { new_id : jstring; session_id : jstring; initiatorStack : jstring; page_context : json }.

Definition make_report (tab : Tab) (request : DiagnosticRequest) (kind : DiagnosticKind) (message : jstring)
    (response : option HttpResponse) (networkError : option NetworkError) (trace : list Trace) : Report :=
  [(u "schemaVersion", JNum 1); (u "id", JStr (new_id tab)); (u "sessionId", JStr (session_id tab));
   (u "clientTime", JStr (completedAt request)); (u "kind", JStr (kind_text kind)); (u "message", JStr message);
   (u "stack", JStr (initiatorStack tab));
   (u "cause", JStr match networkError with
                    | Some e => slice (safeStack (error_name e ++ u ": " ++ error_message e)) 0 256
                    | None => []
                    end);
   (u "context", page_context tab); (u "request", request_json request);
   (u "response", response_json response (header_or response (u "Content-Type")));
   (u "trace", JArr (trace_json <$> trace))].

(** The function [startDiagnosticRequest] returns: the event recorded, and the report
    saved when there is one. *)
Definition finish_request (can_write : bool) (now : Z) (tab : Tab) (request : DiagnosticRequest)
    (response : option HttpResponse) (networkError : option NetworkError) (trace : list Trace) (st : state)
    : list Trace * state :=
  let trace := recordDiagnosticTrace trace
    {| at_ := toISOString now; type := u "api-end"; target := None; path := Some (request_path request);
       requestId := Some (id request); status := Some match response with Some r => http_status r | None => 0 end |} in
  match report_kind response networkError with
  | None => (trace, st)
  | Some (kind, message) =>
      let report := make_report tab request kind message response networkError trace in
      let st := savePending can_write
        {| report := report; attempts := 0; nextAttemptAt := now; previousFailure := []; failures := [] |} st in
      (trace, scheduleFlush now 0 (pendingReports now st).1)
  end.
End Request.

(** ** The ring *)

Definition of_class (b : bool) (e : Trace) : bool := Bool.eqb (is_request e) b.

Lemma tail_drop {A} k (l : list A) : tail (drop k l) = drop (S k) l.
Proof. revert k. induction l as [|x l IH]; intros [|k]; cbn; [done..|apply IH]. Qed.

Lemma last_n_snoc {A} n (l : list A) x :
  last_n n (l ++ [x]) =
  let l' := last_n n l ++ [x] in if (n <? length l')%nat then tail l' else l'.
Proof.
  unfold last_n. cbn zeta. rewrite <- (drop_app_le l [x] (length l - n)) by lia. rewrite tail_drop, length_drop, !length_app. cbn [length].
  destruct (n <? _)%nat eqn:E; bool_prop; f_equal; lia.
Qed.

Lemma last_n_length {A} n (l : list A) : (length (last_n n l) <= n)%nat.
Proof. unfold last_n. rewrite length_drop. lia. Qed.

Lemma filter_remove_first {A} (p : A -> bool) l : js_filter p (remove_first p l) = tail (js_filter p l).
Proof.
  induction l as [|x l IH]; cbn [remove_first js_filter]; [done|]. destruct (p x) eqn:E; [done|].
  cbn [js_filter]. by rewrite E.
Qed.
Lemma filter_remove_other {A} (p q : A -> bool) l :
  (forall x, p x = true -> q x = false) -> js_filter q (remove_first p l) = js_filter q l.
Proof.
  intros H. induction l as [|x l IH]; cbn [remove_first js_filter]; [done|]. destruct (p x) eqn:E; [by rewrite H|].
  cbn [js_filter]. by rewrite IH.
Qed.
Lemma remove_first_sublist {A} (p : A -> bool) l : remove_first p l `sublist_of` l.
Proof.
  induction l as [|x l IH]; cbn [remove_first]; [constructor|]. destruct (p x); [by constructor|by constructor].
Qed.

Lemma length_classes l : length l = (length (js_filter (of_class true) l) + length (js_filter (of_class false) l))%nat.
Proof.
  induction l as [|x l IH]; [done|]. cbn [js_filter length].
  assert (of_class true x = negb (of_class false x)) as -> by (unfold of_class; by destruct (is_request x)).
  destruct (of_class false x); cbn [negb length]; lia.
Qed.

Definition ring_half : nat := (MAX_TRACE / 2)%nat.

(** The ring after some events: a subsequence of them, which holds of each class the
    last twelve. *)
Definition ring_of (events trace : list Trace) : Prop :=
  trace `sublist_of` events
  /\ forall b, js_filter (of_class b) trace = last_n ring_half (js_filter (of_class b) events).

Lemma ring_length events trace : ring_of events trace -> (length trace <= MAX_TRACE)%nat.
Proof.
  intros [_ H]. rewrite length_classes, !H. pose proof (last_n_length ring_half (js_filter (of_class true) events)).
  pose proof (last_n_length ring_half (js_filter (of_class false) events)). change MAX_TRACE with (ring_half + ring_half)%nat. lia.
Qed.

Lemma record_ring events trace event :
  ring_of events trace -> ring_of (events ++ [event]) (recordDiagnosticTrace trace event).
Proof.
  intros Hr. pose proof (ring_length _ _ Hr) as Hlen. destruct Hr as [Hs Hc].
  unfold recordDiagnosticTrace. fold ring_half. set (c := is_request event).
  change (fun e => Bool.eqb (is_request e) c) with (of_class c).
  set (pushed := trace ++ [event]).
  set (kept := if (ring_half <? length (js_filter (of_class c) pushed))%nat then remove_first (of_class c) pushed else pushed).
  assert (ring_of (events ++ [event]) kept) as Hk.
  { assert (pushed `sublist_of` events ++ [event]) as Hp by (by apply sublist_app).
    split; [unfold kept; destruct (_ <? _)%nat; [|done]; by rewrite remove_first_sublist|].
    intros b. rewrite js_filter_app. assert (js_filter (of_class b) pushed = last_n ring_half (js_filter (of_class b) events)
      ++ js_filter (of_class b) [event]) as Hb by (unfold pushed; by rewrite js_filter_app, Hc).
    destruct (decide (b = c)) as [->|Hne].
    - assert (js_filter (of_class c) [event] = [event]) as E
        by (cbn [js_filter]; unfold of_class at 1; fold c; by rewrite Bool.eqb_reflx).
      rewrite E in *. rewrite last_n_snoc. cbn zeta. rewrite <- Hb. unfold kept.
      destruct (_ <? _)%nat; [apply filter_remove_first|done].
    - assert (js_filter (of_class b) [event] = []) as E.
      { cbn [js_filter]. unfold of_class at 1. fold c. destruct b, c; done. }
      rewrite E, app_nil_r in *. rewrite <- Hb. unfold kept. destruct (_ <? _)%nat; [|done].
      apply filter_remove_other. unfold of_class. intros e He. destruct (is_request e), b, c; done. }
  pose proof (ring_length _ _ Hk) as Hl. destruct (MAX_TRACE <? length kept)%nat eqn:E; bool_prop; [lia|exact Hk].
Qed.

(** ** The queue's contents *)

(** The tab's map is keyed by the identifiers of its items. *)
Definition keyed {V} (key_of : V -> jstring) (l : list (jstring * V)) : Prop :=
  NoDup l.*1 /\ Forall (fun kv => kv.1 = key_of kv.2) l.

Lemma set_prop_keys {V} (o : list (jstring * V)) k v :
  (set_prop o k v).*1 = if bool_decide (k ∈ o.*1) then o.*1 else o.*1 ++ [k].
Proof.
  induction o as [|[k' v'] o IH]; [done|]. cbn [set_prop fmap list_fmap fst]. destruct (js_eqb k' k) eqn:E.
  - apply js_eqb_true in E as ->. rewrite bool_decide_eq_true_2 by (by left). done.
  - apply js_eqb_false in E. cbn [fmap list_fmap fst]. rewrite IH.
    case_bool_decide as H1; case_bool_decide as H2; try done.
    + destruct H2. by right.
    + apply elem_of_cons in H2 as [->|H2]; done.
Qed.

Lemma set_prop_keyed {V} (key_of : V -> jstring) o v : keyed key_of o -> keyed key_of (set_prop o (key_of v) v).
Proof.
  intros [Hn Hk]. split.
  - rewrite set_prop_keys. case_bool_decide as H; [done|]. apply NoDup_app. split; [done|]. split; [|apply NoDup_singleton].
    intros x Hx ->%list_elem_of_singleton. done.
  - clear Hn. induction Hk as [|[k w] o Hkw Hk IH]; cbn [set_prop]; [by repeat constructor|].
    destruct (js_eqb k (key_of v)); by constructor.
Qed.

Lemma without_set_same {V} (o : list (jstring * V)) k v : without_key k (set_prop o k v) = without_key k o.
Proof.
  unfold without_key. induction o as [|[k' v'] o IH]; cbn [set_prop js_filter fst]; [by rewrite js_eqb_refl|].
  destruct (js_eqb k' k) eqn:E; cbn [js_filter fst]; rewrite ?js_eqb_refl, ?E, ?IH; done.
Qed.
Lemma without_set_other {V} (o : list (jstring * V)) k k' v :
  k <> k' -> without_key k (set_prop o k' v) = set_prop (without_key k o) k' v.
Proof.
  intros Hne. assert (js_eqb k' k = false) as Hk by by apply js_eqb_false.
  unfold without_key. induction o as [|[j w] o IH]; cbn [set_prop js_filter fst]; [by rewrite Hk|].
  destruct (js_eqb j k') eqn:E; cbn [js_filter fst].
  - apply js_eqb_true in E as ->. rewrite Hk. cbn [negb set_prop]. by rewrite js_eqb_refl.
  - destruct (js_eqb j k); cbn [negb]; [done|]. cbn [set_prop]. by rewrite E, IH.
Qed.
Lemma without_keyed {V} (key_of : V -> jstring) k o : keyed key_of o -> keyed key_of (without_key k o).
Proof.
  intros [Hn Hk]. split.
  - eapply sublist_NoDup; [exact Hn|]. apply fmap_sublist, js_filter_sublist.
  - rewrite Forall_forall in *. intros kv Hkv. apply Hk. eapply elem_of_sublist; [exact Hkv|]. apply js_filter_sublist.
Qed.

Lemma read_entry_key key text item : read_entry key text = Some item -> key = STORAGE_PREFIX ++ item_id item.
Proof.
  unfold read_entry. destruct (JSON_parse text) as [[| | | | | |o]|]; try done.
  destruct (prop o (u "report")) as [[| | | | | |r]|]; try done.
  destruct (_ && _) eqn:E; [|done]. intros [= <-]. apply andb_prop in E as [_ E].
  unfold item_id, report_id, pending_of. cbn [report].
  destruct (prop r (u "id")) as [[| | | |s| |]|]; try done. by apply js_eqb_true.
Qed.

Lemma collect_entry_keyed acc e : keyed item_id acc -> keyed item_id (collect_entry acc e).
Proof.
  intros H. unfold collect_entry. destruct (ours _); [|done]. destruct (read_entry _ _); [by apply set_prop_keyed|done].
Qed.

Lemma items_keyed st : keyed item_id (memoryPending st) -> keyed item_id (items st).
Proof.
  unfold items. destruct (storage st) as [entries|]; [|done]. generalize (memoryPending st).
  induction entries as [|e entries IH]; intros acc H; [done|]. cbn [foldl]. by apply IH, collect_entry_keyed.
Qed.

Lemma collect_without id acc e :
  without_key id (collect_entry acc e) =
  if js_eqb e.1 (STORAGE_PREFIX ++ id) then without_key id acc else collect_entry (without_key id acc) e.
Proof.
  unfold collect_entry. destruct (js_eqb e.1 _) eqn:E.
  - apply js_eqb_true in E. destruct (ours _); [|done]. destruct (read_entry e.1 e.2) as [item|] eqn:Er; [|done].
    apply read_entry_key in Er. rewrite E in Er. apply app_inv_head in Er. subst id. apply without_set_same.
  - apply js_eqb_false in E. destruct (ours _); [|done]. destruct (read_entry e.1 e.2) as [item|] eqn:Er; [|done].
    apply read_entry_key in Er. apply without_set_other. intros ->. done.
Qed.

(** Removing a report removes it from the queue, and nothing else. *)
Lemma items_remove id st : items (removePending id st) = without_key id (items st).
Proof.
  unfold items, removePending. cbn [storage memoryPending]. destruct (storage st) as [entries|]; cbn [fmap option_fmap option_map]; [|done].
  generalize (memoryPending st). induction entries as [|e entries IH]; intros acc; [done|].
  cbn [foldl]. rewrite <- IH, collect_without.
  assert (without_key (STORAGE_PREFIX ++ id) (e :: entries) =
    if js_eqb e.1 (STORAGE_PREFIX ++ id) then without_key (STORAGE_PREFIX ++ id) entries
    else e :: without_key (STORAGE_PREFIX ++ id) entries) as ->
    by (unfold without_key; cbn [js_filter]; by destruct (js_eqb e.1 _)).
  by destruct (js_eqb e.1 _).
Qed.

Lemma items_stays entries acc : foldl collect_entry acc (js_filter stays entries) = foldl collect_entry acc entries.
Proof.
  revert acc. induction entries as [|e entries IH]; intros acc; [done|]. cbn [js_filter foldl]. unfold stays at 1.
  destruct (ours e.1) eqn:Eo; cbn [negb orb]; [|cbn [foldl]; apply IH].
  case_bool_decide as Hr; [cbn [foldl]; apply IH|]. rewrite IH. f_equal. unfold collect_entry. rewrite Eo.
  destruct (read_entry e.1 e.2); [|done]. destruct Hr. by eexists.
Qed.

Definition no_ids (ids : list jstring) {V} (l : list (jstring * V)) : list (jstring * V) :=
  js_filter (fun kv => bool_decide (kv.1 ∉ ids)) l.

Lemma items_remove_all ids st : items (remove_all ids st) = no_ids ids (items st).
Proof.
  unfold remove_all, no_ids. revert st. induction ids as [|id ids IH]; intros st; cbn [foldl].
  { symmetry. apply js_filter_true. intros x _. apply bool_decide_eq_true_2. intros H. inversion H. }
  rewrite IH, items_remove. unfold without_key. rewrite js_filter_filter. apply js_filter_ext. intros [k v] _. cbn [fst].
  unfold js_eqb. repeat case_bool_decide; try done; set_solver.
Qed.

Lemma remove_all_memory ids st :
  keyed item_id (memoryPending st) -> keyed item_id (memoryPending (remove_all ids st)).
Proof.
  unfold remove_all. revert st. induction ids as [|id ids IH]; intros st H; [done|]. cbn [foldl]. apply IH.
  cbn [removePending memoryPending]. by apply without_keyed.
Qed.

(** A report saved is forgotten with the ones before it. *)
Lemma items_remove_saved w item st :
  items (removePending (item_id item) (savePending w item st)) = items (removePending (item_id item) st).
Proof.
  unfold savePending, removePending, items. destruct (storage st) as [entries|]; cbn [storage memoryPending fmap option_fmap option_map].
  - assert (forall (l : list (jstring * Pending)), without_key (item_id item) (without_key (item_id item) l) = without_key (item_id item) l) as Hidem.
    { intros l. unfold without_key. rewrite js_filter_filter. apply js_filter_ext. intros x _. by rewrite andb_diag. }
    destruct w; cbn [storage memoryPending fmap option_fmap option_map]; rewrite ?without_set_same, ?Hidem, ?without_set_same; done.
  - by rewrite without_set_same.
Qed.

(** ** One look at the queue *)

Section QueueFacts.
Context {host : DiagnosticsHost}.

Lemma pending_values st : keyed item_id (memoryPending st) ->
  NoDup (item_id <$> (snd <$> items st)).
Proof.
  intros [Hn Hk]%items_keyed. assert (item_id <$> (snd <$> items st) = (items st).*1) as ->; [|done].
  clear Hn. induction Hk as [|kv l Hkv _ IH]; [done|]. cbn. by rewrite Hkv, IH.
Qed.

Lemma no_ids_values ids (l : list (jstring * Pending)) :
  Forall (fun kv => kv.1 = item_id kv.2) l ->
  snd <$> no_ids ids l = js_filter (fun item => bool_decide (item_id item ∉ ids)) (snd <$> l).
Proof.
  unfold no_ids. induction 1 as [|[k v] l Hkv _ IH]; [done|]. cbn [js_filter fmap list_fmap fst snd] in *. rewrite <- IH.
  subst k. by case_bool_decide.
Qed.

(** Dropping the first of a list of distinct items is dropping those identifiers. *)
Lemma filter_not_taken n (l : list Pending) :
  NoDup (item_id <$> l) -> js_filter (fun item => bool_decide (item_id item ∉ (item_id <$> take n l))) l = drop n l.
Proof.
  intros Hn. set (p := fun item => bool_decide (item_id item ∉ (item_id <$> take n l))).
  assert (js_filter p l = js_filter p (take n l) ++ js_filter p (drop n l)) as ->
    by by rewrite <- js_filter_app, take_drop.
  rewrite <- (take_drop n l), fmap_app in Hn. apply NoDup_app in Hn as (_ & Hd & _).
  assert (js_filter p (take n l) = []) as ->.
  { assert (forall x, x ∈ take n l -> p x = false) as H.
    { intros x Hx. apply bool_decide_eq_false_2. intros Hnot. apply Hnot. by apply list_elem_of_fmap_2. }
    clearbody p. clear Hd. induction (take n l) as [|x k IH]; [done|]. cbn [js_filter]. rewrite H by (by left). apply IH.
    intros y Hy. apply H. by right. }
  apply js_filter_true. intros x Hx. apply bool_decide_eq_true_2. intros Hin. apply (Hd (item_id x) Hin).
  by apply list_elem_of_fmap_2.
Qed.

Lemma js_filter_ids_sublist (p : Pending -> bool) l : NoDup (item_id <$> l) -> NoDup (item_id <$> js_filter p l).
Proof. intros H. eapply sublist_NoDup; [exact H|]. apply fmap_sublist, js_filter_sublist. Qed.

(** After a look at the queue the state holds what it returned, and no more. *)
Lemma pendingReports_items now st st' queue :
  keyed item_id (memoryPending st) -> pendingReports now st = (st', queue) ->
  keyed item_id (memoryPending st') /\ snd <$> items st' ≡ₚ queue.
Proof.
  intros Hk. unfold pendingReports. set (st1 := {| storage := _ |}). set (all := snd <$> items st).
  assert (items st1 = items st) as E1.
  { unfold items, st1. cbn [storage memoryPending]. destruct (storage st) as [entries|]; [|done].
    cbn [fmap option_fmap option_map]. apply items_stays. }
  set (stale := item_id <$> js_filter (fun item => negb (fresh now item)) all).
  set (valid := sort_by by_time (js_filter (fresh now) all)). set (n := (length valid - MAX_PENDING)%nat).
  intros [= <- <-]. split; [do 2 apply remove_all_memory; exact Hk|].
  pose proof (pending_values st Hk) as Hn. fold all in Hn. pose proof (items_keyed st Hk) as [_ Hall].
  rewrite !items_remove_all, E1. rewrite no_ids_values.
  2:{ rewrite Forall_forall in *. intros kv Hkv. apply Hall. eapply elem_of_sublist; [exact Hkv|apply js_filter_sublist]. }
  rewrite no_ids_values by done. fold all.
  assert (js_filter (fun item => bool_decide (item_id item ∉ stale)) all = js_filter (fresh now) all) as ->.
  { apply js_filter_ext. intros x Hx. unfold stale. destruct (fresh now x) eqn:Ef.
    - apply bool_decide_eq_true_2. intros (y & Hxy & Hy)%list_elem_of_fmap. apply js_filter_In in Hy as [Hy Hfy].
      assert (y = x) as ->; [|by rewrite Ef in Hfy].
      clear -Hn Hx Hy Hxy. induction all as [|z l IH]; [inversion Hx|]. cbn in Hn. apply NoDup_cons in Hn as [Hz Hn].
      apply elem_of_cons in Hx as [->|Hx]; apply elem_of_cons in Hy as [->|Hy]; [done| | |by apply IH].
      + destruct Hz. rewrite Hxy. by apply list_elem_of_fmap_2.
      + destruct Hz. rewrite <- Hxy. by apply list_elem_of_fmap_2.
    - apply bool_decide_eq_false_2. intros Hnot. apply Hnot. apply list_elem_of_fmap_2, js_filter_In. by rewrite Ef. }
  assert (js_filter (fresh now) all ≡ₚ valid) as Hp by (symmetry; apply sort_by_perm).
  rewrite Hp. rewrite filter_not_taken; [done|]. rewrite <- Hp. by apply js_filter_ids_sublist.
Qed.

Lemma pendingReports_queue now st :
  (pendingReports now st).2
  = let valid := sort_by by_time (js_filter (fresh now) (snd <$> items st)) in drop (length valid - MAX_PENDING) valid.
Proof. done. Qed.

Lemma remove_all_frame ids s : sending (remove_all ids s) = sending s /\ timer (remove_all ids s) = timer s.
Proof.
  unfold remove_all. revert s. induction ids as [|id ids IH]; intros s; [done|]. cbn [foldl].
  destruct (IH (removePending id s)) as [-> ->]. done.
Qed.
Lemma pendingReports_frame now s s' queue :
  pendingReports now s = (s', queue) -> sending s' = sending s /\ timer s' = timer s.
Proof.
  unfold pendingReports. intros [= <- _]. rewrite !(proj1 (remove_all_frame _ _)), !(proj2 (remove_all_frame _ _)). done.
Qed.

(** When nothing is stale or in excess, a look at the queue changes nothing in it. *)
Lemma pendingReports_all now st st' queue :
  (forall item, item ∈ snd <$> items st -> fresh now item = true) -> (length (items st) <= MAX_PENDING)%nat ->
  pendingReports now st = (st', queue) ->
  queue ≡ₚ snd <$> items st /\ items st' = items st.
Proof.
  intros Hf Hl. unfold pendingReports. set (st1 := {| storage := _ |}). set (all := snd <$> items st) in *.
  rewrite (js_filter_true (fresh now) all) by done.
  assert (js_filter (fun item => negb (fresh now item)) all = []) as ->.
  { induction all as [|x l IH]; [done|]. cbn [js_filter]. rewrite Hf by (by left). apply IH.
    intros y Hy. apply Hf. by right. }
  assert (length (sort_by by_time all) = length (items st)) as El.
  { rewrite (Permutation_length (sort_by_perm by_time all)). unfold all. by rewrite length_fmap. }
  rewrite El. replace (length (items st) - MAX_PENDING)%nat with 0%nat by lia. rewrite take_0, drop_0.
  cbn [fmap list_fmap remove_all foldl]. intros [= <- <-]. split; [apply sort_by_perm|].
  unfold items, st1. cbn [storage memoryPending]. destruct (storage st) as [entries|]; [|done].
  cbn [fmap option_fmap option_map]. apply items_stays.
Qed.
End QueueFacts.

(** ** Delivery when the server answers *)

Section Delivery.
Context {host : DiagnosticsHost}.
(** How late a timer may go off. *)
Context (late : Z).

Record config := { st : state; clock : Z; acked : list jstring }.
Definition REQUEST_TIMEOUT : Z := 8000.    (* AbortSignal.timeout(8000) *)

Definition timer_off (s : state) : state := {|
  storage := storage s; memoryPending := memoryPending s; sending := sending s; timer := None |}.

(** The tab is online, nothing new is reported, and the server acknowledges each report
    in time: the timer goes off at or after its time and the callback runs.  Writes to
    the store may fail, each as it will. *)
Inductive fires (c : config) : config -> Prop :=
| fires_idle due now w s' :
    timer (st c) = Some due -> Z.max (clock c) due <= now <= Z.max (clock c) due + late ->
    flush_start w true now (timer_off (st c)) = (s', None) ->
    fires c {| st := s'; clock := now; acked := acked c |}
| fires_delivers due now w s' item done_at w' null_message d :
    timer (st c) = Some due -> Z.max (clock c) due <= now <= Z.max (clock c) due + late ->
    flush_start w true now (timer_off (st c)) = (s', Some item) ->
    now <= done_at <= now + REQUEST_TIMEOUT -> delivery_error null_message d (item_id item) = None ->
    fires c {| st := flush_finish w' null_message now done_at item d s'; clock := done_at; acked := item_id item :: acked c |}.

(** Now, or after a firing that can happen, whichever happens. *)
Inductive inevitably (P : config -> Prop) (c : config) : Prop :=
| inevitably_now : P c -> inevitably P c
| inevitably_later : (exists c', fires c c') -> (forall c', fires c c' -> inevitably P c') -> inevitably P c.

(** The reports stay of an age to keep until [horizon]. *)
Definition lasts (now horizon : Z) (item : Pending) : Prop :=
  exists t, parse_date (client_time (report item)) = Some t /\ t <= now + 60000 /\ horizon - t <= MAX_AGE_MS.

Lemma lasts_fresh now horizon t item : lasts now horizon item -> now <= t <= horizon -> fresh t item = true.
Proof.
  intros (c & Hc & H1 & H2) Ht. unfold fresh. rewrite Hc. apply negb_true_iff, orb_false_iff.
  rewrite !Z.ltb_ge. lia.
Qed.

Lemma ack_possible id : exists d, forall m, delivery_error m d id = None.
Proof.
  exists (Response 200 (Some (u "application/json")) (inl (JObj [(u "saved", JBool true); (u "id", JStr id)]))).
  intros m. unfold delivery_error, ack_ok. cbn [prop]. change (js_eqb (u "saved") (u "id")) with false.
  change (js_eqb (u "id") (u "id")) with true. change (js_eqb (u "saved") (u "saved")) with true. cbn iota beta.
  rewrite js_eqb_refl. reflexivity.
Qed.

Lemma min_next_bound queue d item : item ∈ queue -> min_next queue d <= nextAttemptAt item.
Proof.
  induction queue as [|x l IH]; [intros H; inversion H|]. cbn [min_next foldr].
  intros [->|H]%elem_of_cons; [lia|]. specialize (IH H). unfold min_next in IH. lia.
Qed.
Lemma min_next_attained queue d x : d = nextAttemptAt x -> exists item, item ∈ x :: queue /\ min_next (x :: queue) d = nextAttemptAt item.
Proof.
  intros ->. cbn [min_next foldr]. induction queue as [|y l IH]; cbn [foldr].
  - exists x. split; [by left|lia].
  - destruct IH as (z & Hz & E). destruct (decide (nextAttemptAt y <= nextAttemptAt z)).
    + exists y. split; [right; by left|]. unfold min_next in E. lia.
    + exists z. split; [apply elem_of_cons in Hz as [->|Hz]; [by left|right; by right]|]. unfold min_next in E. lia.
Qed.

Lemma savePending_keyed w item s :
  keyed item_id (memoryPending s) -> keyed item_id (memoryPending (savePending w item s)).
Proof.
  intros H. unfold savePending. destruct (storage s), w; cbn [memoryPending]; try apply without_keyed; by apply set_prop_keyed.
Qed.

(** What one flush does when every report is kept. *)
Lemma flush_start_cases w now s s' out :
  keyed item_id (memoryPending s) -> sending s = None -> timer s = None ->
  (forall item, item ∈ snd <$> items s -> fresh now item = true) -> (length (items s) <= MAX_PENDING)%nat ->
  flush_start w true now s = (s', out) ->
  match out with
  | None => keyed item_id (memoryPending s') /\ sending s' = None /\ items s' = items s
            /\ (items s <> [] -> (forall item, item ∈ snd <$> items s -> now < nextAttemptAt item)
                /\ exists item, item ∈ snd <$> items s /\ timer s' = Some (nextAttemptAt item))
  | Some item =>
      exists old, old ∈ snd <$> items s /\ item_id item = item_id old
        /\ forall w' m done_at d, delivery_error m d (item_id item) = None ->
             let s2 := flush_finish w' m now done_at item d s' in
             keyed item_id (memoryPending s2) /\ sending s2 = None /\ timer s2 = Some (done_at + 250)
             /\ items s2 = without_key (item_id item) (items s)
  end.
Proof.
  intros Hk Hs Ht Hf Hl. unfold flush_start. rewrite Hs. cbn [bool_decide is_Some_dec orb negb].
  destruct (pendingReports now s) as [s1 queue] eqn:Ep.
  destruct (pendingReports_all now s s1 queue Hf Hl Ep) as [Hq Hi].
  destruct (pendingReports_items now s s1 queue Hk Ep) as [Hk1 _].
  destruct (pendingReports_frame now s s1 queue Ep) as [Hs1 Ht1]. rewrite Hs in Hs1. clear Ep.
  destruct queue as [|first rest].
  { intros [= <- <-]. split; [done|]. split; [done|]. split; [done|]. intros Hne. exfalso. apply Hne.
    apply Permutation_nil in Hq. by apply fmap_nil_inv in Hq. }
  destruct (js_find _ (first :: rest)) as [old|] eqn:Ej; intros [= <- <-].
  - apply js_find_Some in Ej as [Hin _]. exists old. split; [by rewrite <- Hq|]. split; [done|].
    set (item := {| report := report old; attempts := _; nextAttemptAt := _; previousFailure := _; failures := _ |}).
    intros w' m done_at d Hd. unfold flush_finish. rewrite Hd. cbn [scheduleFlush with_sending sending timer].
    split; [apply without_keyed, savePending_keyed; exact Hk1|]. split; [done|]. split; [f_equal; lia|].
    change (items (removePending (item_id item) (savePending w item s1)) = without_key (item_id item) (items s)).
    by rewrite items_remove_saved, items_remove, Hi.
  - cbn [scheduleFlush memoryPending sending timer]. split; [done|]. split; [done|]. split; [exact Hi|]. intros _.
    rewrite js_find_None in Ej.
    assert (forall item, item ∈ first :: rest -> now < nextAttemptAt item) as Hlt.
    { intros item Hin. specialize (Ej item Hin). by bool_prop. }
    split; [intros item Hin; apply Hlt; by rewrite Hq|].
    change (Z.min (nextAttemptAt first) (min_next rest (nextAttemptAt first)))
      with (min_next (first :: rest) (nextAttemptAt first)).
    destruct (min_next_attained rest (nextAttemptAt first) first eq_refl) as (item & Hin & ->).
    exists item. split; [by rewrite <- Hq|]. specialize (Hlt item Hin). f_equal. lia.
Qed.

(** The bound the induction keeps: when the timer goes off next, at the latest, and how
    long each report still takes. *)
Definition budget (c : config) (due latest : Z) : Z :=
  Z.max (Z.max (clock c) due) latest + late + Z.of_nat (length (items (st c))) * (REQUEST_TIMEOUT + 250 + late).

Definition delivering (c : config) (due latest horizon : Z) : Prop :=
  keyed item_id (memoryPending (st c)) /\ sending (st c) = None /\ timer (st c) = Some due
  /\ (length (items (st c)) <= MAX_PENDING)%nat
  /\ (forall item, item ∈ snd <$> items (st c) -> nextAttemptAt item <= latest /\ lasts (clock c) horizon item)
  /\ budget c due latest <= horizon.

Lemma without_key_shorter (l : list (jstring * Pending)) item :
  Forall (fun kv => kv.1 = item_id kv.2) l -> item ∈ snd <$> l ->
  (length (without_key (item_id item) l) < length l)%nat.
Proof.
  intros Hk Hin. assert (forall k, length (without_key k l) <= length l)%nat as Hle
    by (intros k; apply sublist_length, js_filter_sublist).
  induction Hk as [|[k v] l Hkv Hk IH]; [inversion Hin|]. cbn in Hkv. subst k. unfold without_key in *. cbn [js_filter fst length].
  cbn in Hin. apply elem_of_cons in Hin as [->|Hin].
  - rewrite js_eqb_refl. cbn [negb]. pose proof (sublist_length _ _ (js_filter_sublist (fun kv => negb (js_eqb kv.1 (item_id v))) l)). lia.
  - destruct (negb _); cbn [length]; [|pose proof (sublist_length _ _ (js_filter_sublist (fun kv => negb (js_eqb kv.1 (item_id item))) l)); lia].
    assert (length (js_filter (fun kv : jstring * Pending => negb (js_eqb kv.1 (item_id item))) l) < length l)%nat; [|lia].
    apply IH; [done|]. intros j. apply sublist_length, js_filter_sublist.
Qed.

Lemma without_key_values id (l : list (jstring * Pending)) item : item ∈ snd <$> without_key id l -> item ∈ snd <$> l.
Proof.
  intros (kv & -> & H)%list_elem_of_fmap. apply list_elem_of_fmap_2.
  eapply elem_of_sublist; [exact H|apply js_filter_sublist].
Qed.
Lemma without_key_rest id (l : list (jstring * Pending)) item :
  Forall (fun kv => kv.1 = item_id kv.2) l -> item ∈ snd <$> l -> item_id item <> id -> item ∈ snd <$> without_key id l.
Proof.
  intros Hk (kv & -> & H)%list_elem_of_fmap Hne. apply list_elem_of_fmap_2, js_filter_In. split; [done|].
  rewrite Forall_forall in Hk. rewrite (Hk kv H). by apply negb_true_iff, js_eqb_false.
Qed.

(** One firing: either a report is delivered, or the timer is set for one that will be. *)
Lemma delivering_step c due latest horizon c' :
  0 <= late -> delivering c due latest horizon -> items (st c) <> [] -> fires c c' ->
  (exists item due', item ∈ snd <$> items (st c) /\ acked c' = item_id item :: acked c
     /\ items (st c') = without_key (item_id item) (items (st c)) /\ delivering c' due' latest horizon)
  \/ (acked c' = acked c /\ items (st c') = items (st c)
     /\ (forall item, item ∈ snd <$> items (st c) -> due < nextAttemptAt item)
     /\ exists item, item ∈ snd <$> items (st c) /\ delivering c' (nextAttemptAt item) latest horizon).
Proof.
  intros Hlate (Hk & Hs & Ht & Hl & Hall & Hb) Hne Hf. unfold budget in Hb.
  assert (forall t, Z.max (clock c) due <= t <= Z.max (clock c) due + late ->
    forall item, item ∈ snd <$> items (timer_off (st c)) -> fresh t item = true) as Hfresh.
  { intros t Hti item Hin. eapply lasts_fresh; [by apply Hall|]. unfold REQUEST_TIMEOUT in *. nia. }
  destruct Hf as [due0 now w s' Hd Hn E|due0 now w s' item done_at w' m d Hd Hn E Hdone Hack];
    rewrite Ht in Hd; injection Hd as <-;
    pose proof (flush_start_cases w now (timer_off (st c)) s' _ Hk Hs eq_refl (Hfresh now Hn) Hl E) as H; cbn iota in H.
  - right. destruct H as (H1 & H2 & H3 & H4). destruct (H4 Hne) as [H5 (item & H6 & H7)]. cbn [st acked].
    change (items (timer_off (st c))) with (items (st c)) in *.
    split; [done|]. split; [done|]. split; [intros x Hx; specialize (H5 x Hx); lia|].
    exists item. split; [done|]. unfold delivering, budget. cbn [st clock]. rewrite H3.
    split; [done|]. split; [done|]. split; [done|]. split; [done|].
    destruct (Hall item H6) as [H8 _]. specialize (H5 item H6). split.
    + intros x Hx. destruct (Hall x Hx) as [Hx1 (t & Ht1 & Ht2 & Ht3)]. split; [done|]. exists t. split; [done|]. lia.
    + unfold REQUEST_TIMEOUT in *. nia.
  - left. destruct H as (old & H1 & H2 & H3). change (items (timer_off (st c))) with (items (st c)) in *.
    specialize (H3 w' m done_at d Hack). cbn zeta in H3. destruct H3 as (H4 & H5 & H6 & H7).
    exists old, (done_at + 250). cbn [st acked]. rewrite H2 in *. split; [done|]. split; [done|]. split; [done|].
    unfold delivering, budget. cbn [st clock]. rewrite H7. pose proof (items_keyed _ Hk) as [_ Hkey].
    pose proof (without_key_shorter _ old Hkey H1) as Hlt. split; [done|]. split; [done|]. split; [done|]. split; [lia|]. split.
    + intros x Hx%without_key_values. destruct (Hall x Hx) as [Hx1 (t & Ht1 & Ht2 & Ht3)].
      split; [done|]. exists t. split; [done|]. lia.
    + unfold REQUEST_TIMEOUT in *. nia.
Qed.

Lemma fires_possible c due : 0 <= late -> timer (st c) = Some due -> exists c', fires c c'.
Proof.
  intros Hlate Ht. destruct (flush_start true true (Z.max (clock c) due) (timer_off (st c))) as [s' [item|]] eqn:E.
  - destruct (ack_possible (item_id item)) as [d Hd]. eexists.
    eapply (fires_delivers c due _ true s' item (Z.max (clock c) due) true [] d); [done| |exact E| |apply Hd]; unfold REQUEST_TIMEOUT; lia.
  - eexists. eapply (fires_idle c due); [done| |exact E]. lia.
Qed.

(** All of a configuration's reports are acknowledged. *)
Definition all_acked (ids : list jstring) (c : config) : Prop := items (st c) = [] /\ forall id, id ∈ ids -> id ∈ acked c.

Lemma delivering_inevitable n : forall c due latest horizon ids,
  0 <= late -> (length (items (st c)) <= n)%nat -> delivering c due latest horizon ->
  (forall id, id ∈ ids -> id ∈ acked c \/ exists item, item ∈ snd <$> items (st c) /\ id = item_id item) ->
  inevitably (all_acked ids) c.
Proof.
  induction n as [|n IH]; intros c due latest horizon ids Hlate Hn Hd Hids.
  { apply inevitably_now. destruct (items (st c)) eqn:E; [|cbn in Hn; lia]. split; [done|].
    intros id [H|(item & H & _)]%Hids; [done|inversion H]. }
  destruct (decide (length (items (st c)) = 0%nat)) as [E|Hne].
  { eapply IH; [done| |exact Hd|done]. lia. }
  assert (items (st c) <> []) as Hne' by (intros E; by rewrite E in Hne).
  assert (forall c1 c' due1, items (st c1) = items (st c) -> acked c1 = acked c ->
    delivering c1 due1 latest horizon -> fires c1 c' -> (exists item due', item ∈ snd <$> items (st c1) /\ acked c' = item_id item :: acked c1
     /\ items (st c') = without_key (item_id item) (items (st c1)) /\ delivering c' due' latest horizon) ->
    inevitably (all_acked ids) c') as Hdeliver.
  { intros c1 c' due1 Ei Ea Hd1 _ (item & due' & Hin & Hack & Hi & Hd'). rewrite Ei, Ea in *.
    pose proof (items_keyed _ (proj1 Hd)) as [_ Hkey].
    eapply IH; [done| |exact Hd'|].
    - rewrite Hi. pose proof (without_key_shorter _ item Hkey Hin). lia.
    - intros id Hid. rewrite Hack, Hi. destruct (Hids id Hid) as [H|(x & Hx & ->)]; [left; by right|].
      destruct (decide (item_id x = item_id item)) as [->|Hx']; [left; by left|]. right. exists x.
      split; [|done]. by apply without_key_rest. }
  apply inevitably_later; [eapply fires_possible; [done|apply Hd]|]. intros c1 Hf.
  destruct (delivering_step c due latest horizon c1 Hlate Hd Hne' Hf) as [H|(Ea & Ei & _ & item & Hin & Hd1)].
  { eapply (Hdeliver c); done. }
  apply inevitably_later; [eapply fires_possible; [done|apply Hd1]|]. intros c2 Hf2.
  destruct (delivering_step c1 _ latest horizon c2 Hlate Hd1 ltac:(by rewrite Ei) Hf2) as [H|(_ & _ & Hlt & _)].
  { eapply (Hdeliver c1); done. }
  rewrite Ei in Hlt. specialize (Hlt item Hin). lia.
Qed.
End Delivery.

(** ** What a stored report is read as *)

Lemma int_value_inject n : int_value (inject_Z n) = n.
Proof. unfold int_value. cbn. apply Z.div_1_r. Qed.

Definition plain_failure (f : DeliveryFailure) : Prop := units (failed_at f) /\ units (reason f) /\ Z.abs (attempt f) <= 2 ^ 53.
Definition plain_item (item : Pending) : Prop :=
  printable (JObj (report item)) /\ Z.abs (attempts item) <= 2 ^ 53 /\ Z.abs (nextAttemptAt item) <= 2 ^ 53
  /\ units (previousFailure item) /\ Forall plain_failure (failures item).

Lemma failure_printable f : plain_failure f -> printable (failure_json f).
Proof.
  intros (H1 & H2 & H3). cbn [printable failure_json foldr fst snd].
  split; [apply (bool_decide_unpack _); vm_compute; exact I|]. repeat split; try check_units; try done. by exists (attempt f).
Qed.

Lemma pending_printable item : plain_item item -> printable (pending_json item).
Proof.
  intros (H1 & H2 & H3 & H4 & H5). cbn [printable pending_json foldr fst snd].
  split; [apply (bool_decide_unpack _); vm_compute; exact I|].
  split; [split; [check_units|exact H1]|]. split; [split; [check_units|by exists (attempts item)]|].
  split; [split; [check_units|by exists (nextAttemptAt item)]|]. split; [split; [check_units|done]|]. split; [|done]. split; [check_units|].
  induction H5 as [|f l Hf _ IH]; cbn [fmap list_fmap foldr]; [done|]. split; [by apply failure_printable|exact IH].
Qed.

Lemma failure_of_json f : failure_of (failure_json f) = f.
Proof.
  destruct f as [a n r]. unfold failure_of, failure_json. cbn [failed_at attempt reason].
  change (prop _ (u "at")) with (Some (JStr a)). change (prop _ (u "attempt")) with (Some (JNum (inject_Z n))).
  change (prop _ (u "reason")) with (Some (JStr r)). cbn [text_of int_of]. by rewrite int_value_inject.
Qed.

Lemma read_saved item :
  plain_item item -> prop (report item) (u "id") = Some (JStr (item_id item)) ->
  prop (report item) (u "schemaVersion") = Some (JNum 1) ->
  read_entry (STORAGE_PREFIX ++ item_id item) (stringify (pending_json item)) = Some item.
Proof.
  intros Hp Hid Hv. unfold read_entry. rewrite JSON_parse_stringify by by apply pending_printable.
  unfold pending_json at 1. change (prop _ (u "report")) with (Some (JObj (report item))).
  cbn iota beta. rewrite Hv, Hid, js_eqb_refl. change (Qeq_bool 1 1) with true. cbn [andb]. f_equal.
  destruct item as [r a n p f]. unfold pending_of. cbn [report attempts nextAttemptAt previousFailure failures].
  change (prop _ (u "attempts")) with (Some (JNum (inject_Z a))).
  change (prop _ (u "nextAttemptAt")) with (Some (JNum (inject_Z n))).
  change (prop _ (u "previousFailure")) with (Some (JStr p)).
  change (prop _ (u "failures")) with (Some (JArr (failure_json <$> f))). cbn [int_of text_of].
  rewrite !int_value_inject. f_equal. clear. induction f as [|x f IH]; [done|].
  cbn [fmap list_fmap]. rewrite failure_of_json. f_equal. exact IH.
Qed.

(** Entries with other keys leave a report as it is. *)
Lemma collect_others entries acc id :
  (STORAGE_PREFIX ++ id) ∉ entries.*1 -> prop (foldl collect_entry acc entries) id = prop acc id.
Proof.
  revert acc. induction entries as [|e entries IH]; intros acc H; [done|]. cbn [foldl].
  rewrite IH by (intros Hin; apply H; by right). unfold collect_entry. destruct (ours e.1); [|done].
  destruct (read_entry e.1 e.2) as [item|] eqn:E; [|done]. rewrite prop_set. destruct (js_eqb (item_id item) id) eqn:Ei; [|done].
  apply js_eqb_true in Ei. apply read_entry_key in E. destruct H. rewrite <- Ei, <- E. by left.
Qed.

Lemma collect_set entries acc item text :
  NoDup entries.*1 -> read_entry (STORAGE_PREFIX ++ item_id item) text = Some item ->
  prop (foldl collect_entry acc (set_prop entries (STORAGE_PREFIX ++ item_id item) text)) (item_id item) = Some item.
Proof.
  intros Hn Hr. set (k := STORAGE_PREFIX ++ item_id item) in *.
  assert (forall acc, prop (collect_entry acc (k, text)) (item_id item) = Some item) as Hone.
  { intros a. unfold collect_entry. cbn [fst snd]. assert (ours k = true) as -> by (apply starts_with_spec; by eexists).
    rewrite Hr, prop_set, js_eqb_refl. done. }
  revert acc. induction entries as [|[j w] entries IH]; intros acc; cbn [set_prop].
  { cbn [foldl]. apply Hone. }
  cbn in Hn. apply NoDup_cons in Hn as [Hj Hn]. destruct (js_eqb j k) eqn:E; cbn [foldl]; [|by apply IH].
  apply js_eqb_true in E as ->. rewrite collect_others by exact Hj. apply Hone.
Qed.

(** ** A shared memo's address *)

Section Redaction.
Context {host : DiagnosticsHost}.

Definition SHARES : jstring := u "/memos/shares/".

Lemma redact_share_token token rest :
  units (SHARES ++ token ++ rest) -> token <> [] -> 47 ∉ token -> (rest = [] \/ exists r, rest = 47 :: r) ->
  redact_share (SHARES ++ token ++ rest) = SHARES ++ u "[redacted]" ++ rest.
Proof.
  intros Hu Hne Hslash Hrest. set (p := SHARES ++ token ++ rest). set (k := length SHARES).
  set (j := (k + length token)%nat). set (p47 := fun c => negb (c =? 47)).
  assert (length p = (k + (length token + length rest))%nat) as Hlen by by unfold p; rewrite !length_app.
  assert (forall n c, token !! n = Some c -> p !! (k + n)%nat = Some c) as Htok.
  { intros n c Hn. unfold p. rewrite lookup_app_r by (fold k; lia). fold k. replace (k + n - k)%nat with n by lia.
    by apply lookup_app_l_Some. }
  assert (all_chars p p47 k j) as Hall.
  { split; [unfold j; lia|]. intros n Hn. destruct (token !! (n - k)%nat) as [c|] eqn:E.
    - exists c. apply Htok in E as H. replace (k + (n - k))%nat with n in H by lia. split; [done|]. unfold p47.
      apply negb_true_iff, Z.eqb_neq. intros ->. apply Hslash. by eapply list_elem_of_lookup_2.
    - apply lookup_ge_None in E. unfold j in Hn. lia. }
  assert (forall c, p !! j = Some c -> p47 c = false) as Hend.
  { intros c Hc. unfold p in Hc. rewrite app_assoc, lookup_app_r in Hc by (rewrite length_app; fold k; unfold j; lia).
    rewrite length_app in Hc. fold k in Hc. replace (j - (k + length token))%nat with 0%nat in Hc by (unfold j; lia).
    destruct Hrest as [->|[r ->]]; [done|]. by injection Hc as <-. }
  assert (match_at false SHARE_PATH p 0 = Some (j, [(1%nat, (0%nat, k))])) as Hm.
  { unfold match_at, SHARE_PATH. rewrite (run_seq_one p _ _ _ (0%nat, [])) by done.
    rewrite (run_seq_one p _ _ _ (k, [(1%nat, (0%nat, k))])).
    2:{ cbn [run]. rewrite run_text; [done|]. intros n c Hn. unfold p. by apply lookup_app_l_Some. }
    destruct token as [|t token]; [done|]. unfold plus.
    pose proof (Htok 0%nat t eq_refl) as Ht. rewrite Nat.add_0_r in Ht.
    rewrite (run_seq_one p _ _ _ ((k + 1)%nat, [(1%nat, (0%nat, k))])).
    2:{ rewrite run_chars, Ht. destruct (proj2 Hall k) as (c & Hc & Hp); [unfold j; cbn [length]; lia|].
        assert (c = t) as -> by congruence. unfold p47 in Hp. by rewrite Hp. }
    cbn [run]. apply (star_chars_longest p p47).
    - split; [unfold j; cbn [length]; lia|]. intros n Hn. apply Hall. lia.
    - rewrite Hlen. unfold j. cbn [length]. lia.
    - exact Hend.
    - cbn [fst]. rewrite Hlen. unfold j. lia. }
  unfold redact_share. rewrite (exec_from_at false SHARE_PATH p 0 0 j [(1%nat, (0%nat, k))] Hu); [|rewrite Hlen; unfold k; cbn; lia|lia|done|].
  - rewrite capture_cap_of. cbn [m_from m_to m_caps cap_of Nat.eqb fmap option_fmap option_map fst snd default from_option].
    unfold Datatypes.id.
    assert (slice p 0 k = SHARES) as -> by (unfold slice, p; rewrite drop_0, Nat.sub_0_r; apply take_app_length).
    assert (slice_from p j = rest) as ->; [|done].
    unfold slice_from, p. rewrite app_assoc. replace j with (length (SHARES ++ token)) by (by rewrite length_app).
    apply drop_app_length.
  - intros c. unfold p. cbn. by intros [= <-].
Qed.
End Redaction.

(** ** Properties *)

Section DiagnosticsProperties.
Context {host : DiagnosticsHost}.

(** The ring of events refines two queues that do not see each other: whatever was
    recorded, it is a subsequence of the events in order, it holds exactly the last
    twelve of the request events and the last twelve of the others, so no number of
    requests evicts a click or a navigation, and it has at most 24 events. *)
Theorem recent_events_kept (events : list Trace) :
  let trace := foldl recordDiagnosticTrace [] events in
  trace `sublist_of` events
  /\ (forall requests, js_filter (of_class requests) trace = last_n 12 (js_filter (of_class requests) events))
  /\ (length trace <= MAX_TRACE)%nat.
Proof.
  assert (forall done_ rest trace, ring_of done_ trace -> ring_of (done_ ++ rest) (foldl recordDiagnosticTrace trace rest)) as H.
  { intros d rest. revert d. induction rest as [|e rest IH]; intros d trace Hr; [by rewrite app_nil_r|].
    cbn [foldl]. rewrite (cons_middle e d rest), app_assoc. apply IH. by apply record_ring. }
  cbn zeta. pose proof (H [] events [] ltac:(by split; [constructor|])) as Hr. cbn [app] in Hr.
  split; [apply Hr|]. split; [apply Hr|]. by eapply ring_length.
Qed.

(** A look at the queue bounds it and loses nothing it need not: what it returns is
    what the tab's memory and the store then hold, at most twenty reports, each of an
    age to keep; a report of such an age is dropped only when twenty that are no older
    stay. *)
Theorem pending_queue_bounded (now : Z) (s s' : state) (queue : list Pending)
    (total : forall a b, by_time a b = false -> by_time b a = true)
    (trans : forall a b c, by_time a b = true -> by_time b c = true -> by_time a c = true)
    (Hk : keyed item_id (memoryPending s)) (Hp : pendingReports now s = (s', queue)) :
  keyed item_id (memoryPending s') /\ snd <$> items s' ≡ₚ queue
  /\ (length queue <= MAX_PENDING)%nat /\ Forall (fun item => fresh now item = true) queue
  /\ forall item, item ∈ snd <$> items s -> fresh now item = true ->
       item ∈ queue \/ (length queue = MAX_PENDING /\ forall kept, kept ∈ queue -> by_time item kept = true).
Proof.
  destruct (pendingReports_items now s s' queue Hk Hp) as [H1 H2]. split; [done|]. split; [done|].
  pose proof (pendingReports_queue now s) as Hq. rewrite Hp in Hq. cbn [snd] in Hq. cbn zeta in Hq. subst queue.
  set (valid := sort_by by_time (js_filter (fresh now) (snd <$> items s))).
  assert (forall item, item ∈ valid <-> item ∈ snd <$> items s /\ fresh now item = true) as Hv.
  { intros item. unfold valid. by rewrite elem_of_sort_by, js_filter_In. }
  assert (StronglySorted (fun a b => by_time a b = true) valid) as Hs by (apply sort_by_sorted; assumption).
  rewrite length_drop. split; [lia|]. split.
  - rewrite Forall_forall. intros item Hin. apply Hv. eapply elem_of_sublist; [exact Hin|apply sublist_drop].
  - intros item Hin Hf. pose proof (proj2 (Hv item) (conj Hin Hf)) as Hi.
    set (n := (length valid - MAX_PENDING)%nat) in *. rewrite <- (take_drop n valid) in Hi. apply elem_of_app in Hi as [Hi|Hi]; [right|by left].
    split.
    + destruct (decide (length valid <= MAX_PENDING)%nat); [|lia]. assert (n = 0%nat) as E by lia. rewrite E in Hi. inversion Hi.
    + intros kept Hkept. rewrite <- (take_drop n valid), StronglySorted_app in Hs. by apply Hs.
Qed.

(** C13. Every report waiting is delivered in the end: from a queue of at most twenty
    reports that stay of an age to keep long enough, in a tab that is online, whose
    server acknowledges what it gets, whatever the delays of timers and responses
    within their bounds and however writes to the store fail, it is inevitable that the
    queue becomes empty with each of the reports acknowledged. *)
Theorem all_reports_delivered (late : Z) (c : config) (due latest horizon : Z)
    (Hlate : 0 <= late) (Ht : timer (st c) = Some due) (Hs : sending (st c) = None)
    (Hk : keyed item_id (memoryPending (st c))) (Hl : (length (items (st c)) <= MAX_PENDING)%nat)
    (Hall : forall item, item ∈ snd <$> items (st c) -> nextAttemptAt item <= latest /\ lasts (clock c) horizon item)
    (Hb : budget late c due latest <= horizon) :
  inevitably late (all_acked (item_id <$> (snd <$> items (st c)))) c.
Proof.
  eapply (delivering_inevitable late (length (items (st c))) c due latest horizon); [done..| |].
  - exact (conj Hk (conj Hs (conj Ht (conj Hl (conj Hall Hb))))).
  - intros id (item & -> & Hin)%list_elem_of_fmap. right. by exists item.
Qed.

(** A report outlives its tab: once saved with the store at hand, a new page that
    knows nothing but the store finds it, with the attempts made, the time of the next
    and the failures so far. *)
Theorem report_survives_reload (item : Pending) (s : state) (entries : list (jstring * jstring))
    (Hst : storage s = Some entries) (Hn : NoDup entries.*1) (Hp : plain_item item)
    (Hid : prop (report item) (u "id") = Some (JStr (item_id item)))
    (Hv : prop (report item) (u "schemaVersion") = Some (JNum 1)) :
  let saved := savePending true item s in
  prop (items {| storage := storage saved; memoryPending := []; sending := None; timer := None |}) (item_id item)
  = Some item.
Proof.
  cbn zeta. unfold savePending. rewrite Hst. unfold items. cbn [storage memoryPending].
  apply collect_set; [done|]. by apply read_saved.
Qed.

(** The token of a shared memo is not reported: of the address of a share, whatever
    the token and whatever follows it, the path recorded has the token replaced. *)
Theorem share_token_redacted (value token rest : jstring)
    (Hu : units (SHARES ++ token ++ rest)) (Hne : token <> []) (Hslash : 47 ∉ token)
    (Hrest : rest = [] \/ exists r, rest = 47 :: r)
    (Hvalue : value <> []) (Hpath : url_pathname value = Some (SHARES ++ token ++ rest)) :
  diagnosticPath value = slice (SHARES ++ u "[redacted]" ++ rest) 0 512.
Proof.
  unfold diagnosticPath. destruct value; [done|]. rewrite Hpath. f_equal. by apply redact_share_token.
Qed.

(** A refused write leaves the older stored copy, and the stored copy is the one the queue
    uses: the attempt just counted and the time just reserved for the next are lost. *)
Theorem failed_write_loses_backoff (item old : Pending) (s : state) (entries : list (jstring * jstring)) (text : jstring)
    (Hst : storage s = Some (entries ++ [(STORAGE_PREFIX ++ item_id item, text)]))
    (Hr : read_entry (STORAGE_PREFIX ++ item_id item) text = Some old) :
  prop (items (savePending false item s)) (item_id item) = Some old.
Proof.
  unfold savePending. rewrite Hst. unfold items. cbn [storage memoryPending]. rewrite foldl_app. cbn [foldl].
  unfold collect_entry at 1. cbn [fst snd]. assert (ours (STORAGE_PREFIX ++ item_id item) = true) as -> by (apply starts_with_spec; by eexists).
  rewrite Hr, prop_set. apply read_entry_key in Hr. apply app_inv_head in Hr. by rewrite Hr, js_eqb_refl.
Qed.
End DiagnosticsProperties.

(** A host whose timestamps are numerals and whose addresses are paths. *)
Definition numeral_host : DiagnosticsHost := {|
  toISOString t := string_of_int t; parse_date s := Some (nat_value s);
  localeCompare a b := nat_value a - nat_value b; url_pathname s := Some s; url_origin _ := None |}.

Definition sample_report : Report :=
  [(u "schemaVersion", JNum 1); (u "id", JStr (u "r1")); (u "clientTime", JStr (u "1000"))].
Definition sample_item : Pending := {|
  report := sample_report; attempts := 1; nextAttemptAt := 3000; previousFailure := u "offline";
  failures := [{| failed_at := u "1500"; attempt := 1; reason := u "offline" |}] |}.
Definition sample_state : state := {|
  storage := Some [(u "theme", u "dark"); (STORAGE_PREFIX ++ u "r1", stringify (pending_json sample_item))];
  memoryPending := []; sending := None; timer := Some 1250 |}.
Definition sample_config : config := {| st := sample_state; clock := 1000; acked := [] |}.

Lemma sample_keyed : keyed item_id (memoryPending sample_state).
Proof. split; constructor. Qed.
Lemma sample_items : items sample_state = [(u "r1", sample_item)].
Proof. vm_compute. reflexivity. Qed.

Lemma numeral_total a b : @by_time numeral_host a b = false -> @by_time numeral_host b a = true.
Proof. unfold by_time. cbn [localeCompare numeral_host]. rewrite Z.leb_gt, Z.leb_le. lia. Qed.
Lemma numeral_trans a b c :
  @by_time numeral_host a b = true -> @by_time numeral_host b c = true -> @by_time numeral_host a c = true.
Proof. unfold by_time. cbn [localeCompare numeral_host]. rewrite !Z.leb_le. lia. Qed.

Example pending_queue_bounded_witness :
  (@pendingReports numeral_host 2000 sample_state).2 = [sample_item]
  /\ (length (@pendingReports numeral_host 2000 sample_state).2 <= MAX_PENDING)%nat.
Proof.
  split; [vm_compute; reflexivity|].
  destruct (@pendingReports numeral_host 2000 sample_state) as [s' queue] eqn:E. cbn [snd].
  destruct (pending_queue_bounded (host := numeral_host) 2000 sample_state s' queue numeral_total numeral_trans sample_keyed E)
    as (_ & _ & H & _).
  exact H.
Defined.

Example all_reports_delivered_witness :
  items (st sample_config) = [(u "r1", sample_item)]
  /\ @inevitably numeral_host 50 (all_acked [u "r1"]) sample_config.
Proof.
  split; [exact sample_items|].
  apply (all_reports_delivered (host := numeral_host) 50 sample_config 1250 3000 20000); try reflexivity; try lia.
  - exact sample_keyed.
  - cbn [st sample_config]. rewrite sample_items. vm_compute. lia.
  - cbn [st sample_config]. rewrite sample_items. intros item Hin. cbn in Hin. apply list_elem_of_singleton in Hin as ->.
    split; [cbn; lia|]. exists 1000. split; [vm_compute; reflexivity|]. cbn. unfold MAX_AGE_MS. lia.
  - unfold budget. cbn [st sample_config clock]. rewrite sample_items. vm_compute. discriminate.
Defined.

Example report_survives_reload_witness :
  let saved := savePending true sample_item {| storage := Some [(u "theme", u "dark")]; memoryPending := []; sending := None; timer := None |} in
  prop (items {| storage := storage saved; memoryPending := []; sending := None; timer := None |}) (u "r1") = Some sample_item.
Proof.
  apply (report_survives_reload sample_item
    {| storage := Some [(u "theme", u "dark")]; memoryPending := []; sending := None; timer := None |} [(u "theme", u "dark")]).
  - reflexivity.
  - apply (bool_decide_unpack _). vm_compute. exact I.
  - split; [|split; [cbn; lia|split; [cbn; lia|split; [check_units|]]]].
    + cbn [printable sample_item report sample_report foldr fst snd].
      split; [apply (bool_decide_unpack _); vm_compute; exact I|]. repeat split; try check_units. by exists 1.
    + constructor; [|constructor]. split; [check_units|]. split; [check_units|cbn; lia].
  - reflexivity.
  - reflexivity.
Defined.

Example share_token_redacted_witness :
  @diagnosticPath numeral_host (u "/memos/shares/s3cret/raw") = u "/memos/shares/[redacted]/raw".
Proof.
  rewrite (share_token_redacted (host := numeral_host) (u "/memos/shares/s3cret/raw") (u "s3cret") (u "/raw")).
  - vm_compute. reflexivity.
  - check_units.
  - discriminate.
  - apply (bool_decide_unpack _). vm_compute. exact I.
  - right. eexists. reflexivity.
  - discriminate.
  - reflexivity.
Defined.
