(* ===== verification/InstanceContent.v ===== *)
(** * The instance's content settings

    web/src/lib/instance-content.ts: the custom pages, navigation and categories an
    administrator stores as JSON text, the site configuration kept in a reserved page
    among them, and the music settings.  What the file reads it does not validate, so an
    item is a [json] value; [None] is the TypeError of reading a member of [null]. *)

From Stdlib Require Import Qminmax.
From S2P Require Import Prelude JSString JSON JSONText.

(** [parseArray]. *)
Definition parseArray (value : jstring) : list json :=
  match trim value with
  | [] => []
  | _ => match JSON_parse value with Some (JArr parsed) => parsed | _ => [] end
  end.

Definition SITE_CONFIG_SLUG : jstring := u "__site-config".

Inductive InstanceMusicMode := random | sequential | reverse.
#[export] Instance music_mode_eq_dec : EqDecision InstanceMusicMode.
Proof. solve_decision. Defined.

(** A track is the object it was parsed as. *)
Definition InstanceMusicTrack : Type := list (jstring * json).
Record InstanceMusicConfig := {
  enabled : bool;
  autoplay : json;           (* as it was parsed, [true] when absent *)
  defaultMuted : json;
  defaultVolume : Q;
  mode : InstanceMusicMode;
  tracks : list InstanceMusicTrack;
}.
Definition InstanceSiteConfig : Type := list (jstring * json).

Definition DEFAULT_MUSIC_CONFIG : InstanceMusicConfig := {|
  enabled := false; autoplay := JBool true; defaultMuted := JBool true; defaultVolume := 3 # 10; mode := random;
  tracks := [] |}.

(** [normalizeMusicVolume]. *)
Definition normalizeMusicVolume (value : option json) (fallback : Q) : Q :=
  match value with
  | Some (JNum q) => Qmin 1 (Qmax 0 q)
  | _ => fallback
  end.

(** [item.key], of a value that may have no members. *)
Definition member (item : json) (key : jstring) : option (option json) :=
  match item with
  | JNull => None
  | JObj o => Some (prop o key)
  | _ => Some None
  end.

Definition is_str (v : option json) (s : jstring) : bool := match v with Some (JStr t) => js_eqb t s | _ => false end.
Definition isSiteConfigEntry (item : json) : option bool :=
  (fun slug => is_str slug SITE_CONFIG_SLUG) <$> member item (u "slug").

(** [filter] and [find] with a test that may throw. *)
Fixpoint filter_m {A} (test : A -> option bool) (l : list A) : option (list A) :=
  match l with
  | [] => Some []
  | x :: l' => match test x with
               | Some b => (fun rest => if b then x :: rest else rest) <$> filter_m test l'
               | None => None
               end
  end.
Fixpoint find_m {A} (test : A -> option bool) (l : list A) : option (option A) :=
  match l with
  | [] => Some None
  | x :: l' => match test x with
               | Some true => Some (Some x)
               | Some false => find_m test l'
               | None => None
               end
  end.

Definition not_site_config (item : json) : option bool := negb <$> isSiteConfigEntry item.

Definition parseInstanceNavigation (value : jstring) : list json := parseArray value.
Definition parseInstancePages (value : jstring) : option (list json) := filter_m not_site_config (parseArray value).
Definition parseInstanceCategories (value : jstring) : list json := parseArray value.

Definition config_of (entry : option json) : InstanceSiteConfig :=
  match entry with
  | Some (JObj o) => match prop o (u "config") with Some (JObj config) => config | _ => [] end
  | _ => []
  end.
Definition parseInstanceSiteConfig (pagesJson : jstring) : option InstanceSiteConfig :=
  config_of <$> find_m isSiteConfigEntry (parseArray pagesJson).

(** ** Music *)

(** [isTrack], with the object it is. *)
Definition isTrack (track : json) : option InstanceMusicTrack :=
  match track with
  | JObj o => match prop o (u "id") with Some (JStr _) => Some o | _ => None end
  | _ => None
  end.

Definition isPlayableTrack (track : InstanceMusicTrack) : bool :=
  match prop track (u "url") with Some (JStr url) => negb (js_eqb (trim url) []) | _ => false end.

Definition parseMusicConfigJSON (value : jstring) : option (list (jstring * json)) :=
  match trim value with
  | [] => None
  | _ => match JSON_parse value with Some (JObj o) => Some o | _ => None end
  end.

(** [v ?? d] and [Boolean(v)]. *)
Definition nullish_or (v : option json) (d : json) : json := match v with None | Some JNull => d | Some j => j end.
Definition truthy_json (v : option json) : bool :=
  match v with
  | None | Some JNull => false
  | Some (JBool b) => b
  | Some (JNum q) => negb (Qeq_bool q 0)
  | Some (JStr s) => negb (js_eqb s [])
  | Some _ => true
  end.

Definition music_mode (v : option json) : InstanceMusicMode :=
  if is_str v (u "sequential") then sequential else if is_str v (u "reverse") then reverse else random.

Definition filled_track (track : InstanceMusicTrack) : InstanceMusicTrack :=
  set_prop (set_prop track (u "title") (nullish_or (prop track (u "title")) (JStr [])))
    (u "url") (nullish_or (prop track (u "url")) (JStr [])).

(** [resolveMusicConfig]. *)
Definition resolveMusicConfig (config : InstanceSiteConfig) (musicConfigJson : jstring) : InstanceMusicConfig :=
  let music := match parseMusicConfigJSON musicConfigJson with
               | Some o => o
               | None => match prop config (u "music") with Some (JObj o) => o | _ => [] end
               end in
  {| enabled := truthy_json (prop music (u "enabled"));
     autoplay := nullish_or (prop music (u "autoplay")) (autoplay DEFAULT_MUSIC_CONFIG);
     defaultMuted := nullish_or (prop music (u "defaultMuted")) (defaultMuted DEFAULT_MUSIC_CONFIG);
     defaultVolume := normalizeMusicVolume (prop music (u "defaultVolume")) (defaultVolume DEFAULT_MUSIC_CONFIG);
     mode := music_mode (prop music (u "mode"));
     tracks := match prop music (u "tracks") with
               | Some (JArr l) => filled_track <$> omap isTrack l
               | _ => []
               end |}.

(** ** Writing the site configuration *)

Definition site_config_entry (config : InstanceSiteConfig) : json :=
  JObj [(u "slug", JStr SITE_CONFIG_SLUG); (u "title", JStr []); (u "markdown", JStr []); (u "access", JStr (u "public"));
        (u "config", JObj config)].

Definition withInstanceSiteConfig (pagesJson : jstring) (config : InstanceSiteConfig) : option jstring :=
  (fun items => stringify (JArr (items ++ [site_config_entry config]))) <$> filter_m not_site_config (parseArray pagesJson).

Definition keepInstanceSiteConfig (nextPagesJson previousPagesJson : jstring) : option jstring :=
  match find_m isSiteConfigEntry (parseArray previousPagesJson) with
  | None => None
  | Some None => Some nextPagesJson
  | Some (Some entry) =>
      (fun items => stringify (JArr (items ++ [entry]))) <$> filter_m not_site_config (parseArray nextPagesJson)
  end.

(** ** Access *)

Inductive InstanceContentAccess := public | authenticated | admin.
(** [user.role === 2] of the signed-in user. *)
Definition canAccessInstanceContent (access : option InstanceContentAccess) (user : option (option Z)) : bool :=
  match access with
  | None | Some public => true
  | Some a =>
      match user with
      | None => false
      | Some role => match a with authenticated => true | _ => bool_decide (role = Some 2) end
      end
  end.

(** ** Lists with tests that may throw *)

Section Tests.
Context {A : Type} (test : A -> option bool).

Lemma filter_m_Some l r :
  filter_m test l = Some r -> (forall x, x ∈ l -> is_Some (test x)) /\ r = js_filter (fun x => default false (test x)) l.
Proof.
  revert r. induction l as [|x l IH]; intros r; cbn [filter_m js_filter].
  - intros [= <-]. split; [intros x Hx; inversion Hx|done].
  - destruct (test x) as [b|] eqn:E; [|done]. destruct (filter_m test l) as [rest|]; [|done]. intros [= <-].
    destruct (IH rest eq_refl) as [H ->]. split.
    + intros y [->|Hy]%elem_of_cons; [by rewrite E|by apply H].
    + by destruct b.
Qed.

Lemma filter_m_total l : (forall x, x ∈ l -> is_Some (test x)) -> filter_m test l = Some (js_filter (fun x => default false (test x)) l).
Proof.
  induction l as [|x l IH]; intros H; [done|]. cbn [filter_m js_filter]. destruct (H x ltac:(by left)) as [b E].
  rewrite E, IH by (intros y Hy; apply H; by right). by destruct b.
Qed.

Lemma find_m_app l1 l2 :
  (forall x, x ∈ l1 -> test x = Some false) -> find_m test (l1 ++ l2) = find_m test l2.
Proof.
  induction l1 as [|x l1 IH]; intros H; [done|]. cbn [app find_m]. rewrite H by (by left). apply IH.
  intros y Hy. apply H. by right.
Qed.
Lemma find_m_Some l x : find_m test l = Some (Some x) -> x ∈ l /\ test x = Some true.
Proof.
  induction l as [|y l IH]; cbn [find_m]; [done|]. destruct (test y) as [[]|] eqn:E; [|intros H|done].
  - intros [= <-]. split; [by left|done].
  - apply IH in H as [H1 H2]. split; [by right|done].
Qed.
End Tests.

(** ** What is written is read *)

Definition has_members (item : json) : Prop := is_Some (member item (u "slug")).

Lemma parseArray_written l : printable (JArr l) -> parseArray (stringify (JArr l)) = l.
Proof.
  intros Hp. unfold parseArray. rewrite JSON_parse_stringify by done.
  assert (trim (stringify (JArr l)) <> []) as Ht.
  { intros H. apply trim_nil in H. cbn [stringify] in H. inversion H. done. }
  by destruct (trim (stringify (JArr l))).
Qed.

Lemma printable_items l : Forall printable l -> printable (JArr l).
Proof. induction 1 as [|x l Hx _ IH]; cbn [printable foldr]; [done|]. split; [done|exact IH]. Qed.

Lemma entry_printable config : printable (JObj config) -> printable (site_config_entry config).
Proof.
  intros Hc. cbn [printable site_config_entry foldr fst snd].
  split; [apply (bool_decide_unpack _); vm_compute; exact I|].
  split; [split; [check_units|check_units]|]. split; [split; [check_units|constructor]|].
  split; [split; [check_units|constructor]|]. split; [split; check_units|]. split; [split; [check_units|exact Hc]|done].
Qed.

Lemma entry_is_config config : isSiteConfigEntry (site_config_entry config) = Some true.
Proof. reflexivity. Qed.

(** The pages without the entry, then the entry: the entry is found, the pages are kept. *)
Lemma entry_last items entry :
  filter_m not_site_config items = Some items -> isSiteConfigEntry entry = Some true ->
  find_m isSiteConfigEntry (items ++ [entry]) = Some (Some entry)
  /\ filter_m not_site_config (items ++ [entry]) = Some items.
Proof.
  intros Hi He. pose proof (filter_m_Some _ _ _ Hi) as [Hall Heq].
  assert (forall x, x ∈ items -> not_site_config x = Some true) as Hno.
  { intros x Hx. destruct (Hall x Hx) as [b Hb]. rewrite Heq in Hx. apply js_filter_In in Hx as [_ Hx].
    rewrite Hb in Hx. cbn in Hx. by subst b. }
  split.
  - rewrite find_m_app; [cbn [find_m]; by rewrite He|]. intros x Hx. specialize (Hno x Hx). unfold not_site_config in Hno.
    destruct (isSiteConfigEntry x) as [[]|]; cbn in Hno; congruence.
  - rewrite filter_m_total.
    + rewrite js_filter_app. rewrite <- Heq. cbn [js_filter]. unfold not_site_config at 1. rewrite He. cbn. by rewrite app_nil_r.
    + intros x [Hx|Hx]%elem_of_app; [by apply Hall|]. apply list_elem_of_singleton in Hx as ->.
      unfold not_site_config. rewrite He. by eexists.
Qed.

Lemma filter_m_idem items kept : filter_m not_site_config items = Some kept -> filter_m not_site_config kept = Some kept.
Proof.
  intros H. apply filter_m_Some in H as [Hall ->]. rewrite filter_m_total.
  - f_equal. rewrite js_filter_filter. apply js_filter_ext. intros x _. by rewrite andb_diag.
  - intros x Hx. apply js_filter_In in Hx as [Hx _]. by apply Hall.
Qed.

(** ** Numbers and defaults *)

Lemma normalized_volume value fallback :
  (0 <= fallback <= 1)%Q -> (0 <= normalizeMusicVolume value fallback <= 1)%Q.
Proof.
  intros Hf. destruct value as [[| |q| | | |]|]; try done. cbn [normalizeMusicVolume]. split.
  - apply Q.min_glb; [done|]. apply Q.le_max_l.
  - apply Q.le_min_l.
Qed.

Lemma nullish_not_null v s : nullish_or v (JStr s) <> JNull.
Proof. by destruct v as [[]|]. Qed.

(** ** Properties *)

(** Saving the site configuration changes nothing but it: from the text written, the
    configuration read is the one saved and the pages read are the pages there were,
    whatever entry for the configuration stood among them. *)
Theorem site_config_round_trip (pagesJson written : jstring) (config : InstanceSiteConfig)
    (Hp : Forall printable (parseArray pagesJson)) (Hc : printable (JObj config))
    (Hw : withInstanceSiteConfig pagesJson config = Some written) :
  parseInstanceSiteConfig written = Some config /\ parseInstancePages written = parseInstancePages pagesJson.
Proof.
  unfold withInstanceSiteConfig in Hw. destruct (filter_m not_site_config (parseArray pagesJson)) as [items|] eqn:E; [|done].
  apply Some_inj in Hw. subst written. pose proof (filter_m_idem _ _ E) as Hi.
  destruct (entry_last items (site_config_entry config) Hi (entry_is_config config)) as [H1 H2].
  assert (parseArray (stringify (JArr (items ++ [site_config_entry config]))) = items ++ [site_config_entry config]) as Hr.
  { apply parseArray_written, printable_items, Forall_app. split; [|by apply Forall_singleton, entry_printable].
    apply filter_m_Some in E as [_ ->]. rewrite Forall_forall in *. intros x Hx. apply Hp. by apply js_filter_In in Hx as [Hx _]. }
  unfold parseInstanceSiteConfig, parseInstancePages. rewrite Hr, H1, H2, E. done.
Qed.

(** Editing the pages never drops the site configuration: from pages freshly written,
    without an entry of their own, the text kept has these pages and the configuration of
    the old text, when there was one and when there was none. *)
Theorem page_edit_keeps_site_config (next previous written : jstring)
    (Hn : Forall printable (parseArray next)) (Hp : Forall printable (parseArray previous))
    (Hfresh : forall item, item ∈ parseArray next -> isSiteConfigEntry item = Some false)
    (Hw : keepInstanceSiteConfig next previous = Some written) :
  parseInstanceSiteConfig written = parseInstanceSiteConfig previous
  /\ parseInstancePages written = parseInstancePages next.
Proof.
  unfold keepInstanceSiteConfig in Hw. unfold parseInstanceSiteConfig at 2.
  destruct (find_m isSiteConfigEntry (parseArray previous)) as [[entry|]|] eqn:Ef; [| |done].
  - destruct (filter_m not_site_config (parseArray next)) as [items|] eqn:E; [|done]. apply Some_inj in Hw. subst written.
    pose proof (find_m_Some _ _ _ Ef) as [Hin He]. pose proof (filter_m_idem _ _ E) as Hi.
    destruct (entry_last items entry Hi He) as [H1 H2].
    assert (parseArray (stringify (JArr (items ++ [entry]))) = items ++ [entry]) as Hr.
    { rewrite Forall_forall in Hp. apply parseArray_written, printable_items, Forall_app. split; [|by apply Forall_singleton, Hp].
      apply filter_m_Some in E as [_ ->]. rewrite Forall_forall in *. intros x Hx. apply Hn. by apply js_filter_In in Hx as [Hx _]. }
    unfold parseInstanceSiteConfig, parseInstancePages. rewrite Hr, H1, H2, E. done.
  - injection Hw as <-. split; [|done]. unfold parseInstanceSiteConfig.
    rewrite <- (app_nil_r (parseArray next)), find_m_app; [done|]. exact Hfresh.
Qed.

(** The music settings are well typed whatever text they are read from: the volume
    is between 0 and 1, and every track is an object with a string for its identifier and
    with a title and an address that are neither missing nor null. *)
Theorem music_config_well_typed (config : InstanceSiteConfig) (musicConfigJson : jstring) :
  let music := resolveMusicConfig config musicConfigJson in
  (0 <= defaultVolume music <= 1)%Q
  /\ Forall (fun track => (exists id, prop track (u "id") = Some (JStr id))
       /\ (exists title, prop track (u "title") = Some title /\ title <> JNull)
       /\ (exists url, prop track (u "url") = Some url /\ url <> JNull)) (tracks music).
Proof.
  cbn zeta. unfold resolveMusicConfig. cbn [defaultVolume tracks].
  set (music := match parseMusicConfigJSON musicConfigJson with Some o => o | None => _ end). split.
  - apply normalized_volume. cbn. split; discriminate.
  - destruct (prop music (u "tracks")) as [[| | | | |l|]|]; try constructor.
    apply Forall_fmap, Forall_forall. intros track (j & _ & Hj)%list_elem_of_omap.
    unfold isTrack in Hj. destruct j as [| | | | | |o]; try done.
    destruct (prop o (u "id")) as [[| | | |id| |]|] eqn:Eid; try done. injection Hj as <-.
    unfold compose, filled_track. split; [|split].
    + exists id. rewrite !prop_set. by vm_compute (js_eqb _ _).
    + eexists. rewrite prop_set. change (js_eqb (u "url") (u "title")) with false. cbn iota. rewrite prop_set, js_eqb_refl.
      split; [done|apply nullish_not_null].
    + eexists. rewrite prop_set, js_eqb_refl. split; [done|apply nullish_not_null].
Qed.

Definition about_page : json := JObj [(u "slug", JStr (u "about")); (u "title", JStr (u "About us"))].
Definition sample_config : InstanceSiteConfig := [(u "firstVisitStyle", JStr (u "terminal"))].
Definition pages_text : jstring := stringify (JArr [about_page]).
Definition configured_text : jstring := default [] (withInstanceSiteConfig pages_text sample_config).

Lemma about_printable : printable about_page.
Proof. cbn. split; [apply (bool_decide_unpack _); vm_compute; exact I|]. repeat split; check_units. Qed.
Lemma sample_config_printable : printable (JObj sample_config).
Proof. cbn. split; [apply (bool_decide_unpack _); vm_compute; exact I|]. repeat split; check_units. Qed.
Lemma pages_printable : Forall printable (parseArray pages_text).
Proof.
  unfold pages_text. rewrite parseArray_written; [apply Forall_singleton, about_printable|].
  apply printable_items, Forall_singleton, about_printable.
Qed.
Lemma configured_items : parseArray configured_text = [about_page; site_config_entry sample_config].
Proof. vm_compute. reflexivity. Qed.

Example site_config_round_trip_witness :
  parseInstanceSiteConfig configured_text = Some sample_config /\ parseInstancePages configured_text = Some [about_page].
Proof.
  assert (parseInstancePages pages_text = Some [about_page]) as <- by (vm_compute; reflexivity).
  apply (site_config_round_trip pages_text configured_text sample_config pages_printable sample_config_printable).
  vm_compute. reflexivity.
Defined.

Example page_edit_keeps_site_config_witness :
  exists written, keepInstanceSiteConfig pages_text configured_text = Some written
    /\ parseInstanceSiteConfig written = Some sample_config /\ parseInstancePages written = Some [about_page].
Proof.
  destruct (keepInstanceSiteConfig pages_text configured_text) as [written|] eqn:E; [|vm_compute in E; discriminate].
  exists written. split; [reflexivity|].
  assert (parseInstancePages pages_text = Some [about_page]) as <- by (vm_compute; reflexivity).
  assert (parseInstanceSiteConfig configured_text = Some sample_config) as <- by (vm_compute; reflexivity).
  apply (page_edit_keeps_site_config pages_text configured_text written pages_printable); [| |exact E].
  - rewrite configured_items. constructor; [exact about_printable|]. apply Forall_singleton, entry_printable, sample_config_printable.
  - assert (parseArray pages_text = [about_page]) as -> by (vm_compute; reflexivity).
    intros item Hitem. apply list_elem_of_singleton in Hitem as ->. reflexivity.
Defined.
