(* ===== verification/MusicPlayer.v ===== *)
(** * The music player

    web/src/contexts/MusicPlayerContext.tsx: the play order of the top-bar player, what a
    visitor chose, and the volume.  The provider's state and refs are one [player]; an
    event handler is a function on it that closes over the state of the last rendering,
    and [settle] is what the effects do once React has rendered the new state.
    [Math.random()] is an argument, [rolls], one number for each call.  The audio element
    is the record of what is set on it; decoding, autoplay and the analyser for the
    visual effects are the browser's. *)

From Stdlib Require Import Qround Qminmax.
From S2P Require Import Prelude JSNum JSString JSON JSONText InstanceContent.

(** [Math.floor(Math.random() * n)]. *)
Definition pick (roll : Q) (n : nat) : nat := Z.to_nat (Qfloor (roll * inject_Z (Z.of_nat n))).

(** ** The order *)

Definition swap_at {A} (l : list A) (i j : nat) : list A :=
  match l !! i, l !! j with
  | Some x, Some y => <[j := x]> (<[i := y]> l)
  | _, _ => l
  end.

Fixpoint shuffle_from (rolls : nat -> Q) (index : nat) (result : list nat) : list nat :=
  match index with
  | O => result
  | S index' => shuffle_from rolls index' (swap_at result index (pick (rolls index) (index + 1)))
  end.
Definition shuffle (rolls : nat -> Q) (values : list nat) : list nat := shuffle_from rolls (length values - 1) values.

Definition buildQueue (rolls : nat -> Q) (count : nat) (m : InstanceMusicMode) (first : option nat) : list nat :=
  let indexes := seq 0 count in
  match m with
  | sequential => indexes
  | reverse => rev indexes
  | random =>
      let shuffled := shuffle rolls indexes in
      match first with
      | None => shuffled
      | Some first => first :: js_filter (fun index => negb (index =? first)%nat) shuffled
      end
  end.

(** [queue.indexOf(value)], [None] for -1. *)
Fixpoint index_in (value : nat) (queue : list nat) : option nat :=
  match queue with
  | [] => None
  | x :: queue' => if (x =? value)%nat then Some 0%nat else S <$> index_in value queue'
  end.

(** ** The playlist's fingerprint *)

Definition track_id (track : InstanceMusicTrack) : jstring := match prop track (u "id") with Some (JStr id) => id | _ => [] end.
Definition track_url (track : InstanceMusicTrack) : jstring := match prop track (u "url") with Some (JStr url) => url | _ => [] end.

Definition hash_step (acc : Z * Z) (code : Z) : Z * Z :=
  (Int32.imul (Int32.xor32 acc.1 code) 16777619, Int32.xor32 (Int32.imul acc.2 33) code).
Definition playlistKey (tracks : list InstanceMusicTrack) : jstring :=
  let content := stringify (JArr (JObj <$> tracks)) in
  let '(first, second) := foldl hash_step (2166136261, 5381) content in
  string_of_int (Z.of_nat (length tracks)) ++ u ":" ++ string_of_int (Int32.to_uint32 first)
  ++ u ":" ++ string_of_int (Int32.to_uint32 second).

(** ** State *)

Record MusicPrefs := {
  pref_mode : option InstanceMusicMode; pref_muted : option bool; pref_volume : option Q;
  pref_trackId : option jstring; pref_playlistKey : option jstring; off : bool;
}.
Definition no_prefs : MusicPrefs := {|
  pref_mode := None; pref_muted := None; pref_volume := None; pref_trackId := None; pref_playlistKey := None; off := false |}.

(** What is set on the audio element. *)
Record audio := { paused : bool; audio_muted : bool; audio_volume : Q }.

Record player := {
  config : InstanceMusicConfig;
  prefs : MusicPrefs;
  queue : list nat;
  queueKey : jstring;
  position : nat;
  previousPlaylist : option jstring;
  dealt : option (nat * jstring * InstanceMusicMode);   (* the dependencies the order was last dealt for *)
  wantsPlay : bool;
  lastAudibleVolume : Q;
  element : option audio;
}.

Definition playable (st : player) : list InstanceMusicTrack := js_filter isPlayableTrack (tracks (config st)).
Definition available (st : player) : bool := enabled (config st) && (0 <? length (playable st))%nat.
Definition player_mode (st : player) : InstanceMusicMode := default (mode (config st)) (pref_mode (prefs st)).
Definition muted (st : player) : bool := default (truthy_json (Some (defaultMuted (config st)))) (pref_muted (prefs st)).
Definition volume (st : player) : Q :=
  normalizeMusicVolume (JNum <$> pref_volume (prefs st)) (defaultVolume (config st)).
Definition index (st : player) : nat := default 0%nat (queue st !! position st).

Definition current (st : player) : option InstanceMusicTrack :=
  if available st && (length (queue st) =? length (playable st))%nat && js_eqb (queueKey st) (playlistKey (playable st))
  then playable st !! index st else None.

Definition set_prefs (p : MusicPrefs) (st : player) : player := {|
  config := config st; prefs := p; queue := queue st; queueKey := queueKey st; position := position st;
  previousPlaylist := previousPlaylist st; dealt := dealt st; wantsPlay := wantsPlay st;
  lastAudibleVolume := lastAudibleVolume st; element := element st |}.
Definition set_order (q : list nat) (pos : nat) (st : player) : player := {|
  config := config st; prefs := prefs st; queue := q; queueKey := queueKey st; position := pos;
  previousPlaylist := previousPlaylist st; dealt := dealt st; wantsPlay := wantsPlay st;
  lastAudibleVolume := lastAudibleVolume st; element := element st |}.
Definition set_audio (wants : bool) (last : Q) (e : option audio) (st : player) : player := {|
  config := config st; prefs := prefs st; queue := queue st; queueKey := queueKey st; position := position st;
  previousPlaylist := previousPlaylist st; dealt := dealt st; wantsPlay := wants; lastAudibleVolume := last; element := e |}.

(** [getAudio]: the element, made on first use. *)
Definition getAudio (st : player) : audio :=
  match element st with
  | Some e => e
  | None => {| paused := true; audio_muted := muted st; audio_volume := volume st |}
  end.
Definition with_audio (f : audio -> audio) (st : player) : player :=
  set_audio (wantsPlay st) (lastAudibleVolume st) (Some (f (getAudio st))) st.
Definition play (e : audio) : audio := {| paused := false; audio_muted := audio_muted e; audio_volume := audio_volume e |}.
Definition pause (e : audio) : audio := {| paused := true; audio_muted := audio_muted e; audio_volume := audio_volume e |}.
Definition set_sound (m : bool) (v : Q) (e : audio) : audio := {| paused := paused e; audio_muted := m; audio_volume := v |}.

(** ** Effects *)

(** The effect on [muted] and [volume]. *)
Definition media_effect (st : player) : player :=
  set_audio (wantsPlay st) (if negb (Qle_bool (volume st) 0) then volume st else lastAudibleVolume st)
    (set_sound (muted st) (volume st) <$> element st) st.

(** The track a new order keeps as the current one; the outer [None] is the TypeError of
    a candidate drawn from none. *)
Definition keep_index (roll : Q) (st : player) : option (option nat) :=
  let tracks := playable st in
  let key := playlistKey tracks in
  let playlistChanged := match previousPlaylist st with Some k => negb (js_eqb k key) | None => false end in
  let playingIndex := queue st !! position st in
  let playing_kept := match playingIndex with Some i => if (i <? length tracks)%nat then Some i else None | None => None end in
  let savedIndex :=
    if negb (bool_decide (player_mode st = random)) && bool_decide (pref_playlistKey (prefs st) = Some key)
    then fst <$> list_find (fun track => Some (track_id track) = pref_trackId (prefs st)) tracks else None in
  if bool_decide (player_mode st = random) && (playlistChanged || negb (bool_decide (is_Some playing_kept))) then
    let candidates := js_filter (fun i => (length tracks =? 1)%nat
      || negb (bool_decide (track_id <$> tracks !! i = pref_trackId (prefs st)))) (seq 0 (length tracks)) in
    Some <$> candidates !! pick roll (length candidates)
  else if playlistChanged then Some (Some 0%nat)
  else match playing_kept with
       | Some i => Some (Some i)
       | None => Some savedIndex
       end.

Definition deal (rolls : nat -> Q) (st : player) : option player :=
  let tracks := playable st in
  let key := playlistKey tracks in
  let deps := Some (length tracks, key, player_mode st) in
  match tracks with
  | [] => Some {| config := config st; prefs := prefs st; queue := []; queueKey := queueKey st; position := 0;
                  previousPlaylist := previousPlaylist st; dealt := deps; wantsPlay := wantsPlay st;
                  lastAudibleVolume := lastAudibleVolume st; element := element st |}
  | _ =>
      (fun keep : option nat =>
         let nextQueue := buildQueue rolls (length tracks) (player_mode st) keep in
         {| config := config st; prefs := prefs st; queue := nextQueue; queueKey := key;
            position := match keep with None => 0%nat | Some k => default 0%nat (index_in k nextQueue) end;
            previousPlaylist := Some key; dealt := deps; wantsPlay := wantsPlay st;
            lastAudibleVolume := lastAudibleVolume st; element := element st |})
      <$> keep_index (rolls 0%nat) st
  end.

(** The effect on the playlist and the mode: it runs when one of them has changed. *)
Definition order_effect (rolls : nat -> Q) (st : player) : option player :=
  if bool_decide (dealt st = Some (length (playable st), playlistKey (playable st), player_mode st)) then Some st
  else deal rolls st.

Definition with_track (id key : jstring) (p : MusicPrefs) : MusicPrefs := {|
  pref_mode := pref_mode p; pref_muted := pref_muted p; pref_volume := pref_volume p;
  pref_trackId := Some id; pref_playlistKey := Some key; off := off p |}.

(** The effect that remembers the current track. *)
Definition remember_effect (st : player) : player :=
  match current st with
  | Some track => set_prefs (with_track (track_id track) (playlistKey (playable st)) (prefs st)) st
  | None => st
  end.

(** The effect on [available]. *)
Definition available_effect (st : player) : player :=
  if available st then st else set_audio false (lastAudibleVolume st) (pause <$> element st) st.

Definition settle (rolls : nat -> Q) (st : player) : option player :=
  (fun st => available_effect (remember_effect (media_effect st))) <$> order_effect rolls st.

(** ** Events *)

Definition turned_on (p : MusicPrefs) : MusicPrefs := {|
  pref_mode := pref_mode p; pref_muted := pref_muted p; pref_volume := pref_volume p;
  pref_trackId := pref_trackId p; pref_playlistKey := pref_playlistKey p; off := false |}.
Definition turned_off (p : MusicPrefs) : MusicPrefs := {|
  pref_mode := pref_mode p; pref_muted := pref_muted p; pref_volume := pref_volume p;
  pref_trackId := pref_trackId p; pref_playlistKey := pref_playlistKey p; off := true |}.
Definition with_mode (m : InstanceMusicMode) (p : MusicPrefs) : MusicPrefs := {|
  pref_mode := Some m; pref_muted := pref_muted p; pref_volume := pref_volume p;
  pref_trackId := pref_trackId p; pref_playlistKey := pref_playlistKey p; off := off p |}.
Definition with_sound (v : option Q) (m : bool) (p : MusicPrefs) : MusicPrefs := {|
  pref_mode := pref_mode p; pref_muted := Some m; pref_volume := match v with Some v => Some v | None => pref_volume p end;
  pref_trackId := pref_trackId p; pref_playlistKey := pref_playlistKey p; off := off p |}.

Inductive direction := forward | backward.

(** [((nextPosition % count) + count) % count] of the neighbouring position. *)
Definition neighbour (d : direction) (position count : nat) : Z :=
  let nextPosition := Z.of_nat position + match d with forward => 1 | backward => -1 end in
  Z.rem (Z.rem nextPosition (Z.of_nat count) + Z.of_nat count) (Z.of_nat count).

(** [move]: the audio restarts when the song is the same. *)
Definition move (rolls : nat -> Q) (d : direction) (st : player) : player :=
  let count := length (queue st) in
  if (count =? 0)%nat then st
  else
    let round_over := match d with forward => (count <=? position st + 1)%nat | backward => false end in
    let '(nextQueue, wrapped) :=
      if round_over && bool_decide (player_mode st = random)
      then (js_filter (fun value => negb (value =? index st)%nat) (buildQueue rolls count random None) ++ [index st], 0%nat)
      else (queue st, Z.to_nat (neighbour d (position st) count)) in
    let st' := set_order nextQueue wrapped st in
    if bool_decide (nextQueue !! wrapped = Some (index st)) && wantsPlay st
    then set_audio (wantsPlay st) (lastAudibleVolume st) (play <$> element st) st' else st'.

Definition wanting (st : player) : player := set_audio true (lastAudibleVolume st) (element st) st.

(** [next] and [previous]. *)
Definition step (rolls : nat -> Q) (d : direction) (st : player) : player :=
  move rolls d (wanting (set_prefs (turned_on (prefs st)) st)).

(** [toggle]. *)
Definition toggle (st : player) : player :=
  match current st with
  | None => st
  | Some _ =>
      if paused (getAudio st)
      then with_audio play (wanting (set_prefs (turned_on (prefs st)) st))
      else set_audio false (lastAudibleVolume st) (Some (pause (getAudio st))) st
  end.

Definition playAt (trackIndex : nat) (st : player) : player :=
  match index_in trackIndex (queue st) with
  | None => st
  | Some target =>
      let st' := wanting (set_prefs (turned_on (prefs st)) st) in
      if (target =? position st)%nat then with_audio play st' else set_order (queue st') target st'
  end.

Definition toggleMute (st : player) : player :=
  let nextMuted := negb (muted st || Qeq_bool (volume st) 0) in
  if negb nextMuted && Qeq_bool (volume st) 0 then
    let restored := lastAudibleVolume st in
    set_prefs (with_sound (Some restored) false (prefs st)) (with_audio (set_sound false restored) st)
  else
    set_prefs (with_sound None nextMuted (prefs st))
      (with_audio (fun e => set_sound nextMuted (audio_volume e) e) st).

(** [setVolume], of a finite number. *)
Definition setVolume (value : Q) (st : player) : player :=
  let nextVolume := normalizeMusicVolume (Some (JNum value)) (defaultVolume DEFAULT_MUSIC_CONFIG) in
  set_prefs (with_sound (Some nextVolume) (Qeq_bool nextVolume 0) (prefs st))
    (with_audio (set_sound (Qeq_bool nextVolume 0) nextVolume) st).

Definition setMode (nextMode : InstanceMusicMode) (st : player) : player := set_prefs (with_mode nextMode (prefs st)) st.

Definition turnOff (st : player) : player :=
  set_prefs (turned_off (prefs st)) (set_audio false (lastAudibleVolume st) (pause <$> element st) st).
Definition resetPrefs (st : player) : player := set_prefs no_prefs st.

(** The administrator's settings change. *)
Definition configure (c : InstanceMusicConfig) (st : player) : player := {|
  config := c; prefs := prefs st; queue := queue st; queueKey := queueKey st; position := position st;
  previousPlaylist := previousPlaylist st; dealt := dealt st; wantsPlay := wantsPlay st;
  lastAudibleVolume := lastAudibleVolume st; element := element st |}.

(** The provider as it is first rendered. *)
Definition mount (c : InstanceMusicConfig) (p : MusicPrefs) : player :=
  let v := normalizeMusicVolume (JNum <$> pref_volume p) (defaultVolume c) in
  {| config := c; prefs := p; queue := []; queueKey := []; position := 0; previousPlaylist := pref_playlistKey p;
     dealt := None; wantsPlay := false;
     lastAudibleVolume := if negb (Qle_bool v 0) then v else if Qeq_bool (defaultVolume c) 0 then 3 # 10 else defaultVolume c;
     element := None |}.

Inductive event :=
  | Next | Previous | Toggle | PlayAt (trackIndex : nat) | ToggleMute | SetVolume (value : Q)
  | SetMode (nextMode : InstanceMusicMode) | TurnOff | ResetPrefs | Ended | Configure (c : InstanceMusicConfig).

Definition handle (rolls : nat -> Q) (e : event) (st : player) : player :=
  match e with
  | Next => step rolls forward st
  | Previous => step rolls backward st
  | Toggle => toggle st
  | PlayAt i => playAt i st
  | ToggleMute => toggleMute st
  | SetVolume v => setVolume v st
  | SetMode m => setMode m st
  | TurnOff => turnOff st
  | ResetPrefs => resetPrefs st
  | Ended => move rolls forward st
  | Configure c => configure c st
  end.

(** ** Permutations *)

Lemma swap_at_perm {A} (l : list A) i j : swap_at l i j ≡ₚ l.
Proof.
  unfold swap_at. destruct (l !! i) as [x|] eqn:Ei; [|done]. destruct (l !! j) as [y|] eqn:Ej; [|done].
  symmetry. rewrite (Permutation_insert_swap l i j x y) at 1 by done. done.
Qed.

Lemma shuffle_perm rolls l : shuffle rolls l ≡ₚ l.
Proof.
  unfold shuffle. generalize (length l - 1)%nat. intros n. revert l.
  induction n as [|n IH]; intros l; cbn [shuffle_from]; [done|]. by rewrite IH, swap_at_perm.
Qed.

(** Moving one element to the front, or to the back. *)
Lemma to_front_perm x l : NoDup l -> x ∈ l -> x :: js_filter (fun y => negb (y =? x)%nat) l ≡ₚ l.
Proof.
  intros Hn Hx. induction l as [|y l IH]; [inversion Hx|]. apply NoDup_cons in Hn as [Hy Hn]. cbn [js_filter].
  destruct (y =? x)%nat eqn:E; cbn [negb]; bool_prop.
  - subst y. rewrite js_filter_true; [done|]. intros z Hz. apply negb_true_iff, Nat.eqb_neq. by intros ->.
  - apply elem_of_cons in Hx as [->|Hx]; [done|]. rewrite Permutation_swap. by rewrite IH.
Qed.

Lemma buildQueue_perm rolls count m first :
  (forall x, first = Some x -> (x < count)%nat) -> buildQueue rolls count m first ≡ₚ seq 0 count.
Proof.
  intros Hf. unfold buildQueue. destruct m; [|done|symmetry; apply Permutation_rev].
  destruct first as [x|]; [|apply shuffle_perm].
  rewrite shuffle_perm. apply to_front_perm; [apply NoDup_seq|]. apply elem_of_seq. specialize (Hf x eq_refl). lia.
Qed.

Lemma index_in_Some x l i : index_in x l = Some i -> l !! i = Some x.
Proof.
  revert i. induction l as [|y l IH]; intros i; cbn [index_in]; [done|]. destruct (y =? x)%nat eqn:E; bool_prop.
  - intros [= <-]. by subst.
  - destruct (index_in x l) as [j|]; [|done]. intros [= <-]. by apply IH.
Qed.
Lemma index_in_elem x l : x ∈ l -> exists i, index_in x l = Some i.
Proof.
  induction l as [|y l IH]; intros H; [inversion H|]. cbn [index_in]. destruct (y =? x)%nat eqn:E; [by eexists|]. bool_prop.
  apply elem_of_cons in H as [->|H]; [done|]. destruct (IH H) as [i ->]. by eexists.
Qed.

Lemma pick_bound roll n : (0 <= roll)%Q -> (roll < 1)%Q -> (0 < n)%nat -> (pick roll n < n)%nat.
Proof.
  intros H0 H1 Hn. unfold pick.
  assert ((roll * inject_Z (Z.of_nat n) < inject_Z (Z.of_nat n))%Q) as Hlt.
  { rewrite <- (Qmult_1_l (inject_Z (Z.of_nat n))) at 2. apply Qmult_lt_compat_r; [|done].
    unfold Qlt. cbn. lia. }
  pose proof (Qfloor_le (roll * inject_Z (Z.of_nat n))) as Hle.
  assert (inject_Z (Qfloor (roll * inject_Z (Z.of_nat n))) < inject_Z (Z.of_nat n))%Q as H by (eapply Qle_lt_trans; done).
  rewrite <- Zlt_Qlt in H. lia.
Qed.

(** ** The order is well formed *)

(** A playlist whose tracks have identifiers of their own. *)
Definition ids_distinct (c : InstanceMusicConfig) : Prop := NoDup (track_id <$> js_filter isPlayableTrack (tracks c)).

Definition dependencies (st : player) : nat * jstring * InstanceMusicMode :=
  (length (playable st), playlistKey (playable st), player_mode st).

(** The order holds each of [n] tracks once, the position is one of the order's, and the
    playlist it was dealt for is the one remembered. *)
Definition order_for (n : nat) (key : jstring) (st : player) : Prop :=
  queue st ≡ₚ seq 0 n
  /\ if (n =? 0)%nat then position st = 0%nat
     else (position st < n)%nat /\ queueKey st = key /\ previousPlaylist st = Some key.
Definition order_ok (st : player) : Prop := forall n key m, dealt st = Some (n, key, m) -> order_for n key st.
Definition settled (st : player) : Prop := dealt st = Some (dependencies st) /\ order_ok st.
Definition rolls_ok (rolls : nat -> Q) : Prop := forall k, (0 <= rolls k < 1)%Q.

Lemma filter_nonempty {A} (p : A -> bool) l x : x ∈ l -> p x = true -> (0 < length (js_filter p l))%nat.
Proof. intros Hx Hp. assert (x ∈ js_filter p l) as H by by apply js_filter_In. destruct (js_filter p l); [inversion H|cbn; lia]. Qed.

(** With distinct identifiers there is always a track to draw, and what is kept is one. *)
Lemma keep_index_ok roll st :
  (0 <= roll < 1)%Q -> NoDup (track_id <$> playable st) -> playable st <> [] ->
  exists keep, keep_index roll st = Some keep /\ forall k, keep = Some k -> (k < length (playable st))%nat.
Proof.
  intros [H0 H1] Hn Hne. unfold keep_index. set (ts := playable st) in *.
  assert (0 < length ts)%nat as Hlen by (destruct ts; [done|cbn; lia]).
  destruct (_ && (_ || _)).
  - set (p := fun i => (length ts =? 1)%nat || negb (bool_decide (track_id <$> ts !! i = pref_trackId (prefs st)))).
    assert (exists i, (i < length ts)%nat /\ p i = true) as (i & Hi & Hp).
    { unfold p. destruct (decide (length ts = 1%nat)) as [->|Hl]; [exists 0%nat; split; [lia|done]|].
      rewrite (proj2 (Nat.eqb_neq _ _)) by done. cbn [orb].
      destruct ts as [|t1 [|t2 ts']]; [cbn in *; lia|cbn in *; lia|].
      destruct (decide (Some (track_id t1) = pref_trackId (prefs st))) as [E|E].
      - exists 1%nat. split; [cbn; lia|]. apply negb_true_iff, bool_decide_eq_false. cbn. rewrite <- E. intros [= Heq].
        cbn in Hn. apply NoDup_cons in Hn as [Hnot _]. apply Hnot. rewrite Heq. by left.
      - exists 0%nat. split; [cbn; lia|]. apply negb_true_iff, bool_decide_eq_false. exact E. }
    pose proof (filter_nonempty p (seq 0 (length ts)) i ltac:(apply elem_of_seq; lia) Hp) as Hc.
    destruct (lookup_lt_is_Some_2 _ _ (pick_bound roll _ H0 H1 Hc)) as [k Hk]. rewrite Hk.
    exists (Some k). split; [done|]. intros k' [= <-]. apply list_elem_of_lookup_2, js_filter_In in Hk as [Hk _].
    apply elem_of_seq in Hk. lia.
  - destruct (match previousPlaylist st with Some _ => _ | None => _ end).
    + exists (Some 0%nat). split; [done|]. by intros k [= <-].
    + destruct (queue st !! position st) as [i|] eqn:Eq; [destruct (i <? length ts)%nat eqn:Ei|].
      1: { bool_prop. exists (Some i). split; [done|]. by intros k [= <-]. }
      all: eexists; split; [reflexivity|]; intros k Hk; destruct (_ && _); [|done];
        destruct (list_find _ ts) as [[j x]|] eqn:Ef; [|done]; injection Hk as <-;
        apply list_find_Some in Ef as (Hj & _); by apply lookup_lt_Some in Hj.
Qed.

Lemma deal_ok rolls st :
  rolls_ok rolls -> NoDup (track_id <$> playable st) ->
  exists st', deal rolls st = Some st' /\ settled st' /\ config st' = config st /\ prefs st' = prefs st.
Proof.
  intros Hr Hn. unfold deal. destruct (playable st) as [|t ts] eqn:Et.
  - eexists. split; [reflexivity|]. split; [|done]. split.
    + cbn. unfold dependencies, playable, player_mode in *. cbn [config prefs]. by rewrite Et.
    + intros n key m [= <- <- <-]. split; [done|]. done.
  - destruct (keep_index_ok (rolls 0%nat) st (Hr 0%nat) ltac:(by rewrite Et) ltac:(by rewrite Et)) as (keep & -> & Hk).
    rewrite Et in Hk. eexists. split; [reflexivity|]. cbn [config prefs]. split; [|done]. split.
    + cbn. unfold dependencies, playable, player_mode in *. cbn [config prefs]. by rewrite Et.
    + intros n key m [= <- <- <-]. unfold order_for. cbn [queue position queueKey previousPlaylist].
      set (q := buildQueue rolls (length (t :: ts)) (player_mode st) keep).
      assert (q ≡ₚ seq 0 (length (t :: ts))) as Hq by by apply buildQueue_perm.
      split; [exact Hq|]. change (length (t :: ts) =? 0)%nat with false. cbn iota. split; [|done].
      destruct keep as [k|]; [|cbn; lia].
      destruct (index_in_elem k q) as [i Hi]; [rewrite Hq; apply elem_of_seq; specialize (Hk k eq_refl); lia|].
      rewrite Hi. cbn [default from_option]. apply index_in_Some, lookup_lt_Some in Hi.
      by rewrite (Permutation_length Hq), length_seq in Hi.
Qed.

Lemma order_effect_ok rolls st :
  rolls_ok rolls -> NoDup (track_id <$> playable st) -> order_ok st ->
  exists st', order_effect rolls st = Some st' /\ settled st' /\ config st' = config st /\ prefs st' = prefs st.
Proof.
  intros Hr Hn Ho. unfold order_effect. case_bool_decide as E; [|by apply deal_ok]. exists st. by split_and!.
Qed.

(** States with the same order, position and playlist. *)
Definition same_order (a b : player) : Prop :=
  queue a = queue b /\ queueKey a = queueKey b /\ position a = position b /\ previousPlaylist a = previousPlaylist b
  /\ dealt a = dealt b.

Lemma same_order_ok a b : same_order a b -> order_ok a -> order_ok b.
Proof.
  intros (H1 & H2 & H3 & H4 & H5) Ho n key m Hd. specialize (Ho n key m). unfold order_for in *.
  rewrite <- H1, <- H2, <- H3, <- H4. apply Ho. by rewrite H5.
Qed.

Lemma remember_same st : same_order st (remember_effect st).
Proof. unfold remember_effect. by destruct (current st). Qed.
Lemma media_same st : same_order st (media_effect st).
Proof. done. Qed.
Lemma available_same st : same_order st (available_effect st).
Proof. unfold available_effect. by destruct (available st). Qed.
Lemma same_order_trans a b c : same_order a b -> same_order b c -> same_order a c.
Proof. unfold same_order. naive_solver congruence. Qed.

Lemma settle_frame rolls st st' :
  settle rolls st = Some st' ->
  exists mid, order_effect rolls st = Some mid /\ same_order mid st' /\ config st' = config mid
    /\ pref_mode (prefs st') = pref_mode (prefs mid) /\ pref_muted (prefs st') = pref_muted (prefs mid)
    /\ pref_volume (prefs st') = pref_volume (prefs mid).
Proof.
  unfold settle. destruct (order_effect rolls st) as [mid|]; [|done]. intros [= <-]. exists mid. split; [done|].
  split; [eapply same_order_trans; [apply media_same|]; eapply same_order_trans; [apply remember_same|apply available_same]|].
  unfold available_effect, remember_effect. by destruct (current (media_effect mid)), (available _).
Qed.

Lemma settled_transfer a b :
  same_order a b -> config b = config a -> pref_mode (prefs b) = pref_mode (prefs a) -> settled a -> settled b.
Proof.
  intros Hs Hc Hp [Hd Ho]. split; [|by eapply same_order_ok].
  destruct Hs as (_ & _ & _ & _ & <-). rewrite Hd. unfold dependencies, playable, player_mode. by rewrite Hc, Hp.
Qed.

Lemma settle_ok rolls st :
  rolls_ok rolls -> NoDup (track_id <$> playable st) -> order_ok st ->
  exists st', settle rolls st = Some st' /\ settled st' /\ config st' = config st
    /\ pref_mode (prefs st') = pref_mode (prefs st).
Proof.
  intros Hr Hn Ho. destruct (order_effect_ok rolls st Hr Hn Ho) as (mid & Hmid & Hset & Hc & Hp).
  destruct (settle rolls st) as [st'|] eqn:E; [|unfold settle in E; by rewrite Hmid in E].
  destruct (settle_frame _ _ _ E) as (mid' & Hmid' & Hs & Hc' & Hp' & _). assert (mid' = mid) as -> by congruence.
  exists st'. split; [done|]. split; [by eapply settled_transfer|]. split; congruence.
Qed.

(** Setting a position of the order keeps the order. *)
Lemma set_position_ok pos st :
  order_ok st -> (length (queue st) <> 0%nat -> (pos < length (queue st))%nat) -> (length (queue st) = 0%nat -> pos = position st) ->
  order_ok (set_order (queue st) pos st).
Proof.
  intros Ho Hpos Hz n key m Hd. destruct (Ho n key m Hd) as [Hq H]. split; [done|]. cbn [position set_order queueKey previousPlaylist].
  pose proof (Permutation_length Hq) as Hl. rewrite length_seq in Hl.
  destruct (n =? 0)%nat eqn:En; bool_prop; [rewrite Hz by lia; done|]. split; [rewrite <- Hl; apply Hpos; lia|apply H].
Qed.

Lemma neighbour_bound d pos count : (0 < count)%nat -> 0 <= neighbour d pos count < Z.of_nat count.
Proof.
  intros Hc. unfold neighbour. set (x := Z.of_nat pos + _).
  pose proof (Z.rem_bound_abs x (Z.of_nat count) ltac:(lia)) as H1.
  pose proof (Z.rem_bound_pos (Z.rem x (Z.of_nat count) + Z.of_nat count) (Z.of_nat count) ltac:(lia) ltac:(lia)). lia.
Qed.

(** The order a new round is played in. *)
Definition new_round (rolls : nat -> Q) (st : player) : list nat :=
  js_filter (fun value => negb (value =? index st)%nat) (buildQueue rolls (length (queue st)) random None) ++ [index st].

Lemma index_elem n key st : order_for n key st -> (0 < n)%nat -> (index st < n)%nat /\ queue st !! position st = Some (index st).
Proof.
  intros [Hq H] Hn. rewrite (proj2 (Nat.eqb_neq n 0)) in H by lia. destruct H as [Hp _].
  pose proof (Permutation_length Hq) as Hl. rewrite length_seq in Hl.
  destruct (lookup_lt_is_Some_2 (queue st) (position st)) as [i Hi]; [lia|]. unfold index. rewrite Hi. split; [|done].
  apply list_elem_of_lookup_2 in Hi. rewrite Hq in Hi. apply elem_of_seq in Hi. cbn. lia.
Qed.

Lemma new_round_perm rolls n key st : order_for n key st -> (0 < n)%nat -> new_round rolls st ≡ₚ seq 0 n.
Proof.
  intros Ho Hn. destruct (index_elem n key st Ho Hn) as [Hi _]. destruct Ho as [Hq _]. unfold new_round.
  assert (length (queue st) = n) as -> by (by rewrite (Permutation_length Hq), length_seq).
  rewrite Permutation_app_comm. cbn [app]. rewrite (buildQueue_perm rolls n random None) by done.
  apply to_front_perm; [apply NoDup_seq|]. apply elem_of_seq. lia.
Qed.

(** A new round does not open with the song that just played. *)
Lemma new_round_opens rolls n key st :
  order_for n key st -> (2 <= n)%nat -> exists x rest, new_round rolls st = x :: rest /\ x <> index st.
Proof.
  intros Ho Hn. pose proof (Permutation_length (new_round_perm rolls n key st Ho ltac:(lia))) as HL.
  rewrite length_seq in HL. unfold new_round in *. set (rest := js_filter _ _) in *. rewrite length_app in HL.
  change (length [index st]) with 1%nat in HL. destruct rest as [|x rest'] eqn:Er; [cbn in HL; lia|].
  exists x, (rest' ++ [index st]). split; [done|]. intros ->.
  assert (index st ∈ rest) as Hin by (rewrite Er; by left). unfold rest in Hin. apply js_filter_In in Hin as [_ Hin].
  by apply negb_true_iff, Nat.eqb_neq in Hin.
Qed.

Lemma move_ok rolls d st : order_ok st -> order_ok (move rolls d st).
Proof.
  intros Ho. unfold move. destruct (length (queue st) =? 0)%nat eqn:Ez; [done|]. bool_prop.
  assert (forall q w, order_ok (set_order q w st) -> order_ok
    (let st' := set_order q w st in if bool_decide (q !! w = Some (index st)) && wantsPlay st
     then set_audio (wantsPlay st) (lastAudibleVolume st) (play <$> element st) st' else st')) as Haudio.
  { intros q w H. cbn zeta. destruct (_ && _); [|done]. by eapply same_order_ok; [|exact H]. }
  destruct (_ && bool_decide (player_mode st = random)); apply Haudio.
  - intros n key m Hd. pose proof (Ho n key m Hd) as Hf. pose proof (Permutation_length (proj1 Hf)) as Hl.
    rewrite length_seq in Hl. split; [apply (new_round_perm rolls n key); [done|lia]|].
    destruct Hf as [_ Hf]. rewrite (proj2 (Nat.eqb_neq n 0)) in * by lia. split; [cbn; lia|apply Hf].
  - apply set_position_ok; [done| |done]. intros _. pose proof (neighbour_bound d (position st) (length (queue st)) ltac:(lia)). lia.
Qed.

Lemma handle_ok rolls e st : order_ok st -> order_ok (handle rolls e st).
Proof.
  intros Ho. destruct e; cbn [handle]; try (eapply same_order_ok; [|exact Ho]; done).
  1,2: apply move_ok; eapply same_order_ok; [|exact Ho]; done.
  - unfold toggle. destruct (current st); [|done]. destruct (paused _); (eapply same_order_ok; [|exact Ho]); done.
  - unfold playAt. destruct (index_in trackIndex (queue st)) as [target|] eqn:E; [|done].
    destruct (target =? position st)%nat; [by eapply same_order_ok; [|exact Ho]|].
    apply index_in_Some, lookup_lt_Some in E.
    apply (set_position_ok target (wanting (set_prefs (turned_on (prefs st)) st))); [by eapply same_order_ok; [|exact Ho]|done|].
    cbn. lia.
  - unfold toggleMute. destruct (_ && _); (eapply same_order_ok; [|exact Ho]); done.
  - by apply move_ok.
Qed.

(** What the player can come to: mounted with a playlist whose tracks have identifiers of
    their own, then any events and draws, each rendered before the next. *)
Definition sound_event (e : event) : Prop := match e with Configure c => ids_distinct c | _ => True end.
Inductive reachable : player -> Prop :=
| reachable_mount c p rolls st :
    ids_distinct c -> rolls_ok rolls -> settle rolls (mount c p) = Some st -> reachable st
| reachable_event st e rolls rolls' st' :
    reachable st -> sound_event e -> rolls_ok rolls -> rolls_ok rolls' ->
    settle rolls' (handle rolls e st) = Some st' -> reachable st'.

Lemma handle_config rolls e st :
  config (handle rolls e st) = match e with Configure c => c | _ => config st end.
Proof.
  assert (forall d s, config (move rolls d s) = config s) as Hm.
  { intros d s. unfold move. destruct (_ =? 0)%nat; [done|]. destruct (_ && bool_decide _); destruct (_ && _); done. }
  destruct e; cbn [handle]; unfold step, toggle, playAt, toggleMute; rewrite ?Hm; repeat case_match; done.
Qed.

Lemma settle_event rolls rolls' e st :
  sound_event e -> rolls_ok rolls' -> ids_distinct (config st) -> order_ok st ->
  exists st', settle rolls' (handle rolls e st) = Some st' /\ settled st' /\ ids_distinct (config st').
Proof.
  intros He Hr Hi Ho. assert (ids_distinct (config (handle rolls e st))) as Hi' by (rewrite handle_config; by destruct e).
  destruct (settle_ok rolls' (handle rolls e st) Hr Hi' (handle_ok rolls e st Ho)) as (st' & H1 & H2 & H3 & _).
  exists st'. by rewrite H3.
Qed.

Lemma reachable_settled st : reachable st -> settled st /\ ids_distinct (config st).
Proof.
  induction 1 as [c p rolls st Hi Hr E|st e rolls rolls' st' _ [[_ Ho] Hi] He Hr Hr' E].
  - assert (order_ok (mount c p)) as Ho by (intros n key m H; done).
    destruct (settle_ok rolls (mount c p) Hr Hi Ho) as (st' & H1 & H2 & H3 & _).
    assert (st' = st) as -> by congruence. split; [done|]. by rewrite H3.
  - destruct (settle_event rolls rolls' e st He Hr' Hi Ho) as (s & H1 & H2 & H3). by assert (s = st') as -> by congruence.
Qed.

(** ** Moving on *)

(** Effects leave an order alone that is dealt for the playlist and mode there are. *)
Lemma settle_same rolls st st' :
  dealt st = Some (dependencies st) -> settle rolls st = Some st' -> same_order st st'.
Proof.
  intros Hd E. destruct (settle_frame _ _ _ E) as (mid & Hmid & Hs & _). unfold order_effect in Hmid.
  rewrite bool_decide_eq_true_2 in Hmid by exact Hd. by injection Hmid as ->.
Qed.

Lemma move_frame rolls d st :
  dealt (move rolls d st) = dealt st /\ config (move rolls d st) = config st /\ prefs (move rolls d st) = prefs st.
Proof. unfold move. destruct (_ =? 0)%nat; [done|]. destruct (_ && bool_decide _); destruct (_ && _); done. Qed.

Lemma step_frame rolls d st :
  dealt (step rolls d st) = dealt st /\ config (step rolls d st) = config st
  /\ pref_mode (prefs (step rolls d st)) = pref_mode (prefs st).
Proof.
  unfold step. destruct (move_frame rolls d (wanting (set_prefs (turned_on (prefs st)) st))) as (-> & -> & ->). done.
Qed.

Lemma step_dealt rolls d st : dealt st = Some (dependencies st) -> dealt (step rolls d st) = Some (dependencies (step rolls d st)).
Proof.
  intros Hd. destruct (step_frame rolls d st) as (Hd' & Hc & Hp). rewrite Hd', Hd.
  unfold dependencies, playable, player_mode. by rewrite Hc, Hp.
Qed.

(** What pressing next or previous does to the order. *)
Lemma step_order rolls rolls' d st st' :
  dealt st = Some (dependencies st) -> (0 < length (queue st))%nat -> settle rolls' (step rolls d st) = Some st' ->
  if match d with forward => (length (queue st) <=? position st + 1)%nat | backward => false end
     && bool_decide (player_mode st = random)
  then queue st' = new_round rolls st /\ position st' = 0%nat
  else queue st' = queue st /\ position st' = Z.to_nat (neighbour d (position st) (length (queue st))).
Proof.
  intros Hd Hn E. apply settle_same in E as (<- & _ & <- & _); [|by apply step_dealt].
  unfold step, move. cbn [queue wanting set_audio set_prefs position]. rewrite (proj2 (Nat.eqb_neq _ _)) by lia.
  change (player_mode (wanting (set_prefs (turned_on (prefs st)) st))) with (player_mode st).
  destruct (_ && bool_decide (player_mode st = random)); destruct (_ && _); done.
Qed.

Lemma step_settled rolls rolls' d st st' :
  rolls_ok rolls' -> ids_distinct (config st) -> settled st -> settle rolls' (step rolls d st) = Some st' ->
  settled st' /\ config st' = config st.
Proof.
  intros Hr Hi [Hd Ho] E.
  pose proof (proj1 (proj2 (step_frame rolls d st))) as Hc.
  assert (ids_distinct (config (step rolls d st))) as Hi' by by rewrite Hc.
  assert (order_ok (step rolls d st)) as Ho'.
  { unfold step. apply move_ok. by eapply same_order_ok; [|exact Ho]. }
  destruct (settle_ok rolls' (step rolls d st) Hr Hi' Ho') as (s & H1 & H2 & H3 & _).
  assert (s = st') as -> by congruence. by rewrite H3.
Qed.

(** The songs heard by pressing next again and again. *)
Inductive plays : player -> list nat -> player -> Prop :=
| plays_nil st : plays st [] st
| plays_next st rolls rolls' st1 songs st' :
    rolls_ok rolls -> rolls_ok rolls' -> settle rolls' (step rolls forward st) = Some st1 -> plays st1 songs st' ->
    plays st (index st1 :: songs) st'.

Lemma neighbour_next pos count : (pos + 1 < count)%nat -> Z.to_nat (neighbour forward pos count) = (pos + 1)%nat.
Proof.
  intros H. unfold neighbour. rewrite (Z.rem_small (Z.of_nat pos + 1)) by lia.
  replace (Z.of_nat pos + 1 + Z.of_nat count) with ((Z.of_nat pos + 1) + 1 * Z.of_nat count) by lia.
  rewrite Z.rem_add by lia. rewrite Z.rem_small by lia. lia.
Qed.
Lemma neighbour_wrap pos count : (pos + 1 = count)%nat -> Z.to_nat (neighbour forward pos count) = 0%nat.
Proof.
  intros <-. unfold neighbour. rewrite Nat2Z.inj_add. change (Z.of_nat 1) with 1.
  rewrite Z.rem_same by lia. rewrite Z.add_0_l, Z.rem_same by lia. done.
Qed.

Lemma round_plays st songs st' :
  plays st songs st' -> settled st -> ids_distinct (config st) -> (position st + length songs < length (queue st))%nat ->
  songs = take (length songs) (drop (S (position st)) (queue st))
  /\ queue st' = queue st /\ position st' = (position st + length songs)%nat /\ settled st' /\ config st' = config st.
Proof.
  induction 1 as [st|st rolls rolls' st1 songs st' Hr Hr' E _ IH]; intros Hs Hi Hlt; cbn [length] in *.
  { by rewrite take_0, Nat.add_0_r. }
  destruct (step_settled rolls rolls' forward st st1 Hr' Hi Hs E) as [Hs1 Hc1].
  pose proof (step_order rolls rolls' forward st st1 (proj1 Hs) ltac:(lia) E) as H.
  rewrite (proj2 (Nat.leb_gt _ _)) in H by lia. cbn [andb] in H. destruct H as [Hq Hp]. rewrite neighbour_next in Hp by lia.
  destruct IH as (H1 & H2 & H3 & H4 & H5); [done|by rewrite Hc1|rewrite Hq, Hp; lia|].
  rewrite Hq, Hp in *. split; [|split; [done|split; [lia|split; [done|congruence]]]].
  destruct (lookup_lt_is_Some_2 (queue st) (S (position st))) as [x Hx]; [lia|].
  rewrite (drop_S _ _ _ Hx). cbn [take]. f_equal.
  - unfold index. rewrite Hq, Hp. replace (position st + 1)%nat with (S (position st)) by lia. by rewrite Hx.
  - rewrite H1 at 1. by replace (position st + 1)%nat with (S (position st)) by lia.
Qed.

(** A new order of the same playlist starts from the song that is playing. *)
Lemma order_keeps_song rolls st mid :
  order_for (length (playable st)) (playlistKey (playable st)) st -> (0 < length (playable st))%nat ->
  order_effect rolls st = Some mid ->
  queue mid !! position mid = Some (index st)
  /\ (dealt st = Some (dependencies st) \/ queue mid = buildQueue rolls (length (playable st)) (player_mode st) (Some (index st))).
Proof.
  intros Hf Hn. destruct (index_elem _ _ _ Hf Hn) as [Hx Hlook]. destruct Hf as [_ Hf].
  rewrite (proj2 (Nat.eqb_neq _ _)) in Hf by lia. destruct Hf as (_ & _ & Hprev).
  unfold order_effect. case_bool_decide.
  { intros [= <-]. split; [exact Hlook|by left]. }
  unfold deal. assert (keep_index (rolls 0%nat) st = Some (Some (index st))) as ->.
  { unfold keep_index. rewrite Hprev, Hlook, js_eqb_refl. cbn [negb orb]. apply Nat.ltb_lt in Hx. rewrite Hx.
    rewrite (bool_decide_eq_true_2 (is_Some (Some (index st)))) by by eexists. by rewrite andb_false_r. }
  destruct (playable st) as [|t ts] eqn:Et; [cbn in Hn; lia|]. intros [= <-]. cbn [queue position]. split; [|by right].
  destruct (index_in_elem (index st) (buildQueue rolls (length (t :: ts)) (player_mode st) (Some (index st)))) as [i Hi].
  { rewrite buildQueue_perm by (by intros x [= <-]). apply elem_of_seq. cbn in *. lia. }
  cbn [length] in *. rewrite Hi. change (default 0%nat (Some i)) with i. by apply index_in_Some.
Qed.

(** The current track of a player whose order is dealt. *)
Lemma settled_order st : settled st -> order_for (length (playable st)) (playlistKey (playable st)) st.
Proof. intros [Hd Ho]. by eapply Ho. Qed.

Lemma current_settled st : settled st -> current st = if available st then playable st !! index st else None.
Proof.
  intros Hs. pose proof (settled_order st Hs) as [Hq Hf]. unfold current, available.
  destruct (0 <? length (playable st))%nat eqn:En; [|by rewrite andb_false_r].
  rewrite andb_true_r. bool_prop. rewrite (proj2 (Nat.eqb_neq (length (playable st)) 0)) in Hf by lia. destruct Hf as (_ & -> & _).
  rewrite js_eqb_refl, (Permutation_length Hq), length_seq, Nat.eqb_refl. by destruct (enabled (config st)).
Qed.

(** ** Sound *)

Lemma order_effect_frame rolls st mid :
  order_effect rolls st = Some mid ->
  config mid = config st /\ prefs mid = prefs st /\ element mid = element st /\ lastAudibleVolume mid = lastAudibleVolume st.
Proof.
  unfold order_effect, deal. case_bool_decide; [by intros [= <-]|]. destruct (playable st); [by intros [= <-]|].
  destruct (keep_index _ _); [|done]. by intros [= <-].
Qed.

(** What the effects make of the sound: the element is set to it, and an audible volume is
    remembered. *)
Lemma settle_sound rolls st st' :
  settle rolls st = Some st' ->
  muted st' = muted st /\ volume st' = volume st
  /\ lastAudibleVolume st' = (if negb (Qle_bool (volume st) 0) then volume st else lastAudibleVolume st)
  /\ forall e, element st = Some e ->
       exists e', element st' = Some e' /\ audio_muted e' = muted st /\ audio_volume e' = volume st.
Proof.
  unfold settle. destruct (order_effect rolls st) as [mid|] eqn:E; [|done]. intros [= <-].
  destruct (order_effect_frame _ _ _ E) as (Hc & Hp & He & Hl).
  assert (muted mid = muted st /\ volume mid = volume st) as [Hm Hv] by (unfold muted, volume; by rewrite Hc, Hp).
  unfold available_effect, remember_effect. destruct (current (media_effect mid)), (available _).
  all: split; [exact Hm|split; [exact Hv|split; [by rewrite <- Hv, <- Hl|]]]; intros e Hst; rewrite <- He in Hst;
    cbn; rewrite Hst; eexists; split; [reflexivity|]; done.
Qed.

Lemma normalized_in_range v : (0 <= v)%Q -> (v <= 1)%Q -> (Qmin 1 (Qmax 0 v) == v)%Q.
Proof. intros H0 H1. rewrite Q.max_r by done. by rewrite Q.min_r. Qed.

(** The sound after the volume is set, and after the sound is switched. *)
Lemma settle_setVolume rolls v st st' :
  (0 <= v)%Q -> (v <= 1)%Q -> settle rolls (setVolume v st) = Some st' ->
  (volume st' == v)%Q /\ muted st' = Qeq_bool v 0
  /\ (if Qeq_bool v 0 then lastAudibleVolume st' = lastAudibleVolume st else (lastAudibleVolume st' == v)%Q).
Proof.
  intros H0 H1 S. destruct (settle_sound _ _ _ S) as (Hm & Hv & Hl & _). rewrite Hv, Hm, Hl.
  pose proof (normalized_in_range v H0 H1) as Hn.
  assert (volume (setVolume v st) == v)%Q as Hvol.
  { unfold volume, setVolume. cbn -[Qmin Qmax]. by rewrite Hn, Hn. }
  split; [done|]. assert (muted (setVolume v st) = Qeq_bool v 0) as ->.
  { unfold muted, setVolume. cbn -[Qmin Qmax Qeq_bool]. by rewrite Hn. }
  split; [done|]. destruct (Qeq_bool v 0) eqn:E.
  - apply Qeq_bool_eq in E. rewrite (proj2 (Qle_bool_iff _ _)); [done|]. rewrite Hvol, E. apply Qle_refl.
  - destruct (Qle_bool (volume (setVolume v st)) 0) eqn:E'; [|done]. apply Qle_bool_iff in E'. rewrite Hvol in E'.
    apply Qeq_bool_neq in E. destruct E. by apply Qle_antisym.
Qed.

(** ** Properties *)

(** C39. The player's state is well formed whatever a visitor and the administrator do: the
    order holds each track of the playlist once and the position is one of the order's, or
    the first when there is no track; when music is available there is a current track, the
    one the order has at that position; and no event fails, provided the tracks have
    identifiers of their own. *)
Theorem music_order_well_formed (st : player) (Hst : reachable st) :
  queue st ≡ₚ seq 0 (length (playable st))
  /\ (queue st = [] /\ position st = 0%nat \/ (position st < length (queue st))%nat)
  /\ (available st = true -> exists i track, queue st !! position st = Some i /\ playable st !! i = Some track /\ current st = Some track)
  /\ forall e rolls rolls', sound_event e -> rolls_ok rolls -> rolls_ok rolls' ->
       exists st', settle rolls' (handle rolls e st) = Some st'.
Proof.
  destruct (reachable_settled st Hst) as [[Hd Ho] Hi].
  assert (order_for (length (playable st)) (playlistKey (playable st)) st) as Hf by by eapply Ho.
  split; [apply Hf|]. split; [|split].
  - destruct Hf as [Hq Hf]. pose proof (Permutation_length Hq) as Hlen. rewrite length_seq in Hlen.
    destruct (length (playable st) =? 0)%nat eqn:E; bool_prop; [left; split; [destruct (queue st); [done|cbn in Hlen; lia]|done]|right; lia].
  - intros Ha. assert (0 < length (playable st))%nat as Hn.
    { unfold available in Ha. bool_prop. done. }
    destruct (index_elem _ _ _ Hf Hn) as [Hx Hq]. destruct (lookup_lt_is_Some_2 _ _ Hx) as [track Ht]. exists (index st), track.
    split; [done|]. split; [done|]. rewrite current_settled by (split; done). by rewrite Ha.
  - intros e rolls rolls' He Hr Hr'. destruct (settle_event rolls rolls' e st He Hr' Hi Ho) as (st' & H & _). by exists st'.
Qed.

(** C40. A round plays each song once: from the first position, pressing next until the
    last plays every track of the playlist exactly once, in any mode and whatever is
    drawn, and the next press starts another round, at its first position, with a song
    other than the one that just played when there are two or more. *)
Theorem music_round_plays_each_once (st st' : player) (songs : list nat)
    (Hst : reachable st) (Hp : position st = 0%nat) (Hn : (0 < length (playable st))%nat)
    (Hplays : plays st songs st') (Hl : (S (length songs) = length (playable st))%nat) :
  index st :: songs ≡ₚ seq 0 (length (playable st))
  /\ forall rolls rolls' st'', rolls_ok rolls -> rolls_ok rolls' -> settle rolls' (step rolls forward st') = Some st'' ->
       position st'' = 0%nat /\ ((2 <= length (playable st))%nat -> index st'' <> index st').
Proof.
  destruct (reachable_settled st Hst) as [Hs Hi]. pose proof Hs as [Hd Ho].
  pose proof (settled_order st Hs) as Hf. pose proof (Permutation_length (proj1 Hf)) as Hlen. rewrite length_seq in Hlen.
  destruct (round_plays st songs st' Hplays Hs Hi ltac:(lia)) as (Hsongs & Hq & Hpos & Hs' & Hc').
  assert (playable st' = playable st) as Hpl by (unfold playable; by rewrite Hc'). split.
  - destruct (index_elem _ _ _ Hf Hn) as [_ Hx]. rewrite Hp in Hx, Hsongs. rewrite Hsongs.
    rewrite take_ge by (rewrite length_drop; lia). rewrite <- (drop_S _ _ _ Hx), drop_0. apply Hf.
  - intros rolls rolls' st'' Hr Hr' E.
    assert (order_for (length (playable st)) (playlistKey (playable st)) st') as Hf'.
    { rewrite <- Hpl. by apply settled_order. }
    pose proof (step_order rolls rolls' forward st' st'' (proj1 Hs') ltac:(rewrite Hq; lia) E) as H.
    rewrite Hq, Hpos, Hp, (proj2 (Nat.leb_le _ _)) in H by lia. cbn [andb] in H.
    destruct (index_elem _ _ _ Hf' Hn) as [Hx1 Hx2].
    assert (NoDup (queue st')) as Hnd by (rewrite (proj1 Hf'); apply NoDup_seq).
    case_bool_decide.
    + destruct H as [Hq'' Hp'']. split; [done|]. intros H2. unfold index at 1. rewrite Hq'', Hp''.
      destruct (new_round_opens rolls _ _ st' Hf' H2) as (x & rest & -> & Hx). exact Hx.
    + destruct H as [Hq'' Hp'']. rewrite neighbour_wrap in Hp'' by lia. split; [done|]. intros H2.
      unfold index at 1. rewrite Hq'', Hp'', <- Hq. destruct (lookup_lt_is_Some_2 (queue st') 0%nat) as [x Hx]; [rewrite Hq; lia|].
      rewrite Hx. cbn. intros ->. rewrite Hpos, Hp in Hx2. pose proof (NoDup_lookup _ _ _ _ Hnd Hx Hx2). lia.
Qed.

(** Changing the order keeps the song: whatever the new mode, the current track is the
    one that was current; the order is dealt anew for the new mode, a random one opening
    with the current song. *)
Theorem mode_change_keeps_song (st st' : player) (m : InstanceMusicMode) (rolls : nat -> Q)
    (Hst : reachable st) (Hr : rolls_ok rolls) (Hn : (0 < length (playable st))%nat)
    (Hs : settle rolls (setMode m st) = Some st') :
  index st' = index st /\ current st' = current st /\ player_mode st' = m
  /\ (m <> player_mode st -> queue st' = buildQueue rolls (length (playable st)) m (Some (index st))).
Proof.
  destruct (reachable_settled st Hst) as [Hset Hi]. pose proof (settled_order st Hset) as Hf.
  destruct (settle_ok rolls (setMode m st) Hr Hi (handle_ok rolls (SetMode m) st (proj2 Hset))) as (s & H1 & Hset' & Hc & Hm).
  assert (s = st') as -> by congruence. cbn in Hc, Hm.
  destruct (settle_frame _ _ _ Hs) as (mid & Hmid & (Hq & _ & Hp & _) & _).
  destruct (order_keeps_song rolls (setMode m st) mid Hf Hn Hmid) as [Hsong Hqueue].
  assert (index st' = index st) as Hindex by (unfold index at 1; rewrite <- Hq, <- Hp; exact (f_equal (default 0%nat) Hsong)).
  split; [done|]. split; [|split; [unfold player_mode; by rewrite Hm|]].
  - rewrite !current_settled by done. unfold available, playable. by rewrite Hindex, Hc.
  - intros Hne. destruct Hqueue as [Hd|Hqueue]; [|by rewrite <- Hq].
    destruct Hset as [Hd0 _]. cbn in Hd. rewrite Hd0 in Hd. unfold dependencies in Hd.
    apply Some_inj, (f_equal snd) in Hd. by destruct Hne.
Qed.

(** Switching the sound back on restores the volume: when a visitor has set a volume,
    then turned it down to nothing, the player is muted, and unmuting sets the volume
    that was last heard, on the player and on the audio element alike. *)
Theorem sound_restored (st st1 st2 st3 : player) (v : Q) (rolls : nat -> Q)
    (H0 : (0 < v)%Q) (H1 : (v <= 1)%Q)
    (S1 : settle rolls (setVolume v st) = Some st1) (S2 : settle rolls (setVolume 0 st1) = Some st2)
    (S3 : settle rolls (toggleMute st2) = Some st3) :
  (muted st2 = true /\ (volume st2 == 0)%Q)
  /\ muted st3 = false /\ (volume st3 == v)%Q
  /\ exists e, element st3 = Some e /\ audio_muted e = false /\ (audio_volume e == v)%Q.
Proof.
  destruct (settle_setVolume _ _ _ _ (Qlt_le_weak _ _ H0) H1 S1) as (_ & _ & Hl1).
  destruct (settle_setVolume _ _ _ _ (Qle_refl 0) ltac:(discriminate) S2) as (Hv2 & Hm2 & Hl2). cbn in Hm2, Hl2.
  destruct (Qeq_bool v 0) eqn:E; [apply Qeq_bool_eq in E; rewrite E in H0; by apply Qlt_irrefl in H0|].
  assert (Qeq_bool (volume st2) 0 = true) as Hz by by apply Qeq_eq_bool.
  destruct (settle_sound _ _ _ S3) as (Hm3 & Hv3 & _ & He3).
  assert (toggleMute st2 = set_prefs (with_sound (Some (lastAudibleVolume st2)) false (prefs st2))
    (with_audio (set_sound false (lastAudibleVolume st2)) st2)) as Ht by (unfold toggleMute; by rewrite Hz, orb_true_r).
  rewrite Ht in *. split; [done|].
  assert (muted st3 = false) as Hm by by rewrite Hm3. assert (volume st3 == v)%Q as Hv.
  { rewrite Hv3. unfold volume. cbn -[Qmin Qmax]. rewrite Hl2, Hl1. by apply normalized_in_range; [apply Qlt_le_weak|]. }
  split; [done|]. split; [done|]. destruct (He3 _ eq_refl) as (e & H & Hem & Hev). exists e.
  split; [done|]. rewrite Hem, Hev, <- Hm3, <- Hv3. done.
Qed.

(** ** Witnesses *)

Definition sample_track (id : jstring) : InstanceMusicTrack := [(u "id", JStr id); (u "url", JStr (u "/m"))].
Definition sample_music : InstanceMusicConfig := {|
  enabled := true; autoplay := JBool false; defaultMuted := JBool false; defaultVolume := 1 # 2; mode := sequential;
  tracks := [sample_track (u "a"); sample_track (u "b")] |}.
Definition even_rolls (k : nat) : Q := 1 # 2.
Definition settled_or (st : player) : player := default st (settle even_rolls st).
Definition first_player : player := settled_or (mount sample_music no_prefs).
Definition second_player : player := settled_or (step even_rolls forward first_player).
Definition random_player : player := settled_or (setMode random second_player).

Lemma even_rolls_ok : rolls_ok even_rolls.
Proof. intros k. split; [by apply Qle_bool_iff|reflexivity]. Qed.

Lemma first_settles : settle even_rolls (mount sample_music no_prefs) = Some first_player.
Proof. vm_compute. reflexivity. Qed.
Lemma second_settles : settle even_rolls (step even_rolls forward first_player) = Some second_player.
Proof. vm_compute. reflexivity. Qed.
Lemma random_settles : settle even_rolls (setMode random second_player) = Some random_player.
Proof. vm_compute. reflexivity. Qed.

Lemma first_reachable : reachable first_player.
Proof.
  apply (reachable_mount sample_music no_prefs even_rolls); [|apply even_rolls_ok|exact first_settles].
  apply (bool_decide_unpack _). vm_compute. exact I.
Qed.
Lemma second_reachable : reachable second_player.
Proof. by apply (reachable_event first_player Next even_rolls even_rolls); try apply even_rolls_ok; [apply first_reachable|..|apply second_settles]. Qed.

Example music_order_well_formed_witness :
  queue second_player ≡ₚ seq 0 (length (playable second_player))
  /\ exists track, queue second_player !! position second_player = Some 1%nat /\ current second_player = Some track.
Proof.
  destruct (music_order_well_formed second_player second_reachable) as (H1 & _ & H2 & _). split; [exact H1|].
  destruct (H2 ltac:(vm_compute; reflexivity)) as (i & track & _ & _ & Hc). exists track. split; [vm_compute; reflexivity|exact Hc].
Defined.

Example music_round_plays_each_once_witness : index first_player :: [index second_player] ≡ₚ [0; 1]%nat.
Proof.
  apply (music_round_plays_each_once first_player second_player [index second_player] first_reachable);
    [vm_compute; reflexivity|vm_compute; lia| |vm_compute; reflexivity].
  apply (plays_next first_player even_rolls even_rolls); [apply even_rolls_ok|apply even_rolls_ok|exact second_settles|].
  apply plays_nil.
Defined.

Example mode_change_keeps_song_witness : index random_player = 1%nat.
Proof.
  assert (index second_player = 1%nat) as <- by (vm_compute; reflexivity).
  apply (mode_change_keeps_song second_player random_player random even_rolls second_reachable even_rolls_ok);
    [vm_compute; lia|exact random_settles].
Defined.

Example sound_restored_witness :
  let quiet := settled_or (setVolume 0 (settled_or (setVolume (7 # 10) first_player))) in
  muted quiet = true /\ (volume (settled_or (toggleMute quiet)) == 7 # 10)%Q.
Proof.
  cbn zeta. set (loud := settled_or (setVolume (7 # 10) first_player)). set (quiet := settled_or (setVolume 0 loud)).
  destruct (sound_restored first_player loud quiet (settled_or (toggleMute quiet)) (7 # 10) even_rolls) as ((H1 & _) & _ & H2 & _).
  1, 2: done.
  1, 2, 3: vm_compute; reflexivity.
  split; [exact H1|exact H2].
Defined.
