(* ===== verification/ListIndent.v ===== *)
(** * Indenting list items

    web/src/components/MemoEditor/Editor/listIndent.ts.  The document of CodeMirror is
    its list of lines, numbered from 1; a command gives the lines it rewrites, each a
    change that replaces the whole line, or nothing when the key's default applies. *)

From S2P Require Import Prelude JSString JSRegExp.

Definition marker : re := (one_of [45; 42; 43] ||| (plus digit +++ one_of [46; 41]))%re.
Definition LIST_ITEM : re := (StartOf false +++ Group 1 (star space) +++ marker +++ space)%re.
Definition ORDERED_ITEM : re :=
  (StartOf false +++ Group 1 (star space) +++ Group 2 (plus digit) +++ Group 3 (one_of [46; 41]) +++
   Group 4 (plus space) +++ Group 5 (star dot) +++ EndOf false)%re.
Definition LIST_PREFIX : re := (StartOf false +++ star space +++ marker +++ plus space)%re.

Definition leadingWhitespace (text : jstring) : nat := (length text - length (trim_start text))%nat.

(** [doc.line(n).text]. *)
Definition line_text (doc : list jstring) (n : nat) : jstring := default [] (doc !! (n - 1)%nat).

(** [selectedLineNumbers]: the selection as the line numbers of the ends of its ranges. *)
Definition selectedLineNumbers (ranges : list (nat * nat)) : list nat :=
  sort_by Nat.leb (dedup (ranges ≫= fun '(first, last) => seq first (S last - first))).

(** [previousListLines(doc, from)]: the texts, nearest first, up to a blank line. *)
Fixpoint previousListLines (doc : list jstring) (p : nat) : list jstring :=
  match p with
  | O => []
  | S p' =>
      match p' with
      | O => []
      | S _ => let text := line_text doc p' in
               if js_eqb (trim text) [] then [] else text :: previousListLines doc p'
      end
  end.

(** The captures of [ORDERED_ITEM]. *)
Record ordered := { o_indent : jstring; o_number : jstring; o_delimiter : jstring; o_spaces : jstring; o_content : jstring }.
Definition ordered_item (text : jstring) : option ordered :=
  match exec_from false ORDERED_ITEM text 0 with
  | Some m =>
      let group n := default [] (capture text m n) in
      Some {| o_indent := group 1%nat; o_number := group 2%nat; o_delimiter := group 3%nat;
              o_spaces := group 4%nat; o_content := group 5%nat |}
  | None => None
  end.

Fixpoint next_number (previous : list jstring) (indent : nat) : Z :=
  match previous with
  | [] => 1
  | prev :: rest =>
      if (leadingWhitespace prev <? indent)%nat then 1
      else if (leadingWhitespace prev =? indent)%nat then
        match ordered_item prev with Some o => nat_value (o_number o) + 1 | None => 1 end
      else next_number rest indent
  end.
Definition nextOrderedNumber (doc : list jstring) (lineNumber indent : nat) : Z :=
  next_number (previousListLines doc lineNumber) indent.

Definition spaces (n : nat) : jstring := replicate n 32.

Definition reindented (doc : list jstring) (lineNumber : nat) (text : jstring) (indent : nat) : jstring :=
  match ordered_item text with
  | Some o => spaces indent ++ string_of_int (nextOrderedNumber doc lineNumber indent) ++ o_delimiter o ++ o_spaces o ++ o_content o
  | None => spaces indent ++ slice_from text (leadingWhitespace text)
  end.

(** [LIST_ITEM.exec(text)?.[1].length]. *)
Definition item_indent (text : jstring) : option nat :=
  match exec_from false LIST_ITEM text 0 with
  | Some m => Some (length (default [] (capture text m 1)))
  | None => None
  end.
(** [LIST_PREFIX.exec(text)?.[0].length]. *)
Definition prefix_length (text : jstring) : option nat :=
  match exec_from false LIST_PREFIX text 0 with
  | Some m => Some (m_to m - m_from m)%nat
  | None => None
  end.

Fixpoint sink_target (previous : list jstring) (indent : nat) : nat :=
  match previous with
  | [] => (indent + 2)%nat
  | prev :: rest =>
      if (indent <? leadingWhitespace prev)%nat then sink_target rest indent
      else match prefix_length prev with Some n => n | None => (indent + 2)%nat end
  end.

Fixpoint sink_changes (doc : list jstring) (lines : list nat) : option (list (nat * jstring)) :=
  match lines with
  | [] => Some []
  | n :: rest =>
      let text := line_text doc n in
      match item_indent text with
      | None => None
      | Some indent =>
          let target := sink_target (previousListLines doc n) indent in
          match sink_changes doc rest with
          | None => None
          | Some changes =>
              Some (if (indent <? target)%nat then (n, reindented doc n text target) :: changes else changes)
          end
      end
  end.

(** [None]: the command returns false. *)
Definition sinkListItem (doc : list jstring) (ranges : list (nat * nat)) : option (list (nat * jstring)) :=
  match sink_changes doc (selectedLineNumbers ranges) with
  | Some [] | None => None
  | Some changes => Some changes
  end.

Fixpoint lift_target (previous : list jstring) (indent : nat) : nat :=
  match previous with
  | [] => 0
  | prev :: rest =>
      if (leadingWhitespace prev <? indent)%nat
      then match item_indent prev with Some _ => leadingWhitespace prev | None => 0%nat end
      else lift_target rest indent
  end.

Fixpoint lift_changes (doc : list jstring) (lines : list nat) : option (list (nat * jstring)) :=
  match lines with
  | [] => Some []
  | n :: rest =>
      let text := line_text doc n in
      match item_indent text with
      | None => None
      | Some O => None
      | Some indent =>
          match lift_changes doc rest with
          | None => None
          | Some changes => Some ((n, reindented doc n text (lift_target (previousListLines doc n) indent)) :: changes)
          end
      end
  end.
Definition liftListItem (doc : list jstring) (ranges : list (nat * nat)) : option (list (nat * jstring)) :=
  match lift_changes doc (selectedLineNumbers ranges) with
  | Some [] | None => None
  | Some changes => Some changes
  end.

Example sink_sample :
  sinkListItem [u "10. a"; u "11. b"; u "    - c"] [(2, 2)%nat] = Some [(2%nat, u "    1. b")].
Proof. vm_compute. reflexivity. Qed.
Example lift_sample :
  liftListItem [u "1. a"; u "   - b"; u "   2) c"] [(3, 3)%nat] = Some [(3%nat, u "2) c")].
Proof. vm_compute. reflexivity. Qed.

(** ** Lemmas *)

Lemma leadingWhitespace_app ws s :
  Forall (fun c => is_space c = true) ws -> match s with c :: _ => is_space c = false | [] => True end ->
  leadingWhitespace (ws ++ s) = length ws.
Proof. intros H Hs. unfold leadingWhitespace. rewrite trim_start_app, length_app by done. lia. Qed.

Lemma spaces_space n : Forall (fun c => is_space c = true) (spaces n).
Proof. apply Forall_replicate. done. Qed.

Lemma is_space_range c : is_space c = true -> 9 <= c <= 13 \/ c = 32 \/ 0xA0 <= c.
Proof.
  unfold is_space. rewrite !orb_true_iff, !andb_true_iff, !Z.eqb_eq, !Z.leb_le. lia.
Qed.

Lemma marker_not_space c : is_digit c = true \/ c = 45 \/ c = 42 \/ c = 43 -> is_space c = false.
Proof.
  intros H. apply not_true_iff_false. intros Hs%is_space_range. unfold is_digit in H.
  rewrite andb_true_iff, !Z.leb_le in H. lia.
Qed.

(** A text split after its white space. *)
Lemma leading_slice text i c :
  all_chars text is_space 0 i -> text !! i = Some c -> is_space c = false ->
  leadingWhitespace text = i /\ slice_from text i = trim_start text /\ length (slice text 0 i) = i.
Proof.
  intros Hall Hc Hns. apply all_chars_slice in Hall as [HF _].
  pose proof (lookup_lt_Some _ _ _ Hc) as Hlt.
  assert (length (slice text 0 i) = i) as Hl by (rewrite length_slice; lia).
  assert (text = slice text 0 i ++ slice_from text i) as E.
  { unfold slice, slice_from. rewrite drop_0, Nat.sub_0_r. by rewrite take_drop. }
  assert (match slice_from text i with d :: _ => is_space d = false | [] => True end) as Hhd.
  { unfold slice_from. rewrite (drop_S text c i Hc). done. }
  split; [|split; [|done]].
  - rewrite E at 1. rewrite leadingWhitespace_app by done. done.
  - rewrite E at 2. by rewrite trim_start_app.
Qed.

(** The marker of a list item begins with a bullet or a digit. *)
Lemma marker_start text i caps st :
  matches false text marker (i, caps) st ->
  exists c, text !! i = Some c /\ is_space c = false.
Proof.
  unfold marker. rewrite matches_alt, matches_seq.
  intros [(c & Hc & Hp & _)%matches_chars|([j caps1] & ([_ Hall] & Hlt & _)%matches_plus_chars & _)].
  - exists c. split; [done|]. apply marker_not_space. cbn in Hp. rewrite !orb_true_iff, !Z.eqb_eq in Hp. naive_solver.
  - cbn [fst] in *. destruct (Hall i) as (c & Hc & Hp); [lia|]. exists c. split; [done|]. by apply marker_not_space; left.
Qed.

Lemma item_indent_spec text i :
  item_indent text = Some i ->
  leadingWhitespace text = i /\ exists c, text !! i = Some c /\ is_space c = false.
Proof.
  unfold item_indent. destruct (exec_from false LIST_ITEM text 0) as [m|] eqn:E; [|done]. intros [= <-].
  apply exec_from_Some in E as (_ & _ & E). unfold LIST_ITEM in E. rewrite matches_seq in E.
  destruct E as (st0 & [-> H0]%matches_start & E). cbn [fst] in H0. rewrite H0, matches_seq in E.
  destruct E as (st1 & (st & Hws & ->)%matches_group & E). destruct st as [j caps].
  apply matches_star_chars in Hws as [Hws Hcaps]. cbn [fst snd] in *. subst caps.
  rewrite matches_seq in E. destruct E as ([k caps2] & Hm & Hsp).
  destruct (marker_start _ _ _ _ Hm) as (c & Hc & Hns).
  destruct (leading_slice text j c Hws Hc Hns) as (H1 & _ & H3).
  assert (m_caps m = [(1%nat, (0%nat, j))]) as Hcaps.
  { apply matches_chars in Hsp as (d & _ & _ & [= _ ->]).
    unfold marker in Hm. rewrite matches_alt, matches_seq in Hm.
    destruct Hm as [(d' & _ & _ & [= _ ->])%matches_chars|([k' caps1] & (_ & _ & Hcs)%matches_plus_chars & Hm)]; [done|].
    apply matches_chars in Hm as (d' & _ & _ & [= _ ->]). cbn in Hcs. done. }
  captures Hcaps. rewrite H3. split; [done|]. eauto.
Qed.

(** The text of an ordered item is the five captures, one after the other. *)
Lemma ordered_item_spec text o :
  ordered_item text = Some o ->
  text = o_indent o ++ o_number o ++ o_delimiter o ++ o_spaces o ++ o_content o
  /\ Forall (fun c => is_space c = true) (o_indent o)
  /\ Forall (fun c => is_digit c = true) (o_number o) /\ o_number o <> [].
Proof.
  unfold ordered_item. destruct (exec_from false ORDERED_ITEM text 0) as [m|] eqn:E; [|done]. intros [= <-].
  apply exec_from_Some in E as (_ & _ & E). pose proof (matches_bound _ _ _ _ E) as Hb. cbn [fst] in Hb.
  unfold ORDERED_ITEM in E. rewrite matches_seq in E.
  destruct E as (st0 & [-> H0]%matches_start & E). cbn [fst] in H0. rewrite H0 in *. specialize (Hb ltac:(lia)).
  rewrite matches_seq in E. destruct E as (st1 & (s1 & M1 & ->)%matches_group & E). destruct s1 as [i1 c1].
  apply matches_star_chars in M1 as [M1 E1]. cbn [fst snd] in *. subst c1.
  rewrite matches_seq in E. destruct E as (st2 & (s2 & M2 & ->)%matches_group & E). destruct s2 as [i2 c2].
  apply matches_plus_chars in M2 as (M2 & L2 & E2). cbn [fst snd] in *. subst c2.
  rewrite matches_seq in E. destruct E as (st3 & (s3 & M3 & ->)%matches_group & E). destruct s3 as [i3 c3].
  apply matches_chars in M3 as (d & Hd & _ & [= -> ->]). cbn [fst snd] in *.
  rewrite matches_seq in E. destruct E as (st4 & (s4 & M4 & ->)%matches_group & E). destruct s4 as [i4 c4].
  apply matches_plus_chars in M4 as (M4 & L4 & E4). cbn [fst snd] in *. subst c4.
  rewrite matches_seq in E. destruct E as (st5 & (s5 & M5 & ->)%matches_group & E). destruct s5 as [i5 c5].
  apply matches_star_chars in M5 as [M5 E5]. cbn [fst snd] in *. subst c5.
  apply matches_end in E as [[= Hto Hcaps] Hend]. cbn [fst] in Hend. rewrite Hto in Hb.
  assert (i5 = length text) as -> by lia.
  captures Hcaps. cbn [o_indent o_number o_delimiter o_spaces o_content].
  destruct M1 as [B1 M1'], M2 as [B2 M2'], M4 as [B4 M4'], M5 as [B5 M5'].
  split; [|split; [|split]].
  - rewrite <- (slice_app_split text (i2 + 1) i4 (length text)) by lia.
    rewrite <- (slice_app_split text i2 (i2 + 1) (length text)) by lia.
    rewrite <- (slice_app_split text i1 i2 (length text)) by lia.
    rewrite <- (slice_app_split text 0 i1 (length text)) by lia.
    by rewrite slice_full.
  - by apply all_chars_slice.
  - by apply all_chars_slice.
  - intros E. pose proof (length_slice text i1 i2) as Hl. rewrite E in Hl. cbn in Hl. lia.
Qed.

(** The same item on another level: the text after the white space is kept, only the
    number of an ordered item may change. *)
Definition same_item (text new : jstring) : Prop :=
  trim_start new = trim_start text
  \/ exists number k rest,
       trim_start text = number ++ rest /\ number <> [] /\ Forall (fun c => is_digit c = true) number
       /\ trim_start new = string_of_int k ++ rest.

Lemma next_number_pos previous indent : 1 <= next_number previous indent.
Proof.
  induction previous as [|prev rest IH]; simpl; [lia|].
  destruct (_ <? _)%nat; [lia|]. destruct (_ =? _)%nat; [|done].
  destruct (ordered_item prev) as [o|] eqn:E; [|lia].
  apply ordered_item_spec in E as (_ & _ & Hd & _). unfold nat_value.
  assert (forall l acc, 0 <= acc -> Forall (fun c => is_digit c = true) l ->
    0 <= foldl (fun acc c => acc * 10 + (c - 48)) acc l) as H.
  { induction l as [|c l IHl]; intros acc Ha Hl; [done|]. apply Forall_cons in Hl as [Hc Hl]. cbn [foldl].
    apply IHl; [|done]. unfold is_digit in Hc. bool_prop. lia. }
  specialize (H (o_number o) 0 ltac:(lia) Hd). lia.
Qed.

Lemma reindented_spec doc n text target i :
  item_indent text = Some i ->
  leadingWhitespace (reindented doc n text target) = target /\ same_item text (reindented doc n text target).
Proof.
  intros Hi. apply item_indent_spec in Hi as (Hlead & c & Hc & Hns). unfold reindented.
  destruct (ordered_item text) as [o|] eqn:E.
  - apply ordered_item_spec in E as (Ht & Hws & Hd & Hne).
    set (rest := o_delimiter o ++ o_spaces o ++ o_content o) in *.
    pose proof (next_number_pos (previousListLines doc n) target) as Hpos. fold (nextOrderedNumber doc n target) in Hpos.
    set (k := nextOrderedNumber doc n target) in *. clearbody k rest.
    destruct (string_of_nat_Z_spec k ltac:(lia)) as (_ & _ & d & ds & Hk & Hdd & _).
    assert (string_of_int k = d :: ds) as Hks.
    { unfold string_of_int. by rewrite (proj2 (Z.ltb_ge k 0)) by lia. }
    assert (match string_of_int k ++ rest with c :: _ => is_space c = false | [] => True end) as Hh.
    { rewrite Hks. cbn. apply marker_not_space. by left. }
    split.
    + rewrite leadingWhitespace_app by (done || apply spaces_space). unfold spaces. apply length_replicate.
    + right. exists (o_number o), k, rest. split; [|split; [done|split; [done|]]].
      * rewrite Ht at 1. apply trim_start_app; [done|]. destruct (o_number o) as [|x l]; [done|].
        apply Forall_cons in Hd as [Hx _]. cbn. apply marker_not_space. by left.
      * apply trim_start_app; [apply spaces_space|done].
  - assert (slice_from text (leadingWhitespace text) = trim_start text) as Hs.
    { rewrite Hlead. pose proof (trim_start_split text) as (ws & Hws & HF & Hhd).
      assert (leadingWhitespace text = length ws) as Hl.
      { rewrite Hws at 1. by apply leadingWhitespace_app. }
      rewrite <- Hlead, Hl. unfold slice_from. rewrite Hws at 1. by rewrite drop_app_length. }
    rewrite Hs. destruct (trim_start_split text) as (ws & _ & _ & Hhd). split.
    + rewrite leadingWhitespace_app by (done || apply spaces_space). unfold spaces. apply length_replicate.
    + left. apply trim_start_app; [apply spaces_space|done].
Qed.

Lemma lift_target_lt previous indent : (0 < indent)%nat -> (lift_target previous indent < indent)%nat.
Proof.
  intros H. induction previous as [|prev rest IH]; simpl; [done|].
  destruct (leadingWhitespace prev <? indent)%nat eqn:E; [|done]. bool_prop. by destruct (item_indent prev).
Qed.

(** What a key press does to a line it rewrites. *)
Definition rewrites (doc : list jstring) (deeper : bool) (change : nat * jstring) : Prop :=
  let text := line_text doc change.1 in
  same_item text change.2
  /\ (if deeper then (leadingWhitespace text < leadingWhitespace change.2)%nat
      else (leadingWhitespace change.2 < leadingWhitespace text)%nat).

Lemma sink_changes_spec doc lines :
  match sink_changes doc lines with
  | Some changes =>
      Forall (fun n => item_indent (line_text doc n) <> None) lines
      /\ fst <$> changes `sublist_of` lines /\ Forall (rewrites doc true) changes
  | None => Exists (fun n => item_indent (line_text doc n) = None) lines
  end.
Proof.
  induction lines as [|n lines IH]; cbn [sink_changes]; [split; [constructor|split; constructor]|].
  destruct (item_indent (line_text doc n)) as [i|] eqn:Ei; [|by left].
  destruct (sink_changes doc lines) as [changes|]; [|by right]. destruct IH as (H1 & H2 & H3).
  split; [constructor; [congruence|done]|].
  destruct (i <? sink_target _ i)%nat eqn:Et; bool_prop; [|split; [by constructor|done]].
  split; [by constructor|]. constructor; [|done].
  destruct (reindented_spec doc n _ (sink_target (previousListLines doc n) i) _ Ei) as [H4 H5].
  split; [done|]. cbn [fst snd]. rewrite H4. apply item_indent_spec in Ei as [-> _]. done.
Qed.

Lemma lift_changes_spec doc lines :
  match lift_changes doc lines with
  | Some changes => fst <$> changes = lines /\ Forall (rewrites doc false) changes
  | None => Exists (fun n => item_indent (line_text doc n) = None \/ item_indent (line_text doc n) = Some 0%nat) lines
  end.
Proof.
  induction lines as [|n lines IH]; cbn [lift_changes]; [split; [done|constructor]|].
  destruct (item_indent (line_text doc n)) as [[|i]|] eqn:Ei; [left; by right| |left; by left].
  destruct (lift_changes doc lines) as [changes|]; [|by right]. destruct IH as (H1 & H2).
  split; [cbn; by rewrite H1|]. constructor; [|done].
  destruct (reindented_spec doc n _ (lift_target (previousListLines doc n) (S i)) _ Ei) as [H4 H5].
  split; [done|]. cbn [fst snd]. rewrite H4. apply item_indent_spec in Ei as [-> _]. apply lift_target_lt. lia.
Qed.

(** ** Properties *)

(** Tab makes list items deeper and Shift-Tab makes them shallower, whatever the
    document and the selection: a command acts only when every selected line is a list
    item (an indented one for Shift-Tab); it rewrites selected lines only, Shift-Tab all
    of them; every rewritten line changes its level in the right direction and keeps its
    text, but for the number of an ordered item. *)
Theorem list_indent_levels (doc : list jstring) (ranges : list (nat * nat)) :
  let selected := selectedLineNumbers ranges in
  (forall changes, sinkListItem doc ranges = Some changes ->
     Forall (fun n => item_indent (line_text doc n) <> None) selected
     /\ changes <> [] /\ fst <$> changes `sublist_of` selected /\ Forall (rewrites doc true) changes)
  /\ (forall changes, liftListItem doc ranges = Some changes ->
     fst <$> changes = selected /\ Forall (rewrites doc false) changes)
  /\ (liftListItem doc ranges = None -> selected = []
      \/ Exists (fun n => item_indent (line_text doc n) = None \/ item_indent (line_text doc n) = Some 0%nat) selected).
Proof.
  intros selected. unfold sinkListItem, liftListItem. fold selected.
  pose proof (sink_changes_spec doc selected) as Hs. pose proof (lift_changes_spec doc selected) as Hl.
  split; [|split].
  - intros changes H. destruct (sink_changes doc selected) as [[|c l]|]; [done| |done]. injection H as <-.
    destruct Hs as (H1 & H2 & H3). done.
  - intros changes H. destruct (lift_changes doc selected) as [[|c l]|]; [done| |done]. by injection H as <-.
  - destruct (lift_changes doc selected) as [[|c l]|]; [|done|by right]. intros _. left. by destruct Hl as [<- _].
Qed.

(** Several ordered items sunk at once are not numbered one after the other: each new
    number is computed from the document before the change, so the siblings of a new
    sublist all become item one. *)
Theorem sunk_siblings_share_a_number :
  sinkListItem [u "1. a"; u "2. b"; u "3. c"] [(2, 3)%nat] = Some [(2%nat, u "   1. b"); (3%nat, u "   1. c")].
Proof. vm_compute. reflexivity. Qed.
