(* ===== verification/MemoFilters.v ===== *)
(** * Memo filters

    web/src/contexts/MemoFilterContext.tsx (the filters of a memo list as the [filter]
    parameter of the page's URL), web/src/hooks/useMemoFilters.ts (the filters as one
    expression of the list request), web/src/lib/cel-filter.ts, and the parts of
    web/src/lib/resource-names.ts and web/src/lib/memo-views.ts they call. *)

From S2P Require Import Prelude JSString JSDate JSON JSRegExp JSONText AuthRoutes HomeToday.

(** ** [encodeURIComponent] and [decodeURIComponent] *)

(** The units left as they are. *)
Definition uri_unreserved (c : Z) : bool := is_alnum_ascii c || existsb (Z.eqb c) [45; 95; 46; 33; 126; 42; 39; 40; 41].

Definition percent (b : Z) : jstring := [37; hex_upper (b / 16); hex_upper (b mod 16)].

(** [None]: a lone surrogate throws URIError. *)
Definition encode_point (c : Z) : option jstring :=
  if is_high_surrogate c || is_low_surrogate c then None
  else if uri_unreserved c then Some [c] else Some (utf8_code_point c ≫= percent).

Definition encodeURIComponent (s : jstring) : option jstring :=
  @concat Z <$> mapM encode_point (code_points s).

(** The byte a [%XX] stands for, and what follows. *)
Definition percent_byte (s : jstring) : option (Z * jstring) :=
  match s with
  | 37 :: a :: b :: rest =>
      match hex_digit a, hex_digit b with
      | Some x, Some y => Some (16 * x + y, rest)
      | _, _ => None
      end
  | _ => None
  end.

(** A continuation byte. *)
Definition continuation (s : jstring) : option (Z * jstring) :=
  match percent_byte s with
  | Some (b, rest) => if (0x80 <=? b) && (b <? 0xC0) then Some (b - 0x80, rest) else None
  | None => None
  end.

(** The code point that begins with byte [b], by the well-formed UTF-8 sequences. *)
Definition decode_point (b : Z) (s : jstring) : option (Z * jstring) :=
  if b <? 0x80 then Some (b, s)
  else if (0xC2 <=? b) && (b <? 0xE0) then
    match continuation s with Some (x, s1) => Some ((b - 0xC0) * 64 + x, s1) | None => None end
  else if (0xE0 <=? b) && (b <? 0xF0) then
    match continuation s with
    | Some (x, s1) =>
        match continuation s1 with
        | Some (y, s2) =>
            let c := (b - 0xE0) * 4096 + x * 64 + y in
            if (c <? 0x800) || is_high_surrogate c || is_low_surrogate c then None else Some (c, s2)
        | None => None
        end
    | None => None
    end
  else if (0xF0 <=? b) && (b <? 0xF5) then
    match continuation s with
    | Some (x, s1) =>
        match continuation s1 with
        | Some (y, s2) =>
            match continuation s2 with
            | Some (z, s3) =>
                let c := (b - 0xF0) * 262144 + x * 4096 + y * 64 + z in
                if (c <? 0x10000) || (0x10FFFF <? c) then None else Some (c, s3)
            | None => None
            end
        | None => None
        end
    | None => None
    end
  else None.

Fixpoint decode_fuel (fuel : nat) (s : jstring) : option jstring :=
  match fuel with
  | O => None
  | S fuel' =>
      match s with
      | [] => Some []
      | c :: rest =>
          if c =? 37 then
            match percent_byte s with
            | Some (b, s1) =>
                match decode_point b s1 with
                | Some (p, s2) => option_map (app (from_code_point p)) (decode_fuel fuel' s2)
                | None => None
                end
            | None => None
            end
          else option_map (cons c) (decode_fuel fuel' rest)
      end
  end.
Definition decodeURIComponent (s : jstring) : option jstring := decode_fuel (S (length s)) s.

(** ** MemoFilterContext.tsx *)

(** [factor] is whatever text the URL holds; [FilterFactor] lists the known ones. *)
Record MemoFilter := { factor : jstring; value : jstring }.
#[export] Instance memo_filter_eq_dec : EqDecision MemoFilter.
Proof. solve_decision. Defined.

Definition FilterFactor : list jstring :=
  [u "tagSearch"; u "visibility"; u "contentSearch"; u "displayTime"; u "pinned"; u "property.hasLink";
   u "property.hasTaskList"; u "property.hasCode"; u "property.hasLocation"].

Definition getMemoFilterKey (filter : MemoFilter) : jstring := factor filter ++ [58] ++ value filter.

(** One piece of the query; [None]: [decodeURIComponent] throws. *)
Definition parse_piece (filterStr : jstring) : option MemoFilter :=
  match index_of filterStr [58] 0 with
  | None => Some {| factor := filterStr; value := [] |}
  | Some separatorIndex =>
      match decodeURIComponent (slice_from filterStr (separatorIndex + 1)) with
      | Some v => Some {| factor := slice filterStr 0 separatorIndex; value := v |}
      | None => None
      end
  end.

Definition parseFilterQuery (query : option jstring) : list MemoFilter :=
  match query with
  | None | Some [] => []
  | Some q => default [] (mapM parse_piece (split_on 44 q))
  end.

Definition stringify_piece (filter : MemoFilter) : option jstring :=
  (fun v => factor filter ++ [58] ++ v) <$> encodeURIComponent (value filter).

(** [None]: [encodeURIComponent] throws. *)
Definition stringifyFilters (filters : list MemoFilter) : option jstring :=
  join [44] <$> mapM stringify_piece filters.

Definition replaceFiltersByFactor (filters : list MemoFilter) (f : jstring) (replacements : list MemoFilter) : list MemoFilter :=
  js_filter (fun filter => negb (js_eqb (factor filter) f)) filters ++ replacements.

(** ** resource-names.ts, memo-views.ts, cel-filter.ts *)

Definition userNamePrefix : jstring := u "users/".
Definition memoNamePrefix : jstring := u "memos/".

Definition buildMemoCreatorFilter (name : jstring) : option jstring :=
  match name with
  | [] => None
  | _ =>
      let normalizedName := if starts_with name userNamePrefix then name else userNamePrefix ++ name in
      Some (u "creator == " ++ quote normalizedName)
  end.

Definition extractUsernameFromName (name : jstring) : jstring :=
  if starts_with name userNamePrefix then slice_from name (length userNamePrefix) else name.

(** [Visibility], by number. *)
Definition getVisibilityName (visibility : Z) : jstring :=
  if visibility =? 0 then u "VISIBILITY_UNSPECIFIED" else if visibility =? 1 then u "PRIVATE"
  else if visibility =? 2 then u "PROTECTED" else if visibility =? 3 then u "PUBLIC"
  else if visibility =? 4 then u "SPACE" else u "PUBLIC".

Definition spaceScopedCacheKey (baseKey : jstring) (spaceName : option jstring) : jstring :=
  match spaceName with None | Some [] => baseKey | Some s => baseKey ++ [58] ++ s end.

Definition BUILTIN_TASKS_VIEW_ID : jstring := u "__built_in_tasks__".
Definition BUILTIN_TASKS_VIEW_FILTER : jstring := u "has_task_list && has_incomplete_tasks".

Definition getMemoViewId (name : jstring) : jstring :=
  match split_on 47 name with [_; _; _; id] => id | _ => name end.

Definition combineCELFilters (filters : list (option jstring)) : option jstring :=
  let conditions := omap (fun f => match f with None | Some [] => None | Some s => Some s end) filters in
  match conditions with
  | [] => None
  | _ => Some (join (u " && ") ((fun filter => [40] ++ filter ++ [41]) <$> conditions))
  end.

Inductive CollectionScope := scope_all | scope_space (name : jstring).
Definition buildCollectionScopeFilter (scope : CollectionScope) : option jstring :=
  match scope with scope_space name => Some (u "space == " ++ quote name) | scope_all => None end.

(** ** useMemoFilters.ts *)

Definition escapeFilterValue (v : jstring) : jstring := quote v.

Definition DAY_PATTERN : re :=
  (StartOf false +++ Group 1 (times 4 digit) +++ char 45 +++ Group 2 (times 2 digit) +++ char 45 +++
   Group 3 (times 2 digit) +++ EndOf false)%re.

Record BuildMemoFilterOptions := {
  creatorName : option jstring;
  currentMemoView : option jstring;
  filters : list MemoFilter;
  includePinned : bool;
  selectedMemoViewFilter : option jstring;
  visibilities : list Z;
}.

(** The host's time zone, by the operations of ECMAScript: [LocalTime] of a time value
    and [UTC] of a local one, both in milliseconds. *)
Class TimeZone := { LocalTime : Z -> Z; UTC : Z -> Z }.
Definition msPerDay : Z := 86400000.

Section Filters.
Context {zone : TimeZone}.

(** [new Date(year, month, date)]. *)
Definition new_date (year month date : Z) : Z := UTC (day_number (full_year year) month date * msPerDay).
(** The fields the local-time getters read. *)
Definition local_fields (t : Z) : local_date := date_of_day (LocalTime t / msPerDay).
(** [date.setDate(dt)]: the time within the day stays. *)
Definition set_date (t dt : Z) : Z :=
  let f := local_fields t in
  UTC (day_number (getFullYear f) (getMonth f) dt * msPerDay + LocalTime t mod msPerDay).

Definition getLocalDayTimestampRange (v : jstring) : option (Z * Z) :=
  match exec_from false DAY_PATTERN v 0 with
  | None => None
  | Some m =>
      let number n := nat_value (default [] (capture v m n)) in
      let year := number 1%nat in
      let month := number 2%nat in
      let day := number 3%nat in
      let startDate := new_date year (month - 1) day in
      let shown := local_fields startDate in
      if negb (getFullYear shown =? year) || negb (getMonth shown =? month - 1) || negb (getDate shown =? day) then None
      else
        let endDate := set_date startDate (getDate shown + 1) in
        Some (startDate / 1000, endDate / 1000)
  end.

(** The condition a filter adds. *)
Definition filter_condition (includePinned : bool) (filter : MemoFilter) : list jstring :=
  let has_factor name := js_eqb (factor filter) (u name) in
  if has_factor "contentSearch"%string then [u "content.contains(" ++ escapeFilterValue (value filter) ++ u ")"]
  else if has_factor "tagSearch"%string then [u "tag in [" ++ escapeFilterValue (value filter) ++ u "]"]
  else if has_factor "pinned"%string then (if includePinned then [u "pinned"] else [])
  else if has_factor "property.hasLink"%string then [u "has_link"]
  else if has_factor "property.hasTaskList"%string then [u "has_task_list"]
  else if has_factor "property.hasCode"%string then [u "has_code"]
  else if has_factor "property.hasLocation"%string then [u "has_location"]
  else if has_factor "displayTime"%string then
    match getLocalDayTimestampRange (value filter) with
    | Some (startTimestamp, endTimestamp) =>
        [u "created_ts >= timestamp(" ++ string_of_int startTimestamp ++ u ") && created_ts < timestamp("
         ++ string_of_int endTimestamp ++ u ")"]
    | None => []
    end
  else [].

Definition view_condition (o : BuildMemoFilterOptions) : list jstring :=
  if bool_decide (currentMemoView o = Some BUILTIN_TASKS_VIEW_ID) then [BUILTIN_TASKS_VIEW_FILTER]
  else option_list (nonempty (selectedMemoViewFilter o)).

Definition conditions (o : BuildMemoFilterOptions) : list jstring :=
  option_list (nonempty (creatorName o) ≫= buildMemoCreatorFilter)
  ++ view_condition o
  ++ (filters o ≫= filter_condition (includePinned o))
  ++ match visibilities o with
     | [] => []
     | vs => [u "visibility in [" ++ join (u ", ") ((fun v => [34] ++ getVisibilityName v ++ [34]) <$> vs) ++ u "]"]
     end.

Definition buildMemoFilter (o : BuildMemoFilterOptions) : option jstring :=
  match conditions o with [] => None | cs => Some (join (u " && ") cs) end.

(** The filter of the selected view, as [useMemoFilters] looks it up. *)
Definition selected_view_filter (includeMemoViews : bool) (memoView : option jstring) (memoViews : list (jstring * jstring))
    : option jstring :=
  if negb includeMemoViews || bool_decide (memoView = Some BUILTIN_TASKS_VIEW_ID) then None
  else snd <$> js_find (fun v => bool_decide (Some (getMemoViewId (fst v)) = memoView)) memoViews.

Definition useMemoFilters (creator : option jstring) (includeMemoViews pinned : bool)
    (vs : list Z) (memoViews : list (jstring * jstring)) (fs : list MemoFilter) (memoView : option jstring) : option jstring :=
  buildMemoFilter
    {| creatorName := creator; currentMemoView := if includeMemoViews then memoView else None; filters := fs;
       includePinned := pinned; selectedMemoViewFilter := selected_view_filter includeMemoViews memoView memoViews;
       visibilities := vs |}.

End Filters.

(** ** Lemmas: the URL *)

(** A string without lone surrogates. *)
Definition well_formed (s : jstring) : Prop :=
  units s /\ Forall (fun c => is_high_surrogate c || is_low_surrogate c = false) (code_points s).

Lemma hex_upper_value v : 0 <= v < 16 -> hex_digit (hex_upper v) = Some v.
Proof.
  intros Hv. assert (forallb (fun n => bool_decide (hex_digit (hex_upper (Z.of_nat n)) = Some (Z.of_nat n))) (seq 0 16) = true)
    as H by (vm_compute; reflexivity).
  rewrite forallb_forall in H. specialize (H (Z.to_nat v)). rewrite Z2Nat.id in H by lia.
  eapply bool_decide_eq_true_1, H. apply in_seq. lia.
Qed.

Lemma percent_byte_percent b rest : 0 <= b < 256 -> percent_byte (percent b ++ rest) = Some (b, rest).
Proof.
  intros Hb. unfold percent, percent_byte. cbn [app].
  rewrite !hex_upper_value by (Z.div_mod_to_equations; lia). do 2 f_equal.
  rewrite (Z.div_mod b 16) at 3 by lia. lia.
Qed.

Lemma continuation_percent x rest : 0 <= x < 64 -> continuation (percent (0x80 + x) ++ rest) = Some (x, rest).
Proof.
  intros Hx. unfold continuation. rewrite percent_byte_percent by lia.
  rewrite (proj2 (Z.leb_le _ _)), (proj2 (Z.ltb_lt _ _)) by lia. cbn [andb]. do 2 f_equal. lia.
Qed.

(** The bytes of a code point read back as the code point. *)
Lemma decode_point_utf8 c rest :
  0 <= c < 0x110000 -> is_high_surrogate c || is_low_surrogate c = false ->
  exists b tail, (utf8_code_point c ≫= percent) ++ rest = percent b ++ tail /\ 0 <= b < 256
    /\ decode_point b tail = Some (c, rest).
Proof.
  intros Hc Hs. unfold utf8_code_point. rewrite Hs. apply orb_false_iff in Hs as [Hh Hl].
  destruct (c <? 0x80) eqn:E1; [|destruct (c <? 0x800) eqn:E2; [|destruct (c <? 0x10000) eqn:E3]]; bool_prop;
    cbn [mbind list_bind]; rewrite ?app_nil_r, <- ?app_assoc.
  - exists c, rest. split; [done|]. split; [lia|]. unfold decode_point. by rewrite (proj2 (Z.ltb_lt _ _)).
  - exists (0xC0 + c / 64), (percent (0x80 + c mod 64) ++ rest).
    split; [done|]. assert (2 <= c / 64 < 32) by (Z.div_mod_to_equations; lia). split; [lia|].
    unfold decode_point. rewrite (proj2 (Z.ltb_ge _ 0x80)) by lia.
    rewrite (proj2 (Z.leb_le 0xC2 _)), (proj2 (Z.ltb_lt _ 0xE0)) by lia. cbn [andb].
    rewrite continuation_percent by (Z.div_mod_to_equations; lia). do 2 f_equal.
    rewrite (Z.div_mod c 64) at 3 by lia. lia.
  - exists (0xE0 + c / 4096), (percent (0x80 + (c / 64) mod 64) ++ percent (0x80 + c mod 64) ++ rest).
    split; [done|]. assert (0 <= c / 4096 < 16) by (Z.div_mod_to_equations; lia). split; [lia|].
    unfold decode_point. rewrite (proj2 (Z.ltb_ge _ 0x80)) by lia.
    rewrite (proj2 (Z.ltb_ge _ 0xE0)) by lia. rewrite andb_false_r.
    rewrite (proj2 (Z.leb_le 0xE0 _)), (proj2 (Z.ltb_lt _ 0xF0)) by lia. cbn [andb].
    rewrite !continuation_percent by (Z.div_mod_to_equations; lia).
    assert ((0xE0 + c / 4096 - 0xE0) * 4096 + (c / 64) mod 64 * 64 + c mod 64 = c) as ->
      by (Z.div_mod_to_equations; lia).
    rewrite (proj2 (Z.ltb_ge c 0x800)) by lia. cbn [orb]. by rewrite Hh, Hl.
  - exists (0xF0 + c / 262144),
      (percent (0x80 + (c / 4096) mod 64) ++ percent (0x80 + (c / 64) mod 64) ++ percent (0x80 + c mod 64) ++ rest).
    split; [done|]. assert (0 <= c / 262144 < 5) by (Z.div_mod_to_equations; lia). split; [lia|].
    unfold decode_point. rewrite (proj2 (Z.ltb_ge _ 0x80)) by lia.
    rewrite (proj2 (Z.ltb_ge _ 0xE0)) by lia. rewrite andb_false_r.
    rewrite (proj2 (Z.ltb_ge _ 0xF0)) by lia. rewrite andb_false_r.
    rewrite (proj2 (Z.leb_le 0xF0 _)), (proj2 (Z.ltb_lt _ 0xF5)) by lia. cbn [andb].
    rewrite !continuation_percent by (Z.div_mod_to_equations; lia).
    assert ((0xF0 + c / 262144 - 0xF0) * 262144 + (c / 4096) mod 64 * 4096 + (c / 64) mod 64 * 64 + c mod 64 = c) as ->
      by (Z.div_mod_to_equations; lia).
    rewrite (proj2 (Z.ltb_ge c 0x10000)), (proj2 (Z.ltb_ge 0x10FFFF c)) by lia. done.
Qed.

Lemma from_code_points s : units s -> utf16 (code_points s) = s.
Proof.
  assert (forall n (l : jstring), (length l <= n)%nat -> units l -> utf16 (code_points l) = l) as H; [|intros; by eapply H].
  assert (forall c, 0 <= c <= 0xFFFF -> from_code_point c = [c]) as Hone.
  { intros c Hc. unfold from_code_point. by rewrite (proj2 (Z.leb_le _ _)) by lia. }
  induction n as [|n IH]; intros l Hl Hu; [by destruct l; [|simpl in Hl; lia]|].
  destruct l as [|c l]; [done|]. apply Forall_cons in Hu as [Hc Hu]. simpl in Hl.
  destruct l as [|d l]; [cbn; by rewrite Hone|]. cbn [code_points].
  destruct (is_high_surrogate c && is_low_surrogate d) eqn:E.
  - apply Forall_cons in Hu as [Hd Hu]. simpl in Hl. unfold is_high_surrogate, is_low_surrogate in E. bool_prop.
    unfold utf16. cbn [mbind list_bind]. change (code_points l ≫= from_code_point) with (utf16 (code_points l)).
    rewrite IH by (done || lia). unfold from_code_point.
    rewrite (proj2 (Z.leb_gt _ _)) by lia. cbn [app]. f_equal; [|f_equal]; Z.div_mod_to_equations; lia.
  - unfold utf16. cbn [mbind list_bind]. rewrite Hone by done. cbn [app]. f_equal.
    apply (IH (d :: l)); [simpl; simpl in Hl; lia|done].
Qed.

(** What [encodeURIComponent] writes: reserved units do not occur. *)
Definition uri_unit (c : Z) : bool := uri_unreserved c || (c =? 37).

Lemma percent_units b : 0 <= b < 256 -> Forall (fun c => uri_unit c = true) (percent b).
Proof.
  intros Hb. unfold percent. repeat constructor; unfold uri_unit, uri_unreserved;
    rewrite hex_upper_alnum by (Z.div_mod_to_equations; lia); done.
Qed.

Definition well_formed_point (c : Z) : Prop := 0 <= c < 0x110000 /\ is_high_surrogate c || is_low_surrogate c = false.

Lemma well_formed_points s : well_formed s -> Forall well_formed_point (code_points s).
Proof.
  intros [Hu Hs]. pose proof (code_points_range s Hu) as Hr.
  apply Forall_forall. intros c Hc. rewrite Forall_forall in Hr, Hs. split; [by apply Hr|by apply Hs].
Qed.

Lemma encode_point_units c : well_formed_point c ->
  exists t, encode_point c = Some t /\ Forall (fun c => uri_unit c = true) t.
Proof.
  intros [Hc Hs]. unfold encode_point. rewrite Hs. destruct (uri_unreserved c) eqn:E.
  - exists [c]. split; [done|]. repeat constructor. unfold uri_unit. by rewrite E.
  - eexists. split; [done|]. pose proof (utf8_code_point_bytes c Hc) as Hb.
    apply Forall_forall. intros d Hd. apply list_elem_of_bind in Hd as (b & Hd & Hb').
    rewrite Forall_forall in Hb. specialize (Hb b Hb').
    pose proof (percent_units b ltac:(lia)) as Hp. rewrite Forall_forall in Hp. auto.
Qed.

Lemma percent_not_unreserved c : uri_unreserved c = true -> (c =? 37) = false.
Proof. intros H. destruct (c =? 37) eqn:E; [|done]. bool_prop. by subst. Qed.

Lemma decode_fuel_point c t rest fuel r :
  well_formed_point c -> encode_point c = Some t -> (length (t ++ rest) < S fuel)%nat ->
  (forall fuel', (length rest < fuel')%nat -> decode_fuel fuel' rest = Some r) ->
  decode_fuel (S fuel) (t ++ rest) = Some (from_code_point c ++ r).
Proof.
  intros [Hc Hs] He Hl Hr. unfold encode_point in He. rewrite Hs in He. destruct (uri_unreserved c) eqn:E.
  - injection He as <-. cbn [app decode_fuel]. rewrite percent_not_unreserved by done.
    rewrite Hr by (cbn in Hl; lia). cbn [option_map]. unfold from_code_point.
    assert (0 <= c <= 126) as Hc'.
    { unfold uri_unreserved, is_alnum_ascii, is_digit, is_upper_ascii, is_lower_ascii in E. cbn [existsb] in E.
      repeat rewrite orb_true_iff in E. rewrite ?andb_true_iff, ?Z.leb_le, ?Z.eqb_eq in E. lia. }
    by rewrite (proj2 (Z.leb_le _ _)) by lia.
  - injection He as <-. destruct (decode_point_utf8 c rest Hc Hs) as (b & tail & Hb & Hrange & Hd).
    rewrite Hb in Hl |- *. unfold percent at 1. cbn [app decode_fuel].
    change (37 =? 37) with true. cbn match.
    change (37 :: hex_upper (b / 16) :: hex_upper (b mod 16) :: tail) with (percent b ++ tail).
    rewrite percent_byte_percent, Hd by done. rewrite Hr; [done|].
    rewrite <- Hb, length_app in Hl.
    assert (1 <= length (utf8_code_point c ≫= percent))%nat; [|lia].
    destruct (utf8_code_point c) eqn:Eu; [|cbn; lia].
    unfold utf8_code_point in Eu. rewrite Hs in Eu. repeat case_match; discriminate.
Qed.

(** Encoding succeeds, stays within the unreserved units, and decodes to the points. *)
Lemma encode_points cps : Forall well_formed_point cps ->
  exists t, @concat Z <$> mapM encode_point cps = Some t /\ Forall (fun c => uri_unit c = true) t
    /\ forall fuel, (length t < fuel)%nat -> decode_fuel fuel t = Some (utf16 cps).
Proof.
  induction 1 as [|c cps Hc _ (t & Ht & Hu & Hd)].
  - exists []. split; [done|]. split; [constructor|]. intros [|fuel] Hf; [cbn in Hf; lia|done].
  - destruct (encode_point_units c Hc) as (t1 & Ht1 & Hu1). exists (t1 ++ t). split.
    + cbn [mapM]. rewrite Ht1. cbn [mbind option_bind]. destruct (mapM encode_point cps); [|done].
      cbn in Ht. injection Ht as <-. done.
    + split; [by apply Forall_app|]. intros [|fuel] Hf; [lia|].
      apply decode_fuel_point; [done..|]. exact Hd.
Qed.

Lemma encodeURIComponent_decodes s : well_formed s ->
  exists t, encodeURIComponent s = Some t /\ Forall (fun c => uri_unit c = true) t /\ decodeURIComponent t = Some s.
Proof.
  intros Hs. destruct (encode_points _ (well_formed_points s Hs)) as (t & Ht & Hu & Hd). exists t.
  split; [done|]. split; [done|]. unfold decodeURIComponent. rewrite Hd by lia. f_equal. apply from_code_points, Hs.
Qed.

(** ** Lemmas: one filter *)

Definition url_filter (f : MemoFilter) : Prop := factor f ∈ FilterFactor /\ well_formed (value f).

Lemma factor_plain f : f ∈ FilterFactor -> f <> [] /\ 58 ∉ f /\ 44 ∉ f.
Proof.
  assert (forallb (fun f => bool_decide (f <> [] /\ 58 ∉ f /\ 44 ∉ f)) FilterFactor = true) as H by (vm_compute; reflexivity).
  rewrite forallb_forall in H. intros Hf. apply list_elem_of_In in Hf. eapply bool_decide_eq_true_1, H, Hf.
Qed.

Lemma uri_units_plain t : Forall (fun c => uri_unit c = true) t -> 44 ∉ t.
Proof. intros H Hin. rewrite Forall_forall in H. specialize (H _ Hin). by vm_compute in H. Qed.

Lemma index_of_head p c rest : c ∉ p -> index_of (p ++ c :: rest) [c] 0 = Some (length p).
Proof.
  unfold index_of. rewrite drop_0. assert (forall i, c ∉ p -> index_of_aux [c] (p ++ c :: rest) i = Some (i + length p)%nat) as H.
  { induction p as [|d p IH]; intros i Hp; cbn.
    - rewrite Z.eqb_refl. cbn. f_equal. lia.
    - apply not_elem_of_cons in Hp as [Hd Hp]. rewrite (proj2 (Z.eqb_neq c d)) by congruence. cbn [andb].
      rewrite IH by done. f_equal. lia. }
  intros Hp. by rewrite H.
Qed.

Lemma parse_stringify_piece f : url_filter f ->
  exists t, stringify_piece f = Some t /\ t <> [] /\ 44 ∉ t /\ parse_piece t = Some f.
Proof.
  intros [Hf Hv]. destruct (factor_plain _ Hf) as (Hne & Hcolon & Hcomma).
  destruct (encodeURIComponent_decodes _ Hv) as (t & Ht & Hu & Hd). exists (factor f ++ [58] ++ t).
  unfold stringify_piece. rewrite Ht. split; [done|]. split; [by destruct (factor f)|]. split.
  - intros [H|H]%elem_of_app; [done|]. apply elem_of_cons in H as [H|H]; [done|]. by apply uri_units_plain in Hu.
  - unfold parse_piece. cbn [app]. rewrite index_of_head by done. unfold slice_from, slice.
    rewrite drop_app_ge by lia. replace (length (factor f) + 1 - length (factor f))%nat with 1%nat by lia.
    cbn [drop]. rewrite !drop_0, Hd, Nat.sub_0_r, take_app_length. by destruct f.
Qed.

Lemma mapM_pieces fs : Forall url_filter fs ->
  exists ts, mapM stringify_piece fs = Some ts /\ length ts = length fs
    /\ Forall (fun t => 44 ∉ t) ts /\ Forall (fun t => t <> []) ts /\ mapM parse_piece ts = Some fs.
Proof.
  induction 1 as [|f fs Hf _ (ts & H1 & H2 & H3 & H4 & H5)]; [by exists []|].
  destruct (parse_stringify_piece f Hf) as (t & Ht & Hne & Hc & Hp). exists (t :: ts). cbn [mapM].
  rewrite Ht. cbn [mbind option_bind]. rewrite H1. split; [done|]. split; [cbn; lia|]. split; [by constructor|].
  split; [by constructor|]. rewrite Hp. cbn [mbind option_bind]. by rewrite H5.
Qed.

(** C36. A list of memo filters survives the URL: what [stringifyFilters] writes into
    the [filter] parameter, [parseFilterQuery] reads back as the same filters in the
    same order, whatever commas, colons, percent signs or emoji the values hold.
    (A value with a lone surrogate is excluded: [encodeURIComponent] throws on it.) *)
Theorem filters_round_trip fs :
  Forall url_filter fs ->
  exists query, stringifyFilters fs = Some query /\ parseFilterQuery (Some query) = fs.
Proof.
  intros H. destruct (mapM_pieces fs H) as (ts & H1 & H2 & H3 & H4 & H5). exists (join [44] ts).
  unfold stringifyFilters. rewrite H1. split; [done|]. destruct ts as [|t ts]; [by destruct fs|].
  apply Forall_cons in H4 as [Hne _].
  assert (split_on 44 (join [44] (t :: ts)) = t :: ts) as Hsplit by (by apply split_on_join).
  unfold parseFilterQuery. destruct (join [44] (t :: ts)) as [|c q] eqn:E.
  - destruct t as [|c t]; [done|]. destruct ts; discriminate.
  - rewrite Hsplit, H5. done.
Qed.

Lemma filters_round_trip_witness :
  exists query, stringifyFilters [{| factor := u "tagSearch"; value := u "a,b:c%" |}; {| factor := u "pinned"; value := [0xD83D; 0xDE00] |}]
    = Some query
  /\ parseFilterQuery (Some query)
     = [{| factor := u "tagSearch"; value := u "a,b:c%" |}; {| factor := u "pinned"; value := [0xD83D; 0xDE00] |}].
Proof.
  apply filters_round_trip.
  repeat (apply Forall_cons_2; [split; [cbv [factor]; repeat constructor|split;
    [check_units|repeat (apply Forall_cons_2; [vm_compute; reflexivity|]); apply Forall_nil_2]]|]).
  apply Forall_nil_2.
Defined.

(** ** Lemmas: the day of a [displayTime] filter *)

(** A date as the calendar writes it: four digits of the year, two of the month, two
    of the day. *)
Definition day_text (d : local_date) : jstring :=
  pad_start 4 48 (string_of_int (getFullYear d)) ++ [45] ++ pad (getMonth d + 1) ++ [45] ++ pad (getDate d).

Lemma pad_four v : 0 <= v < 10000 ->
  pad_start 4 48 (string_of_int v) = [48 + v / 1000; 48 + v / 100 mod 10; 48 + v / 10 mod 10; 48 + v mod 10].
Proof.
  intros Hv. unfold string_of_int. rewrite (proj2 (Z.ltb_ge v 0)) by lia.
  rewrite (string_of_nat_Z_fuel 4) by (cbn; lia). cbn [digits_fuel]. rewrite !Z.div_div by lia.
  change (10 * 10) with 100. change (100 * 10) with 1000.
  destruct (v <? 10) eqn:E1; bool_prop; [|destruct (v / 10 <? 10) eqn:E2; bool_prop;
    [|destruct (v / 100 <? 10) eqn:E3; bool_prop; [|rewrite (proj2 (Z.ltb_lt (v / 1000) 10)) by (Z.div_mod_to_equations; lia)]]];
    unfold pad_start; cbn [length Nat.sub replicate app];
    repeat (f_equal; [Z.div_mod_to_equations; lia|]); repeat f_equal; Z.div_mod_to_equations; lia.
Qed.

Lemma digit_value v : 0 <= v < 10 -> is_digit (48 + v) = true.
Proof. intros Hv. unfold is_digit. apply andb_true_iff. rewrite !Z.leb_le. lia. Qed.

Lemma digit_bounds c : is_digit c = true -> 0 <= c - 48 < 10.
Proof. unfold is_digit. intros H. bool_prop. lia. Qed.

(** The pattern accepts exactly four, two and two digits. *)
Lemma day_pattern_digits a b c d e f g h :
  Forall (fun x => is_digit x = true) [a; b; c; d; e; f; g; h] ->
  exec_from false DAY_PATTERN [a; b; c; d; 45; e; f; 45; g; h] 0
  = Some {| m_from := 0; m_to := 10; m_caps := [(3, (8, 10)); (2, (5, 7)); (1, (0, 4))]%nat |}.
Proof.
  intros H. repeat (apply Forall_cons in H as [?E H]). clear H.
  unfold exec_from. cbn [exec_fuel length Nat.sub]. unfold match_at, DAY_PATTERN, char, digit, times.
  cbn -[is_digit]. rewrite E. cbn -[is_digit]. rewrite E0. cbn -[is_digit]. rewrite E1. cbn -[is_digit].
  rewrite E2. cbn -[is_digit]. rewrite E3. cbn -[is_digit]. rewrite E4. cbn -[is_digit]. rewrite E5. cbn -[is_digit].
  rewrite E6. reflexivity.
Qed.

Lemma day_pattern_spec v m :
  exec_from false DAY_PATTERN v 0 = Some m ->
  exists a b c d e f g h,
    v = [a; b; c; d; 45; e; f; 45; g; h] /\ Forall (fun x => is_digit x = true) [a; b; c; d; e; f; g; h].
Proof.
  intros E. apply exec_from_Some in E as (_ & _ & E). pose proof (matches_bound _ _ _ _ E) as Hb. cbn [fst] in Hb.
  unfold DAY_PATTERN in E. rewrite matches_seq in E.
  destruct E as (st0 & [-> H0]%matches_start & E). cbn [fst] in H0. rewrite H0 in *. specialize (Hb ltac:(lia)).
  rewrite matches_seq in E. destruct E as (st1 & ([i1 c1] & (M1 & E1 & ?)%matches_times_chars & ->)%matches_group & E).
  rewrite matches_seq in E. destruct E as (st2 & (x & Hx & Ex & ->)%matches_chars & E). cbn [fst snd] in *.
  rewrite matches_seq in E. destruct E as (st3 & ([i3 c3] & (M3 & E3 & ?)%matches_times_chars & ->)%matches_group & E).
  rewrite matches_seq in E. destruct E as (st4 & (y & Hy & Ey & ->)%matches_chars & E). cbn [fst snd] in *.
  rewrite matches_seq in E. destruct E as (st5 & ([i5 c5] & (M5 & E5 & ?)%matches_times_chars & ->)%matches_group & E).
  apply matches_end in E as [[= Hto _] Hend]. cbn [fst] in *. subst.
  assert (length v = 10%nat) as Hlen by lia. apply Z.eqb_eq in Ex, Ey. subst.
  do 10 (destruct v as [|? v]; [discriminate|]). destruct v; [|discriminate]. cbn in Hx, Hy. simplify_eq.
  destruct M1 as [_ M1], M3 as [_ M3], M5 as [_ M5]. do 8 eexists. split; [done|].
  repeat first [apply Forall_nil_2 | apply Forall_cons_2].
  all: first
    [ destruct (M1 0%nat ltac:(lia)) as (? & [= <-] & ?); done | destruct (M1 1%nat ltac:(lia)) as (? & [= <-] & ?); done
    | destruct (M1 2%nat ltac:(lia)) as (? & [= <-] & ?); done | destruct (M1 3%nat ltac:(lia)) as (? & [= <-] & ?); done
    | destruct (M3 5%nat ltac:(lia)) as (? & [= <-] & ?); done | destruct (M3 6%nat ltac:(lia)) as (? & [= <-] & ?); done
    | destruct (M5 8%nat ltac:(lia)) as (? & [= <-] & ?); done | destruct (M5 9%nat ltac:(lia)) as (? & [= <-] & ?); done ].
Qed.

Section DayRange.
Context `{zone : TimeZone}.

Definition two_digits (a b : Z) : Z := 10 * (a - 48) + (b - 48).
Definition four_digits (a b c d : Z) : Z := 1000 * (a - 48) + 100 * (b - 48) + two_digits c d.

Lemma range_digits a b c d e f g h :
  Forall (fun x => is_digit x = true) [a; b; c; d; e; f; g; h] ->
  getLocalDayTimestampRange [a; b; c; d; 45; e; f; 45; g; h]
  = let y := four_digits a b c d in
    let mo := two_digits e f in
    let da := two_digits g h in
    let start := new_date y (mo - 1) da in
    if bool_decide (local_fields start = LocalDate y (mo - 1) da)
    then Some (start / 1000, set_date start (da + 1) / 1000) else None.
Proof.
  intros H. unfold getLocalDayTimestampRange. rewrite day_pattern_digits by done. rewrite !capture_cap_of.
  cbn [m_caps cap_of Nat.eqb fmap option_fmap option_map fst snd default from_option]. unfold id.
  change (nat_value (slice [a; b; c; d; 45; e; f; 45; g; h] 0 4)) with ((((0 * 10 + (a - 48)) * 10 + (b - 48)) * 10 + (c - 48)) * 10 + (d - 48)).
  change (nat_value (slice [a; b; c; d; 45; e; f; 45; g; h] 5 7)) with ((0 * 10 + (e - 48)) * 10 + (f - 48)).
  change (nat_value (slice [a; b; c; d; 45; e; f; 45; g; h] 8 10)) with ((0 * 10 + (g - 48)) * 10 + (h - 48)).
  replace ((((0 * 10 + (a - 48)) * 10 + (b - 48)) * 10 + (c - 48)) * 10 + (d - 48)) with (four_digits a b c d)
    by (unfold four_digits, two_digits; lia).
  replace ((0 * 10 + (e - 48)) * 10 + (f - 48)) with (two_digits e f) by (unfold two_digits; lia).
  replace ((0 * 10 + (g - 48)) * 10 + (h - 48)) with (two_digits g h) by (unfold two_digits; lia).
  cbv zeta. generalize (new_date (four_digits a b c d) (two_digits e f - 1) (two_digits g h)) as start.
  generalize (four_digits a b c d) as y, (two_digits e f) as mo, (two_digits g h) as da. intros y mo da start.
  destruct (local_fields start) as [y' m' d']. cbn [getFullYear getMonth getDate].
  case_bool_decide as Hd.
  - injection Hd as -> -> ->. by rewrite !Z.eqb_refl.
  - destruct (y' =? y) eqn:?, (m' =? mo - 1) eqn:?, (d' =? da) eqn:?; cbn [negb orb]; try done. bool_prop. congruence.
Qed.

(** A midnight of the clock exists, and reads as itself. *)
Context (midnights : forall n, LocalTime (UTC (n * msPerDay)) = n * msPerDay).

Lemma midnight_fields n : local_fields (UTC (n * msPerDay)) = date_of_day n.
Proof. unfold local_fields. rewrite midnights, Z.div_mul by done. done. Qed.

(** The days the calendar writes. *)
Definition calendar_day (d : local_date) : Prop := valid_date d /\ 100 <= getFullYear d <= 9999.

Lemma days_in_month_two y m : days_in_month y m < 100.
Proof. unfold days_in_month. repeat case_match; lia. Qed.

Lemma day_text_digits d : calendar_day d ->
  exists c1 c2 c3 c4 c5 c6 c7 c8,
    day_text d = [c1; c2; c3; c4; 45; c5; c6; 45; c7; c8]
    /\ Forall (fun x => is_digit x = true) [c1; c2; c3; c4; c5; c6; c7; c8]
    /\ four_digits c1 c2 c3 c4 = getFullYear d /\ two_digits c5 c6 = getMonth d + 1 /\ two_digits c7 c8 = getDate d.
Proof.
  destruct d as [y m da]. intros [[Hm Hd] Hy]. cbn [getFullYear getMonth getDate] in *.
  pose proof (days_in_month_two y m). unfold day_text. cbn [getFullYear getMonth getDate].
  rewrite pad_four, !pad_two by lia. do 8 eexists. split; [done|]. split.
  - repeat (apply Forall_cons_2; [apply digit_value; Z.div_mod_to_equations; lia|]). apply Forall_nil_2.
  - unfold four_digits, two_digits. split; [|split]; Z.div_mod_to_equations; lia.
Qed.

Lemma digits_day_text c1 c2 c3 c4 c5 c6 c7 c8 :
  Forall (fun x => is_digit x = true) [c1; c2; c3; c4; c5; c6; c7; c8] ->
  [c1; c2; c3; c4; 45; c5; c6; 45; c7; c8]
  = day_text (LocalDate (four_digits c1 c2 c3 c4) (two_digits c5 c6 - 1) (two_digits c7 c8))
  /\ 0 <= four_digits c1 c2 c3 c4 <= 9999.
Proof.
  intros H. repeat (apply Forall_cons in H as [?%digit_bounds H]). clear H. unfold day_text. cbn [getFullYear getMonth getDate].
  unfold four_digits, two_digits. split; [|lia]. rewrite pad_four, !pad_two by lia. cbn [app].
  repeat (f_equal; [Z.div_mod_to_equations; lia|]). repeat f_equal; Z.div_mod_to_equations; lia.
Qed.

(** [new Date(year, month, date)] is midnight of a day of the calendar, and
    [setDate(getDate() + 1)] moves it to the next one. *)
Lemma calendar_midnights d : calendar_day d ->
  new_date (getFullYear d) (getMonth d) (getDate d) = UTC (day_of d * msPerDay)
  /\ set_date (UTC (day_of d * msPerDay)) (getDate d + 1) = UTC ((day_of d + 1) * msPerDay).
Proof.
  intros [Hd Hy]. assert (full_year (getFullYear d) = getFullYear d) as Hf.
  { unfold full_year. rewrite (proj2 (Z.leb_gt (getFullYear d) 99)) by lia. by rewrite andb_false_r. }
  split; [unfold new_date; by rewrite Hf|]. unfold set_date. rewrite midnight_fields. cbv zeta.
  unfold day_of. rewrite date_of_day_inv by done. rewrite midnights, Z.mod_mul by done. f_equal.
  destruct Hd as [Hm Hdd]. rewrite !day_number_date by done. lia.
Qed.

(** A date shown as it was asked for is in the calendar. *)
Lemma shown_as_asked y m da :
  0 <= y <= 9999 -> local_fields (new_date y m da) = LocalDate y m da -> calendar_day (LocalDate y m da).
Proof.
  intros Hy H. unfold new_date in H. rewrite midnight_fields in H.
  pose proof (date_of_day_valid (day_number (full_year y) m da)) as Hv.
  pose proof (date_of_day_number (day_number (full_year y) m da)) as Hn. rewrite H in Hv, Hn.
  split; [done|]. cbn [getFullYear getMonth getDate] in *. destruct Hv as [Hm Hd]. cbn in Hm, Hd.
  rewrite !day_number_date in Hn by done. unfold full_year in Hn.
  destruct ((0 <=? y) && (y <=? 99)) eqn:E; bool_prop; [exfalso|lia].
  pose proof (month_start_bounds y m da Hm Hd). pose proof (day_from_year_mono y (1900 + y) ltac:(lia)).
  unfold month_start in *. pose proof (day_from_year_next y (1900 + y) ltac:(lia)).
  destruct (is_leap y), (is_leap (1900 + y)), (2 <=? m); cbn [andb] in *; lia.
Qed.

(** The day filter of the calendar is one whole local day.  [getLocalDayTimestampRange]
    accepts a value exactly when it spells a day of the calendar with a year of four
    digits from 100 on (month 13, 30 February, 29 February of a common year, a missing
    zero and, since [new Date] reads them as 19xx, the years 0000 to 0099 are
    refused), and the range it gives runs from that day's midnight up to the next
    one's, in whole seconds. *)
Theorem displayTime_day_range v a b :
  getLocalDayTimestampRange v = Some (a, b) <->
  exists d, valid_date d /\ 100 <= getFullYear d <= 9999 /\ v = day_text d
    /\ a = UTC (day_of d * msPerDay) / 1000 /\ b = UTC ((day_of d + 1) * msPerDay) / 1000.
Proof.
  split.
  - intros H. destruct (exec_from false DAY_PATTERN v 0) as [m|] eqn:E;
      [|unfold getLocalDayTimestampRange in H; by rewrite E in H].
    apply day_pattern_spec in E as (c1 & c2 & c3 & c4 & c5 & c6 & c7 & c8 & -> & Hd).
    rewrite range_digits in H by done. cbv zeta in H. case_bool_decide as Hs; [|done].
    destruct (digits_day_text _ _ _ _ _ _ _ _ Hd) as [Ht Hy]. apply shown_as_asked in Hs; [|done].
    destruct (calendar_midnights _ Hs) as [H1 H2]. rewrite Ht. eexists. destruct Hs as [Hv Hr].
    split; [exact Hv|]. split; [exact Hr|]. split; [done|]. cbn [getFullYear getMonth getDate] in *.
    rewrite H1, H2 in H. by injection H as <- <-.
  - intros (d & Hd & Hy & -> & -> & ->). assert (calendar_day d) as Hc by done.
    destruct (day_text_digits d Hc) as (c1 & c2 & c3 & c4 & c5 & c6 & c7 & c8 & -> & Hdig & E1 & E2 & E3).
    destruct (calendar_midnights d Hc) as [H1 H2]. rewrite range_digits by done. cbv zeta. rewrite E1, E2, E3.
    replace (getMonth d + 1 - 1) with (getMonth d) by lia. rewrite H1, H2, midnight_fields.
    assert (date_of_day (day_of d) = d) as -> by (by apply date_of_day_inv). rewrite bool_decide_eq_true_2; [done|by destruct d].
Qed.
End DayRange.

Definition utc_zone : TimeZone := {| LocalTime := fun t => t; UTC := fun t => t |}.

Lemma displayTime_day_range_witness :
  exists d, valid_date d /\ 100 <= getFullYear d <= 9999 /\ u "2024-02-29" = day_text d
    /\ 1709164800 = UTC (TimeZone := utc_zone) (day_of d * msPerDay) / 1000
    /\ 1709251200 = UTC (TimeZone := utc_zone) ((day_of d + 1) * msPerDay) / 1000.
Proof.
  apply (displayTime_day_range (zone := utc_zone)); [intros n; reflexivity|vm_compute; reflexivity].
Defined.

(** ** The expression *)

Section Expression.
Context `{zone : TimeZone}.

(** What the reader searches for cannot leave its string literal.  A text or tag
    search puts the value between two quotes so that reading the literal from the
    opening quote ends at the closing one, with exactly the value read and exactly
    the rest of the condition left, whatever quotes, backslashes or operators the
    value holds. *)
Theorem search_value_stays_literal pinned v :
  units v ->
  (exists body, filter_condition pinned {| factor := u "contentSearch"; value := v |}
     = [u "content.contains(" ++ 34 :: body ++ 34 :: u ")"]
     /\ parse_chars (body ++ 34 :: u ")") = Some (v, u ")"))
  /\ exists body, filter_condition pinned {| factor := u "tagSearch"; value := v |}
     = [u "tag in [" ++ 34 :: body ++ 34 :: u "]"]
     /\ parse_chars (body ++ 34 :: u "]") = Some (v, u "]").
Proof.
  intros Hv. split; exists (quote_chars v); (split; [|by apply parse_quote_chars]).
  - change (filter_condition pinned {| factor := u "contentSearch"; value := v |})
      with [u "content.contains(" ++ ([34] ++ quote_chars v ++ [34]) ++ u ")"].
    by rewrite <- !app_assoc.
  - change (filter_condition pinned {| factor := u "tagSearch"; value := v |})
      with [u "tag in [" ++ ([34] ++ quote_chars v ++ [34]) ++ u "]"].
    by rewrite <- !app_assoc.
Qed.

(** An expression of the filter language without parentheses: names joined with [&&]
    and [||], of which [&&] binds tighter. *)
Fixpoint flat_eval (env : jstring -> bool) (cur : bool) (tokens : list jstring) : bool :=
  match tokens with
  | op :: name :: rest =>
      if js_eqb op (u "&&") then flat_eval env (cur && env name) rest else cur || flat_eval env (env name) rest
  | _ => cur
  end.
Definition flat_holds (env : jstring -> bool) (expression : jstring) : bool :=
  match split_on 32 expression with name :: rest => flat_eval env (env name) rest | [] => true end.

(** A view's filter is joined to the other filters without parentheses, so a view
    whose filter is an alternative is not narrowed by them: with the view
    ["pinned || has_code"] selected and the filter "has link" added, a pinned memo
    without a link is in the list.  [combineCELFilters] writes the parentheses. *)
Theorem view_filter_is_not_narrowed name :
  exists built,
    buildMemoFilter {| creatorName := None; currentMemoView := Some name;
                       filters := [{| factor := u "property.hasLink"; value := [] |}]; includePinned := true;
                       selectedMemoViewFilter := Some (u "pinned || has_code"); visibilities := [] |}
    = (if bool_decide (name = BUILTIN_TASKS_VIEW_ID) then Some (u "has_task_list && has_incomplete_tasks && has_link")
       else Some built)
    /\ (forall env, flat_holds env built = env (u "pinned") || (env (u "has_code") && env (u "has_link")))
    /\ combineCELFilters [Some (u "pinned || has_code"); Some (u "has_link")] = Some (u "(pinned || has_code) && (has_link)").
Proof.
  exists (u "pinned || has_code && has_link"). split; [|split].
  - unfold buildMemoFilter, conditions, view_condition. cbn [currentMemoView].
    destruct (decide (name = BUILTIN_TASKS_VIEW_ID)) as [->|Hne]; [vm_compute; reflexivity|].
    rewrite !bool_decide_eq_false_2 by congruence. vm_compute. reflexivity.
  - intros env. reflexivity.
  - vm_compute. reflexivity.
Qed.
End Expression.

Lemma search_value_stays_literal_witness (zone := utc_zone) :
  units (u "a\b") /\
  (exists body, filter_condition true {| factor := u "contentSearch"; value := u "a\b" |}
     = [u "content.contains(" ++ 34 :: body ++ 34 :: u ")"]
     /\ parse_chars (body ++ 34 :: u ")") = Some (u "a\b", u ")"))
  /\ exists body, filter_condition true {| factor := u "tagSearch"; value := u "a\b" |}
     = [u "tag in [" ++ 34 :: body ++ 34 :: u "]"]
     /\ parse_chars (body ++ 34 :: u "]") = Some (u "a\b", u "]").
Proof. split; [check_units|]. apply search_value_stays_literal. check_units. Defined.
