(* ===== verification/BlogProgress.v ===== *)
(** * A visitor's progress through the blog

    web/src/utils/blog-progress.ts, with what components/StyledBlog/StyleReactionEngine.tsx,
    StyledBlogCard.tsx, StyleEasterEggs.tsx and PixelBoss.tsx do to it: discoveries, posts
    read, days visited, counters, and the achievements they unlock, kept in the browser. *)

From Stdlib Require Import QArith.QArith.
From S2P Require Import Prelude JSString JSDate JSON JSONText HostUnicode StyleReactions HomeToday MemoFilters.
Open Scope Z_scope.

Record read_post := { tags : list jstring; style : jstring; at_ms : Z }.
(** [reads] is an object, its keys in the order they were added. *)
Record BlogProgress := {
  discovered : list jstring; reads : list (jstring * read_post); visitDays : list jstring;
  bossKills : Z; shinies : Z; glitches : Z; konami : bool; achievements : list jstring }.
Definition EMPTY_PROGRESS : BlogProgress := {|
  discovered := []; reads := []; visitDays := []; bossKills := 0; shinies := 0; glitches := 0; konami := false; achievements := [] |}.

(** ** The stored text *)

Definition texts (l : list jstring) : json := JArr (map JStr l).
Definition number_of (n : Z) : json := JNum (inject_Z n).
Definition read_json (r : read_post) : json := JObj [(u "tags", texts (tags r)); (u "style", JStr (style r)); (u "at", number_of (at_ms r))].
Definition progress_json (p : BlogProgress) : json := JObj [
  (u "discovered", texts (discovered p)); (u "reads", JObj (map (fun e => (e.1, read_json e.2)) (reads p))); (u "visitDays", texts (visitDays p));
  (u "bossKills", number_of (bossKills p)); (u "shinies", number_of (shinies p)); (u "glitches", number_of (glitches p)); (u "konami", JBool (konami p));
  (u "achievements", texts (achievements p))].

(** The value of a field, [fallback] where the object has none; [None] for a value of another
    type, which the code takes as it is. *)
Definition field {A} (read : json -> option A) (fallback : A) (v : option json) : option A := match v with None => Some fallback | Some j => read j end.
Definition text_of_json (j : json) : option jstring := match j with JStr s => Some s | _ => None end.
Definition texts_of_json (j : json) : option (list jstring) := match j with JArr l => mapM text_of_json l | _ => None end.
Definition int_of_json (j : json) : option Z := match j with JNum (n # 1) => Some n | _ => None end.
Definition bool_of_json (j : json) : option bool := match j with JBool b => Some b | _ => None end.
Definition read_of_json (j : json) : option read_post :=
  match j with
  | JObj o => t ← texts_of_json (default JNull (prop o (u "tags"))); s ← text_of_json (default JNull (prop o (u "style")));
              a ← int_of_json (default JNull (prop o (u "at"))); Some {| tags := t; style := s; at_ms := a |}
  | _ => None
  end.
Definition reads_of_json (j : json) : option (list (jstring * read_post)) :=
  match j with JObj o => mapM (fun e => r ← read_of_json e.2; Some (e.1, r)) o | _ => None end.
(** [{ ...EMPTY_PROGRESS, ...parsed }]; what is no object adds no field the code reads. *)
Definition progress_of_json (j : json) : option BlogProgress :=
  let o := match j with JObj o => o | _ => [] end in
  d ← field texts_of_json [] (prop o (u "discovered")); r ← field reads_of_json [] (prop o (u "reads")); v ← field texts_of_json [] (prop o (u "visitDays"));
  b ← field int_of_json 0 (prop o (u "bossKills")); s ← field int_of_json 0 (prop o (u "shinies")); g ← field int_of_json 0 (prop o (u "glitches"));
  k ← field bool_of_json false (prop o (u "konami")); a ← field texts_of_json [] (prop o (u "achievements"));
  Some {| discovered := d; reads := r; visitDays := v; bossKills := b; shinies := s; glitches := g; konami := k; achievements := a |}.

(** The parsed copy of this tab, the stored item, and whether the storage can be used. *)
Record visitor := { cached : option BlogProgress; saved_item : option jstring; storage_works : bool }.
Definition load (v : visitor) : option (BlogProgress * visitor) :=
  let with_cached p := (p, {| cached := Some p; saved_item := saved_item v; storage_works := storage_works v |}) in
  match cached v with
  | Some p => Some (p, v)
  | None =>
      match (if storage_works v then saved_item v else None) with
      | None | Some [] => Some (with_cached EMPTY_PROGRESS)
      | Some raw => match JSON_parse raw with None => Some (with_cached EMPTY_PROGRESS) | Some j => with_cached <$> progress_of_json j end
      end
  end.
Definition updateProgress (change : BlogProgress -> BlogProgress) (v : visitor) : option visitor :=
  '(p, v) ← load v;
  let next := change p in
  Some {| cached := Some next; saved_item := if storage_works v then Some (stringify (progress_json next)) else saved_item v; storage_works := storage_works v |}.

(** ** What a visitor does *)

Definition with_discovered (l : list jstring) (p : BlogProgress) : BlogProgress := {|
  discovered := l; reads := reads p; visitDays := visitDays p; bossKills := bossKills p; shinies := shinies p; glitches := glitches p; konami := konami p; achievements := achievements p |}.
Definition with_achievements (l : list jstring) (p : BlogProgress) : BlogProgress := {|
  discovered := discovered p; reads := reads p; visitDays := visitDays p; bossKills := bossKills p; shinies := shinies p; glitches := glitches p; konami := konami p; achievements := l |}.

Definition discover (id : jstring) (v : visitor) : option (bool * visitor) :=
  '(p, v) ← load v;
  if bool_decide (id ∈ discovered p) then Some (false, v)
  else v' ← updateProgress (fun p => with_discovered (discovered p ++ [id]) p) v; Some (true, v').

(** ** Days and transformations *)

(** [dayjs(date).format("YYYY-MM-DD")] of a local day, counted as days are. *)
Definition format_day (day : Z) : jstring := day_text (date_of_day day).
(** The days before [cursor] that are in the set, one after the other. *)
Fixpoint streak_from (fuel : nat) (days : list jstring) (cursor : Z) : nat :=
  match fuel with
  | O => 0
  | S fuel => if bool_decide (format_day cursor ∈ days) then S (streak_from fuel days (cursor - 1)) else 0
  end.
Definition streak_start (days : list jstring) (today : Z) : Z := if bool_decide (format_day today ∈ days) then today else today - 1.
Definition currentVisitStreak (days : list jstring) (today : Z) : nat := streak_from (S (length days)) days (streak_start days today).

Section Achievements.
Context `{HostUnicode}.
(** The hour of a time, in the visitor's zone. *)
Context (getHours : Z -> Z).

Definition TRAVEL_TAGS : list jstring := [[0x65C5; 0x884C]; [0x65C5; 0x6E38]; u "travel"; u "trip"].
Definition hasTravelTag (l : list jstring) : bool := existsb (fun tag => bool_decide (to_lower tag ∈ TRAVEL_TAGS)) l.
Definition MASTERY_READS : nat := 10.
Record transformations := { traveler : bool; regular : bool; masteredStyles : list jstring }.
Definition computeTransformations (today : Z) (p : BlogProgress) : transformations :=
  let l := map snd (reads p) in {|
  traveler := (3 <=? length (js_filter (fun r => hasTravelTag (tags r)) l))%nat;
  regular := (7 <=? currentVisitStreak (visitDays p) today)%nat;
  masteredStyles := js_filter (fun s => (MASTERY_READS <=? length (js_filter (fun r => js_eqb (style r) s) l))%nat) (dedup (map style l)) |}.

Record AchievementRule := { rule_id : jstring; hidden : bool; rule_test : Z -> BlogProgress -> nat -> bool }.
Definition FLOWER_STYLES : list jstring := js_filter (fun s => negb (js_eqb s (u "golden"))) (map style_text REACTIVE_STYLES).
Definition has_colon (id : jstring) : bool := includes id (u ":").
Definition rule (id : string) (hidden : bool) (test : Z -> BlogProgress -> nat -> bool) : AchievementRule := {| rule_id := u id; hidden := hidden; rule_test := test |}.
Definition ACHIEVEMENTS : list AchievementRule := [
  rule "first-reaction" false (fun _ p _ => existsb has_colon (discovered p));
  rule "first-legend" false (fun _ _ legendary => 1 <=? legendary)%nat;
  rule "five-legends" false (fun _ _ legendary => 5 <=? legendary)%nat;
  rule "all-flowers" false (fun _ p _ => forallb (fun s => bool_decide (s ++ u ":flower" ∈ discovered p)) FLOWER_STYLES);
  rule "night-reader" false (fun _ p _ => existsb (fun e => getHours (at_ms e.2) <? 5) (reads p));
  rule "boss-slayer" false (fun _ p _ => 10 <=? bossKills p);
  rule "shiny" false (fun _ p _ => 1 <=? shinies p);
  rule "glitch" true (fun _ p _ => 1 <=? glitches p);
  rule "konami" true (fun _ p _ => konami p);
  rule "traveler" false (fun today p _ => traveler (computeTransformations today p));
  rule "regular" false (fun today p _ => regular (computeTransformations today p));
  rule "mastery" false (fun today p _ => (0 <? length (masteredStyles (computeTransformations today p)))%nat);
  rule "golden" false (fun _ _ legendary => 10 <=? legendary)%nat].

(** The effect of the engine that unlocks achievements: the ones it announces. *)
Definition legendary_count (p : BlogProgress) : nat := length (js_filter (fun r => bool_decide (lr_id r ∈ discovered p)) LEGENDARY_REACTIONS).
Definition unlocked (today : Z) (p : BlogProgress) : list jstring :=
  map rule_id (js_filter (fun r => negb (bool_decide (rule_id r ∈ achievements p)) && rule_test r today p (legendary_count p)) ACHIEVEMENTS).
Definition unlock (today : Z) (v : visitor) : option visitor :=
  '(p, v) ← load v;
  match unlocked today p with [] => Some v | l => updateProgress (fun p => with_achievements (achievements p ++ l) p) v end.


(** ** Lemmas: what is stored *)

(** Text and numbers that JSON carries. *)
Definition count_ok (n : Z) : Prop := Z.abs n <= 2 ^ 53.
Definition read_ok (e : jstring * read_post) : Prop := units e.1 /\ Forall units (tags e.2) /\ units (style e.2) /\ count_ok (at_ms e.2).
Record progress_ok (p : BlogProgress) : Prop := {
  discovered_ok : NoDup (discovered p) /\ Forall units (discovered p);
  reads_ok : NoDup (reads p).*1 /\ Forall read_ok (reads p);
  visits_ok : NoDup (visitDays p) /\ Forall units (visitDays p) /\ (length (visitDays p) <= 60)%nat;
  counters_ok : 0 <= bossKills p /\ 0 <= shinies p /\ 0 <= glitches p;
  achievements_ok : NoDup (achievements p) /\ Forall units (achievements p) }.
Definition counters_fit (p : BlogProgress) : Prop := count_ok (bossKills p) /\ count_ok (shinies p) /\ count_ok (glitches p).

Lemma printable_texts l : Forall units l -> printable (texts l).
Proof. intros Hl. cbn [texts printable]. induction Hl as [|s l Hs Hl IH]; cbn [map foldr]; [done|]. by split. Qed.
Lemma texts_back l : texts_of_json (texts l) = Some l.
Proof. cbn [texts texts_of_json]. induction l as [|s l IH]; [done|]. cbn [map mapM text_of_json mbind option_bind]. by rewrite IH. Qed.
Lemma read_back r : read_of_json (read_json r) = Some r.
Proof.
  destruct r as [t s a]. transitivity (t ← texts_of_json (texts t); Some {| tags := t; style := s; at_ms := a |}); [reflexivity|]. by rewrite texts_back.
Qed.
Lemma reads_back l : reads_of_json (JObj (map (fun e => (e.1, read_json e.2)) l)) = Some l.
Proof. cbn [reads_of_json]. induction l as [|[k r] l IH]; [done|]. cbn [map mapM fst snd mbind option_bind]. rewrite read_back. cbn [mbind option_bind]. by rewrite IH. Qed.
Lemma progress_back p : progress_of_json (progress_json p) = Some p.
Proof.
  destruct p as [d r v b s g k a].
  transitivity (d ← texts_of_json (texts d); r ← reads_of_json (JObj (map (fun e => (e.1, read_json e.2)) r)); v ← texts_of_json (texts v); a ← texts_of_json (texts a);
    Some {| discovered := d; reads := r; visitDays := v; bossKills := b; shinies := s; glitches := g; konami := k; achievements := a |}); [reflexivity|].
  by rewrite !texts_back, reads_back.
Qed.
Lemma units_key (key : string) : forallb (fun c => (0 <=? c) && (c <=? 0xFFFF)) (u key) = true -> units (u key).
Proof. apply units_check. Qed.
Lemma printable_progress p : progress_ok p -> counters_fit p -> printable (progress_json p).
Proof.
  intros [[_ Hd] [Hrk Hr] (_ & Hv & _) _ [_ Ha]] (Hb & Hs & Hg). unfold progress_json. cbn [printable]. split; [apply (bool_decide_unpack _); vm_compute; exact I|].
  cbn [foldr fst snd]. split_and!; try done; try (apply units_key; vm_compute; reflexivity); try (apply printable_texts; done); try (by eexists).
  cbn [printable]. split; [by rewrite map_map|]. clear -Hr. induction Hr as [|[k [t s a]] l (Hk & Ht & Hs & Ha) Hl IH]; cbn [map foldr fst snd]; [done|].
  cbn [fst snd tags style at_ms] in *. split; [split; [done|]|exact IH]. unfold read_json. cbn [printable tags style at_ms]. split; [apply (bool_decide_unpack _); vm_compute; exact I|].
  cbn [foldr fst snd]. split_and!; try done; try (apply units_key; vm_compute; reflexivity); [by apply printable_texts|by eexists].
Qed.

(** ** Lemmas: the copies agree *)

Definition reloaded (v : visitor) : visitor := {| cached := None; saved_item := saved_item v; storage_works := storage_works v |}.
(** The progress a tab shows. *)
Definition shown (v : visitor) : option BlogProgress := fst <$> load v.
(** A tab shows this, and when the storage can be used so does the page loaded again. *)
Definition seen (v : visitor) (p : BlogProgress) : Prop := shown v = Some p /\ (storage_works v = true -> shown (reloaded v) = Some p).
Lemma load_same v p v' : load v = Some (p, v') -> cached v' = Some p /\ saved_item v' = saved_item v /\ storage_works v' = storage_works v.
Proof.
  destruct v as [c i w]. unfold load. cbn [cached saved_item storage_works]. destruct c as [q|]; [by intros [= <- <-]|].
  destruct (if w then i else None) as [[|x s]|]; try by intros [= <- <-].
  destruct (JSON_parse (x :: s)) as [j|]; [|by intros [= <- <-]]. destruct (progress_of_json j); [|done]. by intros [= <- <-].
Qed.
Lemma load_seen v p : seen v p -> exists v', load v = Some (p, v') /\ storage_works v' = storage_works v /\ seen v' p.
Proof.
  intros [Hs Hr]. unfold shown in Hs. destruct (load v) as [[q v']|] eqn:E; [|done]. injection Hs as ->. exists v'. split; [done|].
  apply load_same in E as (Ec & Ei & Ew). split; [done|]. split; [unfold shown, load; by rewrite Ec|].
  rewrite Ew. intros Hw. unfold reloaded. rewrite Ei, Ew. by apply Hr.
Qed.
Lemma reloaded_saved p : progress_ok p -> counters_fit p ->
  fst <$> load {| cached := None; saved_item := Some (stringify (progress_json p)); storage_works := true |} = Some p.
Proof.
  intros Hp Hc. unfold load. cbn [cached saved_item storage_works]. pose proof (JSON_parse_stringify _ (printable_progress p Hp Hc)) as E.
  destruct (stringify (progress_json p)) as [|c s] eqn:Es; [|by rewrite E; cbn [fmap option_fmap option_map]; rewrite progress_back].
  pose proof (stringify_nonempty (progress_json p)) as Hn. rewrite Es in Hn. cbn in Hn. lia.
Qed.
Lemma update_seen change v p : seen v p -> progress_ok (change p) -> counters_fit (change p) ->
  exists v', updateProgress change v = Some v' /\ seen v' (change p) /\ storage_works v' = storage_works v.
Proof.
  intros Hv Hp Hc. destruct (load_seen v p Hv) as (v1 & E & Ew & _). unfold updateProgress. rewrite E. cbn [mbind option_bind].
  eexists. split; [reflexivity|]. split; [|exact Ew]. split; [done|]. cbn [storage_works]. intros Hw. unfold shown, reloaded. cbn [saved_item storage_works].
  rewrite Hw. by apply reloaded_saved.
Qed.

Record grows (p q : BlogProgress) : Prop := {
  grows_discovered : discovered p `prefix_of` discovered q; grows_reads : reads p `prefix_of` reads q; grows_achievements : achievements p `prefix_of` achievements q;
  grows_bosses : bossKills p <= bossKills q; grows_shinies : shinies p <= shinies q; grows_glitches : glitches p <= glitches q;
  grows_konami : konami p = true -> konami q = true }.
#[local] Instance grows_preorder : PreOrder grows.
Proof.
  split.
  - intros p. by split.
  - intros p q r [] []. split; try (by etransitivity); try lia. auto.
Qed.
Definition fits (n : Z) (p : BlogProgress) : Prop := bossKills p + n <= 2 ^ 53 /\ shinies p + n <= 2 ^ 53 /\ glitches p + n <= 2 ^ 53.
Lemma fits_counters p : progress_ok p -> fits 0 p -> counters_fit p.
Proof. intros [_ _ _ (H1 & H2 & H3) _] (H4 & H5 & H6). unfold counters_fit, count_ok. lia. Qed.


(** ** Lemmas: each step *)

Lemma rules_ok : NoDup (map rule_id ACHIEVEMENTS) /\ Forall units (map rule_id ACHIEVEMENTS).
Proof. split; [apply (bool_decide_unpack _); vm_compute; exact I|]. repeat (apply Forall_cons_2; [apply units_key; vm_compute; reflexivity|]). constructor. Qed.
Lemma unlocked_fresh today p : NoDup (unlocked today p) /\ Forall units (unlocked today p) /\ (forall id, id ∈ unlocked today p -> id ∉ achievements p).
Proof.
  destruct rules_ok as [Hnd Hu]. unfold unlocked. set (f := fun r => _).
  assert (sublist (map rule_id (js_filter f ACHIEVEMENTS)) (map rule_id ACHIEVEMENTS)) as Hsub by (apply fmap_sublist, js_filter_sublist).
  assert (forall id, id ∈ map rule_id (js_filter f ACHIEVEMENTS) -> id ∈ map rule_id ACHIEVEMENTS /\ id ∉ achievements p) as Hin.
  { intros id (r & -> & [Hr Hf]%js_filter_In)%list_elem_of_fmap. split; [by apply list_elem_of_fmap_2|].
    unfold f in Hf. apply andb_true_iff in Hf as [Hf _]. by case_bool_decide. }
  split; [by eapply sublist_NoDup|]. rewrite Forall_forall in Hu |- *. split; [intros id Hid; by apply Hu, Hin|intros id Hid; by apply Hin].
Qed.
(** Every update of a page adds to the progress, and is stored. *)
Lemma added n change v p : seen v p -> fits n (change p) -> 0 <= n -> progress_ok (change p) -> grows p (change p) ->
  exists v', updateProgress change v = Some v' /\ (seen v' (change p) /\ storage_works v' = storage_works v) /\ progress_ok (change p) /\ grows p (change p).
Proof.
  intros Hv Hf Hn Hp Hg. destruct (update_seen change v p Hv Hp) as (v' & E & Hv'); [|by exists v'].
  apply fits_counters; [done|]. unfold fits in *. lia.
Qed.
Lemma with_same_achievements p : with_achievements (achievements p) p = p.
Proof. by destruct p. Qed.
Lemma unlock_seen n today v v1 p : load v = Some (p, v1) -> seen v1 p -> progress_ok p -> fits n p -> 0 <= n ->
  exists v', let q := with_achievements (achievements p ++ unlocked today p) p in
  unlock today v = Some v' /\ (seen v' q /\ storage_works v' = storage_works v1) /\ progress_ok q /\ grows p q.
Proof.
  intros El Hv1 Hp Hf Hn. unfold unlock. rewrite El. cbn [mbind option_bind]. pose proof (unlocked_fresh today p) as (Hun & Huu & Huf).
  pose proof Hp as [_ _ _ _ [Ha Hau]]. destruct (unlocked today p) as [|id l]; [exists v1; cbv zeta; rewrite app_nil_r, with_same_achievements; by split_and!|].
  destruct (added n (fun p => with_achievements (achievements p ++ id :: l) p) v1 p) as (v' & E & Hs & Hok & Hg); try done.
  - destruct Hp. split; try done. cbn [with_achievements achievements]. split; [|by apply Forall_app].
    apply NoDup_app. split; [done|]. split; [|done]. intros x Hx Hx'. by apply (Huf x).
  - split; try done; try lia. cbn. by apply prefix_app_r.
  - exists v'. by rewrite E.
Qed.


Lemma rule_of_id r r' : rule_id r = rule_id r' -> r ∈ ACHIEVEMENTS -> r' ∈ ACHIEVEMENTS -> r' = r.
Proof.
  intros E [i Hi]%list_elem_of_lookup_1 [j Hj]%list_elem_of_lookup_1. destruct rules_ok as [Hnd _].
  assert (i = j) as ->; [|congruence]. eapply (NoDup_lookup _ i j (rule_id r) Hnd); rewrite list_lookup_fmap; [by rewrite Hi|by rewrite Hj, E].
Qed.
Lemma test_unlocked r today p l n : r ∈ ACHIEVEMENTS -> rule_test r today (with_achievements l p) n = rule_test r today p n.
Proof. unfold ACHIEVEMENTS. rewrite !elem_of_cons, elem_of_nil. intros Hr. repeat destruct Hr as [->|Hr]; done. Qed.
(** Achievements unlock at once and once: after the effect an achievement is kept exactly if
    it was kept before or its test holds now, and the effect has nothing more to unlock, so
    the update it makes does not set it off again. *)
Theorem achievements_settle (today : Z) (v : visitor) (p : BlogProgress)
  (Hv : seen v p) (Hp : progress_ok p) (Hfit : fits 1 p) :
  exists v' q, unlock today v = Some v' /\ seen v' q /\ unlocked today q = []
  /\ forall r, r ∈ ACHIEVEMENTS -> rule_id r ∈ achievements q <-> rule_id r ∈ achievements p \/ rule_test r today p (legendary_count p) = true.
Proof.
  destruct (load_seen v p Hv) as (v1 & El & Ew & Hv1). destruct (unlock_seen 0 today v v1 p) as (v' & E & [Hv' _] & _); [done|done|done|unfold fits in *; lia|lia|].
  exists v', (with_achievements (achievements p ++ unlocked today p) p). split; [exact E|]. split; [done|].
  assert (forall r, r ∈ ACHIEVEMENTS -> rule_id r ∈ unlocked today p <-> rule_id r ∉ achievements p /\ rule_test r today p (legendary_count p) = true) as Hun.
  { intros r Hr. unfold unlocked. rewrite list_elem_of_fmap. split.
    - intros (r' & Er & [Hr' Hf]%js_filter_In). apply rule_of_id in Er as ->; [|done..].
      apply andb_true_iff in Hf as [Hf1 Hf2]. split; [by case_bool_decide|done].
    - intros [H1 H2]. exists r. split; [done|]. apply js_filter_In. split; [done|]. by rewrite H2, bool_decide_false. }
  split.
  - unfold unlocked at 1. destruct (js_filter _ ACHIEVEMENTS) as [|r l] eqn:Ef; [done|]. exfalso.
    assert (r ∈ r :: l) as Hr by (apply elem_of_cons; by left). rewrite <- Ef in Hr. apply js_filter_In in Hr as [Hr Hf]. apply andb_true_iff in Hf as [Hf1 Hf2].
    rewrite test_unlocked in Hf2 by done. case_bool_decide as Hin; [done|]. apply Hin. cbn [with_achievements achievements].
    apply elem_of_app. rewrite Hun by done. destruct (decide (rule_id r ∈ achievements p)); [by left|by right].
  - intros r Hr. cbn [with_achievements achievements]. rewrite elem_of_app, Hun by done. destruct (decide (rule_id r ∈ achievements p)); tauto.
Qed.
End Achievements.

(** ** Lemmas: the days of a streak *)

(** The days whose year has four digits. *)
Definition four_digit_day (n : Z) : Prop := day_from_year 0 <= n < day_from_year 10000.
Lemma four_digit_year n : four_digit_day n -> 0 <= getFullYear (date_of_day n) < 10000.
Proof.
  intros [H1 H2]. cbn [date_of_day getFullYear]. pose proof (year_of_day_spec n) as [E1 E2]. split.
  - destruct (Z.le_gt_cases 0 (year_of_day n)) as [|Hlt]; [done|]. destruct (decide (year_of_day n + 1 = 0)) as [E|Hne]; [rewrite E in E2; lia|].
    pose proof (day_from_year_mono (year_of_day n + 1) 0 ltac:(lia)). lia.
  - destruct (Z.lt_ge_cases (year_of_day n) 10000) as [|Hge]; [done|]. destruct (decide (year_of_day n = 10000)) as [E|Hne]; [rewrite E in E1; lia|].
    pose proof (day_from_year_mono 10000 (year_of_day n) ltac:(lia)). lia.
Qed.
Lemma format_day_inj a b : four_digit_day a -> four_digit_day b -> format_day a = format_day b -> a = b.
Proof.
  intros Ha%four_digit_year Hb%four_digit_year E. rewrite <- (date_of_day_number a), <- (date_of_day_number b). unfold format_day, day_text in E.
  pose proof (date_of_day_valid a) as [Hma Hda]. pose proof (date_of_day_valid b) as [Hmb Hdb].
  pose proof (days_in_month_two (getFullYear (date_of_day a)) (getMonth (date_of_day a))). pose proof (days_in_month_two (getFullYear (date_of_day b)) (getMonth (date_of_day b))).
  revert E Ha Hb Hma Hda Hmb Hdb H H0. generalize (date_of_day a) as x, (date_of_day b) as y. intros [y1 m1 d1] [y2 m2 d2]. cbn [getFullYear getMonth getDate]. intros E Ha Hb ? ? ? ? ? ?.
  apply app_inj_1 in E as [Ey E]; [|by rewrite !pad_four]. injection E as E. apply app_inj_1 in E as [Em E]; [|by rewrite !pad_two by lia]. injection E as Ed.
  apply pad_inj in Em; [|lia..]. apply pad_inj in Ed; [|lia..]. assert (m1 = m2) as <- by lia. subst d2.
  rewrite !pad_four in Ey by lia. injection Ey as E1 E2 E3 E4. replace y2 with y1; [done|]. Z.div_mod_to_equations. lia.
Qed.
Lemma streak_from_spec fuel days cursor : let k := streak_from fuel days cursor in
  (k <= fuel)%nat /\ (forall i, (i < k)%nat -> format_day (cursor - Z.of_nat i) ∈ days) /\ (k = fuel \/ format_day (cursor - Z.of_nat k) ∉ days).
Proof.
  revert cursor. induction fuel as [|fuel IH]; intros cursor; cbn [streak_from]; [split; [lia|split; [lia|by left]]|]. case_bool_decide as Hin.
  - destruct (IH (cursor - 1)) as (H1 & H2 & H3). split; [lia|]. split.
    + intros [|i] Hi; [by rewrite Z.sub_0_r|]. replace (cursor - Z.of_nat (S i)) with (cursor - 1 - Z.of_nat i) by lia. apply H2. lia.
    + destruct H3 as [->|H3]; [by left|right]. by replace (cursor - Z.of_nat (S (streak_from fuel days (cursor - 1)))) with (cursor - 1 - Z.of_nat (streak_from fuel days (cursor - 1))) by lia.
  - split; [lia|]. split; [lia|]. right. by rewrite Z.sub_0_r.
Qed.

(** C25. The streak is the run of days visited without a gap that ends today, or yesterday when
    today is not visited yet: every day of it was visited and the day before it was not.  The
    loop always ends, within one turn more than there are days. *)
Theorem visit_streak_exact (days : list jstring) (today : Z)
  (Htoday : four_digit_day today) (Hpast : four_digit_day (today - 1 - Z.of_nat (length days))) :
  let k := currentVisitStreak days today in
  let last := streak_start days today in
  (k <= length days)%nat /\ (forall i, (i < k)%nat -> format_day (last - Z.of_nat i) ∈ days) /\ format_day (last - Z.of_nat k) ∉ days
  /\ (last = today /\ (0 < k)%nat \/ last = today - 1 /\ format_day today ∉ days).
Proof.
  intros k last. pose proof (streak_from_spec (S (length days)) days last) as (H1 & H2 & H3). change (streak_from (S (length days)) days last) with k in H1, H2, H3.
  assert (last = today \/ last = today - 1) as Hlast by (unfold last, streak_start; case_bool_decide; auto).
  assert (k <= length days)%nat as Hk.
  { destruct (decide (k <= length days)%nat) as [|Hgt]; [done|exfalso].
    assert (submseteq (map (fun i => format_day (last - Z.of_nat i)) (seq 0 k)) days) as Hsub.
    - apply NoDup_submseteq.
      + apply NoDup_fmap_2_strong; [|apply NoDup_seq]. intros i j [_ Hi]%elem_of_seq [_ Hj]%elem_of_seq E.
        unfold four_digit_day in *. apply format_day_inj in E; unfold four_digit_day; lia.
      + intros x (i & -> & [_ Hi]%elem_of_seq)%list_elem_of_fmap. apply H2. lia.
    - apply submseteq_length in Hsub. rewrite length_map, length_seq in Hsub. lia. }
  split; [done|]. split; [done|]. split; [destruct H3 as [E|]; [lia|done]|].
  unfold last, streak_start in *. case_bool_decide as Hin; [left|by right]. split; [done|]. unfold k, currentVisitStreak, streak_start. rewrite bool_decide_true by done.
  cbn [streak_from]. rewrite bool_decide_true by done. lia.
Qed.

(** ** Samples *)

#[local] Existing Instance ascii_host.
Definition new_visitor : visitor := {| cached := None; saved_item := None; storage_works := true |}.
Definition sample_hours (ms : Z) : Z := ms / 3600000 mod 24.
(** Two tabs that have both read the storage: what the second finds overwrites what the first found. *)
Example other_tab_overwrites :
  (first ← snd <$> load new_visitor; second ← snd <$> load new_visitor;
   first ← snd <$> discover (u "matrix") first;
   second ← snd <$> discover (u "crt") {| cached := cached second; saved_item := saved_item first; storage_works := true |};
   discovered <$> (fst <$> load (reloaded second))) = Some [u "crt"].
Proof. by vm_compute. Qed.

Lemma empty_ok : progress_ok EMPTY_PROGRESS.
Proof. split; cbn; repeat split; try constructor; lia. Qed.

Lemma achievements_settle_witness :
  match unlock sample_hours 20000 {| cached := Some (with_discovered [u "matrix"] EMPTY_PROGRESS); saved_item := Some (stringify (progress_json (with_discovered [u "matrix"] EMPTY_PROGRESS))); storage_works := true |} with
  | Some v => exists q, seen v q /\ unlocked sample_hours 20000 q = [] | None => False end.
Proof.
  destruct (achievements_settle sample_hours 20000 {| cached := Some (with_discovered [u "matrix"] EMPTY_PROGRESS); saved_item := Some (stringify (progress_json (with_discovered [u "matrix"] EMPTY_PROGRESS))); storage_works := true |}
              (with_discovered [u "matrix"] EMPTY_PROGRESS)) as (v & q & E & Hv & Hq & _).
  - split; [done|]. intros _. by vm_compute.
  - destruct empty_ok. split; try assumption. cbn. split; [apply NoDup_singleton|apply Forall_singleton; check_units].
  - by vm_compute.
  - rewrite E. by exists q.
Defined.
Lemma visit_streak_exact_witness : (currentVisitStreak [format_day 20000; format_day 19999; format_day 19997] 20001 <= 3)%nat.
Proof. apply (visit_streak_exact [format_day 20000; format_day 19999; format_day 19997] 20001); by vm_compute. Defined.
Example sample_streak : currentVisitStreak [format_day 20000; format_day 19999; format_day 19997] 20001 = 2%nat.
Proof. by vm_compute. Qed.
