(* ===== verification/SpaceRoutes.v ===== *)
(** * Spaces in addresses, and the pages they scope

    web/src/lib/space-routes.ts, memo-views.ts, components/AppSidebar/routes.ts,
    components/MemoView/navigation.ts, the search of components/AppSidebar/QuickFindDialog.tsx
    and the redirect of contexts/SpaceContext.tsx: a Space is a prefix of the address of a
    collection page.  [matchPath] of the router is a parameter. *)

From S2P Require Import Prelude JSString JSRegExp HostUnicode MemoRichText AuthRoutes MemoFilters.

(** ** space-routes.ts *)

Record space_route := { basePath : jstring; route_pathname : jstring }.

(** Removes the slashes at the end. *)
Fixpoint drop_slashes (s : jstring) : jstring := match s with 47 :: s' => drop_slashes s' | _ => s end.
Definition without_end_slashes (s : jstring) : jstring := rev (drop_slashes (rev s)).
Definition not_slash (c : Z) : bool := negb (c =? 47).
(** A Space and the page within it, from the whole path, in any case. *)
Definition SPACE_PATH : re :=
  (StartOf false +++ char 47 +++ case_text (u "space") +++ char 47 +++ Group 1 (plus (Chars not_slash))
   +++ opt (Group 2 (char 47 +++ star dot)) +++ EndOf false)%re.
Definition space_base (id : jstring) : jstring := u "/space/" ++ id.
Definition getSpaceRoute (pathname : jstring) : option space_route :=
  let path := without_end_slashes pathname in
  m ← exec_from false SPACE_PATH path 0;
  Some {| basePath := space_base (default [] (capture path m 1));
          route_pathname := match capture path m 2 with None | Some [] => ROUTES.EXPLORE | Some p => p end |}.
Definition getUnscopedPath (pathname : jstring) : jstring :=
  match getSpaceRoute pathname with Some r => route_pathname r | None => pathname end.
(** The same, but a path of one character is kept. *)
Definition trimmed_path (pathname : jstring) : jstring := if (1 <? length pathname)%nat then without_end_slashes pathname else pathname.
(** [/^\/categories\/[^/]+$/]. *)
Definition CATEGORY_PATH : re := (StartOf false +++ text (u "/categories/") +++ plus (Chars not_slash) +++ EndOf false)%re.
Definition getSpaceNavigationPath (base pathname : jstring) : option jstring :=
  let path := trimmed_path pathname in
  if js_eqb path (u "/") || js_eqb path ROUTES.EXPLORE then Some base
  else if js_eqb path ROUTES.HOME || js_eqb path ROUTES.ATTACHMENTS || js_eqb path ROUTES.READ_LATER || js_eqb path ROUTES.ARCHIVED
          || test false CATEGORY_PATH path
  then Some (base ++ path)
  else None.

(** ** memo-views.ts *)

Inductive MemoScope := scope_home | scope_explore | scope_archived.
#[export] Instance MemoScope_eq_dec : EqDecision MemoScope.
Proof. solve_decision. Defined.

(** [The part before the query and the fragment]. *)
Fixpoint before_query (s : jstring) : jstring :=
  match s with [] => [] | c :: s' => if (c =? 63) || (c =? 35) then [] else c :: before_query s' end.
Definition cleanPathname (value : jstring) : jstring :=
  trimmed_path (match before_query value with [] => ROUTES.HOME | p => p end).

Section Views.
Context `{HostUnicode}.

Definition isMemoScopeRoute (pathname : jstring) : bool :=
  let comparablePath := to_lower (getUnscopedPath (cleanPathname pathname)) in
  js_eqb comparablePath ROUTES.HOME || js_eqb comparablePath ROUTES.EXPLORE || js_eqb comparablePath ROUTES.ARCHIVED.
Definition getMemoScopePath (explore : bool) : jstring := if explore then ROUTES.EXPLORE else ROUTES.HOME.

Record scope_options := {
  currentUsername : option jstring; detailFrom : option jstring; memoArchived : bool; fallback : option MemoScope }.
(** [/^\/u\/([^/]+)$/i]. *)
Definition PROFILE_PATH : re := (StartOf false +++ char 47 +++ anycase 85 117 +++ char 47 +++ Group 1 (plus (Chars not_slash)) +++ EndOf false)%re.
(** A profile's path; [None] inside: [decodeURIComponent] throws. *)
Definition profile_scope (options : scope_options) (encoded : jstring) : option MemoScope :=
  match nonempty (currentUsername options) with
  | Some name => decoded ← decodeURIComponent encoded; Some (if js_eqb decoded name then scope_home else scope_explore)
  | None => Some scope_explore
  end.
Fixpoint resolve_scope (depth : nat) (pathname : jstring) (options : scope_options) : option MemoScope :=
  let cleanPath := getUnscopedPath (cleanPathname pathname) in
  let comparablePath := to_lower cleanPath in
  if js_eqb comparablePath ROUTES.EXPLORE then Some scope_explore
  else if js_eqb comparablePath ROUTES.ARCHIVED then Some scope_archived
  else if js_eqb comparablePath ROUTES.HOME then Some scope_home
  else
    match exec_from false PROFILE_PATH cleanPath 0 with
    | Some m => profile_scope options (default [] (capture cleanPath m 1))
    | None =>
        let in_memo := starts_with comparablePath (u "/memos/") in
        let last_resort := if in_memo && memoArchived options then Some scope_archived else Some (default scope_explore (fallback options)) in
        match nonempty (detailFrom options), depth with
        | Some from, S depth' =>
            if in_memo then
              resolve_scope depth' from {| currentUsername := currentUsername options; detailFrom := None; memoArchived := false; fallback := fallback options |}
            else last_resort
        | _, _ => last_resort
        end
    end.
(** The inner call has no [detailFrom] of its own. *)
Definition resolveMemoScope (pathname : jstring) (options : scope_options) : option MemoScope := resolve_scope 1 pathname options.
Definition no_options : scope_options := {| currentUsername := None; detailFrom := None; memoArchived := false; fallback := None |}.

(** ** AppSidebar/routes.ts *)

Inductive SidebarRouteKind :=
  | memo_scope (s : MemoScope) | profile | views | attachments | inbox | settings | memo | empty.
Inductive RouteSearchScope := remembered_collection | user_collection | profile_search | all_search.
Inductive RouteComposePlacement := remembered_space | unassigned.
Record RouteActionPolicy := { searchScope : RouteSearchScope; searchDestination : option jstring; composePlacement : RouteComposePlacement }.

Context (matchPath : jstring -> jstring -> bool).

Definition getSidebarRouteKind (path : jstring) : option SidebarRouteKind :=
  let normalizedPath := trimmed_path (getUnscopedPath path) in
  if js_eqb normalizedPath (u "/") then Some (memo_scope scope_home)
  else if isMemoScopeRoute normalizedPath then memo_scope <$> resolveMemoScope normalizedPath no_options
  else if matchPath (u "/u/:username") normalizedPath then Some profile
  else if matchPath ROUTES.VIEWS normalizedPath then Some views
  else if matchPath ROUTES.ATTACHMENTS normalizedPath then Some attachments
  else if matchPath ROUTES.INBOX normalizedPath then Some inbox
  else if matchPath ROUTES.SETTING normalizedPath then Some settings
  else if matchPath (u "/memos/:uid") normalizedPath || matchPath (ROUTES.SHARED_MEMO ++ u "/:token") normalizedPath then Some memo
  else Some empty.
Definition routeSupportsCollectionScope (path : jstring) : option bool :=
  kind ← getSidebarRouteKind path;
  Some (match kind with memo_scope scope_home | memo_scope scope_explore | attachments => true | _ => false end).
Definition getRouteActionPolicy (path : jstring) : option RouteActionPolicy :=
  kind ← getSidebarRouteKind path;
  Some (match kind with
        | memo_scope scope_home | memo_scope scope_explore =>
            {| searchScope := remembered_collection; searchDestination := None; composePlacement := remembered_space |}
        | memo_scope scope_archived => {| searchScope := user_collection; searchDestination := None; composePlacement := unassigned |}
        | attachments => {| searchScope := remembered_collection; searchDestination := Some ROUTES.HOME; composePlacement := remembered_space |}
        | profile => {| searchScope := profile_search; searchDestination := Some (trimmed_path path); composePlacement := unassigned |}
        | _ => {| searchScope := all_search; searchDestination := Some ROUTES.HOME; composePlacement := unassigned |}
        end).

(** ** The search of QuickFindDialog.tsx *)

(** The words of the query. *)
Fixpoint words_from (word : jstring) (s : jstring) : list jstring :=
  match s with
  | [] => match word with [] => [] | _ => [word] end
  | c :: s' => if is_space c then (match word with [] => [] | _ => [word] end) ++ words_from [] s' else words_from (word ++ [c]) s'
  end.
Definition buildQuickFindFilters (query : jstring) (currentFilters : list MemoFilter) (preserveCurrentScope : bool) : list MemoFilter :=
  let contentFilters := (fun w => {| factor := u "contentSearch"; value := w |}) <$> dedup (words_from [] (trim query)) in
  if preserveCurrentScope then replaceFiltersByFactor currentFilters (u "contentSearch") contentFilters else contentFilters.
Record QuickFindSubmission := { sub_filters : list MemoFilter; destination : option jstring; switchToAll : bool }.
Definition is_all_search (s : RouteSearchScope) : bool := match s with all_search => true | _ => false end.
(** [None]: a filter value is not well-formed UTF-16, or a profile path does not decode. *)
Definition resolveQuickFindSubmission (pathname query : jstring) (currentFilters : list MemoFilter) : option QuickFindSubmission :=
  routePolicy ← getRouteActionPolicy pathname;
  let filters := buildQuickFindFilters query currentFilters (negb (is_all_search (searchScope routePolicy))) in
  filterQuery ← stringifyFilters filters;
  Some {| sub_filters := filters;
          destination := match nonempty (searchDestination routePolicy) with
                         | Some d => Some (match filterQuery with [] => d | q => d ++ u "?filter=" ++ q end)
                         | None => None
                         end;
          switchToAll := is_all_search (searchScope routePolicy) |}.

(** ** MemoView/navigation.ts *)

Inductive MemoOriginScope := origin_all | origin_preserve.
Record MemoNavigationState := { from : option jstring; fromScope : option MemoOriginScope }.
Record memo_origin := { parentPage : jstring; parentScope : MemoOriginScope }.
Definition normalizePathname (pathname : jstring) : jstring := to_lower (trimmed_path pathname).
(** One segment after a prefix. *)
Definition one_segment_after (prefix path : jstring) : bool :=
  starts_with path prefix && negb (js_eqb (slice_from path (length prefix)) []) && negb (includes (slice_from path (length prefix)) (u "/")).
Definition isMemoResourcePath (pathname : jstring) : bool :=
  let normalizedPath := normalizePathname pathname in
  let sharedMemoPrefix := ROUTES.SHARED_MEMO ++ u "/" in
  if starts_with normalizedPath sharedMemoPrefix then one_segment_after sharedMemoPrefix normalizedPath
  else one_segment_after (u "/memos/") normalizedPath.
Definition isMemoCollectionOrigin (page : jstring) : bool :=
  let pathname := match before_query page with [] => ROUTES.HOME | p => p end in
  isMemoScopeRoute pathname || js_eqb (normalizePathname (getUnscopedPath pathname)) ROUTES.ATTACHMENTS.
Definition createMemoNavigationState (page : jstring) (scope : MemoOriginScope) : MemoNavigationState := {| from := Some page; fromScope := Some scope |}.
Definition resolveMemoDetailOrigin (state : option MemoNavigationState) (memoArchived : bool) : memo_origin :=
  let explicitParentPage := v ← state; from v in
  let page := match nonempty explicitParentPage with Some p => p | None => if memoArchived then ROUTES.ARCHIVED else ROUTES.EXPLORE end in
  {| parentPage := page;
     parentScope := match v ← state; fromScope v with
                    | Some scope => scope
                    | None =>
                        if bool_decide (is_Some explicitParentPage) && isMemoCollectionOrigin page then origin_preserve
                        else if memoArchived then origin_preserve else origin_all
                    end |}.
Definition isMemoDetailPath (pathname memoName : jstring) : bool :=
  let normalizedPath := normalizePathname pathname in
  js_eqb normalizedPath (to_lower (u "/" ++ memoName)) || (starts_with normalizedPath (ROUTES.SHARED_MEMO ++ u "/") && isMemoResourcePath normalizedPath).
Definition resolveMemoOrigin (explicitParentPage : option jstring) (explicitParentScope : option MemoOriginScope) (pathname search memoName : jstring) : memo_origin :=
  match explicitParentPage with
  | Some p =>
      let page := match p with [] => ROUTES.HOME | _ => p end in
      {| parentPage := page; parentScope := default (if isMemoCollectionOrigin page then origin_preserve else origin_all) explicitParentScope |}
  | None =>
      if isMemoDetailPath pathname memoName then {| parentPage := ROUTES.HOME; parentScope := origin_all |}
      else {| parentPage := pathname ++ search; parentScope := if isMemoCollectionOrigin pathname then origin_preserve else origin_all |}
  end.
End Views.

(** ** The redirect of SpaceContext.tsx *)

(** [/space/${encodeURIComponent(urlSlug or the last part of the name)}]. *)
Definition selectedSpacePath (urlSlug name : jstring) : option jstring :=
  space_base <$> encodeURIComponent (match urlSlug with [] => List.last (split_on 47 name) [] | s => s end).
(** Where the effect navigates, when it does. *)
Definition space_redirect (selectedPath pathname : jstring) : option jstring :=
  match getSpaceNavigationPath selectedPath pathname with
  | Some ((_ :: _) as target) => if js_eqb target pathname then None else Some target
  | _ => None
  end.

(** ** Lemmas: the path of a Space *)

Lemma matches_case_text s w st st' : matches false s (case_text w) st st' -> st' = ((st.1 + length w)%nat, st.2).
Proof.
  revert st. induction w as [|c w IH]; intros [i caps]; cbn [case_text foldr].
  - intros ->%matches_eps. cbn. by rewrite Nat.add_0_r.
  - rewrite matches_seq. intros (st1 & H1 & H2). assert (st1 = ((i + 1)%nat, caps)) as ->.
    { unfold anycase, char in H1. destruct (is_lower_ascii c); apply matches_chars in H1 as (d & _ & _ & ->); done. }
    apply IH in H2 as ->. cbn. f_equal. lia.
Qed.
Lemma matches_char_pos s c st st' : matches false s (char c) st st' <-> s !! st.1 = Some c /\ st' = ((st.1 + 1)%nat, st.2).
Proof.
  destruct st as [i caps]. unfold char. rewrite matches_chars. cbn. split.
  - intros (d & Hd & E & ->). apply Z.eqb_eq in E as ->. done.
  - intros [H ->]. exists c. by rewrite Z.eqb_refl.
Qed.
(** The first letter of the literal. *)
Lemma matches_case_first s c w st st' : is_lower_ascii c = true -> matches false s (case_text (c :: w)) st st' -> s !! st.1 = Some (c - 32) \/ s !! st.1 = Some c.
Proof.
  intros Hc. destruct st as [i caps]. cbn [case_text foldr]. rewrite Hc, matches_seq. intros (st1 & H1 & _). unfold anycase in H1.
  apply matches_chars in H1 as (d & Hd & E & _). cbn. rewrite Hd. apply orb_true_iff in E as [->%Z.eqb_eq| ->%Z.eqb_eq]; auto.
Qed.

(** Any match of the pattern: the group runs to the first slash, and the rest is the other. *)
Lemma space_path_match s st' : matches false s SPACE_PATH (0%nat, []) st' ->
  s !! 0%nat = Some 47 /\ (s !! 1%nat = Some 83 \/ s !! 1%nat = Some 115) /\ exists j, (7 < j)%nat /\ all_chars s not_slash 7 j
  /\ ((length s <= j)%nat /\ st'.2 = [(1%nat, (7%nat, j))]
      \/ s !! j = Some 47 /\ exists k, (length s <= k)%nat /\ all_chars s (fun c => negb (is_line_end c)) (j + 1) k
         /\ st'.2 = [(2%nat, (j, k)); (1%nat, (7%nat, j))]).
Proof.
  unfold SPACE_PATH. rewrite matches_seq. intros (st0 & [-> _]%matches_start & H). apply matches_seq in H as (st1 & [E1 ->]%matches_char_pos & H).
  apply matches_seq in H as (st2 & H2 & H). pose proof (matches_case_first _ 115 _ _ _ eq_refl H2) as E2. apply matches_case_text in H2 as ->. cbn in E1, E2.
  apply matches_seq in H as (st3 & [E3 ->]%matches_char_pos & H). apply matches_seq in H as (st4 & H4 & H). apply matches_group in H4 as (st4' & H4 & ->).
  apply matches_plus_chars in H4 as (A & L & C). cbn in A, L, C. apply matches_seq in H as (st5 & H5 & H). apply matches_end in H as [-> Hend].
  split; [done|]. split; [cbn in E2; tauto|]. exists st4'.1. split; [done|]. split; [exact A|]. unfold opt in H5. apply matches_alt in H5 as [H5|H5].
  - apply matches_group in H5 as (st6 & H6 & ->). apply matches_seq in H6 as (st7 & [E7 ->]%matches_char_pos & H6). apply matches_star_chars in H6 as [A6 C6].
    cbn in E7, A6, C6, Hend. right. split; [done|]. exists st6.1. split; [done|]. split; [done|]. cbn. rewrite C6. cbn. by rewrite C.
  - apply matches_eps in H5 as ->. cbn in Hend. left. split; [done|]. cbn. by rewrite C.
Qed.
Lemma exec_start r s m : exec_from false (Seq (StartOf false) r) s 0 = Some m -> m_from m = 0%nat.
Proof. intros E. apply exec_from_Some in E as (_ & _ & H). apply matches_seq in H as (st & [_ H]%matches_start & _). exact H. Qed.

Definition good_id (id : jstring) : Prop := id <> [] /\ Forall (fun c => not_slash c = true) id.
Definition good_rest (rest : jstring) : Prop := rest = [] \/ exists r, rest = 47 :: r /\ Forall (fun c => negb (is_line_end c) = true) r.

Lemma space_path_lookup id rest k : (u "/space/" ++ id ++ rest) !! (7 + k)%nat = (id ++ rest) !! k.
Proof. rewrite lookup_app_r by (change (length (u "/space/")) with 7%nat; lia). f_equal. change (length (u "/space/")) with 7%nat. lia. Qed.
Lemma space_path_exists id rest : good_id id -> good_rest rest -> exists st', matches false (space_base id ++ rest) SPACE_PATH (0%nat, []) st'.
Proof.
  intros [Hne Hid] Hrest. unfold space_base. rewrite <- app_assoc. set (s := u "/space/" ++ id ++ rest).
  assert (all_chars s not_slash 7 (7 + length id)) as A by (apply (all_chars_of_app (u "/space/") id rest); done).
  assert (0 < length id)%nat as Hlen by (destruct id; [done|cbn; lia]).
  assert (forall st5, matches false s (Group 1 (plus (Chars not_slash)) +++ opt (Group 2 (char 47 +++ star dot)) +++ EndOf false)%re (7%nat, []) st5 ->
    exists st', matches false s SPACE_PATH (0%nat, []) st') as Hprefix.
  { intros st5 H. exists st5. unfold SPACE_PATH. apply matches_seq. exists (0%nat, []). split; [by apply matches_start|].
    apply matches_seq. exists (1%nat, []). split; [by apply matches_char_pos|]. apply matches_seq. exists (6%nat, []). split.
    { cbn [case_text foldr]. repeat (apply matches_seq; eexists (_, []); split; [cbn; apply matches_chars; eexists; split; [reflexivity|by split]|]). by apply matches_eps. }
    apply matches_seq. exists (7%nat, []). split; [by apply matches_char_pos|done]. }
  destruct Hrest as [->|(r & -> & Hr)].
  - apply (Hprefix ((7 + length id)%nat, [(1%nat, (7%nat, (7 + length id)%nat))])). apply matches_seq. eexists. split.
    { apply matches_group. exists ((7 + length id)%nat, []). split; [|reflexivity]. apply matches_plus_chars. cbn [fst snd]. split; [done|]. split; [lia|done]. }
    apply matches_seq. eexists. split; [apply matches_alt; right; by apply matches_eps|]. apply matches_end. split; [done|]. cbn [fst]. unfold s. rewrite !length_app. cbn. lia.
  - apply (Hprefix (length s, [(2%nat, ((7 + length id)%nat, length s)); (1%nat, (7%nat, (7 + length id)%nat))])). apply matches_seq. eexists. split.
    { apply matches_group. exists ((7 + length id)%nat, []). split; [|reflexivity]. apply matches_plus_chars. cbn [fst snd]. split; [done|]. split; [lia|done]. }
    apply matches_seq. eexists. split.
    { apply matches_alt. left. apply matches_group. exists (length s, [(1%nat, (7%nat, (7 + length id)%nat))]). split; [|reflexivity]. apply matches_seq. eexists. split.
      { apply matches_char_pos. split; [|reflexivity]. cbn [fst]. unfold s. rewrite space_path_lookup, lookup_app_r by lia. by rewrite Nat.sub_diag. }
      cbn [fst snd]. apply matches_star_chars. split; [|done]. cbn [fst]. replace (length s) with (length (u "/space/" ++ id ++ [47%Z]) + length r)%nat by (unfold s; rewrite !length_app; cbn; lia).
      replace (7 + length id + 1)%nat with (length (u "/space/" ++ id ++ [47%Z])) by (rewrite !length_app; cbn; lia).
      replace s with ((u "/space/" ++ id ++ [47%Z]) ++ r ++ []) by (unfold s; rewrite app_nil_r, <- !app_assoc; done). by apply all_chars_of_app. }
    apply matches_end. split; [done|]. done.
Qed.

Lemma slice_mid (s1 s2 s3 : jstring) : slice (s1 ++ s2 ++ s3) (length s1) (length s1 + length s2) = s2.
Proof. unfold slice. rewrite drop_app_length. replace (length s1 + length s2 - length s1)%nat with (length s2) by lia. by rewrite take_app_length. Qed.

Lemma space_path_spec id rest : good_id id -> good_rest rest ->
  let s := space_base id ++ rest in
  exists m, exec_from false SPACE_PATH s 0 = Some m /\ capture s m 1 = Some id /\ capture s m 2 = match rest with [] => None | _ => Some rest end.
Proof.
  intros Hid Hrest s. destruct (space_path_exists id rest Hid Hrest) as [st' Hst']. fold s in Hst'.
  destruct (exec_from false SPACE_PATH s 0) as [m|] eqn:Em.
  2: { exfalso. pose proof (exec_from_first SPACE_PATH s 0) as Hf. rewrite Em in Hf. specialize (Hf 0%nat ltac:(lia)). rewrite match_at_None in Hf. by apply (Hf st'). }
  exists m. split; [done|]. pose proof (exec_start _ _ _ Em) as H0. apply exec_from_Some in Em as (_ & _ & Hm). rewrite H0 in Hm.
  apply space_path_match in Hm as (_ & _ & j & Hj & Hall & Hcase). cbn [snd] in Hcase. destruct Hid as [Hne Hid].
  assert (s = u "/space/" ++ id ++ rest) as Es by (unfold s, space_base; by rewrite <- app_assoc).
  assert (length s = (7 + length id + length rest)%nat) as Hlen by (rewrite Es, !length_app; change (length (u "/space/")) with 7%nat; lia).
  assert (forall k, (k < length id)%nat -> exists c, s !! (7 + k)%nat = Some c /\ not_slash c = true) as Hchars.
  { intros k Hk. rewrite Es, space_path_lookup, lookup_app_l by done. destruct (lookup_lt_is_Some_2 id k Hk) as [c Hc]. exists c. split; [done|].
    rewrite Forall_forall in Hid. eapply Hid, list_elem_of_lookup_2, Hc. }
  assert ((j <= length s)%nat) as Hjl by (apply all_chars_slice in Hall as [_ Hall]; by apply Hall).
  assert (rest <> [] -> s !! (7 + length id)%nat = Some 47) as Hslash.
  { intros Hr. destruct Hrest as [->|(r & -> & _)]; [done|]. rewrite Es, space_path_lookup, lookup_app_r by lia. by rewrite Nat.sub_diag. }
  assert (rest <> [] -> (j <= 7 + length id)%nat) as Hup.
  { intros Hr. destruct (decide (j <= 7 + length id)%nat) as [|Hgt]; [done|]. exfalso. destruct Hall as [_ Hall].
    destruct (Hall (7 + length id)%nat ltac:(lia)) as (c & Hc & Hn). rewrite Hslash in Hc by done. by injection Hc as <-. }
  assert (j = (7 + length id)%nat) as ->.
  { destruct Hcase as [[Hend _]|(Hat & _)].
    - destruct rest as [|c r]; [cbn [length] in Hlen; lia|]. specialize (Hup ltac:(done)). cbn [length] in Hlen. lia.
    - assert (~ (j < 7 + length id)%nat) as Hge.
      { intros Hlt. destruct (Hchars (j - 7)%nat ltac:(lia)) as (c & Hc & Hn). replace (7 + (j - 7))%nat with j in Hc by lia. rewrite Hat in Hc. by injection Hc as <-. }
      destruct rest as [|c r]; [|specialize (Hup ltac:(done)); lia]. apply lookup_lt_Some in Hat. cbn [length] in Hlen. lia. }
  assert (slice s 7 (7 + length id) = id) as Hslice.
  { rewrite Es. apply (slice_mid (u "/space/")). }
  rewrite !capture_cap_of. destruct Hcase as [[Hend ->]|(Hat & k & Hk & Hall' & ->)]; cbn [cap_of Nat.eqb fmap option_fmap option_map fst snd].
  - split; [by rewrite Hslice|]. destruct rest; [done|cbn [length] in Hlen; lia].
  - split; [by rewrite Hslice|]. destruct rest as [|c r]; [apply lookup_lt_Some in Hat; cbn [length] in Hlen; lia|]. f_equal.
    assert (slice s (7 + length id) (length s) = c :: r) as <-; [|].
    + rewrite Es. replace (u "/space/" ++ id ++ c :: r) with ((u "/space/" ++ id) ++ (c :: r) ++ []) by (by rewrite app_nil_r, <- app_assoc).
      replace (7 + length id)%nat with (length (u "/space/" ++ id)) by (rewrite length_app; done).
      replace (length ((u "/space/" ++ id) ++ (c :: r) ++ [])) with (length (u "/space/" ++ id) + length (c :: r))%nat by (rewrite !length_app; cbn [length]; lia). apply slice_mid.
    + unfold slice. rewrite !take_ge; [done|rewrite length_drop; lia..].
Qed.

(** ** Lemmas: the pages *)

Lemma drop_slashes_idem s : drop_slashes (drop_slashes s) = drop_slashes s.
Proof. induction s as [|c s IH]; [done|]. cbn [drop_slashes]. destruct (decide (c = 47)) as [->|Hc]; [done|]. destruct c as [|p|p]; try done. repeat (destruct p as [p|p|]; try done). Qed.
Lemma without_end_slashes_idem s : without_end_slashes (without_end_slashes s) = without_end_slashes s.
Proof. unfold without_end_slashes. by rewrite rev_involutive, drop_slashes_idem. Qed.
Lemma drop_slashes_ok c s : c <> 47 -> drop_slashes (c :: s) = c :: s.
Proof. intros Hc. destruct c as [|p|p]; try done. repeat (destruct p as [p|p|]; try done). Qed.
Lemma without_end_slashes_snoc s c : c <> 47 -> without_end_slashes (s ++ [c]) = s ++ [c].
Proof. intros Hc. unfold without_end_slashes. rewrite rev_app_distr. cbn [rev app]. rewrite drop_slashes_ok by done. cbn [rev]. by rewrite rev_involutive. Qed.
Lemma without_end_slashes_last s : without_end_slashes s = [] \/ exists s' c, without_end_slashes s = s' ++ [c] /\ c <> 47.
Proof.
  unfold without_end_slashes. induction (rev s) as [|c l IH]; [by left|]. destruct (decide (c = 47)) as [->|Hc]; [exact IH|].
  rewrite drop_slashes_ok by done. right. by exists (rev l), c.
Qed.
Lemma without_end_slashes_app a b : b <> [] -> without_end_slashes b = b -> without_end_slashes (a ++ b) = a ++ b.
Proof.
  intros Hb E. destruct (without_end_slashes_last b) as [E'|(s' & c & E' & Hc)]; [congruence|]. rewrite <- E, E', app_assoc. by apply without_end_slashes_snoc.
Qed.
Lemma trimmed_path_fixed p : (1 < length (trimmed_path p))%nat -> without_end_slashes (trimmed_path p) = trimmed_path p.
Proof. unfold trimmed_path. destruct (1 <? length p)%nat eqn:E; intros Hl; [apply without_end_slashes_idem|]. apply Nat.ltb_ge in E. lia. Qed.
Lemma trimmed_path_long p : (1 < length (trimmed_path p))%nat -> trimmed_path p = without_end_slashes p.
Proof. unfold trimmed_path. destruct (1 <? length p)%nat eqn:E; intros Hl; [done|]. apply Nat.ltb_ge in E. lia. Qed.
Lemma trimmed_path_of_fixed s : without_end_slashes s = s -> trimmed_path s = s.
Proof. unfold trimmed_path. by destruct (1 <? length s)%nat. Qed.
Lemma trimmed_path_chars P p : Forall P p -> Forall P (trimmed_path p).
Proof.
  intros Hp. unfold trimmed_path. destruct (1 <? length p)%nat; [|done]. unfold without_end_slashes. apply Forall_rev. apply Forall_rev in Hp.
  induction Hp as [|c l Hc Hl IH]; [constructor|]. destruct (decide (c = 47)) as [->|Hne]; [exact IH|]. rewrite drop_slashes_ok by done. by constructor.
Qed.

(** The pages a Space keeps, the page of every memo apart. *)
Definition collection_page (path : jstring) : bool :=
  js_eqb path ROUTES.HOME || js_eqb path ROUTES.ATTACHMENTS || js_eqb path ROUTES.READ_LATER || js_eqb path ROUTES.ARCHIVED || test false CATEGORY_PATH path.
Lemma category_path_start s : test false CATEGORY_PATH s = true -> s !! 0%nat = Some 47 /\ s !! 1%nat = Some 99.
Proof.
  unfold test. destruct (exec_from false CATEGORY_PATH s 0) as [m|] eqn:Em; [|done]. intros _. pose proof (exec_start _ _ _ Em) as H0.
  apply exec_from_Some in Em as (_ & _ & Hm). rewrite H0 in Hm. unfold CATEGORY_PATH in Hm. apply matches_seq in Hm as (st & [-> _]%matches_start & Hm).
  apply matches_seq in Hm as (st1 & Hm & _). cbn [text foldr] in Hm. apply matches_seq in Hm as (st2 & [E0 ->]%matches_char_pos & Hm).
  apply matches_seq in Hm as (st3 & [E1 _]%matches_char_pos & _). done.
Qed.
Lemma page_shape path : path = ROUTES.EXPLORE \/ collection_page path = true ->
  exists c r, path = 47 :: c :: r /\ c <> 83 /\ c <> 115.
Proof.
  intros Hpath. assert (path = ROUTES.EXPLORE \/ path = ROUTES.HOME \/ path = ROUTES.ATTACHMENTS \/ path = ROUTES.READ_LATER \/ path = ROUTES.ARCHIVED
    \/ (path !! 0%nat = Some 47 /\ path !! 1%nat = Some 99)) as Hcases.
  { destruct Hpath as [->|Hpath]; [by left|]. unfold collection_page in Hpath. rewrite !orb_true_iff, !js_eqb_true in Hpath.
    destruct Hpath as [[[[?|?]|?]|?]|Hc%category_path_start]; tauto. }
  destruct Hcases as [->|[->|[->|[->|[->|[H0 H1]]]]]]; try (eexists _, _; split; [reflexivity|done]).
  destruct path as [|c0 [|c r]]; try done. injection H0 as ->. injection H1 as ->. by eexists _, _.
Qed.
(** Not an address of a Space. *)
Lemma page_unscoped path : path = ROUTES.EXPLORE \/ collection_page path = true -> exec_from false SPACE_PATH path 0 = None.
Proof.
  intros (c & r & -> & H1 & H2)%page_shape. destruct (exec_from false SPACE_PATH (47 :: c :: r) 0) as [m|] eqn:Em; [|done]. exfalso.
  pose proof (exec_start _ _ _ Em) as H0. apply exec_from_Some in Em as (_ & _ & Hm). rewrite H0 in Hm. apply space_path_match in Hm as (_ & [E|E] & _); by injection E as ->.
Qed.

Lemma navigation_path_cases base p t : getSpaceNavigationPath base p = Some t ->
  (t = base /\ (trimmed_path p = u "/" \/ trimmed_path p = ROUTES.EXPLORE)) \/ (t = base ++ trimmed_path p /\ collection_page (trimmed_path p) = true).
Proof.
  unfold getSpaceNavigationPath. destruct (js_eqb (trimmed_path p) (u "/") || _) eqn:E1.
  - intros [= <-]. left. split; [done|]. apply orb_true_iff in E1 as [E%js_eqb_true|E%js_eqb_true]; auto.
  - fold (collection_page (trimmed_path p)). destruct (collection_page (trimmed_path p)) eqn:E2; [|done]. intros [= <-]. by right.
Qed.
(** The address of a page of a Space reads back. *)
Lemma space_route_of id rest : good_id id -> good_rest rest -> without_end_slashes (space_base id ++ rest) = space_base id ++ rest ->
  getSpaceRoute (space_base id ++ rest) = Some {| basePath := space_base id; route_pathname := match rest with [] => ROUTES.EXPLORE | _ => rest end |}.
Proof.
  intros Hid Hrest Efix. unfold getSpaceRoute. rewrite Efix. destruct (space_path_spec id rest Hid Hrest) as (m & -> & E1 & E2).
  cbn [mbind option_bind]. rewrite E1, E2. by destruct rest.
Qed.
Lemma space_base_fixed id : good_id id -> without_end_slashes (space_base id) = space_base id.
Proof.
  intros [Hne Hid]. unfold space_base. apply without_end_slashes_app; [done|]. destruct id as [|c l _] using rev_ind; [done|].
  apply without_end_slashes_snoc. apply Forall_app in Hid as [_ Hc]. inversion Hc as [|? ? Hc' _]; subst. intros ->. done.
Qed.
(** No page of a Space is a collection page of its own. *)
Lemma space_page_final id rest base : without_end_slashes (space_base id ++ rest) = space_base id ++ rest -> getSpaceNavigationPath base (space_base id ++ rest) = None.
Proof.
  intros Efix. unfold getSpaceNavigationPath. rewrite (trimmed_path_of_fixed _ Efix).
  assert (forall q, q !! 1%nat <> Some 115 -> js_eqb (space_base id ++ rest) q = false) as Hno by (intros q Hq; apply js_eqb_false; intros <-; by apply Hq).
  rewrite !Hno by done. destruct (test false CATEGORY_PATH (space_base id ++ rest)) eqn:E; [|done]. by apply category_path_start in E as [_ E].
Qed.
Lemma unscoped_page p : trimmed_path p = ROUTES.EXPLORE \/ collection_page (trimmed_path p) = true -> trimmed_path (getUnscopedPath p) = trimmed_path p.
Proof.
  intros Hp. unfold getUnscopedPath, getSpaceRoute. pose proof (page_unscoped _ Hp) as E. apply page_shape in Hp as (c & r & Ep & _).
  rewrite <- (trimmed_path_long p), E by (rewrite Ep; cbn [length]; lia). done.
Qed.

Section Pages.
Context `{HostUnicode} (matchPath : jstring -> jstring -> bool).

(** C37. An address under a Space stands for the page it was made from: for every page that
    keeps its Space, the address [getSpaceNavigationPath] builds is read back by
    [getSpaceRoute] as that Space and that page (the explore page for the Space itself), it is
    no page to be scoped again, so the redirect of the layout stops there, and the sidebar
    shows for it what it shows for the page.  The root is the exception: under a Space it is
    the explore page. *)
Theorem scoped_page_round_trip (id p t : jstring)
  (Hid : good_id id) (Hp : Forall (fun c => negb (is_line_end c) = true) p) (Ht : getSpaceNavigationPath (space_base id) p = Some t) :
  let page := if js_eqb (trimmed_path p) (u "/") then ROUTES.EXPLORE else trimmed_path p in
  getSpaceRoute t = Some {| basePath := space_base id; route_pathname := page |}
  /\ space_redirect (space_base id) t = None
  /\ getSidebarRouteKind matchPath t = getSidebarRouteKind matchPath page
  /\ (trimmed_path p <> u "/" -> getSidebarRouteKind matchPath t = getSidebarRouteKind matchPath p).
Proof.
  intros page. assert (page = ROUTES.EXPLORE \/ collection_page page = true) as Hpage.
  { apply navigation_path_cases in Ht as [[_ [E|E]]|[_ E]]; unfold page; [rewrite E; by left..|].
    destruct (js_eqb (trimmed_path p) (u "/")); auto. }
  assert (exists rest, t = space_base id ++ rest /\ good_rest rest /\ page = match rest with [] => ROUTES.EXPLORE | _ => rest end
    /\ without_end_slashes (space_base id ++ rest) = space_base id ++ rest) as (rest & -> & Hrest & Erest & Efix).
  { apply navigation_path_cases in Ht as [[-> E]|[-> E]].
    - exists []. rewrite app_nil_r. repeat split; [by left| |by apply space_base_fixed]. unfold page. by destruct E as [-> | ->].
    - exists (trimmed_path p). pose proof (page_shape _ (or_intror E)) as (c & r & Ep & _). split; [done|]. split; [|split].
      + right. exists (c :: r). split; [done|]. apply trimmed_path_chars in Hp. rewrite Ep in Hp. by inversion Hp.
      + unfold page. rewrite Ep. by rewrite (proj2 (js_eqb_false (47 :: c :: r) (u "/"))).
      + apply without_end_slashes_app; [by rewrite Ep|]. apply trimmed_path_fixed. rewrite Ep. cbn [length]. lia. }
  assert (trimmed_path page = page) as Epage.
  { pose proof (page_shape _ Hpage) as (c & r & Ep & _). apply trimmed_path_of_fixed. unfold page in *.
    destruct (js_eqb (trimmed_path p) (u "/")); [done|]. apply trimmed_path_fixed. rewrite Ep. cbn [length]. lia. }
  assert (getSidebarRouteKind matchPath (space_base id ++ rest) = getSidebarRouteKind matchPath page) as Ekind.
  { unfold getSidebarRouteKind. rewrite (unscoped_page page) by (by rewrite Epage). unfold getUnscopedPath. by rewrite space_route_of, <- Erest. }
  split; [by rewrite space_route_of, Erest|]. split; [|split; [exact Ekind|]].
  - unfold space_redirect. by rewrite space_page_final.
  - intros Hroot. assert (page = trimmed_path p) as Eq by (unfold page; by rewrite (proj2 (js_eqb_false _ _) Hroot)).
    rewrite Ekind, Eq. rewrite Eq in Hpage, Epage. unfold getSidebarRouteKind.
    rewrite (unscoped_page p Hpage), (unscoped_page (trimmed_path p)) by (by rewrite Epage). by rewrite Epage.
Qed.
End Pages.

(** ** Samples *)

#[local] Existing Instance ascii_host.
(** Under a Space the root is its explore page, but the root itself is the home page. *)
Example space_root_explores :
  getSpaceNavigationPath (space_base (u "team")) (u "/") = Some (u "/space/team")
  /\ getSidebarRouteKind (fun pattern path => js_eqb pattern path) (u "/space/team") = Some (memo_scope scope_explore)
  /\ getSidebarRouteKind (fun pattern path => js_eqb pattern path) (u "/") = Some (memo_scope scope_home).
Proof. by vm_compute. Qed.
Example space_redirects :
  space_redirect (u "/space/team") (u "/home/") = Some (u "/space/team/home") /\ space_redirect (u "/space/team") (u "/inbox") = None
  /\ getSpaceRoute (u "/Space/team/categories/notes//") = Some {| basePath := u "/space/team"; route_pathname := u "/categories/notes" |}.
Proof. by vm_compute. Qed.

Lemma scoped_page_round_trip_witness :
  getSpaceRoute (u "/space/team/home") = Some {| basePath := space_base (u "team"); route_pathname := u "/home" |}
  /\ space_redirect (space_base (u "team")) (u "/space/team/home") = None.
Proof.
  destruct (scoped_page_round_trip (fun pattern path => js_eqb pattern path) (u "team") (u "/home/") (u "/space/team/home")) as (H1 & H2 & _).
  - split; [done|]. by repeat constructor.
  - by repeat constructor.
  - by vm_compute.
  - split; [exact H1|exact H2].
Defined.
