(* ===== verification/RemarkRichText.v ===== *)
(** * Presentation markers in the tree

    web/src/utils/remark-plugins/remark-memo-rich-text.ts: colours, sizes, spoilers and
    alignment blocks that a memo writes as markers become nodes of the parsed tree.  The
    nodes of the parser are a rose tree of kinds; the fields the plugin does not read are
    opaque. *)

From S2P Require Import Prelude JSString JSON JSRegExp JSONText MemoRichText.

(** ** Trees *)

Inductive kind :=
  | Paragraph | Heading | Emphasis | Strong | Delete | Link | LinkReference
  | MemoAlignment (alignment : MemoTextAlignment) | MemoColor (color : jstring) | MemoSize (size : jstring) | MemoSpoiler
  | OtherParent (type : jstring).

(** [other] stands for the fields of a node that the plugin does not read. *)
Inductive node :=
  | Text (value : jstring)
  | Html (value : jstring)
  | Leaf (other : Z)
  | Parent (k : kind) (other : Z) (children : list node).

(** The nodes the plugin makes have no other fields. *)
Definition made (k : kind) (children : list node) : node := Parent k 0 children.

Definition INLINE_PARENT_TYPES (k : kind) : bool :=
  match k with Paragraph | Heading | Emphasis | Strong | Delete | Link | LinkReference => true | _ => false end.

(** ** Markers *)

(** A letter under the [i] and [u] flags: the fold of U+017F is s and that of U+212A is k. *)
Definition folds_to (lower c : Z) : bool :=
  (c =? lower) || (is_lower_ascii lower && (c =? lower - 32)) || ((lower =? 115) && (c =? 0x17F)) || ((lower =? 107) && (c =? 0x212A)).
Fixpoint folded_text (s : jstring) : re := match s with [] => Eps | c :: s' => Seq (Chars (folds_to c)) (folded_text s') end.
Definition marker_char (c : Z) : bool := negb ((c =? 93) || (c =? 13) || (c =? 10)).
(** [\[name=([^\]\r\n]{1,n})\]|\[\/name\]]. *)
Definition marker_pattern (name : jstring) (n : nat) : re :=
  ((folded_text (u "[" ++ name ++ u "=") +++ Group 1 (between 1 n (Chars marker_char)) +++ folded_text (u "]"))
   ||| folded_text (u "[/" ++ name ++ u "]"))%re.
Definition COLOR_MARKER : re := marker_pattern (u "color") 96.
Definition SIZE_MARKER : re := marker_pattern (u "size") 24.
Definition ALIGNMENT_OPEN_MARKER : re :=
  (StartOf false +++ folded_text (u ":::align") +++ plus blank +++
   Group 1 (folded_text (u "center") ||| folded_text (u "right")) +++ star blank +++ EndOf false)%re.
Definition ALIGNMENT_CLOSE_MARKER : re := (StartOf false +++ text (u ":::") +++ star blank +++ EndOf false)%re.
Definition LEGACY_MEMO_HTML : re :=
  (case_text (u "data-memo-") +++
   (case_text (u "align") ||| case_text (u "color") ||| case_text (u "size") ||| case_text (u "spoiler")) +++
   star space +++ char 61)%re.

(** [appendText]. *)
Fixpoint appendText (children : list node) (value : jstring) : list node :=
  match children with
  | [] => [Text value]
  | [Text previous] => [Text (previous ++ value)]
  | child :: children' => child :: appendText children' value
  end.
Definition append_text (children : list node) (value : jstring) : list node :=
  match value with [] => children | _ => appendText children value end.

(** ** Colours and sizes *)

Inductive token := TNode (n : node) | TOpen (attribute source : jstring) | TClose (source : jstring).

Section Markers.
Context (MARKER : re) (normalize : option jstring -> option jstring) (make : jstring -> kind).

(** One match in a text: the text before it, and the token it is. *)
Definition text_token (s : jstring) (from to : nat) : list token :=
  if (from <? to)%nat then [TNode (Text (slice s from to))] else [].
Definition marker_token (s : jstring) (m : rmatch) : token :=
  let source := slice s (m_from m) (m_to m) in
  match capture s m 1 with
  | None => TClose source
  | Some value => match normalize (Some value) with Some attribute => TOpen attribute source | None => TNode (Text source) end
  end.
Fixpoint text_tokens (s : jstring) (cursor : nat) (l : list rmatch) : list token :=
  match l with
  | [] => if (cursor <? length s)%nat then [TNode (Text (slice_from s cursor))] else []
  | m :: l' => text_token s cursor (m_from m) ++ marker_token s m :: text_tokens s (m_to m) l'
  end.
Definition child_tokens (child : node) : list token :=
  match child with Text value => text_tokens value 0 (match_all true MARKER value) | _ => [TNode child] end.
Definition tokenizeMarkers (children : list node) : list token := children ≫= child_tokens.

(** The frames are innermost first. *)
Record frame := { attribute : jstring; frame_source : jstring; frame_children : list node }.
Definition on_target (f : list node -> list node) (st : list node * list frame) : list node * list frame :=
  match st.2 with
  | [] => (f st.1, [])
  | top :: stack => (st.1, {| attribute := attribute top; frame_source := frame_source top; frame_children := f (frame_children top) |} :: stack)
  end.
Definition push_nodes (l : list node) : list node * list frame -> list node * list frame := on_target (fun children => children ++ l).

Definition marker_step (st : list node * list frame) (t : token) : list node * list frame :=
  match t with
  | TNode n => push_nodes [n] st
  | TOpen a source => (st.1, {| attribute := a; frame_source := source; frame_children := [] |} :: st.2)
  | TClose source =>
      match st.2 with
      | [] => on_target (fun children => append_text children source) st
      | top :: stack => push_nodes [made (make (attribute top)) (frame_children top)] (st.1, stack)
      end
  end.
(** The frames left open give back their markers, the innermost into the one around it. *)
Fixpoint unwind (output pending : list node) (stack : list frame) : list node :=
  match stack with
  | [] => output ++ pending
  | top :: stack' => unwind output (Text (frame_source top) :: frame_children top ++ pending) stack'
  end.
Definition build (tokens : list token) : list node :=
  let '(output, stack) := foldl marker_step ([], []) tokens in unwind output [] stack.
Definition transformMarkers (children : list node) : list node := build (tokenizeMarkers children).
End Markers.

Definition tokenizeColorMarkers : list node -> list token := tokenizeMarkers COLOR_MARKER normalizeMemoTextColor.
Definition transformColorMarkers : list node -> list node := transformMarkers COLOR_MARKER normalizeMemoTextColor MemoColor.
Definition tokenizeSizeMarkers : list node -> list token := tokenizeMarkers SIZE_MARKER normalizeMemoTextSize.
Definition transformSizeMarkers : list node -> list node := transformMarkers SIZE_MARKER normalizeMemoTextSize MemoSize.

(** The nodes a deep transformation goes into. *)
Definition on_children (p : kind -> bool) (f : list node -> list node) (n : node) : node :=
  match n with Parent k o children => if p k then Parent k o (f children) else n | _ => n end.
Definition sized_kind (k : kind) : bool := match k with MemoColor _ | MemoSize _ => true | _ => false end.
Definition spoiled_kind (k : kind) : bool := match k with MemoColor _ | MemoSize _ | MemoSpoiler => true | _ => false end.

(** The recursion of a deep transformation. *)
Fixpoint deep (p : kind -> bool) (f : list node -> list node) (fuel : nat) (children : list node) : list node :=
  match fuel with
  | O => children
  | S fuel' => map (on_children p (deep p f fuel')) (f children)
  end.

(** What the nodes weigh: a text its length, any other node one and its children. *)
Fixpoint weight (n : node) : nat :=
  match n with Text v => length v | Html v => length v | Leaf _ => 1 | Parent _ _ children => S (sum_list_with weight children) end.
Definition weights (l : list node) : nat := sum_list_with weight l.

Definition transformSizeMarkersDeep (children : list node) : list node := deep sized_kind transformSizeMarkers (S (weights children)) children.

(** ** Spoilers *)

(** [value.split("||")]. *)
Definition onto_head (c : Z) (pieces : list jstring) : list jstring :=
  match pieces with [] => [[c]] | p :: ps => (c :: p) :: ps end.
Fixpoint split_bars (s : jstring) : list jstring :=
  match s with
  | [] => [[]]
  | c :: s' =>
      match s' with
      | d :: rest => if (c =? 124) && (d =? 124) then [] :: split_bars rest else onto_head c (split_bars s')
      | [] => onto_head c [[]]
      end
  end.

(** The output and the nodes of an open spoiler. *)
Definition spoiler_target (f : list node -> list node) (st : list node * option (list node)) : list node * option (list node) :=
  match st.2 with Some hidden => (st.1, Some (f hidden)) | None => (f st.1, None) end.
Definition spoiler_toggle (st : list node * option (list node)) : list node * option (list node) :=
  match st.2 with Some hidden => (st.1 ++ [made MemoSpoiler hidden], None) | None => (st.1, Some []) end.
Fixpoint spoiler_pieces (pieces : list jstring) (st : list node * option (list node)) : list node * option (list node) :=
  match pieces with
  | [] => st
  | [piece] => spoiler_target (fun l => append_text l piece) st
  | piece :: pieces' => spoiler_pieces pieces' (spoiler_toggle (spoiler_target (fun l => append_text l piece) st))
  end.
Definition spoiler_step (st : list node * option (list node)) (child : node) : list node * option (list node) :=
  match child with
  | Text value => spoiler_pieces (split_bars value) st
  | _ => spoiler_target (fun l => l ++ [child]) st
  end.
Definition transformSpoilerMarkers (children : list node) : list node :=
  match foldl spoiler_step ([], None) children with
  | (output, Some hidden) => append_text output MEMO_SPOILER_MARKER ++ hidden
  | (output, None) => output
  end.
Definition transformSpoilerMarkersDeep (children : list node) : list node :=
  deep spoiled_kind transformSpoilerMarkers (S (weights children)) children.

(** ** Blocks *)

Definition paragraphMarker (n : node) : option jstring :=
  match n with Parent Paragraph _ [Text value] => Some (trim value) | _ => None end.
(** The alignment a paragraph opens; the marker has any case, the name of the alignment not. *)
Definition opens_alignment (n : node) : option MemoTextAlignment :=
  marker ← paragraphMarker n;
  m ← exec_from true ALIGNMENT_OPEN_MARKER marker 0;
  name ← capture marker m 1;
  if js_eqb name (alignment_text center) then Some center else if js_eqb name (alignment_text right) then Some right else None.
Definition closes_alignment (n : node) : bool := test true ALIGNMENT_CLOSE_MARKER (default [] (paragraphMarker n)).
Fixpoint index_of {A} (p : A -> bool) (l : list A) : option nat :=
  match l with [] => None | x :: l' => if p x then Some 0%nat else S <$> index_of p l' end.

(** [skip] children are inside the block just made, or its end. *)
Fixpoint align_from (skip : nat) (children : list node) : list node :=
  match children with
  | [] => []
  | child :: rest =>
      match skip with
      | S skip' => align_from skip' rest
      | O =>
          match opens_alignment child, index_of closes_alignment rest with
          | Some alignment, Some i => made (MemoAlignment alignment) (take i rest) :: align_from (S i) rest
          | _, _ => child :: align_from 0 rest
          end
      end
  end.
Definition transformAlignmentBlocks : list node -> list node := align_from 0.

(** [/^<(div|span)\b/i.exec(value)?.[1]], in lower case. *)
Definition LEGACY_TAG (tag : jstring) : re := (StartOf false +++ char 60 +++ case_text tag +++ NotNext is_word)%re.
Definition legacy_tag (value : jstring) : option jstring :=
  if test false (LEGACY_TAG (u "div")) value then Some (u "div")
  else if test false (LEGACY_TAG (u "span")) value then Some (u "span") else None.
Definition closes_tag (tag : jstring) (n : node) : bool :=
  match n with
  | Html value => test false (StartOf false +++ text (u "</") +++ case_text tag +++ star space +++ char 62 +++ EndOf false)%re (trim value)
  | _ => false
  end.
Definition html_to_text (n : node) : node := match n with Html value => Text value | _ => n end.
Definition escape_at (children : list node) (index : nat) : list node :=
  match children !! index with
  | Some (Html value) =>
      if test false LEGACY_MEMO_HTML value then
        let children' := <[index := Text value]> children in
        match legacy_tag value with
        | None => children'
        | Some tag =>
            match index_of (closes_tag tag) (drop (S index) children') with
            | Some i => alter html_to_text (S index + i)%nat children'
            | None => children'
            end
        end
      else children
  | _ => children
  end.
Definition escapeLegacyMemoHtml (children : list node) : list node := foldl escape_at children (seq 0 (length children)).

(** ** The tree *)

Definition inline_markers (k : kind) (children : list node) : list node :=
  if INLINE_PARENT_TYPES k
  then transformSpoilerMarkersDeep (transformSizeMarkersDeep (transformColorMarkers children)) else children.
Fixpoint transformTree (fuel : nat) (n : node) : node :=
  match fuel, n with
  | S fuel', Parent k o children =>
      Parent k o (inline_markers k (map (transformTree fuel') (transformAlignmentBlocks (escapeLegacyMemoHtml children))))
  | _, _ => n
  end.
Definition remarkMemoRichText (tree : node) : node := transformTree (weight tree) tree.

Example rich_text_sample :
  remarkMemoRichText (Parent (OtherParent (u "root")) 0
    [Parent Paragraph 1 [Text (u ":::align center")];
     Parent Paragraph 2 [Text (u "a [color=1,2,3,1]b "); Leaf 5; Text (u "||c [SIZE=12]d[/sIze]|| e[/color] [color=x]")];
     Parent Paragraph 3 [Text (u ":::")]])
  = Parent (OtherParent (u "root")) 0
      [made (MemoAlignment center)
        [Parent Paragraph 2
          [Text (u "a ");
           made (MemoColor (u "rgba(1, 2, 3, 1)"))
             [Text (u "b "); Leaf 5; made MemoSpoiler [Text (u "c "); made (MemoSize (u "12px")) [Text (u "d")]]; Text (u " e")];
           Text (u " [color=x]")]]].
Proof. vm_compute. reflexivity. Qed.

(** ** What a tree is written as *)

(** The leaves of a tree in order, with where its other nodes begin and end. *)
Inductive item := Char (c : Z) | OfLeaf (other : Z) | Begins (k : kind) (other : Z) | Ends.
Definition chars (s : jstring) : list item := Char <$> s.

Fixpoint items (n : node) : list item :=
  match n with
  | Text v => chars v
  | Html v => chars v
  | Leaf i => [OfLeaf i]
  | Parent k o children => Begins k o :: (children ≫= items) ++ [Ends]
  end.

(** A spelling of a letter under the flags, and of a text. *)
Definition spells (literal s : jstring) : Prop := Forall2 (fun l c => folds_to l c = true) literal s.
(** The marker that opens an attribute, and the one that closes it. *)
Definition opens (name : jstring) (normalize : option jstring -> option jstring) (attribute source : jstring) : Prop :=
  exists before value after, source = before ++ value ++ after
    /\ spells (u "[" ++ name ++ u "=") before /\ spells (u "]") after /\ normalize (Some value) = Some attribute.
Definition closes (name source : jstring) : Prop := spells (u "[/" ++ name ++ u "]") source.

Definition plain_kind (k : kind) : bool :=
  match k with MemoAlignment _ | MemoColor _ | MemoSize _ | MemoSpoiler => false | _ => true end.

(** The ways to write a tree down: its markers are those that mean its nodes. *)
Inductive written : node -> list item -> Prop :=
  | w_text v : written (Text v) (chars v)
  | w_html v : written (Html v) (chars v)
  | w_leaf i : written (Leaf i) [OfLeaf i]
  | w_parent k o children w : plain_kind k = true -> writes children w -> written (Parent k o children) (Begins k o :: w ++ [Ends])
  | w_color color o children w s e :
      opens (u "color") normalizeMemoTextColor color s -> closes (u "color") e -> writes children w ->
      written (Parent (MemoColor color) o children) (chars s ++ w ++ chars e)
  | w_size size o children w s e :
      opens (u "size") normalizeMemoTextSize size s -> closes (u "size") e -> writes children w ->
      written (Parent (MemoSize size) o children) (chars s ++ w ++ chars e)
  | w_spoiler o children w :
      writes children w -> written (Parent MemoSpoiler o children) (chars MEMO_SPOILER_MARKER ++ w ++ chars MEMO_SPOILER_MARKER)
  | w_alignment alignment o children w p q s e :
      opens_alignment (Parent Paragraph p [Text s]) = Some alignment -> closes_alignment (Parent Paragraph q [Text e]) = true ->
      writes children w ->
      written (Parent (MemoAlignment alignment) o children)
        (Begins Paragraph p :: chars s ++ [Ends] ++ w ++ Begins Paragraph q :: chars e ++ [Ends])
with writes : list node -> list item -> Prop :=
  | ws_nil : writes [] []
  | ws_cons n l w ws : written n w -> writes l ws -> writes (n :: l) (w ++ ws).
#[local] Hint Constructors written writes : core.

(** A tree of the parser is written as its leaves. *)
Fixpoint plain (n : node) : bool :=
  match n with Parent k _ children => plain_kind k && forallb plain children | _ => true end.

Lemma node_ind' (P : node -> Prop) :
  (forall v, P (Text v)) -> (forall v, P (Html v)) -> (forall i, P (Leaf i)) ->
  (forall k o children, Forall P children -> P (Parent k o children)) -> forall n, P n.
Proof.
  intros Ht Hh Hl Hp. fix IH 1. intros [v|v|i|k o children]; [apply Ht|apply Hh|apply Hl|].
  apply Hp. induction children as [|c children IHc]; constructor; [apply IH|exact IHc].
Qed.

Lemma plain_written n : plain n = true -> written n (items n).
Proof.
  induction n as [v|v|i|k o children IH] using node_ind'; cbn [plain items]; auto.
  intros [Hk Hc]%andb_true_iff. constructor; [done|]. clear Hk. induction IH as [|c l Hcw _ IHl]; [constructor|].
  cbn [forallb] in Hc. apply andb_true_iff in Hc as [H1 H2]. cbn [mbind list_bind]. constructor; [by apply Hcw|by apply IHl].
Qed.

Lemma writes_app l1 l2 w : writes (l1 ++ l2) w <-> exists w1 w2, w = w1 ++ w2 /\ writes l1 w1 /\ writes l2 w2.
Proof.
  revert w. induction l1 as [|n l1 IH]; intros w; cbn [app].
  - split; [intros H; exists [], w; by split; [|split]|]. intros (w1 & w2 & -> & H1 & H2). inversion H1; subst. done.
  - split.
    + intros H. inversion H as [|n' l w1 w2 H1 H2]; subst. apply IH in H2 as (w3 & w4 & -> & H3 & H4).
      exists (w1 ++ w3), w4. rewrite app_assoc. auto.
    + intros (w1 & w2 & -> & H1 & H2). inversion H1 as [|n' l w3 w4 H3 H4]; subst. rewrite <- app_assoc. constructor; [done|].
      apply IH. by exists w4, w2.
Qed.
Lemma writes_one n w : writes [n] w <-> written n w.
Proof.
  split; [|intros H; rewrite <- (app_nil_r w); auto]. intros H. inversion H as [|n' l w1 w2 H1 H2]; subst. inversion H2; subst.
  by rewrite app_nil_r.
Qed.
Lemma written_text v w : written (Text v) w <-> w = chars v.
Proof. split; [by inversion 1|intros ->; auto]. Qed.

(** A transformation of a list that keeps every way to write it. *)
Definition keeps (f : list node -> list node) : Prop := forall l w, writes l w -> writes (f l) w.

Lemma writes_append_text l v w : writes l w -> writes (append_text l v) (w ++ chars v).
Proof.
  assert (forall w, writes l w -> writes (appendText l v) (w ++ chars v)) as H.
  { induction l as [|n l IH]; intros w' Hw.
    - inversion Hw; subst. apply writes_one. auto.
    - inversion Hw as [|n' l' w1 w2 H1 H2]; subst. cbn [appendText].
      assert (writes (n :: appendText l v) ((w1 ++ w2) ++ chars v)) as Hc by (rewrite <- app_assoc; constructor; auto).
      destruct n, l; try exact Hc. apply written_text in H1 as ->. inversion H2; subst. apply writes_one. rewrite app_nil_r.
      apply written_text. unfold chars. by rewrite fmap_app. }
  unfold append_text. destruct v; [|by apply H]. by rewrite app_nil_r.
Qed.

(** ** Markers keep what is written *)

Section MarkerFacts.
Context (name : jstring) (n : nat) (normalize : option jstring -> option jstring) (make : jstring -> kind).
Let MARKER := marker_pattern name n.
Context (make_written : forall a o children w s e,
  opens name normalize a s -> closes name e -> writes children w -> written (Parent (make a) o children) (chars s ++ w ++ chars e)).

Inductive token_written : token -> list item -> Prop :=
  | tw_node m w : written m w -> token_written (TNode m) w
  | tw_open a s : opens name normalize a s -> token_written (TOpen a s) (chars s)
  | tw_close s : closes name s -> token_written (TClose s) (chars s).
Inductive tokens_written : list token -> list item -> Prop :=
  | tws_nil : tokens_written [] []
  | tws_cons t ts w ws : token_written t w -> tokens_written ts ws -> tokens_written (t :: ts) (w ++ ws).
#[local] Hint Constructors token_written tokens_written : core.

Lemma tokens_written_app ts1 ts2 w1 w2 : tokens_written ts1 w1 -> tokens_written ts2 w2 -> tokens_written (ts1 ++ ts2) (w1 ++ w2).
Proof. induction 1 as [|t ts w ws Ht _ IH]; intros H2; [done|]. cbn [app]. rewrite <- app_assoc. auto. Qed.

(** *** A marker in a text *)

Lemma matches_one s p i caps st :
  matches true s (Chars p) (i, caps) st -> (forall c, p c = true -> c <= 0xFFFF) ->
  exists c, s !! i = Some c /\ p c = true /\ st = ((i + 1)%nat, caps).
Proof.
  intros H Hp. inversion H as [|p' i' size c caps' Hc Hpc| | | | | | | | | |]; subst. unfold char_at in Hc.
  apply fmap_Some in Hc as (d & Hd & [= -> ->]). pose proof (Hp d Hpc) as Hle. exists d.
  unfold code_point_size. rewrite Z.gtb_ltb, (proj2 (Z.ltb_ge _ _)) by done. split_and!; try done.
  unfold code_point_at in Hd. destruct (s !! i) as [c|] eqn:Ei; [|done]. destruct (is_high_surrogate c) eqn:Eh; [|by injection Hd as ->].
  destruct (s !! (i + 1)%nat) as [d'|]; [|by injection Hd as ->]. destruct (is_low_surrogate d') eqn:El; [|by injection Hd as ->].
  exfalso. injection Hd as <-. unfold is_high_surrogate, is_low_surrogate in *. bool_prop. lia.
Qed.

Lemma folds_to_bound l c : l <= 0xFFFF -> folds_to l c = true -> c <= 0xFFFF.
Proof. unfold folds_to. intros Hl H. rewrite !orb_true_iff, !andb_true_iff, !Z.eqb_eq in H. naive_solver lia. Qed.

Lemma matches_folded s literal i caps st :
  Forall (fun l => l <= 0xFFFF) literal -> matches true s (folded_text literal) (i, caps) st ->
  st = ((i + length literal)%nat, caps) /\ spells literal (slice s i (i + length literal)).
Proof.
  intros Hl. revert i. induction Hl as [|l literal Hle _ IH]; intros i H; cbn [folded_text length] in *.
  - apply matches_eps in H as ->. rewrite Nat.add_0_r. split; [done|]. unfold slice. rewrite Nat.sub_diag. constructor.
  - apply matches_seq in H as ([i' caps'] & H1 & H2). apply matches_one in H1 as (c & Hc & Hf & [= -> ->]); [|intros c; by apply folds_to_bound].
    apply IH in H2 as [-> H2]. split; [f_equal; lia|].
    rewrite (slice_app_split s i (i + 1)) by lia. rewrite (slice_one _ _ _ Hc). constructor; [done|].
    replace (i + S (length literal))%nat with (i + 1 + length literal)%nat by lia. exact H2.
Qed.

Lemma matches_caps u0 s p caps m1 m2 i st :
  matches u0 s (between m1 m2 (Chars p)) (i, caps) st -> (i <= st.1)%nat /\ st.2 = caps.
Proof.
  intros H. split; [by apply matches_advances in H as [? _]|].
  assert (forall k i caps st, matches u0 s (times k (Chars p)) (i, caps) st -> st.2 = caps) as Ht.
  { induction k as [|k IH]; intros j c st' Hm; cbn [times] in Hm; [by apply matches_eps in Hm as ->|].
    apply matches_seq in Hm as ([j' c'] & H1 & H2). inversion H1; subst. by eapply IH. }
  assert (forall k i caps st, matches u0 s (up_to k (Chars p)) (i, caps) st -> st.2 = caps) as Hu.
  { induction k as [|k IH]; intros j c st' Hm; cbn [up_to] in Hm; [by apply matches_eps in Hm as ->|].
    apply matches_alt in Hm as [Hm|Hm]; [|by apply matches_eps in Hm as ->].
    apply matches_seq in Hm as ([j' c'] & H1 & H2). inversion H1; subst. by eapply IH. }
  unfold between in H. apply matches_seq in H as ([j c] & H1 & H2). apply Ht in H1. apply Hu in H2. cbn in *. congruence.
Qed.

Context (name_ascii : Forall (fun c => c <= 0xFFFF) name).

Lemma ascii_parts : Forall (fun c => c <= 0xFFFF) (u "[" ++ name ++ u "=") /\ Forall (fun c => c <= 0xFFFF) (u "[/" ++ name ++ u "]").
Proof. split; rewrite !Forall_app; split_and!; try done; repeat constructor; done. Qed.

Lemma marker_token_written s m :
  matches true s MARKER (m_from m, []) (m_to m, m_caps m) ->
  token_written (marker_token normalize s m) (chars (slice s (m_from m) (m_to m))).
Proof.
  intros H. unfold marker_token. rewrite capture_cap_of. unfold MARKER, marker_pattern in H. destruct ascii_parts as [Ho Hc].
  apply matches_alt in H as [H|H].
  - apply matches_seq in H as ([i1 c1] & H1 & H). apply matches_folded in H1 as [[= -> ->] H1]; [|done].
    apply matches_seq in H as ([i2 c2] & H2 & H3). apply matches_group in H2 as ([i2' c2'] & H2 & [= -> ->]).
    apply matches_caps in H2 as [Hle Hcaps]. cbn [fst snd] in Hle, Hcaps. subst c2'.
    apply matches_folded in H3 as [[= Hto Hm] H3]; [|repeat constructor; done]. rewrite Hm. cbn [cap_of Nat.eqb fmap option_fmap option_map fst snd].
    set (a := (m_from m + length (u "[" ++ name ++ u "="))%nat) in *.
    change (m_from m + S (length (name ++ u "=")))%nat with a in *.
    destruct (normalize _) as [attribute|] eqn:E; [|by repeat constructor]. constructor.
    exists (slice s (m_from m) a), (slice s a i2'), (slice s i2' (m_to m)). split; [|split; [exact H1|split; [|exact E]]].
    + rewrite <- (slice_app_split s a i2') by lia. apply slice_app_split. lia.
    + rewrite Hto. exact H3.
  - apply matches_folded in H as [[= Hto Hm] H]; [|done]. rewrite Hm. cbn [cap_of fmap option_fmap option_map]. constructor.
    unfold closes. rewrite Hto. exact H.
Qed.

Lemma chars_app a b : chars (a ++ b) = chars a ++ chars b.
Proof. unfold chars. by rewrite fmap_app. Qed.

(** The matches of a text from an offset on are in order. *)
Fixpoint in_order (s : jstring) (i : nat) (l : list rmatch) : Prop :=
  match l with
  | [] => True
  | m :: l' => (i <= m_from m <= m_to m)%nat /\ matches true s MARKER (m_from m, []) (m_to m, m_caps m) /\ in_order s (m_to m) l'
  end.
Lemma in_order_weaken s i j l : (i <= j)%nat -> in_order s j l -> in_order s i l.
Proof. destruct l as [|m l]; [done|]. cbn [in_order]. intros ? (? & ? & ?). split_and!; try done; lia. Qed.

Lemma match_all_in_order s : in_order s 0 (match_all true MARKER s).
Proof.
  unfold match_all. generalize (length s + 2)%nat. intros fuel. generalize 0%nat.
  induction fuel as [|fuel IH]; intros i; cbn [match_all_fuel]; [done|]. destruct (length s <? i)%nat; [done|].
  destruct (exec_from true MARKER s i) as [m|] eqn:E; [|done]. apply exec_from_Some in E as (H1 & H2 & H3).
  split; [lia|]. split; [done|]. eapply in_order_weaken; [|apply IH]. destruct (m_to m =? m_from m)%nat; lia.
Qed.

Lemma text_token_written s i j : tokens_written (text_token s i j) (chars (slice s i j)).
Proof.
  unfold text_token. destruct (i <? j)%nat eqn:E; bool_prop.
  - rewrite <- (app_nil_r (chars _)). repeat constructor.
  - unfold slice. replace (j - i)%nat with 0%nat by lia. constructor.
Qed.

Lemma text_tokens_written s i l : in_order s i l -> tokens_written (text_tokens normalize s i l) (chars (slice_from s i)).
Proof.
  revert i. induction l as [|m l IH]; intros i; cbn [text_tokens in_order].
  - intros _. destruct (i <? length s)%nat eqn:E; bool_prop.
    + rewrite <- (app_nil_r (chars _)). repeat constructor.
    + unfold slice_from. rewrite drop_ge by lia. constructor.
  - intros (Hle & Hm & Hl). rewrite (slice_then_from s i (m_from m)), (slice_then_from s (m_from m) (m_to m)), !chars_app by lia.
    apply tokens_written_app; [apply text_token_written|]. constructor; [by apply marker_token_written|]. by apply IH.
Qed.

Lemma tokenize_written l w : writes l w -> tokens_written (tokenizeMarkers MARKER normalize l) w.
Proof.
  revert w. induction l as [|child l IH]; intros w H; inversion H as [|n' l' w1 w2 H1 H2]; subst; [constructor|].
  unfold tokenizeMarkers. cbn [mbind list_bind]. apply tokens_written_app; [|by apply IH]. unfold child_tokens.
  assert (tokens_written [TNode child] w1) as Hone by (rewrite <- (app_nil_r w1); repeat constructor; done).
  destruct child; try exact Hone. apply written_text in H1 as ->. rewrite <- (drop_0 value) at 3. apply text_tokens_written, match_all_in_order.
Qed.

(** *** The frames *)

Inductive frames_written : list frame -> list item -> Prop :=
  | fw_nil : frames_written [] []
  | fw_cons f stack w ws : opens name normalize (attribute f) (frame_source f) -> writes (frame_children f) w -> frames_written stack ws ->
      frames_written (f :: stack) (ws ++ chars (frame_source f) ++ w).
#[local] Hint Constructors frames_written : core.
Definition state_written (st : list node * list frame) (w : list item) : Prop :=
  exists w1 w2, w = w1 ++ w2 /\ writes st.1 w1 /\ frames_written st.2 w2.

Lemma push_written st w (f : list node -> list node) w' :
  (forall l v, writes l v -> writes (f l) (v ++ w')) -> state_written st w -> state_written (on_target f st) (w ++ w').
Proof.
  intros Hf (w1 & w2 & -> & H1 & H2). destruct st as [output stack]. cbn [fst snd] in *. unfold on_target. cbn [fst snd].
  destruct H2 as [|fr stack w3 ws Ho Hc Hs].
  - exists (w1 ++ w'), []. rewrite !app_nil_r. split; [done|]. split; [by apply Hf|constructor].
  - exists w1, (ws ++ chars (frame_source fr) ++ w3 ++ w'). rewrite <- !app_assoc. split; [done|]. split; [done|].
    apply (fw_cons {| attribute := attribute fr; frame_source := frame_source fr; frame_children := f (frame_children fr) |});
      [done|by apply Hf|done].
Qed.

Lemma marker_step_written st w t w' :
  state_written st w -> token_written t w' -> state_written (marker_step make st t) (w ++ w').
Proof.
  intros Hst Ht. destruct Ht as [m w' Hm|a s Ho|s Hs]; cbn [marker_step].
  - apply push_written; [|done]. intros l v Hl. apply writes_app. exists v, w'. rewrite writes_one. auto.
  - destruct Hst as (w1 & w2 & -> & H1 & H2). exists w1, (w2 ++ chars s ++ []). rewrite app_nil_r, app_assoc. split; [done|].
    split; [done|]. cbn [snd]. rewrite <- (app_nil_r (chars s)).
    apply (fw_cons {| attribute := a; frame_source := s; frame_children := [] |}); [done|constructor|done].
  - destruct st as [output [|top stack]]; cbn [snd fst]; [apply push_written; [|done]; intros l v; apply writes_append_text|].
    destruct Hst as (w1 & w2 & -> & H1 & H2). inversion H2 as [|f' stack' w3 ws Ho Hc Hfs]; subst.
    replace ((w1 ++ ws ++ chars (frame_source top) ++ w3) ++ chars s) with ((w1 ++ ws) ++ (chars (frame_source top) ++ w3 ++ chars s))
      by by rewrite <- !app_assoc.
    apply push_written; [|by exists w1, ws]. intros l v Hl. apply writes_app. eexists v, _. split; [reflexivity|]. split; [done|].
    apply writes_one. by apply make_written.
Qed.

Lemma unwind_written output pending stack w1 w2 w3 :
  writes output w1 -> frames_written stack w2 -> writes pending w3 -> writes (unwind output pending stack) (w1 ++ w2 ++ w3).
Proof.
  intros H1 H2. revert pending w3. induction H2 as [|f stack w ws _ Hc _ IH]; intros pending w3 H3; cbn [unwind].
  - apply writes_app. by exists w1, w3.
  - rewrite <- !app_assoc. apply IH. constructor; [constructor|]. apply writes_app. by exists w, w3.
Qed.

Lemma transformMarkers_keeps : keeps (transformMarkers MARKER normalize make).
Proof.
  intros l w Hl%tokenize_written. unfold transformMarkers, build.
  assert (forall ts w ws st, state_written st w -> tokens_written ts ws -> state_written (foldl (marker_step make) st ts) (w ++ ws)) as Hloop.
  { induction ts as [|t ts IH]; intros v ws st Hst Hts; inversion Hts as [|t' ts' w1 w2 H1 H2]; subst; [by rewrite app_nil_r|].
    cbn [foldl]. rewrite app_assoc. apply IH; [by apply marker_step_written|done]. }
  pose proof (Hloop _ [] w ([], []) ltac:(exists [], []; repeat constructor) Hl) as (w1 & w2 & E & H1 & H2).
  destruct (foldl _ _ _) as [output stack]. cbn [app fst snd] in *. subst w.
  rewrite <- (app_nil_r w2). apply unwind_written; auto.
Qed.
End MarkerFacts.

Lemma colors_keep : keeps transformColorMarkers.
Proof. apply transformMarkers_keeps; [apply w_color|repeat constructor; done]. Qed.
Lemma sizes_keep : keeps transformSizeMarkers.
Proof. apply transformMarkers_keeps; [apply w_size|repeat constructor; done]. Qed.

(** Going into nodes keeps what is written. *)
Lemma on_children_written p f n w : keeps f -> written n w -> written (on_children p f n) w.
Proof.
  intros Hf H. destruct n as [v|v|i|k o children]; try done. cbn [on_children]. destruct (p k); [|done].
  inversion H; subst; econstructor; eauto.
Qed.
Lemma map_keeps f l w : (forall n w, written n w -> written (f n) w) -> writes l w -> writes (map f l) w.
Proof.
  intros Hf. revert w. induction l as [|n l IH]; intros w H; inversion H; subst; cbn [map]; constructor; auto.
Qed.
Lemma deep_keeps p f fuel : keeps f -> keeps (deep p f fuel).
Proof.
  intros Hf. induction fuel as [|fuel IH]; intros l w Hl; [done|]. cbn [deep]. apply map_keeps; [|by apply Hf].
  intros n v. by apply on_children_written.
Qed.

(** ** Spoilers keep what is written *)

(** The text of pieces, the bars between them. *)
Fixpoint joined (pieces : list jstring) : jstring :=
  match pieces with [] => [] | [p] => p | p :: ps => p ++ MEMO_SPOILER_MARKER ++ joined ps end.
Lemma joined_onto_head c pieces : joined (onto_head c pieces) = c :: joined pieces.
Proof. by destruct pieces as [|p [|q ps]]. Qed.
Lemma onto_head_nonempty c l : onto_head c l <> [].
Proof. by destruct l. Qed.
Lemma split_bars_nonempty s : split_bars s <> [].
Proof. destruct s as [|c [|d rest]]; [done..|]. cbn [split_bars]. destruct (_ && _); [done|]. apply onto_head_nonempty. Qed.
Lemma split_bars_joined s : joined (split_bars s) = s.
Proof.
  induction s as [s IH] using (induction_ltof1 _ (@length Z)). unfold ltof in IH. destruct s as [|c [|d rest]]; [done..|].
  cbn [split_bars]. destruct ((c =? 124) && (d =? 124)) eqn:E.
  - apply andb_true_iff in E as [->%Z.eqb_eq ->%Z.eqb_eq]. assert (joined (split_bars rest) = rest) as Hr by (apply IH; cbn; lia).
    destruct (split_bars rest) as [|p ps] eqn:Es; [by destruct (split_bars_nonempty rest)|]. change (joined ([] :: p :: ps)) with (124 :: 124 :: joined (p :: ps)). by rewrite Hr.
  - rewrite joined_onto_head. f_equal. exact (IH (d :: rest) ltac:(cbn; lia)).
Qed.

(** The state after what is written so far. *)
Definition spoiler_written (st : list node * option (list node)) (w : list item) : Prop :=
  match st.2 with
  | None => writes st.1 w
  | Some hidden => exists w1 w2, w = w1 ++ chars MEMO_SPOILER_MARKER ++ w2 /\ writes st.1 w1 /\ writes hidden w2
  end.

Lemma spoiler_target_written st w f w' :
  (forall l v, writes l v -> writes (f l) (v ++ w')) -> spoiler_written st w -> spoiler_written (spoiler_target f st) (w ++ w').
Proof.
  intros Hf. destruct st as [output [hidden|]]; unfold spoiler_written; cbn [snd fst spoiler_target]; [|apply Hf].
  intros (w1 & w2 & -> & H1 & H2). exists w1, (w2 ++ w'). rewrite <- !app_assoc. split; [done|]. split; [done|by apply Hf].
Qed.

Lemma spoiler_toggle_written st w : spoiler_written st w -> spoiler_written (spoiler_toggle st) (w ++ chars MEMO_SPOILER_MARKER).
Proof.
  destruct st as [output [hidden|]]; unfold spoiler_written; cbn [snd fst spoiler_toggle].
  - intros (w1 & w2 & -> & H1 & H2). rewrite <- !app_assoc. apply writes_app. eexists w1, _. split; [reflexivity|]. split; [done|].
    apply writes_one. by constructor.
  - intros H. exists w, []. rewrite app_nil_r. auto.
Qed.

Lemma spoiler_pieces_written pieces st w :
  pieces <> [] -> spoiler_written st w -> spoiler_written (spoiler_pieces pieces st) (w ++ chars (joined pieces)).
Proof.
  revert st w. induction pieces as [|p [|q ps] IH]; intros st w Hne Hst; [done| |].
  - cbn [spoiler_pieces joined]. apply spoiler_target_written; [|done]. intros l v. apply writes_append_text.
  - change (spoiler_pieces (p :: q :: ps) st) with (spoiler_pieces (q :: ps) (spoiler_toggle (spoiler_target (fun l => append_text l p) st))).
    change (joined (p :: q :: ps)) with (p ++ MEMO_SPOILER_MARKER ++ joined (q :: ps)). rewrite !chars_app, !app_assoc.
    apply IH; [done|]. apply spoiler_toggle_written, spoiler_target_written; [|done]. intros l v. apply writes_append_text.
Qed.

Lemma spoilers_keep : keeps transformSpoilerMarkers.
Proof.
  assert (forall l w ws st, spoiler_written st w -> writes l ws -> spoiler_written (foldl spoiler_step st l) (w ++ ws)) as Hloop.
  { induction l as [|n l IH]; intros w ws st Hst Hl; inversion Hl as [|n' l' w1 w2 H1 H2]; subst; [by rewrite app_nil_r|].
    cbn [foldl]. rewrite app_assoc. apply IH; [|done].
    assert (spoiler_written (spoiler_target (fun l => l ++ [n]) st) (w ++ w1)) as Hn.
    { apply spoiler_target_written; [|done]. intros l0 v Hv. apply writes_app. exists v, w1. by rewrite writes_one. }
    destruct n; try exact Hn. apply written_text in H1 as ->. cbn [spoiler_step]. rewrite <- (split_bars_joined value) at 2.
    apply spoiler_pieces_written; [apply split_bars_nonempty|done]. }
  intros l w Hl. unfold transformSpoilerMarkers. pose proof (Hloop l [] w ([], None) ltac:(constructor) Hl) as H.
  destruct (foldl _ _ _) as [output [hidden|]]; [|exact H]. destruct H as (w1 & w2 & E & H1 & H2). cbn [app fst] in *. subst w.
  rewrite app_assoc. apply writes_app. eexists _, w2. split; [reflexivity|]. split; [by apply writes_append_text|done].
Qed.

(** ** Blocks keep what is written *)

Lemma paragraphMarker_Some n s : paragraphMarker n = Some s -> exists o v, n = Parent Paragraph o [Text v].
Proof. destruct n as [| | |[] o [|[] []]]; try done. intros _. by eexists _, _. Qed.

Lemma opens_alignment_Some n a : opens_alignment n = Some a -> exists o v, n = Parent Paragraph o [Text v].
Proof. unfold opens_alignment. destruct (paragraphMarker n) eqn:E; [|done]. intros _. by eapply paragraphMarker_Some. Qed.

Lemma closes_alignment_true n : closes_alignment n = true -> exists o v, n = Parent Paragraph o [Text v].
Proof.
  unfold closes_alignment. destruct (paragraphMarker n) eqn:E; [intros _; by eapply paragraphMarker_Some|]. by vm_compute.
Qed.

Lemma written_paragraph o v w : written (Parent Paragraph o [Text v]) w <-> w = Begins Paragraph o :: chars v ++ [Ends].
Proof.
  split; [|intros ->; constructor; [done|by apply writes_one, written_text]].
  intros H. inversion H as [| | |k' o' ch' w' Hk Hw| | | |]; subst. by apply writes_one, written_text in Hw as ->.
Qed.

Lemma index_of_found {A} (p : A -> bool) l i : index_of p l = Some i -> exists x, l !! i = Some x /\ p x = true.
Proof.
  revert i. induction l as [|x l IH]; intros i; cbn [index_of]; [done|]. destruct (p x) eqn:E; [intros [= <-]; by exists x|].
  destruct (index_of p l) as [j|]; [|done]. intros [= <-]. by apply IH.
Qed.

Lemma align_skip skip l : align_from skip l = align_from 0 (drop skip l).
Proof. revert skip. induction l as [|n l IH]; intros [|skip]; try done. cbn [align_from drop]. apply IH. Qed.

Lemma alignment_keeps : keeps transformAlignmentBlocks.
Proof.
  intros l. unfold transformAlignmentBlocks. induction l as [l IH] using (induction_ltof1 _ (@length node)). unfold ltof in IH.
  intros w Hw. destruct l as [|n rest]; [done|]. inversion Hw as [|n' l' w1 w2 H1 H2]; subst. cbn [align_from].
  assert (writes (n :: align_from 0 rest) (w1 ++ w2)) as Hrest by (constructor; [done|]; apply IH; [cbn; lia|done]).
  destruct (opens_alignment n) as [a|] eqn:Ea; [|done]. destruct (index_of closes_alignment rest) as [i|] eqn:Ei; [|done].
  pose proof (opens_alignment_Some n a Ea) as (p & s & ->). apply index_of_found in Ei as (c & Hi & Hc).
  pose proof (closes_alignment_true c Hc) as (q & e & ->). apply written_paragraph in H1 as ->.
  rewrite <- (take_drop_middle _ _ _ Hi) in H2. apply writes_app in H2 as (w3 & w4 & -> & H3 & H4).
  inversion H4 as [|n' l' w5 w6 H5 H6]; subst. apply written_paragraph in H5 as ->.
  rewrite align_skip. match goal with |- writes _ ?x => replace x with
    ((Begins Paragraph p :: chars s ++ [Ends] ++ w3 ++ Begins Paragraph q :: chars e ++ [Ends]) ++ w6) end.
  - constructor; [by constructor|]. apply IH; [|done]. cbn [length]. rewrite length_drop. lia.
  - by repeat (rewrite <- ?app_assoc; cbn [app]).
Qed.

Lemma html_to_text_written n w : written n w -> written (html_to_text n) w.
Proof. destruct n; try done. inversion 1; subst. constructor. Qed.
Lemma writes_alter f l i w : (forall n v, written n v -> written (f n) v) -> writes l w -> writes (alter f i l) w.
Proof.
  intros Hf. revert i w. induction l as [|x l IH]; intros i w Hw; [done|]. inversion Hw; subst.
  destruct i as [|i]; cbn; constructor; auto.
Qed.

(** Escaping turns nodes of HTML into text, and nothing else. *)
Lemma escape_at_ind (P : list node -> Prop) l i : P l -> (forall l j, P l -> P (alter html_to_text j l)) -> P (escape_at l i).
Proof.
  intros H0 Hstep. unfold escape_at. destruct (l !! i) as [[| value| |]|] eqn:Ei; try done. destruct (test _ _ _); [|done].
  assert (<[i:=Text value]> l = alter html_to_text i l) as ->.
  { rewrite list_insert_alter. apply list_alter_ext; [|done]. intros x Hx. rewrite Ei in Hx. by injection Hx as <-. }
  destruct (legacy_tag value) as [tag|]; [|by apply Hstep]. destruct (index_of _ _) as [j|]; [|by apply Hstep]. by apply Hstep, Hstep.
Qed.
Lemma escape_ind (P : list node -> Prop) l : P l -> (forall l j, P l -> P (alter html_to_text j l)) -> P (escapeLegacyMemoHtml l).
Proof.
  intros H0 Hstep. unfold escapeLegacyMemoHtml. generalize (seq 0 (length l)) as is_. intros is_. revert l H0.
  induction is_ as [|i is_ IH]; intros l H0; cbn [foldl]; [done|]. apply IH. by apply escape_at_ind.
Qed.
Lemma escape_keeps : keeps escapeLegacyMemoHtml.
Proof.
  intros l w Hw. apply (escape_ind (fun l => writes l w)); [done|]. intros l' j H. apply writes_alter; [|done]. apply html_to_text_written.
Qed.

(** ** The tree *)

Lemma inline_keeps k : keeps (inline_markers k).
Proof.
  intros l w Hl. unfold inline_markers. destruct (INLINE_PARENT_TYPES k); [|done].
  apply (deep_keeps _ _ _ spoilers_keep), (deep_keeps _ _ _ sizes_keep), colors_keep, Hl.
Qed.

Lemma writes_parent_children k o l l' w :
  (forall v, writes l v -> writes l' v) -> written (Parent k o l) w -> written (Parent k o l') w.
Proof. intros H Hw. inversion Hw; subst; econstructor; eauto. Qed.

Lemma transformTree_keeps fuel n w : written n w -> written (transformTree fuel n) w.
Proof.
  revert n w. induction fuel as [|fuel IH]; intros n w Hw; [done|]. destruct n as [v|v|i|k o children]; try done. cbn [transformTree].
  eapply writes_parent_children; [|exact Hw]. intros v Hv. apply inline_keeps, map_keeps; [done|]. by apply alignment_keeps, escape_keeps.
Qed.

(** C19. The plugin loses nothing of a memo: the tree of the parser, read leaf by leaf, is one
    way to write the tree the plugin makes, where a colour, a size, a spoiler or an
    alignment is written by markers that mean it; markers that open or close nothing stay
    in the text, and so does the HTML of the removed syntax. *)
Theorem rich_text_keeps_source (tree : node) (Hplain : plain tree = true) : written (remarkMemoRichText tree) (items tree).
Proof. unfold remarkMemoRichText. by apply transformTree_keeps, plain_written. Qed.

(** ** Pairs *)

Section Pairs.
Context (make : jstring -> kind).

(** Markers that close what they open, and the nodes they make. *)
Inductive balanced : list token -> list node -> Prop :=
  | b_nil : balanced [] []
  | b_node n ts l : balanced ts l -> balanced (TNode n :: ts) (n :: l)
  | b_pair a s e ts1 l1 ts2 l2 :
      balanced ts1 l1 -> balanced ts2 l2 -> balanced (TOpen a s :: ts1 ++ TClose e :: ts2) (made (make a) l1 :: l2).

Lemma push_nil st : push_nodes [] st = st.
Proof. destruct st as [output [|[a s children] stack]]; unfold push_nodes, on_target; cbn; by rewrite app_nil_r. Qed.
Lemma push_app l1 l2 st : push_nodes (l1 ++ l2) st = push_nodes l2 (push_nodes l1 st).
Proof. destruct st as [output [|[a s children] stack]]; unfold push_nodes, on_target; cbn; by rewrite app_assoc. Qed.

Lemma balanced_pushes ts l st : balanced ts l -> foldl (marker_step make) st ts = push_nodes l st.
Proof.
  intros H. revert st. induction H as [|n ts l _ IH|a s e ts1 l1 ts2 l2 _ IH1 _ IH2]; intros st.
  - by rewrite push_nil.
  - cbn [foldl marker_step]. by rewrite IH, <- push_app.
  - cbn [foldl]. rewrite foldl_app, IH1. cbn [foldl]. rewrite IH2.
    change (made (make a) l1 :: l2) with ([made (make a) l1] ++ l2). rewrite push_app. by destruct st as [output stack].
Qed.

Lemma nodes_balanced l : balanced (TNode <$> l) l.
Proof. induction l; by constructor. Qed.

(** C20. Markers that pair up make their nodes wherever they stand: between any markers
    before and after, even unmatched ones, a run of balanced markers can be replaced by
    the nodes it spans, one node with its attribute for each pair, nested as they are. *)
Theorem marker_pairs_nest (before pairs after : list token) (nodes : list node) (Hpairs : balanced pairs nodes) :
  build make (before ++ pairs ++ after) = build make (before ++ (TNode <$> nodes) ++ after).
Proof.
  unfold build. rewrite !foldl_app. by rewrite (balanced_pushes pairs nodes _ Hpairs), (balanced_pushes (TNode <$> nodes) nodes _ (nodes_balanced nodes)).
Qed.
End Pairs.

(** ** Termination *)

Definition token_weight (t : token) : nat := match t with TNode n => weight n | TOpen _ s => length s | TClose s => length s end.
Definition tokens_weight (ts : list token) : nat := sum_list_with token_weight ts.

Lemma weights_app l1 l2 : weights (l1 ++ l2) = (weights l1 + weights l2)%nat.
Proof. unfold weights. apply sum_list_with_app. Qed.
Lemma weights_cons n l : weights (n :: l) = (weight n + weights l)%nat.
Proof. done. Qed.
Lemma weight_made k l : weight (made k l) = S (weights l).
Proof. done. Qed.
Lemma weight_In n l : n ∈ l -> (weight n <= weights l)%nat.
Proof. induction 1; rewrite weights_cons; lia. Qed.
Lemma append_text_weight l v : weights (append_text l v) = (weights l + length v)%nat.
Proof.
  assert (weights (appendText l v) = weights l + length v)%nat as H.
  { induction l as [|n l IH]; [cbn; lia|]. rewrite weights_cons. cbn [appendText].
    destruct n, l; rewrite ?weights_cons in *; cbn [weight weights sum_list_with] in *; rewrite ?length_app; try lia;
      unfold weights in *; cbn [sum_list_with weight] in *; lia. }
  unfold append_text. destruct v; [cbn; lia|done].
Qed.

Section MarkerWeights.
Context (name : jstring) (n : nat) (normalize : option jstring -> option jstring) (make : jstring -> kind).
Context (name_ascii : Forall (fun c => c <= 0xFFFF) name).
Let MARKER := marker_pattern name n.

Lemma marker_token_weight s m : token_weight (marker_token normalize s m) = length (slice s (m_from m) (m_to m)).
Proof. unfold marker_token. destruct (capture s m 1); [|done]. by destruct (normalize _). Qed.

Lemma text_tokens_weight s i l : in_order name n s i l -> tokens_weight (text_tokens normalize s i l) = length (slice_from s i).
Proof.
  revert i. induction l as [|m l IH]; intros i; cbn [text_tokens in_order].
  - intros _. destruct (i <? length s)%nat eqn:E; bool_prop; [cbn; lia|]. unfold slice_from. by rewrite drop_ge by lia.
  - intros (Hle & Hm & Hl). rewrite (slice_then_from s i (m_from m)), (slice_then_from s (m_from m) (m_to m)), !length_app by lia.
    unfold tokens_weight. rewrite sum_list_with_app. cbn [sum_list_with]. rewrite marker_token_weight. fold (tokens_weight (text_tokens normalize s (m_to m) l)).
    rewrite (IH _ Hl). f_equal. unfold text_token. destruct (i <? m_from m)%nat eqn:E; bool_prop; [cbn; lia|].
    unfold slice. replace (m_from m - i)%nat with 0%nat by lia. done.
Qed.

Lemma tokenize_weight l : tokens_weight (tokenizeMarkers MARKER normalize l) = weights l.
Proof.
  induction l as [|c l IH]; [done|]. unfold tokenizeMarkers in *. cbn [mbind list_bind]. unfold tokens_weight. rewrite sum_list_with_app.
  fold (tokens_weight (l ≫= child_tokens MARKER normalize)). rewrite IH, weights_cons. f_equal.
  destruct c; cbn [child_tokens]; try (cbn; lia). fold (tokens_weight (text_tokens normalize value 0 (match_all true MARKER value))).
  apply text_tokens_weight, match_all_in_order.
Qed.

Lemma tokenize_closes l s : TClose s ∈ tokenizeMarkers MARKER normalize l -> (1 <= length s)%nat.
Proof.
  unfold tokenizeMarkers. rewrite list_elem_of_bind. intros (c & Hin & _). destruct c; cbn [child_tokens] in Hin;
    try (by apply list_elem_of_singleton in Hin).
  cut (forall l' i, in_order name n value i l' -> TClose s ∈ text_tokens normalize value i l' -> (1 <= length s)%nat).
  { intros H. by eapply H, Hin; apply match_all_in_order. }
  clear Hin. induction l' as [|m l' IH]; intros i Ho; cbn [text_tokens].
  - destruct (_ <? _)%nat; [by intros ?%list_elem_of_singleton|by intros ?%elem_of_nil].
  - destruct Ho as (_ & Hm & Ho). rewrite elem_of_app, elem_of_cons. intros [H|[H|H]]; [|clear IH|by eapply IH].
    + unfold text_token in H. destruct (_ <? _)%nat; [by apply list_elem_of_singleton in H|by apply elem_of_nil in H].
    + pose proof (marker_token_written name n normalize name_ascii value m Hm) as Hw. rewrite <- H in Hw.
      inversion Hw as [| |s' Hc Heq]; subst. unfold closes in Hc. apply Forall2_length in Hc. rewrite <- Hc. cbn. lia.
Qed.

Definition frame_weight (f : frame) : nat := (length (frame_source f) + weights (frame_children f))%nat.
Definition state_weight (st : list node * list frame) : nat := (weights st.1 + sum_list_with frame_weight st.2)%nat.

Lemma on_target_weight f k st : (forall l, weights (f l) = weights l + k)%nat -> state_weight (on_target f st) = (state_weight st + k)%nat.
Proof.
  intros Hf. destruct st as [output [|top stack]]; unfold on_target, state_weight; cbn [fst snd sum_list_with]; [rewrite Hf; lia|].
  unfold frame_weight at 1. cbn [frame_source frame_children]. rewrite Hf. unfold frame_weight at 2. lia.
Qed.
Lemma push_weight l st : state_weight (push_nodes l st) = (state_weight st + weights l)%nat.
Proof. apply on_target_weight. intros l'. apply weights_app. Qed.

Lemma marker_step_weight st t :
  (forall s, t = TClose s -> (1 <= length s)%nat) -> (state_weight (marker_step make st t) <= state_weight st + token_weight t)%nat.
Proof.
  intros Hc. destruct t as [c|a s|s]; cbn [marker_step token_weight].
  - rewrite push_weight, weights_cons. cbn. lia.
  - unfold state_weight. cbn [fst snd sum_list_with]. unfold frame_weight at 1. cbn. lia.
  - destruct st as [output [|top stack]]; cbn [snd fst].
    + rewrite (on_target_weight _ (length s)) by (intros l; apply append_text_weight). lia.
    + rewrite push_weight, weights_cons, weight_made. unfold state_weight. cbn [fst snd sum_list_with].
      assert (frame_weight top = length (frame_source top) + weights (frame_children top))%nat as -> by done.
      change (weights []) with 0%nat. specialize (Hc s eq_refl). lia.
Qed.

Lemma unwind_weight output pending stack :
  weights (unwind output pending stack) = (state_weight (output, stack) + weights pending)%nat.
Proof.
  revert pending. induction stack as [|f stack IH]; intros pending; cbn [unwind].
  - rewrite weights_app. unfold state_weight. cbn [fst snd sum_list_with]. lia.
  - rewrite IH, weights_cons, weights_app. unfold state_weight. cbn [fst snd sum_list_with weight].
    assert (frame_weight f = length (frame_source f) + weights (frame_children f))%nat as -> by done. lia.
Qed.

Lemma transformMarkers_weight l : (weights (transformMarkers MARKER normalize make l) <= weights l)%nat.
Proof.
  unfold transformMarkers, build. rewrite <- (tokenize_weight l). pose proof (tokenize_closes l) as Hc. revert Hc.
  generalize (tokenizeMarkers MARKER normalize l) as ts. intros ts Hc.
  assert (forall st, state_weight (foldl (marker_step make) st ts) <= state_weight st + tokens_weight ts)%nat as Hloop.
  { induction ts as [|t ts IH]; intros st; cbn [foldl]; [unfold tokens_weight; cbn; lia|]. etransitivity; [apply IH|].
    - intros s Hs. apply Hc. by right.
    - pose proof (marker_step_weight st t) as H. unfold tokens_weight in *. cbn [sum_list_with].
      specialize (H ltac:(intros s ->; apply Hc; by left)). lia. }
  specialize (Hloop ([], [])). destruct (foldl _ _ _) as [output stack]. rewrite unwind_weight. unfold state_weight in *. cbn in *. lia.
Qed.
End MarkerWeights.

Lemma colors_weight l : (weights (transformColorMarkers l) <= weights l)%nat.
Proof. apply transformMarkers_weight. repeat constructor; done. Qed.
Lemma sizes_weight l : (weights (transformSizeMarkers l) <= weights l)%nat.
Proof. apply transformMarkers_weight. repeat constructor; done. Qed.

Definition spoiler_weight (st : list node * option (list node)) : nat :=
  (weights st.1 + match st.2 with Some hidden => weights hidden + 2 | None => 0 end)%nat.
Lemma spoiler_target_weight f k st :
  (forall l, weights (f l) = weights l + k)%nat -> spoiler_weight (spoiler_target f st) = (spoiler_weight st + k)%nat.
Proof. intros Hf. destruct st as [output [hidden|]]; unfold spoiler_target, spoiler_weight; cbn [fst snd]; rewrite Hf; lia. Qed.
Lemma spoiler_toggle_weight st : (spoiler_weight (spoiler_toggle st) <= spoiler_weight st + 2)%nat.
Proof.
  destruct st as [output [hidden|]]; unfold spoiler_toggle, spoiler_weight; cbn [fst snd];
    rewrite ?weights_app, ?weights_cons, ?weight_made; unfold weights; cbn; lia.
Qed.
Lemma spoiler_pieces_weight pieces st : (spoiler_weight (spoiler_pieces pieces st) <= spoiler_weight st + length (joined pieces))%nat.
Proof.
  revert st. induction pieces as [|p [|q ps] IH]; intros st; [cbn; lia| |].
  - cbn [spoiler_pieces joined]. rewrite (spoiler_target_weight _ (length p)) by (intros l; apply append_text_weight). lia.
  - change (spoiler_pieces (p :: q :: ps) st) with (spoiler_pieces (q :: ps) (spoiler_toggle (spoiler_target (fun l => append_text l p) st))).
    change (joined (p :: q :: ps)) with (p ++ MEMO_SPOILER_MARKER ++ joined (q :: ps)). rewrite !length_app.
    etransitivity; [apply IH|]. pose proof (spoiler_toggle_weight (spoiler_target (fun l => append_text l p) st)) as H.
    rewrite (spoiler_target_weight _ (length p)) in H by (intros l; apply append_text_weight). cbn. lia.
Qed.
Lemma spoilers_weight l : (weights (transformSpoilerMarkers l) <= weights l)%nat.
Proof.
  assert (forall st, spoiler_weight (foldl spoiler_step st l) <= spoiler_weight st + weights l)%nat as Hloop.
  { induction l as [|c l IH]; intros st; cbn [foldl]; [cbn; lia|]. rewrite weights_cons. etransitivity; [apply IH|].
    assert (spoiler_weight (spoiler_step st c) <= spoiler_weight st + weight c)%nat; [|lia].
    assert (spoiler_weight (spoiler_target (fun l => l ++ [c]) st) = spoiler_weight st + weight c)%nat as Hc.
    { apply spoiler_target_weight. intros l'. rewrite weights_app, weights_cons. unfold weights. cbn. lia. }
    destruct c; cbn [spoiler_step]; rewrite ?Hc; try done. cbn [weight]. rewrite <- (split_bars_joined value) at 2. apply spoiler_pieces_weight. }
  specialize (Hloop ([], None)). unfold transformSpoilerMarkers. destruct (foldl _ _ _) as [output [hidden|]]; unfold spoiler_weight in Hloop;
    cbn [fst snd] in Hloop; [rewrite weights_app, append_text_weight|]; cbn in *; lia.
Qed.

Lemma on_children_weight p f n : (forall l, weights (f l) <= weights l)%nat -> (weight (on_children p f n) <= weight n)%nat.
Proof. intros Hf. destruct n as [| | |k o children]; try done. cbn [on_children]. destruct (p k); [|done]. pose proof (Hf children). cbn. unfold weights in *. lia. Qed.
Lemma map_weight (f : node -> node) l : (forall n, n ∈ l -> (weight (f n) <= weight n)%nat) -> (weights (map f l) <= weights l)%nat.
Proof.
  induction l as [|n l IH]; intros Hf; [done|]. cbn [map]. rewrite !weights_cons. pose proof (Hf n ltac:(by left)).
  specialize (IH ltac:(intros; apply Hf; by right)). lia.
Qed.

Section Deep.
Context (p : kind -> bool) (f : list node -> list node) (f_weight : forall l, (weights (f l) <= weights l)%nat).

Lemma deep_weight fuel l : (weights (deep p f fuel l) <= weights l)%nat.
Proof.
  revert l. induction fuel as [|fuel IH]; intros l; [done|]. cbn [deep]. etransitivity; [|apply f_weight]. apply map_weight.
  intros n _. by apply on_children_weight.
Qed.

(** Fuel above the weight is never used up. *)
Lemma deep_fuel a b l : (weights l < a)%nat -> (weights l < b)%nat -> deep p f a l = deep p f b l.
Proof.
  revert b l. induction a as [|a IH]; intros [|b] l Ha Hb; try lia. cbn [deep]. apply map_ext_in. intros n Hn%list_elem_of_In.
  destruct n as [| | |k o children]; try done. cbn [on_children]. destruct (p k); [|done]. f_equal.
  apply weight_In in Hn. change (weight (Parent k o children)) with (S (weights children)) in Hn. pose proof (f_weight l). apply IH; lia.
Qed.

Lemma deep_equation l : deep p f (S (weights l)) l = map (on_children p (fun l' => deep p f (S (weights l')) l')) (f l).
Proof.
  change (deep p f (S (weights l)) l) with (map (on_children p (deep p f (weights l))) (f l)).
  apply map_ext_in. intros n Hn%list_elem_of_In. destruct n as [| | |k o children]; try done. unfold on_children.
  destruct (p k); [|done]. f_equal. apply weight_In in Hn. change (weight (Parent k o children)) with (S (weights children)) in Hn.
  pose proof (f_weight l). apply (deep_fuel _ (S (weights children))); lia.
Qed.
End Deep.

Lemma escape_weight l : (weights (escapeLegacyMemoHtml l) <= weights l)%nat.
Proof.
  apply (escape_ind (fun l' => weights l' <= weights l)%nat); [done|]. intros l' j Hl'. etransitivity; [|exact Hl']. clear Hl'.
  revert j. induction l' as [|n l' IH]; intros j; [done|]. destruct j as [|j]; [by destruct n|].
  change (weights (n :: alter html_to_text j l') <= weights (n :: l'))%nat. rewrite !weights_cons. specialize (IH j). lia.
Qed.
Lemma alignment_weight l : (weights (transformAlignmentBlocks l) <= weights l)%nat.
Proof.
  unfold transformAlignmentBlocks. induction l as [l IH] using (induction_ltof1 _ (@length node)). unfold ltof in IH.
  destruct l as [|n rest]; [done|]. cbn [align_from]. rewrite weights_cons. pose proof (IH rest ltac:(cbn; lia)) as Hrest.
  assert (weights (n :: align_from 0 rest) <= weight n + weights rest)%nat by (rewrite weights_cons; lia).
  destruct (opens_alignment n) as [a|] eqn:Ea; [|done]. destruct (index_of closes_alignment rest) as [i|] eqn:Ei; [|done].
  rewrite align_skip, weights_cons, weight_made. pose proof (opens_alignment_Some n a Ea) as (o & v & ->).
  pose proof (IH (drop (S i) rest) ltac:(cbn [length]; rewrite length_drop; lia)) as Hd.
  assert (weights rest = weights (take i rest) + weights (drop i rest))%nat as -> by (rewrite <- weights_app, take_drop; done).
  apply index_of_found in Ei as (c & Hi & _). rewrite (drop_S _ _ _ Hi), weights_cons. cbn [weight sum_list_with]. lia.
Qed.
Lemma blocks_weight l : (weights (transformAlignmentBlocks (escapeLegacyMemoHtml l)) <= weights l)%nat.
Proof. etransitivity; [apply alignment_weight|apply escape_weight]. Qed.

Lemma transformTree_fuel a b n : (weight n <= a)%nat -> (weight n <= b)%nat -> transformTree a n = transformTree b n.
Proof.
  revert b n. induction a as [|a IH]; intros b n Ha Hb; (destruct n as [v|v|i|k o children]; [by destruct b..|]);
    change (weight (Parent k o children)) with (S (weights children)) in *; [lia|]. destruct b as [|b]; [lia|]. cbn [transformTree].
  do 2 f_equal. apply map_ext_in. intros n Hn%list_elem_of_In%weight_In. pose proof (blocks_weight children). apply IH; lia.
Qed.

(** The plugin ends on every tree, although it goes into nodes it has just made: it is
    the function that escapes and groups the blocks of a node, goes into every child and
    then reads the markers, where reading the sizes and the spoilers goes into every node
    a marker made, at any depth. *)
Theorem rich_text_terminates (k : kind) (other : Z) (children l : list node) :
  remarkMemoRichText (Parent k other children)
  = Parent k other (inline_markers k (map remarkMemoRichText (transformAlignmentBlocks (escapeLegacyMemoHtml children))))
  /\ transformSizeMarkersDeep l = map (on_children sized_kind transformSizeMarkersDeep) (transformSizeMarkers l)
  /\ transformSpoilerMarkersDeep l = map (on_children spoiled_kind transformSpoilerMarkersDeep) (transformSpoilerMarkers l).
Proof.
  split; [|split; [exact (deep_equation _ _ sizes_weight l)|exact (deep_equation _ _ spoilers_weight l)]].
  unfold remarkMemoRichText at 1. change (weight (Parent k other children)) with (S (weights children)). cbn [transformTree]. do 2 f_equal.
  apply map_ext_in. intros n Hn%list_elem_of_In%weight_In. pose proof (blocks_weight children). apply transformTree_fuel; lia.
Qed.

(** ** Samples *)

Definition sample_tree : node :=
  Parent (OtherParent (u "root")) 0
    [Parent Paragraph 1 [Text (u ":::align right")]; Parent Paragraph 2 [Text (u "[color=1,2,3]a||b||[/color]")]; Parent Paragraph 3 [Text (u ":::")]].

Lemma rich_text_keeps_source_witness : written (remarkMemoRichText sample_tree) (items sample_tree).
Proof. apply (rich_text_keeps_source sample_tree). reflexivity. Defined.

Lemma marker_pairs_nest_witness (open := TOpen (u "red") (u "[color=red]")) (close := TClose (u "[/color]")) (x := TNode (Text (u "x"))) :
  build MemoColor ([open] ++ [open; x; close] ++ [close; close])
  = build MemoColor ([open] ++ [TNode (made (MemoColor (u "red")) [Text (u "x")])] ++ [close; close]).
Proof.
  apply (marker_pairs_nest MemoColor [open] [open; x; close] [close; close] [made (MemoColor (u "red")) [Text (u "x")]]).
  apply (b_pair MemoColor (u "red") (u "[color=red]") (u "[/color]") [x] [Text (u "x")] [] []); repeat constructor.
Defined.

(** The marker is recognised in any case, the name of the alignment only in lower case. *)
Example alignment_case :
  (opens_alignment (Parent Paragraph 0 [Text (u ":::ALIGN center")]), opens_alignment (Parent Paragraph 0 [Text (u ":::align Center")]),
   test false ALIGNMENT_OPEN_LINE (u ":::align Center"))
  = (Some center, None, true).
Proof. vm_compute. reflexivity. Qed.
