(* ===== verification/PrivacyCheck.v ===== *)
(** * Private details in a memo about to go public

    web/src/utils/privacy-check.ts.  The patterns run without the [u] flag, so on code
    units; those with the [i] flag are written on both cases of their ASCII letters,
    which is what [i] means for them (a unit from 128 on never folds onto ASCII). *)

From S2P Require Import Prelude JSString HostUnicode JSRegExp.

Inductive PrivacyKind := phone | id_card | bank_card | email | secret | private_key | private_ip.
#[export] Instance privacy_kind_eq_dec : EqDecision PrivacyKind.
Proof. solve_decision. Defined.

Definition PRIVACY_KINDS : list PrivacyKind := [phone; id_card; bank_card; email; secret; private_key; private_ip].

Record PrivacyFinding := { kind : PrivacyKind; ptext : jstring }.
#[export] Instance privacy_finding_eq_dec : EqDecision PrivacyFinding.
Proof. solve_decision. Defined.

Definition digitsOf (text : jstring) : jstring := js_filter is_digit text.

(** [Number(c)] of a digit. *)
Definition digit_number (c : Z) : Z := c - 48.

Definition id_weights : list Z := [7; 9; 10; 5; 8; 4; 2; 1; 6; 3; 7; 9; 10; 5; 8; 4; 2].
(** [weights.reduce(...)]; past the end of the text [Number(undefined)] makes the sum
    NaN, and the check then fails. *)
Definition id_sum (text : jstring) : option Z :=
  foldl (fun total '(index, weight) => t ← total; c ← text !! index; Some (t + weight * digit_number c))
    (Some 0) (imap pair id_weights).

Definition isIdCardNumber (text : jstring) : bool :=
  match id_sum text, text !! 17%nat with
  | Some sum, Some c => bool_decide (u "10X98765432" !! Z.to_nat (sum mod 11) = Some (upper_ascii c))
  | _, _ => false
  end.

(** One turn of the loop of [passesLuhn]. *)
Definition luhn_digit (index : nat) (digit : Z) : Z :=
  if (index mod 2 =? 1)%nat then (let doubled := digit * 2 in if doubled >? 9 then doubled - 9 else doubled) else digit.

Definition passesLuhn (digits : jstring) : bool :=
  foldl (fun sum '(index, c) => sum + luhn_digit index (digit_number c)) 0 (imap pair (rev digits)) mod 10 =? 0.

Open Scope re_scope.

(** ASCII text with the [i] flag. *)
Definition fold_char (c : Z) : re := Chars (fun d => lower_ascii d =? lower_ascii c).
Fixpoint fold_text (s : jstring) : re :=
  match s with [] => Eps | [c] => fold_char c | c :: s' => fold_char c +++ fold_text s' end.
Definition fold_string (s : string) : re := fold_text (u s).

Definition class (p : Z -> bool) : re := Chars p.
Definition at_least (n : nat) (r : re) : re := times n r +++ star r.
Definition is_alpha (c : Z) : bool := is_upper_ascii c || is_lower_ascii c.
Definition word_or_dash (c : Z) : bool := is_word c || (c =? 45).
Definition alnum : re := Chars is_alnum_ascii.
Fixpoint any_of (rs : list re) : re := match rs with [] => Eps | [r] => r | r :: rs' => r ||| any_of rs' end.
Definition literal (s : string) : re := text (u s).

Definition PLACEHOLDER : re :=
  (StartOf false +++ (one_of (u "<{[$*") ||| at_least 3 (fold_char 120) ||| text (u "...")))
  ||| fold_string "your" ||| fold_string "example" ||| text [0x793A; 0x4F8B] ||| fold_string "placeholder".

Definition TOKEN_PATTERNS : list re :=
  [ literal "sk-" +++ opt (literal "ant-" ||| literal "proj-") +++ at_least 20 (class word_or_dash);
    literal "gh" +++ one_of (u "pousr") +++ char 95 +++ at_least 36 alnum;
    literal "github_pat_" +++ at_least 22 (class is_word);
    literal "AKIA" +++ times 16 (class (fun c => is_digit c || is_upper_ascii c));
    literal "AIza" +++ times 35 (class word_or_dash);
    literal "xox" +++ one_of (u "abprs") +++ char 45 +++ at_least 10 (class word_or_dash);
    literal "memos_pat_" +++ at_least 16 (class is_word);
    literal "eyJ" +++ at_least 8 (class word_or_dash) +++ literal ".eyJ" +++ at_least 8 (class word_or_dash)
      +++ char 46 +++ at_least 8 (class word_or_dash) ].

Record Rule := { rule_kind : PrivacyKind; pattern : re; accept : jstring -> rmatch -> bool; pick : jstring -> rmatch -> jstring }.

(** [match[0]] and [match[1]]. *)
Definition whole_match (content : jstring) (m : rmatch) : jstring := slice content (m_from m) (m_to m).
Definition first_group (content : jstring) (m : rmatch) : jstring := default [] (capture content m 1).

Definition separator : re := one_of (u " -").
Definition secret_unit (c : Z) : bool := negb (is_space c) && negb (existsb (Z.eqb c) [34; 39; 44; 59]) && (c <? 0x80).
Definition domain_char : re := Chars (fun c => is_alnum_ascii c || (c =? 45)).
Definition mailbox_char (c : Z) : bool := is_word c || existsb (Z.eqb c) (u ".%+-").

Definition RULES : list Rule :=
  [ {| rule_kind := private_key;
       pattern := literal "-----BEGIN " +++ star (plus (class is_upper_ascii) +++ char 32) +++ literal "PRIVATE KEY-----";
       accept := fun _ _ => true; pick := whole_match |};
    {| rule_kind := secret; pattern := NotPrev word_or_dash +++ any_of TOKEN_PATTERNS;
       accept := fun _ _ => true; pick := whole_match |};
    {| rule_kind := secret;
       pattern := any_of [fold_string "password"; fold_string "passwd"; fold_string "pwd"; fold_string "secret";
                          fold_string "token"; fold_string "api" +++ opt (one_of (u "_-")) +++ fold_string "key";
                          text [0x5BC6; 0x7801]; text [0x53E3; 0x4EE4]]
         +++ star space +++ one_of [58; 61; 0xFF1A] +++ star space +++ opt (one_of [34; 39])
         +++ Group 1 (at_least 4 (class secret_unit));
       accept := fun content m => negb (test false PLACEHOLDER (first_group content m)); pick := first_group |};
    {| rule_kind := id_card;
       pattern := NotPrev is_alnum_ascii +++ class (fun c => (49 <=? c) && (c <=? 57)) +++ times 5 digit
         +++ any_of [literal "18"; literal "19"; literal "20"] +++ times 2 digit
         +++ any_of [char 48 +++ class (fun c => (49 <=? c) && (c <=? 57)); char 49 +++ one_of (u "012")]
         +++ any_of [char 48 +++ class (fun c => (49 <=? c) && (c <=? 57)); one_of (u "12") +++ digit; char 51 +++ one_of (u "01")]
         +++ times 3 digit +++ class (fun c => is_digit c || (c =? 88) || (c =? 120)) +++ NotNext is_alnum_ascii;
       accept := fun content m => isIdCardNumber (whole_match content m); pick := whole_match |};
    {| rule_kind := phone;
       pattern := NotPrev (fun c => is_digit c || (c =? 43))
         +++ opt (opt (char 43) +++ literal "86" +++ opt separator)
         +++ char 49 +++ class (fun c => (51 <=? c) && (c <=? 57)) +++ digit
         +++ times 2 (opt separator +++ times 4 digit) +++ NotNext is_digit;
       accept := fun _ _ => true; pick := whole_match |};
    {| rule_kind := bank_card;
       pattern := NotPrev is_digit +++ class (fun c => (51 <=? c) && (c <=? 54)) +++ times 3 digit
         +++ times 2 (opt separator +++ times 4 digit) +++ opt separator +++ between 4 7 digit +++ NotNext is_digit;
       accept := fun content m =>
         let digits := digitsOf (whole_match content m) in
         (16 <=? length digits)%nat && (length digits <=? 19)%nat && passesLuhn digits;
       pick := whole_match |};
    {| rule_kind := email;
       pattern := NotPrev mailbox_char +++ plus (class mailbox_char) +++ char 64 +++ plus domain_char
         +++ star (char 46 +++ plus domain_char) +++ char 46 +++ at_least 2 (class is_alpha);
       accept := fun content m => negb (test false
         (char 64 +++ any_of [fold_string "example" +++ char 46 +++ any_of [fold_string "com"; fold_string "org"; fold_string "net"];
                             fold_string "localhost"] +++ EndOf false) (whole_match content m));
       pick := whole_match |};
    {| rule_kind := private_ip;
       pattern := NotPrev (fun c => is_digit c || (c =? 46))
         +++ any_of [literal "10." +++ between 1 3 digit;
                     literal "172." +++ any_of [char 49 +++ class (fun c => (54 <=? c) && (c <=? 57)); char 50 +++ digit;
                                                char 51 +++ one_of (u "01")];
                     literal "192.168"]
         +++ char 46 +++ between 1 3 digit +++ char 46 +++ between 1 3 digit
         +++ NotNext (fun c => is_digit c || (c =? 46));
       accept := fun _ _ => true; pick := whole_match |} ].

Close Scope re_scope.

(** A match of a rule, its range, and what it reports. *)
Definition candidate : Type := Rule * rmatch.
Definition overlaps (c : candidate) (range : nat * nat) : bool :=
  (m_from c.2 <? range.2)%nat && (range.1 <? m_to c.2)%nat.
Definition reported (content : jstring) (c : candidate) : PrivacyFinding :=
  {| kind := rule_kind c.1; ptext := pick c.1 content c.2 |}.

Record scan := { findings : list PrivacyFinding; seen : list PrivacyFinding; taken : list (nat * nat) }.

(** One turn of the inner loop; the set [seen] holds the pairs the keys spell. *)
Definition scan_match (content : jstring) (st : scan) (c : candidate) : scan :=
  if existsb (overlaps c) (taken st) then st
  else if negb (accept c.1 content c.2) then st
  else
    let taken' := taken st ++ [(m_from c.2, m_to c.2)] in
    let key := reported content c in
    if bool_decide (key ∈ seen st) then {| findings := findings st; seen := seen st; taken := taken' |}
    else {| findings := findings st ++ [key]; seen := seen st ++ [key]; taken := taken' |}.

Definition scan_rule (content : jstring) (st : scan) (rule : Rule) : scan :=
  foldl (fun st m => scan_match content st (rule, m)) st (match_all false (pattern rule) content).

Definition findPrivateInfo (content : jstring) : list PrivacyFinding :=
  findings (foldl (scan_rule content) {| findings := []; seen := []; taken := [] |} RULES).

(** [text.split("@")]: a text without a domain prints it as undefined. *)
Definition maskFinding (f : PrivacyFinding) : jstring :=
  let text := ptext f in
  match kind f with
  | private_ip | private_key => text
  | email =>
      let parts := split_on 64 text in
      slice (default [] (parts !! 0%nat)) 0 1 ++ u "***@" ++ default (u "undefined") (parts !! 1%nat)
  | secret => slice text 0 (Nat.min 6 (length text / 2)) ++ [0x2026]
  | k =>
      let digits := match k with
                    | phone => let ds := digitsOf text in slice_from ds (length ds - 11)
                    | _ => js_filter (fun c => negb (is_space c || (c =? 45))) text
                    end in
      slice digits 0 3 ++ replicate (Nat.max 4 (length digits - 7)) 42 ++ slice_from digits (length digits - 4)
  end.

(** Samples. *)
Example privacy_samples :
  findPrivateInfo (u "call +86 138-1234-5678 or a.b@corp.cn, 10.0.0.12; token: abcd1234, me@example.com")
  = [ {| kind := secret; ptext := u "abcd1234" |}; {| kind := phone; ptext := u "+86 138-1234-5678" |};
      {| kind := email; ptext := u "a.b@corp.cn" |}; {| kind := private_ip; ptext := u "10.0.0.12" |} ]
  /\ maskFinding <$> [ {| kind := phone; ptext := u "+86 138-1234-5678" |}; {| kind := email; ptext := u "a.b@corp.cn" |};
                       {| kind := secret; ptext := u "abcd1234" |}; {| kind := id_card; ptext := u "11010519491231002X" |} ]
     = [ u "138****5678"; u "a***@corp.cn"; u "abcd" ++ [0x2026]; u "110***********002X" ]
  /\ findPrivateInfo (u "11010519491231002X 4111 1111 1111 1111 and 4111111111111112")
     = [ {| kind := id_card; ptext := u "11010519491231002X" |}; {| kind := bank_card; ptext := u "4111 1111 1111 1111" |} ].
Proof. vm_compute. repeat split. Qed.

(** ** What a scan keeps *)

(** The matches of all rules, in rule order. *)
Definition candidates (content : jstring) : list candidate :=
  RULES ≫= fun rule => (fun m => (rule, m)) <$> match_all false (pattern rule) content.

Definition accepted (content : jstring) (c : candidate) : Prop := accept c.1 content c.2 = true.
Definition range (c : candidate) : nat * nat := (m_from c.2, m_to c.2).
(** Neither match has text of the other. *)
Definition apart (c d : candidate) : Prop := overlaps c (range d) = false.

Section Scan.
Variable content : jstring.

(** What holds after the candidates of [l], of which [kept] were kept. *)
Record scanned (l kept : list candidate) (st : scan) : Prop := {
  kept_sublist : kept `sublist_of` l;
  kept_accepted : Forall (accepted content) kept;
  kept_apart : StronglySorted (fun c d => apart d c) kept;
  kept_taken : taken st = range <$> kept;
  kept_findings : findings st = dedup (reported content <$> kept);
  kept_seen : seen st = findings st;
  kept_first : forall i c, l !! i = Some c -> accepted content c ->
    c ∈ kept \/ exists j d, (j < i)%nat /\ l !! j = Some d /\ d ∈ kept /\ overlaps c (range d) = true
}.

Lemma scanned_match l kept st c :
  scanned l kept st -> exists kept', scanned (l ++ [c]) kept' (scan_match content st c).
Proof.
  intros [Hsub Hacc Hap Ht Hf Hs Hfirst].
  assert (forall kept', kept ⊆ kept' ->
    (accepted content c -> c ∈ kept' \/ exists j d, (j < length l)%nat /\ l !! j = Some d /\ d ∈ kept' /\ overlaps c (range d) = true) ->
    forall i x, (l ++ [c]) !! i = Some x -> accepted content x ->
      x ∈ kept' \/ exists j d, (j < i)%nat /\ (l ++ [c]) !! j = Some d /\ d ∈ kept' /\ overlaps x (range d) = true) as Hgrow.
  { intros kept' Hin Hlast i x Hi Hx. apply lookup_app_Some in Hi as [Hi|[Hle Hi]].
    - destruct (Hfirst i x Hi Hx) as [?|(j & d & Hj & Hd & Hk & Ho)]; [left; set_solver|right].
      exists j, d. split; [done|]. split; [by apply lookup_app_l_Some|]. set_solver.
    - apply list_lookup_singleton_Some in Hi as [Hi <-]. destruct (Hlast Hx) as [?|(j & d & Hj & Hd & Hk & Ho)]; [by left|right].
      exists j, d. split; [lia|]. split; [by apply lookup_app_l_Some|]. done. }
  unfold scan_match. destruct (existsb (overlaps c) (taken st)) eqn:Eo.
  - exists kept. constructor; try done; [by apply sublist_inserts_r|]. apply Hgrow; [done|]. intros _. right.
    apply existsb_exists in Eo as (r & Hr & Ho). rewrite Ht in Hr. apply list_elem_of_In, list_elem_of_fmap in Hr as (d & -> & Hd).
    destruct (list_elem_of_lookup_1 l d) as [j Hj]; [by eapply sublist_subseteq|].
    exists j, d. split; [by eapply lookup_lt_Some|]. done.
  - destruct (accept c.1 content c.2) eqn:Ea; cbn [negb].
    + assert (StronglySorted (fun c d => apart d c) (kept ++ [c])) as Hap'.
      { apply StronglySorted_app_2; [|done|repeat constructor].
        intros d e Hd ->%list_elem_of_singleton. unfold apart.
        destruct (overlaps c (range d)) eqn:E; [|done]. exfalso. rewrite <- not_true_iff_false in Eo. apply Eo.
        apply existsb_exists. exists (range d). split; [|done]. rewrite Ht. apply list_elem_of_In, list_elem_of_fmap. eauto. }
      exists (kept ++ [c]). case_bool_decide as Hin; (constructor; cbn [taken findings seen]; try done).
      * by apply sublist_app.
      * by apply Forall_app_2; [|constructor].
      * by rewrite fmap_app, Ht.
      * rewrite fmap_app. cbn. rewrite dedup_snoc. rewrite decide_True; [done|]. by rewrite <- Hf, <- Hs.
      * apply Hgrow; [set_solver|]. intros _. left. set_solver.
      * by apply sublist_app.
      * by apply Forall_app_2; [|constructor].
      * by rewrite fmap_app, Ht.
      * rewrite fmap_app. cbn. rewrite dedup_snoc. rewrite decide_False; [by rewrite Hf|]. by rewrite <- Hf, <- Hs.
      * by rewrite Hs.
      * apply Hgrow; [set_solver|]. intros _. left. set_solver.
    + exists kept. constructor; try done; [by apply sublist_inserts_r|]. apply Hgrow; [done|].
      intros Hc. unfold accepted in Hc. congruence.
Qed.

Lemma scanned_fold cs l kept st :
  scanned l kept st -> exists kept', scanned (l ++ cs) kept' (foldl (scan_match content) st cs).
Proof.
  revert l kept st. induction cs as [|c cs IH]; intros l kept st H.
  - exists kept. by rewrite app_nil_r.
  - destruct (scanned_match _ _ _ c H) as [kept' H']. destruct (IH _ _ _ H') as [kept'' H'']. exists kept''.
    by rewrite <- app_assoc in H''.
Qed.

Lemma scan_rules rules st :
  foldl (scan_rule content) st rules
  = foldl (scan_match content) st (rules ≫= fun rule => (fun m => (rule, m)) <$> match_all false (pattern rule) content).
Proof.
  revert st. induction rules as [|rule rules IH]; intros st; [done|]. cbn [foldl mbind list_bind]. rewrite foldl_app, IH.
  f_equal. unfold scan_rule. clear IH. revert st. induction (match_all false (pattern rule) content) as [|m ms IHm]; intros st; [done|].
  cbn. apply IHm.
Qed.
End Scan.

(** C35. The details reported are exactly a greedy choice among the accepted matches of
    the rules: the kept matches are apart from each other, every accepted match is
    kept unless it overlaps a kept one that comes before it (an earlier rule, or
    earlier in the text), so nothing the rules accept goes unreported and an ID number
    is not also a bank card; and each kind and text is reported once, in the order
    of the kept matches. *)
Theorem findPrivateInfo_greedy (content : jstring) :
  exists kept,
    kept `sublist_of` candidates content
    /\ Forall (accepted content) kept
    /\ StronglySorted (fun c d => apart d c) kept
    /\ (forall i c, candidates content !! i = Some c -> accepted content c ->
          c ∈ kept \/ exists j d, (j < i)%nat /\ candidates content !! j = Some d /\ d ∈ kept /\ overlaps c (range d) = true)
    /\ findPrivateInfo content = dedup (reported content <$> kept)
    /\ NoDup (findPrivateInfo content)
    /\ (forall f, f ∈ findPrivateInfo content <-> exists c, c ∈ kept /\ f = reported content c).
Proof.
  destruct (scanned_fold content (candidates content) [] [] {| findings := []; seen := []; taken := [] |}) as [kept H].
  { constructor; try done; constructor. }
  exists kept. destruct H as [H1 H2 H3 _ H5 _ H7].
  assert (findPrivateInfo content = dedup (reported content <$> kept)) as E.
  { unfold findPrivateInfo. rewrite scan_rules. exact H5. }
  split; [exact H1|]. split; [exact H2|]. split; [exact H3|]. split; [exact H7|]. split; [exact E|]. rewrite E.
  split; [apply NoDup_dedup|]. intros f. rewrite elem_of_dedup, list_elem_of_fmap. naive_solver.
Qed.

(** ** Checksums *)

(** The sum of a row of digits, rightmost first, from index [k] on. *)
Fixpoint luhn_from (k : nat) (ds : jstring) : Z :=
  match ds with [] => 0 | c :: ds' => luhn_digit k (digit_number c) + luhn_from (S k) ds' end.

Lemma luhn_from_app k l r : luhn_from k (l ++ r) = luhn_from k l + luhn_from (k + length l) r.
Proof.
  revert k. induction l as [|c l IH]; intros k; cbn [app luhn_from length]; [by rewrite Nat.add_0_r|].
  rewrite IH. replace (S k + length l)%nat with (k + S (length l))%nat by lia. lia.
Qed.

Lemma passesLuhn_from ds : passesLuhn ds = (luhn_from 0 (rev ds) mod 10 =? 0).
Proof.
  unfold passesLuhn. do 2 f_equal. generalize (rev ds) as l. clear ds. intros l.
  assert (forall l k acc, foldl (fun sum '(index, c) => sum + luhn_digit index (digit_number c)) acc
    (imap (fun i c => ((k + i)%nat, c)) l) = acc + luhn_from k l) as H.
  { clear l. induction l as [|c l IH]; intros k acc; cbn [imap foldl luhn_from]; [lia|].
    rewrite (imap_ext _ (fun i c => ((S k + i)%nat, c)) l) by (intros; cbn; f_equal; lia).
    rewrite IH, Nat.add_0_r. lia. }
  apply (H l 0%nat 0).
Qed.

(** Two digits that differ count differently, at any index; and so do two different
    neighbours exchanged, other than 0 and 9. *)
Lemma luhn_digit_differs k x y a : 0 <= x < 10 -> 0 <= y < 10 -> x <> y ->
  (a + luhn_digit k x) mod 10 = 0 -> (a + luhn_digit k y) mod 10 <> 0.
Proof.
  intros Hx Hy Hne. unfold luhn_digit. destruct (k mod 2 =? 1)%nat; cbv zeta.
  - destruct (x * 2 >? 9) eqn:E1, (y * 2 >? 9) eqn:E2; rewrite Z.gtb_ltb in *; bool_prop; Z.div_mod_to_equations; lia.
  - Z.div_mod_to_equations; lia.
Qed.

Lemma luhn_pair_differs k x y a : 0 <= x < 10 -> 0 <= y < 10 -> x <> y -> ~ (x = 0 /\ y = 9) -> ~ (x = 9 /\ y = 0) ->
  (a + (luhn_digit k x + luhn_digit (S k) y)) mod 10 = 0 -> (a + (luhn_digit k y + luhn_digit (S k) x)) mod 10 <> 0.
Proof.
  intros Hx Hy Hne H1 H2. unfold luhn_digit.
  assert ((S k mod 2 =? 1)%nat = negb (k mod 2 =? 1)%nat) as ->.
  { pose proof (Nat.div_mod_eq k 2). pose proof (Nat.div_mod_eq (S k) 2).
    pose proof (Nat.mod_upper_bound k 2 ltac:(lia)). pose proof (Nat.mod_upper_bound (S k) 2 ltac:(lia)).
    destruct (k mod 2 =? 1)%nat eqn:E; bool_prop; [apply Nat.eqb_neq|apply Nat.eqb_eq]; lia. }
  destruct (k mod 2 =? 1)%nat; cbn [negb]; cbv zeta;
    destruct (x * 2 >? 9) eqn:E1, (y * 2 >? 9) eqn:E2; rewrite Z.gtb_ltb in *; bool_prop; Z.div_mod_to_equations; lia.
Qed.

(** A card number typed with one wrong digit, or with two neighbours exchanged, is not
    taken for a card number: when a row of digits passes [passesLuhn], no row that
    differs from it in one digit does, nor one with two different neighbouring digits
    exchanged, other than 0 and 9. *)
Theorem luhn_rejects_misprints (l r : jstring) (c d : Z) :
  is_digit c = true -> is_digit d = true -> c <> d ->
  (passesLuhn (l ++ c :: r) = true -> passesLuhn (l ++ d :: r) = false)
  /\ (passesLuhn (l ++ c :: d :: r) = true -> ~ (c = 48 /\ d = 57) -> ~ (c = 57 /\ d = 48) ->
      passesLuhn (l ++ d :: c :: r) = false).
Proof.
  unfold is_digit. intros Hc Hd Hne. bool_prop. rewrite !passesLuhn_from.
  split; rewrite !rev_app_distr; cbn [rev]; rewrite <- !app_assoc, !luhn_from_app; cbn [app luhn_from length];
    unfold digit_number; set (k := (0 + length (rev r))%nat); set (b := luhn_from 0 (rev r)).
  - set (a := luhn_from (k + 1) (rev l)). intros E%Z.eqb_eq. apply Z.eqb_neq.
    replace (b + (luhn_digit k (d - 48) + 0 + a)) with (b + a + luhn_digit k (d - 48)) by lia.
    apply (luhn_digit_differs k (c - 48)); [lia..|]. rewrite <- E. f_equal. lia.
  - set (a := luhn_from (k + 1 + 1) (rev l)). intros E%Z.eqb_eq Hn1 Hn2. apply Z.eqb_neq.
    rewrite !(Nat.add_1_r k) in *.
    replace (b + (luhn_digit k (c - 48) + 0 + (luhn_digit (S k) (d - 48) + 0 + a)))
      with (b + a + (luhn_digit k (c - 48) + luhn_digit (S k) (d - 48))) by lia.
    apply (luhn_pair_differs k (d - 48)); [lia..|]. rewrite <- E. f_equal. lia.
Qed.

Lemma luhn_rejects_misprints_witness :
  passesLuhn (u "4111111111111111") = true /\ passesLuhn (u "4111111111" ++ 50 :: u "11111") = false
  /\ passesLuhn (u "4" ++ 50 :: 55 :: u "5") = true /\ passesLuhn (u "4" ++ 55 :: 50 :: u "5") = false.
Proof.
  split; [reflexivity|]. split; [|split; [reflexivity|]].
  - apply (luhn_rejects_misprints (u "4111111111") (u "11111") 49 50); first [reflexivity | lia].
  - apply (luhn_rejects_misprints (u "4") (u "5") 50 55); first [reflexivity | lia].
Defined.

(** The weighted sum after one digit is replaced. *)
Definition id_fold (text : jstring) (ps : list (nat * Z)) (acc : option Z) : option Z :=
  foldl (fun total '(index, weight) => t ← total; c ← text !! index; Some (t + weight * digit_number c)) acc ps.

Fixpoint weight_at (k : nat) (ps : list (nat * Z)) : Z :=
  match ps with [] => 0 | (i, w) :: ps' => (if (i =? k)%nat then w else 0) + weight_at k ps' end.

Lemma id_fold_None text ps : id_fold text ps None = None.
Proof. induction ps as [|[i w] ps IH]; [done|]. exact IH. Qed.

Lemma id_fold_replace text k c d ps a e :
  text !! k = Some c ->
  id_fold (<[k := d]> text) ps (Some (a + e))
  = (fun t => t + (e + weight_at k ps * (d - c))) <$> id_fold text ps (Some a).
Proof.
  intros Hk. revert a e. induction ps as [|[i w] ps IH]; intros a e.
  - cbn. f_equal. lia.
  - unfold id_fold in *. cbn [foldl mbind option_bind weight_at]. destruct (decide (i = k)) as [->|Hne].
    + rewrite list_lookup_insert_eq by (by eapply lookup_lt_Some). rewrite Hk. cbn [option_bind mbind].
      replace (a + e + w * digit_number d) with (a + w * digit_number c + (e + w * (d - c))) by (unfold digit_number; lia).
      rewrite IH, Nat.eqb_refl. apply option_fmap_ext. intros t. lia.
    + rewrite list_lookup_insert_ne by done. rewrite (proj2 (Nat.eqb_neq i k)) by done.
      destruct (text !! i) as [x|]; cbn [option_bind mbind].
      * replace (a + e + w * digit_number x) with (a + w * digit_number x + e) by lia. rewrite IH. done.
      * fold (id_fold (<[k:=d]> text) ps None). fold (id_fold text ps None). by rewrite !id_fold_None.
Qed.

Definition check_digits : jstring := u "10X98765432".

Lemma isIdCardNumber_spec text :
  isIdCardNumber text = true <->
  exists sum c, id_fold text (imap pair id_weights) (Some 0) = Some sum /\ text !! 17%nat = Some c
    /\ check_digits !! Z.to_nat (sum mod 11) = Some (upper_ascii c).
Proof.
  unfold isIdCardNumber. change (id_sum text) with (id_fold text (imap pair id_weights) (Some 0)).
  destruct (id_fold _ _ _) as [sum|], (text !! 17%nat) as [c|]; try (split; [done|intros (? & ? & ? & ? & ?); done]).
  rewrite bool_decide_eq_true. split; [eauto 10|]. intros (? & ? & [= <-] & [= <-] & ?). done.
Qed.

Lemma check_digit_inj a b x : 0 <= a < 11 -> 0 <= b < 11 ->
  check_digits !! Z.to_nat a = Some x -> check_digits !! Z.to_nat b = Some x -> a = b.
Proof.
  intros Ha Hb H1 H2. assert (NoDup check_digits) as Hnd by (apply (bool_decide_unpack _); vm_compute; done).
  assert (Z.to_nat a = Z.to_nat b); [|lia]. by eapply NoDup_lookup.
Qed.

Lemma id_weight_range k : (k < 17)%nat -> 1 <= weight_at k (imap pair id_weights) <= 10.
Proof.
  intros Hk. assert (forallb (fun k => bool_decide (1 <= weight_at k (imap pair id_weights) <= 10)) (seq 0 17) = true) as H
    by (vm_compute; reflexivity).
  rewrite forallb_forall in H. eapply bool_decide_eq_true_1, H. apply in_seq. lia.
Qed.

(** An ID number with one wrong character is not taken for one: replacing any of the
    first seventeen digits by another one, or the check character by a different one
    (up to the case of an X), makes [isIdCardNumber] fail. *)
Theorem id_card_rejects_misprint (text : jstring) (k : nat) (c d : Z) :
  isIdCardNumber text = true -> text !! k = Some c ->
  ((k < 17)%nat /\ is_digit c = true /\ is_digit d = true /\ c <> d) \/ (k = 17%nat /\ upper_ascii c <> upper_ascii d) ->
  isIdCardNumber (<[k := d]> text) = false.
Proof.
  intros (sum & x & Hsum & Hx & Hcheck)%isIdCardNumber_spec Hk Hcase.
  apply not_true_iff_false. intros (sum' & x' & Hsum' & Hx' & Hcheck')%isIdCardNumber_spec.
  change (Some 0) with (Some (0 + 0)) in Hsum' at 1. rewrite (id_fold_replace _ _ c) in Hsum' by exact Hk.
  rewrite Hsum in Hsum'. apply (f_equal (default 0)) in Hsum'.
  change (sum + (0 + weight_at k (imap pair id_weights) * (d - c)) = sum') in Hsum'. subst sum'.
  remember (weight_at k (imap pair id_weights)) as w eqn:Ew.
  pose proof (Z.mod_pos_bound sum 11 ltac:(lia)). pose proof (Z.mod_pos_bound (sum + (0 + w * (d - c))) 11 ltac:(lia)).
  destruct Hcase as [(Hlt & Hc & Hd & Hne)|[-> Hne]].
  - rewrite list_lookup_insert_ne in Hx' by lia. rewrite Hx in Hx'. injection Hx' as <-. unfold is_digit in Hc, Hd. bool_prop.
    pose proof (id_weight_range k Hlt) as Hw. rewrite <- Ew in Hw. clear Ew.
    assert (sum mod 11 = (sum + (0 + w * (d - c))) mod 11) as E by (by eapply check_digit_inj).
    assert ((w * (d - c)) mod 11 = 0) as E' by (Z.div_mod_to_equations; lia).
    apply Z.mod_divide in E'; [|lia]. apply Znumtheory.prime_mult in E' as [E'|E'].
    + apply Z.divide_pos_le in E'; lia.
    + destruct E' as [q Hq]. lia.
    + apply (Znumtheory.prime_intro 11); [lia|]. intros n Hn. apply Znumtheory.Zgcd_1_rel_prime.
      assert (n = 1 \/ n = 2 \/ n = 3 \/ n = 4 \/ n = 5 \/ n = 6 \/ n = 7 \/ n = 8 \/ n = 9 \/ n = 10) as Hns by lia.
      repeat (destruct Hns as [->|Hns]; [reflexivity|]). by subst.
  - rewrite list_lookup_insert_eq in Hx' by (by eapply lookup_lt_Some). injection Hx' as <-.
    assert (w = 0) as -> by (rewrite Ew; reflexivity). rewrite Z.mul_0_l, !Z.add_0_r in Hcheck'.
    rewrite Hk in Hx. injection Hx as ->. congruence.
Qed.

Lemma id_card_rejects_misprint_witness :
  isIdCardNumber (u "11010519491231002X") = true /\ isIdCardNumber (<[5%nat := 54]> (u "11010519491231002X")) = false.
Proof.
  split; [reflexivity|]. apply (id_card_rejects_misprint _ 5 53 54); [reflexivity|reflexivity|].
  left. split; [lia|]. split; [reflexivity|]. split; [reflexivity|lia].
Defined.
