(* ===== verification/Formatting.v ===== *)
(** * The commands of the editor's toolbar

    web/src/components/MemoEditor/Editor/formatting.ts and the data of
    MemoEditor/formatting/commands.ts.  A command reads the editor's document, its
    selection and the syntax tree, and dispatches at most one transaction: the ranges
    it replaces, and the selection it sets or the side it maps the old one to.  The
    parser's tree and the application of changes are CodeMirror's: parameters. *)

From S2P Require Import Prelude JSString HostUnicode JSRegExp MemoRichText ListIndent.

(** ** The editor *)

Record sel_range := { anchor : nat; head_at : nat }.
Definition sel_from (r : sel_range) : nat := Nat.min (anchor r) (head_at r).
Definition sel_to (r : sel_range) : nat := Nat.max (anchor r) (head_at r).

(** [main] is one of [ranges]; the other ranges matter to [selectedLineNumbers] only. *)
Record EditorState := { doc : jstring; main : sel_range; other_ranges : list sel_range }.

Record change := { c_from : nat; c_to : nat; insert : jstring }.

(** [selection: { anchor, head }], or the old selection mapped through the changes. *)
Inductive new_selection := Explicit (anchor head : nat) | MapSelection (assoc : Z).

Record transaction := { changes : list change; selection : new_selection }.

(** A line of the document, numbered from 1. *)
Record line := { l_number : nat; l_from : nat; l_text : jstring }.
Definition l_to (l : line) : nat := (l_from l + length (l_text l))%nat.

Fixpoint number_lines (number from : nat) (texts : list jstring) : list line :=
  match texts with
  | [] => []
  | t :: texts' => {| l_number := number; l_from := from; l_text := t |} :: number_lines (number + 1) (from + length t + 1) texts'
  end.
Definition lines (d : jstring) : list line := number_lines 1 0 (split_on 10 d).

Definition no_line : line := {| l_number := 0; l_from := 0; l_text := [] |}.
(** [doc.lineAt(pos)] and [doc.line(n)], for positions and numbers of the document. *)
Definition lineAt (d : jstring) (pos : nat) : line := default no_line (js_find (fun l => (pos <=? l_to l)%nat) (lines d)).
Definition doc_line (d : jstring) (n : nat) : line := default no_line (lines d !! (n - 1)%nat).

(** A node of the syntax tree, with its direct children. *)
Record child := { ch_name : string; ch_from : nat; ch_to : nat }.
Record TreeNode := { n_name : string; n_from : nat; n_to : nat; n_children : list child }.

Inductive side := Before | After.

(** [tree.resolve(pos, side)] and its ancestors, innermost first. *)
Class SyntaxTree := { ancestors : nat -> side -> list TreeNode }.

Definition childRanges (node : TreeNode) (name : string) : list (nat * nat) :=
  (fun c => (ch_from c, ch_to c)) <$> js_filter (fun c => bool_decide (ch_name c = name)) (n_children node).

(** ** commands.ts *)

Inductive EditorCommandId :=
  | bold | italic | strikethrough | code | codeBlock | bulletList | orderedList | taskList | paragraph
  | heading1 | heading2 | heading3 | alignLeft | alignCenter | alignRight | textColor | fontSize | spoiler | link.
#[export] Instance command_eq_dec : EqDecision EditorCommandId.
Proof. solve_decision. Defined.

Definition toToolbarHeadingLevel (level : nat) : option nat :=
  if (level =? 1)%nat || (level =? 2)%nat || (level =? 3)%nat then Some level else None.

(** The commands whose highlight is a flag of the snapshot, and the rest of it. *)
Record ActiveFormatState := {
  flags : list EditorCommandId;
  a_alignment : MemoTextAlignment;
  a_textColor : option jstring;
  a_fontSize : option jstring;
  headingLevel : option nat;
}.
Definition EMPTY_ACTIVE_FORMATS : ActiveFormatState :=
  {| flags := []; a_alignment := left; a_textColor := None; a_fontSize := None; headingLevel := None |}.

Record EditorCommandContext := { ctx_url : option jstring; ctx_color : option jstring; ctx_fontSize : option jstring }.

Definition alignment_eqb (a b : MemoTextAlignment) : bool :=
  match a, b with left, left | center, center | right, right => true | _, _ => false end.

Definition isCommandActive (active : ActiveFormatState) (id : EditorCommandId) : bool :=
  match id with
  | paragraph => match headingLevel active with None => true | Some _ => false end
  | heading1 => bool_decide (headingLevel active = Some 1%nat)
  | heading2 => bool_decide (headingLevel active = Some 2%nat)
  | heading3 => bool_decide (headingLevel active = Some 3%nat)
  | alignLeft => alignment_eqb (a_alignment active) left
  | alignCenter => alignment_eqb (a_alignment active) center
  | alignRight => alignment_eqb (a_alignment active) right
  | textColor => match a_textColor active with Some _ => true | None => false end
  | fontSize => match a_fontSize active with Some _ => true | None => false end
  | _ => bool_decide (id ∈ flags active)
  end.

(** ** Marks and lines *)

Record Mark := { command : EditorCommandId; token : jstring; wrapper : string; delimiter : string }.
Definition MARKS : list Mark :=
  [ {| command := bold; token := u "**"; wrapper := "StrongEmphasis"; delimiter := "EmphasisMark" |};
    {| command := italic; token := u "*"; wrapper := "Emphasis"; delimiter := "EmphasisMark" |};
    {| command := strikethrough; token := u "~~"; wrapper := "Strikethrough"; delimiter := "StrikethroughMark" |};
    {| command := code; token := [96]; wrapper := "InlineCode"; delimiter := "CodeMark" |} ].
Definition mark_of (c : EditorCommandId) : option Mark := js_find (fun m => bool_decide (command m = c)) MARKS.
Definition WRAPPER_TO_MARK (name : string) : option EditorCommandId :=
  command <$> js_find (fun m => bool_decide (wrapper m = name)) MARKS.
Definition DELIMITER_NODES : list string := delimiter <$> MARKS.
Definition EMPTY_MARK_PAIRS : list jstring := (fun m => token m ++ token m) <$> MARKS.
Definition MAX_EMPTY_PAIR_LENGTH : nat := foldr Nat.max 0%nat ((fun m => 2 * length (token m))%nat <$> MARKS).

Definition isEmptyMarkPair (d : jstring) (from to : nat) : bool :=
  (to - from <=? MAX_EMPTY_PAIR_LENGTH)%nat && bool_decide (slice d from to ∈ EMPTY_MARK_PAIRS).

Definition LIST_MARKER (c : EditorCommandId) : jstring :=
  match c with bulletList => u "- " | orderedList => u "1. " | taskList => u "- [ ] " | _ => [] end.

Definition bullet : re := one_of (u "-*+").
Definition TASK_LINE : re :=
  (StartOf false +++ Group 1 (star space) +++ bullet +++ plus space +++ char 91 +++ one_of (u " xX") +++ char 93 +++ plus space)%re.
Definition BULLET_LINE : re := (StartOf false +++ Group 1 (star space) +++ bullet +++ plus space)%re.
Definition ORDERED_LINE : re :=
  (StartOf false +++ Group 1 (star space) +++ plus digit +++ one_of (u ".)") +++ plus space)%re.
Definition HEADING_LINE : re := (StartOf false +++ up_to 3 (char 32) +++ Group 1 (between 1 6 (char 35)) +++ plus space)%re.
Definition HEADING_PREFIX : re :=
  (StartOf false +++ up_to 3 (char 32) +++ opt (between 1 6 (char 35) +++ plus space))%re.

Record LineListInfo := { mode : option EditorCommandId; indent : nat; markerEnd : nat }.

(** The lengths of [match[1]] and [match[0]]. *)
Definition list_match (r : re) (text : jstring) : option (nat * nat) :=
  m ← exec_from false r text 0; Some (length (default [] (capture text m 1)), m_to m - m_from m)%nat.

Definition lineListInfo (text : jstring) : LineListInfo :=
  match list_match TASK_LINE text with
  | Some (i, e) => {| mode := Some taskList; indent := i; markerEnd := e |}
  | None =>
      match list_match BULLET_LINE text with
      | Some (i, e) => {| mode := Some bulletList; indent := i; markerEnd := e |}
      | None =>
          match list_match ORDERED_LINE text with
          | Some (i, e) => {| mode := Some orderedList; indent := i; markerEnd := e |}
          | None => {| mode := None; indent := leadingWhitespace text; markerEnd := leadingWhitespace text |}
          end
      end
  end.

(** ** The commands *)

Definition replace_range (from to : nat) (text : jstring) : change := {| c_from := from; c_to := to; insert := text |}.
Definition delete_range (from to : nat) : change := replace_range from to [].

Definition wrapSelection (st : EditorState) (token : jstring) : transaction :=
  let from := sel_from (main st) in
  let to := sel_to (main st) in
  let sel := slice (doc st) from to in
  {| changes := [replace_range from to (token ++ sel ++ token)];
     selection := Explicit (from + length token) (from + length token + length sel) |}.

Section Commands.
Context {tree : SyntaxTree}.

Definition probes (st : EditorState) : list (nat * side) :=
  let r := main st in
  if (sel_from r =? sel_to r)%nat then [(head_at r, Before)]
  else [(head_at r, Before); (sel_from r, After); (sel_to r, Before)].

Definition findWrappedDelimiters (st : EditorState) (wrapper delimiter : string) (minMarks : nat) : option (list (nat * nat)) :=
  js_find (fun marks => (minMarks <=? length marks)%nat)
    ((fun n => childRanges n delimiter)
       <$> js_filter (fun n => bool_decide (n_name n = wrapper)) (probes st ≫= fun '(pos, s) => ancestors pos s)).

(** The delimiter at a position belongs to markup reaching beyond the empty pair. *)
Definition blocking (delFrom delTo : nat) (path : list TreeNode) : bool :=
  match path with
  | [] => false
  | n :: parents =>
      if bool_decide (n_name n ∈ DELIMITER_NODES) then
        let construct := default n (head parents) in
        (n_from construct <? delFrom)%nat || (delTo <? n_to construct)%nat
      else false
  end.

(** [marks[0]] and the last one; two marks at least were asked for. *)
Definition strip_marks (marks : list (nat * nat)) : transaction :=
  let opening := default (0, 0)%nat (head marks) in
  let closing := default (0, 0)%nat (last marks) in
  {| changes := [delete_range closing.1 closing.2; delete_range opening.1 opening.2]; selection := MapSelection (-1) |}.

(** The cursor sits in an empty pair of the token. *)
Definition in_empty_pair (st : EditorState) (token : jstring) : bool :=
  let from := sel_from (main st) in
  let to := sel_to (main st) in
  (from =? to)%nat && (length token <=? from)%nat && (to + length token <=? length (doc st))%nat
  && js_eqb (slice (doc st) (from - length token) (to + length token)) (token ++ token).

Definition toggleMark (st : EditorState) (m : Mark) : transaction :=
  match findWrappedDelimiters st (wrapper m) (delimiter m) 2 with
  | Some marks => strip_marks marks
  | None =>
      let from := sel_from (main st) in
      let to := sel_to (main st) in
      let delFrom := (from - length (token m))%nat in
      let delTo := (to + length (token m))%nat in
      if in_empty_pair st (token m)
         && negb (blocking delFrom delTo (ancestors from Before)) && negb (blocking delFrom delTo (ancestors to After))
      then {| changes := [delete_range delFrom from; delete_range to delTo]; selection := MapSelection (-1) |}
      else wrapSelection st (token m)
  end.

Definition selected_lines (st : EditorState) : list nat :=
  selectedLineNumbers ((fun r => (l_number (lineAt (doc st) (sel_from r)), l_number (lineAt (doc st) (sel_to r))))
                         <$> main st :: other_ranges st).

Definition toggleCodeBlock (st : EditorState) : transaction :=
  let d := doc st in
  let from := sel_from (main st) in
  let to := sel_to (main st) in
  match findWrappedDelimiters st "FencedCode" "CodeMark" 1 with
  | Some marks =>
      let openLine := lineAt d (default (0, 0)%nat (head marks)).1 in
      let openEnd := Nat.min (l_to openLine + 1) (length d) in
      let opening := delete_range (l_from openLine) openEnd in
      {| changes :=
           if (2 <=? length marks)%nat then
             let closeLine := lineAt d (default (0, 0)%nat (last marks)).1 in
             let closeIsLastLine := (l_to closeLine =? length d)%nat in
             let closeTo := if closeIsLastLine then l_to closeLine else (l_to closeLine + 1)%nat in
             (* closeLine.from - 1 >= openEnd, on integers *)
             let closeFrom := if closeIsLastLine && (openEnd + 1 <=? l_from closeLine)%nat
                              then (l_from closeLine - 1)%nat else l_from closeLine in
             [opening; delete_range closeFrom closeTo]
           else [opening];
         selection := MapSelection (-1) |}
  | None =>
      let numbers := selected_lines st in
      let first := doc_line d (default 0%nat (head numbers)) in
      let last := doc_line d (default 0%nat (last numbers)) in
      let fence := [96; 96; 96] in
      {| changes := [replace_range (l_from first) (l_from first) (fence ++ [10]);
                     replace_range (l_to last) (l_to last) ([10] ++ fence)];
         selection := Explicit (from + length fence + 1) (to + length fence + 1) |}
  end.

Definition is_blank (l : line) : bool := js_eqb (trim (l_text l)) [].

(** The lines a list command works on. *)
Definition list_targets (ls : list line) : list line :=
  let nonBlank := js_filter (fun l => negb (is_blank l)) ls in
  if (length ls =? 1)%nat || (length nonBlank =? 0)%nat then ls else nonBlank.

Definition has_mode (c : EditorCommandId) (l : line) : bool := bool_decide (mode (lineListInfo (l_text l)) = Some c).

Definition list_marker (c : EditorCommandId) (i : nat) : jstring :=
  if bool_decide (c = orderedList) then string_of_int (Z.of_nat i + 1) ++ u ". " else LIST_MARKER c.

(** The change to line [i] of the targets, if any. *)
Definition list_change (c : EditorCommandId) (allOn : bool) (i : nat) (l : line) : list change :=
  let info := lineListInfo (l_text l) in
  let region := replace_range (l_from l + indent info) (l_from l + markerEnd info) in
  if allOn then [region []]
  else if has_mode c l then [] else [region (list_marker c i)].

Definition toggleListLine (st : EditorState) (c : EditorCommandId) : option transaction :=
  let ls := doc_line (doc st) <$> selected_lines st in
  let targets := list_targets ls in
  let allOn := forallb (has_mode c) targets in
  match concat (imap (list_change c allOn) targets) with
  | [] => None
  | specs => Some {| changes := specs; selection := MapSelection 1 |}
  end.

Definition setHeading (st : EditorState) (level : nat) : transaction :=
  let l := lineAt (doc st) (head_at (main st)) in
  let existing := match exec_from false HEADING_PREFIX (l_text l) 0 with Some m => (m_to m - m_from m)%nat | None => 0%nat end in
  let ins := if (level =? 0)%nat then [] else replicate level 35 ++ [32] in
  {| changes := [replace_range (l_from l) (l_from l + existing) ins]; selection := MapSelection 1 |}.

(** The first ancestor that is a link with two marks, and its label. *)
Definition unwrapLink (st : EditorState) : option transaction :=
  let head := head_at (main st) in
  let with_marks n := bool_decide (n_name n = "Link"%string) && (2 <=? length (childRanges n "LinkMark"))%nat in
  match js_find with_marks (ancestors head Before) with
  | None => None
  | Some n =>
      let marks := childRanges n "LinkMark" in
      let label_from := (default (0, 0)%nat (marks !! 0%nat)).2 in
      let label := slice (doc st) label_from (default (0, 0)%nat (marks !! 1%nat)).1 in
      Some {| changes := [replace_range (n_from n) (n_to n) label];
              selection := let a := (n_from n + Nat.min (length label) (head - label_from))%nat in Explicit a a |}
  end.

(** ** Wrappers written as text *)

Record MarkerWrapperRange := { openFrom : nat; openTo : nat; closeFrom : nat; closeTo : nat; openMarker : jstring }.

(** [candidates.sort((left, right) => right.openFrom - left.openFrom)[0] ?? null]. *)
Definition innermost {A} (candidates : list (MarkerWrapperRange * A)) : option (MarkerWrapperRange * A) :=
  head (sort_by (fun l r => (openFrom (fst r) <=? openFrom (fst l))%nat) candidates).

(** ASCII letters with the flags [i] and [u], under which U+017F folds to an s. *)
Definition fold_letter (c : Z) : re :=
  Chars (fun d => (d =? c) || (d =? c - 32) || ((c =? 115) && (d =? 0x17F))).
Definition fold_word (s : string) : re := foldr (fun c r => (if is_lower_ascii c then fold_letter c else char c) +++ r)%re Eps (u s).

Definition ALIGN_OPEN : re :=
  (StartOf true +++ fold_word ":::align" +++ plus blank +++ Group 1 (fold_word "center" ||| fold_word "right")
   +++ star blank +++ EndOf true)%re.
Definition ALIGN_CLOSE : re := (StartOf true +++ text (u ":::") +++ star blank +++ EndOf true)%re.
Definition marker_value : re := Chars (fun c => negb (existsb (Z.eqb c) [93; 13; 10])).
Definition COLOR_OPEN : re := (fold_word "[color=" +++ Group 1 (between 1 96 marker_value) +++ char 93)%re.
Definition SIZE_OPEN : re := (fold_word "[size=" +++ Group 1 (between 1 24 marker_value) +++ char 93)%re.

Definition wrapper_of (d : jstring) (m : rmatch) (from to : nat) : MarkerWrapperRange :=
  {| openFrom := m_from m; openTo := m_to m; closeFrom := from; closeTo := to; openMarker := slice d (m_from m) (m_to m) |}.

Definition alignment_candidate (d : jstring) (pos : nat) (m : rmatch) : option (MarkerWrapperRange * MemoTextAlignment) :=
  if (pos <? m_from m)%nat then None
  else
    match exec_from true ALIGN_CLOSE d (m_to m) with
    | None => None
    | Some close =>
        if (m_from close <? pos)%nat then None
        else
          let word := lower_ascii <$> default [] (capture d m 1) in
          Some (wrapper_of d m (m_from close) (m_to close), if js_eqb word (u "center") then center else right)
    end.
Definition findAlignmentWrapper (d : jstring) (pos : nat) : option (MarkerWrapperRange * MemoTextAlignment) :=
  innermost (omap (alignment_candidate d pos) (match_all true ALIGN_OPEN d)).

(** The shared shape of [findColorWrapper] and [findSizeWrapper]. *)
Definition value_candidate (normalize : option jstring -> option jstring) (close : jstring) (d : jstring) (pos : nat) (m : rmatch)
    : option (MarkerWrapperRange * jstring) :=
  match normalize (capture d m 1) with
  | None => None
  | Some v =>
      if (pos <? m_from m)%nat then None
      else
        match index_of d close (m_to m) with
        | None => None
        | Some closeFrom =>
            if (closeFrom <? pos)%nat then None
            else Some (wrapper_of d m closeFrom (closeFrom + length close), v)
        end
  end.
Definition findColorWrapper (d : jstring) (pos : nat) : option (MarkerWrapperRange * jstring) :=
  innermost (omap (value_candidate normalizeMemoTextColor MEMO_COLOR_CLOSE_MARKER d pos) (match_all true COLOR_OPEN d)).
Definition findSizeWrapper (d : jstring) (pos : nat) : option (MarkerWrapperRange * jstring) :=
  innermost (omap (value_candidate normalizeMemoTextSize MEMO_SIZE_CLOSE_MARKER d pos) (match_all true SIZE_OPEN d)).

(** The pairs of consecutive markers, first with second, third with fourth. *)
Fixpoint spoiler_pair (pos : nat) (positions : list nat) : option MarkerWrapperRange :=
  match positions with
  | openFrom :: closeFrom :: rest =>
      let n := length MEMO_SPOILER_MARKER in
      if (openFrom + n <=? pos)%nat && (pos <=? closeFrom)%nat
      then Some {| openFrom := openFrom; openTo := openFrom + n; closeFrom := closeFrom; closeTo := closeFrom + n;
                   openMarker := MEMO_SPOILER_MARKER |}
      else spoiler_pair pos rest
  | _ => None
  end.
Definition findSpoilerWrapper (d : jstring) (pos : nat) : option MarkerWrapperRange :=
  spoiler_pair pos (m_from <$> match_all true (text MEMO_SPOILER_MARKER) d).

Definition removeWrapper (w : MarkerWrapperRange) : transaction :=
  {| changes := [delete_range (openFrom w) (openTo w); delete_range (closeFrom w) (closeTo w)]; selection := MapSelection 1 |}.

Definition openingPadding (d : jstring) (w : MarkerWrapperRange) : nat :=
  if js_eqb (slice d (openTo w) (openTo w + 2)) [10; 10] then 2 else if bool_decide (d !! openTo w = Some 10) then 1 else 0.
Definition closingPadding (d : jstring) (w : MarkerWrapperRange) : nat :=
  if js_eqb (slice d (Nat.max (openTo w) (closeFrom w - 2)) (closeFrom w)) [10; 10] then 2
  else if (0 <? closeFrom w)%nat && bool_decide (d !! (closeFrom w - 1)%nat = Some 10) then 1 else 0.

Definition removeAlignmentWrapper (d : jstring) (w : MarkerWrapperRange) : transaction :=
  {| changes := [delete_range (openFrom w) (openTo w + openingPadding d w);
                 delete_range (closeFrom w - closingPadding d w) (closeTo w)];
     selection := MapSelection 1 |}.

Definition replaceOpeningMarker (w : MarkerWrapperRange) (openingMarker : jstring) : transaction :=
  {| changes := [replace_range (openFrom w) (openTo w) openingMarker]; selection := MapSelection 1 |}.

Definition wrapInlineSelection (st : EditorState) (openingMarker closingMarker : jstring) : transaction :=
  let from := sel_from (main st) in
  let to := sel_to (main st) in
  let selected := slice (doc st) from to in
  {| changes := [replace_range from to (openingMarker ++ selected ++ closingMarker)];
     selection := Explicit (from + length openingMarker) (from + length openingMarker + length selected) |}.

Definition setAlignment (st : EditorState) (a : MemoTextAlignment) : option transaction :=
  match findAlignmentWrapper (doc st) (head_at (main st)), a with
  | Some (w, _), left => Some (removeAlignmentWrapper (doc st) w)
  | Some (w, existing), _ =>
      if alignment_eqb existing a then None else Some (replaceOpeningMarker w (memoAlignmentOpenMarker a))
  | None, left => None
  | None, _ =>
      let from := sel_from (main st) in
      let to := sel_to (main st) in
      let firstLine := lineAt (doc st) from in
      let lastProbe := if (from <? to)%nat then Nat.max from (to - 1) else to in
      let lastLine := lineAt (doc st) lastProbe in
      let content := slice (doc st) (l_from firstLine) (l_to lastLine) in
      let opening := memoAlignmentOpenMarker a ++ [10] in
      let closing := [10] ++ MEMO_ALIGNMENT_CLOSE_MARKER in
      Some {| changes := [replace_range (l_from firstLine) (l_to lastLine) (opening ++ content ++ closing)];
              selection := Explicit (l_from firstLine + length opening) (l_from firstLine + length opening + length content) |}
  end.

(** The shared shape of [setTextColor] and [setFontSize]. *)
Definition set_value (st : EditorState) (existing : option (MarkerWrapperRange * jstring)) (value : option jstring)
    (open : jstring -> jstring) (close : jstring) : option transaction :=
  match existing, value with
  | Some (w, _), None => Some (removeWrapper w)
  | Some (w, old), Some v => if js_eqb old v then None else Some (replaceOpeningMarker w (open v))
  | None, Some v => Some (wrapInlineSelection st (open v) close)
  | None, None => None
  end.
Definition setTextColor (st : EditorState) (value : option jstring) : option transaction :=
  set_value st (findColorWrapper (doc st) (head_at (main st))) (normalizeMemoTextColor value) memoColorOpenMarker MEMO_COLOR_CLOSE_MARKER.
Definition setFontSize (st : EditorState) (value : option jstring) : option transaction :=
  set_value st (findSizeWrapper (doc st) (head_at (main st))) (normalizeMemoTextSize value) memoSizeOpenMarker MEMO_SIZE_CLOSE_MARKER.

Definition toggleSpoiler (st : EditorState) : transaction :=
  match findSpoilerWrapper (doc st) (head_at (main st)) with
  | Some w => removeWrapper w
  | None => wrapInlineSelection st MEMO_SPOILER_MARKER MEMO_SPOILER_MARKER
  end.

(** ** The controller *)

Definition toggleLink (st : EditorState) (ctx : EditorCommandContext) : transaction :=
  match unwrapLink st with
  | Some t => t
  | None =>
      let from := sel_from (main st) in
      let to := sel_to (main st) in
      let url := default [] (ctx_url ctx) in
      let label := match slice (doc st) from to with [] => url | l => l end in
      let ins := [91] ++ label ++ u "](" ++ url ++ [41] in
      {| changes := [replace_range from to ins]; selection := Explicit (from + length ins) (from + length ins) |}
  end.

Definition run_command (st : EditorState) (c : EditorCommandId) (ctx : EditorCommandContext) : option transaction :=
  match mark_of c with
  | Some m => Some (toggleMark st m)
  | None =>
      match c with
      | codeBlock => Some (toggleCodeBlock st)
      | bulletList | orderedList | taskList => toggleListLine st c
      | heading1 => Some (setHeading st 1)
      | heading2 => Some (setHeading st 2)
      | heading3 => Some (setHeading st 3)
      | paragraph => Some (setHeading st 0)
      | alignLeft => setAlignment st left
      | alignCenter => setAlignment st center
      | alignRight => setAlignment st right
      | textColor => setTextColor st (ctx_color ctx)
      | fontSize => setFontSize st (ctx_fontSize ctx)
      | spoiler => Some (toggleSpoiler st)
      | link => Some (toggleLink st ctx)
      | _ => None
      end
  end.

(** The flag an ancestor lights. *)
Definition node_flag (d : jstring) (n : TreeNode) : list EditorCommandId :=
  match WRAPPER_TO_MARK (n_name n) with
  | Some c => [c]
  | None =>
      if bool_decide (n_name n = "Link"%string) then [link]
      else if bool_decide (n_name n = "FencedCode"%string) && negb (isEmptyMarkPair d (n_from n) (n_to n)) then [codeBlock]
      else []
  end.

Definition getActiveFormats (st : EditorState) : ActiveFormatState :=
  let pos := head_at (main st) in
  let d := doc st in
  let text := l_text (lineAt d pos) in
  {| flags := (ancestors pos Before ≫= node_flag d)
              ++ (match findSpoilerWrapper d pos with Some _ => [spoiler] | None => [] end)
              ++ option_list (mode (lineListInfo text));
     a_alignment := match findAlignmentWrapper d pos with Some (_, a) => a | None => left end;
     a_textColor := snd <$> findColorWrapper d pos;
     a_fontSize := snd <$> findSizeWrapper d pos;
     headingLevel := m ← exec_from false HEADING_LINE text 0; toToolbarHeadingLevel (length (default [] (capture text m 1))) |}.
End Commands.

(** ** Applying a transaction

    [applyChanges] is CodeMirror's: every change replaces a range of the document it was
    made for.  The law is for changes in order that do not overlap. *)

Class EditorHost := { applyChanges : jstring -> list change -> jstring }.

Fixpoint splice (d : jstring) (pos : nat) (cs : list change) : jstring :=
  match cs with
  | [] => slice_from d pos
  | c :: cs' => slice d pos (c_from c) ++ insert c ++ splice d (c_to c) cs'
  end.
Fixpoint in_order (d : jstring) (pos : nat) (cs : list change) : Prop :=
  match cs with
  | [] => (pos <= length d)%nat
  | c :: cs' => (pos <= c_from c <= c_to c)%nat /\ in_order d (c_to c) cs'
  end.
Class EditorHostLaws `{EditorHost} := applyChanges_splice d cs : in_order d 0 cs -> applyChanges d cs = splice d 0 cs.

#[export] Instance splicing_host : EditorHost := {| applyChanges := fun d cs => splice d 0 cs |}.
#[export] Instance splicing_laws : @EditorHostLaws splicing_host.
Proof. intros d cs _. reflexivity. Qed.

(** ** Samples *)

Definition cursor (pos : nat) : sel_range := {| anchor := pos; head_at := pos |}.
Definition at_cursor (d : jstring) (pos : nat) : EditorState := {| doc := d; main := cursor pos; other_ranges := [] |}.
Definition selecting (d : jstring) (a h : nat) : EditorState := {| doc := d; main := {| anchor := a; head_at := h |}; other_ranges := [] |}.
Definition plain_tree : SyntaxTree := {| ancestors := fun _ _ => [] |}.
Definition no_context : EditorCommandContext := {| ctx_url := None; ctx_color := None; ctx_fontSize := None |}.
Definition text_after (st : EditorState) (t : option transaction) : jstring :=
  match t with Some t => applyChanges (doc st) (changes t) | None => doc st end.

Example command_samples (tree := plain_tree) :
  text_after (selecting (u "a b") 2 3) (run_command (selecting (u "a b") 2 3) bold no_context) = u "a **b**"
  /\ text_after (at_cursor (u "x****") 3) (run_command (at_cursor (u "x****") 3) bold no_context) = u "x"
  /\ text_after (selecting (u "a" ++ [10] ++ u "b") 0 3) (run_command (selecting (u "a" ++ [10] ++ u "b") 0 3) orderedList no_context)
     = u "1. a" ++ [10] ++ u "2. b"
  /\ text_after (at_cursor (u "  - [x] a") 9) (run_command (at_cursor (u "  - [x] a") 9) bulletList no_context) = u "  - a"
  /\ text_after (at_cursor (u "### a") 1) (run_command (at_cursor (u "### a") 1) heading1 no_context) = u "# a"
  /\ text_after (selecting (u "ab") 0 2) (run_command (selecting (u "ab") 0 2) spoiler no_context) = u "||ab||"
  /\ text_after (at_cursor (u "[SIZE=12]ab[/size]") 10) (run_command (at_cursor (u "[SIZE=12]ab[/size]") 10) fontSize no_context) = u "ab"
  /\ text_after (at_cursor (u ":::align center" ++ [10; 10] ++ u "a" ++ [10; 10] ++ u ":::") 17)
       (run_command (at_cursor (u ":::align center" ++ [10; 10] ++ u "a" ++ [10; 10] ++ u ":::") 17) alignLeft no_context) = u "a"
  /\ text_after (selecting (u "a") 0 1) (run_command (selecting (u "a") 0 1) codeBlock no_context)
     = [96; 96; 96; 10] ++ u "a" ++ [10; 96; 96; 96].
Proof. vm_compute. repeat split. Qed.

(** ** Lines of a document *)

(** Where line [k] of the texts starts. *)
Fixpoint line_offset (texts : list jstring) (k : nat) : nat :=
  match k, texts with S k', t :: texts' => S (length t + line_offset texts' k') | _, _ => 0 end.

Lemma number_lines_lookup n f texts k t :
  texts !! k = Some t ->
  number_lines n f texts !! k = Some {| l_number := n + k; l_from := f + line_offset texts k; l_text := t |}.
Proof.
  revert n f k. induction texts as [|x texts IH]; intros n f k Hk; [done|]. destruct k as [|k]; cbn in *.
  - injection Hk as ->. do 2 f_equal; lia.
  - rewrite (IH _ _ _ Hk). do 2 f_equal; lia.
Qed.

Lemma length_number_lines n f texts : length (number_lines n f texts) = length texts.
Proof. revert n f. induction texts as [|x texts IH]; intros n f; [done|]. cbn. by rewrite IH. Qed.

Lemma line_offset_S texts k t : texts !! k = Some t -> line_offset texts (S k) = (line_offset texts k + S (length t))%nat.
Proof.
  revert k. induction texts as [|x texts IH]; intros k Hk; [done|]. destruct k as [|k]; cbn in *.
  - injection Hk as ->. destruct texts; cbn; lia.
  - specialize (IH _ Hk). cbn in IH. rewrite IH. lia.
Qed.

Lemma line_offset_mono texts j k : (j <= k)%nat -> (line_offset texts j <= line_offset texts k)%nat.
Proof.
  revert j k. induction texts as [|x texts IH]; intros j k H; [by destruct j, k|].
  destruct j as [|j], k as [|k]; cbn; try lia. specialize (IH j k ltac:(lia)). lia.
Qed.

(** The text around a line. *)
Lemma join_around texts k t :
  texts !! k = Some t ->
  exists pre post, length pre = line_offset texts k /\ (post = [] \/ exists post', post = 10 :: post')
    /\ forall t', join [10] (<[k := t']> texts) = pre ++ t' ++ post.
Proof.
  revert k. induction texts as [|x texts IH]; intros k Hk; [done|]. destruct k as [|k].
  - cbn in Hk. injection Hk as ->. destruct texts as [|y texts].
    + exists [], []. split; [done|]. split; [by left|]. intros t'. cbn. by rewrite app_nil_r.
    + exists [], (10 :: join [10] (y :: texts)). split; [done|]. split; [eauto|]. done.
  - cbn in Hk. destruct (IH _ Hk) as (pre & post & Hpre & Hpost & Hj). exists (x ++ 10 :: pre), post.
    destruct texts as [|y texts]; [done|].
    split; [rewrite length_app; cbn; rewrite Hpre; cbn; lia|]. split; [done|].
    intros t'. specialize (Hj t'). change (<[S k:=t']> (x :: y :: texts)) with (x :: <[k:=t']> (y :: texts)).
    destruct (<[k:=t']> (y :: texts)) as [|z zs] eqn:E; [by destruct k|].
    change (join [10] (x :: z :: zs)) with (x ++ 10 :: join [10] (z :: zs)). rewrite Hj. by rewrite <- app_assoc.
Qed.

(** A document is the lines it splits into. *)
Definition document (texts : list jstring) : Prop := texts <> [] /\ Forall (fun t => 10 ∉ t) texts.

Lemma lines_join texts : document texts -> lines (join [10] texts) = number_lines 1 0 texts.
Proof. intros [H1 H2]. unfold lines. by rewrite split_on_join. Qed.

Lemma lineAt_join texts k t pos :
  document texts -> texts !! k = Some t -> (line_offset texts k <= pos <= line_offset texts k + length t)%nat ->
  lineAt (join [10] texts) pos = {| l_number := S k; l_from := line_offset texts k; l_text := t |}.
Proof.
  intros Hd Hk Hpos. unfold lineAt. rewrite lines_join by done.
  assert (forall n f ts j, ts !! j = Some t -> (f + line_offset ts j <= pos <= f + line_offset ts j + length t)%nat ->
    js_find (fun l => (pos <=? l_to l)%nat) (number_lines n f ts)
    = Some {| l_number := n + j; l_from := f + line_offset ts j; l_text := t |}) as H.
  { intros n f ts. revert n f. induction ts as [|x ts IH]; intros n f j Hj Hp; [done|]. cbn [number_lines js_find].
    unfold l_to at 1. cbn [l_from l_text]. destruct j as [|j]; cbn in Hj, Hp.
    - injection Hj as ->. rewrite (proj2 (Nat.leb_le _ _)) by lia. cbn [line_offset]. do 2 f_equal; lia.
    - rewrite (proj2 (Nat.leb_gt _ _)) by lia. rewrite (IH (n + 1)%nat (f + length x + 1)%nat j Hj) by lia.
      cbn [line_offset]. do 2 f_equal; lia. }
  rewrite (H _ _ _ k) by done. reflexivity.
Qed.

Lemma doc_line_join texts k t :
  document texts -> texts !! k = Some t ->
  doc_line (join [10] texts) (S k) = {| l_number := S k; l_from := line_offset texts k; l_text := t |}.
Proof.
  intros Hd Hk. unfold doc_line. rewrite lines_join by done. replace (S k - 1)%nat with k by lia.
  by rewrite (number_lines_lookup _ _ _ _ _ Hk).
Qed.

Lemma document_insert texts k t : document texts -> 10 ∉ t -> document (<[k := t]> texts).
Proof.
  intros [H1 H2] Ht. split; [by destruct texts, k|]. by apply Forall_insert.
Qed.

Lemma line_offset_insert texts k t : line_offset (<[k := t]> texts) k = line_offset texts k.
Proof. revert k. induction texts as [|x texts IH]; intros [|k]; cbn; try done. by rewrite IH. Qed.

Section Apply.
Context {editor : EditorHost} {laws : EditorHostLaws}.

Lemma splice_middle pre t post i j ins :
  (i <= j <= length t)%nat ->
  slice (pre ++ t ++ post) 0 (length pre + i) ++ ins ++ slice_from (pre ++ t ++ post) (length pre + j)
  = pre ++ (take i t ++ ins ++ drop j t) ++ post.
Proof.
  intros Hij. unfold slice, slice_from. rewrite drop_0, Nat.sub_0_r, take_app_ge, drop_app_ge by lia.
  replace (length pre + i - length pre)%nat with i by lia. replace (length pre + j - length pre)%nat with j by lia.
  rewrite take_app_le, drop_app_le by lia. by rewrite <- !app_assoc.
Qed.

(** A change within line [k]. *)
Lemma apply_in_line texts k t i j ins :
  texts !! k = Some t -> (i <= j <= length t)%nat ->
  applyChanges (join [10] texts) [replace_range (line_offset texts k + i) (line_offset texts k + j) ins]
  = join [10] (<[k := take i t ++ ins ++ drop j t]> texts).
Proof.
  intros Hk Hij. destruct (join_around texts k t Hk) as (pre & post & Hpre & _ & Hj).
  assert (join [10] texts = pre ++ t ++ post) as E by (rewrite <- Hj; by rewrite list_insert_id).
  rewrite applyChanges_splice.
  - cbn [splice c_from c_to insert replace_range]. rewrite E, <- Hpre, splice_middle by done. by rewrite Hj.
  - cbn. rewrite E, <- Hpre, !length_app. lia.
Qed.
End Apply.

(** ** Markers of list items *)

Fixpoint groupless (r : re) : bool :=
  match r with
  | Group _ _ => false
  | Seq r1 r2 | Alt r1 r2 => groupless r1 && groupless r2
  | Star _ r => groupless r
  | _ => true
  end.

Lemma groupless_caps u0 s r st st' : groupless r = true -> matches u0 s r st st' -> st'.2 = st.2.
Proof.
  intros Hr H. induction H; cbn in Hr; bool_prop; try done.
  - rewrite IHmatches2, IHmatches1 by done. done.
  - by apply IHmatches.
  - by apply IHmatches.
  - rewrite IHmatches2, IHmatches1 by done. done.
Qed.

Definition indented (tail : re) : re := (StartOf false +++ Group 1 (star space) +++ tail)%re.

Lemma list_match_Some tail text i e :
  groupless tail = true -> list_match (indented tail) text = Some (i, e) ->
  all_chars text is_space 0 i /\ exists caps, matches false text tail (i, caps) (e, caps).
Proof.
  intros Hg H. unfold list_match in H. destruct (exec_from false (indented tail) text 0) as [m|] eqn:E; [|done].
  cbn [mbind option_bind] in H. apply exec_from_Some in E as (_ & _ & E). unfold indented in E. rewrite matches_seq in E.
  destruct E as (st0 & [-> H0]%matches_start & E). cbn [fst] in H0. rewrite H0, matches_seq in E.
  destruct E as (st1 & (st & Hws & ->)%matches_group & E). destruct st as [j caps].
  apply matches_star_chars in Hws as [Hws Hcaps]. cbn [fst snd] in *. subst caps.
  pose proof (groupless_caps _ _ _ _ _ Hg E) as Hcaps. cbn [snd] in Hcaps. revert H. captures Hcaps.
  rewrite H0, Nat.sub_0_r. intros [= Hi <-]. destruct (all_chars_slice _ _ _ _ Hws) as [_ Hj]. rewrite length_slice in Hi.
  assert (j = i) as -> by (destruct (decide (0 < j)%nat); [specialize (Hj l)|]; lia).
  split; [done|]. rewrite Hcaps in E. eauto.
Qed.

Lemma list_match_None tail text i st :
  list_match (indented tail) text = None -> all_chars text is_space 0 i ->
  ~ matches false text tail (i, [(1%nat, (0%nat, i))]) st.
Proof.
  intros H Hws Hm. unfold list_match in H. pose proof (exec_from_first (indented tail) text 0) as Hf.
  destruct (exec_from false (indented tail) text 0) as [m|] eqn:E; [done|].
  assert (match_at false (indented tail) text 0 = None) as Hn by (apply Hf; lia). rewrite match_at_None in Hn.
  apply (Hn st). apply matches_seq. eexists. split; [by apply matches_start|]. apply matches_seq. eexists. split; [|exact Hm].
  apply matches_group. exists (i, []). split; [|done]. by apply matches_star_chars.
Qed.

(** Rows of a class end where a character is outside it. *)
Lemma all_chars_stop s p i j k : all_chars s p i j -> (i <= k)%nat -> (forall c, s !! k = Some c -> p c = false) -> (j <= k)%nat.
Proof.
  intros [_ H] Hik Hk. destruct (decide (j <= k)%nat) as [|Hlt]; [done|].
  destruct (H k ltac:(lia)) as (c & Hc & Hp). rewrite (Hk c Hc) in Hp. done.
Qed.

(** A text with its white space and its marker. *)
Section Marked.
Variables ws rest : jstring.
Hypothesis Hws : Forall (fun c => is_space c = true) ws.
Hypothesis Hrest : forall c, head rest = Some c -> is_space c = false.

Definition marked (marker : jstring) : jstring := ws ++ marker ++ rest.

Lemma marked_lookup marker i : (i < length marker)%nat -> marked marker !! (length ws + i)%nat = marker !! i.
Proof. intros H. unfold marked. rewrite lookup_app_r by lia. rewrite Nat.add_comm, Nat.add_sub. by rewrite lookup_app_l. Qed.

Lemma marked_rest marker c : marked marker !! (length ws + length marker)%nat = Some c -> is_space c = false.
Proof.
  unfold marked. rewrite lookup_app_r by lia. rewrite Nat.add_comm, Nat.add_sub, lookup_app_r, Nat.sub_diag by lia.
  intros H. apply Hrest. by destruct rest.
Qed.

Lemma marked_ws marker : all_chars (marked marker) is_space 0 (length ws).
Proof. apply (all_chars_of_app [] ws (marker ++ rest)). done. Qed.

(** The white space at the start of a match is all of it. *)
Lemma marked_indent marker i x y :
  all_chars (marked marker) is_space 0 i -> head (marker ++ rest) = Some x -> is_space x = false ->
  marked marker !! i = Some y -> is_space y = false -> i = length ws.
Proof.
  intros Hi Hx Hxs Hy Hys.
  assert (marked marker !! length ws = Some x) as Hat.
  { unfold marked. rewrite lookup_app_r, Nat.sub_diag by lia. by destruct (marker ++ rest). }
  assert (i <= length ws)%nat by (eapply all_chars_stop; [exact Hi|lia|]; intros c Hc; rewrite Hat in Hc; by injection Hc as <-).
  assert (length ws <= i)%nat by (eapply all_chars_stop; [apply marked_ws|lia|]; intros c Hc; rewrite Hy in Hc; by injection Hc as <-).
  lia.
Qed.

(** The text after the white space is a task box. *)
Definition task_box (t : jstring) : Prop :=
  exists b sp t', t = 91 :: b :: 93 :: sp :: t' /\ b ∈ u " xX" /\ is_space sp = true.

Lemma one_of_char text s i caps st :
  matches false text (one_of s) (i, caps) st <-> exists c, text !! i = Some c /\ c ∈ s /\ st = ((i + 1)%nat, caps).
Proof.
  unfold one_of. rewrite matches_chars. split; intros (c & Hc & Hp & ->); exists c; (split; [done|]; split; [|done]).
  - apply existsb_exists in Hp as (d & Hd & E). apply Z.eqb_eq in E as ->. by apply list_elem_of_In.
  - apply existsb_exists. exists c. split; [by apply list_elem_of_In|apply Z.eqb_refl].
Qed.

Lemma char_char text d i caps st :
  matches false text (char d) (i, caps) st <-> text !! i = Some d /\ st = ((i + 1)%nat, caps).
Proof.
  unfold char. rewrite matches_chars. split; [intros (c & Hc & E & ->); apply Z.eqb_eq in E as ->; done|].
  intros [Hc ->]. exists d. split; [done|]. split; [apply Z.eqb_refl|done].
Qed.

Lemma plus_from text p i caps st :
  matches false text (plus (Chars p)) (i, caps) st <-> all_chars text p i st.1 /\ (i < st.1)%nat /\ st.2 = caps.
Proof. apply matches_plus_chars. Qed.

(** One white space ends where the content starts. *)
Lemma one_space marker k e :
  (S k = length marker)%nat -> all_chars (marked marker) is_space (length ws + k) e -> (length ws + k < e)%nat ->
  e = (length ws + length marker)%nat.
Proof.
  intros Hk He Hlt. assert (e <= length ws + length marker)%nat; [|lia].
  eapply all_chars_stop; [exact He|lia|]. apply marked_rest.
Qed.

Definition bullet_tail : re := (bullet +++ plus space)%re.
Definition task_tail : re := (bullet +++ plus space +++ char 91 +++ one_of (u " xX") +++ char 93 +++ plus space)%re.
Definition ordered_tail : re := (plus digit +++ one_of (u ".)") +++ plus space)%re.

Lemma bullet_not_space c : c ∈ u "-*+" -> is_space c = false.
Proof. intros [->|[->|[->|H]%elem_of_cons]%elem_of_cons]%elem_of_cons; [reflexivity..|inversion H]. Qed.

Lemma list_match_is r text i e :
  (forall i' e', list_match r text = Some (i', e') -> i' = i /\ e' = e) -> list_match r text <> None -> list_match r text = Some (i, e).
Proof. destruct (list_match r text) as [[i' e']|]; [|done]. intros H _. destruct (H _ _ eq_refl) as [-> ->]. done. Qed.

Lemma marked_nth marker i : marked marker !! (length ws + i)%nat = (marker ++ rest) !! i.
Proof. unfold marked. rewrite lookup_app_r by lia. by rewrite Nat.add_comm, Nat.add_sub. Qed.

(** The bullet of a marked text that starts with one. *)
Lemma bullet_at marker i c x :
  all_chars (marked marker) is_space 0 i -> marked marker !! i = Some c -> c ∈ u "-*+" ->
  head (marker ++ rest) = Some x -> is_space x = false -> i = length ws.
Proof. intros Hi Hc Hb Hx Hxs. eapply marked_indent; [exact Hi|exact Hx|exact Hxs|exact Hc|by apply bullet_not_space]. Qed.

Lemma info_bullet : ~ task_box rest ->
  lineListInfo (marked (u "- ")) = {| mode := Some bulletList; indent := length ws; markerEnd := (length ws + 2)%nat |}.
Proof.
  intros Hbox. unfold lineListInfo. destruct (list_match TASK_LINE _) as [[i e]|] eqn:Et.
  - exfalso. apply (list_match_Some task_tail) in Et as (Hws' & caps & Hm); [|done].
    apply matches_seq in Hm as (st1 & (c & Hc & Hb & ->)%one_of_char & Hm).
    assert (i = length ws) as -> by (by eapply bullet_at).
    apply matches_seq in Hm as ([k caps2] & (Hsp & Hlt & E2)%plus_from & Hm). cbn [fst snd] in *. subst caps2.
    assert (k = length ws + 2)%nat as -> by (apply (one_space (u "- ") 1); [done|exact Hsp|lia]).
    apply matches_seq in Hm as (st3 & [H2 ->]%char_char & Hm). apply matches_seq in Hm as (st4 & (b & H3 & Hb4 & ->)%one_of_char & Hm).
    apply matches_seq in Hm as (st5 & [H4 ->]%char_char & (Hs5 & Hl5 & _)%plus_from). cbn [fst] in *.
    destruct Hs5 as [_ Hs5]. destruct (Hs5 (length ws + 2 + 1 + 1 + 1)%nat ltac:(lia)) as (sp & H5 & Hsp5).
    rewrite <- !Nat.add_assoc, marked_nth in *. cbn [u] in *. cbn in H2, H3, H4, H5.
    destruct rest as [|a [|b' [|c' [|sp' t']]]]; try discriminate. cbn in *. simplify_eq. apply Hbox. by exists b, sp, t'.
  - rewrite (list_match_is BULLET_LINE _ (length ws) (length ws + 2)); [done| |].
    + intros i e Hm. apply (list_match_Some bullet_tail) in Hm as (Hws' & caps & Hm); [|done].
      apply matches_seq in Hm as (st1 & (c & Hc & Hb & ->)%one_of_char & (Hsp & Hlt & _)%plus_from).
      assert (i = length ws) as -> by (by eapply bullet_at). cbn [fst] in *. split; [done|].
      apply (one_space (u "- ") 1); [done|exact Hsp|lia].
    + intros Hn. apply (list_match_None bullet_tail _ (length ws) ((length ws + 2)%nat, [(1%nat, (0%nat, length ws))])) in Hn;
        [|apply marked_ws]. apply Hn. apply matches_seq. eexists. split; [apply one_of_char|apply plus_from].
      * exists 45. rewrite <- (Nat.add_0_r (length ws)) at 1. rewrite marked_nth. split; [done|]. split; [by left|done].
      * cbn [fst snd]. split; [|split; [lia|done]]. replace (length ws + 2)%nat with (length ws + 1 + 1)%nat by lia.
        apply (all_chars_one _ _ _ 32); [by rewrite marked_nth|done].
Qed.

(** A row from inside the marker ends at the marker's next unit outside the class. *)
Lemma row_stops marker p i k c j :
  all_chars (marked marker) p (length ws + i) j -> (i <= k)%nat -> (marker ++ rest) !! k = Some c -> p c = false -> (j <= length ws + k)%nat.
Proof.
  intros Hj Hik Hk Hp. eapply all_chars_stop; [exact Hj|lia|]. intros d Hd. rewrite marked_nth, Hk in Hd. by injection Hd as <-.
Qed.

Lemma row_one marker p i c : (marker ++ rest) !! i = Some c -> p c = true -> all_chars (marked marker) p (length ws + i) (length ws + i + 1).
Proof. intros Hc Hp. apply (all_chars_one _ _ _ c); [by rewrite marked_nth|done]. Qed.

Lemma at_start_of marker c : head (marker ++ rest) = Some c -> marked marker !! length ws = Some c.
Proof. intros H. rewrite <- (Nat.add_0_r (length ws)), marked_nth. by destruct (marker ++ rest). Qed.

Lemma info_task :
  lineListInfo (marked (u "- [ ] ")) = {| mode := Some taskList; indent := length ws; markerEnd := (length ws + 6)%nat |}.
Proof.
  unfold lineListInfo. rewrite (list_match_is TASK_LINE _ (length ws) (length ws + 6)); [done| |].
  - intros i e Hm. apply (list_match_Some task_tail) in Hm as (Hws' & caps & Hm); [|done].
    apply matches_seq in Hm as (st1 & (c & Hc & Hb & ->)%one_of_char & Hm).
    assert (i = length ws) as -> by (by eapply bullet_at).
    apply matches_seq in Hm as ([k caps2] & (Hsp & Hlt & E2)%plus_from & Hm). cbn [fst snd] in *. subst caps2.
    assert (k <= length ws + 2)%nat by (eapply row_stops; [exact Hsp|lia|reflexivity|reflexivity]).
    apply matches_seq in Hm as (st3 & [H2 ->]%char_char & Hm). apply matches_seq in Hm as (st4 & (b & H3 & Hb4 & ->)%one_of_char & Hm).
    apply matches_seq in Hm as (st5 & [H4 ->]%char_char & (Hs5 & Hl5 & _)%plus_from). cbn [fst] in *. split; [done|].
    assert (k = length ws + 2)%nat as -> by lia.
    apply (one_space (u "- [ ] ") 5); [done| |lia]. by replace (length ws + 5)%nat with (length ws + 2 + 1 + 1 + 1)%nat by lia.
  - intros Hn. apply (list_match_None task_tail _ (length ws) ((length ws + 6)%nat, [(1%nat, (0%nat, length ws))])) in Hn;
      [|apply marked_ws]. apply Hn.
    apply matches_seq. exists ((length ws + 1)%nat, [(1%nat, (0%nat, length ws))]).
    split; [apply one_of_char; exists 45; split; [by apply at_start_of|]; split; [by left|done]|].
    apply matches_seq. exists ((length ws + 2)%nat, [(1%nat, (0%nat, length ws))]). split.
    { apply plus_from. cbn [fst snd]. split; [|split; [lia|done]]. replace (length ws + 2)%nat with (length ws + 1 + 1)%nat by lia. by apply (row_one _ _ _ 32). }
    apply matches_seq. exists ((length ws + 3)%nat, [(1%nat, (0%nat, length ws))]).
    split; [apply char_char; rewrite marked_nth; split; [done|f_equal; lia]|].
    apply matches_seq. exists ((length ws + 4)%nat, [(1%nat, (0%nat, length ws))]).
    split; [apply one_of_char; exists 32; rewrite marked_nth; split; [done|]; split; [by left|f_equal; lia]|].
    apply matches_seq. exists ((length ws + 5)%nat, [(1%nat, (0%nat, length ws))]).
    split; [apply char_char; rewrite marked_nth; split; [done|f_equal; lia]|].
    apply plus_from. cbn [fst snd]. split; [|split; [lia|done]]. replace (length ws + 6)%nat with (length ws + 5 + 1)%nat by lia. by apply (row_one _ _ _ 32).
Qed.

(** A marker that starts with a digit is no bullet. *)
Lemma no_bullet marker tail d :
  head (marker ++ rest) = Some d -> is_digit d = true -> groupless tail = true ->
  list_match (indented (bullet +++ tail)%re) (marked marker) = None.
Proof.
  intros Hd Hdig Hg. destruct (list_match _ _) as [[i e]|] eqn:E; [|done]. exfalso.
  apply (list_match_Some (bullet +++ tail)%re) in E as (Hws' & caps & Hm); [|done].
  apply matches_seq in Hm as (st1 & (c & Hc & Hb & ->)%one_of_char & _).
  assert (is_space d = false) as Hds by (apply marker_not_space; by left).
  assert (i = length ws) as -> by (by eapply bullet_at). rewrite (at_start_of _ d) in Hc by done. injection Hc as <-.
  apply elem_of_cons in Hb as [->|Hb]; [done|]. apply elem_of_cons in Hb as [->|Hb]; [done|].
  apply elem_of_cons in Hb as [->|Hb]; [done|]. inversion Hb.
Qed.

Lemma info_ordered :
  lineListInfo (marked (u "1. ")) = {| mode := Some orderedList; indent := length ws; markerEnd := (length ws + 3)%nat |}.
Proof.
  unfold lineListInfo.
  assert (list_match TASK_LINE (marked (u "1. ")) = None) as ->.
  { by apply (no_bullet (u "1. ") (plus space +++ char 91 +++ one_of (u " xX") +++ char 93 +++ plus space)%re 49). }
  assert (list_match BULLET_LINE (marked (u "1. ")) = None) as -> by (by apply (no_bullet (u "1. ") (plus space) 49)).
  rewrite (list_match_is ORDERED_LINE _ (length ws) (length ws + 3)); [done| |].
  - intros i e Hm. apply (list_match_Some ordered_tail) in Hm as (Hws' & caps & Hm); [|done].
    apply matches_seq in Hm as ([k caps2] & (Hdg & Hlt & E2)%plus_from & Hm). cbn [fst snd] in *. subst caps2.
    assert (i = length ws) as ->.
    { destruct Hdg as [_ Hdg]. destruct (Hdg i ltac:(lia)) as (c & Hc & Hcd). eapply marked_indent; [exact Hws'|done|reflexivity|exact Hc|].
      apply marker_not_space. by left. }
    assert (k <= length ws + 1)%nat.
    { rewrite <- (Nat.add_0_r (length ws)) in Hdg at 1. eapply row_stops; [exact Hdg|lia|reflexivity|reflexivity]. }
    assert (k = length ws + 1)%nat as -> by lia.
    apply matches_seq in Hm as (st3 & (c & Hc & Hb & ->)%one_of_char & (Hsp & Hl & _)%plus_from). cbn [fst] in *. split; [done|].
    apply (one_space (u "1. ") 2); [done| |lia]. by replace (length ws + 2)%nat with (length ws + 1 + 1)%nat by lia.
  - intros Hn. apply (list_match_None ordered_tail _ (length ws) ((length ws + 3)%nat, [(1%nat, (0%nat, length ws))])) in Hn;
      [|apply marked_ws]. apply Hn.
    apply matches_seq. exists ((length ws + 1)%nat, [(1%nat, (0%nat, length ws))]). split.
    { apply plus_from. cbn [fst snd]. split; [|split; [lia|done]]. rewrite <- (Nat.add_0_r (length ws)) at 1.
      replace (length ws + 1)%nat with (length ws + 0 + 1)%nat by lia. by apply (row_one _ _ _ 49). }
    apply matches_seq. exists ((length ws + 2)%nat, [(1%nat, (0%nat, length ws))]).
    split; [apply one_of_char; exists 46; rewrite marked_nth; split; [done|]; split; [by left|f_equal; lia]|].
    apply plus_from. cbn [fst snd]. split; [|split; [lia|done]]. replace (length ws + 3)%nat with (length ws + 2 + 1)%nat by lia. by apply (row_one _ _ _ 32).
Qed.
End Marked.

(** ** The list buttons *)

(** The selection is within line [k] of the document made of [texts]. *)
Record on_line (st : EditorState) (texts : list jstring) (k : nat) (t : jstring) : Prop := {
  on_document : document texts;
  on_text : texts !! k = Some t;
  on_doc : doc st = join [10] texts;
  on_single : other_ranges st = [];
  on_from : (line_offset texts k <= sel_from (main st))%nat;
  on_to : (sel_to (main st) <= line_offset texts k + length t)%nat
}.

Definition line_of (texts : list jstring) (k : nat) (t : jstring) : line :=
  {| l_number := S k; l_from := line_offset texts k; l_text := t |}.

Lemma on_line_at st texts k t pos :
  on_line st texts k t -> (sel_from (main st) <= pos <= sel_to (main st))%nat -> lineAt (doc st) pos = line_of texts k t.
Proof. intros [H1 H2 H3 H4 H5 H6] Hp. rewrite H3. apply lineAt_join; [done|done|]. lia. Qed.

Lemma sel_bounds r : (sel_from r <= head_at r <= sel_to r)%nat /\ (sel_from r <= sel_to r)%nat.
Proof. unfold sel_from, sel_to. lia. Qed.

Lemma on_line_selected st texts k t : on_line st texts k t -> selected_lines st = [S k].
Proof.
  intros H. pose proof (sel_bounds (main st)) as Hb. unfold selected_lines. rewrite (on_single _ _ _ _ H). cbn [fmap list_fmap].
  rewrite !(on_line_at _ _ _ _ _ H) by lia. cbn [l_number line_of]. unfold selectedLineNumbers. cbn [mbind list_bind].
  rewrite app_nil_r. replace (S (S k) - S k)%nat with 1%nat by lia. cbn [seq]. reflexivity.
Qed.

Lemma on_line_targets st texts k t : on_line st texts k t -> list_targets (doc_line (doc st) <$> selected_lines st) = [line_of texts k t].
Proof.
  intros H. rewrite (on_line_selected _ _ _ _ H). cbn [fmap list_fmap]. rewrite (on_doc _ _ _ _ H), (doc_line_join _ _ t);
    [done|apply H|apply H].
Qed.

Lemma toggle_single st texts k t c :
  on_line st texts k t ->
  toggleListLine st c
  = let info := lineListInfo t in
    let region := replace_range (line_offset texts k + indent info) (line_offset texts k + markerEnd info) in
    Some {| changes := [region (if bool_decide (mode info = Some c) then [] else list_marker c 0)]; selection := MapSelection 1 |}.
Proof.
  intros H. unfold toggleListLine. rewrite (on_line_targets _ _ _ _ H). cbn [forallb imap concat app].
  unfold has_mode at 1. cbn [l_text line_of]. rewrite andb_true_r. case_bool_decide as Hm; cbn; [done|].
  unfold list_change. unfold has_mode. cbn [l_text line_of l_from]. rewrite bool_decide_eq_false_2 by done. done.
Qed.

Definition is_list_command (c : EditorCommandId) : Prop := c ∈ [bulletList; orderedList; taskList].

Section ListButtons.
Context {tree : SyntaxTree} {editor : EditorHost} {laws : EditorHostLaws}.

Lemma node_flag_not_list d n c : is_list_command c -> c ∉ node_flag d n.
Proof.
  intros Hc. unfold node_flag, WRAPPER_TO_MARK. destruct (js_find _ MARKS) as [m|] eqn:E.
  - apply js_find_Some in E as [Hm _]. cbn. intros Hin%list_elem_of_singleton. subst c.
    unfold MARKS in Hm. unfold is_list_command in Hc. set_solver.
  - cbn. unfold is_list_command in Hc. repeat case_match; set_solver.
Qed.

(** A list button is lit exactly when the line is in its mode. *)
Lemma list_active st texts k t c :
  on_line st texts k t -> is_list_command c ->
  isCommandActive (getActiveFormats st) c = bool_decide (mode (lineListInfo t) = Some c).
Proof.
  intros H Hc. assert (isCommandActive (getActiveFormats st) c = bool_decide (c ∈ flags (getActiveFormats st))) as ->.
  { unfold is_list_command in Hc. rewrite !elem_of_cons in Hc. destruct Hc as [->|[->|[->|Hc]]]; [done..|inversion Hc]. }
  apply bool_decide_ext. unfold getActiveFormats. cbn [flags]. rewrite (on_line_at _ _ _ _ _ H) by (pose proof (sel_bounds (main st)); lia).
  cbn [l_text line_of]. rewrite !elem_of_app. split.
  - intros [Hin|[Hin|Hin]].
    + apply list_elem_of_bind in Hin as (n & Hin & _). by apply node_flag_not_list in Hin.
    + exfalso. unfold is_list_command in Hc. case_match; set_solver.
    + destruct (mode (lineListInfo t)) as [c'|]; cbn in Hin; [|inversion Hin]. by apply list_elem_of_singleton in Hin as ->.
  - intros E. right. right. rewrite E. by left.
Qed.

Lemma list_marker_first c : is_list_command c -> list_marker c 0 = LIST_MARKER c.
Proof.
  intros Hc. unfold is_list_command in Hc. rewrite !elem_of_cons in Hc.
  destruct Hc as [->|[->|[->|Hc]]]; [reflexivity..|inversion Hc].
Qed.

Lemma info_marked ws rest c :
  Forall (fun c => is_space c = true) ws -> (forall c, head rest = Some c -> is_space c = false) ->
  is_list_command c -> (c = bulletList -> ~ task_box rest) ->
  lineListInfo (ws ++ LIST_MARKER c ++ rest)
  = {| mode := Some c; indent := length ws; markerEnd := (length ws + length (LIST_MARKER c))%nat |}.
Proof.
  intros Hws Hrest Hc Hbox. unfold is_list_command in Hc. rewrite !elem_of_cons in Hc. destruct Hc as [->|[->|[->|Hc]]]; [..|inversion Hc].
  - apply info_bullet; auto.
  - by apply info_ordered.
  - by apply info_task.
Qed.

Lemma run_list_command st c ctx : is_list_command c -> run_command st c ctx = toggleListLine st c.
Proof.
  intros Hc. unfold is_list_command in Hc. rewrite !elem_of_cons in Hc. destruct Hc as [->|[->|[->|Hc]]]; [reflexivity..|inversion Hc].
Qed.

(** A list button turns a line into an item and back.  On a line that is no list
    item the button is not lit, and pressing it puts the marker between the line's
    white space and its text; with the selection anywhere in the new line the button
    is lit, and pressing it again gives back the document.  (A bullet put before a
    text like [[x] done] makes a task, which the task button removes.) *)
Theorem list_button_round_trip (texts : list jstring) (k : nat) (t : jstring) (st : EditorState) (c : EditorCommandId) ctx :
  on_line st texts k t -> is_list_command c -> mode (lineListInfo t) = None ->
  (c = bulletList -> ~ task_box (trim_start t)) ->
  let lead := leadingWhitespace t in
  let item := take lead t ++ LIST_MARKER c ++ drop lead t in
  isCommandActive (getActiveFormats st) c = false
  /\ exists t1, run_command st c ctx = Some t1
  /\ applyChanges (doc st) (changes t1) = join [10] (<[k := item]> texts)
  /\ forall st', on_line st' (<[k := item]> texts) k item ->
       isCommandActive (getActiveFormats st') c = true
       /\ exists t2, run_command st' c ctx = Some t2 /\ applyChanges (doc st') (changes t2) = doc st.
Proof.
  intros Hst Hc Hmode Hbox lead item.
  destruct (trim_start_split t) as (ws & Ht & Hws & Hhd). remember (trim_start t) as rest eqn:Er.
  assert (forall c, head rest = Some c -> is_space c = false) as Hrest by (intros x Hx; destruct rest; simplify_eq/=; done).
  assert (lead = length ws) as Hlead by (unfold lead; rewrite Ht; by apply leadingWhitespace_app).
  assert (item = ws ++ LIST_MARKER c ++ rest) as Hitem.
  { unfold item. rewrite Hlead, Ht, take_app_length, drop_app_length. done. }
  pose proof (info_marked ws rest c Hws Hrest Hc Hbox) as Hinfo. rewrite <- Hitem in Hinfo.
  assert (indent (lineListInfo t) = lead /\ markerEnd (lineListInfo t) = lead) as [Hi He].
  { unfold lineListInfo in *. repeat case_match; try done. }
  assert (lead <= length t)%nat as Hle by (rewrite Hlead, Ht, length_app; lia).
  split; [rewrite (list_active _ _ _ _ _ Hst Hc), Hmode; by apply bool_decide_eq_false_2|].
  rewrite run_list_command by done. rewrite (toggle_single _ _ _ _ c Hst). cbv zeta. rewrite Hmode.
  rewrite bool_decide_eq_false_2 by done. eexists. split; [done|]. cbn [changes].
  rewrite Hi, He, list_marker_first, (on_doc _ _ _ _ Hst) by done. split.
  { by rewrite (apply_in_line _ _ t) by (apply Hst || lia). }
  intros st' Hst'. split; [rewrite (list_active _ _ _ _ _ Hst' Hc), Hinfo; by apply bool_decide_eq_true_2|].
  rewrite run_list_command by done. rewrite (toggle_single _ _ _ _ c Hst'). cbv zeta. rewrite Hinfo. cbn [mode indent markerEnd].
  rewrite bool_decide_eq_true_2 by done. eexists. split; [done|]. cbn [changes]. rewrite (on_doc _ _ _ _ Hst').
  rewrite (apply_in_line _ _ item); [|apply Hst'|rewrite Hitem, !length_app; lia].
  rewrite list_insert_insert_eq, Hitem, take_app_length. cbn [app].
  assert (drop (length ws + length (LIST_MARKER c)) (ws ++ LIST_MARKER c ++ rest) = rest) as ->
    by (rewrite app_assoc, <- length_app; apply drop_app_length).
  rewrite <- Ht. rewrite list_insert_id; [done|apply Hst].
Qed.
End ListButtons.

Lemma list_button_round_trip_witness (tree := plain_tree) (st := at_cursor (u "a" ++ [10] ++ u "  x") 4) :
  isCommandActive (getActiveFormats st) taskList = false
  /\ exists t1, run_command st taskList no_context = Some t1
  /\ applyChanges (doc st) (changes t1) = join [10] [u "a"; u "  - [ ] x"]
  /\ forall st', on_line st' [u "a"; u "  - [ ] x"] 1 (u "  - [ ] x") ->
       isCommandActive (getActiveFormats st') taskList = true
       /\ exists t2, run_command st' taskList no_context = Some t2 /\ applyChanges (doc st') (changes t2) = doc st.
Proof.
  apply (list_button_round_trip [u "a"; u "  x"] 1 (u "  x")).
  - constructor; try reflexivity; [split; [discriminate|]|cbn; lia|cbn; lia].
    repeat (apply Forall_cons_2; [apply (bool_decide_unpack _); vm_compute; reflexivity|]). apply Forall_nil_2.
  - right. right. left.
  - vm_compute. reflexivity.
  - discriminate.
Defined.

(** ** The heading buttons *)

Definition heading_level (c : EditorCommandId) : option nat :=
  match c with heading1 => Some 1%nat | heading2 => Some 2%nat | heading3 => Some 3%nat | _ => None end.

(** A heading prefix removed: only number signs and white space. *)
Definition heading_prefix (text : jstring) : nat :=
  match exec_from false HEADING_PREFIX text 0 with Some m => (m_to m - m_from m)%nat | None => 0%nat end.

Lemma heading_prefix_spec text :
  (heading_prefix text <= length text)%nat
  /\ Forall (fun c => c = 35 \/ is_space c = true) (take (heading_prefix text) text).
Proof.
  unfold heading_prefix. destruct (exec_from false HEADING_PREFIX text 0) as [m|] eqn:E; [|split; [lia|constructor]].
  apply exec_from_Some in E as (_ & _ & E). pose proof (matches_bound _ _ _ _ E) as Hb. cbn [fst] in Hb.
  unfold HEADING_PREFIX in E. rewrite matches_seq in E. destruct E as (st0 & [-> H0]%matches_start & E). cbn [fst] in H0.
  rewrite H0 in *. specialize (Hb ltac:(lia)). rewrite Nat.sub_0_r. split; [done|].
  set (p := fun c => (c =? 35) || is_space c).
  assert (all_chars text p 0 (m_to m)) as Hall.
  { rewrite matches_seq in E. destruct E as ([i c1] & (H1 & Hi & Ec)%matches_up_to_chars & E). cbn [fst snd] in *. subst c1.
    assert (forall q a b, (forall c, q c = true -> p c = true) -> all_chars text q a b -> all_chars text p a b) as Hweak.
    { intros q a b Hq [Hab Hk]. split; [done|]. intros k Hk'. destruct (Hk k Hk') as (c & Hc & Hqc). eauto. }
    assert (forall c, (c =? 32) = true -> p c = true) as Hsp by (intros c Hc; apply Z.eqb_eq in Hc as ->; done).
    eapply Hweak in H1; [|exact Hsp]. unfold opt in E. rewrite matches_alt, matches_eps in E. destruct E as [E|[= -> _]]; [|done].
    rewrite matches_seq in E. destruct E as ([j c2] & (H2 & Hj & Ec)%matches_between_chars & (H3 & Hl & _)%matches_plus_chars); [|lia].
    cbn [fst snd] in *. eapply all_chars_app; [exact H1|]. eapply all_chars_app.
    - eapply Hweak; [|exact H2]. intros c Hc. apply Z.eqb_eq in Hc as ->. done.
    - eapply Hweak; [|exact H3]. intros c Hc. unfold p. by rewrite Hc, orb_true_r. }
  apply all_chars_slice in Hall as [Hall _]. unfold slice in Hall. rewrite drop_0, Nat.sub_0_r in Hall.
  eapply Forall_impl; [exact Hall|]. intros c Hc. unfold p in Hc. apply orb_true_iff in Hc as [Hc|Hc]; [left; by apply Z.eqb_eq|by right].
Qed.

Definition heading_capture (text : jstring) : option nat :=
  m ← exec_from false HEADING_LINE text 0; Some (length (default [] (capture text m 1))).

Lemma heading_capture_hashes level rest :
  (1 <= level <= 6)%nat -> heading_capture (replicate level 35 ++ 32 :: rest) = Some level.
Proof.
  intros Hl. set (s := replicate level 35 ++ 32 :: rest).
  assert (forall i, (i < level)%nat -> s !! i = Some 35) as Hhash.
  { intros i Hi. unfold s. rewrite lookup_app_l by (rewrite length_replicate; lia). by apply lookup_replicate_2. }
  assert (s !! level = Some 32) as Hsp by (unfold s; rewrite lookup_app_r, length_replicate, Nat.sub_diag; [done|rewrite length_replicate; lia]).
  unfold heading_capture. destruct (exec_from false HEADING_LINE s 0) as [m|] eqn:E.
  - apply exec_from_Some in E as (_ & _ & E). unfold HEADING_LINE in E. rewrite matches_seq in E.
    destruct E as (st0 & [-> H0]%matches_start & E). cbn [fst] in H0. rewrite H0, matches_seq in E.
    destruct E as ([i c1] & (H1 & Hi & Ec)%matches_up_to_chars & E). cbn [fst snd] in *. subst c1.
    assert (i <= 0)%nat by (eapply all_chars_stop; [exact H1|lia|]; intros c Hc; rewrite Hhash in Hc by lia; by injection Hc as <-).
    assert (i = 0)%nat as -> by lia. rewrite matches_seq in E.
    destruct E as (st1 & ([j c2] & Hg & ->)%matches_group & E). apply matches_between_chars in Hg as (H2 & Hj & Ec); [|lia].
    cbn [fst snd] in *. subst c2.
    apply matches_plus_chars in E as (H3 & Hlt & Hcaps). cbn [fst snd] in *.
    assert (j <= level)%nat by (eapply all_chars_stop; [exact H2|lia|]; intros c Hc; rewrite Hsp in Hc; by injection Hc as <-).
    assert (level <= j)%nat.
    { destruct (decide (level <= j)%nat) as [|Hn]; [done|]. exfalso. destruct H3 as [_ H3]. destruct (H3 j ltac:(lia)) as (c & Hc & Hcs).
      rewrite Hhash in Hc by lia. by injection Hc as <-. }
    cbn [mbind option_bind]. captures Hcaps. f_equal. rewrite length_slice. unfold s. rewrite length_app, length_replicate. lia.
  - exfalso. pose proof (exec_from_first HEADING_LINE s 0) as Hf. rewrite E in Hf.
    assert (match_at false HEADING_LINE s 0 = None) as Hn by (apply Hf; lia). rewrite match_at_None in Hn.
    apply (Hn ((level + 1)%nat, [(1%nat, (0%nat, level))])). apply matches_seq. eexists. split; [by apply matches_start|].
    apply matches_seq. exists (0%nat, []). split; [apply matches_up_to_chars; split; [apply all_chars_nil|split; [cbn; lia|done]]|].
    apply matches_seq. exists (level, [(1%nat, (0%nat, level))]). split.
    + apply matches_group. exists (level, []). split; [|done]. apply matches_between_chars; [lia|]. split; [|split; [cbn; lia|done]].
      split; [cbn; lia|]. intros i Hi. exists 35. split; [apply Hhash; cbn in Hi; lia|done].
    + apply matches_plus_chars. split; [|split; [cbn; lia|done]]. cbn [fst]. by apply (all_chars_one _ _ _ 32).
Qed.

Section HeadingButtons.
Context {tree : SyntaxTree} {editor : EditorHost} {laws : EditorHostLaws}.

(** A heading button makes the line a heading of its level.  Of the line only number
    signs and white space before the text are replaced, by the level's number signs
    and a space; and with the selection anywhere in the new line that heading's button
    is lit. *)
Theorem heading_button_sets_level (texts : list jstring) (k : nat) (t : jstring) (st : EditorState) (c : EditorCommandId) (level : nat) ctx :
  on_line st texts k t -> heading_level c = Some level ->
  exists removed body,
    t = removed ++ body /\ Forall (fun x => x = 35 \/ is_space x = true) removed
    /\ let heading := replicate level 35 ++ 32 :: body in
       exists tr, run_command st c ctx = Some tr
       /\ applyChanges (doc st) (changes tr) = join [10] (<[k := heading]> texts)
       /\ forall st', on_line st' (<[k := heading]> texts) k heading -> isCommandActive (getActiveFormats st') c = true.
Proof.
  intros Hst Hc. pose proof (heading_prefix_spec t) as [Hle Hpre]. exists (take (heading_prefix t) t), (drop (heading_prefix t) t).
  split; [by rewrite take_drop|]. split; [done|]. cbv zeta. set (heading := replicate level 35 ++ 32 :: _).
  assert (run_command st c ctx = Some (setHeading st level)) as Hrun by (destruct c; try discriminate; by injection Hc as <-).
  assert (1 <= level <= 3)%nat as Hl by (destruct c; try discriminate; injection Hc as <-; lia).
  eexists. split; [exact Hrun|]. split.
  - unfold setHeading. rewrite (on_line_at _ _ _ _ _ Hst) by apply sel_bounds. cbn [l_text l_from line_of changes].
    fold (heading_prefix t). rewrite (proj2 (Nat.eqb_neq level 0)) by lia. rewrite (on_doc _ _ _ _ Hst).
    rewrite <- (Nat.add_0_r (line_offset texts k)) at 1. rewrite (apply_in_line _ _ t); [|apply Hst|lia].
    cbn [take app]. unfold heading. by rewrite <- app_assoc.
  - intros st' Hst'. assert (headingLevel (getActiveFormats st') = Some level) as Hh.
    { unfold getActiveFormats. cbn [headingLevel]. rewrite (on_line_at _ _ _ _ _ Hst') by apply sel_bounds. cbn [l_text line_of].
      pose proof (heading_capture_hashes level (drop (heading_prefix t) t) ltac:(lia)) as Hcap. fold heading in Hcap.
      unfold heading_capture in Hcap. destruct (exec_from false HEADING_LINE heading 0) as [m|]; [|done].
      cbn [mbind option_bind] in *. injection Hcap as ->. unfold toToolbarHeadingLevel.
      destruct level as [|[|[|[|]]]]; try done; lia. }
    destruct c; try discriminate; injection Hc as <-; cbn [isCommandActive]; rewrite Hh; reflexivity.
Qed.
End HeadingButtons.

Lemma heading_button_sets_level_witness (tree := plain_tree) (st := at_cursor (u "a" ++ [10] ++ u "# x") 4) :
  exists removed body,
    u "# x" = removed ++ body /\ Forall (fun x => x = 35 \/ is_space x = true) removed
    /\ let heading := replicate 3 35 ++ 32 :: body in
       exists tr, run_command st heading3 no_context = Some tr
       /\ applyChanges (doc st) (changes tr) = join [10] (<[1%nat := heading]> [u "a"; u "# x"])
       /\ forall st', on_line st' (<[1%nat := heading]> [u "a"; u "# x"]) 1 heading ->
            isCommandActive (getActiveFormats st') heading3 = true.
Proof.
  apply (heading_button_sets_level [u "a"; u "# x"] 1 (u "# x")); [|reflexivity].
  constructor; try reflexivity; [split; [discriminate|]|cbn; lia|cbn; lia].
  repeat (apply Forall_cons_2; [apply (bool_decide_unpack _); vm_compute; reflexivity|]). apply Forall_nil_2.
Defined.

(** ** The mark buttons *)

Section MarkButtons.
Context {editor : EditorHost} {laws : EditorHostLaws}.

Lemma wrap_applied st token :
  (sel_to (main st) <= length (doc st))%nat ->
  applyChanges (doc st) (changes (wrapSelection st token))
  = slice (doc st) 0 (sel_from (main st)) ++ (token ++ slice (doc st) (sel_from (main st)) (sel_to (main st)) ++ token)
    ++ slice_from (doc st) (sel_to (main st)).
Proof.
  intros Hto. pose proof (sel_bounds (main st)) as [_ Hb]. rewrite applyChanges_splice; [reflexivity|]. cbn. lia.
Qed.

(** Pressing a mark button twice with nothing selected leaves no trace.  Where the
    parser sees no such mark and the cursor is not in an empty pair already, the
    button writes the two tokens around the cursor; where the parser then sees no
    mark there (it never does in an empty pair) nor markup that reaches beyond the
    pair, the second press deletes both tokens instead of nesting another pair. *)
Theorem mark_button_round_trip (before after : SyntaxTree) (st : EditorState) (m : Mark) (pos : nat) :
  m ∈ MARKS -> main st = cursor pos -> (pos <= length (doc st))%nat ->
  @findWrappedDelimiters before st (wrapper m) (delimiter m) 2 = None -> in_empty_pair st (token m) = false ->
  exists d' pos',
    applyChanges (doc st) (changes (@toggleMark before st m)) = d'
    /\ selection (@toggleMark before st m) = Explicit pos' pos'
    /\ d' = slice (doc st) 0 pos ++ token m ++ token m ++ slice_from (doc st) pos /\ pos' = (pos + length (token m))%nat
    /\ forall st', doc st' = d' -> main st' = cursor pos' ->
         @findWrappedDelimiters after st' (wrapper m) (delimiter m) 2 = None ->
         blocking pos (pos' + length (token m)) (@ancestors after pos' Before) = false ->
         blocking pos (pos' + length (token m)) (@ancestors after pos' After) = false ->
         applyChanges d' (changes (@toggleMark after st' m)) = doc st.
Proof.
  intros Hm Hcur Hpos Hnone Hpair. set (d := doc st) in *. set (tok := token m) in *.
  assert (sel_from (main st) = pos /\ sel_to (main st) = pos) as [Hf Ht] by (rewrite Hcur; unfold sel_from, sel_to; cbn; lia).
  unfold toggleMark at 1 2. rewrite Hnone. fold tok. rewrite Hpair. cbn [andb].
  eexists _, (pos + length tok)%nat. split; [reflexivity|]. split; [unfold wrapSelection; cbn [selection]; rewrite Hf, Ht, length_slice; f_equal; lia|].
  pose proof (wrap_applied st tok) as Hw. rewrite Hf, Ht in Hw. fold d in Hw. rewrite Hw by done. clear Hw.
  assert (slice d pos pos = []) as -> by (unfold slice; by rewrite Nat.sub_diag). cbn [app]. rewrite <- app_assoc.
  split; [done|]. split; [done|]. intros st' Hd' Hcur' Hnone' Hb1 Hb2.
  set (p := slice d 0 pos) in *. set (q := slice_from d pos) in *.
  assert (length p = pos) as Hp by (unfold p; rewrite length_slice; lia).
  assert (p ++ q = d) as Hpq by (unfold p, q, slice, slice_from; rewrite drop_0, Nat.sub_0_r; apply take_drop).
  assert (sel_from (main st') = (pos + length tok)%nat /\ sel_to (main st') = (pos + length tok)%nat) as [Hf' Ht']
    by (rewrite Hcur'; unfold sel_from, sel_to; cbn; lia).
  assert (slice (p ++ tok ++ tok ++ q) pos (pos + length tok + length tok) = tok ++ tok) as Hsl.
  { unfold slice. rewrite <- Hp, drop_app_length. rewrite app_assoc. apply take_app_length'. rewrite length_app. lia. }
  assert (in_empty_pair st' tok = true) as Hin.
  { unfold in_empty_pair. rewrite Hf', Ht', Hd'. rewrite Nat.eqb_refl. replace (pos + length tok - length tok)%nat with pos by lia.
    rewrite Hsl. rewrite (proj2 (Nat.leb_le _ _)) by lia. rewrite (proj2 (Nat.leb_le _ _)) by (rewrite !length_app; lia).
    cbn [andb]. by apply bool_decide_eq_true_2. }
  unfold toggleMark. rewrite Hnone'. fold tok. rewrite Hin, Hf', Ht'.
  replace (pos + length tok - length tok)%nat with pos by lia. rewrite Hb1, Hb2. cbn [andb negb changes].
  rewrite applyChanges_splice.
  - cbn [splice c_from c_to insert delete_range replace_range app]. unfold slice. rewrite Nat.sub_diag, take_0. cbn [app].
    rewrite drop_0, Nat.sub_0_r. unfold slice_from. rewrite <- Hp at 1. rewrite take_app_length.
    rewrite !app_assoc. rewrite drop_app_length'; [done|]. rewrite !length_app. lia.
  - cbn [in_order delete_range replace_range c_from c_to]. rewrite !length_app. lia.
Qed.
End MarkButtons.

Lemma mark_button_round_trip_witness (st := at_cursor (u "ab") 1) (starred := u "a****b")
    (m : Mark := {| command := bold; token := u "**"; wrapper := "StrongEmphasis"; delimiter := "EmphasisMark" |}) :
  applyChanges (doc st) (changes (@toggleMark plain_tree st m)) = starred
  /\ applyChanges starred (changes (@toggleMark plain_tree (at_cursor starred 3) m)) = doc st.
Proof.
  destruct (mark_button_round_trip plain_tree plain_tree st m 1) as (d' & pos' & E & _ & E' & Hp & H);
    [by left|reflexivity|cbn; lia|reflexivity|reflexivity|].
  subst d' pos'. split; [exact E'|]. rewrite E' in H. apply (H (at_cursor starred 3)); reflexivity.
Defined.

(** ** The code block button *)

(** Lines each with its break after it, and each with its break before it. *)
Definition lines_before (ls : list jstring) : jstring := ls ≫= fun l => l ++ [10].
Definition lines_after (ls : list jstring) : jstring := ls ≫= fun l => 10 :: l.

Lemma join_lines_after l ls : join [10] (l :: ls) = l ++ lines_after ls.
Proof.
  revert l. induction ls as [|x ls IH]; intros l; [cbn; by rewrite app_nil_r|].
  change (join [10] (l :: x :: ls)) with (l ++ 10 :: join [10] (x :: ls)). by rewrite IH.
Qed.

Lemma join_three A M B : M <> [] -> join [10] (A ++ M ++ B) = lines_before A ++ join [10] M ++ lines_after B.
Proof.
  intros HM. induction A as [|a A IH]; cbn [app].
  - destruct M as [|m M]; [done|]. cbn [app]. rewrite !join_lines_after. unfold lines_after. rewrite bind_app.
    cbn. by rewrite <- !app_assoc.
  - assert (A ++ M ++ B <> []) as Hne by (destruct A, M; done). destruct (A ++ M ++ B) as [|x l] eqn:E; [done|].
    change (join [10] (a :: x :: l)) with (a ++ 10 :: join [10] (x :: l)). rewrite IH. unfold lines_before. cbn [mbind list_bind].
    by rewrite <- !app_assoc.
Qed.

Lemma line_offset_before A rest : line_offset (A ++ rest) (length A) = length (lines_before A).
Proof.
  induction A as [|a A IH]; cbn; [by destruct rest|]. rewrite IH. unfold lines_before. cbn. rewrite !length_app. cbn. lia.
Qed.

Lemma line_offset_app A rest n : line_offset (A ++ rest) (length A + n) = (length (lines_before A) + line_offset rest n)%nat.
Proof.
  induction A as [|a A IH]; [done|]. cbn [app length Nat.add line_offset]. rewrite IH. unfold lines_before. cbn. rewrite !length_app. cbn. lia.
Qed.

Lemma line_offset_end M rest m : last M = Some m ->
  (line_offset (M ++ rest) (length M - 1) + length m)%nat = length (join [10] M).
Proof.
  induction M as [|x M IH]; [done|]. destruct M as [|y M]; intros H.
  - cbn in H. injection H as ->. cbn. lia.
  - specialize (IH H). replace (length (x :: y :: M) - 1)%nat with (S (length (y :: M) - 1)) by (cbn; lia).
    change ((x :: y :: M) ++ rest) with (x :: ((y :: M) ++ rest)). generalize dependent (length (y :: M) - 1)%nat. intros n IH.
    change (line_offset (x :: ((y :: M) ++ rest)) (S n)) with (S (length x + line_offset ((y :: M) ++ rest) n)).
    change (join [10] (x :: y :: M)) with (x ++ 10 :: join [10] (y :: M)). rewrite length_app. cbn [length]. lia.
Qed.

Lemma sort_by_id l : StronglySorted (fun a b => Nat.leb a b = true) l -> sort_by Nat.leb l = l.
Proof.
  intros H. unfold sort_by. change l with ([] ++ l) at 2. change l with ([] ++ l) in H. revert H. generalize (@nil nat) as acc.
  induction l as [|x l IH]; intros acc H; cbn [foldl]; [by rewrite app_nil_r|].
  assert (forall acc, Forall (fun a => Nat.leb a x = true) acc -> insert_by Nat.leb x acc = acc ++ [x]) as Hins.
  { clear. induction acc as [|a acc IH]; intros H; [done|]. apply Forall_cons in H as [Ha H]. cbn. rewrite Ha. by rewrite IH. }
  assert (acc ++ x :: l = (acc ++ [x]) ++ l) as E by (by rewrite <- app_assoc).
  rewrite Hins; [rewrite E in H; by rewrite IH, E|].
  apply Forall_forall. intros a Ha. apply (StronglySorted_app_1_elem_of (fun a b => Nat.leb a b = true) acc (x :: l)); [done|done|by left].
Qed.

Lemma seq_sorted a n : StronglySorted (fun a b => Nat.leb a b = true) (seq a n).
Proof.
  revert a. induction n as [|n IH]; intros a; cbn; constructor; [done|]. apply Forall_forall.
  intros x Hx. apply elem_of_seq in Hx. apply Nat.leb_le. lia.
Qed.

Lemma selectedLineNumbers_run a n : (0 < n)%nat -> selectedLineNumbers [(S a, (a + n)%nat)] = seq (S a) n.
Proof.
  intros Hn. unfold selectedLineNumbers. cbn [mbind list_bind]. rewrite app_nil_r.
  replace (S (a + n) - S a)%nat with n by lia.
  rewrite dedup_id by apply NoDup_seq. apply sort_by_id, seq_sorted.
Qed.

Definition FENCE : jstring := [96; 96; 96].

(** The selection goes from the first to the last line of [M]. *)
Record selects (st : EditorState) (A M B : list jstring) : Prop := {
  sl_document : document (A ++ M ++ B);
  sl_some : M <> [];
  sl_doc : doc st = join [10] (A ++ M ++ B);
  sl_single : other_ranges st = [];
  sl_first : l_number (lineAt (doc st) (sel_from (main st))) = S (length A);
  sl_last : l_number (lineAt (doc st) (sel_to (main st))) = (length A + length M)%nat
}.

Section CodeBlock.
Context {editor : EditorHost} {laws : EditorHostLaws}.

Lemma slice_whole_mid (a m b : jstring) : slice (a ++ m ++ b) (length a) (length a + length m) = m.
Proof. unfold slice. rewrite drop_app_length, Nat.add_comm, Nat.add_sub. apply take_app_length. Qed.
Lemma slice_first (a m : jstring) : slice (a ++ m) 0 (length a) = a.
Proof. unfold slice. rewrite drop_0, Nat.sub_0_r. apply take_app_length. Qed.
Lemma slice_last (a m b : jstring) : slice_from (a ++ m ++ b) (length a + length m) = b.
Proof. unfold slice_from. rewrite app_assoc, <- length_app. apply drop_app_length. Qed.

Lemma fences_text A M B : M <> [] ->
  join [10] (A ++ [FENCE] ++ M ++ [FENCE] ++ B)
  = lines_before A ++ (FENCE ++ [10]) ++ join [10] M ++ ([10] ++ FENCE) ++ lines_after B.
Proof.
  intros HM. rewrite (app_assoc A). rewrite join_three by done. unfold lines_before. rewrite bind_app. cbn. by rewrite <- !app_assoc.
Qed.

Lemma fence_lines_applied `{tree : SyntaxTree} st A M B :
  selects st A M B -> findWrappedDelimiters st "FencedCode" "CodeMark" 1 = None ->
  applyChanges (doc st) (changes (toggleCodeBlock st)) = join [10] (A ++ [FENCE] ++ M ++ [FENCE] ++ B).
Proof.
  intros [Hd HM Hdoc Hs Hf Hl] Hnone. unfold toggleCodeBlock. rewrite Hnone. cbn [changes].
  assert (0 < length M)%nat as Hm by (destruct M; [done|cbn; lia]).
  assert (selected_lines st = seq (S (length A)) (length M)) as Hsel.
  { unfold selected_lines. rewrite Hs. cbn [fmap list_fmap]. rewrite Hf, Hl. by apply selectedLineNumbers_run. }
  rewrite Hsel. assert (head (seq (S (length A)) (length M)) = Some (S (length A))) as -> by (by destruct M).
  assert (last (seq (S (length A)) (length M)) = Some (length A + length M)%nat) as ->.
  { destruct (length M) as [|n] eqn:En; [lia|]. rewrite seq_S, last_snoc. f_equal. lia. }
  cbn [default from_option id].
  destruct M as [|m0 M0] eqn:EM; [done|]. rewrite <- EM in *.
  assert ((A ++ M ++ B) !! length A = Some m0) as Hm0 by (rewrite lookup_app_r, Nat.sub_diag, EM by lia; done).
  destruct (last M) as [m1|] eqn:Em1; [|apply last_None in Em1; congruence].
  assert ((A ++ M ++ B) !! (length A + length M - 1)%nat = Some m1) as Hm1.
  { rewrite lookup_app_r by lia. replace (length A + length M - 1 - length A)%nat with (length M - 1)%nat by lia.
    rewrite lookup_app_l by lia. rewrite last_lookup in Em1. by replace (length M - 1)%nat with (Nat.pred (length M)) by lia. }
  rewrite Hdoc, (doc_line_join _ _ m0) by done.
  replace (length A + length M)%nat with (S (length A + length M - 1)) by lia. rewrite (doc_line_join _ _ m1) by done.
  unfold l_to. cbn [l_from l_text]. rewrite line_offset_before.
  replace (length A + length M - 1)%nat with (length A + (length M - 1))%nat by lia.
  rewrite line_offset_app, <- Nat.add_assoc, (line_offset_end M B m1) by done.
  rewrite (join_three A M B) by done. rewrite (fences_text A M B) by done.
  rewrite applyChanges_splice.
  - cbn [splice c_from c_to insert replace_range]. rewrite slice_first, slice_whole_mid, slice_last. done.
  - cbn. rewrite !length_app. lia.
Qed.

(** Two deletions. *)
Lemma delete_two (p o m c q : jstring) x y z w :
  x = length p -> y = (x + length o)%nat -> z = (y + length m)%nat -> w = (z + length c)%nat ->
  applyChanges (p ++ o ++ m ++ c ++ q) [delete_range x y; delete_range z w] = p ++ m ++ q.
Proof.
  intros -> -> -> ->. rewrite applyChanges_splice.
  - cbn [splice c_from c_to insert delete_range replace_range app]. rewrite slice_first. f_equal.
    assert (slice (p ++ o ++ m ++ c ++ q) (length p + length o) (length p + length o + length m) = m) as ->
      by (rewrite (app_assoc p o), <- length_app; apply slice_whole_mid).
    assert (slice_from (p ++ o ++ m ++ c ++ q) (length p + length o + length m + length c) = q) as ->; [|done].
    rewrite (app_assoc p o), (app_assoc (p ++ o) m), <- !length_app, (length_app _ c). apply slice_last.
  - cbn. rewrite !length_app. lia.
Qed.

Lemma fence_lines_removed `{tree : SyntaxTree} st A M B marks first last_mark :
  document (A ++ M ++ B) -> M <> [] -> doc st = join [10] (A ++ [FENCE] ++ M ++ [FENCE] ++ B) ->
  findWrappedDelimiters st "FencedCode" "CodeMark" 1 = Some marks -> (2 <= length marks)%nat ->
  head marks = Some first -> first.1 = length (lines_before A) ->
  last marks = Some last_mark -> last_mark.1 = length (lines_before (A ++ [FENCE] ++ M)) ->
  applyChanges (doc st) (changes (toggleCodeBlock st)) = join [10] (A ++ M ++ B).
Proof.
  intros Hd HM Hdoc Hmarks Hlen Hfirst Hf1 Hlast Hl1. unfold toggleCodeBlock. rewrite Hmarks. cbn [changes].
  rewrite Hfirst, Hlast. cbn [default from_option id]. rewrite Hf1, Hl1. rewrite (proj2 (Nat.leb_le _ _)) by done.
  assert (document (A ++ [FENCE] ++ M ++ [FENCE] ++ B)) as Hd'.
  { destruct Hd as [_ Hd]. rewrite !Forall_app in Hd. destruct Hd as (H1 & H2 & H3).
    assert (10 ∉ FENCE) by (intros Hin; apply (bool_decide_unpack (10 ∉ FENCE)); [vm_compute; reflexivity|done]).
    split; [by destruct A|]. rewrite !Forall_app. repeat split; try done; by constructor. }
  set (ts := A ++ [FENCE] ++ M ++ [FENCE] ++ B) in *.
  assert (ts = (A ++ [FENCE] ++ M) ++ [FENCE] ++ B) as Hts by (unfold ts; by rewrite <- !app_assoc).
  set (x := length (lines_before A)) in *. set (jm := join [10] M).
  assert (length (lines_before M) = length jm + 1)%nat as Hjm.
  { unfold jm. clear -HM. destruct M as [|m M]; [done|]. clear HM. revert m. induction M as [|m' M IH]; intros m.
    - cbn. rewrite !length_app. cbn. lia.
    - change (join [10] (m :: m' :: M)) with (m ++ 10 :: join [10] (m' :: M)). unfold lines_before in *. cbn [mbind list_bind] in *.
      specialize (IH m'). rewrite !length_app in *. cbn [length] in *. lia. }
  assert (length (lines_before (A ++ [FENCE] ++ M)) = x + 4 + (length jm + 1))%nat as Hx.
  { unfold lines_before in *. rewrite !bind_app, !length_app. cbn [mbind list_bind length app FENCE] in *. unfold x. lia. }
  assert (lineAt (doc st) x = line_of ts (length A) FENCE) as ->.
  { rewrite Hdoc. assert (line_offset ts (length A) = x) as Hox by apply line_offset_before.
    apply lineAt_join; [done|unfold ts; by rewrite lookup_app_r, Nat.sub_diag by lia|]. rewrite Hox. lia. }
  rewrite Hx.
  assert (lineAt (doc st) (x + 4 + (length jm + 1)) = line_of ts (length (A ++ [FENCE] ++ M)) FENCE) as ->.
  { rewrite Hdoc. assert (line_offset ts (length (A ++ [FENCE] ++ M)) = x + 4 + (length jm + 1))%nat as Hox.
    { rewrite Hts, line_offset_before. exact Hx. }
    apply lineAt_join; [done| |rewrite Hox; lia].
    rewrite Hts, lookup_app_r, Nat.sub_diag by lia. done. }
  unfold l_to. cbn [l_from l_text line_of].
  assert (line_offset ts (length A) = x) as -> by apply line_offset_before.
  assert (line_offset ts (length (A ++ [FENCE] ++ M)) = x + 4 + (length jm + 1))%nat as ->.
  { rewrite Hts, line_offset_before. exact Hx. }
  rewrite Hdoc. unfold ts. rewrite (fences_text A M B) by done. fold jm. rewrite (join_three A M B) by done. fold jm.
  set (p := lines_before A) in *. cbn [length FENCE].
  assert (length (p ++ (FENCE ++ [10%Z]) ++ jm ++ ([10%Z] ++ FENCE) ++ lines_after B) = x + 4 + length jm + 4 + length (lines_after B))%nat as Hlen'.
  { rewrite !length_app. cbn [length FENCE]. unfold x. lia. }
  rewrite Hlen'. rewrite Nat.min_l by lia. rewrite (proj2 (Nat.leb_le (x + 3 + 1 + 1) _)) by lia. rewrite andb_true_r.
  destruct B as [|b B].
  - change (lines_after []) with (@nil Z). rewrite (proj2 (Nat.eqb_eq _ _)) by (cbn [length]; lia).
    apply (delete_two p (FENCE ++ [10]) jm ([10] ++ FENCE) []); cbn [length app FENCE]; lia.
  - change (lines_after (b :: B)) with (10 :: b ++ lines_after B). rewrite (proj2 (Nat.eqb_neq _ _)) by (cbn [length]; lia).
    assert (p ++ (FENCE ++ [10]) ++ jm ++ ([10] ++ FENCE) ++ 10 :: b ++ lines_after B
      = p ++ (FENCE ++ [10]) ++ (jm ++ [10]) ++ (FENCE ++ [10]) ++ (b ++ lines_after B)) as -> by (by rewrite <- !app_assoc).
    rewrite (delete_two p (FENCE ++ [10]) (jm ++ [10]) (FENCE ++ [10])); rewrite ?length_app; cbn [length app FENCE]; try lia.
    by rewrite <- !app_assoc.
Qed.

(** The code block button fences the selected lines and takes the fences away.  With
    the selection on the lines [M] and no code block there, a fence is put on a line of
    its own before and after them; where the parser then reports a code block with its
    first mark on the one fence and its last on the other, the button gives back the
    document, also when the closing fence is the last line. *)
Theorem code_block_round_trip (before after : SyntaxTree) (st : EditorState) (A M B : list jstring) :
  selects st A M B -> @findWrappedDelimiters before st "FencedCode" "CodeMark" 1 = None ->
  exists d',
    applyChanges (doc st) (changes (@toggleCodeBlock before st)) = d'
    /\ d' = join [10] (A ++ [FENCE] ++ M ++ [FENCE] ++ B)
    /\ forall st' marks first last_mark, doc st' = d' ->
         @findWrappedDelimiters after st' "FencedCode" "CodeMark" 1 = Some marks -> (2 <= length marks)%nat ->
         head marks = Some first -> first.1 = length (lines_before A) ->
         last marks = Some last_mark -> last_mark.1 = length (lines_before (A ++ [FENCE] ++ M)) ->
         applyChanges d' (changes (@toggleCodeBlock after st')) = doc st.
Proof.
  intros Hst Hnone. eexists. split; [reflexivity|]. rewrite (fence_lines_applied st A M B) by done. split; [done|].
  intros st' marks first last_mark Hd' Hm Hlen Hf Hf1 Hl Hl1. rewrite <- Hd', (sl_doc _ _ _ _ Hst).
  eapply fence_lines_removed; [apply Hst|apply Hst|done|exact Hm|done|exact Hf|done|exact Hl|done].
Qed.
End CodeBlock.

(** The document of the witness once fenced, and the tree the parser gives it. *)
Definition fenced_tree : SyntaxTree :=
  {| ancestors := fun _ _ =>
       [ {| n_name := "FencedCode"; n_from := 0; n_to := 9;
            n_children := [ {| ch_name := "CodeMark"; ch_from := 0; ch_to := 3 |};
                            {| ch_name := "CodeText"; ch_from := 4; ch_to := 5 |};
                            {| ch_name := "CodeMark"; ch_from := 6; ch_to := 9 |} ] |};
         {| n_name := "Document"; n_from := 0; n_to := 11; n_children := [] |} ] |}.

Lemma code_block_round_trip_witness (st := at_cursor (u "a" ++ [10] ++ u "b") 0)
    (fenced := join [10] [FENCE; u "a"; FENCE; u "b"]) :
  applyChanges (doc st) (changes (@toggleCodeBlock plain_tree st)) = fenced
  /\ applyChanges fenced (changes (@toggleCodeBlock fenced_tree (at_cursor fenced 4))) = doc st.
Proof.
  destruct (code_block_round_trip plain_tree fenced_tree st [] [u "a"] [u "b"]) as (d' & E & E' & H).
  - constructor; try reflexivity; [split; [discriminate|]|discriminate].
    repeat (apply Forall_cons_2; [apply (bool_decide_unpack _); vm_compute; reflexivity|]). apply Forall_nil_2.
  - reflexivity.
  - subst d'. split; [exact E'|]. rewrite E' in H. apply (H (at_cursor fenced 4) [(0, 3); (6, 9)]%nat (0, 3)%nat (6, 9)%nat); try reflexivity.
Defined.

(** ** The spoiler button *)

Definition bar_at (d : jstring) (i : nat) : Prop := d !! i = Some 124 /\ d !! (i + 1)%nat = Some 124.

Lemma code_point_at_small s i c : units s -> code_point_at s i = Some c -> c <= 0xFFFF -> s !! i = Some c.
Proof.
  intros Hs Hc Hle. destruct (code_point_at_slice s i c Hs Hc) as [_ Hsl]. unfold code_point_size, from_code_point in Hsl.
  rewrite Z.gtb_ltb, (proj2 (Z.ltb_ge _ _)), (proj2 (Z.leb_le _ _)) in Hsl by lia.
  assert (slice s i (i + 1) !! 0%nat = Some c) as H by (by rewrite Hsl). rewrite lookup_slice in H by lia. by rewrite Nat.add_0_r in H.
Qed.

Lemma bars_match d i : bar_at d i -> match_at true (text MEMO_SPOILER_MARKER) d i = Some ((i + 2)%nat, []).
Proof.
  intros [H1 H2]. unfold match_at. change (text MEMO_SPOILER_MARKER) with (Seq (char 124) (char 124)). unfold char. cbn [run fst snd].
  rewrite (char_at_unit true d i 124) by done. cbn [mbind list_bind app fst snd run Z.eqb Pos.eqb].
  change (code_point_size 124) with 1%nat. rewrite (char_at_unit true d (i + 1) 124) by done. cbn.
  do 2 f_equal. change (code_point_size 124) with 1%nat. lia.
Qed.

Lemma bars_only d i : units d -> ~ bar_at d i -> match_at true (text MEMO_SPOILER_MARKER) d i = None.
Proof.
  intros Hd Hn. apply match_at_None. intros st Hm. change (text MEMO_SPOILER_MARKER) with (Seq (char 124) (char 124)) in Hm.
  assert (forall j caps st', matches true d (char 124) (j, caps) st' -> d !! j = Some 124 /\ st' = ((j + 1)%nat, caps)) as Hone.
  { intros j caps st' H. unfold char in H. inversion H as [|? ? size c ? Hc Hp| | | | | | | | | |]; subst. apply Z.eqb_eq in Hp. subst c.
    unfold char_at in Hc. destruct (code_point_at d j) as [c|] eqn:E; [|done]. injection Hc as -> <-.
    apply code_point_at_small in E; [|done|lia]. done. }
  apply matches_seq in Hm as (st1 & [H1 ->]%Hone & [H2 _]%Hone). by apply Hn.
Qed.

(** The markers around a text are found, when there are no other bars. *)
Lemma spoiler_markers (p s q : jstring) :
  units (p ++ s ++ q) -> 124 ∉ p ++ s ++ q ->
  m_from <$> match_all true (text MEMO_SPOILER_MARKER) (p ++ u "||" ++ s ++ u "||" ++ q) = [length p; (length p + 2 + length s)%nat].
Proof.
  intros Hu Hbar. set (d := p ++ u "||" ++ s ++ u "||" ++ q). set (a := length p). set (b := (a + 2 + length s)%nat).
  assert (length d = a + 4 + length s + length q)%nat as Hlen by (unfold d, a; rewrite !length_app; cbn; lia).
  assert (units d) as Hd.
  { unfold units in *. rewrite !Forall_app in Hu. destruct Hu as (H1 & H2 & H3). unfold d. rewrite !Forall_app.
    assert (Forall (fun c => 0 <= c <= 65535) (u "||")) by (apply units_check; reflexivity). done. }
  assert (forall i, d !! i = Some 124 -> i = a \/ i = (a + 1)%nat \/ i = b \/ i = (b + 1)%nat) as Hwhere.
  { intros i Hi. rewrite !elem_of_app in Hbar. unfold d in Hi.
    apply lookup_app_Some in Hi as [Hi|[Hle Hi]]; [apply list_elem_of_lookup_2 in Hi; tauto|].
    apply lookup_app_Some in Hi as [Hi|[Hle2 Hi]]; [apply lookup_lt_Some in Hi; cbn in Hi; unfold a; lia|].
    apply lookup_app_Some in Hi as [Hi|[Hle3 Hi]]; [apply list_elem_of_lookup_2 in Hi; tauto|].
    apply lookup_app_Some in Hi as [Hi|[Hle4 Hi]]; [apply lookup_lt_Some in Hi; cbn in *; unfold a, b; lia|].
    apply list_elem_of_lookup_2 in Hi; tauto. }
  assert (bar_at d a /\ bar_at d b) as [Ha Hb].
  { unfold bar_at, d, a, b. split; split.
    - by rewrite lookup_app_r, Nat.sub_diag by lia.
    - rewrite lookup_app_r by lia. by replace (length p + 1 - length p)%nat with 1%nat by lia.
    - rewrite (app_assoc p), (app_assoc (p ++ _)), lookup_app_r by (rewrite !length_app; cbn; lia).
      rewrite !length_app. cbn [length u]. by replace (_ - _)%nat with 0%nat by (cbn; lia).
    - rewrite (app_assoc p), (app_assoc (p ++ _)), lookup_app_r by (rewrite !length_app; cbn; lia).
      rewrite !length_app. cbn [length u]. by replace (_ - _)%nat with 1%nat by (cbn; lia). }
  assert (forall i, i <> a -> i <> b -> i <> (a + 1)%nat \/ (0 < length s)%nat -> match_at true (text MEMO_SPOILER_MARKER) d i = None) as Hno.
  { intros i H1 H2 H3. apply bars_only; [done|]. intros [H4%Hwhere H5%Hwhere]. unfold b in *. lia. }
  assert (forall i, (i <= a)%nat -> exec_from true (text MEMO_SPOILER_MARKER) d i = Some {| m_from := a; m_to := a + 2; m_caps := [] |}) as E1.
  { intros i Hi. apply exec_from_at; [done|lia| |by apply bars_match|].
    - intros n Hn. apply Hno; [lia|unfold b; lia|lia].
    - intros c Hc. destruct Ha as [Ha _]. rewrite Ha in Hc. by injection Hc as <-. }
  assert (exec_from true (text MEMO_SPOILER_MARKER) d (a + 2) = Some {| m_from := b; m_to := b + 2; m_caps := [] |}) as E2.
  { apply exec_from_at; [done|unfold b; lia| |by apply bars_match|].
    - intros n Hn. apply Hno; lia.
    - intros c Hc. destruct Hb as [Hb _]. rewrite Hb in Hc. by injection Hc as <-. }
  assert (exec_from true (text MEMO_SPOILER_MARKER) d (b + 2) = None) as E3.
  { apply exec_from_nowhere. intros n Hn. apply Hno; unfold b in *; lia. }
  unfold match_all. rewrite Hlen. replace (a + 4 + length s + length q + 2)%nat with (S (S (S (a + length s + length q + 3)))) by lia.
  cbn [match_all_fuel]. rewrite (proj2 (Nat.ltb_ge (length d) 0)), E1 by lia. cbn [m_to m_from].
  rewrite (proj2 (Nat.eqb_neq (a + 2) a)), (proj2 (Nat.ltb_ge (length d) (a + 2))), E2 by lia. cbn [m_to m_from].
  rewrite (proj2 (Nat.eqb_neq (b + 2) b)), (proj2 (Nat.ltb_ge (length d) (b + 2))), E3 by (unfold b; lia). reflexivity.
Qed.

Section SpoilerButton.
Context {tree : SyntaxTree} {editor : EditorHost} {laws : EditorHostLaws}.

Lemma spoiler_active st : isCommandActive (getActiveFormats st) spoiler = true <-> findSpoilerWrapper (doc st) (head_at (main st)) <> None.
Proof.
  cbn [isCommandActive]. rewrite bool_decide_eq_true. unfold getActiveFormats. cbn [flags]. rewrite !elem_of_app. split.
  - intros [Hin|[Hin|Hin]].
    + apply list_elem_of_bind in Hin as (n & Hin & _). exfalso. unfold node_flag, WRAPPER_TO_MARK in Hin.
      destruct (js_find _ MARKS) as [m|] eqn:E.
      * apply js_find_Some in E as [Hm _]. apply list_elem_of_singleton in Hin. unfold MARKS in Hm. rewrite !elem_of_cons in Hm.
        destruct Hm as [Hm|[Hm|[Hm|[Hm|Hm]]]]; [subst m; cbn in Hin; discriminate..|inversion Hm].
      * cbn in Hin. repeat case_match; set_solver.
    + destruct (findSpoilerWrapper _ _); [done|set_solver].
    + exfalso. unfold lineListInfo in Hin. repeat case_match; cbn in Hin; set_solver.
  - intros H. right. left. destruct (findSpoilerWrapper _ _); [by left|done].
Qed.

(** The spoiler button hides the selection and shows it again.  In a text without
    bars the button is not lit, and it puts the markers around the selection; with the
    cursor anywhere between them the button is lit, and it gives back the text. *)
Theorem spoiler_button_round_trip (st : EditorState) ctx :
  units (doc st) -> 124 ∉ doc st -> (sel_to (main st) <= length (doc st))%nat ->
  let from := sel_from (main st) in
  let to := sel_to (main st) in
  isCommandActive (getActiveFormats st) spoiler = false
  /\ exists t1, run_command st spoiler ctx = Some t1
  /\ selection t1 = Explicit (from + 2) (to + 2)
  /\ applyChanges (doc st) (changes t1)
     = slice (doc st) 0 from ++ u "||" ++ slice (doc st) from to ++ u "||" ++ slice_from (doc st) to
  /\ forall st', doc st' = applyChanges (doc st) (changes t1) -> (from + 2 <= head_at (main st') <= to + 2)%nat ->
       isCommandActive (getActiveFormats st') spoiler = true
       /\ exists t2, run_command st' spoiler ctx = Some t2 /\ applyChanges (doc st') (changes t2) = doc st.
Proof.
  intros Hu Hbar Hto from to. pose proof (sel_bounds (main st)) as [_ Hft]. fold from to in Hft, Hto.
  set (d := doc st) in *. set (p := slice d 0 from). set (s := slice d from to). set (q := slice_from d to).
  assert (d = p ++ s ++ q) as Ed.
  { unfold p, s, q. rewrite app_assoc, <- (slice_app_split d 0 from to) by lia. unfold slice, slice_from.
    by rewrite drop_0, Nat.sub_0_r, take_drop. }
  assert (length p = from /\ length s = to - from)%nat as [Hp Hs] by (unfold p, s; rewrite !length_slice; lia).
  assert (match_all true (text MEMO_SPOILER_MARKER) d = []) as Hnone.
  { unfold match_all. replace (length d + 2)%nat with (S (length d + 1)) by lia. cbn [match_all_fuel].
    rewrite (proj2 (Nat.ltb_ge (length d) 0)) by lia. rewrite exec_from_nowhere; [done|].
    intros n _. apply bars_only; [done|]. intros [H1 _]. apply Hbar. by eapply list_elem_of_lookup_2. }
  assert (findSpoilerWrapper d (head_at (main st)) = None) as Hno by (unfold findSpoilerWrapper; by rewrite Hnone).
  split; [apply not_true_iff_false; rewrite spoiler_active; fold d; rewrite Hno; intros Hn; by apply Hn|].
  exists (wrapInlineSelection st (u "||") (u "||")).
  split; [change (run_command st spoiler ctx) with (Some (toggleSpoiler st)); unfold toggleSpoiler; fold d; by rewrite Hno|].
  split; [unfold wrapInlineSelection; cbn [selection]; fold d from to s; f_equal; rewrite Hs; cbn; lia|].
  assert (applyChanges d (changes (wrapInlineSelection st (u "||") (u "||"))) = p ++ u "||" ++ s ++ u "||" ++ q) as Happ.
  { rewrite applyChanges_splice.
    - unfold wrapInlineSelection. cbn [changes splice c_from c_to insert replace_range]. fold d from to p s q. by rewrite <- !app_assoc.
    - unfold wrapInlineSelection. cbn [changes in_order replace_range c_from c_to]. fold d from to. lia. }
  split; [exact Happ|]. intros st' Hd' Hhead. rewrite Happ in Hd'.
  assert (findSpoilerWrapper (doc st') (head_at (main st'))
    = Some {| openFrom := from; openTo := from + 2; closeFrom := from + 2 + length s; closeTo := from + 2 + length s + 2;
              openMarker := MEMO_SPOILER_MARKER |}) as Hw.
  { unfold findSpoilerWrapper. rewrite Hd', spoiler_markers by (rewrite <- Ed; done). cbn [spoiler_pair].
    change (length MEMO_SPOILER_MARKER) with 2%nat. rewrite Hp. rewrite (proj2 (Nat.leb_le _ _)), (proj2 (Nat.leb_le _ _)) by lia. done. }
  split; [apply spoiler_active; by rewrite Hw|]. eexists. split.
  { change (run_command st' spoiler ctx) with (Some (toggleSpoiler st')). unfold toggleSpoiler. rewrite Hw. reflexivity. }
  unfold removeWrapper. cbn [changes openFrom openTo closeFrom closeTo]. rewrite Hd', Ed.
  apply delete_two; rewrite ?Hp; cbn; lia.
Qed.
End SpoilerButton.

Lemma spoiler_button_round_trip_witness (tree := plain_tree) (st := selecting (u "abc") 1 2) :
  let from := sel_from (main st) in
  let to := sel_to (main st) in
  isCommandActive (getActiveFormats st) spoiler = false
  /\ exists t1, run_command st spoiler no_context = Some t1
  /\ selection t1 = Explicit (from + 2) (to + 2)
  /\ applyChanges (doc st) (changes t1)
     = slice (doc st) 0 from ++ u "||" ++ slice (doc st) from to ++ u "||" ++ slice_from (doc st) to
  /\ forall st', doc st' = applyChanges (doc st) (changes t1) -> (from + 2 <= head_at (main st') <= to + 2)%nat ->
       isCommandActive (getActiveFormats st') spoiler = true
       /\ exists t2, run_command st' spoiler no_context = Some t2 /\ applyChanges (doc st') (changes t2) = doc st.
Proof.
  apply (spoiler_button_round_trip st no_context); [check_units|apply (bool_decide_unpack _); vm_compute; reflexivity|cbn; lia].
Defined.
