(* ===== verification/ManagedAttachment.v ===== *)
(** * Attachments referenced in the text of a memo

    web/src/utils/managed-attachment.ts and the helpers of web/src/utils/attachment.ts
    it uses.  A memo's text refers to its attachments by managed URLs; the module
    classifies a URL, indexes the references of a text behind a bounded cache, writes
    new references and removes old ones.  The Markdown parser and the URL parser of
    the platform are parameters. *)

From S2P Require Import Prelude JSString JSRegExp MarkdownSource.

(** ** Attachments *)

Inductive MotionMediaFamily := FAMILY_UNSPECIFIED | APPLE_LIVE_PHOTO | ANDROID_MOTION_PHOTO.
Inductive MotionMediaRole := ROLE_UNSPECIFIED | STILL | VIDEO | CONTAINER.
Record MotionMedia := {
  family : MotionMediaFamily; role : MotionMediaRole; groupId : jstring;
  presentationTimestampUs : Z; hasEmbeddedVideo : bool }.

(** The message [Attachment]; [other_fields] is the encoding of the fields that the
    modelled code compares but does not read (size, content, metadata, ...). *)
Record Attachment := {
  att_name : jstring; filename : jstring; mime_type : jstring; externalLink : jstring;
  motionMedia : option MotionMedia; other_fields : list Z }.
#[export] Instance family_eq_dec : EqDecision MotionMediaFamily.
Proof. solve_decision. Defined.
#[export] Instance role_eq_dec : EqDecision MotionMediaRole.
Proof. solve_decision. Defined.
#[export] Instance motion_eq_dec : EqDecision MotionMedia.
Proof. solve_decision. Defined.
#[export] Instance attachment_eq_dec : EqDecision Attachment.
Proof. solve_decision. Defined.

Definition isPSD (t : jstring) : bool :=
  js_eqb t (u "image/vnd.adobe.photoshop") || js_eqb t (u "image/x-photoshop") || js_eqb t (u "image/photoshop").
Definition isImage (t : jstring) : bool := starts_with t (u "image/") && negb (isPSD t).
Definition isMidiFile (mimeType : jstring) : bool :=
  js_eqb mimeType (u "audio/midi") || js_eqb mimeType (u "audio/mid") || js_eqb mimeType (u "audio/x-midi")
  || js_eqb mimeType (u "application/x-midi").

Definition getAttachmentType (a : Attachment) : jstring :=
  let t := mime_type a in
  if isImage t then u "image/*"
  else if starts_with t (u "video") then u "video/*"
  else if starts_with t (u "audio") && negb (isMidiFile t) then u "audio/*"
  else if starts_with t (u "text") then u "text/*"
  else if starts_with t (u "application/epub+zip") then u "application/epub+zip"
  else if starts_with t (u "application/pdf") then u "application/pdf"
  else if includes t (u "word") then u "application/msword"
  else if includes t (u "excel") then u "application/msexcel"
  else if starts_with t (u "application/zip") then u "application/zip"
  else if starts_with t (u "application/x-java-archive") then u "application/x-java-archive"
  else u "application/octet-stream".

(** [attachment.motionMedia?.groupId || undefined]. *)
Definition getAttachmentMotionGroupId (a : Attachment) : option jstring :=
  m ← motionMedia a; match groupId m with [] => None | g => Some g end.

Definition motion_is (f : MotionMediaFamily) (r : MotionMediaRole) (a : Attachment) : bool :=
  match motionMedia a with Some m => bool_decide (family m = f) && bool_decide (role m = r) | None => false end.
Definition isAppleLivePhotoStill : Attachment -> bool := motion_is APPLE_LIVE_PHOTO STILL.
Definition isAppleLivePhotoVideo : Attachment -> bool := motion_is APPLE_LIVE_PHOTO VIDEO.
Definition isAndroidMotionContainer (a : Attachment) : bool :=
  motion_is ANDROID_MOTION_PHOTO CONTAINER a
  && match motionMedia a with Some m => hasEmbeddedVideo m | None => false end.
Definition isMotionAttachment (a : Attachment) : bool :=
  isAppleLivePhotoStill a || isAppleLivePhotoVideo a || isAndroidMotionContainer a.

(** ** Names and URLs *)

Definition ATTACHMENT_NAME_PREFIX : jstring := u "attachments/".
Definition MANAGED_ATTACHMENT_PATH_PREFIX : jstring := u "/file/attachments/".

Definition alnum : re := Chars is_alnum_ascii.
Definition uid_inner (c : Z) : bool := is_alnum_ascii c || (c =? 45).
Definition UID_PATTERN : re :=
  (StartOf false +++ alnum +++ opt (up_to 34 (Chars uid_inner) +++ alnum) +++ EndOf false)%re.

Definition extractAttachmentUIDFromName (name : jstring) : option jstring :=
  if negb (starts_with name ATTACHMENT_NAME_PREFIX) then None
  else
    let uid := slice_from name (length ATTACHMENT_NAME_PREFIX) in
    if test false UID_PATTERN uid then Some uid else None.

(** The platform's [URL] and [window.location.origin]: parsing fails or gives the parts. *)
Record URL := { pathname : jstring; host : jstring; origin : jstring; search : jstring; hash : jstring }.
Class WebPage := {
  new_URL : jstring -> option jstring -> option URL;     (* new URL(raw, base) *)
  location_origin : jstring;
}.

(** The URL published by the instance profile. *)
Record instance := { instanceOrigin : option jstring; instanceHost : option jstring }.
#[export] Instance instance_eq_dec : EqDecision instance.
Proof. solve_decision. Defined.

Definition letter : re := Chars (fun c => is_upper_ascii c || is_lower_ascii c).
Definition scheme_char : re := Chars (fun c => is_alnum_ascii c || (c =? 43) || (c =? 46) || (c =? 45)).
Definition hasScheme (raw : jstring) : bool := test false (StartOf false +++ letter +++ star scheme_char +++ char 58)%re raw.

Inductive ManagedImageURL := Unmanaged | Invalid | Managed (uid : jstring).

Definition managed_path (path : jstring) : ManagedImageURL :=
  let parts := split_on 47 (slice_from path (length MANAGED_ATTACHMENT_PATH_PREFIX)) in
  let uid := default [] (head parts) in
  let n := length parts in
  if (negb (n =? 1)%nat && negb (n =? 2)%nat) || negb (test false UID_PATTERN uid)
     || ((n =? 2)%nat && js_eqb (default [] (parts !! 1%nat)) [])
  then Invalid else Managed uid.

Section Page.
Context {page : WebPage}.

(** A falsy [instanceHost] or [instanceOrigin] is undefined or empty. *)
Definition same_or_unset (known : option jstring) (value : jstring) : bool :=
  match known with None | Some [] => true | Some k => js_eqb value k end.
Definition unset (known : option jstring) : bool := match known with None | Some [] => true | _ => false end.

Definition classifyManagedAttachmentImageURL (inst : instance) (raw : jstring) : ManagedImageURL :=
  if negb (starts_with raw (u "/")) && negb (hasScheme raw) then Unmanaged
  else
    match new_URL raw (Some location_origin) with
    | None => Unmanaged
    | Some parsed =>
        if negb (starts_with (pathname parsed) MANAGED_ATTACHMENT_PATH_PREFIX) then Unmanaged
        else if starts_with raw (u "//") then
          if same_or_unset (instanceHost inst) (host parsed) then Invalid else Unmanaged
        else if hasScheme raw && unset (instanceOrigin inst) then Invalid
        else if hasScheme raw && negb (bool_decide (Some (origin parsed) = instanceOrigin inst)) then Unmanaged
        else if negb (js_eqb (search parsed) []) || negb (js_eqb (hash parsed) []) || includes (pathname parsed) (u "%") then Invalid
        else managed_path (pathname parsed)
    end.

Definition parseManagedAttachmentImageURL (inst : instance) (raw : jstring) : option jstring :=
  match classifyManagedAttachmentImageURL inst raw with Managed uid => Some uid | _ => None end.

(** ** The references of a text *)

(** What [visit] meets in the parsed text, in its order: the fields the code reads.  A
    label is given by its direct children, a text or something else. *)
Abbreviation position := (option (nat * nat)) (only parsing).
Inductive mdast_node :=
  | Definition_ (identifier url : jstring)
  | Html (value : jstring)
  | Image (url : jstring) (p : position)
  | ImageReference (identifier : jstring) (p : position)
  | Link (url : jstring) (children : list (option jstring)) (p : position)
  | LinkReference (identifier : jstring) (children : list (option jstring)) (p : position)
  | OtherNode.
Class MarkdownParser := { visited : jstring -> list mdast_node }.

Inductive image_kind := image | video.
Record ManagedImageNode := { node_uid : jstring; node_kind : image_kind; node_position : position }.
Record ManagedImageIndex := { nodes : list ManagedImageNode; uids : list jstring; invalidReferences : list jstring }.

Context {parser : MarkdownParser} {markdown : MarkdownHost}.

(** [definitions]: the first definition of an identifier counts. *)
Definition definition_of (tree : list mdast_node) (identifier : jstring) : option jstring :=
  let defined n := match n with Definition_ i _ => js_eqb (normalizeIdentifier i) (normalizeIdentifier identifier) | _ => false end in
  match js_find defined tree with Some (Definition_ _ url) => Some url | _ => None end.

Definition label_text (children : list (option jstring)) : jstring := concat (default [] <$> children).
Definition is_video_label (children : list (option jstring)) : bool := starts_with (label_text children) (u "video:").

(** The destination and kind of a node, if it has both. *)
Definition destination_of (tree : list mdast_node) (n : mdast_node) : option (jstring * image_kind * position) :=
  let found url kind p := match url with Some [] | None => None | Some d => Some (d, kind, p) end in
  match n with
  | Image url p => found (Some url) image p
  | ImageReference i p => found (definition_of tree i) image p
  | Link url children p => if is_video_label children then found (Some url) video p else None
  | LinkReference i children p => if is_video_label children then found (definition_of tree i) video p else None
  | _ => None
  end.

Definition node_references (inst : instance) (tree : list mdast_node) (n : mdast_node) : list ManagedImageNode :=
  match destination_of tree n with
  | Some (d, kind, p) =>
      match classifyManagedAttachmentImageURL inst d with
      | Managed uid => [{| node_uid := uid; node_kind := kind; node_position := p |}]
      | _ => []
      end
  | None => []
  end.
Definition node_invalid (inst : instance) (tree : list mdast_node) (n : mdast_node) : list jstring :=
  match n with
  | Html raw => if includes raw MANAGED_ATTACHMENT_PATH_PREFIX then [raw] else []
  | _ =>
      match destination_of tree n with
      | Some (d, image, _) => match classifyManagedAttachmentImageURL inst d with Invalid => [d] | _ => [] end
      | _ => []
      end
  end.

Definition buildManagedImageIndex (inst : instance) (source : jstring) : ManagedImageIndex :=
  let tree := visited source in
  let ns := tree ≫= node_references inst tree in
  {| nodes := ns; uids := dedup (node_uid <$> ns); invalidReferences := tree ≫= node_invalid inst tree |}.

(** ** The module's state: the instance's URL and the cache, oldest entry first *)

Record module_state := { published : instance; indexCache : list (jstring * ManagedImageIndex) }.
Definition initial : module_state :=
  {| published := {| instanceOrigin := None; instanceHost := None |}; indexCache := [] |}.

Definition INDEX_CACHE_LIMIT : nat := 128.
#[global] Arguments INDEX_CACHE_LIMIT : simpl never.
Definition EMPTY_INDEX : ManagedImageIndex := {| nodes := []; uids := []; invalidReferences := [] |}.

Definition instance_of (instanceUrl : option jstring) : instance :=
  let none := {| instanceOrigin := None; instanceHost := None |} in
  match instanceUrl with
  | None => none
  | Some url =>
      match trim url with
      | [] => none
      | t => match new_URL t None with
             | Some parsed => {| instanceOrigin := Some (origin parsed); instanceHost := Some (host parsed) |}
             | None => none
             end
      end
  end.

Definition setManagedAttachmentInstanceUrl (st : module_state) (instanceUrl : option jstring) : module_state :=
  let next := instance_of instanceUrl in
  if bool_decide (next = published st) then st else {| published := next; indexCache := [] |}.

Definition managedImageIndex (st : module_state) (source : jstring) : ManagedImageIndex * module_state :=
  if negb (includes source MANAGED_ATTACHMENT_PATH_PREFIX) then (EMPTY_INDEX, st)
  else
    match js_find (fun e => js_eqb (fst e) source) (indexCache st) with
    | Some e => (snd e, st)
    | None =>
        let index := buildManagedImageIndex (published st) source in
        let kept := if (INDEX_CACHE_LIMIT <=? length (indexCache st))%nat then tail (indexCache st) else indexCache st in
        (index, {| published := published st; indexCache := kept ++ [(source, index)] |})
    end.

Definition extractManagedAttachmentUIDs (st : module_state) (source : jstring) : list jstring * module_state :=
  let (index, st') := managedImageIndex st source in (uids index, st').
Definition findInvalidManagedAttachmentReferences (st : module_state) (source : jstring) : list jstring * module_state :=
  let (index, st') := managedImageIndex st source in (invalidReferences index, st').
Definition extractManagedAttachmentReferences (st : module_state) (source : jstring)
    : list (jstring * image_kind * nat) * module_state :=
  let (index, st') := managedImageIndex st source in
  (omap (fun n => p ← node_position n; Some (node_uid n, node_kind n, fst p)) (nodes index), st').
End Page.

(** ** Writing references *)

Definition escape_char (c : Z) (s : jstring) : jstring := s ≫= fun d => if d =? c then [92; d] else [d].
Definition escapeMarkdownAlt (value : jstring) : jstring := escape_char 93 (escape_char 91 (escape_char 92 value)).

(** [value.replace(/[\r\n]+/g, " ")]: a run of line breaks becomes one blank. *)
Fixpoint blank_breaks (in_run : bool) (s : jstring) : jstring :=
  match s with
  | [] => []
  | c :: s' =>
      if (c =? 13) || (c =? 10) then (if in_run then [] else [32]) ++ blank_breaks true s'
      else c :: blank_breaks false s'
  end.

(** [s.lastIndexOf(c, from)]: the last occurrence at or before [from]. *)
Fixpoint last_index (s : jstring) (c : Z) (from : nat) : option nat :=
  if bool_decide (s !! from = Some c) then Some from
  else match from with O => None | Datatypes.S from' => last_index s c from' end.

Definition filenameStem (filename : jstring) : jstring :=
  let normalized := trim (blank_breaks false filename) in
  match last_index normalized 46 (length normalized) with
  | Some (Datatypes.S n) => slice normalized 0 (Datatypes.S n)
  | _ => match normalized with [] => u "image" | s => s end
  end.

(** An error carries the message of the exception. *)
Definition managed_reference (opening : jstring) (a : Attachment) : jstring + jstring :=
  match extractAttachmentUIDFromName (att_name a) with
  | None => inl (u "Invalid attachment resource name: " ++ att_name a)
  | Some uid =>
      inr (opening ++ escapeMarkdownAlt (filenameStem (filename a)) ++ u "](" ++ MANAGED_ATTACHMENT_PATH_PREFIX ++ uid ++ u ")")
  end.
Definition buildManagedAttachmentMarkdown : Attachment -> jstring + jstring := managed_reference (u "![").
Definition buildManagedVideoMarkdown : Attachment -> jstring + jstring := managed_reference (u "[video:").

Definition canInlineAttachment (a : Attachment) : bool := isImage (mime_type a) && js_eqb (externalLink a) [].
Definition canInlineMediaAttachment (a : Attachment) : bool :=
  (isImage (mime_type a) || js_eqb (getAttachmentType a) (u "video/*")) && js_eqb (externalLink a) [].

(** ** Removing references *)

(** One turn of the loop: the reference at [start, stop), with its line if nothing else is on it. *)
Definition remove_range (r : nat * nat) (result : jstring) : jstring :=
  let (start, stop) := r in
  let lineStart := match last_index result 10 (start - 1) with Some i => (i + 1)%nat | None => 0%nat end in
  let nextNewline := index_of result [10] stop in
  let lineEnd := default (length result) nextNewline in
  let removeWholeLine := js_eqb (trim (slice result lineStart start)) [] && js_eqb (trim (slice result stop lineEnd)) [] in
  let from := if removeWholeLine then lineStart else start in
  let to := if removeWholeLine then match nextNewline with Some n => (n + 1)%nat | None => lineEnd end else stop in
  let to' := if removeWholeLine && ends_with (slice result 0 from) [10; 10] && starts_with_at result [10] to
             then (to + 1)%nat else to in
  slice result 0 from ++ slice_from result to'.

(** The ranges to remove, from the last to the first. *)
Definition removed_ranges (index : ManagedImageIndex) (uids : list jstring) : list (nat * nat) :=
  sort_by (fun l r => (r.1 <=? l.1)%nat)
    (omap (fun n => if bool_decide (node_uid n ∈ uids) then node_position n else None) (nodes index)).

Section Use.
Context {page : WebPage} {parser : MarkdownParser} {markdown : MarkdownHost}.

Definition removeManagedAttachmentReferences (st : module_state) (source : jstring) (uids : list jstring) : jstring * module_state :=
  let (index, st') := managedImageIndex st source in
  (foldl (fun result r => remove_range r result) source (removed_ranges index uids), st').

(** ** Choosing attachments *)

Definition references (uids : list jstring) (a : Attachment) : bool :=
  match extractAttachmentUIDFromName (att_name a) with Some uid => bool_decide (uid ∈ uids) | None => false end.

Definition filterInlineManagedAttachments (st : module_state) (content : jstring) (attachments : list Attachment)
    : list Attachment * module_state :=
  let (referencedUIDs, st') := extractManagedAttachmentUIDs st content in
  match referencedUIDs with
  | [] => (attachments, st')
  | _ =>
      let inline := js_filter (references referencedUIDs) attachments in
      let inlineNames := att_name <$> inline in
      let inlineGroups := omap getAttachmentMotionGroupId inline in
      (js_filter (fun a => negb (bool_decide (att_name a ∈ inlineNames))
                           && negb (bool_decide (default [] (getAttachmentMotionGroupId a) ∈ inlineGroups))) attachments, st')
  end.

Definition getAttachmentUrl (a : Attachment) : jstring :=
  match externalLink a with
  | [] => location_origin ++ u "/file/" ++ att_name a ++ u "/" ++ filename a
  | link => link
  end.

Definition has_uid (uid : jstring) (a : Attachment) : bool := bool_decide (extractAttachmentUIDFromName (att_name a) = Some uid).

Definition resolveManagedAttachmentImageSource (inst : instance) (source : option jstring) (attachments : list Attachment) : option jstring :=
  match source with
  | None | Some [] => source
  | Some s =>
      match parseManagedAttachmentImageURL inst s with
      | None | Some [] => source
      | Some uid => match js_find (has_uid uid) attachments with Some a => Some (getAttachmentUrl a) | None => source end
      end
  end.

Record ManagedVideoAttachmentSource := { sourceUrl : jstring; video_filename : jstring; mimeType : jstring }.
Definition resolveManagedAttachmentVideoSource (inst : instance) (source : option jstring) (attachments : list Attachment)
    : option ManagedVideoAttachmentSource :=
  match source with
  | None | Some [] => None
  | Some s =>
      match parseManagedAttachmentImageURL inst s with
      | None | Some [] => None
      | Some uid =>
          a ← js_find (fun a => has_uid uid a && js_eqb (getAttachmentType a) (u "video/*")) attachments;
          Some {| sourceUrl := getAttachmentUrl a; video_filename := filename a; mimeType := mime_type a |}
      end
  end.
End Use.

Example reference_samples :
  escapeMarkdownAlt (u "a[b]\c") = u "a\[b\]\\c"
  /\ filenameStem (u "cat.final.png") = u "cat.final" /\ filenameStem (u ".png") = u ".png" /\ filenameStem (u "  ") = u "image"
  /\ extractAttachmentUIDFromName (u "attachments/ab-c9") = Some (u "ab-c9")
  /\ extractAttachmentUIDFromName (u "attachments/ab-") = None
  /\ remove_range (4, 7)%nat (u "ab" ++ [10; 32] ++ u "xyz " ++ [10] ++ u "cd") = u "ab" ++ [10] ++ u "cd"
  /\ remove_range (3, 6)%nat (u "ab xyz cd") = u "ab  cd".
Proof. vm_compute. repeat split. Qed.

(** ** The cache *)

Inductive module_call := PublishUrl (instanceUrl : option jstring) | ReadIndex (source : jstring).

Section Cache.
Context {page : WebPage} {parser : MarkdownParser} {markdown : MarkdownHost}.

Definition call (st : module_state) (c : module_call) : module_state :=
  match c with
  | PublishUrl url => setManagedAttachmentInstanceUrl st url
  | ReadIndex source => snd (managedImageIndex st source)
  end.

Definition cache_ok (st : module_state) : Prop :=
  (length (indexCache st) <= INDEX_CACHE_LIMIT)%nat
  /\ Forall (fun e => snd e = buildManagedImageIndex (published st) (fst e)) (indexCache st).

Lemma read_ok st source : cache_ok st -> cache_ok (snd (managedImageIndex st source)).
Proof.
  intros [Hlen Hall]. unfold managedImageIndex. destruct (includes _ _); [|done]. cbn [negb].
  destruct (js_find _ _); [done|]. unfold cache_ok. cbn [snd indexCache published]. rewrite length_app. cbn [length].
  destruct (INDEX_CACHE_LIMIT <=? length (indexCache st))%nat eqn:E.
  - apply Nat.leb_le in E. destruct (indexCache st) as [|e cache] eqn:Ec; [unfold INDEX_CACHE_LIMIT in E; cbn in E; lia|]. cbn [tail length] in *. split; [lia|].
    apply Forall_app. split; [by apply Forall_cons in Hall as [_ Hall]|]. by repeat constructor.
  - apply Nat.leb_gt in E. split; [lia|]. apply Forall_app. split; [done|]. by repeat constructor.
Qed.

Lemma call_ok st c : cache_ok st -> cache_ok (call st c).
Proof.
  intros H. destruct c as [url|source]; cbn [call]; [|by apply read_ok].
  unfold setManagedAttachmentInstanceUrl. destruct (bool_decide _); [done|]. split; [cbn; lia|constructor].
Qed.

Lemma calls_ok cs st : cache_ok st -> cache_ok (foldl call st cs).
Proof. revert st. induction cs as [|c cs IH]; intros st H; [done|]. apply IH. by apply call_ok. Qed.

Lemma published_read st source : published (snd (managedImageIndex st source)) = published st.
Proof. unfold managedImageIndex. destruct (includes _ _); [|done]. cbn. by destruct (js_find _ _). Qed.

Lemma read_value st source :
  cache_ok st ->
  fst (managedImageIndex st source)
  = (if includes source MANAGED_ATTACHMENT_PATH_PREFIX then buildManagedImageIndex (published st) source else EMPTY_INDEX).
Proof.
  intros [_ Hall]. unfold managedImageIndex. destruct (includes _ _); [|done]. cbn [negb].
  destruct (js_find _ _) as [e|] eqn:E; [|done]. apply js_find_Some in E as [Hin He]. rewrite Forall_forall in Hall.
  apply bool_decide_eq_true in He. cbn [fst]. rewrite (Hall e Hin). by rewrite He.
Qed.

(** The last URL the profile published, as the module keeps it. *)
Definition last_published (cs : list module_call) : instance :=
  foldl (fun i c => match c with PublishUrl url => instance_of url | ReadIndex _ => i end) (published initial) cs.

Lemma published_calls cs : published (foldl call initial cs) = last_published cs.
Proof.
  unfold last_published. generalize initial. induction cs as [|c cs IH]; intros st; [done|]. cbn [foldl]. rewrite IH. f_equal.
  destruct c as [url|source]; cbn [call]; [|apply published_read].
  unfold setManagedAttachmentInstanceUrl. destruct (bool_decide _) eqn:E; [|done]. by apply bool_decide_eq_true in E.
Qed.

(** C38. The cache of parsed texts never shows.  After any calls of the module, the index
    of a text is the one a fresh parse gives under the instance URL published last
    (empty for a text that does not mention the route), the cache holds at most 128
    texts, and asking again gives the same index and leaves the cache alone. *)
Theorem index_cache_transparent (cs : list module_call) (source : jstring) :
  let st := foldl call initial cs in
  let (index, st') := managedImageIndex st source in
  index = (if includes source MANAGED_ATTACHMENT_PATH_PREFIX
           then buildManagedImageIndex (last_published cs) source else EMPTY_INDEX)
  /\ (length (indexCache st') <= INDEX_CACHE_LIMIT)%nat
  /\ managedImageIndex st' source = (index, st').
Proof.
  intros st. assert (cache_ok st) as Hok by (apply calls_ok; split; [cbn; lia|constructor]).
  pose proof (read_value st source Hok) as Hv. pose proof (read_ok st source Hok) as Hok'.
  unfold st in Hv. rewrite published_calls in Hv. fold st in Hv.
  destruct (managedImageIndex st source) as [index st'] eqn:E. cbn [fst snd] in Hv, Hok'.
  split; [done|]. split; [apply Hok'|].
  clear Hv Hok Hok'. unfold managedImageIndex in *. destruct (includes _ _) eqn:Ei; cbn [negb] in *; [|by injection E as <- <-].
  destruct (js_find (fun e => js_eqb (fst e) source) (indexCache st)) as [e|] eqn:Ef.
  - injection E as <- <-. by rewrite Ef.
  - injection E as <- <-. cbn [indexCache].
    assert (forall l, (forall e, e ∈ l -> js_eqb (fst e) source = false) ->
      js_find (fun e => js_eqb (fst e) source) (l ++ [(source, buildManagedImageIndex (published st) source)])
      = Some (source, buildManagedImageIndex (published st) source)) as Hfind.
    { induction l as [|e l IH]; intros Hl; cbn [js_find app fst].
      - unfold js_eqb. by rewrite bool_decide_eq_true_2.
      - rewrite (Hl e) by (by left). apply IH. intros x Hx. apply Hl. by right. }
    rewrite Hfind; [done|]. rewrite js_find_None in Ef. intros e He. apply Ef.
    revert He. case_match; [|done]. destruct (indexCache st); [by inversion 1|by right].
Qed.
End Cache.

(** ** Removing references: what is lost *)

Definition visible_unit (c : Z) : bool := negb (is_space c).
(** The text without its white space. *)
Definition visible (s : jstring) : jstring := js_filter visible_unit s.
Definition all_blank (s : jstring) : Prop := Forall (fun c => is_space c = true) s.

(** A range begins and ends with a unit that is not white space, as Markdown images and links do. *)
Definition visible_ends (s : jstring) (r : nat * nat) : Prop :=
  (exists c, s !! r.1 = Some c /\ visible_unit c = true) /\ (exists c, s !! (r.2 - 1)%nat = Some c /\ visible_unit c = true).

Lemma visible_app s t : visible (s ++ t) = visible s ++ visible t.
Proof. apply js_filter_app. Qed.

Lemma visible_blank s : all_blank s -> visible s = [].
Proof. induction 1 as [|c s Hc _ IH]; [done|]. cbn. unfold visible_unit. by rewrite Hc. Qed.

Lemma last_index_Some s c n i : last_index s c n = Some i -> (i <= n)%nat /\ s !! i = Some c.
Proof.
  induction n as [|n IH]; cbn; (destruct (bool_decide _) eqn:E; [intros [= <-]; apply bool_decide_eq_true in E; done|]); [done|].
  intros H. destruct (IH H). split; [lia|done].
Qed.

Lemma blank_slice s a b i c : all_blank (slice s a b) -> (a <= i < b)%nat -> s !! i = Some c -> visible_unit c = false.
Proof.
  intros H Hi Hc. unfold all_blank in H. rewrite Forall_forall in H. unfold visible_unit. rewrite H; [done|].
  apply (list_elem_of_lookup_2 _ (i - a)). rewrite lookup_slice by lia. by replace (a + (i - a))%nat with i by lia.
Qed.

Lemma newline_at s i : starts_with_at s [10] i = true -> s !! i = Some 10.
Proof.
  unfold starts_with_at. intros (t & E)%prefixb_spec. apply (f_equal (lookup 0%nat)) in E.
  rewrite lookup_drop, Nat.add_0_r in E. exact E.
Qed.

Lemma blank_newline s b n : all_blank (slice s b n) -> (b <= n)%nat -> s !! n = Some 10 -> all_blank (slice s b (n + 1)).
Proof.
  intros H Hbn Hn. rewrite (slice_app_split s b n) by lia. apply Forall_app. split; [exact H|].
  rewrite (slice_one _ _ 10) by done. by repeat constructor.
Qed.

(** One turn takes the range and white space next to it. *)
Lemma remove_range_spec a b s :
  (a < b <= length s)%nat -> visible_ends s (a, b) ->
  exists from to, remove_range (a, b) s = slice s 0 from ++ slice_from s to
    /\ (from <= a)%nat /\ (b <= to)%nat /\ all_blank (slice s from a) /\ all_blank (slice s b to).
Proof.
  intros Hab [(c & Hc & Hvis) _]. cbn [fst] in Hc. unfold remove_range. cbv zeta.
  set (lineStart := match last_index s 10 (a - 1) with Some i => (i + 1)%nat | None => 0%nat end).
  assert (lineStart <= a)%nat as Hls.
  { unfold lineStart. destruct (last_index s 10 (a - 1)) as [i|] eqn:E; [|lia]. apply last_index_Some in E as [Hi Hl].
    destruct (decide (i + 1 <= a)%nat); [done|]. assert (i = a) as -> by lia. rewrite Hc in Hl. by injection Hl as ->. }
  assert (forall from to, (from <= a)%nat -> (b <= to)%nat -> all_blank (slice s from a) -> all_blank (slice s b to) ->
    forall x, exists f t, slice s 0 from ++ slice_from s (if x && starts_with_at s [10] to then to + 1 else to)
      = slice s 0 f ++ slice_from s t /\ (f <= a)%nat /\ (b <= t)%nat /\ all_blank (slice s f a) /\ all_blank (slice s b t)) as Hdone.
  { intros from to Hf Ht Hbf Hbt x. eexists _, _. split; [reflexivity|]. split; [done|].
    destruct (x && starts_with_at s [10] to) eqn:E; [|done]. apply andb_true_iff in E as [_ E]. apply newline_at in E.
    split; [lia|]. split; [done|]. by apply blank_newline. }
  assert (forall i, all_blank (slice s i i)) as Hself by (intros i; unfold slice, all_blank; by rewrite Nat.sub_diag).
  destruct (js_eqb (trim (slice s lineStart a)) [] && _) eqn:E; [|apply (Hdone a b); auto; lia].
  apply andb_true_iff in E as [E1%bool_decide_eq_true E2%bool_decide_eq_true]. apply trim_nil in E1, E2.
  destruct (index_of s [10] b) as [n|] eqn:En; cbn [default] in *.
  - apply index_of_Some in En as (Hbn & Hn%newline_at & _). apply Hdone; [done|lia|done|by apply blank_newline].
  - apply Hdone; [done|lia|done|done].
Qed.

(** All turns, from the last range on: the text before [lo] stays. *)
Lemma remove_ranges_spec s ranges lo :
  (lo = 0%nat \/ exists c, s !! (lo - 1)%nat = Some c /\ visible_unit c = true) ->
  spans (fun r => r) lo ranges (length s) -> Forall (visible_ends s) ranges ->
  let result := foldr remove_range s ranges in
  take lo result = take lo s /\ visible (drop lo result) = visible (without s lo ranges) /\ result `sublist_of` s.
Proof.
  revert lo. induction ranges as [|[a b] ranges IH]; intros lo Hlo Hspans Hvis; cbn [foldr without]; [done|].
  destruct Hspans as [Hab Hspans]. cbn [fst snd] in Hab, Hspans. pose proof (spans_bounds _ _ _ _ Hspans) as Hblen.
  apply Forall_cons in Hvis as [Hends Hvis]. pose proof Hends as [(ca & Hca & Hva) (cb & Hcb & Hvb)]. cbn [fst snd] in *.
  destruct (IH b) as (Htake & Hvisible & Hsub); [right; by exists cb|done|done|]. set (r := foldr remove_range s ranges) in *.
  assert (b <= length r)%nat as Hblen'.
  { apply (f_equal length) in Htake. rewrite !length_take in Htake. lia. }
  assert (forall i, (i < b)%nat -> r !! i = s !! i) as Hsame.
  { intros i Hi. apply (f_equal (lookup i)) in Htake. by rewrite !lookup_take_lt in Htake by done. }
  assert (forall f t, (t <= b)%nat -> slice r f t = slice s f t) as Hslice.
  { intros f t Ht. apply (f_equal (take t)) in Htake. rewrite !take_take, !Nat.min_l in Htake by lia.
    unfold slice. by rewrite <- !skipn_firstn_comm, Htake. }
  destruct (remove_range_spec a b r) as (from & to & -> & Hfrom & Hto & Hbf & Hbt).
  { lia. }
  { split; cbn [fst snd]; [exists ca|exists cb]; (rewrite Hsame by lia; done). }
  assert (lo <= from)%nat as Hlofrom.
  { destruct (decide (lo <= from)%nat); [done|]. destruct Hlo as [->|(c & Hc & Hv)]; [lia|].
    rewrite (blank_slice r from a (lo - 1) c) in Hv; [done|done|lia|by rewrite Hsame by lia]. }
  assert (slice r 0 from = take lo s ++ slice r lo from) as ->.
  { rewrite (slice_app_split r 0 lo from) by lia. f_equal. rewrite Hslice by lia. unfold slice. by rewrite drop_0, Nat.sub_0_r. }
  rewrite <- app_assoc, take_app_length', drop_app_length' by (rewrite length_take; lia). split; [done|]. split.
  - rewrite <- (Hslice lo a) by lia. rewrite (slice_app_split r lo from a), !visible_app, <- Hvisible by lia.
    rewrite (visible_blank (slice r from a)), app_nil_r by done. f_equal. change (drop b r) with (slice_from r b).
    rewrite (slice_then_from r b to) by done. by rewrite visible_app, (visible_blank (slice r b to)).
  - etrans; [|exact Hsub]. rewrite app_assoc. assert (take lo s ++ slice r lo from = slice r 0 from) as ->.
    { rewrite (slice_app_split r 0 lo from) by lia. f_equal. rewrite Hslice by lia. unfold slice. by rewrite drop_0, Nat.sub_0_r. }
    change r with (slice_from r 0) at 3. rewrite (slice_then_from r 0 from) by lia. apply sublist_app; [done|].
    rewrite (slice_then_from r from to) by lia. by apply sublist_inserts_l.
Qed.

Lemma sort_descending ranges lo hi :
  spans (fun r => r) lo ranges hi -> sort_by (fun l r : nat * nat => (r.1 <=? l.1)%nat) ranges = rev ranges.
Proof.
  intros Hspans. unfold sort_by.
  assert (forall acc, Forall (fun r : nat * nat => (r.1 < lo)%nat) acc ->
    foldl (fun acc x => insert_by (fun l r : nat * nat => (r.1 <=? l.1)%nat) x acc) acc ranges = rev ranges ++ acc) as H;
    [|rewrite H; [apply app_nil_r|constructor]].
  revert lo Hspans. induction ranges as [|r ranges IH]; intros lo Hspans acc Hacc; [done|].
  destruct Hspans as [Hr Hspans]. cbn beta in Hr, Hspans. cbn [foldl rev].
  assert (forall l, match l with [] => True | y :: _ => (y.1 < r.1)%nat end ->
    insert_by (fun l r : nat * nat => (r.1 <=? l.1)%nat) r l = r :: l) as ->.
  { intros [|y l] Hy; [done|]. cbn. by rewrite (proj2 (Nat.leb_gt _ _)). }
  - rewrite (IH r.2); [by rewrite <- app_assoc|done|]. constructor; [lia|]. eapply Forall_impl; [exact Hacc|]. cbn. lia.
  - destruct acc as [|y acc]; [done|]. apply Forall_cons in Hacc as [Hy _]. lia.
Qed.

(** The ranges the call is asked to remove, in the order of the index. *)
Definition asked_ranges (index : ManagedImageIndex) (uids : list jstring) : list (nat * nat) :=
  omap (fun n => if bool_decide (node_uid n ∈ uids) then node_position n else None) (nodes index).

Section Removal.
Context {page : WebPage} {parser : MarkdownParser} {markdown : MarkdownHost}.

(** Removing references takes the references and white space, nothing else.  Where
    the references asked for follow each other in the text (none inside another) and
    begin and end with a visible character, the new text is part of the old one, and
    its visible characters are those of the old text outside the references. *)
Theorem removed_references_only (st : module_state) (source : jstring) (names : list jstring) :
  let ranges := asked_ranges (fst (managedImageIndex st source)) names in
  spans (fun r => r) 0 ranges (length source) -> Forall (visible_ends source) ranges ->
  let result := fst (removeManagedAttachmentReferences st source names) in
  visible result = visible (without source 0 ranges) /\ result `sublist_of` source.
Proof.
  intros ranges Hspans Hvis. unfold removeManagedAttachmentReferences. destruct (managedImageIndex st source) as [index st'].
  cbn [fst] in *. unfold removed_ranges. fold (asked_ranges index names). fold ranges.
  rewrite (sort_descending ranges 0 (length source)) by done. rewrite foldl_rev.
  destruct (remove_ranges_spec source ranges 0) as (_ & Hv & Hs); [by left|done|done|]. by rewrite drop_0 in Hv.
Qed.
End Removal.

(** ** Written references *)

Definition path_char (c : Z) : bool := uid_inner c || (c =? 47).
(** A root-relative path of plain characters, without an authority. *)
Definition plain_path (raw : jstring) : Prop :=
  starts_with raw (u "/") = true /\ starts_with raw (u "//") = false /\ Forall (fun c => path_char c = true) raw.

(** What the URL standard says of such a path, resolved against the page's origin. *)
Class WebPageLaws {page : WebPage} : Prop :=
  plain_path_URL raw : plain_path raw ->
    exists parsed, new_URL raw (Some location_origin) = Some parsed /\ pathname parsed = raw /\ search parsed = [] /\ hash parsed = [].

Definition escape_unit (d : Z) : jstring := if (d =? 92) || (d =? 91) || (d =? 93) then [92; d] else [d].

(** Reading a label: a backslash stands for the unit after it; a bracket or a last
    backslash alone would end the label or change it. *)
Fixpoint read_label (s : jstring) : option jstring :=
  match s with
  | [] => Some []
  | c :: s' =>
      if c =? 92 then match s' with d :: s'' => cons d <$> read_label s'' | [] => None end
      else if (c =? 91) || (c =? 93) then None else cons c <$> read_label s'
  end.

Lemma escapeMarkdownAlt_unit s : escapeMarkdownAlt s = s ≫= escape_unit.
Proof.
  unfold escapeMarkdownAlt, escape_char. induction s as [|d s IH]; [done|]. cbn [mbind list_bind] in *.
  rewrite !bind_app, IH. f_equal. unfold escape_unit.
  destruct (d =? 92) eqn:E1; [apply Z.eqb_eq in E1 as ->; done|]. cbn [mbind list_bind app orb].
  destruct (d =? 91) eqn:E2; [apply Z.eqb_eq in E2 as ->; done|]. cbn [mbind list_bind app orb].
  by destruct (d =? 93).
Qed.

Lemma read_escaped s : read_label (escapeMarkdownAlt s) = Some s.
Proof.
  rewrite escapeMarkdownAlt_unit. induction s as [|d s IH]; [done|]. cbn [mbind list_bind]. unfold escape_unit at 1.
  destruct (d =? 92) eqn:E1; [apply Z.eqb_eq in E1 as ->; cbn; by rewrite IH|].
  destruct (d =? 91) eqn:E2; [apply Z.eqb_eq in E2 as ->; cbn; by rewrite IH|].
  destruct (d =? 93) eqn:E3; [apply Z.eqb_eq in E3 as ->; cbn; by rewrite IH|].
  cbn [orb app read_label]. rewrite E1, E2, E3. cbn [orb]. by rewrite IH.
Qed.

Definition line_break (c : Z) : bool := (c =? 10) || (c =? 13).

Lemma blank_breaks_none b s c : c ∈ blank_breaks b s -> line_break c = false.
Proof.
  unfold line_break. revert b. induction s as [|d s IH]; intros b; cbn [blank_breaks]; [by intros ?%elem_of_nil|].
  destruct ((d =? 13) || (d =? 10)) eqn:E.
  - rewrite elem_of_app. intros [H|H]; [|by eapply IH]. destruct b; [by apply elem_of_nil in H|].
    by apply list_elem_of_singleton in H as ->.
  - rewrite elem_of_cons. intros [->|H]; [|by eapply IH]. by rewrite orb_comm.
Qed.

Lemma elem_of_trim s c : c ∈ trim s -> c ∈ s.
Proof.
  assert (forall t, c ∈ trim_start t -> c ∈ t) as H.
  { intros t Ht. destruct (trim_start_split t) as (ws & -> & _). apply elem_of_app. by right. }
  unfold trim, trim_end. rewrite list_elem_of_In, <- in_rev, <- list_elem_of_In. intros Hc%H.
  rewrite list_elem_of_In, <- in_rev, <- list_elem_of_In in Hc. by apply H.
Qed.

Lemma filenameStem_one_line f c : c ∈ filenameStem f -> line_break c = false.
Proof.
  unfold filenameStem. set (s := trim (blank_breaks false f)).
  assert (forall d, d ∈ s -> line_break d = false) as Hs by (intros d Hd; eapply blank_breaks_none; by apply elem_of_trim).
  assert (c ∈ match s with [] => u "image" | _ => s end -> line_break c = false) as Hdef.
  { destruct s; [|apply Hs]. intros Hc. assert (Forall (fun d => line_break d = false) (u "image")) as Hi by (by repeat constructor).
    rewrite Forall_forall in Hi. by apply Hi. }
  destruct (last_index s 46 (length s)) as [[|n]|].
  - intros H. apply Hdef. by destruct s.
  - intros H. apply Hs. unfold slice in H. by apply elem_of_take in H as (i & Hi & _); apply list_elem_of_lookup_2 in Hi.
  - intros H. apply Hdef. by destruct s.
Qed.

Lemma UID_PATTERN_units uid : test false UID_PATTERN uid = true -> uid <> [] /\ Forall (fun c => uid_inner c = true) uid.
Proof.
  unfold test. destruct (exec_from false UID_PATTERN uid 0) as [m|] eqn:E; [|done]. intros _.
  apply exec_from_Some in E as (_ & _ & E). unfold UID_PATTERN in E. rewrite matches_seq in E.
  destruct E as (st0 & [-> H0]%matches_start & E). cbn [fst] in H0. rewrite H0 in *.
  rewrite matches_seq in E. destruct E as (st1 & (c & Hc & Pc & ->)%matches_chars & E).
  rewrite matches_seq in E. destruct E as (st2 & E & Hend).
  assert (uid_inner c = true) as Pc' by (unfold uid_inner; by rewrite Pc).
  assert (all_chars uid uid_inner 0 st2.1) as Hall.
  { eapply all_chars_cons; [done|done|]. cbn [Nat.add]. unfold opt in E. rewrite matches_alt, matches_eps, matches_seq in E.
    destruct E as [(st3 & (H1 & _ & _)%matches_up_to_chars & E)| ->]; [|apply all_chars_nil].
    destruct st3 as [i3 caps3]. cbn [fst] in *. apply matches_chars in E as (d & Hd & Pd & ->). cbn [fst].
    eapply all_chars_app; [exact H1|]. eapply all_chars_one; [done|]. unfold uid_inner. by rewrite Pd. }
  apply matches_end in Hend as [_ Hlen]. apply all_chars_slice in Hall as [Hall _].
  split; [intros ->; done|]. unfold slice in Hall. rewrite drop_0, Nat.sub_0_r, take_ge in Hall by done. done.
Qed.

Lemma hasScheme_letter raw c t : raw = c :: t -> is_upper_ascii c || is_lower_ascii c = false -> hasScheme raw = false.
Proof.
  intros -> Hc. unfold hasScheme, test. destruct (exec_from _ _ _ _) as [m|] eqn:E; [|done]. exfalso.
  apply exec_from_Some in E as (_ & _ & E). rewrite matches_seq in E. destruct E as (st0 & [-> H0]%matches_start & E).
  cbn [fst] in H0. rewrite H0 in E. rewrite matches_seq in E. destruct E as (st1 & (d & Hd & Pd & _)%matches_chars & _).
  cbn in Hd. simplify_eq. congruence.
Qed.

Section Written.
Context {page : WebPage} {page_laws : WebPageLaws}.

Lemma written_url_managed inst uid :
  test false UID_PATTERN uid = true -> classifyManagedAttachmentImageURL inst (MANAGED_ATTACHMENT_PATH_PREFIX ++ uid) = Managed uid.
Proof.
  intros Huid. pose proof (UID_PATTERN_units uid Huid) as [Hne Hall].
  set (url := MANAGED_ATTACHMENT_PATH_PREFIX ++ uid).
  assert (plain_path url) as Hplain.
  { split; [done|]. split; [done|]. apply Forall_app. split.
    - by repeat constructor.
    - eapply Forall_impl; [exact Hall|]. intros c Hc. unfold path_char. cbn in Hc. by rewrite Hc. }
  destruct (plain_path_URL url Hplain) as (parsed & Hp & Hpath & Hsearch & Hhash).
  unfold classifyManagedAttachmentImageURL. rewrite Hp, Hpath, Hsearch, Hhash.
  assert (hasScheme url = false) as -> by (by eapply hasScheme_letter).
  assert (starts_with url MANAGED_ATTACHMENT_PATH_PREFIX = true) as -> by (apply starts_with_spec; by exists uid).
  destruct Hplain as (-> & -> & Hchars). cbn [negb andb orb].
  destruct (includes url (u "%")) eqn:Ei.
  { exfalso. change (u "%") with [37] in Ei. apply includes_unit in Ei. rewrite Forall_forall in Hchars. specialize (Hchars 37 Ei). done. }
  unfold managed_path, slice_from, url. rewrite drop_app_length.
  rewrite split_on_single; [|intros Hin; rewrite Forall_forall in Hall; specialize (Hall 47 Hin); done].
  cbn [head default length]. unfold id. by rewrite Huid.
Qed.

(** A reference the editor writes is read back as its attachment.  For an attachment
    with a valid name the text written is an image whose label spells the file's stem
    on one line, with every bracket escaped, and whose URL is managed, under any
    instance URL, and resolves to the first attachment of that name; any other name
    is refused. *)
Theorem written_reference_resolves (inst : instance) (a : Attachment) :
  match extractAttachmentUIDFromName (att_name a) with
  | None => buildManagedAttachmentMarkdown a = inl (u "Invalid attachment resource name: " ++ att_name a)
  | Some uid =>
      exists label url,
        buildManagedAttachmentMarkdown a = inr (u "![" ++ label ++ u "](" ++ url ++ u ")")
        /\ buildManagedVideoMarkdown a = inr (u "[video:" ++ label ++ u "](" ++ url ++ u ")")
        /\ read_label label = Some (filenameStem (filename a)) /\ Forall (fun c => line_break c = false) label
        /\ parseManagedAttachmentImageURL inst url = Some uid
        /\ forall attachments,
             resolveManagedAttachmentImageSource inst (Some url) attachments
             = match js_find (fun b => bool_decide (extractAttachmentUIDFromName (att_name b) = Some uid)) attachments with
               | Some b => Some (getAttachmentUrl b)
               | None => Some url
               end
  end.
Proof.
  unfold buildManagedAttachmentMarkdown, buildManagedVideoMarkdown, managed_reference.
  destruct (extractAttachmentUIDFromName (att_name a)) as [uid|] eqn:E; [|done].
  assert (test false UID_PATTERN uid = true) as Huid.
  { unfold extractAttachmentUIDFromName in E. destruct (negb _); [done|]. destruct (test _ _ _) eqn:Et; [|done]. by injection E as <-. }
  exists (escapeMarkdownAlt (filenameStem (filename a))), (MANAGED_ATTACHMENT_PATH_PREFIX ++ uid).
  split; [by rewrite <- !app_assoc|]. split; [by rewrite <- !app_assoc|]. split; [apply read_escaped|]. split.
  { rewrite escapeMarkdownAlt_unit. apply Forall_forall. intros c (d & Hc & Hd)%list_elem_of_bind. apply filenameStem_one_line in Hd.
    unfold escape_unit in Hc. destruct (_ || _); [apply elem_of_cons in Hc as [->|Hc]; [done|]|];
      apply list_elem_of_singleton in Hc; by subst. }
  assert (parseManagedAttachmentImageURL inst (MANAGED_ATTACHMENT_PATH_PREFIX ++ uid) = Some uid) as Hparse
    by (unfold parseManagedAttachmentImageURL; by rewrite written_url_managed).
  split; [done|]. intros attachments. unfold resolveManagedAttachmentImageSource. rewrite Hparse.
  apply UID_PATTERN_units in Huid as [Hne _]. destruct uid as [|c uid]; [done|]. reflexivity.
Qed.
End Written.

(** ** Choosing attachments *)

Section Chosen.
Context {page : WebPage} {parser : MarkdownParser} {markdown : MarkdownHost}.

(** The attachments shown below a memo are those its text does not show.  One is left
    out exactly when it has the name of a referenced attachment or belongs to the
    motion group of one, so that both halves of a live photo go together. *)
Theorem inline_attachments_hidden (st : module_state) (content : jstring) (attachments : list Attachment) (a : Attachment) :
  let referenced b := exists uid, extractAttachmentUIDFromName (att_name b) = Some uid
                                  /\ uid ∈ fst (extractManagedAttachmentUIDs st content) in
  let shown := fst (filterInlineManagedAttachments st content attachments) in
  shown `sublist_of` attachments
  /\ (a ∈ shown <-> a ∈ attachments
      /\ ~ exists b, b ∈ attachments /\ referenced b
           /\ (att_name b = att_name a \/ exists g, getAttachmentMotionGroupId b = Some g /\ getAttachmentMotionGroupId a = Some g)).
Proof.
  intros referenced shown. unfold shown, referenced, filterInlineManagedAttachments.
  destruct (extractManagedAttachmentUIDs st content) as [names st']. cbn [fst].
  assert (forall b, references names b = true <-> exists uid, extractAttachmentUIDFromName (att_name b) = Some uid /\ uid ∈ names) as Href.
  { intros b. unfold references. destruct (extractAttachmentUIDFromName (att_name b)) as [uid|]; [|naive_solver].
    rewrite bool_decide_eq_true. naive_solver. }
  assert (forall b g, getAttachmentMotionGroupId b = Some g -> g <> []) as Hgroup.
  { intros b g. unfold getAttachmentMotionGroupId. destruct (motionMedia b) as [m|]; [|done]. cbn. by destruct (groupId m); intros [= <-]. }
  destruct names as [|n names]; cbn [fst].
  { split; [done|]. split; [|by intros [? _]]. intros Ha. split; [done|]. intros (b & _ & (uid & _ & Hin) & _). by apply elem_of_nil in Hin. }
  split; [apply js_filter_sublist|]. rewrite js_filter_In, andb_true_iff, !negb_true_iff, !bool_decide_eq_false.
  apply and_iff_compat_l. rewrite list_elem_of_fmap, list_elem_of_omap. setoid_rewrite js_filter_In. setoid_rewrite Href. split.
  - intros [Hn Hg] (b & Hb & Hr & [He|(g & Hgb & Hga)]); [apply Hn; exists b; split; [by symmetry|done]|].
    apply Hg. exists b. by rewrite Hga.
  - intros H. split.
    + intros (b & He & Hb & Hr). apply H. exists b. split; [done|]. split; [done|]. by left.
    + intros (b & [Hb Hr] & Hgb). apply H. exists b. split; [done|]. split; [done|]. right.
      destruct (getAttachmentMotionGroupId a) as [g|]; cbn in Hgb; [by exists g|]. by apply Hgroup in Hgb.
Qed.
End Chosen.

(** ** Concrete hosts *)

Definition site : jstring := u "https://memos.test".
(** The URLs of one site: root-relative paths, and the site itself. *)
#[local] Instance plain_page : WebPage := {|
  new_URL raw base :=
    match base with
    | Some o =>
        if starts_with raw (u "/") && negb (starts_with raw (u "//")) && forallb path_char raw
        then Some {| pathname := raw; host := u "memos.test"; origin := o; search := []; hash := [] |} else None
    | None => if js_eqb raw site then Some {| pathname := u "/"; host := u "memos.test"; origin := site; search := []; hash := [] |} else None
    end;
  location_origin := site;
|}.
#[local] Instance plain_page_laws : WebPageLaws (page := plain_page).
Proof.
  intros raw (H1 & H2 & H3). unfold new_URL, plain_page. rewrite H1, H2.
  assert (forallb path_char raw = true) as ->
    by (apply forallb_forall; intros c Hc; rewrite Forall_forall in H3; apply H3; by apply list_elem_of_In).
  by eexists.
Qed.
#[local] Instance plain_markdown : MarkdownHost := {| decodeString := id; normalizeIdentifier := id; has_definition := fun _ => false |}.
(** A parser of texts that hold the image [![a](/file/attachments/u1)], alone or not. *)
Definition sample_image : jstring := u "![a](/file/attachments/u1)".
#[local] Instance image_parser : MarkdownParser := {|
  visited s := match index_of s sample_image 0 with
               | Some i => [OtherNode; Image (u "/file/attachments/u1") (Some (i, i + length sample_image)%nat)]
               | None => [OtherNode]
               end |}.
Definition sample_text : jstring := u "top" ++ [10; 10] ++ sample_image ++ u "  " ++ [10; 10] ++ u "end".

Lemma removed_references_only_witness (result := fst (removeManagedAttachmentReferences initial sample_text [u "u1"])) :
  result = u "top" ++ [10; 10] ++ u "end" /\ visible result = u "topend" /\ result `sublist_of` sample_text.
Proof.
  destruct (removed_references_only initial sample_text [u "u1"]) as [Hv Hs].
  - vm_compute. lia.
  - apply Forall_cons_2; [|apply Forall_nil_2]. split; eexists; split; reflexivity.
  - split; [vm_compute; reflexivity|]. split; [exact Hv|exact Hs].
Defined.

Definition sample_attachment : Attachment :=
  {| att_name := u "attachments/u1"; filename := u "a[1].png"; mime_type := u "image/png"; externalLink := [];
     motionMedia := None; other_fields := [] |}.

Lemma written_reference_resolves_witness (inst := published initial) :
  exists label url,
    buildManagedAttachmentMarkdown sample_attachment = inr (u "![" ++ label ++ u "](" ++ url ++ u ")")
    /\ read_label label = Some (u "a[1]")
    /\ parseManagedAttachmentImageURL inst url = Some (u "u1")
    /\ resolveManagedAttachmentImageSource inst (Some url) [sample_attachment] = Some (u "https://memos.test/file/attachments/u1/a[1].png").
Proof.
  destruct (written_reference_resolves inst sample_attachment) as (label & url & H1 & _ & H2 & _ & H3 & H4).
  exists label, url. split; [exact H1|]. split; [exact H2|]. split; [exact H3|]. rewrite (H4 [sample_attachment]). reflexivity.
Defined.


(** A managed image inside the label of a managed video link: the inner range is removed
    first, and the end of the outer one no longer fits. *)
Example nested_references_overrun :
  let s := u "[video:![](/file/attachments/a)](/file/attachments/b) keep this" in
  foldl (fun result r => remove_range r result) s [(7, 31)%nat; (0, 53)%nat] = [].
Proof. vm_compute. reflexivity. Qed.
