(* ===== verification/MediaMetadata.v ===== *)
(** * What the client reads of a photo or a video

    web/src/components/MemoEditor/services/mediaMetadataService.ts, and the validation of
    server/router/api/v1/attachment_media_metadata.go it is written against.  The EXIF parser
    and the decoding of images are parameters, given by their outcome; a number is a rational
    or none, and the operations on coordinates round as a parameter says. *)

From Stdlib Require Import QArith.QArith.
From S2P Require Import Prelude JSString JSRegExp JSDate HostUnicode HomeToday MemoFilters ManagedAttachment.
Open Scope Z_scope.

(** ** Values of EXIF tags *)

(** A JavaScript number: finite, or [NaN] and the infinities. *)
Inductive number := Fin (q : Q) | NotFinite.
(** [unknown] values: [VOther] is an object or a boolean. *)
Inductive exif_value := VUndefined | VNull | VString (s : jstring) | VNumber (n : number) | VArray (l : list exif_value) | VBytes (l : list Z) | VOther.
Definition ExifTags := list (jstring * exif_value).
Definition tag (tags : ExifTags) (name : string) : exif_value := default VUndefined (snd <$> js_find (fun e => js_eqb e.1 (u name)) tags).
(** [a ?? b]. *)
Definition or_else (a b : exif_value) : exif_value := match a with VUndefined | VNull => b | _ => a end.

Definition MAX_METADATA_STRING_BYTES : nat := 256.
Definition MAX_SAFE_INTEGER : Z := 9007199254740991.

Record Dimensions := { dim_width : Z; dim_height : Z }.
Record MediaCaptureTime := { localDateTime : jstring; utcOffset : option jstring }.
Record MediaLocation := { latitude : Q; longitude : Q; altitudeMeters : option Q }.
Record PhotoMetadata := {
  captureTime : option MediaCaptureTime; location : option MediaLocation; sourceExifOrientation : option Z;
  cameraMake : option jstring; cameraModel : option jstring; lensModel : option jstring;
  fNumber : option Q; exposureTimeSeconds : option Q; iso : option Z; focalLengthMm : option Q }.
Inductive media_details := Photo (p : PhotoMetadata) | Video (durationSeconds : Q).
Record MediaMetadata := { meta_width : option Z; meta_height : option Z; details : option media_details }.

(** ** Normalising *)

Fixpoint normalizeFiniteNumber (value : exif_value) : option Q :=
  match value with
  | VNumber (Fin q) => Some q
  | VArray (v :: _) => normalizeFiniteNumber v
  | VBytes (b :: _) => Some (inject_Z b)
  | _ => None
  end.
Definition normalizePositiveNumber (value : exif_value) : option Q :=
  n ← normalizeFiniteNumber value; if Qle_bool n 0 then None else Some n.
(** The integer a number is, if it is one: [Number.isInteger]. *)
Definition integer_of (q : Q) : option Z := match Qred q with n # 1 => Some n | _ => None end.
Definition normalizeInteger (value : exif_value) (minimum maximum : Z) : option Z :=
  q ← normalizeFiniteNumber value; n ← integer_of q; if (minimum <=? n) && (n <=? maximum) then Some n else None.
Definition size_of (n : number) : option Z := match n with Fin q => n ← integer_of q; if 0 <? n then Some n else None | NotFinite => None end.
Definition normalizeDimensions (width height : number) : option Dimensions :=
  w ← size_of width; h ← size_of height; Some {| dim_width := w; dim_height := h |}.

(** Removes NUL and white space at the end, and white space at the start. *)
Fixpoint drop_blank (s : jstring) : jstring := match s with c :: s' => if (c =? 0) || is_space c then drop_blank s' else s | [] => [] end.
Definition cleanExifString (value : jstring) : jstring := trim_start (rev (drop_blank (rev value))).

(** [\p{Cc}]. *)
Definition is_control (c : Z) : bool := ((0 <=? c) && (c <=? 31)) || ((127 <=? c) && (c <=? 159)).
Definition normalizeMetadataString (value : exif_value) : option jstring :=
  match value with
  | VString s =>
      let normalized := trim (js_filter (fun c => negb (is_control c)) s) in
      if js_eqb normalized [] || (MAX_METADATA_STRING_BYTES <? length normalized)%nat then None
      else if (MAX_METADATA_STRING_BYTES <? length (utf8_encode normalized))%nat then None else Some normalized
  | _ => None
  end.

(** A sequence of classes of characters. *)
Definition classes (ps : list (Z -> bool)) : re := foldr (fun p r => (Chars p +++ r)%re) Eps ps.
Definition only (c : Z) : Z -> bool := fun d => d =? c.
Definition either (a b : Z) : Z -> bool := fun d => (d =? a) || (d =? b).
(** [/^(\d{4}):(\d{2}):(\d{2})[ T](\d{2}):(\d{2}):(\d{2})$/]: its groups stand at fixed places. *)
Definition EXIF_DATE_TIME : re :=
  (StartOf false
   +++ classes [is_digit; is_digit; is_digit; is_digit; only 58; is_digit; is_digit; only 58; is_digit; is_digit; either 32 84;
                is_digit; is_digit; only 58; is_digit; is_digit; only 58; is_digit; is_digit]
   +++ EndOf false)%re.
Definition SUBSECONDS : re := (StartOf false +++ between 1 9 (Chars is_digit) +++ EndOf false)%re.
Definition UTC_OFFSET : re := (StartOf false +++ classes [either 43 45; is_digit; is_digit; only 58; is_digit; is_digit] +++ EndOf false)%re.

Definition normalizeUTCOffset (value : exif_value) : option jstring :=
  match value with
  | VString s =>
      let offset := cleanExifString s in
      if js_eqb offset (u "Z") then Some offset
      else if test false UTC_OFFSET offset then
        let hours := nat_value (slice offset 1 3) in
        let minutes := nat_value (slice offset 4 6) in
        if (hours <=? 14) && (minutes <=? 59) && (negb (hours =? 14) || (minutes =? 0)) then Some offset else None
      else None
  | _ => None
  end.

Section Metadata.
Context `{HostUnicode}.
(** How a double is rounded, and whether [Date] carries a day past the end of its month over. *)
Context (round : Q -> number) (rolls_over : bool).

(** [new Date] of an ISO date and time in UTC: its day and the second of the day. *)
Definition parse_utc (y m d h mi s : Z) : option (Z * Z) :=
  if (1 <=? m) && (m <=? 12) && (1 <=? d) && (d <=? 31) && (h <=? 24) && (mi <=? 59) && (s <=? 59) && ((h <? 24) || ((mi =? 0) && (s =? 0)))
     && ((d <=? days_in_month y (m - 1)) || rolls_over)
  then let day := day_number y (m - 1) d in Some (if h =? 24 then (day + 1, 0) else (day, h * 3600 + mi * 60 + s))
  else None.
Definition iso_year (y : Z) : jstring :=
  if (0 <=? y) && (y <? 10000) then pad_start 4 48 (string_of_int y) else (if y <? 0 then 45 else 43) :: pad_start 6 48 (string_of_int (Z.abs y)).
Definition toISOString (parsed : Z * Z) : jstring :=
  let d := date_of_day parsed.1 in
  iso_year (getFullYear d) ++ [45] ++ pad (getMonth d + 1) ++ [45] ++ pad (getDate d) ++ [84]
  ++ pad (parsed.2 / 3600) ++ [58] ++ pad (parsed.2 / 60 mod 60) ++ [58] ++ pad (parsed.2 mod 60) ++ u ".000Z".

Definition base_of (s : jstring) : jstring :=
  slice s 0 4 ++ [45] ++ slice s 5 7 ++ [45] ++ slice s 8 10 ++ [84] ++ slice s 11 13 ++ [58] ++ slice s 14 16 ++ [58] ++ slice s 17 19.
Definition subseconds_of (value : exif_value) : option jstring :=
  let cleaned := match value with VString s => cleanExifString s | _ => [] end in
  if test false SUBSECONDS cleaned then Some cleaned else None.
Definition normalizeCaptureTime (dateValue subsecondValue offsetValue : exif_value) : option MediaCaptureTime :=
  match dateValue with
  | VString s =>
      let cleaned := cleanExifString s in
      if test false EXIF_DATE_TIME cleaned then
        let at_field i j := nat_value (slice cleaned i j) in
        if at_field 0%nat 4%nat =? 0 then None
        else
          let base := base_of cleaned in
          parsed ← parse_utc (at_field 0 4)%nat (at_field 5 7)%nat (at_field 8 10)%nat (at_field 11 13)%nat (at_field 14 16)%nat (at_field 17 19)%nat;
          if starts_with (toISOString parsed) base then
            Some {| localDateTime := match subseconds_of subsecondValue with Some sub => base ++ [46] ++ sub | None => base end;
                    utcOffset := normalizeUTCOffset offsetValue |}
          else None
      else None
  | _ => None
  end.
Definition readCaptureTime (tags : ExifTags) : option MediaCaptureTime :=
  match normalizeCaptureTime (tag tags "DateTimeOriginal") (tag tags "SubSecTimeOriginal") (tag tags "OffsetTimeOriginal") with
  | Some t => Some t
  | None => normalizeCaptureTime (tag tags "CreateDate") (tag tags "SubSecTimeDigitized") (tag tags "OffsetTimeDigitized")
  end.

(** ** Coordinates *)

Definition within (maximum : Z) (n : number) : option Q :=
  match n with Fin q => if Qle_bool (inject_Z (- maximum)) q && Qle_bool q (inject_Z maximum) then Some q else None | NotFinite => None end.
Definition add (a b : number) : number := match a, b with Fin p, Fin q => round (p + q)%Q | _, _ => NotFinite end.
Definition divided (a : Q) (b : Z) : number := round (a / inject_Z b)%Q.
Definition signed (negative : bool) (n : number) : number := match n with Fin q => Fin (if negative then - q else q)%Q | NotFinite => NotFinite end.
Definition below (q : Q) (n : Z) : bool := negb (Qle_bool (inject_Z n) q).
(** From degrees, minutes and seconds. *)
Definition from_dms (dms : list exif_value) (maximum : Z) (negative : bool) : option Q :=
  degrees ← (v ← dms !! 0%nat; normalizeFiniteNumber v);
  minutes ← (v ← dms !! 1%nat; normalizeFiniteNumber v);
  seconds ← (v ← dms !! 2%nat; normalizeFiniteNumber v);
  if below degrees 0 || below minutes 0 || negb (below minutes 60) || below seconds 0 || negb (below seconds 60) then None
  else within maximum (signed negative (add (add (Fin degrees) (divided minutes 60)) (divided seconds 3600))).
Definition normalizeCoordinate (computed dms ref : exif_value) (maximum : Z) (positiveRef negativeRef : jstring) : option Q :=
  match q ← normalizeFiniteNumber computed; within maximum (Fin q) with
  | Some q => Some q
  | None =>
      let direction := match ref with VString s => to_upper (cleanExifString s) | _ => [] end in
      match dms with
      | VArray l =>
          if (length l <? 3)%nat || (negb (js_eqb direction positiveRef) && negb (js_eqb direction negativeRef)) then None
          else from_dms l maximum (js_eqb direction negativeRef)
      | _ => None
      end
  end.
Definition readLocation (tags : ExifTags) : option MediaLocation :=
  lat ← normalizeCoordinate (tag tags "latitude") (tag tags "GPSLatitude") (tag tags "GPSLatitudeRef") 90 (u "N") (u "S");
  lon ← normalizeCoordinate (tag tags "longitude") (tag tags "GPSLongitude") (tag tags "GPSLongitudeRef") 180 (u "E") (u "W");
  Some {| latitude := lat; longitude := lon;
          altitudeMeters := raw ← normalizeFiniteNumber (tag tags "GPSAltitude");
            Some (match normalizeFiniteNumber (tag tags "GPSAltitudeRef") with Some r => if Qeq_bool r 1 then (- raw)%Q else raw | None => raw end) |}.

(** ** Images and videos *)

Definition is_some {A} (o : option A) : bool := match o with Some _ => true | None => false end.
Definition has_photo_details (p : PhotoMetadata) : bool :=
  is_some (captureTime p) || is_some (location p) || is_some (sourceExifOrientation p) || is_some (cameraMake p) || is_some (cameraModel p)
  || is_some (lensModel p) || is_some (fNumber p) || is_some (exposureTimeSeconds p) || is_some (iso p) || is_some (focalLengthMm p).
Definition readExifDimensions (tags : ExifTags) (orientation : option Z) : option Dimensions :=
  width ← normalizeInteger (or_else (tag tags "ExifImageWidth") (tag tags "ImageWidth")) 1 MAX_SAFE_INTEGER;
  height ← normalizeInteger (or_else (tag tags "ExifImageHeight") (tag tags "ImageHeight")) 1 MAX_SAFE_INTEGER;
  Some (if match orientation with Some o => 5 <=? o | None => false end then {| dim_width := height; dim_height := width |}
        else {| dim_width := width; dim_height := height |}).
Definition photo_fields (tags : ExifTags) : PhotoMetadata := {|
  captureTime := readCaptureTime tags;
  location := readLocation tags;
  sourceExifOrientation := normalizeInteger (tag tags "Orientation") 1 8;
  cameraMake := normalizeMetadataString (tag tags "Make");
  cameraModel := normalizeMetadataString (tag tags "Model");
  lensModel := normalizeMetadataString (tag tags "LensModel");
  fNumber := normalizePositiveNumber (tag tags "FNumber");
  exposureTimeSeconds := normalizePositiveNumber (tag tags "ExposureTime");
  iso := normalizeInteger (tag tags "ISO") 1 MAX_SAFE_INTEGER;
  focalLengthMm := normalizePositiveNumber (tag tags "FocalLength") |}.

(** The outcome of a step of the browser: [None] when it fails, takes too long or is not there. *)
Record media_file := {
  media_type : jstring;
  exif : option ExifTags;                       (* exifr.parse, [{}] when it gives no object *)
  bitmap : option (number * number);            (* createImageBitmap *)
  video : option (number * number * number) }.  (* videoWidth, videoHeight, duration *)
Definition readImageDimensions (file : media_file) : option Dimensions := b ← bitmap file; normalizeDimensions b.1 b.2.
Definition extractImageMetadata (file : media_file) : option MediaMetadata :=
  let tags := default [] (exif file) in
  let orientation := normalizeInteger (tag tags "Orientation") 1 8 in
  let dimensions := match readExifDimensions tags orientation with Some d => Some d | None => readImageDimensions file end in
  let fields := photo_fields tags in
  if negb (is_some dimensions) && negb (has_photo_details fields) then None
  else Some {| meta_width := dim_width <$> dimensions; meta_height := dim_height <$> dimensions;
               details := if has_photo_details fields then Some (Photo fields) else None |}.
Definition duration_of (n : number) : option Q := match n with Fin q => if Qle_bool 0 q then Some q else None | NotFinite => None end.
Definition extractVideoMetadata (file : media_file) : option MediaMetadata :=
  v ← video file;
  let dimensions := normalizeDimensions v.1.1 v.1.2 in
  let durationSeconds := duration_of v.2 in
  if negb (is_some dimensions) && negb (is_some durationSeconds) then None
  else Some {| meta_width := dim_width <$> dimensions; meta_height := dim_height <$> dimensions; details := Video <$> durationSeconds |}.
(** [mediaMetadataService.extract]. *)
Definition extract (file : media_file) : option MediaMetadata :=
  if isImage (media_type file) then extractImageMetadata file
  else if starts_with (media_type file) (u "video/") then extractVideoMetadata file
  else None.

(** ** The server *)

(** [unicode.IsSpace]. *)
Definition go_space (c : Z) : bool :=
  ((9 <=? c) && (c <=? 13)) || (c =? 32) || (c =? 0x85) || (c =? 0xA0) || (c =? 0x1680) || ((0x2000 <=? c) && (c <=? 0x200A))
  || (c =? 0x2028) || (c =? 0x2029) || (c =? 0x202F) || (c =? 0x205F) || (c =? 0x3000).
Definition string_ok (value : jstring) : bool :=
  js_eqb value []
  || ((length (utf8_encode value) <=? MAX_METADATA_STRING_BYTES)%nat && negb (forallb go_space value) && negb (existsb is_control value)).
Definition LOCAL_DATE_TIME : re :=
  (StartOf false
   +++ classes [is_digit; is_digit; is_digit; is_digit; only 45; is_digit; is_digit; only 45; is_digit; is_digit; only 84;
                is_digit; is_digit; only 58; is_digit; is_digit; only 58; is_digit; is_digit]
   +++ opt (char 46 +++ between 1 9 (Chars is_digit)) +++ EndOf false)%re.
(** [time.Parse] of a text of that form, which may have a fraction: the year. *)
Definition time_parse (s : jstring) : option Z :=
  let at_field i j := nat_value (slice s i j) in
  let y := at_field 0%nat 4%nat in let m := at_field 5%nat 7%nat in let d := at_field 8%nat 10%nat in
  if (1 <=? m) && (m <=? 12) && (1 <=? d) && (d <=? days_in_month y (m - 1))
     && (at_field 11%nat 13%nat <? 24) && (at_field 14%nat 16%nat <? 60) && (at_field 17%nat 19%nat <? 60) then Some y else None.
Definition validateMediaCaptureTime (t : MediaCaptureTime) : bool :=
  test false LOCAL_DATE_TIME (localDateTime t)
  && match time_parse (localDateTime t) with Some y => negb (y =? 0) | None => false end
  && match utcOffset t with
     | None => true
     | Some o =>
         js_eqb o (u "Z")
         || (test false UTC_OFFSET o
             && negb ((14 <? nat_value (slice o 1 3)) || (59 <? nat_value (slice o 4 6))
                      || ((nat_value (slice o 1 3) =? 14) && negb (nat_value (slice o 4 6) =? 0))))
     end.
Definition degree_ok (maximum : Z) (q : Q) : bool := Qle_bool (inject_Z (- maximum)) q && Qle_bool q (inject_Z maximum).
Definition validateMediaLocation (l : MediaLocation) : bool := degree_ok 90 (latitude l) && degree_ok 180 (longitude l).
Definition all_some {A} (f : A -> bool) (o : option A) : bool := match o with Some a => f a | None => true end.
Definition positive (q : Q) : bool := negb (Qle_bool q 0).
Definition validatePhotoMetadata (p : PhotoMetadata) : bool :=
  all_some (fun o => (1 <=? o) && (o <=? 8)) (sourceExifOrientation p)
  && forallb (fun v => string_ok (default [] v)) [cameraMake p; cameraModel p; lensModel p]
  && forallb (all_some positive) [fNumber p; exposureTimeSeconds p; focalLengthMm p]
  && all_some (fun n => 0 <? n) (iso p) && all_some validateMediaCaptureTime (captureTime p) && all_some validateMediaLocation (location p).
(** Whether a photo has a field on the wire: strings that are empty have not. *)
Definition photo_on_wire (p : PhotoMetadata) : bool :=
  is_some (captureTime p) || is_some (location p) || is_some (sourceExifOrientation p) || is_some (fNumber p) || is_some (exposureTimeSeconds p)
  || is_some (iso p) || is_some (focalLengthMm p)
  || existsb (fun v => negb (js_eqb (default [] v) [])) [cameraMake p; cameraModel p; lensModel p].
Definition validateClientMediaMetadata (m : MediaMetadata) (mimeType : jstring) : bool :=
  let type := to_lower mimeType in
  let is_image := starts_with type (u "image/") in
  let is_video := starts_with type (u "video/") in
  (is_image || is_video)
  && Bool.eqb (is_some (meta_width m)) (is_some (meta_height m)) && all_some (fun n => 0 <? n) (meta_width m) && all_some (fun n => 0 <? n) (meta_height m)
  && match details m with
     | None => is_some (meta_width m)
     | Some (Photo p) => is_image && photo_on_wire p && validatePhotoMetadata p
     | Some (Video d) => is_video && Qle_bool 0 d
     end.
(** What an [int32] field of the message carries. *)
Definition int32 (n : Z) : bool := (-2147483648 <=? n) && (n <=? 2147483647).
Definition encodable (m : MediaMetadata) : bool :=
  all_some int32 (meta_width m) && all_some int32 (meta_height m)
  && match details m with Some (Photo p) => all_some int32 (sourceExifOrientation p) && all_some int32 (iso p) | _ => true end.

(** ** Lemmas: patterns *)

Lemma test_anchored r s : test false (StartOf false +++ r)%re s = true <-> exists st, matches false s r (0%nat, []) st.
Proof.
  unfold test. destruct (exec_from false (StartOf false +++ r)%re s 0) as [m|] eqn:Em; split; try done.
  - intros _. apply exec_from_Some in Em as (_ & _ & Hm). apply matches_seq in Hm as (st & [-> H0]%matches_start & Hm). cbn [fst] in H0. rewrite H0 in Hm. eauto.
  - intros [st Hst]. exfalso. pose proof (exec_from_first (StartOf false +++ r)%re s 0) as Hf. rewrite Em in Hf.
    specialize (Hf 0%nat ltac:(lia)). rewrite match_at_None in Hf. apply (Hf st). apply matches_seq. exists (0%nat, []). split; [by apply matches_start|done].
Qed.
Lemma matches_classes ps s i caps st :
  matches false s (classes ps) (i, caps) st <-> Forall2 (fun p c => p c = true) ps (slice s i (i + length ps)) /\ st = ((i + length ps)%nat, caps).
Proof.
  revert i. induction ps as [|p ps IH]; intros i; cbn [classes foldr].
  - rewrite matches_eps, Nat.add_0_r. unfold slice. rewrite Nat.sub_diag. split; [intros ->; split; [constructor|done]|by intros [_ ->]].
  - rewrite matches_seq. fold (classes ps). assert (forall c, s !! i = Some c -> slice s i (i + length (p :: ps)) = c :: slice s (i + 1) (i + 1 + length ps)) as Hsl.
    { intros c Hc. unfold slice. replace (i + length (p :: ps) - i)%nat with (S (length ps)) by (cbn [length]; lia).
      replace (i + 1 + length ps - (i + 1))%nat with (length ps) by lia. rewrite (drop_S s c i Hc). cbn [take]. by rewrite Nat.add_1_r. }
    split.
    + intros (st1 & (c & Hc & Hp & ->)%matches_chars & H2). apply IH in H2 as [H2 ->]. rewrite (Hsl c Hc). split; [by constructor|]. f_equal. cbn [length]. lia.
    + intros [H2 ->]. destruct (s !! i) as [c|] eqn:Hc.
      * rewrite (Hsl c eq_refl) in H2. inversion H2 as [|? ? ? ? Hp H3]; subst. exists ((i + 1)%nat, caps). split; [apply matches_chars; eauto|].
        apply IH. split; [done|]. f_equal. cbn [length]. lia.
      * apply Forall2_length in H2. unfold slice in H2. apply lookup_ge_None in Hc. rewrite drop_ge, take_nil in H2 by done. done.
Qed.
Lemma test_classes ps s : test false (StartOf false +++ classes ps +++ EndOf false)%re s = true <-> Forall2 (fun p c => p c = true) ps s.
Proof.
  rewrite test_anchored. setoid_rewrite matches_seq. setoid_rewrite matches_classes. cbn [Nat.add]. split.
  - intros (st & st1 & [H1 ->] & [-> Hend]%matches_end). cbn [fst] in Hend. unfold slice in H1. rewrite drop_0, take_ge in H1 by lia. done.
  - intros H1. pose proof (Forall2_length _ _ _ H1) as Hl. exists (length ps, []), (length ps, []). split.
    + split; [|done]. unfold slice. by rewrite drop_0, take_ge by lia.
    + apply matches_end. split; [done|]. cbn [fst]. lia.
Qed.
Lemma subseconds_shape s : test false SUBSECONDS s = true -> Forall (fun c => is_digit c = true) s /\ (1 <= length s <= 9)%nat.
Proof.
  unfold SUBSECONDS. rewrite test_anchored. intros (st & H1). apply matches_seq in H1 as (st1 & H1 & [-> Hend]%matches_end).
  apply matches_between_chars in H1 as (Hall & Hb & _); [|lia]. pose proof (all_chars_slice _ _ _ _ Hall) as [_ Hle]. specialize (Hle ltac:(lia)).
  assert (st1.1 = length s) as E by lia. rewrite E in *. split; [|lia]. apply Forall_lookup. intros k c Hc. destruct Hall as [_ Hall].
  destruct (Hall k) as (c' & Hc' & Hd); [split; [lia|by eapply lookup_lt_Some]|]. by simplify_eq.
Qed.
(** A base and its fraction are a date and time for the server. *)
Lemma local_date_time_form base sub : Forall2 (fun p c => p c = true)
    [is_digit; is_digit; is_digit; is_digit; only 45; is_digit; is_digit; only 45; is_digit; is_digit; only 84;
     is_digit; is_digit; only 58; is_digit; is_digit; only 58; is_digit; is_digit] base ->
  (forall s, sub = Some s -> Forall (fun c => is_digit c = true) s /\ (1 <= length s <= 9)%nat) ->
  test false LOCAL_DATE_TIME (match sub with Some s => base ++ [46] ++ s | None => base end) = true.
Proof.
  intros Hb Hs. pose proof (Forall2_length _ _ _ Hb) as Hl. cbn [length] in Hl. unfold LOCAL_DATE_TIME. apply test_anchored.
  set (s := match sub with Some s => base ++ [46] ++ s | None => base end).
  assert (slice s 0 19 = base) as E1. { unfold slice, s. rewrite drop_0. destruct sub; [by rewrite take_app_le, take_ge by lia|by rewrite take_ge by lia]. }
  exists (length s, []). apply matches_seq. eexists. split; [apply matches_classes; split; [|reflexivity]; cbn [length Nat.add]; by rewrite E1|].
  apply matches_seq. cbn [length Nat.add]. destruct sub as [x|]; cbn beta iota in s.
  - destruct (Hs x eq_refl) as [Hx Hxl]. exists (length s, []). split; [|apply matches_end; done]. apply matches_alt. left.
    apply matches_seq. exists (20%nat, []). split.
    + apply matches_chars. exists 46. split; [|by split]. unfold s. rewrite lookup_app_r by lia. by replace (19 - length base)%nat with 0%nat by lia.
    + apply matches_between_chars; [lia|]. assert (length s = (20 + length x)%nat) as El by (unfold s; rewrite !length_app; cbn [length]; lia). cbn [fst].
      split; [|split; [lia|done]]. rewrite El. split; [lia|]. intros k Hk. destruct (lookup_lt_is_Some_2 x (k - 20)%nat ltac:(lia)) as [c Hc].
      exists c. split; [|by eapply (proj1 (Forall_lookup _ _) Hx)]. unfold s. rewrite lookup_app_r by lia. cbn [app]. rewrite lookup_cons_ne_0 by lia.
      rewrite <- Hc. f_equal. lia.
  - exists (19%nat, []). split; [apply matches_alt; right; by apply matches_eps|]. apply matches_end. split; [unfold s; by rewrite <- Hl|cbn [fst]; unfold s; lia].
Qed.

(** ** Lemmas: the time of a photo *)

Definition two (a b : Z) : Z := nat_value [a; b].
Lemma two_digit a b : is_digit a = true -> is_digit b = true -> two a b = 10 * (a - 48) + (b - 48).
Proof. unfold two, nat_value. cbn. lia. Qed.
Lemma pad_digits v a b rest tail : 0 <= v < 100 -> pad v ++ rest = a :: b :: tail -> rest = tail /\ two a b = v.
Proof.
  intros Hv. rewrite pad_two by done. cbn [app]. intros [= <- <- ->]. split; [done|]. unfold two, nat_value. cbn. pose proof (Z.div_mod v 10). lia.
Qed.
Lemma date_time_shape s : test false EXIF_DATE_TIME s = true ->
  exists y1 y2 y3 y4 m1 m2 d1 d2 sep h1 h2 i1 i2 s1 s2,
    s = [y1; y2; y3; y4; 58; m1; m2; 58; d1; d2; sep; h1; h2; 58; i1; i2; 58; s1; s2]
    /\ Forall (fun c => is_digit c = true) [y1; y2; y3; y4; m1; m2; d1; d2; h1; h2; i1; i2; s1; s2].
Proof.
  unfold EXIF_DATE_TIME. rewrite test_classes. intros Hs. repeat (apply Forall2_cons_inv_l in Hs as (? & ? & ? & Hs & ->)).
  apply Forall2_nil_inv_l in Hs as ->. unfold only in *. repeat match goal with E : (_ =? _) = true |- _ => apply Z.eqb_eq in E as -> end.
  do 15 eexists. split; [reflexivity|]. repeat constructor; done.
Qed.
Lemma iso_year_digits y y1 y2 y3 y4 rest tail : is_digit y1 = true -> iso_year y ++ rest = y1 :: y2 :: y3 :: y4 :: tail ->
  rest = tail /\ y = nat_value [y1; y2; y3; y4].
Proof.
  intros Hd. unfold iso_year. destruct ((0 <=? y) && (y <? 10000)) eqn:E.
  - apply andb_true_iff in E as [E1%Z.leb_le E2%Z.ltb_lt]. rewrite pad_four by lia. cbn [app]. intros [= <- <- <- <- ->]. split; [done|]. unfold nat_value. cbn.
    Z.div_mod_to_equations. lia.
  - cbn [app]. intros [= <- _]. by destruct (y <? 0).
Qed.

Lemma base_of_shape y1 y2 y3 y4 m1 m2 d1 d2 sep h1 h2 i1 i2 s1 s2 :
  base_of [y1; y2; y3; y4; 58; m1; m2; 58; d1; d2; sep; h1; h2; 58; i1; i2; 58; s1; s2]
  = [y1; y2; y3; y4; 45; m1; m2; 45; d1; d2; 84; h1; h2; 58; i1; i2; 58; s1; s2].
Proof. done. Qed.
(** The text that [Date] gives back is one of a civil date and time. *)
Lemma iso_base_civil parsed y1 y2 y3 y4 m1 m2 d1 d2 h1 h2 i1 i2 s1 s2 :
  Forall (fun c => is_digit c = true) [y1; y2; y3; y4; m1; m2; d1; d2; h1; h2; i1; i2; s1; s2] -> 0 <= parsed.2 < 86400 ->
  starts_with (toISOString parsed) [y1; y2; y3; y4; 45; m1; m2; 45; d1; d2; 84; h1; h2; 58; i1; i2; 58; s1; s2] = true ->
  let y := nat_value [y1; y2; y3; y4] in
  1 <= two m1 m2 <= 12 /\ 1 <= two d1 d2 <= days_in_month y (two m1 m2 - 1) /\ two h1 h2 < 24 /\ two i1 i2 < 60 /\ two s1 s2 < 60.
Proof.
  intros Hd Hsec E y. apply starts_with_spec in E as [rest E]. unfold toISOString in E. pose proof (date_of_day_valid parsed.1) as Hvalid.
  revert E Hvalid. generalize (date_of_day parsed.1) as date. intros date E [Hm Hdate].
  pose proof (days_in_month_two (getFullYear date) (getMonth date)) as Hlt.
  assert (is_digit y1 = true) as Hy1 by (by inversion Hd). cbn [app] in E.
  apply iso_year_digits in E as [E Ey]; [|done]. cbn [app] in E. injection E as E. apply pad_digits in E as [E Em]; [|lia].
  injection E as E. apply pad_digits in E as [E Ed]; [|lia]. injection E as E. apply pad_digits in E as [E Eh]; [|Z.div_mod_to_equations; lia].
  injection E as E. apply pad_digits in E as [E Ei]; [|pose proof (Z.mod_pos_bound (parsed.2 / 60) 60); lia]. injection E as E.
  apply pad_digits in E as [_ Es]; [|pose proof (Z.mod_pos_bound parsed.2 60); lia].
  unfold y. rewrite <- Ey, Em, Ed, Eh, Ei, Es. replace (getMonth date + 1 - 1) with (getMonth date) by lia.
  repeat split; try lia; try (Z.div_mod_to_equations; lia).
Qed.

Lemma value_nonneg l : Forall (fun c => is_digit c = true) l -> 0 <= nat_value l.
Proof.
  unfold nat_value. intros Hl. assert (forall acc, 0 <= acc -> 0 <= foldl (fun acc c => acc * 10 + (c - 48)) acc l) as Hacc; [|by apply Hacc].
  induction Hl as [|c l Hc Hl IH]; intros acc Hacc; [done|]. cbn [foldl]. apply IH. apply digit_bounds in Hc. lia.
Qed.
Lemma parse_utc_seconds y m d h mi s p : 0 <= h -> 0 <= mi -> 0 <= s -> parse_utc y m d h mi s = Some p -> 0 <= p.2 < 86400.
Proof.
  intros ? ? ?. unfold parse_utc. destruct (_ && _) eqn:E; [|done]. intros [= <-]. rewrite !andb_true_iff in E.
  destruct E as [[[[[[[[_ _] _] _] Eh%Z.leb_le] Ei%Z.leb_le] Es%Z.leb_le] _] _]. destruct (h =? 24) eqn:E24; cbn [snd]; [lia|]. apply Z.eqb_neq in E24. lia.
Qed.
Lemma offset_ok value o : normalizeUTCOffset value = Some o ->
  js_eqb o (u "Z") || (test false UTC_OFFSET o && negb ((14 <? nat_value (slice o 1 3)) || (59 <? nat_value (slice o 4 6))
    || ((nat_value (slice o 1 3) =? 14) && negb (nat_value (slice o 4 6) =? 0)))) = true.
Proof.
  unfold normalizeUTCOffset. destruct value as [| |s| | | |]; try done. destruct (js_eqb (cleanExifString s) (u "Z")) eqn:E; [intros [= <-]; by rewrite E|].
  destruct (test false UTC_OFFSET (cleanExifString s)) eqn:Et; [|done]. cbv zeta. destruct (_ && _) eqn:Eb; [|done]. intros [= <-]. rewrite E, Et. cbn [orb andb].
  rewrite !andb_true_iff, orb_true_iff, !Z.leb_le, negb_true_iff, Z.eqb_eq in Eb. destruct Eb as [[E1 E2] E3].
  rewrite (proj2 (Z.ltb_ge 14 _)), (proj2 (Z.ltb_ge 59 _)) by done. cbn [orb negb]. destruct E3 as [-> | ->]; [done|]. by rewrite andb_false_r.
Qed.
Lemma capture_time_ok dateValue sub offset t : normalizeCaptureTime dateValue sub offset = Some t -> validateMediaCaptureTime t = true.
Proof.
  unfold normalizeCaptureTime. destruct dateValue as [| |s| | | |]; try done. destruct (test false EXIF_DATE_TIME (cleanExifString s)) eqn:Et; [|done].
  apply date_time_shape in Et as (y1 & y2 & y3 & y4 & m1 & m2 & d1 & d2 & sep & h1 & h2 & i1 & i2 & s1 & s2 & -> & Hd). cbv zeta. rewrite base_of_shape.
  set (base := [y1; y2; y3; y4; 45; m1; m2; 45; d1; d2; 84; h1; h2; 58; i1; i2; 58; s1; s2]).
  cbn [slice take drop Nat.sub]. fold (two m1 m2) (two d1 d2) (two h1 h2) (two i1 i2) (two s1 s2). set (y := nat_value [y1; y2; y3; y4]).
  destruct (y =? 0) eqn:Ey; [done|]. destruct (parse_utc _ _ _ _ _ _) as [p|] eqn:Ep; [|done]. cbn [mbind option_bind].
  destruct (starts_with _ _) eqn:Es; [|done]. intros [= <-]. unfold validateMediaCaptureTime. cbn [localDateTime utcOffset].
  assert (forall a b, a ∈ [h1; i1; s1] -> b ∈ [h2; i2; s2] -> 0 <= two a b) as Htwo.
  { intros a b Ha Hb. apply value_nonneg. rewrite Forall_forall in Hd. repeat constructor; apply Hd; set_solver. }
  assert (0 <= p.2 < 86400) as Hsec by (apply parse_utc_seconds in Ep; [done|apply Htwo; set_solver..]).
  pose proof (iso_base_civil p _ _ _ _ _ _ _ _ _ _ _ _ _ _ Hd Hsec Es) as (Hm & Hday & Hh & Hi & Hs). fold y in Hday.
  apply andb_true_iff. split; [apply andb_true_iff; split|].
  - apply (local_date_time_form base (subseconds_of sub)).
    + unfold base. rewrite Forall_forall in Hd. repeat (apply Forall2_cons; split); try done; apply Hd; set_solver.
    + intros x. unfold subseconds_of. destruct (test false SUBSECONDS _) eqn:E; [|done]. intros [= <-]. by apply subseconds_shape.
  - assert (forall tail, time_parse (base ++ tail) = Some y) as Htime.
    { intros tail. unfold time_parse, base. cbn [slice take drop Nat.sub app]. rewrite take_0. fold (two m1 m2) (two d1 d2) (two h1 h2) (two i1 i2) (two s1 s2) y.
      rewrite !(proj2 (Z.leb_le _ _)), !(proj2 (Z.ltb_lt _ _)) by lia. done. }
    assert (forall s, (exists tail, s = base ++ tail) -> match time_parse s with Some y => negb (y =? 0) | None => false end = true) as Hyear
      by (intros s' [tail ->]; by rewrite Htime, Ey).
    apply Hyear. destruct (subseconds_of sub) as [x|]; [by exists ([46] ++ x)|by exists []].
  - destruct (normalizeUTCOffset offset) as [o|] eqn:Eo; [|done]. by apply offset_ok in Eo.
Qed.

(** ** Lemmas: texts, numbers and places *)

Lemma go_space_cases c : go_space c = true -> is_space c = true \/ is_control c = true.
Proof. unfold go_space, is_space, is_control. intros Hc. rewrite !orb_true_iff, !andb_true_iff, !Z.leb_le, !Z.eqb_eq in *. lia. Qed.
Lemma trim_split s : exists a b, s = a ++ trim s ++ b /\ Forall (fun c => is_space c = true) (a ++ b).
Proof.
  destruct (trim_start_split s) as (a & E & Ha & _). destruct (trim_start_split (rev (trim_start s))) as (b & Eb & Hb & _).
  exists a, (rev b). split; [|apply Forall_app; split; [done|by apply Forall_rev]]. unfold trim, trim_end. rewrite E at 1. f_equal.
  transitivity (rev (rev (trim_start s))); [by rewrite rev_involutive|]. rewrite Eb at 1. apply rev_app_distr.
Qed.
Lemma trim_not_blank s : trim s <> [] -> exists c, c ∈ trim s /\ is_space c = false.
Proof.
  intros Hne. destruct (existsb (fun c => negb (is_space c)) (trim s)) eqn:E.
  - apply existsb_exists in E as (c & Hc%list_elem_of_In & Hs%negb_true_iff). eauto.
  - exfalso. apply Hne. apply trim_nil. destruct (trim_split s) as (a & b & Es & Hab). rewrite Es. apply Forall_app in Hab as [Ha Hb].
    repeat (apply Forall_app; split); try done. apply Forall_forall. intros c Hc. destruct (is_space c) eqn:Hs; [done|]. exfalso.
    enough (existsb (fun c => negb (is_space c)) (trim s) = true) by congruence. apply existsb_exists. exists c. split; [by apply list_elem_of_In|by rewrite Hs].
Qed.
Lemma string_ok_nil : string_ok [] = true.
Proof. unfold string_ok. by rewrite js_eqb_refl. Qed.
Lemma metadata_string_ok value : string_ok (default [] (normalizeMetadataString value)) = true.
Proof.
  unfold normalizeMetadataString. destruct value as [| |s| | | |]; try apply string_ok_nil. cbv zeta. set (f := js_filter (fun c => negb (is_control c)) s).
  destruct (js_eqb (trim f) [] || _) eqn:E1; [apply string_ok_nil|]. destruct (MAX_METADATA_STRING_BYTES <? length (utf8_encode (trim f)))%nat eqn:E2; [apply string_ok_nil|]. cbn [default from_option]. unfold Datatypes.id.
  apply orb_false_iff in E1 as [E1%js_eqb_false _]. apply Nat.ltb_ge in E2. unfold string_ok. rewrite (proj2 (js_eqb_false _ _) E1), (proj2 (Nat.leb_le _ _) E2).
  cbn [orb andb]. assert (forall c, c ∈ trim f -> is_control c = false) as Hcontrol.
  { intros c Hc%elem_of_trim. unfold f in Hc. by apply js_filter_In in Hc as [_ Hc%negb_true_iff]. }
  apply andb_true_iff. split; apply negb_true_iff, not_true_iff_false.
  - intros Hall. rewrite forallb_forall in Hall. destruct (trim_not_blank f E1) as (c & Hc & Hs).
    destruct (go_space_cases c (Hall c (proj1 (list_elem_of_In _ _) Hc))) as [|E]; [congruence|]. by rewrite Hcontrol in E.
  - intros (c & Hc%list_elem_of_In & E)%existsb_exists. by rewrite Hcontrol in E.
Qed.
Lemma metadata_string_written value s : normalizeMetadataString value = Some s -> js_eqb s [] = false.
Proof.
  unfold normalizeMetadataString. destruct value; try done. cbv zeta. destruct (js_eqb _ [] || _) eqn:E1; [done|]. destruct (_ <? length (utf8_encode _))%nat; [done|]. intros [= <-].
  by apply orb_false_iff in E1 as [E1 _].
Qed.
Lemma integer_bounds value minimum maximum n : normalizeInteger value minimum maximum = Some n -> minimum <= n <= maximum.
Proof.
  unfold normalizeInteger. destruct (normalizeFiniteNumber value) as [q|]; [|done]. cbn. destruct (integer_of q) as [k|]; [|done]. cbn.
  destruct (_ && _) eqn:E; [|done]. intros [= <-]. bool_prop. lia.
Qed.
Lemma positive_ok value : all_some positive (normalizePositiveNumber value) = true.
Proof. unfold normalizePositiveNumber. destruct (normalizeFiniteNumber value) as [q|]; [|done]. cbn. destruct (Qle_bool q 0) eqn:E; [done|]. cbn. unfold positive. by rewrite E. Qed.
Lemma size_positive w h d : normalizeDimensions w h = Some d -> 1 <= dim_width d /\ 1 <= dim_height d.
Proof.
  assert (forall n k, size_of n = Some k -> 1 <= k) as Hsize.
  { intros [q|] k; [|done]. cbn. destruct (integer_of q) as [z|]; [|done]. cbn. destruct (0 <? z) eqn:E; [|done]. intros [= <-]. bool_prop. lia. }
  unfold normalizeDimensions. destruct (size_of w) as [a|] eqn:Ea; [|done]. cbn. destruct (size_of h) as [b|] eqn:Eb; [|done]. cbn. intros [= <-]. cbn. eauto.
Qed.
Lemma exif_size_positive tags o d : readExifDimensions tags o = Some d -> 1 <= dim_width d /\ 1 <= dim_height d.
Proof.
  unfold readExifDimensions. destruct (normalizeInteger (or_else (tag tags "ExifImageWidth") _) 1 _) as [a|] eqn:Ea; [|done]. cbn.
  destruct (normalizeInteger (or_else (tag tags "ExifImageHeight") _) 1 _) as [b|] eqn:Eb; [|done]. cbn. apply integer_bounds in Ea, Eb.
  intros [= <-]. destruct (match o with Some _ => _ | None => _ end); cbn; lia.
Qed.
Lemma within_ok maximum n q : within maximum n = Some q -> degree_ok maximum q = true.
Proof. destruct n as [p|]; [|done]. cbn. destruct (_ && _) eqn:E; [|done]. by intros [= <-]. Qed.
Lemma coordinate_ok computed dms ref maximum pos neg q : normalizeCoordinate computed dms ref maximum pos neg = Some q -> degree_ok maximum q = true.
Proof.
  unfold normalizeCoordinate. destruct (normalizeFiniteNumber computed ≫= _) as [p|] eqn:E.
  - intros [= <-]. destruct (normalizeFiniteNumber computed) as [c|]; [|done]. by apply (within_ok maximum (Fin c)).
  - destruct dms as [| | | |l| |]; try done. destruct (_ || _); [done|]. unfold from_dms.
    repeat match goal with |- (?o ≫= _) = Some _ -> _ => destruct o; [cbn [mbind option_bind]|done] end.
    destruct (_ || _); [done|]. apply within_ok.
Qed.
Lemma location_ok tags l : readLocation tags = Some l -> validateMediaLocation l = true.
Proof.
  unfold readLocation. destruct (normalizeCoordinate _ _ _ 90 _ _) as [lat|] eqn:E1; [|done]. cbn [mbind option_bind].
  destruct (normalizeCoordinate _ _ _ 180 _ _) as [lon|] eqn:E2; [|done]. cbn [mbind option_bind]. intros [= <-]. apply coordinate_ok in E1, E2.
  unfold validateMediaLocation. cbn [latitude longitude]. by rewrite E1, E2.
Qed.
Lemma capture_ok tags : all_some validateMediaCaptureTime (readCaptureTime tags) = true.
Proof.
  unfold readCaptureTime. destruct (normalizeCaptureTime (tag tags "DateTimeOriginal") _ _) as [t|] eqn:E1; [by apply capture_time_ok in E1|].
  destruct (normalizeCaptureTime (tag tags "CreateDate") _ _) as [t|] eqn:E2; [by apply capture_time_ok in E2|done].
Qed.
Lemma type_prefix type prefix : is_ascii type = true -> is_ascii prefix = true -> lower_ascii <$> prefix = prefix -> HostUnicodeLaws ->
  starts_with type prefix = true -> starts_with (to_lower type) prefix = true.
Proof. intros Ht _ Ep Hlaws [rest ->]%starts_with_spec. rewrite to_lower_ascii by done. apply starts_with_spec. exists (lower_ascii <$> rest). by rewrite fmap_app, Ep. Qed.
Lemma photo_ok tags : has_photo_details (photo_fields tags) = true -> photo_on_wire (photo_fields tags) && validatePhotoMetadata (photo_fields tags) = true.
Proof.
  intros Hd. apply andb_true_iff. split.
  - unfold photo_on_wire, has_photo_details in *. rewrite !orb_true_iff in *. cbn [existsb].
    assert (forall v, is_some (normalizeMetadataString v) = true -> negb (js_eqb (default [] (normalizeMetadataString v)) []) = true) as Hs.
    { intros v. destruct (normalizeMetadataString v) as [s|] eqn:E; [|done]. intros _. cbn. by rewrite (metadata_string_written _ _ E). }
    cbn [photo_fields cameraMake cameraModel lensModel] in *. rewrite !orb_true_iff. pose proof (Hs (tag tags "Make")). pose proof (Hs (tag tags "Model")).
    pose proof (Hs (tag tags "LensModel")). tauto.
  - unfold validatePhotoMetadata, photo_fields. cbn [sourceExifOrientation cameraMake cameraModel lensModel fNumber exposureTimeSeconds focalLengthMm iso captureTime location].
    cbn [forallb]. rewrite !metadata_string_ok, !positive_ok, capture_ok. cbn [andb]. rewrite !andb_true_r. repeat (apply andb_true_iff; split).
    + destruct (normalizeInteger (tag tags "Orientation") 1 8) as [o|] eqn:E; [|done]. apply integer_bounds in E. cbn. apply andb_true_iff. rewrite !Z.leb_le. lia.
    + destruct (normalizeInteger (tag tags "ISO") 1 _) as [n|] eqn:E; [|done]. apply integer_bounds in E. cbn. apply Z.ltb_lt. lia.
    + destruct (readLocation tags) as [l|] eqn:E; [|done]. by apply location_ok in E.
Qed.
(** The numbers of a message that its integers carry. *)
Definition whole_numbers (m : MediaMetadata) : list Z :=
  omap (fun o => o) [meta_width m; meta_height m; match details m with Some (Photo p) => iso p | _ => None end].
Lemma encodable_numbers m :
  (forall n, n ∈ whole_numbers m -> 1 <= n) -> (forall p o, details m = Some (Photo p) -> sourceExifOrientation p = Some o -> 1 <= o <= 8) ->
  encodable m = forallb (fun n => n <=? 2147483647) (whole_numbers m).
Proof.
  intros Hn Ho. assert (forall n, n ∈ whole_numbers m -> int32 n = (n <=? 2147483647)) as Hint.
  { intros n H1%Hn. unfold int32. by rewrite (proj2 (Z.leb_le _ n)) by lia. }
  unfold encodable, whole_numbers in *. destruct m as [w h d]. cbn [meta_width meta_height details omap list_omap] in *.
  assert (match d with Some (Photo p) => all_some int32 (sourceExifOrientation p) | _ => true end = true) as Horient.
  { destruct d as [[p|]|]; try done. destruct (sourceExifOrientation p) as [o|] eqn:E; [|done]. specialize (Ho p o eq_refl E). cbn. unfold int32. apply andb_true_iff. rewrite !Z.leb_le. lia. }
  destruct w as [w|], h as [h|], d as [[p|]|]; try destruct (iso p) as [n|]; cbn [all_some forallb] in *; rewrite ?Horient, ?Hint by set_solver;
    cbn [andb]; rewrite ?andb_true_r, ?andb_assoc; done.
Qed.

(** ** The contract of the server *)

Context `{!HostUnicodeLaws}.

Lemma numbers_of dims d n : (forall x, dims = Some x -> 1 <= dim_width x /\ 1 <= dim_height x) ->
  (forall p k, d = Some (Photo p) -> iso p = Some k -> 1 <= k) ->
  n ∈ whole_numbers {| meta_width := dim_width <$> dims; meta_height := dim_height <$> dims; details := d |} -> 1 <= n.
Proof.
  intros Hx Hp. unfold whole_numbers. cbn [meta_width meta_height details]. rewrite list_elem_of_omap. intros (o & Ho & ->).
  rewrite !elem_of_cons, elem_of_nil in Ho. destruct Ho as [E|[E|[E|[]]]].
  - destruct dims as [x|]; [|done]. injection E as ->. by apply Hx.
  - destruct dims as [x|]; [|done]. injection E as ->. by apply Hx.
  - destruct d as [[p|]|]; try done. by apply (Hp p).
Qed.
Lemma dimensions_ok dims : (forall x, dims = Some x -> 1 <= dim_width x /\ 1 <= dim_height x) ->
  Bool.eqb (is_some (dim_width <$> dims)) (is_some (dim_height <$> dims)) && all_some (fun n => 0 <? n) (dim_width <$> dims) && all_some (fun n => 0 <? n) (dim_height <$> dims) = true.
Proof. intros Hx. destruct dims as [x|]; [|done]. destruct (Hx x eq_refl). cbn. by rewrite !(proj2 (Z.ltb_lt _ _)) by lia. Qed.

(** C11. What the client reads of a photo or a video is what the server takes: whatever the
    EXIF values are (of any type, out of range, with control characters or impossible dates)
    and whatever the browser decodes, the metadata [extract] gives passes the server's
    validation, and the message can be written unless a size or an ISO is more than an
    [int32] holds. *)
Theorem extracted_metadata_accepted (file : media_file) (m : MediaMetadata)
  (Htype : is_ascii (media_type file) = true) (Hm : extract file = Some m) :
  validateClientMediaMetadata m (media_type file) = true
  /\ encodable m = forallb (fun n => n <=? 2147483647) (whole_numbers m).
Proof.
  unfold extract in Hm. destruct (isImage (media_type file)) eqn:Eimage.
  - unfold extractImageMetadata in Hm. cbv zeta in Hm. set (tags := default [] (exif file)) in *.
    set (dims := match readExifDimensions tags _ with Some d => Some d | None => _ end) in *.
    assert (forall x, dims = Some x -> 1 <= dim_width x /\ 1 <= dim_height x) as Hdims.
    { intros x. unfold dims. destruct (readExifDimensions _ _) as [d|] eqn:E; [intros [= <-]; by apply exif_size_positive in E|].
      unfold readImageDimensions. destruct (bitmap file) as [b|]; [|done]. apply size_positive. }
    destruct (negb (is_some dims) && negb (has_photo_details (photo_fields tags))) eqn:Ene; [done|]. injection Hm as <-. split.
    + unfold validateClientMediaMetadata. cbn [meta_width meta_height details]. unfold isImage in Eimage. apply andb_true_iff in Eimage as [Eimage _].
      rewrite (type_prefix _ (u "image/")) by done. cbn [orb andb]. rewrite dimensions_ok by done. cbn [andb].
      destruct (has_photo_details (photo_fields tags)) eqn:Ed; [by apply photo_ok|]. destruct dims; [done|]. done.
    + apply encodable_numbers.
      * intros n. apply numbers_of; [done|]. intros p k. destruct (has_photo_details _); [|done]. intros [= <-]. cbn. intros E. apply integer_bounds in E. lia.
      * cbn [details]. intros p o. destruct (has_photo_details _); [|done]. intros [= <-]. cbn. apply integer_bounds.
  - destruct (starts_with (media_type file) (u "video/")) eqn:Evideo; [|done]. unfold extractVideoMetadata in Hm.
    destruct (video file) as [[[w h] q]|]; [|done]. cbn [mbind option_bind fst snd] in Hm. cbv zeta in Hm.
    assert (forall x, normalizeDimensions w h = Some x -> 1 <= dim_width x /\ 1 <= dim_height x) as Hdims by apply size_positive.
    destruct (_ && _) eqn:Ene in Hm; [done|]. injection Hm as <-. split.
    + unfold validateClientMediaMetadata. cbn [meta_width meta_height details]. rewrite (type_prefix _ (u "video/")) by done.
      rewrite orb_true_r. cbn [andb]. rewrite dimensions_ok by done. cbn [andb]. destruct (duration_of q) as [d|] eqn:Eq.
      * cbn. destruct q as [q|]; [|done]. cbn in Eq. destruct (Qle_bool 0 q) eqn:E; [|done]. by injection Eq as <-.
      * cbn. destruct (normalizeDimensions w h); [done|]. done.
    + apply encodable_numbers.
      * intros n. apply numbers_of; [done|]. intros p k. by destruct (duration_of q).
      * cbn [details]. intros p o. by destruct (duration_of q).
Qed.
End Metadata.

(** ** Samples *)

#[local] Existing Instance ascii_host.
#[local] Existing Instance ascii_host_laws.
Definition exact (q : Q) : number := Fin q.
Definition sample_photo : media_file := {|
  media_type := u "image/jpeg";
  exif := Some [(u "Make", VString (u "ACME " ++ [0])); (u "Orientation", VNumber (Fin 6)); (u "ImageWidth", VNumber (Fin 4000)); (u "ImageHeight", VNumber (Fin 3000));
                (u "DateTimeOriginal", VString (u "2024:02:29 23:59:59" ++ [0])); (u "SubSecTimeOriginal", VString (u "25 ")); (u "OffsetTimeOriginal", VString (u "+14:30"));
                (u "GPSLatitude", VArray [VNumber (Fin 52); VNumber (Fin 30); VNumber (Fin 0)]); (u "GPSLatitudeRef", VString (u "s"));
                (u "GPSLongitude", VArray [VNumber (Fin 13); VNumber (Fin 15); VNumber (Fin 0)]); (u "GPSLongitudeRef", VString (u "E"))];
  bitmap := None; video := None |}.
(** Turned upright, with its time (an offset past 14:00 is left out) and its place. *)
Example sample_extracted :
  match extract exact false sample_photo with
  | Some {| meta_width := Some 3000; meta_height := Some 4000; details := Some (Photo p) |} =>
      captureTime p = Some {| localDateTime := u "2024-02-29T23:59:59.25"; utcOffset := None |} /\ cameraMake p = Some (u "ACME")
      /\ match location p with Some l => Qeq_bool (latitude l) (-105 # 2) && Qeq_bool (longitude l) (53 # 4) = true | None => False end
  | _ => False
  end.
Proof. vm_compute. repeat split. Qed.
(** A day that is not in the month is no time, whether [Date] refuses it or carries it over. *)
Example impossible_day :
  normalizeCaptureTime false (VString (u "2023:02:29 10:00:00")) VUndefined VUndefined = None
  /\ normalizeCaptureTime true (VString (u "2023:02:29 10:00:00")) VUndefined VUndefined = None
  /\ normalizeCaptureTime true (VString (u "2023:02:28 24:00:00")) VUndefined VUndefined = None.
Proof. by vm_compute. Qed.
(** An EXIF width of 32 bits is kept, though the message has no room for it. *)
Example wide_image_not_encodable :
  match extract exact false {| media_type := u "image/png"; exif := Some [(u "ImageWidth", VNumber (Fin 4294967295)); (u "ImageHeight", VNumber (Fin 1))];
                              bitmap := Some (Fin 640, Fin 480); video := None |} with
  | Some m => meta_width m = Some 4294967295 /\ encodable m = false
  | None => False
  end.
Proof. vm_compute. done. Qed.

Lemma extracted_metadata_accepted_witness :
  match extract exact false sample_photo with Some m => validateClientMediaMetadata m (u "image/jpeg") = true | None => False end.
Proof.
  destruct (extract exact false sample_photo) as [m|] eqn:E; [|by vm_compute in E].
  apply (extracted_metadata_accepted exact false sample_photo m); [by vm_compute|exact E].
Defined.
