(* ===== verification/MemoPoll.v ===== *)
(** * The place of a poll in a memo (web/src/utils/memo-poll.ts)

    A poll stands in the text where a line holds the marker [[[vote]]].  Finding the
    markers, isolating them, adding one and removing them.  The CommonMark parser is a
    parameter. *)

From S2P Require Import Prelude JSString HostUnicode JSRegExp.

Definition MEMO_POLL_MARKER : jstring := u "[[vote]]".

(** [fromMarkdown(content).children]: the type of a top-level block, and the types and
    offsets of its direct children ([None] without a position). *)
Record inline_node := { inline_type : string; inline_position : option (nat * nat) }.
Record block_node := { block_type : string; block_children : list inline_node }.
Class CommonMark := { fromMarkdown : jstring -> list block_node }.

Definition tab_or_blank : re := one_of [32; 9].
Definition MARKER_LINE : re :=
  (StartOf true +++ up_to 3 (char 32) +++ text MEMO_POLL_MARKER +++ star tab_or_blank +++ opt (char 13) +++ EndOf true)%re.

Section Poll.
Context {parser : CommonMark}.

Definition textRanges (content : jstring) : list (nat * nat) :=
  fromMarkdown content ≫= fun node =>
    if bool_decide (block_type node = "paragraph"%string)
    then omap (fun c => if bool_decide (inline_type c = "text"%string) then inline_position c else None) (block_children node)
    else [].

(** The range of a match whose marker lies in one of the text ranges. *)
Definition marker_range (content : jstring) (ranges : list (nat * nat)) (m : rmatch) : option (nat * nat) :=
  let start := m_from m in
  let markerStart := (start + default 0 (index_of (slice content start (m_to m)) MEMO_POLL_MARKER 0))%nat in
  if existsb (fun r => (r.1 <=? markerStart)%nat && (markerStart + length MEMO_POLL_MARKER <=? r.2)%nat) ranges
  then Some (start, m_to m) else None.

Definition findMemoPollMarkers (content : jstring) : list (nat * nat) :=
  if negb (includes content MEMO_POLL_MARKER) then []
  else omap (marker_range content (textRanges content)) (match_all false MARKER_LINE content).

Record prepared := { p_output : jstring; p_cursor : nat; markerOffsets : list nat }.
Definition prepare_marker (content : jstring) (st : prepared) (range : nat * nat) : prepared :=
  let before := p_output st ++ slice content (p_cursor st) range.1 ++ [10; 10] in
  {| p_output := before ++ MEMO_POLL_MARKER ++ [10; 10]; p_cursor := range.2;
     markerOffsets := markerOffsets st ++ [length before] |}.

Definition prepareMemoPollContent (content : jstring) : jstring * list nat :=
  match findMemoPollMarkers content with
  | [] => (content, [])
  | ranges =>
      let st := foldl (prepare_marker content) {| p_output := []; p_cursor := 0; markerOffsets := [] |} ranges in
      (p_output st ++ slice_from content (p_cursor st), markerOffsets st)
  end.

Definition ensureMemoPollMarker (content : jstring) : jstring :=
  match findMemoPollMarkers content with
  | [] => match trim content with
          | [] => MEMO_POLL_MARKER
          | _ => trim_end content ++ [10; 10] ++ MEMO_POLL_MARKER
          end
  | _ => content
  end.

Definition removeMemoPollMarkers (content : jstring) : jstring :=
  foldl (fun output range => slice output 0 range.1 ++ slice_from output range.2) content (rev (findMemoPollMarkers content)).

(** ** Lemmas *)

Lemma matches_text content p st st' :
  matches false content (text p) st st' -> (st'.1 = st.1 + length p)%nat /\ starts_with_at content p st.1 = true.
Proof.
  assert (forall c s i, s !! i = Some c -> forall q, starts_with_at s (c :: q) i = starts_with_at s q (i + 1)) as Hcons.
  { intros c s i Hi q. unfold starts_with_at. rewrite (drop_S s c i Hi). cbn [prefixb]. rewrite Z.eqb_refl. cbn [andb].
    by rewrite Nat.add_1_r. }
  revert st. induction p as [|c p IH]; intros [i caps]; cbn [text].
  - intros ->%matches_eps. cbn [fst length]. split; [lia|done].
  - destruct p as [|d p]; [|rewrite matches_seq; intros (st1 & H1 & H)].
    + intros (x & Hx & Ex%Z.eqb_eq & ->)%matches_chars. subst x. cbn [fst length]. split; [lia|].
      by rewrite (Hcons c).
    + apply matches_chars in H1 as (x & Hx & Ex%Z.eqb_eq & ->). subst x. apply IH in H as [H1 H2]. cbn [fst] in *.
      split; [cbn [length] in *; lia|]. by rewrite (Hcons c).
Qed.

Lemma includes_middle x p y : includes (x ++ p ++ y) p = true.
Proof.
  unfold includes. destruct (index_of _ _ _) as [j|] eqn:E; [done|]. apply (index_of_None _ _ _ (length x)) in E; [|lia].
  unfold starts_with_at in E. rewrite drop_app_length in E. rewrite (proj2 (prefixb_spec _ _)) in E; [done|]. by exists y.
Qed.

(** A match of the pattern holds the marker, so it is not empty. *)
Lemma marker_line_spec content i st :
  matches false content MARKER_LINE (i, []) st ->
  exists k, (i <= k)%nat /\ (k + 8 <= st.1)%nat /\ starts_with_at content MEMO_POLL_MARKER k = true.
Proof.
  unfold MARKER_LINE. rewrite matches_seq. intros (st0 & H0 & H). assert (st0 = (i, [])) as -> by (by inversion H0).
  rewrite matches_seq in H. destruct H as ([k caps] & (Hk & _ & _)%matches_up_to_chars & H).
  rewrite matches_seq in H. destruct H as (st1 & Htext & H). exists k. cbn [fst] in *.
  apply matches_text in Htext as [Hto Hs]. cbn [fst] in *. split; [destruct Hk; lia|]. split; [|exact Hs].
  pose proof (matches_advances _ _ _ _ _ H) as [Hadv _]. rewrite Hto in Hadv. exact Hadv.
Qed.

Lemma spans_omap {A B} (f : A -> option B) (ea : A -> nat * nat) (eb : B -> nat * nat) lo l hi :
  (forall x y, f x = Some y -> eb y = ea x) -> spans ea lo l hi -> spans eb lo (omap f l) hi.
Proof.
  intros Hf. revert lo. induction l as [|x l IH]; intros lo H; [done|]. destruct H as [Hx H]. cbn [omap list_omap].
  destruct (f x) as [y|] eqn:E; [cbn [spans]; rewrite (Hf x y E); split; [done|by apply IH]|].
  apply IH in H. destruct (omap f l) as [|z l']; cbn [spans] in *; [lia|]. destruct H. split; [lia|done].
Qed.

Lemma markers_spans content : spans (fun r => r) 0 (findMemoPollMarkers content) (length content).
Proof.
  unfold findMemoPollMarkers. destruct (negb _); [cbn; lia|]. eapply spans_omap; [|apply match_all_spans].
  - intros m r. unfold marker_range. by destruct (existsb _ _); intros [= <-].
  - intros i st (k & ? & ? & _)%marker_line_spec. lia.
Qed.

(** Removing the poll takes the marker lines and nothing else: the text left is the
    text outside the ranges found, which follow each other, and each of which holds
    the marker. *)
Theorem removed_markers_only (content : jstring) :
  let ranges := findMemoPollMarkers content in
  removeMemoPollMarkers content = without content 0 ranges
  /\ spans (fun r => r) 0 ranges (length content)
  /\ Forall (fun r => includes (slice content r.1 r.2) MEMO_POLL_MARKER = true) ranges.
Proof.
  intros ranges. pose proof (markers_spans content) as Hspans. fold ranges in Hspans. split; [|split; [done|]].
  - unfold removeMemoPollMarkers. fold ranges.
    change (fun output range => slice output 0 range.1 ++ slice_from output range.2)
      with (fun output range => (fun r t => slice t 0 r.1 ++ slice_from t r.2) range output).
    rewrite foldl_rev, (cut_without content ranges 0) by done. done.
  - unfold ranges, findMemoPollMarkers. destruct (negb _); [constructor|]. apply Forall_forall.
    intros r (m & Hm & Hr)%list_elem_of_omap. apply match_all_In in Hm as [Hb Hm].
    assert (r = (m_from m, m_to m)) as -> by (unfold marker_range in Hr; by destruct (existsb _ _); simplify_eq).
    apply marker_line_spec in Hm as (k & H1 & H2 & H3). cbn [fst snd] in *.
    apply starts_with_at_slice in H3 as [H3 _].
    rewrite (slice_app_split content _ k), (slice_app_split content k (k + 8)) by lia.
    change (length MEMO_POLL_MARKER) with 8%nat in H3. rewrite H3. apply includes_middle.
Qed.
(** ** Isolating the markers *)

(** A marker with an empty line before and after it, around the marker's offset. *)
Definition isolated : jstring := [10; 10] ++ MEMO_POLL_MARKER ++ [10; 10].
Definition block_at (offset : nat) : nat * nat := ((offset - 2)%nat, (offset + 10)%nat).

Lemma prepared_blocks content ranges st :
  (p_cursor st <= length content)%nat -> spans (fun r => r) (p_cursor st) ranges (length content) ->
  let final := foldl (prepare_marker content) st ranges in
  let output := p_output final ++ slice_from content (p_cursor final) in
  exists offsets rest,
    markerOffsets final = markerOffsets st ++ offsets /\ output = p_output st ++ rest
    /\ length offsets = length ranges
    /\ spans block_at (length (p_output st)) offsets (length output)
    /\ Forall (fun o => slice output (o - 2) (o + 10) = isolated) offsets
    /\ without output (length (p_output st)) (block_at <$> offsets) = without content (p_cursor st) ranges.
Proof.
  revert st. induction ranges as [|[a b] ranges IH]; intros st Hc Hspans; cbn [foldl].
  - exists [], (slice_from content (p_cursor st)). rewrite app_nil_r. repeat split; try done.
    + cbn. rewrite length_app. lia.
    + cbn [without fmap list_fmap]. unfold slice_from. by rewrite drop_app_length.
  - destruct Hspans as [Hab Hspans]. cbn [fst snd] in Hab, Hspans. pose proof (spans_bounds _ _ _ _ Hspans) as Hb.
    set (st' := prepare_marker content st (a, b)).
    destruct (IH st') as (offsets & rest & H1 & H2 & H3 & H4 & H5 & H6); [done|done|].
    set (final := foldl (prepare_marker content) st' ranges) in *. cbn zeta in *.
    set (output := p_output final ++ slice_from content (p_cursor final)) in *.
    set (piece := slice content (p_cursor st) a).
    set (o := (length (p_output st) + length piece + 2)%nat).
    assert (p_output st' = p_output st ++ piece ++ isolated) as Hout.
    { unfold st', prepare_marker, isolated. cbn [p_output fst snd]. fold piece. by rewrite <- !app_assoc. }
    assert (length (p_output st') = (o + 10)%nat) as Hlen by (rewrite Hout, !length_app; unfold o; cbn; lia).
    assert (markerOffsets st' = markerOffsets st ++ [o]) as Hoff.
    { unfold st', prepare_marker. cbn [markerOffsets fst snd]. fold piece. rewrite !length_app. cbn [length]. f_equal. f_equal. unfold o. lia. }
    assert (output = (p_output st ++ piece) ++ isolated ++ rest) as Heq by (rewrite H2, Hout, <- !app_assoc; done).
    exists (o :: offsets), (piece ++ isolated ++ rest).
    split; [by rewrite H1, Hoff, <- app_assoc|]. split; [by rewrite Heq, <- app_assoc|]. split; [cbn; lia|].
    split; [cbn [spans block_at fst snd]; rewrite Hlen in H4; split; [unfold o; lia|exact H4]|].
    assert ((o - 2)%nat = length (p_output st ++ piece)) as Ho by (rewrite length_app; unfold o; lia).
    split; [constructor; [|done]|].
    + rewrite Heq. unfold slice. rewrite Ho, drop_app_length. apply take_app_length'. change (length isolated) with 12%nat. rewrite <- Ho. unfold o. lia.
    + cbn [fmap list_fmap without block_at]. rewrite Hlen in H6. rewrite H6. fold piece. f_equal. rewrite Heq, Ho, <- app_assoc, length_app.
      unfold slice. rewrite drop_app_length. apply take_app_length'. lia.
Qed.

(** Isolating the polls keeps the document.  In the text prepared for rendering every
    marker found stands at its offset with an empty line before and after it, there is
    one offset for each marker line, in order, and the text around those blocks is the
    text around the marker lines. *)
Theorem prepared_markers_isolated (content : jstring) :
  let (output, offsets) := prepareMemoPollContent content in
  length offsets = length (findMemoPollMarkers content)
  /\ spans block_at 0 offsets (length output)
  /\ Forall (fun o => slice output (o - 2) (o + 10) = [10; 10] ++ MEMO_POLL_MARKER ++ [10; 10]) offsets
  /\ without output 0 (block_at <$> offsets) = without content 0 (findMemoPollMarkers content).
Proof.
  pose proof (markers_spans content) as Hspans. unfold prepareMemoPollContent.
  destruct (findMemoPollMarkers content) as [|r ranges]; [repeat split; [cbn; lia|constructor]|].
  pose proof (prepared_blocks content (r :: ranges) {| p_output := []; p_cursor := 0; markerOffsets := [] |}) as H.
  cbn [p_cursor p_output markerOffsets app length] in H. destruct (H ltac:(lia) Hspans) as (offsets & rest & -> & _ & H1 & H2 & H3 & H4).
  done.
Qed.
End Poll.

(** ** A concrete parser: one paragraph of plain text *)

#[local] Instance one_paragraph : CommonMark := {|
  fromMarkdown s := [ {| block_type := "paragraph";
                         block_children := [ {| inline_type := "text"; inline_position := Some (0%nat, length s) |} ] |} ] |}.
Definition ballot : jstring := u "Vote:" ++ [10] ++ u " [[vote]] " ++ [10] ++ u "not [[vote]] here".

Example poll_samples :
  findMemoPollMarkers ballot = [(6, 16)%nat]
  /\ prepareMemoPollContent ballot
     = (u "Vote:" ++ [10; 10; 10] ++ u "[[vote]]" ++ [10; 10; 10] ++ u "not [[vote]] here", [8%nat])
  /\ ensureMemoPollMarker ballot = ballot
  /\ ensureMemoPollMarker (u "text  ") = u "text" ++ [10; 10] ++ u "[[vote]]" /\ ensureMemoPollMarker (u "  ") = u "[[vote]]".
Proof. vm_compute. repeat split. Qed.
