(* ===== verification/MediaItem.v ===== *)
(** * Visual items of a memo's attachments

    web/src/utils/media-item.ts, with the URLs of web/src/utils/attachment.ts it shows:
    the attachments of a memo become the items of a gallery, in which the two files of a
    live photo are one item; the logical number of attachments; and the cover of a blog
    post, chosen by where its text shows an attachment.  The platform's [URL] is a
    parameter, and its constructor may throw: [None] is that exception. *)

From S2P Require Import Prelude JSString JSRegExp MarkdownSource ManagedAttachment.

(** [new URL(raw, base)] with the search parameters of its result. *)
Class UrlParams := {
  url_object : Type;
  parse_url : jstring -> jstring -> option url_object;
  has_param : url_object -> jstring -> bool;
  set_param : url_object -> jstring -> jstring -> url_object;
  url_string : url_object -> jstring;
}.

(** ** Items *)

Inductive PreviewMediaItem :=
  | ImagePreview (id filename sourceUrl posterUrl : jstring) (attachments : list Attachment)
  | VideoPreview (id filename sourceUrl posterUrl : jstring) (attachments : list Attachment)
  | MotionPreview (id filename posterUrl motionUrl : jstring) (timestampUs : option Z) (attachments : list Attachment).

Inductive visual_kind := image_item | video_item | motion_item.
#[export] Instance visual_kind_eq_dec : EqDecision visual_kind.
Proof. solve_decision. Defined.

Record AttachmentVisualItem := {
  id : jstring; kind : visual_kind; item_filename : jstring; posterUrl : jstring; item_sourceUrl : jstring;
  attachmentNames : list jstring; attachments : list Attachment; previewItem : PreviewMediaItem; item_mimeType : jstring;
}.

Section Build.
Context {page : WebPage} {params : UrlParams}.

Definition withShareTokenParam (externalLink key : jstring) : option (option jstring) :=
  match externalLink with
  | [] => Some None
  | link =>
      url ← parse_url link location_origin;
      if negb (has_param url (u "share_token")) then Some None
      else Some (Some (url_string (set_param url key (u "true"))))
  end.

Definition managed_url (a : Attachment) (query : jstring) : jstring :=
  location_origin ++ u "/file/" ++ att_name a ++ u "/" ++ filename a ++ query.

(** [shareUrl] where it is truthy, else the managed URL. *)
Definition share_or (shareUrl : option jstring) (fallback : jstring) : jstring :=
  match shareUrl with None | Some [] => fallback | Some s => s end.
Definition getAttachmentThumbnailUrl (a : Attachment) : option jstring :=
  shareUrl ← withShareTokenParam (externalLink a) (u "thumbnail"); Some (share_or shareUrl (managed_url a (u "?thumbnail=true"))).
Definition getAttachmentMotionClipUrl (a : Attachment) : option jstring :=
  shareUrl ← withShareTokenParam (externalLink a) (u "motion"); Some (share_or shareUrl (managed_url a (u "?motion=true"))).

Definition buildSingleAttachmentItem (a : Attachment) : option AttachmentVisualItem :=
  let attachmentType := getAttachmentType a in
  let source := getAttachmentUrl a in
  poster ← (if js_eqb attachmentType (u "image/*") then getAttachmentThumbnailUrl a else Some source);
  let is_video := js_eqb attachmentType (u "video/*") in
  Some {| id := att_name a; kind := if is_video then video_item else image_item; item_filename := filename a;
          posterUrl := poster; item_sourceUrl := source; attachmentNames := [att_name a]; attachments := [a];
          previewItem := (if is_video then VideoPreview else ImagePreview) (att_name a) (filename a) source poster [a];
          item_mimeType := mime_type a |}.

Definition motion_id (still : Attachment) : jstring := default (att_name still) (getAttachmentMotionGroupId still).

Definition buildAppleMotionItem (still clip : Attachment) : option AttachmentVisualItem :=
  let source := getAttachmentUrl clip in
  poster ← getAttachmentThumbnailUrl still;
  Some {| id := motion_id still; kind := motion_item; item_filename := filename still; posterUrl := poster;
          item_sourceUrl := source; attachmentNames := [att_name still; att_name clip]; attachments := [still; clip];
          previewItem := MotionPreview (motion_id still) (filename still) poster source None [still; clip];
          item_mimeType := mime_type still |}.

Definition buildAndroidMotionItem (a : Attachment) : option AttachmentVisualItem :=
  poster ← getAttachmentThumbnailUrl a;
  source ← getAttachmentMotionClipUrl a;
  Some {| id := att_name a; kind := motion_item; item_filename := filename a; posterUrl := poster;
          item_sourceUrl := source; attachmentNames := [att_name a]; attachments := [a];
          previewItem := MotionPreview (att_name a) (filename a) poster source (presentationTimestampUs <$> motionMedia a) [a];
          item_mimeType := mime_type a |}.

(** ** The gallery *)

(** The map from a motion group to its attachments. *)
Definition add_to_group (groups : gmap jstring (list Attachment)) (a : Attachment) : gmap jstring (list Attachment) :=
  match getAttachmentMotionGroupId a with
  | None => groups
  | Some g => <[g := default [] (groups !! g) ++ [a]]> groups
  end.
Definition attachmentsByGroup (l : list Attachment) : gmap jstring (list Attachment) := foldl add_to_group ∅ l.

(** The two files of a live photo, when a group is nothing else. *)
Definition live_photo (group : list Attachment) : option (Attachment * Attachment) :=
  still ← js_find isAppleLivePhotoStill group;
  clip ← js_find isAppleLivePhotoVideo group;
  if (length group =? 2)%nat then Some (still, clip) else None.

(** One turn of the loop, with the groups consumed and the items so far. *)
Definition visual_step (groups : gmap jstring (list Attachment)) (st : gset jstring * list AttachmentVisualItem) (a : Attachment)
    : option (gset jstring * list AttachmentVisualItem) :=
  let '(consumedGroups, items) := st in
  if isAndroidMotionContainer a then
    item ← buildAndroidMotionItem a; Some (consumedGroups, items ++ [item])
  else
    match getAttachmentMotionGroupId a with
    | None => item ← buildSingleAttachmentItem a; Some (consumedGroups, items ++ [item])
    | Some g =>
        if bool_decide (g ∈ consumedGroups) then Some (consumedGroups, items)
        else
          let group := default [] (groups !! g) in
          match live_photo group with
          | Some (still, clip) =>
              item ← buildAppleMotionItem still clip; Some ({[g]} ∪ consumedGroups, items ++ [item])
          | None =>
              item ← buildSingleAttachmentItem a;
              rest ← mapM buildSingleAttachmentItem (js_filter (fun member => negb (js_eqb (att_name member) (att_name a))) group);
              Some ({[g]} ∪ consumedGroups, items ++ item :: rest)
          end
    end.

Fixpoint visual_loop (groups : gmap jstring (list Attachment)) (l : list Attachment) (st : gset jstring * list AttachmentVisualItem)
    : option (gset jstring * list AttachmentVisualItem) :=
  match l with
  | [] => Some st
  | a :: l' => st' ← visual_step groups st a; visual_loop groups l' st'
  end.

Fixpoint dedupe_from (seen : list jstring) (items : list AttachmentVisualItem) : list AttachmentVisualItem :=
  match items with
  | [] => []
  | item :: items' =>
      if bool_decide (id item ∈ seen) then dedupe_from seen items' else item :: dedupe_from (id item :: seen) items'
  end.
Definition dedupeVisualItems (items : list AttachmentVisualItem) : list AttachmentVisualItem := dedupe_from [] items.

Definition buildAttachmentVisualItems (l : list Attachment) : option (list AttachmentVisualItem) :=
  st ← visual_loop (attachmentsByGroup l) l (∅, []);
  Some (dedupeVisualItems st.2).

Definition is_visual (a : Attachment) : bool :=
  js_eqb (getAttachmentType a) (u "image/*") || js_eqb (getAttachmentType a) (u "video/*") || isMotionAttachment a.

Definition countLogicalAttachmentItems (l : list Attachment) : option nat :=
  let visualAttachments := js_filter is_visual l in
  let visualNames := att_name <$> visualAttachments in
  items ← buildAttachmentVisualItems visualAttachments;
  Some (length items + length (js_filter (fun a => negb (bool_decide (att_name a ∈ visualNames))) l))%nat.
End Build.

(** ** The cover of a post *)

Definition uids_of (item : AttachmentVisualItem) : list jstring := omap extractAttachmentUIDFromName (attachmentNames item).
Definition put_uid (item : AttachmentVisualItem) (m : gmap jstring AttachmentVisualItem) (uid : jstring) : gmap jstring AttachmentVisualItem :=
  match uid with [] => m | _ => <[uid := item]> m end.
Definition itemsByUID (items : list AttachmentVisualItem) : gmap jstring AttachmentVisualItem :=
  foldl (fun m item => foldl (put_uid item) m (uids_of item)) ∅ items.

Section Cover.
Context {page : WebPage} {parser : MarkdownParser} {markdown : MarkdownHost}.

Definition selectBlogCoverMedia (st : module_state) (content : jstring) (items : list AttachmentVisualItem)
    : option AttachmentVisualItem * module_state :=
  let byUID := itemsByUID items in
  let (references, st') := extractManagedAttachmentReferences st content in
  (match head (omap (fun reference => byUID !! reference.1.1) references) with
   | Some item => Some item
   | None => head items
   end, st').
End Cover.

(** ** Groups *)

Definition in_group (g : jstring) (a : Attachment) : bool := bool_decide (getAttachmentMotionGroupId a = Some g).
Definition members (l : list Attachment) (g : jstring) : list Attachment := js_filter (in_group g) l.

Lemma attachmentsByGroup_lookup l g : default [] (attachmentsByGroup l !! g) = members l g.
Proof.
  unfold attachmentsByGroup, members. induction l as [|a l IH] using rev_ind; [done|].
  rewrite foldl_app, js_filter_app. cbn [foldl js_filter]. unfold add_to_group at 1, in_group at 2.
  destruct (getAttachmentMotionGroupId a) as [g'|]; [|rewrite bool_decide_eq_false_2 by done; by rewrite app_nil_r].
  destruct (decide (g' = g)) as [->|Hne].
  - rewrite lookup_insert_eq. cbn. by rewrite bool_decide_eq_true_2, IH by done.
  - rewrite lookup_insert_ne by done. rewrite bool_decide_eq_false_2 by naive_solver. by rewrite app_nil_r, IH.
Qed.

Lemma elem_of_members l g a : a ∈ members l g <-> a ∈ l /\ getAttachmentMotionGroupId a = Some g.
Proof. unfold members. rewrite js_filter_In. unfold in_group. by rewrite bool_decide_eq_true. Qed.

Lemma motion_is_family f r a : motion_is f r a = true -> exists m, motionMedia a = Some m /\ family m = f /\ role m = r.
Proof. unfold motion_is. destruct (motionMedia a) as [m|]; [|done]. rewrite andb_true_iff, !bool_decide_eq_true. by exists m. Qed.

Lemma live_photo_pair l g s c :
  live_photo (members l g) = Some (s, c) ->
  members l g ≡ₚ [s; c] /\ s <> c /\ isAppleLivePhotoStill s = true /\ isAppleLivePhotoVideo c = true.
Proof.
  unfold live_photo. destruct (js_find isAppleLivePhotoStill (members l g)) as [s'|] eqn:Es; [|done]. cbn [mbind option_bind].
  destruct (js_find isAppleLivePhotoVideo (members l g)) as [c'|] eqn:Ec; [|done]. cbn [mbind option_bind].
  destruct (length (members l g) =? 2)%nat eqn:El; [|done]. intros [= <- <-].
  apply js_find_Some in Es as [Hs Hs']. apply js_find_Some in Ec as [Hc Hc'].
  assert (s' <> c') as Hne.
  { intros ->. apply motion_is_family in Hs' as (m & Hm & _ & Hr). apply motion_is_family in Hc' as (m' & Hm' & _ & Hr'). congruence. }
  split; [|done]. apply Nat.eqb_eq in El. destruct (members l g) as [|x [|y [|z ms]]]; try (cbn in El; lia).
  rewrite !elem_of_cons, elem_of_nil in Hs, Hc.
  destruct Hs as [->|[->|[]]], Hc as [->|[->|[]]]; try done. apply Permutation_swap.
Qed.

Lemma live_photo_not_android l g s c a :
  live_photo (members l g) = Some (s, c) -> a ∈ l -> getAttachmentMotionGroupId a = Some g ->
  (a = s \/ a = c) /\ isAndroidMotionContainer a = false.
Proof.
  intros Hl Ha Hg. destruct (live_photo_pair _ _ _ _ Hl) as (Hp & _ & Hs & Hc).
  assert (a ∈ [s; c]) as Hin by (rewrite <- Hp; by apply elem_of_members).
  assert (a = s \/ a = c) as Hor by (rewrite !elem_of_cons, elem_of_nil in Hin; naive_solver).
  split; [done|]. unfold isAndroidMotionContainer. apply andb_false_iff. left. apply not_true_iff_false. intros Hm.
  apply motion_is_family in Hm as (m & Hm & Hf & _).
  destruct Hor as [->| ->]; [apply motion_is_family in Hs as (m' & Hm' & Hf' & _)|apply motion_is_family in Hc as (m' & Hm' & Hf' & _)]; congruence.
Qed.

(** The identifier of the item that shows an attachment, and what that item shows. *)
Definition item_id (l : list Attachment) (a : Attachment) : jstring :=
  match getAttachmentMotionGroupId a with
  | Some g => match live_photo (members l g) with Some _ => g | None => att_name a end
  | None => att_name a
  end.
Definition mates (l : list Attachment) (a : Attachment) : list Attachment :=
  match getAttachmentMotionGroupId a with
  | Some g => match live_photo (members l g) with Some (s, c) => [s; c] | None => [a] end
  | None => [a]
  end.
Definition shows (l : list Attachment) (item : AttachmentVisualItem) : Prop :=
  exists a, a ∈ l /\ id item = item_id l a /\ attachments item = mates l a /\ attachmentNames item = att_name <$> attachments item.
Definition covered (items : list AttachmentVisualItem) (a : Attachment) : Prop := exists item, item ∈ items /\ a ∈ attachments item.

(** Names are distinct, and none is the identifier of a motion group. *)
Definition names_ok (l : list Attachment) : Prop :=
  NoDup (att_name <$> l)
  /\ forall a b g, a ∈ l -> b ∈ l -> getAttachmentMotionGroupId a = Some g -> g <> att_name b.

Lemma names_inj l a b : NoDup (att_name <$> l) -> a ∈ l -> b ∈ l -> att_name a = att_name b -> a = b.
Proof.
  intros Hn Ha Hb He. apply list_elem_of_lookup in Ha as [i Hi], Hb as [j Hj].
  assert (i = j) as ->; [|congruence]. apply (NoDup_lookup (att_name <$> l) i j (att_name a) Hn); rewrite list_lookup_fmap.
  - by rewrite Hi.
  - by rewrite Hj, He.
Qed.

Lemma mates_self l a : a ∈ l -> a ∈ mates l a.
Proof.
  intros Ha. unfold mates. destruct (getAttachmentMotionGroupId a) as [g|] eqn:Eg; [|by left].
  destruct (live_photo (members l g)) as [[s c]|] eqn:El; [|by left].
  destruct (live_photo_not_android _ _ _ _ a El Ha Eg) as [[->| ->] _]; [by left|right; by left].
Qed.

Lemma mates_ok l a b : a ∈ l -> b ∈ mates l a -> b ∈ l /\ item_id l b = item_id l a /\ mates l b = mates l a.
Proof.
  intros Ha. unfold mates, item_id. destruct (getAttachmentMotionGroupId a) as [g|] eqn:Eg.
  2: { intros ->%list_elem_of_singleton. by rewrite Eg. }
  destruct (live_photo (members l g)) as [[s c]|] eqn:El.
  2: { intros ->%list_elem_of_singleton. by rewrite Eg, El. }
  intros Hb. destruct (live_photo_pair _ _ _ _ El) as (Hp & _). rewrite <- Hp in Hb. apply elem_of_members in Hb as [Hb Hg].
  by rewrite Hg, El.
Qed.

Lemma mates_NoDup l a : NoDup (mates l a).
Proof.
  unfold mates. destruct (getAttachmentMotionGroupId a) as [g|]; [|apply NoDup_singleton].
  destruct (live_photo (members l g)) as [[s c]|] eqn:El; [|apply NoDup_singleton].
  destruct (live_photo_pair _ _ _ _ El) as (_ & Hne & _). apply NoDup_cons. split; [|apply NoDup_singleton].
  by rewrite list_elem_of_singleton.
Qed.

(** An item's identifier determines what it shows. *)
Lemma item_id_inj l a b : names_ok l -> a ∈ l -> b ∈ l -> item_id l a = item_id l b -> mates l a = mates l b.
Proof.
  intros Hok Ha Hb. pose proof (names_inj l a b (proj1 Hok) Ha Hb) as Hinj. destruct Hok as [_ Hg]. unfold item_id, mates.
  destruct (getAttachmentMotionGroupId a) as [g|] eqn:Ea; [destruct (live_photo (members l g)) as [[s c]|] eqn:El|];
    (destruct (getAttachmentMotionGroupId b) as [g'|] eqn:Eb; [destruct (live_photo (members l g')) as [[s' c']|] eqn:El'|]).
  all: intros He.
  1: { subst g'. congruence. }
  all: try (exfalso; eapply Hg; [|..|exact Ea|exact He]; done).
  all: try (exfalso; eapply Hg; [|..|exact Eb|symmetry; exact He]; done).
  all: rewrite (Hinj He) in *; try congruence.
Qed.

(** ** The loop *)

Section Loop.
Context {page : WebPage} {params : UrlParams}.

Lemma single_item a item :
  buildSingleAttachmentItem a = Some item -> id item = att_name a /\ attachments item = [a] /\ attachmentNames item = [att_name a].
Proof.
  unfold buildSingleAttachmentItem. destruct (js_eqb (getAttachmentType a) (u "image/*")); [destruct (getAttachmentThumbnailUrl a); [|done]|].
  all: cbn [mbind option_bind]; by intros [= <-].
Qed.

Lemma apple_item s c item :
  buildAppleMotionItem s c = Some item ->
  id item = motion_id s /\ attachments item = [s; c] /\ attachmentNames item = [att_name s; att_name c].
Proof. unfold buildAppleMotionItem. destruct (getAttachmentThumbnailUrl s); [|done]. by intros [= <-]. Qed.

Lemma android_item a item :
  buildAndroidMotionItem a = Some item -> id item = att_name a /\ attachments item = [a] /\ attachmentNames item = [att_name a].
Proof.
  unfold buildAndroidMotionItem. destruct (getAttachmentThumbnailUrl a); [|done]. cbn [mbind option_bind].
  destruct (getAttachmentMotionClipUrl a); [|done]. by intros [= <-].
Qed.

(** An attachment shown by itself. *)
Lemma alone_shows l a item :
  a ∈ l -> (forall g, getAttachmentMotionGroupId a = Some g -> isAndroidMotionContainer a = true \/ live_photo (members l g) = None) ->
  id item = att_name a /\ attachments item = [a] /\ attachmentNames item = [att_name a] -> shows l item.
Proof.
  intros Ha Hg (H1 & H2 & H3). exists a. rewrite H1, H2, H3. split; [done|]. unfold item_id, mates.
  destruct (getAttachmentMotionGroupId a) as [g|] eqn:Eg; [|done]. destruct (live_photo (members l g)) as [[s c]|] eqn:El; [|done].
  destruct (Hg g eq_refl) as [Hand|Hn]; [|by rewrite El in Hn]. destruct (live_photo_not_android _ _ _ _ a El Ha Eg). congruence.
Qed.

Lemma covered_mono items items' a : (forall item, item ∈ items -> item ∈ items') -> covered items a -> covered items' a.
Proof. intros H (item & Hi & Ha). exists item. by split; [apply H|]. Qed.

(** The items of a group that is not a live photo. *)
Lemma group_items l g group rest :
  live_photo (members l g) = None -> (forall a, a ∈ group -> a ∈ members l g) ->
  mapM buildSingleAttachmentItem group = Some rest ->
  Forall (shows l) rest /\ forall a, a ∈ group -> covered rest a.
Proof.
  intros Hl Hin Hm. apply mapM_Some_1 in Hm. induction Hm as [|a item group rest Ha _ IH]; [split; [done|]; by intros a ?%elem_of_nil|].
  destruct IH as [IH1 IH2]; [intros b Hb; apply Hin; by right|]. pose proof (Hin a ltac:(by left)) as [Hal Hag]%elem_of_members.
  apply single_item in Ha as Hitem. split.
  - constructor; [|done]. apply (alone_shows l a); [done| |done]. intros g' Hg'. right. congruence.
  - intros b Hb. apply elem_of_cons in Hb as [->|Hb].
    + exists item. split; [by left|]. destruct Hitem as (_ & -> & _). by left.
    + eapply covered_mono; [|by apply IH2]. intros. by right.
Qed.

(** What the loop keeps: every item shows what the list has it show, and the groups
    consumed are covered. *)
Definition loop_inv (l : list Attachment) (st : gset jstring * list AttachmentVisualItem) : Prop :=
  Forall (shows l) st.2
  /\ forall g a, g ∈ st.1 -> a ∈ l -> getAttachmentMotionGroupId a = Some g -> covered st.2 a.

(** Pushing the item of an attachment shown by itself. *)
Lemma push_alone l c items a item :
  loop_inv l (c, items) -> a ∈ l ->
  (forall g, getAttachmentMotionGroupId a = Some g -> isAndroidMotionContainer a = true \/ live_photo (members l g) = None) ->
  id item = att_name a /\ attachments item = [a] /\ attachmentNames item = [att_name a] ->
  loop_inv l (c, items ++ [item]) /\ (forall it, it ∈ items -> it ∈ items ++ [item]) /\ covered (items ++ [item]) a.
Proof.
  intros [H1 H2] Ha Hg Hitem. assert (forall it, it ∈ items -> it ∈ items ++ [item]) as Hsub by (intros; apply elem_of_app; by left).
  split; [split; cbn in *|split; [exact Hsub|]].
  - apply Forall_app. split; [done|]. constructor; [|done]. by apply (alone_shows l a).
  - intros g b Hb Hbl He. eapply covered_mono; [exact Hsub|]. by eapply H2.
  - exists item. split; [apply elem_of_app; right; by left|]. destruct Hitem as (_ & -> & _). by left.
Qed.

(** Consuming a group whose members are all covered. *)
Lemma consume_group l c items items' g a :
  loop_inv l (c, items) -> (forall it, it ∈ items -> it ∈ items') -> Forall (shows l) items' ->
  (forall b, b ∈ members l g -> covered items' b) -> a ∈ members l g ->
  loop_inv l ({[g]} ∪ c, items') /\ (forall it, it ∈ items -> it ∈ items') /\ covered items' a.
Proof.
  intros Hinv Hsub Hsh Hcov Hin. split; [split; [done|]|split; [done|by apply Hcov]]. cbn. intros g' b Hg' Hb Hgb.
  apply elem_of_union in Hg' as [->%elem_of_singleton|Hg']; [apply Hcov; by apply elem_of_members|].
  eapply covered_mono; [exact Hsub|]. by eapply (proj2 Hinv).
Qed.

Lemma visual_step_inv l st a st' :
  NoDup (att_name <$> l) -> a ∈ l -> loop_inv l st -> visual_step (attachmentsByGroup l) st a = Some st' ->
  loop_inv l st' /\ (forall item, item ∈ st.2 -> item ∈ st'.2) /\ covered st'.2 a.
Proof.
  intros Hn Ha Hinv. destruct st as [c items]. unfold visual_step. rewrite ?attachmentsByGroup_lookup.
  destruct (isAndroidMotionContainer a) eqn:Eand.
  { destruct (buildAndroidMotionItem a) as [item|] eqn:Ei; [|done]. intros [= <-].
    apply push_alone; [done..|by left|by apply android_item]. }
  destruct (getAttachmentMotionGroupId a) as [g|] eqn:Eg.
  2: { destruct (buildSingleAttachmentItem a) as [item|] eqn:Ei; [|done]. intros [= <-].
    apply push_alone; [done..|by rewrite Eg|by apply single_item]. }
  rewrite attachmentsByGroup_lookup. case_bool_decide as Hc.
  { intros [= <-]. split; [done|]. split; [done|]. by apply (proj2 Hinv g). }
  assert (a ∈ members l g) as Hin by by apply elem_of_members.
  destruct (live_photo (members l g)) as [[s clip]|] eqn:El.
  - destruct (buildAppleMotionItem s clip) as [item|] eqn:Ei; [|done]. intros [= <-]. apply apple_item in Ei as (H1 & H2 & H3).
    destruct (live_photo_pair _ _ _ _ El) as (Hp & _). assert (s ∈ members l g) as [Hs Hsg]%elem_of_members by (rewrite Hp; by left).
    apply consume_group; [done| | | |done].
    + intros it Hit. apply elem_of_app. by left.
    + apply Forall_app. split; [apply Hinv|]. constructor; [|done]. exists s. rewrite H2, H3. split; [done|].
      unfold item_id, mates. rewrite H1. unfold motion_id. by rewrite Hsg, El.
    + intros b Hb. exists item. split; [apply elem_of_app; right; by left|]. rewrite H2. by rewrite <- Hp.
  - destruct (buildSingleAttachmentItem a) as [item|] eqn:Ei; [|done]. cbn [mbind option_bind].
    set (others := js_filter _ (members l g)). destruct (mapM _ others) as [rest|] eqn:Er; [|done]. intros [= <-].
    destruct (group_items l g others rest El) as [Hr1 Hr2]; [|done|].
    { intros b Hb. apply js_filter_In in Hb. apply Hb. }
    destruct (push_alone l c items a item) as (Hpush & Hsub & it & Hit & Hita); [done..| |by apply single_item|].
    { intros g' Hg'. right. congruence. }
    apply consume_group; [done| | | |done].
    + intros it' Hit'. apply elem_of_app. by left.
    + rewrite (app_assoc items [item] rest : items ++ item :: rest = _). apply Forall_app. split; [apply Hpush|done].
    + rewrite (app_assoc items [item] rest : items ++ item :: rest = _). intros b Hb. destruct (decide (att_name b = att_name a)) as [He|He].
      * apply elem_of_members in Hb as [Hb _]. assert (b = a) as -> by by apply (names_inj l).
        exists it. split; [apply elem_of_app; by left|done].
      * eapply covered_mono; [|apply Hr2, js_filter_In; split; [exact Hb|]].
        { intros it' Hit'. apply elem_of_app. by right. }
        apply negb_true_iff, js_eqb_false. exact He.
Qed.

Lemma visual_loop_inv l todo st st' :
  NoDup (att_name <$> l) -> (forall a, a ∈ todo -> a ∈ l) -> loop_inv l st -> visual_loop (attachmentsByGroup l) todo st = Some st' ->
  loop_inv l st' /\ (forall item, item ∈ st.2 -> item ∈ st'.2) /\ forall a, a ∈ todo -> covered st'.2 a.
Proof.
  intros Hn. revert st. induction todo as [|a todo IH]; intros st Hin Hinv; cbn [visual_loop].
  { intros [= <-]. split; [done|]. split; [done|]. by intros a ?%elem_of_nil. }
  destruct (visual_step _ st a) as [mid|] eqn:Es; [|done]. intros Hl.
  destruct (visual_step_inv l st a mid) as (H1 & H2 & H3); [done|apply Hin; by left|done..|].
  destruct (IH mid) as (H4 & H5 & H6); [intros b Hb; apply Hin; by right|done..|]. split; [done|]. split; [by auto|].
  intros b Hb. apply elem_of_cons in Hb as [->|Hb]; [|by apply H6]. by eapply covered_mono.
Qed.
End Loop.

(** ** Removing duplicates *)

Lemma dedupe_from_sublist seen items : dedupe_from seen items `sublist_of` items.
Proof.
  revert seen. induction items as [|item items IH]; intros seen; cbn [dedupe_from]; [done|].
  case_bool_decide; [by apply sublist_cons|by apply sublist_skip].
Qed.

Lemma dedupe_from_ids seen items : NoDup (id <$> dedupe_from seen items) /\ forall x, x ∈ id <$> dedupe_from seen items -> x ∉ seen.
Proof.
  revert seen. induction items as [|item items IH]; intros seen; cbn [dedupe_from]; [split; [apply NoDup_nil_2|]; by intros x ?%elem_of_nil|].
  case_bool_decide as E; [apply IH|]. destruct (IH (id item :: seen)) as [H1 H2]. cbn [fmap list_fmap]. split.
  - apply NoDup_cons. split; [|done]. intros Hin. apply H2 in Hin. apply Hin. by left.
  - intros x Hx. apply elem_of_cons in Hx as [->|Hx]; [done|]. intros Hs. apply (H2 x Hx). by right.
Qed.

Lemma dedupe_from_keeps seen items item :
  item ∈ items -> id item ∈ seen \/ exists item', item' ∈ dedupe_from seen items /\ id item' = id item.
Proof.
  revert seen. induction items as [|x items IH]; intros seen Hi; [by apply elem_of_nil in Hi|]. cbn [dedupe_from].
  apply elem_of_cons in Hi as [->|Hi].
  - case_bool_decide; [by left|]. right. exists x. split; [by left|done].
  - case_bool_decide as E; [by apply IH|]. destruct (IH (id x :: seen) Hi) as [[He|Hs]%elem_of_cons|(item' & H1 & H2)].
    + right. exists x. split; [by left|]. by symmetry.
    + by left.
    + right. exists item'. split; [by right|done].
Qed.

(** ** Each attachment in one item *)

Lemma shows_member l item a : shows l item -> a ∈ attachments item -> a ∈ l /\ id item = item_id l a.
Proof.
  intros (b & Hb & Hid & Ha & _) Hin. rewrite Ha in Hin. destruct (mates_ok l b a Hb Hin) as (H1 & H2 & _).
  split; [done|]. by rewrite H2.
Qed.

Lemma shows_NoDup l items : Forall (shows l) items -> NoDup (id <$> items) -> NoDup (concat (attachments <$> items)).
Proof.
  induction 1 as [|item items Hi Hs IH]; intros Hn; [apply NoDup_nil_2|]. cbn [fmap list_fmap concat] in *.
  apply NoDup_cons in Hn as [Hnot Hn]. apply NoDup_app. split; [destruct Hi as (a & _ & _ & -> & _); apply mates_NoDup|].
  split; [|by apply IH]. intros x Hx Hin. apply list_elem_of_In, in_concat in Hin as (y & Hy & Hxy).
  apply list_elem_of_In, list_elem_of_fmap in Hy as (item' & -> & Hit). apply list_elem_of_In in Hxy.
  apply Hnot, list_elem_of_fmap. exists item'. split; [|done]. rewrite Forall_forall in Hs.
  destruct (shows_member l item x Hi Hx) as [_ ->]. by destruct (shows_member l item' x (Hs _ Hit) Hxy) as [_ ->].
Qed.

Lemma dedupe_covers l items a :
  names_ok l -> Forall (shows l) items -> covered items a -> covered (dedupeVisualItems items) a.
Proof.
  intros Hok Hs (item & Hi & Ha). destruct (dedupe_from_keeps [] items item Hi) as [[]%elem_of_nil|(item' & Hi' & He)].
  exists item'. split; [done|]. rewrite Forall_forall in Hs. pose proof (Hs item Hi) as (b & Hb & Hid & Hm & _).
  destruct (Hs item') as (b' & Hb' & Hid' & Hm' & _); [by eapply elem_of_sublist, dedupe_from_sublist|].
  rewrite Hm', (item_id_inj l b' b), <- Hm; [done..|congruence].
Qed.

Section GalleryFacts.
Context {page : WebPage} {params : UrlParams}.

Lemma built_items l items :
  names_ok l -> buildAttachmentVisualItems l = Some items ->
  Forall (shows l) items /\ NoDup (id <$> items) /\ forall a, a ∈ l -> covered items a.
Proof.
  intros Hok. unfold buildAttachmentVisualItems. destruct (visual_loop _ l _) as [st|] eqn:El; [|done]. intros [= <-].
  destruct (visual_loop_inv l l (∅, []) st (proj1 Hok)) as (H1 & _ & H3); [done|split; [done|]; cbn; set_solver|done|].
  split; [|split; [apply dedupe_from_ids|]].
  - destruct H1 as [H1 _]. rewrite Forall_forall in H1 |- *. intros it Hit. apply H1. by eapply elem_of_sublist, dedupe_from_sublist.
  - intros a Ha. apply (dedupe_covers l); [done|apply H1|by apply H3].
Qed.

Lemma gallery_perm l items : names_ok l -> buildAttachmentVisualItems l = Some items -> concat (attachments <$> items) ≡ₚ l.
Proof.
  intros Hok Hb. destruct (built_items l items Hok Hb) as (Hs & Hn & Hc). apply NoDup_Permutation.
  - by apply (shows_NoDup l).
  - apply (NoDup_fmap_1 att_name), Hok.
  - intros a. split.
    + intros Hin. apply list_elem_of_In, in_concat in Hin as (y & Hy & Ha). apply list_elem_of_In, list_elem_of_fmap in Hy as (it & -> & Hit).
      rewrite Forall_forall in Hs. apply list_elem_of_In in Ha. by destruct (shows_member l it a (Hs _ Hit) Ha).
    + intros Ha. destruct (Hc a Ha) as (it & Hit & Hita). apply list_elem_of_In, in_concat. exists (attachments it).
      split; apply list_elem_of_In; [|done]. apply list_elem_of_fmap. by exists it.
Qed.

(** An external link the page can show: its URL parses. *)
Definition link_ok (a : Attachment) : Prop := externalLink a = [] \/ exists url, parse_url (externalLink a) location_origin = Some url.

Lemma share_param_ok a key : link_ok a -> exists r, withShareTokenParam (externalLink a) key = Some r.
Proof.
  intros [->|[url Hu]]; [by eexists|]. unfold withShareTokenParam. destruct (externalLink a); [by eexists|]. rewrite Hu. cbn.
  destruct (negb _); by eexists.
Qed.
Lemma thumbnail_ok a : link_ok a -> exists url, getAttachmentThumbnailUrl a = Some url.
Proof. intros H. unfold getAttachmentThumbnailUrl. destruct (share_param_ok a (u "thumbnail") H) as [r ->]. by eexists. Qed.
Lemma single_ok a : link_ok a -> exists item, buildSingleAttachmentItem a = Some item.
Proof.
  intros H. unfold buildSingleAttachmentItem. destruct (thumbnail_ok a H) as [url ->].
  destruct (js_eqb (getAttachmentType a) (u "image/*")); by eexists.
Qed.

Lemma visual_step_total l st a :
  (forall b, b ∈ l -> link_ok b) -> a ∈ l -> exists st', visual_step (attachmentsByGroup l) st a = Some st'.
Proof.
  intros Hl Ha. destruct st as [c items]. unfold visual_step. destruct (single_ok a (Hl a Ha)) as [item Hitem].
  destruct (isAndroidMotionContainer a).
  { unfold buildAndroidMotionItem. destruct (thumbnail_ok a (Hl a Ha)) as [url ->]. cbn [mbind option_bind].
    unfold getAttachmentMotionClipUrl. destruct (share_param_ok a (u "motion") (Hl a Ha)) as [r ->]. by eexists. }
  destruct (getAttachmentMotionGroupId a) as [g|]; [|rewrite Hitem; by eexists]. case_bool_decide; [by eexists|].
  rewrite attachmentsByGroup_lookup. destruct (live_photo (members l g)) as [[s clip]|] eqn:El.
  - destruct (live_photo_pair _ _ _ _ El) as (Hp & _). assert (s ∈ members l g) as [Hs _]%elem_of_members by (rewrite Hp; by left).
    unfold buildAppleMotionItem. destruct (thumbnail_ok s (Hl s Hs)) as [url ->]. by eexists.
  - rewrite Hitem. cbn [mbind option_bind]. destruct (mapM buildSingleAttachmentItem _) as [rest|] eqn:Er; [by eexists|].
    apply mapM_None, Exists_exists in Er as (b & Hb & Hn). apply js_filter_In in Hb as [[Hb _]%elem_of_members _].
    destruct (single_ok b (Hl b Hb)) as [it Hit]. congruence.
Qed.

Lemma gallery_total l : (forall a, a ∈ l -> link_ok a) -> exists items, buildAttachmentVisualItems l = Some items.
Proof.
  intros Hl. unfold buildAttachmentVisualItems.
  assert (forall todo st, (forall a, a ∈ todo -> a ∈ l) -> exists st', visual_loop (attachmentsByGroup l) todo st = Some st') as H.
  { induction todo as [|a todo IH]; intros st Hin; cbn [visual_loop]; [by eexists|].
    destruct (visual_step_total l st a Hl (Hin a ltac:(by left))) as [mid ->]. apply IH. intros b Hb. apply Hin. by right. }
  destruct (H l (∅, [])) as [st ->]; [done|]. by eexists.
Qed.

(** ** Properties *)

(** C27. A gallery loses nothing and repeats nothing: from attachments with names of their
    own, the items together show each attachment exactly once, with distinct
    identifiers and the names of what they show; and a gallery is always made when the
    external links are URLs. *)
Theorem gallery_partition (l : list Attachment) (Hok : names_ok l) (Hlinks : forall a, a ∈ l -> link_ok a) :
  exists items, buildAttachmentVisualItems l = Some items
    /\ concat (attachments <$> items) ≡ₚ l /\ NoDup (id <$> items)
    /\ Forall (fun item => attachmentNames item = att_name <$> attachments item) items.
Proof.
  destruct (gallery_total l Hlinks) as [items Hb]. exists items. split; [done|]. destruct (built_items l items Hok Hb) as (Hs & Hn & _).
  split; [by apply gallery_perm|]. split; [done|]. eapply Forall_impl; [exact Hs|]. by intros item (a & _ & _ & _ & H).
Qed.

(** The two files of a live photo are one item, and nothing else is: an item shows
    more than one attachment exactly when they are the still and the video of a motion
    group that holds nothing else. *)
Theorem live_photo_paired (l : list Attachment) (items : list AttachmentVisualItem) (a b : Attachment)
    (Hok : names_ok l) (Hb : buildAttachmentVisualItems l = Some items) (Ha : a ∈ l) (Hbl : b ∈ l) (Hne : a <> b) :
  (exists item, item ∈ items /\ a ∈ attachments item /\ b ∈ attachments item)
  <-> exists g, members l g ≡ₚ [a; b]
        /\ (isAppleLivePhotoStill a = true /\ isAppleLivePhotoVideo b = true
            \/ isAppleLivePhotoStill b = true /\ isAppleLivePhotoVideo a = true).
Proof.
  destruct (built_items l items Hok Hb) as (Hs & _ & Hc). rewrite Forall_forall in Hs. split.
  - intros (item & Hi & Hia & Hib). destruct (Hs item Hi) as (x & Hx & _ & Hm & _). rewrite Hm in Hia, Hib. unfold mates in *.
    destruct (getAttachmentMotionGroupId x) as [g|]; [destruct (live_photo (members l g)) as [[s c]|] eqn:El|].
    2, 3: apply list_elem_of_singleton in Hia, Hib; congruence.
    destruct (live_photo_pair _ _ _ _ El) as (Hp & _ & Hstill & Hclip). exists g. rewrite Hp.
    rewrite !elem_of_cons, elem_of_nil in Hia, Hib. destruct Hia as [->|[->|[]]], Hib as [->|[->|[]]]; try done.
    + split; [done|by left].
    + split; [apply Permutation_swap|by right].
  - intros (g & Hp & Hroles). assert (a ∈ members l g) as [_ Hga]%elem_of_members by (rewrite Hp; by left).
    assert (exists s c, live_photo (members l g) = Some (s, c)) as (s & c & El).
    { unfold live_photo. pose proof (Permutation_length Hp) as Hlen. assert (b ∈ members l g) as Hbm by (rewrite Hp; right; by left).
      assert (a ∈ members l g) as Ham by (rewrite Hp; by left).
      destruct (js_find isAppleLivePhotoStill (members l g)) as [s|] eqn:Es.
      2: { exfalso. rewrite js_find_None in Es. destruct Hroles as [[H _]|[H _]]; [rewrite Es in H|rewrite Es in H]; done. }
      destruct (js_find isAppleLivePhotoVideo (members l g)) as [c|] eqn:Ec.
      2: { exfalso. rewrite js_find_None in Ec. destruct Hroles as [[_ H]|[_ H]]; [rewrite Ec in H|rewrite Ec in H]; done. }
      cbn [mbind option_bind]. rewrite Hlen. by do 2 eexists. }
    destruct (Hc a Ha) as (item & Hi & Hia). exists item. split; [done|]. split; [done|].
    destruct (Hs item Hi) as (x & Hx & _ & Hm & _). rewrite Hm in *. destruct (mates_ok l x a Hx Hia) as (_ & _ & Hma).
    rewrite <- Hma. unfold mates. rewrite Hga, El. destruct (live_photo_pair _ _ _ _ El) as (Hp' & _). rewrite <- Hp', Hp. right. by left.
Qed.
End GalleryFacts.

(** ** The cover *)

Lemma uid_nonempty name uid : extractAttachmentUIDFromName name = Some uid -> uid <> [].
Proof.
  unfold extractAttachmentUIDFromName. destruct (negb _); [done|]. cbv zeta. set (x := slice_from name _). clearbody x.
  destruct (test false UID_PATTERN x) eqn:E; [|done]. intros H. apply Some_inj in H. subst uid. intros ->. vm_compute in E. done.
Qed.

Lemma put_uids_lookup item uids m uid :
  (forall x, x ∈ uids -> x <> []) ->
  foldl (put_uid item) m uids !! uid = if bool_decide (uid ∈ uids) then Some item else m !! uid.
Proof.
  revert m. induction uids as [|x uids IH]; intros m Hne; cbn [foldl]; [by rewrite bool_decide_eq_false_2 by apply not_elem_of_nil|].
  rewrite IH by (intros y Hy; apply Hne; by right). pose proof (Hne x ltac:(by left)) as Hx. unfold put_uid. destruct x as [|c x]; [done|].
  destruct (decide (uid = c :: x)) as [->|Hu].
  - rewrite lookup_insert_eq, (bool_decide_eq_true_2 (_ ∈ _ :: _)) by by left. by case_bool_decide.
  - rewrite lookup_insert_ne by done. do 2 case_bool_decide; try done; exfalso.
    + by match goal with H : _ ∉ _ :: _ |- _ => apply H; right end.
    + match goal with H : uid ∈ _ :: _ |- _ => apply elem_of_cons in H as [?|?]; done end.
Qed.

(** The item found for an identifier is one that shows it; there is one when any does. *)
Lemma itemsByUID_lookup items uid :
  match itemsByUID items !! uid with
  | Some item => item ∈ items /\ uid ∈ uids_of item
  | None => forall item, item ∈ items -> uid ∉ uids_of item
  end.
Proof.
  unfold itemsByUID.
  induction items as [|item items IH] using rev_ind; [cbn [foldl]; rewrite lookup_empty; by intros item ?%elem_of_nil|]. rewrite foldl_app. cbn [foldl].
  rewrite put_uids_lookup.
  2: { intros x Hx. apply list_elem_of_omap in Hx as (name & _ & Hx). by eapply uid_nonempty. }
  case_bool_decide as E; [split; [apply elem_of_app; right; by left|done]|].
  set (m := foldl _ ∅ items) in *. destruct (m !! uid) as [found|].
  - destruct IH. split; [apply elem_of_app; by left|done].
  - intros it Hit. apply elem_of_app in Hit as [Hit|Hit]; [by apply IH|]. apply list_elem_of_singleton in Hit. by subst it.
Qed.

(** Whether an item of the gallery shows the attachment a reference names. *)
Definition shown_by (items : list AttachmentVisualItem) (reference : jstring * image_kind * nat) : bool :=
  existsb (fun item => bool_decide (reference.1.1 ∈ uids_of item)) items.

Lemma first_found items references :
  match head (omap (fun reference => itemsByUID items !! reference.1.1) references) with
  | Some item => exists reference, js_find (shown_by items) references = Some reference /\ item ∈ items /\ reference.1.1 ∈ uids_of item
  | None => js_find (shown_by items) references = None
  end.
Proof.
  induction references as [|reference references IH]; [done|]. cbn [omap list_omap js_find].
  pose proof (itemsByUID_lookup items reference.1.1) as H. destruct (itemsByUID items !! _) as [item|].
  - assert (shown_by items reference = true) as ->.
    { apply existsb_exists. exists item. rewrite <- list_elem_of_In. split; [apply H|]. by apply bool_decide_eq_true, H. }
    cbn [head]. by exists reference.
  - assert (shown_by items reference = false) as ->; [|exact IH]. apply not_true_iff_false. intros Hs.
    apply existsb_exists in Hs as (item & Hin & Hu). apply bool_decide_eq_true in Hu. apply list_elem_of_In in Hin. by apply (H item).
Qed.

Section CoverFacts.
Context {page : WebPage} {parser : MarkdownParser} {markdown : MarkdownHost}.

(** The cover of a post is what its text shows first: the item of the first reference
    in the text that any item of the gallery shows, and the first item when the text
    refers to none. *)
Theorem cover_follows_text (st : module_state) (content : jstring) (items : list AttachmentVisualItem) :
  let references := fst (extractManagedAttachmentReferences st content) in
  let cover := fst (selectBlogCoverMedia st content items) in
  match js_find (shown_by items) references with
  | Some reference => exists item, cover = Some item /\ item ∈ items /\ reference.1.1 ∈ uids_of item
  | None => cover = head items
  end.
Proof.
  cbn zeta. unfold selectBlogCoverMedia. destruct (extractManagedAttachmentReferences st content) as [references st']. cbn [fst].
  pose proof (first_found items references) as H. destruct (head (omap _ references)) as [item|].
  - destruct H as (reference & -> & Hi & Hu). by exists item.
  - by rewrite H.
Qed.
End CoverFacts.

(** ** Witnesses *)

#[local] Instance plain_page : WebPage := {| new_URL raw base := None; location_origin := u "https://memos.test" |}.
#[local] Instance plain_params : UrlParams := {|
  url_object := jstring; parse_url raw base := Some raw; has_param url key := false; set_param url key value := url; url_string url := url |}.

Definition sample_attachment (name group : jstring) (f : MotionMediaFamily) (r : MotionMediaRole) (type : jstring) : Attachment :=
  {| att_name := name; filename := u "f"; mime_type := type; externalLink := [];
     motionMedia := match group with
                    | [] => None
                    | g => Some {| family := f; role := r; groupId := g; presentationTimestampUs := 0; hasEmbeddedVideo := false |}
                    end;
     other_fields := [] |}.
Definition still_file := sample_attachment (u "attachments/a") (u "g") APPLE_LIVE_PHOTO STILL (u "image/jpeg").
Definition clip_file := sample_attachment (u "attachments/b") (u "g") APPLE_LIVE_PHOTO VIDEO (u "video/mp4").
Definition other_file := sample_attachment (u "attachments/c") [] APPLE_LIVE_PHOTO STILL (u "image/png").
Definition sample_files := [still_file; other_file; clip_file].

Lemma sample_names_ok : names_ok sample_files.
Proof.
  split; [apply (bool_decide_unpack _); vm_compute; exact I|]. intros a b g Ha Hb Hg.
  unfold sample_files in *. rewrite !elem_of_cons, elem_of_nil in Ha, Hb.
  destruct Ha as [->|[->|[->|[]]]], Hb as [->|[->|[->|[]]]]; vm_compute in Hg; try done; by injection Hg as <-.
Qed.

Example gallery_partition_witness :
  exists items, buildAttachmentVisualItems sample_files = Some items /\ length items = 2%nat
    /\ concat (attachments <$> items) ≡ₚ sample_files.
Proof.
  destruct (gallery_partition sample_files sample_names_ok) as (items & Hb & Hp & _).
  - intros a Ha. left. unfold sample_files in Ha. rewrite !elem_of_cons, elem_of_nil in Ha. destruct Ha as [->|[->|[->|[]]]]; reflexivity.
  - exists items. split; [exact Hb|]. split; [|exact Hp]. vm_compute in Hb. injection Hb as <-. reflexivity.
Defined.

Example live_photo_paired_witness :
  exists items item, buildAttachmentVisualItems sample_files = Some items /\ item ∈ items
    /\ still_file ∈ attachments item /\ clip_file ∈ attachments item.
Proof.
  destruct (buildAttachmentVisualItems sample_files) as [items|] eqn:E; [|vm_compute in E; discriminate].
  exists items. destruct (proj2 (live_photo_paired sample_files items still_file clip_file sample_names_ok E
    ltac:(left) ltac:(right; right; left) ltac:(discriminate))) as (item & H).
  - exists (u "g"). split; [reflexivity|]. left. split; reflexivity.
  - exists item. split; [reflexivity|exact H].
Defined.
