(* ===== verification/AttachmentItems.v ===== *)
(** * The editor's list of attachments

    web/src/components/MemoEditor/types/attachment.ts and the ingest of files in
    hooks/useFileUpload.ts: files picked together are paired into live photos, and what the
    editor lists, the memo's attachments and the files not yet uploaded, is made into items.
    The uuid generator and the size of an attachment are parameters. *)

From S2P Require Import Prelude JSString JSRegExp HostUnicode MemoRichText ManagedAttachment MediaItem.

Inductive FileCategory := image_file | video_file | motion_file | audio_file | document_file.
#[export] Instance FileCategory_eq_dec : EqDecision FileCategory.
Proof. solve_decision. Defined.
Inductive file_origin := audio_recording | upload.

Record AttachmentItem := {
  ai_id : jstring; memberIds : list jstring; ai_filename : jstring; category : FileCategory; ai_mimeType : jstring; thumbnailUrl : jstring;
  ai_sourceUrl : jstring; ai_size : Z; isLocal : bool; isVoiceNote : bool; ai_audioMeta : option Z }.
Record LocalFile := {
  file_name : jstring; file_type : jstring; file_size : Z; previewUrl : jstring; origin : option file_origin; audioMeta : option Z;
  local_motion : option MotionMedia }.

(** [/^(?:voice-(?:recording|note)|audio-recording)-(\d{8})-(\d{4,6})/i]. *)
Definition AUDIO_RECORDING_FILENAME_RE : re :=
  (StartOf false +++ ((case_text (u "voice-") +++ (case_text (u "recording") ||| case_text (u "note"))) ||| case_text (u "audio-recording"))
   +++ char 45 +++ Group 1 (between 8 8 (Chars is_digit)) +++ char 45 +++ Group 2 (between 4 6 (Chars is_digit)))%re.
Definition isAudioRecordingFilename (s : jstring) : bool := test false AUDIO_RECORDING_FILENAME_RE s.
Definition getAudioRecordingTimeLabel (s : jstring) : option jstring :=
  m ← exec_from false AUDIO_RECORDING_FILENAME_RE s 0;
  timePart ← capture s m 2;
  if (length timePart =? 4)%nat then Some (slice timePart 0 2 ++ [58] ++ slice timePart 2 4)
  else if (length timePart =? 6)%nat then Some (slice timePart 0 2 ++ [58] ++ slice timePart 2 4 ++ [58] ++ slice timePart 4 6)
  else None.

Definition categorizeFile (mimeType : jstring) (motion : option MotionMedia) : FileCategory :=
  match motion with
  | Some _ => motion_file
  | None =>
      if starts_with mimeType (u "image/") then image_file else if starts_with mimeType (u "video/") then video_file
      else if starts_with mimeType (u "audio/") then audio_file else document_file
  end.
Definition is_audio (c : FileCategory) : bool := bool_decide (c = audio_file).

Section Items.
Context {page : WebPage} {params : UrlParams} (size_of : Attachment -> Z).

Definition attachmentGroupToItem (a : Attachment) : option AttachmentItem :=
  let sourceUrl := getAttachmentUrl a in
  thumbnail ← (if js_eqb (getAttachmentType a) (u "image/*") then getAttachmentThumbnailUrl a else Some sourceUrl);
  Some {| ai_id := att_name a; memberIds := [att_name a]; ai_filename := filename a; category := categorizeFile (mime_type a) None;
          ai_mimeType := mime_type a; thumbnailUrl := thumbnail; ai_sourceUrl := sourceUrl; ai_size := size_of a; isLocal := false;
          isVoiceNote := is_audio (categorizeFile (mime_type a) None) && isAudioRecordingFilename (filename a); ai_audioMeta := None |}.
Definition category_of (k : visual_kind) : FileCategory := match k with motion_item => motion_file | image_item => image_file | video_item => video_file end.
Definition visualItemToAttachmentItem (item : AttachmentVisualItem) : AttachmentItem := {|
  ai_id := MediaItem.id item; memberIds := attachmentNames item; ai_filename := item_filename item; category := category_of (kind item);
  ai_mimeType := item_mimeType item; thumbnailUrl := posterUrl item; ai_sourceUrl := item_sourceUrl item;
  ai_size := foldl (fun total a => total + size_of a) 0 (attachments item); isLocal := false; isVoiceNote := false; ai_audioMeta := None |}.

(** [motionMedia?.groupId], when it is not empty. *)
Definition local_group (f : LocalFile) : option jstring := m ← local_motion f; match groupId m with [] => None | g => Some g end.
Definition fileToItem (f : LocalFile) : AttachmentItem := {|
  ai_id := default (previewUrl f) (local_group f); memberIds := [previewUrl f]; ai_filename := file_name f;
  category := categorizeFile (file_type f) (local_motion f); ai_mimeType := file_type f; thumbnailUrl := previewUrl f; ai_sourceUrl := previewUrl f;
  ai_size := file_size f; isLocal := true;
  isVoiceNote := is_audio (categorizeFile (file_type f) (local_motion f))
    && (match origin f with Some audio_recording => true | _ => false end || isAudioRecordingFilename (file_name f));
  ai_audioMeta := audioMeta f |}.

(** ** Files not yet uploaded *)

Definition local_is (r : MotionMediaRole) (f : LocalFile) : bool :=
  match local_motion f with Some m => bool_decide (family m = APPLE_LIVE_PHOTO) && bool_decide (role m = r) | None => false end.
(** The map of the loop, in the order its keys were set, and the files of no group. *)
Fixpoint put_in_group (g : jstring) (f : LocalFile) (grouped : list (jstring * list LocalFile)) : list (jstring * list LocalFile) :=
  match grouped with
  | [] => [(g, [f])]
  | (g', group) :: rest => if js_eqb g' g then (g', group ++ [f]) :: rest else (g', group) :: put_in_group g f rest
  end.
Definition group_local (st : list (jstring * list LocalFile) * list AttachmentItem) (f : LocalFile) : list (jstring * list LocalFile) * list AttachmentItem :=
  match local_group f with None => (st.1, st.2 ++ [fileToItem f]) | Some g => (put_in_group g f st.1, st.2) end.
Definition motion_pair (files : list LocalFile) : option (LocalFile * LocalFile) :=
  still ← js_find (local_is STILL) files; clip ← js_find (local_is VIDEO) files; if (length files =? 2)%nat then Some (still, clip) else None.
Definition group_to_items (entry : jstring * list LocalFile) : list AttachmentItem :=
  match motion_pair entry.2 with
  | Some (still, clip) =>
      [{| ai_id := entry.1; memberIds := [previewUrl still; previewUrl clip]; ai_filename := file_name still; category := motion_file;
          ai_mimeType := file_type still; thumbnailUrl := previewUrl still; ai_sourceUrl := previewUrl clip;
          ai_size := file_size still + file_size clip; isLocal := true; isVoiceNote := false; ai_audioMeta := None |}]
  | None => map fileToItem entry.2
  end.
Definition toLocalMotionItems (localFiles : list LocalFile) : list AttachmentItem :=
  let '(grouped, singles) := foldl group_local ([], []) localFiles in (grouped ≫= group_to_items) ++ singles.

(** ** The whole list *)

Definition is_visual_attachment (a : Attachment) : bool :=
  js_eqb (getAttachmentType a) (u "image/*") || js_eqb (getAttachmentType a) (u "video/*") || match motionMedia a with Some _ => true | None => false end.
Definition is_plain (item : AttachmentItem) : bool := is_audio (category item) || bool_decide (category item = document_file).
Definition toAttachmentItems (l : list Attachment) (localFiles : list LocalFile) : option (list AttachmentItem) :=
  visual ← buildAttachmentVisualItems (js_filter is_visual_attachment l);
  let attachmentVisualIds := visual ≫= attachmentNames in
  plain ← mapM attachmentGroupToItem (js_filter (fun a => negb (bool_decide (att_name a ∈ attachmentVisualIds))) l);
  Some (map visualItemToAttachmentItem visual ++ js_filter is_plain plain ++ toLocalMotionItems localFiles).

Definition filterByCategory (items : list AttachmentItem) (categories : list FileCategory) : list AttachmentItem :=
  js_filter (fun item => bool_decide (category item ∈ categories)) items.
Definition is_media (item : AttachmentItem) : bool := match category item with image_file | video_file | motion_file => true | _ => false end.
Definition separateMediaAndDocs (items : list AttachmentItem) : list AttachmentItem * list AttachmentItem :=
  foldl (fun acc item => if is_media item then (acc.1 ++ [item], acc.2) else (acc.1, acc.2 ++ [item])) ([], []) items.
End Items.

(** ** Files picked together *)

Section Pairing.
Context `{HostUnicode} (uuidv4 : nat -> jstring).

Definition normalizeFilenameStem (s : jstring) : jstring :=
  let parts := split_on 46 s in
  if (length parts <=? 1)%nat then to_lower s else to_lower (join [46] (removelast parts)).
Definition stem_of (f : LocalFile) : jstring := normalizeFilenameStem (file_name f).
Definition stem_group (l : list LocalFile) (stem : jstring) : list LocalFile := js_filter (fun f => js_eqb (stem_of f) stem) l.
Definition is_image_file (f : LocalFile) : bool := starts_with (file_type f) (u "image/").
Definition is_video_file (f : LocalFile) : bool := starts_with (file_type f) (u "video/").
Definition buildLocalMotionMedia (g : jstring) (r : MotionMediaRole) : MotionMedia :=
  {| family := APPLE_LIVE_PHOTO; role := r; groupId := g; presentationTimestampUs := 0; hasEmbeddedVideo := false |}.
Definition with_motion (m : MotionMedia) (f : LocalFile) : LocalFile :=
  {| file_name := file_name f; file_type := file_type f; file_size := file_size f; previewUrl := previewUrl f; origin := origin f;
     audioMeta := audioMeta f; local_motion := Some m |}.
(** The one image and the one video of a group. *)
Definition stem_pair (group : list LocalFile) : option (LocalFile * LocalFile) :=
  match js_filter is_image_file group, js_filter is_video_file group with [still], [clip] => Some (still, clip) | _, _ => None end.
(** The callback of the [map]: the ids given so far, in the order of the calls of [uuidv4]. *)
Definition pair_file (l : list LocalFile) (groupIds : list (jstring * jstring)) (f : LocalFile) : list (jstring * jstring) * LocalFile :=
  match stem_pair (stem_group l (stem_of f)) with
  | None => (groupIds, f)
  | Some (still, clip) =>
      let found := snd <$> js_find (fun e => js_eqb e.1 (stem_of f)) groupIds in
      let g := default (stem_of f ++ [45] ++ uuidv4 (length groupIds)) found in
      let groupIds := match found with Some _ => groupIds | None => groupIds ++ [(stem_of f, g)] end in
      (groupIds,
       if js_eqb (previewUrl f) (previewUrl still) then with_motion (buildLocalMotionMedia g STILL) f
       else if js_eqb (previewUrl f) (previewUrl clip) then with_motion (buildLocalMotionMedia g VIDEO) f else f)
  end.
Fixpoint pair_files (all : list LocalFile) (groupIds : list (jstring * jstring)) (l : list LocalFile) : list LocalFile :=
  match l with
  | [] => []
  | f :: l' => let '(groupIds', f') := pair_file all groupIds f in f' :: pair_files all groupIds' l'
  end.
Definition pairAppleLivePhotoFiles (localFiles : list LocalFile) : list LocalFile := pair_files localFiles [] localFiles.

(** A picked file: its name, type and size; [createBlobUrl] gives its preview. *)
Record picked := { picked_name : jstring; picked_type : jstring; picked_size : Z }.
Definition toLocalFiles (createBlobUrl : nat -> jstring) (files : list picked) : list LocalFile :=
  pairAppleLivePhotoFiles (imap (fun i f => {| file_name := picked_name f; file_type := picked_type f; file_size := picked_size f;
    previewUrl := createBlobUrl i; origin := Some upload; audioMeta := None; local_motion := None |}) files).
End Pairing.

(** ** Grouping *)

Definition local_members (l : list LocalFile) (g : jstring) : list LocalFile := js_filter (fun f => bool_decide (local_group f = Some g)) l.
Definition is_single (f : LocalFile) : bool := match local_group f with None => true | Some _ => false end.

Lemma put_in_group_map g f (F : jstring -> list LocalFile) ks : NoDup ks ->
  put_in_group g f (map (fun k => (k, F k)) ks)
  = if decide (g ∈ ks) then map (fun k => (k, if decide (k = g) then F k ++ [f] else F k)) ks else map (fun k => (k, F k)) ks ++ [(g, [f])].
Proof.
  induction 1 as [|k ks Hk _ IH]; [done|]. cbn [map put_in_group]. rewrite IH. destruct (js_eqb k g) eqn:E.
  - apply js_eqb_true in E as ->. rewrite decide_True by (by left). f_equal; [by rewrite decide_True|].
    apply map_ext_in. intros k Hin. rewrite decide_False; [done|]. intros ->. by apply Hk, list_elem_of_In.
  - apply js_eqb_false in E. destruct (decide (g ∈ ks)) as [Hg|Hg].
    + rewrite decide_True by (by right). f_equal. by rewrite decide_False.
    + rewrite decide_False; [done|]. intros [?|?]%elem_of_cons; by auto.
Qed.
Lemma grouped_local l :
  foldl group_local ([], []) l
  = (map (fun g => (g, local_members l g)) (dedup (omap local_group l)), map fileToItem (js_filter is_single l)).
Proof.
  induction l as [|f l IH] using rev_ind; [done|]. rewrite foldl_app. cbn [foldl]. rewrite IH. unfold group_local, is_single. cbn [fst snd].
  rewrite omap_app, !js_filter_app. cbn [omap list_omap js_filter]. destruct (local_group f) as [g|] eqn:Eg; cbn [omap list_omap js_filter].
  - rewrite app_nil_r. f_equal. rewrite put_in_group_map by apply NoDup_dedup. rewrite dedup_snoc.
    assert (forall k, local_members (l ++ [f]) k = local_members l k ++ (if decide (k = g) then [f] else [])) as Hm.
    { intros k. unfold local_members. rewrite js_filter_app. cbn [js_filter]. rewrite Eg. f_equal. destruct (decide (k = g)) as [->|]; [by rewrite bool_decide_eq_true_2|].
      by rewrite bool_decide_eq_false_2 by congruence. }
    destruct (decide (g ∈ dedup (omap local_group l))) as [Hin|Hout].
    + apply map_ext. intros k. rewrite Hm. f_equal. destruct (decide (k = g)); [done|]. by rewrite app_nil_r.
    + rewrite map_app. cbn [map]. f_equal.
      * apply map_ext_in. intros k Hk%list_elem_of_In. rewrite Hm. f_equal. rewrite decide_False by (intros ->; done). by rewrite app_nil_r.
      * do 2 f_equal. rewrite Hm, decide_True by done. replace (local_members l g) with (@nil LocalFile); [done|]. symmetry.
        clear IH Hm. unfold local_members. destruct (js_filter _ l) as [|f' l'] eqn:Ef; [done|]. exfalso. apply Hout, elem_of_dedup, list_elem_of_omap.
        assert (f' ∈ f' :: l') as Hf by (by left). rewrite <- Ef in Hf. apply js_filter_In in Hf as [Hf Hg]. apply bool_decide_eq_true in Hg. by exists f'.
  - rewrite app_nil_r. f_equal.
    + apply map_ext. intros k. f_equal. unfold local_members. rewrite js_filter_app. cbn [js_filter]. rewrite Eg, bool_decide_eq_false_2 by done. by rewrite app_nil_r.
    + by rewrite map_app.
Qed.

(** Filters that exclude each other take a list apart. *)
Lemma js_filter_split {A} (p q r : A -> bool) l : (forall x, x ∈ l -> r x = p x || q x /\ (p x && q x) = false) ->
  js_filter r l ≡ₚ js_filter p l ++ js_filter q l.
Proof.
  induction l as [|x l IH]; intros H; [done|]. cbn [js_filter]. destruct (H x) as [Hr Hpq]; [by left|]. rewrite Hr.
  specialize (IH ltac:(intros y Hy; apply H; by right)). destruct (p x), (q x); cbn in *; try done; rewrite IH; [done|]. by rewrite Permutation_middle.
Qed.
Lemma grouped_perm l ks : NoDup ks ->
  concat (map (local_members l) ks) ≡ₚ js_filter (fun f => match local_group f with Some g => bool_decide (g ∈ ks) | None => false end) l.
Proof.
  induction 1 as [|k ks Hk _ IH].
  - cbn. induction l as [|f l IH]; [done|]. cbn. destruct (local_group f); [|done]. by rewrite bool_decide_eq_false_2 by apply not_elem_of_nil.
  - cbn [map concat]. rewrite IH. symmetry. apply js_filter_split. intros f _. destruct (local_group f) as [g|]; [|by rewrite bool_decide_eq_false_2].
    destruct (decide (g = k)) as [->|Hne].
    + rewrite (bool_decide_eq_true_2 (k ∈ k :: ks)) by (by left). rewrite (bool_decide_eq_true_2 (Some k = Some k)) by done. by rewrite (bool_decide_eq_false_2 (k ∈ ks)).
    + rewrite (bool_decide_eq_false_2 (Some g = Some k)) by congruence. cbn. split; [|done]. apply bool_decide_ext. rewrite elem_of_cons. tauto.
Qed.

Lemma local_is_role r f : local_is r f = true -> exists m, local_motion f = Some m /\ role m = r.
Proof. unfold local_is. destruct (local_motion f) as [m|]; [|done]. rewrite andb_true_iff, !bool_decide_eq_true. intros [_ ?]. by exists m. Qed.
Lemma motion_pair_perm files s c : motion_pair files = Some (s, c) -> files ≡ₚ [s; c] /\ local_is STILL s = true /\ local_is VIDEO c = true.
Proof.
  unfold motion_pair. destruct (js_find (local_is STILL) files) as [s'|] eqn:Es; [|done]. cbn [mbind option_bind].
  destruct (js_find (local_is VIDEO) files) as [c'|] eqn:Ec; [|done]. cbn [mbind option_bind]. destruct (length files =? 2)%nat eqn:El; [|done]. intros [= <- <-].
  apply js_find_Some in Es as [Hs Hs']. apply js_find_Some in Ec as [Hc Hc']. split; [|done].
  assert (s' <> c') as Hne. { intros ->. apply local_is_role in Hs' as (m & E1 & E2). apply local_is_role in Hc' as (m' & E3 & E4). congruence. }
  apply Nat.eqb_eq in El. destruct files as [|x [|y [|z ms]]]; try (cbn in El; lia). rewrite !elem_of_cons, elem_of_nil in Hs, Hc.
  destruct Hs as [->|[->|[]]], Hc as [->|[->|[]]]; try done. apply Permutation_swap.
Qed.
Lemma group_members g files : group_to_items (g, files) ≫= memberIds ≡ₚ map previewUrl files.
Proof.
  unfold group_to_items. cbn [fst snd]. destruct (motion_pair files) as [[s c]|] eqn:E.
  - destruct (motion_pair_perm _ _ _ E) as [Hp _]. cbn. by rewrite Hp.
  - clear. induction files as [|f files IH]; [done|]. cbn. constructor. exact IH.
Qed.
Lemma local_items_perm l : toLocalMotionItems l ≫= memberIds ≡ₚ map previewUrl l.
Proof.
  unfold toLocalMotionItems. rewrite grouped_local. rewrite bind_app.
  transitivity (map previewUrl (concat (map (local_members l) (dedup (omap local_group l)))) ++ map previewUrl (js_filter is_single l)).
  - apply Permutation_app.
    + induction (dedup (omap local_group l)) as [|g gs IH]; [done|]. cbn [map concat mbind list_bind]. rewrite bind_app, map_app.
      apply Permutation_app; [apply group_members|exact IH].
    + generalize (js_filter is_single l) as fs. induction fs as [|f fs IH]; [done|]. cbn. by constructor.
  - rewrite <- map_app. apply Permutation_map. rewrite grouped_perm by apply NoDup_dedup. symmetry.
    transitivity (js_filter (fun _ : LocalFile => true) l); [by rewrite js_filter_true|]. apply js_filter_split. intros f Hf. unfold is_single.
    destruct (local_group f) as [g|] eqn:Eg; [|done]. rewrite bool_decide_eq_true_2; [done|]. apply elem_of_dedup, list_elem_of_omap. by exists f.
Qed.

(** ** Everything is listed *)

Section Listed.
Context {page : WebPage} {params : UrlParams} (size_of : Attachment -> Z).

(** A Photoshop file is no image to the gallery but one to [categorizeFile]. *)
Definition unlisted (a : Attachment) : bool := negb (is_visual_attachment a) && isPSD (mime_type a).

Lemma plain_category a item : attachmentGroupToItem size_of a = Some item -> category item = categorizeFile (mime_type a) None /\ memberIds item = [att_name a].
Proof. unfold attachmentGroupToItem. destruct (if js_eqb _ _ then _ else _); [|done]. by intros [= <-]. Qed.
Lemma plain_listed a item : attachmentGroupToItem size_of a = Some item -> is_visual_attachment a = false -> is_plain item = negb (isPSD (mime_type a)).
Proof.
  intros Hi Hv. destruct (plain_category a item Hi) as [Hc _]. unfold is_plain, is_audio. rewrite Hc. clear Hc Hi item.
  unfold is_visual_attachment in Hv. apply orb_false_iff in Hv as [[Hv1 Hv2]%orb_false_iff _]. unfold getAttachmentType in Hv1, Hv2. unfold isImage in *.
  destruct (isPSD (mime_type a)) eqn:Ep.
  - unfold isPSD in Ep. apply orb_true_iff in Ep as [[Ep|Ep]%orb_true_iff|Ep]; apply js_eqb_true in Ep; rewrite Ep; vm_compute; reflexivity.
  - rewrite andb_true_r in Hv1, Hv2. unfold categorizeFile. destruct (starts_with (mime_type a) (u "image/")); [by cbn in Hv1|].
    destruct (starts_with (mime_type a) (u "video")) eqn:Ev; [by cbn in Hv2|]. destruct (starts_with (mime_type a) (u "video/")) eqn:Ev'.
    { exfalso. apply starts_with_spec in Ev' as [rest E]. apply not_true_iff_false in Ev. apply Ev, starts_with_spec. exists ([47] ++ rest). by rewrite E, app_assoc. }
    by destruct (starts_with (mime_type a) (u "audio/")).
Qed.
Lemma visual_link_ok a : link_ok a -> exists item, attachmentGroupToItem size_of a = Some item.
Proof.
  intros H. unfold attachmentGroupToItem. destruct (thumbnail_ok a H) as [url ->]. destruct (js_eqb _ _); by eexists.
Qed.

Lemma visual_members visual : map (visualItemToAttachmentItem size_of) visual ≫= memberIds = visual ≫= attachmentNames.
Proof. induction visual as [|it its IH]; [done|]. cbn. f_equal. exact IH. Qed.
Lemma plain_members rest plain : mapM (attachmentGroupToItem size_of) rest = Some plain -> (forall a, a ∈ rest -> is_visual_attachment a = false) ->
  js_filter is_plain plain ≫= memberIds = map att_name (js_filter (fun a => negb (isPSD (mime_type a))) rest).
Proof.
  intros Hm Hv. apply mapM_Some_1 in Hm. induction Hm as [|a item rest plain Hi _ IH]; [done|]. cbn [js_filter].
  rewrite (plain_listed a item Hi) by (apply Hv; by left). destruct (plain_category a item Hi) as [_ Hmem].
  specialize (IH ltac:(intros b Hb; apply Hv; by right)). destruct (isPSD (mime_type a)); cbn [negb]; [exact IH|].
  cbn [mbind list_bind map]. rewrite Hmem. cbn. f_equal. exact IH.
Qed.

(** C29. The editor lists everything once: from attachments with names of their own, the
    names and previews of the items are those of the attachments, Photoshop files excepted,
    and of the local files, each exactly once; the list is always made when the external
    links are URLs. *)
Theorem editor_lists_everything (l : list Attachment) (files : list LocalFile) (Hok : names_ok l) (Hlinks : forall a, a ∈ l -> link_ok a) :
  exists items, toAttachmentItems size_of l files = Some items
    /\ items ≫= memberIds ≡ₚ map att_name (js_filter (fun a => negb (unlisted a)) l) ++ map previewUrl files.
Proof.
  set (vl := js_filter is_visual_attachment l).
  assert (forall a, a ∈ vl -> a ∈ l) as Hsub by (intros a Ha; by apply js_filter_In in Ha as [Ha _]).
  assert (names_ok vl) as Hvok.
  { destruct Hok as [Hn Hg]. split; [|intros a b g Ha Hb; apply Hg; by apply Hsub]. eapply sublist_NoDup; [exact Hn|]. apply fmap_sublist, js_filter_sublist. }
  destruct (gallery_total vl) as [visual Hvis]; [intros a Ha; apply Hlinks; by apply Hsub|].
  destruct (built_items vl visual Hvok Hvis) as (Hshows & _ & _). pose proof (gallery_perm vl visual Hvok Hvis) as Hperm.
  assert (visual ≫= attachmentNames ≡ₚ map att_name vl) as Hnames.
  { rewrite <- Hperm. clear -Hshows. induction Hshows as [|it its (a & _ & _ & _ & Hn) _ IH]; [done|]. cbn [mbind list_bind fmap list_fmap concat]. rewrite map_app, Hn.
    by apply Permutation_app. }
  unfold toAttachmentItems. fold vl. rewrite Hvis. cbn [mbind option_bind].
  set (rest := js_filter (fun a => negb (bool_decide (att_name a ∈ visual ≫= attachmentNames))) l).
  assert (rest = js_filter (fun a => negb (is_visual_attachment a)) l) as Hrest.
  { apply js_filter_ext. intros a Ha. f_equal. apply eq_bool_prop_intro. rewrite bool_decide_spec, Hnames, Is_true_true. rewrite list_elem_of_fmap. split.
    - intros (b & E & Hb). apply js_filter_In in Hb as [Hb Hv]. by rewrite (names_inj l a b (proj1 Hok) Ha Hb E).
    - intros Hv. exists a. split; [done|]. by apply js_filter_In. }
  destruct (mapM (attachmentGroupToItem size_of) rest) as [plain|] eqn:Em.
  2: { apply mapM_None, Exists_exists in Em as (a & Ha & E). destruct (visual_link_ok a) as [item E']; [|congruence]. apply Hlinks. rewrite Hrest in Ha. by apply js_filter_In in Ha as [Ha _]. }
  cbn [mbind option_bind]. eexists. split; [reflexivity|]. rewrite !bind_app.
  rewrite app_assoc. apply Permutation_app; [|apply local_items_perm]. rewrite visual_members, Hnames.
  rewrite (plain_members rest plain Em) by (intros a Ha; rewrite Hrest in Ha; apply js_filter_In in Ha as [_ Ha]; by apply negb_true_iff).
  rewrite Hrest, js_filter_filter, <- map_app. apply Permutation_map. symmetry. apply js_filter_split. intros a _. unfold unlisted.
  by destruct (is_visual_attachment a), (isPSD (mime_type a)).
Qed.
End Listed.

(** ** Live photos picked together *)

Section Paired.
Context `{HostUnicode} (uuidv4 : nat -> jstring).

(** A file after pairing, with the final ids. *)
Definition group_id (G : list (jstring * jstring)) (stem : jstring) : jstring := default [] (snd <$> js_find (fun e => js_eqb e.1 stem) G).
Definition paired_with (G : list (jstring * jstring)) (all : list LocalFile) (f : LocalFile) : LocalFile :=
  match stem_pair (stem_group all (stem_of f)) with
  | None => f
  | Some (still, clip) =>
      if js_eqb (previewUrl f) (previewUrl still) then with_motion (buildLocalMotionMedia (group_id G (stem_of f)) STILL) f
      else if js_eqb (previewUrl f) (previewUrl clip) then with_motion (buildLocalMotionMedia (group_id G (stem_of f)) VIDEO) f else f
  end.
Definition ids_good (G : list (jstring * jstring)) : Prop :=
  NoDup (map fst G) /\ forall i e, G !! i = Some e -> e.2 = e.1 ++ [45] ++ uuidv4 i.

Lemma found_key (G G' : list (jstring * jstring)) s e : js_find (fun e => js_eqb e.1 s) G = Some e -> js_find (fun e => js_eqb e.1 s) (G ++ G') = Some e.
Proof. induction G as [|x G IH]; [done|]. cbn. by destruct (js_eqb x.1 s). Qed.
Lemma new_key (G G' : list (jstring * jstring)) s g : js_find (fun e => js_eqb e.1 s) G = None -> js_find (fun e => js_eqb e.1 s) (G ++ (s, g) :: G') = Some (s, g).
Proof. induction G as [|x G IH]; cbn; [by rewrite js_eqb_refl|]. by destruct (js_eqb x.1 s). Qed.

Lemma pair_files_spec all l G0 : ids_good G0 ->
  exists G', ids_good (G0 ++ G') /\ pair_files uuidv4 all G0 l = map (paired_with (G0 ++ G') all) l
  /\ (forall f still clip, f ∈ l -> stem_pair (stem_group all (stem_of f)) = Some (still, clip) -> exists e, js_find (fun e => js_eqb e.1 (stem_of f)) (G0 ++ G') = Some e)
  /\ (length G' <= length l)%nat.
Proof.
  revert G0. induction l as [|f l IH]; intros G0 HG.
  { exists []. rewrite app_nil_r. split; [done|]. split; [done|]. split; [by intros f still clip ?%elem_of_nil|done]. }
  cbn [pair_files map]. unfold pair_file. destruct (stem_pair (stem_group all (stem_of f))) as [[still clip]|] eqn:Ep.
  2: { destruct (IH G0 HG) as (G' & H1 & H2 & H3 & H4). exists G'. split; [done|]. split; [f_equal; [|done]; unfold paired_with; by rewrite Ep|].
       split; [|cbn; lia]. intros f' s c [->|Hf]%elem_of_cons E; [congruence|]. by eapply H3. }
  destruct (js_find (fun e => js_eqb e.1 (stem_of f)) G0) as [[k g]|] eqn:Ef; cbn [fmap option_fmap option_map snd default from_option id].
  - destruct (IH G0 HG) as (G' & H1 & H2 & H3 & H4). exists G'. split; [done|]. pose proof (found_key G0 G' _ _ Ef) as Ef'. split.
    + f_equal; [|done]. unfold paired_with, group_id. rewrite Ep, Ef'. done.
    + split; [|cbn; lia]. intros f' s c [->|Hf]%elem_of_cons E; [by eexists|]. by eapply H3.
  - set (g := stem_of f ++ [45] ++ uuidv4 (length G0)).
    destruct (IH (G0 ++ [(stem_of f, g)])) as (G' & H1 & H2 & H3 & H4).
    { destruct HG as [N1 N2]. split.
      - rewrite map_app. apply NoDup_app. split; [done|]. split; [|apply NoDup_singleton]. intros x Hx ->%list_elem_of_singleton.
        apply list_elem_of_fmap in Hx as (e & E & He). rewrite js_find_None in Ef. apply Ef in He. cbn in E. rewrite E in He. by rewrite js_eqb_refl in He.
      - intros i e [E|[Hlen E]]%lookup_app_Some; [by apply N2|]. destruct (i - length G0)%nat as [|n] eqn:En; [|by destruct n]. injection E as <-. cbn.
        by replace i with (length G0) by lia. }
    rewrite <- app_assoc in H1, H2, H3. cbn [app] in H1, H2, H3. exists ((stem_of f, g) :: G'). split; [done|].
    pose proof (new_key G0 G' (stem_of f) g Ef) as Ef'. split.
    + f_equal; [|done]. unfold paired_with, group_id. by rewrite Ep, Ef'.
    + split; [|cbn; lia]. intros f' s c [->|Hf]%elem_of_cons E; [by eexists|]. by eapply H3.
Qed.

(** The uuids of the calls made are distinct and of one length. *)
Context (calls : nat) (Huuid_length : forall i j, (i < calls)%nat -> (j < calls)%nat -> length (uuidv4 i) = length (uuidv4 j))
  (Huuid_fresh : forall i j, (i < calls)%nat -> (j < calls)%nat -> uuidv4 i = uuidv4 j -> i = j).

Lemma group_id_inj G s s' e e' : ids_good G -> (length G <= calls)%nat -> js_find (fun e => js_eqb e.1 s) G = Some e -> js_find (fun e => js_eqb e.1 s') G = Some e' ->
  group_id G s = group_id G s' -> s = s'.
Proof.
  intros [_ HG] Hcalls E E'. unfold group_id. rewrite E, E'. cbn. apply js_find_Some in E as [Hin He%js_eqb_true], E' as [Hin' He'%js_eqb_true].
  apply list_elem_of_lookup in Hin as [i Hi], Hin' as [j Hj]. rewrite (HG i e Hi), (HG j e' Hj). intros Heq.
  apply lookup_lt_Some in Hi as Hil, Hj as Hjl.
  assert (length (e.1 ++ [45]) = length (e'.1 ++ [45])) as Hlen.
  { apply (f_equal length) in Heq. rewrite !length_app in *. cbn in *. pose proof (Huuid_length i j ltac:(lia) ltac:(lia)). lia. }
  rewrite !app_assoc in Heq. apply app_inj_1 in Heq as [_ Heq]; [|done]. apply Huuid_fresh in Heq as ->; [congruence|lia|lia].
Qed.
Lemma group_id_nonempty G s e : ids_good G -> js_find (fun e => js_eqb e.1 s) G = Some e -> group_id G s <> [].
Proof.
  intros [_ HG] E. unfold group_id. rewrite E. cbn. apply js_find_Some in E as [Hin _]. apply list_elem_of_lookup in Hin as [i Hi]. rewrite (HG i e Hi). by destruct (e.1).
Qed.

Lemma stem_pair_spec group still clip : stem_pair group = Some (still, clip) ->
  still ∈ group /\ clip ∈ group /\ is_image_file still = true /\ is_video_file clip = true.
Proof.
  unfold stem_pair. destruct (js_filter is_image_file group) as [|s [|]] eqn:Es; try done. destruct (js_filter is_video_file group) as [|c [|]] eqn:Ec; try done.
  intros [= <- <-]. assert (s ∈ js_filter is_image_file group) as [H1 H2]%js_filter_In by (rewrite Es; by left).
  assert (c ∈ js_filter is_video_file group) as [H3 H4]%js_filter_In by (rewrite Ec; by left). done.
Qed.
Lemma image_not_video f : is_image_file f = true -> is_video_file f = false.
Proof.
  unfold is_image_file, is_video_file. intros [rest E]%starts_with_spec. rewrite E. reflexivity.
Qed.

Lemma same_preview l f f' : NoDup (map previewUrl l) -> f ∈ l -> f' ∈ l -> js_eqb (previewUrl f) (previewUrl f') = true -> f = f'.
Proof.
  intros Hn Hf Hf' E%js_eqb_true. apply list_elem_of_lookup in Hf as [i Hi], Hf' as [j Hj].
  assert (i = j) as ->; [|congruence]. apply (NoDup_lookup (map previewUrl l) i j (previewUrl f) Hn); rewrite list_lookup_fmap; [by rewrite Hi|by rewrite Hj, E].
Qed.

(** The picked files: no motion yet, previews of their own; [G] holds the ids given. *)
Record picked_ok (l : list LocalFile) (G : list (jstring * jstring)) : Prop := {
  po_fresh : forall f, f ∈ l -> local_motion f = None;
  po_urls : NoDup (map previewUrl l);
  po_ids : ids_good G;
  po_calls : (length G <= calls)%nat;
  po_keys : forall f still clip, f ∈ l -> stem_pair (stem_group l (stem_of f)) = Some (still, clip) -> exists e, js_find (fun e => js_eqb e.1 (stem_of f)) G = Some e }.

Lemma pair_members l s a b : stem_pair (stem_group l s) = Some (a, b) -> a ∈ l /\ b ∈ l /\ stem_of a = s /\ stem_of b = s /\ a <> b.
Proof.
  intros E. destruct (stem_pair_spec _ _ _ E) as (Ha & Hb & Hi & Hv). apply js_filter_In in Ha as [Ha Ea%js_eqb_true], Hb as [Hb Eb%js_eqb_true].
  split_and!; try done. intros ->. apply image_not_video in Hi. congruence.
Qed.
Lemma tag_url G l f : previewUrl (paired_with G l f) = previewUrl f.
Proof. unfold paired_with. destruct (stem_pair _) as [[a b]|]; [|done]. destruct (js_eqb _ _); [done|]. by destruct (js_eqb _ _). Qed.
Lemma tag_pair G l s a b : picked_ok l G -> stem_pair (stem_group l s) = Some (a, b) ->
  local_motion (paired_with G l a) = Some (buildLocalMotionMedia (group_id G s) STILL)
  /\ local_motion (paired_with G l b) = Some (buildLocalMotionMedia (group_id G s) VIDEO).
Proof.
  intros [_ Hu _ _ _] E. destruct (pair_members l s a b E) as (Ha & Hb & <- & Eb & Hne). unfold paired_with. rewrite Eb, E, !js_eqb_refl. split; [done|].
  destruct (js_eqb (previewUrl b) (previewUrl a)) eqn:Eab; [|done]. exfalso. apply Hne. symmetry. by apply (same_preview l).
Qed.
Lemma tag_group G l f g : picked_ok l G -> f ∈ l -> local_group (paired_with G l f) = Some g ->
  exists a b, stem_pair (stem_group l (stem_of f)) = Some (a, b) /\ (f = a \/ f = b) /\ g = group_id G (stem_of f).
Proof.
  intros [Hf Hu Hi _ Hk] Hin. unfold paired_with. destruct (stem_pair (stem_group l (stem_of f))) as [[a b]|] eqn:E; [|unfold local_group; by rewrite Hf].
  destruct (pair_members l _ a b E) as (Ha & Hb & _). destruct (Hk f a b Hin E) as [e He]. pose proof (group_id_nonempty G _ e Hi He) as Hne.
  intros Hg. exists a, b. split; [done|]. destruct (js_eqb (previewUrl f) (previewUrl a)) eqn:E1; [|destruct (js_eqb (previewUrl f) (previewUrl b)) eqn:E2].
  - split; [left; by apply (same_preview l)|]. unfold local_group in Hg. cbn in Hg. destruct (group_id G (stem_of f)); [done|]. by injection Hg as <-.
  - split; [right; by apply (same_preview l)|]. unfold local_group in Hg. cbn in Hg. destruct (group_id G (stem_of f)); [done|]. by injection Hg as <-.
  - unfold local_group in Hg. by rewrite Hf in Hg.
Qed.
Lemma pair_group G l s a b : picked_ok l G -> stem_pair (stem_group l s) = Some (a, b) ->
  local_group (paired_with G l a) = Some (group_id G s) /\ local_group (paired_with G l b) = Some (group_id G s).
Proof.
  intros Hok E. destruct (tag_pair G l s a b Hok E) as [Ma Mb]. destruct (pair_members l s a b E) as (Ha & _ & Es & _). destruct Hok as [_ _ Hi Hc Hk].
  rewrite <- Es in E. destruct (Hk a a b Ha E) as [e He]. pose proof (group_id_nonempty G _ e Hi He) as Hne. rewrite Es in Hne.
  unfold local_group. rewrite Ma, Mb. cbn. by destruct (group_id G s).
Qed.

Lemma local_members_map (h : LocalFile -> LocalFile) l g : local_members (map h l) g = map h (js_filter (fun f => bool_decide (local_group (h f) = Some g)) l).
Proof. unfold local_members. induction l as [|f l IH]; [done|]. cbn. destruct (bool_decide _); cbn; by rewrite IH. Qed.

(** The group of a pair holds nothing else, and becomes one item. *)
Lemma pair_item G l s a b : picked_ok l G -> stem_pair (stem_group l s) = Some (a, b) ->
  motion_pair (local_members (map (paired_with G l) l) (group_id G s)) = Some (paired_with G l a, paired_with G l b).
Proof.
  intros Hok E. set (tag := paired_with G l). destruct (pair_members l s a b E) as (Ha & Hb & Ea & Eb & Hne). destruct (pair_group G l s a b Hok E) as [Ga Gb].
  destruct (tag_pair G l s a b Hok E) as [Ma Mb].
  assert (NoDup l) as Hnd by (apply (NoDup_fmap_1 previewUrl), Hok).
  assert (local_members (map tag l) (group_id G s) = map tag (js_filter (fun f => bool_decide (local_group (tag f) = Some (group_id G s))) l)) as Hm.
  { apply local_members_map. }
  assert (js_filter (fun f => bool_decide (local_group (tag f) = Some (group_id G s))) l ≡ₚ [a; b]) as Hp.
  { apply NoDup_Permutation; [eapply sublist_NoDup; [exact Hnd|apply js_filter_sublist]| |].
    - apply NoDup_cons. split; [by rewrite list_elem_of_singleton|apply NoDup_singleton].
    - intros f. rewrite js_filter_In, bool_decide_eq_true, !elem_of_cons, elem_of_nil. split.
      + intros [Hf Hg]. destruct (tag_group G l f _ Hok Hf Hg) as (a' & b' & E' & Hor & Hid). destruct Hok as [_ _ Hi Hc Hk].
        destruct (Hk f a' b' Hf E') as [e' He']. rewrite <- Ea in E. destruct (Hk a a b Ha E) as [e He]. rewrite Ea in E, He.
        assert (s = stem_of f) as Hs by (by eapply group_id_inj). rewrite <- Hs in E'. rewrite E in E'. injection E' as <- <-. naive_solver.
      + intros [->|[->|[]]]; by auto. }
  rewrite Hm. set (ms := js_filter _ l) in *. assert (forall f, f ∈ map tag ms <-> f = tag a \/ f = tag b) as Hin.
  { intros f. rewrite list_elem_of_fmap. split.
    - intros (x & -> & Hx). rewrite Hp, !elem_of_cons, elem_of_nil in Hx. naive_solver.
    - intros [->| ->]; [exists a|exists b]; (split; [done|]); rewrite Hp; set_solver. }
  assert (local_is STILL (tag a) = true /\ local_is STILL (tag b) = false /\ local_is VIDEO (tag a) = false /\ local_is VIDEO (tag b) = true) as (S1 & S2 & S3 & S4).
  { unfold local_is, tag. rewrite Ma, Mb. done. }
  unfold motion_pair. destruct (js_find (local_is STILL) (map tag ms)) as [x|] eqn:Ex.
  2: { rewrite js_find_None in Ex. rewrite Ex in S1; [done|]. apply Hin. by left. }
  destruct (js_find (local_is VIDEO) (map tag ms)) as [y|] eqn:Ey.
  2: { rewrite js_find_None in Ey. rewrite Ey in S4; [done|]. apply Hin. by right. }
  apply js_find_Some in Ex as [[->| ->]%Hin Hx], Ey as [[->| ->]%Hin Hy]; try congruence. cbn [mbind option_bind].
  by rewrite length_map, (Permutation_length Hp).
Qed.

(** C28. A still and a clip picked together are one live photo in the editor's list, and
    nothing else is joined: for files picked with previews of their own, every pair of the
    one image and the one video of a name is one item, every other item is one file, and
    every file is in exactly one item, whatever else was picked in whatever order. *)
Theorem picked_live_photos (l : list LocalFile) (Hfresh : forall f, f ∈ l -> local_motion f = None) (Hurls : NoDup (map previewUrl l))
    (Hcalls : (length l <= calls)%nat) :
  let items := toLocalMotionItems (pairAppleLivePhotoFiles uuidv4 l) in
  (forall s still clip, stem_pair (stem_group l s) = Some (still, clip) ->
     exists item, item ∈ items /\ category item = motion_file /\ memberIds item = [previewUrl still; previewUrl clip])
  /\ (forall item, item ∈ items ->
        (exists s still clip, stem_pair (stem_group l s) = Some (still, clip) /\ memberIds item = [previewUrl still; previewUrl clip])
        \/ exists f, f ∈ l /\ memberIds item = [previewUrl f])
  /\ items ≫= memberIds ≡ₚ map previewUrl l.
Proof.
  destruct (pair_files_spec l l []) as (G & HG & Hpair & Hkeys & Hlen); [split; [constructor|by intros []]|]. cbn [app] in HG, Hpair, Hkeys.
  assert (picked_ok l G) as Hok by (by (split; try done; lia)). unfold pairAppleLivePhotoFiles. rewrite Hpair. set (tag := paired_with G l). cbv zeta. split_and!.
  - intros s a b E. destruct (pair_members l s a b E) as (Ha & _). destruct (pair_group G l s a b Hok E) as [Ga _].
    unfold toLocalMotionItems. rewrite grouped_local. pose proof (pair_item G l s a b Hok E) as Hitem. fold tag in Hitem, Ga.
    eexists. split; [apply elem_of_app; left; apply list_elem_of_bind; exists (group_id G s, local_members (map tag l) (group_id G s)); split|].
    + unfold group_to_items. cbn [fst snd]. rewrite Hitem. by left.
    + apply list_elem_of_fmap. exists (group_id G s). split; [done|]. apply elem_of_dedup, list_elem_of_omap. exists (tag a). split; [|done]. apply list_elem_of_fmap. by exists a.
    + cbn. unfold tag. by rewrite !tag_url.
  - intros item. unfold toLocalMotionItems. rewrite grouped_local. intros [Hin|Hin]%elem_of_app.
    + apply list_elem_of_bind in Hin as (e & Hin & He). apply list_elem_of_fmap in He as (g & -> & Hg). apply elem_of_dedup, list_elem_of_omap in Hg as (f' & Hf' & Hg).
      apply list_elem_of_fmap in Hf' as (f & -> & Hf). destruct (tag_group G l f g Hok Hf Hg) as (a & b & E & _ & ->). left. exists (stem_of f), a, b. split; [done|].
      unfold group_to_items in Hin. cbn [fst snd] in Hin. pose proof (pair_item G l _ a b Hok E) as Hp. fold tag in Hp. rewrite Hp in Hin. apply list_elem_of_singleton in Hin as ->. cbn. unfold tag.
      by rewrite !tag_url.
    + right. apply list_elem_of_fmap in Hin as (f' & -> & Hf'). apply js_filter_In in Hf' as [Hf' _]. apply list_elem_of_fmap in Hf' as (f & -> & Hf).
      exists f. split; [done|]. cbn. unfold tag. by rewrite tag_url.
  - rewrite local_items_perm, map_map. erewrite map_ext; [reflexivity|]. intros f. apply tag_url.
Qed.
End Paired.

(** ** Samples *)

#[export] Instance items_host : HostUnicode := ascii_host.
(** Thirty-six digits, as a uuid has characters. *)
Definition sample_uuid (n : nat) : jstring := replicate (36 - length (string_of_int (Z.of_nat n))) 48 ++ string_of_int (Z.of_nat n).
Definition picked_file (name type url : jstring) : LocalFile :=
  {| file_name := name; file_type := type; file_size := 1; previewUrl := url; origin := Some upload; audioMeta := None; local_motion := None |}.
Definition sample_files : list LocalFile :=
  [picked_file (u "IMG_1.MOV") (u "video/quicktime") (u "blob:1"); picked_file (u "notes.pdf") (u "application/pdf") (u "blob:2");
   picked_file (u "img_1.jpg") (u "image/jpeg") (u "blob:3"); picked_file (u "img_1.txt") (u "text/plain") (u "blob:4")].
Example sample_live_photo :
  map (fun item => (category item, memberIds item)) (toLocalMotionItems (pairAppleLivePhotoFiles sample_uuid sample_files))
  = [(motion_file, [u "blob:3"; u "blob:1"]); (document_file, [u "blob:2"]); (document_file, [u "blob:4"])].
Proof. vm_compute. reflexivity. Qed.
Example recording_labels :
  (getAudioRecordingTimeLabel (u "voice-note-20260102-0304.webm"), getAudioRecordingTimeLabel (u "Audio-Recording-20260102-030405.webm"),
   getAudioRecordingTimeLabel (u "voice-note-20260102-03045.webm"), isAudioRecordingFilename (u "voice-note-20260102-03045.webm"))
  = (Some (u "03:04"), Some (u "03:04:05"), None, true).
Proof. vm_compute. reflexivity. Qed.

Lemma editor_lists_everything_witness :
  exists items, toAttachmentItems (page := plain_page) (params := plain_params) (fun _ => 5) MediaItem.sample_files sample_files = Some items
  /\ map memberIds items = [[u "attachments/a"; u "attachments/b"]; [u "attachments/c"]; [u "blob:1"]; [u "blob:2"]; [u "blob:3"]; [u "blob:4"]].
Proof.
  destruct (editor_lists_everything (page := plain_page) (params := plain_params) (fun _ => 5) MediaItem.sample_files sample_files sample_names_ok) as (items & E & _).
  - intros a Ha. left. unfold MediaItem.sample_files in Ha. rewrite !elem_of_cons, elem_of_nil in Ha. destruct Ha as [->|[->|[->|[]]]]; reflexivity.
  - exists items. split; [exact E|]. vm_compute in E. injection E as <-. reflexivity.
Defined.

Lemma picked_live_photos_witness :
  exists item, item ∈ toLocalMotionItems (pairAppleLivePhotoFiles sample_uuid sample_files) /\ memberIds item = [u "blob:3"; u "blob:1"].
Proof.
  destruct (picked_live_photos sample_uuid 4) with (l := sample_files) as (H & _).
  - intros i j Hi Hj. destruct i as [|[|[|[|i]]]]; [..|lia]; destruct j as [|[|[|[|j]]]]; try lia; reflexivity.
  - intros i j Hi Hj. destruct i as [|[|[|[|i]]]]; [..|lia]; destruct j as [|[|[|[|j]]]]; try lia; try reflexivity; intros E; vm_compute in E; discriminate E.
  - intros f Hf. unfold sample_files in Hf. rewrite !elem_of_cons, elem_of_nil in Hf. destruct Hf as [->|[->|[->|[->|[]]]]]; reflexivity.
  - apply (bool_decide_unpack _). vm_compute. exact I.
  - apply le_n.
  - destruct (H (u "img_1") (picked_file (u "img_1.jpg") (u "image/jpeg") (u "blob:3")) (picked_file (u "IMG_1.MOV") (u "video/quicktime") (u "blob:1")))
      as (item & Hin & _ & Hm); [vm_compute; reflexivity|]. by exists item.
Defined.

(** A Photoshop file attached to the memo is not in the editor's list. *)
Example photoshop_unlisted :
  toAttachmentItems (page := plain_page) (params := plain_params) (fun _ => 5) [MediaItem.sample_attachment (u "attachments/p") [] APPLE_LIVE_PHOTO STILL (u "image/x-photoshop")] []
  = Some [].
Proof. vm_compute. reflexivity. Qed.
