(* ===== verification/AudioRecorder.v ===== *)
(** * Recording audio into a memo

    web/src/components/MemoEditor/hooks/useAudioRecorder.ts with the handlers of the editor
    around it (MemoEditor/index.tsx).  The hook's state and refs are one record; what the
    browser holds for it (open microphones, recorders, intervals, permissions asked) is
    another, and an [await] or a listener ends an event.  A user's event sees the state
    that is shown.  A recorder of the browser that is stopped, or whose tracks end, reports
    what it has and then stops. *)

From S2P Require Import Prelude JSString JSDate.

Definition FALLBACK_AUDIO_MIME_TYPE : jstring := u "audio/webm".
Definition AUDIO_MIME_TYPE_CANDIDATES : list jstring :=
  [u "audio/webm;codecs=opus"; u "audio/webm"; u "audio/mp4"; u "audio/ogg;codecs=opus"].

Inductive AudioRecordingCompleteMode := Attach | Transcribe.
Inductive AudioRecorderStatus := Idle | RequestingPermission | Recording | RecorderError | Unsupported.
#[export] Instance status_eq_dec : EqDecision AudioRecorderStatus.
Proof. solve_decision. Defined.

Definition NOT_SUPPORTED : jstring := u "Audio recording is not supported in this browser.".
Definition PERMISSION_DENIED : jstring := u "Microphone permission was denied.".
Definition START_FAILED : jstring := u "Failed to start audio recording.".

(** A moment: the local date and time, and the milliseconds [Date.now] gives. *)
Record moment := { getDay : local_date; getHours : Z; getMinutes : Z; getSeconds : Z; now_ms : Z }.
Definition blob : Type := list Z.
Record RecordedFile := { file_name : jstring; file_type : jstring; file_bytes : blob }.
Record LocalRecording := { rec_file : RecordedFile; rec_url : nat; durationSeconds : Z }.

Definition getFileExtension (mimeType : jstring) : jstring :=
  if includes mimeType (u "ogg") then u "ogg" else if includes mimeType (u "mp4") then u "m4a" else u "webm".
Definition two_digits (n : Z) : jstring := pad_start 2 48 (string_of_int n).
Definition createRecordedFile (b : blob) (mimeType : jstring) (now : moment) : RecordedFile :=
  let datePart := string_of_int (getFullYear (getDay now)) ++ two_digits (getMonth (getDay now) + 1) ++ two_digits (getDate (getDay now)) in
  let timePart := two_digits (getHours now) ++ two_digits (getMinutes now) ++ two_digits (getSeconds now) in
  {| file_name := u "voice-note-" ++ datePart ++ u "-" ++ timePart ++ u "." ++ getFileExtension mimeType; file_type := mimeType; file_bytes := b |}.

(** ** The state *)

Record hook := {
  status : AudioRecorderStatus; elapsedSeconds : Z; error : option jstring; recordingStream : option nat;
  mediaRecorderRef : option nat; mediaStreamRef : option nat; chunksRef : list blob; startedAtRef : option Z;
  elapsedTimerRef : option nat; recorderMimeTypeRef : jstring; completionModeRef : AudioRecordingCompleteMode;
  startRequestIdRef : nat }.
Definition first_render : hook := {|
  status := Idle; elapsedSeconds := 0; error := None; recordingStream := None; mediaRecorderRef := None; mediaStreamRef := None;
  chunksRef := []; startedAtRef := None; elapsedTimerRef := None; recorderMimeTypeRef := FALLBACK_AUDIO_MIME_TYPE;
  completionModeRef := Attach; startRequestIdRef := 0 |}.

Inductive recorder_state := Inactive | Active | Stopping.
#[export] Instance recorder_state_eq_dec : EqDecision recorder_state.
Proof. solve_decision. Defined.
(** A recorder: the request its listeners belong to, what it records, and its state. *)
Record MediaRecorder := { of_request : nat; of_stream : nat; activity : recorder_state }.
Record browser := {
  microphones : gset nat; recorders : gmap nat MediaRecorder; intervals : gset nat; asked : gset nat; urls : nat; fresh : nat }.

(** What the editor keeps of the recorder, the files it was given, the texts inserted and
    the files sent to be transcribed. *)
Record editor := {
  isAudioRecorderOpen : bool; isTranscribingAudio : bool; added : list LocalRecording; inserted : list jstring;
  transcribing : list LocalRecording }.
Record world := { mounted : bool; rec : hook; env : browser; ed : editor }.

(** Setters: the code's [setStatus], [setError] and assignments to a ref. *)
Definition on_rec (f : hook -> hook) (w : world) : world := {| mounted := mounted w; rec := f (rec w); env := env w; ed := ed w |}.
Definition on_env (f : browser -> browser) (w : world) : world := {| mounted := mounted w; rec := rec w; env := f (env w); ed := ed w |}.
Definition on_ed (f : editor -> editor) (w : world) : world := {| mounted := mounted w; rec := rec w; env := env w; ed := f (ed w) |}.
Definition show (s : AudioRecorderStatus) (e : option jstring) (h : hook) : hook := {|
  status := s; elapsedSeconds := elapsedSeconds h; error := e; recordingStream := recordingStream h; mediaRecorderRef := mediaRecorderRef h;
  mediaStreamRef := mediaStreamRef h; chunksRef := chunksRef h; startedAtRef := startedAtRef h; elapsedTimerRef := elapsedTimerRef h;
  recorderMimeTypeRef := recorderMimeTypeRef h; completionModeRef := completionModeRef h; startRequestIdRef := startRequestIdRef h |}.
Definition setElapsedSeconds (n : Z) (h : hook) : hook := {|
  status := status h; elapsedSeconds := n; error := error h; recordingStream := recordingStream h; mediaRecorderRef := mediaRecorderRef h;
  mediaStreamRef := mediaStreamRef h; chunksRef := chunksRef h; startedAtRef := startedAtRef h; elapsedTimerRef := elapsedTimerRef h;
  recorderMimeTypeRef := recorderMimeTypeRef h; completionModeRef := completionModeRef h; startRequestIdRef := startRequestIdRef h |}.
Definition set_chunks (l : list blob) (h : hook) : hook := {|
  status := status h; elapsedSeconds := elapsedSeconds h; error := error h; recordingStream := recordingStream h;
  mediaRecorderRef := mediaRecorderRef h; mediaStreamRef := mediaStreamRef h; chunksRef := l; startedAtRef := startedAtRef h;
  elapsedTimerRef := elapsedTimerRef h; recorderMimeTypeRef := recorderMimeTypeRef h; completionModeRef := completionModeRef h;
  startRequestIdRef := startRequestIdRef h |}.
Definition set_mode (m : AudioRecordingCompleteMode) (h : hook) : hook := {|
  status := status h; elapsedSeconds := elapsedSeconds h; error := error h; recordingStream := recordingStream h;
  mediaRecorderRef := mediaRecorderRef h; mediaStreamRef := mediaStreamRef h; chunksRef := chunksRef h; startedAtRef := startedAtRef h;
  elapsedTimerRef := elapsedTimerRef h; recorderMimeTypeRef := recorderMimeTypeRef h; completionModeRef := m;
  startRequestIdRef := startRequestIdRef h |}.
Definition set_request (n : nat) (h : hook) : hook := {|
  status := status h; elapsedSeconds := elapsedSeconds h; error := error h; recordingStream := recordingStream h;
  mediaRecorderRef := mediaRecorderRef h; mediaStreamRef := mediaStreamRef h; chunksRef := chunksRef h; startedAtRef := startedAtRef h;
  elapsedTimerRef := elapsedTimerRef h; recorderMimeTypeRef := recorderMimeTypeRef h; completionModeRef := completionModeRef h;
  startRequestIdRef := n |}.
Definition no_interval (h : hook) : hook := {|
  status := status h; elapsedSeconds := elapsedSeconds h; error := error h; recordingStream := recordingStream h;
  mediaRecorderRef := mediaRecorderRef h; mediaStreamRef := mediaStreamRef h; chunksRef := chunksRef h; startedAtRef := startedAtRef h;
  elapsedTimerRef := None; recorderMimeTypeRef := recorderMimeTypeRef h; completionModeRef := completionModeRef h;
  startRequestIdRef := startRequestIdRef h |}.
Definition no_stream (h : hook) : hook := {|
  status := status h; elapsedSeconds := elapsedSeconds h; error := error h; recordingStream := None;
  mediaRecorderRef := mediaRecorderRef h; mediaStreamRef := None; chunksRef := chunksRef h; startedAtRef := startedAtRef h;
  elapsedTimerRef := elapsedTimerRef h; recorderMimeTypeRef := recorderMimeTypeRef h; completionModeRef := completionModeRef h;
  startRequestIdRef := startRequestIdRef h |}.
Definition no_recording (h : hook) : hook := {|
  status := status h; elapsedSeconds := elapsedSeconds h; error := error h; recordingStream := recordingStream h;
  mediaRecorderRef := None; mediaStreamRef := mediaStreamRef h; chunksRef := []; startedAtRef := None;
  elapsedTimerRef := elapsedTimerRef h; recorderMimeTypeRef := recorderMimeTypeRef h; completionModeRef := completionModeRef h;
  startRequestIdRef := startRequestIdRef h |}.

(** ** The browser *)

Definition ends_with_track (s : nat) (m : MediaRecorder) : MediaRecorder :=
  if (of_stream m =? s)%nat && bool_decide (activity m = Active) then {| of_request := of_request m; of_stream := of_stream m; activity := Stopping |} else m.
Definition set_activity (a : recorder_state) (m : MediaRecorder) : MediaRecorder := {| of_request := of_request m; of_stream := of_stream m; activity := a |}.
(** [track.stop()] on every track of a stream. *)
Definition stop_tracks (s : nat) (b : browser) : browser := {|
  microphones := microphones b ∖ {[s]}; recorders := ends_with_track s <$> recorders b; intervals := intervals b; asked := asked b;
  urls := urls b; fresh := fresh b |}.
Definition open_microphone (b : browser) : browser := {|
  microphones := {[fresh b]} ∪ microphones b; recorders := recorders b; intervals := intervals b; asked := asked b; urls := urls b;
  fresh := S (fresh b) |}.
Definition clear_interval (t : nat) (b : browser) : browser := {|
  microphones := microphones b; recorders := recorders b; intervals := intervals b ∖ {[t]}; asked := asked b; urls := urls b; fresh := fresh b |}.
Definition set_interval (b : browser) : browser := {|
  microphones := microphones b; recorders := recorders b; intervals := {[fresh b]} ∪ intervals b; asked := asked b; urls := urls b;
  fresh := S (fresh b) |}.
Definition ask (r : nat) (b : browser) : browser := {|
  microphones := microphones b; recorders := recorders b; intervals := intervals b; asked := {[r]} ∪ asked b; urls := urls b; fresh := fresh b |}.
Definition answered (r : nat) (b : browser) : browser := {|
  microphones := microphones b; recorders := recorders b; intervals := intervals b; asked := asked b ∖ {[r]}; urls := urls b; fresh := fresh b |}.
Definition set_recorder (m : nat) (r : MediaRecorder) (b : browser) : browser := {|
  microphones := microphones b; recorders := <[m := r]> (recorders b); intervals := intervals b; asked := asked b; urls := urls b;
  fresh := fresh b |}.
Definition new_recorder (r : MediaRecorder) (b : browser) : browser := {|
  microphones := microphones b; recorders := <[fresh b := r]> (recorders b); intervals := intervals b; asked := asked b; urls := urls b;
  fresh := S (fresh b) |}.
Definition new_url (b : browser) : browser := {|
  microphones := microphones b; recorders := recorders b; intervals := intervals b; asked := asked b; urls := S (urls b); fresh := fresh b |}.

(** How starting goes on once the microphone is open: the constructor of the recorder, or
    its [start], may throw. *)
Inductive outcome := Started | NewThrows | StartThrows.
#[export] Instance outcome_eq_dec : EqDecision outcome.
Proof. solve_decision. Defined.

(** ** The hook *)

Section Recorder.
Context (supported : bool) (isTypeSupported : jstring -> bool) (canTranscribe : bool).

Definition getSupportedAudioMimeType : option jstring := js_find isTypeSupported AUDIO_MIME_TYPE_CANDIDATES.

Definition cleanupTimer (w : world) : world :=
  match elapsedTimerRef (rec w) with Some t => on_rec no_interval (on_env (clear_interval t) w) | None => w end.
Definition cleanupStream (w : world) : world :=
  on_rec no_stream (match mediaStreamRef (rec w) with Some s => on_env (stop_tracks s) w | None => w end).
Definition resetRecorderRefs (w : world) : world := on_rec no_recording (cleanupStream (cleanupTimer w)).

(** The effect of mounting, and its cleanup. *)
Definition mount (w : world) : world :=
  on_rec (if supported then show Idle None else show Unsupported (Some NOT_SUPPORTED))
    {| mounted := true; rec := rec w; env := env w; ed := ed w |}.
Definition unmount (w : world) : world :=
  let w := if supported then resetRecorderRefs w else w in {| mounted := false; rec := rec w; env := env w; ed := ed w |}.

Definition startRecording (w : world) : world :=
  let requestId := S (startRequestIdRef (rec w)) in
  let w := on_rec (set_request requestId) w in
  if negb supported then on_rec (show Unsupported (Some NOT_SUPPORTED)) w
  else on_env (ask requestId) (on_rec (fun h => setElapsedSeconds 0 (show RequestingPermission None h)) w).

Definition start_failed (permissionDenied : bool) (w : world) : world :=
  resetRecorderRefs (on_rec (show RecorderError (Some (if permissionDenied then PERMISSION_DENIED else START_FAILED))) w).
Definition hold (s m : nat) (mimeType : jstring) (h : hook) : hook := {|
  status := status h; elapsedSeconds := elapsedSeconds h; error := error h; recordingStream := Some s; mediaRecorderRef := Some m;
  mediaStreamRef := Some s; chunksRef := []; startedAtRef := startedAtRef h; elapsedTimerRef := elapsedTimerRef h;
  recorderMimeTypeRef := mimeType; completionModeRef := completionModeRef h; startRequestIdRef := startRequestIdRef h |}.
Definition started (t : nat) (now : Z) (h : hook) : hook := {|
  status := Recording; elapsedSeconds := elapsedSeconds h; error := error h; recordingStream := recordingStream h;
  mediaRecorderRef := mediaRecorderRef h; mediaStreamRef := mediaStreamRef h; chunksRef := chunksRef h; startedAtRef := Some now;
  elapsedTimerRef := Some t; recorderMimeTypeRef := recorderMimeTypeRef h; completionModeRef := completionModeRef h;
  startRequestIdRef := startRequestIdRef h |}.
Definition granted (requestId : nat) (result : outcome) (now : Z) (w : world) : world :=
  let stream := fresh (env w) in
  let w := on_env (fun b => open_microphone (answered requestId b)) w in
  if negb (startRequestIdRef (rec w) =? requestId)%nat then on_env (stop_tracks stream) w
  else if bool_decide (result = NewThrows) then start_failed false w
  else
    let m := fresh (env w) in
    let mimeType := default FALLBACK_AUDIO_MIME_TYPE getSupportedAudioMimeType in
    let recorder := {| of_request := requestId; of_stream := stream; activity := Inactive |} in
    let w := on_rec (hold stream m mimeType) (on_env (new_recorder recorder) w) in
    if bool_decide (result = StartThrows) then start_failed false w
    else
      let w := on_env (set_recorder m (set_activity Active recorder)) w in
      let t := fresh (env w) in
      on_rec (started t now) (on_env set_interval w).
Definition refused (requestId : nat) (permissionDenied : bool) (w : world) : world :=
  let w := on_env (answered requestId) w in
  if negb (startRequestIdRef (rec w) =? requestId)%nat then w else start_failed permissionDenied w.

(** The listeners of a recorder. *)
Definition dataavailable (r : MediaRecorder) (data : blob) (w : world) : world :=
  if negb (startRequestIdRef (rec w) =? of_request r)%nat then w
  else match data with [] => w | _ => on_rec (fun h => set_chunks (chunksRef h ++ [data]) h) w end.

(** What the editor does with a recording: [onRecordingComplete], [onRecordingEmpty]. *)
Definition addLocalFile (f : LocalRecording) (e : editor) : editor := {|
  isAudioRecorderOpen := isAudioRecorderOpen e; isTranscribingAudio := isTranscribingAudio e; added := added e ++ [f];
  inserted := inserted e; transcribing := transcribing e |}.
Definition set_panel (is_open is_transcribing : bool) (e : editor) : editor := {|
  isAudioRecorderOpen := is_open; isTranscribingAudio := is_transcribing; added := added e; inserted := inserted e;
  transcribing := transcribing e |}.
Definition transcribe_file (f : LocalRecording) (e : editor) : editor := {|
  isAudioRecorderOpen := isAudioRecorderOpen e; isTranscribingAudio := isTranscribingAudio e; added := added e;
  inserted := inserted e; transcribing := transcribing e ++ [f] |}.
Definition handleTranscribeRecordedAudio (f : LocalRecording) (e : editor) : editor :=
  if negb canTranscribe then set_panel false false (addLocalFile f e) else transcribe_file f e.
Definition onRecordingComplete (f : LocalRecording) (mode : AudioRecordingCompleteMode) (e : editor) : editor :=
  match mode with
  | Transcribe => handleTranscribeRecordedAudio f e
  | Attach => set_panel false (isTranscribingAudio e) (addLocalFile f e)
  end.
Definition onRecordingEmpty (mode : AudioRecordingCompleteMode) (e : editor) : editor :=
  match mode with Transcribe => set_panel false false e | Attach => set_panel false (isTranscribingAudio e) e end.

Definition duration (startedAt : option Z) (now : Z) : Z :=
  match startedAt with Some s => if s =? 0 then 0 else Z.max 0 ((now - s + 500) / 1000) | None => 0 end.
Definition stopped (r : MediaRecorder) (now : moment) (w : world) : world :=
  if negb (startRequestIdRef (rec w) =? of_request r)%nat then w
  else
    let durationSeconds := duration (startedAtRef (rec w)) (now_ms now) in
    let bytes := concat (chunksRef (rec w)) in
    let completionMode := completionModeRef (rec w) in
    let w := on_rec (set_mode Attach) w in
    match bytes with
    | [] => resetRecorderRefs (on_ed (onRecordingEmpty completionMode) (on_rec (fun h => show Idle None (setElapsedSeconds 0 h)) w))
    | _ =>
        let file := createRecordedFile bytes (recorderMimeTypeRef (rec w)) now in
        let recording := {| rec_file := file; rec_url := urls (env w); durationSeconds := durationSeconds |} in
        let w := on_ed (onRecordingComplete recording completionMode) (on_env new_url w) in
        resetRecorderRefs (on_rec (fun h => show Idle None (setElapsedSeconds 0 h)) w)
    end.

(** The interval that shows the seconds. *)
Definition tick (now : Z) (w : world) : world :=
  match startedAtRef (rec w) with
  | Some s => if s =? 0 then w else on_rec (setElapsedSeconds (Z.max 0 ((now - s) / 1000))) w
  | None => w
  end.

(** [stopRecording], and whether it stopped anything. *)
Definition stopRecording (mode : AudioRecordingCompleteMode) (w : world) : world * bool :=
  match mediaRecorderRef (rec w) with
  | None => (w, false)
  | Some m =>
      match recorders (env w) !! m with
      | Some r =>
          if negb (bool_decide (activity r = Active)) then (w, false)
          else (on_env (set_recorder m (set_activity Stopping r)) (cleanupTimer (on_rec (set_mode mode) w)), true)
      | None => (w, false)
      end
  end.
Definition resetRecording (w : world) : world :=
  let w := on_rec (fun h => set_mode Attach (set_request (S (startRequestIdRef h)) h)) w in
  on_rec (fun h => show Idle None (setElapsedSeconds 0 h)) (resetRecorderRefs w).
Definition isBusy (w : world) : bool := bool_decide (status (rec w) = Recording) || bool_decide (status (rec w) = RequestingPermission).

(** ** The editor *)

Definition handleAudioRecorderClick (w : world) : world :=
  if isBusy w then w else startRecording (on_ed (fun e => set_panel true (isTranscribingAudio e) e) w).
Definition handleCancelAudioRecording (w : world) : world := on_ed (set_panel false false) (resetRecording w).
Definition handleTranscribeAudioRecording (w : world) : world :=
  if negb canTranscribe || isTranscribingAudio (ed w) then w
  else
    let '(w', didStop) := stopRecording Transcribe w in
    on_ed (fun e => set_panel (isAudioRecorderOpen e) didStop e) w'.
(** The end of the transcription of a file: its text, or none when it failed. *)
Definition transcribed (i : nat) (f : LocalRecording) (text : option jstring) (e : editor) : editor :=
  let e := {| isAudioRecorderOpen := isAudioRecorderOpen e; isTranscribingAudio := isTranscribingAudio e; added := added e;
              inserted := inserted e; transcribing := delete i (transcribing e) |} in
  set_panel false false
    match trim (default [] text) with
    | [] => addLocalFile f e
    | text => {| isAudioRecorderOpen := isAudioRecorderOpen e; isTranscribingAudio := isTranscribingAudio e; added := added e;
                 inserted := inserted e ++ [text]; transcribing := transcribing e |}
    end.
(** The effect that closes the panel when the recorder cannot record. *)
Definition close_on_error (w : world) : world :=
  if mounted w && isAudioRecorderOpen (ed w)
     && (bool_decide (status (rec w) = RecorderError) || bool_decide (status (rec w) = Unsupported))
  then on_ed (fun e => set_panel false (isTranscribingAudio e) e) w else w.

(** ** Events *)

Inductive event :=
  | Mount | Unmount | Click | Cancel | StopClick | TranscribeClick
  | Granted (requestId : nat) (result : outcome) (now : Z) | Refused (requestId : nat) (permissionDenied : bool)
  | Data (m : nat) (data : blob) | Stopped (m : nat) (now : moment) | Tick (t : nat) (now : Z)
  | Transcribed (i : nat) (text : option jstring).

(** The panel is rendered, and its buttons can be pressed. *)
Definition panel_shown (w : world) : bool := mounted w && isAudioRecorderOpen (ed w) && (isBusy w || isTranscribingAudio (ed w)).
Definition can_stop (w : world) : bool :=
  panel_shown w && negb (bool_decide (status (rec w) = RequestingPermission)) && negb (isTranscribingAudio (ed w)).
Definition when (b : bool) (w : world) : option world := if b then Some w else None.

(** What an event does, when it can happen. *)
Definition handle (e : event) (w : world) : option world :=
  match e with
  | Mount => when (negb (mounted w) && (startRequestIdRef (rec w) =? 0)%nat) (mount w)
  | Unmount => when (mounted w) (unmount w)
  | Click => when (mounted w) (handleAudioRecorderClick w)
  | Cancel => when (panel_shown w && negb (isTranscribingAudio (ed w))) (handleCancelAudioRecording w)
  | StopClick => when (can_stop w) (fst (stopRecording Attach w))
  | TranscribeClick => when (can_stop w && canTranscribe) (handleTranscribeAudioRecording w)
  | Granted requestId result now => when (bool_decide (requestId ∈ asked (env w))) (granted requestId result now w)
  | Refused requestId denied => when (bool_decide (requestId ∈ asked (env w))) (refused requestId denied w)
  | Data m data =>
      match recorders (env w) !! m with
      | Some r => when (negb (bool_decide (activity r = Inactive))) (dataavailable r data w)
      | None => None
      end
  | Stopped m now =>
      match recorders (env w) !! m with
      | Some r => when (bool_decide (activity r = Stopping)) (stopped r now (on_env (set_recorder m (set_activity Inactive r)) w))
      | None => None
      end
  | Tick t now => when (bool_decide (t ∈ intervals (env w))) (tick now w)
  | Transcribed i text => (fun f => on_ed (transcribed i f text) w) <$> transcribing (ed w) !! i
  end.
Definition step (w : world) (e : event) : option world := close_on_error <$> handle e w.
Fixpoint run (w : world) (es : list event) : option world :=
  match es with [] => Some w | e :: es' => w' ← step w e; run w' es' end.

Definition page_loaded : world := {|
  mounted := false; rec := first_render;
  env := {| microphones := ∅; recorders := ∅; intervals := ∅; asked := ∅; urls := 0; fresh := 0 |};
  ed := {| isAudioRecorderOpen := false; isTranscribingAudio := false; added := []; inserted := []; transcribing := [] |} |}.

(** ** What is kept *)

Definition held (o : option nat) : gset nat := match o with Some s => {[s]} | None => ∅ end.
Definition at_rest (w : world) : Prop := status (rec w) <> Recording \/ mounted w = false.
(** What is open is held by a ref, and no permission is asked ahead of the requests. *)
Record kept (w : world) : Prop := {
  k_microphones : microphones (env w) ⊆ held (mediaStreamRef (rec w));
  k_intervals : intervals (env w) ⊆ held (elapsedTimerRef (rec w));
  k_asked : forall r, r ∈ asked (env w) -> (1 <= r <= startRequestIdRef (rec w))%nat;
  k_recorders : forall m r, recorders (env w) !! m = Some r -> of_request r ∉ asked (env w) /\ (of_request r <= startRequestIdRef (rec w))%nat }.
Record good (w : world) : Prop := {
  g_kept : kept w;
  g_current : startRequestIdRef (rec w) ∈ asked (env w) -> status (rec w) = RequestingPermission /\ mounted w = true;
  g_rest : at_rest w -> mediaStreamRef (rec w) = None /\ elapsedTimerRef (rec w) = None }.

(** What the browser and the page must not do: refuse a recorder for a microphone it has
    granted, and leave while the permission is asked. *)
Definition prudent (w : world) (e : event) : bool :=
  match e with
  | Granted r NewThrows _ => negb (r =? startRequestIdRef (rec w))%nat
  | Unmount => negb (bool_decide (status (rec w) = RequestingPermission))
  | _ => true
  end.
Fixpoint prudent_run (w : world) (es : list event) : bool :=
  match es with
  | [] => true
  | e :: es' => prudent w e && match step w e with Some w' => prudent_run w' es' | None => true end
  end.

Lemma reset_env w : kept w -> microphones (env (resetRecorderRefs w)) = ∅ /\ intervals (env (resetRecorderRefs w)) = ∅.
Proof.
  intros [H1 H2 _ _]. unfold resetRecorderRefs, cleanupStream, cleanupTimer.
  destruct (elapsedTimerRef (rec w)) as [t|] eqn:Et, (mediaStreamRef (rec w)) as [s|] eqn:Es; cbn; rewrite ?Es; cbn; set_solver.
Qed.
Lemma reset_asked w : asked (env (resetRecorderRefs w)) = asked (env w).
Proof.
  unfold resetRecorderRefs, cleanupStream, cleanupTimer.
  destruct (elapsedTimerRef (rec w)); cbn; destruct (mediaStreamRef (rec w)); done.
Qed.
Lemma reset_recorders w m r : recorders (env (resetRecorderRefs w)) !! m = Some r ->
  exists r', recorders (env w) !! m = Some r' /\ of_request r = of_request r'.
Proof.
  unfold resetRecorderRefs, cleanupStream, cleanupTimer. intros H.
  destruct (elapsedTimerRef (rec w)); cbn in H; destruct (mediaStreamRef (rec w)); cbn in H; try (by eauto);
    apply lookup_fmap_Some in H as (r' & <- & ?); exists r'; split; [done| |done|]; unfold ends_with_track; by case_match.
Qed.
Lemma reset_rec w :
  rec (resetRecorderRefs w) = no_recording (no_stream (match elapsedTimerRef (rec w) with Some _ => no_interval (rec w) | None => rec w end)).
Proof.
  unfold resetRecorderRefs, cleanupStream, cleanupTimer.
  destruct (elapsedTimerRef (rec w)) eqn:Et; cbn; destruct (mediaStreamRef (rec w)); done.
Qed.

Ltac recorder_cbn := cbn [negb rec env fresh urls chunksRef recorders of_request set_activity ed mounted on_rec on_env on_ed status startRequestIdRef mediaStreamRef elapsedTimerRef asked microphones
  intervals show setElapsedSeconds set_chunks set_mode set_request no_interval no_stream no_recording stop_tracks clear_interval ask
  answered set_recorder new_recorder new_url open_microphone set_interval hold started].

(** Changing what no ref holds. *)
Definition keeps_refs (f : hook -> hook) : Prop := forall h,
  mediaStreamRef (f h) = mediaStreamRef h /\ elapsedTimerRef (f h) = elapsedTimerRef h /\ startRequestIdRef (f h) = startRequestIdRef h.
Lemma kept_rec f w : keeps_refs f -> kept w -> kept (on_rec f w).
Proof. intros Hf [H1 H2 H3 H4]. destruct (Hf (rec w)) as (E1 & E2 & E3). split; recorder_cbn; by rewrite ?E1, ?E2, ?E3. Qed.
Definition keeps_browser (f : browser -> browser) : Prop := forall b,
  microphones (f b) = microphones b /\ intervals (f b) = intervals b /\ asked (f b) ⊆ asked b
  /\ (forall m r, recorders (f b) !! m = Some r -> exists m' r', recorders b !! m' = Some r' /\ of_request r = of_request r').
Lemma kept_env f w : keeps_browser f -> kept w -> kept (on_env f w).
Proof.
  intros Hf [H1 H2 H3 H4]. destruct (Hf (env w)) as (E1 & E2 & E3 & E4). split; recorder_cbn; rewrite ?E1, ?E2; auto.
  intros m r (m' & r' & Hr & ->)%E4. destruct (H4 _ _ Hr). split; [set_solver|done].
Qed.
Lemma good_env f w : keeps_browser f -> good w -> good (on_env f w).
Proof. intros Hf [H1 H2 H3]. split; [by apply kept_env| |done]. recorder_cbn. destruct (Hf (env w)) as (_ & _ & E3 & _). auto. Qed.
Lemma good_rec f w : keeps_refs f -> (forall h, status (f h) = status h) -> good w -> good (on_rec f w).
Proof.
  intros Hf Hs [H1 H2 H3]. destruct (Hf (rec w)) as (E1 & E2 & E3). split; unfold at_rest in *; recorder_cbn; rewrite ?E1, ?E2, ?E3, ?Hs; auto.
  by apply kept_rec.
Qed.
Lemma good_ed f w : good w -> good (on_ed f w).
Proof. intros [[] ? ?]. split; [split|..]; auto. Qed.
Lemma kept_ed f w : kept w -> kept (on_ed f w).
Proof. intros []. by split. Qed.

(** After the recorder is put away nothing is held, whatever is shown. *)
Lemma good_reset f w : keeps_refs f -> kept w -> startRequestIdRef (rec w) ∉ asked (env w) -> good (on_rec f (resetRecorderRefs w)).
Proof.
  intros Hf H Hn. pose proof (reset_env w H) as [Hm Hi]. destruct H as [_ _ Ha Hr]. destruct (Hf (rec (resetRecorderRefs w))) as (E1 & E2 & E3).
  assert (startRequestIdRef (rec (resetRecorderRefs w)) = startRequestIdRef (rec w)) as Er
    by (rewrite reset_rec; destruct (elapsedTimerRef (rec w)); done).
  assert (mediaStreamRef (rec (resetRecorderRefs w)) = None /\ elapsedTimerRef (rec (resetRecorderRefs w)) = None) as [E4 E5]
    by (rewrite reset_rec; destruct (elapsedTimerRef (rec w)) eqn:E; done).
  split; [split|..]; recorder_cbn; rewrite ?Hm, ?Hi, ?E1, ?E2, ?E3, ?E4, ?E5, ?reset_asked, ?Er; [apply empty_subseteq|apply empty_subseteq|done| |done|done].
  intros m r (r' & Hr' & ->)%reset_recorders. by apply (Hr m).
Qed.
Lemma reset_as w : resetRecorderRefs w = on_rec (fun h => h) (resetRecorderRefs w).
Proof. by destruct (resetRecorderRefs w). Qed.

Lemma show_keeps s e : keeps_refs (show s e).
Proof. done. Qed.
Lemma good_start_failed b w : kept w -> startRequestIdRef (rec w) ∉ asked (env w) -> good (start_failed b w).
Proof. intros H Hn. unfold start_failed. rewrite reset_as. apply good_reset; [done| |done]. by apply kept_rec. Qed.


(** Small facts on the sets of the browser. *)
Lemma opened_closed (n : nat) (X Y : gset nat) : X ⊆ Y -> ({[n]} ∪ X) ∖ {[n]} ⊆ Y.
Proof. set_solver. Qed.
Lemma only_opened (n : nat) (X : gset nat) : X ⊆ ∅ -> {[n]} ∪ X ⊆ {[n]}.
Proof. set_solver. Qed.
Lemma not_asked (r x : nat) (X : gset nat) : x ∈ X ∖ {[r]} -> x ∈ X /\ x <> r.
Proof. set_solver. Qed.
Lemma recorders_asked (l : gmap nat MediaRecorder) (X : gset nat) r n :
  (forall m x, l !! m = Some x -> of_request x ∉ X /\ (of_request x <= n)%nat) ->
  forall m x, l !! m = Some x -> of_request x ∉ X ∖ {[r]} /\ (of_request x <= n)%nat.
Proof. intros H m x Hx. destruct (H m x Hx). split; [|done]. by intros [? _]%not_asked. Qed.
Lemma answered_now (r : nat) (X : gset nat) : r ∉ X ∖ {[r]}.
Proof. by intros [_ ?]%not_asked. Qed.

Lemma fresh_ok {A} (n : nat) (x y : A) (l : gmap nat A) m : <[n := x]> l !! m = Some y -> y = x \/ l !! m = Some y.
Proof. intros [[_ <-]|[_ ?]]%lookup_insert_Some; auto. Qed.
Lemma answered_keeps r : keeps_browser (answered r).
Proof. intros b. cbn. split_and!; [done|done|intros x [? _]%not_asked; done|eauto]. Qed.

Lemma good_granted r result now w : good w -> r ∈ asked (env w) -> prudent w (Granted r result now) = true -> good (granted r result now w).
Proof.
  intros Hg Hr Hp. destruct Hg as [[H1 H2 H3 H6] H4 H5]. unfold granted. recorder_cbn.
  pose proof (recorders_asked _ _ r _ H6) as H6'.
  assert (forall x, x ∈ asked (env w) ∖ {[r]} -> (1 <= x <= startRequestIdRef (rec w))%nat) as H3' by (intros x [? _]%not_asked; auto).
  destruct (startRequestIdRef (rec w) =? r)%nat eqn:E; bool_prop.
  2: { split; [split|..]; recorder_cbn; [by apply opened_closed|done|done| | |done].
       - intros m x. rewrite lookup_fmap. intros (y & Hy & ->)%fmap_Some. unfold ends_with_track. destruct (_ && _); apply (H6' m y Hy).
       - intros [? _]%not_asked. auto. }
  subst r. destruct (H4 Hr) as [Es Em]. destruct H5 as [E1 E2]; [left; by rewrite Es|]. rewrite E1, E2 in *. cbn [held] in *.
  pose proof (answered_now (startRequestIdRef (rec w)) (asked (env w))) as Hn.
  destruct result; [|cbn in Hp; by rewrite Nat.eqb_refl in Hp|]; rewrite ?bool_decide_eq_false_2, ?bool_decide_eq_true_2 by done.
  - split; [split|..]; unfold at_rest; recorder_cbn; [by apply only_opened|by apply only_opened|done| |done|].
    + intros m x [->|[->|Hx]%fresh_ok]%fresh_ok; [done|done|by apply (H6' m)].
    + rewrite Em. by intros [?|?].
  - apply good_start_failed; [|done]. split; recorder_cbn; [by apply only_opened|by rewrite E2|done|].
    intros m x [->|Hx]%fresh_ok; [done|by apply (H6' m)].
Qed.

Lemma good_refused r b w : good w -> good (refused r b w).
Proof.
  intros Hg. unfold refused. recorder_cbn. assert (good (on_env (answered r) w)) as Hg' by (apply good_env; [apply answered_keeps|done]).
  destruct (startRequestIdRef (rec w) =? r)%nat eqn:E; bool_prop; [|done]. subst r. apply good_start_failed; [apply Hg'|]. apply answered_now.
Qed.

Lemma good_stopped r now w : good w -> of_request r ∉ asked (env w) -> good (stopped r now w).
Proof.
  intros Hg Hn. unfold stopped. destruct (startRequestIdRef (rec w) =? of_request r)%nat eqn:E; bool_prop; [|done].
  rewrite <- E in Hn. assert (kept (on_rec (set_mode Attach) w)) as Hk by (apply kept_rec; [done|apply Hg]).
  destruct (concat _).
  - rewrite reset_as. apply good_reset; [done| |done]. apply kept_ed. by apply kept_rec.
  - rewrite reset_as. apply good_reset; [done| |done]. apply kept_rec; [done|]. apply kept_ed, kept_env; [|done].
    intros b'. cbn. split_and!; eauto.
Qed.

Lemma good_mount w : good w -> mounted w = false -> startRequestIdRef (rec w) = 0%nat -> good (mount w).
Proof.
  intros [[H1 H2 H3 H6] H4 H5] Hm H0. destruct H5 as [E1 E2]; [by right|].
  split; [split|..]; unfold mount, at_rest; destruct supported; recorder_cbn; rewrite ?E1, ?E2 in *; auto; intros ?%H3; lia.
Qed.
Lemma good_unmount w : supported = true -> good w -> status (rec w) <> RequestingPermission -> good (unmount w).
Proof.
  intros Hsup Hg Hs. assert (startRequestIdRef (rec w) ∉ asked (env w)) as Hn by (intros [? _]%(g_current w Hg); done).
  unfold unmount. rewrite Hsup. assert (good (resetRecorderRefs w)) as [[] H4 H5] by (rewrite reset_as; apply good_reset; [done|apply Hg|done]).
  split; [split|..]; unfold at_rest in *; recorder_cbn; auto.
  - rewrite reset_asked, reset_rec. by destruct (elapsedTimerRef (rec w)).
  - intros _. rewrite reset_rec. by destruct (elapsedTimerRef (rec w)) eqn:E.
Qed.

Lemma good_stopRecording mode w : good w -> good (fst (stopRecording mode w)).
Proof.
  intros Hg. unfold stopRecording. destruct (mediaRecorderRef (rec w)) as [m|]; [|done].
  destruct (recorders (env w) !! m) as [r|] eqn:Er; [|done]. destruct (bool_decide (activity r = Active)); [|done]. cbn [negb fst].
  assert (good (cleanupTimer (on_rec (set_mode mode) w))) as [[K1 K2 K3 K4] H4 H5].
  { assert (good (on_rec (set_mode mode) w)) as Hg' by (by apply good_rec).
    destruct Hg as [[K1 K2 K3 K4] H4 H5]. unfold cleanupTimer. recorder_cbn. destruct (elapsedTimerRef (rec w)) as [t|] eqn:Et; [|done].
    split; [split|..]; unfold at_rest in *; recorder_cbn; auto; [|intros ?; split; [by apply H5|done]].
    cbn [held] in *. clear -K2. set_solver. }
  assert (forall m' x, recorders (env (cleanupTimer (on_rec (set_mode mode) w))) !! m' = Some x -> recorders (env w) !! m' = Some x) as Hsame
    by (unfold cleanupTimer; recorder_cbn; by destruct (elapsedTimerRef (rec w))).
  assert (recorders (env (cleanupTimer (on_rec (set_mode mode) w))) !! m = Some r) as Er'
    by (unfold cleanupTimer; recorder_cbn; by destruct (elapsedTimerRef (rec w))).
  split; [split|..]; unfold at_rest in *; recorder_cbn; auto.
  intros m' x [->|Hx]%fresh_ok; [by apply (K4 m r)|by apply (K4 m')].
Qed.

Lemma good_resetRecording w : good w -> good (resetRecording w).
Proof.
  intros [[H1 H2 H3 H6] H4 H5]. unfold resetRecording.
  apply good_reset; [done| |recorder_cbn; intros ?%H3; lia]. split; recorder_cbn; auto; [intros r ?%H3; lia|].
  intros m r Hr. destruct (H6 m r Hr). split; [done|lia].
Qed.

Lemma good_startRecording w : good w -> isBusy w = false -> mounted w = true -> good (startRecording w).
Proof.
  intros [[H1 H2 H3 H6] H4 H5] Hb Hm. unfold isBusy in Hb. bool_prop. destruct H5 as [E1 E2]; [by left|]. rewrite E1, E2 in *.
  assert (S (startRequestIdRef (rec w)) ∉ asked (env w)) as Hn by (intros ?%H3; lia).
  assert (forall m r, recorders (env w) !! m = Some r -> of_request r ∉ asked (env w) /\ (of_request r <= S (startRequestIdRef (rec w)))%nat) as H6'
    by (intros m r Hr; destruct (H6 m r Hr); split; [done|lia]).
  unfold startRecording. destruct supported; cbn [negb]; (split; [split|..]); unfold at_rest; recorder_cbn; rewrite ?E1, ?E2; auto; try done.
  - intros r [->%elem_of_singleton|?%H3]%elem_of_union; lia.
  - intros m r Hr. destruct (H6 m r Hr). split; [|lia]. intros [?%elem_of_singleton|?]%elem_of_union; [lia|done].
  - intros r ?%H3. lia.
Qed.

Lemma good_set_activity m r a w : recorders (env w) !! m = Some r -> good w -> good (on_env (set_recorder m (set_activity a r)) w).
Proof.
  intros Hr [[H1 H2 H3 H6] H4 H5]. split; [split|..]; unfold at_rest in *; recorder_cbn; auto.
  intros m' x [->|Hx]%fresh_ok; [by apply (H6 m r)|by apply (H6 m')].
Qed.

Lemma when_Some b w w' : when b w = Some w' -> b = true /\ w' = w.
Proof. destruct b; cbn; [|done]. by intros [= ->]. Qed.

Lemma step_good w e w' : supported = true -> good w -> prudent w e = true -> step w e = Some w' -> good w'.
Proof.
  intros Hsup Hg Hp Hs. unfold step in Hs. apply fmap_Some in Hs as (w1 & Hs & ->).
  assert (good w1) as Hg1; [|unfold close_on_error; case_match; [by apply good_ed|done]].
  destruct e; cbn [handle] in Hs; try (apply when_Some in Hs as [Hw ->]; bool_prop).
  - by apply good_mount.
  - apply good_unmount; auto. cbn in Hp. bool_prop. done.
  - unfold handleAudioRecorderClick. destruct (isBusy w) eqn:Eb; [done|]. apply good_startRecording; [by apply good_ed|done|done].
  - by apply good_ed, good_resetRecording.
  - by apply good_stopRecording.
  - unfold handleTranscribeAudioRecording. destruct (_ || _); [done|]. pose proof (good_stopRecording Transcribe w Hg) as Hg1.
    destruct (stopRecording Transcribe w). by apply good_ed.
  - by apply good_granted.
  - by apply good_refused.
  - destruct (recorders (env w) !! m) as [r|]; [|done]. apply when_Some in Hs as [_ ->]. unfold dataavailable.
    destruct (negb _); [done|]. destruct data; [done|]. by apply good_rec.
  - destruct (recorders (env w) !! m) as [r|] eqn:Er; [|done]. apply when_Some in Hs as [_ ->].
    apply good_stopped; [by apply good_set_activity|]. by apply (k_recorders w (g_kept w Hg) m).
  - unfold tick. destruct (startedAtRef (rec w)) as [z|]; [|done]. destruct (z =? 0); [done|]. by apply good_rec.
  - apply fmap_Some in Hs as (f & _ & ->). by apply good_ed.
Qed.

Lemma run_good es w w' : supported = true -> good w -> prudent_run w es = true -> run w es = Some w' -> good w'.
Proof.
  intros Hsup. revert w. induction es as [|e es IH]; intros w Hg Hp Hr; cbn in Hp, Hr; [by injection Hr as <-|].
  destruct (step w e) as [w1|] eqn:E; [|done]. cbn in Hr. bool_prop. eapply IH; [|done|done]. by eapply step_good.
Qed.
Lemma page_loaded_good : good page_loaded.
Proof. split; [split|..]; cbn; try done. Qed.

(** C16. The microphone is never left open: in whatever order the user, the permission, the
    recorder and the timers act, an open microphone and a running interval are the ones
    the hook holds, and when it is not recording, or its editor is gone, there is none.
    The browser must not refuse a recorder for a microphone it granted, and the editor
    must not leave while the permission is asked; in these two cases one stays open. *)
Theorem microphone_released (es : list event) (w : world) (Hsup : supported = true) (Hp : prudent_run page_loaded es = true)
    (Hr : run page_loaded es = Some w) :
  microphones (env w) ⊆ held (mediaStreamRef (rec w)) /\ intervals (env w) ⊆ held (elapsedTimerRef (rec w))
  /\ (status (rec w) <> Recording \/ mounted w = false -> microphones (env w) = ∅ /\ intervals (env w) = ∅).
Proof.
  destruct (run_good es page_loaded w Hsup page_loaded_good Hp Hr) as [[H1 H2 _ _] _ H5]. split; [done|]. split; [done|].
  intros Hrest. destruct (H5 Hrest) as [E1 E2]. rewrite E1 in H1. rewrite E2 in H2. split; apply leibniz_equiv; set_solver.
Qed.

(** ** A recording *)

(** What can happen beside a recording: its interval, data of any recorder, and what is
    left of earlier requests. *)
Definition beside (request m : nat) (e : event) : bool :=
  match e with
  | Tick _ _ | Data _ _ => true
  | Granted r _ _ | Refused r _ => negb (r =? request)%nat
  | Stopped m' _ => negb (m' =? m)%nat
  | _ => false
  end.
(** The data a recorder reports. *)
Definition data_of (m : nat) (e : event) : blob := match e with Data m' d => if (m' =? m)%nat then d else [] | _ => [] end.
Definition reported (m : nat) (es : list event) : blob := es ≫= data_of m.
Definition ended_by (e : event) : option AudioRecordingCompleteMode :=
  match e with StopClick => Some Attach | TranscribeClick => Some Transcribe | _ => None end.

(** What stays the same beside a recording. *)
Definition setting (w : world) :=
  (status (rec w), mediaRecorderRef (rec w), startedAtRef (rec w), recorderMimeTypeRef (rec w), completionModeRef (rec w),
   startRequestIdRef (rec w), urls (env w), ed w, mounted w).
Record session (m : nat) (a : recorder_state) (bytes : blob) (w : world) : Prop := {
  s_status : status (rec w) = Recording;
  s_recorder : exists s, recorders (env w) !! m = Some {| of_request := startRequestIdRef (rec w); of_stream := s; activity := a |} /\ (s < fresh (env w))%nat;
  s_only : forall m' r, recorders (env w) !! m' = Some r -> of_request r = startRequestIdRef (rec w) -> m' = m;
  s_bytes : concat (chunksRef (rec w)) = bytes }.

Lemma close_on_error_recording w : status (rec w) = Recording -> close_on_error w = w.
Proof. intros E. unfold close_on_error. rewrite E. by rewrite !bool_decide_eq_false_2, andb_false_r by done. Qed.

Lemma beside_session e m a bytes w w' : session m a bytes w -> beside (startRequestIdRef (rec w)) m e = true -> step w e = Some w' ->
  session m a (bytes ++ data_of m e) w' /\ setting w' = setting w.
Proof.
  intros [H1 (s & H2 & Hf) H3 H4] Hb Hs. unfold step in Hs. apply fmap_Some in Hs as (w1 & Hs & ->).
  assert (session m a (bytes ++ data_of m e) w1 /\ setting w1 = setting w) as [S1 S2]; [|rewrite close_on_error_recording by apply S1; done].
  destruct e; cbn in Hb; try done; cbn [handle] in Hs; try (apply when_Some in Hs as [Hw ->]; bool_prop).
  - unfold granted. recorder_cbn. rewrite (proj2 (Nat.eqb_neq _ _)) by done. recorder_cbn. split; [|done]. cbn [data_of]. rewrite app_nil_r.
    split; [done| | |done]; recorder_cbn; cbn [fresh].
    + exists s. split; [|lia]. rewrite lookup_fmap, H2. cbn. unfold ends_with_track. cbn. by rewrite (proj2 (Nat.eqb_neq _ _)) by lia.
    + intros m' r. rewrite lookup_fmap. intros (y & Hy & ->)%fmap_Some. unfold ends_with_track. destruct (_ && _); cbn; intros Ho; by apply (H3 m' y).
  - unfold refused. recorder_cbn. rewrite (proj2 (Nat.eqb_neq _ _)) by done. recorder_cbn. split; [|done]. cbn [data_of]. rewrite app_nil_r.
    split; [done|by exists s|done|done].
  - cbn [data_of]. destruct (recorders (env w) !! m0) as [r|] eqn:Er; [|done]. apply when_Some in Hs as [_ ->].
    assert ((startRequestIdRef (rec w) =? of_request r)%nat = (m0 =? m)%nat) as E.
    { destruct (m0 =? m)%nat eqn:Em; bool_prop; [|apply Nat.eqb_neq; intros Ec; by apply Em, (H3 m0 r)].
      subst m0. rewrite H2 in Er. injection Er as <-. by apply Nat.eqb_eq. }
    unfold dataavailable. rewrite E. destruct (m0 =? m)%nat; cbn [negb]; [|rewrite app_nil_r; split; [split; [done|by exists s|done|done]|done]].
    destruct data as [|b data]; [rewrite app_nil_r; split; [split; [done|by exists s|done|done]|done]|].
    split; [|done]. split; recorder_cbn; [done|by exists s|done|]. cbn [chunksRef]. rewrite concat_app, H4. cbn. by rewrite app_nil_r.
  - cbn [data_of]. destruct (recorders (env w) !! m0) as [r|] eqn:Er; [|done]. apply when_Some in Hs as [_ ->].
    apply negb_true_iff, Nat.eqb_neq in Hb. unfold stopped. recorder_cbn. rewrite (proj2 (Nat.eqb_neq _ _)) by (intros Ec; by apply Hb, (H3 m0 r)). cbn [negb]. rewrite app_nil_r. split; [|done].
    split; recorder_cbn; [done| | |done].
    + exists s. cbn [fresh]. rewrite lookup_insert_ne by done. done.
    + intros m' x [->|Hx]%fresh_ok; [|by apply H3]. cbn. intros Ho. exfalso. by apply Hb, (H3 m0 r).
  - cbn [data_of]. rewrite app_nil_r. unfold tick. destruct (startedAtRef (rec w)) as [z|] eqn:Ez; [destruct (z =? 0)|];
      (split; [split; [done|by exists s|done|done]|done]).
Qed.

Lemma run_app w es1 es2 : run w (es1 ++ es2) = (w' ← run w es1; run w' es2).
Proof. revert w. induction es1 as [|e es1 IH]; intros w; cbn; [done|]. destruct (step w e); cbn; [apply IH|done]. Qed.

Lemma beside_run es m a bytes w w' : session m a bytes w -> forallb (beside (startRequestIdRef (rec w)) m) es = true -> run w es = Some w' ->
  session m a (bytes ++ reported m es) w' /\ setting w' = setting w.
Proof.
  revert bytes w. induction es as [|e es IH]; intros bytes w Hs Hb Hr; cbn in Hb, Hr.
  { injection Hr as <-. unfold reported. cbn. by rewrite app_nil_r. }
  bool_prop. destruct (step w e) as [w1|] eqn:E; [|done]. cbn in Hr. match goal with H : beside _ _ e = true |- _ => rename H into He end.
  destruct (beside_session e m a bytes w w1 Hs He E) as [Hs1 E1].
  assert (startRequestIdRef (rec w1) = startRequestIdRef (rec w)) as Ec by (unfold setting in E1; congruence).
  destruct (IH _ w1 Hs1) as [S1 S2]; [by rewrite Ec|done|]. unfold reported in *. cbn. rewrite <- app_assoc in S1. split; [done|congruence].
Qed.

(** Starting: the session of the current request. *)
Lemma granted_session w t0 w' : good w -> startRequestIdRef (rec w) ∈ asked (env w) ->
  step w (Granted (startRequestIdRef (rec w)) Started t0) = Some w' ->
  session (S (fresh (env w))) Active [] w'
  /\ setting w' = (Recording, Some (S (fresh (env w))), Some t0, default FALLBACK_AUDIO_MIME_TYPE getSupportedAudioMimeType,
                   completionModeRef (rec w), startRequestIdRef (rec w), urls (env w), ed w, mounted w).
Proof.
  intros [[_ _ _ H6] _ _] Ha Hs. unfold step in Hs. cbn [handle] in Hs. rewrite bool_decide_eq_true_2 in Hs by done. cbn [when] in Hs.
  apply fmap_Some in Hs as (w1 & [= <-] & ->). unfold granted. recorder_cbn. rewrite Nat.eqb_refl. cbn [negb].
  rewrite !bool_decide_eq_false_2 by done. rewrite close_on_error_recording by done. split; [|done]. split; recorder_cbn; try done.
  - exists (fresh (env w)). rewrite lookup_insert_eq. split; [done|cbn; lia].
  - intros m' r Hr Ho. destruct (decide (m' = S (fresh (env w)))); [done|]. rewrite !lookup_insert_ne in Hr by done.
    destruct (H6 m' r Hr) as [Hn _]. by rewrite Ho in Hn.
Qed.

(** Stopping: the recorder is told to, and what it reports will be used in the mode of the button. *)
Lemma ended_session m bytes e mode w w' : session m Active bytes w -> mediaRecorderRef (rec w) = Some m -> ended_by e = Some mode ->
  step w e = Some w' ->
  session m Stopping bytes w' /\ startedAtRef (rec w') = startedAtRef (rec w) /\ recorderMimeTypeRef (rec w') = recorderMimeTypeRef (rec w)
  /\ completionModeRef (rec w') = mode /\ startRequestIdRef (rec w') = startRequestIdRef (rec w) /\ urls (env w') = urls (env w)
  /\ added (ed w') = added (ed w) /\ transcribing (ed w') = transcribing (ed w) /\ (mode = Transcribe -> canTranscribe = true).
Proof.
  intros [H1 (s & H2 & Hf) H3 H4] Hm He Hs. unfold step in Hs. apply fmap_Some in Hs as (w1 & Hs & ->).
  assert (stopRecording mode w = (on_env (set_recorder m {| of_request := startRequestIdRef (rec w); of_stream := s; activity := Stopping |})
            (cleanupTimer (on_rec (set_mode mode) w)), true)) as E by (unfold stopRecording; rewrite Hm, H2; done).
  set (w2 := on_env _ _) in E.
  assert (session m Stopping bytes w2 /\ startedAtRef (rec w2) = startedAtRef (rec w) /\ recorderMimeTypeRef (rec w2) = recorderMimeTypeRef (rec w)
    /\ completionModeRef (rec w2) = mode /\ startRequestIdRef (rec w2) = startRequestIdRef (rec w) /\ urls (env w2) = urls (env w)
    /\ ed w2 = ed w) as (S1 & S2 & S3 & S4 & S5 & S6 & S7).
  { subst w2. unfold cleanupTimer. recorder_cbn. destruct (elapsedTimerRef (rec w)); recorder_cbn; split_and!; try done;
      (split; recorder_cbn; [done| |intros m' r [Hr|[? Hr]]%lookup_insert_Some; [by destruct Hr|by apply H3]|done]);
      exists s; by rewrite lookup_insert_eq. }
  clearbody w2. destruct e; try done; cbn [ended_by handle] in *; injection He as <-; apply when_Some in Hs as [Hw ->].
  - rewrite E. cbn [fst]. rewrite close_on_error_recording by apply S1. rewrite S7. by split_and!.
  - unfold handleTranscribeAudioRecording. apply andb_true_iff in Hw as [Hw Ht]. unfold can_stop in Hw.
    rewrite !andb_true_iff, !negb_true_iff in Hw. destruct Hw as [_ Hw]. rewrite Ht, Hw, E. cbn [negb orb].
    rewrite close_on_error_recording by apply S1. destruct S1. cbn. rewrite S7. by split_and!.
Qed.

Lemma reset_ed w : ed (resetRecorderRefs w) = ed w.
Proof. unfold resetRecorderRefs, cleanupStream, cleanupTimer. destruct (elapsedTimerRef (rec w)); cbn; by destruct (mediaStreamRef (rec w)). Qed.
Lemma reset_status w : status (rec (resetRecorderRefs w)) = status (rec w).
Proof. rewrite reset_rec. by destruct (elapsedTimerRef (rec w)). Qed.

(** Stopped: the recording goes to the editor. *)
Lemma stopped_session m bytes mode now w w' : session m Stopping bytes w -> completionModeRef (rec w) = mode ->
  (mode = Transcribe -> canTranscribe = true) -> step w (Stopped m now) = Some w' ->
  let f := {| rec_file := createRecordedFile bytes (recorderMimeTypeRef (rec w)) now; rec_url := urls (env w);
              durationSeconds := duration (startedAtRef (rec w)) (now_ms now) |} in
  status (rec w') = Idle
  /\ added (ed w') = added (ed w) ++ (if bool_decide (bytes = []) then [] else match mode with Attach => [f] | Transcribe => [] end)
  /\ transcribing (ed w') = transcribing (ed w) ++ (if bool_decide (bytes = []) then [] else match mode with Attach => [] | Transcribe => [f] end).
Proof.
  intros [H1 (s & H2 & Hf) H3 H4] Hmode Hcan Hs f. unfold step in Hs. cbn [handle] in Hs. rewrite H2 in Hs. cbn [activity] in Hs.
  rewrite bool_decide_eq_true_2 in Hs by done. cbn [when] in Hs. apply fmap_Some in Hs as (w1 & [= <-] & ->).
  set (w2 := stopped _ _ _).
  assert (status (rec w2) = Idle /\ ed w2 = if bool_decide (bytes = []) then onRecordingEmpty mode (ed w) else onRecordingComplete f mode (ed w)) as [E1 E2].
  { subst w2. unfold stopped. recorder_cbn. rewrite Nat.eqb_refl. cbn [negb]. rewrite H4, Hmode.
    destruct bytes; (split; [by rewrite reset_status|by rewrite reset_ed]). }
  unfold close_on_error. rewrite E1. rewrite !bool_decide_eq_false_2, andb_false_r by done. split; [done|]. rewrite E2.
  case_bool_decide; [by destruct mode; cbn; rewrite !app_nil_r|].
  destruct mode; cbn [onRecordingComplete]; [by cbn; rewrite app_nil_r|]. unfold handleTranscribeRecordedAudio. rewrite Hcan by done. cbn. by rewrite app_nil_r.
Qed.

(** What is recorded arrives: from the moment the microphone is granted, whatever ticks,
    data and leftovers of earlier requests come between, pressing a button that stops hands
    the editor one file with everything the recorder reported, in order, under the name and
    the type of the recording; to be attached or to be transcribed as the button says, and
    nothing when the recorder reported nothing. *)
Theorem recording_reaches_editor (es0 es1 es2 : list event) (stop : event) (mode : AudioRecordingCompleteMode) (t0 : Z) (now : moment)
    (w w' : world) (Hsup : supported = true) (Hp : prudent_run page_loaded es0 = true) (H0 : run page_loaded es0 = Some w)
    (Hasked : startRequestIdRef (rec w) ∈ asked (env w)) (Hstop : ended_by stop = Some mode)
    (Hbeside : forallb (beside (startRequestIdRef (rec w)) (S (fresh (env w)))) (es1 ++ es2) = true)
    (H1 : run w (Granted (startRequestIdRef (rec w)) Started t0 :: es1 ++ stop :: es2 ++ [Stopped (S (fresh (env w))) now]) = Some w') :
  let bytes := reported (S (fresh (env w))) (es1 ++ es2) in
  let f := {| rec_file := createRecordedFile bytes (default FALLBACK_AUDIO_MIME_TYPE getSupportedAudioMimeType) now;
              rec_url := urls (env w); durationSeconds := duration (Some t0) (now_ms now) |} in
  let files := if bool_decide (bytes = []) then [] else [f] in
  status (rec w') = Idle
  /\ added (ed w') = added (ed w) ++ (match mode with Attach => files | Transcribe => [] end)
  /\ transcribing (ed w') = transcribing (ed w) ++ (match mode with Attach => [] | Transcribe => files end).
Proof.
  intros bytes f files. pose proof (run_good es0 page_loaded w Hsup page_loaded_good Hp H0) as Hg.
  rewrite forallb_app in Hbeside. apply andb_true_iff in Hbeside as [Hb1 Hb2]. cbn [run] in H1.
  destruct (step w (Granted _ _ _)) as [w1|] eqn:E1; [|done]. cbn [mbind option_bind] in H1. apply granted_session in E1 as [S1 X1]; [|done..].
  rewrite run_app in H1. destruct (run w1 es1) as [w2|] eqn:E2; [|done]. cbn [mbind option_bind run] in H1.
  assert (startRequestIdRef (rec w1) = startRequestIdRef (rec w)) as R1 by (unfold setting in X1; congruence).
  apply (beside_run es1 _ _ _ w1 w2 S1) in E2 as [S2 X2]; [|by rewrite R1].
  rewrite X1 in X2. unfold setting in X2. injection X2 as _ Em Et Ey _ Er Eu Ee _.
  destruct (step w2 stop) as [w3|] eqn:E3; [|done]. cbn [mbind option_bind] in H1.
  apply (ended_session _ _ stop mode w2 w3 S2 Em Hstop) in E3 as (S3 & X3 & Y3 & M3 & R3 & U3 & A3 & T3 & C3).
  rewrite run_app in H1. destruct (run w3 es2) as [w4|] eqn:E4; [|done]. cbn [mbind option_bind run] in H1.
  apply (beside_run es2 _ _ _ w3 w4 S3) in E4 as [S4 X4]; [|by rewrite R3, Er].
  unfold setting in X4. injection X4 as _ _ Et4 Ey4 Ec4 Er4 Eu4 Ee4 _.
  destruct (step w4 _) as [w5|] eqn:E5; [|done]. cbn in H1. injection H1 as <-.
  apply (stopped_session _ _ mode now w4 w5 S4) in E5 as (Z1 & Z2 & Z3); [|by rewrite Ec4|done].
  cbn [app] in *. rewrite Ee4, A3, Ee, Eu4, U3, Eu, Et4, X3, Et, Ey4, Y3, Ey in Z2. rewrite Ee4, T3, Ee, Eu4, U3, Eu, Et4, X3, Et, Ey4, Y3, Ey in Z3.
  assert (bytes = reported (S (fresh (env w))) es1 ++ reported (S (fresh (env w))) es2) as Eb by (unfold bytes, reported; by rewrite bind_app).
  rewrite <- Eb in *. split; [done|]. rewrite Z2, Z3. subst files f. case_bool_decide; by destruct mode.
Qed.
End Recorder.

(** ** A note *)

Definition opus_only (mime : jstring) : bool := js_eqb mime (u "audio/webm;codecs=opus").
Definition noon : moment := {| getDay := LocalDate 2026 7 9; getHours := 12; getMinutes := 5; getSeconds := 7; now_ms := 63400 |}.
Definition asking : list event := [Mount; Click; Cancel; Click].
Definition note_events : list event :=
  [Granted 3 Started 1000; Refused 1 true; Tick 2 2000; Data 1 [7; 8]; StopClick; Data 1 [9]; Stopped 1 noon].
Definition note_world : world := default page_loaded (run true opus_only false page_loaded asking).
Definition recorded_world : world := default page_loaded (run true opus_only false note_world note_events).

Lemma recording_reaches_editor_witness :
  added (ed recorded_world)
  = [{| rec_file := {| file_name := u "voice-note-20260809-120507.webm"; file_type := u "audio/webm;codecs=opus"; file_bytes := [7; 8; 9] |};
        rec_url := 0; durationSeconds := 62 |}]
  /\ status (rec recorded_world) = Idle.
Proof.
  assert (run true opus_only false note_world note_events = Some recorded_world) as Hrun by (vm_compute; reflexivity).
  pose proof (recording_reaches_editor true opus_only false asking [Refused 1 true; Tick 2 2000; Data 1 [7; 8]] [Data 1 [9]] StopClick Attach 1000 noon
    note_world recorded_world eq_refl eq_refl ltac:(vm_compute; reflexivity) ltac:(apply (bool_decide_unpack _); vm_compute; exact I) eq_refl eq_refl Hrun)
    as (H1 & H2 & _).
  split; [|exact H1]. rewrite H2. vm_compute. reflexivity.
Defined.

Lemma microphone_released_witness : microphones (env recorded_world) = ∅ /\ intervals (env recorded_world) = ∅.
Proof.
  apply (microphone_released true opus_only false (asking ++ note_events) recorded_world eq_refl eq_refl ltac:(vm_compute; reflexivity)).
  left. by vm_compute.
Defined.

(** Leaving while the permission is asked, or a recorder that cannot be made: the
    microphone stays open and nothing holds it. *)
Example left_open :
  (exists w, run true opus_only false page_loaded [Mount; Click; Unmount; Granted 1 Started 1000] = Some w /\ mounted w = false /\ microphones (env w) = {[0%nat]})
  /\ exists w, run true opus_only false page_loaded [Mount; Click; Granted 1 NewThrows 1000] = Some w
       /\ status (rec w) = RecorderError /\ mediaStreamRef (rec w) = None /\ microphones (env w) = {[0%nat]}.
Proof. split; eexists; (split; [vm_compute; reflexivity|]); vm_compute; split_and!; reflexivity. Qed.
