(* ===== verification/Theme.v ===== *)
(** * Themes and the looks of posts

    web/src/utils/theme.ts with blog-style.ts, style-packs.ts and post-look.ts: the theme a
    visitor asked for, the one a post's author puts over it, the scheme a style pack keeps
    the page in, and what of it the document shows.  The style sheets of the themes, which
    the bundler reads, are a parameter. *)

From S2P Require Import Prelude JSString HostUnicode JSRegExp.

(** ** Themes *)

Definition VALID_THEMES : list jstring :=
  [u "system"; u "default"; u "default-dark"; u "paper"; u "cosmic-dark"; u "twilight-dark"; u "aurora-dark"; u "abyss-dark";
   u "neon-rain-dark"; u "moonlit-forest-dark"; u "retro-terminal-dark"; u "ink-night-dark"; u "sakura-night-dark"; u "dawn";
   u "ocean-breeze"; u "matcha"; u "lavender"; u "sakura-day"; u "desert-sand"; u "porcelain"; u "retro-newspaper"; u "candy-pop";
   u "editorial"; u "editorial-dark"].
Definition THEME_COLORS : list (jstring * jstring) :=
  [(u "default", u "#faf9f5"); (u "default-dark", u "#1d1f23"); (u "paper", u "#f5ede4"); (u "cosmic-dark", u "#0c1026");
   (u "twilight-dark", u "#24172d"); (u "aurora-dark", u "#071b24"); (u "abyss-dark", u "#050d1a"); (u "neon-rain-dark", u "#100c20");
   (u "moonlit-forest-dark", u "#0b1813"); (u "retro-terminal-dark", u "#071009"); (u "ink-night-dark", u "#151b23");
   (u "sakura-night-dark", u "#201426"); (u "dawn", u "#fff3e6"); (u "ocean-breeze", u "#eaf9fb"); (u "matcha", u "#edf5e5");
   (u "lavender", u "#f4effc"); (u "sakura-day", u "#fff1f5"); (u "desert-sand", u "#f3e3c2"); (u "porcelain", u "#f5f9fc");
   (u "retro-newspaper", u "#eee3c8"); (u "candy-pop", u "#f3fbff"); (u "editorial", u "#edf3ee"); (u "editorial-dark", u "#14151b")].
(** Value and label of an option. *)
Definition THEME_OPTIONS : list (jstring * jstring) :=
  [(u "system", u "theme.system"); (u "default", u "theme.light"); (u "default-dark", u "theme.dark"); (u "paper", u "theme.paper");
   (u "cosmic-dark", u "theme.cosmic"); (u "twilight-dark", u "theme.twilight"); (u "aurora-dark", u "theme.aurora");
   (u "abyss-dark", u "theme.abyss"); (u "neon-rain-dark", u "theme.neon-rain"); (u "moonlit-forest-dark", u "theme.moonlit-forest");
   (u "retro-terminal-dark", u "theme.retro-terminal"); (u "ink-night-dark", u "theme.ink-night");
   (u "sakura-night-dark", u "theme.sakura-night"); (u "dawn", u "theme.dawn"); (u "ocean-breeze", u "theme.ocean-breeze");
   (u "matcha", u "theme.matcha"); (u "lavender", u "theme.lavender"); (u "sakura-day", u "theme.sakura-day");
   (u "desert-sand", u "theme.desert-sand"); (u "porcelain", u "theme.porcelain"); (u "retro-newspaper", u "theme.retro-newspaper");
   (u "candy-pop", u "theme.candy-pop"); (u "editorial", u "theme.editorial"); (u "editorial-dark", u "theme.editorial-dark")].

Definition valid_theme (theme : jstring) : bool := existsb (js_eqb theme) VALID_THEMES.
Definition validateTheme (theme : jstring) : jstring := if valid_theme theme then theme else u "default".
Definition isValidTheme (theme : option jstring) : bool :=
  match theme with Some [] | None => false | Some theme => valid_theme theme end.
Definition getSystemTheme (prefersDark : bool) : jstring := if prefersDark then u "default-dark" else u "default".
Definition resolveTheme (prefersDark : bool) (theme : jstring) : jstring :=
  let validTheme := validateTheme theme in if js_eqb validTheme (u "system") then getSystemTheme prefersDark else validTheme.

Definition isDarkTheme (theme : jstring) : bool := ends_with theme (u "-dark") || ends_with theme (u ".dark").

Inductive Scheme := Light | Dark.
#[export] Instance scheme_eq_dec : EqDecision Scheme.
Proof. solve_decision. Defined.

(** [theme.replace(/-dark$/, "")]. *)
Definition without_dark (theme : jstring) : jstring := if ends_with theme (u "-dark") then take (length theme - 5) theme else theme.
Definition withinScheme (schemeConstraint : option Scheme) (theme : jstring) : jstring :=
  match schemeConstraint with
  | None => theme
  | Some scheme =>
      if eqb (isDarkTheme theme) (bool_decide (scheme = Dark)) then theme
      else
        let counterpart := match scheme with Dark => theme ++ u "-dark" | Light => without_dark theme end in
        if isValidTheme (Some counterpart) && negb (js_eqb counterpart (u "system")) then counterpart
        else match scheme with Dark => u "default-dark" | Light => u "default" end
  end.

(** ** The document *)

(** The marks of a theme: the injected style sheet, the attribute, the colour of the browser's
    bar (when the page has that element) and the scheme of native controls. *)
Record document := { style_sheet : option jstring; data_theme : option jstring; theme_color : option jstring; colorScheme : option Scheme }.
(** The local storage: whether it can be read and written, and what it holds. *)
Record storage := { readable : bool; writable : bool; item : option jstring }.
(** [setItem], whose failure is caught. *)
Definition write_item (text : jstring) (s : storage) : storage :=
  if writable s then {| readable := readable s; writable := true; item := Some text |} else s.
Record page := {
  requestedTheme : option jstring; themeOverride : option jstring; schemeConstraint : option Scheme;
  prefersDark : bool; theme_item : storage; doc : document }.

Section Themes.
Context (THEME_CONTENT : jstring -> jstring).

Definition getStoredTheme (s : storage) : option jstring :=
  if readable s then match item s with Some stored => if isValidTheme (Some stored) then Some stored else None | None => None end else None.
Definition setStoredTheme (theme : jstring) (s : storage) : storage := write_item theme s.
Definition getInitialTheme (s : storage) : jstring := default (u "cosmic-dark") (getStoredTheme s).
Definition getThemeWithFallback (userTheme instanceTheme : option jstring) (s : storage) : jstring :=
  if isValidTheme userTheme then default [] userTheme
  else match getStoredTheme s with
       | Some stored => stored
       | None => if isValidTheme instanceTheme then default [] instanceTheme else u "cosmic-dark"
       end.

Definition injectThemeStyle (theme : jstring) : option jstring :=
  if js_eqb theme (u "default") then None else match THEME_CONTENT theme with [] => None | css => Some css end.
Definition color_of (theme : jstring) : option jstring := snd <$> js_find (fun entry => js_eqb entry.1 theme) THEME_COLORS.
(** [injectThemeStyle], [setThemeAttribute], [updateThemeColorMeta], [updateColorScheme]. *)
Definition marks (theme : jstring) (d : document) : document := {|
  style_sheet := injectThemeStyle theme; data_theme := Some theme;
  theme_color := match theme_color d with Some _ => color_of theme | None => None end;
  colorScheme := Some (if isDarkTheme theme then Dark else Light) |}.

Definition with_doc (d : document) (p : page) : page := {|
  requestedTheme := requestedTheme p; themeOverride := themeOverride p; schemeConstraint := schemeConstraint p;
  prefersDark := prefersDark p; theme_item := theme_item p; doc := d |}.
Definition applyResolvedTheme (requested : jstring) (p : page) : page :=
  with_doc (marks (withinScheme (schemeConstraint p) requested) (doc p)) p.
Definition with_requested (theme : jstring) (p : page) : page := {|
  requestedTheme := Some theme; themeOverride := themeOverride p; schemeConstraint := schemeConstraint p;
  prefersDark := prefersDark p; theme_item := theme_item p; doc := doc p |}.
Definition with_stored (s : storage) (p : page) : page := {|
  requestedTheme := requestedTheme p; themeOverride := themeOverride p; schemeConstraint := schemeConstraint p;
  prefersDark := prefersDark p; theme_item := s; doc := doc p |}.
Definition loadTheme (themeName : jstring) (persist : bool) (p : page) : page :=
  let validTheme := validateTheme themeName in
  let p := with_requested validTheme p in
  let p := applyResolvedTheme (default (resolveTheme (prefersDark p) validTheme) (themeOverride p)) p in
  if persist then with_stored (setStoredTheme validTheme (theme_item p)) p else p.
(** What the visitor's own theme resolves to. *)
Definition own_theme (p : page) : jstring := resolveTheme (prefersDark p) (default (getInitialTheme (theme_item p)) (requestedTheme p)).
Definition setThemeOverride (theme : option jstring) (p : page) : page :=
  if bool_decide (theme = themeOverride p) then p
  else
    let p := {| requestedTheme := requestedTheme p; themeOverride := theme; schemeConstraint := schemeConstraint p;
                prefersDark := prefersDark p; theme_item := theme_item p; doc := doc p |} in
    applyResolvedTheme (default (own_theme p) theme) p.
Definition setColorSchemeConstraint (scheme : option Scheme) (p : page) : page :=
  if bool_decide (scheme = schemeConstraint p) then p
  else
    let p := {| requestedTheme := requestedTheme p; themeOverride := themeOverride p; schemeConstraint := scheme;
                prefersDark := prefersDark p; theme_item := theme_item p; doc := doc p |} in
    applyResolvedTheme (default (own_theme p) (themeOverride p)) p.
Definition applyThemeEarly (p : page) : page := loadTheme (getInitialTheme (theme_item p)) false p.

(** hooks/useUserTheme.ts: who is signed in (once that is known) with the theme of their
    settings (once they are loaded), and the instance's first theme (once it is loaded). *)
Record settings := { identity : option (option (option (option jstring))); firstVisitDefaultTheme : option (option jstring) }.
Definition useUserTheme (s : settings) (p : page) : page :=
  match identity s, firstVisitDefaultTheme s with
  | Some None, Some first => loadTheme (getThemeWithFallback None first (theme_item p)) true p
  | Some (Some (Some theme)), Some first => loadTheme (getThemeWithFallback theme first (theme_item p)) true p
  | _, _ => p
  end.
(** The listener it leaves: the theme it loads again when the system's preference changes. *)
Definition system_listener (s : settings) (p : page) : option jstring :=
  match identity s, firstVisitDefaultTheme s with
  | Some (Some (Some theme)), Some first =>
      let theme := getThemeWithFallback theme first (theme_item p) in if js_eqb theme (u "system") then Some theme else None
  | _, _ => None
  end.
Definition system_changed (dark : bool) (listener : option jstring) (p : page) : page :=
  let p := {| requestedTheme := requestedTheme p; themeOverride := themeOverride p; schemeConstraint := schemeConstraint p;
              prefersDark := dark; theme_item := theme_item p; doc := doc p |} in
  match listener with Some theme => loadTheme theme true p | None => p end.

(** ** What the page shows *)

Definition resolved (theme : jstring) : Prop := valid_theme theme = true /\ theme <> u "system".
Definition shown_theme (p : page) : jstring := withinScheme (schemeConstraint p) (default (own_theme p) (themeOverride p)).
Definition shows (p : page) : Prop := doc p = marks (shown_theme p) (doc p).
Definition all_schemes : list (option Scheme) := [None; Some Light; Some Dark].

Lemma valid_In theme : valid_theme theme = true <-> theme ∈ VALID_THEMES.
Proof.
  unfold valid_theme. rewrite existsb_exists. split.
  - intros (x & Hx & E). apply js_eqb_true in E as ->. by apply list_elem_of_In.
  - intros H. exists theme. split; [by apply list_elem_of_In|apply js_eqb_refl].
Qed.
(** A check on every valid theme holds for any. *)
Lemma every_theme (P : jstring -> bool) theme : forallb P VALID_THEMES = true -> valid_theme theme = true -> P theme = true.
Proof. rewrite forallb_forall. intros H Hv%valid_In. apply H. by apply list_elem_of_In. Qed.

Lemma resolve_resolved dark theme : resolved (resolveTheme dark theme).
Proof.
  unfold resolveTheme, validateTheme, getSystemTheme. destruct (valid_theme theme) eqn:E.
  - destruct (js_eqb theme (u "system")) eqn:Es; [by destruct dark|]. split; [done|]. by intros ->.
  - cbn. by split.
Qed.

Definition scheme_of (theme : jstring) : Scheme := if isDarkTheme theme then Dark else Light.
Definition within_ok (c : option Scheme) (theme : jstring) : bool :=
  js_eqb theme (u "system")
  || (valid_theme (withinScheme c theme) && negb (js_eqb (withinScheme c theme) (u "system"))
      && match c with Some s => bool_decide (scheme_of (withinScheme c theme) = s) | None => true end
      && match color_of (withinScheme c theme) with Some _ => true | None => false end).
Lemma within_check : forallb (fun c => forallb (within_ok c) VALID_THEMES) all_schemes = true.
Proof. vm_compute. reflexivity. Qed.
Lemma within_resolved c theme : resolved theme ->
  resolved (withinScheme c theme) /\ (forall s, c = Some s -> scheme_of (withinScheme c theme) = s) /\ is_Some (color_of (withinScheme c theme)).
Proof.
  intros [Hv Hs]. assert (within_ok c theme = true) as H.
  { apply every_theme; [|done]. pose proof within_check as Hc. rewrite forallb_forall in Hc. apply Hc. destruct c as [[]|]; cbn; auto. }
  unfold within_ok in H. rewrite (proj2 (js_eqb_false _ _) Hs) in H. cbn [orb] in H. bool_prop. split; [split; [done|]|split].
  - intros E. rewrite E in *. done.
  - intros s ->. by bool_prop.
  - by destruct (color_of _).
Qed.

Inductive theme_op :=
  | LoadTheme (name : jstring) (persist : bool) | Override (theme : option jstring) | Constraint (scheme : option Scheme)
  | UserTheme (s : settings) | SystemChange (dark : bool) (theme : jstring).
Definition apply_op (p : page) (o : theme_op) : page :=
  match o with
  | LoadTheme name persist => loadTheme name persist p
  | Override theme => setThemeOverride theme p
  | Constraint scheme => setColorSchemeConstraint scheme p
  | UserTheme s => useUserTheme s p
  | SystemChange dark theme => system_changed dark (Some theme) p
  end.
(** The looks of posts name resolved themes. *)
Definition op_ok (o : theme_op) : Prop := match o with Override (Some theme) => resolved theme | _ => True end.

Definition coherent (p : page) : Prop := shows p /\ forall theme, themeOverride p = Some theme -> resolved theme.

Lemma marks_again theme d : marks theme (marks theme d) = marks theme d.
Proof. unfold marks. cbn [theme_color]. destruct (theme_color d); [|done]. by destruct (color_of theme). Qed.
Lemma applied_shows requested p : requested = default (own_theme p) (themeOverride p) ->
  (forall theme, themeOverride p = Some theme -> resolved theme) -> coherent (applyResolvedTheme requested p).
Proof.
  intros -> Ho. split; [|done]. unfold shows, shown_theme, applyResolvedTheme, own_theme. cbn. by rewrite marks_again.
Qed.
Lemma load_coherent name persist p : (forall theme, themeOverride p = Some theme -> resolved theme) -> coherent (loadTheme name persist p).
Proof.
  intros Ho. unfold loadTheme.
  assert (coherent (applyResolvedTheme (default (resolveTheme (prefersDark p) (validateTheme name)) (themeOverride p)) (with_requested (validateTheme name) p)))
    as H by (apply applied_shows; [done|exact Ho]).
  destruct persist; [|exact H]. exact H.
Qed.
Lemma op_coherent p o : coherent p -> op_ok o -> coherent (apply_op p o).
Proof.
  intros [Hs Ho] Hok. destruct o as [name persist|theme|scheme|s|dark theme]; cbn [apply_op].
  - by apply load_coherent.
  - unfold setThemeOverride. case_bool_decide; [done|]. apply applied_shows; [done|]. cbn. intros t ->. done.
  - unfold setColorSchemeConstraint. case_bool_decide; [done|]. apply applied_shows; [done|exact Ho].
  - unfold useUserTheme. destruct (identity s) as [[[theme|]|]|], (firstVisitDefaultTheme s); try done; by apply load_coherent.
  - unfold system_changed. by apply load_coherent.
Qed.
Lemma ops_coherent ops p : coherent p -> Forall op_ok ops -> coherent (foldl apply_op p ops).
Proof. intros H Hok. revert p H. induction Hok as [|o ops Ho _ IH]; intros p H; cbn; [done|]. by apply IH, op_coherent. Qed.

Lemma own_resolved p : resolved (own_theme p).
Proof. apply resolve_resolved. Qed.
Lemma shown_resolved p : coherent p ->
  resolved (shown_theme p) /\ (forall s, schemeConstraint p = Some s -> scheme_of (shown_theme p) = s) /\ is_Some (color_of (shown_theme p)).
Proof.
  intros [_ Ho]. apply within_resolved. destruct (themeOverride p) as [theme|] eqn:E; cbn; [by apply Ho|apply own_resolved].
Qed.

(** The marks of the document agree: whatever themes are asked for, looks of posts put on
    and taken off, packs shown and preferences changed, in any order, the document carries
    the style sheet, the attribute, the colour and the scheme of one theme; that theme is
    the look's, or else what the visitor's own resolves to, turned to the scheme of the
    showing pack when it has one, and it is always a real theme with a colour. *)
Theorem page_shows_one_theme (p0 : page) (ops : list theme_op) (Hfresh : themeOverride p0 = None) (Hok : Forall op_ok ops) :
  let p := foldl apply_op (applyThemeEarly p0) ops in
  let theme := withinScheme (schemeConstraint p) (default (own_theme p) (themeOverride p)) in
  doc p = {| style_sheet := injectThemeStyle theme; data_theme := Some theme;
             theme_color := (match theme_color (doc p) with Some _ => color_of theme | None => None end); colorScheme := Some (scheme_of theme) |}
  /\ valid_theme theme = true /\ theme <> u "system" /\ is_Some (color_of theme)
  /\ (forall s, schemeConstraint p = Some s -> colorScheme (doc p) = Some s).
Proof.
  intros p theme. assert (coherent p) as H.
  { apply ops_coherent; [|done]. apply load_coherent. by rewrite Hfresh. }
  destruct (shown_resolved p H) as ([Hv Hn] & Hs & Hc). destruct H as [H _]. unfold shows in H.
  split; [exact H|]. split; [done|]. split; [done|]. split; [done|]. intros s Es. rewrite H. unfold marks. cbn. f_equal. by apply Hs.
Qed.

(** Looks and packs leave nothing behind: once the look is off and no pack limits the scheme,
    the page is what it was. *)
Definition is_look (o : theme_op) : bool := match o with Override _ | Constraint _ => true | _ => false end.
Lemma look_keeps ops p : forallb is_look ops = true ->
  let p' := foldl apply_op p ops in
  requestedTheme p' = requestedTheme p /\ prefersDark p' = prefersDark p /\ theme_item p' = theme_item p.
Proof.
  revert p. induction ops as [|o ops IH]; intros p H; cbn in *; [done|]. apply andb_true_iff in H as [Ho H].
  destruct (IH (apply_op p o) H) as (-> & -> & ->). destruct o; try done; cbn; unfold setThemeOverride, setColorSchemeConstraint; by case_bool_decide.
Qed.
Lemma look_lifted p ops : coherent p -> Forall op_ok ops -> forallb is_look ops = true ->
  let p' := foldl apply_op p ops in
  themeOverride p' = themeOverride p -> schemeConstraint p' = schemeConstraint p -> (is_Some (theme_color (doc p')) <-> is_Some (theme_color (doc p))) ->
  p' = p.
Proof.
  intros H Hok Hl p' E1 E2 E3. destruct (ops_coherent ops p H Hok) as [Hs' _]. fold p' in Hs'. destruct H as [Hs _].
  destruct (look_keeps ops p Hl) as (E4 & E5 & E6). fold p' in E4, E5, E6.
  assert (shown_theme p' = shown_theme p) as Et by (unfold shown_theme, own_theme; by rewrite E1, E2, E4, E5, E6).
  assert (doc p' = doc p) as Ed.
  { unfold shows in Hs, Hs'. rewrite Hs, Hs', Et. unfold marks. destruct (theme_color (doc p')), (theme_color (doc p)); try done; exfalso.
    - destruct E3 as [E3 _]. by destruct E3.
    - destruct E3 as [_ E3]. by destruct E3. }
  destruct p, p'. cbn in *. congruence.
Qed.
End Themes.

(** ** Styles, packs and looks *)

Definition BLOG_STYLES : list jstring :=
  [u "default"; u "glass"; u "neumorphism"; u "aero"; u "y2k"; u "vaporwave"; u "pixel"; u "handdrawn"; u "terminal"; u "golden"].
Definition SECRET_BLOG_STYLES : list jstring := [u "golden"].
Definition DEFAULT_BLOG_STYLE : jstring := u "default".
Definition isBlogStyle (value : jstring) : bool := existsb (js_eqb value) BLOG_STYLES.

Record StylePack := { pack_id : jstring; pack_name : list (jstring * jstring); reactsLike : jstring; pack_scheme : jstring }.
Definition is_id_char (c : Z) : bool := is_lower_ascii c || is_digit c || (c =? 45).
Definition STYLE_PACK_ID : re := (StartOf false +++ between 3 32 (Chars is_id_char) +++ EndOf false)%re.
Definition isStylePackId (value : jstring) : bool :=
  test false STYLE_PACK_ID value && negb (isBlogStyle value) && negb (starts_with value (u "memos-")).
Definition stylePackBase (pack : option StylePack) : jstring :=
  match pack with Some pack => if isBlogStyle (reactsLike pack) then reactsLike pack else DEFAULT_BLOG_STYLE | None => DEFAULT_BLOG_STYLE end.
Definition stylePackScheme (pack : option StylePack) : option Scheme :=
  match pack with
  | Some pack => if js_eqb (pack_scheme pack) (u "light") then Some Light else if js_eqb (pack_scheme pack) (u "dark") then Some Dark else None
  | None => None
  end.
(** A name that is there and not empty. *)
Definition named (names : list (jstring * jstring)) (key : jstring) : option jstring :=
  match js_find (fun kv => js_eqb kv.1 key) names with Some (_, []) | None => None | Some (_, name) => Some name end.
Definition stylePackLabel (pack : StylePack) (locale : jstring) : jstring :=
  let names := pack_name pack in
  let base := default [] (head (split_on 45 locale)) in
  match named names locale with
  | Some name => name
  | None => match named names base with
    | Some name => name
    | None => match named names (u "en") with
      | Some name => name
      | None => default (pack_id pack) (snd <$> js_find (fun kv => negb (js_eqb kv.2 [])) names)
      end
    end
  end.

Definition STYLE_TAG_PREFIX : jstring := u "style/".
Definition THEME_TAG_PREFIX : jstring := u "theme/".
Record PostLook := { look_style : option jstring; look_pack : option jstring; look_theme : option jstring }.
Definition TAGGABLE_STYLES : list jstring := js_filter (fun style => negb (existsb (js_eqb style) SECRET_BLOG_STYLES)) BLOG_STYLES.
(** [labelKey.replace(/^theme\./, "")]. *)
Definition short_name (labelKey : jstring) : jstring := if starts_with labelKey (u "theme.") then drop 6 labelKey else labelKey.
Definition option_names (option : jstring * jstring) : list (jstring * jstring) :=
  if js_eqb option.1 (u "system") then [] else [(short_name option.2, option.1); (option.1, option.1)].
(** The map keeps the last value of a name. *)
Definition THEME_TAG_NAMES (name : jstring) : option jstring :=
  snd <$> js_find (fun entry => js_eqb entry.1 name) (rev (THEME_OPTIONS ≫= option_names)).

Section Looks.
Context {host : HostUnicode}.
Definition tagValue (tags : list jstring) (prefix : jstring) : option jstring :=
  (fun tag => slice_from tag (length prefix))
    <$> js_find (fun tag => starts_with tag prefix && (length prefix <? length tag)%nat) ((fun tag => to_lower (trim tag)) <$> tags).
Definition postLookOf (tags stylePackIds : list jstring) : PostLook :=
  let styleName := tagValue tags STYLE_TAG_PREFIX in
  let themeName := tagValue tags THEME_TAG_PREFIX in
  let style := match styleName with Some name => js_find (fun candidate => js_eqb candidate name) TAGGABLE_STYLES | None => None end in
  {| look_style := style;
     look_pack := match style, styleName with None, Some name => if existsb (js_eqb name) stylePackIds then Some name else None | _, _ => None end;
     look_theme := match themeName with Some name => THEME_TAG_NAMES name | None => None end |}.
Definition hasPostLook (look : option PostLook) : bool :=
  match look with Some {| look_style := None; look_pack := None; look_theme := None |} | None => false | Some _ => true end.

Definition names_check : bool :=
  forallb (fun entry => bool_decide (THEME_TAG_NAMES entry.1 = Some entry.2) && valid_theme entry.2 && negb (js_eqb entry.2 (u "system"))
             && is_ascii entry.1 && js_eqb (lower_ascii <$> entry.1) entry.1 && js_eqb (trim (THEME_TAG_PREFIX ++ entry.1)) (THEME_TAG_PREFIX ++ entry.1)
             && negb (js_eqb entry.1 []))
    (THEME_OPTIONS ≫= option_names).
Lemma names_checked : names_check = true.
Proof. vm_compute. reflexivity. Qed.
Definition styles_check : bool :=
  forallb (fun style => negb (existsb (js_eqb style) SECRET_BLOG_STYLES) && is_ascii style && js_eqb (lower_ascii <$> style) style
             && js_eqb (trim (STYLE_TAG_PREFIX ++ style)) (STYLE_TAG_PREFIX ++ style) && negb (js_eqb style []) && isBlogStyle style) TAGGABLE_STYLES.
Lemma styles_checked : styles_check = true.
Proof. vm_compute. reflexivity. Qed.

Lemma names_In name value : (name, value) ∈ THEME_OPTIONS ≫= option_names ->
  THEME_TAG_NAMES name = Some value /\ resolved value /\ is_ascii name = true /\ (lower_ascii <$> name) = name
  /\ trim (THEME_TAG_PREFIX ++ name) = THEME_TAG_PREFIX ++ name /\ name <> [].
Proof.
  intros Hin%list_elem_of_In. pose proof names_checked as H. unfold names_check in H. rewrite forallb_forall in H. specialize (H _ Hin).
  rewrite !andb_true_iff, !negb_true_iff, bool_decide_eq_true, !js_eqb_true, !js_eqb_false in H. cbn [fst snd] in H. unfold resolved. tauto.
Qed.
Lemma THEME_TAG_NAMES_resolved name value : THEME_TAG_NAMES name = Some value -> resolved value.
Proof.
  unfold THEME_TAG_NAMES. intros ([n v] & Hf & [= ->])%fmap_Some. apply js_find_Some in Hf as [Hin _].
  apply (names_In n v). by rewrite elem_of_reverse in Hin || (apply list_elem_of_In, in_rev, list_elem_of_In).
Qed.

(** The one tag with a prefix and a plain name. *)
Lemma tagValue_one `{!HostUnicodeLaws} prefix name : is_ascii (prefix ++ name) = true -> (lower_ascii <$> (prefix ++ name)) = prefix ++ name ->
  trim (prefix ++ name) = prefix ++ name -> name <> [] -> tagValue [prefix ++ name] prefix = Some name.
Proof.
  intros Ha Hl Ht Hn. unfold tagValue. cbn [fmap list_fmap js_find]. rewrite Ht, to_lower_ascii, Hl by done.
  assert (starts_with (prefix ++ name) prefix = true) as -> by (apply starts_with_spec; by eexists).
  rewrite (proj2 (Nat.ltb_lt _ _)); [cbn; f_equal; unfold slice_from; by rewrite drop_app_length|]. rewrite length_app. destruct name; [done|cbn; lia].
Qed.

(** The tags of a post choose its look: both names of every theme but the system's choose
    that theme, every style a tag may choose is chosen by its name, and whatever the tags
    are, the look names a style that is not secret, or else a pack that is enabled, and a
    real theme. *)
Theorem look_of_tags `{laws : !HostUnicodeLaws} (tags ids : list jstring) :
  (forall name value, (name, value) ∈ THEME_OPTIONS ≫= option_names -> look_theme (postLookOf [THEME_TAG_PREFIX ++ name] ids) = Some value)
  /\ (forall style, style ∈ TAGGABLE_STYLES -> look_style (postLookOf [STYLE_TAG_PREFIX ++ style] ids) = Some style)
  /\ (forall style, look_style (postLookOf tags ids) = Some style -> isBlogStyle style = true /\ style ∉ SECRET_BLOG_STYLES)
  /\ (forall pack, look_pack (postLookOf tags ids) = Some pack -> pack ∈ ids /\ look_style (postLookOf tags ids) = None)
  /\ (forall theme, look_theme (postLookOf tags ids) = Some theme -> valid_theme theme = true /\ theme <> u "system").
Proof.
  assert (forall style, style ∈ TAGGABLE_STYLES -> style ∉ SECRET_BLOG_STYLES /\ is_ascii style = true /\ (lower_ascii <$> style) = style
    /\ trim (STYLE_TAG_PREFIX ++ style) = STYLE_TAG_PREFIX ++ style /\ style <> [] /\ isBlogStyle style = true) as Hst.
  { intros style Hin%list_elem_of_In. pose proof styles_checked as H. unfold styles_check in H. rewrite forallb_forall in H. specialize (H _ Hin).
    rewrite !andb_true_iff, !negb_true_iff, !js_eqb_true, js_eqb_false in H. destruct H as [[[[[H1 H2] H3] H4] H5] H6]. split_and!; try done.
    intros ->%list_elem_of_singleton. by vm_compute in H1. }
  split_and!.
  - intros name value (H1 & _ & H3 & H4 & H5 & H6)%names_In. unfold postLookOf. cbn [look_theme]. rewrite tagValue_one; [done| | |done|done].
    + unfold is_ascii. rewrite forallb_app. by rewrite (H3 : forallb _ name = true).
    + rewrite fmap_app. by rewrite H4.
  - intros style Hin. destruct (Hst _ Hin) as (H1 & H2 & H3 & H4 & H5 & _). unfold postLookOf. cbn [look_style]. rewrite tagValue_one; [|..|done|done].
    + destruct (js_find _ _) as [x|] eqn:E; [by apply js_find_Some in E as [_ ->%js_eqb_true]|].
      rewrite js_find_None in E. specialize (E _ Hin). by rewrite js_eqb_refl in E.
    + unfold is_ascii. rewrite forallb_app. by rewrite (H2 : forallb _ style = true).
    + rewrite fmap_app. by rewrite H3.
  - intros style. unfold postLookOf. cbn [look_style]. destruct (tagValue tags STYLE_TAG_PREFIX); [|done]. intros [Hin _]%js_find_Some.
    by destruct (Hst _ Hin) as (? & _ & _ & _ & _ & ?).
  - intros pack. unfold postLookOf. cbn [look_pack look_style]. destruct (tagValue tags STYLE_TAG_PREFIX) as [name|]; [|done].
    destruct (js_find _ _); [done|]. destruct (existsb _ _) eqn:E; [|done]. intros [= <-]. split; [|done].
    apply existsb_exists in E as (x & Hx & ->%js_eqb_true). by apply list_elem_of_In.
  - intros theme. unfold postLookOf. cbn [look_theme]. destruct (tagValue tags THEME_TAG_PREFIX); [|done]. apply THEME_TAG_NAMES_resolved.
Qed.
End Looks.

(** ** Samples *)

Definition sheet_of (theme : jstring) : jstring := u "/* " ++ theme ++ u " */".
Definition first_page : page := {|
  requestedTheme := None; themeOverride := None; schemeConstraint := None; prefersDark := false;
  theme_item := {| readable := true; writable := true; item := None |};
  doc := {| style_sheet := None; data_theme := None; theme_color := Some []; colorScheme := None |} |}.
Definition sample_ops : list theme_op :=
  [LoadTheme (u "editorial-dark") true; Override (Some (u "matcha")); Constraint (Some Dark); Override None; Constraint (Some Light)].

Lemma page_shows_one_theme_witness :
  doc (foldl (apply_op sheet_of) (applyThemeEarly sheet_of first_page) sample_ops)
  = {| style_sheet := Some (sheet_of (u "editorial")); data_theme := Some (u "editorial"); theme_color := Some (u "#edf3ee"); colorScheme := Some Light |}
  /\ valid_theme (u "editorial") = true.
Proof.
  assert (Forall op_ok sample_ops) as Hok by (repeat constructor; by vm_compute).
  destruct (page_shows_one_theme sheet_of first_page sample_ops eq_refl Hok) as (H & Hv & _). split; [|exact Hv].
  rewrite H. vm_compute. reflexivity.
Defined.

Lemma look_of_tags_witness : look_theme (@postLookOf ascii_host [u "theme/neon-rain"] []) = Some (u "neon-rain-dark").
Proof.
  destruct (look_of_tags (host := ascii_host) (laws := ascii_host_laws) [] []) as [H _]. apply H.
  apply (bool_decide_unpack _). vm_compute. exact I.
Defined.
