(* ===== verification/ViewContext.v ===== *)
(** * View settings

    web/src/contexts/ViewContext.tsx: how memos are ordered and laid out, the style of the
    blog with the packs, post looks and previews over it, what of it is saved in the
    browser, and the effects that mirror it onto the page.  The state of the provider is a
    record; an operation is followed by the effects of the render it causes. *)

From S2P Require Import Prelude JSString JSON JSONText JSRegExp Theme.

Inductive MemoTimeBasis := create_time | update_time.
Inductive MemoFeedLayout := MemoLayout | BlogClassic | Blog2.
#[export] Instance basis_eq_dec : EqDecision MemoTimeBasis.
Proof. solve_decision. Defined.
#[export] Instance layout_eq_dec : EqDecision MemoFeedLayout.
Proof. solve_decision. Defined.
Definition MAX_COLUMNS_VALUES : list Z := [1; 2; 3; 0].

Record ViewState := {
  orderByTimeAsc : bool; timeBasis : option MemoTimeBasis; compactMode : bool; linkPreview : bool; maxColumns : Z;
  feedLayout : MemoFeedLayout; blogStyle : jstring; stylePack : option jstring }.
Definition DEFAULT_VIEW_STATE : ViewState := {|
  orderByTimeAsc := false; timeBasis := None; compactMode := true; linkPreview := true; maxColumns := 1; feedLayout := Blog2;
  blogStyle := DEFAULT_BLOG_STYLE; stylePack := None |}.

(** ** What is saved *)

Definition basis_name (b : MemoTimeBasis) : jstring := match b with create_time => u "create_time" | update_time => u "update_time" end.
Definition layout_name (l : MemoFeedLayout) : jstring :=
  match l with MemoLayout => u "memo" | BlogClassic => u "blog-classic" | Blog2 => u "blog2" end.
(** The object that is written; what is undefined is left out. *)
Definition view_json (s : ViewState) : json :=
  JObj ([(u "orderByTimeAsc", JBool (orderByTimeAsc s))]
        ++ (match timeBasis s with Some b => [(u "timeBasis", JStr (basis_name b))] | None => [] end)
        ++ [(u "compactMode", JBool (compactMode s)); (u "linkPreview", JBool (linkPreview s)); (u "maxColumns", JNum (inject_Z (maxColumns s)));
            (u "feedLayout", JStr (layout_name (feedLayout s))); (u "blogStyle", JStr (blogStyle s))]
        ++ (match stylePack s with Some id => [(u "stylePack", JStr id)] | None => [] end)).

(** [Boolean(value ?? fallback)]. *)
Definition truthy (value : option json) (fallback : bool) : bool :=
  match value with
  | None | Some JNull => fallback
  | Some (JBool b) => b
  | Some (JNum q) => negb (Qeq_bool q 0)
  | Some (JStr s) => negb (js_eqb s [])
  | Some (JInfinity _) | Some (JArr _) | Some (JObj _) => true
  end.
(** [a ?? b]. *)
Definition or_else (a b : option json) : option json := match a with None | Some JNull => b | _ => a end.
Definition basis_of (value : option json) : option MemoTimeBasis :=
  match value with
  | Some (JStr s) => if js_eqb s (u "create_time") then Some create_time else if js_eqb s (u "update_time") then Some update_time else None
  | _ => None
  end.
Definition columns_of (value : option json) : Z :=
  match value with
  | Some (JNum q) => if is_integer q && existsb (Z.eqb (int_value q)) MAX_COLUMNS_VALUES then int_value q else maxColumns DEFAULT_VIEW_STATE
  | _ => maxColumns DEFAULT_VIEW_STATE
  end.
Definition layout_of (value : option json) : MemoFeedLayout :=
  match value with
  | Some (JStr s) =>
      if js_eqb s (u "blog") then Blog2 else if js_eqb s (u "memo") then MemoLayout else if js_eqb s (u "blog-classic") then BlogClassic
      else if js_eqb s (u "blog2") then Blog2 else feedLayout DEFAULT_VIEW_STATE
  | _ => feedLayout DEFAULT_VIEW_STATE
  end.
Definition is_text (value : option json) (s : jstring) : bool := match value with Some (JStr t) => js_eqb t s | _ => false end.
Definition normalizedState (data : jstring -> option json) : ViewState :=
  let layout := layout_of (data (u "feedLayout")) in
  let in_blog2 := bool_decide (layout = Blog2) in
  {| orderByTimeAsc := truthy (data (u "orderByTimeAsc")) (orderByTimeAsc DEFAULT_VIEW_STATE);
     timeBasis := basis_of (or_else (data (u "timeBasis")) (data (u "sortTimeField")));
     compactMode := truthy (data (u "compactMode")) (compactMode DEFAULT_VIEW_STATE);
     linkPreview := truthy (data (u "linkPreview")) (linkPreview DEFAULT_VIEW_STATE);
     maxColumns := columns_of (data (u "maxColumns"));
     feedLayout := layout;
     blogStyle := match data (u "blogStyle") with
                  | Some (JStr s) => if in_blog2 && isBlogStyle s then s else DEFAULT_BLOG_STYLE | _ => DEFAULT_BLOG_STYLE end;
     stylePack := match data (u "stylePack") with
                  | Some (JStr id) => if in_blog2 && isStylePackId id then Some id else None | _ => None end |}.
(** The properties of what was parsed; reading one of [null] throws. *)
Definition read_object (j : json) : option (jstring -> option json) :=
  match j with JNull => None | JObj o => Some (prop o) | _ => Some (fun _ => None) end.
(** The state to start with, and the storage after a change of format was written back. *)
Definition getInitialState (s : storage) : ViewState * storage :=
  let failed := (DEFAULT_VIEW_STATE, s) in
  if negb (readable s) then failed
  else match item s with
  | Some [] | None => failed
  | Some cached =>
      match JSON_parse cached ≫= read_object with
      | None => failed
      | Some data =>
          let state := normalizedState data in
          if is_text (data (u "feedLayout")) (u "blog") || negb (is_text (data (u "blogStyle")) (blogStyle state)) then
            if writable s then (state, {| readable := readable s; writable := true; item := Some (stringify (view_json state)) |}) else failed
          else (state, s)
      end
  end.
Definition hasSavedView (s : storage) : bool := readable s && match item s with Some _ => true | None => false end.
Definition persistToStorage (state : ViewState) (s : storage) : storage := write_item (stringify (view_json state)) s.

(** ** The provider *)

Record PackPreview := { preview_pack : StylePack; expiresAt : option Z }.
Record view := {
  viewState : ViewState; postLook : option PostLook; loadedStylePacks : option (list StylePack); packPreview : option PackPreview;
  hadSavedView : bool; view_item : storage; the_page : page; data_style : option jstring; data_style_pack : bool }.

Definition findPack (packs : list StylePack) (id : option jstring) : option StylePack :=
  match id with Some [] | None => None | Some id => js_find (fun pack => js_eqb (pack_id pack) id) packs end.
Definition known (id : option jstring) : option jstring := match id with Some [] => None | _ => id end.

Section Shown.
Context (v : view).
Definition stylePacks : list StylePack := default [] (loadedStylePacks v).
Definition preview : option StylePack := preview_pack <$> packPreview v.
Definition shown_layout : MemoFeedLayout := match preview with Some _ => Blog2 | None => feedLayout (viewState v) end.
Definition blog2 : bool := bool_decide (shown_layout = Blog2).
Definition post_style : option jstring := postLook v ≫= fun look => known (look_style look).
Definition postPack : option StylePack :=
  if blog2 && bool_decide (post_style = None) then findPack stylePacks (postLook v ≫= look_pack) else None.
Definition savedPackId : option jstring :=
  match known (stylePack (viewState v)) with
  | Some id =>
      if blog2 && bool_decide (post_style = None) && (if postPack then false else true)
         && (match loadedStylePacks v with None => true | Some _ => match findPack stylePacks (Some id) with Some _ => true | None => false end end)
      then Some id else None
  | None => None
  end.
Definition shown_pack : option StylePack :=
  match preview with
  | Some pack => Some pack
  | None => match postPack with Some pack => Some pack | None => findPack stylePacks savedPackId end
  end.
Definition styleId : jstring :=
  match preview with
  | Some pack => pack_id pack
  | None =>
      match (if blog2 then post_style else None) with
      | Some style => style
      | None => match shown_pack with
        | Some pack => pack_id pack
        | None => default (blogStyle (viewState v)) savedPackId
        end
      end
  end.
Definition shown_blogStyle : jstring :=
  match preview with
  | Some pack => stylePackBase (Some pack)
  | None =>
      match (if blog2 then post_style else None) with
      | Some style => style
      | None => match savedPackId, postPack with None, None => blogStyle (viewState v) | _, _ => stylePackBase shown_pack end
      end
  end.
Definition sceneStyle : jstring := if isBlogStyle styleId then styleId else DEFAULT_BLOG_STYLE.
Definition packScheme : option Scheme := stylePackScheme shown_pack.
Definition shown_timeBasis : MemoTimeBasis := default create_time (timeBasis (viewState v)).
Definition wearingPack : bool := blog2 && negb (isBlogStyle styleId).
End Shown.

(** ** Operations *)

Section Operations.
Context (THEME_CONTENT : jstring -> jstring).

Definition with_state (s : ViewState) (v : view) : view := {|
  viewState := s; postLook := postLook v; loadedStylePacks := loadedStylePacks v; packPreview := packPreview v;
  hadSavedView := hadSavedView v; view_item := view_item v; the_page := the_page v; data_style := data_style v; data_style_pack := data_style_pack v |}.
Definition updateState (patch : ViewState -> ViewState) (v : view) : view :=
  let newState := patch (viewState v) in {|
  viewState := newState; postLook := postLook v; loadedStylePacks := loadedStylePacks v; packPreview := packPreview v;
  hadSavedView := true; view_item := persistToStorage newState (view_item v); the_page := the_page v; data_style := data_style v;
  data_style_pack := data_style_pack v |}.
Definition with_preview (p : option PackPreview) (v : view) : view := {|
  viewState := viewState v; postLook := postLook v; loadedStylePacks := loadedStylePacks v; packPreview := p;
  hadSavedView := hadSavedView v; view_item := view_item v; the_page := the_page v; data_style := data_style v; data_style_pack := data_style_pack v |}.
Definition with_page (p : page) (v : view) : view := {|
  viewState := viewState v; postLook := postLook v; loadedStylePacks := loadedStylePacks v; packPreview := packPreview v;
  hadSavedView := hadSavedView v; view_item := view_item v; the_page := p; data_style := data_style v; data_style_pack := data_style_pack v |}.
Definition setPostLook (look : option PostLook) (v : view) : view := {|
  viewState := viewState v; postLook := look; loadedStylePacks := loadedStylePacks v; packPreview := packPreview v;
  hadSavedView := hadSavedView v; view_item := view_item v;
  the_page := setThemeOverride THEME_CONTENT (look ≫= look_theme) (the_page v); data_style := data_style v; data_style_pack := data_style_pack v |}.
Definition setStylePacks (packs : list StylePack) (v : view) : view := {|
  viewState := viewState v; postLook := postLook v; loadedStylePacks := Some packs; packPreview := packPreview v;
  hadSavedView := hadSavedView v; view_item := view_item v; the_page := the_page v; data_style := data_style v; data_style_pack := data_style_pack v |}.

(** The patches of the setters. *)
Definition patch_order (value : bool) (s : ViewState) : ViewState := {|
  orderByTimeAsc := value; timeBasis := timeBasis s; compactMode := compactMode s; linkPreview := linkPreview s; maxColumns := maxColumns s;
  feedLayout := feedLayout s; blogStyle := blogStyle s; stylePack := stylePack s |}.
Definition patch_basis (field : MemoTimeBasis) (s : ViewState) : ViewState := {|
  orderByTimeAsc := orderByTimeAsc s; timeBasis := Some field; compactMode := compactMode s; linkPreview := linkPreview s;
  maxColumns := maxColumns s; feedLayout := feedLayout s; blogStyle := blogStyle s; stylePack := stylePack s |}.
Definition patch_compact (value : bool) (s : ViewState) : ViewState := {|
  orderByTimeAsc := orderByTimeAsc s; timeBasis := timeBasis s; compactMode := value; linkPreview := linkPreview s;
  maxColumns := maxColumns s; feedLayout := feedLayout s; blogStyle := blogStyle s; stylePack := stylePack s |}.
Definition patch_links (value : bool) (s : ViewState) : ViewState := {|
  orderByTimeAsc := orderByTimeAsc s; timeBasis := timeBasis s; compactMode := compactMode s; linkPreview := value;
  maxColumns := maxColumns s; feedLayout := feedLayout s; blogStyle := blogStyle s; stylePack := stylePack s |}.
Definition patch_columns (value : Z) (s : ViewState) : ViewState := {|
  orderByTimeAsc := orderByTimeAsc s; timeBasis := timeBasis s; compactMode := compactMode s; linkPreview := linkPreview s;
  maxColumns := value; feedLayout := feedLayout s; blogStyle := blogStyle s; stylePack := stylePack s |}.
Definition patch_layout (value : MemoFeedLayout) (s : ViewState) : ViewState := {|
  orderByTimeAsc := orderByTimeAsc s; timeBasis := timeBasis s; compactMode := compactMode s; linkPreview := linkPreview s;
  maxColumns := maxColumns s; feedLayout := value; blogStyle := match value with Blog2 => blogStyle s | _ => DEFAULT_BLOG_STYLE end;
  stylePack := match value with Blog2 => stylePack s | _ => None end |}.
Definition patch_style (style : jstring) (pack : option jstring) (s : ViewState) : ViewState := {|
  orderByTimeAsc := orderByTimeAsc s; timeBasis := timeBasis s; compactMode := compactMode s; linkPreview := linkPreview s;
  maxColumns := maxColumns s; feedLayout := feedLayout s; blogStyle := style; stylePack := pack |}.

Definition setFeedLayout (value : MemoFeedLayout) (v : view) : view := updateState (patch_layout value) (with_preview None v).
Definition setBlogStyle (value : jstring) (v : view) : view := updateState (patch_style value None) (setPostLook None (with_preview None v)).
Definition setStylePack (id : jstring) (v : view) : view :=
  updateState (fun s => patch_style (blogStyle s) (Some id) s) (setPostLook None (with_preview None v)).
Definition resetToDefaults (v : view) : view :=
  let v := setPostLook None (with_preview None v) in {|
  viewState := DEFAULT_VIEW_STATE; postLook := postLook v; loadedStylePacks := loadedStylePacks v; packPreview := packPreview v;
  hadSavedView := false;
  view_item := if readable (view_item v) then {| readable := true; writable := writable (view_item v); item := None |} else view_item v;
  the_page := the_page v; data_style := data_style v; data_style_pack := data_style_pack v |}.
Definition applyFirstVisitStyle (value : jstring) (v : view) : view :=
  if hadSavedView v then v
  else if isBlogStyle value then with_state (patch_style value None (viewState v)) v
  else if isStylePackId value then with_state (patch_style (blogStyle (viewState v)) (Some value) (viewState v)) v
  else v.

(** The effects of a render: the marks on the page, and a pack that is no longer there. *)
Definition mirrored (v : view) : view := {|
  viewState := viewState v; postLook := postLook v; loadedStylePacks := loadedStylePacks v; packPreview := packPreview v;
  hadSavedView := hadSavedView v; view_item := view_item v;
  the_page := if bool_decide (packScheme v = schemeConstraint (the_page v)) then the_page v
              else setColorSchemeConstraint THEME_CONTENT (packScheme v) (setColorSchemeConstraint THEME_CONTENT None (the_page v));
  data_style := if blog2 v then Some (styleId v) else None; data_style_pack := wearingPack v |}.
Definition vanished (v : view) : bool :=
  match loadedStylePacks v, known (stylePack (viewState v)) with
  | Some packs, Some id => negb (existsb (fun pack => js_eqb (pack_id pack) id) packs)
  | _, _ => false
  end.
Definition fall_back (v : view) : view :=
  let fallback := patch_style DEFAULT_BLOG_STYLE None in
  if hadSavedView v then updateState fallback v else with_state (fallback (viewState v)) v.
Definition render (v : view) : view := let v := mirrored v in if vanished v then mirrored (fall_back v) else v.

Inductive view_op :=
  | SetOrder (value : bool) | SetTimeBasis (field : MemoTimeBasis) | SetCompactMode (value : bool) | SetLinkPreview (value : bool)
  | SetMaxColumns (value : Z) | SetFeedLayout (value : MemoFeedLayout) | SetBlogStyle (value : jstring) | SetStylePack (id : jstring)
  | StartPreview (p : PackPreview) | EndPreview | SetStylePacks (packs : list StylePack) | SetPostLook (look : option PostLook)
  | ThemeChosen (name : jstring) | ResetToDefaults | FirstVisitStyle (value : jstring).
Definition apply_view (o : view_op) (v : view) : view :=
  match o with
  | SetOrder value => updateState (patch_order value) v
  | SetTimeBasis field => updateState (patch_basis field) v
  | SetCompactMode value => updateState (patch_compact value) v
  | SetLinkPreview value => updateState (patch_links value) v
  | SetMaxColumns value => updateState (patch_columns value) v
  | SetFeedLayout value => setFeedLayout value v
  | SetBlogStyle value => setBlogStyle value v
  | SetStylePack id => setStylePack id v
  | StartPreview p => with_preview (Some p) v
  | EndPreview => with_preview None v
  | SetStylePacks packs => setStylePacks packs v
  | SetPostLook look => setPostLook look v
  | ThemeChosen name => setPostLook None (with_page (loadTheme THEME_CONTENT name true (the_page v)) v)
  | ResetToDefaults => resetToDefaults v
  | FirstVisitStyle value => applyFirstVisitStyle value v
  end.
Definition step_view (v : view) (o : view_op) : view := render (apply_view o v).
(** The provider as it mounts. *)
Definition mount_view (s : storage) (p : page) : view :=
  let (state, s') := getInitialState s in
  render {| viewState := state; postLook := None; loadedStylePacks := None; packPreview := None; hadSavedView := hasSavedView s'; view_item := s';
            the_page := p; data_style := None; data_style_pack := false |}.
End Operations.

(** ** Saving and loading *)

Definition view_ok (s : ViewState) : Prop :=
  maxColumns s ∈ MAX_COLUMNS_VALUES /\ isBlogStyle (blogStyle s) = true
  /\ (forall id, stylePack s = Some id -> isStylePackId id = true)
  /\ (feedLayout s <> Blog2 -> blogStyle s = DEFAULT_BLOG_STYLE /\ stylePack s = None).

Lemma normalized_ok data : view_ok (normalizedState data).
Proof.
  unfold view_ok, normalizedState. cbn [maxColumns blogStyle stylePack feedLayout]. split_and!.
  - unfold columns_of. destruct (data (u "maxColumns")) as [[]|]; try (cbn; set_solver). destruct (_ && _) eqn:E; [|cbn; set_solver].
    apply andb_true_iff in E as [_ (x & Hx & ->%Z.eqb_eq)%existsb_exists]. by apply list_elem_of_In.
  - destruct (data (u "blogStyle")) as [[]|]; try done. destruct (bool_decide _ && _) eqn:E; [|done]. by apply andb_true_iff in E as [_ ?].
  - intros id. destruct (data (u "stylePack")) as [[]|]; try done. destruct (bool_decide _ && _) eqn:E; [|done]. intros [= <-].
    by apply andb_true_iff in E as [_ ?].
  - intros Hl. rewrite bool_decide_eq_false_2 by done. destruct (data (u "blogStyle")) as [[]|], (data (u "stylePack")) as [[]|]; done.
Qed.

Lemma style_pack_chars id : isStylePackId id = true -> Forall (fun c => is_id_char c = true) id /\ id <> [].
Proof.
  unfold isStylePackId. rewrite !andb_true_iff. intros [[H _] _]. unfold test in H.
  destruct (exec_from false STYLE_PACK_ID id 0) as [m|] eqn:E; [|done].
  apply exec_from_Some in E as (_ & _ & E). unfold STYLE_PACK_ID in E. rewrite matches_seq in E.
  destruct E as (st0 & [-> H0]%matches_start & E). cbn [fst] in H0. rewrite H0 in *.
  rewrite matches_seq in E. destruct E as (st1 & (Hall & Hn & _)%matches_between_chars & [_ Hend]%matches_end); [|lia].
  apply all_chars_slice in Hall as [Hall Hlen]. unfold slice in Hall. rewrite drop_0, Nat.sub_0_r, take_ge in Hall by done.
  split; [done|]. intros ->. cbn [length] in *. lia.
Qed.
Lemma style_pack_units id : isStylePackId id = true -> units id.
Proof.
  intros [H _]%style_pack_chars. eapply Forall_impl; [exact H|]. intros c. unfold is_id_char, is_lower_ascii, is_digit. intros Hc. bool_prop; lia.
Qed.
Lemma blog_style_units style : isBlogStyle style = true -> units style /\ style <> [].
Proof.
  unfold isBlogStyle. rewrite existsb_exists. intros (x & Hx & ->%js_eqb_true). split; [|by intros ->; repeat (destruct Hx as [Hx|Hx]; [by vm_compute in Hx|])].
  apply units_check. revert x Hx. apply forallb_forall. vm_compute. reflexivity.
Qed.

Lemma view_json_printable s : view_ok s -> printable (view_json s).
Proof.
  intros (Hc & Hb & Hp & _). assert (Z.abs (maxColumns s) <= 2 ^ 53) as Hz.
  { unfold MAX_COLUMNS_VALUES in Hc. rewrite !elem_of_cons in Hc. destruct Hc as [->|[->|[->|[->|Hc%elem_of_nil]]]]; [by vm_compute..|done]. }
  pose proof (blog_style_units _ Hb) as [Hu _].
  assert (forall key : string, forallb (fun c => (0 <=? c) && (c <=? 0xFFFF)) (u key) = true -> units (u key)) as Hk by (intros key; apply units_check).
  unfold view_json. cbn [printable]. split.
  - destruct (timeBasis s), (stylePack s); apply (bool_decide_unpack _); vm_compute; exact I.
  - destruct (timeBasis s) as [[]|]; destruct (stylePack s) as [id|] eqn:E; cbn [foldr app fst snd printable];
      split_and!; try exact I; try done; try (apply Hk; vm_compute; reflexivity); try (by eexists);
      try (destruct (feedLayout s); apply Hk; vm_compute; reflexivity); by apply style_pack_units, Hp.
Qed.

(** The properties of the saved object. *)
Definition saved (s : ViewState) : jstring -> option json := default (fun _ => None) (read_object (view_json s)).
Lemma saved_props s :
  saved s (u "orderByTimeAsc") = Some (JBool (orderByTimeAsc s))
  /\ saved s (u "timeBasis") = (match timeBasis s with Some b => Some (JStr (basis_name b)) | None => None end) /\ saved s (u "sortTimeField") = None
  /\ saved s (u "compactMode") = Some (JBool (compactMode s)) /\ saved s (u "linkPreview") = Some (JBool (linkPreview s))
  /\ saved s (u "maxColumns") = Some (JNum (inject_Z (maxColumns s))) /\ saved s (u "feedLayout") = Some (JStr (layout_name (feedLayout s)))
  /\ saved s (u "blogStyle") = Some (JStr (blogStyle s))
  /\ saved s (u "stylePack") = (match stylePack s with Some id => Some (JStr id) | None => None end).
Proof. unfold saved, view_json. destruct (timeBasis s), (stylePack s); split_and!; reflexivity. Qed.

Lemma normalized_saved s : view_ok s -> normalizedState (saved s) = s.
Proof.
  intros (Hc & Hb & Hp & Hl). destruct (saved_props s) as (E1 & E2 & E3 & E4 & E5 & E6 & E7 & E8 & E9).
  unfold normalizedState. rewrite E1, E2, E3, E4, E5, E6, E7, E8, E9. clear E1 E2 E3 E4 E5 E6 E7 E8 E9.
  assert (layout_of (Some (JStr (layout_name (feedLayout s)))) = feedLayout s) as -> by (by destruct (feedLayout s)).
  assert (columns_of (Some (JNum (inject_Z (maxColumns s)))) = maxColumns s) as ->.
  { unfold MAX_COLUMNS_VALUES in Hc. rewrite !elem_of_cons in Hc. by destruct Hc as [->|[->|[->|[->|Hc%elem_of_nil]]]]. }
  assert (basis_of (or_else (match timeBasis s with Some b => Some (JStr (basis_name b)) | None => None end) None) = timeBasis s) as ->
    by (by destruct (timeBasis s) as [[]|]).
  destruct s as [o t c l m f b p]. cbn [truthy orderByTimeAsc timeBasis compactMode linkPreview maxColumns feedLayout blogStyle stylePack] in *.
  rewrite Hb, andb_true_r. destruct (bool_decide (f = Blog2)) eqn:Ef.
  - destruct p as [id|]; [|done]. by rewrite (Hp id eq_refl).
  - apply bool_decide_eq_false in Ef. destruct (Hl Ef) as [-> ->]. done.
Qed.

Lemma load_saved s w : view_ok s ->
  getInitialState {| readable := true; writable := w; item := Some (stringify (view_json s)) |}
  = (s, {| readable := true; writable := w; item := Some (stringify (view_json s)) |}).
Proof.
  intros Hok. unfold getInitialState. cbn [readable item negb].
  destruct (stringify (view_json s)) as [|c t] eqn:Et.
  { pose proof (stringify_nonempty (view_json s)) as Hlen. apply (f_equal (@length Z)) in Et. cbn [length] in Et. lia. }
  rewrite <- Et, JSON_parse_stringify by (by apply view_json_printable). cbn [mbind option_bind].
  change (read_object (view_json s)) with (Some (saved s)). cbn iota. destruct (saved_props s) as (_ & _ & _ & _ & _ & _ & E7 & E8 & _).
  rewrite (normalized_saved s Hok), E7, E8. cbn [is_text]. rewrite js_eqb_refl. cbn [negb]. by destruct (feedLayout s).
Qed.

Lemma initial_ok s : view_ok (getInitialState s).1.
Proof.
  assert (view_ok DEFAULT_VIEW_STATE) as Hd by (split_and!; [cbn; set_solver|done|done|done]).
  unfold getInitialState. destruct (negb (readable s)); [done|]. destruct (item s) as [[|c t]|]; try done.
  destruct (JSON_parse (c :: t) ≫= read_object) as [data|]; [|done]. destruct (_ || _); [destruct (writable s)|]; try done; apply normalized_ok.
Qed.

Lemma initial_cases any :
  (getInitialState any).2 = any
  \/ exists st, view_ok st /\ getInitialState any = (st, {| readable := true; writable := true; item := Some (stringify (view_json st)) |}).
Proof.
  unfold getInitialState. destruct (readable any) eqn:Er; cbn [negb]; [|by left]. destruct (item any) as [[|c t]|]; [by left| |by left].
  destruct (JSON_parse (c :: t) ≫= read_object) as [data|]; [|by left]. destruct (_ || _); [|by left]. destruct (writable any); [|by left].
  right. exists (normalizedState data). split; [apply normalized_ok|done].
Qed.

(** The view settings survive a reload: a view that is saved is loaded as it was, when its
    style and pack are those of Blog 2; and whatever text the storage holds, from an older
    version or broken, the view that is loaded has a known layout, style and number of
    columns, with no style outside Blog 2, and loading it again gives the same. *)
Theorem view_survives_reload (s : ViewState) (any : storage) :
  (view_ok s -> fst (getInitialState (persistToStorage s {| readable := true; writable := true; item := item any |})) = s)
  /\ view_ok (fst (getInitialState any))
  /\ getInitialState (snd (getInitialState any)) = getInitialState any.
Proof.
  split; [|split; [apply initial_ok|]].
  - intros Hok. unfold persistToStorage, write_item. cbn [writable readable]. by rewrite load_saved.
  - destruct (initial_cases any) as [->|(st & Hst & ->)]; [done|]. cbn [snd]. by apply load_saved.
Qed.

(** ** What is shown *)

Section Consistency.
Context (THEME_CONTENT : jstring -> jstring).

Definition look_ok (look : PostLook) : Prop :=
  (forall style, look_style look = Some style -> isBlogStyle style = true) /\ (forall theme, look_theme look = Some theme -> resolved theme).
Definition view_op_ok (o : view_op) : Prop :=
  match o with
  | SetBlogStyle value => isBlogStyle value = true
  | SetPostLook (Some look) => look_ok look
  | _ => True
  end.
Record view_good (v : view) : Prop := {
  vg_style : isBlogStyle (blogStyle (viewState v)) = true;
  vg_look : forall look, postLook v = Some look -> look_ok look;
  vg_override : themeOverride (the_page v) = postLook v ≫= look_theme;
  vg_page : coherent THEME_CONTENT (the_page v);
  vg_saved : hadSavedView v = false -> readable (view_item v) = true -> item (view_item v) = None }.
Record view_rendered (v : view) : Prop := {
  vr_style : data_style v = if blog2 v then Some (styleId v) else None;
  vr_pack : data_style_pack v = wearingPack v;
  vr_scheme : schemeConstraint (the_page v) = packScheme v;
  vr_kept : vanished v = false }.

Ltac view_cbn := cbn [viewState postLook loadedStylePacks packPreview hadSavedView view_item the_page updateState setPostLook with_state
  with_page with_preview mirrored].
Lemma override_set theme p : themeOverride (setThemeOverride THEME_CONTENT theme p) = theme.
Proof. unfold setThemeOverride. by case_bool_decide. Qed.
Lemma override_load name persist p : themeOverride (loadTheme THEME_CONTENT name persist p) = themeOverride p.
Proof. unfold loadTheme. by destruct persist. Qed.
Lemma constraint_set scheme p :
  schemeConstraint (setColorSchemeConstraint THEME_CONTENT scheme p) = scheme
  /\ themeOverride (setColorSchemeConstraint THEME_CONTENT scheme p) = themeOverride p.
Proof. unfold setColorSchemeConstraint. by case_bool_decide. Qed.
Lemma write_readable text s : readable (write_item text s) = readable s.
Proof. unfold write_item. by destruct (writable s). Qed.

Lemma good_update patch v : (forall s, isBlogStyle (blogStyle s) = true -> isBlogStyle (blogStyle (patch s)) = true) -> view_good v -> view_good (updateState patch v).
Proof. intros Hp [H1 H2 H3 H4 H5]. split; view_cbn; auto. done. Qed.
Lemma good_preview p v : view_good v -> view_good (with_preview p v).
Proof. by intros []. Qed.
Lemma good_look look v : (forall l, look = Some l -> look_ok l) -> view_good v -> view_good (setPostLook THEME_CONTENT look v).
Proof.
  intros Hl [H1 H2 H3 H4 H5]. split; view_cbn; auto; [by rewrite override_set|].
  apply (op_coherent THEME_CONTENT _ (Override (look ≫= look_theme)) H4). destruct look as [l|]; cbn; [|done].
  destruct (look_theme l) eqn:E; [|done]. by apply (Hl l eq_refl).
Qed.

Lemma op_good o v : view_op_ok o -> view_good v -> view_good (apply_view THEME_CONTENT o v).
Proof.
  intros Hok Hg. destruct o as [|?|?|?|?|layout|style|id|?| |packs|look|name| |style]; cbn [apply_view];
    try (by apply good_update); try (by apply good_preview).
  - apply good_update; [|by apply good_preview]. by destruct layout.
  - apply good_update; [done|]. apply good_look; [done|]. by apply good_preview.
  - apply good_update; [done|]. apply good_look; [done|]. by apply good_preview.
  - destruct Hg. by split.
  - apply good_look; [|done]. intros l ->. exact Hok.
  - apply good_look; [done|]. destruct Hg as [H1 H2 H3 H4 H5]. split; view_cbn; auto.
    by apply (op_coherent THEME_CONTENT _ (LoadTheme name true) H4).
  - unfold resetToDefaults. destruct (good_look None (with_preview None v)) as [H1 H2 H3 H4 H5]; [done|by apply good_preview|].
    split; auto; view_cbn. intros _. by destruct (readable (view_item v)) eqn:E; [|rewrite E].
  - unfold applyFirstVisitStyle. destruct (hadSavedView v) eqn:Eh; [done|]. destruct Hg as [H1 H2 H3 H4 H5].
    destruct (isBlogStyle style) eqn:Es; [by split|]. destruct (isStylePackId style); by split.
Qed.

Lemma mirrored_good v : view_good v -> view_good (mirrored THEME_CONTENT v).
Proof.
  intros [H1 H2 H3 H4 H5]. split; view_cbn; auto; case_bool_decide; auto.
  - destruct (constraint_set (packScheme v) (setColorSchemeConstraint THEME_CONTENT None (the_page v))) as [_ ->].
    destruct (constraint_set None (the_page v)) as [_ ->]. done.
  - apply (op_coherent THEME_CONTENT _ (Constraint (packScheme v))); [|done]. by apply (op_coherent THEME_CONTENT _ (Constraint None)).
Qed.
Lemma mirrored_rendered v : vanished v = false -> view_rendered (mirrored THEME_CONTENT v).
Proof.
  intros Hv. split; [done|done| |done]. change (packScheme (mirrored THEME_CONTENT v)) with (packScheme v). cbn. case_bool_decide; [done|].
  by destruct (constraint_set (packScheme v) (setColorSchemeConstraint THEME_CONTENT None (the_page v))) as [-> _].
Qed.
Lemma render_good v : view_good v -> view_good (render THEME_CONTENT v) /\ view_rendered (render THEME_CONTENT v).
Proof.
  intros Hg. unfold render. change (vanished (mirrored THEME_CONTENT v)) with (vanished v).
  pose proof (mirrored_good v Hg) as Hm. destruct (vanished v) eqn:Ev; [|split; [done|by apply mirrored_rendered]].
  assert (view_good (fall_back (mirrored THEME_CONTENT v))) as Hf.
  { unfold fall_back. destruct (hadSavedView _) eqn:Eh; [by apply good_update|]. destruct Hm. by split. }
  split; [by apply mirrored_good|]. apply mirrored_rendered. unfold fall_back, vanished. destruct (hadSavedView _); cbn; by destruct (loadedStylePacks v).
Qed.

Lemma mount_good s p : themeOverride p = None -> coherent THEME_CONTENT p ->
  view_good (mount_view THEME_CONTENT s p) /\ view_rendered (mount_view THEME_CONTENT s p).
Proof.
  intros Ho Hc. unfold mount_view. pose proof (initial_ok s) as (_ & Hb & _). destruct (getInitialState s) as [st s'].
  apply render_good. split; view_cbn; auto; [done|]. unfold hasSavedView. intros H Er. rewrite Er in H. by destruct (item s').
Qed.
Lemma run_view ops v : view_good v /\ view_rendered v -> Forall view_op_ok ops ->
  view_good (foldl (step_view THEME_CONTENT) v ops) /\ view_rendered (foldl (step_view THEME_CONTENT) v ops).
Proof.
  intros H Hok. revert v H. induction Hok as [|o ops Ho _ IH]; intros v [Hg Hr]; cbn; [done|]. apply IH. by apply render_good, op_good.
Qed.

(** *** Who has chosen *)

(** Whether the visitor has a choice of their own, told from what happened: a view was saved
    when the page opened, or the visitor set something, since the last reset. *)
Definition choice_step (chosen : bool) (o : view_op) : bool :=
  match o with
  | SetOrder _ | SetTimeBasis _ | SetCompactMode _ | SetLinkPreview _ | SetMaxColumns _ | SetFeedLayout _ | SetBlogStyle _ | SetStylePack _ => true
  | ResetToDefaults => false
  | StartPreview _ | EndPreview | SetStylePacks _ | SetPostLook _ | ThemeChosen _ | FirstVisitStyle _ => chosen
  end.
Definition saved_before (s : storage) : bool := match readable s, item s with true, Some _ => true | _, _ => false end.
Definition has_chosen (s : storage) (ops : list view_op) : bool := foldl choice_step (saved_before s) ops.

Lemma render_flag v : hadSavedView (render THEME_CONTENT v) = hadSavedView v.
Proof.
  unfold render. destruct (vanished _); [|done]. unfold fall_back. cbn [mirrored hadSavedView]. by destruct (hadSavedView v) eqn:E.
Qed.
Lemma step_flag v o : hadSavedView (step_view THEME_CONTENT v o) = choice_step (hadSavedView v) o.
Proof.
  unfold step_view. rewrite render_flag. destruct o; try done. cbn. unfold applyFirstVisitStyle. destruct (hadSavedView v) eqn:E; [done|].
  destruct (isBlogStyle value); [done|]. by destruct (isStylePackId value).
Qed.
Lemma mount_flag s p : hadSavedView (mount_view THEME_CONTENT s p) = saved_before s.
Proof.
  unfold mount_view. destruct (getInitialState s) as [st s'] eqn:E. rewrite render_flag. cbn [hadSavedView].
  unfold getInitialState in E. unfold saved_before, hasSavedView. destruct (readable s) eqn:Er; cbn [negb] in E; [|injection E as _ <-; by rewrite Er].
  destruct (item s) as [[|c t]|] eqn:Ei; [injection E as _ <-; by rewrite Er, Ei| |injection E as _ <-; by rewrite Er, Ei].
  destruct (JSON_parse (c :: t) ≫= read_object) as [data|]; [|injection E as _ <-; by rewrite Er, Ei].
  destruct (_ || _); [destruct (writable s)|]; injection E as _ <-; cbn [readable item andb]; by rewrite ?Er, ?Ei.
Qed.
Lemma run_flag ops v : hadSavedView (foldl (step_view THEME_CONTENT) v ops) = foldl choice_step (hadSavedView v) ops.
Proof. revert v. induction ops as [|o ops IH]; intros v; [done|]. cbn [foldl]. by rewrite IH, step_flag. Qed.

(** C23. What the page shows follows from the settings: whatever is chosen, previewed, opened
    and loaded, in any order, the style is on the page exactly in Blog 2, a pack only while
    one is worn, the theme is the open post's or the visitor's own in the scheme of the
    pack; the style reactions go by and the one whose scenery shows are built in; a saved
    pack that is not among the loaded ones is never kept; and nothing is saved for a
    visitor who has not chosen anything. *)
Theorem page_follows_view (s : storage) (p0 : page) (ops : list view_op) (Hfresh : themeOverride p0 = None) (Hok : Forall view_op_ok ops) :
  let v := foldl (step_view THEME_CONTENT) (mount_view THEME_CONTENT s (applyThemeEarly THEME_CONTENT p0)) ops in
  let theme := withinScheme (packScheme v) (default (own_theme (the_page v)) (postLook v ≫= look_theme)) in
  data_style v = (if blog2 v then Some (styleId v) else None)
  /\ data_style_pack v = blog2 v && negb (isBlogStyle (styleId v))
  /\ data_theme (doc (the_page v)) = Some theme
  /\ isBlogStyle (shown_blogStyle v) = true /\ isBlogStyle (sceneStyle v) = true
  /\ (forall packs id, loadedStylePacks v = Some packs -> known (stylePack (viewState v)) = Some id -> exists pack, pack ∈ packs /\ pack_id pack = id)
  /\ (has_chosen s ops = false -> readable (view_item v) = true -> item (view_item v) = None)
  /\ (has_chosen s ops = true -> forall value, apply_view THEME_CONTENT (FirstVisitStyle value) v = v).
Proof.
  intros v theme. assert (hadSavedView v = has_chosen s ops) as Hflag by (unfold v, has_chosen; by rewrite run_flag, mount_flag). assert (view_good v /\ view_rendered v) as [[H1 H2 H3 [H4 _] H5] [R1 R2 R3 R4]].
  { apply run_view; [|done]. apply mount_good; [unfold applyThemeEarly; by rewrite override_load|]. apply load_coherent. by rewrite Hfresh. }
  split; [exact R1|]. split; [exact R2|]. split; [|split; [|split; [|split; [|split; [by rewrite <- Hflag|]]]]].
  - unfold shows, shown_theme in H4. rewrite R3, H3 in H4. by rewrite H4.
  - assert (forall pack, isBlogStyle (stylePackBase pack) = true) as Hbase by (intros [pack|]; [|done]; unfold stylePackBase; by destruct (isBlogStyle (reactsLike pack)) eqn:E).
    unfold shown_blogStyle. destruct (preview v); [apply Hbase|]. destruct (if blog2 v then post_style v else None) as [style|] eqn:Es.
    + destruct (blog2 v); [|done]. unfold post_style in Es. destruct (postLook v) as [look|] eqn:El; [|done]. cbn in Es.
      destruct (look_style look) as [[|c t]|] eqn:E; try done. cbn in Es. injection Es as <-. by apply (proj1 (H2 look eq_refl)).
    + destruct (savedPackId v), (postPack v); try apply Hbase. done.
  - unfold sceneStyle. by destruct (isBlogStyle (styleId v)) eqn:E.
  - intros packs id Ep Ei. unfold vanished in R4. rewrite Ep, Ei in R4. apply negb_false_iff, existsb_exists in R4 as (pack & Hp & E).
    exists pack. split; [by apply list_elem_of_In|by apply js_eqb_true].
  - intros Hc value. cbn. unfold applyFirstVisitStyle. by rewrite Hflag, Hc.
Qed.
End Consistency.

(** ** Samples *)

Definition sample_pack (name : jstring) : StylePack := {| pack_id := name; pack_name := []; reactsLike := u "pixel"; pack_scheme := u "dark" |}.
Definition sample_view_ops : list view_op :=
  [SetStylePacks [sample_pack (u "moss")]; SetStylePack (u "moss"); SetPostLook (Some {| look_style := None; look_pack := None; look_theme := Some (u "matcha") |})].
Definition empty_storage : storage := {| readable := true; writable := true; item := None |}.

Lemma view_survives_reload_witness :
  fst (getInitialState (persistToStorage (patch_style (u "glass") (Some (u "moss")) DEFAULT_VIEW_STATE) empty_storage))
  = patch_style (u "glass") (Some (u "moss")) DEFAULT_VIEW_STATE.
Proof.
  apply (view_survives_reload (patch_style (u "glass") (Some (u "moss")) DEFAULT_VIEW_STATE) empty_storage).
  split_and!; [left|done| |done]. cbn. intros id [= <-]. vm_compute. reflexivity.
Defined.

Lemma page_follows_view_witness :
  let v := foldl (step_view sheet_of) (mount_view sheet_of empty_storage (applyThemeEarly sheet_of first_page)) sample_view_ops in
  data_theme (doc (the_page v)) = Some (u "default-dark") /\ data_style v = Some (u "moss") /\ shown_blogStyle v = u "pixel".
Proof.
  assert (Forall view_op_ok sample_view_ops) as Hok.
  { unfold sample_view_ops. repeat apply Forall_cons_2; try done.
    split; [done|]. intros theme [= <-]. by split. }
  destruct (page_follows_view sheet_of empty_storage first_page sample_view_ops eq_refl Hok) as (H1 & _ & H2 & _).
  split; [etransitivity; [exact H2|vm_compute; reflexivity]|]. split; [etransitivity; [exact H1|vm_compute; reflexivity]|vm_compute; reflexivity].
Defined.

(** A style chosen while the memos are not laid out as the blog is gone after a reload. *)
Example style_outside_blog2 :
  let s := patch_style (u "glass") None (patch_layout MemoLayout DEFAULT_VIEW_STATE) in
  blogStyle (fst (getInitialState (persistToStorage s empty_storage))) = u "default".
Proof. vm_compute. reflexivity. Qed.
