(* ===== verification/AuthContext.v ===== *)
(** * The session

    web/src/contexts/AuthContext.tsx: who is signed in, their settings, and what of it is
    ready to be used.  Several calls can be under way at once: each is a task waiting for an
    answer, and an [await] ends an event.  The token is the one of [AuthState]; of the query
    cache only what is set and removed here is kept. *)

From S2P Require Import Prelude JSString.

Section Session.
(** Users, and the values of settings. *)
Context {user data : Type} (name : user -> jstring).

Inductive setting_case := generalSetting | webhooksSetting | tagsSetting | other_setting.
#[export] Instance setting_case_eq_dec : EqDecision setting_case.
Proof. solve_decision. Defined.

Record UserSettings := { userGeneralSetting : option data; userWebhooksSetting : option data; userTagsSetting : option data }.
Definition NO_SETTINGS : UserSettings := {| userGeneralSetting := None; userWebhooksSetting := None; userTagsSetting := None |}.
Record session := {
  currentUser : option user; settings : UserSettings; isIdentityInitialized : bool; isUserSettingsInitialized : bool;
  isInitialized : bool; isLoading : bool }.
Definition UNAUTHENTICATED_STATE : session := {|
  currentUser := None; settings := NO_SETTINGS; isIdentityInitialized := true; isUserSettingsInitialized := true;
  isInitialized := true; isLoading := false |}.
Definition first_session : session := {|
  currentUser := None; settings := NO_SETTINGS; isIdentityInitialized := false; isUserSettingsInitialized := false;
  isInitialized := false; isLoading := true |}.

(** [settings.find] by case. *)
Definition find_setting (c : setting_case) (l : list (setting_case * data)) : option data :=
  snd <$> js_find (fun s => bool_decide (s.1 = c)) l.
Definition userSettings (l : list (setting_case * data)) : UserSettings := {|
  userGeneralSetting := find_setting generalSetting l; userWebhooksSetting := find_setting webhooksSetting l;
  userTagsSetting := find_setting tagsSetting l |}.

(** The entries of the query cache: the current user, and users by name. *)
Record user_cache := { cached_current : option user; cached_users : list (jstring * user) }.
Definition remember (usr : user) (c : user_cache) : user_cache := {|
  cached_current := Some usr; cached_users := (name usr, usr) :: js_filter (fun e => negb (js_eqb e.1 (name usr))) (cached_users c) |}.

(** What a call waits for. *)
Inductive task :=
  | RefreshToken | GetCurrentUser | ListSettings (usr : user) | SignOut | RefetchSettings (userName : jstring).
Record auth_world := { auth : session; token : bool; cache : user_cache; tasks : list task }.

Definition set_auth (f : session -> session) (w : auth_world) : auth_world :=
  {| auth := f (auth w); token := token w; cache := cache w; tasks := tasks w |}.
Definition set_token (b : bool) (w : auth_world) : auth_world := {| auth := auth w; token := b; cache := cache w; tasks := tasks w |}.
Definition set_cache (f : user_cache -> user_cache) (w : auth_world) : auth_world :=
  {| auth := auth w; token := token w; cache := f (cache w); tasks := tasks w |}.
Definition await (t : task) (w : auth_world) : auth_world := {| auth := auth w; token := token w; cache := cache w; tasks := tasks w ++ [t] |}.
Definition resume (i : nat) (w : auth_world) : auth_world := {| auth := auth w; token := token w; cache := cache w; tasks := delete i (tasks w) |}.

Definition same_user (s : session) (userName : jstring) : bool :=
  match currentUser s with Some usr => js_eqb (name usr) userName | None => false end.
(** What [fetchUserSettings] publishes when the answer comes. *)
Definition publish (userName : jstring) (fetched : UserSettings) (s : session) : session :=
  if same_user s userName then
    {| currentUser := currentUser s; settings := fetched; isIdentityInitialized := isIdentityInitialized s;
       isUserSettingsInitialized := true; isInitialized := isInitialized s; isLoading := isLoading s |}
  else s.

(** [initialize], up to its first [await] and after each of them. *)
Definition start_loading (s : session) : session := {|
  currentUser := currentUser s; settings := settings s; isIdentityInitialized := isIdentityInitialized s;
  isUserSettingsInitialized := false; isInitialized := false; isLoading := true |}.
Definition after_refresh (w : auth_world) : auth_world :=
  if token w then await GetCurrentUser w else set_auth (fun _ => UNAUTHENTICATED_STATE) w.
Definition initialize (w : auth_world) : auth_world :=
  let w := set_auth start_loading w in if token w then after_refresh w else await RefreshToken w.
Definition sign_off (w : auth_world) : auth_world := set_auth (fun _ => UNAUTHENTICATED_STATE) (set_token false w).
Definition with_identity (usr : user) (s : session) : session := {|
  currentUser := Some usr; settings := settings s; isIdentityInitialized := true; isUserSettingsInitialized := isUserSettingsInitialized s;
  isInitialized := isInitialized s; isLoading := isLoading s |}.
Definition identified (answer : option (option user)) (w : auth_world) : auth_world :=
  match answer with
  | Some (Some usr) => await (ListSettings usr) (set_cache (remember usr) (set_auth (with_identity usr) w))
  | Some None | None => sign_off w
  end.
Definition ready (usr : user) (fetched : UserSettings) : session := {|
  currentUser := Some usr; settings := fetched; isIdentityInitialized := true; isUserSettingsInitialized := true;
  isInitialized := true; isLoading := false |}.
Definition settings_listed (usr : user) (answer : option (list (setting_case * data))) (w : auth_world) : auth_world :=
  match answer with
  | Some l => set_auth (fun s => ready usr (userSettings l)) (set_auth (publish (name usr) (userSettings l)) w)
  | None => sign_off w
  end.

(** The end of [logout], whatever the server said. *)
Definition signed_out (w : auth_world) : auth_world := set_cache (fun _ => {| cached_current := None; cached_users := [] |}) (sign_off w).
(** [refetchSettings]. *)
Definition refetchSettings (w : auth_world) : auth_world :=
  match currentUser (auth w) with
  | Some usr => if js_eqb (name usr) [] then w else await (RefetchSettings (name usr)) w
  | None => w
  end.
Definition with_settings (userName : jstring) (fetched : UserSettings) (s : session) : session :=
  if same_user s userName then
    {| currentUser := currentUser s; settings := fetched; isIdentityInitialized := isIdentityInitialized s;
       isUserSettingsInitialized := isUserSettingsInitialized s; isInitialized := isInitialized s; isLoading := isLoading s |}
  else s.
Definition settings_refetched (userName : jstring) (answer : option (list (setting_case * data))) (w : auth_world) : auth_world :=
  match answer with
  | Some l => set_auth (with_settings userName (userSettings l)) (set_auth (publish userName (userSettings l)) w)
  | None => w
  end.
Definition setCurrentUser (usr : option user) (w : auth_world) : auth_world :=
  let previousUser := cached_current (cache w) in
  let w := set_auth (fun s => {| currentUser := usr; settings := settings s; isIdentityInitialized := isIdentityInitialized s;
                        isUserSettingsInitialized := isUserSettingsInitialized s; isInitialized := isInitialized s; isLoading := isLoading s |}) w in
  match usr with
  | Some usr => set_cache (remember usr) w
  | None =>
      set_cache (fun c => {| cached_current := None;
        cached_users := match previousUser with
                        | Some p => if js_eqb (name p) [] then cached_users c else js_filter (fun e => negb (js_eqb e.1 (name p))) (cached_users c)
                        | None => cached_users c end |}) w
  end.

(** ** Events *)

Inductive answer :=
  | Refreshed (got_token : bool) | Identity (answer : option (option user)) | Listed (answer : option (list (setting_case * data))) | LoggedOut.
Inductive auth_event :=
  | Initialize | Logout | Refetch | SetUser (usr : option user) | TokenChanged (b : bool) | Answer (i : nat) (a : answer).
Definition handle_answer (t : task) (a : answer) (w : auth_world) : option auth_world :=
  match t, a with
  | RefreshToken, Refreshed b => Some (after_refresh (set_token (token w || b) w))
  | GetCurrentUser, Identity u => Some (identified u w)
  | ListSettings usr, Listed l => Some (settings_listed usr l w)
  | SignOut, LoggedOut => Some (signed_out w)
  | RefetchSettings userName, Listed l => Some (settings_refetched userName l w)
  | _, _ => None
  end.
Definition handle_auth (e : auth_event) (w : auth_world) : option auth_world :=
  match e with
  | Initialize => Some (initialize w)
  | Logout => Some (await SignOut w)
  | Refetch => Some (refetchSettings w)
  | SetUser usr => Some (setCurrentUser usr w)
  | TokenChanged b => Some (set_token b w)
  | Answer i a => t ← tasks w !! i; handle_answer t a (resume i w)
  end.
Fixpoint run_auth (w : auth_world) (es : list auth_event) : option auth_world :=
  match es with [] => Some w | e :: es' => w' ← handle_auth e w; run_auth w' es' end.
Definition app_started (b : bool) : auth_world :=
  {| auth := first_session; token := b; cache := {| cached_current := None; cached_users := [] |}; tasks := [] |}.

(** ** Whose settings are used *)







(** ** Initialising ends *)

Definition is_answer (e : auth_event) : bool := match e with Answer _ _ => true | _ => false end.
(** How many answers a session that is loading still waits for. *)
Definition answers_left (ts : list task) : option nat :=
  match ts with [] => Some 0%nat | [ListSettings _] => Some 1%nat | [GetCurrentUser] => Some 2%nat | [RefreshToken] => Some 3%nat | _ => None end.
Definition all_ready (s : session) : Prop :=
  isIdentityInitialized s = true /\ isUserSettingsInitialized s = true /\ isInitialized s = true /\ isLoading s = false.
Definition settled (w : auth_world) : Prop := tasks w = [] -> all_ready (auth w).

Lemma answer_settles e n w w' : answers_left (tasks w) = Some n -> is_answer e = true -> handle_auth e w = Some w' ->
  exists m, answers_left (tasks w') = Some m /\ (m < n)%nat /\ settled w'.
Proof.
  intros Hn He Hh. destruct e as [| | |?|?|i a]; try done. cbn [handle_auth] in Hh.
  destruct w as [s b c ts]. cbn [tasks] in *.
  destruct ts as [|t [|t2 ts]]; [done| |by destruct t].
  destruct i as [|i]; [|done]. cbn [lookup list_lookup mbind option_bind] in Hh. cbn [resume tasks delete list_delete] in Hh.
  destruct t as [| |usr| |userName], a as [got|[[usr'|]|]|[l|]|]; try done; cbn in Hn; injection Hn as <-; cbn [handle_answer] in Hh; injection Hh as <-.
  - unfold after_refresh, resume. cbn. destruct (b || got); cbn; [exists 2%nat|exists 0%nat]; (split_and!; [done|lia|by intros]).
  - exists 1%nat. cbn. (split_and!; [done|lia|by intros]).
  - exists 0%nat. cbn. (split_and!; [done|lia|by intros]).
  - exists 0%nat. cbn. (split_and!; [done|lia|by intros]).
  - exists 0%nat. cbn. (split_and!; [done|lia|by intros]).
  - exists 0%nat. cbn. (split_and!; [done|lia|by intros]).
Qed.

(** C6. Signing in always ends: from any session, once it is initialised and nothing else is
    asked, at most three answers can come, whatever they are; one is always to come until none
    is waited for, and then the identity and the settings are ready, and the session is
    initialised and no longer loading. *)
Theorem initialize_settles (w w' : auth_world) (es : list auth_event) (Hquiet : tasks w = []) (Hes : forallb is_answer es = true)
    (Hr : run_auth (initialize w) es = Some w') :
  (length es <= 3)%nat
  /\ (tasks w' = [] -> isIdentityInitialized (auth w') = true /\ isUserSettingsInitialized (auth w') = true /\ isInitialized (auth w') = true /\ isLoading (auth w') = false)
  /\ (tasks w' <> [] -> (length es < 3)%nat /\ exists a w'', handle_auth (Answer 0 a) w' = Some w'').
Proof.
  assert (exists n, answers_left (tasks (initialize w)) = Some n /\ (n <= 3)%nat /\ settled (initialize w)) as (n & Hn & Hle & Hset).
  { unfold initialize, after_refresh. cbn. destruct (token w); cbn; rewrite Hquiet; [exists 2%nat|exists 3%nat]; (split; [done|]); (split; [lia|unfold settled; cbn; rewrite Hquiet; by intros]). }
  assert (exists m, answers_left (tasks w') = Some m /\ (length es + m <= n)%nat /\ settled w') as (m & Hm & Hlen & Hset').
  { clear Hle. revert n Hn Hset Hes Hr. generalize (initialize w) as w0. induction es as [|e es IH]; intros w0 n Hn Hset Hes Hr; cbn in Hes, Hr.
    { injection Hr as <-. exists n. split; [done|]. split; [cbn; lia|done]. }
    apply andb_true_iff in Hes as [He Hes]. destruct (handle_auth e w0) as [w1|] eqn:E; [|done]. cbn in Hr.
    destruct (answer_settles e n w0 w1 Hn He E) as (k & Hk & Hlt & Hset1). destruct (IH w1 k Hk Hset1 Hes Hr) as (m & Hm & Hl & Hs).
    exists m. split; [done|]. split; [cbn; lia|done]. }
  split; [lia|]. split; [exact Hset'|]. intros Hne.
  assert (1 <= m)%nat as Hm1 by (destruct (tasks w') as [|[] [|]]; try done; cbn in Hm; injection Hm as <-; lia).
  split; [lia|]. destruct (tasks w') as [|t [|]] eqn:Et; [done| |by destruct t]. cbn [handle_auth]. rewrite Et. cbn [lookup list_lookup mbind option_bind].
  destruct t; try done; [exists (Refreshed true)|exists (Identity None)|exists (Listed None)]; by eexists.
Qed.
End Session.

(** ** Two accounts *)

(** A user is a name, a value of a setting the name it is of. *)
Definition ann : jstring := u "users/1".
Definition bob : jstring := u "users/2".
Definition sample_session : list (@auth_event jstring jstring) :=
  [Initialize; Answer 0 (Refreshed true); Answer 0 (Identity (Some (Some ann))); Answer 0 (Listed (Some [(tagsSetting, ann)]))].
Definition idj (s : jstring) : jstring := s.


Lemma initialize_settles_witness :
  exists w, run_auth idj (initialize (app_started false)) (tail sample_session) = Some w /\ isInitialized (auth w) = true.
Proof.
  destruct (run_auth idj (initialize (app_started false)) (tail sample_session)) as [w|] eqn:E; [|vm_compute in E; discriminate]. exists w.
  split; [reflexivity|]. destruct (initialize_settles idj (app_started false) w (tail sample_session) eq_refl eq_refl E) as (_ & H & _).
  apply H. vm_compute in E. injection E as E. subst w. reflexivity.
Defined.

(** Signing out while the session initialises does not last, and the settings of the
    previous user can be marked as those of the next. *)
Example sign_out_undone :
  exists w, run_auth (data := jstring) idj (app_started true)
    [Initialize; Logout; Answer 1 LoggedOut; Answer 0 (Identity (Some (Some ann))); Answer 0 (Listed (Some []))] = Some w
  /\ token w = false /\ currentUser (auth w) = Some ann /\ isInitialized (auth w) = true.
Proof. eexists. split; [vm_compute; reflexivity|]. by vm_compute. Qed.
Example settings_of_another :
  exists w, run_auth idj (app_started true)
    [Initialize; Answer 0 (Identity (Some (Some ann))); Answer 0 (Listed (Some [(tagsSetting, ann)])); Refetch; Initialize;
     Answer 0 (Listed (Some [(tagsSetting, ann)])); Answer 0 (Identity (Some (Some bob)))] = Some w
  /\ currentUser (auth w) = Some bob /\ isUserSettingsInitialized (auth w) = true /\ userTagsSetting (settings (auth w)) = Some ann.
Proof. eexists. split; [vm_compute; reflexivity|]. by vm_compute. Qed.
