(* ===== verification/MemoSave.v ===== *)
(** * Saving a memo

    web/src/components/MemoEditor/services/memoService.ts, uploadService.ts and
    validationService.ts, and the workflow of hooks/useMemoSave.ts.  Saving uploads the
    local files, then creates a memo or a comment, or updates a memo with the fields
    that differ from it.  The RPC clients are parameters: operations on a server state
    that give an error or a message. *)

From S2P Require Import Prelude JSString ManagedAttachment MemoPoll EditorStore.

(** ** Messages *)

Inductive VisibilityValue := VISIBILITY_UNSPECIFIED | PRIVATE | PROTECTED | PUBLIC | SPACE.
#[export] Instance visibility_eq_dec : EqDecision VisibilityValue.
Proof. solve_decision. Defined.

(** What no code here looks into: a place, the rules of a poll (its question, times and
    policy), a voter, the metadata of a file.  [isEqual] and [equals] compare them. *)
Class MessageTypes := {
  LocationMessage : Type; location_eq_dec :: EqDecision LocationMessage;
  PollSettings : Type; settings_eq_dec :: EqDecision PollSettings;
  PollVoter : Type; voter_eq_dec :: EqDecision PollVoter;
  MediaMetadata : Type;
}.

Record PollOption := { option_id : jstring; option_text : jstring; option_image : option Attachment; voteCount : Z }.
#[export] Instance option_eq_dec : EqDecision PollOption.
Proof. solve_decision. Defined.

(** A relation names its two memos, each perhaps absent, with a snippet. *)
Inductive RelationType := TYPE_UNSPECIFIED | REFERENCE | COMMENT.
#[export] Instance relation_type_eq_dec : EqDecision RelationType.
Proof. solve_decision. Defined.
Record Relation := {
  r_memo : option (jstring * jstring); r_related : option (jstring * jstring); r_type : RelationType }.
#[export] Instance relation_eq_dec : EqDecision Relation.
Proof. solve_decision. Defined.

Record Timestamp := { seconds : Z; nanos : Z }.

Section Messages.
Context {types : MessageTypes}.

Record PollMessage := {
  settings : PollSettings; poll_image : option Attachment; options : list PollOption; totalVotes : Z;
  selectedOptionIds : list jstring; resultsHidden : bool; voters : list PollVoter; votersVisible : bool;
  hasMoreVoters : bool }.
#[export] Instance poll_eq_dec : EqDecision PollMessage.
Proof. solve_decision. Defined.

Record FileMessage := {
  file_name : jstring; file_size : Z; file_type : jstring; file_content : list Z; file_url : jstring;
  file_motion : option MotionMedia; file_metadata : option MediaMetadata }.

#[export] Instance editor_types : EditorTypes := {|
  Visibility := VisibilityValue; EditorStore.PUBLIC := PUBLIC; AttachmentMessage := Attachment; MemoRelation := Relation;
  Location := LocationMessage; Poll := PollMessage; LocalFile := FileMessage; previewUrl := file_url |}.

(** [m_other_fields] is the encoding of the fields the editor neither reads nor writes
    (state, creator, tags, counts, ...). *)
Record Memo := {
  m_name : jstring; m_content : jstring; m_visibility : VisibilityValue; m_attachments : list Attachment;
  m_relations : list Relation; m_poll : option PollMessage; m_location : option LocationMessage;
  m_category : option jstring; m_hidden : bool; m_anonymous : bool; m_adminScript : jstring; m_draft : bool;
  m_publishTime : option Timestamp; m_createTime : option Timestamp; m_updateTime : option Timestamp;
  m_hideTime : bool; m_space : option jstring; m_other_fields : list Z }.

(** ** Relations: the references the memo itself makes *)

Definition isReferenceRelation (r : Relation) : bool := bool_decide (r_type r = REFERENCE).
(** [relation.memo?.name], falsy when absent or empty. *)
Definition owner_name (r : Relation) : jstring := default [] (fst <$> r_memo r).
Definition getEditorReferenceRelations (relations : list Relation) (memoName : jstring) : list Relation :=
  js_filter (fun r => isReferenceRelation r && (js_eqb memoName [] || js_eqb (owner_name r) [] || js_eqb (owner_name r) memoName))
    relations.

(** The references of a memo and those to it, in order; one to itself is in neither. *)
Definition getRelationBuckets (relations : list Relation) (current : option jstring) : list Relation * list Relation :=
  let owns r := bool_decide (fst <$> r_memo r = current) in
  let about r := bool_decide (fst <$> r_related r = current) in
  (js_filter (fun r => isReferenceRelation r && owns r && negb (about r)) relations,
   js_filter (fun r => isReferenceRelation r && negb (owns r) && about r) relations).

Inductive RelationDirection := referencing | referenced.
Definition getRelationMemo (r : Relation) (d : RelationDirection) : option (jstring * jstring) :=
  match d with referencing => r_related r | referenced => r_memo r end.
Definition getRelationMemoName (r : Relation) (d : RelationDirection) : jstring := default [] (fst <$> getRelationMemo r d).

(** ** The update of a memo *)

(** [create(AttachmentSchema, { name })]. *)
Definition attachment_reference (a : Attachment) : Attachment :=
  {| att_name := att_name a; filename := []; mime_type := []; externalLink := []; motionMedia := None; other_fields := [] |}.
Definition toAttachmentReferences (l : list Attachment) : list Attachment := attachment_reference <$> l.

Definition editable_option (o : PollOption) : PollOption :=
  {| option_id := option_id o; option_text := option_text o; option_image := option_image o; voteCount := 0 |}.
Definition editablePoll (p : PollMessage) : PollMessage :=
  {| settings := settings p; poll_image := poll_image p; options := editable_option <$> options p; totalVotes := 0;
     selectedOptionIds := []; resultsHidden := false; voters := []; votersVisible := false; hasMoreVoters := false |}.

(** [timestampDate] and [timestampFromDate] of the protobuf library; a Date is its
    milliseconds. *)
Class ProtoTime := { timestampDate : Timestamp -> Z; timestampFromDate : Z -> Timestamp }.
Context {time : ProtoTime}.

(** The tests of [buildUpdateMask], in its order; [canCustomizeTimestamps] guards the last three. *)
Record differences := {
  d_poll : bool; d_content : bool; d_visibility : bool; d_attachments : bool; d_relations : bool; d_location : bool;
  d_category : bool; d_hidden : bool; d_anonymous : bool; d_admin_script : bool; d_draft : bool; d_publish_time : bool;
  d_hide_time : bool; d_create_time : bool; d_update_time : bool }.

Definition differ {A} `{EqDecision A} (a b : A) : bool := negb (bool_decide (a = b)).

(** [if (state.timestamps.x) { if (!isEqual(state.timestamps.x, previous)) ... }] *)
Definition overridden (chosen : option Z) (previous : option Timestamp) : bool :=
  match chosen with Some _ => differ chosen (timestampDate <$> previous) | None => false end.

Definition compare_memo (prevMemo : Memo) (state : EditorState) (allAttachments : list Attachment)
    (canCustomizeTimestamps : bool) (poll : option PollMessage) : differences :=
  let m := state_metadata state in
  let t := state_timestamps state in
  {| d_poll := differ (editablePoll <$> poll) (editablePoll <$> m_poll prevMemo);
     d_content := differ (content state) (m_content prevMemo);
     d_visibility := differ (visibility m : VisibilityValue) (m_visibility prevMemo);
     d_attachments := differ allAttachments (m_attachments prevMemo);
     d_relations := differ (getEditorReferenceRelations (relations m) (m_name prevMemo))
                           (getEditorReferenceRelations (m_relations prevMemo) (m_name prevMemo));
     d_location := differ (location m : option LocationMessage) (m_location prevMemo);
     d_category := differ (default [] (category m)) (default [] (m_category prevMemo));
     d_hidden := differ (hidden m) (m_hidden prevMemo);
     d_anonymous := differ (anonymous m) (m_anonymous prevMemo);
     d_admin_script := differ (adminScript m) (m_adminScript prevMemo);
     d_draft := differ (draft m) (m_draft prevMemo);
     d_publish_time := differ (publishTime m) (timestampDate <$> m_publishTime prevMemo);
     d_hide_time := canCustomizeTimestamps && differ (hideTime t) (m_hideTime prevMemo);
     d_create_time := canCustomizeTimestamps && overridden (createTime t) (m_createTime prevMemo);
     d_update_time := canCustomizeTimestamps && overridden (updateTime t) (m_updateTime prevMemo) |}.

Definition when (b : bool) (field : string) : list string := if b then [field] else [].

(** A [Set] of paths keeps the order of their first insertion. *)
Definition mask_of (d : differences) : list string :=
  dedup (when (d_poll d) "poll" ++ when (d_content d) "content" ++ when (d_visibility d) "visibility"
    ++ when (d_attachments d) "attachments" ++ when (d_relations d) "relations" ++ when (d_location d) "location"
    ++ when (d_category d) "category" ++ when (d_hidden d) "hidden" ++ when (d_anonymous d) "anonymous"
    ++ when (d_admin_script d) "admin_script" ++ when (d_draft d) "draft" ++ when (d_publish_time d) "publish_time"
    ++ when (d_content d || d_attachments d || d_relations d || d_location d) "update_time"
    ++ when (d_hide_time d) "hide_time" ++ when (d_create_time d) "create_time" ++ when (d_update_time d) "update_time").

(** [create(MemoSchema, patch)]: what the patch leaves out has its default value. *)
Definition patch_of (d : differences) (prevMemo : Memo) (state : EditorState) (allAttachments : list Attachment)
    (poll : option PollMessage) : Memo :=
  let m := state_metadata state in
  let t := state_timestamps state in
  {| m_name := m_name prevMemo; m_content := content state;
     m_visibility := if d_visibility d then visibility m else VISIBILITY_UNSPECIFIED;
     m_attachments := if d_attachments d then toAttachmentReferences allAttachments else [];
     m_relations := if d_relations d then getEditorReferenceRelations (relations m) (m_name prevMemo) else [];
     m_poll := if d_poll d then poll else None;
     m_location := if d_location d then location m else None;
     m_category := if d_category d then Some (default [] (category m)) else None;
     m_hidden := if d_hidden d then hidden m else false;
     m_anonymous := if d_anonymous d then anonymous m else false;
     m_adminScript := if d_admin_script d then adminScript m else [];
     m_draft := if d_draft d then draft m else false;
     m_publishTime := if d_publish_time d then timestampFromDate <$> publishTime m else None;
     m_createTime := if d_create_time d then timestampFromDate <$> createTime t else None;
     m_updateTime := if d_update_time d then timestampFromDate <$> updateTime t else None;
     m_hideTime := if d_hide_time d then hideTime t else false;
     m_space := None; m_other_fields := [] |}.

Definition buildUpdateMask (prevMemo : Memo) (state : EditorState) (allAttachments : list Attachment)
    (canCustomizeTimestamps : bool) (poll : option PollMessage) : list string * Memo :=
  let d := compare_memo prevMemo state allAttachments canCustomizeTimestamps poll in
  (mask_of d, patch_of d prevMemo state allAttachments poll).

(** ** The services *)

Record AttachmentRequest := {
  req_filename : jstring; req_size : Z; req_type : jstring; req_content : list Z;
  req_motionMedia : option MotionMedia; req_mediaMetadata : option MediaMetadata }.

Class MemoService := {
  Server : Type;
  RpcError : Type;
  createAttachment : Server -> AttachmentRequest -> Server * (RpcError + Attachment);
  getMemo : Server -> jstring -> Server * (RpcError + Memo);
  updateMemo : Server -> Memo -> list string -> Server * (RpcError + Memo);
  createMemo : Server -> Memo -> Server * (RpcError + Memo);
  createMemoComment : Server -> jstring -> Memo -> Server * (RpcError + Memo);
}.
Context {service : MemoService}.

(** [await]: go on with the value, or leave with the error. *)
Definition await {A B} (p : Server * (RpcError + A)) (k : Server -> A -> Server * (RpcError + B)) : Server * (RpcError + B) :=
  match p with (s, inr a) => k s a | (s, inl e) => (s, inl e) end.

Definition uploadFile (s : Server) (f : FileMessage) : Server * (RpcError + Attachment) :=
  createAttachment s {| req_filename := file_name f; req_size := file_size f; req_type := file_type f;
                        req_content := file_content f; req_motionMedia := file_motion f; req_mediaMetadata := file_metadata f |}.
Fixpoint uploadFiles (s : Server) (files : list FileMessage) : Server * (RpcError + list Attachment) :=
  match files with
  | [] => (s, inr [])
  | f :: files' => await (uploadFile s f) (fun s a => await (uploadFiles s files') (fun s l => (s, inr (a :: l))))
  end.

Record save_options := {
  memoName : option jstring; parentMemoName : option jstring; canCustomizeTimestamps : bool; space : option jstring }.
Record save_result := { saved_name : jstring; hasChanges : bool }.

(** [map.get(url)] of a [Map] built from pairs: the last pair of a key counts; an empty or
    missing URL is not looked up. *)
Definition uploaded (files : list FileMessage) (attachments : list Attachment) (url : option jstring) : option Attachment :=
  match url with
  | None | Some [] => None
  | Some key => snd <$> js_find (fun p : FileMessage * Attachment => js_eqb (file_url (fst p)) key) (rev (zip files attachments))
  end.
(** [image ?? ...]. *)
Definition or_uploaded (image : option Attachment) (files : list FileMessage) (attachments : list Attachment) (url : option jstring)
    : option Attachment :=
  match image with Some a => Some a | None => uploaded files attachments url end.

Definition poll_to_save (state : EditorState) (newAttachments : list Attachment) : option PollMessage :=
  let m := state_metadata state in
  let files : list FileMessage := localFiles state in
  let option_url (o : PollOption) :=
    urls ← pollOptionImageLocalFileURLs m; snd <$> js_find (fun e => js_eqb (fst e) (option_id o)) urls in
  (fun p : PollMessage =>
    {| settings := settings p; poll_image := or_uploaded (poll_image p) files newAttachments (pollImageLocalFileURL m);
       options := (fun o => {| option_id := option_id o; option_text := option_text o;
                               option_image := or_uploaded (option_image o) files newAttachments (option_url o);
                               voteCount := voteCount o |}) <$> options p;
       totalVotes := totalVotes p; selectedOptionIds := selectedOptionIds p; resultsHidden := resultsHidden p;
       voters := voters p; votersVisible := votersVisible p; hasMoreVoters := hasMoreVoters p |}) <$> poll m.

(** A falsy name is undefined or empty. *)
Definition named (name : option jstring) : option jstring := match name with Some [] => None | n => n end.

Definition memo_to_create (state : EditorState) (opts : save_options) (allAttachments : list Attachment) (poll : option PollMessage) : Memo :=
  let m := state_metadata state in
  let t := state_timestamps state in
  let comment := match named (parentMemoName opts) with Some _ => true | None => false end in
  let can := canCustomizeTimestamps opts in
  {| m_name := []; m_content := content state; m_visibility := visibility m;
     m_attachments := toAttachmentReferences allAttachments; m_relations := relations m; m_poll := poll; m_location := location m;
     m_category := if comment then None else category m;
     m_hidden := if comment then false else hidden m;
     m_anonymous := if comment then false else anonymous m;
     m_adminScript := adminScript m;
     m_draft := if comment then false else draft m;
     m_publishTime := if comment then None else timestampFromDate <$> publishTime m;
     m_createTime := if can then timestampFromDate <$> createTime t else None;
     m_updateTime := if can then timestampFromDate <$> updateTime t else None;
     m_hideTime := can && hideTime t;
     m_space := if comment then None else space opts; m_other_fields := [] |}.

Definition save (s : Server) (state : EditorState) (opts : save_options) : Server * (RpcError + save_result) :=
  await (uploadFiles s (localFiles state)) (fun s newAttachments =>
  let allAttachments := attachments (state_metadata state) ++ newAttachments in
  let poll := poll_to_save state newAttachments in
  let finish s (memo : Memo) := (s, inr {| saved_name := m_name memo; hasChanges := true |}) in
  match named (memoName opts) with
  | Some name =>
      await (getMemo s name) (fun s prevMemo =>
      let (mask, patch) := buildUpdateMask prevMemo state allAttachments (canCustomizeTimestamps opts) poll in
      match mask with
      | [] => (s, inr {| saved_name := m_name prevMemo; hasChanges := false |})
      | _ => await (updateMemo s patch mask) finish
      end)
  | None =>
      let memoData := memo_to_create state opts allAttachments poll in
      match named (parentMemoName opts) with
      | Some parent => await (createMemoComment s parent memoData) finish
      | None => await (createMemo s memoData) finish
      end
  end).

(** What the editor starts from: an absent or empty category is undefined, an existing
    poll has its marker. *)
Definition fromMemo {parser : CommonMark} (memo : Memo) : jstring * metadata * timestamps :=
  (match m_poll memo with Some _ => ensureMemoPollMarker (m_content memo) | None => m_content memo end,
   {| visibility := m_visibility memo; attachments := m_attachments memo; relations := m_relations memo; poll := m_poll memo;
      pollImageLocalFileURL := None; pollOptionImageLocalFileURLs := None; location := m_location memo;
      category := named (m_category memo); hidden := m_hidden memo; anonymous := m_anonymous memo;
      adminScript := m_adminScript memo; draft := m_draft memo; publishTime := timestampDate <$> m_publishTime memo |},
   {| createTime := timestampDate <$> m_createTime memo; updateTime := timestampDate <$> m_updateTime memo;
      hideTime := m_hideTime memo |}).
End Messages.

(** ** What an update does *)

Section Update.
Context {types : MessageTypes} {time : ProtoTime}.

(** A memo as the editor shows it: attachments by name, the references it makes itself, a
    poll without its votes. *)
Record memo_view := {
  v_content : jstring; v_visibility : VisibilityValue; v_attachments : list jstring; v_relations : list Relation;
  v_poll : option PollMessage; v_location : option LocationMessage; v_category : jstring; v_hidden : bool;
  v_anonymous : bool; v_adminScript : jstring; v_draft : bool; v_publishTime : option Z; v_createTime : option Z;
  v_hideTime : bool }.

Definition view_of (memo : Memo) : memo_view :=
  {| v_content := m_content memo; v_visibility := m_visibility memo; v_attachments := att_name <$> m_attachments memo;
     v_relations := getEditorReferenceRelations (m_relations memo) (m_name memo); v_poll := editablePoll <$> m_poll memo;
     v_location := m_location memo; v_category := default [] (m_category memo); v_hidden := m_hidden memo;
     v_anonymous := m_anonymous memo; v_adminScript := m_adminScript memo; v_draft := m_draft memo;
     v_publishTime := timestampDate <$> m_publishTime memo; v_createTime := timestampDate <$> m_createTime memo;
     v_hideTime := m_hideTime memo |}.

(** What the editor shows; without the right to customize them the times stay the memo's. *)
Definition wanted (prevMemo : Memo) (state : EditorState) (allAttachments : list Attachment) (can : bool)
    (poll : option PollMessage) : memo_view :=
  let m := state_metadata state in
  let t := state_timestamps state in
  let prevCreate := timestampDate <$> m_createTime prevMemo in
  {| v_content := content state; v_visibility := visibility m; v_attachments := att_name <$> allAttachments;
     v_relations := getEditorReferenceRelations (relations m) (m_name prevMemo); v_poll := editablePoll <$> poll;
     v_location := location m; v_category := default [] (category m); v_hidden := hidden m; v_anonymous := anonymous m;
     v_adminScript := adminScript m; v_draft := draft m; v_publishTime := publishTime m;
     v_createTime := if can then match createTime t with Some c => Some c | None => prevCreate end else prevCreate;
     v_hideTime := if can then hideTime t else m_hideTime prevMemo |}.

(** The meaning of a field mask: the fields it names are taken from the patch, the others
    kept. *)
Definition masked (prevMemo patch : Memo) (mask : list string) : Memo :=
  let has f := bool_decide (f ∈ mask) in
  {| m_name := m_name prevMemo;
     m_content := if has "content" then m_content patch else m_content prevMemo;
     m_visibility := if has "visibility" then m_visibility patch else m_visibility prevMemo;
     m_attachments := if has "attachments" then m_attachments patch else m_attachments prevMemo;
     m_relations := if has "relations" then m_relations patch else m_relations prevMemo;
     m_poll := if has "poll" then m_poll patch else m_poll prevMemo;
     m_location := if has "location" then m_location patch else m_location prevMemo;
     m_category := if has "category" then m_category patch else m_category prevMemo;
     m_hidden := if has "hidden" then m_hidden patch else m_hidden prevMemo;
     m_anonymous := if has "anonymous" then m_anonymous patch else m_anonymous prevMemo;
     m_adminScript := if has "admin_script" then m_adminScript patch else m_adminScript prevMemo;
     m_draft := if has "draft" then m_draft patch else m_draft prevMemo;
     m_publishTime := if has "publish_time" then m_publishTime patch else m_publishTime prevMemo;
     m_createTime := if has "create_time" then m_createTime patch else m_createTime prevMemo;
     m_updateTime := if has "update_time" then m_updateTime patch else m_updateTime prevMemo;
     m_hideTime := if has "hide_time" then m_hideTime patch else m_hideTime prevMemo;
     m_space := m_space prevMemo; m_other_fields := m_other_fields prevMemo |}%string.

Lemma elem_of_when b f g : f ∈ when b g <-> b = true /\ f = g.
Proof. unfold when. destruct b; rewrite ?list_elem_of_singleton, ?elem_of_nil; naive_solver. Qed.

(** The path of a field is in the mask exactly when the field differs. *)
Lemma in_mask d f :
  f ∈ mask_of d <->
  (d_poll d = true /\ f = "poll") \/ (d_content d = true /\ f = "content") \/ (d_visibility d = true /\ f = "visibility")
  \/ (d_attachments d = true /\ f = "attachments") \/ (d_relations d = true /\ f = "relations")
  \/ (d_location d = true /\ f = "location") \/ (d_category d = true /\ f = "category") \/ (d_hidden d = true /\ f = "hidden")
  \/ (d_anonymous d = true /\ f = "anonymous") \/ (d_admin_script d = true /\ f = "admin_script")
  \/ (d_draft d = true /\ f = "draft") \/ (d_publish_time d = true /\ f = "publish_time")
  \/ (d_content d || d_attachments d || d_relations d || d_location d = true /\ f = "update_time")
  \/ (d_hide_time d = true /\ f = "hide_time") \/ (d_create_time d = true /\ f = "create_time")
  \/ (d_update_time d = true /\ f = "update_time").
Proof. unfold mask_of. rewrite elem_of_dedup, !elem_of_app, !elem_of_when. tauto. Qed.

Lemma flag_in_mask d :
  (forall f b, In (f, b) [("poll", d_poll d); ("content", d_content d); ("visibility", d_visibility d);
       ("attachments", d_attachments d); ("relations", d_relations d); ("location", d_location d); ("category", d_category d);
       ("hidden", d_hidden d); ("anonymous", d_anonymous d); ("admin_script", d_admin_script d); ("draft", d_draft d);
       ("publish_time", d_publish_time d); ("hide_time", d_hide_time d); ("create_time", d_create_time d)]%string ->
   bool_decide (f ∈ mask_of d) = b).
Proof.
  intros f b Hin. destruct b; [apply bool_decide_eq_true_2|apply bool_decide_eq_false_2]; rewrite in_mask; cbn [In] in Hin.
  - decompose [or] Hin; simplify_eq; tauto.
  - intros H. decompose [or] Hin; simplify_eq; decompose [and or] H; congruence.
Qed.

Lemma differ_false {A} `{EqDecision A} (a b : A) : differ a b = false <-> a = b.
Proof. unfold differ. rewrite negb_false_iff. apply bool_decide_eq_true. Qed.

Lemma differ_eq {A} `{EqDecision A} (a b : A) : differ a b = false -> a = b.
Proof. apply differ_false. Qed.

Lemma reference_relations_idem l name :
  getEditorReferenceRelations (getEditorReferenceRelations l name) name = getEditorReferenceRelations l name.
Proof.
  unfold getEditorReferenceRelations. apply js_filter_all. apply forallb_forall. intros r Hr%list_elem_of_In.
  by apply js_filter_In in Hr as [_ Hr].
Qed.

Lemma reference_names l : att_name <$> toAttachmentReferences l = att_name <$> l.
Proof. induction l as [|a l IH]; [done|]. cbn. f_equal. exact IH. Qed.

Lemma overridden_false chosen previous : overridden chosen previous = false -> chosen = None \/ chosen = timestampDate <$> previous.
Proof. unfold overridden. destruct chosen; [|by left]. rewrite differ_false. by right. Qed.

(** A Date survives the protobuf library's conversions. *)
Class ProtoTimeLaws : Prop := round_trip t : timestampDate (timestampFromDate t) = t.
Context {time_laws : ProtoTimeLaws}.

Lemma date_round_trip (t : option Z) : timestampDate <$> (timestampFromDate <$> t) = t.
Proof. destruct t as [t|]; [|done]. cbn. by rewrite round_trip. Qed.

Definition no_differences : differences :=
  {| d_poll := false; d_content := false; d_visibility := false; d_attachments := false; d_relations := false; d_location := false;
     d_category := false; d_hidden := false; d_anonymous := false; d_admin_script := false; d_draft := false;
     d_publish_time := false; d_hide_time := false; d_create_time := false; d_update_time := false |}.

(** C10. An update sends what changed and reaches the state the editor shows.  The paths
    are different; the memo whose masked fields are taken from the patch looks like the
    editor (attachments by name, the memo's own references, a poll without its votes);
    a time of update that was chosen is sent; and a memo that already looks like the
    editor gives an empty mask. *)
Theorem update_reaches_editor (prevMemo : Memo) (state : EditorState) (allAttachments : list Attachment) (can : bool)
    (poll : option PollMessage) :
  let (mask, patch) := buildUpdateMask prevMemo state allAttachments can poll in
  NoDup mask
  /\ view_of (masked prevMemo patch mask) = wanted prevMemo state allAttachments can poll
  /\ (forall t, can = true -> updateTime (state_timestamps state) = Some t -> timestampDate <$> m_updateTime prevMemo <> Some t ->
        "update_time"%string ∈ mask /\ timestampDate <$> m_updateTime patch = Some t)
  /\ (view_of prevMemo = wanted prevMemo state allAttachments can poll -> m_attachments prevMemo = allAttachments ->
        (can = true -> overridden (updateTime (state_timestamps state)) (m_updateTime prevMemo) = false) -> mask = []).
Proof.
  unfold buildUpdateMask. set (d := compare_memo prevMemo state allAttachments can poll). split; [apply NoDup_dedup|]. split; [|split].
  - unfold view_of, masked, wanted. cbn [m_name m_content m_visibility m_attachments m_relations m_poll m_location m_category m_hidden
      m_anonymous m_adminScript m_draft m_publishTime m_createTime m_hideTime].
    pose proof (flag_in_mask d) as Hflag. cbn [In] in Hflag.
    rewrite (Hflag "content" (d_content d)), (Hflag "visibility" (d_visibility d)), (Hflag "attachments" (d_attachments d)),
      (Hflag "relations" (d_relations d)), (Hflag "poll" (d_poll d)), (Hflag "location" (d_location d)), (Hflag "category" (d_category d)),
      (Hflag "hidden" (d_hidden d)), (Hflag "anonymous" (d_anonymous d)), (Hflag "admin_script" (d_admin_script d)),
      (Hflag "draft" (d_draft d)), (Hflag "publish_time" (d_publish_time d)), (Hflag "create_time" (d_create_time d)),
      (Hflag "hide_time" (d_hide_time d))%string by tauto.
    unfold d, patch_of. f_equal;
      cbn [compare_memo m_content m_visibility m_attachments m_relations m_poll m_location m_category m_hidden m_anonymous m_adminScript
           m_draft m_publishTime m_createTime m_hideTime d_content d_visibility d_attachments d_relations d_poll d_location d_category
           d_hidden d_anonymous d_admin_script d_draft d_publish_time d_create_time d_hide_time].
    all: try (match goal with |- context [if ?b then _ else _] =>
                match b with differ _ _ => destruct b eqn:E; [|apply differ_eq in E] end end).
    all: try done; try (by symmetry).
    + apply reference_names.
    + by rewrite E.
    + apply reference_relations_idem.
    + apply date_round_trip.
    + destruct can; cbn [andb]; [|done]. destruct (overridden _ _) eqn:E.
      * unfold overridden in E. destruct (createTime (state_timestamps state)) as [t|] eqn:Et; [|done]. cbn. by rewrite round_trip.
      * apply overridden_false in E as [E|E]; rewrite E; [done|]. by destruct (timestampDate <$> m_createTime prevMemo).
    + destruct can; cbn [andb]; [|done]. destruct (differ _ _) eqn:E; [done|]. by apply differ_eq in E.
  - intros t Hcan Ht Hdiff. assert (d_update_time d = true) as Hd.
    { unfold d, compare_memo. cbn [d_update_time]. rewrite Hcan, Ht. cbn [andb overridden]. unfold differ.
      by rewrite bool_decide_eq_false_2 by congruence. }
    split; [apply in_mask; tauto|]. unfold patch_of. cbn [m_updateTime]. rewrite Hd, Ht. cbn. by rewrite round_trip.
  - intros Hview Hall Hupdate. unfold view_of, wanted in Hview. injection Hview. intros.
    assert (d = no_differences) as ->; [|reflexivity]. clear Hview. unfold d, compare_memo, no_differences. f_equal.
    all: try (apply differ_false; congruence).
    all: destruct can; cbn [andb]; try done.
    + by apply differ_false.
    + unfold overridden. destruct (createTime (state_timestamps state)) as [c|]; [|done]. apply differ_false. congruence.
    + by apply Hupdate.
Qed.
End Update.

(** ** Opening and saving *)

Section Unchanged.
Context {types : MessageTypes} {time : ProtoTime} {service : MemoService} {parser : CommonMark}.

Lemma poll_to_save_same state newAttachments :
  pollImageLocalFileURL (state_metadata state) = None -> pollOptionImageLocalFileURLs (state_metadata state) = None ->
  poll_to_save state newAttachments = poll (state_metadata state).
Proof.
  intros H1 H2. unfold poll_to_save. rewrite H1, H2. destruct (poll (state_metadata state)) as [p|] eqn:E; [|done].
  cbn [fmap option_fmap option_map]. f_equal. destruct p as [se im os tv so rh vo vv hm].
  cbn [settings poll_image options totalVotes selectedOptionIds resultsHidden voters votersVisible hasMoreVoters].
  assert (forall i, or_uploaded i (localFiles state) newAttachments None = i) as Hsame by (by intros [|]). f_equal; [apply Hsame|].
  clear E. induction os as [|o os IH]; [done|]. rewrite fmap_cons, IH. f_equal. destruct o. cbn. f_equal. apply Hsame.
Qed.

(** Opening a memo and saving it unchanged sends nothing.  For an editor that holds
    what [fromMemo] gives of the memo the server returns, with no local files, saving
    asks for the memo and reports no changes, with any rights; a memo with a poll must
    hold its marker, which [fromMemo] adds where it is missing. *)
Theorem unchanged_memo_sends_nothing (s s' : Server) (state : EditorState) (opts : save_options) (name : jstring) (memo : Memo) :
  named (memoName opts) = Some name -> getMemo s name = (s', inr memo) ->
  fromMemo memo = (content state, state_metadata state, state_timestamps state) -> localFiles state = [] ->
  (m_poll memo = None \/ findMemoPollMarkers (m_content memo) <> []) ->
  save s state opts = (s', inr {| saved_name := m_name memo; hasChanges := false |}).
Proof.
  intros Hname Hget Hfrom Hfiles Hpoll. unfold save. rewrite Hfiles. cbn [uploadFiles await]. rewrite Hname, Hget. cbn [await].
  unfold fromMemo in Hfrom. injection Hfrom as Hcontent Hmeta Htimes.
  rewrite poll_to_save_same by (by rewrite <- Hmeta). rewrite app_nil_r. unfold buildUpdateMask.
  assert (content state = m_content memo) as Hsame.
  { rewrite <- Hcontent. destruct Hpoll as [->|Hmark]; [done|]. destruct (m_poll memo); [|done]. unfold ensureMemoPollMarker.
    by destruct (findMemoPollMarkers (m_content memo)). }
  assert (compare_memo memo state (attachments (state_metadata state)) (canCustomizeTimestamps opts) (poll (state_metadata state))
          = no_differences) as ->; [|reflexivity].
  unfold compare_memo, no_differences. rewrite <- Hmeta, <- Htimes.
  cbn [visibility attachments relations poll location category hidden anonymous adminScript draft publishTime createTime updateTime hideTime].
  assert (forall c p, c && overridden (timestampDate <$> p) p = false) as Hover.
  { intros c p. destruct c; [|done]. cbn [andb]. unfold overridden. destruct (timestampDate <$> p); [|done]. by apply differ_false. }
  rewrite !Hover. f_equal; try (by apply differ_false).
  - apply differ_false. by destruct (m_category memo) as [[|]|].
  - destruct (canCustomizeTimestamps opts); [|done]. by apply differ_false.
Qed.
End Unchanged.

(** ** Validation *)

Section Workflow.
Context {types : MessageTypes} {time : ProtoTime} {service : MemoService} {page : WebPage} {markdown_nodes : MarkdownParser}
  {markdown : MarkdownSource.MarkdownHost}.

Record ValidationResult := { valid : bool; reason : option string; detail : option jstring }.
Definition rejected (why : string) : ValidationResult := {| valid := false; reason := Some why; detail := None |}.

Definition canSave (managed : module_state) (state : EditorState) : ValidationResult * module_state :=
  let busy := ui_isLoading (state_ui state) in
  if loading_loading busy then (rejected "editor.validation.loading-content", managed)
  else if js_eqb (trim (content state)) [] && (length (attachments (state_metadata state)) =? 0)%nat
          && (length (localFiles state) =? 0)%nat
  then (rejected "editor.validation.content-required", managed)
  else if loading_uploading busy then (rejected "editor.validation.wait-for-upload", managed)
  else if 0 <? pendingInlineImageInsertions (state_ui state) then (rejected "editor.validation.resolve-image-uploads", managed)
  else
    let (invalid, managed') := findInvalidManagedAttachmentReferences managed (content state) in
    match invalid with
    | (_ :: _) as url :: _ =>
        ({| valid := false; reason := Some "editor.validation.unsupported-attachment-image-url"%string; detail := Some url |}, managed')
    | _ =>
        if recorderBusy state then (rejected "editor.validation.finish-audio-recording", managed')
        else if loading_saving busy then (rejected "editor.validation.save-in-progress", managed')
        else ({| valid := true; reason := None; detail := None |}, managed')
    end.

(** ** The workflow: what [useMemoSave] does, in order *)

Inductive query_key := MemoLists | UserStats | AttachmentLists | MemoDetail (name : jstring) | MemoComments (name : jstring).
Inductive effect :=
  | ToastInvalid (v : ValidationResult) | ToastUnchanged | ToastFailed
  | DiscardDraft | Invalidate (keys : list query_key) | MarkNewMemo (name : jstring) | Confirm (name : jstring) | Cancel.
Inductive step := Dispatch (a : EditorAction) | Effect (e : effect).

Record save_hook := { save_opts : save_options; defaultVisibility : option VisibilityValue; defaultCreateTime : option Z }.

Definition visibility_only (v : VisibilityValue) : partial_metadata :=
  {| p_visibility := Some (v : Visibility); p_attachments := None; p_relations := None; p_location := None; p_category := None;
     p_hidden := None; p_anonymous := None; p_adminScript := None; p_poll := None; p_pollImageLocalFileURL := None;
     p_pollOptionImageLocalFileURLs := None; p_draft := None; p_publishTime := None |}.

Definition optional {A} (o : option A) (f : A -> list step) : list step := match o with Some a => f a | None => [] end.

(** The steps until the queries are refetched, and those after it. *)
Definition saved_steps (hook : save_hook) : list step :=
  let opts := save_opts hook in
  [Effect DiscardDraft;
   Effect (Invalidate ([MemoLists; UserStats; AttachmentLists]
     ++ match named (memoName opts) with Some n => [MemoDetail n] | None => [] end
     ++ match named (parentMemoName opts) with Some n => [MemoComments n] | None => [] end))].
Definition refetched_steps (hook : save_hook) (name : jstring) : list step :=
  let opts := save_opts hook in
  let new := match named (memoName opts) with None => true | Some _ => false end in
  [Dispatch RESET]
  ++ (if new then match defaultVisibility hook with
                  | Some VISIBILITY_UNSPECIFIED | None => []
                  | Some v => [Dispatch (SET_METADATA (visibility_only v))]
                  end else [])
  ++ (if new then optional (defaultCreateTime hook) (fun t =>
        [Dispatch (SET_TIMESTAMPS {| p_createTime := Some (Some t); p_updateTime := Some (Some t); p_hideTime := None |})]) else [])
  ++ (if new then match named (parentMemoName opts) with None => [Effect (MarkNewMemo name)] | Some _ => [] end else [])
  ++ [Effect (Confirm name)].

(** What happens after [memoService.save]: [refetched] tells whether refetching succeeded,
    [later] what else reaches the store while it waits. *)
Definition after_save (hook : save_hook) (result : RpcError + save_result) (refetched : bool) (later : list EditorAction) : list step :=
  match result with
  | inl _ => [Effect ToastFailed]
  | inr r =>
      if negb (hasChanges r) then [Effect ToastUnchanged; Effect Cancel]
      else saved_steps hook ++ (Dispatch <$> later) ++ (if refetched then refetched_steps hook (saved_name r) else [Effect ToastFailed])
  end.

Definition dispatched (steps : list step) : list EditorAction :=
  omap (fun s => match s with Dispatch a => Some a | Effect _ => None end) steps.
Definition effects (steps : list step) : list effect :=
  omap (fun s => match s with Effect e => Some e | Dispatch _ => None end) steps.

(** The whole transaction; [typed] is what reaches the store while the save waits. *)
Definition useMemoSave (s : Server) (managed : module_state) (state : EditorState) (hook : save_hook)
    (typed later : list EditorAction) (refetched : bool) : Server * EditorState * list effect :=
  let (v, _) := canSave managed state in
  if negb (valid v) then (s, state, [ToastInvalid v])
  else
    let (s', result) := save s state (save_opts hook) in
    let steps := Dispatch (SET_LOADING saving true) :: (Dispatch <$> typed)
                 ++ after_save hook result refetched later ++ [Dispatch (SET_LOADING saving false)] in
    (s', dispatch_all state (dispatched steps), effects steps).

Lemma canSave_busy managed state :
  loading_saving (ui_isLoading (state_ui state)) = true -> valid (fst (canSave managed state)) = false.
Proof.
  intros H. unfold canSave. rewrite H. repeat case_match; simplify_eq/=; done.
Qed.

Lemma dispatched_app a b : dispatched (a ++ b) = dispatched a ++ dispatched b.
Proof. apply omap_app. Qed.
Lemma dispatched_actions l : dispatched (Dispatch <$> l) = l.
Proof. induction l as [|a l IH]; [done|]. cbn. f_equal. exact IH. Qed.
Lemma effects_app a b : effects (a ++ b) = effects a ++ effects b.
Proof. apply omap_app. Qed.
Lemma effects_actions l : effects (Dispatch <$> l) = [].
Proof. by induction l. Qed.

(** A part of the state that [SET_LOADING] does not touch does not see the transaction's own. *)
Lemma set_loading_part {A} (part : EditorState -> A) (step : A -> EditorAction -> A) key value actions state :
  (forall st a, part (editorReducer st a) = step (part st) a) -> (forall x k v, step x (SET_LOADING k v) = x) ->
  part (dispatch_all state (SET_LOADING key value :: actions ++ [SET_LOADING key false])) = part (dispatch_all state actions).
Proof.
  intros Hstep Hload. rewrite !(dispatch_part part step) by done. simpl. rewrite Hload, foldl_app. simpl. by rewrite Hload.
Qed.

Lemma saving_kept actions state :
  Forall (fun a => writes_loading saving a = None) actions -> loading_saving (ui_isLoading (state_ui state)) = true ->
  loading_saving (ui_isLoading (state_ui (dispatch_all state actions))) = true.
Proof.
  intros H. revert state. induction H as [|a actions Ha _ IH]; intros state Hs; [done|]. apply IH.
  destruct a as [| c src| | | | | |k v| | | |]; try done; [by destruct (reducer_unchanged_by_update state c src) as (_ & -> & _)|].
  by destruct k.
Qed.

(** One save at a time.  While a save waits, and whatever else reaches the store short
    of another writer of the flag, the editor refuses a second save: the server and the
    editor stay as they are, and the user gets a message. *)
Theorem one_save_at_a_time (s : Server) (managed managed' : module_state) (state : EditorState) (hook : save_hook)
    (typed typed' later : list EditorAction) (refetched : bool) :
  Forall (fun a => writes_loading saving a = None) typed ->
  let waiting := dispatch_all state (SET_LOADING saving true :: typed) in
  exists v, valid v = false /\ useMemoSave s managed' waiting hook typed' later refetched = (s, waiting, [ToastInvalid v]).
Proof.
  intros Htyped waiting. pose proof (canSave_busy managed' waiting) as H. unfold useMemoSave.
  destruct (canSave managed' waiting) as [v m]. cbn [fst] in H. exists v.
  assert (valid v = false) as Hv by (apply H; unfold waiting; cbn; by apply saving_kept). by rewrite Hv.
Qed.

Lemma reducer_metadata st a : state_metadata (editorReducer st a) = writes_metadata (state_metadata st) a.
Proof. destruct a; try done. apply reducer_unchanged_by_update. Qed.
Lemma reducer_timestamps st a : state_timestamps (editorReducer st a) = writes_timestamps (state_timestamps st) a.
Proof. destruct a; try done. apply reducer_unchanged_by_update. Qed.
Lemma reducer_files st a : localFiles (editorReducer st a) = files_step (localFiles st) a.
Proof. destruct a; try done. apply reducer_unchanged_by_update. Qed.

(** The user's own part of the state: the text, the metadata, the times and the files. *)
Definition same_work (a b : EditorState) : Prop :=
  content a = content b /\ state_metadata a = state_metadata b /\ state_timestamps a = state_timestamps b /\ localFiles a = localFiles b.

(** The transaction's own actions leave what the user wrote. *)
Lemma kept_by_transaction state typed :
  same_work (dispatch_all state (SET_LOADING saving true :: typed ++ [SET_LOADING saving false])) (dispatch_all state typed).
Proof.
  unfold same_work. split; [|split; [|split]].
  - assert ((content (dispatch_all state (SET_LOADING saving true :: typed ++ [SET_LOADING saving false])),
             contentSource (dispatch_all state (SET_LOADING saving true :: typed ++ [SET_LOADING saving false])))
            = (content (dispatch_all state typed), contentSource (dispatch_all state typed))) as [=]; [|done].
    apply (set_loading_part (fun s => (content s, contentSource s)) (fun x a => default x (writes_content a))); [|done].
    apply reducer_content.
  - apply (set_loading_part state_metadata writes_metadata); [apply reducer_metadata|done].
  - apply (set_loading_part state_timestamps writes_timestamps); [apply reducer_timestamps|done].
  - apply (set_loading_part localFiles files_step); [apply reducer_files|done].
Qed.

(** The editor with nothing in it: no text, no metadata but the visibility, no files, nothing under way.
    Only the visibility and the times can differ. *)
Definition blank_editor (v : VisibilityValue) (created : option Z) : EditorState := {|
  content := []; contentSource := external;
  state_metadata := {|
    visibility := (v : Visibility); attachments := []; relations := []; location := None; category := None;
    hidden := false; anonymous := false; adminScript := []; poll := None; pollImageLocalFileURL := None;
    pollOptionImageLocalFileURLs := None; draft := false; publishTime := None |};
  state_ui := {|
    isFocusMode := false; pendingInlineImageInsertions := 0;
    ui_isLoading := {| loading_saving := false; loading_uploading := false; loading_loading := false |} |};
  state_timestamps := {| createTime := created; updateTime := created; hideTime := false |};
  localFiles := []; recorderBusy := false |}.

(** What the editor shows after a success: for a new memo the defaults of the user and of the page, else nothing of either. *)
Definition emptied (hook : save_hook) : EditorState :=
  match named (memoName (save_opts hook)) with
  | Some _ => blank_editor PUBLIC None
  | None => blank_editor (match defaultVisibility hook with
                          | Some VISIBILITY_UNSPECIFIED | None => PUBLIC
                          | Some v => v
                          end) (defaultCreateTime hook)
  end.

Lemma refetched_empty hook name :
  exists rest, refetched_steps hook name = Dispatch RESET :: rest
    /\ (exists shown, effects rest = shown ++ [Confirm name])
    /\ editorReducer (dispatch_all (createInitialState false) (dispatched rest)) (SET_LOADING saving false) = emptied hook.
Proof.
  unfold refetched_steps, emptied. eexists. split; [reflexivity|].
  split; [rewrite !effects_app, !app_assoc; by eexists|].
  destruct (named (memoName (save_opts hook))), (named (parentMemoName (save_opts hook))),
    (defaultVisibility hook) as [[]|], (defaultCreateTime hook); reflexivity.
Qed.

Lemma emptied_by_transaction state hook typed later name :
  let steps := saved_steps hook ++ (Dispatch <$> later) ++ refetched_steps hook name in
  let final := dispatch_all state (SET_LOADING saving true :: (typed ++ dispatched steps) ++ [SET_LOADING saving false]) in
  final = emptied hook /\ last (effects steps) = Some (Confirm name).
Proof.
  cbv zeta. destruct (refetched_empty hook name) as (rest & -> & [shown Hshown] & Hempty).
  split.
  - rewrite <- Hempty, !dispatched_app, dispatched_actions. change (dispatched (saved_steps hook)) with (@nil EditorAction).
    change (dispatched (Dispatch RESET :: rest)) with (RESET :: dispatched rest). cbn [app].
    unfold dispatch_all. simpl. rewrite !foldl_app. reflexivity.
  - rewrite !effects_app, effects_actions. change (effects (Dispatch RESET :: rest)) with (effects rest).
    rewrite Hshown, !app_assoc. apply last_snoc.
Qed.

Lemma invalidated hook :
  exists keys, saved_steps hook = [Effect DiscardDraft; Effect (Invalidate keys)]
    /\ MemoLists ∈ keys /\ (forall n, named (memoName (save_opts hook)) = Some n -> MemoDetail n ∈ keys)
    /\ (forall n, named (parentMemoName (save_opts hook)) = Some n -> MemoComments n ∈ keys).
Proof.
  eexists. split; [reflexivity|]. split; [|split; intros n ->]; rewrite !elem_of_app, !elem_of_cons; tauto.
Qed.

(** C12. A save that fails loses nothing, and one that succeeds empties the editor.  When
    the save is let through the flag ends down; on an error or without changes the text,
    the metadata, the times and the files are those the user's own actions give, and the
    draft is kept.  On success the draft is discarded first and the memo's queries are
    invalidated; once they are refetched the whole state is the empty editor's: no text,
    no file, no attachment, poll, location or any other metadata but the visibility a new
    memo starts with, no time but a new memo's, and nothing under way, whatever was typed
    meanwhile.  When refetching fails the editor keeps what the user's own actions give. *)
Theorem save_transaction_outcome (s : Server) (managed : module_state) (state : EditorState) (hook : save_hook)
    (typed later : list EditorAction) (refetched : bool) :
  valid (fst (canSave managed state)) = true ->
  let saved := save s state (save_opts hook) in
  let '(s', final, shown) := useMemoSave s managed state hook typed later refetched in
  s' = fst saved
  /\ loading_saving (ui_isLoading (state_ui final)) = false
  /\ match snd saved with
     | inr {| saved_name := name; hasChanges := true |} =>
         (exists keys shown', shown = DiscardDraft :: Invalidate keys :: shown' /\ MemoLists ∈ keys
            /\ (forall n, named (memoName (save_opts hook)) = Some n -> MemoDetail n ∈ keys)
            /\ (forall n, named (parentMemoName (save_opts hook)) = Some n -> MemoComments n ∈ keys))
         /\ if refetched then final = emptied hook /\ last shown = Some (Confirm name)
            else same_work final (dispatch_all state (typed ++ later)) /\ last shown = Some ToastFailed
     | _ =>
         same_work final (dispatch_all state typed)
         /\ shown = match snd saved with inl _ => [ToastFailed] | inr _ => [ToastUnchanged; Cancel] end
     end.
Proof.
  intros Hvalid saved. unfold useMemoSave. destruct (canSave managed state) as [v m]. cbn [fst] in Hvalid. rewrite Hvalid.
  cbn [negb]. fold saved. destruct saved as [s' result]. cbn [fst snd]. split; [done|].
  set (steps := after_save hook result refetched later).
  assert (dispatched (Dispatch (SET_LOADING saving true) :: (Dispatch <$> typed) ++ steps ++ [Dispatch (SET_LOADING saving false)])
          = SET_LOADING saving true :: (typed ++ dispatched steps) ++ [SET_LOADING saving false]) as ->.
  { change (SET_LOADING saving true :: dispatched ((Dispatch <$> typed) ++ steps ++ [Dispatch (SET_LOADING saving false)])
      = SET_LOADING saving true :: (typed ++ dispatched steps) ++ [SET_LOADING saving false]).
    by rewrite !dispatched_app, dispatched_actions, <- app_assoc. }
  assert (effects (Dispatch (SET_LOADING saving true) :: (Dispatch <$> typed) ++ steps ++ [Dispatch (SET_LOADING saving false)]) = effects steps) as ->.
  { change (effects ((Dispatch <$> typed) ++ steps ++ [Dispatch (SET_LOADING saving false)]) = effects steps).
    rewrite !effects_app, effects_actions. apply app_nil_r. }
  split.
  { change (SET_LOADING saving true :: (typed ++ dispatched steps) ++ [SET_LOADING saving false])
      with ((SET_LOADING saving true :: (typed ++ dispatched steps)) ++ [SET_LOADING saving false]).
    unfold dispatch_all. by rewrite foldl_app. }
  destruct result as [e|[name changed]]; [|destruct changed].
  - unfold steps, after_save. rewrite app_nil_r. split; [apply kept_by_transaction|done].
  - destruct (invalidated hook) as (keys & Hsaved & Hkeys). unfold steps, after_save. cbn [hasChanges negb saved_name]. split.
    + rewrite Hsaved. eexists keys, _. rewrite !effects_app. split; [reflexivity|exact Hkeys].
    + destruct refetched; [apply emptied_by_transaction|]. rewrite Hsaved, !dispatched_app, dispatched_actions.
      rewrite !effects_app, effects_actions. cbn [dispatched omap list_omap app]. rewrite app_nil_r. split; [apply kept_by_transaction|done].
  - unfold steps, after_save. cbn [hasChanges negb]. rewrite app_nil_r. split; [apply kept_by_transaction|done].
Qed.
End Workflow.

(** ** A concrete server, which holds one memo *)

#[local] Instance plain_types : MessageTypes := {|
  LocationMessage := Z; PollSettings := jstring; PollVoter := jstring; MediaMetadata := unit |}.
#[local] Instance millis : ProtoTime := {|
  timestampDate t := seconds t * 1000 + nanos t / 1000000;
  timestampFromDate d := {| seconds := d / 1000; nanos := (d mod 1000) * 1000000 |} |}.
#[local] Instance millis_laws : ProtoTimeLaws (time := millis).
Proof. intros t. cbn. rewrite Z.div_mul by lia. pose proof (Z.div_mod t 1000). lia. Qed.

(** Updates follow the mask; the calls the samples do not use fail. *)
#[local] Instance one_memo : MemoService := {|
  Server := Memo; RpcError := unit;
  createAttachment s _ := (s, inl tt);
  getMemo s name := if js_eqb name (m_name s) then (s, inr s) else (s, inl tt);
  updateMemo s patch mask := let s' := masked s patch mask in (s', inr s');
  createMemo s _ := (s, inl tt);
  createMemoComment s _ _ := (s, inl tt) |}.
#[local] Existing Instances plain_page plain_markdown image_parser one_paragraph.

Definition sample_memo : Memo :=
  {| m_name := u "memos/1"; m_content := u "text"; m_visibility := PRIVATE; m_attachments := [sample_attachment]; m_relations := [];
     m_poll := None; m_location := Some 7; m_category := Some []; m_hidden := false; m_anonymous := false; m_adminScript := [];
     m_draft := false; m_publishTime := None; m_createTime := Some {| seconds := 12; nanos := 345000000 |};
     m_updateTime := None; m_hideTime := false; m_space := None; m_other_fields := [] |}.
Definition sample_server : @Server plain_types one_memo := sample_memo.
(** The editor on the memo, with this text. *)
Definition editing (text : jstring) : EditorState :=
  let '(_, m, t) := fromMemo sample_memo in
  dispatch_all (createInitialState false) [INIT_MEMO text m t].
Definition edit_memo : save_options :=
  {| memoName := Some (u "memos/1"); parentMemoName := None; canCustomizeTimestamps := true; space := None |}.
Definition edit_hook : save_hook := {| save_opts := edit_memo; defaultVisibility := None; defaultCreateTime := None |}.

Example save_sample :
  save sample_server (editing (u "new")) edit_memo
  = (let s := masked sample_memo (patch_of (compare_memo sample_memo (editing (u "new")) [sample_attachment] true None) sample_memo
                                    (editing (u "new")) [sample_attachment] None) ["content"; "update_time"]%string in
     (s, inr {| saved_name := u "memos/1"; hasChanges := true |})).
Proof. vm_compute. reflexivity. Qed.

Lemma update_reaches_editor_witness :
  let (mask, patch) := buildUpdateMask sample_memo (editing (u "new")) [sample_attachment] true None in
  NoDup mask /\ mask = ["content"; "update_time"]%string
  /\ view_of (masked sample_memo patch mask) = wanted sample_memo (editing (u "new")) [sample_attachment] true None.
Proof.
  pose proof (update_reaches_editor sample_memo (editing (u "new")) [sample_attachment] true None) as H.
  unfold buildUpdateMask in *. destruct H as (H1 & H2 & _). split; [exact H1|]. split; [vm_compute; reflexivity|exact H2].
Defined.

Lemma unchanged_memo_sends_nothing_witness :
  save sample_server (editing (u "text")) edit_memo = (sample_server, inr {| saved_name := u "memos/1"; hasChanges := false |}).
Proof.
  apply (unchanged_memo_sends_nothing sample_server sample_server (editing (u "text")) edit_memo (u "memos/1") sample_memo).
  - reflexivity.
  - reflexivity.
  - reflexivity.
  - reflexivity.
  - left. reflexivity.
Defined.

Lemma one_save_at_a_time_witness (waiting := dispatch_all (editing (u "new")) [SET_LOADING saving true; updateContent (u "newer")]) :
  exists v, valid v = false
    /\ useMemoSave sample_server ManagedAttachment.initial waiting edit_hook [] [] true = (sample_server, waiting, [ToastInvalid v]).
Proof.
  apply (one_save_at_a_time sample_server ManagedAttachment.initial ManagedAttachment.initial (editing (u "new")) edit_hook
           [updateContent (u "newer")] [] [] true).
  repeat constructor.
Defined.

Lemma save_transaction_outcome_witness (typed := [updateContent (u "newer")]) :
  (let '(_, final, shown) := useMemoSave sample_server ManagedAttachment.initial (editing (u "text")) edit_hook typed [] true in
   content final = u "newer" /\ loading_saving (ui_isLoading (state_ui final)) = false /\ shown = [ToastUnchanged; Cancel])
  /\ (let '(_, final, shown) := useMemoSave sample_server ManagedAttachment.initial (editing (u "new")) edit_hook typed [] true in
      final = blank_editor PUBLIC None /\ last shown = Some (Confirm (u "memos/1"))).
Proof.
  split.
  - pose proof (save_transaction_outcome sample_server ManagedAttachment.initial (editing (u "text")) edit_hook typed [] true eq_refl) as H.
    destruct (useMemoSave _ _ _ _ _ _ _) as [[s' final] shown].
    assert (snd (save sample_server (editing (u "text")) edit_memo) = inr {| saved_name := u "memos/1"; hasChanges := false |})
      as E by (vm_compute; reflexivity).
    cbv zeta in H. cbn [save_opts edit_hook] in H. rewrite E in H. destruct H as (_ & H2 & (H3 & _) & H7).
    split; [exact H3|]. split; [exact H2|exact H7].
  - pose proof (save_transaction_outcome sample_server ManagedAttachment.initial (editing (u "new")) edit_hook typed [] true eq_refl) as H.
    destruct (useMemoSave _ _ _ _ _ _ _) as [[s' final] shown].
    assert (snd (save sample_server (editing (u "new")) edit_memo) = inr {| saved_name := u "memos/1"; hasChanges := true |})
      as E by (vm_compute; reflexivity).
    cbv zeta in H. cbn [save_opts edit_hook] in H. rewrite E in H. destruct H as (_ & _ & _ & H).
    exact H.
Defined.
