(* ===== verification/UploadAnchors.v ===== *)
(** * The editor under uploads

    web/src/components/MemoEditor/Editor/uploadAnchors.ts and the part of
    web/src/components/MemoEditor/Editor/controller.ts that the uploads use: placeholders
    anchored in the document, which move as it is edited, and the Markdown that takes the
    place of one.  How an anchor moves through a change is CodeMirror's and a parameter. *)

From S2P Require Import Prelude JSString ManagedAttachment.

Inductive UploadAnchorStatus := anchor_uploading | anchor_failed.
(** What the buttons of a failed upload call. *)
Inductive callback := RetryJob (id : jstring) | DismissJob (id : jstring).
Record UploadAnchorDescriptor := {
  anchor_id : jstring; status : UploadAnchorStatus; completed : nat; total : nat; message : jstring;
  retryLabel : jstring; keepLabel : jstring; onRetry : option callback; onKeepAttachments : option callback;
}.

#[export] Instance status_eq_dec : EqDecision UploadAnchorStatus.
Proof. solve_decision. Defined.
#[export] Instance callback_eq_dec : EqDecision callback.
Proof. solve_decision. Defined.
(** [UploadAnchorWidget.eq]: whether the element that shows one may show the other. *)
Definition widget_eq (a b : UploadAnchorDescriptor) : bool :=
  js_eqb (anchor_id a) (anchor_id b) && bool_decide (status a = status b) && (completed a =? completed b)%nat
  && (total a =? total b)%nat && js_eqb (message a) (message b) && js_eqb (retryLabel a) (retryLabel b)
  && js_eqb (keepLabel a) (keepLabel b) && bool_decide (onRetry a = onRetry b)
  && bool_decide (onKeepAttachments a = onKeepAttachments b).
(** An element is reused only for what it already shows. *)
Lemma widget_eq_spec a b : widget_eq a b = true <-> a = b.
Proof.
  unfold widget_eq. rewrite !andb_true_iff, !js_eqb_true, !bool_decide_eq_true, !Nat.eqb_eq.
  split; [|by intros ->]. destruct a, b; cbn. naive_solver.
Qed.

(** The document, the head of the selection and the anchors by position. *)
Record editor := { doc : jstring; selection_head : nat; anchors : list (nat * UploadAnchorDescriptor) }.

(** The change that replaces [from, to) by a text. *)
Record change := { ch_from : nat; ch_to : nat; ch_insert : jstring }.

(** Where a position is after a change; [None] when it was deleted. *)
Class ChangeMapping := {
  map_anchor : change -> nat -> option nat;
  map_head : change -> nat -> nat;
}.
(** A position stays one of the document. *)
Class ChangeMappingLaws (mapping : ChangeMapping) : Prop := {
  map_anchor_bound c n pos pos' : (ch_from c <= ch_to c <= n)%nat -> (pos <= n)%nat -> map_anchor c pos = Some pos' ->
    (pos' <= n - (ch_to c - ch_from c) + length (ch_insert c))%nat;
  map_head_bound c n pos : (ch_from c <= ch_to c <= n)%nat -> (pos <= n)%nat ->
    (map_head c pos <= n - (ch_to c - ch_from c) + length (ch_insert c))%nat;
}.

Inductive anchor_effect :=
  | addUploadAnchor (position : nat) (descriptor : UploadAnchorDescriptor)
  | updateUploadAnchor (descriptor : UploadAnchorDescriptor)
  | removeUploadAnchor (id : jstring).

Definition by_position (a b : nat * UploadAnchorDescriptor) : bool := (a.1 <=? b.1)%nat.
Definition has_id (id : jstring) (a : nat * UploadAnchorDescriptor) : bool := js_eqb (anchor_id a.2) id.
Definition without (id : jstring) (l : list (nat * UploadAnchorDescriptor)) : list (nat * UploadAnchorDescriptor) :=
  js_filter (fun a => negb (has_id id a)) l.

(** The last anchor of the identifier. *)
Definition findAnchorPosition (l : list (nat * UploadAnchorDescriptor)) (id : jstring) : option nat :=
  fst <$> js_find (has_id id) (rev l).

Definition apply_effect (length_ : nat) (l : list (nat * UploadAnchorDescriptor)) (e : anchor_effect)
    : list (nat * UploadAnchorDescriptor) :=
  match e with
  | addUploadAnchor position descriptor => sort_by by_position (l ++ [(Nat.min position length_, descriptor)])
  | updateUploadAnchor descriptor =>
      match findAnchorPosition l (anchor_id descriptor) with
      | None => l
      | Some position => sort_by by_position (without (anchor_id descriptor) l ++ [(position, descriptor)])
      end
  | removeUploadAnchor id => without id l
  end.

Section Editor.
Context {mapping : ChangeMapping}.

Definition change_doc (c : change) (s : jstring) : jstring := take (ch_from c) s ++ ch_insert c ++ drop (ch_to c) s.
Definition map_anchors (c : change) (l : list (nat * UploadAnchorDescriptor)) : list (nat * UploadAnchorDescriptor) :=
  omap (fun a => position ← map_anchor c a.1; Some (position, a.2)) l.

(** A transaction: perhaps a change, effects, perhaps a selection. *)
Definition dispatch (c : option change) (effects : list anchor_effect) (selection : option nat) (e : editor) : editor :=
  let doc' := match c with Some c => change_doc c (doc e) | None => doc e end in
  let moved := match c with Some c => map_anchors c (anchors e) | None => anchors e end in
  let head' := match c with Some c => map_head c (selection_head e) | None => selection_head e end in
  {| doc := doc'; selection_head := default head' selection; anchors := foldl (apply_effect (length doc')) moved effects |}.

Definition createUploadAnchor (descriptor : UploadAnchorDescriptor) (position : option nat) (e : editor) : editor :=
  dispatch None [addUploadAnchor (default (selection_head e) position) descriptor] None e.
Definition setUploadAnchor (descriptor : UploadAnchorDescriptor) (e : editor) : editor := dispatch None [updateUploadAnchor descriptor] None e.
Definition cancelUploadAnchor (id : jstring) (e : editor) : editor := dispatch None [removeUploadAnchor id] None e.
Definition getUploadAnchorPosition (e : editor) (id : jstring) : option nat := findAnchorPosition (anchors e) id.

(** ** The controller *)

Definition BLANK_LINE : jstring := [10; 10].
Definition pad_before (before : jstring) : jstring :=
  if (length before =? 0)%nat || ends_with before BLANK_LINE then [] else if ends_with before [10] then [10] else BLANK_LINE.
Definition pad_after (after : jstring) : jstring :=
  if (length after =? 0)%nat || starts_with after BLANK_LINE then [] else if starts_with after [10] then [10] else BLANK_LINE.
Definition blockPad (before after : jstring) : jstring * jstring := (pad_before before, pad_after after).

Definition padded (e : editor) (position : nat) (markdown : jstring) : jstring :=
  let (prefix, suffix) := blockPad (slice (doc e) 0 position) (slice_from (doc e) position) in prefix ++ markdown ++ suffix.

Definition insertMarkdown (markdown : jstring) (e : editor) : editor :=
  match markdown with
  | [] => e
  | _ =>
      let text := padded e (selection_head e) markdown in
      dispatch (Some {| ch_from := selection_head e; ch_to := selection_head e; ch_insert := text |}) []
        (Some (selection_head e + length text)%nat) e
  end.

Definition resolveUploadAnchor (id markdown : jstring) (e : editor) : editor :=
  match getUploadAnchorPosition e id with
  | None => e
  | Some position =>
      match markdown with
      | [] => cancelUploadAnchor id e
      | _ =>
          let text := padded e position markdown in
          dispatch (Some {| ch_from := position; ch_to := position; ch_insert := text |}) [removeUploadAnchor id]
            (Some (position + length text)%nat) e
      end
  end.

Definition isEmpty (e : editor) : bool := js_eqb (trim (doc e)) [].
Definition setMarkdown (markdown : jstring) (e : editor) : editor :=
  dispatch (Some {| ch_from := 0; ch_to := length (doc e); ch_insert := markdown |}) [] None e.
Definition insertInlineMarkdown (markdown : jstring) (e : editor) : editor :=
  match markdown with
  | [] => e
  | _ =>
      dispatch (Some {| ch_from := selection_head e; ch_to := selection_head e; ch_insert := markdown |}) []
        (Some (selection_head e + length markdown)%nat) e
  end.
Definition setCursor (position : Z) (e : editor) : editor :=
  dispatch None [] (Some (Z.to_nat (Z.min (Z.max position 0) (Z.of_nat (length (doc e)))))) e.
End Editor.

(** ** Blocks *)

(** Text before a block ends a paragraph, and text after it begins one. *)
Definition ends_paragraph (s : jstring) : Prop := s = [] \/ exists s', s = s' ++ BLANK_LINE.
Definition begins_paragraph (s : jstring) : Prop := s = [] \/ exists s', s = BLANK_LINE ++ s'.

Lemma ends_with_spec s p : ends_with s p = true <-> exists s', s = s' ++ p.
Proof.
  unfold ends_with. rewrite andb_true_iff, Nat.leb_le, js_eqb_true. split.
  - intros [_ H]. exists (take (length s - length p) s).
    transitivity (take (length s - length p) s ++ drop (length s - length p) s); [by rewrite take_drop|by rewrite H].
  - intros [s' ->]. rewrite length_app. split; [lia|]. replace (length s' + length p - length p)%nat with (length s') by lia.
    by rewrite drop_app_length.
Qed.

Lemma pad_before_ok before : ends_paragraph (before ++ pad_before before).
Proof.
  unfold pad_before. destruct (length before =? 0)%nat eqn:E0; cbn [orb].
  { left. apply Nat.eqb_eq, length_zero_iff_nil in E0. by subst. }
  destruct (ends_with before BLANK_LINE) eqn:E1; [right; rewrite app_nil_r; by apply ends_with_spec|].
  destruct (ends_with before [10]) eqn:E2; right; [|by eexists]. apply ends_with_spec in E2 as [s' ->]. exists s'. by rewrite <- app_assoc.
Qed.

Lemma pad_after_ok after : begins_paragraph (pad_after after ++ after).
Proof.
  unfold pad_after. destruct (length after =? 0)%nat eqn:E0; cbn [orb].
  { left. apply Nat.eqb_eq, length_zero_iff_nil in E0. by subst. }
  destruct (starts_with after BLANK_LINE) eqn:E1; [right; by apply starts_with_spec in E1|].
  destruct (starts_with after [10]) eqn:E2; right; [|by eexists]. apply starts_with_spec in E2 as [s' ->]. by exists s'.
Qed.

(** ** Anchors *)

Definition ids (e : editor) : list jstring := (fun a => anchor_id a.2) <$> anchors e.
(** The selection and the anchors are in the document, and an identifier has one anchor. *)
Definition editor_ok (e : editor) : Prop :=
  (selection_head e <= length (doc e))%nat /\ Forall (fun a => (a.1 <= length (doc e))%nat) (anchors e) /\ NoDup (ids e).

Lemma findAnchorPosition_Some l id position :
  findAnchorPosition l id = Some position -> exists descriptor, (position, descriptor) ∈ l /\ anchor_id descriptor = id.
Proof.
  unfold findAnchorPosition. destruct (js_find (has_id id) (rev l)) as [[q descriptor]|] eqn:E; [|done]. intros [= <-].
  apply js_find_Some in E as [Hin Hid]. exists descriptor. split; [by apply list_elem_of_In, in_rev, list_elem_of_In|]. unfold has_id in Hid. by apply js_eqb_true in Hid.
Qed.

(** Every anchor's identifier once, after a list is changed to another with them. *)
Lemma without_ids l id : (fun a => anchor_id a.2) <$> without id l = js_filter (fun i => negb (js_eqb i id)) ((fun a => anchor_id a.2) <$> l).
Proof.
  unfold without. induction l as [|a l IH]; [done|]. cbn [fmap list_fmap js_filter]. unfold has_id at 1.
  destruct (js_eqb (anchor_id a.2) id); cbn [negb fmap list_fmap]; [exact IH|by f_equal].
Qed.

Lemma elem_of_without l id a : a ∈ without id l <-> a ∈ l /\ anchor_id a.2 <> id.
Proof. unfold without, has_id. by rewrite js_filter_In, negb_true_iff, js_eqb_false. Qed.

Definition anchors_ok (n : nat) (l : list (nat * UploadAnchorDescriptor)) : Prop :=
  Forall (fun a => (a.1 <= n)%nat) l /\ NoDup ((fun a => anchor_id a.2) <$> l).

Lemma anchors_ok_perm n l l' : l ≡ₚ l' -> anchors_ok n l -> anchors_ok n l'.
Proof. intros Hp [H1 H2]. split; [by rewrite <- Hp|]. by rewrite <- Hp. Qed.

Lemma anchors_ok_without n l id : anchors_ok n l -> anchors_ok n (without id l).
Proof.
  intros [H1 H2]. split; [rewrite Forall_forall in *; intros a Ha; apply H1; by apply elem_of_without in Ha as [Ha _]|].
  rewrite without_ids. eapply sublist_NoDup; [exact H2|]. apply js_filter_sublist.
Qed.

Lemma anchors_ok_snoc n l position descriptor :
  anchors_ok n l -> (position <= n)%nat -> (forall a, a ∈ l -> anchor_id a.2 <> anchor_id descriptor) ->
  anchors_ok n (sort_by by_position (l ++ [(position, descriptor)])).
Proof.
  intros [H1 H2] Hp Hf. eapply anchors_ok_perm; [symmetry; apply sort_by_perm|]. split.
  - apply Forall_app. split; [done|]. by constructor.
  - rewrite fmap_app. apply NoDup_app. split; [done|]. split; [|apply NoDup_singleton].
    intros i Hi. apply list_elem_of_fmap in Hi as (a & -> & Ha). cbn [fmap list_fmap snd]. intros Hin%list_elem_of_singleton. by apply (Hf a).
Qed.

(** An effect keeps the anchors in the document; a new anchor has an identifier of its own. *)
Definition effect_fresh (l : list (nat * UploadAnchorDescriptor)) (e : anchor_effect) : Prop :=
  match e with addUploadAnchor _ descriptor => forall a, a ∈ l -> anchor_id a.2 <> anchor_id descriptor | _ => True end.
Lemma apply_effect_ok n l e : anchors_ok n l -> effect_fresh l e -> anchors_ok n (apply_effect n l e).
Proof.
  intros Hl Hf. destruct e as [position descriptor|descriptor|id]; cbn [apply_effect].
  - apply anchors_ok_snoc; [done|lia|done].
  - destruct (findAnchorPosition l (anchor_id descriptor)) as [position|] eqn:E; [|done].
    apply findAnchorPosition_Some in E as (d & Hd & _). apply anchors_ok_snoc; [by apply anchors_ok_without| |].
    + destruct Hl as [H1 _]. rewrite Forall_forall in H1. by apply (H1 (position, d)).
    + by intros a [_ Ha]%elem_of_without.
  - by apply anchors_ok_without.
Qed.

Section EditorFacts.
Context {mapping : ChangeMapping} {laws : ChangeMappingLaws mapping}.

Lemma length_change_doc c s : (ch_from c <= ch_to c <= length s)%nat ->
  length (change_doc c s) = (length s - (ch_to c - ch_from c) + length (ch_insert c))%nat.
Proof. intros H. unfold change_doc. rewrite !length_app, length_take, length_drop. lia. Qed.

Lemma map_anchors_ok c s l :
  (ch_from c <= ch_to c <= length s)%nat -> anchors_ok (length s) l -> anchors_ok (length (change_doc c s)) (map_anchors c l).
Proof.
  intros Hc [H1 H2]. unfold map_anchors. split.
  - rewrite Forall_forall in *. intros a Ha. apply list_elem_of_omap in Ha as ([q d] & Hq & Hm). cbn [fst snd] in Hm.
    destruct (map_anchor c q) as [q'|] eqn:E; [|done]. injection Hm as <-. cbn [fst]. rewrite length_change_doc by done.
    apply (map_anchor_bound c (length s) q); [done|by apply (H1 (q, d))|done].
  - eapply sublist_NoDup; [exact H2|]. clear H1 H2. induction l as [|[q d] l IH]; [done|]. cbn [omap list_omap fmap list_fmap fst snd].
    destruct (map_anchor c q); cbn; [by apply sublist_skip|by apply sublist_cons].
Qed.

(** At most one effect, and an anchor it adds has an identifier of its own. *)
Definition effects_fresh (e : editor) (effects : list anchor_effect) : Prop :=
  match effects with
  | [] => True
  | [addUploadAnchor _ descriptor] => anchor_id descriptor ∉ ids e
  | [_] => True
  | _ => False
  end.

(** A transaction keeps the editor well formed. *)
Lemma dispatch_ok c effects selection e :
  editor_ok e -> match c with Some c => (ch_from c <= ch_to c <= length (doc e))%nat | None => True end ->
  effects_fresh e effects ->
  match selection with
  | Some head => (head <= length (match c with Some c => change_doc c (doc e) | None => doc e end))%nat
  | None => True
  end -> editor_ok (dispatch c effects selection e).
Proof.
  intros (Hh & Ha & Hn) Hc He Hs. set (s' := match c with Some c => change_doc c (doc e) | None => doc e end) in *.
  set (moved := match c with Some c => map_anchors c (anchors e) | None => anchors e end).
  assert (anchors_ok (length s') moved) as Hmoved by (destruct c as [c|]; [by apply map_anchors_ok|done]).
  assert (forall a, a ∈ moved -> anchor_id a.2 ∈ ids e) as Hids.
  { intros a Hin. unfold ids. destruct c as [c|]; [|by apply list_elem_of_fmap; exists a].
    apply list_elem_of_omap in Hin as ([q d] & Hq & Hm). apply list_elem_of_fmap. exists (q, d). split; [|done].
    destruct (map_anchor c (q, d).1); [|done]. by injection Hm as <-. }
  assert (anchors_ok (length s') (foldl (apply_effect (length s')) moved effects)) as [H1 H2].
  { destruct effects as [|e1 [|e2 rest]]; [done| |by destruct e1]. cbn [foldl]. apply apply_effect_ok; [done|].
    destruct e1 as [p d| |]; try done. intros a Hin Heq. apply He. rewrite <- Heq. by apply Hids. }
  split; [|split; [exact H1|exact H2]]. cbn [dispatch selection_head doc]. destruct selection as [head|]; [exact Hs|].
  destruct c as [c|]; [|exact Hh]. cbn [default]. unfold s'. rewrite length_change_doc by done. by apply map_head_bound.
Qed.
End EditorFacts.

(** ** Properties *)

Section ControllerFacts.
Context {mapping : ChangeMapping} {laws : ChangeMappingLaws mapping}.

(** What happens to the editor: the uploads' transactions, and edits with a selection of
    the result. *)
Inductive editor_op :=
  | OpCreate (descriptor : UploadAnchorDescriptor) (position : option nat)
  | OpSet (descriptor : UploadAnchorDescriptor)
  | OpCancel (id : jstring)
  | OpInsert (markdown : jstring)
  | OpInline (markdown : jstring)
  | OpSetMarkdown (markdown : jstring)
  | OpSetCursor (position : Z)
  | OpResolve (id markdown : jstring)
  | OpEdit (c : change) (selection : option nat).
Definition run_op (op : editor_op) (e : editor) : editor :=
  match op with
  | OpCreate descriptor position => createUploadAnchor descriptor position e
  | OpSet descriptor => setUploadAnchor descriptor e
  | OpCancel id => cancelUploadAnchor id e
  | OpInsert markdown => insertMarkdown markdown e
  | OpInline markdown => insertInlineMarkdown markdown e
  | OpSetMarkdown markdown => setMarkdown markdown e
  | OpSetCursor position => setCursor position e
  | OpResolve id markdown => resolveUploadAnchor id markdown e
  | OpEdit c selection => dispatch (Some c) [] selection e
  end.
Definition op_ok (op : editor_op) (e : editor) : Prop :=
  match op with
  | OpCreate descriptor _ => anchor_id descriptor ∉ ids e
  | OpEdit c selection => (ch_from c <= ch_to c <= length (doc e))%nat
                          /\ match selection with Some head => (head <= length (change_doc c (doc e)))%nat | None => True end
  | _ => True
  end.

Lemma length_insertion e position text :
  (position <= length (doc e))%nat ->
  length (change_doc {| ch_from := position; ch_to := position; ch_insert := text |} (doc e)) = (length (doc e) + length text)%nat.
Proof. intros H. rewrite length_change_doc by (cbn; lia). cbn. lia. Qed.

Lemma anchor_position e id position :
  editor_ok e -> getUploadAnchorPosition e id = Some position -> (position <= length (doc e))%nat.
Proof.
  intros (_ & Ha & _) H. apply findAnchorPosition_Some in H as (d & Hd & _). rewrite Forall_forall in Ha. by apply (Ha (position, d)).
Qed.

(** Each operation keeps the editor well formed: the selection and the anchors stay in the
    document, and an upload has one anchor at most. *)
Theorem anchors_stay_in_document (op : editor_op) (e : editor) (He : editor_ok e) (Hop : op_ok op e) : editor_ok (run_op op e).
Proof.
  destruct op as [descriptor position|descriptor|id|markdown|markdown|markdown|position|id markdown|c selection]; cbn [run_op op_ok] in *.
  1, 2, 3: by apply dispatch_ok.
  - unfold insertMarkdown. destruct markdown as [|ch markdown]; [done|]. pose proof (proj1 He).
    apply dispatch_ok; [done|cbn; lia|done|]. rewrite length_insertion by done. lia.
  - unfold insertInlineMarkdown. destruct markdown as [|ch markdown]; [done|]. pose proof (proj1 He).
    apply dispatch_ok; [done|cbn; lia|done|]. rewrite length_insertion by done. lia.
  - apply dispatch_ok; [done|cbn; lia|done..].
  - apply dispatch_ok; [done|done|done|lia].
  - unfold resolveUploadAnchor. destruct (getUploadAnchorPosition e id) as [position|] eqn:E; [|done].
    pose proof (anchor_position e id position He E). destruct markdown as [|ch markdown]; [by apply dispatch_ok|].
    apply dispatch_ok; [done|cbn; lia|done|]. rewrite length_insertion by done. lia.
  - destruct Hop as [Hc Hs]. by apply dispatch_ok.
Qed.

(** C30. Resolving an upload writes its Markdown as a block of its own where the
    placeholder is: nothing of the document is lost, the text before ends a paragraph
    and the text after begins one, the caret is behind what was written, and the
    placeholder is gone; one that was deleted with the text around it writes nothing. *)
Theorem resolve_inserts_block (e : editor) (id markdown : jstring) (He : editor_ok e) (Hm : markdown <> []) :
  let e' := resolveUploadAnchor id markdown e in
  match getUploadAnchorPosition e id with
  | Some position =>
      exists before after, doc e' = before ++ markdown ++ after
        /\ ends_paragraph before /\ begins_paragraph after
        /\ take position (doc e) `prefix_of` before /\ drop position (doc e) `suffix_of` after
        /\ Forall (fun c => c = 10) (drop position before)
        /\ (selection_head e' <= length (doc e'))%nat /\ drop (selection_head e') (doc e') = drop position (doc e)
  | None => e' = e
  end /\ getUploadAnchorPosition e' id = None.
Proof.
  cbn zeta. unfold resolveUploadAnchor. destruct (getUploadAnchorPosition e id) as [position|] eqn:E; [|done].
  pose proof (anchor_position e id position He E) as Hp. destruct markdown as [|ch markdown]; [done|]. split.
  - cbn [dispatch doc selection_head]. set (before := slice (doc e) 0 position). set (after := slice_from (doc e) position).
    assert (before = take position (doc e)) as Hb by (unfold before, slice; by rewrite drop_0, Nat.sub_0_r).
    assert (padded e position (ch :: markdown) = pad_before before ++ (ch :: markdown) ++ pad_after after) as Ht by done.
    exists (before ++ pad_before before), (pad_after after ++ after). rewrite Ht. unfold change_doc. cbn [ch_from ch_to ch_insert].
    rewrite <- Hb. fold (slice_from (doc e) position). fold after. split; [by rewrite !app_assoc|].
    split; [apply pad_before_ok|]. split; [apply pad_after_ok|]. split; [by eexists|]. split; [by eexists|].
    assert (length before = position) as Hl by (rewrite Hb, length_take; lia). split.
    { rewrite <- Hl at 1. rewrite drop_app_length. unfold pad_before. repeat case_match; repeat constructor. }
    set (text := pad_before before ++ _). change (default ?y (Some ?x)) with x. split; [rewrite !length_app; lia|].
    rewrite app_assoc, <- Hl, <- length_app. by rewrite drop_app_length.
  - cbn [dispatch anchors getUploadAnchorPosition foldl apply_effect]. unfold getUploadAnchorPosition, findAnchorPosition.
    cbn [anchors dispatch foldl apply_effect]. destruct (js_find _ _) as [a|] eqn:Ef; [|done]. exfalso.
    apply js_find_Some in Ef as [Hin Hid]. apply list_elem_of_In, in_rev, list_elem_of_In, elem_of_without in Hin as [_ Hne].
    by apply js_eqb_true in Hid.
Qed.
End ControllerFacts.

(** ** Witnesses *)

(** Positions at or after a change move with the text behind it; those inside are deleted. *)
#[export] Instance shift_mapping : ChangeMapping := {|
  map_anchor c pos :=
    if (pos <? ch_from c)%nat then Some pos
    else if (pos <? ch_to c)%nat then None
    else Some (pos - (ch_to c - ch_from c) + length (ch_insert c))%nat;
  map_head c pos := if (pos <? ch_from c)%nat then pos else (Nat.max pos (ch_to c) - (ch_to c - ch_from c) + length (ch_insert c))%nat;
|}.
#[export] Instance shift_mapping_laws : ChangeMappingLaws shift_mapping.
Proof.
  split.
  - intros c n pos pos' Hc Hp. unfold map_anchor, map_head, shift_mapping. destruct (pos <? ch_from c)%nat eqn:E1; bool_prop; [intros E; injection E as E; lia|].
    destruct (pos <? ch_to c)%nat eqn:E2; bool_prop; [done|]. intros E; injection E as E; lia.
  - intros c n pos Hc Hp. unfold map_anchor, map_head, shift_mapping. destruct (pos <? ch_from c)%nat eqn:E1; bool_prop; lia.
Qed.

Definition sample_anchor (id : jstring) : UploadAnchorDescriptor := {|
  anchor_id := id; status := anchor_uploading; completed := 0; total := 1; message := []; retryLabel := []; keepLabel := [];
  onRetry := None; onKeepAttachments := None |}.
Definition empty_editor (text : jstring) : editor := {| doc := text; selection_head := 0; anchors := [] |}.
Definition anchored_editor : editor := createUploadAnchor (sample_anchor (u "j")) (Some 3%nat) (empty_editor (u "one two")).

Lemma empty_editor_ok text : editor_ok (empty_editor text).
Proof. split; [cbn; lia|]. split; [constructor|apply NoDup_nil_2]. Qed.
Lemma anchored_editor_ok : editor_ok anchored_editor.
Proof.
  split; [apply Nat.leb_le; vm_compute; reflexivity|]. split; apply (bool_decide_unpack _); vm_compute; exact I.
Qed.

Example resolve_inserts_block_witness :
  exists before after, doc (resolveUploadAnchor (u "j") (u "![a](b)") anchored_editor) = before ++ u "![a](b)" ++ after
    /\ ends_paragraph before /\ begins_paragraph after.
Proof.
  destruct (resolve_inserts_block anchored_editor (u "j") (u "![a](b)") anchored_editor_ok ltac:(discriminate)) as [H _].
  assert (getUploadAnchorPosition anchored_editor (u "j") = Some 3%nat) as E by (vm_compute; reflexivity).
  rewrite E in H. destruct H as (before & after & H1 & H2 & H3 & _). exists before, after. split; [exact H1|]. split; [exact H2|exact H3].
Defined.
