(* ===== verification/InlineUpload.v ===== *)
(** * Uploading media into the text of a memo

    web/src/components/MemoEditor/hooks/useInlineImageUpload.ts: files picked or pasted
    into the editor are uploaded one after the other while a placeholder stands in the
    text, which their Markdown takes the place of.  A job is an object shared by the map of
    live jobs and by the run that uploads its files; the state of the hook is explicit,
    and an [await] ends a handler: the settling of the upload is an event of its own.  The
    store is EditorStore's and the editor UploadAnchors'. *)

From S2P Require Import Prelude JSString JSRegExp MarkdownSource ManagedAttachment EditorStore MemoSave UploadAnchors.

(** The sentences of the placeholders, and the errors of a failed request. *)
Inductive UploadKind := image_job | video_job.
Class UploadTexts := {
  upload_message : UploadKind -> UploadAnchorStatus -> nat -> nat -> jstring;
  retry_label : UploadKind -> jstring;
  keep_label : bool -> jstring;
  upload_error : Type;
}.

Section Upload.
Context {types : MessageTypes} {texts : UploadTexts} {mapping : ChangeMapping}.

(** ** Choosing files *)

Definition file_group (f : FileMessage) : option jstring :=
  m ← file_motion f; match groupId m with [] => None | g => Some g end.
Definition is_image_file (f : FileMessage) : bool := isImage (file_type f).
Definition is_video_file (f : FileMessage) : bool := starts_with (file_type f) (u "video/").

Record InlineLocalFileSplit := { inline : list FileMessage; representativeIndexes : list nat; split_attachments : list FileMessage }.

Fixpoint find_index {A} (p : A -> bool) (l : list A) : option nat :=
  match l with [] => None | x :: l' => if p x then Some 0%nat else S <$> find_index p l' end.

(** One turn of the loop, with the groups consumed. *)
Definition split_step (localFiles : list FileMessage) (st : list jstring * InlineLocalFileSplit) (f : FileMessage)
    : list jstring * InlineLocalFileSplit :=
  let '(consumedGroups, s) := st in
  match file_group f with
  | None =>
      if is_image_file f
      then (consumedGroups, {| inline := inline s ++ [f]; representativeIndexes := representativeIndexes s ++ [length (inline s)];
                               split_attachments := split_attachments s |})
      else (consumedGroups, {| inline := inline s; representativeIndexes := representativeIndexes s;
                               split_attachments := split_attachments s ++ [f] |})
  | Some g =>
      if bool_decide (g ∈ consumedGroups) then st
      else
        let group := js_filter (fun candidate => bool_decide (file_group candidate = Some g)) localFiles in
        (g :: consumedGroups,
         match find_index is_image_file group with
         | None => {| inline := inline s; representativeIndexes := representativeIndexes s;
                      split_attachments := split_attachments s ++ group |}
         | Some i => {| inline := inline s ++ group; representativeIndexes := representativeIndexes s ++ [(length (inline s) + i)%nat];
                        split_attachments := split_attachments s |}
         end)
  end.
Definition splitInlineLocalFiles (localFiles : list FileMessage) : InlineLocalFileSplit :=
  snd (foldl (split_step localFiles) ([], {| inline := []; representativeIndexes := []; split_attachments := [] |}) localFiles).

(** ** Jobs *)

Record UploadEntry := { entry_file : FileMessage; entry_attachment : option Attachment }.
Record UploadJob := { job_id : jstring; job_kind : UploadKind; entries : list UploadEntry; job_indexes : list nat; active : bool }.

Definition new_entry (f : FileMessage) : UploadEntry := {| entry_file := f; entry_attachment := None |}.
(** [createJob], with the identifier it draws. *)
Definition createJob (id : jstring) (localFiles : list FileMessage) (kind : UploadKind) : option UploadJob :=
  let '(inline, indexes) :=
    match kind with
    | image_job => let s := splitInlineLocalFiles localFiles in (inline s, representativeIndexes s)
    | video_job => let videos := js_filter is_video_file localFiles in (videos, seq 0 (length videos))
    end in
  match inline with
  | [] => None
  | _ => Some {| job_id := id; job_kind := kind; entries := new_entry <$> inline; job_indexes := indexes; active := false |}
  end.

Definition is_pending (e : UploadEntry) : bool := match entry_attachment e with None => true | Some _ => false end.
Definition set_active (b : bool) (j : UploadJob) : UploadJob :=
  {| job_id := job_id j; job_kind := job_kind j; entries := entries j; job_indexes := job_indexes j; active := b |}.
Definition set_attachment (i : nat) (a : Attachment) (j : UploadJob) : UploadJob :=
  {| job_id := job_id j; job_kind := job_kind j;
     entries := alter (fun e => {| entry_file := entry_file e; entry_attachment := Some a |}) i (entries j);
     job_indexes := job_indexes j; active := active j |}.

(** A run in progress: the entry being uploaded and the last error. *)
Record run := { run_job : jstring; cursor : nat; lastError : option upload_error }.
Inductive notice := UploadStopped (kind : UploadKind) (error : option upload_error).

(** Every job made, those of the map, the runs, the flag of the unmounted hook, the store,
    the editor of the reference and what was published. *)
Record hook := {
  jobs : list UploadJob;
  live : list jstring;
  runs : list run;
  disposed : bool;
  store : EditorState;
  editor_ref : option editor;
  uploadingLocalFileURLs : list jstring;
  notices : list notice;
}.

Definition with_jobs (js : list UploadJob) (st : hook) : hook := {|
  jobs := js; live := live st; runs := runs st; disposed := disposed st; store := store st; editor_ref := editor_ref st;
  uploadingLocalFileURLs := uploadingLocalFileURLs st; notices := notices st |}.
Definition with_live (l : list jstring) (st : hook) : hook := {|
  jobs := jobs st; live := l; runs := runs st; disposed := disposed st; store := store st; editor_ref := editor_ref st;
  uploadingLocalFileURLs := uploadingLocalFileURLs st; notices := notices st |}.
Definition with_runs (l : list run) (st : hook) : hook := {|
  jobs := jobs st; live := live st; runs := l; disposed := disposed st; store := store st; editor_ref := editor_ref st;
  uploadingLocalFileURLs := uploadingLocalFileURLs st; notices := notices st |}.
Definition with_store (s : EditorState) (st : hook) : hook := {|
  jobs := jobs st; live := live st; runs := runs st; disposed := disposed st; store := s; editor_ref := editor_ref st;
  uploadingLocalFileURLs := uploadingLocalFileURLs st; notices := notices st |}.
Definition with_editor (e : option editor) (st : hook) : hook := {|
  jobs := jobs st; live := live st; runs := runs st; disposed := disposed st; store := store st; editor_ref := e;
  uploadingLocalFileURLs := uploadingLocalFileURLs st; notices := notices st |}.
Definition with_urls (l : list jstring) (st : hook) : hook := {|
  jobs := jobs st; live := live st; runs := runs st; disposed := disposed st; store := store st; editor_ref := editor_ref st;
  uploadingLocalFileURLs := l; notices := notices st |}.
Definition notify (n : notice) (st : hook) : hook := {|
  jobs := jobs st; live := live st; runs := runs st; disposed := disposed st; store := store st; editor_ref := editor_ref st;
  uploadingLocalFileURLs := uploadingLocalFileURLs st; notices := notices st ++ [n] |}.

Definition get_job (st : hook) (id : jstring) : option UploadJob := js_find (fun j => js_eqb (job_id j) id) (jobs st).
Definition update_job (id : jstring) (f : UploadJob -> UploadJob) (st : hook) : hook :=
  with_jobs (map (fun j => if js_eqb (job_id j) id then f j else j) (jobs st)) st.
(** [jobsRef.current.get(id)]. *)
Definition live_job (st : hook) (id : jstring) : option UploadJob := if bool_decide (id ∈ live st) then get_job st id else None.
Definition live_jobs (st : hook) : list UploadJob := omap (get_job st) (live st).

Definition dispatch_action (a : EditorAction) (st : hook) : hook := with_store (editorReducer (store st) a) st.
(** [editorRef.current?.f(...)]. *)
Definition on_editor (f : editor -> editor) (st : hook) : hook := with_editor (f <$> editor_ref st) st.

Definition pending_urls (j : UploadJob) : list jstring :=
  if active j then (fun e => file_url (entry_file e)) <$> js_filter is_pending (entries j) else [].

Definition syncJobState (st : hook) : hook :=
  let js := live_jobs st in
  let st := if negb (pendingInlineImageInsertions (state_ui (store st)) =? Z.of_nat (length (live st)))
            then dispatch_action (SET_PENDING_INLINE_IMAGE_INSERTIONS (Z.of_nat (length (live st)))) st else st in
  let isUploading := existsb active js in
  let st := if negb (eqb (loading_uploading (ui_isLoading (state_ui (store st)))) isUploading)
            then dispatch_action (SET_LOADING uploading isUploading) st else st in
  let uploadingURLs := dedup (js ≫= pending_urls) in
  if (length (uploadingLocalFileURLs st) =? length uploadingURLs)%nat
     && forallb (fun url => bool_decide (url ∈ uploadingLocalFileURLs st)) uploadingURLs
  then st else with_urls uploadingURLs st.

(** [uniqBy(l, (item) => item.name)]. *)
Fixpoint uniq_by_name (seen : list jstring) (l : list Attachment) : list Attachment :=
  match l with
  | [] => []
  | a :: l' => if bool_decide (att_name a ∈ seen) then uniq_by_name seen l' else a :: uniq_by_name (att_name a :: seen) l'
  end.
Definition set_attachments (l : list Attachment) : partial_metadata := {|
  p_visibility := None; p_attachments := Some l; p_relations := None; p_location := None; p_category := None; p_hidden := None;
  p_anonymous := None; p_adminScript := None; p_poll := None; p_pollImageLocalFileURL := None;
  p_pollOptionImageLocalFileURLs := None; p_draft := None; p_publishTime := None |}.

Definition appendAttachment (a : Attachment) (localPreviewURL : jstring) (st : hook) : hook :=
  let st' := dispatch_action (SET_METADATA (set_attachments (uniq_by_name [] (attachments (state_metadata (store st)) ++ [a])))) st in
  if existsb (fun f => js_eqb (previewUrl f) localPreviewURL) (localFiles (store st))
  then dispatch_action (REMOVE_LOCAL_FILE localPreviewURL) st' else st'.

Definition finishJob (id : jstring) (st : hook) : hook := syncJobState (with_live (js_filter (fun i => negb (js_eqb i id)) (live st)) st).

Definition dismissJob (id : jstring) (st : hook) : hook :=
  match live_job st id with
  | None => st
  | Some job => if active job then st else finishJob id (on_editor (cancelUploadAnchor id) st)
  end.

Definition completed_of (j : UploadJob) : nat := length (js_filter (fun e => negb (is_pending e)) (entries j)).
Definition descriptorFor (job : UploadJob) (s : UploadAnchorStatus) : UploadAnchorDescriptor := {|
  anchor_id := job_id job; status := s; completed := completed_of job; total := length (entries job);
  message := upload_message (job_kind job) s (completed_of job) (length (entries job));
  retryLabel := retry_label (job_kind job);
  keepLabel := keep_label (0 <? completed_of job)%nat;
  onRetry := match s with anchor_failed => Some (RetryJob (job_id job)) | anchor_uploading => None end;
  onKeepAttachments := match s with anchor_failed => Some (DismissJob (job_id job)) | anchor_uploading => None end;
|}.
Definition show_status (id : jstring) (s : UploadAnchorStatus) (st : hook) : hook :=
  match get_job st id with None => st | Some job => on_editor (setUploadAnchor (descriptorFor job s)) st end.

(** The Markdown of a job; the left is the error a reference throws. *)
Definition reference_of (a : Attachment) : jstring + jstring :=
  if js_eqb (getAttachmentType a) (u "video/*") then buildManagedVideoMarkdown a else buildManagedAttachmentMarkdown a.
Definition job_attachment (j : UploadJob) (i : nat) : option Attachment := e ← entries j !! i; entry_attachment e.
Fixpoint references_of (l : list Attachment) : option (list jstring) :=
  match l with
  | [] => Some []
  | a :: l' => match reference_of a with inl _ => None | inr r => (fun rs => r :: rs) <$> references_of l' end
  end.
Fixpoint join_blocks (l : list jstring) : jstring :=
  match l with [] => [] | [s] => s | s :: l' => s ++ BLANK_LINE ++ join_blocks l' end.
Definition job_markdown (j : UploadJob) : option jstring :=
  atts ← mapM (job_attachment j) (job_indexes j); join_blocks <$> references_of atts.

(** The end of a run, when every entry was tried. *)
Definition finish_run (id : jstring) (error : option upload_error) (st : hook) : hook :=
  let st := update_job id (set_active false) st in
  if disposed st then st
  else
    let st := syncJobState st in
    match get_job st id with
    | None => st
    | Some job =>
        if existsb is_pending (entries job) then notify (UploadStopped (job_kind job) error) (show_status id anchor_failed st)
        else
          match job_markdown job with
          | None => st
          | Some markdown => finishJob id (on_editor (resolveUploadAnchor id markdown) st)
          end
    end.

(** The next entry to upload: the run waits for it, or ends. *)
Definition next_pending (from : nat) (l : list UploadEntry) : option nat := (fun i => (from + i)%nat) <$> find_index is_pending (drop from l).
Definition continue_run (id : jstring) (from : nat) (error : option upload_error) (st : hook) : hook :=
  match get_job st id with
  | None => st
  | Some job =>
      match next_pending from (entries job) with
      | Some i => with_runs (runs st ++ [{| run_job := id; cursor := i; lastError := error |}]) st
      | None => finish_run id error st
      end
  end.

Definition runJob (id : jstring) (st : hook) : hook :=
  match live_job st id with
  | None => st
  | Some job =>
      if active job || disposed st then st
      else continue_run id 0 None (show_status id anchor_uploading (syncJobState (update_job id (set_active true) st)))
  end.

(** The upload a run waits for settles. *)
Definition settle_upload (id : jstring) (result : upload_error + Attachment) (st : hook) : hook :=
  match js_find (fun r => js_eqb (run_job r) id) (runs st) with
  | None => st
  | Some r =>
      let st := with_runs (js_filter (fun r => negb (js_eqb (run_job r) id)) (runs st)) st in
      match result with
      | inl e => continue_run id (S (cursor r)) (Some e) st
      | inr a =>
          let url := match get_job st id with
                     | Some job => default [] ((fun e => file_url (entry_file e)) <$> entries job !! cursor r)
                     | None => []
                     end in
          let st := update_job id (set_attachment (cursor r) a) st in
          if disposed st then st
          else continue_run id (S (cursor r)) (lastError r) (show_status id anchor_uploading (appendAttachment a url st))
      end
  end.

(** [insertLocalImages] and [insertLocalVideos]. *)
Definition insertLocal (kind : UploadKind) (id : jstring) (files : list FileMessage) (position : option nat) (st : hook) : hook :=
  if loading_saving (ui_isLoading (state_ui (store st))) then st
  else
    match editor_ref st, createJob id files kind with
    | Some _, Some job =>
        runJob id (on_editor (createUploadAnchor (descriptorFor job anchor_uploading) position)
          (syncJobState (with_live (live st ++ [id]) (with_jobs (jobs st ++ [job]) st))))
    | _, _ => st
    end.

Definition insertRemoteMedia (atts : list Attachment) (st : hook) : hook :=
  if loading_saving (ui_isLoading (state_ui (store st))) then st
  else match references_of (js_filter canInlineMediaAttachment atts) with
       | None => st
       | Some rs => on_editor (insertMarkdown (join_blocks rs)) st
       end.

(** The cleanup of the hook's effect. *)
Definition unmount (st : hook) : hook := {|
  jobs := jobs st; live := []; runs := runs st; disposed := true; store := store st; editor_ref := editor_ref st;
  uploadingLocalFileURLs := uploadingLocalFileURLs st; notices := notices st |}.
End Upload.

(** ** Events *)

Section Events.
Context {types : MessageTypes} {texts : UploadTexts} {mapping : ChangeMapping} {page : WebPage} {parser : MarkdownParser}
  {markdown : MarkdownHost}.

Inductive event :=
  | InsertLocal (kind : UploadKind) (id : jstring) (files : list FileMessage) (position : option nat)
  | InsertRemote (atts : list Attachment)
  | Settle (id : jstring) (result : upload_error + Attachment)
  | Retry (id : jstring)
  | Dismiss (id : jstring)
  | Unmount
  | Edit (op : editor_op)
  | Store (a : EditorAction)
  | SaveBegin (managed : module_state)
  | SaveEnd (succeeded : bool).

(** The actions the rest of the editor dispatches: the hook owns the pending count and the
    uploading flag, and the save workflow the saving flag and the reset. *)
Definition foreign (a : EditorAction) : bool :=
  match a with
  | SET_PENDING_INLINE_IMAGE_INSERTIONS _ | RESET | SET_LOADING saving _ | SET_LOADING uploading _ => false
  | _ => true
  end.

Definition is_saving (st : hook) : bool := loading_saving (ui_isLoading (state_ui (store st))).

Definition handle (e : event) (st : hook) : hook :=
  match e with
  | InsertLocal kind id files position => insertLocal kind id files position st
  | InsertRemote atts => insertRemoteMedia atts st
  | Settle id result => settle_upload id result st
  | Retry id => runJob id st
  | Dismiss id => dismissJob id st
  | Unmount => unmount st
  | Edit op => on_editor (run_op op) st
  | Store a => dispatch_action a st
  | SaveBegin managed =>
      if valid (fst (canSave managed (store st))) then dispatch_action (SET_LOADING saving true) st else st
  | SaveEnd succeeded =>
      if is_saving st
      then dispatch_action (SET_LOADING saving false) (if succeeded then dispatch_action RESET st else st)
      else st
  end.

(** An identifier drawn for a job is a new one, and files are inserted while the editor is
    mounted. *)
Definition event_ok (e : event) (st : hook) : Prop :=
  match e with
  | InsertLocal _ id _ _ => id ∉ job_id <$> jobs st /\ disposed st = false
  | Store a => foreign a = true
  | _ => True
  end.

Definition start (s : EditorState) (e : option editor) : hook := {|
  jobs := []; live := []; runs := []; disposed := false; store := s; editor_ref := e; uploadingLocalFileURLs := []; notices := [] |}.

Inductive reachable : hook -> Prop :=
| reachable_start e : reachable (start (createInitialState false) e)
| reachable_event st e : reachable st -> event_ok e st -> reachable (handle e st).
End Events.

(** ** The jobs and the runs *)

Section Invariant.
Context {types : MessageTypes} {texts : UploadTexts} {mapping : ChangeMapping} {page : WebPage} {parser : MarkdownParser}
  {markdown : MarkdownHost}.

(** A run waits for an entry of its job that has no attachment yet. *)
Definition waiting (st : hook) (r : run) : Prop :=
  exists job e, get_job st (run_job r) = Some job /\ active job = true /\ entries job !! cursor r = Some e /\ is_pending e = true
    /\ (disposed st = false -> run_job r ∈ live st).

(** The invariant of the jobs, while the job [o], if any, is between two uploads. *)
Record core (o : option jstring) (st : hook) : Prop := {
  c_ids : NoDup (job_id <$> jobs st);
  c_live : NoDup (live st);
  c_known id : id ∈ live st -> is_Some (get_job st id);
  c_runs : NoDup (run_job <$> runs st);
  c_run r : r ∈ runs st -> o <> Some (run_job r) /\ waiting st r;
  c_active id job : disposed st = false -> id ∈ live st -> get_job st id = Some job -> active job = true -> o <> Some id ->
    id ∈ run_job <$> runs st;
  c_turn id : o = Some id -> exists job, get_job st id = Some job /\ active job = true /\ (disposed st = false -> id ∈ live st);
  c_gone : disposed st = true -> live st = [];
  c_saving : is_saving st = true -> live st = [];
}.

(** The store shows the jobs there are. *)
Definition synced (st : hook) : Prop :=
  disposed st = false ->
  pendingInlineImageInsertions (state_ui (store st)) = Z.of_nat (length (live st))
  /\ loading_uploading (ui_isLoading (state_ui (store st))) = existsb active (live_jobs st).

(** What the invariant reads. *)
Definition same_jobs (a b : hook) : Prop :=
  jobs a = jobs b /\ live a = live b /\ runs a = runs b /\ disposed a = disposed b.

Lemma same_jobs_refl a : same_jobs a a.
Proof. done. Qed.
Lemma same_jobs_trans a b c : same_jobs a b -> same_jobs b c -> same_jobs a c.
Proof. unfold same_jobs. naive_solver congruence. Qed.

Lemma core_frame o a b : same_jobs a b -> (is_saving b = true -> is_saving a = true) -> core o a -> core o b.
Proof.
  intros (H1 & H2 & H3 & H4) Hs [C1 C2 C3 C4 C5 C6 C7 C8 C9]. unfold waiting, get_job in *.
  split; rewrite <- ?H1, <- ?H2, <- ?H3, <- ?H4; try done; unfold waiting, get_job; rewrite <- ?H1, <- ?H2, <- ?H3, <- ?H4; auto.
Qed.

Lemma synced_frame a b :
  same_jobs a b -> pendingInlineImageInsertions (state_ui (store b)) = pendingInlineImageInsertions (state_ui (store a)) ->
  loading_uploading (ui_isLoading (state_ui (store b))) = loading_uploading (ui_isLoading (state_ui (store a))) ->
  synced a -> synced b.
Proof.
  intros (H1 & H2 & H3 & H4) Hp Hu Hs Hd. rewrite Hp, Hu. unfold synced, live_jobs, get_job in *. rewrite <- H1, <- H2.
  apply Hs. congruence.
Qed.

(** Synchronising changes nothing but what it publishes. *)
Lemma sync_frame st : same_jobs st (syncJobState st) /\ is_saving (syncJobState st) = is_saving st /\ editor_ref (syncJobState st) = editor_ref st.
Proof.
  unfold syncJobState. repeat match goal with |- context [if ?b then _ else _] => destruct b end; done.
Qed.

Lemma sync_synced st : synced (syncJobState st).
Proof.
  intros _. unfold syncJobState. set (js := live_jobs st). set (n := Z.of_nat (length (live st))).
  set (st1 := if negb (pendingInlineImageInsertions (state_ui (store st)) =? n) then _ else st).
  assert (same_jobs st st1) as (_ & Hl1 & _) by (unfold st1; by destruct (negb _)).
  assert (live_jobs st1 = js) as Hjs by (unfold st1, js; by destruct (negb _)).
  assert (pendingInlineImageInsertions (state_ui (store st1)) = n) as Hp.
  { unfold st1. destruct (_ =? n) eqn:E; [by apply Z.eqb_eq|done]. }
  clearbody st1. set (st2 := if negb (eqb (loading_uploading _) _) then _ else st1).
  assert (pendingInlineImageInsertions (state_ui (store st2)) = n) as Hp2 by (unfold st2; destruct (negb _); exact Hp).
  assert (loading_uploading (ui_isLoading (state_ui (store st2))) = existsb active js) as Hu.
  { unfold st2. destruct (eqb _ _) eqn:E; [by apply eqb_prop in E|done]. }
  assert (live st2 = live st) as Hl2 by (rewrite Hl1; unfold st2; by destruct (negb _)).
  assert (live_jobs st2 = js) as Hj2 by (rewrite <- Hjs; unfold st2; by destruct (negb _)).
  clearbody st2. destruct (_ && _); cbn [store with_urls live]; rewrite Hp2, Hu, Hl2; split; try done.
  - by rewrite Hj2.
  - change (live_jobs (with_urls ?l st2)) with (live_jobs st2). by rewrite Hj2.
Qed.

Lemma core_sync o st : core o st -> core o (syncJobState st).
Proof. destruct (sync_frame st) as (H1 & H2 & _). apply core_frame; [done|]. by rewrite H2. Qed.

(** ** One job *)

Lemma get_job_id st id job : get_job st id = Some job -> job_id job = id.
Proof. intros H. apply js_find_Some in H as [_ H]. by apply js_eqb_true in H. Qed.

Lemma get_job_update st id f id' :
  (forall j, job_id (f j) = job_id j) ->
  get_job (update_job id f st) id' = if bool_decide (id = id') then f <$> get_job st id' else get_job st id'.
Proof.
  intros Hf. unfold get_job, update_job. cbn [jobs with_jobs]. induction (jobs st) as [|j js IH]; [by case_bool_decide|].
  cbn [map js_find]. destruct (js_eqb (job_id j) id) eqn:E1; cbn [js_find].
  - apply js_eqb_true in E1. rewrite Hf. destruct (js_eqb (job_id j) id') eqn:E2; [|exact IH].
    apply js_eqb_true in E2. rewrite bool_decide_eq_true_2 by congruence. done.
  - destruct (js_eqb (job_id j) id') eqn:E2; [|exact IH]. apply js_eqb_true in E2. apply js_eqb_false in E1.
    rewrite bool_decide_eq_false_2 by congruence. done.
Qed.

Lemma update_job_ids st id f : (forall j, job_id (f j) = job_id j) -> job_id <$> jobs (update_job id f st) = job_id <$> jobs st.
Proof.
  intros Hf. unfold update_job. cbn [jobs with_jobs]. induction (jobs st) as [|j js IH]; [done|]. cbn [map fmap list_fmap].
  f_equal; [|exact IH]. by destruct (js_eqb (job_id j) id).
Qed.

(** Changing a job that keeps what the runs need. *)
Lemma core_update o st id f :
  (forall j, job_id (f j) = job_id j) ->
  (forall j, active (f j) = active j) ->
  (forall r, r ∈ runs st -> run_job r <> id) ->
  core o st -> core o (update_job id f st).
Proof.
  intros Hf Ha Hr [C1 C2 C3 C4 C5 C6 C7 C8 C9]. split; try done.
  - by rewrite update_job_ids.
  - intros i Hi. rewrite get_job_update by done. case_bool_decide; [|by apply C3]. destruct (C3 i Hi) as [j ->]. by eexists.
  - intros r Hin. destruct (C5 r Hin) as (Ho & j & e & H1 & H2). split; [done|]. exists j, e. rewrite get_job_update by done.
    rewrite bool_decide_eq_false_2 by (intros ->; by eapply Hr). by split.
  - intros i j Hd Hi Hg Hact Ho. rewrite get_job_update in Hg by done.
    case_bool_decide; [|by eapply C6]. destruct (get_job st i) as [j'|] eqn:E; [|done]. injection Hg as <-. rewrite Ha in Hact. by eapply C6.
  - intros i Hi. destruct (C7 i Hi) as (j & H1 & H2 & H3). rewrite get_job_update by done.
    case_bool_decide; [|by exists j]. rewrite H1. exists (f j). by rewrite Ha.
Qed.

(** ** Handlers *)

(** What a handler must give. *)
Definition good (st : hook) : Prop := core None st /\ synced st.

(** States that differ in nothing the invariant reads. *)
Definition unseen (a b : hook) : Prop :=
  same_jobs a b /\ is_saving b = is_saving a
  /\ pendingInlineImageInsertions (state_ui (store b)) = pendingInlineImageInsertions (state_ui (store a))
  /\ loading_uploading (ui_isLoading (state_ui (store b))) = loading_uploading (ui_isLoading (state_ui (store a))).

Lemma unseen_refl a : unseen a a.
Proof. done. Qed.
Lemma unseen_trans a b c : unseen a b -> unseen b c -> unseen a c.
Proof. intros (H1 & H2 & H3 & H4) (K1 & K2 & K3 & K4). split; [by eapply same_jobs_trans|]. split_and!; congruence. Qed.
Lemma unseen_core o a b : unseen a b -> core o a -> core o b.
Proof. intros (H & Hs & _). apply core_frame; [done|]. by rewrite Hs. Qed.
Lemma unseen_synced a b : unseen a b -> synced a -> synced b.
Proof. intros (H & _ & Hp & Hu). by apply synced_frame. Qed.
Lemma unseen_good a b : unseen a b -> good a -> good b.
Proof. intros H [H1 H2]. split; [by eapply unseen_core|by eapply unseen_synced]. Qed.

Lemma unseen_on_editor f st : unseen st (on_editor f st).
Proof. done. Qed.
Lemma unseen_show_status id s st : unseen st (show_status id s st).
Proof. unfold show_status. by destruct (get_job st id). Qed.
Lemma unseen_notify n st : unseen st (notify n st).
Proof. done. Qed.
Lemma unseen_action a st : foreign a = true -> unseen st (dispatch_action a st).
Proof.
  intros Hf. split; [done|]. unfold is_saving. destruct a as [| | | | | | |key value| | | |]; try done; cbn [dispatch_action store with_store editorReducer].
  - by destruct (_ && _).
  - by destruct key.
Qed.
Lemma unseen_append a url st : unseen st (appendAttachment a url st).
Proof.
  unfold appendAttachment. destruct (existsb _ _); [eapply unseen_trans; [|by apply unseen_action]|]; by apply unseen_action.
Qed.

Lemma existsb_active_update st id f :
  (forall j, job_id (f j) = job_id j) -> (forall j, active (f j) = active j) ->
  existsb active (live_jobs (update_job id f st)) = existsb active (live_jobs st).
Proof.
  intros Hf Ha. unfold live_jobs. change (live (update_job id f st)) with (live st). induction (live st) as [|i l IH]; [done|].
  cbn [omap list_omap]. rewrite get_job_update by done. case_bool_decide; destruct (get_job st i); cbn; rewrite ?Ha, ?IH; done.
Qed.

Lemma synced_update st id f :
  (forall j, job_id (f j) = job_id j) -> (forall j, active (f j) = active j) -> synced st -> synced (update_job id f st).
Proof.
  intros Hf Ha Hs Hd. destruct (Hs Hd) as [H1 H2]. split; [exact H1|]. by rewrite existsb_active_update.
Qed.

Lemma finishJob_good id st : core None st -> (forall r, r ∈ runs st -> run_job r <> id) -> good (finishJob id st).
Proof.
  intros [C1 C2 C3 C4 C5 C6 C7 C8 C9] Hr. split; [apply core_sync|apply sync_synced].
  assert (forall i, i ∈ js_filter (fun i => negb (js_eqb i id)) (live st) <-> i ∈ live st /\ i <> id) as Hin
    by (intros i; by rewrite js_filter_In, negb_true_iff, js_eqb_false).
  split; cbn [jobs live runs disposed with_live]; try done.
  - eapply sublist_NoDup; [exact C2|apply js_filter_sublist].
  - intros i Hi. apply Hin in Hi as [Hi _]. by apply C3.
  - intros r Hrin. destruct (C5 r Hrin) as (Ho & j & e & H1 & H2 & H3 & H4 & H5). split; [done|]. exists j, e. split_and!; try done.
    intros Hd. cbn [live with_live]. apply Hin. split; [by apply H5|by apply Hr].
  - intros i j Hd Hi. apply Hin in Hi as [Hi _]. by apply C6.
  - intros Hd. cbn [disposed with_live] in Hd. by rewrite C8.
  - intros Hs. by rewrite C9.
Qed.

(** Nothing waits for the job whose turn it is. *)
Lemma turn_not_waiting id st r : core (Some id) st -> r ∈ runs st -> run_job r <> id.
Proof. intros C Hr Heq. destruct (c_run _ _ C r Hr) as [Ho _]. apply Ho. by rewrite Heq. Qed.

Lemma end_of_turn id st : core (Some id) st -> core None (update_job id (set_active false) st).
Proof.
  intros C. pose proof (fun r => turn_not_waiting id st r C) as Hr. destruct C as [C1 C2 C3 C4 C5 C6 C7 C8 C9]. split; try done.
  - by rewrite update_job_ids.
  - intros i Hi. rewrite get_job_update by done. destruct (C3 i Hi) as [j ->]. case_bool_decide; by eexists.
  - intros r Hin. destruct (C5 r Hin) as (_ & j & e & H1 & H2). split; [done|]. exists j, e. rewrite get_job_update by done.
    rewrite bool_decide_eq_false_2 by (intros ->; by eapply Hr). by split.
  - intros i j Hd Hi Hg Hact _. rewrite get_job_update in Hg by done. case_bool_decide.
    + destruct (get_job st i); [|done]. by injection Hg as <-.
    + eapply C6; [done|done|exact Hg|done|]. congruence.
Qed.

Lemma finish_run_good id error st : core (Some id) st -> good (finish_run id error st).
Proof.
  intros C. unfold finish_run. set (st1 := update_job id (set_active false) st).
  assert (core None st1) as C1 by by apply end_of_turn.
  assert (forall r, r ∈ runs st1 -> run_job r <> id) as Hr by (intros r; exact (turn_not_waiting id st r C)).
  destruct (disposed st1) eqn:Ed; [split; [done|]; by intros ?; congruence|].
  pose proof (core_sync _ _ C1) as C2. pose proof (sync_synced st1) as S2. pose proof (proj1 (sync_frame st1)) as (_ & _ & Hruns & _).
  destruct (get_job (syncJobState st1) id) as [job|]; [|by split]. destruct (existsb is_pending (entries job)).
  { eapply unseen_good; [eapply unseen_trans; [apply unseen_show_status|apply unseen_notify]|by split]. }
  destruct (job_markdown job) as [text|]; [|by split]. apply finishJob_good; [by apply (unseen_core _ (syncJobState st1))|].
  cbn [runs on_editor with_editor]. by rewrite <- Hruns.
Qed.

Lemma find_index_Some {A} (p : A -> bool) l i : find_index p l = Some i -> exists x, l !! i = Some x /\ p x = true.
Proof.
  revert i. induction l as [|x l IH]; intros i; cbn [find_index]; [done|]. destruct (p x) eqn:E; [intros [= <-]; by exists x|].
  destruct (find_index p l) as [j|]; [|done]. intros [= <-]. by apply IH.
Qed.

Lemma next_pending_Some from l i : next_pending from l = Some i -> exists e, l !! i = Some e /\ is_pending e = true.
Proof.
  unfold next_pending. destruct (find_index is_pending (drop from l)) as [j|] eqn:E; [|done]. intros [= <-].
  apply find_index_Some in E as (e & He & Hp). rewrite lookup_drop in He. by exists e.
Qed.

Lemma continue_run_good id from error st : core (Some id) st -> synced st -> good (continue_run id from error st).
Proof.
  intros C S. unfold continue_run. destruct (c_turn _ _ C id eq_refl) as (job & Hj & Hact & Hlive). rewrite Hj.
  destruct (next_pending from (entries job)) as [i|] eqn:E; [|by apply finish_run_good].
  apply next_pending_Some in E as (e & He & Hp). pose proof (fun r => turn_not_waiting id st r C) as Hr.
  destruct C as [C1 C2 C3 C4 C5 C6 C7 C8 C9]. split; [|exact S].
  split; try done; cbn [jobs live runs disposed with_runs].
  - rewrite fmap_app. apply NoDup_app. split; [done|]. split; [|apply NoDup_singleton].
    intros x Hx. apply list_elem_of_fmap in Hx as (r & -> & Hrin). cbn [fmap list_fmap run_job]. intros Hin%list_elem_of_singleton.
    by apply (Hr r).
  - intros r Hin. split; [done|]. apply elem_of_app in Hin as [Hin|Hin].
    + by apply C5.
    + apply list_elem_of_singleton in Hin. subst r. by exists job, e.
  - intros i' j Hd Hi Hg Ha _. rewrite fmap_app, elem_of_app. destruct (decide (i' = id)) as [->|Hne]; [right; by left|].
    left. eapply C6; [done|done|exact Hg|done|]. congruence.
Qed.

Lemma runJob_good id st : good st -> good (runJob id st).
Proof.
  intros [C S]. unfold runJob. destruct (live_job st id) as [job|] eqn:Ej; [|done]. unfold live_job in Ej.
  case_bool_decide as Hlive; [|done]. destruct (active job || disposed st) eqn:Ea; [done|]. apply orb_false_iff in Ea as [Ea Ed].
  apply continue_run_good.
  - eapply unseen_core; [apply unseen_show_status|]. apply core_sync.
    destruct C as [C1 C2 C3 C4 C5 C6 C7 C8 C9]. split; try done.
    + by rewrite update_job_ids.
    + intros i Hi. rewrite get_job_update by done. destruct (C3 i Hi) as [j ->]. case_bool_decide; by eexists.
    + intros r Hin. destruct (C5 r Hin) as (_ & j & e & H1 & H2 & H3). assert (run_job r <> id) as Hne by (intros Heq; congruence).
      split; [congruence|]. exists j, e. rewrite get_job_update by done. rewrite bool_decide_eq_false_2 by congruence. by split.
    + intros i j Hd Hi Hg Ha Ho. rewrite get_job_update in Hg by done. rewrite bool_decide_eq_false_2 in Hg by congruence. by eapply C6.
    + intros i [= <-]. rewrite get_job_update by done. rewrite bool_decide_eq_true_2, Ej by done. by exists (set_active true job).
  - eapply unseen_synced; [apply unseen_show_status|]. apply sync_synced.
Qed.

Lemma core_disposed id st : core (Some id) st -> disposed st = true -> core None st.
Proof.
  intros [C1 C2 C3 C4 C5 C6 C7 C8 C9] Hd. split; try done.
  - intros r Hin. destruct (C5 r Hin) as [_ H]. by split.
  - intros i j Hd'. congruence.
Qed.

Lemma take_turn st r id :
  core None st -> js_find (fun r => js_eqb (run_job r) id) (runs st) = Some r ->
  core (Some id) (with_runs (js_filter (fun r => negb (js_eqb (run_job r) id)) (runs st)) st).
Proof.
  intros [C1 C2 C3 C4 C5 C6 C7 C8 C9] Hf. apply js_find_Some in Hf as [Hr Hid]. apply js_eqb_true in Hid.
  assert (forall r', r' ∈ js_filter (fun r => negb (js_eqb (run_job r) id)) (runs st) <-> r' ∈ runs st /\ run_job r' <> id) as Hin
    by (intros r'; by rewrite js_filter_In, negb_true_iff, js_eqb_false).
  split; try done; cbn [jobs live runs disposed with_runs].
  - eapply sublist_NoDup; [exact C4|]. apply fmap_sublist, js_filter_sublist.
  - intros r' Hr'. apply Hin in Hr' as [Hr' Hne]. split; [congruence|]. by apply C5.
  - intros i j Hd Hi Hg Ha Ho. assert (i ∈ run_job <$> runs st) as Hi' by by eapply C6.
    apply list_elem_of_fmap in Hi' as (r' & -> & Hr'). apply list_elem_of_fmap. exists r'. split; [done|]. apply Hin. split; [done|congruence].
  - intros i [= <-]. destruct (C5 r Hr) as (_ & j & e & H1 & H2 & _ & _ & H3). rewrite Hid in *. by exists j.
Qed.

Lemma settle_good id result st : good st -> good (settle_upload id result st).
Proof.
  intros [C S]. unfold settle_upload. destruct (js_find _ (runs st)) as [r|] eqn:Er; [|done].
  pose proof (take_turn st r id C Er) as C1. set (st1 := with_runs _ st) in *. assert (synced st1) as S1 by exact S.
  destruct result as [e|a]; [by apply continue_run_good|].
  assert (core (Some id) (update_job id (set_attachment (cursor r) a) st1)) as C2.
  { apply core_update; try done. intros r' Hr'. by apply (turn_not_waiting id st1). }
  assert (synced (update_job id (set_attachment (cursor r) a) st1)) as S2 by by apply synced_update.
  destruct (disposed (update_job _ _ st1)) eqn:Ed; [split; [by eapply core_disposed|done]|].
  apply continue_run_good.
  - eapply unseen_core; [|exact C2]. eapply unseen_trans; [apply unseen_append|apply unseen_show_status].
  - eapply unseen_synced; [|exact S2]. eapply unseen_trans; [apply unseen_append|apply unseen_show_status].
Qed.

Lemma createJob_facts id files kind job :
  createJob id files kind = Some job -> job_id job = id /\ active job = false /\ entries job <> [] /\ Forall (fun e => is_pending e = true) (entries job).
Proof.
  unfold createJob. destruct (match kind with image_job => _ | video_job => _ end) as [l indexes]. destruct l as [|f l]; [done|].
  intros [= <-]. split_and!; try done. cbn [entries]. apply Forall_forall. intros e He.
  change (e ∈ new_entry <$> (f :: l)) in He. apply list_elem_of_fmap in He as (f' & -> & _). done.
Qed.

Lemma get_job_snoc st job id :
  get_job (with_jobs (jobs st ++ [job]) st) id =
  match get_job st id with Some j => Some j | None => if js_eqb (job_id job) id then Some job else None end.
Proof.
  unfold get_job. cbn [jobs with_jobs]. induction (jobs st) as [|j js IH]; [done|]. cbn [app js_find]. by destruct (js_eqb (job_id j) id).
Qed.

Lemma get_job_new st id : id ∉ job_id <$> jobs st -> get_job st id = None.
Proof.
  intros Hn. apply js_find_None. intros j Hj. apply js_eqb_false. intros He. apply Hn, list_elem_of_fmap. by exists j.
Qed.

Lemma insertLocal_good kind id files position st :
  id ∉ job_id <$> jobs st -> disposed st = false -> good st -> good (insertLocal kind id files position st).
Proof.
  intros Hn Ed [C S]. unfold insertLocal. destruct (loading_saving _) eqn:Esave; [done|]. destruct (editor_ref st); [|done].
  destruct (createJob id files kind) as [job|] eqn:Ej; [|done]. apply createJob_facts in Ej as (Hid & Hact & _).
  set (st1 := with_live (live st ++ [id]) (with_jobs (jobs st ++ [job]) st)).
  assert (core None st1) as C1.
  { pose proof (get_job_new st id Hn) as Hnone. destruct C as [C1 C2 C3 C4 C5 C6 C7 C8 C9].
    assert (forall i, get_job st1 i = match get_job st i with Some j => Some j | None => if js_eqb (job_id job) i then Some job else None end) as Hg
      by (intros i; apply get_job_snoc).
    split; cbn [jobs live runs disposed st1 with_live with_jobs]; try done.
    - rewrite fmap_app. apply NoDup_app. split; [done|]. split; [|apply NoDup_singleton]. cbn [fmap list_fmap].
      intros i Hi Hin%list_elem_of_singleton. by subst.
    - apply NoDup_app. split; [done|]. split; [|apply NoDup_singleton]. intros i Hi Hin%list_elem_of_singleton. subst.
      destruct (C3 _ Hi) as [j Hj]. congruence.
    - intros i Hi. rewrite Hg. apply elem_of_app in Hi as [Hi|Hi%list_elem_of_singleton]; [destruct (C3 i Hi) as [j ->]; by eexists|].
      subst i. rewrite Hnone, Hid, js_eqb_refl. by eexists.
    - intros r Hr. destruct (C5 r Hr) as (Ho & j & en & H1 & H2 & H3 & H4 & H5). split; [done|]. exists j, en. rewrite Hg, H1.
      split_and!; try done. intros Hd. cbn [live st1 with_live]. apply elem_of_app. left. by apply H5.
    - intros i j Hd Hi Hj Ha Ho. rewrite Hg in Hj. apply elem_of_app in Hi as [Hi|Hi%list_elem_of_singleton].
      + destruct (C3 i Hi) as [j' Hj']. rewrite Hj' in Hj. injection Hj as <-. by eapply C6.
      + subst i. rewrite Hnone, Hid, js_eqb_refl in Hj. congruence.
    - intros Hd. congruence.
    - intros Hs. unfold is_saving in Hs. cbn in Hs. congruence. }
  apply runJob_good. apply (unseen_good (syncJobState st1)); [done|]. split; [by apply core_sync|apply sync_synced].
Qed.

Lemma canSave_clear managed s :
  valid (fst (canSave managed s)) = true -> pendingInlineImageInsertions (state_ui s) <= 0 /\ loading_uploading (ui_isLoading (state_ui s)) = false.
Proof.
  unfold canSave. destruct (loading_loading _); [done|]. destruct (_ && _ && _); [done|].
  destruct (loading_uploading _); [done|]. destruct (0 <? pendingInlineImageInsertions _) eqn:E; [done|]. intros _. bool_prop. done.
Qed.

Lemma live_nil_synced st : live st = [] ->
  pendingInlineImageInsertions (state_ui (store st)) = 0 -> loading_uploading (ui_isLoading (state_ui (store st))) = false -> synced st.
Proof. intros Hl Hp Hu _. unfold live_jobs. rewrite Hl. by split. Qed.

Lemma save_begin_good managed st : good st -> good (handle (SaveBegin managed) st).
Proof.
  intros [C S]. cbn [handle]. destruct (valid _) eqn:Ev; [|by split]. apply canSave_clear in Ev as [Hp Hu].
  assert (live st = []) as Hl.
  { destruct (disposed st) eqn:Ed; [by apply (c_gone _ _ C)|]. destruct (S Ed) as [H _]. destruct (live st); [done|]. cbn [length] in H. lia. }
  split; [|intros Hd; destruct (S Hd) as [H1 H2]; by split].
  destruct C as [C1 C2 C3 C4 C5 C6 C7 C8 C9]. by split.
Qed.

Lemma save_end_good succeeded st : good st -> good (handle (SaveEnd succeeded) st).
Proof.
  intros [C S]. cbn [handle]. destruct (is_saving st) eqn:Es; [|by split]. pose proof (c_saving _ _ C Es) as Hl.
  assert (forall st', same_jobs st st' -> is_saving st' = false -> core None st') as Hcore.
  { intros st' Hs Hsave. eapply core_frame; [exact Hs|by rewrite Hsave|exact C]. }
  destruct succeeded; (split; [by apply Hcore|]).
  - by apply live_nil_synced.
  - intros Hd. destruct (S Hd) as [H1 H2]. by split.
Qed.

Lemma unmount_good st : good st -> good (unmount st).
Proof.
  intros [[C1 C2 C3 C4 C5 C6 C7 C8 C9] S]. split; [|done]. split; cbn [jobs live runs disposed unmount]; try done.
  - apply NoDup_nil_2.
  - by intros i ?%elem_of_nil.
  - intros r Hr. destruct (C5 r Hr) as (Ho & j & e & H1 & H2 & H3 & H4 & _). split; [done|]. by exists j, e.
Qed.

Lemma dismiss_good id st : good st -> good (dismissJob id st).
Proof.
  intros [C S]. unfold dismissJob. destruct (live_job st id) as [job|] eqn:Ej; [|by split]. destruct (active job) eqn:Ea; [by split|].
  apply finishJob_good; [by apply (unseen_core _ st)|]. intros r Hr Heq.
  destruct (c_run _ _ C r Hr) as (_ & j & e & H1 & H2 & _). unfold live_job in Ej. case_bool_decide; [|done]. congruence.
Qed.

Lemma handle_good e st : event_ok e st -> good st -> good (handle e st).
Proof.
  intros He Hst. destruct e as [kind id files position|atts|id result|id|id| |op|a|managed|succeeded]; cbn [event_ok] in He.
  - destruct He. by apply insertLocal_good.
  - cbn [handle]. unfold insertRemoteMedia. destruct (loading_saving _); [done|]. destruct (references_of _); [by apply (unseen_good st)|done].
  - by apply settle_good.
  - by apply runJob_good.
  - by apply dismiss_good.
  - by apply unmount_good.
  - by apply (unseen_good st).
  - eapply unseen_good; [by apply unseen_action|done].
  - by apply save_begin_good.
  - by apply save_end_good.
Qed.

Lemma reachable_good st : reachable st -> good st.
Proof.
  induction 1 as [e|st e _ IH He]; [|by apply handle_good]. split.
  - split; try done; cbn.
    + apply NoDup_nil_2.
    + apply NoDup_nil_2.
    + by intros i ?%elem_of_nil.
    + apply NoDup_nil_2.
    + by intros r ?%elem_of_nil.
  - by intros _.
Qed.
End Invariant.

(** ** Files *)

Section Files.
Context {types : MessageTypes} {texts : UploadTexts} {mapping : ChangeMapping}.

Definition of_group (g : jstring) (f : FileMessage) : bool := bool_decide (file_group f = Some g).
Definition ungrouped (f : FileMessage) : bool := match file_group f with None => true | Some _ => false end.
(** The files of a list that are in none of the groups. *)
Definition outside (gs : list jstring) (f : FileMessage) : bool :=
  match file_group f with None => true | Some g => negb (bool_decide (g ∈ gs)) end.

Lemma filter_split {A} (p : A -> bool) l : l ≡ₚ js_filter p l ++ js_filter (fun x => negb (p x)) l.
Proof.
  induction l as [|x l IH]; [done|]. cbn [js_filter]. destruct (p x); cbn [negb app]; [by rewrite <- IH|].
  rewrite <- Permutation_middle. by rewrite <- IH.
Qed.

Lemma groups_split l gs : NoDup gs -> l ≡ₚ js_filter (outside gs) l ++ concat ((fun g => js_filter (of_group g) l) <$> gs).
Proof.
  induction 1 as [|g gs Hg _ IH].
  { cbn [fmap list_fmap concat]. rewrite app_nil_r, js_filter_true; [done|]. intros f _. unfold outside. by destruct (file_group f). }
  cbn [fmap list_fmap concat]. rewrite IH at 1. rewrite (filter_split (outside (g :: gs)) (js_filter (outside gs) l)) at 1.
  rewrite !js_filter_filter, <- app_assoc. f_equiv.
  - rewrite (js_filter_ext _ (outside (g :: gs))); [done|]. intros f _. unfold outside. destruct (file_group f); [|done].
    rewrite <- negb_orb. f_equal. apply eq_true_iff_eq. rewrite orb_true_iff, !bool_decide_eq_true, elem_of_cons. naive_solver.
  - f_equiv. rewrite (js_filter_ext _ (of_group g)); [done|]. intros f _. unfold outside, of_group. destruct (file_group f) as [g'|]; [|done].
    apply eq_true_iff_eq. rewrite andb_true_iff, !negb_true_iff, negb_false_iff, bool_decide_eq_false, !bool_decide_eq_true, elem_of_cons.
    split; [intros [H1 [->|H2]]; done|intros [= ->]; by split; [|left]].
Qed.

(** The turns of the loop: what is placed so far, and which files stand for a reference. *)
Definition split_inv (files done : list FileMessage) (st : list jstring * InlineLocalFileSplit) : Prop :=
  NoDup st.1 /\ (forall g, g ∈ st.1 <-> exists f, f ∈ done /\ file_group f = Some g)
  /\ inline st.2 ++ split_attachments st.2 ≡ₚ js_filter ungrouped done ++ concat ((fun g => js_filter (of_group g) files) <$> st.1)
  /\ Forall (fun i => exists f, inline st.2 !! i = Some f /\ is_image_file f = true) (representativeIndexes st.2).

Lemma representatives_app (l l' : list FileMessage) indexes :
  Forall (fun i => exists f, l !! i = Some f /\ is_image_file f = true) indexes ->
  Forall (fun i => exists f, (l ++ l') !! i = Some f /\ is_image_file f = true) indexes.
Proof. intros H. eapply Forall_impl; [exact H|]. intros i (f & Hf & Hi). exists f. split; [|done]. by apply lookup_app_l_Some. Qed.

Lemma split_step_inv files done st f : split_inv files done st -> split_inv files (done ++ [f]) (split_step files st f).
Proof.
  intros (Hn & Hg & Hp & Hr). destruct st as [gs s]. cbn [fst snd] in *. unfold split_step. rewrite <- app_nil_r in Hp at 1.
  destruct (file_group f) as [g|] eqn:Ef.
  - assert (js_filter ungrouped (done ++ [f]) = js_filter ungrouped done) as Hu
      by (rewrite js_filter_app; cbn [js_filter]; unfold ungrouped at 2; by rewrite Ef, app_nil_r).
    case_bool_decide as Hin.
    + split; [done|]. rewrite Hu. split; [|by rewrite app_nil_r in Hp]. intros g'. rewrite Hg. setoid_rewrite elem_of_app.
      split; [intros (x & Hx & Hxg); exists x; by split; [left|]|]. intros (x & [Hx|Hx%list_elem_of_singleton] & Hxg); [by exists x|].
      subst x. rewrite Ef in Hxg. injection Hxg as <-. by apply Hg.
    + change (js_filter _ files) with (js_filter (of_group g) files). set (group := js_filter (of_group g) files).
      assert (NoDup (g :: gs)) as Hn' by by apply NoDup_cons.
      assert (forall g', g' ∈ g :: gs <-> exists x, x ∈ done ++ [f] /\ file_group x = Some g') as Hg'.
      { intros g'. rewrite elem_of_cons, Hg. setoid_rewrite elem_of_app. split.
        - intros [->|(x & Hx & Hxg)]; [exists f; split; [right; by left|done]|exists x; by split; [left|]].
        - intros (x & [Hx|Hx%list_elem_of_singleton] & Hxg); [right; by exists x|left; subst; congruence]. }
      assert (forall base, base ≡ₚ (inline s ++ split_attachments s) ++ group ->
        base ≡ₚ js_filter ungrouped (done ++ [f]) ++ concat ((fun g => js_filter (of_group g) files) <$> g :: gs)) as Hbase.
      { intros base ->. rewrite app_nil_r in Hp. rewrite Hp, Hu. cbn [fmap list_fmap concat]. fold group.
        rewrite <- app_assoc. f_equiv. apply Permutation_app_comm. }
      destruct (find_index is_image_file group) as [i|] eqn:Ei; (split; [exact Hn'|split; [exact Hg'|]]); cbn [snd inline split_attachments representativeIndexes].
      * split; [apply Hbase; rewrite <- !app_assoc; f_equiv; apply Permutation_app_comm|].
        apply Forall_app. split; [by apply representatives_app|]. constructor; [|done]. apply find_index_Some in Ei as (x & Hx & Hi).
        exists x. split; [|done]. rewrite lookup_app_r by lia. by replace (length (inline s) + i - length (inline s))%nat with i by lia.
      * split; [apply Hbase; by rewrite app_assoc|done].
  - assert (js_filter ungrouped (done ++ [f]) = js_filter ungrouped done ++ [f]) as Hu
      by (rewrite js_filter_app; cbn [js_filter]; unfold ungrouped at 2; by rewrite Ef).
    assert (forall g', g' ∈ gs <-> exists x, x ∈ done ++ [f] /\ file_group x = Some g') as Hg'.
    { intros g'. rewrite Hg. setoid_rewrite elem_of_app. split; [intros (x & Hx & Hxg); exists x; by split; [left|]|].
      intros (x & [Hx|Hx%list_elem_of_singleton] & Hxg); [by exists x|subst; congruence]. }
    rewrite app_nil_r in Hp. destruct (is_image_file f) eqn:Ei; (split; [exact Hn|split; [exact Hg'|]]);
      cbn [snd inline split_attachments representativeIndexes]; rewrite Hu.
    + split; [rewrite <- !app_assoc, (Permutation_app_comm [f] (split_attachments s)), app_assoc, Hp, <- app_assoc; f_equiv; apply Permutation_app_comm|].
      apply Forall_app. split; [by apply representatives_app|]. constructor; [|done]. exists f. split; [|done].
      by rewrite lookup_app_r, Nat.sub_diag by lia.
    + split; [|done]. rewrite app_assoc, Hp, <- !app_assoc. f_equiv. apply Permutation_app_comm.
Qed.

(** Every file picked is placed once, in the text or among the attachments, and each
    reference stands for an image among the files in the text. *)
Theorem split_places_each_file (files : list FileMessage) :
  let s := splitInlineLocalFiles files in
  inline s ++ split_attachments s ≡ₚ files
  /\ Forall (fun i => exists f, inline s !! i = Some f /\ is_image_file f = true) (representativeIndexes s).
Proof.
  cbn zeta. unfold splitInlineLocalFiles. set (empty := (@nil jstring, _)).
  assert (forall todo done st, split_inv files done st -> split_inv files (done ++ todo) (foldl (split_step files) st todo)) as Hloop.
  { induction todo as [|f todo IH]; intros done st Hs; cbn [foldl]; [by rewrite app_nil_r|].
    replace (done ++ f :: todo) with ((done ++ [f]) ++ todo) by by rewrite <- app_assoc. by apply IH, split_step_inv. }
  destruct (Hloop files [] empty) as (Hn & Hg & Hp & Hr).
  { split; [apply NoDup_nil_2|]. split; [|done]. intros g. split; [by intros ?%elem_of_nil|by intros (f & ?%elem_of_nil & _)]. }
  cbn [app] in *. split; [|done]. destruct (foldl (split_step files) empty files) as [gs s]. cbn [fst snd] in *.
  etransitivity; [exact Hp|]. etransitivity; [|symmetry; exact (groups_split files gs Hn)]. f_equiv.
  rewrite (js_filter_ext ungrouped (outside gs)); [done|]. intros f Hf. unfold ungrouped, outside.
  destruct (file_group f) as [g|] eqn:Ef; [|done]. symmetry. apply negb_false_iff, bool_decide_eq_true, Hg. by exists f.
Qed.
End Files.

(** ** Progress *)

Section Progress.
Context {types : MessageTypes} {texts : UploadTexts} {mapping : ChangeMapping} {page : WebPage} {parser : MarkdownParser}
  {markdown : MarkdownHost}.

(** Nothing of a job changes. *)
Definition keeps (id : jstring) (a b : hook) : Prop :=
  get_job b id = get_job a id /\ (forall r, run_job r = id -> r ∈ runs b <-> r ∈ runs a) /\ (id ∈ live b <-> id ∈ live a)
  /\ disposed b = disposed a.

Lemma keeps_refl id a : keeps id a a.
Proof. done. Qed.
Lemma keeps_trans id a b c : keeps id a b -> keeps id b c -> keeps id a c.
Proof. intros (H1 & H2 & H3 & H4) (K1 & K2 & K3 & K4). split_and!; [congruence|intros r Hr; rewrite K2, H2; done|by rewrite K3|congruence]. Qed.
Lemma same_jobs_keeps id a b : same_jobs a b -> keeps id a b.
Proof. intros (H1 & H2 & H3 & H4). unfold keeps, get_job. by rewrite H1, H2, H3, H4. Qed.

Lemma update_keeps id id' f st : (forall j, job_id (f j) = job_id j) -> id' <> id -> keeps id st (update_job id' f st).
Proof. intros Hf Hne. split; [|done]. rewrite get_job_update by done. by rewrite bool_decide_eq_false_2. Qed.

Lemma finishJob_keeps id id' st : id' <> id -> keeps id st (finishJob id' st).
Proof.
  intros Hne. eapply keeps_trans; [|apply same_jobs_keeps, sync_frame]. split_and!; try done. cbn [live with_live].
  rewrite js_filter_In, negb_true_iff, js_eqb_false. naive_solver.
Qed.

Lemma finish_run_keeps id id' error st : id' <> id -> keeps id st (finish_run id' error st).
Proof.
  intros Hne. unfold finish_run. set (st1 := update_job id' (set_active false) st).
  assert (keeps id st st1) as H1 by by apply update_keeps. assert (keeps id st (syncJobState st1)) as H2
    by (eapply keeps_trans; [exact H1|apply same_jobs_keeps, sync_frame]).
  destruct (disposed st1); [done|]. destruct (get_job (syncJobState st1) id'); [|done]. destruct (existsb _ _).
  { eapply keeps_trans; [exact H2|]. apply same_jobs_keeps. eapply unseen_trans; [apply unseen_show_status|apply unseen_notify]. }
  destruct (job_markdown _); [|done]. eapply keeps_trans; [exact H2|]. by apply (finishJob_keeps id id' (on_editor _ _)).
Qed.

Lemma continue_run_keeps id id' from error st : id' <> id -> keeps id st (continue_run id' from error st).
Proof.
  intros Hne. unfold continue_run. destruct (get_job st id') as [job|]; [|done]. destruct (next_pending _ _); [|by apply finish_run_keeps].
  split_and!; try done. cbn [runs with_runs]. intros r Hr. rewrite elem_of_app. split; [|by left]. intros [?|Hin%list_elem_of_singleton]; [done|].
  subst r. by cbn in Hr.
Qed.

Lemma runJob_keeps id id' st : (id' = id -> id ∉ live st \/ exists job, get_job st id = Some job /\ active job = true) -> keeps id st (runJob id' st).
Proof.
  intros H. unfold runJob, live_job. case_bool_decide as Hl; [|done]. destruct (get_job st id') as [job|] eqn:Ej; [|done].
  destruct (active job || disposed st) eqn:Ea; [done|]. destruct (decide (id' = id)) as [->|Hne].
  { destruct (H eq_refl) as [?|(j & Hj & Ha)]; [done|]. rewrite Hj in Ej. injection Ej as ->. by rewrite Ha in Ea. }
  eapply keeps_trans; [|by apply continue_run_keeps]. eapply keeps_trans; [by apply (update_keeps id id' (set_active true))|].
  eapply keeps_trans; [apply same_jobs_keeps, sync_frame|]. apply same_jobs_keeps, unseen_show_status.
Qed.

Lemma settle_keeps id id' result st : (id' = id -> forall r, r ∈ runs st -> run_job r <> id) -> keeps id st (settle_upload id' result st).
Proof.
  intros H. unfold settle_upload. destruct (js_find _ (runs st)) as [r|] eqn:Er; [|done].
  destruct (decide (id' = id)) as [->|Hne].
  { apply js_find_Some in Er as [Hr Hid]. apply js_eqb_true in Hid. by destruct (H eq_refl r Hr). }
  set (st1 := with_runs _ st). assert (keeps id st st1) as H1.
  { split_and!; try done. unfold st1. cbn [runs with_runs]. intros r' Hr'. rewrite js_filter_In, negb_true_iff, js_eqb_false. naive_solver. }
  destruct result as [e|a]; (eapply keeps_trans; [exact H1|]); [by apply continue_run_keeps|].
  assert (keeps id st1 (update_job id' (set_attachment (cursor r) a) st1)) as H2 by by apply update_keeps.
  destruct (disposed _); [done|]. eapply keeps_trans; [exact H2|]. eapply keeps_trans; [|by apply continue_run_keeps].
  apply same_jobs_keeps. eapply unseen_trans; [apply unseen_append|apply unseen_show_status].
Qed.

Lemma insertLocal_keeps id kind id' files position st :
  is_Some (get_job st id) -> id' <> id -> keeps id st (insertLocal kind id' files position st).
Proof.
  intros [job Hjob] Hne. unfold insertLocal. destruct (loading_saving _); [done|]. destruct (editor_ref st); [|done].
  destruct (createJob id' files kind) as [j|]; [|done].
  eapply keeps_trans; [|apply runJob_keeps; intros Heq; by destruct Hne]. set (st1 := with_live _ _).
  assert (keeps id st st1) as H1.
  { split_and!; try done.
    - unfold st1. change (get_job (with_live ?l ?s) id) with (get_job s id). rewrite get_job_snoc. by rewrite Hjob.
    - unfold st1. cbn [live with_live]. rewrite elem_of_app, list_elem_of_singleton. naive_solver. }
  eapply keeps_trans; [exact H1|]. eapply keeps_trans; [apply same_jobs_keeps, sync_frame|]. done.
Qed.

(** Whether an event is about a job. *)
Definition about (id : jstring) (e : event) : Prop :=
  match e with Settle id' _ => id' = id | Unmount => True | _ => False end.

Lemma handle_keeps id e st :
  event_ok e st -> is_Some (get_job st id) -> ~ about id e -> (id ∉ live st \/ exists job, get_job st id = Some job /\ active job = true) ->
  keeps id st (handle e st).
Proof.
  intros He Hjob Hab Hact. destruct e as [kind id' files position|atts|id' result|id'|id'| |op|a|managed|succeeded]; cbn [handle about] in *.
  - apply insertLocal_keeps; [done|]. intros ->. destruct He as [He _]. destruct Hjob as [job Hj]. apply He, list_elem_of_fmap.
    exists job. split; [by apply get_job_id in Hj|]. by apply js_find_Some in Hj as [Hj _].
  - unfold insertRemoteMedia. destruct (loading_saving _); [done|]. by destruct (references_of _).
  - by apply settle_keeps.
  - apply runJob_keeps. intros ->. done.
  - unfold dismissJob, live_job. case_bool_decide as Hl; [|done]. destruct (get_job st id') as [job|] eqn:Ej; [|done].
    destruct (active job) eqn:Ea; [done|]. destruct (decide (id' = id)) as [->|Hne].
    { destruct Hact as [?|(j & Hj & Ha)]; [done|]. congruence. }
    by apply (finishJob_keeps id id' (on_editor _ st)).
  - done.
  - done.
  - apply same_jobs_keeps, unseen_action, He.
  - by destruct (valid _).
  - destruct (is_saving st); [|done]. by destruct succeeded.
Qed.

(** ** Finishing *)

Definition attached (e : UploadEntry) : Prop := is_pending e = false.
Definition writable (a : Attachment) : Prop := exists reference, reference_of a = inr reference.
Definition pending_count (j : UploadJob) : nat := length (js_filter is_pending (entries j)).

(** A job whose references can be written: its indexes are of its files. *)
Definition job_fits (j : UploadJob) : Prop :=
  Forall (fun i => (i < length (entries j))%nat) (job_indexes j)
  /\ Forall (fun e => forall a, entry_attachment e = Some a -> writable a) (entries j).

(** A run has [n] files to go, and none of those before failed. *)
Definition to_go (id : jstring) (n : nat) (st : hook) : Prop :=
  exists r job, r ∈ runs st /\ run_job r = id /\ get_job st id = Some job /\ job_fits job
    /\ Forall attached (take (cursor r) (entries job)) /\ pending_count job = n /\ disposed st = false.
Definition finished (id : jstring) (st : hook) : Prop :=
  id ∉ live st /\ (exists job, get_job st id = Some job /\ Forall attached (entries job)) /\ forall r, r ∈ runs st -> run_job r <> id.

Lemma find_index_before {A} (p : A -> bool) l i : find_index p l = Some i -> Forall (fun x => p x = false) (take i l).
Proof.
  revert i. induction l as [|x l IH]; intros i; cbn [find_index]; [done|]. destruct (p x) eqn:E; [by intros [= <-]|].
  destruct (find_index p l) as [j|]; [|done]. intros [= <-]. cbn [take]. constructor; [done|]. by apply IH.
Qed.
Lemma find_index_None {A} (p : A -> bool) l : find_index p l = None -> Forall (fun x => p x = false) l.
Proof.
  induction l as [|x l IH]; cbn [find_index]; [done|]. destruct (p x) eqn:E; [done|]. destruct (find_index p l); [done|]. intros _.
  constructor; [done|]. by apply IH.
Qed.

Lemma attached_no_pending l : Forall attached l -> js_filter is_pending l = [].
Proof. induction 1 as [|e l He _ IH]; [done|]. cbn [js_filter]. by rewrite He. Qed.

(** The job after the file its run waits for is there. *)
Lemma attach_next job i e a :
  entries job !! i = Some e -> is_pending e = true -> job_fits job -> writable a -> Forall attached (take i (entries job)) ->
  let job' := set_attachment i a job in
  job_fits job' /\ Forall attached (take (S i) (entries job')) /\ pending_count job = S (pending_count job').
Proof.
  intros Hi Hp [Hf1 Hf2] Ha Ht. cbn zeta. set (f := fun e => {| entry_file := entry_file e; entry_attachment := Some a |}).
  assert (entries job = take i (entries job) ++ e :: drop (S i) (entries job)) as Hl by by rewrite take_drop_middle.
  assert (length (take i (entries job)) = i) as Hlen by (rewrite length_take; apply lookup_lt_Some in Hi; lia).
  assert (entries (set_attachment i a job) = take i (entries job) ++ f e :: drop (S i) (entries job)) as Hl'.
  { cbn [set_attachment entries]. rewrite Hl at 1. rewrite <- Hlen at 1. rewrite alter_app_r_alt by lia. by rewrite Nat.sub_diag. }
  split; [split|split].
  - cbn [set_attachment job_indexes entries]. by rewrite length_alter.
  - rewrite Hl'. rewrite Hl in Hf2. apply Forall_app in Hf2 as [H1 H2]. apply Forall_cons in H2 as [_ H2]. apply Forall_app. split; [done|].
    constructor; [by intros b [= <-]|done].
  - rewrite Hl'. replace (S i) with (i + 1)%nat by lia. rewrite (take_app_add' _ _ i 1) by done. apply Forall_app. split; [done|]. cbn. by constructor.
  - unfold pending_count. rewrite Hl', Hl at 1. rewrite !js_filter_app. cbn [js_filter]. rewrite Hp. cbn [is_pending f entry_attachment].
    rewrite !length_app. cbn [length]. lia.
Qed.

Lemma job_markdown_total job : job_fits job -> Forall attached (entries job) -> exists text, job_markdown job = Some text.
Proof.
  intros [H1 H2] Ha. unfold job_markdown.
  assert (exists atts, Forall2 (fun i a => job_attachment job i = Some a) (job_indexes job) atts /\ Forall writable atts) as (atts & Hm%mapM_Some & Hw).
  { induction H1 as [|i l Hi _ IH]; [by exists []|]. destruct IH as (atts & IH1 & IH2).
    destruct (lookup_lt_is_Some_2 _ _ Hi) as [e He]. rewrite Forall_forall in Ha, H2.
    assert (e ∈ entries job) as Hin by by eapply list_elem_of_lookup_2. pose proof (Ha e Hin) as Hp.
    destruct (entry_attachment e) as [a|] eqn:Ee; [|unfold attached, is_pending in Hp; by rewrite Ee in Hp].
    exists (a :: atts). split; [|by constructor; [apply (H2 e Hin)|]].
    constructor; [|done]. unfold job_attachment. by rewrite He. }
  rewrite Hm.
  cbn [mbind option_bind]. assert (exists rs, references_of atts = Some rs) as [rs ->]; [|by eexists].
  clear Hm. induction Hw as [|a l [r Hr] _ [rs IH]]; [by exists []|]. cbn [references_of]. rewrite Hr, IH. by eexists.
Qed.

(** The end of a run with every file there. *)
Lemma finish_run_finished id error st job :
  core (Some id) st -> disposed st = false -> get_job st id = Some job -> job_fits job -> Forall attached (entries job) ->
  finished id (finish_run id error st).
Proof.
  intros C Hd Hj Hfit Ha. unfold finish_run. set (st1 := update_job id (set_active false) st).
  assert (disposed st1 = false) as -> by exact Hd.
  pose proof (proj1 (sync_frame st1)) as (Hjobs & Hlive & Hruns & _).
  assert (get_job (syncJobState st1) id = Some (set_active false job)) as Hj'.
  { unfold get_job. rewrite <- Hjobs. fold (get_job st1 id). unfold st1. rewrite get_job_update by done.
    by rewrite bool_decide_eq_true_2, Hj. }
  rewrite Hj'. cbn [set_active entries]. assert (existsb is_pending (entries job) = false) as ->.
  { apply not_true_iff_false. intros (e & He & Hp)%existsb_exists. apply list_elem_of_In in He. rewrite Forall_forall in Ha.
    specialize (Ha e He). unfold attached in Ha. congruence. }
  destruct (job_markdown_total (set_active false job) Hfit Ha) as [text ->].
  pose proof (proj1 (sync_frame (with_live (js_filter (fun i => negb (js_eqb i id))
    (live (on_editor (resolveUploadAnchor id text) (syncJobState st1)))) (on_editor (resolveUploadAnchor id text) (syncJobState st1)))))
    as (Kjobs & Klive & Kruns & _).
  unfold finishJob. split; [|split].
  - rewrite <- Klive. cbn [live with_live]. rewrite js_filter_In, negb_true_iff, js_eqb_false. by intros [_ ?].
  - exists (set_active false job). split; [|done]. unfold get_job. rewrite <- Kjobs. exact Hj'.
  - rewrite <- Kruns. cbn [runs with_live on_editor with_editor]. rewrite <- Hruns. intros r Hr. by apply (turn_not_waiting id st).
Qed.

Lemma settle_progress id n a st :
  good st -> to_go id n st -> writable a ->
  (n = 1%nat /\ finished id (settle_upload id (inr a) st))
  \/ exists m, n = S m /\ to_go id m (settle_upload id (inr a) st).
Proof.
  intros [C S] (r & job & Hr & Hid & Hj & Hfit & Ht & Hn & Hd) Ha. destruct (c_run _ _ C r Hr) as (_ & job' & e & Hj' & Hact & He & Hp & Hl).
  rewrite Hid, Hj in Hj'. injection Hj' as <-. unfold settle_upload.
  assert (js_find (fun r => js_eqb (run_job r) id) (runs st) = Some r) as Hfind.
  { destruct (js_find _ (runs st)) as [r'|] eqn:Ef.
    - apply js_find_Some in Ef as [Hr' Hid']. apply js_eqb_true in Hid'. f_equal.
      apply list_elem_of_lookup in Hr as [i Hi], Hr' as [i' Hi'].
      assert (i' = i) as ->; [|congruence]. apply (NoDup_lookup _ _ _ id (c_runs _ _ C)); rewrite list_lookup_fmap; [by rewrite Hi', <- Hid'|by rewrite Hi, <- Hid].
    - rewrite js_find_None in Ef. specialize (Ef r Hr). rewrite Hid, js_eqb_refl in Ef. done. }
  rewrite Hfind. pose proof (take_turn st r id C Hfind) as C1. set (st1 := with_runs _ st) in *.
  assert (core (Some id) (update_job id (set_attachment (cursor r) a) st1)) as C2.
  { apply core_update; try done. intros r' Hr'. by apply (turn_not_waiting id st1). }
  set (st2 := update_job id (set_attachment (cursor r) a) st1) in *. assert (disposed st2 = false) as Hd2 by exact Hd. rewrite Hd2.
  set (st3 := show_status _ _ _). assert (unseen st2 st3) as H3 by (eapply unseen_trans; [apply unseen_append|apply unseen_show_status]).
  pose proof (unseen_core _ _ _ H3 C2) as C3. destruct H3 as [(H3j & H3l & H3r & H3d) _].
  destruct (attach_next job (cursor r) e a He Hp Hfit Ha Ht) as (Hfit' & Ht' & Hn'). set (job' := set_attachment (cursor r) a job) in *.
  assert (get_job st3 id = Some job') as Hj3.
  { unfold get_job. rewrite <- H3j. fold (get_job st2 id). unfold st2. rewrite get_job_update by done. rewrite bool_decide_eq_true_2 by done.
    change (get_job st1 id) with (get_job st id). by rewrite Hj. }
  unfold continue_run. rewrite Hj3. unfold next_pending. destruct (find_index is_pending (drop (Datatypes.S (cursor r)) (entries job'))) as [i|] eqn:Ei; cbn [fmap option_fmap option_map].
  - right. exists (pending_count job'). split; [congruence|].
    exists {| run_job := id; cursor := (Datatypes.S (cursor r) + i)%nat; lastError := lastError r |}, job'. cbn [runs with_runs run_job cursor disposed].
    split; [apply elem_of_app; right; by left|]. split_and!; try done; [|congruence].
    rewrite <- take_take_drop. apply Forall_app. split; [done|]. by apply find_index_before.
  - left. assert (Forall attached (entries job')) as Hall.
    { rewrite <- (take_drop (Datatypes.S (cursor r)) (entries job')). apply Forall_app. split; [done|]. by apply find_index_None. }
    split; [|apply (finish_run_finished id _ st3 job'); [done|congruence|done..]].
    rewrite <- Hn, Hn'. unfold pending_count. by rewrite attached_no_pending.
Qed.
End Progress.

(** ** Traces *)

Section Traces.
Context {types : MessageTypes} {texts : UploadTexts} {mapping : ChangeMapping} {page : WebPage} {parser : MarkdownParser}
  {markdown : MarkdownHost}.

Fixpoint events_ok (es : list event) (st : hook) : Prop :=
  match es with [] => True | e :: es' => event_ok e st /\ events_ok es' (handle e st) end.
Definition run_events (es : list event) (st : hook) : hook := foldl (fun st e => handle e st) st es.

(** The uploads of a job succeed with attachments whose reference can be written, and the
    editor stays mounted. *)
Definition uploads_succeed (id : jstring) (e : event) : Prop :=
  match e with
  | Settle id' (inl _) => id' <> id
  | Settle id' (inr a) => id' = id -> writable a
  | Unmount => False
  | _ => True
  end.
Definition settles (id : jstring) (e : event) : bool := match e with Settle id' _ => js_eqb id' id | _ => false end.

Lemma keeps_to_go id n a b : keeps id a b -> to_go id n a -> to_go id n b.
Proof.
  intros (H1 & H2 & _ & H4) (r & job & Hr & Hid & Hj & Hfit & Ht & Hn & Hd). exists r, job.
  split_and!; try done; [by apply H2|congruence..].
Qed.
Lemma keeps_finished id a b : keeps id a b -> finished id a -> finished id b.
Proof.
  intros (H1 & H2 & H3 & _) (Hl & (job & Hj & Ha) & Hr). split; [by rewrite H3|]. split; [exists job; split; [congruence|done]|].
  intros r Hin Hid. apply (Hr r); [|done]. by apply H2.
Qed.

(** An event that is not the settling of an upload of the job leaves it as it is. *)
Lemma other_event_keeps id e st :
  event_ok e st -> is_Some (get_job st id) -> uploads_succeed id e -> settles id e = false ->
  (id ∉ live st \/ exists job, get_job st id = Some job /\ active job = true) -> keeps id st (handle e st).
Proof.
  intros He Hj Hs Hn Hact. apply handle_keeps; try done. destruct e as [| |id' result| | | | | | |]; cbn in *; try tauto.
  by apply js_eqb_false in Hn.
Qed.

Lemma to_go_active id n st : good st -> to_go id n st -> exists job, get_job st id = Some job /\ active job = true.
Proof.
  intros [C _] (r & job & Hr & Hid & Hj & _). destruct (c_run _ _ C r Hr) as (_ & job' & e & Hj' & Hact & _).
  rewrite Hid in Hj'. exists job'. by split.
Qed.

Lemma finished_stays id es st :
  good st -> finished id st -> events_ok es st -> Forall (uploads_succeed id) es -> finished id (run_events es st).
Proof.
  revert st. induction es as [|e es IH]; intros st Hg Hf Hes Hs; [done|]. cbn [events_ok] in Hes. destruct Hes as [He Hes].
  apply Forall_cons in Hs as [Hse Hs]. cbn [run_events foldl]. apply IH; [by apply handle_good| |done..].
  pose proof Hf as (Hl & (job & Hj & _) & Hr). eapply keeps_finished; [|exact Hf]. destruct (settles id e) eqn:Ee.
  - destruct e as [| |id' result| | | | | | |]; try done. cbn [handle]. apply settle_keeps. by intros _.
  - apply other_event_keeps; try done. by left.
Qed.

Lemma to_go_finishes id n es st :
  good st -> to_go id n st -> events_ok es st -> Forall (uploads_succeed id) es -> (n <= length (js_filter (settles id) es))%nat ->
  finished id (run_events es st).
Proof.
  revert n st. induction es as [|e es IH]; intros n st Hg Ht Hes Hs Hn.
  { destruct Ht as (r & job & Hr & Hid & Hj & _ & Ha & Hc & _). destruct Hg as [C _]. cbn in Hn. exfalso.
    destruct (c_run _ _ C r Hr) as (_ & job' & e & Hj' & _ & He & Hp & _). rewrite Hid, Hj in Hj'. injection Hj' as <-.
    assert (e ∈ js_filter is_pending (entries job)) as Hin by (apply js_filter_In; split; [by eapply list_elem_of_lookup_2|done]).
    unfold pending_count in Hc. destruct (js_filter is_pending _); [by apply elem_of_nil in Hin|cbn in Hc; lia]. }
  cbn [events_ok] in Hes. destruct Hes as [He Hes]. apply Forall_cons in Hs as [Hse Hs]. cbn [js_filter] in Hn.
  pose proof (handle_good e st He Hg) as Hg'. cbn [run_events foldl]. destruct (settles id e) eqn:Ee.
  - destruct e as [| |id' result| | | | | | |]; try done. cbn [settles] in Ee. apply js_eqb_true in Ee. subst id'.
    destruct result as [error|a]; [by destruct Hse|]. cbn [length] in Hn.
    destruct (settle_progress id n a st Hg Ht (Hse eq_refl)) as [[-> Hf]|(m & -> & Hm)]; [by apply finished_stays|].
    apply (IH m); try done. lia.
  - apply (IH n); try done. eapply keeps_to_go; [|exact Ht]. pose proof (to_go_active id n st Hg Ht) as (job & Hj & Hact).
    apply other_event_keeps; try done. right. by exists job.
Qed.

(** A run begins at the first file that is missing. *)
Lemma runJob_to_go id st job :
  live_job st id = Some job -> active job = false -> disposed st = false -> job_fits job ->
  Exists (fun e => is_pending e = true) (entries job) -> to_go id (pending_count job) (runJob id st).
Proof.
  intros Hl Ha Hd Hf He. unfold runJob. rewrite Hl, Ha, Hd. cbn [orb].
  unfold live_job in Hl. case_bool_decide; [|done]. set (st3 := show_status _ _ _). set (st1 := update_job id (set_active true) st) in st3.
  assert (same_jobs st1 st3) as (H1 & H2 & H3 & H4).
  { eapply same_jobs_trans; [apply (proj1 (sync_frame st1))|apply unseen_show_status]. }
  assert (get_job st3 id = Some (set_active true job)) as Hj.
  { unfold get_job. rewrite <- H1. fold (get_job st1 id). unfold st1. rewrite get_job_update by done. by rewrite bool_decide_eq_true_2, Hl. }
  clearbody st3. unfold continue_run. rewrite Hj. unfold next_pending. cbn [set_active entries]. rewrite drop_0.
  destruct (find_index is_pending (entries job)) as [i|] eqn:Ei; cbn [fmap option_fmap option_map].
  - exists {| run_job := id; cursor := i; lastError := None |}, (set_active true job). cbn [runs with_runs disposed].
    split; [apply elem_of_app; right; by left|]. split_and!; try done; [by apply find_index_before|by rewrite <- H4].
  - apply find_index_None in Ei. rewrite Forall_forall in Ei. apply Exists_exists in He as (e & He & Hp). rewrite Ei in Hp; done.
Qed.

Lemma createJob_fits id files kind job : createJob id files kind = Some job -> job_fits job.
Proof.
  unfold createJob. destruct (match kind with image_job => _ | video_job => _ end) as [l indexes] eqn:E. destruct l as [|f l]; [done|].
  intros [= <-]. split; cbn [job_indexes entries].
  - change (Forall (fun i => (i < length (new_entry <$> f :: l))%nat) indexes). rewrite length_fmap. destruct kind; injection E as El <-.
    + pose proof (split_places_each_file files) as [_ H]. rewrite El in H. eapply Forall_impl; [exact H|].
      intros i (x & Hx & _). by apply lookup_lt_Some in Hx.
    + rewrite El. apply Forall_forall. intros i Hi%elem_of_seq. lia.
  - change (Forall (fun e => forall a, entry_attachment e = Some a -> writable a) (new_entry <$> f :: l)).
    apply Forall_fmap, Forall_forall. by intros x _ a.
Qed.

Lemma live_job_insert id st job :
  job_id job = id -> id ∉ job_id <$> jobs st ->
  let st1 := with_live (live st ++ [id]) (with_jobs (jobs st ++ [job]) st) in
  live_job st1 id = Some job.
Proof.
  intros Hid Hn. cbn zeta. unfold live_job. rewrite bool_decide_eq_true_2 by (cbn [live with_live]; apply elem_of_app; right; by left).
  change (get_job (with_jobs (jobs st ++ [job]) st) id = Some job). by rewrite get_job_snoc, get_job_new, Hid, js_eqb_refl.
Qed.

(** C14. Files inserted into the text reach their end, as long as the editor stays mounted and
    the reference of each attachment that comes back can be written: whatever else happens
    in the editor, and in whatever order other jobs run, once each upload of the job has
    succeeded the job is over, every file of it has its attachment and no upload waits.
    (An attachment whose name has no identifier cannot be referred to, and the run of such
    an upload throws before its job is finished, useInlineImageUpload.ts:203: that job stays.) *)
Theorem uploads_finish kind id files position st job es :
  reachable st -> id ∉ job_id <$> jobs st -> disposed st = false -> is_saving st = false -> is_Some (editor_ref st) ->
  createJob id files kind = Some job ->
  let st' := insertLocal kind id files position st in
  events_ok es st' -> Forall (uploads_succeed id) es -> (length (entries job) <= length (js_filter (settles id) es))%nat ->
  finished id (run_events es st').
Proof.
  intros Hst Hn Hd Hs [ed Hed] Hjob st' Hes Hsucc Hlen. apply reachable_good in Hst.
  assert (good st') as Hg by by apply insertLocal_good.
  pose proof (createJob_facts _ _ _ _ Hjob) as (Hid & Hact & Hne & Hpend).
  eapply to_go_finishes; [done| |done..|].
  - unfold st', insertLocal. fold (is_saving st). rewrite Hs, Hed, Hjob. set (st1 := with_live _ _).
    set (st2 := on_editor _ _). pose proof (live_job_insert id st job Hid Hn) as Hlive. cbn zeta in Hlive. fold st1 in Hlive.
    pose proof (proj1 (sync_frame st1)) as (Hj & Hl & _ & Hdd).
    apply runJob_to_go; [|done| |by eapply createJob_fits|].
    + unfold live_job, get_job in *. change (live st2) with (live (syncJobState st1)). change (jobs st2) with (jobs (syncJobState st1)).
      by rewrite <- Hj, <- Hl.
    + change (disposed (syncJobState st1) = false). by rewrite <- Hdd.
    + destruct (entries job); [done|]. apply Forall_cons in Hpend as [? _]. by constructor.
  - unfold pending_count. rewrite js_filter_true; [done|]. intros e He. rewrite Forall_forall in Hpend. by apply Hpend.
Qed.

(** C15. While an upload is under way the memo cannot be saved, and while it is saved none
    begins: the store counts the jobs there are and shows an upload exactly while one
    waits, [canSave] refuses while there is a job, and a save meets none. *)
Theorem saving_waits_for_uploads managed st :
  reachable st ->
  (disposed st = false ->
     pendingInlineImageInsertions (state_ui (store st)) = Z.of_nat (length (live st))
     /\ (loading_uploading (ui_isLoading (state_ui (store st))) = true <-> runs st <> [])
     /\ (valid (fst (canSave managed (store st))) = true -> live st = [] /\ runs st = []))
  /\ (is_saving st = true -> live st = [] /\ forall kind id files position, insertLocal kind id files position st = st).
Proof.
  intros [C S]%reachable_good. split.
  - intros Hd. destruct (S Hd) as [Hp Hu]. split; [done|].
    assert (existsb active (live_jobs st) = true <-> runs st <> []) as Hiff.
    { rewrite existsb_exists. split.
      - intros (j & Hj & Ha) Hr. apply list_elem_of_In, list_elem_of_omap in Hj as (i & Hi & Hg).
        pose proof (c_active _ _ C i j Hd Hi Hg Ha ltac:(done)) as Hin. rewrite Hr in Hin. by apply elem_of_nil in Hin.
      - intros Hr. destruct (runs st) as [|r rs] eqn:Er; [done|]. destruct (c_run _ _ C r) as (_ & j & e & Hj & Ha & _ & _ & Hl).
        { rewrite Er. by left. }
        exists j. split; [|done]. apply list_elem_of_In, list_elem_of_omap. exists (run_job r). split; [by apply Hl|done]. }
    split; [by rewrite Hu|]. intros [Hp0 Hu0]%canSave_clear. split.
    + destruct (live st); [done|]. cbn [length] in Hp. lia.
    + rewrite Hu in Hu0. destruct (runs st); [done|]. by rewrite (proj2 Hiff) in Hu0.
  - intros Hs. split; [by apply (c_saving _ _ C)|]. intros. unfold insertLocal. fold (is_saving st). by rewrite Hs.
Qed.
End Traces.

(** ** Two images on a page *)

#[local] Existing Instances MemoSave.plain_types ManagedAttachment.plain_page ManagedAttachment.plain_markdown ManagedAttachment.image_parser.
#[local] Instance plain_texts : UploadTexts := {|
  upload_message _ _ _ _ := u "uploading"; retry_label _ := u "retry"; keep_label _ := u "keep"; upload_error := unit |}.

Definition sample_file (url : jstring) : FileMessage :=
  {| file_name := u "a.png"; file_size := 1; file_type := u "image/png"; file_content := []; file_url := url; file_motion := None;
     file_metadata := None |}.
Definition sample_files : list FileMessage := [sample_file (u "blob:1"); sample_file (u "blob:2")].
Definition sample_start : hook := start (createInitialState false) (Some (empty_editor (u "text"))).
Definition sample_job : option UploadJob := createJob (u "j") sample_files image_job.

Definition sample_result (name : jstring) : Attachment :=
  {| att_name := name; filename := u "a.png"; mime_type := u "image/png"; externalLink := []; motionMedia := None; other_fields := [] |}.
Definition sample_events : list event :=
  [Settle (u "j") (inr (sample_result (u "attachments/one"))); Store (updateContent (u "typed")); Retry (u "j");
   Settle (u "j") (inr (sample_result (u "attachments/two")))].

(** The placeholder is replaced by both references, a blank line between the blocks. *)
Example sample_upload :
  (doc <$> editor_ref (run_events sample_events (insertLocal image_job (u "j") sample_files (Some 4%nat) sample_start)))
  = Some (u "text" ++ BLANK_LINE ++ u "![a](/file/attachments/one)" ++ BLANK_LINE ++ u "![a](/file/attachments/two)").
Proof. vm_compute. reflexivity. Qed.

Lemma uploads_finish_witness :
  finished (u "j") (run_events sample_events (insertLocal image_job (u "j") sample_files (Some 4%nat) sample_start)).
Proof.
  apply (uploads_finish image_job (u "j") sample_files (Some 4%nat) sample_start
           {| job_id := u "j"; job_kind := image_job; entries := new_entry <$> sample_files; job_indexes := [0; 1]%nat; active := false |}
           sample_events).
  - apply reachable_start.
  - apply not_elem_of_nil.
  - reflexivity.
  - reflexivity.
  - eexists. reflexivity.
  - vm_compute. reflexivity.
  - cbn [events_ok sample_events event_ok foreign updateContent]. tauto.
  - repeat constructor; intros _; eexists; vm_compute; reflexivity.
  - vm_compute. repeat constructor.
Defined.

Lemma saving_waits_for_uploads_witness (st := insertLocal image_job (u "j") sample_files None sample_start) :
  pendingInlineImageInsertions (state_ui (store st)) = 1 /\ loading_uploading (ui_isLoading (state_ui (store st))) = true
  /\ valid (fst (canSave ManagedAttachment.initial (store st))) = false.
Proof.
  assert (reachable st) as Hst.
  { apply (reachable_event sample_start (InsertLocal image_job (u "j") sample_files None)); [apply reachable_start|].
    split; [apply not_elem_of_nil|reflexivity]. }
  destruct (saving_waits_for_uploads ManagedAttachment.initial st Hst) as [H _].
  destruct (H ltac:(vm_compute; reflexivity)) as (H1 & H2 & H3). split; [exact H1|]. split; [apply H2; discriminate|].
  apply not_true_iff_false. intros Hv. destruct (H3 Hv) as [_ Hr]. discriminate Hr.
Defined.
