(* ===== verification/MemoCardHeight.v ===== *)
(** * The estimated height of a memo's card

    web/src/components/PagedMemoList/memoCardHeight.ts: the height a memo's card is given
    in a paged list before it is measured, from its text, its attachments, its reactions
    and the comments it previews.  The width of a column is a rational number. *)

From Stdlib Require Import QArith Qround Qminmax.
From S2P Require Import Prelude JSString JSRegExp MarkdownSource ManagedAttachment MediaItem MemoSave.

Definition CLAMP_PREVIEW_HEIGHT_PX : Z := 360.
Definition CLAMP_TRIGGER_HEIGHT_PX : Z := 420.
Definition CARD_VERTICAL_PADDING : Z := 24.
Definition CARD_HEADER_HEIGHT : Z := 32.
Definition CARD_SECTION_GAP : Z := 8.
Definition SHOW_MORE_BUTTON_HEIGHT : Z := 28.
Definition CONTENT_HORIZONTAL_PADDING : Z := 32.
Definition CONTENT_AVERAGE_CHAR_WIDTH : Z := 7.
Definition CONTENT_LINE_HEIGHT : Z := 22.
Definition CONTENT_MIN_CHARS_PER_LINE : Z := 18.
Definition MARKDOWN_IMAGE_HEIGHT : Z := 220.
Definition SINGLE_IMAGE_HEIGHT : Z := 260.
Definition SINGLE_VIDEO_ASPECT_RATIO : Q := (9 # 16)%Q.
Definition TWO_VISUAL_ITEMS_HEIGHT : Z := 240.
Definition MOSAIC_VISUAL_ITEMS_HEIGHT : Z := 288.
Definition SIX_VISUAL_ITEMS_HEIGHT : Z := 320.
Definition ATTACHMENT_SECTION_HEADER_HEIGHT : Z := 36.
Definition ATTACHMENT_SECTION_PADDING : Z := 16.
Definition ATTACHMENT_SECTION_GAP : Z := 8.
Definition AUDIO_ATTACHMENT_ROW_HEIGHT : Z := 92.
Definition DOCUMENT_ATTACHMENT_ROW_HEIGHT : Z := 64.
Definition REACTION_ROW_HEIGHT : Z := 28.
Definition COMMENT_PREVIEW_HEADER_HEIGHT : Z := 20.
Definition COMMENT_PREVIEW_ROW_HEIGHT : Z := 44.
Definition COMMENT_PREVIEW_VERTICAL_PADDING : Z := 20.
Definition MAX_VISIBLE_COMMENT_PREVIEWS : Z := 3.

(** [Math.ceil(a / b)] and [Math.round]. *)
Definition ceil_div (a b : Z) : Z := - ((- a) / b).
Definition js_round (x : Q) : Z := Qfloor (x + (1 # 2))%Q.

Definition charsPerLine (columnWidth : Q) : Z :=
  let textWidth := Qmax 1 (columnWidth - inject_Z CONTENT_HORIZONTAL_PADDING)%Q in
  Z.max CONTENT_MIN_CHARS_PER_LINE (Qfloor (textWidth / inject_Z CONTENT_AVERAGE_CHAR_WIDTH)%Q).
Definition estimateWrappedTextHeight (content : jstring) (columnWidth : Q) : Z :=
  let lineCount := foldl (fun total line => total + Z.max 1 (ceil_div (Z.of_nat (length line)) (charsPerLine columnWidth)))
                         0 (split_on 10 content) in
  lineCount * CONTENT_LINE_HEIGHT.

Definition not_unit (c : Z) : re := Chars (fun d => negb (d =? c)).
Definition MARKDOWN_IMAGE : re := (text (u "![") +++ star (not_unit 93) +++ text (u "](") +++ plus (not_unit 41) +++ char 41)%re.
Definition fold_letter (c : Z) : re := Chars (fun d => (d =? c) || (d =? c - 32)).
Definition HTML_IMAGE : re := (char 60 +++ fold_letter 105 +++ fold_letter 109 +++ fold_letter 103 +++ JSRegExp.space)%re.
Definition countMarkdownImages (content : jstring) : Z :=
  Z.of_nat (length (match_all false MARKDOWN_IMAGE content) + length (match_all false HTML_IMAGE content)).

Definition isAudioAttachment (a : Attachment) : bool := js_eqb (getAttachmentType a) (u "audio/*").

(** The height of [n] rows with gaps between them. *)
Definition rows_height (n : nat) (row : Z) : Z :=
  if (0 <? n)%nat then Z.of_nat n * row + Z.max 0 (Z.of_nat n - 1) * ATTACHMENT_SECTION_GAP else 0.

Section Card.
Context {types : MessageTypes} {page : WebPage} {params : UrlParams} {parser : MarkdownParser} {markdown : MarkdownHost}.

Definition estimateVisualGalleryHeight (visualAttachments : list Attachment) (columnWidth : Q) : option Z :=
  items ← buildAttachmentVisualItems visualAttachments;
  let count := length items in
  if (count =? 0)%nat then Some 0
  else if (count =? 1)%nat then
    first ← head visualAttachments;
    Some (if js_eqb (getAttachmentType first) (u "video/*") then js_round (columnWidth * SINGLE_VIDEO_ASPECT_RATIO)%Q else SINGLE_IMAGE_HEIGHT)
  else if (count =? 2)%nat then Some TWO_VISUAL_ITEMS_HEIGHT
  else if (count <=? 4)%nat then Some MOSAIC_VISUAL_ITEMS_HEIGHT
  else Some SIX_VISUAL_ITEMS_HEIGHT.

Definition estimateAttachmentSectionHeight (l : list Attachment) (columnWidth : Q) : option Z :=
  match l with
  | [] => Some 0
  | _ =>
      let visual := js_filter is_visual l in
      let audio := js_filter isAudioAttachment l in
      let docs := js_filter (fun a => negb (is_visual a) && negb (isAudioAttachment a)) l in
      gallery ← estimateVisualGalleryHeight visual columnWidth;
      let contentParts := js_filter (fun height => 0 <? height)
        [gallery; rows_height (length audio) AUDIO_ATTACHMENT_ROW_HEIGHT; rows_height (length docs) DOCUMENT_ATTACHMENT_ROW_HEIGHT] in
      let contentHeight := foldl Z.add 0 contentParts + Z.max 0 (Z.of_nat (length contentParts) - 1) * ATTACHMENT_SECTION_GAP in
      Some (ATTACHMENT_SECTION_HEADER_HEIGHT + ATTACHMENT_SECTION_PADDING + contentHeight)
  end.

Definition countCommentRelations (memo : Memo) : Z :=
  Z.of_nat (length (js_filter (fun r => bool_decide (r_type r = COMMENT) && bool_decide (fst <$> r_related r = Some (m_name memo)))
    (m_relations memo))).
Definition estimateCommentPreviewHeight (memo : Memo) : Z :=
  let visibleCommentCount := Z.min (countCommentRelations memo) MAX_VISIBLE_COMMENT_PREVIEWS in
  if visibleCommentCount =? 0 then 0
  else COMMENT_PREVIEW_VERTICAL_PADDING + COMMENT_PREVIEW_HEADER_HEIGHT + visibleCommentCount * COMMENT_PREVIEW_ROW_HEIGHT.

Definition compact_height (bodyHeight : Z) : Z :=
  if CLAMP_TRIGGER_HEIGHT_PX <? bodyHeight then CLAMP_PREVIEW_HEIGHT_PX + SHOW_MORE_BUTTON_HEIGHT else bodyHeight.

(** [reactions] is the number of the memo's reactions; [st] holds the index of its text. *)
Definition estimateMemoCardHeight (st : module_state) (memo : Memo) (reactions : nat) (columnWidth : Q) : option Z :=
  let content := m_content memo in
  let contentHeight := estimateWrappedTextHeight content columnWidth + countMarkdownImages content * MARKDOWN_IMAGE_HEIGHT in
  attachmentHeight ← estimateAttachmentSectionHeight (fst (filterInlineManagedAttachments st content (m_attachments memo))) columnWidth;
  let bodyHeight := contentHeight + attachmentHeight
                    + (if (0 <? contentHeight) && (0 <? attachmentHeight) then CARD_SECTION_GAP else 0) in
  let reactionHeight := if (0 <? reactions)%nat then CARD_SECTION_GAP + REACTION_ROW_HEIGHT else 0 in
  Some (CARD_VERTICAL_PADDING + CARD_HEADER_HEIGHT + CARD_SECTION_GAP + compact_height bodyHeight + reactionHeight
        + estimateCommentPreviewHeight memo).
End Card.

(** ** Bounds *)

Lemma ceil_div_pos a b : 0 <= a -> 0 < b -> 0 <= ceil_div a b.
Proof. intros Ha Hb. unfold ceil_div. pose proof (Z.div_le_upper_bound (- a) b 0 Hb). lia. Qed.

Lemma charsPerLine_min columnWidth : 18 <= charsPerLine columnWidth.
Proof. unfold charsPerLine, CONTENT_MIN_CHARS_PER_LINE. lia. Qed.

Lemma line_count_bounds (f : jstring -> Z) lines total :
  (forall line, 1 <= f line) -> foldl (fun total line => total + f line) total lines >= total + Z.of_nat (length lines).
Proof.
  intros Hf. revert total. induction lines as [|line lines IH]; intros total; cbn [foldl length]; [lia|].
  specialize (IH (total + f line)). specialize (Hf line). lia.
Qed.

Lemma text_height_min content columnWidth : 22 <= estimateWrappedTextHeight content columnWidth.
Proof.
  unfold estimateWrappedTextHeight, CONTENT_LINE_HEIGHT.
  pose proof (line_count_bounds (fun line => Z.max 1 (ceil_div (Z.of_nat (length line)) (charsPerLine columnWidth)))
    (split_on 10 content) 0 ltac:(intros; lia)) as H.
  assert (0 < length (split_on 10 content))%nat by (pose proof (split_on_not_nil 10 content); destruct (split_on 10 content); [done|cbn; lia]).
  cbv beta in H. lia.
Qed.

Lemma rows_height_nonneg n row : 0 <= row -> 0 <= rows_height n row.
Proof. intros Hr. unfold rows_height, ATTACHMENT_SECTION_GAP. destruct (0 <? n)%nat; [nia|lia]. Qed.

Lemma sum_pos l total : foldl Z.add total (js_filter (fun height => 0 <? height) l) >= total.
Proof.
  revert total. induction l as [|x l IH]; intros total; cbn [js_filter]; [cbn; lia|].
  destruct (0 <? x) eqn:E; [cbn [foldl]; specialize (IH (total + x)); lia|apply IH].
Qed.

Lemma comment_height_bounds {types : MessageTypes} (memo : Memo) : 0 <= estimateCommentPreviewHeight memo <= 172.
Proof.
  unfold estimateCommentPreviewHeight, MAX_VISIBLE_COMMENT_PREVIEWS, COMMENT_PREVIEW_VERTICAL_PADDING,
    COMMENT_PREVIEW_HEADER_HEIGHT, COMMENT_PREVIEW_ROW_HEIGHT.
  assert (0 <= countCommentRelations memo) by (unfold countCommentRelations; lia).
  destruct (_ =? 0) eqn:E; lia.
Qed.

Section CardFacts.
Context {types : MessageTypes} {page : WebPage} {params : UrlParams} {parser : MarkdownParser} {markdown : MarkdownHost}.

(** A gallery has as many items as a non-empty list of attachments gives, at least one. *)
Lemma gallery_height_total l columnWidth :
  (forall a, a ∈ l -> link_ok a) -> exists h, estimateVisualGalleryHeight l columnWidth = Some h.
Proof.
  intros Hl. unfold estimateVisualGalleryHeight. destruct (gallery_total l Hl) as [items Hi]. rewrite Hi. cbn [mbind option_bind].
  destruct (length items =? 0)%nat eqn:E0; [by eexists|]. destruct (length items =? 1)%nat; [|repeat case_match; by eexists].
  destruct l as [|a l]; [|by eexists]. vm_compute in Hi. injection Hi as <-. done.
Qed.

Lemma section_height_total l columnWidth :
  (forall a, a ∈ l -> link_ok a) -> exists h, estimateAttachmentSectionHeight l columnWidth = Some h /\ 0 <= h.
Proof.
  intros Hl. unfold estimateAttachmentSectionHeight. destruct l as [|a l]; [by exists 0|].
  destruct (gallery_height_total (js_filter is_visual (a :: l)) columnWidth) as [g ->].
  { intros b Hb. apply js_filter_In in Hb as [Hb _]. by apply Hl. }
  eexists. split; [reflexivity|]. set (parts := [g; _; _]). pose proof (sum_pos parts 0).
  unfold ATTACHMENT_SECTION_HEADER_HEIGHT, ATTACHMENT_SECTION_PADDING, ATTACHMENT_SECTION_GAP. lia.
Qed.

(** The estimate of a card is a height the list can use: for any memo whose external
    links are URLs, any column and any number of reactions there is one, between 86
    pixels, a line of text, and 692, a folded body with reactions and three comments. *)
Theorem card_height_bounds (st : module_state) (memo : Memo) (reactions : nat) (columnWidth : Q)
    (Hlinks : forall a, a ∈ m_attachments memo -> link_ok a) :
  exists h, estimateMemoCardHeight st memo reactions columnWidth = Some h /\ 86 <= h <= 692.
Proof.
  unfold estimateMemoCardHeight. set (shown := fst (filterInlineManagedAttachments _ _ _)).
  destruct (section_height_total shown columnWidth) as (h & -> & Hh).
  { intros a Ha. apply Hlinks. eapply elem_of_sublist; [exact Ha|]. unfold shown, filterInlineManagedAttachments.
    destruct (extractManagedAttachmentUIDs st (m_content memo)) as [[|x xs] st']; [done|apply js_filter_sublist]. }
  eexists. split; [reflexivity|]. pose proof (comment_height_bounds memo).
  pose proof (text_height_min (m_content memo) columnWidth). assert (0 <= countMarkdownImages (m_content memo)) by (unfold countMarkdownImages; lia).
  unfold compact_height, CLAMP_TRIGGER_HEIGHT_PX, CLAMP_PREVIEW_HEIGHT_PX, SHOW_MORE_BUTTON_HEIGHT, CARD_VERTICAL_PADDING,
    CARD_HEADER_HEIGHT, CARD_SECTION_GAP, REACTION_ROW_HEIGHT, MARKDOWN_IMAGE_HEIGHT in *.
  destruct (_ && _), (0 <? reactions)%nat; (destruct (420 <? _) eqn:E; bool_prop; lia).
Qed.
End CardFacts.

(** ** A witness *)

#[local] Existing Instances MemoSave.plain_types ManagedAttachment.plain_page MediaItem.plain_params ManagedAttachment.plain_markdown
  ManagedAttachment.image_parser.

Example card_height_bounds_witness :
  exists h, estimateMemoCardHeight ManagedAttachment.initial sample_memo 2 400 = Some h /\ 86 <= h <= 692.
Proof.
  apply (card_height_bounds ManagedAttachment.initial sample_memo 2 400). intros a Ha. left.
  apply list_elem_of_singleton in Ha as ->. reflexivity.
Defined.

Example sample_height : estimateMemoCardHeight ManagedAttachment.initial sample_memo 2 400 = Some 442.
Proof. vm_compute. reflexivity. Qed.
