(* ===== verification/ColumnGrid.v ===== *)
(** * The column grid

    web/src/components/ColumnGrid/ColumnGrid.tsx: cards are assigned to columns by their
    estimated heights and placed by their measured ones.  The page is the width of the
    container and, for each mounted card, the height it takes at a width; pixels are
    integers, estimates rationals. *)

From Stdlib Require Import QArith Qminmax.
From S2P Require Import Prelude JSString.

Definition LEADING_KEY : jstring := u "__grid_leading__".
Definition GRID_MIN_COLUMN_WIDTH : Z := 260.
Definition GRID_GAP : Z := 12.

Definition columnCountForWidth (width : Z) : Z := Z.max 1 ((width + GRID_GAP) / (GRID_MIN_COLUMN_WIDTH + GRID_GAP)).

(** ** The planner *)

Definition height_at (heights : list Q) (i : nat) : Q := default 0%Q (heights !! i).
Definition shorter (a b : Q) : bool := negb (Qle_bool b a).
Definition shortestColumn (heights : list Q) : nat :=
  foldl (fun index i => if shorter (height_at heights i) (height_at heights index) then i else index) 0%nat (seq 1 (length heights - 1)).

(** One turn of the loop of [assignColumnsByEstimatedHeight]. *)
Definition assign_column (getEstimatedHeight : jstring -> Q) (pinned : jstring -> bool) (st : list Q * gmap jstring nat) (key : jstring) :
    list Q * gmap jstring nat :=
  let '(totals, columns) := st in
  let column := if pinned key then 0%nat else shortestColumn totals in
  (alter (fun t => t + Qmax 0 (getEstimatedHeight key))%Q column totals, <[key := column]> columns).
Definition assign_columns (getEstimatedHeight : jstring -> Q) (pinned : jstring -> bool) (columnCount : nat) (keys : list jstring) :
    list Q * gmap jstring nat :=
  foldl (assign_column getEstimatedHeight pinned) (replicate columnCount 0%Q, ∅) keys.
Definition assignColumnsByEstimatedHeight (keys : list jstring) (columnCount : nat) (getEstimatedHeight : jstring -> Q) (pinned : jstring -> bool) :
    gmap jstring nat := (assign_columns getEstimatedHeight pinned columnCount keys).2.

(** ** The layout *)

(** The styles [relayout] writes on a card: a place is a translation or a left and a top. *)
Inductive place := Translated (x y : Z) | LeftTop (x y : Z).
Record card_style := { style_width : Z; style_place : place }.

(** [itemRefs], each card with its height at a width, and the width of the container. *)
Record page := { clientWidth : Z; cards : gmap jstring (Z -> Z) }.
Record layout := { styles : gmap jstring card_style; containerHeight : Z }.

Section Grid.
Context {T : Type} (getKey : T -> jstring).

Record grid_props := {
  items : list T; estimateHeight : option (T -> Z -> Q); priorityKey : option jstring;
  maxColumns : option Z; maxColumnWidth : option Z; rtl : bool }.

Definition column_count (props : grid_props) (width : Z) : Z :=
  let fit := columnCountForWidth width in
  match maxColumns props with Some n => if 0 <? n then Z.min fit n else fit | None => fit end.
Definition column_width (props : grid_props) (width : Z) : Z :=
  let count := column_count props width in
  let columnWidth := if 1 <? count then (width - GRID_GAP * (count - 1)) / count else width in
  match maxColumnWidth props with Some m => Z.min columnWidth m | None => columnWidth end.
Definition offset_x (props : grid_props) (width : Z) : Z :=
  let count := column_count props width in (width - (column_width props width * count + GRID_GAP * (count - 1))) / 2.

(** The mounted cards in feed order. *)
Definition mounted (p : page) (key : jstring) : bool := bool_decide (is_Some (cards p !! key)).
Definition ordered (props : grid_props) (p : page) : list jstring := js_filter (mounted p) (LEADING_KEY :: map getKey (items props)).
(** [itemByKey]: of two items with a key the last. *)
Definition itemByKey (props : grid_props) (key : jstring) : option T := last (js_filter (fun item => js_eqb (getKey item) key) (items props)).
Definition heightOf (props : grid_props) (p : page) (key : jstring) : Z :=
  match cards p !! key with Some height => height (column_width props (clientWidth p)) | None => 0 end.
Definition getEstimatedHeight (props : grid_props) (p : page) (key : jstring) : Q :=
  match itemByKey props key, estimateHeight props with
  | Some item, Some estimate => estimate item (column_width props (clientWidth p))
  | _, _ => inject_Z (heightOf props p key)
  end.
Definition pinnedKeys (props : grid_props) (key : jstring) : bool :=
  js_eqb key LEADING_KEY || match priorityKey props with Some k => negb (js_eqb k []) && js_eqb key k | None => false end.
Definition columnOf (props : grid_props) (p : page) : gmap jstring nat :=
  assignColumnsByEstimatedHeight (ordered props p) (Z.to_nat (column_count props (clientWidth p))) (getEstimatedHeight props p) (pinnedKeys props).

Definition x_of (props : grid_props) (width : Z) (col : nat) : Z :=
  let inlineOffset := offset_x props width + Z.of_nat col * (column_width props width + GRID_GAP) in
  if rtl props then width - column_width props width - inlineOffset else inlineOffset.
(** The places: the running heights of the columns, and the place of each key. *)
Definition place_card (col : jstring -> nat) (x : nat -> Z) (height : jstring -> Z) (st : list Z * gmap jstring (Z * Z)) (key : jstring) :
    list Z * gmap jstring (Z * Z) :=
  let '(columnY, pos) := st in
  let y := default 0 (columnY !! col key) in
  (<[col key := y + height key + GRID_GAP]> columnY, <[key := (x (col key), y)]> pos).
Definition place_cards (col : jstring -> nat) (x : nat -> Z) (height : jstring -> Z) (count : nat) (keys : list jstring) :
    list Z * gmap jstring (Z * Z) :=
  foldl (place_card col x height) (replicate count 0, ∅) keys.
Definition positions (props : grid_props) (p : page) : list Z * gmap jstring (Z * Z) :=
  place_cards (fun key => default 0%nat (columnOf props p !! key)) (x_of props (clientWidth p)) (heightOf props p)
    (Z.to_nat (column_count props (clientWidth p))) (ordered props p).

Definition style_of (width : Z) (key : jstring) (target : Z * Z) : card_style :=
  {| style_width := width; style_place := if js_eqb key LEADING_KEY then LeftTop target.1 target.2 else Translated target.1 target.2 |}.
(** [relayout]. *)
Definition relayout (props : grid_props) (p : page) : layout :=
  let '(columnY, pos) := positions props p in
  {| styles := map_imap (fun key target => Some (style_of (column_width props (clientWidth p)) key target)) pos;
     containerHeight := foldr (fun h m => Z.max (h - GRID_GAP) m) 0 columnY |}.

(** ** Placing *)

Section Placing.
Context (col : jstring -> nat) (x : nat -> Z) (height : jstring -> Z) (count : nat).
Context (Hcol : forall key, (col key < count)%nat) (Hheight : forall key, 0 <= height key).

(** Every card placed has its column's x, lies above the running height of its column, and
    is above or below the others of the column with the gap between. *)
Record placed_well (keys : list jstring) (st : list Z * gmap jstring (Z * Z)) : Prop := {
  pw_length : length st.1 = count;
  pw_dom : forall key, is_Some (st.2 !! key) <-> key ∈ keys;
  pw_place : forall key q, st.2 !! key = Some q ->
    q.1 = x (col key) /\ 0 <= q.2 /\ exists h, st.1 !! col key = Some h /\ q.2 + height key + GRID_GAP <= h;
  pw_apart : forall k1 k2 q1 q2, k1 <> k2 -> st.2 !! k1 = Some q1 -> st.2 !! k2 = Some q2 -> col k1 = col k2 ->
    q1.2 + height k1 + GRID_GAP <= q2.2 \/ q2.2 + height k2 + GRID_GAP <= q1.2;
  pw_running : forall i h, st.1 !! i = Some h -> 0 <= h }.

Lemma place_card_well keys st key : key ∉ keys -> placed_well keys st -> placed_well (keys ++ [key]) (place_card col x height st key).
Proof.
  intros Hnew [H1 H2 H3 H4 H5]. destruct st as [columnY pos]. cbn [fst snd] in *.
  destruct (lookup_lt_is_Some_2 columnY (col key)) as [y Hy]; [rewrite H1; apply Hcol|].
  assert (pos !! key = None) as Hnone by (apply eq_None_not_Some; by rewrite H2).
  pose proof (Hheight key) as Hh. pose proof (H5 _ _ Hy) as Hy0.
  unfold place_card. rewrite Hy. cbn [default from_option id]. split; cbn [fst snd].
  - by rewrite length_insert.
  - intros k. destruct (decide (k = key)) as [->|Hne].
    + rewrite lookup_insert_eq, elem_of_app, list_elem_of_singleton. split; [by right|by eexists].
    + rewrite lookup_insert_ne by done. rewrite H2, elem_of_app, list_elem_of_singleton. naive_solver.
  - intros k q. destruct (decide (k = key)) as [->|Hne].
    + rewrite lookup_insert_eq. intros [= <-]. cbn [fst snd]. split; [done|]. split; [done|]. eexists.
      rewrite list_lookup_insert_eq by (rewrite H1; apply Hcol). split; [done|]. lia.
    + rewrite lookup_insert_ne by done. intros Hq. destruct (H3 k q Hq) as (E1 & E2 & h & Eh & El). split; [done|]. split; [done|].
      destruct (decide (col k = col key)) as [Ec|Ec].
      * rewrite Ec in *. rewrite Hy in Eh. injection Eh as <-. eexists.
        rewrite list_lookup_insert_eq by (rewrite H1; apply Hcol). split; [done|]. unfold GRID_GAP in *. lia.
      * exists h. rewrite list_lookup_insert_ne by done. done.
  - assert (forall k q, k <> key -> pos !! k = Some q -> col k = col key -> q.2 + height k + GRID_GAP <= y) as Hold.
    { intros k q _ Hq Ec. destruct (H3 k q Hq) as (_ & _ & h & Eh & El). rewrite Ec, Hy in Eh. by injection Eh as <-. }
    intros k1 k2 q1 q2 Hne E1 E2 Ec. destruct (decide (k1 = key)) as [->|N1].
    + rewrite lookup_insert_eq in E1. injection E1 as <-. rewrite lookup_insert_ne in E2 by done. right. cbn [snd].
      by apply (Hold k2 q2).
    + rewrite lookup_insert_ne in E1 by done. destruct (decide (k2 = key)) as [->|N2].
      * rewrite lookup_insert_eq in E2. injection E2 as <-. left. cbn [snd]. by apply (Hold k1 q1).
      * rewrite lookup_insert_ne in E2 by done. by apply (H4 k1 k2).
  - intros i h Hi. destruct (decide (i = col key)) as [->|Hne].
    + rewrite list_lookup_insert_eq in Hi by (rewrite H1; apply Hcol). injection Hi as <-. unfold GRID_GAP. lia.
    + rewrite list_lookup_insert_ne in Hi by done. by apply (H5 i).
Qed.
Lemma place_cards_well keys : NoDup keys -> placed_well keys (place_cards col x height count keys).
Proof.
  unfold place_cards. induction keys as [|key keys IH] using rev_ind; intros Hnd.
  - split; cbn; [apply length_replicate| | | |].
    + intros key. rewrite lookup_empty. split; [by intros [? [=]]|by intros ?%elem_of_nil].
    + intros key q. by rewrite lookup_empty.
    + intros k1 k2 q1 q2 _. by rewrite lookup_empty.
    + intros i h [-> _]%lookup_replicate. lia.
  - apply NoDup_app in Hnd as (Hnd & Hnew & _). rewrite foldl_app. cbn [foldl]. apply place_card_well; [|by apply IH].
    intros Hin. apply (Hnew key Hin). set_solver.
Qed.
End Placing.

Lemma container_bound (columnY : list Z) h : h ∈ columnY -> h - GRID_GAP <= foldr (fun h m => Z.max (h - GRID_GAP) m) 0 columnY.
Proof. induction columnY as [|a l IH]; [by intros ?%elem_of_nil|]. cbn [foldr]. intros [->|Hin]%elem_of_cons; [lia|]. specialize (IH Hin). lia. Qed.

(** ** Columns *)

Lemma shortestColumn_spec totals : totals <> [] ->
  (shortestColumn totals < length totals)%nat
  /\ forall i, (i < length totals)%nat -> (height_at totals (shortestColumn totals) <= height_at totals i)%Q.
Proof.
  intros Hne. destruct totals as [|t0 ts] eqn:E; [done|]. rewrite <- E in *. unfold shortestColumn. assert (1 <= length totals)%nat as Hl by (rewrite E; cbn; lia).
  set (f := fun index i => if shorter (height_at totals i) (height_at totals index) then i else index).
  assert (forall n, (n <= length totals - 1)%nat -> let r := foldl f 0%nat (seq 1 n) in
    (r <= n)%nat /\ forall i, (i <= n)%nat -> (height_at totals r <= height_at totals i)%Q) as H.
  { induction n as [|n IH]; intros Hn.
    - cbn. split; [done|]. intros i Hi. replace i with 0%nat by lia. apply Qle_refl.
    - rewrite seq_S, foldl_app. cbn [foldl]. destruct (IH ltac:(lia)) as [H1 H2]. set (r := foldl f 0%nat (seq 1 n)) in *.
      unfold f, shorter. destruct (Qle_bool (height_at totals r) (height_at totals (1 + n))) eqn:Eq; cbn [negb].
      + apply Qle_bool_iff in Eq. split; [lia|]. intros i Hi. destruct (decide (i = S n)) as [->|]; [done|]. apply H2. lia.
      + assert (height_at totals (1 + n) <= height_at totals r)%Q as Hlt.
        { apply Qlt_le_weak, Qnot_le_lt. intros Hc. apply Qle_bool_iff in Hc. congruence. }
        split; [lia|]. intros i Hi. destruct (decide (i = S n)) as [->|]; [apply Qle_refl|].
        eapply Qle_trans; [exact Hlt|]. apply H2. lia. }
  destruct (H (length totals - 1)%nat ltac:(done)) as [H1 H2]. split; [lia|]. intros i Hi. apply H2. lia.
Qed.

Lemma assign_columns_bounded est pinned count keys : (0 < count)%nat ->
  let st := assign_columns est pinned count keys in
  length st.1 = count /\ forall key c, st.2 !! key = Some c -> (c < count)%nat.
Proof.
  intros Hc. unfold assign_columns. induction keys as [|key keys IH] using rev_ind.
  - cbn. split; [apply length_replicate|]. intros key c. by rewrite lookup_empty.
  - rewrite foldl_app. cbn [foldl]. destruct (foldl _ _ keys) as [totals columns]. destruct IH as [H1 H2]. cbn [fst snd] in *.
    assert ((if pinned key then 0%nat else shortestColumn totals) < count)%nat as Hlt.
    { destruct (pinned key); [done|]. rewrite <- H1. apply shortestColumn_spec. intros ->. cbn in H1. lia. }
    unfold assign_column. cbn [fst snd]. split; [by rewrite length_alter|]. intros k c.
    destruct (decide (k = key)) as [->|Hne]; [rewrite lookup_insert_eq; by intros [= <-]|]. rewrite lookup_insert_ne by done. apply H2.
Qed.
Lemma assign_columns_dom est pinned count keys key : is_Some ((assign_columns est pinned count keys).2 !! key) <-> key ∈ keys.
Proof.
  unfold assign_columns. induction keys as [|k keys IH] using rev_ind.
  - cbn. rewrite lookup_empty. split; [by intros [? [=]]|by intros ?%elem_of_nil].
  - rewrite foldl_app. cbn [foldl]. destruct (foldl _ _ keys) as [totals columns]. cbn [fst snd] in *. unfold assign_column. cbn [snd].
    rewrite elem_of_app, list_elem_of_singleton. destruct (decide (key = k)) as [->|Hne].
    + rewrite lookup_insert_eq. split; [by right|by eexists].
    + rewrite lookup_insert_ne by done. rewrite IH. naive_solver.
Qed.
Lemma assign_columns_ext est1 est2 pinned count keys : (forall key, key ∈ keys -> est1 key = est2 key) ->
  assign_columns est1 pinned count keys = assign_columns est2 pinned count keys.
Proof.
  unfold assign_columns. generalize (replicate count 0%Q, ∅ : gmap jstring nat). induction keys as [|key keys IH]; intros st H; [done|].
  cbn [foldl]. replace (assign_column est2 pinned st key) with (assign_column est1 pinned st key).
  - apply IH. intros k Hk. apply H. by right.
  - destruct st. unfold assign_column. by rewrite (H key) by (left).
Qed.

(** ** Widths *)

Lemma column_count_bounds (props : grid_props) width : 1 <= column_count props width <= columnCountForWidth width.
Proof. unfold column_count, columnCountForWidth. destruct (maxColumns props) as [n|]; [destruct (0 <? n) eqn:E|]; bool_prop; lia. Qed.
Definition sane_props (props : grid_props) : Prop := match maxColumnWidth props with Some m => 0 <= m | None => True end.

Lemma columns_fit (props : grid_props) width : sane_props props -> 0 <= width ->
  let count := column_count props width in
  0 <= column_width props width /\ 0 <= offset_x props width
  /\ offset_x props width + (column_width props width * count + GRID_GAP * (count - 1)) <= width.
Proof.
  intros Hs Hw count. pose proof (column_count_bounds props width) as [Hlo Hhi]. fold count in Hlo, Hhi.
  set (full := if 1 <? count then (width - GRID_GAP * (count - 1)) / count else width).
  assert (0 <= full /\ full * count + GRID_GAP * (count - 1) <= width) as [Hf0 Hf].
  { unfold full. destruct (1 <? count) eqn:E; bool_prop.
    - assert (260 * count <= width - GRID_GAP * (count - 1)) as Hle.
      { unfold columnCountForWidth, GRID_GAP, GRID_MIN_COLUMN_WIDTH in *. pose proof (Z.mul_div_le (width + 12) (260 + 12) ltac:(lia)). lia. }
      split; [apply Z.div_pos; lia|]. pose proof (Z.mul_div_le (width - GRID_GAP * (count - 1)) count ltac:(lia)). lia.
    - replace count with 1 by lia. lia. }
  assert (0 <= column_width props width <= full) as Hcw.
  { unfold column_width. fold count full. unfold sane_props in Hs. destruct (maxColumnWidth props); lia. }
  assert (column_width props width * count + GRID_GAP * (count - 1) <= width) as Htotal by nia.
  split; [lia|]. unfold offset_x. fold count.
  set (total := column_width props width * count + GRID_GAP * (count - 1)) in *.
  split; [apply Z.div_pos; lia|]. pose proof (Z.mul_div_le (width - total) 2 ltac:(lia)). lia.
Qed.

Lemma x_of_within (props : grid_props) width c : sane_props props -> 0 <= width -> Z.of_nat c < column_count props width ->
  0 <= x_of props width c /\ x_of props width c + column_width props width <= width.
Proof.
  intros Hs Hw Hc. destruct (columns_fit props width Hs Hw) as (H1 & H2 & H3). unfold x_of, GRID_GAP in *. destruct (rtl props); split; nia.
Qed.
Lemma x_of_apart (props : grid_props) width c1 c2 : sane_props props -> 0 <= width -> c1 <> c2 ->
  let w := column_width props width in
  x_of props width c1 + w + GRID_GAP <= x_of props width c2 \/ x_of props width c2 + w + GRID_GAP <= x_of props width c1.
Proof.
  intros Hs Hw Hne. destruct (columns_fit props width Hs Hw) as (H1 & _ & _). unfold x_of, GRID_GAP in *.
  destruct (decide (c1 < c2)%nat); destruct (rtl props); cbn; nia.
Qed.

(** ** The grid *)

Definition style_x (s : card_style) : Z := match style_place s with Translated x _ | LeftTop x _ => x end.
Definition style_y (s : card_style) : Z := match style_place s with Translated _ y | LeftTop _ y => y end.
(** Two cards of a grid with the gap between them. *)
Definition apart (s1 s2 : card_style) (h1 h2 : Z) : Prop :=
  style_x s1 + style_width s1 + GRID_GAP <= style_x s2 \/ style_x s2 + style_width s2 + GRID_GAP <= style_x s1
  \/ style_y s1 + h1 + GRID_GAP <= style_y s2 \/ style_y s2 + h2 + GRID_GAP <= style_y s1.
Definition sane_page (p : page) : Prop := 0 <= clientWidth p /\ forall key height w, cards p !! key = Some height -> 0 <= height w.

Lemma heightOf_nonneg props p key : sane_page p -> 0 <= heightOf props p key.
Proof. intros [_ H]. unfold heightOf. destruct (cards p !! key) eqn:E; [|done]. by eapply H. Qed.
Lemma ordered_NoDup props p : NoDup (LEADING_KEY :: map getKey (items props)) -> NoDup (ordered props p).
Proof. intros H. unfold ordered. eapply sublist_NoDup; [exact H|]. apply js_filter_sublist. Qed.
Lemma columnOf_bounded props p key : (default 0%nat (columnOf props p !! key) < Z.to_nat (column_count props (clientWidth p)))%nat.
Proof.
  pose proof (column_count_bounds props (clientWidth p)) as [Hc _].
  destruct (assign_columns_bounded (getEstimatedHeight props p) (pinnedKeys props) (Z.to_nat (column_count props (clientWidth p))) (ordered props p)) as [_ H]; [lia|].
  unfold columnOf, assignColumnsByEstimatedHeight. destruct (_ !! key) as [c|] eqn:E; cbn; [by eapply H|lia].
Qed.
Lemma style_of_xy width key target : style_x (style_of width key target) = target.1 /\ style_y (style_of width key target) = target.2.
Proof. unfold style_of, style_x, style_y. cbn [style_place]. by destruct (js_eqb key LEADING_KEY). Qed.
Lemma relayout_styles props p key : styles (relayout props p) !! key = style_of (column_width props (clientWidth p)) key <$> (positions props p).2 !! key.
Proof. unfold relayout. destruct (positions props p) as [columnY pos]. cbn. rewrite map_lookup_imap. by destruct (pos !! key). Qed.
Lemma positions_well props p : sane_page p -> NoDup (LEADING_KEY :: map getKey (items props)) ->
  placed_well (fun key => default 0%nat (columnOf props p !! key)) (x_of props (clientWidth p)) (heightOf props p)
    (Z.to_nat (column_count props (clientWidth p))) (ordered props p) (positions props p).
Proof.
  intros Hp Hnd. apply place_cards_well; [apply columnOf_bounded|intros key; by apply heightOf_nonneg|by apply ordered_NoDup].
Qed.

(** C7. The cards of the grid never overlap: with keys of their own, every mounted card gets
    a place inside the container, within its width and above its height, and any two cards
    are separated by the gap, whatever the columns, the caps, the direction of the text, the
    estimates and the measured heights. *)
Theorem cards_apart (props : grid_props) (p : page) (Hs : sane_props props) (Hp : sane_page p)
    (Hnd : NoDup (LEADING_KEY :: map getKey (items props))) :
  (forall key, key ∈ ordered props p -> exists s, styles (relayout props p) !! key = Some s
     /\ 0 <= style_x s /\ style_x s + style_width s <= clientWidth p
     /\ 0 <= style_y s /\ style_y s + heightOf props p key <= containerHeight (relayout props p))
  /\ (forall k1 k2 s1 s2, k1 <> k2 -> styles (relayout props p) !! k1 = Some s1 -> styles (relayout props p) !! k2 = Some s2 ->
        apart s1 s2 (heightOf props p k1) (heightOf props p k2)).
Proof.
  pose proof (positions_well props p Hp Hnd) as Hw. destruct Hp as [Hwidth Hheights]. split.
  - intros key Hkey. apply (pw_dom _ _ _ _ _ _ Hw) in Hkey as [q Hq]. rewrite relayout_styles, Hq. cbn [fmap option_fmap option_map].
    eexists. split; [done|]. destruct (style_of_xy (column_width props (clientWidth p)) key q) as [-> ->]. cbn [style_width style_of].
    destruct (pw_place _ _ _ _ _ _ Hw key q Hq) as (Ex & Hy & h & Eh & Hle).
    destruct (x_of_within props (clientWidth p) (default 0%nat (columnOf props p !! key)) Hs Hwidth) as [Hx1 Hx2].
    { pose proof (columnOf_bounded props p key). pose proof (column_count_bounds props (clientWidth p)). lia. }
    rewrite Ex. split_and!; [done|done|done|]. unfold relayout. destruct (positions props p) as [columnY pos]. cbn [containerHeight] in *.
    pose proof (container_bound columnY h ltac:(by eapply list_elem_of_lookup_2)). unfold GRID_GAP in *. lia.
  - intros k1 k2 s1 s2 Hne E1 E2. rewrite relayout_styles in E1, E2.
    destruct ((positions props p).2 !! k1) as [q1|] eqn:Q1; [|done]. destruct ((positions props p).2 !! k2) as [q2|] eqn:Q2; [|done].
    cbn [fmap option_fmap option_map] in E1, E2. injection E1 as <-. injection E2 as <-. unfold apart.
    destruct (style_of_xy (column_width props (clientWidth p)) k1 q1) as [-> ->]. destruct (style_of_xy (column_width props (clientWidth p)) k2 q2) as [-> ->].
    cbn [style_width style_of]. destruct (decide (default 0%nat (columnOf props p !! k1) = default 0%nat (columnOf props p !! k2))) as [Ec|Ec].
    + destruct (pw_apart _ _ _ _ _ _ Hw k1 k2 q1 q2 Hne Q1 Q2 Ec); auto.
    + destruct (pw_place _ _ _ _ _ _ Hw k1 q1 Q1) as (-> & _). destruct (pw_place _ _ _ _ _ _ Hw k2 q2 Q2) as (-> & _).
      destruct (x_of_apart props (clientWidth p) _ _ Hs Hwidth Ec); auto.
Qed.

(** *** Cards that grow *)

Lemma place_cards_mono col x (h1 h2 : jstring -> Z) count keys : (forall key, h1 key <= h2 key) ->
  let st1 := place_cards col x h1 count keys in
  let st2 := place_cards col x h2 count keys in
  (forall i, default 0 (st1.1 !! i) <= default 0 (st2.1 !! i)) /\ length st1.1 = length st2.1
  /\ forall key q1 q2, st1.2 !! key = Some q1 -> st2.2 !! key = Some q2 -> q1.1 = q2.1 /\ q1.2 <= q2.2.
Proof.
  intros Hh. unfold place_cards. induction keys as [|key keys IH] using rev_ind.
  - cbn. split_and!; [done|done|]. intros key q1 q2. by rewrite lookup_empty.
  - rewrite !foldl_app. cbn [foldl]. destruct (foldl _ _ keys) as [c1 p1]. destruct (foldl (place_card col x h2) _ keys) as [c2 p2].
    destruct IH as (H1 & H2 & H3). cbn [fst snd] in *. unfold place_card. cbn [fst snd]. split_and!.
    + intros i. pose proof (H1 (col key)) as Hk. specialize (Hh key). destruct (decide (i = col key)) as [->|Hne].
      * destruct (decide (col key < length c1)%nat) as [Hlt|Hge].
        -- rewrite !list_lookup_insert_eq by lia. cbn. lia.
        -- rewrite !list_insert_ge by lia. done.
      * rewrite !list_lookup_insert_ne by done. apply H1.
    + by rewrite !length_insert.
    + intros k q1 q2. destruct (decide (k = key)) as [->|Hne].
      * rewrite !lookup_insert_eq. intros [= <-] [= <-]. cbn. split; [done|apply H1].
      * rewrite !lookup_insert_ne by done. apply H3.
Qed.

(** A card never changes column because cards grew: when heights only increase, as
    pictures and comments load, every card keeps its width and its x and none moves up,
    provided heights are estimated and the leading tile keeps its height. *)
Theorem growth_keeps_columns (props : grid_props) (p p' : page) (estimate : T -> Z -> Q) (Hest : estimateHeight props = Some estimate)
    (Hwidth : clientWidth p' = clientWidth p) (Hmounted : forall key, mounted p' key = mounted p key)
    (Hlead : heightOf props p' LEADING_KEY = heightOf props p LEADING_KEY)
    (Hgrow : forall key, heightOf props p key <= heightOf props p' key) :
  columnOf props p' = columnOf props p
  /\ forall key s s', styles (relayout props p) !! key = Some s -> styles (relayout props p') !! key = Some s' ->
       style_width s' = style_width s /\ style_x s' = style_x s /\ style_y s <= style_y s'.
Proof.
  assert (ordered props p' = ordered props p) as Hord by (apply js_filter_ext; intros key _; apply Hmounted).
  assert (columnOf props p' = columnOf props p) as Hcol.
  { unfold columnOf, assignColumnsByEstimatedHeight. rewrite Hord, Hwidth. f_equal. apply assign_columns_ext. intros key Hkey.
    unfold getEstimatedHeight. rewrite Hest, Hwidth. destruct (itemByKey props key) as [item|] eqn:E; [done|].
    unfold ordered in Hkey. apply js_filter_In in Hkey as [Hkey _]. apply elem_of_cons in Hkey as [->|Hkey]; [by rewrite Hlead|].
    exfalso. apply list_elem_of_fmap in Hkey as (item & -> & Hin). unfold itemByKey in E. apply last_None in E.
    assert (item ∈ js_filter (fun i => js_eqb (getKey i) (getKey item)) (items props)) as Hc by (apply js_filter_In; split; [done|apply js_eqb_refl]).
    rewrite E in Hc. by apply elem_of_nil in Hc. }
  split; [done|]. intros key s s' E1 E2. rewrite relayout_styles in E1, E2. unfold positions in E1, E2. rewrite Hcol, Hord, Hwidth in E2.
  pose proof (place_cards_mono (fun k => default 0%nat (columnOf props p !! k)) (x_of props (clientWidth p)) (heightOf props p) (heightOf props p')
    (Z.to_nat (column_count props (clientWidth p))) (ordered props p) Hgrow) as (_ & _ & Hm).
  destruct ((place_cards _ _ (heightOf props p) _ _).2 !! key) as [q1|] eqn:Q1; [|done].
  destruct ((place_cards _ _ (heightOf props p') _ _).2 !! key) as [q2|] eqn:Q2; [|done].
  cbn [fmap option_fmap option_map] in E1, E2. injection E1 as <-. injection E2 as <-. destruct (Hm key q1 q2 Q1 Q2) as [Hx Hy].
  destruct (style_of_xy (column_width props (clientWidth p)) key q1) as [-> ->]. destruct (style_of_xy (column_width props (clientWidth p)) key q2) as [-> ->].
  by cbn [style_width style_of].
Qed.

(** *** Balance *)

Lemma height_at_alter (totals : list Q) (f : Q -> Q) i j : (j < length totals)%nat ->
  height_at (alter f i totals) j = if decide (i = j) then f (height_at totals j) else height_at totals j.
Proof.
  intros Hj. unfold height_at. destruct (decide (i = j)) as [->|Hne]; [|by rewrite list_lookup_alter_ne].
  rewrite list_lookup_alter_eq. by destruct (lookup_lt_is_Some_2 _ _ Hj) as [t ->].
Qed.
Lemma assign_columns_length est pinned count keys : length (assign_columns est pinned count keys).1 = count.
Proof.
  unfold assign_columns. induction keys as [|key keys IH] using rev_ind; [apply length_replicate|]. rewrite foldl_app. cbn [foldl].
  destruct (foldl _ _ keys) as [totals columns]. unfold assign_column. cbn [fst] in *. by rewrite length_alter.
Qed.

(** C8. The columns are balanced: no column that holds only cards put where there was most
    room is taller than another by more than one card, by the estimates.  With nothing
    pinned that is every column; otherwise every column but the first. *)
Theorem columns_balanced (est : jstring -> Q) (pinned : jstring -> bool) (count : nat) (keys : list jstring) (tallest : Q)
    (Htall : forall key, key ∈ keys -> (Qmax 0 (est key) <= tallest)%Q) (Hpos : (0 <= tallest)%Q) (i j : nat) (Hi : (i < count)%nat) (Hj : (j < count)%nat)
    (Hfree : i <> 0%nat \/ forall key, key ∈ keys -> pinned key = false) :
  let totals := (assign_columns est pinned count keys).1 in (height_at totals i <= height_at totals j + tallest)%Q.
Proof.
  revert i j Hi Hj Hfree. induction keys as [|key keys IH] using rev_ind; intros i j Hi Hj Hfree.
  - cbn. unfold height_at. rewrite !lookup_replicate_2 by done. cbn. by rewrite Qplus_0_l.
  - assert (forall k, k ∈ keys -> (Qmax 0 (est k) <= tallest)%Q) as Ht by (intros k Hk; apply Htall; set_solver).
    assert (i <> 0%nat \/ forall k, k ∈ keys -> pinned k = false) as Hf by (destruct Hfree as [|Hfree]; [by left|right; intros k Hk; apply Hfree; set_solver]).
    pose proof (assign_columns_length est pinned count keys) as Hlen. unfold assign_columns in *. rewrite foldl_app. cbn [foldl].
    specialize (IH Ht). destruct (foldl _ _ keys) as [totals columns]. cbn [fst] in *. unfold assign_column. cbn [fst].
    rewrite !height_at_alter by lia. set (c := if pinned key then 0%nat else shortestColumn totals).
    pose proof (IH i j Hi Hj Hf) as Hij. assert (Qmax 0 (est key) <= tallest)%Q as Hk by (apply Htall; set_solver).
    pose proof (Q.le_max_l 0 (est key)) as H0.
    destruct (decide (c = i)) as [Ei|Ni], (decide (c = j)) as [Ej|Nj].
    + rewrite <- Ei, <- Ej. rewrite <- (Qplus_0_r (_ + Qmax 0 (est key))) at 1. by apply Qplus_le_r.
    + assert (pinned key = false) as Hp.
      { destruct (pinned key) eqn:Ep; [|done]. unfold c in Ei. destruct Hfree as [Hn|Hn]; [by subst i|]. rewrite Hn in Ep; [done|set_solver]. }
      unfold c in Ei. rewrite Hp in Ei. destruct (shortestColumn_spec totals) as [_ Hs]; [intros ->; cbn in Hlen; lia|].
      apply Qplus_le_compat; [|done]. rewrite <- Ei. apply Hs. lia.
    + eapply Qle_trans; [exact Hij|]. apply Qplus_le_l. rewrite <- (Qplus_0_r (height_at totals j)) at 1. by apply Qplus_le_r.
    + done.
Qed.
End Grid.

(** ** A wall of cards *)

Definition sample_props : grid_props (T := jstring) := {|
  items := [u "a"; u "b"; u "c"; u "d"]; estimateHeight := Some (fun key _ => if js_eqb key (u "a") then 100%Q else 80%Q);
  priorityKey := Some (u "c"); maxColumns := Some 2; maxColumnWidth := Some 420; rtl := false |}.
Definition sample_page (composer picture : Z) : page := {|
  clientWidth := 1000;
  cards := <[LEADING_KEY := fun _ => composer]> (<[u "a" := fun _ => picture]> (<[u "b" := fun _ => 80]> (<[u "c" := fun _ => 70]> {[u "d" := fun _ => 60]}))) |}.
Definition same_key (key : jstring) : jstring := key.

Lemma sample_keys : NoDup (LEADING_KEY :: map same_key (items sample_props)).
Proof. apply (bool_decide_unpack _). vm_compute. exact I. Qed.
Lemma sample_page_sane composer picture : 0 <= composer -> 0 <= picture -> sane_page (sample_page composer picture).
Proof.
  intros Hc Hp. split; [done|]. intros key height w. unfold sample_page. cbn [cards].
  rewrite !lookup_insert_Some, lookup_singleton_Some. intros H. repeat (destruct H as [[_ <-]|[_ H]]; [lia|]). destruct H as [_ <-]. lia.
Qed.

Lemma cards_apart_witness :
  exists s1 s2, styles (relayout same_key sample_props (sample_page 50 120)) !! u "a" = Some s1
  /\ styles (relayout same_key sample_props (sample_page 50 120)) !! u "c" = Some s2 /\ apart s1 s2 120 70.
Proof.
  destruct (cards_apart same_key sample_props (sample_page 50 120) ltac:(done) (sample_page_sane 50 120 ltac:(lia) ltac:(lia)) sample_keys) as [H1 H2].
  destruct (H1 (u "a")) as (s1 & E1 & _); [apply (bool_decide_unpack _); vm_compute; exact I|].
  destruct (H1 (u "c")) as (s2 & E2 & _); [apply (bool_decide_unpack _); vm_compute; exact I|].
  exists s1, s2. split; [exact E1|]. split; [exact E2|]. apply (H2 (u "a") (u "c") s1 s2); [discriminate|exact E1|exact E2].
Defined.

Lemma growth_keeps_columns_witness :
  columnOf same_key sample_props (sample_page 50 400) = columnOf same_key sample_props (sample_page 50 120).
Proof.
  apply (growth_keeps_columns same_key sample_props (sample_page 50 120) (sample_page 50 400) (fun key _ => if js_eqb key (u "a") then 100%Q else 80%Q)); try reflexivity.
  - intros key. unfold mounted. apply bool_decide_ext. unfold sample_page. cbn [cards].
    destruct (decide (key = LEADING_KEY)) as [->|N1]; [by rewrite !lookup_insert_eq|]. rewrite !(lookup_insert_ne _ LEADING_KEY) by done.
    destruct (decide (key = u "a")) as [->|N2]; [by rewrite !lookup_insert_eq|]. by rewrite !(lookup_insert_ne _ (u "a")) by done.
  - intros key. unfold heightOf, sample_page. cbn [cards].
    destruct (decide (key = LEADING_KEY)) as [->|N1]; [by rewrite !lookup_insert_eq|]. rewrite !(lookup_insert_ne _ LEADING_KEY) by done.
    destruct (decide (key = u "a")) as [->|N2]; [rewrite !lookup_insert_eq; lia|]. by rewrite !(lookup_insert_ne _ (u "a")) by done.
Defined.

Lemma columns_balanced_witness :
  (height_at (assign_columns (fun _ => 7 # 2)%Q (fun _ => false) 2 [u "a"; u "b"; u "c"]).1 0
   <= height_at (assign_columns (fun _ => 7 # 2)%Q (fun _ => false) 2 [u "a"; u "b"; u "c"]).1 1 + (7 # 2))%Q.
Proof.
  apply (columns_balanced (fun _ => 7 # 2)%Q (fun _ => false) 2 [u "a"; u "b"; u "c"] (7 # 2)%Q); [|discriminate|lia|lia|right; reflexivity].
  intros key _. discriminate.
Defined.

(** The composer's own height is measured, so its growth does move cards to other columns. *)
Example composer_moves_cards :
  columnOf same_key sample_props (sample_page 50 120) !! u "b" = Some 0%nat /\ columnOf same_key sample_props (sample_page 300 120) !! u "b" = Some 1%nat.
Proof. split; vm_compute; reflexivity. Qed.
Example sample_columns :
  columnOf same_key sample_props (sample_page 50 120) = <[LEADING_KEY := 0%nat]> (<[u "a" := 1%nat]> (<[u "b" := 0%nat]> (<[u "c" := 0%nat]> {[u "d" := 1%nat]}))).
Proof. vm_compute. reflexivity. Qed.
