(* ===== verification/MemoQueries.v ===== *)
(** * The cache of memos

    web/src/hooks/useMemoQueries.ts: the keys under which memos are cached, patching every
    cached copy of a memo, and what creating, updating (optimistically), deleting and
    viewing a memo do to the cache.  The query library's client is the interface
    [QueryClient] with the laws its documentation states; a cache kept as a list of
    entries implements it. *)

From S2P Require Import Prelude JSString.

(** The values of a memo's fields, the filters of a list request, and the data other
    queries keep, none of which the code looks into. *)
Class MemoTypes := {
  value : Type;
  filters : Type;
  filters_eq_dec :: EqDecision filters;
  other_data : Type;
}.

Section Data.
Context {types : MemoTypes}.

(** ** Keys *)

Inductive KeyPart := Text (s : jstring) | Filters (f : filters) | Number (n : Z).
#[export] Instance key_part_eq_dec : EqDecision KeyPart.
Proof. solve_decision. Defined.
Definition QueryKey : Type := list KeyPart.

Definition all : QueryKey := [Text (u "memos")].
Definition lists : QueryKey := all ++ [Text (u "list")].
Definition list_key (f : filters) : QueryKey := lists ++ [Filters f].
Definition details : QueryKey := all ++ [Text (u "detail")].
Definition detail (name : jstring) : QueryKey := details ++ [Text name].
Definition comments (name : jstring) : QueryKey := all ++ [Text (u "comments"); Text name].
Definition linkMetadata (url : jstring) : QueryKey := all ++ [Text (u "linkMetadata"); Text url].
Definition stats : QueryKey := [Text (u "users"); Text (u "stats")].
Definition attachment_lists : QueryKey := [Text (u "attachments"); Text (u "list")].
Definition trash : QueryKey := [Text (u "trash")].

(** ** Data *)

(** A memo, or a part of one: its own fields, by name, with the one the code compares. *)
Record Memo := { name : jstring; fields : gmap jstring value }.
Definition MemoPatch : Type := Memo.
(** [{ ...memo, ...update }]. *)
Definition spread (memo : Memo) (update : MemoPatch) : Memo := {| name := name update; fields := fields update ∪ fields memo |}.

Record ListMemosResponse := { memos : list Memo; nextPageToken : jstring }.
Inductive QueryData :=
  | MemoData (memo : Memo)
  | ListData (response : ListMemosResponse)
  | InfiniteData (pages : list ListMemosResponse) (pageParams : list jstring)
  | OtherData (data : other_data).

Definition patchMemoListResponse (response : ListMemosResponse) (update : MemoPatch) : ListMemosResponse * bool :=
  let changed := existsb (fun memo => js_eqb (name memo) (name update)) (memos response) in
  let memos' := map (fun memo => if negb (js_eqb (name memo) (name update)) then memo else spread memo update) (memos response) in
  (if changed then {| memos := memos'; nextPageToken := nextPageToken response |} else response, changed).

Definition patchMemoListQueryData (data : QueryData) (update : MemoPatch) : QueryData :=
  match data with
  | ListData response => ListData (fst (patchMemoListResponse response update))
  | InfiniteData pages pageParams =>
      let patched := map (fun page => patchMemoListResponse page update) pages in
      if existsb snd patched then InfiniteData (map fst patched) pageParams else data
  | _ => data
  end.

Definition findMemoInListResponse (response : ListMemosResponse) (n : jstring) : option Memo :=
  js_find (fun memo => js_eqb (name memo) n) (memos response).
Fixpoint find_in_pages (pages : list ListMemosResponse) (n : jstring) : option Memo :=
  match pages with
  | [] => None
  | page :: pages' => match findMemoInListResponse page n with Some memo => Some memo | None => find_in_pages pages' n end
  end.
Definition findMemoInQueryData (data : QueryData) (n : jstring) : option Memo :=
  match data with
  | ListData response => findMemoInListResponse response n
  | InfiniteData pages _ => find_in_pages pages n
  | _ => None
  end.

(** The parameter of the page after the last one. *)
Definition getNextPageParam (lastPage : ListMemosResponse) : option jstring :=
  match nextPageToken lastPage with [] => None | token => Some token end.
(** The memos of all the pages of comments. *)
Definition select_memos (pages : list ListMemosResponse) : list Memo := pages ≫= memos.
End Data.

(** ** The query client *)

Class QueryClient {types : MemoTypes} := {
  cache : Type;
  getQueryData : cache -> QueryKey -> option QueryData;
  getQueriesData : cache -> QueryKey -> list (QueryKey * QueryData);
  setQueryData : cache -> QueryKey -> QueryData -> cache;
  setQueriesData : cache -> QueryKey -> (QueryData -> QueryData) -> cache;
  cancelQueries : cache -> QueryKey -> cache;
  invalidateQueries : cache -> QueryKey -> cache;
  removeQueries : cache -> QueryKey -> cache;
  isInvalidated : cache -> QueryKey -> bool;
}.

(** A key matches the keys it begins. *)
Definition matches {types : MemoTypes} (filter key : QueryKey) : bool := bool_decide (filter `prefix_of` key).

(** What the documentation of the client says of its operations: data set is the data
    found, at the keys that match; it makes a query valid; invalidating changes no data. *)
Class QueryClientLaws {types : MemoTypes} (client : QueryClient) : Prop := {
  get_set c k d k' : getQueryData (setQueryData c k d) k' = if bool_decide (k = k') then Some d else getQueryData c k';
  get_set_all c f update k : getQueryData (setQueriesData c f update) k =
    if matches f k then update <$> getQueryData c k else getQueryData c k;
  get_all c f k d : (k, d) ∈ getQueriesData c f <-> matches f k = true /\ getQueryData c k = Some d;
  get_cancel c f k : getQueryData (cancelQueries c f) k = getQueryData c k;
  get_invalidate c f k : getQueryData (invalidateQueries c f) k = getQueryData c k;
  get_remove c f k : getQueryData (removeQueries c f) k = if matches f k then None else getQueryData c k;
  invalid_set c k d k' : isInvalidated (setQueryData c k d) k' = if bool_decide (k = k') then false else isInvalidated c k';
  invalid_invalidate c f k : is_Some (getQueryData c k) -> isInvalidated (invalidateQueries c f) k = isInvalidated c k || matches f k;
}.

Section Hooks.
Context {types : MemoTypes} {client : QueryClient}.

Definition findMemoInCollectionQueries (c : cache) (n : jstring) : option Memo :=
  head (omap (fun query => findMemoInQueryData query.2 n) (getQueriesData c all)).
Definition patchMemoInCollectionQueries (c : cache) (update : MemoPatch) : cache :=
  setQueriesData c all (fun data => patchMemoListQueryData data update).
Definition invalidate_all (keys : list QueryKey) (c : cache) : cache := foldl invalidateQueries c keys.

Definition memo_of (data : option QueryData) : option Memo := match data with Some (MemoData memo) => Some memo | _ => None end.

(** *** [useRecordMemoView] *)
Definition record_view_success (c : cache) (n : jstring) (viewCount : value) : cache :=
  let update := {| name := n; fields := {[u "viewCount" := viewCount]} |} in
  let c := match memo_of (getQueryData c (detail n)) with
           | Some memo => setQueryData c (detail n) (MemoData {| name := name memo; fields := <[u "viewCount" := viewCount]> (fields memo) |})
           | None => c
           end in
  patchMemoInCollectionQueries c update.

(** *** [useCreateMemo] *)
Definition create_success (c : cache) (newMemo : Memo) : cache :=
  let c := invalidateQueries c lists in
  let c := setQueryData c (detail (name newMemo)) (MemoData newMemo) in
  invalidate_all [stats; attachment_lists] c.

(** *** [useUpdateMemo] *)

(** [onMutate], of an update with the name of a memo or without: the context and the cache. *)
Definition onMutate (c : cache) (update_name : option jstring) (changes : gmap jstring value) : option Memo * cache :=
  match update_name with
  | None | Some [] => (None, c)
  | Some n =>
      let c := cancelQueries c all in
      let previousMemo := match memo_of (getQueryData c (detail n)) with
                          | Some memo => Some memo
                          | None => findMemoInCollectionQueries c n
                          end in
      let memoPatch := {| name := n; fields := changes |} in
      let c := match previousMemo with
               | Some memo => setQueryData c (detail n) (MemoData (spread memo memoPatch))
               | None => c
               end in
      (previousMemo, patchMemoInCollectionQueries c memoPatch)
  end.

Definition onError (c : cache) (update_name : option jstring) (previousMemo : option Memo) : cache :=
  match previousMemo, update_name with
  | Some memo, Some (ch :: n) => patchMemoInCollectionQueries (setQueryData c (detail (ch :: n)) (MemoData memo)) memo
  | _, _ => invalidateQueries c all
  end.

Definition onSuccess (c : cache) (updatedMemo : Memo) (parent : option jstring) : cache :=
  let c := setQueryData c (detail (name updatedMemo)) (MemoData updatedMemo) in
  let c := patchMemoInCollectionQueries c updatedMemo in
  let c := invalidateQueries c lists in
  let c := match parent with None | Some [] => c | Some p => invalidateQueries c (comments p) end in
  invalidate_all [stats; attachment_lists] c.

(** *** [useDeleteMemo] *)
Definition delete_success (c : cache) (n : jstring) : cache :=
  invalidate_all [lists; stats; attachment_lists; trash] (removeQueries c (detail n)).
Definition restore_success (c : cache) : cache := invalidate_all [all; trash; stats; attachment_lists] c.
End Hooks.

(** ** Patching *)

Section PatchFacts.
Context {types : MemoTypes}.

(** The memos of a cached collection. *)
Definition memos_in (data : QueryData) : list Memo :=
  match data with ListData response => memos response | InfiniteData pages _ => pages ≫= memos | _ => [] end.
Definition patch_memo (update : MemoPatch) (memo : Memo) : Memo :=
  if js_eqb (name memo) (name update) then spread memo update else memo.

Lemma patch_response_memos response update :
  fst (patchMemoListResponse response update) = {| memos := patch_memo update <$> memos response; nextPageToken := nextPageToken response |}.
Proof.
  unfold patchMemoListResponse. cbn [fst]. destruct (existsb _ _) eqn:E.
  - f_equal. apply list_fmap_ext. intros i m _. unfold patch_memo. by destruct (js_eqb _ _).
  - destruct response as [ms token]. cbn [memos nextPageToken] in *. f_equal. induction ms as [|m ms IH]; [done|].
    cbn [existsb fmap list_fmap] in *. apply orb_false_iff in E as [E1 E2]. unfold patch_memo at 1. rewrite E1. f_equal. by apply IH.
Qed.

Lemma unchanged_response response update :
  snd (patchMemoListResponse response update) = false -> fst (patchMemoListResponse response update) = response.
Proof. unfold patchMemoListResponse. cbn. by intros ->. Qed.

(** Patching data patches each memo in it, in place. *)
Lemma patch_pages pages pageParams update :
  patchMemoListQueryData (InfiniteData pages pageParams) update
  = InfiniteData ((fun page => fst (patchMemoListResponse page update)) <$> pages) pageParams.
Proof.
  cbn [patchMemoListQueryData]. destruct (existsb _ _) eqn:E.
  - f_equal. induction pages as [|page pages IH]; [done|]. cbn [map fmap list_fmap] in *. f_equal.
    clear E IH. induction pages as [|page' pages IH]; [done|]. cbn. by f_equal.
  - f_equal. induction pages as [|page pages IH]; [done|]. cbn [map existsb fmap list_fmap] in *. apply orb_false_iff in E as [E1 E2].
    by rewrite (unchanged_response page update E1), <- IH.
Qed.

Lemma patch_data_memos data update : memos_in (patchMemoListQueryData data update) = patch_memo update <$> memos_in data.
Proof.
  destruct data as [memo|response|pages pageParams|other]; try done.
  - cbn [patchMemoListQueryData memos_in]. by rewrite patch_response_memos.
  - rewrite patch_pages. cbn [memos_in]. induction pages as [|page pages IH]; [done|].
    cbn [fmap list_fmap mbind list_bind] in *. rewrite fmap_app. f_equal; [by rewrite patch_response_memos|exact IH].
Qed.

Lemma patch_memo_name update memo : name (patch_memo update memo) = name memo.
Proof. unfold patch_memo. destruct (js_eqb (name memo) (name update)) eqn:E; [|done]. symmetry. by apply js_eqb_true in E. Qed.

Lemma find_memo_name data n memo : findMemoInQueryData data n = Some memo -> name memo = n.
Proof.
  assert (forall response, findMemoInListResponse response n = Some memo -> name memo = n) as Hr.
  { intros response H. apply js_find_Some in H as [_ H]. by apply js_eqb_true in H. }
  destruct data as [m|response|pages pageParams|other]; cbn [findMemoInQueryData]; try done; [apply Hr|].
  induction pages as [|page pages IH]; [done|]. cbn [find_in_pages].
  destruct (findMemoInListResponse page n) eqn:Ep; [intros [= ->]; by apply (Hr page)|apply IH].
Qed.

(** Two patches of one memo are the patch of both. *)
Lemma patch_memo_twice first second memo :
  name first = name second ->
  patch_memo second (patch_memo first memo) = patch_memo {| name := name second; fields := fields second ∪ fields first |} memo.
Proof.
  intros He. unfold patch_memo. cbn [name]. rewrite <- He. destruct (js_eqb (name memo) (name first)) eqn:E; [|by rewrite E].
  unfold spread. cbn [name fields]. rewrite js_eqb_refl, <- He. by rewrite map_union_assoc.
Qed.

Lemma patch_data_twice first second data :
  name first = name second ->
  patchMemoListQueryData (patchMemoListQueryData data first) second
  = patchMemoListQueryData data {| name := name second; fields := fields second ∪ fields first |}.
Proof.
  intros He.
  assert (forall response, fst (patchMemoListResponse (fst (patchMemoListResponse response first)) second)
    = fst (patchMemoListResponse response {| name := name second; fields := fields second ∪ fields first |})) as Hr.
  { intros response. rewrite !patch_response_memos. cbn [memos nextPageToken]. f_equal. rewrite <- list_fmap_compose.
    apply list_fmap_ext. intros i m _. by apply patch_memo_twice. }
  destruct data as [memo|response|pages pageParams|other]; try done.
  - cbn [patchMemoListQueryData]. by rewrite Hr.
  - rewrite !patch_pages. f_equal. rewrite <- list_fmap_compose. apply list_fmap_ext. intros i page _. apply Hr.
Qed.

(** A patch that every copy has already changes nothing. *)
Lemma patch_data_same update data :
  (forall m, m ∈ memos_in data -> name m = name update -> fields update ∪ fields m = fields m) ->
  patchMemoListQueryData data update = data.
Proof.
  intros H. assert (forall l : list Memo, (forall m, m ∈ l -> m ∈ memos_in data) -> patch_memo update <$> l = l) as Hl.
  { induction l as [|m l IH]; intros Hin; [done|]. cbn [fmap list_fmap]. rewrite IH by (intros x Hx; apply Hin; by right). f_equal.
    unfold patch_memo. destruct (js_eqb (name m) (name update)) eqn:E; [|done]. apply js_eqb_true in E.
    unfold spread. rewrite H; [|apply Hin; by left|done]. rewrite <- E. by destruct m. }
  assert (forall response, (forall m, m ∈ memos response -> m ∈ memos_in data) -> fst (patchMemoListResponse response update) = response) as Hr.
  { intros response Hin. rewrite patch_response_memos, Hl by done. by destruct response. }
  destruct data as [memo|response|pages pageParams|other]; try done.
  - cbn [patchMemoListQueryData]. by rewrite Hr.
  - rewrite patch_pages. f_equal. assert (forall ps : list ListMemosResponse, (forall p, p ∈ ps -> p ∈ pages) -> (fun page => fst (patchMemoListResponse page update)) <$> ps = ps) as Hp.
    { induction ps as [|p ps IH]; intros Hin; [done|]. cbn [fmap list_fmap]. f_equal; [|apply IH; intros q Hq; apply Hin; by right].
      apply Hr. intros m Hm. cbn [memos_in]. apply list_elem_of_bind. exists p. split; [done|]. apply Hin. by left. }
    by apply Hp.
Qed.
End PatchFacts.

(** ** Properties *)

Section HookFacts.
Context {types : MemoTypes} {client : QueryClient} {laws : QueryClientLaws client}.

Lemma detail_matches n : matches all (detail n) = true.
Proof. apply bool_decide_eq_true. by exists [Text (u "detail"); Text n]. Qed.

Lemma get_invalidate_all keys c k : getQueryData (invalidate_all keys c) k = getQueryData c k.
Proof. revert c. induction keys as [|key keys IH]; intros c; [done|]. unfold invalidate_all in *. cbn [foldl]. by rewrite IH, get_invalidate. Qed.

Lemma invalid_invalidate_all keys c k :
  is_Some (getQueryData c k) -> (isInvalidated c k || existsb (fun f => matches f k) keys) = isInvalidated (invalidate_all keys c) k.
Proof.
  revert c. induction keys as [|key keys IH]; intros c Hk; cbn [existsb]; [apply orb_false_r|].
  unfold invalidate_all in *. cbn [foldl].
  rewrite <- (IH (invalidateQueries c key)) by by rewrite get_invalidate. rewrite invalid_invalidate by done. by rewrite orb_assoc.
Qed.

Lemma get_patched c update k :
  getQueryData (patchMemoInCollectionQueries c update) k =
  if matches all k then (fun data => patchMemoListQueryData data update) <$> getQueryData c k else getQueryData c k.
Proof. apply get_set_all. Qed.

(** A memo as [MemoData] is not a collection. *)
Lemma get_patched_detail c update n memo :
  getQueryData c (detail n) = Some (MemoData memo) -> getQueryData (patchMemoInCollectionQueries c update) (detail n) = Some (MemoData memo).
Proof. intros H. by rewrite get_patched, detail_matches, H. Qed.

Lemma onMutate_get c n changes previous k :
  n <> [] -> fst (onMutate c (Some n) changes) = Some previous ->
  getQueryData (snd (onMutate c (Some n) changes)) k =
    if bool_decide (k = detail n) then Some (MemoData (spread previous {| name := n; fields := changes |}))
    else if matches all k then (fun data => patchMemoListQueryData data {| name := n; fields := changes |}) <$> getQueryData c k
    else getQueryData c k.
Proof.
  intros Hn. destruct n as [|ch n]; [done|]. cbn [onMutate fst snd]. intros ->. rewrite get_patched, get_set, get_cancel.
  case_bool_decide as E; [|rewrite bool_decide_eq_false_2 by done; done].
  subst k. rewrite detail_matches. by rewrite bool_decide_eq_true_2.
Qed.

Lemma onMutate_name c n changes previous :
  fst (onMutate c (Some n) changes) = Some previous ->
  (forall memo, getQueryData c (detail n) = Some (MemoData memo) -> name memo = n) -> name previous = n.
Proof.
  intros H Hd. destruct n as [|ch n]; [done|]. cbn [onMutate fst] in H. rewrite get_cancel in H.
  destruct (getQueryData c (detail (ch :: n))) as [[memo| | |]|] eqn:E; cbn [memo_of] in H.
  1: { injection H as <-. by apply Hd. }
  all: unfold findMemoInCollectionQueries in H; apply head_Some_elem_of in H;
    apply list_elem_of_omap in H as (query & _ & Hf); by apply find_memo_name in Hf.
Qed.

(** The cached copies of a memo agree with the snapshot of it. *)
Definition copies_agree (c : cache) (snapshot : Memo) : Prop :=
  forall k data m, matches all k = true -> getQueryData c k = Some data -> m ∈ memos_in data -> name m = name snapshot ->
    fields snapshot ⊆ fields m.

(** C26. A failed update leaves no trace: when the update set only fields the memo had and
    the cached copies of the memo agreed, then after the optimistic change is rolled back
    every query holds exactly what it held before, and the memo's own query the memo. *)
Theorem failed_update_rolls_back (c : cache) (n : jstring) (changes : gmap jstring value) (snapshot : Memo)
    (Hn : n <> []) (Hsnap : fst (onMutate c (Some n) changes) = Some snapshot)
    (Hname : name snapshot = n) (Hchanges : dom changes ⊆ dom (fields snapshot)) (Hagree : copies_agree c snapshot) (k : QueryKey) :
  let c' := onError (snd (onMutate c (Some n) changes)) (Some n) (Some snapshot) in
  getQueryData c' k = if bool_decide (k = detail n) then Some (MemoData snapshot) else getQueryData c k.
Proof.
  cbn zeta. unfold onError. destruct n as [|ch n]; [done|]. rewrite get_patched, get_set, (onMutate_get c (ch :: n) changes snapshot k Hn Hsnap).
  destruct (decide (k = detail (ch :: n))) as [->|Hk].
  - rewrite detail_matches. by rewrite !bool_decide_eq_true_2 by done.
  - rewrite !(bool_decide_eq_false_2 (_ = _)) by (try done; by intros ->). destruct (matches all k) eqn:Em; [|done].
    destruct (getQueryData c k) as [data|] eqn:Ed; [|done]. cbn [fmap option_fmap option_map]. f_equal.
    rewrite patch_data_twice by done. apply patch_data_same. cbn [name fields]. intros m Hm He.
    pose proof (Hagree k data m Em Ed Hm He) as Hsub.
    assert (fields snapshot ∪ changes = fields snapshot) as ->.
    { apply map_eq. intros i. rewrite lookup_union. destruct (fields snapshot !! i) as [v|] eqn:Ev; [by destruct (changes !! i)|].
      destruct (changes !! i) as [v|] eqn:Ec; [|done]. exfalso. apply not_elem_of_dom in Ev. apply Ev, Hchanges. by apply elem_of_dom. }
    apply map_eq. intros i. rewrite lookup_union. destruct (fields snapshot !! i) as [v|] eqn:Ev.
    + rewrite (lookup_weaken _ _ _ _ Ev Hsub). done.
    + by destruct (fields m !! i).
Qed.

(** What a patch made of the memos of a query: the same memos in the same places, the
    patched one with every field of the patch. *)
Definition patched (update : MemoPatch) (m m' : Memo) : Prop :=
  name m' = name m /\ (name m = name update -> fields update ⊆ fields m') /\ (name m <> name update -> m' = m).

Lemma patch_memo_patched update m : patched update m (patch_memo update m).
Proof.
  split; [apply patch_memo_name|]. unfold patch_memo. destruct (js_eqb (name m) (name update)) eqn:E.
  - apply js_eqb_true in E. split; [|done]. intros _. cbn [spread fields]. apply map_union_subseteq_l.
  - apply js_eqb_false in E. by split.
Qed.

(** An update that succeeds reaches every copy: the memo's own query holds the server's
    answer, every cached collection holds the memos it held, in order, each copy of the
    memo with every field of the answer and the other memos as they were, other queries
    are untouched, and the lists are fetched again. *)
Theorem update_reaches_every_copy (c : cache) (updated : Memo) (parent : option jstring) (k : QueryKey) :
  let c' := onSuccess c updated parent in
  (k = detail (name updated) -> getQueryData c' k = Some (MemoData updated))
  /\ (matches all k = false -> getQueryData c' k = getQueryData c k)
  /\ (forall data, k <> detail (name updated) -> matches all k = true -> getQueryData c k = Some data ->
        exists data', getQueryData c' k = Some data' /\ Forall2 (patched updated) (memos_in data) (memos_in data')
          /\ (matches lists k = true -> isInvalidated c' k = true)).
Proof.
  cbn zeta. unfold onSuccess. set (c1 := patchMemoInCollectionQueries _ updated).
  assert (forall k, getQueryData (match parent with None | Some [] => invalidateQueries c1 lists
    | Some p => invalidateQueries (invalidateQueries c1 lists) (comments p) end) k = getQueryData c1 k) as Hparent.
  { intros k'. destruct parent as [[|ch p]|]; by rewrite ?get_invalidate. }
  rewrite get_invalidate_all, Hparent. unfold c1. rewrite get_patched, get_set. split; [|split].
  - intros ->. by rewrite detail_matches, bool_decide_eq_true_2.
  - intros Hm. rewrite Hm. rewrite bool_decide_eq_false_2; [done|]. intros <-. by rewrite detail_matches in Hm.
  - intros data Hk Hm Hd. rewrite Hm, bool_decide_eq_false_2 by (by intros <-). rewrite Hd. eexists. split; [reflexivity|]. split.
    + rewrite patch_data_memos. induction (memos_in data) as [|m ms IH]; [constructor|]. constructor; [apply patch_memo_patched|done].
    + intros Hlist. assert (is_Some (getQueryData c1 k)) as Hsome.
      { unfold c1. rewrite get_patched, get_set, Hm, bool_decide_eq_false_2 by (by intros <-). rewrite Hd. by eexists. }
      rewrite <- invalid_invalidate_all by by rewrite Hparent. apply orb_true_iff. left.
      destruct parent as [[|ch p]|]; rewrite ?invalid_invalidate, ?Hlist, ?orb_true_r; try done; by rewrite ?get_invalidate.
Qed.

(** Deleting a memo forgets its query and has the lists fetched again. *)
Theorem delete_forgets_memo (c : cache) (n : jstring) (k : QueryKey) :
  let c' := delete_success c n in
  (matches (detail n) k = true -> getQueryData c' k = None)
  /\ (matches (detail n) k = false -> getQueryData c' k = getQueryData c k
      /\ (is_Some (getQueryData c k) -> matches lists k = true -> isInvalidated c' k = true)).
Proof.
  cbn zeta. unfold delete_success. rewrite get_invalidate_all, get_remove. split; [by intros ->|]. intros Hm. rewrite Hm. split; [done|].
  intros Hs Hl. rewrite <- invalid_invalidate_all by by rewrite get_remove, Hm. apply orb_true_iff. right. cbn [existsb]. by rewrite Hl.
Qed.
End HookFacts.

(** ** A client *)

(** A cache as a list of entries, the first of a key counting. *)
Section ListClient.
Context {types : MemoTypes}.

Definition entries : Type := list (QueryKey * (QueryData * bool)).
Definition lookup_key (c : entries) (k : QueryKey) : option (QueryData * bool) := snd <$> js_find (fun e => bool_decide (e.1 = k)) c.
Definition on_entries (f : QueryKey -> QueryData * bool -> QueryData * bool) (c : entries) : entries := map (fun e => (e.1, f e.1 e.2)) c.
Fixpoint firsts (seen : list QueryKey) (c : entries) : entries :=
  match c with
  | [] => []
  | e :: c' => if bool_decide (e.1 ∈ seen) then firsts seen c' else e :: firsts (e.1 :: seen) c'
  end.

#[export] Instance list_client : QueryClient := {|
  cache := entries;
  getQueryData c k := fst <$> lookup_key c k;
  getQueriesData c f := map (fun e => (e.1, e.2.1)) (js_filter (fun e => matches f e.1) (firsts [] c));
  setQueryData c k d := (k, (d, false)) :: c;
  setQueriesData c f update := on_entries (fun k x => if matches f k then (update x.1, false) else x) c;
  cancelQueries c f := c;
  invalidateQueries c f := on_entries (fun k x => if matches f k then (x.1, true) else x) c;
  removeQueries c f := js_filter (fun e => negb (matches f e.1)) c;
  isInvalidated c k := default false (snd <$> lookup_key c k);
|}.

Lemma lookup_on_entries f c k : lookup_key (on_entries f c) k = f k <$> lookup_key c k.
Proof.
  unfold lookup_key, on_entries. induction c as [|e c IH]; [done|]. cbn [map js_find fst]. case_bool_decide as E; [|exact IH].
  cbn. by subst.
Qed.

Lemma lookup_filter c k (p : QueryKey -> bool) :
  lookup_key (js_filter (fun e => p e.1) c) k = if p k then lookup_key c k else None.
Proof.
  unfold lookup_key. induction c as [|e c IH]; [by destruct (p k)|]. cbn [js_filter js_find].
  destruct (p e.1) eqn:Ep; cbn [js_find]; case_bool_decide as E; subst; rewrite ?Ep; rewrite ?IH; try done. by rewrite Ep in *.
Qed.

Lemma elem_of_firsts seen c k x : (k, x) ∈ firsts seen c <-> k ∉ seen /\ lookup_key c k = Some x.
Proof.
  revert seen. induction c as [|[k' x'] c IH]; intros seen; cbn [firsts fst].
  { split; [by intros ?%elem_of_nil|by intros [_ H]]. }
  unfold lookup_key in *. cbn [js_find fst]. case_bool_decide as E.
  - rewrite IH. case_bool_decide as Ek; [|done]. subst k'. cbn. split; [by intros [? _]|intros [? _]; done].
  - rewrite elem_of_cons, IH, not_elem_of_cons. case_bool_decide as Ek.
    + subst k'. cbn. split; [intros [[= ->]|[[? _] _]]; done|intros [_ [= ->]]; by left].
    + split; [intros [[= -> ->]|[[? ?] ?]]; done|intros [? ?]; right; split; [split; congruence|done]].
Qed.

#[export] Instance list_client_laws : QueryClientLaws list_client.
Proof.
  split; intros; unfold getQueryData, setQueryData, setQueriesData, getQueriesData, cancelQueries, invalidateQueries, removeQueries,
    isInvalidated, list_client in *.
  - unfold lookup_key. cbn [js_find fst]. by case_bool_decide.
  - rewrite lookup_on_entries. destruct (lookup_key c k) as [x|]; cbn; by destruct (matches f k).
  - rewrite list_elem_of_fmap. setoid_rewrite js_filter_In. split.
    + intros ([k' x] & [= -> ->] & Hin & Hm). apply elem_of_firsts in Hin as [_ H]. cbn in *. by rewrite H.
    + intros [Hm Hd]. destruct (lookup_key c k) as [x|] eqn:E; [|done]. injection Hd as <-. exists (k, x). split; [done|].
      split; [|done]. apply elem_of_firsts. split; [by intros ?%elem_of_nil|done].
  - done.
  - rewrite lookup_on_entries. destruct (lookup_key c k) as [x|]; cbn; by destruct (matches f k).
  - rewrite (lookup_filter c k (fun k => negb (matches f k))). by destruct (matches f k).
  - unfold lookup_key. cbn [js_find fst]. by case_bool_decide.
  - rewrite lookup_on_entries. destruct (lookup_key c k) as [x|] eqn:E; cbn in *; [|by destruct H].
    destruct (matches f k); cbn; [by rewrite orb_true_r|by rewrite orb_false_r].
Qed.
End ListClient.

(** ** Witnesses *)

#[local] Instance plain_types : MemoTypes := {| value := Z; filters := unit; other_data := unit |}.

Definition memo_1 : Memo := {| name := u "memos/1"; fields := {[u "content" := 1; u "pinned" := 0]} |}.
Definition memo_2 : Memo := {| name := u "memos/2"; fields := {[u "content" := 2]} |}.
Definition page_of (l : list Memo) : ListMemosResponse := {| memos := l; nextPageToken := [] |}.
Definition sample_cache : @cache _ list_client :=
  [(@list_key plain_types tt, (InfiniteData [page_of [memo_2]; page_of [memo_1]] [[]; u "t"], false));
   (detail (u "memos/1"), (MemoData memo_1, false))].
Definition home : @QueryKey plain_types := @list_key plain_types tt.
Definition edited : gmap jstring value := {[u "content" := 5]}.

Lemma sample_agree : copies_agree sample_cache memo_1.
Proof.
  intros k data m Hm Hd. cbn in Hd. unfold lookup_key in Hd. cbn [js_find sample_cache fst] in Hd.
  case_bool_decide; [cbn in Hd; injection Hd as <-|case_bool_decide; [cbn in Hd; injection Hd as <-|done]].
  - cbn. rewrite !elem_of_cons, elem_of_nil. intros [->|[->|[]]]; [|done]. intros Hn. by vm_compute in Hn.
  - cbn. by intros ?%elem_of_nil.
Qed.

Example failed_update_rolls_back_witness (c' := onError (snd (onMutate sample_cache (Some (u "memos/1")) edited)) (Some (u "memos/1")) (Some memo_1)) :
  getQueryData c' (home) = getQueryData sample_cache (home)
  /\ getQueryData c' (detail (u "memos/1")) = Some (MemoData memo_1).
Proof.
  assert (dom edited ⊆ dom (fields memo_1)) as Hdom by (apply (bool_decide_unpack _); vm_compute; exact I).
  split.
  - apply (failed_update_rolls_back sample_cache (u "memos/1") edited memo_1 ltac:(discriminate) ltac:(reflexivity) ltac:(reflexivity)
      Hdom sample_agree (home)).
  - apply (failed_update_rolls_back sample_cache (u "memos/1") edited memo_1 ltac:(discriminate) ltac:(reflexivity) ltac:(reflexivity)
      Hdom sample_agree (detail (u "memos/1"))).
Defined.

Example update_reaches_every_copy_witness (answer := {| name := u "memos/1"; fields := {[u "content" := 5; u "pinned" := 1]} |})
    (c' := onSuccess sample_cache answer None) :
  getQueryData c' (detail (u "memos/1")) = Some (MemoData answer)
  /\ exists data', getQueryData c' home = Some data' /\ Forall2 (patched answer) [memo_2; memo_1] (memos_in data') /\ isInvalidated c' home = true.
Proof.
  split.
  - apply (update_reaches_every_copy sample_cache answer None (detail (u "memos/1"))). reflexivity.
  - destruct (update_reaches_every_copy sample_cache answer None home) as (_ & _ & H).
    destruct (H _ ltac:(discriminate) ltac:(vm_compute; reflexivity) eq_refl) as (data' & H1 & H2 & H3).
    exists data'. split; [exact H1|]. split; [exact H2|]. apply H3. vm_compute. reflexivity.
Defined.

(** A failed update that gave the memo a field it did not have, such as a location, leaves
    the field in the lists: the snapshot that is spread over them does not have it. *)
Example rollback_keeps_new_field :
  let c' := onError (snd (onMutate sample_cache (Some (u "memos/1")) {[u "location" := 7]})) (Some (u "memos/1")) (Some memo_1) in
  match getQueryData c' (home) with
  | Some data => (fun m => fields m !! u "location") <$> memos_in data = [None; Some 7]
  | None => False
  end.
Proof. vm_compute. reflexivity. Qed.

(** When a first update fails after a second one of the same memo has succeeded, the memo's
    query loses what the second one changed. *)
Example overlapping_rollback_loses :
  let '(snapshot, c1) := onMutate sample_cache (Some (u "memos/1")) edited in
  let c2 := snd (onMutate c1 (Some (u "memos/1")) {[u "pinned" := 1]}) in
  let answer := {| name := u "memos/1"; fields := {[u "content" := 1; u "pinned" := 1]} |} in
  let c3 := onError (onSuccess c2 answer None) (Some (u "memos/1")) snapshot in
  (fun m => fields m !! u "pinned") <$> memo_of (getQueryData c3 (detail (u "memos/1"))) = Some (Some 0)
  /\ isInvalidated c3 (detail (u "memos/1")) = false.
Proof. vm_compute. split; reflexivity. Qed.
