(* ===== verification/LiveStream.v ===== *)
(** * The live event stream (web/src/hooks/useLiveMemoRefresh.ts, stream half)

    The server-sent events of /api/v1/sse: splitting the received text into messages
    across chunks, the events of a message, what an event invalidates; and the
    connection loop with its backoff.  A chunk is the text the streaming decoder
    gives for one read; the token, the responses and the clock are the loop's
    environment. *)

From S2P Require Import Prelude JSString JSON JSONText.

Definition INITIAL_RETRY_DELAY_MS : Z := 1000.
Definition MAX_RETRY_DELAY_MS : Z := 30000.
Definition RETRY_BACKOFF_MULTIPLIER : Z := 2.
Definition STABLE_CONNECTION_THRESHOLD_MS : Z := 60000.
Definition MEMO_CHANGED_SSE_EVENT_TYPE : jstring := u "memo.changed".
Definition SPACE_CHANGED_SSE_EVENT_TYPE : jstring := u "space.changed".

(** ** Events *)

(** The query keys that are invalidated. *)
Inductive query := spaceKeys_all | userKeys_notifications | memoKeys_all | userKeys_stats | attachmentKeys_lists.

Definition invalidateLiveMemoQueries : list query := [memoKeys_all; userKeys_stats; attachmentKeys_lists].
Definition invalidateAllLiveQueries : list query :=
  [spaceKeys_all; userKeys_notifications] ++ invalidateLiveMemoQueries.

(** [handleSSEEvent] on what JSON.parse gave; [None] when [event.type] throws. *)
Definition handleSSEEvent (event : json) : option (list query) :=
  match event with
  | JNull => None
  | JObj o =>
      match prop o (u "type") with
      | Some (JStr t) =>
          Some (if js_eqb t MEMO_CHANGED_SSE_EVENT_TYPE then invalidateLiveMemoQueries
                else if js_eqb t SPACE_CHANGED_SSE_EVENT_TYPE then invalidateAllLiveQueries
                else [])
      | _ => Some []
      end
  | _ => Some []
  end.

(** ** Messages *)

(** [buffer.split("\n\n")]. *)
Fixpoint split_blank (s : jstring) : list jstring :=
  match s with
  | [] => [[]]
  | c :: s' =>
      let cont := match split_blank s' with [] => [[c]] | l :: ls => (c :: l) :: ls end in
      match s' with
      | d :: s'' => if (c =? 10) && (d =? 10) then [] :: split_blank s'' else cont
      | [] => [[c]]
      end
  end.

(** The payloads of a message that reach [onEvent] and are handled. *)
Definition message_events (message : jstring) : list json :=
  match trim message with
  | [] => []
  | _ =>
      split_on 10 message ≫= (fun line =>
        if starts_with line (u "data: ") then
          match JSON_parse (slice_from line 6) with
          | Some event => match handleSSEEvent event with Some _ => [event] | None => [] end
          | None => []
          end
        else [])
  end.

(** One turn of the read loop. *)
Definition consume_chunk (st : jstring * list json) (chunk : jstring) : jstring * list json :=
  let '(buffer, events) := st in
  let messages := split_blank (buffer ++ chunk) in
  (default [] (last messages), events ++ (removelast messages ≫= message_events)).

(** [consumeSSEStream]: the chunks read until the stream ends or the signal aborts. *)
Definition consumeSSEStream (chunks : list jstring) : jstring * list json :=
  foldl consume_chunk ([], []) chunks.

(** ** The connection loop *)

Inductive SSEConnectionStatus := connected | disconnected | connecting.

(** What the loop does: statuses and events published, live queries resynchronised,
    a wait of a delay below the bound. *)
Inductive output :=
  | PublishStatus (s : SSEConnectionStatus)
  | PublishEvent (e : json)
  | Resync
  | Wait (bound : Z).

(** A response: its status, [response.ok && response.body], and for an accepted one
    the chunks that are read and how long the stream lasts. *)
Record response := { status : Z; accepted : bool; chunks : list jstring; duration : Z }.

(** One turn of the loop, as the environment answers it.  A fetch or a refresh that
    throws is [None]; the two flags say whether the signal is aborted (or the effect
    cleaned up) after the fetch and after the stream. *)
Record attempt := {
  token : option jstring;
  fetched : option response;
  refreshed : option (option jstring);
  refetched : option response;
  aborted_after_fetch : bool;
  aborted_after_stream : bool;
}.

Record loop_state := { retryDelay : Z; hasConnectedOnce : bool }.

(** The response of the turn: after a 401 the token is refreshed and the stream is
    fetched again. *)
Definition fetch_response (a : attempt) : option response :=
  match fetched a with
  | None => None
  | Some r =>
      if status r =? 401 then
        match refreshed a with
        | Some (Some (_ :: _)) => refetched a
        | _ => None
        end
      else Some r
  end.

(** The end of a turn: [lasted] is how long the connection was up, if it was. *)
Definition end_turn (st : loop_state) (lasted : option Z) (aborted : bool) (out : list output)
    : list output * option loop_state :=
  let delay := match lasted with
               | Some t => if STABLE_CONNECTION_THRESHOLD_MS <=? t then INITIAL_RETRY_DELAY_MS else retryDelay st
               | None => retryDelay st
               end in
  if aborted then (out, None)
  else (out ++ [PublishStatus disconnected; Wait delay],
        Some {| retryDelay := Z.min (delay * RETRY_BACKOFF_MULTIPLIER) MAX_RETRY_DELAY_MS;
                hasConnectedOnce := hasConnectedOnce st |}).

(** One turn of [runConnectionLoop]: its outputs, and the state of the next turn or
    [None] when the loop returns. *)
Definition connection_turn (st : loop_state) (a : attempt) : list output * option loop_state :=
  match token a with
  | None | Some [] => ([PublishStatus connecting; PublishStatus disconnected], None)
  | Some _ =>
      match fetch_response a with
      | None => end_turn st None (aborted_after_stream a) [PublishStatus connecting]
      | Some r =>
          if aborted_after_fetch a then ([PublishStatus connecting], None)
          else if negb (accepted r) then end_turn st None (aborted_after_stream a) [PublishStatus connecting]
          else end_turn {| retryDelay := retryDelay st; hasConnectedOnce := true |}
                 (Some (duration r)) (aborted_after_stream a)
                 ([PublishStatus connecting; PublishStatus connected]
                  ++ (if hasConnectedOnce st then [Resync] else [])
                  ++ (PublishEvent <$> (consumeSSEStream (chunks r)).2))
      end
  end.

(** The loop over the turns of an environment. *)
Fixpoint runConnectionLoop (st : loop_state) (attempts : list attempt) : list output :=
  match attempts with
  | [] => []
  | a :: attempts' =>
      match connection_turn st a with
      | (out, Some st') => out ++ runConnectionLoop st' attempts'
      | (out, None) => out
      end
  end.

Definition initial_loop : loop_state :=
  {| retryDelay := INITIAL_RETRY_DELAY_MS; hasConnectedOnce := false |}.

(** [withFullJitter]: [random] is in [0, 1), as a rational. *)
Definition withFullJitter (random : Q) (delay : Z) : Z := (Qnum random * delay) / Zpos (Qden random).

(** ** Lemmas *)

Lemma split_blank_cons c d s :
  split_blank (c :: d :: s) =
  if (c =? 10) && (d =? 10) then [] :: split_blank s
  else match split_blank (d :: s) with [] => [[c]] | l :: ls => (c :: l) :: ls end.
Proof. done. Qed.

Lemma split_blank_not_nil s : split_blank s <> [].
Proof.
  assert (forall n (l : jstring), (length l <= n)%nat -> split_blank l <> []) as H; [|by eapply H].
  induction n as [|n IH]; intros l Hl; [by destruct l; [|simpl in Hl; lia]|].
  destruct l as [|c [|d l]]; [done..|]. rewrite split_blank_cons.
  destruct (_ && _); [done|]. by destruct (split_blank (d :: l)).
Qed.

(** A text without a separator is one piece. *)
Lemma split_blank_single s l : split_blank s = [l] -> l = s.
Proof.
  assert (forall n (s l : jstring), (length s <= n)%nat -> split_blank s = [l] -> l = s) as H; [|by eapply H].
  induction n as [|n IH]; intros s' l' Hs; [by destruct s'; [intros [= <-]|simpl in Hs; lia]|].
  destruct s' as [|c [|d s']]; [by intros [= <-]..|]. rewrite split_blank_cons. simpl in Hs.
  destruct (_ && _).
  - intros E. exfalso. injection E as _ E. by apply split_blank_not_nil in E.
  - destruct (split_blank (d :: s')) as [|p [|q ps]] eqn:E; [by apply split_blank_not_nil in E| |done].
    intros [= <-]. f_equal. apply IH; [simpl; lia|done].
Qed.

(** The pieces of a concatenation: the complete pieces of the first part, then the
    pieces of its last piece followed by the second part. *)
Lemma split_blank_app a b :
  split_blank (a ++ b) = removelast (split_blank a) ++ split_blank (default [] (last (split_blank a)) ++ b).
Proof.
  assert (forall n (a : jstring), (length a <= n)%nat ->
    split_blank (a ++ b) = removelast (split_blank a) ++ split_blank (default [] (last (split_blank a)) ++ b)) as H;
    [|by eapply H].
  induction n as [|n IH]; intros s Hs; [by destruct s; [|simpl in Hs; lia]|].
  destruct s as [|c [|d s]]; [done..|]. simpl in Hs.
  change ((c :: d :: s) ++ b) with (c :: d :: (s ++ b)). rewrite !split_blank_cons.
  destruct ((c =? 10) && (d =? 10)) eqn:Ecd.
  - rewrite (IH s) by lia. destruct (split_blank s) as [|p ps] eqn:E; [by apply split_blank_not_nil in E|].
    done.
  - pose proof (IH (d :: s) ltac:(simpl; lia)) as IHd. change ((d :: s) ++ b) with (d :: (s ++ b)) in IHd.
    rewrite IHd. destruct (split_blank (d :: s)) as [|p [|q ps]] eqn:E; [by apply split_blank_not_nil in E| |done].
    apply split_blank_single in E as ->. cbn [removelast last default app].
    change (id (d :: s) ++ b) with (d :: (s ++ b)). change (id (c :: d :: s) ++ b) with (c :: d :: (s ++ b)).
    by rewrite split_blank_cons, Ecd.
Qed.

Lemma consume_all chunks buffer events :
  split_blank buffer = [buffer] ->
  foldl consume_chunk (buffer, events) chunks =
  (default [] (last (split_blank (buffer ++ concat chunks))),
   events ++ (removelast (split_blank (buffer ++ concat chunks)) ≫= message_events)).
Proof.
  revert buffer events. induction chunks as [|chunk chunks IH]; intros buffer events Hb; cbn [foldl concat].
  - rewrite app_nil_r, Hb. simpl. by rewrite app_nil_r.
  - cbn [consume_chunk]. set (ms := split_blank (buffer ++ chunk)).
    assert (split_blank (default [] (last ms)) = [default [] (last ms)]) as Hl.
    { pose proof (split_blank_app (buffer ++ chunk) []) as H. rewrite !app_nil_r in H. fold ms in H.
      destruct (exists_last (split_blank_not_nil (buffer ++ chunk))) as (ps & p & E). fold ms in E.
      rewrite E in *. rewrite last_snoc, removelast_last in *. simpl in *. by apply app_inv_head in H. }
    rewrite IH by done. rewrite app_assoc, (split_blank_app (buffer ++ chunk)). fold ms.
    destruct (exists_last (split_blank_not_nil (default [] (last ms) ++ concat chunks))) as (ps & p & E).
    rewrite E. by rewrite !app_assoc, !last_snoc, !removelast_last, bind_app, app_assoc.
Qed.

Lemma turn_delay st a out st' :
  connection_turn st a = (out, Some st') ->
  exists delay, out !! (length out - 1)%nat = Some (Wait delay)
    /\ retryDelay st' = Z.min (delay * RETRY_BACKOFF_MULTIPLIER) MAX_RETRY_DELAY_MS
    /\ (delay = retryDelay st \/ delay = INITIAL_RETRY_DELAY_MS).
Proof.
  assert (forall st0 lasted ab o, end_turn st0 lasted ab o = (out, Some st') ->
    exists delay, out !! (length out - 1)%nat = Some (Wait delay)
      /\ retryDelay st' = Z.min (delay * RETRY_BACKOFF_MULTIPLIER) MAX_RETRY_DELAY_MS
      /\ (delay = retryDelay st0 \/ delay = INITIAL_RETRY_DELAY_MS)) as He.
  { intros st0 lasted ab o. unfold end_turn. destruct ab; [done|]. intros [= <- <-]. eexists.
    split; [|split; [reflexivity|]].
    - rewrite length_app. simpl. rewrite lookup_app_r by lia.
      replace (length o + 2 - 1 - length o)%nat with 1%nat by lia. done.
    - destruct lasted as [t|]; [|by left]. destruct (_ <=? t); [by right|by left]. }
  unfold connection_turn. destruct (token a) as [[|c t]|]; try done.
  destruct (fetch_response a) as [r|]; [|apply He].
  destruct (aborted_after_fetch a); [done|]. destruct (negb (accepted r)); [apply He|].
  intros H. apply He in H. exact H.
Qed.

(** ** Backoff *)

Definition waits (out : list output) : list Z :=
  out ≫= (fun o => match o with Wait d => [d] | _ => [] end).

(** A turn that goes on to the next, whose connection was or was not up for a minute. *)
Definition goes_on (a : attempt) : bool :=
  match token a with None | Some [] => false | Some _ => true end
  && negb (aborted_after_stream a)
  && match fetch_response a with Some _ => negb (aborted_after_fetch a) | None => true end.
Definition stable (a : attempt) : bool :=
  goes_on a
  && match fetch_response a with
     | Some r => accepted r && (STABLE_CONNECTION_THRESHOLD_MS <=? duration r)
     | None => false
     end.
Definition unstable (a : attempt) : bool := goes_on a && negb (stable a).

(** The bound of the n-th wait of a row of failures. *)
Definition backoff (n : nat) : Z := Z.min (1000 * 2 ^ Z.of_nat n) 30000.

Lemma backoff_next n : Z.min (backoff n * RETRY_BACKOFF_MULTIPLIER) MAX_RETRY_DELAY_MS = backoff (Datatypes.S n).
Proof.
  unfold backoff, RETRY_BACKOFF_MULTIPLIER, MAX_RETRY_DELAY_MS.
  rewrite Nat2Z.inj_succ, Z.pow_succ_r by lia. pose proof (Z.pow_pos_nonneg 2 (Z.of_nat n)). lia.
Qed.

Lemma backoff_bounds n : 1000 <= backoff n <= 30000.
Proof. unfold backoff. pose proof (Z.pow_pos_nonneg 2 (Z.of_nat n)). lia. Qed.

Lemma waits_app o1 o2 : waits (o1 ++ o2) = waits o1 ++ waits o2.
Proof. apply bind_app. Qed.

Lemma waits_events es : waits (PublishEvent <$> es) = [].
Proof. by induction es. Qed.

(** A turn that goes on waits once; its bound is the current delay, or the initial one
    after a stable connection. *)
Lemma turn_goes_on st a :
  goes_on a = true ->
  exists out st', connection_turn st a = (out, Some st')
    /\ waits out = [if stable a then INITIAL_RETRY_DELAY_MS else retryDelay st]
    /\ retryDelay st' = Z.min ((if stable a then INITIAL_RETRY_DELAY_MS else retryDelay st)
                               * RETRY_BACKOFF_MULTIPLIER) MAX_RETRY_DELAY_MS.
Proof.
  unfold stable. intros Hg. rewrite Hg. unfold goes_on in Hg. unfold connection_turn, end_turn.
  destruct (token a) as [[|c t]|]; [done| |done]. simpl in Hg.
  destruct (aborted_after_stream a); [done|]. simpl in Hg.
  destruct (fetch_response a) as [r|]; [|do 2 eexists; split; [reflexivity|done]].
  destruct (aborted_after_fetch a); [done|]. destruct (accepted r); cbn [negb andb].
  - do 2 eexists. split; [reflexivity|]. split; [|done].
    rewrite !waits_app, waits_events. by destruct (hasConnectedOnce st).
  - do 2 eexists. by split.
Qed.

Lemma run_cons_waits st a rest :
  goes_on a = true ->
  exists st', waits (runConnectionLoop st (a :: rest))
              = (if stable a then INITIAL_RETRY_DELAY_MS else retryDelay st) :: waits (runConnectionLoop st' rest)
    /\ retryDelay st' = Z.min ((if stable a then INITIAL_RETRY_DELAY_MS else retryDelay st)
                               * RETRY_BACKOFF_MULTIPLIER) MAX_RETRY_DELAY_MS.
Proof.
  intros Hg. destruct (turn_goes_on st a Hg) as (out & st' & E & Hw & Hd). exists st'.
  simpl. rewrite E, waits_app, Hw. done.
Qed.

Lemma unstable_waits us k : forall st,
  forallb unstable us = true -> retryDelay st = backoff k ->
  waits (runConnectionLoop st us) = backoff <$> seq k (length us).
Proof.
  revert k. induction us as [|a us IH]; intros k st Hu Hd; [done|]. simpl in Hu. bool_prop.
  unfold unstable in *. bool_prop.
  destruct (run_cons_waits st a us) as (st' & -> & Hd'); [done|].
  match goal with H : stable a = false |- _ => rewrite H in * end.
  simpl. rewrite Hd. f_equal. apply IH; [done|]. by rewrite Hd', Hd, backoff_next.
Qed.

(** ** Properties *)

(** How the stream is cut into chunks does not matter: the events handled are those
    of the complete messages of the whole text, in order, and what is left over is
    the text after the last blank line; two streams with the same text give the same
    events. *)
Theorem consumeSSEStream_chunks (chunks : list jstring) :
  consumeSSEStream chunks =
  (default [] (last (split_blank (concat chunks))),
   removelast (split_blank (concat chunks)) ≫= message_events).
Proof. unfold consumeSSEStream. by rewrite consume_all. Qed.

(** Reconnection backs off exponentially: in a row of turns whose connection fails
    or is up for less than a minute, the bounds of the waits are 1 s, 2 s, 4 s, ...
    up to 30 s; a turn whose connection was up for a minute starts the row again
    whatever came before; and the jittered wait is below the bound. *)
Theorem reconnection_backoff (st : loop_state) (pre us : list attempt) (s : attempt)
    (Hpre : forallb goes_on pre = true) (Hs : stable s = true) (Hus : forallb unstable us = true) :
  waits (runConnectionLoop initial_loop us) = backoff <$> seq 0 (length us)
  /\ waits (runConnectionLoop st (pre ++ s :: us))
     = waits (runConnectionLoop st pre) ++ (backoff <$> seq 0 (Datatypes.S (length us)))
  /\ (forall n random, (0 <= Qnum random < Zpos (Qden random))%Z ->
        0 <= withFullJitter random (backoff n) < backoff n).
Proof.
  split; [by apply unstable_waits|]. split.
  - revert st. induction pre as [|a pre IH]; intros st.
    + assert (goes_on s = true) as Hg by (unfold stable in Hs; by bool_prop).
      destruct (run_cons_waits st s us Hg) as (st' & E & Hd). cbn [app]. rewrite E. rewrite Hs in *.
      simpl. f_equal. rewrite <- fmap_S_seq, <- list_fmap_compose.
      erewrite (unstable_waits us 1); [|done|by rewrite Hd].
      rewrite <- fmap_S_seq, <- list_fmap_compose. done.
    + simpl in Hpre. bool_prop. cbn [app runConnectionLoop].
      destruct (turn_goes_on st a) as (out & st' & E & _); [done|]. rewrite E.
      by rewrite !waits_app, IH, app_assoc.
  - intros n random Hr. pose proof (backoff_bounds n). unfold withFullJitter. split.
    + apply Z.div_pos; [nia|lia].
    + apply Z.div_lt_upper_bound; nia.
Qed.

(** Turns of an environment: the server refuses, or serves for a given time. *)
Definition refused : attempt :=
  {| token := Some (u "t"); fetched := Some {| status := 503; accepted := false; chunks := []; duration := 0 |};
     refreshed := None; refetched := None; aborted_after_fetch := false; aborted_after_stream := false |}.
Definition served (ms : Z) : attempt :=
  {| token := Some (u "t"); fetched := Some {| status := 200; accepted := true; chunks := []; duration := ms |};
     refreshed := None; refetched := None; aborted_after_fetch := false; aborted_after_stream := false |}.

Example reconnection_backoff_witness :
  waits (runConnectionLoop initial_loop ([refused; refused] ++ served 60000 :: [refused; served 5]))
  = [1000; 2000; 1000; 2000; 4000].
Proof.
  pose proof (reconnection_backoff initial_loop [refused; refused] [refused; served 5] (served 60000)
    eq_refl eq_refl eq_refl) as (_ & H & _).
  rewrite H. reflexivity.
Defined.
