(* ===== verification/LiveTabs.v ===== *)
(** * Which tab holds the live connection (web/src/hooks/useLiveMemoRefresh.ts,
    coordination half)

    The effect of the hook in every open tab, with the exclusive Web Lock and the
    sync channel.  One [tab] is one run of the effect; [world] adds the lock.  The
    handlers are functions on a tab; [step] interleaves page events, the 30-second
    timer, the lock manager and the end of connection loops of all tabs.  The
    connection loop itself is in LiveStream.v: here it runs until it returns. *)

From S2P Require Import Prelude JSString LiveStream.

(** A leadership task, named by the number of its AbortController: waiting for the
    lock, or inside the connection loop. *)
Inductive phase := Queued | Running.

Record tab := {
  hasChannel : bool;               (* channel !== null *)
  channelClientID : jstring;
  signedIn : bool;                 (* currentUserName *)
  mounted : bool;
  isLeader : bool;
  leadershipAbortController : option nat;
  nextController : nat;            (* AbortControllers created so far *)
  aborted : gset nat;
  tasks : gmap nat phase;
  hiddenDisconnectTimeout : bool;  (* the timer is set *)
  visible : bool;                  (* document.visibilityState === "visible" *)
  onLine : bool;                   (* navigator.onLine *)
  tabStatus : SSEConnectionStatus;
  hasConnectedOnceRef : bool;
}.

Inductive message :=
  | MEvent (invalidates : list query)
  | MStatus (s : SSEConnectionStatus) (targetID : option jstring)
  | MStatusRequest (requesterID : jstring).

(** What a handler does outside the tab's state. *)
Inductive effect := Post (m : message) | Invalidate (q : list query).

(** Field updates. *)
Definition set_leadership (l : bool) (c : option nat) (n : nat) (a : gset nat) (ts : gmap nat phase) (t : tab) : tab :=
  {| hasChannel := hasChannel t; channelClientID := channelClientID t; signedIn := signedIn t;
     mounted := mounted t; isLeader := l; leadershipAbortController := c; nextController := n;
     aborted := a; tasks := ts; hiddenDisconnectTimeout := hiddenDisconnectTimeout t;
     visible := visible t; onLine := onLine t; tabStatus := tabStatus t;
     hasConnectedOnceRef := hasConnectedOnceRef t |}.
Definition set_page (m v o h : bool) (t : tab) : tab :=
  {| hasChannel := hasChannel t; channelClientID := channelClientID t; signedIn := signedIn t;
     mounted := m; isLeader := isLeader t; leadershipAbortController := leadershipAbortController t;
     nextController := nextController t; aborted := aborted t; tasks := tasks t;
     hiddenDisconnectTimeout := h; visible := v; onLine := o; tabStatus := tabStatus t;
     hasConnectedOnceRef := hasConnectedOnceRef t |}.
Definition set_live (s : SSEConnectionStatus) (once : bool) (t : tab) : tab :=
  {| hasChannel := hasChannel t; channelClientID := channelClientID t; signedIn := signedIn t;
     mounted := mounted t; isLeader := isLeader t; leadershipAbortController := leadershipAbortController t;
     nextController := nextController t; aborted := aborted t; tasks := tasks t;
     hiddenDisconnectTimeout := hiddenDisconnectTimeout t; visible := visible t; onLine := onLine t;
     tabStatus := s; hasConnectedOnceRef := once |}.

Definition setSSEStatus (s : SSEConnectionStatus) (t : tab) : tab := set_live s (hasConnectedOnceRef t) t.

Definition isPageEligibleForSSE (t : tab) : bool := visible t && onLine t.

(** Without the channel the task runs at once; with it the lock is requested. *)
Definition startLeadership (t : tab) : tab * list effect :=
  if negb (mounted t) || match leadershipAbortController t with Some _ => true | None => false end
     || negb (signedIn t) || negb (isPageEligibleForSSE t)
  then (t, [])
  else
    let c := nextController t in
    let t' :=
      if hasChannel t
      then set_leadership (isLeader t) (Some c) (c + 1) (aborted t) (<[c := Queued]> (tasks t)) t
      else set_leadership true (Some c) (c + 1) (aborted t) (<[c := Running]> (tasks t)) t in
    (t', [Post (MStatusRequest (channelClientID t))]).

Definition stopLeadership (t : tab) : tab :=
  let a := match leadershipAbortController t with Some c => {[c]} ∪ aborted t | None => aborted t end in
  setSSEStatus disconnected (set_leadership (isLeader t) None (nextController t) a (tasks t) t).

Definition clearHiddenDisconnectTimeout (t : tab) : tab := set_page (mounted t) (visible t) (onLine t) false t.

Definition reconcilePageState (t : tab) : tab * list effect :=
  if negb (visible t) then (set_page (mounted t) (visible t) (onLine t) true t, [])
  else
    let t := clearHiddenDisconnectTimeout t in
    if negb (onLine t) then (stopLeadership t, [])
    else startLeadership t.

(** The callback of the 30-second timer. *)
Definition hiddenTimeout (t : tab) : tab := stopLeadership (clearHiddenDisconnectTimeout t).

Definition handleVisibilityChange (v : bool) (t : tab) : tab * list effect :=
  reconcilePageState (set_page (mounted t) v (onLine t) (hiddenDisconnectTimeout t) t).
Definition handleOnline (t : tab) : tab * list effect :=
  reconcilePageState (set_page (mounted t) (visible t) true (hiddenDisconnectTimeout t) t).
Definition handleOffline (t : tab) : tab :=
  stopLeadership (set_page (mounted t) (visible t) false (hiddenDisconnectTimeout t) t).
Definition handlePageHide (t : tab) : tab := stopLeadership (clearHiddenDisconnectTimeout t).
Definition handlePageShow (t : tab) : tab * list effect := reconcilePageState t.

Definition handleSyncMessage (m : message) (t : tab) : tab * list effect :=
  match m with
  | MEvent q => (set_live (tabStatus t) true t, [Invalidate q])
  | MStatus s targetID =>
      if match targetID with Some ((_ :: _) as id) => negb (js_eqb id (channelClientID t)) | _ => false end
      then (t, [])
      else match s with
           | connected =>
               (set_live s true t,
                if hasConnectedOnceRef t then [Invalidate invalidateAllLiveQueries] else [])
           | _ => (setSSEStatus s t, [])
           end
  | MStatusRequest requesterID =>
      (t, if isLeader t then [Post (MStatus (tabStatus t) (Some requesterID))] else [])
  end.

(** The effect starts: the page as it is, nothing requested yet. *)
Definition new_tab (channel user v o : bool) (id : jstring) (s : SSEConnectionStatus) (once : bool) : tab :=
  {| hasChannel := channel; channelClientID := id; signedIn := user; mounted := true; isLeader := false;
     leadershipAbortController := None; nextController := 0; aborted := ∅; tasks := ∅;
     hiddenDisconnectTimeout := false; visible := v; onLine := o; tabStatus := s;
     hasConnectedOnceRef := once |}.

Definition mount (t : tab) : tab * list effect :=
  if negb (signedIn t) then (setSSEStatus disconnected t, []) else reconcilePageState t.

(** The cleanup function of the effect. *)
Definition cleanup (t : tab) : tab :=
  stopLeadership (clearHiddenDisconnectTimeout
    (setSSEStatus disconnected (set_page false (visible t) (onLine t) (hiddenDisconnectTimeout t) t))).

(** [finally]: forget the controller of a task that has ended. *)
Definition end_task (c : nat) (leader : bool) (t : tab) : tab :=
  set_leadership leader
    (if decide (leadershipAbortController t = Some c) then None else leadershipAbortController t)
    (nextController t) (aborted t) (delete c (tasks t)) t.

(** The lock is granted to task [c]: it enters the loop if the page is still eligible. *)
Definition enters (t : tab) : bool := isPageEligibleForSSE t.
Definition enter_task (c : nat) (t : tab) : tab :=
  set_leadership true (leadershipAbortController t) (nextController t) (aborted t)
    (<[c := Running]> (tasks t)) t.

(** ** The tabs of a browser *)

Record world := { tabs : gmap nat tab; lock : option (nat * nat) }.

Definition set_tab (i : nat) (t : tab) (w : world) : world := {| tabs := <[i := t]> (tabs w); lock := lock w |}.

(** Events of one tab that leave its tasks and the lock to the lock manager.  Page
    events reach a tab while the effect is mounted. *)
Inductive tab_event : tab -> tab -> Prop :=
  | ev_visibility v t : mounted t = true -> tab_event t (handleVisibilityChange v t).1
  | ev_online t : mounted t = true -> tab_event t (handleOnline t).1
  | ev_offline t : mounted t = true -> tab_event t (handleOffline t)
  | ev_pagehide t : mounted t = true -> tab_event t (handlePageHide t)
  | ev_pageshow t : mounted t = true -> tab_event t (handlePageShow t).1
  | ev_timer t : hiddenDisconnectTimeout t = true -> tab_event t (hiddenTimeout t)
  | ev_message m t : mounted t = true -> tab_event t (handleSyncMessage m t).1
  | ev_status s once t : tab_event t (set_live s once t)
  | ev_cleanup t : mounted t = true -> tab_event t (cleanup t).

Inductive step : world -> world -> Prop :=
  | step_mount i channel user v o id s once w :
      tabs w !! i = None -> step w (set_tab i (mount (new_tab channel user v o id s once)).1 w)
  | step_tab i t t' w : tabs w !! i = Some t -> tab_event t t' -> step w (set_tab i t' w)
  (* an aborted request leaves the lock manager's queue *)
  | step_drop i t c w :
      tabs w !! i = Some t -> tasks t !! c = Some Queued -> c ∈ aborted t ->
      step w (set_tab i (end_task c (isLeader t) t) w)
  (* the lock is free and is granted to a waiting request *)
  | step_grant i t c w :
      tabs w !! i = Some t -> tasks t !! c = Some Queued -> c ∉ aborted t -> lock w = None ->
      enters t = true ->
      step w {| tabs := <[i := enter_task c t]> (tabs w); lock := Some (i, c) |}
  | step_grant_ineligible i t c w :
      tabs w !! i = Some t -> tasks t !! c = Some Queued -> c ∉ aborted t -> lock w = None ->
      enters t = false ->
      step w (set_tab i (end_task c (isLeader t) t) w)
  (* a connection loop returns, and with the channel the lock is released *)
  | step_finish i t c w :
      tabs w !! i = Some t -> tasks t !! c = Some Running ->
      step w {| tabs := <[i := end_task c false t]> (tabs w);
                lock := if hasChannel t then None else lock w |}.

Definition init_world : world := {| tabs := ∅; lock := None |}.

Inductive reachable : world -> Prop :=
  | reachable_init : reachable init_world
  | reachable_step w w' : reachable w -> step w w' -> reachable w'.

(** ** Invariants *)

(** Of one tab: every task is the current one or has been aborted. *)
Definition core (t : tab) : Prop :=
  (forall c p, tasks t !! c = Some p ->
     (c < nextController t)%nat /\ (leadershipAbortController t = Some c \/ c ∈ aborted t))
  /\ (forall c, leadershipAbortController t = Some c -> (c < nextController t)%nat /\ c ∉ aborted t)
  /\ (forall c, c ∈ aborted t -> (c < nextController t)%nat).

(** There is no current task when the effect is cleaned up, the page is offline or
    nobody is signed in; a hidden page has its timer running or no current task. *)
Definition tab_ok (t : tab) : Prop :=
  core t
  /\ (forall c, leadershipAbortController t = Some c -> mounted t = true /\ onLine t = true /\ signedIn t = true)
  /\ (visible t = false -> hiddenDisconnectTimeout t = true \/ leadershipAbortController t = None).

(** Of the lock: in a tab with the channel, leading is having a running task, and the
    running task holds the lock. *)
Definition lock_ok (l : option (nat * nat)) (i : nat) (t : tab) : Prop :=
  hasChannel t = true ->
  (isLeader t = true <-> exists c, tasks t !! c = Some Running)
  /\ forall c, tasks t !! c = Some Running -> l = Some (i, c).

Definition world_ok (w : world) : Prop :=
  forall i t, tabs w !! i = Some t -> tab_ok t /\ lock_ok (lock w) i t.

(** [t'] has the running tasks of [t]. *)
Definition same_run (t t' : tab) : Prop :=
  hasChannel t' = hasChannel t
  /\ (hasChannel t = true -> isLeader t' = isLeader t
      /\ forall c, tasks t' !! c = Some Running <-> tasks t !! c = Some Running).

Lemma same_run_lock l i t t' : same_run t t' -> lock_ok l i t -> lock_ok l i t'.
Proof.
  intros [H1 H2] HL Hc. rewrite H1 in Hc. destruct (H2 Hc) as [-> Hr]. destruct (HL Hc) as [L1 L2].
  split; [rewrite L1|intros c; rewrite Hr; apply L2].
  split; intros [c Hc']; exists c; by apply Hr.
Qed.

Lemma same_run_refl t : same_run t t.
Proof. by split. Qed.

Lemma stop_ok t : core t -> tab_ok (stopLeadership t) /\ same_run t (stopLeadership t).
Proof.
  intros (H1 & H2 & H3). split; [|by split]. split; [|split; [done|by right]].
  unfold stopLeadership, core. cbn. destruct (leadershipAbortController t) as [c0|] eqn:E.
  - destruct (H2 c0 eq_refl). split; [|split; [done|]].
    + intros c p Hp. destruct (H1 _ _ Hp) as [? [Hc|Hc]]; (split; [done|]); right; [simplify_eq|]; set_solver.
    + intros c [->%elem_of_singleton|Hc]%elem_of_union; [done|by apply H3].
  - split; [|by split]. intros c p Hp. by destruct (H1 _ _ Hp) as [? [?|?]]; [done|split; [|right]].
Qed.

Lemma start_ok t :
  core t -> (forall c, leadershipAbortController t = Some c -> mounted t = true /\ onLine t = true /\ signedIn t = true) ->
  visible t = true -> tab_ok (startLeadership t).1 /\ same_run t (startLeadership t).1.
Proof.
  intros (H1 & H2 & H3) Hc Hv. unfold startLeadership.
  destruct (_ || _) eqn:E; [split; [|apply same_run_refl]; cbn; split; [done|]; split; [done|congruence]|].
  apply orb_false_iff in E as [E E4]. apply orb_false_iff in E as [E E3]. apply orb_false_iff in E as [E1 E2].
  bool_prop. unfold isPageEligibleForSSE in E4. bool_prop.
  destruct (leadershipAbortController t) eqn:El; [done|].
  assert (tasks t !! nextController t = None) as Hfresh.
  { destruct (tasks t !! nextController t) as [p|] eqn:Ep; [|done]. apply H1 in Ep. lia. }
  assert (forall l p, tab_ok (set_leadership l (Some (nextController t)) (nextController t + 1) (aborted t)
      (<[nextController t := p]> (tasks t)) t)) as Hok.
  { intros l p. split; [split; [|split]|split]; cbn.
    - intros c q [[<- _]|[Hne Hq]]%lookup_insert_Some; [split; [lia|by left]|].
      destruct (H1 _ _ Hq) as [? [?|?]]; [done|]. split; [lia|by right].
    - intros c [= <-]. split; [lia|]. intros Hin%H3. lia.
    - intros c Hin%H3. lia.
    - done.
    - congruence. }
  destruct (hasChannel t) eqn:Ech; cbn [fst]; (split; [apply Hok|]); (split; [done|]); cbn; [|congruence].
  intros _. split; [done|]. intros c. destruct (decide (c = nextController t)) as [->|Hne].
  - rewrite lookup_insert_eq, Hfresh. done.
  - by rewrite lookup_insert_ne.
Qed.

Lemma reconcile_ok t :
  core t -> (forall c, leadershipAbortController t = Some c -> mounted t = true /\ onLine t = true /\ signedIn t = true) ->
  tab_ok (reconcilePageState t).1 /\ same_run t (reconcilePageState t).1.
Proof.
  intros Hcore Hc. unfold reconcilePageState. destruct (visible t) eqn:Ev; cbn [negb].
  - destruct (onLine t) eqn:Eo; cbn [negb onLine clearHiddenDisconnectTimeout set_page].
    + rewrite Eo. apply (start_ok (clearHiddenDisconnectTimeout t)); [exact Hcore| |exact Ev].
      intros c E. destruct (Hc c E) as (? & _ & ?). done.
    + rewrite Eo. cbn [fst negb]. apply (stop_ok (clearHiddenDisconnectTimeout t)). exact Hcore.
  - split; [|by split]. split; [exact Hcore|]. cbn. split; [exact Hc|by left].
Qed.

Lemma event_ok t t' : tab_ok t -> tab_event t t' -> tab_ok t' /\ same_run t t'.
Proof.
  intros (Hcore & Hc & Hh) He. destruct He as [v t Hm|t Hm|t Hm|t Hm|t Hm|t Ht|m t Hm|s once t|t Hm].
  - apply (reconcile_ok (set_page (mounted t) v (onLine t) (hiddenDisconnectTimeout t) t)); [exact Hcore|exact Hc].
  - apply (reconcile_ok (set_page (mounted t) (visible t) true (hiddenDisconnectTimeout t) t)); [exact Hcore|].
    intros c E. cbn in *. destruct (Hc c E) as (? & _ & ?). done.
  - apply (stop_ok (set_page (mounted t) (visible t) false (hiddenDisconnectTimeout t) t)). exact Hcore.
  - apply (stop_ok (clearHiddenDisconnectTimeout t)). exact Hcore.
  - by apply reconcile_ok.
  - apply (stop_ok (clearHiddenDisconnectTimeout t)). exact Hcore.
  - assert (forall s once, tab_ok (set_live s once t) /\ same_run t (set_live s once t)) as Hlive
      by (intros; split; [split; [exact Hcore|split; [exact Hc|exact Hh]]|by split]).
    destruct m as [q|s target|r]; cbn; [apply Hlive| |by split].
    destruct (match target with Some ((_ :: _) as id) => _ | _ => _ end); [by split|].
    destruct s; apply Hlive.
  - split; [split; [exact Hcore|split; [exact Hc|exact Hh]]|by split].
  - apply (stop_ok (clearHiddenDisconnectTimeout (setSSEStatus disconnected
      (set_page false (visible t) (onLine t) (hiddenDisconnectTimeout t) t)))). exact Hcore.
Qed.

Lemma end_task_ok c l t : tab_ok t -> tab_ok (end_task c l t).
Proof.
  intros ((H1 & H2 & H3) & Hc & Hh). unfold end_task. split; [split; [|split]|split]; cbn.
  - intros c' p [Hne Hp]%lookup_delete_Some. destruct (H1 _ _ Hp) as [? Hor]. split; [done|].
    case_decide; [|done]. destruct Hor; [congruence|by right].
  - intros c'. case_decide; [done|]. apply H2.
  - exact H3.
  - intros c'. case_decide; [done|]. apply Hc.
  - intros Hv. destruct (Hh Hv) as [?|?]; [by left|right]. by case_decide.
Qed.

Lemma enter_task_ok c t : tab_ok t -> tasks t !! c = Some Queued -> tab_ok (enter_task c t).
Proof.
  intros ((H1 & H2 & H3) & Hc & Hh) Ht. split; [split; [|split]|split]; cbn; try done.
  intros c' p [[<- _]|[_ Hp]]%lookup_insert_Some; [by eapply H1|by eapply H1].
Qed.

Lemma drop_same_run c t :
  tasks t !! c = Some Queued -> same_run t (end_task c (isLeader t) t).
Proof.
  intros Hq. split; [done|]. intros _. split; [done|]. intros c'. cbn.
  destruct (decide (c' = c)) as [->|]; [rewrite lookup_delete_eq, Hq; done|by rewrite lookup_delete_ne].
Qed.

Lemma new_tab_ok channel user v o id s once : tab_ok (new_tab channel user v o id s once).
Proof.
  split; [|split; [done|by right]]. split; [|split; [done|]]; cbn.
  - intros c p Hp. by rewrite lookup_empty in Hp.
  - intros c Hc. set_solver.
Qed.

Lemma set_tab_world i t' w :
  world_ok w -> tab_ok t' -> lock_ok (lock w) i t' -> world_ok (set_tab i t' w).
Proof.
  intros HW H1 H2 j t. cbn. intros [[<- <-]|[_ Hj]]%lookup_insert_Some; [done|by apply HW].
Qed.

Lemma step_ok w w' : world_ok w -> step w w' -> world_ok w'.
Proof.
  intros HW Hs. destruct Hs as [i channel user v o id s once w Hi|i t t' w Ht He|i t c w Ht Hq Ha
    |i t c w Ht Hq Ha Hl He|i t c w Ht Hq Ha Hl He|i t c w Ht Hr].
  - assert (tab_ok (mount (new_tab channel user v o id s once)).1
            /\ same_run (new_tab channel user v o id s once) (mount (new_tab channel user v o id s once)).1)
      as [H1 H2].
    { pose proof (new_tab_ok channel user v o id s once) as (Hcore & Hc & Hh). unfold mount.
      destruct (negb _); [|by apply reconcile_ok].
      split; [split; [exact Hcore|split; [exact Hc|exact Hh]]|by split]. }
    apply set_tab_world; [done|done|]. eapply same_run_lock; [exact H2|]. intros _. cbn. split.
    + split; [done|]. intros [c Hc]. by rewrite lookup_empty in Hc.
    + intros c Hc. by rewrite lookup_empty in Hc.
  - destruct (HW i t Ht) as [Hok HL]. destruct (event_ok t t' Hok He).
    apply set_tab_world; [done|done|by eapply same_run_lock].
  - destruct (HW i t Ht) as [Hok HL]. apply set_tab_world; [done|by apply end_task_ok|].
    eapply same_run_lock; [by apply drop_same_run|done].
  - intros j t' Hjt. cbn in Hjt. apply lookup_insert_Some in Hjt as [[<- <-]|[Hne Hj]]; cbn.
    + destruct (HW i t Ht) as [Hok HL]. split; [by apply enter_task_ok|]. intros Hch. cbn.
      split; [split; [intros _; exists c; apply lookup_insert_eq|done]|].
      intros c' [[<- _]|[_ Hr]]%lookup_insert_Some; [done|]. destruct (HL Hch) as [_ L2].
      apply L2 in Hr. congruence.
    + destruct (HW j t' Hj) as [Hok HL]. split; [done|]. intros Hch. destruct (HL Hch) as [L1 L2].
      split; [done|]. intros c' Hr. apply L2 in Hr. congruence.
  - destruct (HW i t Ht) as [Hok HL]. apply set_tab_world; [done|by apply end_task_ok|].
    eapply same_run_lock; [by apply drop_same_run|done].
  - destruct (HW i t Ht) as [Hok HL].
    intros j t' Hjt. cbn in Hjt. apply lookup_insert_Some in Hjt as [[<- <-]|[Hne Hj]]; cbn.
    + split; [by apply end_task_ok|]. intros Hch. cbn in Hch. destruct (HL Hch) as [L1 L2]. rewrite Hch.
      assert (forall c', delete c (tasks t) !! c' <> Some Running) as Hno.
      { intros c' [Hne Hr']%lookup_delete_Some. apply L2 in Hr, Hr'. congruence. }
      cbn. split; [split; [done|]|]; [intros [c' Hc']|intros c' Hc']; by apply Hno in Hc'.
    + destruct (HW j t' Hj) as [Hok' HL']. split; [done|]. intros Hch'. destruct (HL' Hch') as [L1' L2'].
      split; [done|]. intros c' Hr'. destruct (hasChannel t) eqn:Hch; [|by apply L2'].
      destruct (HL Hch) as [_ L2]. apply L2 in Hr. apply L2' in Hr'. congruence.
Qed.

Lemma reachable_ok w : reachable w -> world_ok w.
Proof.
  induction 1 as [|w w' _ IH Hs]; [|by eapply step_ok]. intros i t Ht. cbn in Ht; by rewrite lookup_empty in Ht.
Qed.

(** ** Properties *)

(** C9. However page events, timers, lock grants and returning loops of all the tabs
    interleave, at most one of the tabs that coordinate through the channel leads,
    and it has exactly one running connection loop, the holder of the lock. *)
Theorem at_most_one_leader (w : world) (i j : nat) (ti tj : tab) (Hw : reachable w)
    (Hi : tabs w !! i = Some ti) (Hj : tabs w !! j = Some tj)
    (Hci : hasChannel ti = true) (Hcj : hasChannel tj = true)
    (Hli : isLeader ti = true) (Hlj : isLeader tj = true) :
  i = j /\ exists c, lock w = Some (i, c) /\ forall c', tasks ti !! c' = Some Running <-> c' = c.
Proof.
  pose proof (reachable_ok w Hw) as HW.
  destruct (HW i ti Hi) as [_ HL]. destruct (HL Hci) as [L1 L2].
  destruct (HW j tj Hj) as [_ HL']. destruct (HL' Hcj) as [L1' L2'].
  destruct (proj1 L1 Hli) as [c Hc]. destruct (proj1 L1' Hlj) as [c' Hc'].
  pose proof (L2 c Hc) as E. pose proof (L2' c' Hc') as E'. split; [congruence|].
  exists c. split; [done|]. intros c2. split; [|by intros ->]. intros Hc2%L2. congruence.
Qed.

(** No connection is orphaned: in every reachable state a leadership task that has
    not been aborted is the tab's current one, and then the effect is mounted, the
    user signed in and the page online, and a hidden page has its disconnect timer
    running; so after cleanup, going offline or the timer every task is aborted. *)
Theorem no_orphan_connection (w : world) (i : nat) (t : tab) (Hw : reachable w) (Ht : tabs w !! i = Some t) :
  (forall c p, tasks t !! c = Some p -> c ∉ aborted t ->
     leadershipAbortController t = Some c /\ mounted t = true /\ onLine t = true /\ signedIn t = true
     /\ (visible t = false -> hiddenDisconnectTimeout t = true))
  /\ forall t', t' ∈ [cleanup t; handleOffline t; hiddenTimeout t; handlePageHide t] ->
       forall c p, tasks t' !! c = Some p -> c ∈ aborted t'.
Proof.
  destruct (reachable_ok w Hw i t Ht) as [(Hcore & Hc & Hh) _]. split.
  - intros c p Hp Hna. destruct Hcore as (H1 & _ & _). destruct (H1 c p Hp) as [_ [E|?]]; [|done].
    destruct (Hc c E) as (? & ? & ?). repeat split; try done. intros Hv. destruct (Hh Hv); [done|congruence].
  - assert (forall t1, core t1 -> forall c p, tasks (stopLeadership t1) !! c = Some p ->
      c ∈ aborted (stopLeadership t1)) as Hstop.
    { intros t1 Hc1 c p Hp. destruct (stop_ok t1 Hc1) as [((S1 & _ & _) & _) _].
      destruct (S1 c p Hp) as [_ [E|?]]; done. }
    intros t' Hin. rewrite !elem_of_cons in Hin.
    destruct Hin as [->|[->|[->|[->|Hin]]]]; [apply Hstop; exact Hcore..|set_solver].
Qed.

(** ** Witnesses *)

Definition shown (id : jstring) : tab := new_tab true true true true id disconnected false.
Definition leading : world :=
  {| tabs := <[0%nat := enter_task 0 (mount (shown (u "a"))).1]> (tabs (set_tab 0 (mount (shown (u "a"))).1 init_world));
     lock := Some (0%nat, 0%nat) |}.

Lemma leading_reachable : reachable leading.
Proof.
  eapply reachable_step.
  - eapply reachable_step; [exact reachable_init|].
    exact (step_mount 0 true true true true (u "a") disconnected false init_world eq_refl).
  - apply (step_grant 0 (mount (shown (u "a"))).1 0); try reflexivity. exact (not_elem_of_empty 0%nat).
Qed.

Example at_most_one_leader_witness :
  exists t c, tabs leading !! 0%nat = Some t /\ isLeader t = true /\ lock leading = Some (0%nat, c).
Proof.
  exists (enter_task 0 (mount (shown (u "a"))).1).
  destruct (at_most_one_leader leading 0 0 (enter_task 0 (mount (shown (u "a"))).1)
    (enter_task 0 (mount (shown (u "a"))).1) leading_reachable eq_refl eq_refl eq_refl eq_refl eq_refl eq_refl)
    as (_ & c & Hc & _).
  exists c. split; [reflexivity|]. split; [reflexivity|exact Hc].
Defined.

Example no_orphan_connection_witness :
  let t := enter_task 0 (mount (shown (u "a"))).1 in
  leadershipAbortController t = Some 0%nat /\ 0%nat ∈ aborted (cleanup t).
Proof.
  cbv zeta.
  destruct (no_orphan_connection leading 0 (enter_task 0 (mount (shown (u "a"))).1) leading_reachable eq_refl)
    as [H1 H2].
  split.
  - apply (H1 0%nat Running); [reflexivity|]. exact (not_elem_of_empty 0%nat).
  - apply (H2 (cleanup (enter_task 0 (mount (shown (u "a"))).1)) (list_elem_of_here _ _) 0%nat Running). reflexivity.
Defined.
